(* ===== verification/_CoqProject ===== *)
-Q . S2P
Prelude.v
Text.v
Json.v
Protocol.v
Sessions.v
Modules.v
Registry.v
Geometry.v
State.v
Runtime.v
Capture.v
Control.v
Clipboard.v
Connection.v
Server.v
Steps.v
System.v
Permissions.v
RecallContext.v
Fence.v
Device.v
Keyframes.v
HistoryIngest.v
Spool.v
Delivery.v
Throttle.v
Segments.v
Ingest.v
Input.v
Enrollment.v
Retention.v
Accounts.v
AgentSession.v
Alerts.v
Viewer.v
Terminal.v
Scripts.v
Policies.v
Enforcement.v
Sql.v
WebActivity.v
UrlCategories.v
RecallBrowse.v
RecallBlobs.v
Keyboard.v
KeyboardLinux.v
KeyboardWindows.v
HistoryCapture.v
