(* ===== verification/Prelude.v ===== *)
(** * Vantyr: a verification library of the server, the agent and their protocol

    Vantyr is a monitoring system: a Rust server ([src/server]), a device agent ([src/agent]) and
    the crate of types they share ([src/protocol]). The library models the parts that decide who
    may see or do what, and the parts that must not lose or corrupt data, as executable
    functions on explicit state, and proves what they promise. Names follow the source; each
    file opens with the source files it models.

    ** Conventions

    Values that cross the wire are [Json.json], an inductive of [serde_json::Value] with sorted
    objects; every reader of the code (derived, lenient, [deny_unknown_fields]) is a function on
    it. Code outside the repository is a class or an argument with its documented law: the text
    form of a uuid ([UuidText]), JSON text ([JsonText]: printing then parsing gives a plain value
    back), host names ([HostText]), RFC 3339 ([ChronoText]), [Base64], PostgreSQL's
    full-text search ([FullText]), the iteration order of hash maps. Clocks, fresh uuids, and the
    outcome of each database, file or operating-system call are arguments, so a theorem holds for
    every outcome. Machine integers are [Z] with their
    bounds written out where they saturate, wrap or fail; an [Instant] is in nanoseconds; bytes
    are [list Z]; a [string] holds UTF-8 bytes. Functions guarded by one lock in the code are one
    step; what the code does between two awaits is a step of its own where an interleaving can
    be observed. Each witness evaluates a theorem on concrete values.

    ** The shared crate and the values

    - [Prelude]: results, options, uuids, clocks, integers, list lemmas. [Text]: characters,
      trimming, splitting, addresses. [Json]: values, accessors, sorted objects.
    - [Protocol]: [protocol/src/commands.rs], [modules.rs], [lenient.rs]. Every server command
      prints and parses back, and has one gate (the module that must be granted).
    - [RecallContext]: [protocol/src/recall_context.rs] and the agent's use of it.

    ** The server: control plane

    - [Sessions]: the remote-input leases and what they hold down ([control/sessions.rs]).
      Tokens are conserved; the releases sent at the end are exactly what was left down.
    - [Modules], [Registry], [Connection]: reports of a device's grants, the table of
      connections, command authorization, disable requests and acknowledgments
      ([agents/modules/mod.rs], [state/agent_registry.rs], [agent_ws/connection.rs]).
    - [Geometry], [State], [Capture]: captured frames, streams and which capture an agent runs
      ([control/capture_arbitration.rs], [state/live_media.rs]; [agent/src/capture/geometry.rs]).
    - [Runtime], [Control], [Clipboard]: teardown delivery, viewer operations, clipboard
      requests and delivery-time checks ([control/runtime.rs], [control/clipboard.rs]).
    - [Server], [Steps], [System]: the operations above as one transition system on [AppState]
      with the socket tasks, its invariant by rule induction, and the properties of reachable
      states: input only under a live lease, delivery only to the connection and grants it was
      meant for, complete teardown when a connection ends.

    ** The device: grants and fences

    - [Permissions]: the grant store, its transactions, reports, revocations and worker leases
      ([agent/src/permissions/store.rs], [workers.rs]).
    - [Fence]: admission of commands and the last filter before the socket
      ([agent/src/permissions/fence.rs]).
    - [Device]: the server's half against the device's: a stamped command is admitted exactly
      while its grant stands, reports and answers are accepted.

    ** Recall: keyframes end to end

    - [Keyframes], [HistoryIngest]: the server's check and storage of a keyframe
      ([recall/context.rs], [agent_ws/history_ingest.rs], [recall/db/frames.rs]).
    - [HistoryCapture]: the capture loop ([agent/src/capture/history/mod.rs], [image_ops.rs]): cadence,
      change detection by hash, and the grant checks around each screenshot; no frame without a live
      grant, and a frame at least once per keyframe gap while the machine is in use.
    - [Spool]: the agent's spool and upload pump ([capture/history/spool.rs],
      [connection/agent_loop/history.rs]).
    - [Delivery]: all of it as one transition system with losses and reconnects: no frame is lost
      in silence, none is stored twice, and a healthy round delivers.
    - [RecallBrowse]: listing and searching the index ([recall/api/cursor.rs], [api/handlers],
      [recall/db/timeline.rs], [search.rs]): cursors read back and are bound to their request, and
      following them shows every frame or hit that stays, once, in order. Its keyset pages are in
      [Sql], with [LIKE] and what SQL leaves open.
    - [RecallBlobs]: a frame's picture and thumbnails ([recall/blob_store.rs], [api/blob.rs]), the
      capture settings devices are told ([recall/api/settings.rs]), the bounds of a local day.

    ** Ingestion and limits

    - [Ingest]: every frame an agent sends ([agent_ws/dispatch.rs]): routing, telemetry, replies.
    - [Throttle]: sign-in lockout, audit throttles and the client address behind proxies.
    - [Segments]: the activity narrative of a day ([recall/narrative]).
    - [Retention]: the removal of old Recall days from the disk and the database
      ([recall/retention.rs], [recall/db/partitions.rs]): only days that are old and not indexed go.
    - [Enrollment]: pairing codes, claims and their approval ([agents/enrollment], [lifecycle.rs]):
      uses are counted once, an approved device enrolls, a revoked one stays out.
    - [Accounts]: users, sessions, two-factor setup and single sign-on ([auth]): an administrator
      always remains, a session needs the credentials and ends with them.
    - [WebActivity], [UrlCategories]: browsing ([web_activity]): visits and sessions with their
      aggregates, which follow the stored rows; the category of a URL, decided by tiers of rules; the
      queue's worker, which empties it, each visit once; the administrator's rules, and the update of
      the lists, which replaces them or keeps them wherever it stops; reports that account for all
      time.

    ** Dashboards

    - [Viewer]: the viewer socket ([viewer/ws.rs]) on top of [System]: a run of viewers is a run of
      the server, so its invariants hold; control follows the viewer's session.
    - [Terminal], [Scripts]: the terminal socket ([terminal_ws.rs]); one-off, bulk and scheduled
      scripts ([scripts]), which fire once, and exactly when their schedules say.
    - [Alerts]: alert rules, their cooldowns, notifications and screenshots
      ([policy/alert_rules]).

    ** The device's work

    - [Input]: remote input on the device ([agent/src/input/remote]): the shape check, the injector
      and its worker; composed with [Sessions], the end of a lease leaves nothing pressed.
    - [AgentSession]: the session loop ([connection/agent_loop]): window, idle and URL tracking, the
      telemetry frames, the workers started and stopped, the retry delay.
    - [Keyboard], [KeyboardLinux], [KeyboardWindows]: the keyboard and idle monitors
      ([agent/src/platform/linux/keyboard_monitor.rs] and Windows' own): threads interleaved at each
      access of what they share on Linux, hook, channel and decoder on Windows. Text was typed under
      the grant it names, none is sent twice, and while the grant stands only the Windows bursts that find
      the queue full are lost; idle events pair.
    - [Policies], [Enforcement]: app-block and internet-block rules from the admin's edit through
      the tables and pushes ([policy], [policy_push.rs]) to the device, which stores them, ends
      matching processes and drives the firewall by the clock ([agent/src/policy]).

    ** Fuel and bounds

    [Permissions.drain_wait] polls with fuel 101, one more than the 2 s deadline allows at
    20 ms a poll; a theorem shows the wait ends within it. [Geometry.scan_segments] takes the
    length of the frame as fuel, and each segment consumes a byte. Number texts take the bit
    length. [Enrollment] draws a unique code at most [ALLOCATION_ATTEMPTS] (512) times, the bound of
    the code, and reports the failure as it does. [Retention.SCAN_FUEL] allows two turns for each
    entry the scan may count, and a lemma shows the scan ends by its own limits before the fuel
    does. Runs of schedulers, workers and transition systems are lists of steps. All other
    recursion is structural.

    ** Not modelled, and why

    SQL (queries are arguments with their rows or functions on finite tables, writes take an outcome),
    HTTP framing and status codes, password hashing and cryptography, JSON text itself, screen
    capture and the other Win32, Wayland and portal calls, sockets and TLS, the tray and settings
    windows, the installers and the TypeScript front ends: they call third-party code and hold
    little logic of their own. Dashboard queries (Recall's summaries, telemetry, fleet summary), the
    notification formats, configuration, device groups and the agent's file, log, inventory and
    update commands are left out: their content is mostly SQL, text for other
    services, or operating-system calls. The manifest lists each with its files. *)
From Stdlib Require Export Ascii.
From stdpp Require Export prelude gmap strings list finite.
From Stdlib Require Export ZArith.

#[export] Set Default Goal Selector "!".
#[export] Set Warnings "-clear-no-such-hyp".

Declare Scope vantyr_scope.
Delimit Scope vantyr_scope with vantyr.
Open Scope Z_scope.
Open Scope vantyr_scope.

(** ** Identifiers, clocks and machine integers *)

(** A [Uuid] is a 128-bit value; only equality, [nil] and the text form are used. *)
Abbreviation Uuid := N (only parsing).
Definition uuid_nil : Uuid := 0%N.

(** The text form of the [uuid] crate, which is not part of this repository: parsing reads
    back what printing wrote. *)
Class UuidText := {
  parse_uuid : string -> option Uuid;
  uuid_text : Uuid -> string;
  parse_uuid_text : forall u, parse_uuid (uuid_text u) = Some u
}.

(** A concrete text form, the binary digits, for evaluating the model on examples. *)
Fixpoint pos_bin (p : positive) : string :=
  match p with
  | xH => "1"
  | xO p => String "0"%char (pos_bin p)
  | xI p => String "1"%char (pos_bin p)
  end.
Fixpoint bin_pos (s : string) : option positive :=
  match s with
  | EmptyString => None
  | String "1"%char EmptyString => Some xH
  | String "0"%char s => xO <$> bin_pos s
  | String "1"%char s => xI <$> bin_pos s
  | _ => None
  end.
Lemma pos_bin_nonempty p : pos_bin p <> EmptyString.
Proof. by destruct p. Qed.
Lemma bin_pos_bin p : bin_pos (pos_bin p) = Some p.
Proof.
  induction p as [p IH|p IH|]; simpl; [|by rewrite IH|done].
  destruct (pos_bin p) eqn:E; [by destruct (pos_bin_nonempty p)|]. by rewrite IH.
Qed.
Definition bin_uuid : UuidText.
Proof.
  refine {| parse_uuid s := if String.eqb s "nil" then Some 0%N else N.pos <$> bin_pos s;
            uuid_text u := match u with N0 => "nil" | Npos p => pos_bin p end |}.
  intros [|p]; [done|]. destruct (String.eqb _ _) eqn:E.
  - apply String.eqb_eq in E. by destruct p.
  - by rewrite bin_pos_bin.
Defined.

(** A monotonic [Instant] and a [Duration], in nanoseconds. *)
Abbreviation Instant := Z (only parsing).
Abbreviation Duration := Z (only parsing).
Definition secs (n : Z) : Duration := n * 1000000000.
Definition millis (n : Z) : Duration := n * 1000000.
(** [Duration::as_secs] and [Duration::as_millis] truncate. *)
Definition as_secs (d : Duration) : Z := d / 1000000000.
Definition as_millis (d : Duration) : Z := d / 1000000.
(** [Instant::saturating_duration_since] (and [duration_since], which saturates since Rust 1.60). *)
Definition saturating_since (later earlier : Instant) : Duration := Z.max 0 (later - earlier).

Definition i32_min : Z := - 2 ^ 31.
Definition i32_max : Z := 2 ^ 31 - 1.
Definition i64_min : Z := - 2 ^ 63.
Definition i64_max : Z := 2 ^ 63 - 1.
Definition u16_max : Z := 2 ^ 16 - 1.
Definition u32_max : Z := 2 ^ 32 - 1.
Definition u64_max : Z := 2 ^ 64 - 1.
Definition in_range (lo hi z : Z) : bool := (lo <=? z) && (z <=? hi).
(** [i32::try_from], [u16::try_from]: [None] out of range. *)
Definition try_i32 (z : Z) : option Z := if in_range i32_min i32_max z then Some z else None.
Definition try_u16 (z : Z) : option Z := if in_range 0 u16_max z then Some z else None.
(** [u64::checked_add], [u64::saturating_add], [u64::saturating_mul], [u64::checked_shl]. *)
Definition u64_checked_add (a b : Z) : option Z := if a + b <=? u64_max then Some (a + b) else None.
Definition u64_saturating_add (a b : Z) : Z := Z.min u64_max (a + b).
Definition u64_saturating_mul (a b : Z) : Z := Z.min u64_max (a * b).
(** [Ord::clamp]. *)
Definition clampZ (lo hi z : Z) : Z := Z.min hi (Z.max lo z).

(** ** Errors *)

(** [Result<T, E>]. *)
Inductive result (T E : Type) : Type :=
| Ok (t : T)
| Err (e : E).
Arguments Ok {T E} t.
Arguments Err {T E} e.

Definition rbind {T U E} (m : result T E) (k : T -> result U E) : result U E :=
  match m with Ok t => k t | Err e => Err e end.
Definition rmap_err {T E F} (f : E -> F) (m : result T E) : result T F :=
  match m with Ok t => Ok t | Err e => Err (f e) end.
Definition ok_or {T E} (o : option T) (e : E) : result T E :=
  match o with Some t => Ok t | None => Err e end.
Definition rok {T E} (m : result T E) : option T :=
  match m with Ok t => Some t | Err _ => None end.
Definition is_ok {T E} (m : result T E) : bool :=
  match m with Ok _ => true | Err _ => false end.

Notation "'let*' x := m 'in' k" := (rbind m (fun x => k))
  (at level 10, x binder, m at level 100, k at level 200) : vantyr_scope.
(** [ensure!(b, e)] and an early [return Err(e)] under a guard. *)
Notation "'ensure' b 'else' e 'in' k" := (if b then k else Err e)
  (at level 10, b at level 100, e at level 100, k at level 200) : vantyr_scope.

(** [Option::is_some_and] and [Option::is_none_or]. *)
Definition is_some_and {A} (o : option A) (f : A -> bool) : bool :=
  match o with Some a => f a | None => false end.
Definition is_none_or {A} (o : option A) (f : A -> bool) : bool :=
  match o with Some a => f a | None => true end.
Definition ofilter {A} (f : A -> bool) (o : option A) : option A :=
  match o with Some a => if f a then Some a else None | None => None end.
Definition isSome {A} (o : option A) : bool := match o with Some _ => true | None => false end.

(** [map.len()] of a hash map. *)
Definition map_len {A} `{Countable K} (m : gmap K A) : Z := Z.of_nat (size m).

(** [slice.iter().position(f)]. *)
Fixpoint position {A} (f : A -> bool) (l : list A) : option nat :=
  match l with
  | [] => None
  | x :: l => if f x then Some 0%nat else S <$> position f l
  end.

(** ** Automation *)

Create HintDb vantyr.
Create Rewrite HintDb vantyr.

(** Case analysis on the first [match]/[if] of the goal or of a hypothesis. *)
Ltac case_step :=
  match goal with
  | |- context [match ?x with _ => _ end] =>
      lazymatch x with context [match _ with _ => _ end] => fail | _ => destruct x eqn:? end
  end.
Ltac case_step_in H :=
  match type of H with
  | context [match ?x with _ => _ end] =>
      lazymatch x with context [match _ with _ => _ end] => fail | _ => destruct x eqn:? end
  end.
Ltac case_all_in H := repeat (case_step_in H; simplify_eq/=; try done).
(** The next [ensure] of a function that is about to return [Ok]. *)
Ltac ensure_step :=
  match goal with |- (if ?b then _ else Err _) = Ok _ -> _ => destruct b eqn:?; [|done] end.
(** Boolean hypotheses to propositions. *)
Ltac bool_prop :=
  repeat match goal with
  | H : _ && _ = true |- _ => apply andb_prop in H as [? ?]
  | H : _ || _ = false |- _ => apply orb_false_elim in H as [? ?]
  | H : negb _ = true |- _ => apply negb_true_iff in H
  | H : negb _ = false |- _ => apply negb_false_iff in H
  | H : bool_decide _ = true |- _ => apply bool_decide_eq_true in H
  | H : bool_decide _ = false |- _ => apply bool_decide_eq_false in H
  | H : (_ <=? _) = true |- _ => apply Z.leb_le in H
  | H : (_ <=? _) = false |- _ => apply Z.leb_gt in H
  | H : (_ <? _) = true |- _ => apply Z.ltb_lt in H
  | H : (_ <? _) = false |- _ => apply Z.ltb_ge in H
  | H : (_ =? _) = true |- _ => apply Z.eqb_eq in H
  | H : (_ =? _) = false |- _ => apply Z.eqb_neq in H
  end.

(** ** Generic lemmas *)

Lemma existsb_eqb_elem (k : string) l : existsb (String.eqb k) l = true <-> k ∈ l.
Proof.
  rewrite existsb_exists. split; [intros (x & Hin & ->%String.eqb_eq); by apply list_elem_of_In|].
  intros Hin%list_elem_of_In. exists k. split; [done|apply String.eqb_refl].
Qed.
Lemma filter_sublist {A} (f : A -> bool) l : sublist (List.filter f l) l.
Proof. induction l as [|x l IH]; [apply sublist_nil_l|]. cbn [List.filter]. destruct (f x); by constructor. Qed.

Lemma Forall_sub {A} (P : A -> Prop) l k : sublist l k -> Forall P k -> Forall P l.
Proof. induction 1 as [|x l k S IH|x l k S IH]; intros F; [done|apply Forall_cons in F as [Px F]; constructor; auto|apply Forall_cons in F as [_ F]; auto]. Qed.
Lemma elem_of_concat {A} (x : A) (ls : list (list A)) : x ∈ concat ls <-> exists l, l ∈ ls /\ x ∈ l.
Proof.
  rewrite list_elem_of_In, List.in_concat. split; intros (l & H1 & H2); exists l; by rewrite ?list_elem_of_In in *.
Qed.
Lemma filter_none {A} (f : A -> bool) l : (forall x, x ∈ l -> f x = false) -> List.filter f l = [].
Proof. induction l as [|x l IH]; intros Hf; [done|]. cbn [List.filter]. rewrite Hf by by left. apply IH. intros y Hy. apply Hf. by right. Qed.
Lemma filter_every {A} (f : A -> bool) l : (forall x, x ∈ l -> f x = true) -> List.filter f l = l.
Proof. induction l as [|x l IH]; intros Hf; [done|]. cbn [List.filter]. rewrite Hf by by left. f_equal. apply IH. intros y Hy. apply Hf. by right. Qed.
Lemma filter_twice {A} (f g : A -> bool) l : List.filter f (List.filter g l) = List.filter (fun x => g x && f x) l.
Proof. induction l as [|x l IH]; [done|]. cbn [List.filter]. destruct (g x); cbn [List.filter andb]; by rewrite IH. Qed.
Lemma filter_snoc {A} (f : A -> bool) l x : List.filter f (l ++ [x]) = List.filter f l ++ if f x then [x] else [].
Proof. rewrite List.filter_app. cbn. by destruct (f x). Qed.
Lemma last_Forall {A} (P : A -> Prop) x l : P x -> Forall P l -> P (default x (last l)).
Proof. intros Hx Hl. destruct (last l) as [y|] eqn:E; [|done]. cbn. eapply Forall_forall; [exact Hl|]. by apply last_Some_elem_of. Qed.

Lemma in_range_spec lo hi z : in_range lo hi z = true <-> lo <= z <= hi.
Proof. unfold in_range. rewrite andb_true_iff, !Z.leb_le. done. Qed.

Lemma try_i32_Some z y : try_i32 z = Some y <-> y = z /\ i32_min <= z <= i32_max.
Proof.
  unfold try_i32. destruct (in_range _ _ z) eqn:E.
  - apply in_range_spec in E. naive_solver.
  - split; [done|]. intros [-> H]. apply in_range_spec in H. congruence.
Qed.

Lemma is_some_and_true {A} (o : option A) f :
  is_some_and o f = true <-> exists a, o = Some a /\ f a = true.
Proof. destruct o; simpl; naive_solver. Qed.

Lemma is_some_and_false {A} (o : option A) f :
  is_some_and o f = false <-> forall a, o = Some a -> f a = false.
Proof.
  destruct o as [x|]; simpl; [|by split].
  split; [by intros ? ? [= <-]|auto].
Qed.

Lemma ofilter_Some {A} (f : A -> bool) o a :
  ofilter f o = Some a <-> o = Some a /\ f a = true.
Proof.
  destruct o as [x|]; simpl; [|by split; [|intros [? _]]].
  destruct (f x) eqn:E; split.
  - by intros [= <-].
  - by intros [[= <-] _].
  - done.
  - intros [[= <-] ?]. congruence.
Qed.

Lemma rbind_Ok {T U E} (m : result T E) (k : T -> result U E) u :
  rbind m k = Ok u <-> exists t, m = Ok t /\ k t = Ok u.
Proof.
  destruct m as [t|e]; simpl; split; eauto.
  - by intros (? & [= <-] & ?).
  - done.
  - by intros (? & ? & ?).
Qed.

Lemma ok_or_Ok {T E} (o : option T) (e : E) t : ok_or o e = Ok t <-> o = Some t.
Proof. destruct o; simpl; split; congruence. Qed.
