(* ===== verification/Text.v ===== *)
(** Text as the code handles it: UTF-8 bytes in a [string]. Characters, white space and
    trimming, ASCII case, splitting, and the standard library's address texts
    ([str::trim], [char::is_whitespace], [str::split], [IpAddr::from_str] and its [Display]). *)
From S2P Require Import Prelude.

(** ** Characters *)

(** A byte [10xxxxxx] continues a character. *)
Definition continues (c : ascii) : bool := ((128 <=? N_of_ascii c) && (N_of_ascii c <? 192))%N.
Fixpoint chars_count (s : string) : nat :=
  match s with EmptyString => 0 | String c s => (if continues c then 0 else 1) + chars_count s end.
Fixpoint chars_take (n : nat) (s : string) : string :=
  match s with
  | EmptyString => EmptyString
  | String c rest =>
      if continues c then String c (chars_take n rest)
      else match n with O => EmptyString | S n => String c (chars_take n rest) end
  end.

Definition ascii_lower (c : ascii) : ascii :=
  let n := N_of_ascii c in if ((65 <=? n) && (n <=? 90))%N then ascii_of_N (n + 32) else c.
Fixpoint to_ascii_lowercase (s : string) : string :=
  match s with EmptyString => EmptyString | String c s => String (ascii_lower c) (to_ascii_lowercase s) end.

(** [str::contains] of a text, and of any of some ASCII characters. *)
Fixpoint str_contains (s needle : string) : bool :=
  String.prefix needle s || match s with EmptyString => false | String _ s => str_contains s needle end.
Fixpoint any_char (f : ascii -> bool) (s : string) : bool :=
  match s with EmptyString => false | String c s => f c || any_char f s end.
Fixpoint all_char (f : ascii -> bool) (s : string) : bool :=
  match s with EmptyString => true | String c s => f c && all_char f s end.
Definition char_in (set : string) (c : ascii) : bool := any_char (Ascii.eqb c) set.

(** [s.split(f)] at every character [f] accepts, and at one character. *)
Fixpoint split_by (f : ascii -> bool) (s : string) : list string :=
  match s with
  | EmptyString => [EmptyString]
  | String d s =>
      let rest := split_by f s in
      if f d then EmptyString :: rest
      else match rest with x :: l => String d x :: l | [] => [String d EmptyString] end
  end.
Definition split_on (c : ascii) : string -> list string := split_by (Ascii.eqb c).
(** [s.split_once(c)]. *)
Fixpoint split_once (c : ascii) (s : string) : option (string * string) :=
  match s with
  | EmptyString => None
  | String d s => if Ascii.eqb c d then Some (EmptyString, s)
                  else '(a, b) ← split_once c s; Some (String d a, b)
  end.
(** [strip_prefix] and [strip_suffix] of one character. *)
Definition strip_first (c : ascii) (s : string) : option string :=
  match s with String d s => if Ascii.eqb c d then Some s else None | EmptyString => None end.
Fixpoint strip_last (c : ascii) (s : string) : option string :=
  match s with
  | EmptyString => None
  | String d EmptyString => if Ascii.eqb c d then Some EmptyString else None
  | String d s => String d <$> strip_last c s
  end.
Definition starts_with_char (c : ascii) (s : string) : bool := isSome (strip_first c s).
Definition ends_with_char (c : ascii) (s : string) : bool := isSome (strip_last c s).

(** ** White space *)

(** The length in bytes of the white space character [s] starts with, 0 when there is none. *)
Definition ws_len (s : string) : nat :=
  match s with
  | EmptyString => 0
  | String a s1 =>
      let a := N_of_ascii a in
      if ((9 <=? a) && (a <=? 13) || (a =? 32))%N then 1
      else
        match s1 with
        | EmptyString => 0
        | String b s2 =>
            let b := N_of_ascii b in
            if ((a =? 194) && ((b =? 133) || (b =? 160)))%N then 2
            else
              match s2 with
              | EmptyString => 0
              | String c _ =>
                  let c := N_of_ascii c in
                  if ((a =? 225) && (b =? 154) && (c =? 128)
                      || (a =? 226) && (b =? 128)
                         && ((128 <=? c) && (c <=? 138) || (c =? 168) || (c =? 169) || (c =? 175))
                      || (a =? 226) && (b =? 129) && (c =? 159)
                      || (a =? 227) && (b =? 128) && (c =? 128))%N
                  then 3 else 0
              end
        end
  end.
Fixpoint any_ws (s : string) : bool :=
  (0 <? ws_len s)%nat || match s with EmptyString => false | String _ s => any_ws s end.
(** The text after [skip] bytes and then all white space. *)
Fixpoint trim_start_from (skip : nat) (s : string) : string :=
  match s with
  | EmptyString => EmptyString
  | String _ r =>
      match skip with
      | S k => trim_start_from k r
      | O => match ws_len s with O => s | S k => trim_start_from k r end
      end
  end.
Definition trim_start : string -> string := trim_start_from 0.
Fixpoint trim_end (s : string) : string :=
  match s with
  | EmptyString => EmptyString
  | String c r => if String.eqb (trim_start s) "" then EmptyString else String c (trim_end r)
  end.
Definition trim (s : string) : string := trim_end (trim_start s).

(** ** Addresses *)

(** Addresses as the 32-bit or 128-bit value the masks act on. *)
Inductive IpAddr : Type := V4 (a : Z) | V6 (a : Z).
#[export] Instance IpAddr_eq_dec : EqDecision IpAddr.
Proof. solve_decision. Defined.

Definition digit_val (radix : Z) (c : ascii) : option Z :=
  let n := Z.of_N (N_of_ascii c) in
  ofilter (fun d => d <? radix)
    (if (48 <=? n) && (n <=? 57) then Some (n - 48)
     else if (97 <=? n) && (n <=? 102) then Some (n - 87)
     else if (65 <=? n) && (n <=? 70) then Some (n - 55) else None).
Fixpoint read_digits (radix : Z) (s : string) : list Z * string :=
  match s with
  | String c r => match digit_val radix c with
                  | Some d => let (ds, rest) := read_digits radix r in (d :: ds, rest)
                  | None => ([], s)
                  end
  | EmptyString => ([], s)
  end.
(** [read_number]: at most [maxd] digits, a value of at most [hi], a leading zero only where allowed. *)
Definition read_number (radix : Z) (maxd : nat) (zero_prefix : bool) (hi : Z) (s : string) : option (Z * string) :=
  let (ds, rest) := read_digits radix s in
  let n := foldl (fun a d => a * radix + d) 0 ds in
  let leading_zero := match ds with 0 :: _ :: _ => true | _ => false end in
  if (length ds =? 0)%nat || (maxd <? length ds)%nat || (negb zero_prefix && leading_zero) || (hi <? n) then None
  else Some (n, rest).
(** [s.parse()] of an unsigned integer of at most [hi]. *)
Definition parse_uint (hi : Z) (s : string) : option Z :=
  let (ds, rest) := read_digits 10 (default s (strip_first "+" s)) in
  let n := foldl (fun a d => a * 10 + d) 0 ds in
  if (length ds =? 0)%nat || negb (String.eqb rest "") || (hi <? n) then None else Some n.
Definition read_octet (sep : bool) (s : string) : option (Z * string) :=
  s ← if sep then strip_first "." s else Some s; read_number 10 3 false 255 s.
Definition read_ipv4 (s : string) : option (Z * string) :=
  '(a, s) ← read_octet false s; '(b, s) ← read_octet true s; '(c, s) ← read_octet true s; '(d, s) ← read_octet true s;
  Some (((a * 256 + b) * 256 + c) * 256 + d, s).
(** [read_groups]: up to [left] groups; an IPv4 tail counts as two and ends them. *)
Fixpoint read_groups (first : bool) (left : nat) (s : string) : list Z * bool * string :=
  match left with
  | O => ([], false, s)
  | S left' =>
      let s' := if first then Some s else strip_first ":" s in
      match (if (1 <? left)%nat then s' ≫= read_ipv4 else None) with
      | Some (a, rest) => ([a / 65536; a mod 65536], true, rest)
      | None =>
          match s' ≫= read_number 16 4 true 65535 with
          | Some (g, rest) => let '(gs, v4, rest) := read_groups false left' rest in (g :: gs, v4, rest)
          | None => ([], false, s)
          end
      end
  end.
Definition groups_value (gs : list Z) : Z := foldl (fun a g => a * 65536 + g) 0 gs.
Definition read_ipv6 (s : string) : option (Z * string) :=
  let '(head, v4, rest) := read_groups true 8 s in
  if (length head =? 8)%nat then Some (groups_value head, rest)
  else if v4 then None
  else
    rest ← strip_first ":" rest ≫= strip_first ":";
    let '(tail, _, rest) := read_groups true (7 - length head) rest in
    Some (groups_value (head ++ repeat 0 (8 - length head - length tail) ++ tail), rest).
(** [s.parse::<IpAddr>()]: nothing may be left over. *)
Definition parse_ip (s : string) : option IpAddr :=
  match read_ipv4 s with
  | Some (a, rest) => if String.eqb rest "" then Some (V4 a) else None
  | None => '(a, rest) ← read_ipv6 s; if String.eqb rest "" then Some (V6 a) else None
  end.

Definition digit_char (d : Z) : ascii := ascii_of_N (Z.to_N (if d <? 10 then 48 + d else 87 + d)).
Fixpoint number_text (fuel : nat) (radix n : Z) (acc : string) : string :=
  match fuel with
  | O => acc
  | S fuel =>
      let acc := String (digit_char (n mod radix)) acc in
      if n / radix =? 0 then acc else number_text fuel radix (n / radix) acc
  end.
(** A group has at most five digits in either radix. *)
Definition decimal (n : Z) : string := number_text 5 10 n "".
Definition hexadecimal (n : Z) : string := number_text 5 16 n "".
Definition ipv4_text (a : Z) : string :=
  String.concat "." (decimal <$> [a / 16777216 mod 256; a / 65536 mod 256; a / 256 mod 256; a mod 256]).
Definition groups (a : Z) : list Z := (fun i => Z.shiftr a (16 * (7 - Z.of_nat i)) mod 65536) <$> seq 0 8.
(** The first longest run of zero groups: where it starts and how long it is. *)
Fixpoint zero_run (i : nat) (cur best : nat * nat) (gs : list Z) : nat * nat :=
  match gs with
  | [] => best
  | g :: gs =>
      if g =? 0 then
        let cur := ((if (cur.2 =? 0)%nat then i else cur.1), S cur.2) in
        zero_run (S i) cur (if (best.2 <? cur.2)%nat then cur else best) gs
      else zero_run (S i) (0%nat, 0%nat) best gs
  end.
Definition groups_text (gs : list Z) : string := String.concat ":" (hexadecimal <$> gs).
Definition ipv6_text (a : Z) : string :=
  if a / 2 ^ 32 =? 65535 then String.append "::ffff:" (ipv4_text (a mod 2 ^ 32))
  else
    let gs := groups a in
    let (start, len) := zero_run 0 (0, 0)%nat (0, 0)%nat gs in
    if (1 <? len)%nat then
      String.append (groups_text (take start gs)) (String.append "::" (groups_text (drop (start + len) gs)))
    else groups_text gs.
(** [IpAddr]'s [Display]. *)
Definition ip_to_string (ip : IpAddr) : string := match ip with V4 a => ipv4_text a | V6 a => ipv6_text a end.

Definition ip_width (ip : IpAddr) : Z := match ip with V4 _ => 32 | V6 _ => 128 end.
Definition ip_value (ip : IpAddr) : Z := match ip with V4 a | V6 a => a end.
Definition ip_ok (ip : IpAddr) : Prop := 0 <= ip_value ip < 2 ^ ip_width ip.

Lemma digit_val_range radix c d : digit_val radix c = Some d -> 0 <= d < radix.
Proof.
  unfold digit_val. rewrite ofilter_Some, Z.ltb_lt. intros [E Hd]. split; [|done].
  repeat (case_match; simplify_eq; bool_prop; try lia).
Qed.
Lemma read_digits_range radix s ds rest : read_digits radix s = (ds, rest) -> Forall (fun d => 0 <= d < radix) ds.
Proof.
  revert ds rest. induction s as [|c s IH]; intros ds rest; cbn [read_digits]; [by intros [= <- <-]; apply Forall_nil|].
  destruct (digit_val radix c) as [d|] eqn:Ed; [|by intros [= <- <-]; apply Forall_nil].
  destruct (read_digits radix s) as [ds' r] eqn:E. intros [= <- <-]. apply Forall_cons. split; [by eapply digit_val_range|by eapply IH].
Qed.
Lemma digits_nonneg radix ds : 0 <= radix -> Forall (fun d => 0 <= d < radix) ds -> forall a, 0 <= a -> 0 <= foldl (fun a d => a * radix + d) a ds.
Proof. intros Hr. induction 1 as [|d ds Hd _ IH]; intros a Ha; cbn [foldl]; [done|]. apply IH. nia. Qed.
Lemma read_number_range radix maxd z hi s n rest : 0 <= radix -> read_number radix maxd z hi s = Some (n, rest) -> 0 <= n <= hi.
Proof.
  intros Hr. unfold read_number. destruct (read_digits radix s) as [ds r] eqn:E. apply read_digits_range in E.
  pose proof (digits_nonneg radix ds Hr E 0). destruct (Z.ltb_spec hi (foldl (fun a d => a * radix + d) 0 ds)).
  - rewrite orb_true_r. done.
  - destruct (_ || false); [done|]. intros [= <- <-]. lia.
Qed.
Lemma parse_uint_range hi s n : parse_uint hi s = Some n -> 0 <= n <= hi.
Proof.
  unfold parse_uint. destruct (read_digits 10 _) as [ds r] eqn:E. apply read_digits_range in E.
  pose proof (digits_nonneg 10 ds ltac:(lia) E 0). destruct (Z.ltb_spec hi (foldl (fun a d => a * 10 + d) 0 ds)).
  - rewrite orb_true_r. done.
  - destruct (_ || false); [done|]. intros [= <-]. lia.
Qed.
Lemma read_octet_range sep s n rest : read_octet sep s = Some (n, rest) -> 0 <= n <= 255.
Proof. unfold read_octet. intros (s' & _ & E)%bind_Some. by apply read_number_range in E. Qed.
Lemma read_ipv4_range s a rest : read_ipv4 s = Some (a, rest) -> 0 <= a < 2 ^ 32.
Proof.
  unfold read_ipv4. intros ([a1 s1] & E1%read_octet_range & E)%bind_Some. apply bind_Some in E as ([a2 s2] & E2%read_octet_range & E).
  apply bind_Some in E as ([a3 s3] & E3%read_octet_range & E). apply bind_Some in E as ([a4 s4] & E4%read_octet_range & [= <- <-]). lia.
Qed.

Definition group_ok (g : Z) : Prop := 0 <= g < 65536.
Lemma read_groups_range first left s gs v4 rest :
  read_groups first left s = (gs, v4, rest) -> (length gs <= left)%nat /\ Forall group_ok gs.
Proof.
  revert first s gs v4 rest. induction left as [|left IH]; intros first s gs v4 rest; cbn [read_groups].
  { intros [= <- <- <-]. split; [done|by apply Forall_nil]. }
  destruct (if (1 <? S left)%nat then _ else None) as [[a r]|] eqn:E4.
  - destruct (Nat.ltb_spec 1 (S left)); [|done]. intros [= <- <- <-]. split; [simpl; lia|].
    destruct (if first then _ else _) as [s'|]; [|done]. cbn [mbind option_bind] in E4. apply read_ipv4_range in E4.
    repeat apply Forall_cons_2; unfold group_ok; [|apply Z.mod_pos_bound; lia|by apply Forall_nil].
    split; [apply Z.div_pos; lia|apply Z.div_lt_upper_bound; lia].
  - clear E4. destruct (_ ≫= _) as [[g r]|] eqn:E; [|intros [= <- <- <-]; split; [simpl; lia|by apply Forall_nil]].
    apply bind_Some in E as (s' & _ & E). apply read_number_range in E; [|lia].
    destruct (read_groups false left r) as [[gs' v'] r'] eqn:Er. intros [= <- <- <-]. apply IH in Er as [Hl Hf].
    split; [simpl; lia|]. apply Forall_cons_2; [unfold group_ok; lia|done].
Qed.
Lemma groups_value_bound gs : Forall group_ok gs -> 0 <= groups_value gs < 2 ^ (16 * Z.of_nat (length gs)).
Proof.
  intros Hf. unfold groups_value.
  assert (forall a k, 0 <= k -> 0 <= a < 2 ^ (16 * k) -> 0 <= foldl (fun a g => a * 65536 + g) a gs < 2 ^ (16 * (k + Z.of_nat (length gs)))) as G.
  2: { apply (G 0 0); lia. }
  induction Hf as [|g gs Hg _ IH]; intros a k Hk Ha; cbn [foldl length]; [by rewrite Z.add_0_r|].
  replace (k + Z.of_nat (S (length gs))) with ((k + 1) + Z.of_nat (length gs)) by lia. apply IH; [lia|].
  replace (16 * (k + 1)) with (16 * k + 16) by lia. rewrite Z.pow_add_r by lia. unfold group_ok in Hg. lia.
Qed.
Lemma groups_value_128 gs : Forall group_ok gs -> (length gs <= 8)%nat -> 0 <= groups_value gs < 2 ^ 128.
Proof.
  intros Hf Hl. pose proof (groups_value_bound gs Hf) as Hb.
  assert (2 ^ (16 * Z.of_nat (length gs)) <= 2 ^ 128) by (apply Z.pow_le_mono_r; lia). lia.
Qed.
Lemma read_ipv6_range s a rest : read_ipv6 s = Some (a, rest) -> 0 <= a < 2 ^ 128.
Proof.
  unfold read_ipv6. destruct (read_groups true 8 s) as [[head v4] r] eqn:Eh. apply read_groups_range in Eh as [Hl Hf].
  destruct (length head =? 8)%nat eqn:E8; [intros [= <- <-]; by apply groups_value_128|]. destruct v4; [done|].
  intros (r' & _ & E)%bind_Some. destruct (read_groups true _ r') as [[tail v'] r''] eqn:Et. apply read_groups_range in Et as [Hl' Hf'].
  apply Nat.eqb_neq in E8. injection E as <- <-. apply groups_value_128.
  - apply Forall_app. split; [done|]. apply Forall_app. split; [|done]. clear. induction (8 - _ - _)%nat; simpl; [by apply Forall_nil|].
    by apply Forall_cons_2.
  - rewrite !length_app, repeat_length. lia.
Qed.
Lemma parse_ip_ok s ip : parse_ip s = Some ip -> ip_ok ip.
Proof.
  unfold parse_ip. destruct (read_ipv4 s) as [[a r]|] eqn:E4.
  - destruct (String.eqb r ""); [|done]. intros [= <-]. by apply read_ipv4_range in E4.
  - intros ([a r] & E%read_ipv6_range & Ei)%bind_Some. destruct (String.eqb r ""); [|done]. injection Ei as <-. done.
Qed.

Example parse_v4 : parse_ip "192.168.0.1" = Some (V4 3232235521).
Proof. vm_compute. reflexivity. Qed.
Example parse_v6 : ip_to_string <$> parse_ip "2001:0db8::1" = Some "2001:db8::1"%string.
Proof. vm_compute. reflexivity. Qed.
Example parse_mapped : ip_to_string <$> parse_ip "::FFFF:1.2.3.4" = Some "::ffff:1.2.3.4"%string.
Proof. vm_compute. reflexivity. Qed.
Example parse_bad : parse_ip <$> ["127.1"; "01.2.3.4"; "1.2.3.4.5"; "1::2::3"; "::1%eth0"; "1:2:3:4:5:6:7"]%string = repeat None 6.
Proof. vm_compute. reflexivity. Qed.

(** ** Trimming *)

Lemma ws_len_app (s u : string) : ws_len (s ++ u) = 0%nat -> ws_len s = 0%nat.
Proof.
  destruct s as [|a [|b [|c s]]]; [reflexivity|..].
  - change (String a "" ++ u)%string with (String a u). cbn [ws_len]. by destruct (_ || _).
  - change (String a (String b "") ++ u)%string with (String a (String b u)). cbn [ws_len].
    destruct ((9 <=? N_of_ascii a) && _ || _)%N; [done|]. by destruct (_ && _).
  - done.
Qed.
Lemma trim_end_prefix s : exists u, s = (trim_end s ++ u)%string.
Proof.
  induction s as [|c s [u IH]]; [by exists EmptyString|]. cbn [trim_end]. destruct (String.eqb _ ""); [by exists (String c s)|].
  exists u. change (String c s = String c (trim_end s ++ u)). by rewrite <- IH.
Qed.
Lemma trim_start_fix s : ws_len s = 0%nat -> trim_start s = s.
Proof. intros E. unfold trim_start. destruct s as [|c s]; [done|]. cbn [trim_start_from]. by rewrite E. Qed.
Lemma trim_start_stops k s : ws_len (trim_start_from k s) = 0%nat.
Proof.
  revert k. induction s as [|c s IH]; intros k; [done|]. cbn [trim_start_from]. destruct k as [|k]; [|apply IH].
  destruct (ws_len (String c s)) eqn:E; [done|apply IH].
Qed.
(** No white space starts in the middle of a character. *)
Lemma ws_len_continues c s : continues c = true -> ws_len (String c s) = 0%nat.
Proof.
  unfold continues. intros E. assert (128 <= N_of_ascii c < 192)%N as Hc by (apply andb_true_iff in E as [E1 E2]; apply N.leb_le in E1; apply N.ltb_lt in E2; lia).
  clear E. cbn [ws_len]. set (a := N_of_ascii c) in *.
  rewrite (proj2 (N.leb_gt a 13)), andb_false_r by lia. rewrite !(proj2 (N.eqb_neq a _)) by lia. cbn [andb orb].
  destruct s as [|b [|d s]]; done.
Qed.
Lemma continues_of c : (128 <=? N_of_ascii c)%N = true -> (N_of_ascii c <? 192)%N = true -> continues c = true.
Proof. intros. unfold continues. by apply andb_true_iff. Qed.
(** The white space at the head of a text is a whole character. *)
Lemma ws_len_cases s :
  match ws_len s with
  | 0%nat => True
  | 1%nat => exists a r, s = String a r /\ forall r', ws_len (String a r') = 1%nat
  | 2%nat => exists a b r, s = String a (String b r) /\ continues b = true /\ forall r', ws_len (String a (String b r')) = 2%nat
  | 3%nat => exists a b c r, s = String a (String b (String c r)) /\ continues b = true /\ continues c = true
             /\ forall r', ws_len (String a (String b (String c r'))) = 3%nat
  | _ => False
  end.
Proof.
  assert (forall (b : ascii) n, (n < 192)%N -> (128 <= n)%N -> N_of_ascii b = n -> continues b = true) as Hc.
  { intros b n H1 H2 <-. apply continues_of; [by apply N.leb_le|by apply N.ltb_lt]. }
  destruct s as [|a s]; [done|]. cbn [ws_len]. destruct ((9 <=? N_of_ascii a) && _ || _)%N eqn:E1.
  { exists a, s. split; [done|]. intros r'. cbn [ws_len]. by rewrite E1. }
  destruct s as [|b s]; [done|]. destruct ((N_of_ascii a =? 194) && _)%N eqn:E2.
  { exists a, b, s. split_and!; [done| |intros r'; cbn [ws_len]; by rewrite E1, E2].
    apply andb_true_iff in E2 as [_ E2]. apply orb_true_iff in E2 as [E2|E2]; apply N.eqb_eq in E2; by eapply Hc; [| |exact E2]. }
  destruct s as [|c s]; [done|]. match goal with |- context [if ?b then 3%nat else 0%nat] => destruct b eqn:E3 end; [|done].
  exists a, b, c, s. assert (continues b = true /\ continues c = true) as [Hb Hcc].
  2: { split_and!; [done..|]. intros r'. cbn [ws_len]. by rewrite E1, E2, E3. }
  rewrite !orb_true_iff, !andb_true_iff, !orb_true_iff, !andb_true_iff, !N.eqb_eq, !N.leb_le in E3.
  assert (128 <= N_of_ascii b < 192 /\ 128 <= N_of_ascii c < 192)%N as [? ?] by lia.
  split; unfold continues; apply andb_true_iff; by rewrite N.leb_le, N.ltb_lt.
Qed.
Lemma trim_start_ws n s : ws_len s = S n -> trim_start s = trim_start_from n (match s with String _ r => r | EmptyString => EmptyString end).
Proof. destruct s as [|a s]; [done|]. intros E. unfold trim_start. cbn [trim_start_from]. by rewrite E. Qed.
Lemma trim_end_keeps s : trim_start s <> ""%string -> trim_start (trim_end s) <> ""%string.
Proof.
  remember (String.length s) as n eqn:Hn. revert s Hn. induction n as [n IH] using lt_wf_ind. intros s -> Hs.
  destruct s as [|a r]; [done|]. cbn [trim_end]. destruct (String.eqb_spec (trim_start (String a r)) "") as [?|_]; [done|].
  pose proof (ws_len_cases (String a r)) as Hc. destruct (ws_len (String a r)) as [|[|[|[|]]]] eqn:E; [..|done].
  - assert (ws_len (String a (trim_end r)) = 0%nat) as E'.
    { destruct (trim_end_prefix r) as [u Hu]. apply (ws_len_app _ u). change (String a (trim_end r) ++ u)%string with (String a (trim_end r ++ u)). by rewrite <- Hu. }
    by rewrite trim_start_fix.
  - destruct Hc as (a' & r' & [= <- <-] & Hw). rewrite (trim_start_ws 0) in Hs by done. rewrite (trim_start_ws 0) by done.
    apply (IH (String.length r)); [cbn; lia|done|exact Hs].
  - destruct Hc as (a' & b & r' & [= <- ->] & Hb & Hw). rewrite (trim_start_ws 1) in Hs by done. cbn [trim_end].
    assert (trim_start (String b r') = String b r') as -> by (by apply trim_start_fix, ws_len_continues). cbn [String.eqb].
    rewrite (trim_start_ws 1) by done. cbn [trim_start_from]. apply (IH (String.length r')); [cbn; lia|done|exact Hs].
  - destruct Hc as (a' & b & c & r' & [= <- ->] & Hb & Hcc & Hw). rewrite (trim_start_ws 2) in Hs by done. cbn [trim_end].
    assert (trim_start (String b (String c r')) = String b (String c r')) as -> by (by apply trim_start_fix, ws_len_continues).
    assert (trim_start (String c r') = String c r') as -> by (by apply trim_start_fix, ws_len_continues). cbn [String.eqb].
    rewrite (trim_start_ws 2) by done. cbn [trim_start_from]. apply (IH (String.length r')); [cbn; lia|done|exact Hs].
Qed.
Lemma trim_end_idem s : trim_end (trim_end s) = trim_end s.
Proof.
  induction s as [|c s IH]; [done|]. cbn [trim_end]. destruct (String.eqb_spec (trim_start (String c s)) "") as [_|Hne]; [done|].
  pose proof (trim_end_keeps _ Hne) as Hk. cbn [trim_end] in Hk. apply String.eqb_neq in Hne. rewrite Hne in Hk.
  cbn [trim_end]. apply String.eqb_neq in Hk. by rewrite Hk, IH.
Qed.
(** Trimming twice is trimming once. *)
Lemma trim_idem s : trim (trim s) = trim s.
Proof.
  unfold trim. assert (ws_len (trim_end (trim_start s)) = 0%nat) as E.
  { destruct (trim_end_prefix (trim_start s)) as [u Hu]. apply (ws_len_app _ u). rewrite <- Hu. apply trim_start_stops. }
  by rewrite (trim_start_fix _ E), trim_end_idem.
Qed.

(** ** Joining and splitting *)

Lemma append_empty a : String.append a "" = a.
Proof. induction a as [|x a IH]; [done|]. exact (f_equal (String x) IH). Qed.
Lemma append_assoc a b c : String.append (String.append a b) c = String.append a (String.append b c).
Proof. induction a as [|x a IH]; [done|]. exact (f_equal (String x) IH). Qed.
Lemma split_by_ne f s : split_by f s <> [].
Proof. destruct s as [|c s]; cbn [split_by]; [done|]. destruct (f c); [done|]. by destruct (split_by f s). Qed.
Lemma split_by_app f p c d : f c = true -> split_by f (p ++ String c d) = split_by f p ++ split_by f d.
Proof.
  intros Hc. induction p as [|e p IH]; simpl; [by rewrite Hc|].
  destruct (f e); [by rewrite IH|]. rewrite IH. pose proof (split_by_ne f p). by destruct (split_by f p).
Qed.
Lemma join_cons sep x xs : xs <> [] -> String.concat sep (x :: xs) = (x ++ sep ++ String.concat sep xs)%string.
Proof. by destruct xs. Qed.
Lemma join_app sep xs ys : xs <> [] -> ys <> [] -> String.concat sep (xs ++ ys) = (String.concat sep xs ++ sep ++ String.concat sep ys)%string.
Proof.
  intros Hx Hy. induction xs as [|x xs IH]; [done|]. clear Hx. destruct xs as [|x' xs]; [by apply join_cons|].
  rewrite <- app_comm_cons, join_cons by done. rewrite IH, (join_cons sep x (x' :: xs)) by done. by rewrite !append_assoc.
Qed.
Lemma split_join s : String.concat "." (split_on "." s) = s.
Proof.
  unfold split_on. induction s as [|c s IH]; [done|]. cbn [split_by]. pose proof (split_by_ne (Ascii.eqb ".") s) as Hne.
  destruct (Ascii.eqb_spec "." c) as [<-|Hc].
  - rewrite join_cons by done. by rewrite IH.
  - destruct (split_by _ s) as [|x l]; [done|]. rewrite <- IH. by destruct l.
Qed.

(** ** The concrete number texts of the examples *)

Lemma trim_digit c s : c = "0"%char \/ c = "1"%char -> trim_start (String c s) = String c s.
Proof. intros [->| ->]; unfold trim_start; cbn [trim_start_from]; by destruct s as [|a [|b s]]. Qed.
Lemma trim_end_digits s : all_char (char_in "01") s = true -> trim_end s = s.
Proof.
  induction s as [|c s IH]; [done|]. cbn [all_char]. intros [Hc Hs]%andb_prop. cbn [trim_end].
  assert (c = "0"%char \/ c = "1"%char) as Hd.
  { unfold char_in in Hc. cbn [any_char] in Hc. rewrite orb_false_r in Hc. apply orb_prop in Hc as [E|E]; apply Ascii.eqb_eq in E; auto. }
  rewrite (trim_digit c s Hd). cbn [String.eqb]. by rewrite IH.
Qed.
Lemma pos_bin_digits p : all_char (char_in "01") (pos_bin p) = true.
Proof. by induction p. Qed.
Lemma trim_pos_bin p : trim (pos_bin p) = pos_bin p.
Proof.
  unfold trim. assert (trim_start (pos_bin p) = pos_bin p) as -> by (destruct p; apply trim_digit; auto).
  apply trim_end_digits, pos_bin_digits.
Qed.
