(* ===== verification/Json.v ===== *)
(** JSON values as the server and the agent handle them ([serde_json::Value] without
    [preserve_order]: an object is a map sorted by key), with the accessors the code uses. *)
From S2P Require Import Prelude.
From Stdlib Require Import SpecFloat.
#[local] Set Warnings "-register-all".

(** A JSON value. Integers are kept apart from floats, as [serde_json::Number] does:
    a non-negative integer fits [u64], a negative one fits [i64]. *)
Inductive json : Type :=
| JNull
| JBool (b : bool)
| JInt (z : Z)
| JFloat (f : spec_float)
| JStr (s : string)
| JArr (l : list json)
| JObj (fields : list (string * json)).

(** ** Objects as sorted association lists *)

Fixpoint fget (k : string) (l : list (string * json)) : option json :=
  match l with
  | [] => None
  | (k', v) :: l => if String.eqb k k' then Some v else fget k l
  end.

(** [Map::insert]: replaces the value of an existing key, keeps keys sorted otherwise. *)
Fixpoint finsert (k : string) (v : json) (l : list (string * json)) : list (string * json) :=
  match l with
  | [] => [(k, v)]
  | (k', v') :: l =>
      if String.eqb k k' then (k, v) :: l
      else if String.ltb k k' then (k, v) :: (k', v') :: l
      else (k', v') :: finsert k v l
  end.

(** [Map::remove]. *)
Fixpoint fremove (k : string) (l : list (string * json)) : list (string * json) :=
  match l with
  | [] => []
  | (k', v) :: l => if String.eqb k k' then l else (k', v) :: fremove k l
  end.

(** The [json!({..})] object literal. *)
Definition mk_obj (l : list (string * json)) : json :=
  JObj (foldr (fun kv acc => finsert kv.1 kv.2 acc) [] l).

(** ** Accessors *)

(** [value.get(k)]. *)
Definition get (v : json) (k : string) : option json :=
  match v with JObj l => fget k l | _ => None end.
(** [value[k]]: a missing key, or a value that is not an object, reads as null. *)
Definition idx (v : json) (k : string) : json := default JNull (get v k).
(** The raw fields a derived [Deserialize] of a struct reads, in declaration order: by name
    from an object (with [deny_unknown_fields], only from one with no other key), by position
    from an array no longer than the struct. An absent field is [None]. *)
Definition struct_fields (deny : bool) (names : list string) (v : json) : option (list (option json)) :=
  match v with
  | JObj l =>
      if deny && negb (forallb (fun k => existsb (String.eqb k) names) l.*1) then None
      else Some (map (fun k => fget k l) names)
  | JArr l =>
      if (length l <=? length names)%nat then Some (map Some l ++ replicate (length names - length l) None)
      else None
  | _ => None
  end.
(** [value[k] = x] on an object or null. Rust panics on any other value, and every
    caller has already read a string [type] field, so it holds an object. *)
Definition set_idx (v : json) (k : string) (x : json) : json :=
  match v with JObj l => JObj (finsert k x l) | JNull => JObj [(k, x)] | _ => v end.
(** [value.as_object_mut().and_then(|o| o.remove(k))]: the remaining value. *)
Definition remove_key (v : json) (k : string) : json :=
  match v with JObj l => JObj (fremove k l) | _ => v end.
Definition as_str (v : json) : option string := match v with JStr s => Some s | _ => None end.
Definition as_bool (v : json) : option bool := match v with JBool b => Some b | _ => None end.
Definition as_i64 (v : json) : option Z :=
  match v with JInt z => if in_range i64_min i64_max z then Some z else None | _ => None end.
Definition as_u64 (v : json) : option Z :=
  match v with JInt z => if in_range 0 u64_max z then Some z else None | _ => None end.
Definition as_array (v : json) : option (list json) := match v with JArr l => Some l | _ => None end.
Definition is_null (v : json) : bool := match v with JNull => true | _ => false end.
Definition is_object (v : json) : bool := match v with JObj _ => true | _ => false end.
Definition is_string (v : json) : bool := match v with JStr _ => true | _ => false end.
Definition is_boolean (v : json) : bool := match v with JBool _ => true | _ => false end.
Definition obj_keys (v : json) : list string := match v with JObj l => l.*1 | _ => [] end.
(** [value["type"].as_str().unwrap_or("")]. *)
Definition kind_of (v : json) : string := default ""%string (as_str (idx v "type")).
Definition str_is (v : json) (s : string) : bool := is_some_and (as_str v) (String.eqb s).

(** ** Decidable equality *)

#[export] Instance spec_float_eq_dec : EqDecision spec_float.
Proof. solve_decision. Defined.

Section json_ind.
Variable P : json -> Prop.
Hypothesis Hnull : P JNull.
Hypothesis Hbool : forall b, P (JBool b).
Hypothesis Hint : forall z, P (JInt z).
Hypothesis Hfloat : forall f, P (JFloat f).
Hypothesis Hstr : forall s, P (JStr s).
Hypothesis Harr : forall l, Forall P l -> P (JArr l).
Hypothesis Hobj : forall l, Forall (fun kv => P kv.2) l -> P (JObj l).

Fixpoint json_nested_ind (v : json) : P v :=
  match v with
  | JNull => Hnull
  | JBool b => Hbool b
  | JInt z => Hint z
  | JFloat f => Hfloat f
  | JStr s => Hstr s
  | JArr l =>
      Harr l ((fix go l : Forall P l :=
        match l with
        | [] => Forall_nil_2 P
        | x :: l => Forall_cons_2 P x l (json_nested_ind x) (go l)
        end) l)
  | JObj l =>
      Hobj l ((fix go l : Forall (fun kv => P kv.2) l :=
        match l with
        | [] => Forall_nil_2 _
        | x :: l => Forall_cons_2 (fun kv => P kv.2) x l (json_nested_ind x.2) (go l)
        end) l)
  end.
End json_ind.

(** Structural equality of values ([PartialEq for Value]). *)
Fixpoint json_eqb (v w : json) {struct v} : bool :=
  let fix eqb_l (l m : list json) {struct l} : bool :=
    match l, m with
    | [], [] => true
    | x :: l, y :: m => json_eqb x y && eqb_l l m
    | _, _ => false
    end in
  let fix eqb_f (l m : list (string * json)) {struct l} : bool :=
    match l, m with
    | [], [] => true
    | (k, x) :: l, (k', y) :: m => String.eqb k k' && json_eqb x y && eqb_f l m
    | _, _ => false
    end in
  match v, w with
  | JNull, JNull => true
  | JBool a, JBool b => Bool.eqb a b
  | JInt a, JInt b => a =? b
  | JFloat a, JFloat b => bool_decide (a = b)
  | JStr a, JStr b => String.eqb a b
  | JArr a, JArr b => eqb_l a b
  | JObj a, JObj b => eqb_f a b
  | _, _ => false
  end.

Lemma json_eqb_eq v w : json_eqb v w = true <-> v = w.
Proof.
  revert w. induction v as [| | | | |l IH|l IH] using json_nested_ind; intros w; destruct w; simpl;
    try (split; congruence).
  - rewrite Bool.eqb_true_iff. split; congruence.
  - rewrite Z.eqb_eq. split; congruence.
  - rewrite bool_decide_eq_true. split; congruence.
  - rewrite String.eqb_eq. split; congruence.
  - rename l0 into m. transitivity (l = m); [|split; congruence].
    revert m. induction IH as [|x l Hx _ IHl]; intros [|y m]; try (split; congruence).
    rewrite andb_true_iff, Hx, IHl. split; [intros [-> ->]; done|intros [= -> ->]; done].
  - rename fields into m. transitivity (l = m); [|split; congruence].
    revert m. induction IH as [|[k x] l Hx _ IHl]; simpl in *; intros [|[k' y] m]; try (split; congruence).
    rewrite !andb_true_iff, String.eqb_eq, Hx, IHl.
    split; [intros [[-> ->] ->]; done|intros [= -> -> ->]; done].
Qed.

#[export] Instance json_eq_dec : EqDecision json.
Proof.
  intros v w. destruct (json_eqb v w) eqn:E.
  - left. by apply json_eqb_eq.
  - right. intros H%json_eqb_eq. congruence.
Defined.

(** ** Object lemmas *)

Lemma fget_finsert_eq k v l : fget k (finsert k v l) = Some v.
Proof.
  induction l as [|[k' v'] l IH]; simpl; [by rewrite String.eqb_refl|].
  destruct (String.eqb k k') eqn:E; simpl; [by rewrite String.eqb_refl|].
  destruct (String.ltb k k'); simpl; [by rewrite String.eqb_refl|]. by rewrite E.
Qed.

Lemma fget_finsert_ne k k' v l : k <> k' -> fget k' (finsert k v l) = fget k' l.
Proof.
  intros Hne. assert (Hf : String.eqb k' k = false) by (apply String.eqb_neq; congruence).
  induction l as [|[k2 v2] l IH]; simpl; [by rewrite Hf|].
  destruct (String.eqb k k2) eqn:E; simpl.
  - apply String.eqb_eq in E as <-. by rewrite Hf.
  - destruct (String.ltb k k2); simpl; [by rewrite Hf|]. by rewrite IH.
Qed.

(** Keys are pairwise distinct: the invariant of a decoded object, kept by every edit. *)
Definition obj_wf (v : json) : Prop := match v with JObj l => NoDup l.*1 | _ => True end.

Lemma fget_None k l : fget k l = None <-> k ∉ l.*1.
Proof.
  induction l as [|[k' v] l IH]; simpl; [split; [by intros _ ?%not_elem_of_nil|done]|].
  destruct (String.eqb k k') eqn:E.
  - apply String.eqb_eq in E as ->. split; [done|]. intros H. destruct H. left.
  - apply String.eqb_neq in E. rewrite IH, not_elem_of_cons. naive_solver.
Qed.

Lemma fremove_id k l : fget k l = None -> fremove k l = l.
Proof.
  induction l as [|[k' v] l IH]; simpl; [done|].
  destruct (String.eqb k k'); [done|]. intros H. by rewrite IH.
Qed.

Lemma fremove_finsert k v l : fget k l = None -> fremove k (finsert k v l) = l.
Proof.
  induction l as [|[k' v'] l IH]; simpl; [by rewrite String.eqb_refl|].
  destruct (String.eqb k k') eqn:E; [done|]. intros H.
  destruct (String.ltb k k'); simpl; [by rewrite String.eqb_refl|]. by rewrite E, IH.
Qed.

Lemma idx_set_idx_eq v k x : is_object v = true -> idx (set_idx v k x) k = x.
Proof. destruct v; try done. intros _. unfold idx. simpl. by rewrite fget_finsert_eq. Qed.

Lemma set_idx_object v k x : is_object v = true -> is_object (set_idx v k x) = true.
Proof. by destruct v. Qed.

Lemma get_set_idx_eq v k x : is_object v = true -> get (set_idx v k x) k = Some x.
Proof. destruct v; try done. intros _. simpl. apply fget_finsert_eq. Qed.

Lemma get_set_idx_ne v k k' x : k <> k' -> is_object v = true -> get (set_idx v k x) k' = get v k'.
Proof. destruct v; try done. intros Hne _. simpl. by apply fget_finsert_ne. Qed.

Lemma idx_set_idx_ne v k k' x : k <> k' -> is_object v = true -> idx (set_idx v k x) k' = idx v k'.
Proof. intros. unfold idx. by rewrite get_set_idx_ne. Qed.

Lemma kind_of_set_idx v k x :
  k <> "type"%string -> is_object v = true -> kind_of (set_idx v k x) = kind_of v.
Proof. intros. unfold kind_of. by rewrite idx_set_idx_ne. Qed.

Lemma remove_set_idx v k x : get v k = None -> is_object v = true -> remove_key (set_idx v k x) k = v.
Proof. destruct v; try done. simpl. intros H _. by rewrite fremove_finsert. Qed.

Lemma remove_key_id v k : get v k = None -> remove_key v k = v.
Proof. destruct v; try done. simpl. intros H. by rewrite fremove_id. Qed.

Lemma fget_fremove_ne k k' l : k <> k' -> fget k' (fremove k l) = fget k' l.
Proof.
  intros Hne. induction l as [|[k1 v1] l IH]; simpl; [done|].
  destruct (String.eqb_spec k k1) as [->|]; simpl; [|by rewrite IH].
  by assert (String.eqb k' k1 = false) as -> by (apply String.eqb_neq; congruence).
Qed.
Lemma get_remove_key_ne v k k' : k <> k' -> get (remove_key v k) k' = get v k'.
Proof. destruct v; try done. apply fget_fremove_ne. Qed.
Lemma kind_of_remove_key v k : k <> "type"%string -> kind_of (remove_key v k) = kind_of v.
Proof. intros Hne. unfold kind_of, idx. by rewrite get_remove_key_ne. Qed.

Lemma kind_of_object v : kind_of v <> ""%string -> is_object v = true.
Proof. destruct v; done. Qed.

#[export] Hint Rewrite fget_finsert_eq : vantyr.
#[export] Hint Resolve kind_of_object : vantyr.

(** ** JSON text *)

(** Values whose text is read back unchanged: integers in Rust's range, sorted objects, and no
    floats (which [serde_json] prints and reads approximately without [float_roundtrip]). *)
Fixpoint keys_sorted (l : list string) : bool :=
  match l with
  | a :: (b :: _) as l => String.ltb a b && keys_sorted l
  | _ => true
  end.
Fixpoint json_plain (v : json) : bool :=
  match v with
  | JFloat _ => false
  | JInt z => in_range i64_min u64_max z
  | JArr l => forallb json_plain l
  | JObj l => keys_sorted l.*1 && forallb (fun kv => json_plain kv.2) l
  | _ => true
  end.

(** [serde_json::to_vec] and [from_slice], which are not part of this repository: parsing the
    text of a plain value reads it back. *)
Class JsonText := {
  json_print : json -> list Z;
  json_parse : list Z -> option json;
  json_parse_print : forall v, json_plain v = true -> json_parse (json_print v) = Some v
}.

(** A concrete text, the binary digits of a value's number, for evaluating on examples. *)
Inductive leaf : Type := LNull | LBool (b : bool) | LInt (z : Z) | LStr (s : string).
#[export] Instance leaf_eq_dec : EqDecision leaf.
Proof. solve_decision. Defined.
#[export] Instance leaf_countable : Countable leaf.
Proof.
  refine (inj_countable' (fun l => match l with LNull => inl (inl None) | LBool b => inl (inl (Some b))
                                   | LInt z => inl (inr z) | LStr s => inr s end)
                         (fun x => match x with inl (inl None) => LNull | inl (inl (Some b)) => LBool b
                                   | inl (inr z) => LInt z | inr s => LStr s end) _).
  by intros [].
Defined.

Fixpoint json_tree (v : json) : gen_tree leaf :=
  match v with
  | JNull | JFloat _ => GenLeaf LNull
  | JBool b => GenLeaf (LBool b)
  | JInt z => GenLeaf (LInt z)
  | JStr s => GenLeaf (LStr s)
  | JArr l => GenNode 0 (json_tree <$> l)
  | JObj l => GenNode 1 ((fun kv => GenNode 0 [GenLeaf (LStr kv.1); json_tree kv.2]) <$> l)
  end.
Fixpoint tree_json (t : gen_tree leaf) : json :=
  match t with
  | GenLeaf LNull => JNull
  | GenLeaf (LBool b) => JBool b
  | GenLeaf (LInt z) => JInt z
  | GenLeaf (LStr s) => JStr s
  | GenNode 0 l => JArr (tree_json <$> l)
  | GenNode _ l =>
      JObj ((fun t => match t with
                      | GenNode _ [GenLeaf (LStr k); x] => (k, tree_json x)
                      | _ => (EmptyString, JNull)
                      end) <$> l)
  end.

Lemma tree_json_tree v : json_plain v = true -> tree_json (json_tree v) = v.
Proof.
  induction v as [| | | | |l IH|l IH] using json_nested_ind; simpl; intros Hp; try done.
  - f_equal. induction IH as [|x l Hx _ IHl]; simpl in *; [done|]. bool_prop.
    rewrite Hx by done. f_equal. by apply IHl.
  - bool_prop. f_equal. clear H. induction IH as [|[k x] l Hx _ IHl]; simpl in *; [done|]. bool_prop.
    rewrite Hx by done. f_equal. by apply IHl.
Qed.

Fixpoint pos_digits (p : positive) : list Z :=
  match p with xH => [1] | xO p => 0 :: pos_digits p | xI p => 1 :: pos_digits p end.
Fixpoint digits_pos (l : list Z) : positive :=
  match l with [] | [_] => xH | d :: l => if d =? 0 then xO (digits_pos l) else xI (digits_pos l) end.
Lemma digits_pos_digits p : digits_pos (pos_digits p) = p.
Proof.
  assert (forall q, pos_digits q <> []) as Hne by (by intros []).
  induction p as [p IH|p IH|]; simpl; [| |done]; specialize (Hne p); destruct (pos_digits p); simpl in *; congruence.
Qed.

Definition bin_json : JsonText.
Proof.
  refine {| json_print v := pos_digits (encode (json_tree v));
            json_parse l := tree_json <$> decode (digits_pos l) |}.
  intros v Hv. rewrite digits_pos_digits, decode_encode. simpl. by rewrite tree_json_tree.
Defined.

(** ** Plain values *)

Lemma ltb_or a b : a <> b -> String.ltb a b = false -> String.ltb b a = true.
Proof.
  unfold String.ltb. rewrite (String.compare_antisym b a). intros Hne. destruct (String.compare a b) eqn:E; try done.
  by apply String.compare_eq_iff in E.
Qed.
Lemma keys_sorted_cons a l : keys_sorted (a :: l) = true <-> (forall b, head l = Some b -> String.ltb a b = true) /\ keys_sorted l = true.
Proof.
  destruct l as [|b l]; [by split|]. cbn [keys_sorted head]. rewrite andb_true_iff. split.
  - intros [Hb Hl]. split; [by intros ? [= <-]|done].
  - intros [Hb Hl]. split; [by apply Hb|done].
Qed.
Lemma finsert_head k v l b : head (finsert k v l).*1 = Some b -> b = k \/ head l.*1 = Some b.
Proof.
  destruct l as [|[k' v'] l]; cbn [finsert]; [intros [= <-]; by left|].
  destruct (String.eqb k k'); [intros [= <-]; by left|]. destruct (String.ltb k k'); intros [= <-]; [by left|by right].
Qed.
Lemma keys_sorted_finsert k v l : keys_sorted l.*1 = true -> keys_sorted (finsert k v l).*1 = true.
Proof.
  induction l as [|[k' v'] l IH]; cbn [finsert]; [done|]. destruct (String.eqb_spec k k') as [->|Hne]; [done|].
  destruct (String.ltb k k') eqn:E; rewrite !fmap_cons; cbn [fst].
  - intros Hs. apply keys_sorted_cons. split; [by intros ? [= <-]|done].
  - intros [Hh Hs]%keys_sorted_cons. apply keys_sorted_cons. split; [|by apply IH].
    intros b [->|Hb]%finsert_head; [by apply ltb_or|by apply Hh].
Qed.
Lemma finsert_plain k v l :
  json_plain v = true -> forallb (fun kv : string * json => json_plain kv.2) l = true ->
  forallb (fun kv : string * json => json_plain kv.2) (finsert k v l) = true.
Proof.
  intros Hv. induction l as [|[k' v'] l IH]; cbn [finsert forallb snd]; [by rewrite Hv|]. intros [Hv' Hl]%andb_prop.
  destruct (String.eqb k k'); [|destruct (String.ltb k k')]; cbn [forallb snd]; rewrite ?Hv, ?Hv', ?Hl, ?IH by done; done.
Qed.
(** An object literal of plain values is plain. *)
Lemma mk_obj_plain l : Forall (fun kv => json_plain kv.2 = true) l -> json_plain (mk_obj l) = true.
Proof.
  intros Hl. cbn [mk_obj json_plain]. apply andb_true_iff. induction Hl as [|[k v] l Hv _ [IH1 IH2]]; cbn [foldr fst snd]; [done|].
  split; [by apply keys_sorted_finsert|by apply finsert_plain].
Qed.

(** The fields of an object literal with distinct keys, in some order. *)
Lemma finsert_Permutation k v l : k ∉ l.*1 -> finsert k v l ≡ₚ (k, v) :: l.
Proof.
  induction l as [|[k' v'] l IH]; cbn [finsert]; [done|]. rewrite fmap_cons, not_elem_of_cons. intros [Hne Hin]. cbn [fst] in Hne.
  rewrite (proj2 (String.eqb_neq _ _)) by done. destruct (String.ltb k k'); [done|]. rewrite IH by done. apply Permutation_swap.
Qed.
Lemma mk_obj_fields l : NoDup l.*1 -> exists fields, mk_obj l = JObj fields /\ fields ≡ₚ l.
Proof.
  intros Hn. eexists. split; [done|]. induction l as [|[k v] l IH]; cbn [foldr fst snd]; [done|].
  rewrite fmap_cons in Hn. apply NoDup_cons in Hn as [Hk Hn]. specialize (IH Hn). rewrite finsert_Permutation; [by rewrite IH|].
  by rewrite IH.
Qed.

(** Integers in range read back. *)
Lemma in_range_true lo hi z : lo <= z <= hi -> in_range lo hi z = true.
Proof. apply in_range_spec. Qed.
Lemma as_u64_JInt z : 0 <= z <= u64_max -> as_u64 (JInt z) = Some z.
Proof. intros H. simpl. by rewrite in_range_true. Qed.
Lemma as_i64_JInt z : i64_min <= z <= i64_max -> as_i64 (JInt z) = Some z.
Proof. intros H. simpl. by rewrite in_range_true. Qed.
Lemma try_i32_id z : i32_min <= z <= i32_max -> try_i32 z = Some z.
Proof. intros H. by apply try_i32_Some. Qed.
