(* ===== verification/Protocol.v ===== *)
(** The shared protocol crate: the module catalogue ([protocol/src/modules.rs]), the typed
    server-to-agent commands with their authorization table ([protocol/src/commands.rs]) and
    the lenient field readers they are parsed with ([protocol/src/lenient.rs]). *)
From S2P Require Import Prelude Json.
From Stdlib Require Import SpecFloat.

(** ** Modules *)

Inductive Module_ : Type :=
| KeyboardText | IdleActivity | WindowActivity | BrowserUrls | Recall | LiveScreen | LiveAudio
| RemoteInput | Clipboard | Files | Terminal | Scripts | SoftwareInventory | ResourceMetrics
| SystemInfo | SystemControl | AppPolicy | NetworkPolicy | Logs.

#[export] Instance Module_eq_dec : EqDecision Module_.
Proof. solve_decision. Defined.

Definition MODULES : list Module_ :=
  [KeyboardText; IdleActivity; WindowActivity; BrowserUrls; Recall; LiveScreen; LiveAudio;
   RemoteInput; Clipboard; Files; Terminal; Scripts; SoftwareInventory; ResourceMetrics;
   SystemInfo; SystemControl; AppPolicy; NetworkPolicy; Logs].

#[export] Program Instance Module_finite : Finite Module_ := {| enum := MODULES |}.
Next Obligation. by apply (bool_decide_unpack _). Qed.
Next Obligation. intros []; by apply (bool_decide_unpack _). Qed.

(** The wire name of a module ([Module::as_str]). *)
Definition module_str (m : Module_) : string :=
  match m with
  | KeyboardText => "keyboard_text"
  | IdleActivity => "idle_activity"
  | WindowActivity => "window_activity"
  | BrowserUrls => "browser_urls"
  | Recall => "recall"
  | LiveScreen => "live_screen"
  | LiveAudio => "live_audio"
  | RemoteInput => "remote_input"
  | Clipboard => "clipboard"
  | Files => "files"
  | Terminal => "terminal"
  | Scripts => "scripts"
  | SoftwareInventory => "software_inventory"
  | ResourceMetrics => "resource_metrics"
  | SystemInfo => "system_info"
  | SystemControl => "system_control"
  | AppPolicy => "app_policy"
  | NetworkPolicy => "network_policy"
  | Logs => "logs"
  end.

(** Deserializing a module: the snake_case rename of its variant, as a string or as the
    externally tagged object [{"name": null}] that [serde_json] also accepts. *)
Definition module_of_str (s : string) : option Module_ :=
  List.find (fun m => String.eqb (module_str m) s) MODULES.
Definition module_of_json (v : json) : option Module_ :=
  match v with
  | JStr s | JObj [(s, JNull)] => module_of_str s
  | _ => None
  end.
Definition module_to_json (m : Module_) : json := JStr (module_str m).

(** ** Lenient readers: an absent field or one of the wrong type reads as absent *)

(** [lenient::opt]: [rd] is [serde_json::from_value::<T>(..).ok()]. *)
Definition lenient_opt {T} (rd : json -> option T) (field : option json) : option T :=
  match field with Some v => rd v | None => None end.
(** [lenient::string]. *)
Definition lenient_string (field : option json) : string := default ""%string (lenient_opt as_str field).
(** [lenient::present]: [Some] whenever the field is present, null included. *)
Definition lenient_present {T} (rd : json -> option T) (field : option json) : option (option T) :=
  match field with Some v => Some (rd v) | None => None end.
(** [lenient::array]. *)
Definition lenient_array (field : option json) : list json := default [] (lenient_opt as_array field).
(** [lenient::uuid]. *)
Definition lenient_uuid `{UuidText} (field : option json) : option Uuid :=
  match lenient_opt as_str field with Some s => parse_uuid s | None => None end.
(** [lenient::i64_or_zero]. *)
Definition lenient_i64_or_zero (field : option json) : Z := default 0 (lenient_opt as_i64 field).
(** [u64 as i64] wraps. *)
Definition u64_as_i64 (z : Z) : Z := if z <=? i64_max then z else z - 2 ^ 64.
(** [lenient::i64_wrap_or_zero]. *)
Definition lenient_i64_wrap_or_zero (field : option json) : Z :=
  match field with
  | Some v => match as_i64 v with
              | Some z => z
              | None => default 0 (option_map u64_as_i64 (as_u64 v))
              end
  | None => 0
  end.

(** [serde_json::Number], and a JSON number read as [f64]. *)
Inductive number : Type := NInt (z : Z) | NFloat (f : spec_float).
Definition as_number (v : json) : option number :=
  match v with JInt z => Some (NInt z) | JFloat f => Some (NFloat f) | _ => None end.
Definition number_json (n : number) : json :=
  match n with NInt z => JInt z | NFloat f => JFloat f end.
(** An [f64] as a value: serde_json has no infinity and no NaN, and writes null for them. *)
Definition is_finite (f : spec_float) : bool := match f with S754_zero _ | S754_finite _ _ _ => true | _ => false end.
Definition f64_json (f : spec_float) : json := if is_finite f then JFloat f else JNull.
Definition as_f64 (v : json) : option spec_float :=
  match v with
  | JFloat f => Some f
  | JInt z => Some (binary_normalize 53 1024 z 0 false)
  | _ => None
  end.

(** ** Command payloads *)

Record DisableModule := { dm_module : option Module_; dm_expected_revision : option Z; dm_command_id : option Uuid }.
Record HistoryFrameAck := { hfa_uid : string; hfa_rejected : option bool; hfa_reason : option string }.
Record ClipboardRequest := { cr_request_id : option Uuid }.
Record ClipboardWrite := { cw_request_id : option Uuid; cw_text : option string }.
Record TerminalSize := { ts_session_id : option Uuid; ts_cols : option Z; ts_rows : option Z }.
Record TerminalInput := { ti_session_id : option Uuid; ti_data : option string }.
Record TerminalSession := { tss_session_id : option Uuid }.
Record SetAutoUpdate := { sau_enabled : option bool }.
Record SetNetworkPolicy := { snp_blocked : option bool }.
Record BlockRules := { br_rules : list json }.
Record SetRecallSettings := { srs_settings : json }.
Record StartCapture := {
  sc_jpeg_quality : option (option Z);
  sc_jpeg_q : option (option Z);
  sc_interval_ms : option (option number);
  sc_fps : option spec_float;
  sc_monitor : option (option Z);
  sc_monitor_index : option (option Z)
}.
Record ListLogSources := { lls_request_id : string }.
Record ReadLogTail := { rlt_request_id : string; rlt_kind : option string; rlt_max_kb : option Z }.
Record FilePath := { fp_path : string }.
Record Mkdir := { mk_request_id : string; mk_path : string; mk_name : string }.
Record PathPair := { pp_request_id : string; pp_src : string; pp_dst : string }.
Record DeletePath := { dp_request_id : string; dp_path : string; dp_recursive : option bool }.
Record WriteFileChunk := { wfc_path : string; wfc_total_chunks : option Z; wfc_chunk_index : option Z; wfc_data : string }.
Record RunScript := { rs_request_id : string; rs_shell : option string; rs_script : string; rs_timeout_secs : option Z }.

(** [DisableModule::new], [HistoryFrameAck::accepted], [HistoryFrameAck::rejected]. *)
Definition DisableModule_new (m : Module_) (rev : Z) (id : Uuid) : DisableModule :=
  {| dm_module := Some m; dm_expected_revision := Some rev; dm_command_id := Some id |}.
Definition HistoryFrameAck_accepted (uid : string) : HistoryFrameAck :=
  {| hfa_uid := uid; hfa_rejected := None; hfa_reason := None |}.
Definition HistoryFrameAck_rejected (uid reason : string) : HistoryFrameAck :=
  {| hfa_uid := uid; hfa_rejected := Some true; hfa_reason := Some reason |}.
(** [StartCapture::default] and [StartCapture::new]: the server always sends [monitor]. *)
Definition StartCapture_default : StartCapture :=
  {| sc_jpeg_quality := None; sc_jpeg_q := None; sc_interval_ms := None; sc_fps := None;
     sc_monitor := None; sc_monitor_index := None |}.
Definition StartCapture_new (monitor : option Z) (jpeg_quality interval_ms : Z) : StartCapture :=
  {| sc_jpeg_quality := Some (Some jpeg_quality); sc_jpeg_q := None;
     sc_interval_ms := Some (Some (NInt interval_ms)); sc_fps := None;
     sc_monitor := Some monitor; sc_monitor_index := None |}.

Inductive ServerCommand : Type :=
| AgentDeleted | AgentCredentialsRevoked
| DisableModule_ (p : DisableModule) | HistoryFrameAck_ (p : HistoryFrameAck)
| ClipboardRead (p : ClipboardRequest) | ClipboardWrite_ (p : ClipboardWrite) | ClipboardCancel (p : ClipboardRequest)
| TerminalStart (p : TerminalSize) | TerminalInput_ (p : TerminalInput)
| TerminalResize (p : TerminalSize) | TerminalClose (p : TerminalSession)
| RequestInfo | CollectSoftware | LockHost | RestartHost | ShutdownHost | UpdateNow
| SetAutoUpdate_ (p : SetAutoUpdate) | SetNetworkPolicy_ (p : SetNetworkPolicy)
| SetInternetBlockRules (p : BlockRules) | SetRecallSettings_ (p : SetRecallSettings)
| SetAppBlockRules (p : BlockRules)
| StartCapture_ (p : StartCapture) | StopCapture | StartAudio | StopAudio
| ListLogSources_ (p : ListLogSources) | ReadLogTail_ (p : ReadLogTail)
| ListDir (p : FilePath) | ReadFile (p : FilePath) | WriteFileChunk_ (p : WriteFileChunk)
| Mkdir_ (p : Mkdir) | RenamePath (p : PathPair) | DeletePath_ (p : DeletePath) | CopyPath (p : PathPair)
| RunScript_ (p : RunScript)
| MouseMove | MouseClick | MouseDoubleClick | MouseDown | MouseUp | MouseScroll | Scroll
| KeyDown | KeyUp | KeyPress | KeyChar | TypeText | Notify
| Unknown.

(** The serde [rename] of each variant: its wire ["type"]. *)
Definition command_kind (c : ServerCommand) : string :=
  match c with
  | AgentDeleted => "agent_deleted"
  | AgentCredentialsRevoked => "agent_credentials_revoked"
  | DisableModule_ _ => "disable_module"
  | HistoryFrameAck_ _ => "history_frame_ack"
  | ClipboardRead _ => "ClipboardRead"
  | ClipboardWrite_ _ => "ClipboardWrite"
  | ClipboardCancel _ => "ClipboardCancel"
  | TerminalStart _ => "TerminalStart"
  | TerminalInput_ _ => "TerminalInput"
  | TerminalResize _ => "TerminalResize"
  | TerminalClose _ => "TerminalClose"
  | RequestInfo => "RequestInfo"
  | CollectSoftware => "CollectSoftware"
  | LockHost => "LockHost"
  | RestartHost => "RestartHost"
  | ShutdownHost => "ShutdownHost"
  | UpdateNow => "update_now"
  | SetAutoUpdate_ _ => "set_auto_update"
  | SetNetworkPolicy_ _ => "set_network_policy"
  | SetInternetBlockRules _ => "set_internet_block_rules"
  | SetRecallSettings_ _ => "set_recall_settings"
  | SetAppBlockRules _ => "set_app_block_rules"
  | StartCapture_ _ => "start_capture"
  | StopCapture => "stop_capture"
  | StartAudio => "start_audio"
  | StopAudio => "stop_audio"
  | ListLogSources_ _ => "ListLogSources"
  | ReadLogTail_ _ => "ReadLogTail"
  | ListDir _ => "ListDir"
  | ReadFile _ => "ReadFile"
  | WriteFileChunk_ _ => "WriteFileChunk"
  | Mkdir_ _ => "Mkdir"
  | RenamePath _ => "RenamePath"
  | DeletePath_ _ => "DeletePath"
  | CopyPath _ => "CopyPath"
  | RunScript_ _ => "RunScript"
  | MouseMove => "MouseMove"
  | MouseClick => "MouseClick"
  | MouseDoubleClick => "MouseDoubleClick"
  | MouseDown => "MouseDown"
  | MouseUp => "MouseUp"
  | MouseScroll => "MouseScroll"
  | Scroll => "Scroll"
  | KeyDown => "KeyDown"
  | KeyUp => "KeyUp"
  | KeyPress => "KeyPress"
  | KeyChar => "KeyChar"
  | TypeText => "TypeText"
  | Notify => "Notify"
  | Unknown => "Unknown"
  end.

(** ** Authorization table *)

Inductive Gate : Type :=
| GModule (m : Module_)
| GProtocol
| GDisableModule
| GDenied.

#[export] Instance Gate_eq_dec : EqDecision Gate.
Proof. solve_decision. Defined.

Definition gate (c : ServerCommand) : Gate :=
  match c with
  | StartCapture_ _ => GModule LiveScreen
  | StartAudio => GModule LiveAudio
  | ClipboardRead _ | ClipboardWrite_ _ => GModule Clipboard
  | MouseMove | MouseClick | MouseDoubleClick | MouseDown | MouseUp | MouseScroll | Scroll
  | KeyDown | KeyUp | KeyPress | KeyChar | TypeText | Notify => GModule RemoteInput
  | TerminalStart _ | TerminalInput_ _ | TerminalResize _ => GModule Terminal
  | RunScript_ _ => GModule Scripts
  | ListDir _ | ReadFile _ | WriteFileChunk_ _ | Mkdir_ _ | RenamePath _ | DeletePath_ _
  | CopyPath _ => GModule Files
  | CollectSoftware => GModule SoftwareInventory
  | RequestInfo => GModule SystemInfo
  | LockHost | RestartHost | ShutdownHost => GModule SystemControl
  | SetAppBlockRules _ => GModule AppPolicy
  | SetNetworkPolicy_ _ | SetInternetBlockRules _ => GModule NetworkPolicy
  | ListLogSources_ _ | ReadLogTail_ _ => GModule Logs
  | DisableModule_ _ => GDisableModule
  | AgentDeleted | AgentCredentialsRevoked | HistoryFrameAck_ _ | ClipboardCancel _
  | TerminalClose _ | UpdateNow | SetAutoUpdate_ _ | SetRecallSettings_ _ | StopCapture
  | StopAudio => GProtocol
  | Unknown => GDenied
  end.

Definition module_of (c : ServerCommand) : option Module_ :=
  match gate c with
  | GModule m => Some m
  | GProtocol | GDisableModule | GDenied => None
  end.

(** ** Parsing and printing *)

Section wire.
Context `{UuidText}.

Definition fu64 (l : list (string * json)) (k : string) : option Z := lenient_opt as_u64 (fget k l).
Definition fstr (l : list (string * json)) (k : string) : option string := lenient_opt as_str (fget k l).
Definition fbool (l : list (string * json)) (k : string) : option bool := lenient_opt as_bool (fget k l).
Definition fstring (l : list (string * json)) (k : string) : string := lenient_string (fget k l).
Definition fuuid (l : list (string * json)) (k : string) : option Uuid := lenient_uuid (fget k l).
Definition fpresent_u64 (l : list (string * json)) (k : string) : option (option Z) :=
  lenient_present as_u64 (fget k l).

Definition read_terminal_size l :=
  {| ts_session_id := fuuid l "session_id"; ts_cols := fu64 l "cols"; ts_rows := fu64 l "rows" |}.
Definition read_path_pair l :=
  {| pp_request_id := fstring l "request_id"; pp_src := fstring l "src"; pp_dst := fstring l "dst" |}.
Definition read_start_capture l :=
  {| sc_jpeg_quality := fpresent_u64 l "jpeg_quality"; sc_jpeg_q := fpresent_u64 l "jpeg_q";
     sc_interval_ms := lenient_present as_number (fget "interval_ms" l);
     sc_fps := lenient_opt as_f64 (fget "fps" l);
     sc_monitor := fpresent_u64 l "monitor"; sc_monitor_index := fpresent_u64 l "monitor_index" |}.

(** The variant names and the payload each is read with. *)
Definition command_table : list (string * (list (string * json) -> ServerCommand)) :=
  [("agent_deleted", fun _ => AgentDeleted);
   ("agent_credentials_revoked", fun _ => AgentCredentialsRevoked);
   ("disable_module", fun l => DisableModule_
      {| dm_module := lenient_opt module_of_json (fget "module" l);
         dm_expected_revision := fu64 l "expected_revision"; dm_command_id := fuuid l "command_id" |});
   ("history_frame_ack", fun l => HistoryFrameAck_
      {| hfa_uid := fstring l "uid"; hfa_rejected := fbool l "rejected"; hfa_reason := fstr l "reason" |});
   ("ClipboardRead", fun l => ClipboardRead {| cr_request_id := fuuid l "request_id" |});
   ("ClipboardWrite", fun l => ClipboardWrite_
      {| cw_request_id := fuuid l "request_id"; cw_text := fstr l "text" |});
   ("ClipboardCancel", fun l => ClipboardCancel {| cr_request_id := fuuid l "request_id" |});
   ("TerminalStart", fun l => TerminalStart (read_terminal_size l));
   ("TerminalInput", fun l => TerminalInput_
      {| ti_session_id := fuuid l "session_id"; ti_data := fstr l "data" |});
   ("TerminalResize", fun l => TerminalResize (read_terminal_size l));
   ("TerminalClose", fun l => TerminalClose {| tss_session_id := fuuid l "session_id" |});
   ("RequestInfo", fun _ => RequestInfo);
   ("CollectSoftware", fun _ => CollectSoftware);
   ("LockHost", fun _ => LockHost);
   ("RestartHost", fun _ => RestartHost);
   ("ShutdownHost", fun _ => ShutdownHost);
   ("update_now", fun _ => UpdateNow);
   ("set_auto_update", fun l => SetAutoUpdate_ {| sau_enabled := fbool l "enabled" |});
   ("set_network_policy", fun l => SetNetworkPolicy_ {| snp_blocked := fbool l "blocked" |});
   ("set_internet_block_rules", fun l => SetInternetBlockRules {| br_rules := lenient_array (fget "rules" l) |});
   ("set_recall_settings", fun l => SetRecallSettings_ {| srs_settings := default JNull (fget "settings" l) |});
   ("set_app_block_rules", fun l => SetAppBlockRules {| br_rules := lenient_array (fget "rules" l) |});
   ("start_capture", fun l => StartCapture_ (read_start_capture l));
   ("stop_capture", fun _ => StopCapture);
   ("start_audio", fun _ => StartAudio);
   ("stop_audio", fun _ => StopAudio);
   ("ListLogSources", fun l => ListLogSources_ {| lls_request_id := fstring l "request_id" |});
   ("ReadLogTail", fun l => ReadLogTail_
      {| rlt_request_id := fstring l "request_id"; rlt_kind := fstr l "kind"; rlt_max_kb := fu64 l "max_kb" |});
   ("ListDir", fun l => ListDir {| fp_path := fstring l "path" |});
   ("ReadFile", fun l => ReadFile {| fp_path := fstring l "path" |});
   ("WriteFileChunk", fun l => WriteFileChunk_
      {| wfc_path := fstring l "path"; wfc_total_chunks := fu64 l "total_chunks";
         wfc_chunk_index := fu64 l "chunk_index"; wfc_data := fstring l "data" |});
   ("Mkdir", fun l => Mkdir_
      {| mk_request_id := fstring l "request_id"; mk_path := fstring l "path"; mk_name := fstring l "name" |});
   ("RenamePath", fun l => RenamePath (read_path_pair l));
   ("DeletePath", fun l => DeletePath_
      {| dp_request_id := fstring l "request_id"; dp_path := fstring l "path"; dp_recursive := fbool l "recursive" |});
   ("CopyPath", fun l => CopyPath (read_path_pair l));
   ("RunScript", fun l => RunScript_
      {| rs_request_id := fstring l "request_id"; rs_shell := fstr l "shell";
         rs_script := fstring l "script"; rs_timeout_secs := fu64 l "timeout_secs" |});
   ("MouseMove", fun _ => MouseMove);
   ("MouseClick", fun _ => MouseClick);
   ("MouseDoubleClick", fun _ => MouseDoubleClick);
   ("MouseDown", fun _ => MouseDown);
   ("MouseUp", fun _ => MouseUp);
   ("MouseScroll", fun _ => MouseScroll);
   ("Scroll", fun _ => Scroll);
   ("KeyDown", fun _ => KeyDown);
   ("KeyUp", fun _ => KeyUp);
   ("KeyPress", fun _ => KeyPress);
   ("KeyChar", fun _ => KeyChar);
   ("TypeText", fun _ => TypeText);
   ("Notify", fun _ => Notify)].

Fixpoint assoc_str {A} (k : string) (l : list (string * A)) : option A :=
  match l with
  | [] => None
  | (k', v) :: l => if String.eqb k k' then Some v else assoc_str k l
  end.

(** [ServerCommand::parse] on the fields of an object: an unknown, missing or non-string
    ["type"] is [Unknown]. *)
Definition parse_fields (l : list (string * json)) : ServerCommand :=
  match fget "type" l with
  | Some (JStr k) => match assoc_str k command_table with Some f => f l | None => Unknown end
  | _ => Unknown
  end.

(** [ServerCommand::from_kind]. *)
Definition from_kind (kind : string) : ServerCommand := parse_fields [("type"%string, JStr kind)].

(** Serialization: [skip_serializing_if = "Option::is_none"] omits a field. *)
Definition ofield {A} (k : string) (enc : A -> json) (o : option A) : list (string * json) :=
  match o with Some a => [(k, enc a)] | None => [] end.
Definition uuid_json (u : Uuid) : json := JStr (uuid_text u).
Definition onull {A} (enc : A -> json) (o : option A) : json :=
  match o with Some a => enc a | None => JNull end.

Definition command_fields (c : ServerCommand) : list (string * json) :=
  match c with
  | DisableModule_ p =>
      ofield "module" module_to_json (dm_module p) ++ ofield "expected_revision" JInt (dm_expected_revision p)
      ++ ofield "command_id" uuid_json (dm_command_id p)
  | HistoryFrameAck_ p =>
      [("uid", JStr (hfa_uid p))] ++ ofield "rejected" JBool (hfa_rejected p) ++ ofield "reason" JStr (hfa_reason p)
  | ClipboardRead p | ClipboardCancel p => ofield "request_id" uuid_json (cr_request_id p)
  | ClipboardWrite_ p => ofield "request_id" uuid_json (cw_request_id p) ++ ofield "text" JStr (cw_text p)
  | TerminalStart p | TerminalResize p =>
      ofield "session_id" uuid_json (ts_session_id p) ++ ofield "cols" JInt (ts_cols p) ++ ofield "rows" JInt (ts_rows p)
  | TerminalInput_ p => ofield "session_id" uuid_json (ti_session_id p) ++ ofield "data" JStr (ti_data p)
  | TerminalClose p => ofield "session_id" uuid_json (tss_session_id p)
  | SetAutoUpdate_ p => ofield "enabled" JBool (sau_enabled p)
  | SetNetworkPolicy_ p => ofield "blocked" JBool (snp_blocked p)
  | SetInternetBlockRules p | SetAppBlockRules p => [("rules", JArr (br_rules p))]
  | SetRecallSettings_ p => [("settings", srs_settings p)]
  | StartCapture_ p =>
      ofield "jpeg_quality" (onull JInt) (sc_jpeg_quality p) ++ ofield "jpeg_q" (onull JInt) (sc_jpeg_q p)
      ++ ofield "interval_ms" (onull number_json) (sc_interval_ms p) ++ ofield "fps" f64_json (sc_fps p)
      ++ ofield "monitor" (onull JInt) (sc_monitor p) ++ ofield "monitor_index" (onull JInt) (sc_monitor_index p)
  | ListLogSources_ p => [("request_id", JStr (lls_request_id p))]
  | ReadLogTail_ p =>
      [("request_id", JStr (rlt_request_id p))] ++ ofield "kind" JStr (rlt_kind p) ++ ofield "max_kb" JInt (rlt_max_kb p)
  | ListDir p | ReadFile p => [("path", JStr (fp_path p))]
  | WriteFileChunk_ p =>
      [("path", JStr (wfc_path p))] ++ ofield "total_chunks" JInt (wfc_total_chunks p)
      ++ ofield "chunk_index" JInt (wfc_chunk_index p) ++ [("data", JStr (wfc_data p))]
  | Mkdir_ p => [("request_id", JStr (mk_request_id p)); ("path", JStr (mk_path p)); ("name", JStr (mk_name p))]
  | RenamePath p | CopyPath p =>
      [("request_id", JStr (pp_request_id p)); ("src", JStr (pp_src p)); ("dst", JStr (pp_dst p))]
  | DeletePath_ p =>
      [("request_id", JStr (dp_request_id p)); ("path", JStr (dp_path p))] ++ ofield "recursive" JBool (dp_recursive p)
  | RunScript_ p =>
      [("request_id", JStr (rs_request_id p))] ++ ofield "shell" JStr (rs_shell p)
      ++ [("script", JStr (rs_script p))] ++ ofield "timeout_secs" JInt (rs_timeout_secs p)
  | _ => []
  end.

(** [ServerCommand::to_value]. *)
Definition to_value (c : ServerCommand) : json :=
  mk_obj (("type"%string, JStr (command_kind c)) :: command_fields c).

(** Values that survive the wire: unsigned fields fit [u64], a [serde_json::Number] is one of its integers or a
    finite double, and an [fps] is a finite double: an infinite or NaN one prints as null, which reads as absent. *)
Definition finite64 (f : spec_float) : bool := is_finite f && valid_binary 53 1024 f.
Definition number_ok (n : number) : bool := match n with NInt z => in_range i64_min u64_max z | NFloat f => finite64 f end.
Definition ou64 (o : option Z) : bool := is_none_or o (in_range 0 u64_max).
Definition oou64 (o : option (option Z)) : bool := is_none_or o ou64.
Definition command_wf (c : ServerCommand) : bool :=
  match c with
  | DisableModule_ p => ou64 (dm_expected_revision p)
  | TerminalStart p | TerminalResize p => ou64 (ts_cols p) && ou64 (ts_rows p)
  | StartCapture_ p => oou64 (sc_jpeg_quality p) && oou64 (sc_jpeg_q p) && oou64 (sc_monitor p)
                       && oou64 (sc_monitor_index p) && is_none_or (sc_fps p) finite64
                       && is_none_or (sc_interval_ms p) (fun n => is_none_or n number_ok)
  | ReadLogTail_ p => ou64 (rlt_max_kb p)
  | WriteFileChunk_ p => ou64 (wfc_total_chunks p) && ou64 (wfc_chunk_index p)
  | RunScript_ p => ou64 (rs_timeout_secs p)
  | _ => true
  end.

(** ** Lemmas *)

Lemma fget_mk k l : fget k (foldr (fun kv acc => finsert kv.1 kv.2 acc) [] l) = fget k l.
Proof.
  induction l as [|[k' v] l IH]; [done|]. cbn [foldr fst snd fget].
  destruct (String.eqb_spec k k') as [->|Hne]; [apply fget_finsert_eq|].
  by rewrite fget_finsert_ne.
Qed.

Lemma fget_ofield_eq {A} k (enc : A -> json) o l :
  fget k l = None -> fget k (ofield k enc o ++ l) = option_map enc o.
Proof. intros Hl. destruct o; simpl; [by rewrite String.eqb_refl|done]. Qed.

Lemma fget_ofield_ne {A} k k' (enc : A -> json) o l :
  String.eqb k k' = false -> fget k (ofield k' enc o ++ l) = fget k l.
Proof. intros Hl. destruct o; simpl; [by rewrite Hl|done]. Qed.

Lemma fget_ofield_last {A} k k' (enc : A -> json) o :
  fget k (ofield k' enc o) = if String.eqb k k' then option_map enc o else None.
Proof. destruct o; simpl; by destruct (String.eqb k k'). Qed.

Lemma fget_cons k k' v l : fget k ((k', v) :: l) = if String.eqb k k' then Some v else fget k l.
Proof. done. Qed.

Lemma module_of_str_module_str m : module_of_str (module_str m) = Some m.
Proof. destruct m; reflexivity. Qed.

Lemma opt_u64 o : ou64 o = true -> lenient_opt as_u64 (option_map JInt o) = o.
Proof. destruct o as [z|]; simpl; [|done]. by intros ->. Qed.

Lemma present_u64 o : oou64 o = true -> lenient_present as_u64 (option_map (onull JInt) o) = o.
Proof. destruct o as [[z|]|]; simpl; [|done..]. by intros ->. Qed.

Lemma opt_str o : lenient_opt as_str (option_map JStr o) = o.
Proof. by destruct o. Qed.
Lemma opt_bool o : lenient_opt as_bool (option_map JBool o) = o.
Proof. by destruct o. Qed.
Lemma opt_uuid o : lenient_uuid (option_map uuid_json o) = o.
Proof. destruct o; simpl; [|done]. unfold lenient_uuid. simpl. apply parse_uuid_text. Qed.
Lemma opt_module o : lenient_opt module_of_json (option_map module_to_json o) = o.
Proof. destruct o; simpl; [|done]. apply module_of_str_module_str. Qed.
Lemma opt_fps o : is_none_or o finite64 = true -> lenient_opt as_f64 (option_map f64_json o) = o.
Proof. destruct o as [f|]; [|done]. cbn. unfold finite64, f64_json. by destruct (is_finite f). Qed.
Lemma present_number o : lenient_present as_number (option_map (onull number_json) o) = o.
Proof. by destruct o as [[[]|]|]. Qed.

End wire.

(** Evaluates every field read of a printed command. *)
Ltac fget_step :=
  match goal with
  | |- context [fget ?k (ofield ?k' ?e ?o ++ ?l)] =>
      first [ rewrite (fget_ofield_ne k k' e o l) by reflexivity
            | rewrite (fget_ofield_eq k e o l) by (repeat fget_step; reflexivity) ]
  | |- context [fget ?k (ofield ?k' ?e ?o)] =>
      rewrite (fget_ofield_last k k' e o); cbn [String.eqb Ascii.eqb Bool.eqb]
  | |- context [fget ?k ((?k', ?v) :: ?l)] =>
      rewrite (fget_cons k k' v l); cbn [String.eqb Ascii.eqb Bool.eqb]
  end.
Ltac read_fields :=
  unfold read_terminal_size, read_path_pair, read_start_capture,
    fu64, fstr, fbool, fstring, fuuid, fpresent_u64, lenient_string, lenient_array;
  rewrite ?fget_mk; cbn [command_fields]; simpl app; repeat fget_step;
  rewrite ?opt_uuid, ?opt_bool, ?opt_str, ?opt_module, ?present_number.

Section wire_theorems.
Context `{UuidText}.

Lemma assoc_str_Some {A} k (l : list (string * A)) f : assoc_str k l = Some f -> (k, f) ∈ l.
Proof.
  induction l as [|[k' v] l IH]; [done|]. cbn [assoc_str]. destruct (String.eqb_spec k k') as [->|_].
  - intros [= ->]. left.
  - intros H'. right. by apply IH.
Qed.

(** A table entry builds the variant it names. *)
Lemma command_table_kind k f l : (k, f) ∈ command_table -> command_kind (f l) = k.
Proof.
  unfold command_table. intros Hin.
  repeat (apply elem_of_cons in Hin as [Heq|Hin]; [by simplify_eq|]). by apply not_elem_of_nil in Hin.
Qed.

Lemma from_kind_kind k : from_kind k = Unknown \/ command_kind (from_kind k) = k.
Proof.
  unfold from_kind, parse_fields. rewrite fget_cons. cbn [String.eqb Ascii.eqb Bool.eqb].
  destruct (assoc_str k command_table) as [f|] eqn:E; [right|by left].
  apply assoc_str_Some in E. by apply command_table_kind.
Qed.

Lemma gate_from_kind_disable k : gate (from_kind k) = GDisableModule <-> k = "disable_module"%string.
Proof.
  split; [|by intros ->]. destruct (from_kind_kind k) as [->|Hk]; [done|]. rewrite <- Hk.
  by destruct (from_kind k).
Qed.

(** The gate of a command is decided by its wire name alone. *)
Lemma gate_from_kind c : gate (from_kind (command_kind c)) = gate c.
Proof. by destruct c. Qed.

(** C38: every command the server can build survives the wire: parsing the value it prints
    gives back the same command with the same payload, for every variant whose integers are in
    the range of their Rust type and whose floats are finite. *)
Theorem command_roundtrip c :
  command_wf c = true ->
  match to_value c with JObj l => parse_fields l | _ => Unknown end = c.
Proof.
  intros Hwf. unfold to_value, mk_obj, parse_fields. rewrite fget_mk.
  cbn [fget String.eqb Ascii.eqb Bool.eqb].
  destruct c; cbn [command_kind];
    lazy [assoc_str command_table String.eqb Ascii.eqb Bool.eqb]; try reflexivity.
  all: destruct p; simpl in Hwf; bool_prop; read_fields; simpl.
  all: rewrite ?opt_u64, ?present_u64, ?opt_fps by done; reflexivity.
Qed.

End wire_theorems.

Definition ex_write : ServerCommand :=
  ClipboardWrite_ {| cw_request_id := Some 5%N; cw_text := Some "hi"%string |}.
Lemma command_roundtrip_witness :
  command_wf ex_write = true /\
  match @to_value bin_uuid ex_write with JObj l => @parse_fields bin_uuid l | _ => Unknown end = ex_write.
Proof. split; [reflexivity|]. apply (@command_roundtrip bin_uuid ex_write). reflexivity. Defined.
(** A NaN does not survive: it prints as null and reads back as an absent field. *)
Example nan_fps_reads_back_absent :
  let p := {| sc_jpeg_quality := None; sc_jpeg_q := None; sc_interval_ms := None; sc_fps := Some S754_nan; sc_monitor := None; sc_monitor_index := None |} in
  match @to_value bin_uuid (StartCapture_ p) with JObj l => @parse_fields bin_uuid l | _ => Unknown end
    = StartCapture_ {| sc_jpeg_quality := None; sc_jpeg_q := None; sc_interval_ms := None; sc_fps := None; sc_monitor := None; sc_monitor_index := None |}.
Proof. reflexivity. Qed.
