(* ===== verification/Sessions.v ===== *)
(** Exclusive remote-input leases: [server/src/control/sessions.rs]. The tracked held input,
    the lease table and every transition on it, with the conservation law of tokens, the
    soundness of authorization and the exactness of the release commands. *)
From S2P Require Import Prelude Json.

(** ** Constants *)

Definition DEFAULT_LEASE_TTL : Duration := secs 15.
Definition MIN_LEASE_TTL : Duration := secs 1.
Definition MAX_LEASE_TTL : Duration := secs 30.

Definition HELD_KEYS : list string :=
  ["enter"; "backspace"; "tab"; "escape"; "delete"; "insert"; "space"; "home"; "end"; "pageup";
   "pagedown"; "arrowup"; "arrowdown"; "arrowleft"; "arrowright"; "f1"; "f2"; "f3"; "f4"; "f5";
   "f6"; "f7"; "f8"; "f9"; "f10"; "f11"; "f12"; "control"; "alt"; "shift"; "meta"; "capslock"]%string.
Definition BUTTONS : list string := ["left"; "right"; "middle"]%string.

Definition tracked_key (key : string) : bool := existsb (String.eqb key) HELD_KEYS.

(** ** Data *)

Record LeaseOwner := { viewer_connection_id : Uuid; user_id : Uuid; agent_connection_id : Uuid }.
Record LeaseGrant := { token : Uuid; owner : LeaseOwner; expires_at : Instant }.
Inductive LeaseError : Type :=
| Conflict (o : LeaseOwner)
| Missing
| Expired
| Mismatch
| InvalidHeldInput.
Inductive TeardownReason : Type :=
| RReleased
| RExpired
| RViewerDisconnected
| RAgentDisconnected.
Record LeaseCleanup := {
  c_token : Uuid;
  c_agent_id : Uuid;
  c_owner : LeaseOwner;
  c_reason : TeardownReason;
  c_commands : list json
}.
Record Transition (T : Type) := { t_result : result T LeaseError; t_cleanup : list LeaseCleanup }.
Arguments t_result {T} _.
Arguments t_cleanup {T} _.

#[export] Instance LeaseOwner_eq_dec : EqDecision LeaseOwner.
Proof. solve_decision. Defined.
#[export] Instance LeaseGrant_eq_dec : EqDecision LeaseGrant.
Proof. solve_decision. Defined.
#[export] Instance TeardownReason_eq_dec : EqDecision TeardownReason.
Proof. solve_decision. Defined.

Definition remaining (g : LeaseGrant) (now : Instant) : Duration := saturating_since (expires_at g) now.

(** ** Held input *)

(** A bit per key of [HELD_KEYS]; per button, where it was last seen while down. *)
Record HeldInput := { keys : Z; buttons : list (option (Z * Z)) }.
Definition HeldInput_default : HeldInput := {| keys := 0; buttons := [None; None; None] |}.

Definition read_i32 (cmd : json) (name : string) : option Z :=
  match as_i64 (idx cmd name) with Some n => try_i32 n | None => None end.

Definition input_position (cmd : json) : result (Z * Z) LeaseError :=
  match read_i32 cmd "x", read_i32 cmd "y" with
  | Some x, Some y => Ok (x, y)
  | _, _ => Err InvalidHeldInput
  end.

Definition input_button (cmd : json) : result nat LeaseError :=
  let* button := (match get cmd "button" with
                  | None => Ok "left"%string
                  | Some value => ok_or (as_str value) InvalidHeldInput
                  end) in
  ok_or (position (String.eqb button) BUTTONS) InvalidHeldInput.

(** Every coordinate-bearing mouse command moves the host cursor. *)
Definition move_held (point : Z * Z) (bs : list (option (Z * Z))) : list (option (Z * Z)) :=
  (fun b => match b with Some _ => Some point | None => None end) <$> bs.

(** [HeldInput::track]: the new state, or an error that leaves the state as it was. *)
Definition track (h : HeldInput) (cmd : json) : result HeldInput LeaseError :=
  match as_str (idx cmd "type") with
  | Some kind =>
      if String.eqb kind "KeyDown" || String.eqb kind "KeyUp" then
        let* key := ok_or (as_str (idx cmd "key")) InvalidHeldInput in
        let* index := ok_or (position (String.eqb key) HELD_KEYS) InvalidHeldInput in
        let bit := Z.shiftl 1 (Z.of_nat index) in
        if String.eqb kind "KeyDown" then
          Ok {| keys := Z.lor (keys h) bit; buttons := buttons h |}
        else
          Ok {| keys := Z.ldiff (keys h) bit; buttons := buttons h |}
      else if String.eqb kind "MouseDown" || String.eqb kind "MouseUp" then
        let* button := input_button cmd in
        let* point := input_position cmd in
        let moved := move_held point (buttons h) in
        if String.eqb kind "MouseDown" then
          Ok {| keys := keys h; buttons := <[button := Some point]> moved |}
        else
          Ok {| keys := keys h; buttons := <[button := None]> moved |}
      else if String.eqb kind "MouseMove" || String.eqb kind "MouseClick" || String.eqb kind "MouseDoubleClick" then
        let* point := input_position cmd in
        Ok {| keys := keys h; buttons := move_held point (buttons h) |}
      else Ok h
  | None => Ok h
  end.

Definition key_up (key : string) : json := mk_obj [("type", JStr "KeyUp"); ("key", JStr key)]%string.
Definition mouse_up (button : string) (p : Z * Z) : json :=
  mk_obj [("type", JStr "MouseUp"); ("button", JStr button); ("x", JInt p.1); ("y", JInt p.2)]%string.

(** The key releases, from the key at [index] on. *)
Fixpoint drain_keys (index : Z) (names : list string) (ks : Z) : list json :=
  match names with
  | [] => []
  | key :: names =>
      (if Z.land ks (Z.shiftl 1 index) =? 0 then [] else [key_up key]) ++ drain_keys (index + 1) names ks
  end.
Fixpoint drain_buttons (names : list string) (bs : list (option (Z * Z))) : list json :=
  match names, bs with
  | name :: names, b :: bs =>
      (match b with Some p => [mouse_up name p] | None => [] end) ++ drain_buttons names bs
  | _, _ => []
  end.
(** [HeldInput::drain]. *)
Definition drain (h : HeldInput) : list json :=
  drain_keys 0 HELD_KEYS (keys h) ++ drain_buttons BUTTONS (buttons h).

(** What the server-only cleanup delivery accepts. *)
Definition is_cleanup_command (command : json) : bool :=
  let key_ok := is_some_and (as_str (idx command "key")) tracked_key in
  let button_ok := is_some_and (as_str (idx command "button")) (fun b => existsb (String.eqb b) BUTTONS) in
  match as_str (idx command "type") with
  | Some kind =>
      if String.eqb kind "KeyUp" then key_ok
      else if String.eqb kind "MouseUp" then
        button_ok && forallb (fun k => isSome (read_i32 command k)) ["x"; "y"]%string
      else false
  | None => false
  end.

(** ** The lease table *)

Record Lease := { grant : LeaseGrant; held : HeldInput }.
Record ControlSessions := { leases : gmap Uuid Lease }.
Definition ControlSessions_default : ControlSessions := {| leases := ∅ |}.

Definition deadline (now : Instant) (requested_ttl : Duration) : Instant :=
  now + clampZ MIN_LEASE_TTL MAX_LEASE_TTL requested_ttl.

Definition cleanup_of (agent_id : Uuid) (reason : TeardownReason) (l : Lease) : LeaseCleanup :=
  {| c_token := token (grant l); c_agent_id := agent_id; c_owner := owner (grant l);
     c_reason := reason; c_commands := drain (held l) |}.

Definition remove_lease (s : ControlSessions) (agent_id : Uuid) (reason : TeardownReason)
    : ControlSessions * option LeaseCleanup :=
  ({| leases := delete agent_id (leases s) |}, cleanup_of agent_id reason <$> leases s !! agent_id).

Definition expire_agent (s : ControlSessions) (agent_id : Uuid) (now : Instant)
    : ControlSessions * list LeaseCleanup :=
  if is_some_and (leases s !! agent_id) (fun l => expires_at (grant l) <=? now) then
    let '(s', c) := remove_lease s agent_id RExpired in (s', option_list c)
  else (s, []).

Definition check (s : ControlSessions) (agent_id : Uuid) (o : LeaseOwner) (tok : Uuid)
    : result unit LeaseError :=
  let* lease := ok_or (leases s !! agent_id) Missing in
  if negb (bool_decide (owner (grant lease) = o)) || negb (bool_decide (token (grant lease) = tok))
  then Err Mismatch
  else Ok tt.

(** [acquire]; [fresh] is the token [Uuid::new_v4] returns. *)
Definition acquire (s : ControlSessions) (agent_id : Uuid) (o : LeaseOwner) (requested_ttl : Duration)
    (now : Instant) (fresh : Uuid) : ControlSessions * Transition LeaseGrant :=
  let '(s, cleanup) := expire_agent s agent_id now in
  match leases s !! agent_id with
  | Some existing =>
      (s, {| t_result := if bool_decide (owner (grant existing) = o) then Ok (grant existing)
                         else Err (Conflict (owner (grant existing)));
             t_cleanup := cleanup |})
  | None =>
      let g := {| token := fresh; owner := o; expires_at := deadline now requested_ttl |} in
      ({| leases := <[agent_id := {| grant := g; held := HeldInput_default |}]> (leases s) |},
       {| t_result := Ok g; t_cleanup := cleanup |})
  end.

Definition http_owner (s : ControlSessions) (agent user tok : Uuid) : option LeaseOwner :=
  (fun l => owner (grant l)) <$>
    ofilter (fun l => bool_decide (token (grant l) = tok) && bool_decide (user_id (owner (grant l)) = user))
      (leases s !! agent).

Definition authorize (s : ControlSessions) (agent_id : Uuid) (o : LeaseOwner) (tok : Uuid) (now : Instant)
    : ControlSessions * Transition unit :=
  let '(s, cleanup) := expire_agent s agent_id now in
  let r := match cleanup with [] => check s agent_id o tok | _ :: _ => Err Expired end in
  (s, {| t_result := r; t_cleanup := cleanup |}).

Definition authorize_and_track (s : ControlSessions) (agent_id : Uuid) (o : LeaseOwner) (tok : Uuid)
    (cmd : json) (now : Instant) : ControlSessions * Transition unit :=
  let '(s, t) := authorize s agent_id o tok now in
  match t_result t, leases s !! agent_id with
  | Ok _, Some l =>
      match track (held l) cmd with
      | Ok h => ({| leases := <[agent_id := {| grant := grant l; held := h |}]> (leases s) |}, t)
      | Err e => (s, {| t_result := Err e; t_cleanup := t_cleanup t |})
      end
  | _, _ => (s, t)
  end.

Definition set_deadline (l : Lease) (at_ : Instant) : Lease :=
  {| grant := {| token := token (grant l); owner := owner (grant l); expires_at := at_ |}; held := held l |}.

Definition heartbeat (s : ControlSessions) (agent_id : Uuid) (o : LeaseOwner) (tok : Uuid)
    (requested_ttl : Duration) (now : Instant) : ControlSessions * Transition LeaseGrant :=
  let '(s, auth) := authorize s agent_id o tok now in
  match t_result auth, leases s !! agent_id with
  | Ok _, Some l =>
      let l := set_deadline l (deadline now requested_ttl) in
      ({| leases := <[agent_id := l]> (leases s) |}, {| t_result := Ok (grant l); t_cleanup := t_cleanup auth |})
  | Ok _, None => (s, {| t_result := Err Missing; t_cleanup := t_cleanup auth |})
  | Err e, _ => (s, {| t_result := Err e; t_cleanup := t_cleanup auth |})
  end.

Definition release (s : ControlSessions) (agent_id : Uuid) (o : LeaseOwner) (tok : Uuid) (now : Instant)
    : ControlSessions * Transition unit :=
  let '(s, t) := authorize s agent_id o tok now in
  match t_result t with
  | Ok _ =>
      let '(s', c) := remove_lease s agent_id RReleased in
      (s', {| t_result := t_result t; t_cleanup := t_cleanup t ++ option_list c |})
  | Err _ => (s, t)
  end.

(** Removing the leases of a list of devices, in order. *)
Fixpoint remove_all (s : ControlSessions) (ids : list Uuid) (reason : TeardownReason)
    : ControlSessions * list LeaseCleanup :=
  match ids with
  | [] => (s, [])
  | id :: ids =>
      let '(s, c) := remove_lease s id reason in
      let '(s, cs) := remove_all s ids reason in
      (s, option_list c ++ cs)
  end.
(** The devices whose lease satisfies [f], in the table's iteration order. *)
Definition lease_ids (s : ControlSessions) (f : Lease -> bool) : list Uuid :=
  (filter (fun kv => f kv.2 = true) (map_to_list (leases s))).*1.

Definition expire (s : ControlSessions) (now : Instant) : ControlSessions * list LeaseCleanup :=
  remove_all s (lease_ids s (fun l => expires_at (grant l) <=? now)) RExpired.

Definition revoke_viewer (s : ControlSessions) (viewer : Uuid) : ControlSessions * list LeaseCleanup :=
  remove_all s (lease_ids s (fun l => bool_decide (viewer_connection_id (owner (grant l)) = viewer)))
    RViewerDisconnected.

Definition revoke_agent (s : ControlSessions) (agent_id conn : Uuid) : ControlSessions * list LeaseCleanup :=
  if is_some_and (leases s !! agent_id) (fun l => bool_decide (agent_connection_id (owner (grant l)) = conn))
  then let '(s', c) := remove_lease s agent_id RAgentDisconnected in (s', option_list c)
  else (s, []).

(** ** Runs of operations *)

Inductive SessionOp : Type :=
| OpAcquire (a : Uuid) (o : LeaseOwner) (ttl : Duration) (now : Instant) (fresh : Uuid)
| OpAuthorize (a : Uuid) (o : LeaseOwner) (tok : Uuid) (now : Instant)
| OpTrack (a : Uuid) (o : LeaseOwner) (tok : Uuid) (cmd : json) (now : Instant)
| OpHeartbeat (a : Uuid) (o : LeaseOwner) (tok : Uuid) (ttl : Duration) (now : Instant)
| OpRelease (a : Uuid) (o : LeaseOwner) (tok : Uuid) (now : Instant)
| OpExpire (now : Instant)
| OpRevokeViewer (viewer : Uuid)
| OpRevokeAgent (a conn : Uuid).

(** The state, the cleanup to deliver and the tokens minted by one operation. *)
Definition run_op (s : ControlSessions) (op : SessionOp) : ControlSessions * list LeaseCleanup * list Uuid :=
  match op with
  | OpAcquire a o ttl now fresh =>
      let '(s', t) := acquire s a o ttl now fresh in
      (s', t_cleanup t, match leases (expire_agent s a now).1 !! a with Some _ => [] | None => [fresh] end)
  | OpAuthorize a o tok now => let '(s', t) := authorize s a o tok now in (s', t_cleanup t, [])
  | OpTrack a o tok cmd now => let '(s', t) := authorize_and_track s a o tok cmd now in (s', t_cleanup t, [])
  | OpHeartbeat a o tok ttl now => let '(s', t) := heartbeat s a o tok ttl now in (s', t_cleanup t, [])
  | OpRelease a o tok now => let '(s', t) := release s a o tok now in (s', t_cleanup t, [])
  | OpExpire now => let '(s', c) := expire s now in (s', c, [])
  | OpRevokeViewer v => let '(s', c) := revoke_viewer s v in (s', c, [])
  | OpRevokeAgent a conn => let '(s', c) := revoke_agent s a conn in (s', c, [])
  end.

Fixpoint run_ops (s : ControlSessions) (ops : list SessionOp) : ControlSessions * list LeaseCleanup * list Uuid :=
  match ops with
  | [] => (s, [], [])
  | op :: ops =>
      let '(s, c, m) := run_op s op in
      let '(s, cs, ms) := run_ops s ops in
      (s, c ++ cs, m ++ ms)
  end.

Definition live_tokens (s : ControlSessions) : list Uuid :=
  (fun kv => token (grant kv.2)) <$> map_to_list (leases s).

(** ** What the held input should be, read off the accepted commands *)

Record History := { h_key : string -> bool; h_pos : option (Z * Z); h_button : string -> bool }.
Definition History_empty : History := {| h_key := fun _ => false; h_pos := None; h_button := fun _ => false |}.

Definition is_mouse (cmd : json) : bool :=
  existsb (str_is (idx cmd "type")) ["MouseDown"; "MouseUp"; "MouseMove"; "MouseClick"; "MouseDoubleClick"]%string.
Definition button_name (cmd : json) : option string :=
  match get cmd "button" with None => Some "left"%string | Some v => as_str v end.

(** The last key event decides a key, the last button event a button, the last mouse
    command the cursor. *)
Definition hist_step (s : History) (cmd : json) : History :=
  {| h_key k :=
       if str_is (idx cmd "key") k && str_is (idx cmd "type") "KeyDown" then true
       else if str_is (idx cmd "key") k && str_is (idx cmd "type") "KeyUp" then false
       else h_key s k;
     h_pos := if is_mouse cmd then rok (input_position cmd) else h_pos s;
     h_button b :=
       if bool_decide (button_name cmd = Some b) && str_is (idx cmd "type") "MouseDown" then true
       else if bool_decide (button_name cmd = Some b) && str_is (idx cmd "type") "MouseUp" then false
       else h_button s b |}.
Definition history (cmds : list json) : History := foldl hist_step History_empty cmds.

Definition released (s : History) : list json :=
  (key_up <$> filter (fun k => h_key s k = true) HELD_KEYS)
  ++ match h_pos s with
     | Some p => (fun b => mouse_up b p) <$> filter (fun b => h_button s b = true) BUTTONS
     | None => []
     end.

Fixpoint track_all (h : HeldInput) (cmds : list json) : result HeldInput LeaseError :=
  match cmds with
  | [] => Ok h
  | cmd :: cmds => let* h := track h cmd in track_all h cmds
  end.

(** ** Held-input lemmas *)

Lemma position_Some {A} (f : A -> bool) l i :
  position f l = Some i -> exists x, l !! i = Some x /\ f x = true /\ forall j y, (j < i)%nat -> l !! j = Some y -> f y = false.
Proof.
  revert i. induction l as [|x l IH]; intros i; simpl; [done|].
  destruct (f x) eqn:E.
  - intros [= <-]. exists x. split_and!; [done|done|]. intros. lia.
  - destruct (position f l) as [j|] eqn:Ej; [|done]. intros [= <-].
    destruct (IH j eq_refl) as (y & Hy & Hf & Hlt). exists y. split_and!; [done|done|].
    intros [|k] z Hk Hz; simpl in Hz; [congruence|]. apply (Hlt k); [lia|done].
Qed.

Lemma HELD_KEYS_NoDup : NoDup HELD_KEYS.
Proof. by apply (bool_decide_unpack _). Qed.
Lemma BUTTONS_NoDup : NoDup BUTTONS.
Proof. by apply (bool_decide_unpack _). Qed.

Lemma HELD_KEYS_index i k : HELD_KEYS !! i = Some k -> Z.of_nat i < 32.
Proof. intros H%lookup_lt_Some. vm_compute in H. lia. Qed.

Lemma bit_set ks i j : 0 <= i -> 0 <= j ->
  Z.testbit (Z.lor ks (Z.shiftl 1 i)) j = if i =? j then true else Z.testbit ks j.
Proof.
  intros Hi Hj. rewrite Z.lor_spec, Z.shiftl_1_l, Z.pow2_bits_eqb by lia.
  destruct (i =? j); [apply orb_true_r|apply orb_false_r].
Qed.

Lemma bit_clear ks i j : 0 <= i -> 0 <= j ->
  Z.testbit (Z.ldiff ks (Z.shiftl 1 i)) j = if i =? j then false else Z.testbit ks j.
Proof.
  intros Hi Hj. rewrite Z.ldiff_spec, Z.shiftl_1_l, Z.pow2_bits_eqb by lia.
  destruct (i =? j); [apply andb_false_r|apply andb_true_r].
Qed.

Lemma bit_test ks i : 0 <= i -> (Z.land ks (Z.shiftl 1 i) =? 0) = negb (Z.testbit ks i).
Proof.
  intros Hi. destruct (Z.testbit ks i) eqn:E; simpl.
  - apply Z.eqb_neq. intros H. assert (Z.testbit (Z.land ks (Z.shiftl 1 i)) i = false) as Hf by (rewrite H; apply Z.bits_0).
    rewrite Z.land_spec, Z.shiftl_1_l, Z.pow2_bits_true, E in Hf by lia. done.
  - apply Z.eqb_eq. apply Z.bits_inj'. intros j Hj.
    rewrite Z.land_spec, Z.bits_0, Z.shiftl_1_l, Z.pow2_bits_eqb by lia.
    destruct (Z.eqb_spec i j) as [->|]; [by rewrite E|by rewrite andb_false_r].
Qed.

(** The tracked state agrees with a history of accepted commands. *)
Definition tracks (h : HeldInput) (s : History) : Prop :=
  (forall i k, HELD_KEYS !! i = Some k -> Z.testbit (keys h) (Z.of_nat i) = h_key s k)
  /\ buttons h = (fun b => if h_button s b then h_pos s else None) <$> BUTTONS
  /\ (forall b, b ∈ BUTTONS -> h_button s b = true -> h_pos s <> None)
  /\ (forall x y, h_pos s = Some (x, y) -> in_range i32_min i32_max x && in_range i32_min i32_max y = true).

Lemma tracks_default : tracks HeldInput_default History_empty.
Proof.
  split_and!; [|done|done|done]. intros i k _. apply Z.bits_0.
Qed.

Lemma input_position_range cmd p :
  input_position cmd = Ok p -> in_range i32_min i32_max p.1 && in_range i32_min i32_max p.2 = true.
Proof.
  unfold input_position, read_i32. intros H.
  destruct (as_i64 (idx cmd "x")) as [x|]; [|done]. destruct (try_i32 x) as [x'|] eqn:Ex; [|done].
  destruct (as_i64 (idx cmd "y")) as [y|]; [|done]. destruct (try_i32 y) as [y'|] eqn:Ey; [|done].
  simplify_eq. apply try_i32_Some in Ex as [-> Hx], Ey as [-> Hy]. simpl.
  apply andb_true_iff. by rewrite !in_range_spec.
Qed.

Lemma drain_keys_eq f names i ks :
  0 <= i -> (forall j k, names !! j = Some k -> Z.testbit ks (i + Z.of_nat j) = f k) ->
  drain_keys i names ks = key_up <$> filter (fun k => f k = true) names.
Proof.
  revert i. induction names as [|k names IH]; intros i Hi Hf; [done|].
  cbn [drain_keys]. rewrite bit_test by done.
  assert (Hk := Hf 0%nat k eq_refl). rewrite Z.add_0_r in Hk. rewrite Hk, filter_cons.
  rewrite (IH (i + 1)); [|lia|].
  - by destruct (f k).
  - intros j k' Hj. rewrite <- (Hf (S j) k' Hj). f_equal. lia.
Qed.

Lemma drain_buttons_eq f p names :
  (forall b, b ∈ names -> f b = true -> p <> None) ->
  drain_buttons names ((fun b => if f b then p else None) <$> names)
  = match p with Some q => (fun b => mouse_up b q) <$> filter (fun b => f b = true) names | None => [] end.
Proof.
  induction names as [|b names IH]; intros Hp; [by destruct p|].
  cbn [fmap list_fmap drain_buttons]. rewrite IH by (intros b' Hb'; apply Hp; set_solver).
  specialize (Hp b ltac:(set_solver)). rewrite filter_cons.
  by destruct (f b), p as [q|].
Qed.

Lemma tracks_drain h s : tracks h s -> drain h = released s.
Proof.
  intros (Hk & Hb & Hp & _). unfold drain, released. f_equal.
  - apply drain_keys_eq; [lia|]. intros j k Hj. rewrite Z.add_0_l. by apply Hk.
  - rewrite Hb. by apply drain_buttons_eq.
Qed.

(** Which branch of [track] a command takes. *)
Definition event_class (cmd : json) : option string := as_str (idx cmd "type").

Lemma str_is_as_str v x : str_is v x = bool_decide (as_str v = Some x).
Proof.
  unfold str_is. destruct (as_str v) as [y|]; simpl; [|done].
  destruct (String.eqb_spec x y) as [->|]; symmetry; [by apply bool_decide_eq_true|].
  apply bool_decide_eq_false. congruence.
Qed.

Lemma hist_step_key s cmd key kind k :
  as_str (idx cmd "type") = Some kind -> as_str (idx cmd "key") = Some key ->
  kind = "KeyDown"%string \/ kind = "KeyUp"%string ->
  h_key (hist_step s cmd) k = if String.eqb k key then String.eqb kind "KeyDown" else h_key s k.
Proof.
  intros Ht Hk Hkind. simpl. rewrite !str_is_as_str, Ht, Hk.
  destruct (String.eqb_spec k key) as [->|Hne].
  - rewrite !(bool_decide_eq_true_2 (Some key = Some key)) by done.
    destruct Hkind as [-> | ->]; reflexivity.
  - rewrite !(bool_decide_eq_false_2 (Some key = Some k)) by congruence. done.
Qed.

Lemma tracks_keys_step h s cmd kind key i :
  tracks h s -> as_str (idx cmd "type") = Some kind -> as_str (idx cmd "key") = Some key ->
  kind = "KeyDown"%string \/ kind = "KeyUp"%string ->
  position (String.eqb key) HELD_KEYS = Some i ->
  tracks {| keys := if String.eqb kind "KeyDown" then Z.lor (keys h) (Z.shiftl 1 (Z.of_nat i))
                    else Z.ldiff (keys h) (Z.shiftl 1 (Z.of_nat i)); buttons := buttons h |} (hist_step s cmd).
Proof.
  intros (Hk & Hb & Hp & Hr) Ht Hkey Hkind Hi.
  assert (Hm : is_mouse cmd = false /\ str_is (idx cmd "type") "MouseDown" = false
               /\ str_is (idx cmd "type") "MouseUp" = false).
  { unfold is_mouse. simpl. rewrite !str_is_as_str, Ht. by destruct Hkind as [-> | ->]. }
  destruct Hm as (Hm & Hmd & Hmu).
  assert (Hhb : forall b, h_button (hist_step s cmd) b = h_button s b).
  { intros b. simpl. by rewrite Hmd, Hmu, !andb_false_r. }
  assert (Hhp : h_pos (hist_step s cmd) = h_pos s) by (simpl; by rewrite Hm).
  apply position_Some in Hi as (key' & Hi & Heq%String.eqb_eq & _). subst key'.
  split_and!; cbn [keys buttons].
  - intros j k Hj. rewrite (hist_step_key s cmd key kind k Ht Hkey Hkind).
    assert (Hij : (Z.of_nat i =? Z.of_nat j) = String.eqb k key).
    { destruct (String.eqb_spec k key) as [->|Hne].
      - apply Z.eqb_eq. f_equal. by eapply NoDup_lookup; [apply HELD_KEYS_NoDup|..].
      - apply Z.eqb_neq. intros ->%Nat2Z.inj. congruence. }
    destruct (String.eqb kind "KeyDown"); [rewrite bit_set by lia|rewrite bit_clear by lia];
      rewrite Hij; destruct (String.eqb k key); [done|by apply Hk|done|by apply Hk].
  - rewrite Hb, Hhp. apply list_fmap_ext. intros j b _. by rewrite Hhb.
  - intros b. rewrite Hhb, Hhp. apply Hp.
  - rewrite Hhp. apply Hr.
Qed.

Lemma move_held_fmap f p (p0 : option (Z * Z)) names :
  (forall b, b ∈ names -> f b = true -> p0 <> None) ->
  move_held p ((fun b : string => if f b then p0 else None) <$> names)
  = (fun b => if f b then Some p else None) <$> names.
Proof.
  intros H. unfold move_held. rewrite <- list_fmap_compose. apply list_fmap_ext.
  intros i b Hb. simpl. specialize (H b (list_elem_of_lookup_2 _ _ _ Hb)).
  destruct (f b); [|done]. by destruct p0; [|destruct (H eq_refl)].
Qed.

Lemma insert_fmap_name (f : string -> bool) (v : bool) (p : Z * Z) button i :
  BUTTONS !! i = Some button ->
  <[i := if v then Some p else None]> ((fun b => if f b then Some p else None) <$> BUTTONS)
  = (fun b => if (if String.eqb b button then v else f b) then Some p else None) <$> BUTTONS.
Proof.
  intros Hi. apply list_eq. intros j. destruct (decide (i = j)) as [<-|Hij].
  - rewrite list_lookup_insert_eq by (rewrite length_fmap; by eapply lookup_lt_Some).
    by rewrite list_lookup_fmap, Hi; simpl; rewrite String.eqb_refl.
  - rewrite list_lookup_insert_ne by done. rewrite !list_lookup_fmap.
    destruct (BUTTONS !! j) as [b|] eqn:Hj; [|done]. simpl.
    destruct (String.eqb_spec b button) as [->|]; [|done].
    destruct Hij. by eapply NoDup_lookup; [apply BUTTONS_NoDup|..].
Qed.

Lemma tracks_mouse_step h s cmd p h_b :
  tracks h s -> is_mouse cmd = true ->
  str_is (idx cmd "type") "KeyDown" = false -> str_is (idx cmd "type") "KeyUp" = false ->
  input_position cmd = Ok p ->
  (forall b, b ∈ BUTTONS -> h_button (hist_step s cmd) b = h_b b) ->
  tracks {| keys := keys h; buttons := (fun b => if h_b b then Some p else None) <$> BUTTONS |} (hist_step s cmd).
Proof.
  intros (Hk & Hb & Hp & Hr) Hm Hkd Hku Hpos Hbs.
  assert (Hhp : h_pos (hist_step s cmd) = Some p) by (simpl; by rewrite Hm, Hpos).
  split_and!; cbn [keys buttons].
  - intros i k Hi. rewrite (Hk i k Hi). simpl. by rewrite Hkd, Hku, !andb_false_r.
  - apply list_fmap_ext. intros i b Hi. rewrite Hbs by (by eapply list_elem_of_lookup_2). by rewrite Hhp.
  - intros b _ _. by rewrite Hhp.
  - intros x y Hxy. rewrite Hhp in Hxy. simplify_eq. by apply (input_position_range cmd (x, y)).
Qed.

(** A name in a kind test. *)
Lemma kind_is v kind x : as_str v = Some kind -> str_is v x = String.eqb x kind.
Proof. unfold str_is. by intros ->. Qed.

Ltac kind_case :=
  match goal with
  | |- context [String.eqb ?k ?c] => is_var k; destruct (String.eqb_spec k c) as [->|?]
  | H : context [String.eqb ?k ?c] |- _ => is_var k; destruct (String.eqb_spec k c) as [->|?]
  end.

(** Commands that are neither key nor mouse events change neither side. *)
Lemma tracks_other h s cmd :
  tracks h s -> is_mouse cmd = false ->
  str_is (idx cmd "type") "KeyDown" = false -> str_is (idx cmd "type") "KeyUp" = false ->
  tracks h (hist_step s cmd).
Proof.
  intros (Hk & Hb & Hp & Hr) Hm Hkd Hku.
  assert (Hbs : forall b, h_button (hist_step s cmd) b = h_button s b).
  { intros b. unfold is_mouse in Hm. simpl in Hm. repeat apply orb_false_elim in Hm as [? Hm].
    repeat match goal with H : _ || _ = false |- _ => apply orb_false_elim in H as [? ?] end.
    simpl. by rewrite H, H0, !andb_false_r. }
  assert (Hhp : h_pos (hist_step s cmd) = h_pos s) by (simpl; by rewrite Hm).
  split_and!.
  - intros i k Hi. simpl. rewrite Hkd, Hku, !andb_false_r. by apply Hk.
  - rewrite Hb, Hhp. apply list_fmap_ext. intros i b _. by rewrite Hbs.
  - intros b. rewrite Hbs, Hhp. apply Hp.
  - rewrite Hhp. apply Hr.
Qed.

Lemma input_button_name cmd i :
  input_button cmd = Ok i -> exists b, button_name cmd = Some b /\ BUTTONS !! i = Some b.
Proof.
  unfold input_button, button_name. intros H.
  apply rbind_Ok in H as (b & Hb & Hi). apply ok_or_Ok in Hi.
  apply position_Some in Hi as (b' & Hi & ->%String.eqb_eq & _).
  exists b'. split; [|done]. destruct (get cmd "button"); [by apply ok_or_Ok in Hb|by simplify_eq].
Qed.

Lemma tracks_step h s cmd h' : tracks h s -> track h cmd = Ok h' -> tracks h' (hist_step s cmd).
Proof.
  intros Ht. unfold track. destruct (as_str (idx cmd "type")) as [kind|] eqn:Hkind; last first.
  { intros [= <-]. apply tracks_other; [done| |unfold str_is; by rewrite Hkind..].
    unfold is_mouse, str_is. by rewrite Hkind. }
  assert (Hmouse : is_mouse cmd = existsb (fun c => String.eqb c kind) ["MouseDown"; "MouseUp"; "MouseMove"; "MouseClick"; "MouseDoubleClick"]%string).
  { unfold is_mouse, str_is. by rewrite Hkind. }
  destruct (String.eqb kind "KeyDown" || String.eqb kind "KeyUp") eqn:Hkey.
  { intros H. apply rbind_Ok in H as (key & Hk%ok_or_Ok & H). apply rbind_Ok in H as (i & Hi%ok_or_Ok & H).
    assert (kind = "KeyDown"%string \/ kind = "KeyUp"%string) as Hd.
    { apply orb_true_iff in Hkey as [H1|H1]; apply String.eqb_eq in H1; auto. }
    pose proof (tracks_keys_step h s cmd kind key i Ht Hkind Hk Hd Hi) as Hstep.
    destruct (String.eqb kind "KeyDown"); simplify_eq; exact Hstep. }
  apply orb_false_elim in Hkey as [Hkd Hku].
  assert (Hkd' : str_is (idx cmd "type") "KeyDown" = false) by (rewrite (kind_is _ _ _ Hkind), String.eqb_sym; done).
  assert (Hku' : str_is (idx cmd "type") "KeyUp" = false) by (rewrite (kind_is _ _ _ Hkind), String.eqb_sym; done).
  destruct Ht as (Hk & Hb & Hp & Hr).
  destruct (String.eqb kind "MouseDown" || String.eqb kind "MouseUp") eqn:Hmb.
  { intros H. apply rbind_Ok in H as (i & Hi & H). apply rbind_Ok in H as (p & Hpos & H).
    destruct (input_button_name cmd i Hi) as (b & Hbn & Hbi).
    rewrite Hb, move_held_fmap in H by done.
    set (down := String.eqb kind "MouseDown") in *.
    assert (h' = {| keys := keys h; buttons := (fun b' => if (if String.eqb b' b then down else h_button s b') then Some p else None) <$> BUTTONS |}) as ->.
    { rewrite <- (insert_fmap_name _ down p b i Hbi). destruct down; congruence. }
    apply tracks_mouse_step; [done| |done..|].
    { rewrite Hmouse. apply orb_true_iff in Hmb as [->%String.eqb_eq| ->%String.eqb_eq]; done. }
    intros b' _. simpl. rewrite Hbn, !(kind_is _ _ _ Hkind).
    destruct (String.eqb_spec b' b) as [->|Hne].
    - rewrite !bool_decide_eq_true_2 by done.
      apply orb_true_iff in Hmb as [->%String.eqb_eq| ->%String.eqb_eq]; done.
    - rewrite !bool_decide_eq_false_2 by congruence. done. }
  apply orb_false_elim in Hmb as [Hmd Hmu].
  assert (Hbs : forall b, h_button (hist_step s cmd) b = h_button s b).
  { intros b. simpl. rewrite !(kind_is _ _ _ Hkind), (String.eqb_sym "MouseDown"), (String.eqb_sym "MouseUp"), Hmd, Hmu, !andb_false_r. done. }
  destruct (String.eqb kind "MouseMove" || String.eqb kind "MouseClick" || String.eqb kind "MouseDoubleClick") eqn:Hmm.
  { intros H. apply rbind_Ok in H as (p & Hpos & H). rewrite Hb, move_held_fmap in H by done. simplify_eq.
    apply tracks_mouse_step; [done| |done..].
    rewrite Hmouse. cbn [existsb]. rewrite !orb_true_iff in Hmm. rewrite !orb_true_iff, !(String.eqb_sym _ kind). tauto. }
  intros [= <-]. apply tracks_other; [done| |done..].
  rewrite Hmouse. cbn [existsb]. rewrite !(String.eqb_sym _ kind), Hmd, Hmu.
  apply orb_false_elim in Hmm as [[-> ->]%orb_false_elim ->]. done.
Qed.

Lemma tracks_all cmds h s h' : tracks h s -> track_all h cmds = Ok h' -> tracks h' (foldl hist_step s cmds).
Proof.
  revert h s. induction cmds as [|cmd cmds IH]; intros h s Ht; simpl; [by intros [= <-]|].
  intros H. apply rbind_Ok in H as (h1 & H1 & H). eapply IH; [|done]. by eapply tracks_step.
Qed.

Lemma tracked_key_In k : k ∈ HELD_KEYS -> tracked_key k = true.
Proof.
  intros H. unfold tracked_key. apply existsb_exists. exists k. split; [by apply list_elem_of_In|apply String.eqb_refl].
Qed.

Lemma i32_as_i64 z : in_range i32_min i32_max z = true -> as_i64 (JInt z) = Some z /\ try_i32 z = Some z.
Proof.
  intros H. split; [|apply try_i32_Some; split; [done|by apply in_range_spec]].
  simpl. assert (in_range i64_min i64_max z = true) as ->; [|done].
  apply in_range_spec. apply in_range_spec in H. unfold i32_min, i32_max, i64_min, i64_max in *. lia.
Qed.

Lemma mouse_up_is_cleanup b x y :
  b ∈ BUTTONS -> in_range i32_min i32_max x && in_range i32_min i32_max y = true ->
  is_cleanup_command (mouse_up b (x, y)) = true.
Proof.
  intros Hb [Hx Hy]%andb_prop. apply i32_as_i64 in Hx as [Hx1 Hx2], Hy as [Hy1 Hy2].
  assert (existsb (String.eqb b) BUTTONS = true) as Hbt.
  { apply existsb_exists. exists b. split; [by apply list_elem_of_In|apply String.eqb_refl]. }
  unfold is_cleanup_command, mouse_up, read_i32. cbn [as_str idx get mk_obj foldr finsert].
  change (idx (mk_obj _) "type") with (JStr "MouseUp").
  change (idx (mk_obj _) "x") with (JInt x). change (idx (mk_obj _) "y") with (JInt y).
  change (idx (mk_obj _) "button") with (JStr b).
  cbn [as_str String.eqb Ascii.eqb Bool.eqb is_some_and forallb]. rewrite Hbt.
  change (idx _ "x") with (JInt x). change (idx _ "y") with (JInt y). rewrite Hx1, Hy1, Hx2, Hy2. done.
Qed.

Lemma released_cleanup s h : tracks h s -> Forall (fun c => is_cleanup_command c = true) (released s).
Proof.
  intros (_ & _ & _ & Hr). unfold released. apply Forall_app. split.
  - apply Forall_fmap, Forall_forall. intros k [_ Hk]%list_elem_of_filter.
    exact (tracked_key_In k Hk).
  - destruct (h_pos s) as [[x y]|] eqn:Hp; [|constructor].
    apply Forall_fmap, Forall_forall. intros b [_ Hb]%list_elem_of_filter.
    apply mouse_up_is_cleanup; [done|by apply Hr].
Qed.

(** ** Lease-table lemmas *)

Lemma expire_agent_spec s a now :
  expire_agent s a now =
  match leases s !! a with
  | Some l => if expires_at (grant l) <=? now
              then ({| leases := delete a (leases s) |}, [cleanup_of a RExpired l]) else (s, [])
  | None => (s, [])
  end.
Proof.
  unfold expire_agent, remove_lease. destruct (leases s !! a) as [l|]; simpl; [|done].
  by destruct (expires_at (grant l) <=? now).
Qed.

(** The whole behaviour of [authorize]. *)
Lemma authorize_spec s a o tok now :
  authorize s a o tok now =
  match leases s !! a with
  | None => (s, {| t_result := Err Missing; t_cleanup := [] |})
  | Some l =>
      if expires_at (grant l) <=? now
      then ({| leases := delete a (leases s) |}, {| t_result := Err Expired; t_cleanup := [cleanup_of a RExpired l] |})
      else (s, {| t_result := if bool_decide (owner (grant l) = o) && bool_decide (token (grant l) = tok)
                              then Ok tt else Err Mismatch; t_cleanup := [] |})
  end.
Proof.
  unfold authorize. rewrite expire_agent_spec. destruct (leases s !! a) as [l|] eqn:E.
  - destruct (expires_at (grant l) <=? now); [done|]. unfold check. rewrite E. simpl.
    by destruct (bool_decide (owner (grant l) = o)), (bool_decide (token (grant l) = tok)).
  - unfold check. by rewrite E.
Qed.

Lemma authorize_Ok_inv s a o tok now :
  is_ok (t_result (authorize s a o tok now).2) = true ->
  exists l, leases s !! a = Some l /\ owner (grant l) = o /\ token (grant l) = tok /\ now < expires_at (grant l)
  /\ authorize s a o tok now = (s, {| t_result := Ok tt; t_cleanup := [] |}).
Proof.
  rewrite authorize_spec. destruct (leases s !! a) as [l|] eqn:E; [|done].
  destruct (expires_at (grant l) <=? now) eqn:Ex; [done|]. simpl.
  destruct (bool_decide (owner (grant l) = o)) eqn:Ho; [|done].
  destruct (bool_decide (token (grant l) = tok)) eqn:Ht; [|done]. bool_prop. intros _.
  exists l. by split_and!.
Qed.

(** The operations on one live, matching lease. *)
Lemma authorize_live s a l now :
  leases s !! a = Some l -> now < expires_at (grant l) ->
  authorize s a (owner (grant l)) (token (grant l)) now = (s, {| t_result := Ok tt; t_cleanup := [] |}).
Proof.
  intros Hl Hn. rewrite authorize_spec, Hl. assert ((expires_at (grant l) <=? now) = false) as -> by lia.
  by rewrite !bool_decide_eq_true_2.
Qed.

Lemma remove_all_lookup s ids r a :
  leases (remove_all s ids r).1 !! a = if bool_decide (a ∈ ids) then None else leases s !! a.
Proof.
  revert s. induction ids as [|id ids IH]; intros s; [done|].
  cbn [remove_all remove_lease]. specialize (IH {| leases := delete id (leases s) |}).
  destruct (remove_all {| leases := delete id (leases s) |} ids r) as [s' cs]. simpl in *. rewrite IH.
  destruct (decide (a = id)) as [->|Hne].
  - rewrite lookup_delete_eq. rewrite (bool_decide_eq_true_2 (id ∈ id :: ids)) by set_solver. by case_match.
  - rewrite lookup_delete_ne by done.
    destruct (decide (a ∈ ids)); [rewrite !bool_decide_eq_true_2 by set_solver|rewrite !bool_decide_eq_false_2 by set_solver]; done.
Qed.

Lemma elem_of_lease_ids s f a : a ∈ lease_ids s f <-> exists l, leases s !! a = Some l /\ f l = true.
Proof.
  unfold lease_ids. rewrite list_elem_of_fmap. split.
  - intros ([a' l] & -> & [Hf H]%list_elem_of_filter). apply elem_of_map_to_list in H. eauto.
  - intros (l & Hl & Hf). exists (a, l). split; [done|]. apply list_elem_of_filter. split; [done|].
    by apply elem_of_map_to_list.
Qed.

Lemma remove_if_lookup s f r a :
  leases (remove_all s (lease_ids s f) r).1 !! a = ofilter (fun l => negb (f l)) (leases s !! a).
Proof.
  rewrite remove_all_lookup. case_bool_decide as Ha.
  - apply elem_of_lease_ids in Ha as (l & -> & Hf). simpl. by rewrite Hf.
  - destruct (leases s !! a) as [l|] eqn:Hl; [|done]. simpl. destruct (f l) eqn:Hf; [|done].
    destruct Ha. apply elem_of_lease_ids. eauto.
Qed.

(** Each removed lease yields its cleanup, and nothing else does. *)
Lemma remove_all_cleanup s ids r c :
  NoDup ids ->
  c ∈ (remove_all s ids r).2 <-> exists a l, a ∈ ids /\ leases s !! a = Some l /\ c = cleanup_of a r l.
Proof.
  revert s. induction ids as [|id ids IH]; intros s Hnd.
  { simpl. split; [by intros ?%not_elem_of_nil|]. intros (? & ? & ?%not_elem_of_nil & _). done. }
  apply NoDup_cons in Hnd as [Hid Hnd]. cbn [remove_all remove_lease].
  specialize (IH {| leases := delete id (leases s) |} Hnd).
  destruct (remove_all {| leases := delete id (leases s) |} ids r) as [s' cs]. simpl in *.
  rewrite elem_of_app, IH. split.
  - intros [Hc|(a & l & Ha & Hl & ->)].
    + destruct (leases s !! id) as [l|] eqn:Hl; simpl in Hc; [|by apply not_elem_of_nil in Hc].
      apply list_elem_of_singleton in Hc as ->. exists id, l. split_and!; [set_solver|done..].
    + apply lookup_delete_Some in Hl as [? Hl]. exists a, l. split_and!; [set_solver|done..].
  - intros (a & l & [->|Ha]%elem_of_cons & Hl & ->).
    + left. rewrite Hl. simpl. set_solver.
    + right. exists a, l. split_and!; [done| |done]. apply lookup_delete_Some. split; [|done]. by intros <-.
Qed.

Lemma NoDup_lease_ids s f : NoDup (lease_ids s f).
Proof.
  unfold lease_ids. pose proof (NoDup_fst_map_to_list (leases s)) as H.
  induction (map_to_list (leases s)) as [|[k l] m IH]; [constructor|].
  rewrite fmap_cons, NoDup_cons in H. destruct H as [Hk H]. rewrite filter_cons.
  case_decide; [|by apply IH]. rewrite fmap_cons. apply NoDup_cons. split; [|by apply IH].
  intros (kv & Heq & [_ Hin]%list_elem_of_filter)%list_elem_of_fmap. apply Hk, list_elem_of_fmap. eauto.
Qed.

(** ** Token accounting *)

Lemma live_remove s a l :
  leases s !! a = Some l ->
  live_tokens s ≡ₚ token (grant l) :: live_tokens {| leases := delete a (leases s) |}.
Proof. intros H. unfold live_tokens. simpl. by rewrite <- (map_to_list_delete _ _ _ H). Qed.

Lemma live_insert_fresh s a l :
  leases s !! a = None ->
  live_tokens {| leases := <[a := l]> (leases s) |} ≡ₚ token (grant l) :: live_tokens s.
Proof. intros H. unfold live_tokens. simpl. by rewrite map_to_list_insert. Qed.

Lemma live_insert_same s a l l' :
  leases s !! a = Some l -> token (grant l') = token (grant l) ->
  live_tokens {| leases := <[a := l']> (leases s) |} ≡ₚ live_tokens s.
Proof.
  intros H Ht. pose proof (live_insert_fresh {| leases := delete a (leases s) |} a l' (lookup_delete_eq _ _)) as H2.
  cbn [leases] in H2. rewrite insert_delete_eq in H2. rewrite H2, Ht. symmetry. by apply live_remove.
Qed.

(** Tokens live before = tokens live after + tokens cleaned up. *)
Definition conserves (s s' : ControlSessions) (c : list LeaseCleanup) : Prop :=
  live_tokens s ≡ₚ live_tokens s' ++ (c_token <$> c).

Lemma conserves_refl s : conserves s s [].
Proof. unfold conserves. by rewrite app_nil_r. Qed.

Lemma conserves_remove s a r :
  conserves s (remove_lease s a r).1 (option_list (remove_lease s a r).2).
Proof.
  unfold conserves, remove_lease. simpl. destruct (leases s !! a) as [l|] eqn:H; simpl.
  - by rewrite (live_remove s a l H), Permutation_cons_append.
  - rewrite app_nil_r. by rewrite delete_id; [destruct s|].
Qed.

Lemma conserves_expire_agent s a now : conserves s (expire_agent s a now).1 (expire_agent s a now).2.
Proof.
  unfold expire_agent. destruct (is_some_and _ _); [|apply conserves_refl].
  pose proof (conserves_remove s a RExpired). by destruct (remove_lease s a RExpired).
Qed.

Lemma conserves_authorize s a o tok now :
  conserves s (authorize s a o tok now).1 (t_cleanup (authorize s a o tok now).2).
Proof.
  pose proof (conserves_expire_agent s a now) as H. unfold authorize.
  by destruct (expire_agent s a now).
Qed.

Lemma conserves_trans s1 s2 s3 c d : conserves s1 s2 c -> conserves s2 s3 d -> conserves s1 s3 (c ++ d).
Proof.
  unfold conserves. intros -> ->. rewrite fmap_app, <- app_assoc. by rewrite (Permutation_app_comm (c_token <$> d)).
Qed.

Lemma conserves_same s s' s'' c :
  conserves s s' c -> live_tokens s'' ≡ₚ live_tokens s' -> conserves s s'' c.
Proof. unfold conserves. by intros -> ->. Qed.

Lemma conserves_remove_all s ids r : conserves s (remove_all s ids r).1 (remove_all s ids r).2.
Proof.
  revert s. induction ids as [|id ids IH]; intros s; [apply conserves_refl|].
  cbn [remove_all]. pose proof (conserves_remove s id r) as H.
  destruct (remove_lease s id r) as [s1 c]. specialize (IH s1).
  destruct (remove_all s1 ids r) as [s2 cs]. by eapply conserves_trans.
Qed.

Lemma conserves_track s a o tok cmd now :
  conserves s (authorize_and_track s a o tok cmd now).1 (t_cleanup (authorize_and_track s a o tok cmd now).2).
Proof.
  pose proof (conserves_authorize s a o tok now) as H. unfold authorize_and_track.
  destruct (authorize s a o tok now) as [s1 t]. simpl in *.
  destruct (t_result t); [|done]. destruct (leases s1 !! a) as [l|] eqn:Hl; [|done].
  destruct (track (held l) cmd); [|done]. simpl. eapply conserves_same; [done|]. by eapply live_insert_same.
Qed.

Lemma conserves_heartbeat s a o tok ttl now :
  conserves s (heartbeat s a o tok ttl now).1 (t_cleanup (heartbeat s a o tok ttl now).2).
Proof.
  pose proof (conserves_authorize s a o tok now) as H. unfold heartbeat.
  destruct (authorize s a o tok now) as [s1 t]. simpl in *.
  destruct (t_result t); [|done]. destruct (leases s1 !! a) as [l|] eqn:Hl; [|done].
  simpl. eapply conserves_same; [done|]. by eapply live_insert_same.
Qed.

Lemma conserves_release s a o tok now :
  conserves s (release s a o tok now).1 (t_cleanup (release s a o tok now).2).
Proof.
  pose proof (conserves_authorize s a o tok now) as H. unfold release.
  destruct (authorize s a o tok now) as [s1 t]. simpl in *.
  destruct (t_result t); [|done]. pose proof (conserves_remove s1 a RReleased) as H1.
  by eapply conserves_trans.
Qed.

(** [acquire] mints at most one token, on top of a conserving expiry. *)
Lemma acquire_tokens s a o ttl now fresh :
  live_tokens s ++ (match leases (expire_agent s a now).1 !! a with Some _ => [] | None => [fresh] end)
  ≡ₚ live_tokens (acquire s a o ttl now fresh).1 ++ (c_token <$> t_cleanup (acquire s a o ttl now fresh).2).
Proof.
  pose proof (conserves_expire_agent s a now) as H. unfold acquire, conserves in *.
  destruct (expire_agent s a now) as [s1 c]. simpl in *. destruct (leases s1 !! a) as [l|] eqn:Hl; simpl.
  - by rewrite app_nil_r.
  - rewrite live_insert_fresh by done. simpl. rewrite H. by rewrite <- Permutation_cons_append.
Qed.

Lemma run_op_tokens s op s' c m :
  run_op s op = (s', c, m) -> live_tokens s ++ m ≡ₚ live_tokens s' ++ (c_token <$> c).
Proof.
  destruct op as [a o ttl now fresh|a o tok now|a o tok cmd now|a o tok ttl now|a o tok now|now|v|a conn]; cbn [run_op].
  - pose proof (acquire_tokens s a o ttl now fresh) as H.
    destruct (acquire s a o ttl now fresh). by intros [= <- <- <-].
  - pose proof (conserves_authorize s a o tok now) as H.
    destruct (authorize s a o tok now). intros [= <- <- <-]. by rewrite app_nil_r.
  - pose proof (conserves_track s a o tok cmd now) as H.
    destruct (authorize_and_track s a o tok cmd now). intros [= <- <- <-]. by rewrite app_nil_r.
  - pose proof (conserves_heartbeat s a o tok ttl now) as H.
    destruct (heartbeat s a o tok ttl now). intros [= <- <- <-]. by rewrite app_nil_r.
  - pose proof (conserves_release s a o tok now) as H.
    destruct (release s a o tok now). intros [= <- <- <-]. by rewrite app_nil_r.
  - pose proof (conserves_remove_all s (lease_ids s (fun l => expires_at (grant l) <=? now)) RExpired) as H.
    unfold expire. destruct (remove_all _ _ _). intros [= <- <- <-]. by rewrite app_nil_r.
  - pose proof (conserves_remove_all s (lease_ids s (fun l => bool_decide (viewer_connection_id (owner (grant l)) = v))) RViewerDisconnected) as H.
    unfold revoke_viewer. destruct (remove_all _ _ _). intros [= <- <- <-]. by rewrite app_nil_r.
  - unfold revoke_agent. destruct (is_some_and _ _).
    + pose proof (conserves_remove s a RAgentDisconnected) as H. destruct (remove_lease _ _ _).
      intros [= <- <- <-]. by rewrite app_nil_r.
    + intros [= <- <- <-]. by rewrite !app_nil_r.
Qed.

Lemma run_ops_tokens s ops s' c m :
  run_ops s ops = (s', c, m) -> live_tokens s ++ m ≡ₚ live_tokens s' ++ (c_token <$> c).
Proof.
  revert s s' c m. induction ops as [|op ops IH]; intros s s' c m; cbn [run_ops]; [by intros [= <- <- <-]|].
  destruct (run_op s op) as [[s1 c1] m1] eqn:H1. destruct (run_ops s1 ops) as [[s2 c2] m2] eqn:H2.
  intros [= <- <- <-]. apply run_op_tokens in H1. apply IH in H2.
  rewrite app_assoc, H1, <- app_assoc, (Permutation_app_comm (c_token <$> c1)), app_assoc, H2.
  rewrite fmap_app, <- app_assoc. by rewrite (Permutation_app_comm (c_token <$> c1)).
Qed.

(** ** Where leases and cleanups come from *)

Lemma acquire_spec s a o ttl now fresh :
  acquire s a o ttl now fresh =
  let new := {| token := fresh; owner := o; expires_at := deadline now ttl |} in
  let granted s := {| leases := <[a := {| grant := new; held := HeldInput_default |}]> (leases s) |} in
  match leases s !! a with
  | Some l =>
      if expires_at (grant l) <=? now
      then (granted s, {| t_result := Ok new; t_cleanup := [cleanup_of a RExpired l] |})
      else (s, {| t_result := if bool_decide (owner (grant l) = o) then Ok (grant l)
                              else Err (Conflict (owner (grant l))); t_cleanup := [] |})
  | None => (granted s, {| t_result := Ok new; t_cleanup := [] |})
  end.
Proof.
  unfold acquire. rewrite expire_agent_spec. destruct (leases s !! a) as [l|] eqn:E.
  - destruct (expires_at (grant l) <=? now); simpl.
    + rewrite lookup_delete_eq. do 2 f_equal. by rewrite insert_delete_eq.
    + by rewrite E.
  - by rewrite E.
Qed.

Lemma remove_lease_lookup s a r b l : leases (remove_lease s a r).1 !! b = Some l -> leases s !! b = Some l.
Proof. simpl. by intros [_ ?]%lookup_delete_Some. Qed.

Lemma authorize_lookup s a o tok now b l :
  leases (authorize s a o tok now).1 !! b = Some l -> leases s !! b = Some l.
Proof.
  rewrite authorize_spec. destruct (leases s !! a); [|done].
  case_match; [|done]. simpl. by intros [_ ?]%lookup_delete_Some.
Qed.

Lemma remove_all_lookup_Some s ids r b l :
  leases (remove_all s ids r).1 !! b = Some l -> leases s !! b = Some l.
Proof. rewrite remove_all_lookup. by case_match. Qed.

(** What an operation may leave at a device. *)
Inductive lease_origin (s : ControlSessions) (op : SessionOp) (a : Uuid) (l' : Lease) : Prop :=
| LoKept : leases s !! a = Some l' -> lease_origin s op a l'
| LoFresh o ttl now fresh :
    op = OpAcquire a o ttl now fresh ->
    l' = {| grant := {| token := fresh; owner := o; expires_at := deadline now ttl |}; held := HeldInput_default |} ->
    lease_origin s op a l'
| LoTracked l o tok cmd now :
    op = OpTrack a o tok cmd now -> leases s !! a = Some l -> grant l' = grant l ->
    track (held l) cmd = Ok (held l') -> lease_origin s op a l'
| LoRenewed l o tok ttl now :
    op = OpHeartbeat a o tok ttl now -> leases s !! a = Some l -> l' = set_deadline l (deadline now ttl) ->
    lease_origin s op a l'.

Lemma run_op_origin s op s' c m a l' :
  run_op s op = (s', c, m) -> leases s' !! a = Some l' -> lease_origin s op a l'.
Proof.
  intros Hrun Hl. destruct op as [b o ttl now fresh|b o tok now|b o tok cmd now|b o tok ttl now|b o tok now|now|v|b conn];
    cbn [run_op] in Hrun.
  - rewrite acquire_spec in Hrun. cbv zeta in Hrun.
    destruct (leases s !! b) as [l|] eqn:Hb; [destruct (expires_at (grant l) <=? now)|];
      simplify_eq; cbn [leases] in Hl; try (by apply LoKept).
    all: apply lookup_insert_Some in Hl as [[<- <-]|[_ Hl]]; [by eapply LoFresh|by apply LoKept].
  - pose proof (authorize_lookup s b o tok now a l') as H. destruct (authorize _ _ _ _ _). simplify_eq. by apply LoKept, H.
  - pose proof (authorize_lookup s b o tok now) as H. unfold authorize_and_track in Hrun.
    destruct (authorize s b o tok now) as [s1 t]. cbn [fst] in H.
    destruct (t_result t); [|simplify_eq; by apply LoKept, H].
    destruct (leases s1 !! b) as [l|] eqn:Hb; [|simplify_eq; by apply LoKept, H].
    destruct (track (held l) cmd) eqn:Ht; [|simplify_eq; by apply LoKept, H]. simplify_eq. cbn [leases] in Hl.
    apply lookup_insert_Some in Hl as [[<- <-]|[_ Hl]]; [|by apply LoKept, H].
    eapply LoTracked; [done|by apply H|done|done].
  - pose proof (authorize_lookup s b o tok now) as H. unfold heartbeat in Hrun.
    destruct (authorize s b o tok now) as [s1 t]. cbn [fst] in H.
    destruct (t_result t); [|simplify_eq; by apply LoKept, H].
    destruct (leases s1 !! b) as [l|] eqn:Hb; [|simplify_eq; by apply LoKept, H]. simplify_eq. cbn [leases] in Hl.
    apply lookup_insert_Some in Hl as [[<- <-]|[_ Hl]]; [|by apply LoKept, H].
    eapply LoRenewed; [done|by apply H|done].
  - pose proof (authorize_lookup s b o tok now) as H. unfold release in Hrun.
    destruct (authorize s b o tok now) as [s1 t]. cbn [fst] in H.
    destruct (t_result t); [|simplify_eq; by apply LoKept, H]. cbn [remove_lease] in Hrun. simplify_eq.
    apply LoKept, H. cbn [leases] in Hl. by apply lookup_delete_Some in Hl as [_ ?].
  - pose proof (remove_all_lookup_Some s (lease_ids s (fun l => expires_at (grant l) <=? now)) RExpired a l') as H.
    unfold expire in Hrun. destruct (remove_all _ _ _). simplify_eq. by apply LoKept, H.
  - pose proof (remove_all_lookup_Some s (lease_ids s (fun l => bool_decide (viewer_connection_id (owner (grant l)) = v))) RViewerDisconnected a l') as H.
    unfold revoke_viewer in Hrun. destruct (remove_all _ _ _). simplify_eq. by apply LoKept, H.
  - unfold revoke_agent in Hrun. destruct (is_some_and _ _); [|simplify_eq; by apply LoKept].
    cbn [remove_lease] in Hrun. simplify_eq. apply LoKept. cbn [leases] in Hl. by apply lookup_delete_Some in Hl as [_ ?].
Qed.

Definition cleanup_from (s : ControlSessions) (c : LeaseCleanup) : Prop :=
  exists a l r, leases s !! a = Some l /\ c = cleanup_of a r l.

Lemma remove_lease_from s a r : Forall (cleanup_from s) (option_list (remove_lease s a r).2).
Proof.
  simpl. destruct (leases s !! a) eqn:H; simpl; repeat constructor. by eexists _, _, _.
Qed.

Lemma authorize_from s a o tok now : Forall (cleanup_from s) (t_cleanup (authorize s a o tok now).2).
Proof.
  rewrite authorize_spec. destruct (leases s !! a) as [l|] eqn:Hl; [|constructor].
  case_match; simpl; [|constructor]. repeat constructor. by eexists _, _, _.
Qed.

Lemma remove_all_from s f r : Forall (cleanup_from s) (remove_all s (lease_ids s f) r).2.
Proof.
  apply Forall_forall. intros c Hc. apply remove_all_cleanup in Hc as (a & l & _ & Hl & ->); [|apply NoDup_lease_ids].
  by eexists _, _, _.
Qed.

Lemma run_op_from s op s' c m : run_op s op = (s', c, m) -> Forall (cleanup_from s) c.
Proof.
  intros Hrun. destruct op as [b o ttl now fresh|b o tok now|b o tok cmd now|b o tok ttl now|b o tok now|now|v|b conn];
    cbn [run_op] in Hrun.
  - rewrite acquire_spec in Hrun. cbv zeta in Hrun.
    destruct (leases s !! b) as [l|] eqn:Hb; [destruct (expires_at (grant l) <=? now)|]; simplify_eq; repeat constructor.
    by eexists _, _, _.
  - pose proof (authorize_from s b o tok now) as H. destruct (authorize _ _ _ _ _). by simplify_eq.
  - pose proof (authorize_from s b o tok now) as H. unfold authorize_and_track in Hrun.
    destruct (authorize s b o tok now) as [s1 t]. case_all_in Hrun; by simplify_eq.
  - pose proof (authorize_from s b o tok now) as H. unfold heartbeat in Hrun.
    destruct (authorize s b o tok now) as [s1 t]. case_all_in Hrun; by simplify_eq.
  - pose proof (authorize_from s b o tok now) as H. pose proof (authorize_lookup s b o tok now b) as Hlk. unfold release in Hrun.
    destruct (authorize s b o tok now) as [s1 t]. cbn [fst snd] in *. destruct (t_result t); [|by simplify_eq].
    cbn [remove_lease] in Hrun. simplify_eq. apply Forall_app. split; [done|].
    destruct (leases s1 !! b) as [l|]; simpl; repeat constructor. eexists _, _, _. split; [by apply Hlk|done].
  - pose proof (remove_all_from s (fun l => expires_at (grant l) <=? now) RExpired) as H.
    unfold expire in Hrun. destruct (remove_all _ _ _). by simplify_eq.
  - pose proof (remove_all_from s (fun l => bool_decide (viewer_connection_id (owner (grant l)) = v)) RViewerDisconnected) as H.
    unfold revoke_viewer in Hrun. destruct (remove_all _ _ _). by simplify_eq.
  - unfold revoke_agent in Hrun. destruct (is_some_and _ _); [|simplify_eq; constructor].
    pose proof (remove_lease_from s b RAgentDisconnected). destruct (remove_lease _ _ _). by simplify_eq.
Qed.

(** ** The table invariant *)

(** Every lease's held input is what some history of accepted commands gives. *)
Definition lease_ok (l : Lease) : Prop := exists h, tracks (held l) h.
Definition sessions_ok (s : ControlSessions) : Prop := forall a l, leases s !! a = Some l -> lease_ok l.

Lemma sessions_ok_default : sessions_ok ControlSessions_default.
Proof. intros a l. unfold ControlSessions_default. cbn [leases]. by rewrite lookup_empty. Qed.

Lemma run_op_ok s op s' c m : sessions_ok s -> run_op s op = (s', c, m) -> sessions_ok s'.
Proof.
  intros Hok Hrun a l' Hl. destruct (run_op_origin _ _ _ _ _ _ _ Hrun Hl) as
    [H|o ttl now fresh _ ->|l o tok cmd now _ H Hg Ht|l o tok ttl now _ H ->].
  - by eapply Hok.
  - exists History_empty. apply tracks_default.
  - destruct (Hok _ _ H) as [h Hh]. eexists. by eapply tracks_step.
  - by apply (Hok _ _ H).
Qed.

Lemma cleanup_commands_ok s c :
  sessions_ok s -> cleanup_from s c -> Forall (fun cmd => is_cleanup_command cmd = true) (c_commands c).
Proof.
  intros Hok (a & l & r & Hl & ->). destruct (Hok _ _ Hl) as [h Hh]. simpl.
  rewrite (tracks_drain _ _ Hh). by eapply released_cleanup.
Qed.

Definition op_now (op : SessionOp) : option Instant :=
  match op with
  | OpAcquire _ _ _ now _ | OpAuthorize _ _ _ now | OpTrack _ _ _ _ now | OpHeartbeat _ _ _ _ now
  | OpRelease _ _ _ now | OpExpire now => Some now
  | OpRevokeViewer _ | OpRevokeAgent _ _ => None
  end.

Definition expires_by (t : Instant) (s : ControlSessions) : Prop :=
  forall a l, leases s !! a = Some l -> expires_at (grant l) <= t.

Lemma expires_by_default t : expires_by t ControlSessions_default.
Proof. intros a l H. vm_compute in H. discriminate. Qed.

Lemma deadline_range now ttl : now + MIN_LEASE_TTL <= deadline now ttl <= now + MAX_LEASE_TTL.
Proof. unfold deadline, clampZ, MIN_LEASE_TTL, MAX_LEASE_TTL, secs. lia. Qed.

Lemma run_op_expires s op s' c m t :
  (forall now, op_now op = Some now -> now <= t) -> expires_by (t + MAX_LEASE_TTL) s ->
  run_op s op = (s', c, m) -> expires_by (t + MAX_LEASE_TTL) s'.
Proof.
  intros Hnow Hexp Hrun a l' Hl. destruct (run_op_origin _ _ _ _ _ _ _ Hrun Hl) as
    [H|o ttl now fresh -> ->|l o tok cmd now -> H Hg Ht|l o tok ttl now -> H ->].
  - by eapply Hexp.
  - simpl. pose proof (deadline_range now ttl). specialize (Hnow now eq_refl). lia.
  - rewrite Hg. by eapply Hexp.
  - simpl. pose proof (deadline_range now ttl). specialize (Hnow now eq_refl). lia.
Qed.

Lemma run_ops_inv (P : ControlSessions -> Prop) (Q : SessionOp -> Prop) s ops s' c m :
  (forall s op s' c m, P s -> Q op -> run_op s op = (s', c, m) -> P s') ->
  P s -> Forall Q ops -> run_ops s ops = (s', c, m) -> P s'.
Proof.
  intros Hstep. revert s s' c m. induction ops as [|op ops IH]; intros s s' c m Hs HQ; cbn [run_ops].
  - by intros [= <- _ _].
  - apply Forall_cons in HQ as [Hop HQ].
    destruct (run_op s op) as [[s1 c1] m1] eqn:H1. destruct (run_ops s1 ops) as [[s2 c2] m2] eqn:H2.
    intros [= <- _ _]. eapply IH; [|done|done]. by eapply Hstep.
Qed.

Lemma run_ops_cleanup_ok s ops s' c m :
  sessions_ok s -> run_ops s ops = (s', c, m) ->
  Forall (fun x => Forall (fun cmd => is_cleanup_command cmd = true) (c_commands x)) c.
Proof.
  revert s s' c m. induction ops as [|op ops IH]; intros s s' c m Hs; cbn [run_ops]; [by intros [= _ <- _]|].
  destruct (run_op s op) as [[s1 c1] m1] eqn:H1. destruct (run_ops s1 ops) as [[s2 c2] m2] eqn:H2.
  intros [= _ <- _]. apply Forall_app. split.
  - eapply Forall_impl; [by eapply run_op_from|]. intros x Hx. by eapply cleanup_commands_ok.
  - eapply IH; [|done]. by eapply run_op_ok.
Qed.

(** ** Properties *)

(** Tearing a lease down releases exactly what its accepted commands left held: draining
    after any accepted command sequence gives one [KeyUp] per key whose last key event was a
    [KeyDown] and one [MouseUp], at the last reported cursor position, per button whose last
    button event was a [MouseDown], in table order and nothing else. *)
Theorem drain_releases_exactly cmds h :
  track_all HeldInput_default cmds = Ok h -> drain h = released (history cmds).
Proof. intros H. apply tracks_drain. eapply tracks_all; [apply tracks_default|done]. Qed.

Definition ex_cmds : list json :=
  [mk_obj [("type", JStr "KeyDown"); ("key", JStr "shift")];
   mk_obj [("type", JStr "MouseDown"); ("x", JInt 3); ("y", JInt (-4))];
   mk_obj [("type", JStr "KeyDown"); ("key", JStr "tab")];
   mk_obj [("type", JStr "MouseMove"); ("x", JInt 30); ("y", JInt 40)];
   mk_obj [("type", JStr "KeyUp"); ("key", JStr "tab")]]%string.

Lemma drain_releases_exactly_witness :
  exists h, track_all HeldInput_default ex_cmds = Ok h
  /\ drain h = released (history ex_cmds) /\ released (history ex_cmds) = [key_up "shift"; mouse_up "left" (30, 40)].
Proof.
  eexists. split; [vm_compute; reflexivity|]. split; [|vm_compute; reflexivity].
  apply (drain_releases_exactly ex_cmds). vm_compute. reflexivity.
Defined.

(** Whatever the operations, every release command a teardown emits is one the
    server-only cleanup delivery accepts, so no held input is dropped at that filter. *)
Theorem run_cleanup_commands_accepted ops s c m :
  run_ops ControlSessions_default ops = (s, c, m) ->
  Forall (fun x => Forall (fun cmd => is_cleanup_command cmd = true) (c_commands x)) c.
Proof. apply run_ops_cleanup_ok, sessions_ok_default. Qed.

Definition ex_owner (conn : Uuid) : LeaseOwner :=
  {| viewer_connection_id := 1; user_id := 2; agent_connection_id := conn |}%N.
Definition ex_ops : list SessionOp :=
  [OpAcquire 7 (ex_owner 3) (secs 15) 0 100; OpTrack 7 (ex_owner 3) 100 (default JNull (ex_cmds !! 1%nat)) 5;
   OpAcquire 8 (ex_owner 4) (secs 60) 0 101; OpExpire (secs 20); OpRevokeViewer 1]%N.

Lemma run_cleanup_commands_accepted_witness :
  exists s c m, run_ops ControlSessions_default ex_ops = (s, c, m) /\ length c = 2%nat
  /\ Forall (fun x => Forall (fun cmd => is_cleanup_command cmd = true) (c_commands x)) c.
Proof.
  eexists _, _, _. split; [vm_compute; reflexivity|]. split; [reflexivity|].
  apply (run_cleanup_commands_accepted ex_ops (run_ops ControlSessions_default ex_ops).1.1 _ [100; 101]%N). vm_compute. reflexivity.
Defined.

(** Token conservation over any run: every token minted is either still live or was
    handed back in exactly one cleanup. With distinct minted tokens, no lease is ever torn
    down twice and none disappears without its cleanup. *)
Theorem lease_tokens_conserved ops s c m :
  run_ops ControlSessions_default ops = (s, c, m) ->
  m ≡ₚ live_tokens s ++ (c_token <$> c) /\ (NoDup m -> NoDup (live_tokens s ++ (c_token <$> c))).
Proof.
  intros H%run_ops_tokens. change (live_tokens ControlSessions_default) with (@nil Uuid) in H. simpl in H.
  split; [done|]. by rewrite H.
Qed.

Lemma lease_tokens_conserved_witness :
  exists s c m, run_ops ControlSessions_default ex_ops = (s, c, m) /\ m = [100; 101]%N
  /\ NoDup (live_tokens s ++ (c_token <$> c)).
Proof.
  eexists _, _, _. split; [vm_compute; reflexivity|]. split; [reflexivity|].
  apply (lease_tokens_conserved ex_ops _ _ [100; 101]%N); [vm_compute; reflexivity|].
  by apply (bool_decide_unpack _).
Defined.

(** Authorization is exactly possession of a live lease: it succeeds iff the device has
    an unexpired lease (the deadline itself counts as expired) with this owner and token, and
    otherwise names the reason; it never renews or changes a live lease, and an expired lease
    is removed with one cleanup. *)
Theorem authorize_exact s a o tok now :
  let '(s', t) := authorize s a o tok now in
  (t_result t = Ok tt <-> exists l, leases s !! a = Some l /\ owner (grant l) = o /\ token (grant l) = tok
                                    /\ now < expires_at (grant l))
  /\ (t_result t = Err Missing <-> leases s !! a = None)
  /\ (t_result t = Err Expired <-> exists l, leases s !! a = Some l /\ expires_at (grant l) <= now)
  /\ (forall b, leases s' !! b = match t_result t with
                                   | Err Expired => if decide (b = a) then None else leases s !! b
                                   | _ => leases s !! b
                                   end)
  /\ (t_cleanup t <> [] <-> t_result t = Err Expired).
Proof.
  rewrite authorize_spec. destruct (leases s !! a) as [l|] eqn:Hl; last first.
  { split_and!; simpl; try done; split; naive_solver. }
  destruct (expires_at (grant l) <=? now) eqn:Hx; bool_prop; simpl.
  - split_and!; try done; try (split; [done|]; intros; naive_solver lia); try (split; [intros _; naive_solver|done]).
    intros b. by destruct (decide (b = a)) as [->|Hne]; [rewrite lookup_delete_eq|rewrite lookup_delete_ne].
  - destruct (bool_decide (owner (grant l) = o)) eqn:Ho, (bool_decide (token (grant l) = tok)) eqn:Ht; bool_prop; simpl.
    all: split_and!; try done; split; naive_solver lia.
Qed.

Lemma expire_spec s now a :
  leases (expire s now).1 !! a = ofilter (fun l => now <? expires_at (grant l)) (leases s !! a).
Proof.
  unfold expire. rewrite remove_if_lookup. destruct (leases s !! a) as [l|]; [|done]. simpl.
  by rewrite Z.ltb_antisym.
Qed.

(** No lease outlives its renewals: when every operation of a run happened by [t], each
    lease that is left expires within [MAX_LEASE_TTL] (30 s) of [t] however large the TTL a
    caller asked for, and a tick at any later [now] leaves only leases that expire after it. *)
Theorem lease_lifetime_bounded ops s c m t now :
  Forall (fun op => forall n, op_now op = Some n -> n <= t) ops ->
  run_ops ControlSessions_default ops = (s, c, m) ->
  expires_by (t + MAX_LEASE_TTL) s
  /\ (forall a l, leases (expire s now).1 !! a = Some l -> now < expires_at (grant l))
  /\ (t + MAX_LEASE_TTL <= now -> leases (expire s now).1 = ∅).
Proof.
  intros Hops Hrun. assert (expires_by (t + MAX_LEASE_TTL) s) as Hx.
  { eapply (run_ops_inv (expires_by (t + MAX_LEASE_TTL)) (fun op => forall n, op_now op = Some n -> n <= t)); [|apply expires_by_default|exact Hops|exact Hrun].
    intros s1 op s1' c1 m1 H1 Hq Hr. by eapply run_op_expires. }
  split_and!; [done| |].
  - intros a l. rewrite expire_spec. intros [_ H]%ofilter_Some. by bool_prop.
  - intros Ht. apply map_eq. intros a. rewrite expire_spec, lookup_empty.
    destruct (leases s !! a) as [l|] eqn:Hl; [|done]. simpl. specialize (Hx a l Hl).
    by assert ((now <? expires_at (grant l)) = false) as -> by lia.
Qed.

Lemma lease_lifetime_bounded_witness :
  exists s c m, run_ops ControlSessions_default (take 3 ex_ops) = (s, c, m) /\ size (leases s) = 2%nat
  /\ expires_by (5 + MAX_LEASE_TTL) s /\ leases (expire s (secs 31)).1 = ∅.
Proof.
  eexists _, _, _. split; [vm_compute; reflexivity|]. split; [reflexivity|].
  set (r := run_ops ControlSessions_default (take 3 ex_ops)).
  destruct (lease_lifetime_bounded (take 3 ex_ops) r.1.1 r.1.2 r.2 5 (secs 31)) as (H1 & _ & H2).
  - repeat constructor; simpl; intros n [= <-]; lia.
  - reflexivity.
  - split; [exact H1|]. apply H2. vm_compute. discriminate.
Defined.

(** A live lease is exclusive and cannot be stolen or stretched by [acquire]: a second
    acquisition by the same connection returns the same grant with its old deadline, any other
    owner gets a conflict naming the holder, and neither changes the table; a free or expired
    device is granted with a deadline between 1 s and 30 s away and nothing held. *)
Theorem acquire_exclusive s a o ttl now fresh :
  let '(s', t) := acquire s a o ttl now fresh in
  match leases s !! a with
  | Some l =>
      if now <? expires_at (grant l)
      then s' = s /\ t_cleanup t = []
           /\ t_result t = (if decide (owner (grant l) = o) then Ok (grant l) else Err (Conflict (owner (grant l))))
      else t_cleanup t = [cleanup_of a RExpired l]
           /\ exists g, t_result t = Ok g /\ leases s' = <[a := {| grant := g; held := HeldInput_default |}]> (leases s)
                /\ owner g = o /\ token g = fresh /\ now + secs 1 <= expires_at g <= now + secs 30
  | None =>
      t_cleanup t = []
      /\ exists g, t_result t = Ok g /\ leases s' = <[a := {| grant := g; held := HeldInput_default |}]> (leases s)
           /\ owner g = o /\ token g = fresh /\ now + secs 1 <= expires_at g <= now + secs 30
  end.
Proof.
  rewrite acquire_spec. cbv zeta. pose proof (deadline_range now ttl) as Hd. unfold MIN_LEASE_TTL, MAX_LEASE_TTL in Hd.
  destruct (leases s !! a) as [l|] eqn:Hl.
  - rewrite Z.ltb_antisym. destruct (expires_at (grant l) <=? now); simpl.
    + split; [done|]. by eexists.
    + split_and!; [done|done|]. by case_decide; [rewrite bool_decide_eq_true_2|rewrite bool_decide_eq_false_2].
  - split; [done|]. by eexists.
Qed.
