(* ===== verification/Modules.v ===== *)
(** Device-reported module grants: the report half of [server/src/agents/modules/mod.rs].
    Decoding and validation of a [module_states] message, lookup, and the order between two
    reports of one connection. *)
From S2P Require Import Prelude Json Protocol.

(** ** Data *)

Record ModuleState := {
  ms_module : Module_;
  available : bool;
  enabled : bool;
  ms_revision : Z;
  authorization_required : bool
}.
Record ModuleReport := {
  mr_kind : string;
  mr_schema_version : Z;
  mr_revision : Z;
  mr_modules : list ModuleState
}.

#[export] Instance ModuleState_eq_dec : EqDecision ModuleState.
Proof. solve_decision. Defined.
#[export] Instance ModuleReport_eq_dec : EqDecision ModuleReport.
Proof. solve_decision. Defined.

(** ** Serde: [Deserialize] and [Serialize] of the two structs *)

Definition as_u32 (v : json) : option Z := z ← as_u64 v; if in_range 0 u32_max z then Some z else None.

Definition decode_module_state (v : json) : option ModuleState :=
  fs ← struct_fields true ["module"; "available"; "enabled"; "revision"; "authorization_required"]%string v;
  match fs with
  | [m; a; e; r; q] =>
      m ← m ≫= module_of_json; a ← a ≫= as_bool; e ← e ≫= as_bool; r ← r ≫= as_u64; q ← q ≫= as_bool;
      Some {| ms_module := m; available := a; enabled := e; ms_revision := r; authorization_required := q |}
  | _ => None
  end.
Definition decode_report (v : json) : option ModuleReport :=
  fs ← struct_fields true ["type"; "schema_version"; "revision"; "modules"]%string v;
  match fs with
  | [k; s; r; ms] =>
      k ← k ≫= as_str; s ← s ≫= as_u32; r ← r ≫= as_u64; ms ← ms ≫= as_array; ms ← mapM decode_module_state ms;
      Some {| mr_kind := k; mr_schema_version := s; mr_revision := r; mr_modules := ms |}
  | _ => None
  end.

Definition state_to_value (s : ModuleState) : json :=
  mk_obj [("module", module_to_json (ms_module s)); ("available", JBool (available s));
          ("enabled", JBool (enabled s)); ("revision", JInt (ms_revision s));
          ("authorization_required", JBool (authorization_required s))]%string.
Definition report_to_value (r : ModuleReport) : json :=
  mk_obj [("type", JStr (mr_kind r)); ("schema_version", JInt (mr_schema_version r));
          ("revision", JInt (mr_revision r)); ("modules", JArr (state_to_value <$> mr_modules r))]%string.

(** ** [ModuleReport::parse] *)

Definition synthesized_clipboard : ModuleState :=
  {| ms_module := Clipboard; available := false; enabled := false; ms_revision := 0;
     authorization_required := true |}.

Fixpoint check_modules (seen : list Module_) (revision : Z) (ms : list ModuleState) : result unit string :=
  match ms with
  | [] => Ok tt
  | m :: ms =>
      ensure negb (bool_decide (ms_module m ∈ seen)) else "duplicate module"%string in
      ensure ms_revision m <=? revision else "module revision exceeds report revision"%string in
      ensure negb (enabled m) || (available m && negb (authorization_required m))
        else "inconsistent grant"%string in
      ensure negb (available m) || Bool.eqb (authorization_required m) (negb (enabled m))
        else "inconsistent authorization_required"%string in
      check_modules (ms_module m :: seen) revision ms
  end.

(** Older agents report the complete original set: only clipboard may be omitted. *)
Definition complete_report (report : ModuleReport) : ModuleReport :=
  if Nat.eqb (length (mr_modules report)) (length MODULES - 1)
     && negb (existsb (fun m => bool_decide (ms_module m = Clipboard)) (mr_modules report))
  then {| mr_kind := mr_kind report; mr_schema_version := mr_schema_version report;
          mr_revision := mr_revision report; mr_modules := mr_modules report ++ [synthesized_clipboard] |}
  else report.

Definition parse_report (value : json) : result ModuleReport string :=
  let* report := ok_or (decode_report value) "serde"%string in
  ensure String.eqb (mr_kind report) "module_states" && (mr_schema_version report =? 1)
    else "unsupported module report schema"%string in
  let report := complete_report report in
  ensure Nat.eqb (length (mr_modules report)) (length MODULES) else "report must contain all modules"%string in
  let* _ := check_modules [] (mr_revision report) (mr_modules report) in
  Ok report.

(** ** [ModuleReport::get] and [ModuleReport::follows] *)

Definition find_module (m : Module_) (ms : list ModuleState) : option ModuleState :=
  List.find (fun s => bool_decide (ms_module s = m)) ms.
(** [get] panics when the module is absent; [report_get_total] shows it never is. *)
Definition report_get (r : ModuleReport) (m : Module_) : ModuleState :=
  default {| ms_module := m; available := false; enabled := false; ms_revision := 0;
             authorization_required := true |} (find_module m (mr_modules r)).

Definition follows (r previous : ModuleReport) : bool :=
  (mr_revision previous <=? mr_revision r)
  && forallb (fun current =>
       let old := report_get previous (ms_module current) in
       (ms_revision old <=? ms_revision current)
       && (negb (ms_revision current =? ms_revision old)
           || Bool.eqb (authorization_required current) (authorization_required old))
       && (negb (mr_revision r =? mr_revision previous) || (ms_revision current =? ms_revision old)))
     (mr_modules r).

(** A grant a command may run under: what both sides of the wire test. *)
Definition granted (s : ModuleState) : bool := available s && enabled s && negb (authorization_required s).

(** ** What a valid report is *)

Definition state_ok (revision : Z) (s : ModuleState) : Prop :=
  0 <= ms_revision s <= revision
  /\ (enabled s = true -> available s = true /\ authorization_required s = false)
  /\ (available s = true -> authorization_required s = negb (enabled s)).
Record report_ok (r : ModuleReport) : Prop := {
  ok_kind : mr_kind r = "module_states"%string;
  ok_schema : mr_schema_version r = 1;
  ok_revision : 0 <= mr_revision r <= u64_max;
  ok_modules : ms_module <$> mr_modules r ≡ₚ MODULES;
  ok_states : Forall (state_ok (mr_revision r)) (mr_modules r)
}.

(** ** Lemmas *)

Lemma as_u64_Some v z : as_u64 v = Some z <-> v = JInt z /\ 0 <= z <= u64_max.
Proof.
  split.
  - destruct v; simpl; try done. destruct (in_range 0 u64_max z0) eqn:E; [|done].
    intros [= <-]. by apply in_range_spec in E.
  - intros [-> H]. simpl. apply in_range_spec in H. by rewrite H.
Qed.

Lemma check_modules_Ok seen revision ms :
  check_modules seen revision ms = Ok tt <->
  NoDup (ms_module <$> ms) /\ (forall m, m ∈ seen -> m ∈ ms_module <$> ms -> False)
  /\ Forall (fun s => ms_revision s <= revision
             /\ (enabled s = true -> available s = true /\ authorization_required s = false)
             /\ (available s = true -> authorization_required s = negb (enabled s))) ms.
Proof.
  revert seen. induction ms as [|s ms IH]; intros seen.
  { simpl. split; [|done]. intros _. split_and!; [constructor|by intros m _ ?%not_elem_of_nil|constructor]. }
  cbn [check_modules fmap list_fmap]. rewrite NoDup_cons, Forall_cons. case_bool_decide as Hin; cbn [negb].
  { split; [done|]. intros (_ & H & _). destruct (H _ Hin). apply list_elem_of_here. }
  destruct (ms_revision s <=? revision) eqn:Hr; cbn [negb]; bool_prop; [|split; [done|intros (_ & _ & (? & _) & _); lia]].
  destruct (enabled s) eqn:He, (available s) eqn:Ha, (authorization_required s) eqn:Hq; simpl;
    try (split; [done|intros (_ & _ & H & _); naive_solver]).
  all: rewrite IH; split; [intros (Hnd & Hs & Hf)|intros ([Hn Hnd] & Hs & Hh & Hf)]; split_and!; try done.
  all: try (intros Hm; by eapply (Hs (ms_module s)); [left|]).
  all: try (intros m Hm [->|Hm']%elem_of_cons; [done|]; by eapply (Hs m); [right|]).
  all: try (intros m [->|Hm]%elem_of_cons Hm'; [done|]; eapply (Hs m); [done|by right]).
Qed.

Lemma all_modules (l : list Module_) : NoDup l -> length l = length MODULES -> l ≡ₚ MODULES.
Proof.
  intros Hnd Hl. apply submseteq_length_Permutation; [|by rewrite Hl].
  apply NoDup_submseteq; [done|]. intros m _. destruct m; by apply (bool_decide_unpack _).
Qed.

Lemma complete_report_fields r :
  mr_kind (complete_report r) = mr_kind r /\ mr_schema_version (complete_report r) = mr_schema_version r
  /\ mr_revision (complete_report r) = mr_revision r.
Proof. unfold complete_report. by case_match. Qed.

Lemma decode_module_state_range v s : decode_module_state v = Some s -> 0 <= ms_revision s.
Proof.
  unfold decode_module_state. intros (fs & _ & H)%bind_Some. case_all_in H.
  apply bind_Some in H as (m & _ & H). apply bind_Some in H as (a & _ & H). apply bind_Some in H as (e & _ & H).
  apply bind_Some in H as (z & Hz & H). apply bind_Some in H as (q & _ & H). simplify_eq/=.
  apply bind_Some in Hz as (x & _ & Hz). apply as_u64_Some in Hz. lia.
Qed.

Lemma decode_report_range v r :
  decode_report v = Some r -> 0 <= mr_revision r <= u64_max /\ Forall (fun s => 0 <= ms_revision s) (mr_modules r).
Proof.
  unfold decode_report. intros (fs & _ & H)%bind_Some. case_all_in H.
  apply bind_Some in H as (k & _ & H). apply bind_Some in H as (sv & _ & H). apply bind_Some in H as (z & Hz & H).
  apply bind_Some in H as (l & _ & H). apply bind_Some in H as (ms & Hms & H). simplify_eq/=. split.
  - apply bind_Some in Hz as (x & _ & Hz). by apply as_u64_Some in Hz as [_ ?].
  - apply mapM_Some in Hms. revert Hms. generalize l. clear. induction ms as [|s ms IH]; intros l H; [constructor|].
    inversion H; subst. constructor; [by eapply decode_module_state_range|by eapply IH].
Qed.

Lemma complete_report_range r :
  Forall (fun s => 0 <= ms_revision s) (mr_modules r) ->
  Forall (fun s => 0 <= ms_revision s) (mr_modules (complete_report r)).
Proof.
  unfold complete_report. case_match; [|done]. intros H1. simpl. apply Forall_app.
  split; [done|]. repeat constructor. simpl. lia.
Qed.

(** What the validation after decoding accepts. *)
Lemma parse_report_Ok v r :
  parse_report v = Ok r <-> exists r0, decode_report v = Some r0 /\ r = complete_report r0 /\ report_ok r.
Proof.
  unfold parse_report. rewrite rbind_Ok. split.
  - intros (r0 & Hd%ok_or_Ok & H). exists r0. split; [done|].
    destruct (complete_report_fields r0) as (Hk & Hs & Hr). destruct (decode_report_range _ _ Hd) as [Hrange Hms].
    apply complete_report_range in Hms. revert H. destruct (_ && _) eqn:E; [|done]. bool_prop.
    apply String.eqb_eq in H. cbv zeta. destruct (Nat.eqb _ _) eqn:Hl; [|done]. apply Nat.eqb_eq in Hl.
    rewrite rbind_Ok. intros ([] & Hc & [= <-]). split; [done|].
    apply check_modules_Ok in Hc as (Hnd & _ & Hf). rewrite Hr in Hf. split; rewrite ?Hk, ?Hs, ?Hr; try done.
    + apply all_modules; [done|]. by rewrite length_fmap.
    + rewrite Forall_forall in *. intros s Hin. specialize (Hf s Hin). specialize (Hms s Hin). unfold state_ok. naive_solver.
  - intros (r0 & Hd & -> & [Hk Hs Hr Hm Hst]). exists r0. split; [by apply ok_or_Ok|].
    destruct (complete_report_fields r0) as (Hk' & Hs' & Hr'). rewrite <- Hk', <- Hs', Hk, Hs. cbv zeta.
    change (String.eqb "module_states" "module_states" && (1 =? 1)) with true. cbv iota.
    assert (length (mr_modules (complete_report r0)) = length MODULES) as ->.
    { by rewrite <- (length_fmap ms_module), Hm. }
    rewrite Nat.eqb_refl, rbind_Ok. exists tt. split; [|done]. apply check_modules_Ok. split_and!.
    + rewrite Hm. by apply (bool_decide_unpack _).
    + by intros m ?%not_elem_of_nil.
    + eapply Forall_impl; [exact Hst|]. intros s (? & ? & ?). split_and!; [lia|done..].
Qed.

Lemma find_module_Some m ms s :
  NoDup (ms_module <$> ms) -> find_module m ms = Some s <-> s ∈ ms /\ ms_module s = m.
Proof.
  intros Hnd. induction ms as [|x ms IH]; simpl in *.
  - split; [done|]. by intros [?%not_elem_of_nil _].
  - apply NoDup_cons in Hnd as [Hx Hnd]. unfold find_module in *. simpl. case_bool_decide as Hm.
    + rewrite elem_of_cons. split; [naive_solver|]. intros [[->|Hin] Hs]; [done|].
      destruct Hx. rewrite Hm, <- Hs. by apply list_elem_of_fmap_2.
    + rewrite (IH Hnd), elem_of_cons. naive_solver.
Qed.

Lemma report_ok_NoDup r : report_ok r -> NoDup (ms_module <$> mr_modules r).
Proof. intros [_ _ _ -> _]. by apply (bool_decide_unpack _). Qed.

Lemma report_find r m : report_ok r -> exists s, find_module m (mr_modules r) = Some s.
Proof.
  intros Hok. assert (m ∈ ms_module <$> mr_modules r) as Hin.
  { rewrite (ok_modules r Hok). destruct m; by apply (bool_decide_unpack _). }
  apply list_elem_of_fmap in Hin as (s & Hs & Hin). exists s. apply find_module_Some; [by apply report_ok_NoDup|]. done.
Qed.

Lemma report_get_spec r m s :
  report_ok r -> report_get r m = s <-> s ∈ mr_modules r /\ ms_module s = m.
Proof.
  intros Hok. unfold report_get. destruct (report_find r m Hok) as [s' Hs']. rewrite Hs'. simpl.
  rewrite <- (find_module_Some m (mr_modules r) s) by (by apply report_ok_NoDup). rewrite Hs'. naive_solver.
Qed.

Lemma report_get_in r m : report_ok r -> report_get r m ∈ mr_modules r /\ ms_module (report_get r m) = m.
Proof. intros Hok. by apply report_get_spec. Qed.

Lemma report_get_ok r m : report_ok r -> state_ok (mr_revision r) (report_get r m).
Proof.
  intros Hok. pose proof (ok_states r Hok) as Hst. rewrite Forall_forall in Hst. apply Hst. by apply report_get_in.
Qed.

(** [follows] on complete reports, module by module. *)
Lemma follows_spec r p :
  report_ok r -> follows r p = true <->
  mr_revision p <= mr_revision r /\ forall m,
    ms_revision (report_get p m) <= ms_revision (report_get r m)
    /\ (ms_revision (report_get r m) = ms_revision (report_get p m) ->
        authorization_required (report_get r m) = authorization_required (report_get p m))
    /\ (mr_revision r = mr_revision p -> ms_revision (report_get r m) = ms_revision (report_get p m)).
Proof.
  intros Hok. unfold follows. rewrite andb_true_iff, Z.leb_le, forallb_forall. apply and_iff_compat_l. split.
  - intros H m. destruct (report_get_in r m Hok) as [Hin Hm]. specialize (H _ (proj1 (list_elem_of_In _ _) Hin)).
    cbv zeta in H. rewrite Hm in H. apply andb_prop in H as [H H3]. apply andb_prop in H as [H1 H2].
    apply Z.leb_le in H1. apply orb_prop in H2, H3. split_and!; [done| |].
    + intros E. destruct H2 as [H2|H2]; bool_prop; [done|by apply eqb_prop in H2].
    + intros E. destruct H3 as [H3|H3]; bool_prop; done.
  - intros H s Hin%list_elem_of_In. cbv zeta. destruct (H (ms_module s)) as (H1 & H2 & H3).
    rewrite (proj2 (report_get_spec r (ms_module s) s Hok)) in H1, H2, H3 by done.
    apply andb_true_intro. split; [apply andb_true_intro; split; [by apply Z.leb_le|]|].
    + destruct (ms_revision s =? _) eqn:E; [|done]. apply Z.eqb_eq in E. simpl. rewrite (H2 E). by apply eqb_true_iff.
    + destruct (mr_revision r =? _) eqn:E; [|done]. apply Z.eqb_eq in E. simpl. by apply Z.eqb_eq, H3.
Qed.

Lemma decode_state_to_value s :
  0 <= ms_revision s <= u64_max -> decode_module_state (state_to_value s) = Some s.
Proof.
  destruct s as [m a e r q]. intros Hr%in_range_spec. unfold decode_module_state, state_to_value.
  lazy [mk_obj foldr finsert fst snd String.eqb Ascii.eqb Bool.eqb String.ltb String.compare Ascii.compare
        N.compare N_of_ascii struct_fields].
  simpl. simpl in Hr. rewrite Hr. simpl. unfold module_to_json. simpl. by rewrite module_of_str_module_str.
Qed.

Lemma decode_report_to_value r :
  0 <= mr_revision r <= u64_max -> 0 <= mr_schema_version r <= u32_max ->
  Forall (fun s => 0 <= ms_revision s <= u64_max) (mr_modules r) ->
  decode_report (report_to_value r) = Some r.
Proof.
  destruct r as [k v z ms]. intros Hr%in_range_spec Hv%in_range_spec Hms. unfold decode_report, report_to_value.
  simpl in *. assert (in_range 0 u64_max v = true) as Hv'.
  { apply in_range_spec in Hv. apply in_range_spec. unfold u32_max, u64_max in *. lia. }
  rewrite Hr. simpl. unfold as_u32. simpl. rewrite Hv'. simpl. rewrite Hv. simpl.
  assert (mapM decode_module_state (state_to_value <$> ms) = Some ms) as ->; [|done].
  apply mapM_Some_2. induction Hms; simpl; constructor; [by apply decode_state_to_value|done].
Qed.

Lemma complete_report_id r : report_ok r -> complete_report r = r.
Proof.
  intros Hok. unfold complete_report. rewrite <- (length_fmap ms_module), (ok_modules r Hok). done.
Qed.

(** ** Properties *)

(** A report is accepted exactly when it decodes to one that, with the clipboard entry
    older agents omit filled in as unavailable, names every module once, keeps every module
    revision at most the report revision, and marks as enabled only available modules that need no
    authorization; nothing else about it is changed, and [get] then finds every module. *)
Theorem parse_report_exact v r :
  (parse_report v = Ok r <-> exists r0, decode_report v = Some r0 /\ r = complete_report r0 /\ report_ok r)
  /\ (parse_report v = Ok r -> forall m, exists s, find_module m (mr_modules r) = Some s).
Proof.
  split; [apply parse_report_Ok|]. rewrite parse_report_Ok. intros (r0 & _ & _ & Hok) m. by apply report_find.
Qed.

Definition ex_report (rev : Z) (granted : list (Module_ * Z)) : ModuleReport :=
  {| mr_kind := "module_states"; mr_schema_version := 1; mr_revision := rev;
     mr_modules := (fun m =>
       let r := List.find (fun p => bool_decide (p.1 = m)) granted in
       {| ms_module := m; available := true; enabled := isSome r; ms_revision := default 0 (snd <$> r);
          authorization_required := negb (isSome r) |}) <$> MODULES |}.

Lemma parse_report_exact_witness :
  let r := ex_report 7 [(Files, 3); (RemoteInput, 7)] in
  parse_report (report_to_value r) = Ok r /\ exists s, find_module Files (mr_modules r) = Some s.
Proof.
  intros r. assert (parse_report (report_to_value r) = Ok r) as H by (vm_compute; reflexivity).
  split; [exact H|]. by apply (proj2 (parse_report_exact (report_to_value r) r)).
Defined.

(** A valid report survives the wire: the server accepts the value a device prints for it
    and reads back the same report. *)
Theorem report_roundtrip r : report_ok r -> parse_report (report_to_value r) = Ok r.
Proof.
  intros Hok. apply parse_report_Ok. exists r. rewrite complete_report_id by done. split_and!; [|done..].
  destruct (ok_revision r Hok). apply decode_report_to_value; [done|by rewrite (ok_schema r Hok)|].
  eapply Forall_impl; [exact (ok_states r Hok)|]. intros s [? _]. lia.
Qed.

Lemma report_roundtrip_witness :
  let r := ex_report 7 [(Files, 3)] in report_ok r /\ parse_report (report_to_value r) = Ok r.
Proof.
  intros r. assert (report_ok r) as Hok.
  { split; [done..| |done|]; [by vm_compute|]. unfold state_ok. vm_compute. repeat constructor; done. }
  split; [exact Hok|]. by apply report_roundtrip.
Defined.

(** [follows] is a preorder on valid reports, so accepted reports of one connection form a
    chain; along it a module revision never decreases, an unchanged one keeps its
    authorization, and an equal report revision changes no module. *)
Theorem follows_preorder r1 r2 r3 :
  report_ok r1 -> report_ok r2 -> report_ok r3 ->
  follows r1 r1 = true
  /\ (follows r2 r1 = true -> follows r3 r2 = true -> follows r3 r1 = true)
  /\ (follows r2 r1 = true -> forall m, ms_revision (report_get r1 m) <= ms_revision (report_get r2 m)
      /\ (ms_revision (report_get r2 m) = ms_revision (report_get r1 m) ->
          available (report_get r1 m) = available (report_get r2 m) ->
          granted (report_get r2 m) = granted (report_get r1 m)))
  /\ (follows r2 r1 = true -> follows r1 r2 = true -> forall m,
      ms_revision (report_get r2 m) = ms_revision (report_get r1 m)
      /\ authorization_required (report_get r2 m) = authorization_required (report_get r1 m)).
Proof.
  intros H1 H2 H3. rewrite !follows_spec by done. split; [|split; [|split]].
  - split; [lia|]. intros m. split_and!; [lia|done..].
  - intros [Ha Hb] [Hc Hd]. split; [lia|]. intros m. destruct (Hb m) as (b1 & b2 & b3), (Hd m) as (d1 & d2 & d3).
    split_and!; [lia| |].
    + intros E. rewrite d2, b2; [done|lia..].
    + intros E. rewrite d3, b3; lia.
  - intros [Ha Hb] m. destruct (Hb m) as (b1 & b2 & b3). split; [done|]. intros E1 E2.
    destruct (report_get_ok r1 m H1) as (_ & _ & c1), (report_get_ok r2 m H2) as (_ & _ & c2).
    unfold granted. specialize (b2 E1). rewrite <- E2 in *. destruct (available (report_get r1 m)); [|done].
    specialize (c1 eq_refl). specialize (c2 eq_refl). simpl. destruct (enabled (report_get r1 m)), (enabled (report_get r2 m)); simpl in *; congruence.
  - intros [Ha Hb] [Hc Hd] m. destruct (Hb m) as (b1 & b2 & b3), (Hd m) as (d1 & d2 & d3).
    assert (ms_revision (report_get r2 m) = ms_revision (report_get r1 m)) as E by lia. auto.
Qed.

Lemma follows_preorder_witness :
  let r1 := ex_report 7 [(Files, 3)] in let r2 := ex_report 9 [(Files, 3); (Logs, 9)] in
  let r3 := ex_report 12 [(Files, 12); (Logs, 9)] in
  follows r2 r1 = true /\ follows r3 r2 = true /\ follows r3 r1 = true.
Proof.
  intros r1 r2 r3. assert (follows r2 r1 = true) as H1 by (vm_compute; reflexivity).
  assert (follows r3 r2 = true) as H2 by (vm_compute; reflexivity). split_and!; [done..|].
  refine (proj1 (proj2 (follows_preorder r1 r2 r3 _ _ _)) H1 H2);
    (split; [done..| |done|]; [by vm_compute|]; unfold state_ok; vm_compute; repeat constructor; done).
Defined.
