(* ===== verification/Registry.v ===== *)
(** The connected-agent registry and the centralized command authorization:
    [server/src/state/agent_registry.rs] and the registry half of
    [server/src/agents/modules/mod.rs]. *)
From S2P Require Import Prelude Json Protocol Modules.

(** ** Data *)

(** A refusal: the machine-readable code and module; the human-readable text is left out. *)
Record CommandDenied := { code : string; denied_module : option Module_ }.
Definition denied (c : string) (m : option Module_) : CommandDenied := {| code := c; denied_module := m |}.

#[export] Instance CommandDenied_eq_dec : EqDecision CommandDenied.
Proof. solve_decision. Defined.

(** What a queue to an agent carries. [Text] is printed when queued and parsed again at
    delivery; the model keeps the value. *)
Inductive AgentControl : Type :=
| CText (command : json)
| CInputCleanup (conn : Uuid) (command : json)
| CClose.

#[export] Instance AgentControl_eq_dec : EqDecision AgentControl.
Proof. solve_decision. Defined.

Definition AGENT_CMD_CHANNEL_CAPACITY : nat := 512.

(** A persisted disable request: the columns the runtime reads. *)
Record ModuleDisableRequest := {
  dr_command_id : Uuid;
  dr_agent_id : Uuid;
  dr_module : Module_;
  dr_expected_revision : Z;
  dr_pending : bool
}.

Record RuntimeModules := {
  rm_conn_id : Uuid;
  report : ModuleReport;
  pending : gmap Uuid ModuleDisableRequest;
  sent : gset Uuid;
  last_sent : gmap Uuid Instant
}.

Record AgentConn := {
  conn_id : Uuid;
  connected_at : Z;
  session_id : Z;
  legacy_policy_delivery : bool
}.

(** What one registration shares with its socket task, by connection id: the [watch] channel
    the task is told to shut down on, and the bounded command queue. They outlive the
    registry entry: a superseded task still holds its receivers. *)
Record Socket := { shutdown : option string; queue : list AgentControl }.

Record AgentLiveSnapshot := {
  window_title : option string;
  window_app : option string;
  url : option string;
  activity : option string;
  idle_secs : option Z;
  updated_at : option Z
}.
Definition AgentLiveSnapshot_default : AgentLiveSnapshot :=
  {| window_title := None; window_app := None; url := None; activity := None; idle_secs := None; updated_at := None |}.

(** [cmds] maps an agent to the sender of its queue, that is to the socket it belongs to. *)
Record AgentRegistry := {
  connections : gmap Uuid AgentConn;
  cmds : gmap Uuid Uuid;
  modules : gmap Uuid RuntimeModules;
  live : gmap Uuid AgentLiveSnapshot;
  sockets : gmap Uuid Socket
}.

Definition AgentRegistry_default : AgentRegistry :=
  {| connections := ∅; cmds := ∅; modules := ∅; live := ∅; sockets := ∅ |}.

Definition with_sockets (r : AgentRegistry) (s : gmap Uuid Socket) : AgentRegistry :=
  {| connections := connections r; cmds := cmds r; modules := modules r; live := live r; sockets := s |}.
Definition with_modules (r : AgentRegistry) (m : gmap Uuid RuntimeModules) : AgentRegistry :=
  {| connections := connections r; cmds := cmds r; modules := m; live := live r; sockets := sockets r |}.
Definition with_live (r : AgentRegistry) (l : gmap Uuid AgentLiveSnapshot) : AgentRegistry :=
  {| connections := connections r; cmds := cmds r; modules := modules r; live := l; sockets := sockets r |}.

(** ** Channels *)

(** [connection.shutdown.borrow()]. *)
Definition conn_shutdown (r : AgentRegistry) (c : AgentConn) : option string := sockets r !! conn_id c ≫= shutdown.
(** [connections.get(&id).filter(|c| c.shutdown.borrow().is_none())]. *)
Definition open_conn (r : AgentRegistry) (agent_id : Uuid) : option AgentConn :=
  ofilter (fun c => negb (isSome (conn_shutdown r c))) (connections r !! agent_id).
Definition open_conn_id (r : AgentRegistry) (agent_id : Uuid) : option Uuid := conn_id <$> open_conn r agent_id.

(** [sender.try_send(message)]: refused when the queue is full or its receiver is gone. *)
Definition try_send (r : AgentRegistry) (channel : Uuid) (message : AgentControl) : option AgentRegistry :=
  match sockets r !! channel with
  | Some s =>
      if (length (queue s) <? AGENT_CMD_CHANNEL_CAPACITY)%nat then
        Some (with_sockets r (<[channel := {| shutdown := shutdown s; queue := queue s ++ [message] |}]> (sockets r)))
      else None
  | None => None
  end.

(** [shutdown.send_replace(Some(reason))]. *)
Definition send_shutdown (r : AgentRegistry) (channel : Uuid) (reason : string) : AgentRegistry :=
  match sockets r !! channel with
  | Some s => with_sockets r (<[channel := {| shutdown := Some reason; queue := queue s |}]> (sockets r))
  | None => r
  end.

(** ** Authorization *)

Definition is_remote_input (kind : string) : bool :=
  existsb (String.eqb kind)
    ["MouseMove"; "MouseClick"; "MouseDoubleClick"; "MouseDown"; "MouseUp"; "MouseScroll"; "Scroll";
     "KeyPress"; "KeyDown"; "KeyUp"; "KeyChar"; "TypeText"; "Notify"]%string.

Definition has_pending (rt : RuntimeModules) (m : Module_) : bool :=
  existsb (fun p => bool_decide (dr_module p.2 = m)) (map_to_list (pending rt)).

(** The [__module_generation] stamp. *)
Definition generation_json (m : Module_) (revision : Z) : json :=
  mk_obj [("module", module_to_json m); ("revision", JInt revision)]%string.

Section authorization.
Context `{UuidText}.

Definition command_module (kind : string) : option Module_ := module_of (from_kind kind).
Definition protocol_command (kind : string) : bool := bool_decide (gate (from_kind kind) = GProtocol).

Definition module_authorized (r : AgentRegistry) (id : Uuid) (m : Module_) : bool :=
  match connections r !! id, modules r !! id with
  | Some conn, Some runtime =>
      let grant := report_get (report runtime) m in
      bool_decide (conn_id conn = rm_conn_id runtime) && available grant && enabled grant
      && negb (authorization_required grant) && negb (has_pending runtime m)
  | _, _ => false
  end.

(** The revision of a usable grant ([revision] inside [recall_context_grants]). *)
Definition grant_revision (runtime : RuntimeModules) (m : Module_) : option Z :=
  let grant := report_get (report runtime) m in
  if available grant && enabled grant && negb (authorization_required grant) && negb (has_pending runtime m)
  then Some (ms_revision grant) else None.

Definition recall_context_grants (r : AgentRegistry) (id conn : Uuid) : option (option Z * option Z) :=
  match connections r !! id, modules r !! id with
  | Some connection, Some runtime =>
      if bool_decide (conn_id connection = conn) && bool_decide (rm_conn_id runtime = conn) then
        match grant_revision runtime Recall with
        | Some _ => Some (grant_revision runtime WindowActivity, grant_revision runtime BrowserUrls)
        | None => None
        end
      else None
  | _, _ => None
  end.

Definition authorize_agent_command (r : AgentRegistry) (agent_id : Uuid) (cmd : json) : result json CommandDenied :=
  let* connection := ok_or (connections r !! agent_id) (denied "agent_offline" None) in
  let kind := kind_of cmd in
  if isSome (get cmd "__module_generation") || isSome (get cmd "__capture_generation") then
    Err (denied "invalid_command" None)
  else if protocol_command kind then Ok cmd
  else
    let runtime := ofilter (fun rt => bool_decide (rm_conn_id rt = conn_id connection)) (modules r !! agent_id) in
    if String.eqb kind "disable_module" then
      let* runtime := ok_or runtime (denied "module_report_required" None) in
      let id := match as_str (idx cmd "command_id") with Some s => parse_uuid s | None => None end in
      let* request := ok_or (match id with Some id => pending runtime !! id | None => None end)
                            (denied "invalid_disable_request" None) in
      if negb (json_eqb (idx cmd "module") (module_to_json (dr_module request)))
         || negb (bool_decide (as_u64 (idx cmd "expected_revision") = Some (dr_expected_revision request)))
      then Err (denied "invalid_disable_request" None)
      else Ok cmd
    else
      let* m := ok_or (command_module kind) (denied "unsupported_command" None) in
      if negb (isSome runtime) && legacy_policy_delivery connection
         && (bool_decide (m = AppPolicy) || bool_decide (m = NetworkPolicy))
      then Ok cmd
      else
        let* runtime := ok_or runtime (denied "module_report_required" (Some m)) in
        let grant := report_get (report runtime) m in
        if negb (available grant) || negb (enabled grant) || authorization_required grant then
          Err (denied "module_not_authorized" (Some m))
        else if has_pending runtime m then Err (denied "module_disable_pending" (Some m))
        else Ok (set_idx cmd "__module_generation" (generation_json m (ms_revision grant))).

Definition enqueue_authorized_command (r : AgentRegistry) (agent_id conn : Uuid) (command : json)
    : result AgentRegistry CommandDenied :=
  if negb (is_some_and (open_conn r agent_id) (fun c => bool_decide (conn_id c = conn))) then
    Err (denied "agent_offline" None)
  else
    let* channel := ok_or (cmds r !! agent_id) (denied "agent_offline" None) in
    ok_or (try_send r channel (CText command)) (denied "command_queue_full" None).

Definition send_agent_command_json (r : AgentRegistry) (agent_id : Uuid) (cmd : json)
    : result AgentRegistry CommandDenied :=
  let conn := conn_id <$> connections r !! agent_id in
  let* command := authorize_agent_command r agent_id cmd in
  let kind := kind_of cmd in
  if existsb (String.eqb kind) ["start_capture"; "stop_capture"]%string then
    Err (denied "capture_session_required" (Some LiveScreen))
  else if is_remote_input kind || existsb (String.eqb kind) ["ClipboardRead"; "ClipboardWrite"]%string then
    Err (denied "control_lease_required" (Some RemoteInput))
  else
    let* conn := ok_or conn (denied "agent_offline" None) in
    enqueue_authorized_command r agent_id conn command.

Definition send_command (r : AgentRegistry) (agent_id : Uuid) (c : ServerCommand) : result AgentRegistry CommandDenied :=
  send_agent_command_json r agent_id (to_value c).
Definition try_send_command (r : AgentRegistry) (agent_id : Uuid) (c : ServerCommand) : AgentRegistry * bool :=
  match send_command r agent_id c with Ok r' => (r', true) | Err _ => (r, false) end.

End authorization.

Definition try_disconnect (r : AgentRegistry) (agent_id : Uuid) : AgentRegistry * bool :=
  match cmds r !! agent_id ≫= fun ch => try_send r ch CClose with
  | Some r' => (r', true)
  | None => (r, false)
  end.

(** ** Live telemetry *)

(** The snapshot after one telemetry event, at [now]. *)
Definition merge_live (snap : AgentLiveSnapshot) (kind : string) (val : json) (now : Z) : AgentLiveSnapshot :=
  if String.eqb kind "window_focus" then
    {| window_title := match as_str (idx val "title") with Some t => Some t | None => window_title snap end;
       window_app := match as_str (idx val "app") with Some a => Some a | None => window_app snap end;
       url := url snap; activity := activity snap; idle_secs := idle_secs snap; updated_at := Some now |}
  else if String.eqb kind "url" then
    {| window_title := window_title snap; window_app := window_app snap;
       url := match as_str (idx val "url") with Some u => Some u | None => url snap end;
       activity := activity snap; idle_secs := idle_secs snap; updated_at := Some now |}
  else if String.eqb kind "afk" then
    let idle := lenient_i64_wrap_or_zero (Some (idx val "idle_secs")) in
    {| window_title := window_title snap; window_app := window_app snap; url := url snap;
       activity := Some "afk"%string; idle_secs := Some (Z.max idle 0); updated_at := Some now |}
  else if String.eqb kind "active" then
    {| window_title := window_title snap; window_app := window_app snap; url := url snap;
       activity := Some "active"%string; idle_secs := Some 0; updated_at := Some now |}
  else snap.
Definition update_live_from_event (r : AgentRegistry) (agent_id : Uuid) (kind : string) (val : json) (now : Z)
    : AgentRegistry :=
  with_live r (<[agent_id := merge_live (default AgentLiveSnapshot_default (live r !! agent_id)) kind val now]> (live r)).
Definition clear_live (r : AgentRegistry) (agent_id : Uuid) : AgentRegistry := with_live r (delete agent_id (live r)).

(** ** Lemmas *)

(** The runtime report that belongs to the agent's current connection. *)
Definition current_runtime (r : AgentRegistry) (id : Uuid) : option RuntimeModules :=
  match connections r !! id with
  | Some conn => ofilter (fun rt => bool_decide (rm_conn_id rt = conn_id conn)) (modules r !! id)
  | None => None
  end.

Lemma module_authorized_spec r id m :
  module_authorized r id m = true <->
  exists rt, current_runtime r id = Some rt /\ granted (report_get (report rt) m) = true /\ has_pending rt m = false.
Proof.
  unfold module_authorized, current_runtime, granted. destruct (connections r !! id) as [conn|]; [|naive_solver].
  destruct (modules r !! id) as [rt|]; [|naive_solver]. simpl.
  destruct (decide (rm_conn_id rt = conn_id conn)) as [E|E].
  - rewrite !bool_decide_eq_true_2 by done. simpl. rewrite andb_true_iff, negb_true_iff. naive_solver.
  - rewrite !bool_decide_eq_false_2 by done. simpl. naive_solver.
Qed.

Lemma try_send_Some r ch msg r' :
  try_send r ch msg = Some r' <->
  exists s, sockets r !! ch = Some s /\ (length (queue s) < AGENT_CMD_CHANNEL_CAPACITY)%nat
  /\ r' = with_sockets r (<[ch := {| shutdown := shutdown s; queue := queue s ++ [msg] |}]> (sockets r)).
Proof.
  unfold try_send. destruct (sockets r !! ch) as [s|]; [|naive_solver].
  destruct (Nat.ltb_spec (length (queue s)) AGENT_CMD_CHANNEL_CAPACITY); [naive_solver|].
  split; [done|]. intros (s' & [= <-] & ? & ?). lia.
Qed.

Lemma open_conn_Some r a c : open_conn r a = Some c <-> connections r !! a = Some c /\ conn_shutdown r c = None.
Proof. unfold open_conn. rewrite ofilter_Some. destruct (conn_shutdown r c); naive_solver. Qed.

Lemma negb_granted s : negb (available s) || negb (enabled s) || authorization_required s = negb (granted s).
Proof. unfold granted. by destruct (available s), (enabled s), (authorization_required s). Qed.

Section authorization_lemmas.
Context `{UuidText}.

Lemma enqueue_Ok r a conn cmd r' :
  enqueue_authorized_command r a conn cmd = Ok r' <->
  exists c ch, open_conn r a = Some c /\ conn_id c = conn /\ cmds r !! a = Some ch
  /\ try_send r ch (CText cmd) = Some r'.
Proof.
  unfold enqueue_authorized_command. destruct (is_some_and _ _) eqn:E; simpl.
  - apply is_some_and_true in E as (c & Hc & Hid). bool_prop. rewrite rbind_Ok. setoid_rewrite ok_or_Ok. naive_solver.
  - rewrite is_some_and_false in E. split; [done|]. intros (c & ch & Hc & Hid & _). specialize (E c Hc). by bool_prop.
Qed.

(** When a command is authorized, and as what. *)
Definition authorized_as (r : AgentRegistry) (id : Uuid) (conn : AgentConn) (cmd c : json) : Prop :=
  match gate (from_kind (kind_of cmd)) with
  | GProtocol => c = cmd
  | GDisableModule =>
      exists rt s cid req, current_runtime r id = Some rt /\ as_str (idx cmd "command_id") = Some s
      /\ parse_uuid s = Some cid /\ pending rt !! cid = Some req
      /\ idx cmd "module" = module_to_json (dr_module req)
      /\ as_u64 (idx cmd "expected_revision") = Some (dr_expected_revision req) /\ c = cmd
  | GModule m =>
      (module_authorized r id m = true /\ exists rt, current_runtime r id = Some rt
        /\ c = set_idx cmd "__module_generation" (generation_json m (ms_revision (report_get (report rt) m))))
      \/ (current_runtime r id = None /\ legacy_policy_delivery conn = true
          /\ (m = AppPolicy \/ m = NetworkPolicy) /\ c = cmd)
  | GDenied => False
  end.

Lemma authorize_Ok r id cmd c :
  authorize_agent_command r id cmd = Ok c <->
  exists conn, connections r !! id = Some conn
  /\ get cmd "__module_generation" = None /\ get cmd "__capture_generation" = None
  /\ authorized_as r id conn cmd c.
Proof.
  unfold authorize_agent_command, authorized_as. destruct (connections r !! id) as [conn|] eqn:Hconn; simpl; [|naive_solver].
  destruct (get cmd "__module_generation") eqn:Hg1; simpl; [naive_solver|].
  destruct (get cmd "__capture_generation") eqn:Hg2; simpl; [naive_solver|].
  generalize (kind_of cmd) as k. intros k. unfold protocol_command. pose proof (gate_from_kind_disable k) as Hd.
  assert (current_runtime r id = ofilter (fun rt => bool_decide (rm_conn_id rt = conn_id conn)) (modules r !! id)) as Hrt.
  { unfold current_runtime. by rewrite Hconn. }
  rewrite <- Hrt. unfold command_module, module_of.
  destruct (gate (from_kind k)) as [m| | |] eqn:Hgate.
  - rewrite bool_decide_eq_false_2 by done. destruct (String.eqb_spec k "disable_module") as [E|_]; [by apply Hd in E|].
    simpl. setoid_rewrite (module_authorized_spec r id m).
    destruct (current_runtime r id) as [rt|] eqn:Hc; simpl.
    + rewrite negb_granted. destruct (granted (report_get (report rt) m)) eqn:Hg; cbn [negb]; [destruct (has_pending rt m) eqn:Hp|];
        split; try done;
        try (by intros (? & _ & _ & _ & [((? & [= <-] & ? & ?) & _)|(? & _)]); congruence).
      * intros [= <-]. exists conn. split_and!; try done. left. by split; exists rt.
      * intros (? & _ & _ & _ & [(_ & ? & [= <-] & ->)|(? & _)]); [done|congruence].
    + destruct (legacy_policy_delivery conn) eqn:Hl; simpl;
        [|split; [done|intros (? & [= <-] & _ & _ & [((? & ? & _) & _)|(_ & ? & _)]); congruence]].
      assert (bool_decide (m = AppPolicy) || bool_decide (m = NetworkPolicy) = bool_decide (m = AppPolicy \/ m = NetworkPolicy)) as ->.
      { by destruct m. }
      case_bool_decide as Hm; simpl; split; [intros [= <-]|intros (? & [= <-] & _ & _ & [(_ & ? & ? & _)|(_ & _ & _ & ->)])|..]; try done.
      * exists conn. split_and!; try done. by right.
      * by intros (? & _ & _ & _ & [((? & ? & _) & _)|(_ & _ & ? & _)]).
  - rewrite bool_decide_eq_true_2 by done. naive_solver.
  - rewrite bool_decide_eq_false_2 by done. apply proj1 in Hd. specialize (Hd eq_refl). rewrite Hd. cbn [String.eqb Ascii.eqb Bool.eqb].
    split.
    + intros (rt & Hrt'%ok_or_Ok & Hx)%rbind_Ok. apply rbind_Ok in Hx as (req & Hreq%ok_or_Ok & Hx).
      destruct (as_str (idx cmd "command_id")) as [s|] eqn:Hs; [|done]. destruct (parse_uuid s) as [cid|] eqn:Hcid; [|done].
      destruct (json_eqb _ _) eqn:Hj; [apply json_eqb_eq in Hj|done]. case_bool_decide; [|done]. simplify_eq/=.
      eexists. split_and!; [done..|]. eexists _, _, _, _. split_and!; done.
    + intros (? & _ & _ & _ & rt & s & cid & req & -> & -> & -> & Hp & Hm & Hx & ->). simpl. rewrite Hp. simpl.
      rewrite (proj2 (json_eqb_eq _ _) Hm), bool_decide_eq_true_2 by done. done.
  - rewrite bool_decide_eq_false_2 by done. destruct (String.eqb_spec k "disable_module") as [E|_]; [by apply Hd in E|].
    simpl. naive_solver.
Qed.

End authorization_lemmas.

(** ** Properties *)

Section authorization_theorems.
Context `{UuidText}.

(** The complete authorization policy: a command is accepted exactly when the agent is
    connected, the caller set neither generation field, and its gate allows it: protocol
    commands pass unchanged; a disable command must match a pending request of the current
    connection in id, module and revision; a module command needs that module granted and not
    being disabled on the current connection, and is stamped with the grant's revision (or is
    a policy push to an agent that never reported); unknown commands never pass. *)
Theorem authorize_agent_command_exact r id cmd c :
  authorize_agent_command r id cmd = Ok c <->
  exists conn, connections r !! id = Some conn
  /\ get cmd "__module_generation" = None /\ get cmd "__capture_generation" = None
  /\ authorized_as r id conn cmd c.
Proof. apply authorize_Ok. Qed.

Lemma gate_module_object k m : gate (from_kind k) = GModule m -> k <> ""%string.
Proof. by intros Hg ->. Qed.

(** Authorization changes nothing but the stamp: dropping [__module_generation] from an
    authorized command gives back what the caller sent, a stamp is always the revision of a
    grant the device holds right now, and a module that is not authorized (off, unavailable,
    reported by an older connection, or being disabled) stamps no command at all. *)
Theorem authorize_only_stamps r id cmd c :
  authorize_agent_command r id cmd = Ok c ->
  remove_key c "__module_generation" = cmd
  /\ get c "__capture_generation" = None
  /\ kind_of c = kind_of cmd
  /\ forall g, get c "__module_generation" = Some g ->
     exists m rt, command_module (kind_of cmd) = Some m /\ module_authorized r id m = true
     /\ current_runtime r id = Some rt /\ g = generation_json m (ms_revision (report_get (report rt) m)).
Proof.
  rewrite authorize_Ok. intros (conn & Hconn & Hg1 & Hg2 & Ha). unfold authorized_as in Ha.
  assert (c = cmd -> remove_key c "__module_generation" = cmd /\ get c "__capture_generation" = None
    /\ kind_of c = kind_of cmd /\ forall g, get c "__module_generation" <> Some g) as Hsame.
  { intros ->. split_and!; [by apply remove_key_id|done..|by intros; rewrite Hg1]. }
  destruct (gate (from_kind (kind_of cmd))) as [m| | |] eqn:Hgate.
  - destruct Ha as [[Hm (rt & Hrt & ->)]|(_ & _ & _ & ->)].
    + assert (is_object cmd = true) as Ho by eauto using kind_of_object, gate_module_object.
      split_and!; [by apply remove_set_idx|by rewrite get_set_idx_ne|by apply kind_of_set_idx|].
      intros g. rewrite get_set_idx_eq by done. intros [= <-]. exists m, rt. split_and!; [|done..].
      unfold command_module, module_of. by rewrite Hgate.
    + destruct (Hsame eq_refl) as (? & ? & ? & Hn). split_and!; [done..|]. intros g Hg. by destruct (Hn g).
  - destruct (Hsame Ha) as (? & ? & ? & Hn). split_and!; [done..|]. intros g Hg. by destruct (Hn g).
  - destruct Ha as (_ & _ & _ & _ & _ & _ & _ & _ & _ & _ & Ha).
    destruct (Hsame Ha) as (? & ? & ? & Hn). split_and!; [done..|]. intros g Hg. by destruct (Hn g).
  - done.
Qed.

(** The caller-facing send queues exactly one command and changes nothing else: it succeeds
    iff the command is authorized, is not one that live sessions or control leases manage
    (capture, remote input, clipboard), and the agent's current, open connection has room in
    its 512-entry queue; the authorized command goes to the end of that queue. *)
Theorem send_agent_command_json_exact r a cmd r' :
  send_agent_command_json r a cmd = Ok r' <->
  exists conn c ch s, connections r !! a = Some conn /\ conn_shutdown r conn = None
  /\ authorize_agent_command r a cmd = Ok c
  /\ is_remote_input (kind_of cmd) = false
  /\ (kind_of cmd ∉ ["start_capture"; "stop_capture"; "ClipboardRead"; "ClipboardWrite"]%string)
  /\ cmds r !! a = Some ch /\ sockets r !! ch = Some s /\ (length (queue s) < 512)%nat
  /\ r' = with_sockets r (<[ch := {| shutdown := shutdown s; queue := queue s ++ [CText c] |}]> (sockets r)).
Proof.
  unfold send_agent_command_json. rewrite rbind_Ok. generalize (kind_of cmd). intros k.
  assert ((k ∉ ["start_capture"; "stop_capture"; "ClipboardRead"; "ClipboardWrite"]%string) <->
    (existsb (String.eqb k) ["start_capture"; "stop_capture"]%string = false
    /\ existsb (String.eqb k) ["ClipboardRead"; "ClipboardWrite"]%string = false)) as Hk.
  { cbn [existsb]. rewrite !orb_false_iff, !String.eqb_neq, !not_elem_of_cons.
    pose proof (not_elem_of_nil k). naive_solver. }
  setoid_rewrite Hk. clear Hk.
  destruct (existsb (String.eqb k) ["start_capture"; "stop_capture"]%string).
  { split; [by intros (c & _ & ?)|]. by intros (? & ? & ? & ? & _ & _ & _ & _ & [? _] & _). }
  destruct (is_remote_input k); simpl.
  { split; [by intros (c & _ & ?)|]. by intros (? & ? & ? & ? & _ & _ & _ & ? & _). }
  destruct (_ || _).
  { split; [by intros (c & _ & ?)|]. by intros (? & ? & ? & ? & _ & _ & _ & _ & [_ ?] & _). }
  setoid_rewrite rbind_Ok. setoid_rewrite enqueue_Ok. setoid_rewrite try_send_Some. setoid_rewrite open_conn_Some.
  setoid_rewrite ok_or_Ok. split.
  - intros (c & Hc & i & Hi & conn & ch & [Hconn Hs] & Hid & Hch & s & Hsock & Hlen & ->).
    exists conn, c, ch, s. split_and!; done.
  - intros (conn & c & ch & s & Hconn & Hs & Hc & _ & _ & Hch & Hsock & Hlen & ->).
    exists c. split; [done|]. exists (conn_id conn). rewrite Hconn. split; [done|]. exists conn, ch. split_and!; try done.
    by exists s.
Qed.

End authorization_theorems.

Definition ex_registry (granted : list (Module_ * Z)) : AgentRegistry :=
  {| connections := {[ 7%N := {| conn_id := 70%N; connected_at := 0; session_id := 1; legacy_policy_delivery := false |} ]};
     cmds := {[ 7%N := 70%N ]};
     modules := {[ 7%N := {| rm_conn_id := 70%N; report := ex_report 9 granted; pending := ∅; sent := ∅; last_sent := ∅ |} ]};
     live := ∅;
     sockets := {[ 70%N := {| shutdown := None; queue := [] |} ]} |}.

Lemma authorize_only_stamps_witness :
  let cmd := mk_obj [("type", JStr "ListDir"); ("path", JStr "/")]%string in
  exists c, @authorize_agent_command bin_uuid (ex_registry [(Files, 3)]) 7%N cmd = Ok c
  /\ get c "__module_generation" = Some (generation_json Files 3) /\ remove_key c "__module_generation" = cmd.
Proof.
  intros cmd. eexists. split; [vm_compute; reflexivity|]. split; [reflexivity|].
  apply (@authorize_only_stamps bin_uuid (ex_registry [(Files, 3)]) 7%N cmd). vm_compute. reflexivity.
Defined.
