(* ===== verification/Geometry.v ===== *)
(** Frame geometry end to end: the agent's coordinate mapping, capture selection and JPEG
    marker ([agent/src/capture/geometry.rs]) and the server's reader of that marker
    ([frame_geometry] in [server/src/control/capture_arbitration.rs]). *)
From S2P Require Import Prelude Json Protocol.

(** ** Desktop rectangles *)

Record DesktopRect := { rect_x : Z; rect_y : Z; physical_width : Z; physical_height : Z }.

#[export] Instance DesktopRect_eq_dec : EqDecision DesktopRect.
Proof. solve_decision. Defined.

Definition valid (r : DesktopRect) : bool :=
  (0 <? physical_width r) && (0 <? physical_height r)
  && (rect_x r + physical_width r - 1 <=? i32_max) && (rect_y r + physical_height r - 1 <=? i32_max).

(** [as i32] on an [i64]. *)
Definition as_i32 (z : Z) : Z := (z + 2 ^ 31) mod 2 ^ 32 - 2 ^ 31.

(** The pixel offset of a clamped frame coordinate, rounded to nearest ([i64] arithmetic). *)
Definition axis_offset (size frame p : Z) : Z :=
  let p := clampZ 0 (frame - 1) p in
  if frame =? 1 then 0 else (p * (size - 1) + (frame - 1) / 2) / (frame - 1).
Definition axis (origin size frame p : Z) : Z := as_i32 (origin + axis_offset size frame p).

(** [DesktopRect::map]. *)
Definition rect_map (r : DesktopRect) (frame_width frame_height x y : Z) : option (Z * Z) :=
  if negb (valid r) || (frame_width =? 0) || (frame_height =? 0) then None
  else Some (axis (rect_x r) (physical_width r) frame_width x, axis (rect_y r) (physical_height r) frame_height y).

(** ** The capture selection *)

Record FrameGeometry := {
  capture_id : string;
  geometry_revision : Z;
  monitor_index : option Z;
  desktop : option DesktopRect;
  frame_width : Z;
  frame_height : Z
}.

#[export] Instance FrameGeometry_eq_dec : EqDecision FrameGeometry.
Proof. solve_decision. Defined.

Record Selection := {
  sel_id : option string;
  sel_revision : Z;
  sel_frame : option FrameGeometry;
  legacy_primary : bool
}.
Definition Selection_default : Selection :=
  {| sel_id := None; sel_revision := 0; sel_frame := None; legacy_primary := false |}.

(** [Selection::begin]. *)
Definition sel_begin (id : string) (legacy : bool) : Selection :=
  {| sel_id := Some id; sel_revision := 0; sel_frame := None; legacy_primary := legacy |}.

(** [Selection::publish]. *)
Definition publish (s : Selection) (id : string) (mon : option Z) (rect : option DesktopRect) (w h : Z)
    : Selection * option FrameGeometry :=
  if negb (bool_decide (sel_id s = Some id)) || (w =? 0) || (h =? 0) then (s, None)
  else
    let rect := ofilter valid rect in
    let changed := is_none_or (sel_frame s) (fun f =>
      negb (bool_decide (monitor_index f = mon)) || negb (bool_decide (desktop f = rect))
      || negb (frame_width f =? w) || negb (frame_height f =? h)) in
    let next := if changed then u64_checked_add (sel_revision s) 1 else Some (sel_revision s) in
    match next with
    | None => (s, None)
    | Some revision =>
        let f := {| capture_id := id; geometry_revision := revision; monitor_index := mon; desktop := rect;
                    frame_width := w; frame_height := h |} in
        ({| sel_id := sel_id s; sel_revision := revision; sel_frame := Some f; legacy_primary := legacy_primary s |},
         Some f)
    end.

Definition mouse_kinds : list string :=
  ["MouseMove"; "MouseClick"; "MouseDoubleClick"; "MouseDown"; "MouseUp"]%string.

(** [v[name].as_i64().and_then(|x| i32::try_from(x).ok())]. *)
Definition coord (v : json) (name : string) : option Z := as_i64 (idx v name) ≫= try_i32.

(** [Selection::map_command]: the command with its coordinates mapped to the desktop. *)
Definition map_command (s : Selection) (v : json) : result json string :=
  let id := get v "capture_id" in
  let revision := get v "geometry_revision" in
  let stamped := isSome id || isSome revision in
  if stamped && negb (is_some_and (sel_frame s) (fun f =>
       bool_decide (id ≫= as_str = Some (capture_id f))
       && bool_decide (revision ≫= as_u64 = Some (geometry_revision f))))
  then Err "stale capture geometry"%string
  else if negb (existsb (fun k => str_is (idx v "type") k) mouse_kinds) then Ok v
  else
    let* x := ok_or (coord v "x") "invalid x"%string in
    let* y := ok_or (coord v "y") "invalid y"%string in
    let point := f ← sel_frame s; d ← desktop f; rect_map d (frame_width f) (frame_height f) x y in
    match point with
    | Some (x, y) => Ok (set_idx (set_idx v "x" (JInt x)) "y" (JInt y))
    | None =>
        ensure negb stamped && (negb (isSome (sel_id s)) || (legacy_primary s && isSome (sel_frame s)))
          else "capture geometry unavailable"%string in
        Ok v
    end.

(** ** JPEG bytes *)

Fixpoint starts_with (l prefix : list Z) : bool :=
  match prefix, l with
  | [], _ => true
  | p :: prefix, x :: l => (p =? x) && starts_with l prefix
  | _ :: _, [] => false
  end.
(** [b"VantyrGeometry\0"]. *)
Definition tag : list Z := [86; 97; 110; 116; 121; 114; 71; 101; 111; 109; 101; 116; 114; 121; 0].

Definition rect_to_value (r : DesktopRect) : json :=
  mk_obj [("x", JInt (rect_x r)); ("y", JInt (rect_y r)); ("physical_width", JInt (physical_width r));
          ("physical_height", JInt (physical_height r))]%string.
Definition opt_json {A} (enc : A -> json) (o : option A) : json := match o with Some a => enc a | None => JNull end.
Definition geometry_to_value (f : FrameGeometry) : json :=
  mk_obj [("capture_id", JStr (capture_id f)); ("geometry_revision", JInt (geometry_revision f));
          ("monitor_index", opt_json JInt (monitor_index f)); ("desktop", opt_json rect_to_value (desktop f));
          ("frame_width", JInt (frame_width f)); ("frame_height", JInt (frame_height f))]%string.
Definition envelope (f : FrameGeometry) : json :=
  mk_obj [("type", JStr "capture_geometry"); ("schema_version", JInt 1); ("geometry", geometry_to_value f)]%string.

Section text.
Context `{JsonText, UuidText}.

(** ** The agent's capture session *)

(** [CaptureSession::frame]: publishes the geometry and splices it into the JPEG after its
    start marker. The selection is updated even when the marker cannot be written. *)
Definition session_frame (s : Selection) (id : string) (mon : option Z) (rect : option DesktopRect) (w h : Z)
    (jpeg : list Z) : Selection * option (list Z) :=
  match publish s id mon rect w h with
  | (s', None) => (s', None)
  | (s', Some f) =>
      let data := tag ++ json_print (envelope f) in
      match try_u16 (Z.of_nat (length data) + 2) with
      | None => (s', None)
      | Some len =>
          if negb (starts_with jpeg [255; 216]) then (s', None)
          else (s', Some (take 2 jpeg ++ [255; 239; len / 256; len mod 256] ++ data ++ drop 2 jpeg))
      end
  end.
(** [CaptureSession::invalidate], [current] and [Drop]. *)
Definition session_invalidate (s : Selection) (id : string) : Selection :=
  if bool_decide (sel_id s = Some id) then
    {| sel_id := sel_id s; sel_revision := sel_revision s; sel_frame := None; legacy_primary := legacy_primary s |}
  else s.
Definition session_current (s : Selection) (id : string) : bool := bool_decide (sel_id s = Some id).
Definition session_drop (s : Selection) (id : string) : Selection :=
  if bool_decide (sel_id s = Some id) then Selection_default else s.

(** ** The server's marker reader *)

Fixpoint skip_ff (l : list Z) : list Z :=
  match l with x :: l' => if x =? 255 then skip_ff l' else l | [] => [] end.

Definition dim_ok (v : json) : bool := is_some_and (as_u64 v) (in_range 1 65535).
Definition origin_ok (g : json) (origin size : string) : bool :=
  match as_i64 (idx (idx g "desktop") origin) ≫= try_i32, as_u64 (idx (idx g "desktop") size) with
  | Some o, Some s => o + u64_as_i64 s - 1 <=? i32_max
  | _, _ => false
  end.

(** The checks on the marker's JSON text; [Some] is its geometry. *)
Definition check_geometry (data : list Z) : option json :=
  if (16384 <? Z.of_nat (length data)) then None else
  value ← json_parse (drop 15 data);
  if negb (str_is (idx value "type") "capture_geometry")
     || negb (bool_decide (as_i64 (idx value "schema_version") = Some 1)) then None else
  let g := idx value "geometry" in
  cid ← as_str (idx g "capture_id"); _ ← parse_uuid cid;
  revision ← as_u64 (idx g "geometry_revision");
  if revision =? 0 then None else
  if negb (forallb (fun k => dim_ok (idx g k)) ["frame_width"; "frame_height"]%string) then None else
  if negb (forallb (fun k => dim_ok (idx (idx g "desktop") k)) ["physical_width"; "physical_height"]%string) then None else
  if negb (origin_ok g "x" "physical_width" && origin_ok g "y" "physical_height") then None else
  mon ← as_u64 (idx g "monitor_index");
  if 64 <=? mon then None else Some g.

(** One pass over at most [fuel] header segments, from the bytes at the cursor on. *)
Fixpoint scan_segments (fuel : nat) (l : list Z) : option json :=
  match fuel with
  | O => None
  | S fuel =>
      if negb (bool_decide (head l = Some 255)) then None else
      match skip_ff l with
      | [] => None
      | marker :: l =>
          if (marker =? 218) || (marker =? 217) then None
          else if in_range 208 215 marker || (marker =? 1) then scan_segments fuel l
          else
            match l with
            | hi :: lo :: _ =>
                let len := hi * 256 + lo in
                if len <? 2 then None
                else if Z.of_nat (length l) <? len then None
                else
                  let data := drop 2 (take (Z.to_nat len) l) in
                  let l := drop (Z.to_nat len) l in
                  if (marker =? 239) && starts_with data tag then check_geometry data
                  else scan_segments fuel l
            | _ => None
            end
      end
  end.
Definition frame_geometry (jpeg : list Z) : option json :=
  if negb (starts_with jpeg [255; 216]) then None else scan_segments 128 (drop 2 jpeg).

End text.

(** ** Coordinate mapping: lemmas *)

Lemma clampZ_spec lo hi z : lo <= hi -> lo <= clampZ lo hi z <= hi.
Proof. unfold clampZ. lia. Qed.
Lemma clampZ_id lo hi z : lo <= z <= hi -> clampZ lo hi z = z.
Proof. unfold clampZ. lia. Qed.
Lemma clampZ_mono lo hi z z' : z <= z' -> clampZ lo hi z <= clampZ lo hi z'.
Proof. unfold clampZ. lia. Qed.

Lemma as_i32_id z : i32_min <= z <= i32_max -> as_i32 z = z.
Proof. unfold as_i32, i32_min, i32_max. intros. rewrite Z.mod_small; lia. Qed.

(** Rounded division: [q = (n + d/2) / d] is a nearest integer to [n / d]. *)
Lemma round_div n d : 0 < d -> let q := (n + d / 2) / d in -d <= 2 * (q * d - n) <= d.
Proof.
  intros Hd q. pose proof (Z.div_mod (n + d / 2) d). pose proof (Z.mod_pos_bound (n + d / 2) d Hd).
  pose proof (Z.div_mod d 2). pose proof (Z.mod_pos_bound d 2). subst q. nia.
Qed.

Lemma axis_offset_range size frame p : 1 <= size -> 1 <= frame -> 0 <= axis_offset size frame p <= size - 1.
Proof.
  intros Hs Hf. unfold axis_offset. destruct (frame =? 1) eqn:E; bool_prop; [lia|].
  pose proof (clampZ_spec 0 (frame - 1) p ltac:(lia)) as Hc. set (c := clampZ 0 (frame - 1) p) in *.
  set (d := frame - 1) in *. assert (0 < d) by lia. pose proof (Z.div_mod d 2). pose proof (Z.mod_pos_bound d 2). split.
  - apply Z.div_pos; [|lia]. nia.
  - apply Z.lt_succ_r, Z.div_lt_upper_bound; [lia|]. nia.
Qed.

Lemma axis_offset_mono size frame p p' :
  1 <= size -> 1 <= frame -> p <= p' -> axis_offset size frame p <= axis_offset size frame p'.
Proof.
  intros Hs Hf Hp. unfold axis_offset. destruct (frame =? 1) eqn:E; bool_prop; [lia|].
  pose proof (clampZ_mono 0 (frame - 1) p p' Hp). apply Z.div_le_mono; [lia|]. nia.
Qed.

(** [i32] pixel coordinates and [u32] sizes, as the Rust types bound them. *)
Definition rect_typed (r : DesktopRect) : Prop :=
  i32_min <= rect_x r <= i32_max /\ i32_min <= rect_y r <= i32_max
  /\ 0 <= physical_width r <= u32_max /\ 0 <= physical_height r <= u32_max.

Lemma axis_spec origin size frame p :
  i32_min <= origin -> 1 <= size -> origin + size - 1 <= i32_max -> 1 <= frame ->
  axis origin size frame p = origin + axis_offset size frame p.
Proof. intros. pose proof (axis_offset_range size frame p). unfold axis. apply as_i32_id. lia. Qed.

(** The largest intermediate of [axis] fits [i64]. *)
Lemma axis_no_overflow size frame p :
  1 <= size <= u32_max -> 2 <= frame <= u32_max -> i32_min <= p <= i32_max ->
  0 <= clampZ 0 (frame - 1) p * (size - 1) + (frame - 1) / 2 <= i64_max.
Proof.
  unfold i32_min, i32_max, u32_max, i64_max, clampZ. intros.
  assert (0 <= Z.min (frame - 1) (Z.max 0 p) <= 2 ^ 31 - 1) by lia.
  assert (0 <= (frame - 1) / 2 <= 2 ^ 31) by (split; [apply Z.div_pos|apply Z.div_le_upper_bound]; lia).
  split; [nia|]. transitivity ((2 ^ 31 - 1) * (2 ^ 32 - 2) + 2 ^ 31); [nia|lia].
Qed.

Lemma valid_spec r :
  valid r = true <-> 0 < physical_width r /\ 0 < physical_height r
  /\ rect_x r + physical_width r - 1 <= i32_max /\ rect_y r + physical_height r - 1 <= i32_max.
Proof. unfold valid. rewrite !andb_true_iff, !Z.ltb_lt, !Z.leb_le. tauto. Qed.

Lemma rect_map_Some r fw fh x y :
  rect_typed r -> 0 <= fw -> 0 <= fh -> valid r = true -> fw <> 0 -> fh <> 0 ->
  rect_map r fw fh x y = Some (rect_x r + axis_offset (physical_width r) fw x,
                               rect_y r + axis_offset (physical_height r) fh y).
Proof.
  intros (? & ? & ? & ?) ? ? Hv ? ?. unfold rect_map. rewrite Hv. apply valid_spec in Hv.
  destruct (fw =? 0) eqn:?, (fh =? 0) eqn:?; bool_prop; try lia. simpl. rewrite !axis_spec by lia. done.
Qed.

(** ** Properties of the mapping *)

(** Every mapped click lands on the physical display: whatever the [i32] coordinates, an
    accepted mapping is inside the rectangle (so the final [as i32] never wraps and the [i64]
    intermediates never overflow), and it is refused exactly for an invalid rectangle or an
    empty frame. *)
Theorem rect_map_bounds r fw fh x y :
  rect_typed r -> 0 <= fw <= u32_max -> 0 <= fh <= u32_max ->
  i32_min <= x <= i32_max -> i32_min <= y <= i32_max ->
  (rect_map r fw fh x y = None <-> valid r = false \/ fw = 0 \/ fh = 0)
  /\ (forall x' y', rect_map r fw fh x y = Some (x', y') ->
      rect_x r <= x' <= rect_x r + physical_width r - 1 /\ x' <= i32_max
      /\ rect_y r <= y' <= rect_y r + physical_height r - 1 /\ y' <= i32_max)
  /\ (valid r = true -> 2 <= fw ->
      0 <= clampZ 0 (fw - 1) x * (physical_width r - 1) + (fw - 1) / 2 <= i64_max)
  /\ (valid r = true -> 2 <= fh ->
      0 <= clampZ 0 (fh - 1) y * (physical_height r - 1) + (fh - 1) / 2 <= i64_max).
Proof.
  intros Ht Hw Hh Hx Hy. pose proof Ht as (? & ? & ? & ?). split_and!.
  - destruct (valid r) eqn:Hv; [|split; [by left|]; intros _; unfold rect_map; by rewrite Hv].
    destruct (decide (fw = 0)) as [->|Hw0]; [split; [tauto|]; intros _; unfold rect_map; by rewrite Hv|].
    destruct (decide (fh = 0)) as [->|Hh0]; [split; [tauto|]; intros _; unfold rect_map; rewrite Hv; by destruct (fw =? 0)|].
    rewrite rect_map_Some by (done || lia). split; [done|]. by intros [?|[?|?]].
  - intros x' y' Hm. assert (valid r = true /\ fw <> 0 /\ fh <> 0) as (Hv & Hw0 & Hh0).
    { unfold rect_map in Hm. destruct (valid r), (fw =? 0) eqn:?, (fh =? 0) eqn:?; bool_prop; simpl in Hm; done. }
    rewrite rect_map_Some in Hm by (done || lia). simplify_eq. apply valid_spec in Hv as (? & ? & ? & ?).
    pose proof (axis_offset_range (physical_width r) fw x). pose proof (axis_offset_range (physical_height r) fh y). lia.
  - intros Hv%valid_spec ?. apply axis_no_overflow; lia.
  - intros Hv%valid_spec ?. apply axis_no_overflow; lia.
Qed.

Definition ex_rect : DesktopRect :=
  {| rect_x := -1080; rect_y := -200; physical_width := 1080; physical_height := 1920 |}.
Lemma rect_map_bounds_witness :
  rect_map ex_rect 540 960 (-9) 9999 = Some (-1080, 1719) /\ -200 <= 1719 <= -200 + 1920 - 1.
Proof.
  assert (rect_map ex_rect 540 960 (-9) 9999 = Some (-1080, 1719)) as H by (vm_compute; reflexivity).
  split; [exact H|].
  refine (proj1 (proj2 (proj2 (proj1 (proj2 (rect_map_bounds ex_rect 540 960 (-9) 9999 _ _ _ _ _)) _ _ H))));
    vm_compute; repeat split; discriminate.
Defined.

(** The mapping is accurate: the frame's corners go to the rectangle's corners, order is kept
    on each axis, and an in-frame coordinate is mapped to a physical pixel nearest to its exact
    scaled position (off by at most half a frame step). *)
Theorem rect_map_accurate r fw fh :
  rect_typed r -> 2 <= fw -> 2 <= fh -> valid r = true ->
  rect_map r fw fh 0 0 = Some (rect_x r, rect_y r)
  /\ rect_map r fw fh (fw - 1) (fh - 1) = Some (rect_x r + physical_width r - 1, rect_y r + physical_height r - 1)
  /\ (forall x1 y1 x2 y2 a1 b1 a2 b2, rect_map r fw fh x1 y1 = Some (a1, b1) -> rect_map r fw fh x2 y2 = Some (a2, b2) ->
      x1 <= x2 -> y1 <= y2 -> a1 <= a2 /\ b1 <= b2)
  /\ (forall x y a b, 0 <= x <= fw - 1 -> 0 <= y <= fh - 1 -> rect_map r fw fh x y = Some (a, b) ->
      - (fw - 1) <= 2 * ((a - rect_x r) * (fw - 1) - x * (physical_width r - 1)) <= fw - 1
      /\ - (fh - 1) <= 2 * ((b - rect_y r) * (fh - 1) - y * (physical_height r - 1)) <= fh - 1).
Proof.
  intros Ht Hw Hh Hv. setoid_rewrite rect_map_Some; try done; try lia.
  pose proof (proj1 (valid_spec r) Hv) as (Hpw & Hph & _).
  assert (forall size frame, 0 < size -> 2 <= frame -> axis_offset size frame 0 = 0 /\ axis_offset size frame (frame - 1) = size - 1) as Hends.
  { intros size frame Hs Hf. unfold axis_offset. destruct (frame =? 1) eqn:E; bool_prop; [lia|].
    rewrite !clampZ_id by lia. assert (0 <= (frame - 1) / 2 < frame - 1) by (split; [apply Z.div_pos|apply Z.div_lt]; lia).
    split; [rewrite Z.mul_0_l, Z.add_0_l; by apply Z.div_small|].
    rewrite Z.mul_comm, Z.add_comm, Z.div_add, Z.div_small by lia. lia. }
  destruct (Hends (physical_width r) fw Hpw Hw) as [E1 E2], (Hends (physical_height r) fh Hph Hh) as [E3 E4].
  split_and!.
  - rewrite E1, E3. f_equal. f_equal; lia.
  - rewrite E2, E4. f_equal. f_equal; lia.
  - intros x1 y1 x2 y2 a1 b1 a2 b2 [= <- <-] [= <- <-] Hx Hy.
    pose proof (axis_offset_mono (physical_width r) fw x1 x2). pose proof (axis_offset_mono (physical_height r) fh y1 y2). lia.
  - intros x y a b Hx Hy [= <- <-]. rewrite !Z.add_simpl_l. unfold axis_offset. rewrite !clampZ_id by lia.
    destruct (fw =? 1) eqn:Efw; bool_prop; [lia|]. destruct (fh =? 1) eqn:Efh; bool_prop; [lia|].
    split; apply round_div; lia.
Qed.

Lemma rect_map_accurate_witness :
  rect_map ex_rect 540 960 0 0 = Some (-1080, -200) /\ rect_map ex_rect 540 960 539 959 = Some (-1, 1719).
Proof.
  assert (rect_typed ex_rect /\ 2 <= 540 /\ 2 <= 960 /\ valid ex_rect = true) as (H1 & H2 & H3 & H4)
    by (vm_compute; repeat split; discriminate).
  destruct (rect_map_accurate ex_rect 540 960 H1 H2 H3 H4) as (E1 & E2 & _). split; [exact E1|exact E2].
Defined.

(** ** Stamps identify geometry *)

(** What the capture worker does to the process-wide selection. *)
Inductive SelOp : Type :=
| SBegin (id : string) (legacy : bool)
| SPublish (id : string) (mon : option Z) (rect : option DesktopRect) (w h : Z)
| SInvalidate (id : string)
| SDrop (id : string).
Definition sel_step (s : Selection) (op : SelOp) : Selection * list FrameGeometry :=
  match op with
  | SBegin id legacy => (sel_begin id legacy, [])
  | SPublish id mon rect w h =>
      let '(s', f) := publish s id mon rect w h in (s', match f with Some f => [f] | None => [] end)
  | SInvalidate id => (session_invalidate s id, [])
  | SDrop id => (session_drop s id, [])
  end.
(** The selection after a run and every frame geometry it published. *)
Fixpoint sel_run (s : Selection) (ops : list SelOp) : Selection * list FrameGeometry :=
  match ops with
  | [] => (s, [])
  | op :: ops => let '(s1, fs1) := sel_step s op in let '(s2, fs2) := sel_run s1 ops in (s2, fs1 ++ fs2)
  end.
Definition begun (ops : list SelOp) : list string :=
  omap (fun op => match op with SBegin id _ => Some id | _ => None end) ops.

(** Published so far: [fs], by capture sessions among [used]. *)
Record stamps_ok (s : Selection) (used : list string) (fs : list FrameGeometry) : Prop := {
  st_used : forall f, f ∈ fs -> capture_id f ∈ used;
  st_id : forall id, sel_id s = Some id -> id ∈ used;
  st_bound : forall f, f ∈ fs -> sel_id s = Some (capture_id f) -> geometry_revision f <= sel_revision s;
  st_frame : forall f, sel_frame s = Some f ->
    f ∈ fs /\ sel_id s = Some (capture_id f) /\ geometry_revision f = sel_revision s;
  st_unique : forall f g, f ∈ fs -> g ∈ fs -> capture_id f = capture_id g ->
    geometry_revision f = geometry_revision g -> f = g
}.

Lemma publish_spec s id mon rect w h s' f :
  publish s id mon rect w h = (s', Some f) ->
  sel_id s = Some id /\ sel_id s' = Some id /\ sel_frame s' = Some f /\ capture_id f = id
  /\ geometry_revision f = sel_revision s' /\ frame_width f = w /\ frame_height f = h /\ w <> 0 /\ h <> 0
  /\ monitor_index f = mon /\ desktop f = ofilter valid rect
  /\ (sel_frame s = Some f /\ sel_revision s' = sel_revision s \/ sel_revision s' = sel_revision s + 1 /\ sel_revision s' <= u64_max
      \/ exists f0, sel_frame s = Some f0 /\ sel_revision s' = sel_revision s /\ (capture_id f0, geometry_revision f0) <> (id, sel_revision s)).
Proof.
  unfold publish. destruct (bool_decide (sel_id s = Some id)) eqn:Hid; bool_prop; [|done].
  destruct (w =? 0) eqn:Hw; [done|]. destruct (h =? 0) eqn:Hh; [done|]. bool_prop. cbn [negb orb]. cbv zeta.
  destruct (is_none_or _ _) eqn:Hch.
  - unfold u64_checked_add. destruct (sel_revision s + 1 <=? u64_max) eqn:Hb; [|done]. bool_prop. intros [= <- <-].
    simpl. split_and!; try done. right. left. split; done.
  - intros [= <- <-]. simpl. split_and!; try done. destruct (sel_frame s) as [f0|]; [|done]. simpl in Hch. bool_prop.
    destruct (decide ((capture_id f0, geometry_revision f0) = (id, sel_revision s))) as [E|E].
    + left. split; [|done]. simplify_eq. destruct f0; simpl in *; congruence.
    + right. right. by exists f0.
Qed.

Lemma publish_None s id mon rect w h s' : publish s id mon rect w h = (s', None) -> s' = s.
Proof. unfold publish. intros Hp. case_all_in Hp; congruence. Qed.

Lemma sel_step_ok s used fs op s' fs1 :
  stamps_ok s used fs -> (forall id, begun [op] = [id] -> id ∉ used) -> sel_step s op = (s', fs1) ->
  stamps_ok s' (used ++ begun [op]) (fs ++ fs1).
Proof.
  intros [Hu Hi Hb Hf Hq] Hfresh. destruct op as [id legacy|id mon rect w h|id|id]; cbn [sel_step begun omap list_omap].
  - intros [= <- <-]. rewrite app_nil_r. specialize (Hfresh id eq_refl). split; simpl; try done.
    + intros f Hin. apply elem_of_app. left. by apply Hu.
    + intros id' [= <-]. apply elem_of_app. right. apply list_elem_of_here.
    + intros f Hin [= ->]. destruct Hfresh. by apply Hu.
  - rewrite app_nil_r. destruct (publish s id mon rect w h) as [s1 [f|]] eqn:Hp; intros [= <- <-].
    + apply publish_spec in Hp as (Hid & Hid1 & Hf1 & Hc & Hg & _ & _ & _ & _ & _ & _ & Hcase).
      assert (sel_frame s = Some f /\ sel_revision s1 = sel_revision s \/ sel_revision s1 = sel_revision s + 1) as Hcase'.
      { destruct Hcase as [?|[[? ?]|(f0 & Hf0 & _ & Hne)]]; [by left|by right|].
        destruct (Hf f0 Hf0) as (_ & E1 & E2). destruct Hne. rewrite E2, Hid in *. congruence. }
      assert (forall g, g ∈ fs -> capture_id g = id -> geometry_revision g = geometry_revision f -> g = f) as Hold.
      { intros g Hin Hcg Hrg. pose proof (Hb g Hin ltac:(by rewrite Hid, Hcg)). destruct Hcase' as [[E1 E2]|E]; [|lia].
        destruct (Hf f E1) as (Hin' & _ & _). apply Hq; [done..|congruence|done]. }
      split; rewrite ?Hid1.
      * intros g [?|Hg1%list_elem_of_singleton]%elem_of_app; [by apply Hu|]. subst g. rewrite Hc. by apply Hi.
      * intros id' [= <-]. by apply Hi.
      * intros g [Hin|Hg1%list_elem_of_singleton]%elem_of_app Hg'; [|subst g; lia].
        pose proof (Hb g Hin ltac:(congruence)). destruct Hcase' as [[_ ?]|?]; lia.
      * intros g Hg'. rewrite Hf1 in Hg'. simplify_eq. split_and!; [apply elem_of_app; right; apply list_elem_of_here|done..].
      * intros g1 g2 [H1|H1%list_elem_of_singleton]%elem_of_app [H2|H2%list_elem_of_singleton]%elem_of_app E1 E2; subst;
          [by apply Hq|apply Hold; congruence|symmetry; apply Hold; congruence|done].
    + apply publish_None in Hp as ->. rewrite app_nil_r. by split.
  - intros [= <- <-]. rewrite !app_nil_r. unfold session_invalidate. case_bool_decide; [|by split]. by split.
  - intros [= <- <-]. rewrite !app_nil_r. unfold session_drop. case_bool_decide; [|by split]. by split.
Qed.

Lemma begun_app ops1 ops2 : begun (ops1 ++ ops2) = begun ops1 ++ begun ops2.
Proof. apply omap_app. Qed.

Lemma sel_run_ok s used fs ops s' fs' :
  stamps_ok s used fs -> NoDup (used ++ begun ops) -> sel_run s ops = (s', fs') ->
  stamps_ok s' (used ++ begun ops) (fs ++ fs').
Proof.
  revert s used fs s' fs'. induction ops as [|op ops IH]; intros s used fs s' fs' Hok Hnd; cbn [sel_run].
  - intros [= <- <-]. by rewrite !app_nil_r.
  - destruct (sel_step s op) as [s1 fs1] eqn:H1. destruct (sel_run s1 ops) as [s2 fs2] eqn:H2. intros [= <- <-].
    change (op :: ops) with ([op] ++ ops) in *. rewrite begun_app, !app_assoc in *.
    eapply IH; [|done|done]. eapply sel_step_ok; [done| |done].
    intros id Hid. rewrite Hid in Hnd. apply NoDup_app in Hnd as (Hnd & _ & _). apply NoDup_app in Hnd as (_ & Hnd & _).
    intros Hin. apply (Hnd id Hin), list_elem_of_here.
Qed.

Lemma stamps_ok_default : stamps_ok Selection_default [] [].
Proof. split; simpl; intros; by match goal with H : _ ∈ [] |- _ => apply not_elem_of_nil in H | H : None = Some _ |- _ => discriminate H end. Qed.

(** A command carrying a frame's stamp. *)
Definition stamped_with (v : json) (f : FrameGeometry) : Prop :=
  get v "capture_id" = Some (JStr (capture_id f)) /\ get v "geometry_revision" = Some (JInt (geometry_revision f)).

(** Input is mapped with the geometry the viewer saw: over any run of capture sessions with
    distinct ids, two published frames with the same id and revision are the same geometry,
    and a pointer command stamped with a published frame is accepted only while exactly that
    frame is current, with its coordinates mapped by that frame's own rectangle. *)
Theorem stamped_input_uses_its_frame ops s fs f v v' :
  NoDup (begun ops) -> sel_run Selection_default ops = (s, fs) -> f ∈ fs ->
  stamped_with v f -> existsb (fun k => str_is (idx v "type") k) mouse_kinds = true -> map_command s v = Ok v' ->
  sel_frame s = Some f
  /\ (forall g, g ∈ fs -> capture_id g = capture_id f -> geometry_revision g = geometry_revision f -> g = f)
  /\ exists d x y x' y', desktop f = Some d /\ coord v "x" = Some x /\ coord v "y" = Some y
     /\ rect_map d (frame_width f) (frame_height f) x y = Some (x', y')
     /\ v' = set_idx (set_idx v "x" (JInt x')) "y" (JInt y').
Proof.
  intros Hnd Hrun Hin [Hs1 Hs2] Hk Hm.
  pose proof (sel_run_ok _ _ _ _ _ _ stamps_ok_default Hnd Hrun) as [_ _ _ Hf Hq]. cbn [app] in Hf, Hq.
  unfold map_command in Hm. rewrite Hs1, Hs2, Hk in Hm. cbn [isSome orb andb negb mbind option_bind as_str] in Hm.
  destruct (sel_frame s) as [f0|] eqn:Hf0; [|done]. cbn [is_some_and] in Hm.
  destruct (Hf f0 eq_refl) as (Hin0 & _ & _).
  destruct (bool_decide (Some (capture_id f) = _)) eqn:E1; [|done].
  destruct (bool_decide (as_u64 _ = _)) eqn:E2; [|done]. bool_prop. cbn [andb negb] in Hm.
  assert (f0 = f) as ->.
  { apply Hq; [done..|congruence|]. simpl in E2. destruct (in_range _ _ _); congruence. }
  split_and!; [done|intros g Hg; by apply Hq|].
  apply rbind_Ok in Hm as (x & Hx%ok_or_Ok & Hm). apply rbind_Ok in Hm as (y & Hy%ok_or_Ok & Hm).
  cbn [mbind option_bind] in Hm. destruct (desktop f) as [d|] eqn:Hd; [|done].
  cbn [mbind option_bind] in Hm. destruct (rect_map d _ _ x y) as [[x' y']|] eqn:Hr; [|done]. simplify_eq.
  by exists d, x, y, x', y'.
Qed.

Definition ex_sel_ops : list SelOp :=
  [SBegin "a" false; SPublish "a" (Some 1) (Some ex_rect) 540 960; SInvalidate "a";
   SPublish "a" (Some 1) (Some ex_rect) 540 960]%string.
Definition ex_stamped (rev : Z) : json :=
  mk_obj [("type", JStr "MouseMove"); ("x", JInt 539); ("y", JInt 0); ("capture_id", JStr "a");
          ("geometry_revision", JInt rev)]%string.

Lemma stamped_input_uses_its_frame_witness :
  exists s fs f v', sel_run Selection_default ex_sel_ops = (s, fs) /\ map_command s (ex_stamped 2) = Ok v'
  /\ sel_frame s = Some f /\ is_ok (map_command s (ex_stamped 1)) = false.
Proof.
  set (r := sel_run Selection_default ex_sel_ops). set (f := default {| capture_id := ""; geometry_revision := 0;
    monitor_index := None; desktop := None; frame_width := 0; frame_height := 0 |} (sel_frame r.1)).
  exists r.1, r.2, f. eexists. split; [reflexivity|]. split; [vm_compute; reflexivity|]. split; [|vm_compute; reflexivity].
  refine (proj1 (stamped_input_uses_its_frame ex_sel_ops r.1 r.2 f (ex_stamped 2) _ _ _ _ _ _ _)).
  - by apply (bool_decide_unpack _).
  - reflexivity.
  - by apply (bool_decide_unpack _).
  - split; vm_compute; reflexivity.
  - vm_compute. reflexivity.
  - vm_compute. reflexivity.
Defined.

(** ** The marker: lemmas *)

(** A geometry the server's reader can accept: one verified rectangle on a numbered display. *)
Definition controllable (f : FrameGeometry) (mon : Z) (d : DesktopRect) : Prop :=
  monitor_index f = Some mon /\ 0 <= mon < 64 /\ desktop f = Some d /\ valid d = true /\ rect_typed d
  /\ physical_width d <= 65535 /\ physical_height d <= 65535
  /\ 1 <= frame_width f <= 65535 /\ 1 <= frame_height f <= 65535 /\ 1 <= geometry_revision f <= u64_max.

Lemma starts_with_app p l : starts_with (p ++ l) p = true.
Proof. induction p as [|x p IH]; simpl; [by destruct l|]. by rewrite Z.eqb_refl, IH. Qed.

Lemma starts_with_spec l p : starts_with l p = true <-> exists r, l = p ++ r.
Proof.
  split; [|by intros [r ->]; apply starts_with_app]. revert l. induction p as [|x p IH]; intros l; [by eexists|].
  destruct l as [|y l]; [done|]. simpl. intros H. bool_prop. subst. destruct (IH l) as [r ->]; [done|]. by exists r.
Qed.

Lemma as_u64_range v z : as_u64 v = Some z -> v = JInt z /\ 0 <= z <= u64_max.
Proof. destruct v; simpl; try done. destruct (in_range 0 u64_max z0) eqn:E; [|done]. intros [= <-]. by apply in_range_spec in E. Qed.
Lemma u64_as_i64_id z : z <= i64_max -> u64_as_i64 z = z.
Proof. unfold u64_as_i64. destruct (z <=? i64_max) eqn:E; bool_prop; [done|lia]. Qed.

(** The fields of a printed geometry. *)
Lemma geometry_fields f d (Hd : desktop f = Some d) :
  let g := geometry_to_value f in
  idx (envelope f) "type" = JStr "capture_geometry" /\ idx (envelope f) "schema_version" = JInt 1
  /\ idx (envelope f) "geometry" = g
  /\ idx g "capture_id" = JStr (capture_id f) /\ idx g "geometry_revision" = JInt (geometry_revision f)
  /\ idx g "monitor_index" = opt_json JInt (monitor_index f)
  /\ idx g "frame_width" = JInt (frame_width f) /\ idx g "frame_height" = JInt (frame_height f)
  /\ idx (idx g "desktop") "x" = JInt (rect_x d) /\ idx (idx g "desktop") "y" = JInt (rect_y d)
  /\ idx (idx g "desktop") "physical_width" = JInt (physical_width d)
  /\ idx (idx g "desktop") "physical_height" = JInt (physical_height d).
Proof.
  destruct f; simpl in Hd; subst. split_and!; reflexivity.
Qed.

Lemma envelope_plain f mon d : controllable f mon d -> json_plain (envelope f) = true.
Proof.
  destruct f as [cid rev m r w h]. intros (Hm & ? & Hr & ? & (? & ? & ? & ?) & ? & ? & ? & ? & ?). simpl in *. subst m r.
  unfold i32_min, i32_max, u32_max, u64_max in *. unfold envelope, geometry_to_value, rect_to_value. simpl.
  rewrite !in_range_true by (unfold i64_min, u64_max; lia). done.
Qed.

Section marker.
Context `{JsonText, UuidText}.

Lemma dim_ok_JInt z : dim_ok (JInt z) = true <-> 1 <= z <= 65535.
Proof.
  unfold dim_ok. rewrite is_some_and_true. split.
  - intros (w & Hw & Hr). simpl in Hw. destruct (in_range 0 u64_max z); [|done]. simplify_eq. by apply in_range_spec.
  - intros Hr. exists z. rewrite as_u64_JInt by (unfold u64_max; lia). split; [done|]. by apply in_range_spec.
Qed.

Lemma origin_ok_JInt g o s origin size :
  idx (idx g "desktop") origin = JInt o -> idx (idx g "desktop") size = JInt s ->
  i32_min <= o <= i32_max -> 0 <= s <= u32_max -> origin_ok g origin size = (o + s - 1 <=? i32_max).
Proof.
  intros Ho Hs ? ?. unfold origin_ok. rewrite Ho, Hs. unfold i32_min, i32_max, u32_max in *.
  rewrite as_i64_JInt by (unfold i64_min, i64_max; lia). cbn [mbind option_bind].
  rewrite try_i32_id by (unfold i32_min, i32_max; lia). rewrite as_u64_JInt by (unfold u64_max; lia).
  by rewrite u64_as_i64_id by (unfold i64_max; lia).
Qed.

Lemma check_geometry_envelope f mon d u :
  controllable f mon d -> parse_uuid (capture_id f) = Some u ->
  Z.of_nat (length (tag ++ json_print (envelope f))) <= 16384 ->
  check_geometry (tag ++ json_print (envelope f)) = Some (geometry_to_value f).
Proof.
  intros Hc Hu Hlen. unfold check_geometry. destruct (Z.ltb_spec 16384 (Z.of_nat (length (tag ++ json_print (envelope f))))); [lia|].
  change (drop 15 (tag ++ json_print (envelope f))) with (json_print (envelope f)).
  rewrite (json_parse_print _ (envelope_plain _ _ _ Hc)). cbn [mbind option_bind].
  destruct Hc as (Hm & Hmr & Hd & Hv%valid_spec & (? & ? & ? & ?) & Hpw & Hph & Hw & Hh & Hrev).
  destruct (geometry_fields f d Hd) as (E1 & E2 & E3 & E4 & E5 & E6 & E7 & E8 & E9 & E10 & E11 & E12).
  rewrite E1, E2, E3. cbn [str_is as_str is_some_and]. rewrite String.eqb_refl.
  rewrite bool_decide_eq_true_2 by reflexivity. cbn [negb orb]. cbv zeta.
  rewrite E4, E5, E6, Hm. cbn [as_str mbind option_bind opt_json]. rewrite Hu. cbn [option_bind].
  rewrite (as_u64_JInt (geometry_revision f)) by lia.
  cbn [forallb]. rewrite E7, E8, E11, E12.
  rewrite (proj2 (dim_ok_JInt (frame_width f)) Hw), (proj2 (dim_ok_JInt (frame_height f)) Hh).
  rewrite (proj2 (dim_ok_JInt (physical_width d))), (proj2 (dim_ok_JInt (physical_height d))) by lia. cbn [andb negb].
  rewrite (origin_ok_JInt _ _ _ _ _ E9 E11), (origin_ok_JInt _ _ _ _ _ E10 E12) by (done || lia).
  destruct Hv as (_ & _ & Hx & Hy). apply Z.leb_le in Hx, Hy. rewrite Hx, Hy. cbn [andb negb].
  rewrite as_u64_JInt by (unfold u64_max; lia). cbn [mbind option_bind]. destruct (64 <=? mon) eqn:E64; bool_prop; [lia|].
  destruct (geometry_revision f =? 0) eqn:E0; bool_prop; [lia|done].
Qed.

(** One APP15 segment right after the start marker is read in the first step. *)
Lemma frame_geometry_marker data rest len :
  Z.of_nat (length data) + 2 = len -> len < 65536 -> starts_with data tag = true ->
  frame_geometry ([255; 216] ++ [255; 239; len / 256; len mod 256] ++ data ++ rest) = check_geometry data.
Proof.
  intros Hlen Hmax Htag. unfold frame_geometry. cbn [app starts_with Z.eqb]. cbn [Z.eqb Pos.eqb andb negb drop].
  change 128%nat with (S 127). generalize 127%nat. intros n. cbn [scan_segments head]. rewrite bool_decide_eq_true_2 by done. cbn [negb skip_ff].
  cbn [Z.eqb Pos.eqb]. cbv iota. cbn [in_range]. change (239 =? 255) with false. cbv iota.
  change ((239 =? 218) || (239 =? 217)) with false. change (in_range 208 215 239 || (239 =? 1)) with false. cbv iota zeta.
  assert (len / 256 * 256 + len mod 256 = len) as -> by (pose proof (Z.div_mod len 256); lia).
  destruct (len <? 2) eqn:E; bool_prop; [lia|].
  destruct (Z.of_nat (length (len / 256 :: len mod 256 :: data ++ rest)) <? len) eqn:E'; bool_prop.
  { cbn [length] in E'. rewrite length_app in E'. lia. }
  replace (Z.to_nat len) with (S (S (length data))) by lia. cbn [take drop]. rewrite take_app_length.
  change (in_range 208 215 239) with false. rewrite drop_0. cbn [orb andb]. by rewrite Htag.
Qed.

(** Published revisions count from 1. *)
Definition sel_ok (s : Selection) : Prop :=
  0 <= sel_revision s <= u64_max /\ forall f, sel_frame s = Some f -> 1 <= geometry_revision f <= u64_max /\ geometry_revision f = sel_revision s.

Lemma publish_sel_ok s id mon rect w h s' o : sel_ok s -> publish s id mon rect w h = (s', o) -> sel_ok s'.
Proof.
  intros [Hr Hf] Hp. destruct o as [f|]; [|by apply publish_None in Hp as ->].
  apply publish_spec in Hp as (_ & _ & Hf' & _ & Hg & _ & _ & _ & _ & _ & _ & Hcase).
  assert (1 <= sel_revision s' <= u64_max) as Hb.
  { destruct Hcase as [[E1 E2]|[[E1 E2]|(f0 & E1 & E2 & _)]]; [|lia|]; destruct (Hf _ E1); lia. }
  split; [lia|]. intros f' E. rewrite Hf' in E. simplify_eq. lia.
Qed.

Lemma sel_run_sel_ok ops s fs s0 : sel_ok s0 -> sel_run s0 ops = (s, fs) -> sel_ok s.
Proof.
  revert s0 s fs. induction ops as [|op ops IH]; intros s0 s fs Hok; cbn [sel_run]; [by intros [= <- _]|].
  destruct (sel_step s0 op) as [s1 fs1] eqn:H1. destruct (sel_run s1 ops) as [s2 fs2] eqn:H2. intros [= <- _].
  eapply IH; [|exact H2]. destruct op as [id legacy|id mon rect w h|id|id]; cbn [sel_step] in H1.
  - simplify_eq. split; simpl; [unfold u64_max; lia|done].
  - destruct (publish _ _ _ _ _ _) as [s3 o] eqn:Hp. simplify_eq. by eapply publish_sel_ok.
  - simplify_eq. unfold session_invalidate. case_bool_decide; [|done]. by split; [apply Hok|].
  - simplify_eq. unfold session_drop. case_bool_decide; [|done]. split; simpl; [unfold u64_max; lia|done].
Qed.

Lemma sel_ok_default : sel_ok Selection_default.
Proof. split; simpl; [unfold u64_max; lia|done]. Qed.

(** The geometry marker survives the wire: for a display with a valid rectangle of at most
    65535 pixels a side, the server reads back from the JPEG the agent marks exactly the
    geometry the agent published (the one its selection maps input with), and the marker is
    inserted after the start-of-image bytes without touching the picture. *)
Theorem frame_marker_roundtrip ops fs s s' id u m d w h jpeg out :
  sel_run Selection_default ops = (s, fs) ->
  session_frame s id (Some m) (Some d) w h jpeg = (s', Some out) ->
  parse_uuid id = Some u -> 0 <= m < 64 -> rect_typed d -> valid d = true ->
  physical_width d <= 65535 -> physical_height d <= 65535 -> 0 <= w <= 65535 -> 0 <= h <= 65535 ->
  (forall f, sel_frame s' = Some f -> Z.of_nat (length (tag ++ json_print (envelope f))) <= 16384) ->
  exists f, sel_frame s' = Some f /\ controllable f m d
  /\ capture_id f = id /\ frame_width f = w /\ frame_height f = h
  /\ frame_geometry out = Some (geometry_to_value f)
  /\ exists marker, out = take 2 jpeg ++ marker ++ drop 2 jpeg.
Proof.
  intros Hrun Hs Hu Hm Ht Hv Hpw Hph Hw Hh Hlen. pose proof (sel_run_sel_ok _ _ _ _ sel_ok_default Hrun) as Hok.
  unfold session_frame in Hs. destruct (publish s id (Some m) (Some d) w h) as [s1 [f|]] eqn:Hp; [|done].
  pose proof (publish_sel_ok _ _ _ _ _ _ _ _ Hok Hp) as [_ Hf1].
  apply publish_spec in Hp as (_ & _ & Hf & Hc & _ & Hfw & Hfh & Hw0 & Hh0 & Hmon & Hd & _).
  simpl in Hd. rewrite Hv in Hd. destruct (Hf1 f Hf) as [Hrev _].
  destruct (try_u16 _) as [len|] eqn:Hlen'; [|done]. destruct (starts_with jpeg [255; 216]) eqn:Hsoi; [|done].
  cbn [negb] in Hs. simplify_eq. exists f. specialize (Hlen f Hf).
  assert (controllable f m d) as Hctl by (split_and!; (done || lia)).
  split_and!; try done.
  - apply starts_with_spec in Hsoi as [pic ->]. unfold try_u16 in Hlen'.
    destruct (in_range 0 u16_max _) eqn:Hr; [|done]. apply in_range_spec in Hr. simplify_eq.
    change (take 2 ([255; 216] ++ pic)) with [255; 216]. change (drop 2 ([255; 216] ++ pic)) with pic.
    rewrite frame_geometry_marker; [|done|unfold u16_max in *; lia|apply starts_with_app].
    by eapply check_geometry_envelope.
  - exists ([255; 239; len / 256; len mod 256] ++ tag ++ json_print (envelope f)). by rewrite <- !app_assoc.
Qed.

Lemma check_geometry_sound data g :
  check_geometry data = Some g ->
  exists cid u rev mon, as_str (idx g "capture_id") = Some cid /\ parse_uuid cid = Some u
  /\ as_u64 (idx g "geometry_revision") = Some rev /\ 1 <= rev
  /\ as_u64 (idx g "monitor_index") = Some mon /\ 0 <= mon < 64
  /\ Forall (fun k => dim_ok (idx g k) = true) ["frame_width"; "frame_height"]%string
  /\ Forall (fun k => dim_ok (idx (idx g "desktop") k) = true) ["physical_width"; "physical_height"]%string
  /\ origin_ok g "x" "physical_width" = true /\ origin_ok g "y" "physical_height" = true.
Proof.
  unfold check_geometry. destruct (_ <? _); [done|]. intros (value & _ & Hx)%bind_Some. revert Hx.
  destruct (_ || _); [done|]. cbv zeta. set (g0 := idx value "geometry").
  intros (cid & Hcid & Hx)%bind_Some. apply bind_Some in Hx as (u & Hu & Hx). apply bind_Some in Hx as (rev & Hrev & Hx).
  revert Hx. destruct (rev =? 0) eqn:E0; [done|]. destruct (forallb _ _) eqn:E1; [|done]. cbn [negb].
  destruct (forallb _ ["physical_width"; _]) eqn:E2; [|done]. cbn [negb].
  destruct (_ && _) eqn:E3; [|done]. cbn [negb]. intros (mon & Hmon & Hx)%bind_Some.
  destruct (64 <=? mon) eqn:E4; [done|]. simplify_eq. bool_prop. exists cid, u, rev, mon.
  pose proof Hrev as [_ ?]%as_u64_range. pose proof Hmon as [_ ?]%as_u64_range.
  split_and!; try done; try lia; cbn [forallb] in *; bool_prop; by repeat constructor.
Qed.

Lemma scan_segments_check fuel l g : scan_segments fuel l = Some g -> exists data, check_geometry data = Some g.
Proof.
  revert l. induction fuel as [|fuel IH]; intros l; cbn [scan_segments]; [done|].
  destruct (negb _); [done|]. destruct (skip_ff l) as [|marker l1]; [done|].
  destruct (_ || _); [done|]. destruct (_ || _); [apply IH|]. destruct l1 as [|hi [|lo l2]]; [done..|]. cbv zeta.
  destruct (_ <? 2); [done|]. destruct (_ <? _); [done|]. destruct (_ && _); [eauto|apply IH].
Qed.

(** Whatever the bytes, a geometry the server accepts has the shape its users unwrap: a
    parseable capture id, a nonzero revision, a display index below 64, frame and physical
    sizes between 1 and 65535, and a desktop rectangle whose far corner is an [i32]; and at most
    128 header segments are looked at, so the read always ends. *)
Theorem frame_geometry_sound jpeg g :
  frame_geometry jpeg = Some g ->
  exists cid u rev mon, as_str (idx g "capture_id") = Some cid /\ parse_uuid cid = Some u
  /\ as_u64 (idx g "geometry_revision") = Some rev /\ 1 <= rev
  /\ as_u64 (idx g "monitor_index") = Some mon /\ 0 <= mon < 64
  /\ Forall (fun k => dim_ok (idx g k) = true) ["frame_width"; "frame_height"]%string
  /\ Forall (fun k => dim_ok (idx (idx g "desktop") k) = true) ["physical_width"; "physical_height"]%string
  /\ origin_ok g "x" "physical_width" = true /\ origin_ok g "y" "physical_height" = true.
Proof.
  unfold frame_geometry. destruct (negb _); [done|]. intros [data Hd]%scan_segments_check. by apply check_geometry_sound in Hd.
Qed.

End marker.

Definition ex_jpeg : list Z := [255; 216; 255; 217].
Definition ex_frame : Selection * option (list Z) :=
  @session_frame bin_json (sel_run Selection_default [SBegin "101" false]).1 "101" (Some 1) (Some ex_rect) 540 960 ex_jpeg.

Lemma frame_marker_roundtrip_witness :
  exists out, ex_frame.2 = Some out
  /\ exists f, sel_frame ex_frame.1 = Some f /\ @frame_geometry bin_json bin_uuid out = Some (geometry_to_value f).
Proof.
  set (out := default [] ex_frame.2). exists out. assert (ex_frame.2 = Some out) as Ho by (vm_compute; reflexivity).
  split; [exact Ho|].
  destruct (@frame_marker_roundtrip bin_json bin_uuid [SBegin "101" false] [] (sel_run Selection_default [SBegin "101" false]).1
    ex_frame.1 "101"%string 5%N 1 ex_rect 540 960 ex_jpeg out) as (f & Hf & _ & _ & _ & _ & Hg & _);
    [reflexivity|unfold out; vm_compute; reflexivity|vm_compute; reflexivity|lia|vm_compute; repeat split; discriminate|
     reflexivity|vm_compute; discriminate|vm_compute; discriminate|lia|lia| |exists f; split; [exact Hf|exact Hg]].
  intros f Hf. apply Z.leb_le. vm_compute in Hf. injection Hf as <-. vm_compute. reflexivity.
Defined.

Lemma frame_geometry_sound_witness :
  let out := default [] ex_frame.2 in
  exists g, @frame_geometry bin_json bin_uuid out = Some g /\ dim_ok (idx g "frame_width") = true.
Proof.
  intros out. set (g := default JNull (@frame_geometry bin_json bin_uuid out)).
  assert (@frame_geometry bin_json bin_uuid out = Some g) as Hg by (vm_compute; reflexivity). exists g. split; [exact Hg|].
  destruct (@frame_geometry_sound bin_json bin_uuid out g Hg) as (_ & _ & _ & _ & _ & _ & _ & _ & _ & _ & Hd & _).
  by inversion Hd.
Defined.
