(* ===== verification/State.v ===== *)
(** The server's shared state: [AppState] ([server/src/state/mod.rs]) with the live media of
    [server/src/state/live_media.rs] and the control runtime of [server/src/control/runtime.rs].
    The code guards all of it with the [control] mutex, so every handler is one atomic
    transition on this record. *)
From S2P Require Import Prelude Json Protocol Sessions Modules Registry Geometry.

(** ** Live media *)

Record MjpegViewerPrefs := { jpeg_quality : Z; interval_ms : Z; monitor : option Z }.
Record MjpegSession := {
  requested_monitor : option Z;
  s_agent_id : Uuid;
  s_user_id : Uuid;
  s_conn_id : Uuid;
  s_prefs : MjpegViewerPrefs
}.
Record Frame := { seq : Z; jpeg : list Z; last_update : Instant }.
Record ActiveCapture := {
  wire_monitor : option Z;
  generation : Uuid;
  retired_capture_ids : list (option Uuid);
  a_conn_id : Uuid;
  a_prefs : MjpegViewerPrefs
}.
Record FrozenCapture := { f_owner : LeaseOwner; f_session_id : Uuid; f_active : ActiveCapture }.

#[export] Instance MjpegViewerPrefs_eq_dec : EqDecision MjpegViewerPrefs.
Proof. solve_decision. Defined.

(** The audio broadcast channels are left out: nothing reads them but their own stream. *)
Record LiveMedia := {
  frames : gmap Uuid Frame;
  frame_seq : Z;
  mjpeg_retired_captures : gmap Uuid (Uuid * list (option Uuid));
  capture_viewers : gmap Uuid Z;
  mjpeg_sessions : gmap Uuid MjpegSession;
  mjpeg_active_capture : gmap Uuid ActiveCapture
}.
Definition LiveMedia_default : LiveMedia :=
  {| frames := ∅; frame_seq := 1; mjpeg_retired_captures := ∅; capture_viewers := ∅; mjpeg_sessions := ∅;
     mjpeg_active_capture := ∅ |}.

Definition set_frames (m : LiveMedia) (x : gmap Uuid Frame) : LiveMedia :=
  {| frames := x; frame_seq := frame_seq m; mjpeg_retired_captures := mjpeg_retired_captures m;
     capture_viewers := capture_viewers m; mjpeg_sessions := mjpeg_sessions m;
     mjpeg_active_capture := mjpeg_active_capture m |}.
Definition set_retired (m : LiveMedia) (x : gmap Uuid (Uuid * list (option Uuid))) : LiveMedia :=
  {| frames := frames m; frame_seq := frame_seq m; mjpeg_retired_captures := x;
     capture_viewers := capture_viewers m; mjpeg_sessions := mjpeg_sessions m;
     mjpeg_active_capture := mjpeg_active_capture m |}.
Definition set_viewers (m : LiveMedia) (x : gmap Uuid Z) : LiveMedia :=
  {| frames := frames m; frame_seq := frame_seq m; mjpeg_retired_captures := mjpeg_retired_captures m;
     capture_viewers := x; mjpeg_sessions := mjpeg_sessions m; mjpeg_active_capture := mjpeg_active_capture m |}.
Definition set_sessions (m : LiveMedia) (x : gmap Uuid MjpegSession) : LiveMedia :=
  {| frames := frames m; frame_seq := frame_seq m; mjpeg_retired_captures := mjpeg_retired_captures m;
     capture_viewers := capture_viewers m; mjpeg_sessions := x; mjpeg_active_capture := mjpeg_active_capture m |}.
Definition set_active (m : LiveMedia) (x : gmap Uuid ActiveCapture) : LiveMedia :=
  {| frames := frames m; frame_seq := frame_seq m; mjpeg_retired_captures := mjpeg_retired_captures m;
     capture_viewers := capture_viewers m; mjpeg_sessions := mjpeg_sessions m; mjpeg_active_capture := x |}.

Definition MAX_CACHED_FRAMES : nat := 16.

(** [min_by_key(|(_, f)| f.last_update)]: the first of the least recently updated. *)
Fixpoint oldest_frame (l : list (Uuid * Frame)) : option (Uuid * Frame) :=
  match l with
  | [] => None
  | kf :: l =>
      match oldest_frame l with
      | Some best => if last_update best.2 <? last_update kf.2 then Some best else Some kf
      | None => Some kf
      end
  end.

(** Room for a new agent's frame. *)
Definition evict_oldest (m : LiveMedia) (agent_id : Uuid) : gmap Uuid Frame :=
  if negb (isSome (frames m !! agent_id)) && (MAX_CACHED_FRAMES <=? size (frames m))%nat then
    match oldest_frame (map_to_list (frames m)) with
    | Some kf => delete kf.1 (frames m)
    | None => frames m
    end
  else frames m.
(** [LiveMedia::store_frame], at [now]. *)
Definition store_frame (m : LiveMedia) (agent_id : Uuid) (data : list Z) (now : Instant) : LiveMedia :=
  {| frames := <[agent_id := {| seq := frame_seq m; jpeg := data; last_update := now |}]> (evict_oldest m agent_id);
     frame_seq := frame_seq m + 1; mjpeg_retired_captures := mjpeg_retired_captures m;
     capture_viewers := capture_viewers m; mjpeg_sessions := mjpeg_sessions m;
     mjpeg_active_capture := mjpeg_active_capture m |}.

(** [clamp_mjpeg_viewer_prefs] ([server/src/control/live_media.rs]). *)
Definition clamp_mjpeg_viewer_prefs (jpeg_q interval mon : option Z) : MjpegViewerPrefs :=
  {| jpeg_quality := clampZ 20 85 (default 40 jpeg_q); interval_ms := clampZ 33 1000 (default 200 interval);
     monitor := mon |}.

(** ** Control runtime *)

(** A clipboard request in flight. [pc_waiting] is whether its reply sender is still there. *)
Record PendingClipboard := {
  pc_agent : Uuid;
  pc_owner : LeaseOwner;
  pc_token : Uuid;
  pc_deadline : Instant;
  pc_fence : json;
  pc_waiting : bool
}.

(** The in-flight audit semaphore is its number of free permits. *)
Record ControlRuntime := {
  sessions : ControlSessions;
  clipboard : gmap Uuid PendingClipboard;
  capture : gmap Uuid FrozenCapture;
  audit_seen : gmap (Uuid * Uuid * string * bool) Instant;
  audit_inflight : nat
}.
Definition ControlRuntime_default : ControlRuntime :=
  {| sessions := ControlSessions_default; clipboard := ∅; capture := ∅; audit_seen := ∅; audit_inflight := 64 |}.

Definition with_sessions (c : ControlRuntime) (s : ControlSessions) : ControlRuntime :=
  {| sessions := s; clipboard := clipboard c; capture := capture c; audit_seen := audit_seen c;
     audit_inflight := audit_inflight c |}.
Definition with_clipboard (c : ControlRuntime) (x : gmap Uuid PendingClipboard) : ControlRuntime :=
  {| sessions := sessions c; clipboard := x; capture := capture c; audit_seen := audit_seen c;
     audit_inflight := audit_inflight c |}.
Definition with_capture (c : ControlRuntime) (x : gmap Uuid FrozenCapture) : ControlRuntime :=
  {| sessions := sessions c; clipboard := clipboard c; capture := x; audit_seen := audit_seen c;
     audit_inflight := audit_inflight c |}.
Definition with_audit (c : ControlRuntime) (x : gmap (Uuid * Uuid * string * bool) Instant) (n : nat) : ControlRuntime :=
  {| sessions := sessions c; clipboard := clipboard c; capture := capture c; audit_seen := x; audit_inflight := n |}.

(** ** Application state *)

(** A dashboard broadcast, as the event value it prints. *)
Inductive Broadcast : Type :=
| BText (event : json)
| BPrivateText (viewer : Uuid) (event : json).

Record AppState := {
  agents : AgentRegistry;
  control : ControlRuntime;
  media : LiveMedia;
  tx : list Broadcast
}.
Definition AppState_new : AppState :=
  {| agents := AgentRegistry_default; control := ControlRuntime_default; media := LiveMedia_default; tx := [] |}.

Definition with_agents (st : AppState) (r : AgentRegistry) : AppState :=
  {| agents := r; control := control st; media := media st; tx := tx st |}.
Definition with_control (st : AppState) (c : ControlRuntime) : AppState :=
  {| agents := agents st; control := c; media := media st; tx := tx st |}.
Definition with_media (st : AppState) (m : LiveMedia) : AppState :=
  {| agents := agents st; control := control st; media := m; tx := tx st |}.
Definition broadcast (st : AppState) (b : Broadcast) : AppState :=
  {| agents := agents st; control := control st; media := media st; tx := tx st ++ [b] |}.

(** A signed-in dashboard user ([AuthUser], the fields the control paths read). *)
Record AuthUser := { u_user_id : Uuid; u_username : string; u_role : string }.
Definition is_admin (u : AuthUser) : bool := String.eqb (u_role u) "admin".
Definition is_operator (u : AuthUser) : bool := String.eqb (u_role u) "operator" || String.eqb (u_role u) "admin".

(** ** The frame cache is bounded *)

Lemma oldest_frame_Some l k f : oldest_frame l = Some (k, f) -> (k, f) ∈ l /\ forall x, x ∈ l -> last_update f <= last_update x.2.
Proof.
  revert k f. induction l as [|[k' f'] l IH]; intros k f; [done|]. cbn [oldest_frame].
  destruct (oldest_frame l) as [[k1 f1]|] eqn:E.
  - destruct (IH k1 f1 eq_refl) as [Hin Hmin]. cbn [snd]. destruct (last_update f1 <? last_update f') eqn:Hlt; bool_prop; intros [= <- <-].
    + split; [by right|]. intros x [->|Hx]%elem_of_cons; [simpl; lia|by apply Hmin].
    + split; [left|]. intros x [->|Hx]%elem_of_cons; [simpl; lia|]. specialize (Hmin x Hx). lia.
  - intros [= <- <-]. split; [left|]. intros x [->|Hx]%elem_of_cons; [done|]. destruct l; [by apply not_elem_of_nil in Hx|].
    simpl in E. destruct (oldest_frame l); [by case_match|done].
Qed.

Lemma oldest_frame_nonempty l : l <> [] -> exists k f, oldest_frame l = Some (k, f).
Proof.
  destruct l as [|[k f] l]; [done|]. intros _. simpl. destruct (oldest_frame l) as [[k1 f1]|]; [|eauto]. case_match; eauto.
Qed.

(** The frames a run of [store_frame] leaves: each call at its time. *)
Definition store_frames (m : LiveMedia) (calls : list (Uuid * list Z * Instant)) : LiveMedia :=
  foldl (fun m c => store_frame m c.1.1 c.1.2 c.2) m calls.
Definition cache_ok (m : LiveMedia) : Prop :=
  (size (frames m) <= MAX_CACHED_FRAMES)%nat /\ (forall a f, frames m !! a = Some f -> seq f < frame_seq m)
  /\ forall a b f g, frames m !! a = Some f -> frames m !! b = Some g -> seq f = seq g -> a = b.

Lemma store_frame_ok m a data now : cache_ok m -> cache_ok (store_frame m a data now).
Proof.
  intros (Hs & Hq & Hu). unfold store_frame. set (fs := evict_oldest m a).
  assert (fs ⊆ frames m) as Hsub.
  { subst fs. unfold evict_oldest. case_match; [|done]. case_match; [|done]. apply delete_subseteq. }
  assert (size (delete a fs) < MAX_CACHED_FRAMES)%nat as Hsize.
  { subst fs. unfold evict_oldest, MAX_CACHED_FRAMES in *. destruct (frames m !! a) as [f|] eqn:Ha; cbn [isSome negb andb].
    - rewrite map_size_delete_Some by eauto.
      assert (size (frames m) <> 0)%nat by (intros E%map_size_empty_inv; by rewrite E in Ha). lia.
    - destruct (Nat.leb_spec 16 (size (frames m))) as [Hle|Hlt].
      + destruct (oldest_frame_nonempty (map_to_list (frames m))) as (k & f & Hk).
        { intros E%map_to_list_empty_iff. rewrite E, map_size_empty in Hle. lia. }
        rewrite Hk. apply oldest_frame_Some in Hk as [Hin%elem_of_map_to_list _]. cbn [fst].
        assert (k <> a) as Hne by congruence.
        assert (delete k (frames m) !! a = None) as Hn by (by rewrite lookup_delete_ne).
        rewrite (map_size_delete_None _ _ Hn), map_size_delete_Some by eauto. lia.
      + rewrite map_size_delete_None by done. lia. }
  split_and!; simpl.
  - rewrite <- insert_delete_eq, map_size_insert_None by apply lookup_delete_eq. lia.
  - intros b f. rewrite lookup_insert_Some. intros [[<- <-]|[? Hb]]; [simpl; lia|]. specialize (Hq b f (lookup_weaken _ _ _ _ Hb Hsub)). lia.
  - intros b c f g. rewrite !lookup_insert_Some.
    intros [[<- <-]|[? Hb]] [[<- <-]|[? Hc]]; simpl; try done.
    + specialize (Hq c g (lookup_weaken _ _ _ _ Hc Hsub)). lia.
    + specialize (Hq b f (lookup_weaken _ _ _ _ Hb Hsub)). lia.
    + apply Hu; by eapply lookup_weaken.
Qed.

(** The frame cache stays bounded and its sequence numbers identify frames: after any run
    of [store_frame] at most 16 agents have a cached frame, the last stored frame is always
    present, no two cached frames share a sequence number, and when a new agent evicts one the
    evicted frame is a least recently updated one. *)
Theorem store_frame_bounded calls a data now :
  let m := store_frames LiveMedia_default calls in
  let m' := store_frame m a data now in
  cache_ok m'
  /\ frames m' !! a = Some {| seq := frame_seq m; jpeg := data; last_update := now |}
  /\ (forall b f, b <> a -> frames m !! b = Some f -> frames m' !! b = None ->
      frames m !! a = None /\ size (frames m) = 16%nat
      /\ forall c g, frames m !! c = Some g -> last_update f <= last_update g).
Proof.
  cbv zeta. set (m := store_frames _ _). assert (cache_ok m) as Hok.
  { subst m. unfold store_frames. generalize (eq_refl : LiveMedia_default = LiveMedia_default).
    assert (cache_ok LiveMedia_default) as H0. { split_and!; simpl; [by vm_compute; lia|done|done]. }
    intros _. revert H0. generalize LiveMedia_default. induction calls as [|c calls IH]; intros m0 H0; [done|].
    cbn [foldl]. apply IH. by apply store_frame_ok. }
  split_and!; [by apply store_frame_ok|simpl; by rewrite lookup_insert_eq|].
  intros b f Hne Hb Hb'. unfold store_frame, evict_oldest in Hb'. cbn [frames] in Hb'. rewrite lookup_insert_ne in Hb' by done.
  destruct (frames m !! a) eqn:Ha; cbn [isSome negb andb] in Hb'; [congruence|].
  destruct (Nat.leb_spec MAX_CACHED_FRAMES (size (frames m))) as [Hle|Hlt]; [|congruence].
  destruct Hok as [Hs _]. unfold MAX_CACHED_FRAMES in *. split; [done|]. split; [lia|].
  destruct (oldest_frame _) as [[k f0]|] eqn:Hk; [|congruence]. cbn [fst] in Hb'.
  destruct (decide (b = k)) as [->|Hnk]; [|rewrite lookup_delete_ne in Hb' by done; congruence].
  apply oldest_frame_Some in Hk as [Hin%elem_of_map_to_list Hmin]. simplify_eq.
  intros c g Hc. apply (Hmin (c, g)). by apply elem_of_map_to_list.
Qed.
