(* ===== verification/Runtime.v ===== *)
(** Delivery of lease teardowns and the audit throttle: the parts of
    [server/src/control/runtime.rs] that run under the [control] mutex and do not read captures,
    with the proof that a teardown reaches exactly the connection it belongs to. *)
From S2P Require Import Prelude Json Protocol Sessions Modules Registry Geometry State.

(** [lease_error]. *)
Definition lease_error (e : LeaseError) : CommandDenied :=
  denied (match e with
          | Conflict _ => "control_conflict"
          | Missing => "control_lease_required"
          | Expired => "control_lease_expired"
          | Mismatch => "control_lease_mismatch"
          | InvalidHeldInput => "invalid_command"
          end) (Some RemoteInput).

(** The inner loop of [deliver_control_cleanup]: queue the releases of one batch on the agent's
    sender, and shut the connection down at the first refusal. *)
Fixpoint queue_cleanup (r : AgentRegistry) (channel : option Uuid) (conn : Uuid) (commands : list json)
    : AgentRegistry * bool :=
  match commands with
  | [] => (r, true)
  | command :: commands =>
      match channel ≫= fun ch => try_send r ch (CInputCleanup conn command) with
      | Some r' => queue_cleanup r' channel conn commands
      | None => (send_shutdown r conn "", false)
      end
  end.

Section runtime.
Context `{UuidText}.

(** The private notification of a revoked or expired lease. *)
Definition teardown_event (b : LeaseCleanup) : json :=
  mk_obj [("event", JStr "control_lease"); ("agent_id", uuid_json (c_agent_id b)); ("status", JStr "revoked");
          ("lease_token", uuid_json (c_token b)); ("expires_in_ms", JInt 0);
          ("code", JStr (match c_reason b with RExpired => "control_lease_expired" | _ => "control_lease_revoked" end))]%string.

(** One iteration of [deliver_control_cleanup]. *)
Definition deliver_batch (st : AppState) (b : LeaseCleanup) : AppState * bool :=
  let st := with_control st (with_capture (control st) (delete (c_agent_id b) (capture (control st)))) in
  let '(r, ok) :=
    match ofilter (fun c => bool_decide (conn_id c = agent_connection_id (c_owner b))) (connections (agents st) !! c_agent_id b) with
    | Some connection => queue_cleanup (agents st) (cmds (agents st) !! c_agent_id b) (conn_id connection) (c_commands b)
    | None => (agents st, true)
    end in
  let st := with_agents st r in
  (match c_reason b with
   | RReleased => st
   | _ => broadcast st (BPrivateText (viewer_connection_id (c_owner b)) (teardown_event b))
   end, ok).

Fixpoint deliver_control_cleanup (st : AppState) (batches : list LeaseCleanup) : AppState * bool :=
  match batches with
  | [] => (st, true)
  | b :: batches =>
      let '(st1, ok1) := deliver_batch st b in
      let '(st2, ok2) := deliver_control_cleanup st1 batches in
      (st2, ok1 && ok2)
  end.

(** Applies a session transition and delivers its cleanup. *)
Definition commit_sessions (st : AppState) (t : ControlSessions * list LeaseCleanup) : AppState * bool :=
  deliver_control_cleanup (with_control st (with_sessions (control st) t.1)) t.2.

Definition control_cleanup_deliverable (st : AppState) (agent_id socket cleanup_socket : Uuid) (command : json) : bool :=
  if negb (bool_decide (socket = cleanup_socket))
     || negb (is_some_and (open_conn (agents st) agent_id) (fun c => bool_decide (conn_id c = socket)))
  then false
  else is_cleanup_command command.

Definition current_control_owner (st : AppState) (agent_id viewer : Uuid) (user : AuthUser)
    : result LeaseOwner CommandDenied :=
  if negb (is_operator user) then Err (denied "permission_denied" (Some RemoteInput)) else
  let* connection := ok_or (open_conn (agents st) agent_id) (denied "agent_offline" None) in
  Ok {| viewer_connection_id := viewer; user_id := u_user_id user; agent_connection_id := conn_id connection |}.

Definition revoke_viewer_control (st : AppState) (viewer : Uuid) : AppState :=
  (commit_sessions st (revoke_viewer (sessions (control st)) viewer)).1.
Definition revoke_agent_control_locked (st : AppState) (id conn : Uuid) : AppState :=
  (commit_sessions st (revoke_agent (sessions (control st)) id conn)).1.
Definition expire_control (st : AppState) (now : Instant) : AppState :=
  (commit_sessions st (expire (sessions (control st)) now)).1.

(** [audit_control_event]: whether this event is written, at [now]. A written event holds one
    of the 64 permits until its insert ends. *)
Definition audit_key (user : AuthUser) (agent : Uuid) (action : string) (rejected : bool) : Uuid * Uuid * string * bool :=
  (u_user_id user, agent, action, rejected).
Definition audit_fresh (now at_ : Instant) : bool := as_secs (saturating_since now at_) <? 2.
Definition audit_control_event (c : ControlRuntime) (user : AuthUser) (agent : Uuid) (action : string) (rejected : bool)
    (now : Instant) : ControlRuntime * bool :=
  match audit_inflight c with
  | O => (c, false)
  | S permits =>
      let full := 4096 <=? map_len (audit_seen c) in
      let seen := if full then filter (fun kv => audit_fresh now kv.2 = true) (audit_seen c) else audit_seen c in
      if full && (4096 <=? map_len seen) then (with_audit c seen (audit_inflight c), false)
      else
        let key := audit_key user agent action rejected in
        if is_some_and (seen !! key) (audit_fresh now) then (with_audit c seen (audit_inflight c), false)
        else (with_audit c (<[key := now]> seen) permits, true)
  end.
(** The spawned insert ends and drops its permit. *)
Definition audit_done (c : ControlRuntime) : ControlRuntime := with_audit c (audit_seen c) (S (audit_inflight c)).

End runtime.

(** ** Delivery: lemmas *)

(** Every connected agent's queue sender is its connection's own. *)
Definition wired (r : AgentRegistry) : Prop :=
  forall a c, connections r !! a = Some c -> cmds r !! a = Some (conn_id c) /\ is_Some (sockets r !! conn_id c).

(** A socket after [msgs] were offered to it in order: what fits is queued, and a message that
    does not fit shuts it down. *)
Definition free_slots (s : Socket) : nat := (AGENT_CMD_CHANNEL_CAPACITY - length (queue s))%nat.
Definition offered (s : Socket) (msgs : list AgentControl) : Socket :=
  {| shutdown := if (length msgs <=? free_slots s)%nat then shutdown s else Some ""%string;
     queue := queue s ++ take (free_slots s) msgs |}.

Lemma offered_nil s : offered s [] = s.
Proof. destruct s. unfold offered. simpl. by rewrite take_nil, app_nil_r. Qed.

Lemma offered_app s m1 m2 : offered (offered s m1) m2 = offered s (m1 ++ m2).
Proof.
  unfold offered, free_slots. simpl. rewrite length_app, length_take, length_app.
  destruct (Nat.leb_spec (length m1) (AGENT_CMD_CHANNEL_CAPACITY - length (queue s))) as [H1|H1].
  - rewrite take_app_ge by done. rewrite (take_ge m1) by done. rewrite <- app_assoc. f_equal.
    + destruct (Nat.leb_spec (length m2) (AGENT_CMD_CHANNEL_CAPACITY - (length (queue s) + (AGENT_CMD_CHANNEL_CAPACITY - length (queue s)) `min` length m1)));
        destruct (Nat.leb_spec (length m1 + length m2) (AGENT_CMD_CHANNEL_CAPACITY - length (queue s))); try done; lia.
    + do 3 f_equal. lia.
  - replace (AGENT_CMD_CHANNEL_CAPACITY - (length (queue s) + (AGENT_CMD_CHANNEL_CAPACITY - length (queue s)) `min` length m1))%nat with 0%nat by lia.
    rewrite take_0, app_nil_r. rewrite (take_app_le m1) by lia. f_equal.
    destruct (Nat.leb_spec (length m1 + length m2) (AGENT_CMD_CHANNEL_CAPACITY - length (queue s))); [lia|by case_match].
Qed.

Lemma with_sockets_twice r x y : with_sockets (with_sockets r x) y = with_sockets r y.
Proof. done. Qed.

Lemma queue_cleanup_spec r ch s commands :
  sockets r !! ch = Some s ->
  queue_cleanup r (Some ch) ch commands =
    (with_sockets r (<[ch := offered s (CInputCleanup ch <$> commands)]> (sockets r)),
     (length commands <=? free_slots s)%nat).
Proof.
  revert r s. induction commands as [|c commands IH]; intros r s Hs; cbn [queue_cleanup fmap list_fmap].
  - rewrite offered_nil, insert_id by done. by destruct r.
  - unfold try_send. cbn [mbind option_bind]. rewrite Hs.
    destruct (Nat.ltb_spec (length (queue s)) AGENT_CMD_CHANNEL_CAPACITY) as [Hlt|Hge].
    + rewrite (IH _ {| shutdown := shutdown s; queue := queue s ++ [CInputCleanup ch c] |}) by (simpl; by rewrite lookup_insert_eq).
      assert (offered s [CInputCleanup ch c] = {| shutdown := shutdown s; queue := queue s ++ [CInputCleanup ch c] |}) as <-.
      { unfold offered. rewrite take_ge by (unfold free_slots; simpl; lia). destruct (Nat.leb_spec (length [CInputCleanup ch c]) (free_slots s)) as [_|Hx]; [done|].
        unfold free_slots in Hx. simpl in Hx. lia. }
      rewrite offered_app. cbn [app]. cbn [sockets with_sockets]. rewrite insert_insert_eq, with_sockets_twice. f_equal.
      unfold offered, free_slots. cbn [queue]. rewrite length_app, length_take. cbn [length].
      destruct (Nat.leb_spec (length commands) (AGENT_CMD_CHANNEL_CAPACITY - (length (queue s) + (AGENT_CMD_CHANNEL_CAPACITY - length (queue s)) `min` 1)));
        destruct (Nat.leb_spec (S (length commands)) (AGENT_CMD_CHANNEL_CAPACITY - length (queue s))); try done; lia.
    + unfold send_shutdown. rewrite Hs. assert (free_slots s = 0%nat) as E by (unfold free_slots; lia).
      unfold offered. rewrite E. cbn [length Nat.leb take]. by rewrite app_nil_r.
Qed.

(** The releases of a batch, addressed to the connection it was held on. *)
Definition releases_to (r : AgentRegistry) (ch : Uuid) (b : LeaseCleanup) : list AgentControl :=
  if is_some_and (connections r !! c_agent_id b)
       (fun c => bool_decide (conn_id c = agent_connection_id (c_owner b)) && bool_decide (conn_id c = ch))
  then CInputCleanup ch <$> c_commands b else [].
Definition all_releases (r : AgentRegistry) (ch : Uuid) (bs : list LeaseCleanup) : list AgentControl :=
  bs ≫= releases_to r ch.
Definition notices `{UuidText} (bs : list LeaseCleanup) : list Broadcast :=
  omap (fun b => match c_reason b with
                 | RReleased => None
                 | _ => Some (BPrivateText (viewer_connection_id (c_owner b)) (teardown_event b))
                 end) bs.

(** What delivery leaves alone. *)
Definition same_but_sockets (r r' : AgentRegistry) : Prop :=
  connections r' = connections r /\ cmds r' = cmds r /\ modules r' = modules r /\ live r' = live r.

Section delivery.
Context `{UuidText}.

Record delivered (st st' : AppState) (bs : list LeaseCleanup) (safe : bool) : Prop := {
  del_agents : same_but_sockets (agents st) (agents st');
  del_sockets : forall ch, sockets (agents st') !! ch
      = (fun s => offered s (all_releases (agents st) ch bs)) <$> sockets (agents st) !! ch;
  del_safe : safe = true <-> forall ch s, sockets (agents st) !! ch = Some s ->
      (length (all_releases (agents st) ch bs) <= free_slots s)%nat;
  del_media : media st' = media st;
  del_control : control st' = with_capture (control st) (foldr (fun b m => delete (c_agent_id b) m) (capture (control st)) (reverse bs));
  del_tx : tx st' = tx st ++ notices bs
}.

Lemma releases_to_other r ch b :
  (forall c, connections r !! c_agent_id b = Some c -> conn_id c = agent_connection_id (c_owner b) -> conn_id c <> ch) ->
  releases_to r ch b = [].
Proof.
  intros Hn. unfold releases_to. destruct (is_some_and _ _) eqn:E; [|done].
  apply is_some_and_true in E as (c & Hc & Hb). bool_prop. by destruct (Hn c Hc).
Qed.

Lemma deliver_batch_delivered st b st' ok :
  wired (agents st) -> deliver_batch st b = (st', ok) -> delivered st st' [b] ok.
Proof.
  intros Hw Hd. unfold deliver_batch in Hd.
  set (st0 := with_control st (with_capture (control st) (delete (c_agent_id b) (capture (control st))))) in Hd.
  assert (exists r, same_but_sockets (agents st) r
    /\ (forall ch, sockets r !! ch = (fun s => offered s (releases_to (agents st) ch b)) <$> sockets (agents st) !! ch)
    /\ (ok = true <-> forall ch s, sockets (agents st) !! ch = Some s -> (length (releases_to (agents st) ch b) <= free_slots s)%nat)
    /\ st' = match c_reason b with
             | RReleased => with_agents st0 r
             | _ => broadcast (with_agents st0 r) (BPrivateText (viewer_connection_id (c_owner b)) (teardown_event b))
             end) as (r & Hsame & Hsock & Hok & ->).
  { destruct (ofilter _ _) as [c|] eqn:Hc.
    - apply ofilter_Some in Hc as [Hc Hid]. bool_prop. destruct (Hw _ _ Hc) as [Hcmd [s Hs]].
      change (agents st0) with (agents st) in *. rewrite Hcmd, (queue_cleanup_spec _ _ _ _ Hs) in Hd. simplify_eq.
      assert (releases_to (agents st) (conn_id c) b = CInputCleanup (conn_id c) <$> c_commands b) as Hrel.
      { unfold releases_to. rewrite Hc. cbn [is_some_and]. by rewrite !bool_decide_eq_true_2. }
      assert (forall ch, ch <> conn_id c -> releases_to (agents st) ch b = []) as Hoth.
      { intros ch Hne. apply releases_to_other. intros c' Hc' _. rewrite Hc in Hc'. by simplify_eq. }
      exists (with_sockets (agents st) (<[conn_id c := offered s (CInputCleanup (conn_id c) <$> c_commands b)]> (sockets (agents st)))).
      split_and!; [done| | |done].
      + intros ch. cbn [sockets with_sockets]. destruct (decide (ch = conn_id c)) as [->|Hne].
        * by rewrite lookup_insert_eq, Hs, Hrel.
        * rewrite lookup_insert_ne, Hoth by congruence. destruct (sockets (agents st) !! ch); [|done]. simpl. by rewrite offered_nil.
      + rewrite Nat.leb_le. split.
        * intros Hle ch s' Hs'. destruct (decide (ch = conn_id c)) as [->|Hne]; [|rewrite Hoth by done; simpl; lia].
          rewrite Hs in Hs'. simplify_eq. by rewrite Hrel, length_fmap.
        * intros Hall. specialize (Hall _ _ Hs). by rewrite Hrel, length_fmap in Hall.
    - simplify_eq. assert (forall ch, releases_to (agents st) ch b = []) as Hoth.
      { intros ch. apply releases_to_other. intros c' Hc' Hid. exfalso.
        assert (ofilter (fun c => bool_decide (conn_id c = agent_connection_id (c_owner b))) (connections (agents st0) !! c_agent_id b) = Some c') as E; [|congruence].
        apply ofilter_Some. split; [done|by apply bool_decide_eq_true]. }
      exists (agents st). split_and!; [done| | |done].
      + intros ch. rewrite Hoth. destruct (sockets (agents st) !! ch); [|done]. simpl. by rewrite offered_nil.
      + split; [|done]. intros _ ch s _. rewrite Hoth. simpl. lia. }
  assert (forall ch, all_releases (agents st) ch [b] = releases_to (agents st) ch b) as Hone.
  { intros ch. unfold all_releases. simpl. by rewrite app_nil_r. }
  split.
  - by destruct (c_reason b).
  - intros ch. rewrite Hone, <- Hsock. by destruct (c_reason b).
  - by setoid_rewrite Hone.
  - by destruct (c_reason b).
  - by destruct (c_reason b).
  - unfold notices. cbn [omap list_omap]. destruct (c_reason b); simpl; by rewrite ?app_nil_r.
Qed.

Lemma delivered_wired st st' bs ok : wired (agents st) -> delivered st st' bs ok -> wired (agents st').
Proof.
  intros Hw [(Hc & Hm & _) Hs _ _ _ _] a c Ha. rewrite Hc in Ha. destruct (Hw a c Ha) as [Hcmd [s Hsk]].
  rewrite Hm, Hs, Hsk. split; [done|]. by eexists.
Qed.

Lemma all_releases_same r r' ch bs : connections r' = connections r -> all_releases r' ch bs = all_releases r ch bs.
Proof. intros E. unfold all_releases, releases_to. by rewrite E. Qed.

Lemma delivered_trans st st1 st2 b1 b2 ok1 ok2 :
  delivered st st1 b1 ok1 -> delivered st1 st2 b2 ok2 -> delivered st st2 (b1 ++ b2) (ok1 && ok2).
Proof.
  intros [(H1a & H1b & H1c & H1d) H1s H1k H1m H1l H1t] [(H2a & H2b & H2c & H2d) H2s H2k H2m H2l H2t].
  assert (forall ch, all_releases (agents st) ch (b1 ++ b2) = all_releases (agents st) ch b1 ++ all_releases (agents st1) ch b2) as Happ.
  { intros ch. rewrite (all_releases_same (agents st) (agents st1)) by done. unfold all_releases. by rewrite bind_app. }
  split.
  - split_and!; congruence.
  - intros ch. rewrite H2s, H1s, Happ. destruct (sockets (agents st) !! ch); [|done]. simpl. by rewrite offered_app.
  - rewrite andb_true_iff, H1k, H2k. setoid_rewrite Happ. setoid_rewrite length_app. split.
    + intros [Ha Hb] ch s Hs. specialize (Ha ch s Hs). specialize (Hb ch (offered s (all_releases (agents st) ch b1))).
      rewrite H1s, Hs in Hb. specialize (Hb eq_refl). unfold offered, free_slots in Hb, Ha. cbn [queue] in Hb.
      rewrite length_app, length_take in Hb. unfold free_slots. lia.
    + intros Hall. split.
      * intros ch s Hs. specialize (Hall ch s Hs). lia.
      * intros ch s1 Hs1. rewrite H1s in Hs1. destruct (sockets (agents st) !! ch) as [s|] eqn:Hs; [|done]. simpl in Hs1. simplify_eq.
        specialize (Hall ch s Hs). unfold offered, free_slots in *. cbn [queue]. rewrite length_app, length_take. lia.
  - congruence.
  - rewrite H2l, H1l. unfold with_capture. cbn. rewrite reverse_app, foldr_app. done.
  - rewrite H2t, H1t. unfold notices. rewrite omap_app. by rewrite app_assoc.
Qed.

Lemma deliver_delivered st bs st' safe :
  wired (agents st) -> deliver_control_cleanup st bs = (st', safe) -> delivered st st' bs safe.
Proof.
  revert st st' safe. induction bs as [|b bs IH]; intros st st' safe Hw; cbn [deliver_control_cleanup].
  - intros [= <- <-]. split; try done.
    + intros ch. destruct (sockets (agents st) !! ch); [|done]. simpl. by rewrite offered_nil.
    + split; [|done]. intros _ ch s _. simpl. lia.
    + by destruct st as [? [] ? ?].
    + by rewrite app_nil_r.
  - destruct (deliver_batch st b) as [st1 ok1] eqn:H1. destruct (deliver_control_cleanup st1 bs) as [st2 ok2] eqn:H2.
    intros [= <- <-]. pose proof (deliver_batch_delivered _ _ _ _ Hw H1) as Hd.
    change (b :: bs) with ([b] ++ bs). eapply delivered_trans; [done|]. apply IH; [|done]. by eapply delivered_wired.
Qed.

End delivery.

Lemma same_but_sockets_trans r1 r2 r3 : same_but_sockets r1 r2 -> same_but_sockets r2 r3 -> same_but_sockets r1 r3.
Proof. intros (? & ? & ? & ?) (? & ? & ? & ?). split_and!; congruence. Qed.

Lemma try_send_same r ch msg r' : try_send r ch msg = Some r' -> same_but_sockets r r'.
Proof. intros (s & _ & _ & ->)%try_send_Some. done. Qed.

Lemma send_shutdown_same r ch reason : same_but_sockets r (send_shutdown r ch reason).
Proof. unfold send_shutdown. by case_match. Qed.

Lemma queue_cleanup_same r ch conn commands : same_but_sockets r (queue_cleanup r ch conn commands).1.
Proof.
  revert r. induction commands as [|c commands IH]; intros r; cbn [queue_cleanup]; [done|].
  destruct (ch ≫= _) as [r'|] eqn:Hs; [|apply send_shutdown_same].
  apply bind_Some in Hs as (ch' & _ & Hs%try_send_same). by eapply same_but_sockets_trans.
Qed.

(** What delivery keeps, whether or not the registry is wired. *)
Definition delivery_keeps (st st' : AppState) : Prop :=
  media st' = media st /\ same_but_sockets (agents st) (agents st') /\ sessions (control st') = sessions (control st)
  /\ clipboard (control st') = clipboard (control st) /\ audit_seen (control st') = audit_seen (control st)
  /\ audit_inflight (control st') = audit_inflight (control st).

Lemma deliver_keeps `{UuidText} st bs : delivery_keeps st (deliver_control_cleanup st bs).1.
Proof.
  revert st. induction bs as [|b bs IH]; intros st; cbn [deliver_control_cleanup]; [done|].
  destruct (deliver_batch st b) as [st1 ok1] eqn:H1. specialize (IH st1).
  destruct (deliver_control_cleanup st1 bs) as [st2 ok2]. cbn [fst] in *.
  assert (delivery_keeps st st1) as (E1 & E2 & E3 & E4 & E5 & E6).
  { unfold deliver_batch in H1. destruct (ofilter _ _) as [c|].
    - pose proof (queue_cleanup_same (agents st) (cmds (agents st) !! c_agent_id b) (conn_id c) (c_commands b)) as Hq.
      cbn [agents with_control] in H1. destruct (queue_cleanup _ _ _ _) as [r ok]. simplify_eq. by destruct (c_reason b).
    - simplify_eq. by destruct (c_reason b). }
  destruct IH as (F1 & F2 & F3 & F4 & F5 & F6). split_and!; try congruence; try by eapply same_but_sockets_trans.
Qed.

Lemma commit_sessions_keeps `{UuidText} st t :
  let st' := (commit_sessions st t).1 in
  media st' = media st /\ same_but_sockets (agents st) (agents st') /\ sessions (control st') = t.1
  /\ clipboard (control st') = clipboard (control st).
Proof.
  cbv zeta. unfold commit_sessions.
  destruct (deliver_keeps (with_control st (with_sessions (control st) t.1)) t.2) as (E1 & E2 & E3 & E4 & _).
  by split_and!.
Qed.

(** ** The audit throttle: lemmas *)

Inductive AuditOp : Type :=
| AEvent (user : AuthUser) (agent : Uuid) (action : string) (rejected : bool) (now : Instant)
| ADone.
(** The runtime after a run of audit calls, and the keys of the rows written. *)
Fixpoint audit_run (c : ControlRuntime) (ops : list AuditOp) : ControlRuntime * list (Uuid * Uuid * string * bool) :=
  match ops with
  | [] => (c, [])
  | AEvent u a act rej now :: ops =>
      let '(c1, written) := audit_control_event c u a act rej now in
      let '(c2, ks) := audit_run c1 ops in
      (c2, (if written then [audit_key u a act rej] else []) ++ ks)
  | ADone :: ops => audit_run (audit_done c) ops
  end.
Definition audit_op_in (lo hi : Instant) (op : AuditOp) : Prop :=
  match op with AEvent _ _ _ _ now => lo <= now < hi | ADone => True end.

Lemma audit_fresh_spec now at_ : audit_fresh now at_ = true <-> now < at_ + secs 2.
Proof.
  unfold audit_fresh, as_secs, saturating_since, secs. rewrite Z.ltb_lt. split.
  - intros Hq. destruct (Z_lt_ge_dec now (at_ + 2 * 1000000000)) as [|Hge]; [done|]. exfalso.
    assert (2 <= Z.max 0 (now - at_) / 1000000000); [|lia]. apply Z.div_le_lower_bound; lia.
  - intros Hlt. apply Z.div_lt_upper_bound; lia.
Qed.

(** One call, from a table whose entry for [k], if written since [lo], is still there. *)
Lemma audit_event_step c u a act rej now c' w lo :
  audit_control_event c u a act rej now = (c', w) -> lo <= now < lo + secs 2 ->
  map_len (audit_seen c) <= 4096 ->
  map_len (audit_seen c') <= 4096
  /\ (audit_inflight c' + (if w then 1 else 0) = audit_inflight c)%nat
  /\ (forall k t, audit_seen c !! k = Some t -> lo <= t -> exists t', audit_seen c' !! k = Some t' /\ lo <= t')
  /\ (w = true -> audit_seen c' !! audit_key u a act rej = Some now
      /\ forall t, audit_seen c !! audit_key u a act rej = Some t -> t < lo).
Proof.
  unfold audit_control_event, map_len in *. intros He Hnow Hsize.
  destruct (audit_inflight c) as [|permits] eqn:Hp; [simplify_eq; split_and!; try done; [lia|eauto]|].
  set (full := 4096 <=? Z.of_nat (size (audit_seen c))) in *. cbv zeta in He.
  set (seen := if full then filter (fun kv => audit_fresh now kv.2 = true) (audit_seen c) else audit_seen c) in *.
  assert (seen ⊆ audit_seen c) as Hsub by (subst seen; destruct full; [apply map_filter_subseteq|done]).
  pose proof (map_subseteq_size _ _ Hsub) as Hs.
  assert (forall k t, audit_seen c !! k = Some t -> lo <= t -> seen !! k = Some t) as Hkeep.
  { intros k t Hk Ht. subst seen. destruct full; [|done]. apply map_lookup_filter_Some. split; [done|].
    apply audit_fresh_spec. simpl. lia. }
  destruct (full && (4096 <=? Z.of_nat (size seen))) eqn:Hfull.
  { simplify_eq. simpl. split_and!; [lia|lia|eauto|done]. }
  destruct (is_some_and _ _) eqn:Hk; simplify_eq; simpl.
  { split_and!; [lia|lia|eauto|done]. }
  rewrite is_some_and_false in Hk. split_and!.
  - assert (size (<[audit_key u a act rej := now]> seen) <= S (size seen))%nat.
    { rewrite map_size_insert. case_match; simpl; lia. }
    apply andb_false_iff in Hfull as [E|E].
    + subst seen. rewrite E in *. subst full. bool_prop. lia.
    + bool_prop. lia.
  - lia.
  - intros k t Hk' Ht. destruct (decide (k = audit_key u a act rej)) as [->|Hne].
    + exists now. rewrite lookup_insert_eq. split; [done|lia].
    + exists t. rewrite lookup_insert_ne by done. auto.
  - intros _. rewrite lookup_insert_eq. split; [done|]. intros t Ht.
    destruct (Z_lt_ge_dec t lo) as [|Hge]; [done|]. specialize (Hk t (Hkeep _ _ Ht ltac:(lia))).
    exfalso. assert (audit_fresh now t = true); [|congruence]. apply audit_fresh_spec. lia.
Qed.

Lemma audit_run_ok c ops c' ks lo (past : list (Uuid * Uuid * string * bool)) :
  audit_run c ops = (c', ks) -> Forall (audit_op_in lo (lo + secs 2)) ops ->
  map_len (audit_seen c) <= 4096 -> NoDup past ->
  (forall k, k ∈ past -> exists t, audit_seen c !! k = Some t /\ lo <= t) ->
  NoDup (past ++ ks) /\ map_len (audit_seen c') <= 4096.
Proof.
  revert c c' ks past. induction ops as [|op ops IH]; intros c c' ks past Hrun Hin Hsize Hnd Hpast; cbn [audit_run] in Hrun.
  - simplify_eq. by rewrite app_nil_r.
  - apply Forall_cons in Hin as [Hop Hin]. destruct op as [u a act rej now|]; [|by eapply (IH (audit_done c))].
    destruct (audit_control_event c u a act rej now) as [c1 w] eqn:H1. destruct (audit_run c1 ops) as [c2 ks2] eqn:H2.
    simplify_eq. destruct (audit_event_step _ _ _ _ _ _ _ _ _ H1 Hop Hsize) as (Hs1 & _ & Hold & Hnew).
    rewrite app_assoc. eapply IH; [exact H2|done|done| |].
    + destruct w; [|by rewrite app_nil_r]. destruct (Hnew eq_refl) as [_ Hlt]. apply NoDup_app. split_and!; [done| |by apply NoDup_singleton].
      intros k Hk ->%list_elem_of_singleton. destruct (Hpast _ Hk) as (t & Ht & Hle). specialize (Hlt t Ht). lia.
    + intros k [Hk|Hk]%elem_of_app.
      * destruct (Hpast k Hk) as (t & Ht & Hle). by eapply Hold.
      * destruct w; [|by apply not_elem_of_nil in Hk]. apply list_elem_of_singleton in Hk as ->.
        destruct (Hnew eq_refl) as [Hk _]. exists now. split; [done|]. simpl in Hop. lia.
Qed.

(** ** Properties *)

Section properties.
Context `{UuidText}.

(** A lease teardown reaches exactly the socket it was held on: when every agent's sender is
    its connection's own, each socket gets, in order, the releases of the batches whose owner
    was on that very connection (what fits in its queue, and it is shut down if any did not fit),
    a superseded or foreign socket gets nothing, delivery reports safe iff everything fitted,
    grants and telemetry are untouched, and each revoked or expired owner, and nobody else,
    is notified once. *)
Theorem teardown_reaches_its_socket st bs st' safe :
  wired (agents st) -> deliver_control_cleanup st bs = (st', safe) ->
  (forall ch, sockets (agents st') !! ch
      = (fun s => offered s (all_releases (agents st) ch bs)) <$> sockets (agents st) !! ch)
  /\ (safe = true <-> forall ch s, sockets (agents st) !! ch = Some s ->
      (length (all_releases (agents st) ch bs) <= free_slots s)%nat)
  /\ same_but_sockets (agents st) (agents st')
  /\ (forall a, a ∈ (c_agent_id <$> bs) -> capture (control st') !! a = None)
  /\ tx st' = tx st ++ notices bs.
Proof.
  intros Hw Hd. destruct (deliver_delivered _ _ _ _ Hw Hd) as [Ha Hs Hk _ Hc Ht]. split_and!; try done.
  intros a Hin. rewrite Hc. cbn [capture with_capture]. clear -Hin.
  assert (a ∈ c_agent_id <$> reverse bs) as Hin' by (by rewrite fmap_reverse, elem_of_reverse).
  revert Hin'. generalize (reverse bs). clear. intros bs. induction bs as [|b bs IH]; simpl; [by intros ?%not_elem_of_nil|].
  intros [->|Hin]%elem_of_cons; [apply lookup_delete_eq|]. destruct (decide (c_agent_id b = a)) as [->|Hne]; [apply lookup_delete_eq|].
  rewrite lookup_delete_ne by done. by apply IH.
Qed.

(** Audit writes are rate limited: within any two-second window a user's action on a device
    with a given outcome is written at most once whatever else is audited in between, and the
    table that remembers them never exceeds 4096 entries. *)
Theorem audit_rate_limited ops c ks lo :
  audit_run ControlRuntime_default ops = (c, ks) -> Forall (audit_op_in lo (lo + secs 2)) ops ->
  NoDup ks /\ map_len (audit_seen c) <= 4096.
Proof.
  intros Hrun Hin. apply (audit_run_ok _ _ _ _ lo [] Hrun Hin); [done|constructor|].
  by intros k ?%not_elem_of_nil.
Qed.

End properties.

Definition ex_user : AuthUser := {| u_user_id := 2%N; u_username := "op"; u_role := "operator" |}.
Definition ex_audit : list AuditOp :=
  [AEvent ex_user 7%N "control_acquire" false 10; AEvent ex_user 7%N "control_acquire" true (secs 1); ADone;
   AEvent ex_user 7%N "control_acquire" false (secs 1)]%string.

Lemma audit_rate_limited_witness :
  exists c ks, audit_run ControlRuntime_default ex_audit = (c, ks) /\ length ks = 2%nat /\ NoDup ks.
Proof.
  set (r := audit_run ControlRuntime_default ex_audit). exists r.1, r.2. split; [apply surjective_pairing|]. split; [vm_compute; reflexivity|].
  refine (proj1 (audit_rate_limited ex_audit r.1 r.2 0 _ _)); [apply surjective_pairing|].
  repeat constructor; simpl; vm_compute; try discriminate; done.
Defined.

Definition ex_state (slots : nat) : AppState :=
  {| agents := with_sockets (ex_registry [(RemoteInput, 3); (LiveScreen, 2)])
                 {[ 70%N := {| shutdown := None; queue := replicate (512 - slots) CClose |} ]};
     control := ControlRuntime_default; media := LiveMedia_default; tx := [] |}.
Definition ex_batch (conn : Uuid) : LeaseCleanup :=
  {| c_token := 9%N; c_agent_id := 7%N; c_owner := ex_owner conn; c_reason := RExpired;
     c_commands := [key_up "shift"; key_up "alt"] |}.

Lemma ex_wired slots : wired (agents (ex_state slots)).
Proof.
  intros a c Ha. change (({[ 7%N := {| conn_id := 70%N; connected_at := 0; session_id := 1; legacy_policy_delivery := false |} ]} : gmap Uuid AgentConn) !! a = Some c) in Ha.
  apply lookup_singleton_Some in Ha as [<- <-]. split; [done|]. by eexists.
Qed.

Lemma teardown_reaches_its_socket_witness :
  exists st', @deliver_control_cleanup bin_uuid (ex_state 1) [ex_batch 70; ex_batch 69]%N = (st', false)
  /\ exists s, sockets (agents st') !! 70%N = Some s /\ shutdown s = Some ""%string /\ length (queue s) = 512%nat.
Proof.
  set (r := @deliver_control_cleanup bin_uuid (ex_state 1) [ex_batch 70; ex_batch 69]%N).
  assert (r = (r.1, false)) as Hr by (vm_compute; reflexivity). exists r.1. split; [exact Hr|].
  destruct (@teardown_reaches_its_socket bin_uuid (ex_state 1) [ex_batch 70; ex_batch 69]%N r.1 false (ex_wired 1) Hr) as (Hs & _).
  eexists. rewrite Hs. split; [reflexivity|]. by vm_compute.
Defined.
