(* ===== verification/Capture.v ===== *)
(** Live-stream sessions and capture arbitration:
    [server/src/control/capture_arbitration.rs]. Admission, teardown and synchronization of the
    capture an agent runs, and the validation that binds a control lease to what is displayed. *)
From S2P Require Import Prelude Json Protocol Sessions Modules Registry Geometry State Runtime.

(** ** Monitor selection *)

Definition live_denied (c : string) : CommandDenied := denied c (Some LiveScreen).

Definition is_primary (m : json) : bool := bool_decide (as_bool (idx m "primary") = Some true).
(** [index as usize >= monitors.len()] and [unwrap_or(0) as u32] do not wrap: a monitor list
    has fewer than [2^32] entries. *)
Definition resolve_monitor (request : option Z) (info : option json) : result (option Z) CommandDenied :=
  if is_some_and request (fun i => 64 <=? i) then Err (live_denied "invalid_monitor") else
  match ofilter (fun m => negb (bool_decide (m = []))) (info ≫= fun i => as_array (idx i "monitors")) with
  | Some monitors =>
      let primary := Z.of_nat (default 0%nat (position is_primary monitors)) in
      let index := default primary request in
      if Z.of_nat (length monitors) <=? index then Err (live_denied "invalid_monitor") else Ok (Some index)
  | None => Ok request
  end.

(** ** Retired capture ids *)

(** [rotate_right(1)] and [entry[0] = Some(id)] on the array of 32. *)
Definition retire (ids : list (option Uuid)) (id : Uuid) : list (option Uuid) := Some id :: take 31 ids.

Section capture.
Context `{UuidText, JsonText}.

(** The start command whose authorization stands for the module's. *)
Definition start_capture_probe : json := to_value (StartCapture_ StartCapture_default).

(** [enqueue_capture]: a refused enqueue closes the connection it was for. *)
Definition enqueue_capture (st : AppState) (agent conn : Uuid) (cmd : ServerCommand) (gen : option Uuid)
    : AppState * result unit CommandDenied :=
  match authorize_agent_command (agents st) agent (to_value cmd) with
  | Err e => (st, Err e)
  | Ok command =>
      let command := set_idx command "__capture_generation"
                       (match gen with Some g => uuid_json g | None => JStr "stopped" end) in
      match enqueue_authorized_command (agents st) agent conn command with
      | Ok r => (with_agents st r, Ok tt)
      | Err e =>
          (match ofilter (fun c => bool_decide (conn_id c = conn)) (connections (agents st) !! agent) with
           | Some c => with_agents st (send_shutdown (agents st) (conn_id c) "")
           | None => st
           end, Err e)
      end
  end.

(** The capture id of the cached frame. *)
Definition observed_capture (m : LiveMedia) (agent : Uuid) : option Uuid :=
  f ← frames m !! agent; g ← frame_geometry (jpeg f); s ← as_str (idx g "capture_id"); parse_uuid s.

Definition min_list (x : Z) (l : list Z) : Z := foldr Z.min x l.
Definition max_list (x : Z) (l : list Z) : Z := foldr Z.max x l.

(** The live sessions of the agent's connection, in the map's iteration order. *)
Definition agent_sessions (m : LiveMedia) (agent : Uuid) : list MjpegSession :=
  filter (fun s => s_agent_id s = agent) (snd <$> map_to_list (mjpeg_sessions m)).
Definition conn_sessions (m : LiveMedia) (agent : Uuid) (conn : option Uuid) : list MjpegSession :=
  filter (fun s => Some (s_conn_id s) = conn) (agent_sessions m agent).

(** The tuning a capture runs with: frozen by a lease, or the strongest request of its viewers. *)
Definition merged_prefs (c : ControlRuntime) (agent conn : Uuid) (selection : option Z) (s : MjpegSession)
    (rest : list MjpegSession) : MjpegViewerPrefs :=
  match ofilter (fun f => bool_decide (a_conn_id (f_active f) = conn)) (capture c !! agent) with
  | Some frozen => a_prefs (f_active frozen)
  | None =>
      {| jpeg_quality := max_list (jpeg_quality (s_prefs s)) ((fun s => jpeg_quality (s_prefs s)) <$> rest);
         interval_ms := min_list (interval_ms (s_prefs s)) ((fun s => interval_ms (s_prefs s)) <$> rest);
         monitor := selection |}
  end.

(** The monitor to put on the wire: symbolic for a default-monitor stream. *)
Definition wire_monitor_for (old : option ActiveCapture) (conn : Uuid) (prefs : MjpegViewerPrefs) (ss : list MjpegSession)
    : option Z :=
  match ofilter (fun a => bool_decide (a_conn_id a = conn) && bool_decide (monitor (a_prefs a) = monitor prefs)) old with
  | Some a => wire_monitor a
  | None =>
      match List.find (fun s => bool_decide (monitor (s_prefs s) = monitor prefs)) ss with
      | Some s => requested_monitor s
      | None => monitor prefs
      end
  end.

(** The retired ids of the agent's connection after the observed one is added. *)
Definition retire_observed (m : LiveMedia) (agent conn : Uuid) : list (option Uuid) :=
  let ids := match mjpeg_retired_captures m !! agent with
             | Some (c, ids) => if bool_decide (c = conn) then ids else replicate 32 None
             | None => replicate 32 None
             end in
  match observed_capture m agent with
  | Some id => if bool_decide (Some id ∈ ids) then ids else retire ids id
  | None => ids
  end.

(** [sync_capture_locked]; [fresh] is the generation [Uuid::new_v4] would mint. *)
Definition sync_capture_locked (st : AppState) (agent : Uuid) (requested : option (option Z)) (fresh : Uuid)
    : AppState * result unit CommandDenied :=
  let conn := open_conn_id (agents st) agent in
  let m := media st in
  let old := mjpeg_active_capture m !! agent in
  match conn_sessions m agent conn, conn with
  | [], _ =>
      match ofilter (fun a => bool_decide (Some (a_conn_id a) = conn)) old with
      | Some a =>
          let '(st, res) := enqueue_capture st agent (a_conn_id a) StopCapture None in
          match res with
          | Err e => (st, Err e)
          | Ok _ => (with_media st (set_active (media st) (delete agent (mjpeg_active_capture (media st)))), Ok tt)
          end
      | None => (with_media st (set_active m (delete agent (mjpeg_active_capture m))), Ok tt)
      end
  | _ :: _, None => (st, Ok tt) (* unreachable: a session of the connection implies it *)
  | s :: rest, Some conn =>
      let selection :=
        match requested with
        | Some r => r
        | None => match ofilter (fun a => bool_decide (a_conn_id a = conn)) old with
                  | Some a => monitor (a_prefs a)
                  | None => monitor (s_prefs s)
                  end
        end in
      let prefs := merged_prefs (control st) agent conn selection s rest in
      let wire := wire_monitor_for old conn prefs (s :: rest) in
      if is_some_and old (fun a => bool_decide (a_conn_id a = conn) && bool_decide (a_prefs a = prefs)
                                   && bool_decide (wire_monitor a = wire) && negb (bool_decide (generation a = uuid_nil)))
      then (st, Ok tt)
      else
        let ids := retire_observed m agent conn in
        let st := with_media st (set_retired m (<[agent := (conn, ids)]> (mjpeg_retired_captures m))) in
        let active := {| a_conn_id := conn; a_prefs := prefs; wire_monitor := wire; generation := fresh;
                         retired_capture_ids := ids |} in
        let '(st, res) := enqueue_capture st agent conn
          (StartCapture_ (StartCapture_new wire (jpeg_quality prefs) (interval_ms prefs))) (Some fresh) in
        match res with
        | Err e => (st, Err e)
        | Ok _ =>
            let m := set_active (media st) (<[agent := active]> (mjpeg_active_capture (media st))) in
            (with_media st (set_frames m (delete agent (frames m))), Ok tt)
        end
  end.
Definition sync_mjpeg_capture (st : AppState) (agent fresh : Uuid) : AppState :=
  (sync_capture_locked st agent None fresh).1.

(** ** Sessions *)

Definition set_count (m : LiveMedia) (agent : Uuid) (n : Z) : LiveMedia :=
  set_viewers m (if n =? 0 then delete agent (capture_viewers m) else <[agent := n]> (capture_viewers m)).
Definition remaining_sessions (m : LiveMedia) (agent : Uuid) : Z := Z.of_nat (length (agent_sessions m agent)).

(** The preferences a new default-monitor session inherits from the running capture. *)
Definition inherit_monitor (m : LiveMedia) (agent conn : Uuid) (prefs : MjpegViewerPrefs) (req : option Z) : MjpegViewerPrefs :=
  if negb (isSome (monitor prefs)) && negb (isSome req) then
    match ofilter (fun a => bool_decide (a_conn_id a = conn) && negb (isSome (wire_monitor a))) (mjpeg_active_capture m !! agent) with
    | Some a => {| jpeg_quality := jpeg_quality prefs; interval_ms := interval_ms prefs; monitor := monitor (a_prefs a) |}
    | None => prefs
    end
  else prefs.

(** [begin_mjpeg_session], at [now]. *)
Definition begin_mjpeg_session (st : AppState) (agent session user : Uuid) (prefs : MjpegViewerPrefs) (req : option Z)
    (now : Instant) (fresh : Uuid) : AppState * result unit CommandDenied :=
  let st := (commit_sessions st (expire (sessions (control st)) now)).1 in
  match open_conn_id (agents st) agent with
  | None => (st, Err (live_denied "agent_offline"))
  | Some conn =>
      match authorize_agent_command (agents st) agent start_capture_probe with
      | Err e => (st, Err e)
      | Ok _ =>
          if isSome (mjpeg_sessions (media st) !! session) then (st, Err (live_denied "duplicate_capture_session")) else
          let prefs := inherit_monitor (media st) agent conn prefs req in
          if is_some_and (capture (control st) !! agent) (fun f =>
               negb (bool_decide (a_conn_id (f_active f) = conn))
               || negb (bool_decide (monitor (a_prefs (f_active f)) = monitor prefs)))
          then (st, Err (live_denied "capture_selection_locked")) else
          let count := default 0 (capture_viewers (media st) !! agent) in
          if (256 <=? count) || (4096 <=? map_len (mjpeg_sessions (media st)))
          then (st, Err (live_denied "capture_viewer_limit")) else
          let entry := {| requested_monitor := req; s_agent_id := agent; s_user_id := user; s_conn_id := conn; s_prefs := prefs |} in
          let m := set_sessions (media st) (<[session := entry]> (mjpeg_sessions (media st))) in
          let m := set_viewers m (<[agent := count + 1]> (capture_viewers m)) in
          let '(st, res) := sync_capture_locked (with_media st m) agent (Some (monitor prefs)) fresh in
          match res with
          | Ok _ => (st, Ok tt)
          | Err e =>
              let m := set_sessions (media st) (delete session (mjpeg_sessions (media st))) in
              (with_media st (set_count m agent count), Err e)
          end
      end
  end.

(** [end_mjpeg_session]. *)
Definition end_mjpeg_session (st : AppState) (agent session : Uuid) (user : option Uuid) (fresh : Uuid) : AppState * bool :=
  match ofilter (fun s => bool_decide (s_agent_id s = agent) && is_none_or user (fun u => bool_decide (u = s_user_id s)))
                (mjpeg_sessions (media st) !! session) with
  | None => (st, false)
  | Some mapped =>
      let st := with_media st (set_sessions (media st) (delete session (mjpeg_sessions (media st)))) in
      let st := if is_some_and (capture (control st) !! agent) (fun c => bool_decide (f_session_id c = session))
                then revoke_agent_control_locked st agent (s_conn_id mapped) else st in
      let st := with_media st (set_count (media st) agent (remaining_sessions (media st) agent)) in
      ((sync_capture_locked st agent None fresh).1, true)
  end.

(** [clear_capture_connection_locked]. *)
Definition clear_capture_connection_locked (st : AppState) (agent conn : Uuid) : AppState :=
  let m := media st in
  let m := if is_some_and (mjpeg_retired_captures m !! agent) (fun e => bool_decide (e.1 = conn))
           then set_retired m (delete agent (mjpeg_retired_captures m)) else m in
  let m := set_sessions m (filter (fun kv => s_agent_id kv.2 <> agent \/ s_conn_id kv.2 <> conn) (mjpeg_sessions m)) in
  let m := set_count m agent (remaining_sessions m agent) in
  let m := if is_some_and (mjpeg_active_capture m !! agent) (fun a => bool_decide (a_conn_id a = conn))
           then set_frames (set_active m (delete agent (mjpeg_active_capture m))) (delete agent (frames m)) else m in
  with_media st m.

(** ** Binding a lease to the display *)

(** [validate_control_capture], at [now]. *)
Definition validate_control_capture (st : AppState) (agent : Uuid) (o : LeaseOwner) (value : json) (now : Instant)
    : result FrozenCapture CommandDenied :=
  let* _ := authorize_agent_command (agents st) agent start_capture_probe in
  let* session := ok_or (as_str (idx value "capture_session") ≫= parse_uuid) (live_denied "capture_session_required") in
  let* mapped := ok_or (ofilter (fun s => bool_decide (s_agent_id s = agent) && bool_decide (s_user_id s = user_id o)
                                  && bool_decide (s_conn_id s = agent_connection_id o))
                                (mjpeg_sessions (media st) !! session)) (live_denied "capture_session_stale") in
  let* active := ok_or (ofilter (fun a => bool_decide (a_conn_id a = agent_connection_id o)
                                  && bool_decide (monitor (a_prefs a) = monitor (s_prefs mapped)))
                                (mjpeg_active_capture (media st) !! agent)) (live_denied "capture_selection_stale") in
  let* frame := ok_or (ofilter (fun f => saturating_since now (last_update f) <=? secs 10) (frames (media st) !! agent))
                      (live_denied "capture_frame_required") in
  let* geometry := ok_or (frame_geometry (jpeg frame)) (live_denied "capture_geometry_required") in
  if (isSome (get value "capture_id") || isSome (get value "geometry_revision"))
     && (negb (json_eqb (idx value "capture_id") (idx geometry "capture_id"))
         || negb (json_eqb (idx value "geometry_revision") (idx geometry "geometry_revision")))
  then Err (live_denied "capture_geometry_stale") else
  (* the two unwraps: [frame_geometry_sound] *)
  let observed := default uuid_nil (as_str (idx geometry "capture_id") ≫= parse_uuid) in
  if bool_decide (Some observed ∈ retired_capture_ids active) then Err (live_denied "capture_frame_pending") else
  let index := default 0 (as_u64 (idx geometry "monitor_index")) in
  if is_some_and (monitor (a_prefs active)) (fun m => negb (m =? index)) then Err (live_denied "capture_selection_stale") else
  Ok {| f_owner := o; f_session_id := session;
        f_active := {| wire_monitor := wire_monitor active; generation := generation active;
                       retired_capture_ids := retired_capture_ids active; a_conn_id := a_conn_id active;
                       a_prefs := {| jpeg_quality := jpeg_quality (a_prefs active); interval_ms := interval_ms (a_prefs active);
                                     monitor := Some index |} |} |}.

(** [commit_control_capture]: pins a default-monitor capture to the validated display. *)
Definition pin_prefs (p : MjpegViewerPrefs) (mon : option Z) : MjpegViewerPrefs :=
  {| jpeg_quality := jpeg_quality p; interval_ms := interval_ms p; monitor := mon |}.
Definition commit_control_capture (st : AppState) (agent : Uuid) (frozen : FrozenCapture) : AppState :=
  let m := media st in
  let conn := a_conn_id (f_active frozen) in
  let mon := monitor (a_prefs (f_active frozen)) in
  match ofilter (fun a => bool_decide (a_conn_id a = conn) && negb (isSome (monitor (a_prefs a)))) (mjpeg_active_capture m !! agent) with
  | None => st
  | Some a =>
      let a := {| wire_monitor := wire_monitor a; generation := generation a; retired_capture_ids := retired_capture_ids a;
                  a_conn_id := a_conn_id a; a_prefs := pin_prefs (a_prefs a) mon |} in
      let m := set_active m (<[agent := a]> (mjpeg_active_capture m)) in
      let pin (s : MjpegSession) :=
        if bool_decide (s_agent_id s = agent) && bool_decide (s_conn_id s = conn) && negb (isSome (requested_monitor s))
        then {| requested_monitor := requested_monitor s; s_agent_id := s_agent_id s; s_user_id := s_user_id s;
                s_conn_id := s_conn_id s; s_prefs := pin_prefs (s_prefs s) mon |}
        else s in
      with_media st (set_sessions m (pin <$> mjpeg_sessions m))
  end.

End capture.

(** ** Session counts: lemmas *)

Definition sessions_of (ss : gmap Uuid MjpegSession) (a : Uuid) : Z :=
  Z.of_nat (length (filter (fun s => s_agent_id s = a) (snd <$> map_to_list ss))).

Lemma sessions_of_insert ss k s a :
  ss !! k = None -> sessions_of (<[k := s]> ss) a = sessions_of ss a + (if decide (s_agent_id s = a) then 1 else 0).
Proof.
  intros Hk. unfold sessions_of. rewrite map_to_list_insert by done. cbn [fmap list_fmap snd].
  rewrite filter_cons. case_decide; simpl; lia.
Qed.

Lemma sessions_of_delete ss k s a :
  ss !! k = Some s -> sessions_of (delete k ss) a = sessions_of ss a - (if decide (s_agent_id s = a) then 1 else 0).
Proof.
  intros Hk. rewrite <- (insert_delete_id ss k s Hk) at 2.
  rewrite sessions_of_insert by apply lookup_delete_eq. lia.
Qed.

Lemma sessions_of_nonneg ss a : 0 <= sessions_of ss a.
Proof. unfold sessions_of. lia. Qed.

(** [fold_left]-free reading of a change that keeps every agent id. *)
Lemma sessions_of_fmap f ss a : (forall s, s_agent_id (f s) = s_agent_id s) -> sessions_of (f <$> ss) a = sessions_of ss a.
Proof.
  intros Hf. induction ss as [|k s ss Hk IH] using map_ind; [done|].
  rewrite fmap_insert, !sessions_of_insert by (rewrite ?lookup_fmap, ?Hk; done). by rewrite IH, Hf.
Qed.

Lemma sessions_of_filter_other P `{forall x, Decision (P x)} (ss : gmap Uuid MjpegSession) a :
  (forall k s, s_agent_id s = a -> P (k, s)) -> sessions_of (filter P ss) a = sessions_of ss a.
Proof.
  intros HP. induction ss as [|k s ss Hk IH] using map_ind; [done|].
  destruct (decide (P (k, s))) as [Hp|Hp].
  - rewrite map_filter_insert_True by done. rewrite !sessions_of_insert; [by rewrite IH|done|].
    apply map_lookup_filter_None. by left.
  - rewrite map_filter_insert_not' by (try done; intros y Hy; by rewrite Hk in Hy).
    rewrite sessions_of_insert, IH by done. case_decide as Hd; [|lia]. destruct Hp. by apply HP.
Qed.

Lemma sessions_of_filter_le P `{forall x, Decision (P x)} (ss : gmap Uuid MjpegSession) a :
  sessions_of (filter P ss) a <= sessions_of ss a.
Proof.
  induction ss as [|k s ss Hk IH] using map_ind; [done|]. rewrite (sessions_of_insert ss) by done.
  destruct (decide (P (k, s))) as [Hp|Hp].
  - rewrite map_filter_insert_True by done. rewrite sessions_of_insert; [case_decide; lia|]. apply map_lookup_filter_None. by left.
  - rewrite map_filter_insert_not' by (try done; intros y Hy; by rewrite Hk in Hy). case_decide; lia.
Qed.

Lemma remaining_eq m a : remaining_sessions m a = sessions_of (mjpeg_sessions m) a.
Proof. done. Qed.

(** The viewer count of an agent is its number of sessions, and none is kept at zero. *)
Definition count_entry (n : Z) : option Z := if n =? 0 then None else Some n.
Definition counts_ok (m : LiveMedia) : Prop :=
  forall a, capture_viewers m !! a = count_entry (sessions_of (mjpeg_sessions m) a).
Record media_ok (m : LiveMedia) : Prop := {
  mo_counts : counts_ok m;
  mo_total : map_len (mjpeg_sessions m) <= 4096;
  mo_agent : forall a, sessions_of (mjpeg_sessions m) a <= 256
}.

Lemma media_ok_default : media_ok LiveMedia_default.
Proof. split; [intros a; done|done|intros a; by vm_compute]. Qed.

Lemma count_entry_default n : default 0 (count_entry n) = n.
Proof. unfold count_entry. destruct (n =? 0) eqn:E; bool_prop; done. Qed.

Lemma set_count_ok m a :
  (forall b, b <> a -> capture_viewers m !! b = count_entry (sessions_of (mjpeg_sessions m) b)) ->
  counts_ok (set_count m a (sessions_of (mjpeg_sessions m) a)).
Proof.
  intros Hoth b. unfold set_count, count_entry. simpl. destruct (decide (b = a)) as [->|Hne].
  - destruct (_ =? 0); [by rewrite lookup_delete_eq|by rewrite lookup_insert_eq].
  - destruct (sessions_of (mjpeg_sessions m) a =? 0); rewrite ?lookup_delete_ne, ?lookup_insert_ne by done; by apply Hoth.
Qed.

Lemma media_ok_same m m' :
  mjpeg_sessions m' = mjpeg_sessions m -> capture_viewers m' = capture_viewers m -> media_ok m -> media_ok m'.
Proof. intros E1 E2 [H1 H2 H3]. split; [intros a|..]; by rewrite ?E1, ?E2. Qed.

(** Dropping sessions and recounting the agent they belong to. *)
Lemma media_ok_recount m ss a :
  media_ok m -> ss ⊆ mjpeg_sessions m -> (forall b, b <> a -> sessions_of ss b = sessions_of (mjpeg_sessions m) b) ->
  sessions_of ss a <= sessions_of (mjpeg_sessions m) a ->
  media_ok (set_count (set_sessions m ss) a (sessions_of ss a)).
Proof.
  intros [H1 H2 H3] Hsub Hoth Hle. split.
  - apply (set_count_ok (set_sessions m ss)). intros b Hb. simpl. rewrite H1, Hoth by done. done.
  - simpl. pose proof (map_subseteq_size _ _ Hsub). unfold map_len in *. lia.
  - intros b. simpl. destruct (decide (b = a)) as [->|Hb]; [specialize (H3 a); lia|by rewrite Hoth].
Qed.

(** ** What each step leaves alone *)

Section steps.
Context `{UuidText, JsonText}.

Lemma enqueue_capture_spec st agent conn cmd gen st' res :
  enqueue_capture st agent conn cmd gen = (st', res) ->
  media st' = media st /\ control st' = control st /\ tx st' = tx st
  /\ match res with
     | Ok _ => exists command ch, authorize_agent_command (agents st) agent (to_value cmd) = Ok command
         /\ open_conn_id (agents st) agent = Some conn /\ cmds (agents st) !! agent = Some ch
         /\ try_send (agents st) ch (CText (set_idx command "__capture_generation"
              (match gen with Some g => uuid_json g | None => JStr "stopped" end))) = Some (agents st')
     | Err e => agents st' = agents st \/ agents st' = send_shutdown (agents st) conn ""
     end.
Proof.
  unfold enqueue_capture. destruct (authorize_agent_command _ _ _) as [command|e]; [|intros [= <- <-]; split_and!; try done; by left].
  destruct (enqueue_authorized_command _ _ _ _) as [r|e] eqn:He.
  - intros [= <- <-]. apply enqueue_Ok in He as (c & ch & Hc & Hid & Hch & Hs). split_and!; try done.
    exists command, ch. split_and!; try done. unfold open_conn_id. by rewrite Hc, <- Hid.
  - intros [= <- <-]. destruct (ofilter _ _) as [c|] eqn:Hc; split_and!; try done; [|by left].
    apply ofilter_Some in Hc as [_ Hid]. bool_prop. subst. by right.
Qed.

Lemma sync_spec st agent req fresh st' res :
  sync_capture_locked st agent req fresh = (st', res) ->
  mjpeg_sessions (media st') = mjpeg_sessions (media st) /\ capture_viewers (media st') = capture_viewers (media st)
  /\ control st' = control st /\ tx st' = tx st
  /\ forall e, res = Err e ->
       mjpeg_active_capture (media st') = mjpeg_active_capture (media st) /\ frames (media st') = frames (media st)
       /\ (agents st' = agents st \/ exists conn, open_conn_id (agents st) agent = Some conn /\ agents st' = send_shutdown (agents st) conn "").
Proof.
  unfold sync_capture_locked. destruct (conn_sessions _ _ _) as [|s rest].
  - destruct (ofilter _ _) as [a|] eqn:Ha; [|intros [= <- <-]; by split_and!].
    apply ofilter_Some in Ha as [_ Ha]. bool_prop.
    destruct (enqueue_capture _ _ _ _ _) as [st1 r1] eqn:He. apply enqueue_capture_spec in He as (Hm & Hc & Ht & Hr).
    destruct r1; intros [= <- <-]; simpl; rewrite ?Hm; split_and!; try done. intros e' [= <-]. split_and!; [done..|].
    destruct Hr as [?|?]; [by left|right]. by exists (a_conn_id a).
  - destruct (open_conn_id _ _) as [conn|] eqn:Hconn; [|intros [= <- <-]; by split_and!]. cbv zeta.
    destruct (is_some_and _ _); [intros [= <- <-]; by split_and!|].
    destruct (enqueue_capture _ _ _ _ _) as [st1 r1] eqn:He. apply enqueue_capture_spec in He as (Hm & Hc & Ht & Hr).
    destruct r1; intros [= <- <-]; simpl; rewrite ?Hm; split_and!; try done. intros e' [= <-]. split_and!; [done..|].
    destruct Hr as [?|?]; [by left|right]. by exists conn.
Qed.

Lemma sync_media_ok st agent req fresh : media_ok (media st) -> media_ok (media (sync_capture_locked st agent req fresh).1).
Proof.
  destruct (sync_capture_locked st agent req fresh) as [st' res] eqn:Hs. apply sync_spec in Hs as (E1 & E2 & _).
  by apply media_ok_same.
Qed.

(** The state [begin_mjpeg_session] admits in: expired leases torn down. *)
Definition after_expiry (st : AppState) (now : Instant) : AppState := expire_control st now.

Lemma set_count_rollback m a : counts_ok m -> forall x,
  capture_viewers (set_count (set_viewers m (<[a := x]> (capture_viewers m))) a (default 0 (capture_viewers m !! a))) = capture_viewers m.
Proof.
  intros Hok x. unfold set_count. cbn [capture_viewers set_viewers]. rewrite (Hok a), count_entry_default.
  pose proof (Hok a) as Ha. unfold count_entry in Ha. destruct (_ =? 0); [rewrite delete_insert_eq; by apply delete_id|].
  rewrite insert_insert_eq. by apply insert_id.
Qed.

(** Every way [begin_mjpeg_session] ends. *)
Inductive begin_case (st st0 : AppState) (agent session user : Uuid) (prefs : MjpegViewerPrefs) (req : option Z) (fresh : Uuid)
    : AppState -> result unit CommandDenied -> Prop :=
| BeginDenied e :
    open_conn_id (agents st0) agent = None \/ is_ok (authorize_agent_command (agents st0) agent start_capture_probe) = false
    \/ is_Some (mjpeg_sessions (media st0) !! session)
    \/ (exists conn f, open_conn_id (agents st0) agent = Some conn /\ capture (control st0) !! agent = Some f
         /\ (a_conn_id (f_active f) <> conn \/ monitor (a_prefs (f_active f)) <> monitor (inherit_monitor (media st0) agent conn prefs req)))
    \/ 256 <= default 0 (capture_viewers (media st0) !! agent) \/ 4096 <= map_len (mjpeg_sessions (media st0)) ->
    begin_case st st0 agent session user prefs req fresh st0 (Err e)
| BeginSynced conn entry st1 st2 res :
    open_conn_id (agents st0) agent = Some conn ->
    is_ok (authorize_agent_command (agents st0) agent start_capture_probe) = true ->
    mjpeg_sessions (media st0) !! session = None ->
    (forall f, capture (control st0) !! agent = Some f -> a_conn_id (f_active f) = conn /\ monitor (a_prefs (f_active f)) = monitor (s_prefs entry)) ->
    default 0 (capture_viewers (media st0) !! agent) < 256 -> map_len (mjpeg_sessions (media st0)) < 4096 ->
    entry = {| requested_monitor := req; s_agent_id := agent; s_user_id := user; s_conn_id := conn;
               s_prefs := inherit_monitor (media st0) agent conn prefs req |} ->
    st1 = with_media st0 (set_viewers (set_sessions (media st0) (<[session := entry]> (mjpeg_sessions (media st0))))
            (<[agent := default 0 (capture_viewers (media st0) !! agent) + 1]> (capture_viewers (media st0)))) ->
    sync_capture_locked st1 agent (Some (monitor (s_prefs entry))) fresh = (st2, res) ->
    begin_case st st0 agent session user prefs req fresh
      (match res with
       | Ok _ => st2
       | Err _ => with_media st2 (set_count (set_sessions (media st2) (delete session (mjpeg_sessions (media st2)))) agent
                                    (default 0 (capture_viewers (media st0) !! agent)))
       end) res.

Lemma begin_cases st agent session user prefs req now fresh st' res :
  begin_mjpeg_session st agent session user prefs req now fresh = (st', res) ->
  begin_case st (after_expiry st now) agent session user prefs req fresh st' res.
Proof.
  unfold begin_mjpeg_session, after_expiry, expire_control. generalize (commit_sessions st (expire (sessions (control st)) now)).1. intros st0.
  destruct (open_conn_id (agents st0) agent) as [conn|] eqn:Hconn; [|intros [= <- <-]; apply BeginDenied; by left].
  destruct (authorize_agent_command _ _ _) as [c|e] eqn:Hauth; [|intros [= <- <-]; apply BeginDenied; right; left; by rewrite Hauth].
  destruct (mjpeg_sessions (media st0) !! session) eqn:Hsess; [intros [= <- <-]; apply BeginDenied; right; right; left; by eexists|].
  cbn [isSome]. cbv zeta. set (p := inherit_monitor _ _ _ _ _).
  destruct (is_some_and (capture (control st0) !! agent) _) eqn:Hfr.
  { intros [= <- <-]. apply BeginDenied. do 3 right. left. apply is_some_and_true in Hfr as (f & Hf & Hor). exists conn, f.
    split_and!; [done..|]. apply orb_prop in Hor as [?|?]; bool_prop; [by left|by right]. }
  rewrite is_some_and_false in Hfr.
  destruct (256 <=? default 0 (capture_viewers (media st0) !! agent)) eqn:Hcnt; bool_prop.
  { intros [= <- <-]. apply BeginDenied. do 4 right. by left. }
  destruct (4096 <=? map_len (mjpeg_sessions (media st0))) eqn:Hsz; bool_prop; cbn [orb].
  { intros [= <- <-]. apply BeginDenied. by do 5 right. }
  destruct (sync_capture_locked _ _ _ _) as [st2 r2] eqn:Hs. intros Hend.
  assert ((st', res) = (match r2 with Ok _ => st2 | Err _ => with_media st2 (set_count (set_sessions (media st2) (delete session (mjpeg_sessions (media st2)))) agent (default 0 (capture_viewers (media st0) !! agent))) end, r2)) as [= -> ->].
  { rewrite <- Hend. by destruct r2 as [[]|]. }
  eapply BeginSynced; try done.
  - by rewrite Hauth.
  - intros f Hf. specialize (Hfr f Hf). apply orb_false_elim in Hfr as [H1 H2]. by bool_prop.
Qed.

Lemma after_expiry_media st now : media (after_expiry st now) = media st.
Proof. unfold after_expiry, expire_control. apply (commit_sessions_keeps st _). Qed.

Lemma begin_media_ok st agent session user prefs req now fresh :
  media_ok (media st) -> media_ok (media (begin_mjpeg_session st agent session user prefs req now fresh).1).
Proof.
  intros Hok. destruct (begin_mjpeg_session _ _ _ _ _ _ _ _) as [st' res] eqn:Hb. apply begin_cases in Hb.
  rewrite <- (after_expiry_media st now) in Hok. simpl. revert Hb Hok. generalize (after_expiry st now). intros st0 Hb Hok.
  destruct Hb as [e _|conn entry st1 st2 res _ _ Hnew _ Hcnt Hsz Hentry -> Hs]; [done|].
  apply sync_spec in Hs as (E1 & E2 & _). cbn [media with_media mjpeg_sessions set_viewers set_sessions capture_viewers] in E1, E2.
  destruct Hok as [H1 H2 H3]. destruct res as [[]|e].
  - split.
    + intros b. rewrite E1, E2, sessions_of_insert by done. rewrite Hentry. cbn [s_agent_id].
      destruct (decide (agent = b)) as [<-|Hne].
      * rewrite lookup_insert_eq, H1, count_entry_default. unfold count_entry.
        pose proof (sessions_of_nonneg (mjpeg_sessions (media st0)) agent). by destruct (_ + 1 =? 0) eqn:E; bool_prop; [lia|].
      * rewrite lookup_insert_ne by done. by rewrite Z.add_0_r.
    + unfold map_len in *. rewrite E1, map_size_insert_None by done. lia.
    + intros b. rewrite E1, sessions_of_insert by done. rewrite Hentry. cbn [s_agent_id]. specialize (H3 b).
      case_decide; [subst|lia]. rewrite H1, count_entry_default in Hcnt. lia.
  - apply (media_ok_same (media st0)).
    + simpl. by rewrite E1, delete_insert_id.
    + simpl. rewrite E2. by apply (set_count_rollback (media st0)).
    + done.
Qed.

Lemma end_media_ok st agent session user fresh :
  media_ok (media st) -> media_ok (media (end_mjpeg_session st agent session user fresh).1).
Proof.
  intros Hok. unfold end_mjpeg_session. destruct (ofilter _ _) as [s|] eqn:Hs; [|done]. apply ofilter_Some in Hs as [Hs Hf]. bool_prop.
  cbn [fst]. apply sync_media_ok. cbv zeta. cbn [media with_media].
  set (st1 := with_media st (set_sessions (media st) (delete session (mjpeg_sessions (media st))))).
  assert (media (if is_some_and (capture (control st1) !! agent) (fun c => bool_decide (f_session_id c = session))
                then revoke_agent_control_locked st1 agent (s_conn_id s) else st1) = media st1) as ->.
  { case_match; [|done]. apply (commit_sessions_keeps st1 _). }
  unfold remaining_sessions, agent_sessions. cbn [media with_media st1 mjpeg_sessions set_sessions].
  apply media_ok_recount; [done|apply delete_subseteq| |].
  - intros b Hb. rewrite (sessions_of_delete _ _ _ _ Hs). subst. case_decide; [congruence|lia].
  - rewrite (sessions_of_delete _ _ _ _ Hs). case_decide; lia.
Qed.

Lemma clear_media_ok st agent conn :
  media_ok (media st) -> media_ok (media (clear_capture_connection_locked st agent conn)).
Proof.
  intros Hok. unfold clear_capture_connection_locked. cbn [media with_media]. cbv zeta.
  set (m1 := if is_some_and (mjpeg_retired_captures (media st) !! agent) _ then _ else _).
  assert (media_ok m1) as Hok1 by (subst m1; case_match; [by apply (media_ok_same (media st))|done]).
  set (ss := filter _ _). match goal with |- media_ok (if _ then _ else ?m) => assert (media_ok m) as Hok2 end.
  { apply (media_ok_recount m1 ss agent); [done|apply map_filter_subseteq| |].
    - intros b Hb. apply sessions_of_filter_other. intros k s <-. simpl. by left.
    - apply sessions_of_filter_le. }
  case_match; [|exact Hok2]. by refine (media_ok_same _ _ _ _ Hok2).
Qed.

Lemma commit_media_ok st agent frozen :
  media_ok (media st) -> media_ok (media (commit_control_capture st agent frozen)).
Proof.
  intros [H1 H2 H3]. unfold commit_control_capture. destruct (ofilter _ _) as [a|]; [|done]. cbn [media with_media]. split.
  - intros b. simpl. rewrite sessions_of_fmap; [apply H1|]. intros s. by case_match.
  - unfold map_len in *. simpl. by rewrite map_size_fmap.
  - intros b. simpl. rewrite sessions_of_fmap; [apply H3|]. intros s. by case_match.
Qed.

End steps.

(** ** Properties *)

(** One media operation, or any change the rest of the server makes to the registry and the
    control runtime in between. *)
Inductive CaptureOp : Type :=
| CBegin (agent session user : Uuid) (prefs : MjpegViewerPrefs) (req : option Z) (now : Instant) (fresh : Uuid)
| CEnd (agent session : Uuid) (user : option Uuid) (fresh : Uuid)
| CClear (agent conn : Uuid)
| CCommit (agent : Uuid) (frozen : FrozenCapture)
| CSync (agent fresh : Uuid)
| CFrame (agent : Uuid) (data : list Z) (now : Instant)
| CElse (r : AgentRegistry) (c : ControlRuntime) (t : list Broadcast).

Section theorems.
Context `{UuidText, JsonText}.

Definition capture_step (st : AppState) (op : CaptureOp) : AppState :=
  match op with
  | CBegin agent session user prefs req now fresh => (begin_mjpeg_session st agent session user prefs req now fresh).1
  | CEnd agent session user fresh => (end_mjpeg_session st agent session user fresh).1
  | CClear agent conn => clear_capture_connection_locked st agent conn
  | CCommit agent frozen => commit_control_capture st agent frozen
  | CSync agent fresh => sync_mjpeg_capture st agent fresh
  | CFrame agent data now => with_media st (store_frame (media st) agent data now)
  | CElse r c t => {| agents := r; control := c; media := media st; tx := t |}
  end.

(** The viewer refcount that drives capture is exact: after any run of session starts,
    ends, disconnect cleanups, lease pins and syncs, with anything happening to leases and
    connections in between, every agent's count is its number of live sessions (absent, not
    zero, when it has none), at most 256 per agent and 4096 in all. *)
Theorem mjpeg_refcount_exact ops a :
  let m := media (foldl capture_step AppState_new ops) in
  capture_viewers m !! a = count_entry (sessions_of (mjpeg_sessions m) a)
  /\ sessions_of (mjpeg_sessions m) a <= 256 /\ map_len (mjpeg_sessions m) <= 4096.
Proof.
  cbv zeta. assert (media_ok (media (foldl capture_step AppState_new ops))) as [H1 H2 H3]; [|by split_and!].
  assert (media_ok (media AppState_new)) as Hinit by apply media_ok_default. revert Hinit. generalize AppState_new.
  induction ops as [|op ops IH]; intros st Hok; [done|]. cbn [foldl]. apply IH. destruct op; cbn [capture_step].
  - by apply begin_media_ok.
  - by apply end_media_ok.
  - by apply clear_media_ok.
  - by apply commit_media_ok.
  - by apply sync_media_ok.
  - by apply (media_ok_same (media st)).
  - done.
Qed.

(** Admission is transactional: a refused session start leaves the sessions, the counts, the
    running capture and the cached frames exactly as they were (expired leases aside) and queues
    nothing; the one thing a failed start can do is shut the connection down. A granted start
    adds exactly the caller's session, bound to the agent's open connection. *)
Theorem begin_mjpeg_session_transactional st agent session user prefs req now fresh st' res :
  media_ok (media st) ->
  begin_mjpeg_session st agent session user prefs req now fresh = (st', res) ->
  let st0 := after_expiry st now in
  match res with
  | Err _ =>
      mjpeg_sessions (media st') = mjpeg_sessions (media st) /\ capture_viewers (media st') = capture_viewers (media st)
      /\ mjpeg_active_capture (media st') = mjpeg_active_capture (media st) /\ frames (media st') = frames (media st)
      /\ control st' = control st0 /\ tx st' = tx st0
      /\ (agents st' = agents st0 \/ exists conn, agents st' = send_shutdown (agents st0) conn "")
  | Ok _ =>
      exists conn entry, open_conn_id (agents st0) agent = Some conn
      /\ is_ok (authorize_agent_command (agents st0) agent start_capture_probe) = true
      /\ s_agent_id entry = agent /\ s_user_id entry = user /\ s_conn_id entry = conn /\ requested_monitor entry = req
      /\ mjpeg_sessions (media st) !! session = None
      /\ mjpeg_sessions (media st') = <[session := entry]> (mjpeg_sessions (media st))
      /\ capture_viewers (media st') = <[agent := sessions_of (mjpeg_sessions (media st)) agent + 1]> (capture_viewers (media st))
  end.
Proof.
  intros Hok Hb%begin_cases. rewrite <- (after_expiry_media st now) in *. cbv zeta. revert Hb Hok.
  generalize (after_expiry st now). intros st0 Hb Hok.
  destruct Hb as [e _|conn entry st1 st2 res Hconn Hauth Hnew _ _ _ Hentry -> Hs]; [split_and!; try done; by left|].
  apply sync_spec in Hs as (E1 & E2 & E3 & E4 & Herr). cbn [media with_media mjpeg_sessions set_viewers set_sessions capture_viewers] in E1, E2.
  destruct res as [[]|e].
  - exists conn, entry. rewrite E1, E2, (mo_counts _ Hok), count_entry_default. subst entry. by split_and!.
  - destruct (Herr e eq_refl) as (E5 & E6 & E7). simpl. split_and!; try done.
    + by rewrite E1, delete_insert_id.
    + rewrite E2. apply (set_count_rollback (media st0)), Hok.
    + destruct E7 as [?|(c & _ & ?)]; [by left|right; by exists c].
Qed.

Lemma sync_Ok st agent req fresh st' :
  sync_capture_locked st agent req fresh = (st', Ok tt) -> fresh <> uuid_nil ->
  control st' = control st /\ open_conn_id (agents st') agent = open_conn_id (agents st) agent
  /\ mjpeg_sessions (media st') = mjpeg_sessions (media st)
  /\ match conn_sessions (media st) agent (open_conn_id (agents st) agent), open_conn_id (agents st) agent with
     | [], _ => mjpeg_active_capture (media st') !! agent = None
     | _ :: _, None => True
     | s :: rest, Some conn =>
         exists sel act, mjpeg_active_capture (media st') !! agent = Some act /\ a_conn_id act = conn
         /\ a_prefs act = merged_prefs (control st) agent conn sel s rest /\ generation act <> uuid_nil
         /\ (forall r, req = Some r -> sel = r)
         /\ (mjpeg_active_capture (media st) !! agent = Some act \/ generation act = fresh)
     end.
Proof.
  intros Hs Hfresh. assert (forall r ch msg r', try_send r ch msg = Some r' -> open_conn_id r' agent = open_conn_id r agent) as Hopen.
  { intros r ch msg r' (s & Hs' & _ & ->)%try_send_Some. unfold open_conn_id, open_conn, conn_shutdown. simpl.
    destruct (connections r !! agent) as [c|]; [|done]. simpl. destruct (decide (conn_id c = ch)) as [->|Hne].
    - rewrite lookup_insert_eq, Hs'. done.
    - by rewrite lookup_insert_ne by congruence. }
  pose proof (sync_spec _ _ _ _ _ _ Hs) as (E1 & E2 & E3 & _). unfold sync_capture_locked in Hs.
  destruct (conn_sessions _ _ _) as [|s rest] eqn:Hcs.
  - destruct (ofilter _ _) as [a|] eqn:Ha.
    + destruct (enqueue_capture _ _ _ _ _) as [st1 r1] eqn:He. apply enqueue_capture_spec in He as (Hm & Hc & Ht & Hr).
      destruct r1 as [[]|]; simplify_eq. destruct Hr as (command & ch & _ & Hid & _ & Htry). simpl.
      split_and!; [done|by eapply Hopen|by rewrite Hm|]. by rewrite lookup_delete_eq.
    + simplify_eq. simpl. split_and!; try done. by rewrite lookup_delete_eq.
  - destruct (open_conn_id (agents st) agent) as [conn|] eqn:Hconn; [|simplify_eq; by split_and!]. cbv zeta in Hs.
    destruct (is_some_and _ _) eqn:Hold.
    + simplify_eq. split_and!; try done. apply is_some_and_true in Hold as (a & Ha & Hb). bool_prop.
      eexists _, a. split_and!; try done; [|by left]. intros r ->. done.
    + destruct (enqueue_capture _ _ _ _ _) as [st1 r1] eqn:He. apply enqueue_capture_spec in He as (Hm & Hc & Ht & Hr).
      destruct r1 as [[]|]; simplify_eq. destruct Hr as (command & ch & _ & Hid & _ & Htry). simpl.
      split_and!; [done|rewrite (Hopen _ _ _ _ Htry); done|by rewrite Hm|].
      eexists _, _. rewrite lookup_insert_eq. split_and!; [done..| |by right]. intros r ->. done.
Qed.

(** A control lease freezes the display: while a live lease pins the capture its connection
    is running, a second viewer's session on another monitor is refused, and one that is
    admitted restarts nothing and queues nothing: the running capture keeps the
    lease's monitor and tuning and its generation. *)
Theorem lease_freezes_capture st agent session user prefs req now fresh st' res f act conn :
  begin_mjpeg_session st agent session user prefs req now fresh = (st', res) -> fresh <> uuid_nil ->
  let st0 := after_expiry st now in
  open_conn_id (agents st0) agent = Some conn -> capture (control st0) !! agent = Some f ->
  a_conn_id (f_active f) = conn ->
  mjpeg_active_capture (media st) !! agent = Some act -> a_conn_id act = conn -> a_prefs act = a_prefs (f_active f) ->
  generation act <> uuid_nil ->
  mjpeg_active_capture (media st') !! agent = Some act
  /\ agents st' = agents st0
  /\ (is_ok res = true -> monitor (a_prefs act) = monitor (inherit_monitor (media st) agent conn prefs req)).
Proof.
  intros Hb%begin_cases Hfresh. cbv zeta. rewrite <- (after_expiry_media st now). revert Hb.
  generalize (after_expiry st now). intros st0 Hb Hconn Hf Hfc Hact Hac Hap Hgen.
  destruct Hb as [e _|conn' entry st1 st2 res Hconn' _ Hnew Hfro _ _ Hentry -> Hs]; [by split_and!|].
  assert (conn' = conn) as -> by congruence. destruct (Hfro f Hf) as [_ Hmon].
  unfold sync_capture_locked in Hs. cbn [agents with_media media] in Hs. rewrite Hconn in Hs.
  set (m1 := set_viewers _ _) in Hs. cbn [mjpeg_active_capture m1 set_viewers set_sessions] in Hs.
  destruct (conn_sessions m1 agent (Some conn)) as [|s rest] eqn:Hcs.
  { exfalso. assert (entry ∈ conn_sessions m1 agent (Some conn)) as Hin; [|rewrite Hcs in Hin; by apply not_elem_of_nil in Hin].
    unfold conn_sessions, agent_sessions. apply list_elem_of_filter. split; [by rewrite Hentry|].
    apply list_elem_of_filter. split; [by rewrite Hentry|]. apply list_elem_of_fmap. exists (session, entry). split; [done|].
    apply elem_of_map_to_list. simpl. by rewrite lookup_insert_eq. }
  cbv zeta in Hs. rewrite Hact in Hs. cbn [is_some_and control with_media] in Hs.
  assert (forall sel, merged_prefs (control st0) agent conn sel s rest = a_prefs act) as Hmp.
  { intros sel. unfold merged_prefs. rewrite Hf. cbn [ofilter]. by rewrite bool_decide_eq_true_2, Hap. }
  rewrite Hmp in Hs. unfold wire_monitor_for in Hs. cbn [ofilter] in Hs.
  rewrite (bool_decide_eq_true_2 (a_conn_id act = conn)) in Hs by done.
  rewrite (bool_decide_eq_true_2 (monitor (a_prefs act) = _)) in Hs by done.
  rewrite (bool_decide_eq_true_2 (a_prefs act = _)) in Hs by done. cbn [andb] in Hs. rewrite (bool_decide_eq_false_2 (generation act = uuid_nil)) in Hs by done.
  rewrite (bool_decide_eq_true_2 (wire_monitor act = _)) in Hs by done. cbn [andb negb] in Hs. simplify_eq.
  split_and!; [done..|]. intros _. rewrite Hap, Hmon. done.
Qed.

(** Synchronization converges: once a sync succeeds, the agent runs exactly the capture its
    viewers need (none without sessions; otherwise one on the open connection, with the frozen
    or merged preferences, under a nonzero generation), and syncing again with nothing changed
    is a no-op that queues nothing and mints no new generation. *)
Theorem sync_capture_converges st agent req fresh fresh' st' :
  sync_capture_locked st agent req fresh = (st', Ok tt) -> fresh <> uuid_nil ->
  sync_capture_locked st' agent None fresh' = (st', Ok tt)
  /\ match conn_sessions (media st) agent (open_conn_id (agents st) agent), open_conn_id (agents st) agent with
     | [], _ => mjpeg_active_capture (media st') !! agent = None
     | _ :: _, None => True
     | s :: rest, Some conn =>
         exists sel act, mjpeg_active_capture (media st') !! agent = Some act /\ a_conn_id act = conn
         /\ a_prefs act = merged_prefs (control st) agent conn sel s rest /\ generation act <> uuid_nil
         /\ (forall r, req = Some r -> sel = r)
     end.
Proof.
  intros Hs Hfresh. destruct (sync_Ok _ _ _ _ _ Hs Hfresh) as (Hc & Ho & Hse & Hact).
  assert (conn_sessions (media st') agent (open_conn_id (agents st') agent) = conn_sessions (media st) agent (open_conn_id (agents st) agent)) as Hcs.
  { unfold conn_sessions, agent_sessions. by rewrite Ho, Hse. }
  split.
  - unfold sync_capture_locked. rewrite Hcs, Ho. destruct (conn_sessions (media st) _ _) as [|s rest] eqn:E.
    + rewrite Hact. cbn [ofilter]. rewrite delete_id by done. by destruct st' as [? ? [] ?].
    + destruct (open_conn_id (agents st) agent) as [conn|] eqn:Hconn; [|done].
      destruct Hact as (sel & act & Ha & Hac & Hap & Hgen & _). rewrite Ha. cbv zeta. cbn [ofilter is_some_and].
      rewrite (bool_decide_eq_true_2 (a_conn_id act = conn)) by done.
      assert (merged_prefs (control st') agent conn (monitor (a_prefs act)) s rest = a_prefs act) as Hmp.
      { rewrite Hap, Hc. unfold merged_prefs. by destruct (ofilter _ _). }
      rewrite Hmp. unfold wire_monitor_for. cbn [ofilter].
      rewrite (bool_decide_eq_true_2 (a_conn_id act = conn)) by done.
      rewrite (bool_decide_eq_true_2 (monitor (a_prefs act) = _)) by done. cbn [andb].
      rewrite (bool_decide_eq_true_2 (a_prefs act = _)), (bool_decide_eq_true_2 (wire_monitor act = _)) by done.
      by rewrite bool_decide_eq_false_2.
  - destruct (conn_sessions (media st) _ _) as [|s rest]; [done|]. destruct (open_conn_id (agents st) agent); [|done].
    destruct Hact as (sel & act & ? & ? & ? & ? & ? & _). exists sel, act. by split_and!.
Qed.

(** A lease is only ever bound to what its viewer is watching: validation succeeds only for a
    live session of this user on this agent and connection, running the very selection that
    session has, with a cached frame at most ten seconds old whose verified geometry names that
    display, belongs to no retired capture and matches any stamp the viewer sent; and what it
    freezes is that selection pinned to the display the frame shows. *)
Theorem validate_control_capture_sound st agent o value now fr :
  validate_control_capture st agent o value now = Ok fr ->
  module_authorized (agents st) agent LiveScreen = true
  /\ f_owner fr = o
  /\ exists s act frame g u mon,
       as_str (idx value "capture_session") ≫= parse_uuid = Some (f_session_id fr)
       /\ mjpeg_sessions (media st) !! f_session_id fr = Some s
       /\ s_agent_id s = agent /\ s_user_id s = user_id o /\ s_conn_id s = agent_connection_id o
       /\ mjpeg_active_capture (media st) !! agent = Some act
       /\ a_conn_id act = agent_connection_id o /\ monitor (a_prefs act) = monitor (s_prefs s)
       /\ frames (media st) !! agent = Some frame /\ now - last_update frame <= secs 10
       /\ frame_geometry (jpeg frame) = Some g
       /\ (isSome (get value "capture_id") = true \/ isSome (get value "geometry_revision") = true ->
            idx value "capture_id" = idx g "capture_id" /\ idx value "geometry_revision" = idx g "geometry_revision")
       /\ as_str (idx g "capture_id") ≫= parse_uuid = Some u /\ (Some u ∉ retired_capture_ids act)
       /\ as_u64 (idx g "monitor_index") = Some mon /\ mon < 64
       /\ (monitor (a_prefs act) = None \/ monitor (a_prefs act) = Some mon)
       /\ a_conn_id (f_active fr) = a_conn_id act /\ generation (f_active fr) = generation act
       /\ a_prefs (f_active fr) = pin_prefs (a_prefs act) (Some mon).
Proof.
  unfold validate_control_capture. intros (c & Hauth & Hx)%rbind_Ok. apply rbind_Ok in Hx as (session & Hsess%ok_or_Ok & Hx).
  apply rbind_Ok in Hx as (s & Hs%ok_or_Ok & Hx). apply ofilter_Some in Hs as [Hs Hsb]. bool_prop.
  apply rbind_Ok in Hx as (act & Hact%ok_or_Ok & Hx). apply ofilter_Some in Hact as [Hact Hab]. bool_prop.
  apply rbind_Ok in Hx as (frame & Hfr%ok_or_Ok & Hx). apply ofilter_Some in Hfr as [Hfr Hage]. bool_prop.
  apply rbind_Ok in Hx as (g & Hg%ok_or_Ok & Hx).
  destruct (frame_geometry_sound _ _ Hg) as (cid & u & rev & mon & Hcid & Hu & _ & _ & Hmon & Hmr & _).
  rewrite Hcid, Hmon in Hx. cbn [mbind option_bind default] in Hx. rewrite Hu in Hx. cbn [default] in Hx. cbv zeta in Hx.
  destruct (_ && _) eqn:Hstamp; [done|]. destruct (bool_decide _) eqn:Hret; [done|]. bool_prop.
  destruct (is_some_and (monitor (a_prefs act)) _) eqn:Hm; [done|]. injection Hx as <-. rewrite is_some_and_false in Hm.
  split; [|split; [done|]].
  - apply authorize_Ok in Hauth as (conn & _ & _ & _ & Ha). unfold authorized_as in Ha.
    change (gate (from_kind (kind_of start_capture_probe))) with (GModule LiveScreen) in Ha.
    by destruct Ha as [[? _]|(_ & _ & [?|?] & _)].
  - exists s, act, frame, g, u, mon. cbn [f_session_id f_active a_conn_id generation a_prefs].
    split_and!; try done; try lia.
    + unfold saturating_since in Hage. lia.
    + intros Hor. assert (isSome (get value "capture_id") || isSome (get value "geometry_revision") = true) as E
        by (apply orb_true_iff; done). rewrite E in Hstamp. cbn [andb] in Hstamp. apply orb_false_elim in Hstamp as [Hs1 Hs2].
      apply negb_false_iff in Hs1, Hs2. by apply json_eqb_eq in Hs1, Hs2.
    + by rewrite Hcid.
    + destruct (monitor (a_prefs act)) as [m|]; [|by left]. right. specialize (Hm m eq_refl). apply negb_false_iff in Hm.
      by apply Z.eqb_eq in Hm as ->.
Qed.

End theorems.

(** A granted device 7 on connection 70, with the given free queue slots. *)
Definition ex_prefs : MjpegViewerPrefs := clamp_mjpeg_viewer_prefs None None None.
Definition ex_begin (st : AppState) (session fresh : Uuid) : AppState * result unit CommandDenied :=
  @begin_mjpeg_session bin_uuid bin_json st 7%N session 2%N ex_prefs None 0 fresh.

Lemma begin_mjpeg_session_transactional_witness :
  exists st' e, ex_begin (ex_state 0) 5 6 = (st', Err e) /\ mjpeg_sessions (media st') = ∅
  /\ agents st' <> agents (ex_state 0).
Proof.
  set (r := ex_begin (ex_state 0) 5 6). exists r.1, (denied "command_queue_full" None).
  assert (r = (r.1, Err (denied "command_queue_full" None))) as Hr by (vm_compute; reflexivity). split; [exact Hr|].
  pose proof (@begin_mjpeg_session_transactional bin_uuid bin_json (ex_state 0) _ _ _ _ _ _ _ _ _ media_ok_default Hr) as Hb.
  cbv zeta beta iota in Hb. destruct Hb as [Hm _]. split; [exact Hm|].
  intros E. apply (f_equal (fun r => sockets r !! 70%N ≫= shutdown)) in E. vm_compute in E. discriminate E.
Defined.

Definition ex_started : AppState := (ex_begin (ex_state 9) 5 6).1.
Lemma sync_capture_converges_witness :
  exists st', @sync_capture_locked bin_uuid bin_json ex_started 7%N (Some (Some 2)) 8%N = (st', Ok tt)
  /\ @sync_capture_locked bin_uuid bin_json st' 7%N None 9%N = (st', Ok tt).
Proof.
  set (r := @sync_capture_locked bin_uuid bin_json ex_started 7%N (Some (Some 2)) 8%N).
  assert (r = (r.1, Ok tt)) as Hr by (vm_compute; reflexivity). exists r.1. split; [exact Hr|].
  refine (proj1 (@sync_capture_converges bin_uuid bin_json ex_started 7%N (Some (Some 2)) 8%N 9%N r.1 Hr _)). discriminate.
Defined.

(** The device's frame cached, and a lease of user 2 bound to it. *)
Definition ex_watching : AppState := with_media ex_started (store_frame (media ex_started) 7%N (default [] ex_frame.2) 0).
Definition ex_acquire : json := mk_obj [("capture_session", JStr "101")]%string.
Definition ex_lease_owner : LeaseOwner := {| viewer_connection_id := 1; user_id := 2; agent_connection_id := 70 |}%N.
Lemma validate_control_capture_sound_witness :
  exists fr, @validate_control_capture bin_uuid bin_json ex_watching 7%N ex_lease_owner ex_acquire (secs 10) = Ok fr
  /\ f_owner fr = ex_lease_owner.
Proof.
  set (r := @validate_control_capture bin_uuid bin_json ex_watching 7%N ex_lease_owner ex_acquire (secs 10)).
  set (fr := default {| f_owner := ex_lease_owner; f_session_id := 0%N; f_active := {| wire_monitor := None; generation := 0%N;
    retired_capture_ids := []; a_conn_id := 0%N; a_prefs := ex_prefs |} |} (rok r)).
  assert (r = Ok fr) as Hr by (vm_compute; reflexivity). exists fr. split; [exact Hr|].
  exact (proj1 (proj2 (@validate_control_capture_sound bin_uuid bin_json ex_watching 7%N ex_lease_owner ex_acquire (secs 10) fr Hr))).
Defined.

Definition ex_frozen : FrozenCapture :=
  {| f_owner := ex_lease_owner; f_session_id := 5%N;
     f_active := default {| wire_monitor := None; generation := 0%N; retired_capture_ids := []; a_conn_id := 0%N; a_prefs := ex_prefs |}
                   (mjpeg_active_capture (media ex_started) !! 7%N) |}.
Definition ex_leased : AppState := with_control ex_started (with_capture (control ex_started) {[ 7%N := ex_frozen ]}).
Lemma lease_freezes_capture_witness :
  exists st', ex_begin ex_leased 11 12 = (st', Ok tt)
  /\ mjpeg_active_capture (media st') !! 7%N = Some (f_active ex_frozen) /\ size (mjpeg_sessions (media st')) = 2%nat.
Proof.
  set (r := ex_begin ex_leased 11 12). assert (r = (r.1, Ok tt)) as Hr by (vm_compute; reflexivity).
  exists r.1. split; [exact Hr|]. split; [|vm_compute; reflexivity].
  refine (proj1 (@lease_freezes_capture bin_uuid bin_json ex_leased 7%N 11%N 2%N ex_prefs None 0 12%N r.1 (Ok tt) ex_frozen
    (f_active ex_frozen) 70%N Hr _ _ _ _ _ _ _ _)); try (vm_compute; reflexivity); vm_compute; discriminate.
Defined.
