(* ===== verification/Control.v ===== *)
(** The viewer-facing control operations of [server/src/control/runtime.rs]: acquiring,
    renewing and releasing a lease, and sending input under one. *)
From S2P Require Import Prelude Json Protocol Sessions Modules Registry Geometry State Runtime Capture.

(** ** Transitions that only take leases away *)

(** Every transition but a fresh grant: leases keep their owner or end with one cleanup. *)
Definition settles (s s' : ControlSessions) (c : list LeaseCleanup) : Prop :=
  Forall (cleanup_from s) c
  /\ (sessions_ok s -> sessions_ok s')
  /\ forall a, match leases s !! a, leases s' !! a with
     | Some l, Some l' => owner (grant l') = owner (grant l) /\ (a ∉ c_agent_id <$> c)
     | Some _, None => a ∈ c_agent_id <$> c
     | None, Some _ => False
     | None, None => True
     end.

Lemma settles_refl s : settles s s [].
Proof. split_and!; [constructor|done|]. intros a. destruct (leases s !! a); [|done]. split; [done|]. simpl. apply not_elem_of_nil. Qed.

Lemma settles_remove s a r : settles s (remove_lease s a r).1 (option_list (remove_lease s a r).2).
Proof.
  split_and!.
  - apply remove_lease_from.
  - intros Hok b l Hl. by apply remove_lease_lookup, Hok in Hl.
  - intros b. cbn [remove_lease fst snd leases]. destruct (leases s !! a) as [l|] eqn:Ha; simpl.
    + destruct (decide (b = a)) as [->|Hne]; [rewrite Ha, lookup_delete_eq; left|].
      rewrite lookup_delete_ne by done. destruct (leases s !! b); [|done]. split; [done|]. by intros ?%list_elem_of_singleton.
    + rewrite delete_id by done. destruct (leases s !! b); [|done]. split; [done|]. apply not_elem_of_nil.
Qed.

Lemma settles_expire_agent s a now : settles s (expire_agent s a now).1 (expire_agent s a now).2.
Proof. unfold expire_agent. case_match; [|apply settles_refl]. apply (settles_remove s a RExpired). Qed.

Lemma settles_authorize s a o tok now : settles s (authorize s a o tok now).1 (t_cleanup (authorize s a o tok now).2).
Proof.
  unfold authorize. pose proof (settles_expire_agent s a now) as Hs. by destruct (expire_agent s a now).
Qed.

(** A change to one live lease that keeps its owner. *)
Lemma settles_update s a l l' :
  leases s !! a = Some l -> owner (grant l') = owner (grant l) -> (sessions_ok s -> lease_ok l') ->
  settles s {| leases := <[a := l']> (leases s) |} [].
Proof.
  intros Hl Ho Hok. split_and!; [constructor| |].
  - intros Hs b x. simpl. rewrite lookup_insert_Some. intros [[<- <-]|[_ Hx]]; [by apply Hok|by eapply Hs].
  - intros b. simpl. destruct (decide (b = a)) as [->|Hne].
    + rewrite lookup_insert_eq, Hl. split; [done|apply not_elem_of_nil].
    + rewrite lookup_insert_ne by done. destruct (leases s !! b); [|done]. split; [done|apply not_elem_of_nil].
Qed.

Lemma authorize_cleanup_Ok s a o tok now :
  t_result (authorize s a o tok now).2 = Ok tt -> authorize s a o tok now = (s, {| t_result := Ok tt; t_cleanup := [] |}).
Proof.
  rewrite authorize_spec. destruct (leases s !! a) as [l|]; [|done]. case_match; [done|]. simpl. by intros ->.
Qed.

Lemma settles_track s a o tok cmd now :
  settles s (authorize_and_track s a o tok cmd now).1 (t_cleanup (authorize_and_track s a o tok cmd now).2).
Proof.
  pose proof (settles_authorize s a o tok now) as Hs. pose proof (authorize_cleanup_Ok s a o tok now) as Hok.
  unfold authorize_and_track. destruct (authorize s a o tok now) as [s1 t]. cbn [fst snd] in *.
  destruct (t_result t) as [[]|] eqn:Ht; [|done]. specialize (Hok eq_refl). simplify_eq. cbn [t_result t_cleanup].
  destruct (leases s !! a) as [l|] eqn:Hl; [|done]. destruct (track (held l) cmd) as [h|] eqn:Htr; [|done]. cbn [fst snd t_cleanup].
  apply (settles_update _ _ l); [done|done|]. intros Hsok. destruct (Hsok _ _ Hl) as [x Hx]. eexists. by eapply tracks_step.
Qed.

Lemma settles_heartbeat s a o tok ttl now :
  settles s (heartbeat s a o tok ttl now).1 (t_cleanup (heartbeat s a o tok ttl now).2).
Proof.
  pose proof (settles_authorize s a o tok now) as Hs. pose proof (authorize_cleanup_Ok s a o tok now) as Hok.
  unfold heartbeat. destruct (authorize s a o tok now) as [s1 t]. cbn [fst snd] in *.
  destruct (t_result t) as [[]|] eqn:Ht; [|done]. specialize (Hok eq_refl). simplify_eq. cbn [t_result t_cleanup].
  destruct (leases s !! a) as [l|] eqn:Hl; [|done]. cbn [fst snd t_cleanup].
  apply (settles_update _ _ l); [done|done|]. intros Hsok. apply (Hsok _ _ Hl).
Qed.

Lemma settles_release s a o tok now : settles s (release s a o tok now).1 (t_cleanup (release s a o tok now).2).
Proof.
  pose proof (settles_authorize s a o tok now) as Hs. pose proof (authorize_cleanup_Ok s a o tok now) as Hok.
  unfold release. destruct (authorize s a o tok now) as [s1 t]. cbn [fst snd] in *.
  destruct (t_result t) as [[]|] eqn:Ht; [|done]. specialize (Hok eq_refl). simplify_eq. cbn [t_cleanup app].
  apply (settles_remove s a RReleased).
Qed.

Lemma settles_remove_if s f r : settles s (remove_all s (lease_ids s f) r).1 (remove_all s (lease_ids s f) r).2.
Proof.
  assert (forall a, a ∈ c_agent_id <$> (remove_all s (lease_ids s f) r).2 <-> exists l, leases s !! a = Some l /\ f l = true) as Hin.
  { intros a. rewrite list_elem_of_fmap. split.
    - intros (c & -> & Hc). apply remove_all_cleanup in Hc as (b & l & Hb & Hl & ->); [|apply NoDup_lease_ids].
      by apply elem_of_lease_ids in Hb.
    - intros (l & Hl & Hf). exists (cleanup_of a r l). split; [done|]. apply remove_all_cleanup; [apply NoDup_lease_ids|].
      exists a, l. split_and!; [|done..]. apply elem_of_lease_ids. eauto. }
  split_and!; [apply remove_all_from| |].
  - intros Hok a l. rewrite remove_if_lookup. intros [Hl _]%ofilter_Some. by eapply Hok.
  - intros a. rewrite remove_if_lookup. destruct (leases s !! a) as [l|] eqn:Hl; [|done]. simpl.
    destruct (f l) eqn:Hf; simpl.
    + apply Hin. eauto.
    + split; [done|]. intros (l' & Hl' & Hf')%Hin. congruence.
Qed.

Lemma settles_revoke_agent s a conn : settles s (revoke_agent s a conn).1 (revoke_agent s a conn).2.
Proof. unfold revoke_agent. case_match; [|apply settles_refl]. apply (settles_remove s a RAgentDisconnected). Qed.

Section control.
Context `{UuidText, JsonText}.

Definition remote_denied (c : string) : CommandDenied := denied c (Some RemoteInput).
(** The command whose authorization stands for remote input's. *)
Definition mouse_probe : json := mk_obj [("type", JStr "MouseMove"); ("x", JInt 0); ("y", JInt 0)]%string.

(** [value[k].as_str().and_then(|s| s.parse::<Uuid>().ok())]. *)
Definition uuid_field (value : json) (k : string) : option Uuid := as_str (idx value k) ≫= parse_uuid.

(** ** [control_lease_message] *)

(** The acquire branch, for the identified [o]. *)
Definition control_acquire (st : AppState) (agent_id : Uuid) (o : LeaseOwner) (value : json) (now clock : Instant) (fresh : Uuid)
    : AppState * result (option LeaseGrant) CommandDenied :=
  let '(st, safe) := commit_sessions st (expire_agent (sessions (control st)) agent_id now) in
  if negb safe then (st, Err (remote_denied "control_cleanup_failed")) else
  match validate_control_capture st agent_id o value clock with
  | Err e => (st, Err e)
  | Ok frozen =>
      if is_some_and (capture (control st) !! agent_id)
           (fun c => bool_decide (f_owner c = o) && negb (bool_decide (f_session_id c = f_session_id frozen)))
      then (st, Err (live_denied "capture_session_locked")) else
      let '(s, t) := acquire (sessions (control st)) agent_id o DEFAULT_LEASE_TTL now fresh in
      let '(st, safe) := commit_sessions st (s, t_cleanup t) in
      if negb safe then
        ((commit_sessions st (revoke_agent (sessions (control st)) agent_id (agent_connection_id o))).1,
         Err (remote_denied "control_cleanup_failed"))
      else
        match t_result t with
        | Err e => (st, Err (lease_error e))
        | Ok grant =>
            let st := commit_control_capture st agent_id frozen in
            let st := match capture (control st) !! agent_id with
                      | Some _ => st
                      | None => with_control st (with_capture (control st) (<[agent_id := frozen]> (capture (control st))))
                      end in
            (st, Ok (Some grant))
        end
  end.

(** The closure of [control_lease_message]: the whole operation but the reply and audit. *)
Definition control_lease_op (st : AppState) (agent_id viewer : Uuid) (user : AuthUser) (value : json) (now clock : Instant)
    (fresh : Uuid) : AppState * result (option LeaseGrant) CommandDenied :=
  let kind := kind_of value in
  match current_control_owner st agent_id viewer user with
  | Err e => (st, Err e)
  | Ok o =>
      match (if String.eqb kind "control_release" then Ok JNull
             else authorize_agent_command (agents st) agent_id mouse_probe) with
      | Err e => (st, Err e)
      | Ok _ =>
          let token := uuid_field value "lease_token" in
          if String.eqb kind "control_acquire" then control_acquire st agent_id o value now clock fresh
          else
            match token with
            | None => (st, Err (lease_error Missing))
            | Some token =>
                if String.eqb kind "control_heartbeat" then
                  let '(s, t) := heartbeat (sessions (control st)) agent_id o token DEFAULT_LEASE_TTL now in
                  let '(st, _) := commit_sessions st (s, t_cleanup t) in
                  (st, match t_result t with Ok g => Ok (Some g) | Err e => Err (lease_error e) end)
                else if String.eqb kind "control_release" then
                  let '(s, t) := release (sessions (control st)) agent_id o token now in
                  let '(st, _) := commit_sessions st (s, t_cleanup t) in
                  (st, match t_result t with Ok _ => Ok None | Err e => Err (lease_error e) end)
                else (st, Err (denied "invalid_request" None))
            end
      end
  end.

(** The reply, without its human-readable error text. *)
Definition base_reply (agent_id request_id : option Uuid) : json :=
  mk_obj [("event", JStr "control_lease"); ("agent_id", opt_json uuid_json agent_id);
          ("request_id", opt_json uuid_json request_id); ("status", JStr "denied"); ("expires_in_ms", JInt 0)]%string.
Definition lease_reply (st : AppState) (agent_id : Uuid) (reply : json) (res : result (option LeaseGrant) CommandDenied)
    (now : Instant) : json :=
  match res with
  | Ok (Some grant) =>
      let reply := set_idx reply "status" (JStr "granted") in
      let reply := set_idx reply "lease_token" (uuid_json (token grant)) in
      let reply := match capture (control st) !! agent_id with
                   | Some c => set_idx (set_idx reply "capture_session" (uuid_json (f_session_id c)))
                                 "monitor" (opt_json JInt (monitor (a_prefs (f_active c))))
                   | None => reply
                   end in
      set_idx reply "expires_in_ms" (JInt (as_millis (remaining grant now)))
  | Ok None => set_idx reply "status" (JStr "released")
  | Err e => set_idx reply "code" (JStr (code e))
  end.
(** [clock] is the [Instant::now()] of the frame-age check, [audit_now] the audit's. *)
Definition control_lease_message (st : AppState) (viewer : Uuid) (user : AuthUser) (value : json) (now clock audit_now : Instant)
    (fresh : Uuid) : AppState * json :=
  let agent_id := uuid_field value "agent_id" in
  let request_id := uuid_field value "request_id" in
  let reply := base_reply agent_id request_id in
  match agent_id, request_id with
  | Some agent_id, Some _ =>
      let kind := kind_of value in
      let '(st, res) := control_lease_op st agent_id viewer user value now clock fresh in
      let reply := lease_reply st agent_id reply res now in
      let st :=
        if negb (String.eqb kind "control_heartbeat") || negb (is_ok res) then
          let action := if String.eqb kind "control_release" then "control_release"%string else "control_acquire"%string in
          with_control st (audit_control_event (control st) user agent_id action (negb (is_ok res)) audit_now).1
        else st in
      (st, reply)
  | _, _ => (st, set_idx reply "code" (JStr "invalid_request"))
  end.

(** ** [send_viewer_input] *)

Definition send_viewer_input (st : AppState) (agent_id viewer : Uuid) (user : AuthUser) (tok : option Uuid) (cmd : json)
    (now : Instant) : AppState * result unit CommandDenied :=
  match current_control_owner st agent_id viewer user with
  | Err e => (st, Err e)
  | Ok o =>
      match tok with
      | None => (st, Err (lease_error Missing))
      | Some tok =>
          match authorize_agent_command (agents st) agent_id cmd with
          | Err e => (st, Err e)
          | Ok authorized =>
              let '(s, t) := authorize_and_track (sessions (control st)) agent_id o tok cmd now in
              let '(st, _) := commit_sessions st (s, t_cleanup t) in
              match t_result t with
              | Err e => (st, Err (lease_error e))
              | Ok _ =>
                  match enqueue_authorized_command (agents st) agent_id (agent_connection_id o) authorized with
                  | Ok r => (with_agents st r, Ok tt)
                  | Err e =>
                      let st := match ofilter (fun c => bool_decide (conn_id c = agent_connection_id o)) (connections (agents st) !! agent_id) with
                                | Some c => with_agents st (send_shutdown (agents st) (conn_id c) "")
                                | None => st
                                end in
                      ((commit_sessions st (revoke_agent (sessions (control st)) agent_id (agent_connection_id o))).1, Err e)
                  end
              end
          end
      end
  end.

End control.
