(* ===== verification/Clipboard.v ===== *)
(** Lease-fenced clipboard requests: [server/src/control/clipboard.rs], and the delivery-time
    re-check of queued commands, [command_deliverable] of [server/src/agents/modules/mod.rs]. *)
From S2P Require Import Prelude Json Protocol Sessions Modules Registry Geometry State Runtime Capture Control.

Definition MAX_TEXT_BYTES : Z := 64 * 1024.
Definition TIMEOUT : Duration := secs 5.
Definition NUL : ascii := ascii_of_nat 0.
Fixpoint has_nul (s : string) : bool :=
  match s with EmptyString => false | String c s => Ascii.eqb c NUL || has_nul s end.
(** [t.len() <= MAX_TEXT_BYTES && !t.contains('\0')], on the UTF-8 bytes. *)
Definition text_ok (t : string) : bool := (Z.of_nat (String.length t) <=? MAX_TEXT_BYTES) && negb (has_nul t).

Definition clip_denied : CommandDenied := denied "clipboard_unavailable" (Some Clipboard).
Definition is_clipboard_kind (cmd : json) : bool :=
  str_is (idx cmd "type") "ClipboardRead" || str_is (idx cmd "type") "ClipboardWrite".

Section clipboard_section.
Context `{UuidText, JsonText}.

(** [Request::command]. *)
Definition request_command (action : string) (text : option string) (id : Uuid) : result ServerCommand CommandDenied :=
  match text with
  | None =>
      if String.eqb action "read" then Ok (ClipboardRead {| cr_request_id := Some id |})
      else Err (denied "invalid_request" None)
  | Some t =>
      if String.eqb action "write" && text_ok t then
        Ok (ClipboardWrite_ {| cw_request_id := Some id; cw_text := Some t |})
      else Err (denied "invalid_request" None)
  end.

(** [clipboard_valid_locked], reading the clock at [now] and again at [now']. *)
Definition clipboard_valid_locked (st : AppState) (p : PendingClipboard) (now now' : Instant) : AppState * bool :=
  if (pc_deadline p <=? now)
     || negb (is_some_and (open_conn (agents st) (pc_agent p)) (fun c => bool_decide (conn_id c = agent_connection_id (pc_owner p))))
  then (st, false)
  else
    let '(s, t) := authorize (sessions (control st)) (pc_agent p) (pc_owner p) (pc_token p) now' in
    let '(st, _) := commit_sessions st (s, t_cleanup t) in
    if negb (is_ok (t_result t)) then (st, false)
    else if negb (is_ok (authorize_agent_command (agents st) (pc_agent p) mouse_probe)) then (st, false)
    else
      match authorize_agent_command (agents st) (pc_agent p) (remove_key (pc_fence p) "__module_generation") with
      | Ok v => (st, json_eqb (idx v "__module_generation") (idx (pc_fence p) "__module_generation"))
      | Err _ => (st, false)
      end.

Definition set_clipboard (st : AppState) (x : gmap Uuid PendingClipboard) : AppState :=
  with_control st (with_clipboard (control st) x).

(** [clipboard_deliverable_locked]: the pending entry is taken out for the check and put back. *)
Definition clipboard_deliverable_locked (st : AppState) (agent conn : Uuid) (cmd : json) (now now' : Instant) : AppState * bool :=
  match uuid_field cmd "request_id" with
  | None => (st, false)
  | Some id =>
      match clipboard (control st) !! id with
      | None => (st, false)
      | Some p =>
          let st := set_clipboard st (delete id (clipboard (control st))) in
          let '(st, valid) :=
            if bool_decide (pc_agent p = agent) && bool_decide (agent_connection_id (pc_owner p) = conn)
               && json_eqb (idx (pc_fence p) "type") (idx cmd "type")
               && json_eqb (idx (pc_fence p) "__module_generation") (idx cmd "__module_generation")
            then clipboard_valid_locked st p now now' else (st, false) in
          (set_clipboard st (<[id := p]> (clipboard (control st))), valid)
      end
  end.

(** The reply to a request whose agent answered [value]. *)
Definition clip_error (message : string) : json := mk_obj [("ok", JBool false); ("error", JStr message)]%string.
Definition clipboard_reply (p : PendingClipboard) (valid : bool) (value : json) : json :=
  if negb valid then clip_error "Clipboard permission, connection, or control lease was revoked."
  else if bool_decide (idx value "ok" = JBool true) then
    if str_is (idx (pc_fence p) "type") "ClipboardRead" then
      match ofilter text_ok (as_str (idx value "text")) with
      | Some text => mk_obj [("ok", JBool true); ("text", JStr text)]%string
      | None => clip_error "Agent returned invalid or oversized clipboard text."
      end
    else mk_obj [("ok", JBool true)]%string
  else clip_error "Agent could not access clipboard text; permission may have been revoked or the desktop clipboard may be unavailable.".

(** [complete_clipboard]: the state, and the reply sent to request [id]'s waiter if it still had one. *)
Definition complete_clipboard (st : AppState) (agent conn : Uuid) (value : json) (now now' : Instant)
    : AppState * option (Uuid * json) :=
  match uuid_field value "request_id" with
  | None => (st, None)
  | Some id =>
      match clipboard (control st) !! id with
      | None => (st, None)
      | Some p =>
          if negb (bool_decide (pc_agent p = agent)) || negb (bool_decide (agent_connection_id (pc_owner p) = conn)) then (st, None)
          else
            let st := set_clipboard st (delete id (clipboard (control st))) in
            let '(st, valid) := clipboard_valid_locked st p now now' in
            let reply := clipboard_reply p valid value in
            let p' := {| pc_agent := pc_agent p; pc_owner := pc_owner p; pc_token := pc_token p; pc_deadline := pc_deadline p;
                         pc_fence := pc_fence p; pc_waiting := false |} in
            (set_clipboard st (<[id := p']> (clipboard (control st))), if pc_waiting p then Some (id, reply) else None)
      end
  end.

(** How an HTTP clipboard request starts ([exchange] up to its wait loop). *)
Inductive ClipOutcome : Type :=
| ClipRefused (e : CommandDenied)
| ClipBadRequest (e : CommandDenied)
| ClipBusy
| ClipWaiting.
Definition clipboard_start (st : AppState) (agent : Uuid) (user : AuthUser) (action : string) (control_token : Uuid)
    (text : option string) (id : Uuid) (now now1 now2 : Instant) : AppState * ClipOutcome :=
  if negb (is_operator user) then (st, ClipRefused clip_denied) else
  match request_command action text id with
  | Err e => (st, ClipBadRequest e)
  | Ok command =>
      match http_owner (sessions (control st)) agent (u_user_id user) control_token with
      | None => (st, ClipRefused clip_denied)
      | Some o =>
          match authorize_agent_command (agents st) agent (to_value command) with
          | Err e => (st, ClipRefused e)
          | Ok authorized =>
              let p := {| pc_agent := agent; pc_owner := o; pc_token := control_token; pc_deadline := now + TIMEOUT;
                          pc_fence := remove_key authorized "text"; pc_waiting := true |} in
              let '(st, valid) := clipboard_valid_locked st p now1 now2 in
              if negb valid then (st, ClipRefused clip_denied)
              else if (128 <=? map_len (clipboard (control st)))
                      || existsb (fun kv => bool_decide (pc_agent kv.2 = agent)) (map_to_list (clipboard (control st)))
              then (st, ClipBusy)
              else
                let st := set_clipboard st (<[id := p]> (clipboard (control st))) in
                match enqueue_authorized_command (agents st) agent (agent_connection_id o) authorized with
                | Ok r => (with_agents st r, ClipWaiting)
                | Err e => (set_clipboard st (delete id (clipboard (control st))), ClipRefused e)
                end
          end
      end
  end.

(** One tick of the wait loop: whether the request is still valid, and whether it has expired. *)
Definition clipboard_tick (st : AppState) (id : Uuid) (now now1 now2 : Instant) : AppState * bool * bool :=
  match clipboard (control st) !! id with
  | None => (st, false, false)
  | Some p =>
      let st := set_clipboard st (delete id (clipboard (control st))) in
      let '(st, valid) := clipboard_valid_locked st p now1 now2 in
      (set_clipboard st (<[id := p]> (clipboard (control st))), valid, pc_deadline p <=? now)
  end.
(** The reply arm of the wait loop: the entry is consumed and re-validated before the reply is used. *)
Definition clipboard_finish (st : AppState) (id : Uuid) (now now' : Instant) : AppState * bool :=
  match clipboard (control st) !! id with
  | None => (st, false)
  | Some p => clipboard_valid_locked (set_clipboard st (delete id (clipboard (control st)))) p now now'
  end.
(** [WaiterGuard::drop]: a best-effort cancellation to the original socket. *)
Definition clipboard_drop (st : AppState) (id : Uuid) : AppState :=
  match clipboard (control st) !! id with
  | None => st
  | Some p =>
      let st := set_clipboard st (delete id (clipboard (control st))) in
      match enqueue_authorized_command (agents st) (pc_agent p) (agent_connection_id (pc_owner p))
              (to_value (ClipboardCancel {| cr_request_id := Some id |})) with
      | Ok r => with_agents st r
      | Err _ => st
      end
  end.

(** ** Delivery *)

(** What the capture generation of a queued start or stop must be to be delivered. *)
Definition expected_capture (st : AppState) (agent_id conn : Uuid) (cmd : json) : option json :=
  let active := mjpeg_active_capture (media st) !! agent_id in
  if str_is (idx cmd "type") "start_capture" then
    (fun a => uuid_json (generation a)) <$> ofilter (fun a => bool_decide (a_conn_id a = conn)) active
  else match active with None => Some (JStr "stopped") | Some _ => None end.

Definition command_deliverable (st : AppState) (agent_id conn : Uuid) (cmd : json) (now now' : Instant) : AppState * bool :=
  let '(st, clip) := if is_clipboard_kind cmd then clipboard_deliverable_locked st agent_id conn cmd now now' else (st, true) in
  if negb clip then (st, false)
  else if negb (bool_decide (open_conn_id (agents st) agent_id = Some conn)) then (st, false)
  else
    let cap := get cmd "__capture_generation" in
    let untagged := remove_key cmd "__capture_generation" in
    if (if str_is (idx cmd "type") "start_capture" || str_is (idx cmd "type") "stop_capture" then
          isSome cap && bool_decide (cap = expected_capture st agent_id conn cmd)
        else negb (isSome cap))
    then
      let gen := get untagged "__module_generation" in
      let untagged := remove_key untagged "__module_generation" in
      match authorize_agent_command (agents st) agent_id untagged with
      | Ok expected => (st, bool_decide (gen = get expected "__module_generation"))
      | Err _ => (st, false)
      end
    else (st, false).

(** The socket task taking the next queued message ([run]'s [cmd_rx.recv()] arm): what it sends. *)
Definition task_recv (st : AppState) (agent_id conn : Uuid) (now now' : Instant) : AppState * option json :=
  match sockets (agents st) !! conn with
  | Some s =>
      match queue s with
      | [] => (st, None)
      | msg :: rest =>
          let st := with_agents st (with_sockets (agents st) (<[conn := {| shutdown := shutdown s; queue := rest |}]> (sockets (agents st)))) in
          match msg with
          | CText command =>
              let '(st, ok) := command_deliverable st agent_id conn command now now' in
              (st, if ok then Some command else None)
          | CInputCleanup cleanup_conn command =>
              (st, if control_cleanup_deliverable st agent_id conn cleanup_conn command then Some command else None)
          | CClose => (st, None)
          end
      end
  | None => (st, None)
  end.

End clipboard_section.

Lemma clipboard_valid_keeps `{UuidText, JsonText} st p n1 n2 :
  media (clipboard_valid_locked st p n1 n2).1 = media st
  /\ clipboard (control (clipboard_valid_locked st p n1 n2).1) = clipboard (control st).
Proof.
  unfold clipboard_valid_locked. destruct (_ || _); [done|]. destruct (authorize _ _ _ _ _) as [s t].
  destruct (commit_sessions_keeps st (s, t_cleanup t)) as (Hm & _ & _ & Hc). destruct (commit_sessions _ _) as [st1 b]. cbn [fst] in *.
  repeat (case_match; try done).
Qed.
