(* ===== verification/Connection.v ===== *)
(** An agent connection's life: registration and cleanup
    ([server/src/agent_ws/connection.rs]), invalidation ([server/src/agents/lifecycle.rs]), and the
    module reports and disable acknowledgments it sends
    ([server/src/agents/modules/mod.rs]). Database rows and outcomes are arguments. *)
From S2P Require Import Prelude Text Json Protocol Sessions Modules Registry Geometry State Runtime Capture Control.

Definition set_conns (r : AgentRegistry) (c : gmap Uuid AgentConn) (k : gmap Uuid Uuid) (m : gmap Uuid RuntimeModules)
    (s : gmap Uuid Socket) : AgentRegistry :=
  {| connections := c; cmds := k; modules := m; live := live r; sockets := s |}.

Section connection.
Context `{UuidText, JsonText}.
(** How [chrono] prints a timestamp. *)
Variable time_json : Z -> json.

(** ** Registration *)

(** The synchronous part of [register_authenticated_connection]: [session] is what the database
    registered for the presented credential ([None] when it was revoked meanwhile),
    [has_report] whether a report was ever persisted ([None] on a database error), [conn] the
    fresh connection id. *)
Definition register_authenticated_connection (st : AppState) (agent_id : Uuid) (name : string) (session : option Z)
    (has_report : option bool) (at_ : Z) (conn : Uuid) : AppState * option Uuid :=
  match session with
  | None => (st, None)
  | Some session =>
      let legacy := negb (default true has_report) in
      let old := connections (agents st) !! agent_id in
      let st := match old with
                | Some c => clear_capture_connection_locked (revoke_agent_control_locked st agent_id (conn_id c)) agent_id (conn_id c)
                | None => st
                end in
      let r := agents st in
      let entry := {| conn_id := conn; connected_at := at_; session_id := session; legacy_policy_delivery := legacy |} in
      let previous := connections r !! agent_id in
      let r := set_conns r (<[agent_id := entry]> (connections r)) (<[agent_id := conn]> (cmds r))
                 (delete agent_id (modules r)) (<[conn := {| shutdown := None; queue := [] |}]> (sockets r)) in
      let r := match previous with Some p => send_shutdown r (conn_id p) "" | None => r end in
      (broadcast (with_agents st r)
         (BText (mk_obj [("event", JStr "agent_connected"); ("agent_id", uuid_json agent_id); ("name", JStr name);
                         ("connected_at", time_json at_)]%string)), Some conn)
  end.

Definition disconnected_event (agent_id : Uuid) (at_ : Z) : json :=
  mk_obj [("event", JStr "agent_disconnected"); ("agent_id", uuid_json agent_id); ("disconnected_at", time_json at_)]%string.
Definition drop_frame (st : AppState) (agent_id : Uuid) : AppState :=
  with_media st (set_frames (media st) (delete agent_id (frames (media st)))).

(** [cleanup_connection], with the queue receiver it leaves behind dropped by the ending task. *)
Definition cleanup_connection (st : AppState) (agent_id conn : Uuid) (at_ : Z) : AppState :=
  let st := revoke_agent_control_locked st agent_id conn in
  let st := clear_capture_connection_locked st agent_id conn in
  let is_current := bool_decide (conn_id <$> connections (agents st) !! agent_id = Some conn) in
  let st :=
    if is_current then
      let r := clear_live (agents st) agent_id in
      let st := with_agents st (set_conns r (delete agent_id (connections r)) (delete agent_id (cmds r))
                                  (delete agent_id (modules r)) (sockets r)) in
      broadcast (drop_frame st agent_id) (BText (disconnected_event agent_id at_))
    else st in
  with_agents st (with_sockets (agents st) (delete conn (sockets (agents st)))).

(** [invalidate_agent_connection]. *)
Definition invalidate_agent_connection (st : AppState) (agent_id : Uuid) (reason : string) (at_ : Z) : AppState :=
  let current := connections (agents st) !! agent_id in
  let st := match current with
            | Some c => clear_capture_connection_locked (revoke_agent_control_locked st agent_id (conn_id c)) agent_id (conn_id c)
            | None => st
            end in
  let r := agents st in
  let st := with_agents st (set_conns r (delete agent_id (connections r)) (delete agent_id (cmds r))
                              (delete agent_id (modules r)) (sockets r)) in
  let st := with_agents st (clear_live (agents st) agent_id) in
  let st := drop_frame st agent_id in
  match current with
  | Some c => broadcast (with_agents st (send_shutdown (agents st) (conn_id c) reason)) (BText (disconnected_event agent_id at_))
  | None => st
  end.

(** ** Module reports *)

(** What a change of grants does to leases and capture before it is published. *)
Definition grant_blocks_control (report : ModuleReport) : bool :=
  let screen := report_get report LiveScreen in
  let input := report_get report RemoteInput in
  negb (enabled screen) || negb (available screen) || authorization_required screen
  || negb (enabled input) || negb (available input) || authorization_required input.
Definition revision_changed (r : AgentRegistry) (agent_id : Uuid) (report : ModuleReport) (m : Module_) : bool :=
  is_some_and (modules r !! agent_id) (fun old =>
    negb (ms_revision (report_get (Registry.report old) m) =? ms_revision (report_get report m))).
(** [active.generation = Uuid::nil()]. *)
Definition reset_generation (st : AppState) (agent_id : Uuid) : AppState :=
  match mjpeg_active_capture (media st) !! agent_id with
  | Some a =>
      let a := {| wire_monitor := wire_monitor a; generation := uuid_nil; retired_capture_ids := retired_capture_ids a;
                  a_conn_id := a_conn_id a; a_prefs := a_prefs a |} in
      with_media st (set_active (media st) (<[agent_id := a]> (mjpeg_active_capture (media st))))
  | None => st
  end.
Definition pending_map (l : list ModuleDisableRequest) : gmap Uuid ModuleDisableRequest :=
  foldl (fun m r => <[dr_command_id r := r]> m) ∅ l.
Definition set_runtime (st : AppState) (agent_id : Uuid) (rt : RuntimeModules) : AppState :=
  with_agents st (with_modules (agents st) (<[agent_id := rt]> (modules (agents st)))).

Definition modules_event (agent_id : Uuid) (report : ModuleReport) (at_ : Z) : json :=
  mk_obj [("event", JStr "agent_modules"); ("agent_id", uuid_json agent_id); ("state", report_to_value report);
          ("reported_at", time_json at_)]%string.
(** [accept_module_report] up to its replay: [pending] are the rows the database holds. Its two
    awaits are under the ingestion lease, so the connection and its stored report do not change
    between the checks and the update. *)
Definition accept_module_report (st : AppState) (agent_id conn : Uuid) (value : json) (pending : list ModuleDisableRequest)
    (at_ : Z) : AppState * result ModuleReport string :=
  match parse_report value with
  | Err e => (st, Err e)
  | Ok report =>
      if negb (bool_decide (conn_id <$> connections (agents st) !! agent_id = Some conn)) then (st, Err "stale socket report"%string)
      else if is_some_and (ofilter (fun rt => bool_decide (rm_conn_id rt = conn)) (modules (agents st) !! agent_id))
                (fun previous => negb (follows report (Registry.report previous)))
      then (st, Err "backward or inconsistent module revisions"%string)
      else
        let screen_changed := revision_changed (agents st) agent_id report LiveScreen in
        let revoke := screen_changed || grant_blocks_control report
                      || existsb (fun r => bool_decide (dr_module r = RemoteInput)) pending
                      || revision_changed (agents st) agent_id report RemoteInput in
        let st := if revoke then revoke_agent_control_locked st agent_id conn else st in
        let st := if screen_changed then reset_generation st agent_id else st in
        let '(sent, last) :=
          match ofilter (fun rt => bool_decide (rm_conn_id rt = conn)) (modules (agents st) !! agent_id) with
          | Some rt => (sent rt, last_sent rt)
          | None => (∅, ∅)
          end in
        let rt := {| rm_conn_id := conn; Registry.report := report; pending := pending_map pending; sent := sent; last_sent := last |} in
        (broadcast (set_runtime st agent_id rt) (BText (modules_event agent_id report at_)), Ok report)
  end.

(** [replay_module_disables] for one request of the pending map, at [now]: queued once per
    connection. *)
Definition replay_one (st : AppState) (agent_id conn : Uuid) (request : ModuleDisableRequest) (now : Instant) : AppState :=
  match send_command (agents st) agent_id
          (DisableModule_ (DisableModule_new (dr_module request) (dr_expected_revision request) (dr_command_id request))) with
  | Err _ => st
  | Ok r =>
      let st := with_agents st r in
      match ofilter (fun rt => bool_decide (rm_conn_id rt = conn)) (modules (agents st) !! agent_id) with
      | Some rt =>
          set_runtime st agent_id
            {| rm_conn_id := rm_conn_id rt; Registry.report := Registry.report rt; pending := pending rt;
               sent := {[ dr_command_id request ]} ∪ sent rt; last_sent := <[dr_command_id request := now]> (last_sent rt) |}
      | None => st
      end
  end.
Definition unsent_requests (st : AppState) (agent_id conn : Uuid) : list ModuleDisableRequest :=
  match ofilter (fun rt => bool_decide (rm_conn_id rt = conn)) (modules (agents st) !! agent_id) with
  | Some rt => filter (fun r => dr_command_id r ∉ sent rt) (snd <$> map_to_list (pending rt))
  | None => []
  end.
Definition replay_module_disables (st : AppState) (agent_id conn : Uuid) (now : Instant) : AppState :=
  foldl (fun st request => replay_one st agent_id conn request now) st (unsent_requests st agent_id conn).

(** ** Disable acknowledgments *)

Record DisableAck := {
  ack_kind : string;
  ack_command_id : Uuid;
  ack_module : Module_;
  ack_ok : bool;
  ack_status : string;
  ack_state : option json;
  ack_error : option string;
  ack_persisted : bool;
  ack_stopped : bool;
  ack_stop_status : option string
}.
(** A field with [#[serde(default)]]; an [Option] also reads null as absent. *)
Definition defaulted {T} (rd : json -> option T) (d : T) (field : option json) : option T :=
  match field with Some v => rd v | None => Some d end.
Definition nullable {T} (rd : json -> option T) (v : json) : option (option T) :=
  match v with JNull => Some None | _ => Some <$> rd v end.
Definition decode_ack (v : json) : option DisableAck :=
  fs ← struct_fields false ["type"; "command_id"; "module"; "ok"; "status"; "state"; "error"; "persisted"; "stopped"; "stop_status"]%string v;
  match fs return option DisableAck with
  | [k; c; m; o; s; t; e; p; x; y] =>
      k ← k ≫= as_str; c ← (c ≫= as_str) ≫= parse_uuid; m ← m ≫= module_of_json; o ← o ≫= as_bool; s ← s ≫= as_str;
      t ← defaulted (nullable (@Some json)) (@None json) t; e ← defaulted (nullable as_str) (@None string) e;
      p ← defaulted as_bool false p; x ← defaulted as_bool false x; y ← defaulted (nullable as_str) (@None string) y;
      Some {| ack_kind := k; ack_command_id := c; ack_module := m; ack_ok := o; ack_status := s; ack_state := t;
              ack_error := e; ack_persisted := p; ack_stopped := x; ack_stop_status := y |}
  | _ => None
  end.

Definition ack_success (status : string) : bool := existsb (String.eqb status) ["disabled"; "duplicate"]%string.
Definition ack_statuses : list string := ["disabled"; "duplicate"; "stale"; "conflict"; "error"]%string.

(** The checks an acknowledgment must pass against its request and the previous report. *)
Definition check_ack (ack : DisableAck) (request : ModuleDisableRequest) (previous : option ModuleReport)
    : result (option ModuleReport) string :=
  let success := ack_success (ack_status ack) in
  ensure bool_decide (dr_module request = ack_module ack) else "acknowledgment module differs from request"%string in
  ensure existsb (String.eqb (ack_status ack)) ack_statuses && Bool.eqb (ack_ok ack) success
    else "invalid acknowledgment status"%string in
  ensure negb success || ack_persisted ack else "successful ack must confirm durable persistence"%string in
  ensure negb (ack_stopped ack) else "physical stop is not confirmed by this protocol"%string in
  ensure Z.of_nat (String.length (default "unconfirmed"%string (ack_stop_status ack))) <=? 256 else "invalid stop status"%string in
  let* report := match ack_state ack with
                 | Some v => let* r := parse_report v in Ok (Some r)
                 | None => Ok None
                 end in
  ensure String.eqb (ack_status ack) "error" || isSome report else "acknowledgment needs full report"%string in
  match report with
  | None => Ok None
  | Some report =>
      let grant := report_get report (ack_module ack) in
      ensure negb success || (dr_expected_revision request <? ms_revision grant)
        else "ack revision does not follow requested generation"%string in
      ensure negb (String.eqb (ack_status ack) "disabled") || (negb (enabled grant) && authorization_required grant)
        else "disable ack must report revoked grant"%string in
      ensure negb (String.eqb (ack_status ack) "stale") || negb (ms_revision grant =? dr_expected_revision request)
        else "stale ack must show different generation"%string in
      ensure is_none_or previous (follows report) else "backward acknowledgment report"%string in
      Ok (Some report)
  end.

Definition ack_event (agent_id : Uuid) (ack : DisableAck) (report : option ModuleReport) : json :=
  mk_obj [("event", JStr "module_disable_ack"); ("agent_id", uuid_json agent_id); ("command_id", uuid_json (ack_command_id ack));
          ("module", module_to_json (ack_module ack)); ("status", JStr (ack_status ack));
          ("persisted", JBool (ack_success (ack_status ack))); ("stopped", JBool false);
          ("stop_status", JStr (default "unconfirmed" (ack_stop_status ack)));
          ("error", opt_json (fun e => JStr (chars_take 1024 e)) (ack_error ack));
          ("state", opt_json report_to_value report)]%string.
(** [accept_module_disable_ack]: [request] is the database row of the acknowledged command. *)
Definition accept_module_disable_ack (st : AppState) (agent_id conn : Uuid) (value : json)
    (request : Uuid -> option ModuleDisableRequest) : AppState * result unit string :=
  match decode_ack value with
  | None => (st, Err "serde"%string)
  | Some ack =>
      if negb (String.eqb (ack_kind ack) "module_disable_ack") then (st, Err "invalid acknowledgment type"%string) else
      if negb (bool_decide (conn_id <$> connections (agents st) !! agent_id = Some conn)) then (st, Err "stale socket acknowledgment"%string) else
      match request (ack_command_id ack) with
      | None => (st, Err "uncorrelated acknowledgment"%string)
      | Some req =>
          if negb (dr_pending req) then (st, Ok tt) else
          let runtime := ofilter (fun rt => bool_decide (rm_conn_id rt = conn)) (modules (agents st) !! agent_id) in
          if negb (is_some_and runtime (fun rt => bool_decide (ack_command_id ack ∈ sent rt)))
          then (st, Err "acknowledgment was not sent on this connection"%string) else
          match check_ack ack req (Registry.report <$> runtime) with
          | Err e => (st, Err e)
          | Ok report =>
              let screen_changed := is_some_and report (fun r => revision_changed (agents st) agent_id r LiveScreen) in
              let revoke := screen_changed || is_some_and report (fun r =>
                              grant_blocks_control r || revision_changed (agents st) agent_id r RemoteInput) in
              let st := if revoke then revoke_agent_control_locked st agent_id conn else st in
              let st := if screen_changed then reset_generation st agent_id else st in
              let st :=
                match ofilter (fun rt => bool_decide (rm_conn_id rt = conn)) (modules (agents st) !! agent_id) with
                | Some rt =>
                    set_runtime st agent_id
                      {| rm_conn_id := rm_conn_id rt; Registry.report := default (Registry.report rt) report;
                         pending := delete (ack_command_id ack) (pending rt);
                         sent := sent rt ∖ {[ ack_command_id ack ]}; last_sent := delete (ack_command_id ack) (last_sent rt) |}
                | None => st
                end in
              (broadcast st (BText (ack_event agent_id ack report)), Ok tt)
          end
      end
  end.

(** ** Disable requests *)

Definition DISABLE_RETRY_COOLDOWN : Duration := secs 5.
(** The in-memory part of the [disable_module] handler ([server/src/agents/modules/api.rs]) for the
    row [request] it created or found pending ([retried]): the milliseconds left of the cooldown,
    or the connection to replay on. *)
Definition request_disable (st : AppState) (agent_id : Uuid) (request : ModuleDisableRequest) (retried : bool) (now : Instant)
    : AppState * result (option Uuid) Z :=
  let conn := conn_id <$> connections (agents st) !! agent_id in
  let st :=
    if bool_decide (dr_module request = RemoteInput \/ dr_module request = LiveScreen) then
      match conn with Some conn => revoke_agent_control_locked st agent_id conn | None => st end
    else st in
  match ofilter (fun rt => bool_decide (Some (rm_conn_id rt) = conn)) (modules (agents st) !! agent_id) with
  | None => (st, Ok None)
  | Some rt =>
      let left := match last_sent rt !! dr_command_id request with
                  | Some last => Z.max 0 (DISABLE_RETRY_COOLDOWN - saturating_since now last)
                  | None => 0
                  end in
      if retried && negb (left =? 0) then (st, Err (Z.max 1 (as_millis left)))
      else
        let sent := if retried then sent rt ∖ {[ dr_command_id request ]} else sent rt in
        (set_runtime st agent_id
           {| rm_conn_id := rm_conn_id rt; Registry.report := Registry.report rt;
              pending := <[dr_command_id request := request]> (pending rt); sent := sent; last_sent := last_sent rt |},
         Ok (Some (rm_conn_id rt)))
  end.
(** The whole synchronous effect of a pending disable: publish it, then replay. *)
Definition disable_module (st : AppState) (agent_id : Uuid) (request : ModuleDisableRequest) (retried : bool)
    (now sent_at : Instant) : AppState * result (option Uuid) Z :=
  let '(st, res) := request_disable st agent_id request retried now in
  (match res with Ok (Some conn) => replay_module_disables st agent_id conn sent_at | _ => st end, res).

End connection.
