(* ===== verification/Server.v ===== *)
(** The server as a transition system: every operation on [AppState], the invariant they all
    keep, and the system-wide safety properties that follow from it. *)
From S2P Require Import Prelude Json Protocol Sessions Modules Registry Geometry State Runtime Capture Control Clipboard Connection.

(** ** The invariant *)

Definition conn_of (r : AgentRegistry) (a : Uuid) : option Uuid := conn_id <$> connections r !! a.
Definition queues_ok (r : AgentRegistry) : Prop :=
  forall ch s, sockets r !! ch = Some s -> (length (queue s) <= AGENT_CMD_CHANNEL_CAPACITY)%nat.

Record srv_ok (st : AppState) : Prop := {
  sv_wired : wired (agents st);
  sv_own : forall a b ch, conn_of (agents st) a = Some ch -> conn_of (agents st) b = Some ch -> a = b;
  sv_queue : queues_ok (agents st);
  sv_report : forall a rt, modules (agents st) !! a = Some rt -> report_ok (Registry.report rt);
  sv_lease : forall a l, leases (sessions (control st)) !! a = Some l ->
    conn_of (agents st) a = Some (agent_connection_id (owner (grant l)));
  sv_capture : forall a, f_owner <$> capture (control st) !! a = (fun l => owner (grant l)) <$> leases (sessions (control st)) !! a;
  sv_frozen : forall a f, capture (control st) !! a = Some f -> a_conn_id (f_active f) = agent_connection_id (f_owner f);
  sv_held : sessions_ok (sessions (control st));
  sv_media : media_ok (media st);
  sv_session : forall k s, mjpeg_sessions (media st) !! k = Some s -> conn_of (agents st) (s_agent_id s) = Some (s_conn_id s);
  sv_active : forall a act, mjpeg_active_capture (media st) !! a = Some act -> conn_of (agents st) a = Some (a_conn_id act)
}.

(** ** Changes that keep it *)

(** The registry changed only in its sockets, and no socket disappeared or overflowed. *)
Definition reg_step (r r' : AgentRegistry) : Prop :=
  same_but_sockets r r' /\ (forall ch, is_Some (sockets r !! ch) -> is_Some (sockets r' !! ch)) /\ (queues_ok r -> queues_ok r').

Lemma reg_step_refl r : reg_step r r.
Proof. by split_and!. Qed.
Lemma reg_step_trans r1 r2 r3 : reg_step r1 r2 -> reg_step r2 r3 -> reg_step r1 r3.
Proof. intros (A1 & B1 & C1) (A2 & B2 & C2). split_and!; [by eapply same_but_sockets_trans|auto|auto]. Qed.

Lemma reg_step_insert r ch s s' :
  sockets r !! ch = Some s -> ((length (queue s) <= AGENT_CMD_CHANNEL_CAPACITY)%nat -> (length (queue s') <= AGENT_CMD_CHANNEL_CAPACITY)%nat) ->
  reg_step r (with_sockets r (<[ch := s']> (sockets r))).
Proof.
  intros Hs Hq. split_and!; [done| |].
  - intros c Hc. simpl. destruct (decide (c = ch)) as [->|Hne]; [rewrite lookup_insert_eq; by eexists|by rewrite lookup_insert_ne].
  - intros Hall c x. simpl. rewrite lookup_insert_Some. intros [[<- <-]|[_ Hx]]; [by apply Hq, (Hall _ _ Hs)|by eapply Hall].
Qed.

Lemma try_send_step r ch msg r' : try_send r ch msg = Some r' -> reg_step r r'.
Proof.
  intros (s & Hs & Hlt & ->)%try_send_Some. eapply reg_step_insert; [done|]. intros _. simpl. rewrite length_app. simpl. lia.
Qed.
Lemma send_shutdown_step r ch reason : reg_step r (send_shutdown r ch reason).
Proof. unfold send_shutdown. destruct (sockets r !! ch) eqn:Hs; [by eapply reg_step_insert|apply reg_step_refl]. Qed.
Lemma queue_cleanup_step r ch conn commands : reg_step r (queue_cleanup r ch conn commands).1.
Proof.
  revert r. induction commands as [|c commands IH]; intros r; cbn [queue_cleanup]; [apply reg_step_refl|].
  destruct (ch ≫= _) as [r'|] eqn:Hs; [|apply send_shutdown_step].
  apply bind_Some in Hs as (ch' & _ & Hs%try_send_step). by eapply reg_step_trans.
Qed.

Lemma conn_of_same r r' a : connections r' = connections r -> conn_of r' a = conn_of r a.
Proof. unfold conn_of. by intros ->. Qed.

Lemma wired_step r r' : reg_step r r' -> wired r -> wired r'.
Proof.
  intros ((Hc & Hm & _) & Hs & _) Hw a c. rewrite Hc, Hm. intros Ha. destruct (Hw a c Ha) as [? ?]. auto.
Qed.

Lemma srv_ok_agents st r : srv_ok st -> reg_step (agents st) r -> srv_ok (with_agents st r).
Proof.
  intros [H1 H2 H3 H4 H5 H6 H7 H8 H9 H10 H11] Hr. pose proof Hr as ((Hc & Hm & Hmo & _) & _ & Hq).
  split; simpl; try done; try (setoid_rewrite (conn_of_same (agents st) r); [|done..]); try done.
  - by eapply wired_step.
  - by apply Hq.
  - by rewrite Hmo.
Qed.

Lemma srv_ok_media st m :
  srv_ok st -> media_ok m ->
  (forall k s, mjpeg_sessions m !! k = Some s -> conn_of (agents st) (s_agent_id s) = Some (s_conn_id s)) ->
  (forall a act, mjpeg_active_capture m !! a = Some act -> conn_of (agents st) a = Some (a_conn_id act)) ->
  srv_ok (with_media st m).
Proof. intros [H1 H2 H3 H4 H5 H6 H7 H8 H9 H10 H11] ? ? ?. by split. Qed.

Lemma srv_ok_broadcast st b : srv_ok st -> srv_ok (broadcast st b).
Proof. intros [H1 H2 H3 H4 H5 H6 H7 H8 H9 H10 H11]. by split. Qed.

(** Control changes that touch neither leases nor their captures. *)
Lemma srv_ok_control st c :
  srv_ok st -> sessions c = sessions (control st) -> capture c = capture (control st) -> srv_ok (with_control st c).
Proof. intros [H1 H2 H3 H4 H5 H6 H7 H8 H9 H10 H11] E1 E2. split; simpl; rewrite ?E1, ?E2; done. Qed.

Section preservation.
Context `{UuidText, JsonText}.

Lemma deliver_step st bs : reg_step (agents st) (agents (deliver_control_cleanup st bs).1).
Proof.
  revert st. induction bs as [|b bs IH]; intros st; cbn [deliver_control_cleanup]; [apply reg_step_refl|].
  destruct (deliver_batch st b) as [st1 ok1] eqn:H1. specialize (IH st1). destruct (deliver_control_cleanup st1 bs) as [st2 ok2].
  cbn [fst] in *. eapply reg_step_trans; [|exact IH]. unfold deliver_batch in H1. cbn [agents with_control] in H1.
  destruct (ofilter _ _) as [c|].
  - pose proof (queue_cleanup_step (agents st) (cmds (agents st) !! c_agent_id b) (conn_id c) (c_commands b)) as Hq.
    destruct (queue_cleanup _ _ _ _) as [r ok]. simplify_eq. by destruct (c_reason b).
  - simplify_eq. destruct (c_reason b); apply reg_step_refl.
Qed.

Lemma foldr_delete_lookup (bs : list LeaseCleanup) (m : gmap Uuid FrozenCapture) a :
  foldr (fun b m => delete (c_agent_id b) m) m bs !! a = if bool_decide (a ∈ c_agent_id <$> bs) then None else m !! a.
Proof.
  induction bs as [|b bs IH]; simpl; [done|]. destruct (decide (a = c_agent_id b)) as [->|Hne].
  - rewrite lookup_delete_eq, bool_decide_eq_true_2; [done|left].
  - rewrite lookup_delete_ne, IH by done. destruct (decide (a ∈ c_agent_id <$> bs)).
    + rewrite !bool_decide_eq_true_2; [done|by right|done].
    + rewrite !bool_decide_eq_false_2; [done| |done]. by intros [?|?]%elem_of_cons.
Qed.

(** A settling transition and the delivery of its cleanup. *)
Lemma commit_ok st s c : srv_ok st -> settles (sessions (control st)) s c -> srv_ok (commit_sessions st (s, c)).1.
Proof.
  intros Hok (Hfrom & Hheld & Hs). pose proof Hok as [H1 H2 H3 H4 H5 H6 H7 H8 H9 H10 H11].
  set (st0 := with_control st (with_sessions (control st) s)).
  unfold commit_sessions. cbn [fst snd]. fold st0. pose proof (deliver_step st0 c) as Hr.
  destruct (deliver_control_cleanup st0 c) as [st' safe] eqn:Hd. cbn [fst] in *.
  assert (wired (agents st0)) as Hw by done.
  destruct (deliver_delivered _ _ _ _ Hw Hd) as [_ _ _ Hm Hc _]. change (agents st0) with (agents st) in Hr.
  change (media st0) with (media st) in Hm.
  assert (forall a, capture (control st') !! a = if bool_decide (a ∈ c_agent_id <$> c) then None else capture (control st) !! a) as Hcap.
  { intros a. rewrite Hc. cbn [capture with_capture]. rewrite foldr_delete_lookup. rewrite fmap_reverse.
    destruct (decide (a ∈ c_agent_id <$> c)); [rewrite !bool_decide_eq_true_2|rewrite !bool_decide_eq_false_2]; rewrite ?elem_of_reverse; done. }
  assert (sessions (control st') = s) as Hse by by rewrite Hc.
  pose proof Hr as ((Hcn & _ & Hmo & _) & _ & Hq).
  split; rewrite ?Hse, ?Hm; try done; try (setoid_rewrite (conn_of_same (agents st) (agents st')); [|done..]); try done.
  - by eapply wired_step.
  - by apply Hq.
  - by rewrite Hmo.
  - intros a l Hl. specialize (Hs a). rewrite Hl in Hs. destruct (leases (sessions (control st)) !! a) as [l0|] eqn:Hl0; [|done].
    destruct Hs as [-> _]. by apply H5.
  - intros a. rewrite Hcap. specialize (Hs a). specialize (H6 a).
    destruct (leases (sessions (control st)) !! a) as [l0|] eqn:Hl0, (leases s !! a) as [l|] eqn:Hl; try done.
    + destruct Hs as [Ho Hn]. rewrite bool_decide_eq_false_2 by done. rewrite H6. simpl. by rewrite Ho.
    + by rewrite bool_decide_eq_true_2.
    + case_bool_decide as Hin; [done|]. by rewrite H6.
  - intros a f. rewrite Hcap. case_bool_decide; [done|]. apply H7.
  - by apply Hheld.
Qed.

Lemma after_expiry_ok st now : srv_ok st -> srv_ok (after_expiry st now).
Proof.
  intros Hok. unfold after_expiry, expire_control. pose proof (settles_remove_if (sessions (control st)) (fun l => expires_at (grant l) <=? now) RExpired) as Hs.
  unfold expire. destruct (remove_all _ _ _). by apply commit_ok.
Qed.
Lemma revoke_viewer_control_ok st v : srv_ok st -> srv_ok (revoke_viewer_control st v).
Proof.
  intros Hok. unfold revoke_viewer_control, revoke_viewer.
  pose proof (settles_remove_if (sessions (control st)) (fun l => bool_decide (viewer_connection_id (owner (grant l)) = v)) RViewerDisconnected) as Hs.
  destruct (remove_all _ _ _). by apply commit_ok.
Qed.
Lemma revoke_agent_control_ok st a conn : srv_ok st -> srv_ok (revoke_agent_control_locked st a conn).
Proof.
  intros Hok. unfold revoke_agent_control_locked. pose proof (settles_revoke_agent (sessions (control st)) a conn) as Hs.
  destruct (revoke_agent _ _ _). by apply commit_ok.
Qed.

(** After revoking an agent's connection no lease or capture of it is left. *)
Lemma revoke_agent_gone st a conn :
  srv_ok st -> conn_of (agents st) a = Some conn ->
  leases (sessions (control (revoke_agent_control_locked st a conn))) !! a = None.
Proof.
  intros Hok Hconn. unfold revoke_agent_control_locked.
  destruct (commit_sessions_keeps st (revoke_agent (sessions (control st)) a conn)) as (_ & _ & -> & _).
  unfold revoke_agent. destruct (leases (sessions (control st)) !! a) as [l|] eqn:Hl; simpl.
  - apply (sv_lease _ Hok) in Hl. rewrite Hconn in Hl. simplify_eq. rewrite bool_decide_eq_true_2 by done. simpl. by rewrite lookup_delete_eq.
  - done.
Qed.

Lemma commit_sessions_conn st t a : conn_of (agents (commit_sessions st t).1) a = conn_of (agents st) a.
Proof. destruct (commit_sessions_keeps st t) as (_ & (Hc & _) & _). by apply conn_of_same. Qed.

Lemma enqueue_step r a conn cmd r' : enqueue_authorized_command r a conn cmd = Ok r' -> reg_step r r'.
Proof. intros (c & ch & _ & _ & _ & Hs)%enqueue_Ok. by eapply try_send_step. Qed.

Lemma enqueue_capture_step st agent conn cmd gen : reg_step (agents st) (agents (enqueue_capture st agent conn cmd gen).1).
Proof.
  destruct (enqueue_capture st agent conn cmd gen) as [st' res] eqn:He. apply enqueue_capture_spec in He as (_ & _ & _ & Hr). simpl.
  destruct res; [destruct Hr as (? & ? & _ & _ & _ & ?); by eapply try_send_step|].
  destruct Hr as [->| ->]; [apply reg_step_refl|apply send_shutdown_step].
Qed.

Lemma sync_step st agent req fresh : reg_step (agents st) (agents (sync_capture_locked st agent req fresh).1).
Proof.
  unfold sync_capture_locked. destruct (conn_sessions _ _ _) as [|s rest].
  - destruct (ofilter _ _) as [a|]; [|apply reg_step_refl].
    pose proof (enqueue_capture_step st agent (a_conn_id a) StopCapture None) as He.
    destruct (enqueue_capture _ _ _ _ _) as [st1 [[]|]]; done.
  - destruct (open_conn_id _ _) as [conn|]; [|apply reg_step_refl]. cbv zeta. destruct (is_some_and _ _); [apply reg_step_refl|].
    match goal with |- context [enqueue_capture ?x ?y ?z ?u ?v] => pose proof (enqueue_capture_step x y z u v) as He; destruct (enqueue_capture x y z u v) as [st1 [[]|]] end; done.
Qed.

Lemma open_conn_id_conn r a conn : open_conn_id r a = Some conn -> conn_of r a = Some conn.
Proof.
  unfold open_conn_id, conn_of. intros (c & Hc & ->)%fmap_Some. apply open_conn_Some in Hc as [-> _]. done.
Qed.

(** ** Handlers *)

Lemma sync_active st agent req fresh a act :
  mjpeg_active_capture (media (sync_capture_locked st agent req fresh).1) !! a = Some act ->
  mjpeg_active_capture (media st) !! a = Some act \/ (a = agent /\ open_conn_id (agents st) agent = Some (a_conn_id act)).
Proof.
  unfold sync_capture_locked. destruct (conn_sessions _ _ _) as [|s rest].
  - destruct (ofilter _ _) as [b|].
    + destruct (enqueue_capture st agent (a_conn_id b) StopCapture None) as [st1 [[]|]] eqn:He; apply enqueue_capture_spec in He as (Hm & _);
        simpl; rewrite Hm; [|auto]. intros [_ ?]%lookup_delete_Some. auto.
    + simpl. intros [_ ?]%lookup_delete_Some. auto.
  - destruct (open_conn_id _ _) as [conn|] eqn:Hconn; [|auto]. cbv zeta. destruct (is_some_and _ _); [auto|].
    destruct (enqueue_capture _ _ _ _ _) as [st1 [[]|]] eqn:He; apply enqueue_capture_spec in He as (Hm & _); simpl; rewrite Hm; simpl; [|auto].
    rewrite lookup_insert_Some. intros [[<- <-]|[_ ?]]; [|auto]. right. done.
Qed.

Lemma sync_ok st agent req fresh : srv_ok st -> srv_ok (sync_capture_locked st agent req fresh).1.
Proof.
  intros Hok. pose proof (sync_active st agent req fresh) as Hact. pose proof (sync_step st agent req fresh) as Hr.
  destruct (sync_capture_locked st agent req fresh) as [st' res] eqn:Hs. apply sync_spec in Hs as (E1 & E2 & E3 & E4 & _). cbn [fst] in *.
  assert (srv_ok {| agents := agents st'; control := control st; media := media st'; tx := tx st |}) as Hok'.
  { refine (srv_ok_media (with_agents st (agents st')) (media st') _ _ _ _); [by apply srv_ok_agents| | |].
    - by eapply media_ok_same, sv_media.
    - intros k s. rewrite E1. cbn [agents with_agents]. rewrite (conn_of_same (agents st)) by apply Hr. apply (sv_session _ Hok).
    - intros a act Ha. cbn [agents with_agents]. rewrite (conn_of_same (agents st)) by apply Hr.
      apply Hact in Ha as [Ha|[-> Ha]]; [by apply (sv_active _ Hok)|by apply open_conn_id_conn]. }
  rewrite <- E3 in Hok'. destruct st' as [x1 x2 x3 x4]. simpl in *. by destruct Hok'.
Qed.

Lemma begin_ok st agent session user prefs req now fresh :
  srv_ok st -> srv_ok (begin_mjpeg_session st agent session user prefs req now fresh).1.
Proof.
  intros Hok. destruct (begin_mjpeg_session st agent session user prefs req now fresh) as [st' res] eqn:Hb. simpl.
  pose proof (begin_media_ok st agent session user prefs req now fresh (sv_media _ Hok)) as Hmo. rewrite Hb in Hmo. cbn [fst] in Hmo.
  apply begin_cases in Hb. pose proof (after_expiry_ok st now Hok) as Hok0. revert Hb Hok0. generalize (after_expiry st now). intros st0 Hb Hok0.
  destruct Hb as [e _|conn entry st1 st2 res Hconn _ Hnew _ Hcnt Hsz Hentry -> Hs]; [done|].
  match type of Hs with sync_capture_locked ?a ?b ?c ?d = _ =>
    pose proof (sync_active a b c d) as Hact; pose proof (sync_step a b c d) as Hr end.
  rewrite Hs in Hact, Hr. cbn [fst agents with_media media] in Hact, Hr.
  apply sync_spec in Hs as (E1 & E2 & E3 & E4 & _). cbn [media with_media mjpeg_sessions set_viewers set_sessions capture_viewers control tx] in E1, E2, E3, E4.
  assert (forall a, conn_of (agents st2) a = conn_of (agents st0) a) as Hco by (intros a; apply conn_of_same, Hr).
  assert (srv_ok (with_agents st0 (agents st2))) as Hok2 by by apply srv_ok_agents.
  assert (forall a act, mjpeg_active_capture (media st2) !! a = Some act -> conn_of (agents st2) a = Some (a_conn_id act)) as Hact2.
  { intros a act Ha. rewrite Hco. apply Hact in Ha as [Ha|[-> Ha]]; [by apply (sv_active _ Hok0)|by apply open_conn_id_conn]. }
  assert (forall m, media_ok m -> mjpeg_active_capture m = mjpeg_active_capture (media st2) ->
    (forall k s, mjpeg_sessions m !! k = Some s -> mjpeg_sessions (media st2) !! k = Some s) -> srv_ok (with_media st2 m)) as Hfin.
  { intros m Hm Ea Hse. pose proof (srv_ok_media (with_agents st0 (agents st2)) m Hok2 Hm) as Hx. cbn [agents with_agents] in Hx.
    assert (srv_ok (with_media (with_agents st0 (agents st2)) m)) as [].
    { apply Hx; [|by rewrite Ea]. intros k s Hk. pose proof (Hse _ _ Hk) as Hk'. rewrite E1 in Hk'. rewrite Hco. clear Hk.
      apply lookup_insert_Some in Hk' as [[<- <-]|[_ Hk']]; [subst entry; simpl; by apply open_conn_id_conn|by eapply (sv_session _ Hok0)]. }
    cbn [agents control media with_media with_agents] in *. split; cbn [agents control media with_media]; rewrite ?E3; done. }
  destruct res as [[]|e].
  - specialize (Hfin (media st2) Hmo eq_refl ltac:(done)). by destruct st2.
  - apply Hfin; [exact Hmo|done|]. intros k s. simpl. by intros [_ ?]%lookup_delete_Some.
Qed.

Lemma deliver_media st m bs :
  deliver_control_cleanup (with_media st m) bs = (with_media (deliver_control_cleanup st bs).1 m, (deliver_control_cleanup st bs).2).
Proof.
  revert st. induction bs as [|b bs IH]; intros st; [done|]. cbn [deliver_control_cleanup].
  assert (deliver_batch (with_media st m) b = (with_media (deliver_batch st b).1 m, (deliver_batch st b).2)) as ->.
  { unfold deliver_batch. cbn [agents with_media with_control control].
    destruct (match ofilter _ _ with Some _ => _ | None => _ end). by destruct (c_reason b). }
  destruct (deliver_batch st b) as [st1 ok1]. cbn [fst snd]. rewrite IH. by destruct (deliver_control_cleanup st1 bs).
Qed.
Lemma revoke_agent_control_media st m a conn :
  revoke_agent_control_locked (with_media st m) a conn = with_media (revoke_agent_control_locked st a conn) m.
Proof.
  unfold revoke_agent_control_locked, commit_sessions.
  change (with_control (with_media st m) ?x) with (with_media (with_control st x) m). by rewrite deliver_media.
Qed.

Lemma revoke_agent_control_conn st a conn b : conn_of (agents (revoke_agent_control_locked st a conn)) b = conn_of (agents st) b.
Proof. apply commit_sessions_conn. Qed.

Lemma end_ok st agent session user fresh : srv_ok st -> srv_ok (end_mjpeg_session st agent session user fresh).1.
Proof.
  intros Hok. unfold end_mjpeg_session. destruct (ofilter _ _) as [s|] eqn:Hs; [|done]. apply ofilter_Some in Hs as [Hs Hf]. bool_prop.
  cbn [fst]. apply sync_ok. cbv zeta.
  set (m1 := set_sessions (media st) (delete session (mjpeg_sessions (media st)))).
  assert (exists st2, srv_ok st2 /\ (forall b, conn_of (agents st2) b = conn_of (agents st) b)
    /\ (if is_some_and (capture (control (with_media st m1)) !! agent) (fun c => bool_decide (f_session_id c = session))
        then revoke_agent_control_locked (with_media st m1) agent (s_conn_id s) else with_media st m1) = with_media st2 m1) as (st2 & Hok2 & Hco & ->).
  { case_match; [|by exists st]. exists (revoke_agent_control_locked st agent (s_conn_id s)). split_and!; [by apply revoke_agent_control_ok| |].
    - intros b. apply revoke_agent_control_conn.
    - apply revoke_agent_control_media. }
  change (with_media (with_media st2 m1) ?x) with (with_media st2 x). cbn [media with_media]. apply srv_ok_media; [done|..].
  - unfold remaining_sessions, agent_sessions. cbn [mjpeg_sessions m1 set_sessions].
    apply media_ok_recount; [apply Hok|apply delete_subseteq| |].
    + intros b Hb. rewrite (sessions_of_delete _ _ _ _ Hs). subst. case_decide; [congruence|lia].
    + rewrite (sessions_of_delete _ _ _ _ Hs). case_decide; lia.
  - intros k x. simpl. rewrite Hco. intros [_ Hk]%lookup_delete_Some. by eapply (sv_session _ Hok).
  - intros a act. simpl. rewrite Hco. apply (sv_active _ Hok).
Qed.

Lemma commit_control_ok st agent frozen : srv_ok st -> srv_ok (commit_control_capture st agent frozen).
Proof.
  intros Hok. pose proof (commit_media_ok st agent frozen (sv_media _ Hok)) as Hm. unfold commit_control_capture in *.
  destruct (ofilter _ _) as [act|] eqn:Ha; [|done]. apply ofilter_Some in Ha as [Ha _]. apply srv_ok_media; [done|exact Hm| |].
  - intros k s. cbn [mjpeg_sessions set_sessions]. cbn [mjpeg_sessions set_active]. intros Hk. rewrite lookup_fmap in Hk.
    apply fmap_Some in Hk as (s0 & Hk & ->). pose proof (sv_session _ Hok _ _ Hk). by case_match.
  - intros a x. cbn [mjpeg_active_capture set_sessions set_active]. rewrite lookup_insert_Some.
    intros [[<- <-]|[_ Hx]]; [simpl; by apply (sv_active _ Hok)|by apply (sv_active _ Hok)].
Qed.

(** Clearing the capture state of an agent's connection leaves none of it. *)
Lemma clear_spec st agent conn :
  let st' := clear_capture_connection_locked st agent conn in
  agents st' = agents st /\ control st' = control st
  /\ (forall k s, mjpeg_sessions (media st') !! k = Some s -> mjpeg_sessions (media st) !! k = Some s /\ (s_agent_id s <> agent \/ s_conn_id s <> conn))
  /\ (forall a act, mjpeg_active_capture (media st') !! a = Some act ->
      mjpeg_active_capture (media st) !! a = Some act /\ (a <> agent \/ a_conn_id act <> conn)).
Proof.
  cbv zeta. unfold clear_capture_connection_locked. cbn [agents control media with_media]. split_and!; [done..| |].
  - intros k s Hk. assert (filter (fun kv => s_agent_id kv.2 <> agent \/ s_conn_id kv.2 <> conn) (mjpeg_sessions (media st)) !! k = Some s) as Hf.
    { revert Hk. by repeat case_match. }
    by apply map_lookup_filter_Some in Hf.
  - intros a act. assert (forall m : LiveMedia, (if is_some_and (mjpeg_retired_captures (media st) !! agent) (fun e => bool_decide (e.1 = conn))
      then set_retired (media st) (delete agent (mjpeg_retired_captures (media st))) else media st) = m -> mjpeg_active_capture m = mjpeg_active_capture (media st)) as Hm.
    { intros m <-. by case_match. }
    set (m := if is_some_and (mjpeg_retired_captures (media st) !! agent) _ then _ else _) in *. specialize (Hm m eq_refl).
    cbn [set_count set_viewers set_sessions mjpeg_active_capture]. rewrite Hm.
    destruct (is_some_and (mjpeg_active_capture (media st) !! agent) _) eqn:E; simpl; rewrite ?Hm.
    + rewrite lookup_delete_Some. intros [Hne Ha]. split; [done|]. left. congruence.
    + intros Ha. split; [done|]. destruct (decide (a = agent)) as [->|]; [|by left]. right. rewrite is_some_and_false in E.
      specialize (E act Ha). by bool_prop.
Qed.

Lemma clear_ok st agent conn : srv_ok st -> srv_ok (clear_capture_connection_locked st agent conn).
Proof.
  intros Hok. pose proof (clear_media_ok st agent conn (sv_media _ Hok)) as Hm.
  destruct (clear_spec st agent conn) as (E1 & E2 & E3 & E4). unfold clear_capture_connection_locked in *. cbn [media with_media] in *.
  apply srv_ok_media; [done|exact Hm| |].
  - intros k s Hk. destruct (E3 _ _ Hk) as [Hk' _]. by eapply (sv_session _ Hok).
  - intros a act Ha. destruct (E4 _ _ Ha) as [Ha' _]. by eapply (sv_active _ Hok).
Qed.

(** ** Lease operations *)

(** A transition with nothing to clean up. *)
Lemma commit_nil st s : commit_sessions st (s, []) = (with_control st (with_sessions (control st) s), true).
Proof. done. Qed.

Lemma owner_conn st agent viewer user o :
  current_control_owner st agent viewer user = Ok o ->
  open_conn_id (agents st) agent = Some (agent_connection_id o)
  /\ viewer_connection_id o = viewer /\ user_id o = u_user_id user /\ is_operator user = true.
Proof.
  unfold current_control_owner. destruct (is_operator user); simpl; [|done].
  intros (c & Hc%ok_or_Ok & [= <-])%rbind_Ok. unfold open_conn_id. by rewrite Hc.
Qed.

(** What validation binds the frozen capture to. *)
Lemma validate_binds st agent o value now fr :
  validate_control_capture st agent o value now = Ok fr ->
  f_owner fr = o /\ a_conn_id (f_active fr) = agent_connection_id o.
Proof.
  unfold validate_control_capture. intros (c & _ & Hx)%rbind_Ok. apply rbind_Ok in Hx as (session & _ & Hx).
  apply rbind_Ok in Hx as (s & _ & Hx). apply rbind_Ok in Hx as (act & Hact%ok_or_Ok & Hx).
  apply ofilter_Some in Hact as [_ Hab]. bool_prop. apply rbind_Ok in Hx as (frame & _ & Hx).
  apply rbind_Ok in Hx as (g & _ & Hx). cbv zeta in Hx.
  destruct (_ && _); [done|]. destruct (bool_decide _); [done|]. destruct (is_some_and _ _); [done|]. by injection Hx as <-.
Qed.

Lemma commit_control_control st agent fr : control (commit_control_capture st agent fr) = control st.
Proof. unfold commit_control_capture. by destruct (ofilter _ _). Qed.
Lemma commit_control_agents st agent fr : agents (commit_control_capture st agent fr) = agents st.
Proof. unfold commit_control_capture. by destruct (ofilter _ _). Qed.

(** Binding a fresh lease and its capture to a device that had neither. *)
Definition bind_lease (st : AppState) (agent : Uuid) (l : Lease) (fr : FrozenCapture) : AppState :=
  with_control st (with_capture (with_sessions (control st) {| leases := <[agent := l]> (leases (sessions (control st))) |})
                     (<[agent := fr]> (capture (control st)))).
Lemma bind_ok st agent l fr :
  srv_ok st -> conn_of (agents st) agent = Some (agent_connection_id (owner (grant l))) ->
  f_owner fr = owner (grant l) -> a_conn_id (f_active fr) = agent_connection_id (f_owner fr) -> lease_ok l ->
  srv_ok (bind_lease st agent l fr).
Proof.
  intros [H1 H2 H3 H4 H5 H6 H7 H8 H9 H10 H11] Hconn Ho Ha Hl. split; simpl; try done.
  - intros a x. rewrite lookup_insert_Some. intros [[<- <-]|[_ Hx]]; [done|by apply H5].
  - intros a. destruct (decide (a = agent)) as [->|Hne]; [by rewrite !lookup_insert_eq; simpl; rewrite Ho|].
    rewrite !lookup_insert_ne by done. apply H6.
  - intros a f. rewrite lookup_insert_Some. intros [[<- <-]|[_ Hx]]; [done|by eapply H7].
  - intros a x. simpl. rewrite lookup_insert_Some. intros [[<- <-]|[_ Hx]]; [done|by eapply H8].
Qed.

Lemma expire_agent_live s a now l : leases (expire_agent s a now).1 !! a = Some l -> now < expires_at (grant l).
Proof.
  rewrite expire_agent_spec. destruct (leases s !! a) as [x|] eqn:E; [|simpl; congruence].
  destruct (expires_at (grant x) <=? now) eqn:Hx; simpl; bool_prop; [by rewrite lookup_delete_eq|]. rewrite E. by intros [= <-].
Qed.

(** The state [control_acquire] decides in: the device's own expired lease torn down. *)
Definition acquire_state (st : AppState) (agent : Uuid) (now : Instant) : AppState :=
  (commit_sessions st (expire_agent (sessions (control st)) agent now)).1.

(** Every way an acquisition ends. *)
Inductive acquire_case (st1 : AppState) (agent : Uuid) (o : LeaseOwner) (value : json) (now clock : Instant) (fresh : Uuid)
    : AppState -> result (option LeaseGrant) CommandDenied -> Prop :=
| AcqDenied e : acquire_case st1 agent o value now clock fresh st1 (Err e)
| AcqAgain l f fr :
    leases (sessions (control st1)) !! agent = Some l -> owner (grant l) = o -> now < expires_at (grant l) ->
    validate_control_capture st1 agent o value clock = Ok fr ->
    capture (control st1) !! agent = Some f -> f_session_id f = f_session_id fr ->
    acquire_case st1 agent o value now clock fresh (commit_control_capture st1 agent fr) (Ok (Some (grant l)))
| AcqFresh fr g :
    leases (sessions (control st1)) !! agent = None -> capture (control st1) !! agent = None ->
    validate_control_capture st1 agent o value clock = Ok fr ->
    g = {| token := fresh; owner := o; expires_at := deadline now DEFAULT_LEASE_TTL |} ->
    acquire_case st1 agent o value now clock fresh
      (bind_lease (commit_control_capture st1 agent fr) agent {| grant := g; held := HeldInput_default |} fr) (Ok (Some g)).

Lemma acquire_cases st agent o value now clock fresh :
  srv_ok st ->
  acquire_case (acquire_state st agent now) agent o value now clock fresh
    (control_acquire st agent o value now clock fresh).1 (control_acquire st agent o value now clock fresh).2.
Proof.
  intros Hok. unfold control_acquire, acquire_state.
  pose proof (commit_ok st _ _ Hok (settles_expire_agent (sessions (control st)) agent now)) as Hok1.
  rewrite <- surjective_pairing in Hok1.
  destruct (commit_sessions_keeps st (expire_agent (sessions (control st)) agent now)) as (_ & _ & Hse & _).
  pose proof (expire_agent_live (sessions (control st)) agent now) as Hlive. rewrite <- Hse in Hlive.
  destruct (commit_sessions st _) as [st1 safe]. cbn [fst] in *. destruct safe; [|simpl; constructor]. cbn [negb].
  destruct (validate_control_capture st1 agent o value clock) as [fr|e] eqn:Hv; [|simpl; constructor].
  pose proof (sv_capture _ Hok1 agent) as Hcap. destruct (is_some_and _ _) eqn:Hlock; [simpl; constructor|].
  rewrite is_some_and_false in Hlock. rewrite acquire_spec. cbv zeta.
  destruct (leases (sessions (control st1)) !! agent) as [l|] eqn:Hl.
  - specialize (Hlive l eq_refl). assert ((expires_at (grant l) <=? now) = false) as -> by lia. cbn [t_cleanup]. rewrite commit_nil.
    cbn [negb t_result]. assert (with_control st1 (with_sessions (control st1) (sessions (control st1))) = st1) as -> by by destruct st1 as [? [] ? ?].
    case_bool_decide as Ho; [|simpl; constructor]. cbv zeta. rewrite commit_control_control.
    destruct (capture (control st1) !! agent) as [f|] eqn:Hf; [|done]. simpl in Hcap. injection Hcap as Hfo.
    specialize (Hlock f eq_refl). rewrite bool_decide_eq_true_2 in Hlock by congruence. simpl in Hlock. bool_prop.
    by eapply AcqAgain.
  - cbn [t_cleanup]. rewrite commit_nil. cbn [negb t_result]. cbv zeta. rewrite commit_control_control.
    destruct (capture (control st1) !! agent) as [f|] eqn:Hf; [done|]. cbn [capture with_control with_sessions control]. rewrite Hf.
    cbn [fst snd]. set (g := {| token := fresh; owner := o; expires_at := deadline now DEFAULT_LEASE_TTL |}).
    match goal with |- acquire_case _ _ _ _ _ _ _ ?x _ =>
      replace x with (bind_lease (commit_control_capture st1 agent fr) agent {| grant := g; held := HeldInput_default |} fr) end.
    + by eapply AcqFresh.
    + unfold bind_lease, commit_control_capture. cbn [media with_control]. by destruct (ofilter _ _).
Qed.
Lemma acquire_ok st agent o value now clock fresh :
  srv_ok st -> conn_of (agents st) agent = Some (agent_connection_id o) ->
  srv_ok (control_acquire st agent o value now clock fresh).1.
Proof.
  intros Hok Hconn. pose proof (acquire_cases st agent o value now clock fresh Hok) as Hc.
  pose proof (commit_ok st _ _ Hok (settles_expire_agent (sessions (control st)) agent now)) as Hok1.
  rewrite <- surjective_pairing in Hok1. fold (acquire_state st agent now) in Hok1.
  assert (conn_of (agents (acquire_state st agent now)) agent = Some (agent_connection_id o)) as Hconn1.
  { rewrite <- Hconn. apply commit_sessions_conn. }
  destruct Hc as [e|l f fr Hl Ho Hn Hv|fr g Hl Hf Hv ->]; [done|by apply commit_control_ok|].
  destruct (validate_binds _ _ _ _ _ _ Hv) as [E1 E2]. apply bind_ok.
  - by apply commit_control_ok.
  - by rewrite commit_control_agents.
  - done.
  - congruence.
  - eexists. apply tracks_default.
Qed.

(** The settling lease operations, committed. *)
Lemma commit_t_ok {T} st s (t : Transition T) :
  srv_ok st -> settles (sessions (control st)) s (t_cleanup t) -> srv_ok (commit_sessions st (s, t_cleanup t)).1.
Proof. apply commit_ok. Qed.

Lemma lease_op_ok st agent viewer user value now clock fresh :
  srv_ok st -> srv_ok (control_lease_op st agent viewer user value now clock fresh).1.
Proof.
  intros Hok. unfold control_lease_op. destruct (current_control_owner _ _ _ _) as [o|e] eqn:Ho; [|done].
  apply owner_conn in Ho as (Ho & _). apply open_conn_id_conn in Ho.
  destruct (if String.eqb _ _ then _ else _) as [v|e]; [|done]. cbv zeta.
  destruct (String.eqb _ "control_acquire"); [by apply acquire_ok|]. destruct (uuid_field value "lease_token") as [tok|]; [|done].
  destruct (String.eqb _ "control_heartbeat"); [|destruct (String.eqb _ "control_release"); [|done]].
  - pose proof (settles_heartbeat (sessions (control st)) agent o tok DEFAULT_LEASE_TTL now) as Hs.
    destruct (heartbeat _ _ _ _ _ _) as [s t]. pose proof (commit_t_ok _ _ _ Hok Hs). by destruct (commit_sessions _ _).
  - pose proof (settles_release (sessions (control st)) agent o tok now) as Hs.
    destruct (release _ _ _ _ _) as [s t]. pose proof (commit_t_ok _ _ _ Hok Hs). by destruct (commit_sessions _ _).
Qed.

Lemma audit_event_keeps c user agent action rejected now :
  let c' := (audit_control_event c user agent action rejected now).1 in
  sessions c' = sessions c /\ capture c' = capture c /\ clipboard c' = clipboard c.
Proof.
  cbv zeta. unfold audit_control_event. destruct (audit_inflight c); [done|]. cbv zeta.
  destruct (_ && _); [done|]. by destruct (is_some_and _ _).
Qed.

Lemma lease_message_ok st viewer user value now clock audit_now fresh :
  srv_ok st -> srv_ok (control_lease_message st viewer user value now clock audit_now fresh).1.
Proof.
  intros Hok. unfold control_lease_message. destruct (uuid_field value "agent_id") as [agent|]; [|done].
  destruct (uuid_field value "request_id"); [|done]. cbv zeta.
  pose proof (lease_op_ok st agent viewer user value now clock fresh Hok) as Hx. destruct (control_lease_op _ _ _ _ _ _ _ _) as [st1 res].
  cbn [fst] in *. case_match; [|done]. destruct (audit_event_keeps (control st1) user agent
    (if String.eqb (kind_of value) "control_release" then "control_release" else "control_acquire") (negb (is_ok res)) audit_now) as (? & ? & _).
  by apply srv_ok_control.
Qed.

Lemma send_shutdown_ok st ch reason : srv_ok st -> srv_ok (with_agents st (send_shutdown (agents st) ch reason)).
Proof. intros Hok. apply srv_ok_agents; [done|apply send_shutdown_step]. Qed.

Lemma viewer_input_ok st agent viewer user tok cmd now :
  srv_ok st -> srv_ok (send_viewer_input st agent viewer user tok cmd now).1.
Proof.
  intros Hok. unfold send_viewer_input. destruct (current_control_owner _ _ _ _) as [o|]; [|done].
  destruct tok as [tok|]; [|done]. destruct (authorize_agent_command _ _ _) as [c|]; [|done].
  pose proof (settles_track (sessions (control st)) agent o tok cmd now) as Hs. destruct (authorize_and_track _ _ _ _ _ _) as [s t].
  pose proof (commit_t_ok _ _ _ Hok Hs) as Hok1. cbn [snd] in Hs. destruct (commit_sessions _ _) as [st1 safe]. cbn [fst] in Hok1.
  destruct (t_result t); [|done]. destruct (enqueue_authorized_command _ _ _ _) as [r|e] eqn:He.
  - apply srv_ok_agents; [done|by eapply enqueue_step].
  - cbv zeta. cbn [fst]. destruct (ofilter _ _); [|by apply revoke_agent_control_ok].
    match goal with |- srv_ok (commit_sessions ?x _).1 => apply (revoke_agent_control_ok x) end. by apply send_shutdown_ok.
Qed.

(** ** Clipboard and delivery *)

Lemma set_clipboard_ok st x : srv_ok st -> srv_ok (set_clipboard st x).
Proof. intros Hok. by apply srv_ok_control. Qed.

Lemma clipboard_valid_ok st p now now' : srv_ok st -> srv_ok (clipboard_valid_locked st p now now').1.
Proof.
  intros Hok. unfold clipboard_valid_locked. destruct (_ || _); [done|].
  pose proof (settles_authorize (sessions (control st)) (pc_agent p) (pc_owner p) (pc_token p) now') as Hs.
  destruct (authorize _ _ _ _ _) as [s t]. pose proof (commit_t_ok _ _ _ Hok Hs) as Hok1. destruct (commit_sessions _ _) as [st1 safe].
  by repeat case_match.
Qed.

Lemma clipboard_deliverable_ok st agent conn cmd now now' :
  srv_ok st -> srv_ok (clipboard_deliverable_locked st agent conn cmd now now').1.
Proof.
  intros Hok. unfold clipboard_deliverable_locked. destruct (uuid_field _ _) as [id|]; [|done].
  destruct (clipboard (control st) !! id) as [p|]; [|done]. cbv zeta.
  pose proof (clipboard_valid_ok _ p now now' (set_clipboard_ok _ (delete id (clipboard (control st))) Hok)) as Hx.
  destruct (_ && _).
  - destruct (clipboard_valid_locked _ _ _ _). by apply set_clipboard_ok.
  - by do 2 apply set_clipboard_ok.
Qed.

Lemma complete_clipboard_ok st agent conn value now now' :
  srv_ok st -> srv_ok (complete_clipboard st agent conn value now now').1.
Proof.
  intros Hok. unfold complete_clipboard. destruct (uuid_field _ _) as [id|]; [|done].
  destruct (clipboard (control st) !! id) as [p|]; [|done]. destruct (_ || _); [done|]. cbv zeta.
  pose proof (clipboard_valid_ok _ p now now' (set_clipboard_ok _ (delete id (clipboard (control st))) Hok)) as Hx.
  destruct (clipboard_valid_locked _ _ _ _). by apply set_clipboard_ok.
Qed.

Lemma clipboard_start_ok st agent user action tok text id now now1 now2 :
  srv_ok st -> srv_ok (clipboard_start st agent user action tok text id now now1 now2).1.
Proof.
  intros Hok. unfold clipboard_start. destruct (is_operator user); [|done]. cbn [negb].
  destruct (request_command _ _ _) as [cmd|]; [|done]. destruct (http_owner _ _ _ _) as [o|]; [|done].
  destruct (authorize_agent_command _ _ _) as [c|]; [|done]. cbv zeta.
  match goal with |- context [clipboard_valid_locked st ?q now1 now2] => pose proof (clipboard_valid_ok st q now1 now2 Hok) as Hx;
    destruct (clipboard_valid_locked st q now1 now2) as [st1 valid] end. cbn [fst] in Hx.
  destruct valid; [|done]. cbn [negb]. destruct (_ || _); [done|].
  destruct (enqueue_authorized_command _ _ _ _) as [r|e] eqn:He.
  - apply (srv_ok_agents (set_clipboard st1 _)); [by apply set_clipboard_ok|by eapply enqueue_step].
  - by do 2 apply set_clipboard_ok.
Qed.

Lemma clipboard_tick_ok st id now now1 now2 : srv_ok st -> srv_ok (clipboard_tick st id now now1 now2).1.1.
Proof.
  intros Hok. unfold clipboard_tick. destruct (clipboard (control st) !! id) as [p|]; [|done]. cbv zeta.
  pose proof (clipboard_valid_ok _ p now1 now2 (set_clipboard_ok _ (delete id (clipboard (control st))) Hok)) as Hx.
  destruct (clipboard_valid_locked _ _ _ _). by apply set_clipboard_ok.
Qed.
Lemma clipboard_finish_ok st id now now' : srv_ok st -> srv_ok (clipboard_finish st id now now').1.
Proof.
  intros Hok. unfold clipboard_finish. destruct (clipboard (control st) !! id) as [p|]; [|done].
  by apply clipboard_valid_ok, set_clipboard_ok.
Qed.
Lemma clipboard_drop_ok st id : srv_ok st -> srv_ok (clipboard_drop st id).
Proof.
  intros Hok. unfold clipboard_drop. destruct (clipboard (control st) !! id) as [p|]; [|done]. cbv zeta.
  destruct (enqueue_authorized_command _ _ _ _) as [r|e] eqn:He; [|by apply set_clipboard_ok].
  apply (srv_ok_agents (set_clipboard st _)); [by apply set_clipboard_ok|by eapply enqueue_step].
Qed.

Lemma deliverable_ok st agent conn cmd now now' : srv_ok st -> srv_ok (command_deliverable st agent conn cmd now now').1.
Proof.
  intros Hok. unfold command_deliverable. pose proof (clipboard_deliverable_ok st agent conn cmd now now' Hok) as Hx.
  assert (srv_ok (if is_clipboard_kind cmd then clipboard_deliverable_locked st agent conn cmd now now' else (st, true)).1) as Hy by by case_match.
  destruct (if is_clipboard_kind cmd then _ else _) as [st1 clip]. cbn [fst] in Hy. cbv zeta.
  destruct clip; [|done]. cbn [negb]. destruct (negb _); [done|]. destruct (if _ || _ then _ else _); [|done]. by destruct (authorize_agent_command _ _ _).
Qed.

Lemma task_recv_ok st agent conn now now' : srv_ok st -> srv_ok (task_recv st agent conn now now').1.
Proof.
  intros Hok. unfold task_recv. destruct (sockets (agents st) !! conn) as [s|] eqn:Hs; [|done]. destruct (queue s) as [|msg rest] eqn:Hq; [done|].
  cbv zeta. set (st1 := with_agents st _). assert (srv_ok st1) as Hok1.
  { apply srv_ok_agents; [done|]. eapply reg_step_insert; [exact Hs|]. rewrite Hq. simpl. lia. }
  destruct msg as [cmd|c cmd|]; [|done..]. pose proof (deliverable_ok st1 agent conn cmd now now' Hok1) as Hx.
  by destruct (command_deliverable _ _ _ _ _ _).
Qed.

(** ** Connections *)

(** Nothing of the agent's control or capture state is left. *)
Record vacated (st : AppState) (a : Uuid) : Prop := {
  va_lease : leases (sessions (control st)) !! a = None;
  va_capture : capture (control st) !! a = None;
  va_session : forall k s, mjpeg_sessions (media st) !! k = Some s -> s_agent_id s <> a;
  va_active : mjpeg_active_capture (media st) !! a = None
}.

Lemma unconnected_vacated st a : srv_ok st -> conn_of (agents st) a = None -> vacated st a.
Proof.
  intros Hok Hn. assert (leases (sessions (control st)) !! a = None) as Hl.
  { destruct (leases (sessions (control st)) !! a) as [l|] eqn:Hl; [|done]. apply (sv_lease _ Hok) in Hl. congruence. }
  split; [done| | |].
  - pose proof (sv_capture _ Hok a) as Hc. rewrite Hl in Hc. by destruct (capture (control st) !! a).
  - intros k s Hs <-. apply (sv_session _ Hok) in Hs. congruence.
  - destruct (mjpeg_active_capture (media st) !! a) as [x|] eqn:Hx; [|done]. apply (sv_active _ Hok) in Hx. congruence.
Qed.

(** Tearing down the agent's current connection: leases first, then capture. *)
Definition vacate (st : AppState) (a conn : Uuid) : AppState :=
  clear_capture_connection_locked (revoke_agent_control_locked st a conn) a conn.
Lemma vacate_ok st a conn : srv_ok st -> srv_ok (vacate st a conn).
Proof. intros Hok. by apply clear_ok, revoke_agent_control_ok. Qed.
Lemma vacate_agents st a conn : agents (vacate st a conn) = agents (revoke_agent_control_locked st a conn).
Proof. done. Qed.
Lemma vacate_conn st a conn b : conn_of (agents (vacate st a conn)) b = conn_of (agents st) b.
Proof. rewrite vacate_agents. apply revoke_agent_control_conn. Qed.

Lemma vacate_vacated st a conn : srv_ok st -> conn_of (agents st) a = Some conn -> vacated (vacate st a conn) a.
Proof.
  intros Hok Hconn. pose proof (vacate_ok st a conn Hok) as Hok'.
  assert (leases (sessions (control (vacate st a conn))) !! a = None) as Hl by by apply revoke_agent_gone.
  destruct (clear_spec (revoke_agent_control_locked st a conn) a conn) as (_ & _ & Hse & Hact). fold (vacate st a conn) in Hse, Hact.
  split; [done| | |].
  - pose proof (sv_capture _ Hok' a) as Hc. rewrite Hl in Hc. by destruct (capture (control (vacate st a conn)) !! a).
  - intros k s Hs Ha. destruct (Hse k s Hs) as [_ Hne]. apply (sv_session _ Hok') in Hs. rewrite vacate_conn, Ha, Hconn in Hs.
    destruct Hne as [?|Hne]; [done|]. congruence.
  - destruct (mjpeg_active_capture (media (vacate st a conn)) !! a) as [x|] eqn:Hx; [|done].
    destruct (Hact a x Hx) as [_ [?|Hne]]; [done|]. apply (sv_active _ Hok') in Hx. rewrite vacate_conn, Hconn in Hx. congruence.
Qed.

(** Rewiring the registry entry of a vacated agent. *)
Lemma rewire_ok st a r :
  srv_ok st -> vacated st a -> wired r ->
  (forall b ch, b <> a -> conn_of r a = Some ch -> conn_of r b = Some ch -> False) ->
  (forall b, b <> a -> conn_of r b = conn_of (agents st) b) -> queues_ok r ->
  (forall b rt, modules r !! b = Some rt -> modules (agents st) !! b = Some rt) ->
  srv_ok (with_agents st r).
Proof.
  intros [H1 H2 H3 H4 H5 H6 H7 H8 H9 H10 H11] [V1 V2 V3 V4] Hw Hown Hoth Hq Hmod. split; simpl; try done.
  - intros b c ch Hb Hc. destruct (decide (b = a)) as [->|Hba], (decide (c = a)) as [->|Hca]; try done.
    + by destruct (Hown c ch).
    + by destruct (Hown b ch).
    + rewrite Hoth in Hb, Hc by done. by apply (H2 b c ch).
  - intros b rt Hb. eapply H4. by apply Hmod.
  - intros b l Hl. destruct (decide (b = a)) as [->|Hne]; [congruence|]. rewrite Hoth by done. by apply H5.
  - intros k s Hs. rewrite Hoth by by eapply V3. by eapply H10.
  - intros b act Hb. destruct (decide (b = a)) as [->|Hne]; [congruence|]. rewrite Hoth by done. by apply H11.
Qed.

Lemma srv_ok_live st l : srv_ok st -> srv_ok (with_agents st (with_live (agents st) l)).
Proof. intros [H1 H2 H3 H4 H5 H6 H7 H8 H9 H10 H11]. by split. Qed.
Lemma srv_ok_frames st f : srv_ok st -> srv_ok (with_media st (set_frames (media st) f)).
Proof. intros [H1 H2 H3 H4 H5 H6 H7 H8 H9 H10 H11]. split; simpl; try done. by apply (media_ok_same (media st)). Qed.
Lemma store_frame_srv_ok st a data now : srv_ok st -> srv_ok (with_media st (store_frame (media st) a data now)).
Proof. intros [H1 H2 H3 H4 H5 H6 H7 H8 H9 H10 H11]. split; simpl; try done. by apply (media_ok_same (media st)). Qed.

Lemma set_runtime_ok st a rt : srv_ok st -> report_ok (Registry.report rt) -> srv_ok (set_runtime st a rt).
Proof.
  intros [H1 H2 H3 H4 H5 H6 H7 H8 H9 H10 H11] Hrt. split; simpl; try done.
  intros b x. rewrite lookup_insert_Some. intros [[<- <-]|[_ Hx]]; [done|by eapply H4].
Qed.
Lemma reset_generation_ok st a : srv_ok st -> srv_ok (reset_generation st a).
Proof.
  intros Hok. unfold reset_generation. destruct (mjpeg_active_capture (media st) !! a) as [act|] eqn:Ha; [|done].
  destruct Hok as [H1 H2 H3 H4 H5 H6 H7 H8 H9 H10 H11]. split; simpl; try done.
  - by apply (media_ok_same (media st)).
  - intros b x. rewrite lookup_insert_Some. intros [[<- <-]|[_ Hx]]; [by apply (H11 a act)|by eapply H11].
Qed.

Variable time_json : Z -> json.

(** The state in which a connection of [a] is replaced or dropped: the current one vacated. *)
Definition vacated_state (st : AppState) (a : Uuid) : AppState :=
  match connections (agents st) !! a with Some c => vacate st a (conn_id c) | None => st end.
Lemma vacated_state_spec st a :
  srv_ok st -> srv_ok (vacated_state st a) /\ vacated (vacated_state st a) a
  /\ (forall b, conn_of (agents (vacated_state st a)) b = conn_of (agents st) b)
  /\ same_but_sockets (agents st) (agents (vacated_state st a))
  /\ (forall ch, is_Some (sockets (agents (vacated_state st a)) !! ch) <-> is_Some (sockets (agents st) !! ch)).
Proof.
  intros Hok. unfold vacated_state. destruct (connections (agents st) !! a) as [c|] eqn:Hc.
  - assert (conn_of (agents st) a = Some (conn_id c)) as Hconn by (unfold conn_of; by rewrite Hc). split_and!.
    + by apply vacate_ok.
    + by apply vacate_vacated.
    + intros b. apply vacate_conn.
    + rewrite vacate_agents. apply (commit_sessions_keeps st _).
    + intros ch. rewrite vacate_agents. unfold revoke_agent_control_locked, commit_sessions.
      match goal with |- context [deliver_control_cleanup ?x ?y] => destruct (deliver_control_cleanup x y) as [st' ok] eqn:Hd end.
      pose proof (deliver_delivered _ _ _ _ (sv_wired st Hok : wired (agents (with_control st (with_sessions (control st) (revoke_agent (sessions (control st)) a (conn_id c)).1)))) Hd) as [_ Hs _ _ _ _].
      cbn [fst]. rewrite Hs. cbn [agents with_control]. by rewrite fmap_is_Some.
  - split_and!; [done| |done..]. apply unconnected_vacated; [done|]. unfold conn_of. by rewrite Hc.
Qed.

Lemma shutdown_sockets r ch reason c :
  is_Some (sockets (send_shutdown r ch reason) !! c) <-> is_Some (sockets r !! c).
Proof.
  unfold send_shutdown. destruct (sockets r !! ch) eqn:Hs; [|done]. simpl.
  destruct (decide (c = ch)) as [->|Hne]; [rewrite lookup_insert_eq, Hs; split; eauto|by rewrite lookup_insert_ne].
Qed.

(** The registry after a registration, before the old task is told to stop. *)
Definition registered (r : AgentRegistry) (a : Uuid) (entry : AgentConn) : AgentRegistry :=
  set_conns r (<[a := entry]> (connections r)) (<[a := conn_id entry]> (cmds r)) (delete a (modules r))
    (<[conn_id entry := {| shutdown := None; queue := [] |}]> (sockets r)).

Lemma registered_ok st a entry :
  srv_ok st -> vacated st a -> sockets (agents st) !! conn_id entry = None ->
  srv_ok (with_agents st (registered (agents st) a entry)).
Proof.
  intros Hok Hv Hfresh. assert (forall b, b <> a -> conn_of (registered (agents st) a entry) b = conn_of (agents st) b) as Hoth.
  { intros b Hb. unfold conn_of. simpl. by rewrite lookup_insert_ne. }
  assert (forall b, conn_of (agents st) b = Some (conn_id entry) -> False) as Hun.
  { intros b (c & Hc & Hi)%fmap_Some. destruct (sv_wired _ Hok b c Hc) as [_ [s Hs]]. rewrite <- Hi in Hs. congruence. }
  apply (rewire_ok st a); [done|done| | |done| |].
  - intros b c. simpl. rewrite lookup_insert_Some. intros [[<- <-]|[Hne Hc]]; [by rewrite !lookup_insert_eq|].
    rewrite lookup_insert_ne by done. destruct (sv_wired _ Hok b c Hc) as [Hcmd [s Hs]]. split; [done|].
    destruct (decide (conn_id c = conn_id entry)) as [->|?]; [rewrite lookup_insert_eq|rewrite lookup_insert_ne by done]; by eexists.
  - intros b ch Hb. unfold conn_of at 1. simpl. rewrite lookup_insert_eq. simpl. intros [= <-]. rewrite Hoth by done. apply Hun.
  - intros ch s. simpl. rewrite lookup_insert_Some. intros [[<- <-]|[_ Hs]]; [simpl; lia|by eapply (sv_queue _ Hok)].
  - intros b rt. simpl. by intros [_ ?]%lookup_delete_Some.
Qed.

Lemma register_eq st a name session has_report at_ conn :
  register_authenticated_connection time_json st a name (Some session) has_report at_ conn =
  let st1 := vacated_state st a in
  let entry := {| conn_id := conn; connected_at := at_; session_id := session; legacy_policy_delivery := negb (default true has_report) |} in
  let r := registered (agents st1) a entry in
  (broadcast (with_agents st1 (match conn_of (agents st1) a with Some p => send_shutdown r p "" | None => r end))
     (BText (mk_obj [("event", JStr "agent_connected"); ("agent_id", uuid_json a); ("name", JStr name);
                     ("connected_at", time_json at_)]%string)), Some conn).
Proof.
  unfold register_authenticated_connection, conn_of. cbv zeta.
  change (match connections (agents st) !! a with Some c => _ | None => st end) with (vacated_state st a).
  destruct (connections (agents (vacated_state st a)) !! a); reflexivity.
Qed.

Lemma register_ok st a name session has_report at_ conn :
  srv_ok st -> sockets (agents st) !! conn = None ->
  srv_ok (register_authenticated_connection time_json st a name session has_report at_ conn).1.
Proof.
  intros Hok Hfresh. destruct session as [session|]; [|done]. rewrite register_eq. cbv zeta. cbn [fst]. apply srv_ok_broadcast.
  destruct (vacated_state_spec st a Hok) as (Hok1 & Hv & Hco & _ & Hso).
  set (entry := {| conn_id := conn; connected_at := at_; session_id := session; legacy_policy_delivery := negb (default true has_report) |}).
  assert (sockets (agents (vacated_state st a)) !! conn_id entry = None) as Hf.
  { apply eq_None_not_Some. rewrite Hso. simpl. rewrite Hfresh. by intros [? ?]. }
  pose proof (registered_ok _ a entry Hok1 Hv Hf) as Hok2. destruct (conn_of _ a) as [p|]; [|done].
  by apply (send_shutdown_ok (with_agents (vacated_state st a) (registered (agents (vacated_state st a)) a entry))).
Qed.

(** The registry without the agent's entry. *)
Definition unregistered (r : AgentRegistry) (a : Uuid) : AgentRegistry :=
  set_conns r (delete a (connections r)) (delete a (cmds r)) (delete a (modules r)) (sockets r).
Lemma unregistered_ok st a : srv_ok st -> vacated st a -> srv_ok (with_agents st (unregistered (agents st) a)).
Proof.
  intros Hok Hv. apply (rewire_ok st a); [done|done| | | | |].
  - intros b c. simpl. intros [Hne Hc]%lookup_delete_Some. rewrite lookup_delete_ne by done. by apply (sv_wired _ Hok).
  - intros b ch _. unfold conn_of at 1. simpl. by rewrite lookup_delete_eq.
  - intros b Hb. unfold conn_of. simpl. by rewrite lookup_delete_ne.
  - apply Hok.
  - intros b rt. simpl. by intros [_ ?]%lookup_delete_Some.
Qed.

Lemma drop_socket_ok st conn :
  srv_ok st -> (forall b, conn_of (agents st) b = Some conn -> False) ->
  srv_ok (with_agents st (with_sockets (agents st) (delete conn (sockets (agents st))))).
Proof.
  intros [H1 H2 H3 H4 H5 H6 H7 H8 H9 H10 H11] Hn. split; simpl; try done.
  - intros b c Hc. simpl in Hc. destruct (H1 b c Hc) as [Hcmd Hs]. split; [done|]. simpl. rewrite lookup_delete_ne; [done|].
    intros ->. apply (Hn b). unfold conn_of. by rewrite Hc.
  - intros ch s. simpl. intros [_ Hs]%lookup_delete_Some. by eapply H3.
Qed.

Lemma cleanup_ok st a conn at_ :
  srv_ok st -> (forall b, conn_of (agents st) b = Some conn -> b = a) -> srv_ok (cleanup_connection time_json st a conn at_).
Proof.
  intros Hok Hown. unfold cleanup_connection. cbv zeta. fold (vacate st a conn). pose proof (vacate_ok st a conn Hok) as Hok1.
  change (conn_id <$> connections (agents (vacate st a conn)) !! a) with (conn_of (agents (vacate st a conn)) a).
  rewrite vacate_conn. case_bool_decide as Hcur.
  - pose proof (vacate_vacated st a conn Hok Hcur) as Hv.
    pose proof (unregistered_ok (with_agents (vacate st a conn) (clear_live (agents (vacate st a conn)) a)) a (srv_ok_live _ _ Hok1) ltac:(by destruct Hv)) as Hok2.
    match goal with |- srv_ok (with_agents ?x _) => apply (drop_socket_ok x) end.
    + apply srv_ok_broadcast. exact (srv_ok_frames _ _ Hok2).
    + intros b Hb. unfold conn_of in Hb. simpl in Hb. destruct (decide (b = a)) as [->|Hne]; [by rewrite lookup_delete_eq in Hb|].
      rewrite lookup_delete_ne in Hb by done. apply Hne, Hown. by rewrite <- (vacate_conn st a conn).
  - apply drop_socket_ok; [done|]. intros b Hb. rewrite vacate_conn in Hb. pose proof (Hown b Hb). by subst.
Qed.

Lemma invalidate_ok st a reason at_ : srv_ok st -> srv_ok (invalidate_agent_connection time_json st a reason at_).
Proof.
  intros Hok. unfold invalidate_agent_connection. cbv zeta.
  change (match connections (agents st) !! a with Some c => _ | None => st end) with (vacated_state st a).
  destruct (vacated_state_spec st a Hok) as (Hok1 & Hv & _).
  pose proof (srv_ok_frames _ (delete a (frames (media (vacated_state st a)))) (srv_ok_live _ (delete a (live (agents (vacated_state st a)))) (unregistered_ok _ a Hok1 Hv))) as Hok2.
  destruct (connections (agents st) !! a) as [c|]; [|exact Hok2]. apply srv_ok_broadcast. by apply (send_shutdown_ok _ (conn_id c) reason Hok2).
Qed.

(** ** Reports and acknowledgments *)

Lemma runtime_report st a (f : RuntimeModules -> bool) rt :
  srv_ok st -> ofilter f (modules (agents st) !! a) = Some rt -> report_ok (Registry.report rt).
Proof. intros Hok [Hrt _]%ofilter_Some. by eapply (sv_report _ Hok). Qed.

Lemma parsed_report_ok v r : parse_report v = Ok r -> report_ok r.
Proof. by intros (r0 & _ & _ & ?)%parse_report_Ok. Qed.

(** Revoking and resetting before a grant change is published. *)
Lemma grant_change_ok st a conn (revoke screen : bool) :
  srv_ok st ->
  srv_ok (let st := if revoke then revoke_agent_control_locked st a conn else st in if screen then reset_generation st a else st).
Proof.
  intros Hok. cbv zeta. destruct revoke, screen; try done;
    [by apply reset_generation_ok, revoke_agent_control_ok|by apply revoke_agent_control_ok|by apply reset_generation_ok].
Qed.

Lemma report_msg_ok st a conn v ps at_ : srv_ok st -> srv_ok (accept_module_report time_json st a conn v ps at_).1.
Proof.
  intros Hok. unfold accept_module_report. destruct (parse_report v) as [r|e] eqn:Hp; [|done].
  destruct (negb _); [done|]. destruct (is_some_and _ _); [done|]. cbv zeta.
  match goal with |- context [ofilter _ (modules (agents ?x) !! a)] => assert (srv_ok x) as Hok1 by by apply grant_change_ok end.
  destruct (match ofilter _ _ with Some rt => _ | None => _ end) as [sent last]. apply srv_ok_broadcast, set_runtime_ok; [exact Hok1|by eapply parsed_report_ok].
Qed.

Lemma replay_ok st a conn now : srv_ok st -> srv_ok (replay_module_disables st a conn now).
Proof.
  unfold replay_module_disables. generalize (unsent_requests st a conn). intros l. revert st.
  induction l as [|req l IH]; intros st Hok; [done|]. cbn [foldl]. apply IH. unfold replay_one.
  destruct (send_command _ _ _) as [r|e] eqn:Hs; [|done]. cbv zeta.
  assert (reg_step (agents st) r) as Hr.
  { unfold send_command, send_agent_command_json in Hs. apply rbind_Ok in Hs as (c & _ & Hs). repeat case_match; try done.
    apply rbind_Ok in Hs as (x & _ & Hs). by eapply enqueue_step. }
  pose proof (srv_ok_agents st r Hok Hr) as Hok1.
  destruct (ofilter _ _) as [rt|] eqn:Hrt; [|done]. apply set_runtime_ok; [done|]. exact (runtime_report _ _ _ _ Hok1 Hrt).
Qed.

Lemma check_ack_report ack req prev r : check_ack ack req prev = Ok (Some r) -> report_ok r.
Proof.
  unfold check_ack. cbv zeta. repeat ensure_step. intros (o & Ho & Hx)%rbind_Ok.
  assert (forall r, o = Some r -> report_ok r) as Hrep.
  { intros r0 ->. destruct (ack_state ack); [|done]. apply rbind_Ok in Ho as (r1 & Hr1 & [= <-]). by eapply parsed_report_ok. }
  revert Hx. ensure_step. destruct o as [r0|]; [|done]. repeat ensure_step. intros [= <-]. by apply Hrep.
Qed.

Lemma ack_ok_srv st a conn v req : srv_ok st -> srv_ok (accept_module_disable_ack st a conn v req).1.
Proof.
  intros Hok. unfold accept_module_disable_ack. destruct (decode_ack v) as [ack|]; [|done].
  destruct (negb _); [done|]. destruct (negb _); [done|]. destruct (req (ack_command_id ack)) as [q|]; [|done].
  destruct (negb _); [done|]. cbv zeta. destruct (negb _); [done|]. destruct (check_ack _ _ _) as [r|e] eqn:Hck; [|done].
  cbn [fst]. apply srv_ok_broadcast. match goal with |- srv_ok (match ofilter _ (modules (agents ?x) !! a) with _ => _ end) =>
    assert (srv_ok x) as Hok1 by (by apply grant_change_ok); revert Hok1; generalize x end.
  intros x Hx. destruct (ofilter _ (modules (agents x) !! a)) as [rt|] eqn:Hrt; [|exact Hx]. apply set_runtime_ok; [exact Hx|]. simpl.
  destruct r as [r|]; [by eapply check_ack_report|]. exact (runtime_report _ _ _ _ Hx Hrt).
Qed.

Lemma request_disable_ok st a req retried now : srv_ok st -> srv_ok (request_disable st a req retried now).1.
Proof.
  intros Hok. unfold request_disable. cbv zeta.
  assert (srv_ok (if bool_decide (dr_module req = RemoteInput \/ dr_module req = LiveScreen) then
    match conn_id <$> connections (agents st) !! a with Some conn => revoke_agent_control_locked st a conn | None => st end else st)) as Hok1.
  { case_bool_decide; [|done]. destruct (connections (agents st) !! a); [|done]. by apply revoke_agent_control_ok. }
  revert Hok1. generalize (if bool_decide (dr_module req = RemoteInput \/ dr_module req = LiveScreen) then
    match conn_id <$> connections (agents st) !! a with Some conn => revoke_agent_control_locked st a conn | None => st end else st).
  intros x Hx. destruct (ofilter _ _) as [rt|] eqn:Hrt; [|done]. destruct (retried && _); [done|].
  apply set_runtime_ok; [done|]. exact (runtime_report _ _ _ _ Hx Hrt).
Qed.
Lemma disable_ok st a req retried now sent_at : srv_ok st -> srv_ok (disable_module st a req retried now sent_at).1.
Proof.
  intros Hok. unfold disable_module. pose proof (request_disable_ok st a req retried now Hok) as Hx.
  destruct (request_disable _ _ _ _ _) as [st1 [[conn|]|e]]; [|done..]. by apply replay_ok.
Qed.

End preservation.
