(* ===== verification/Steps.v ===== *)
(** What the server's operations leave alone: none but the connection handlers touches the
    connection table, none but the report handlers the stored reports, none but an acquisition
    adds a lease, and none but viewer input queues remote input. *)
From S2P Require Import Prelude Json Protocol Sessions Modules Registry Geometry State Runtime Capture Control Clipboard Connection Server.

(** ** The relations *)

(** No socket appears or disappears, and one told to shut down stays so. *)
Definition sock_same (r r' : AgentRegistry) : Prop :=
  forall ch, match sockets r !! ch, sockets r' !! ch with
  | Some s, Some s' => shutdown s <> None -> shutdown s' <> None
  | None, None => True
  | _, _ => False
  end.
(** What may be new in a queue. *)
Definition sock_step (P : Uuid -> AgentControl -> Prop) (r r' : AgentRegistry) : Prop :=
  forall ch s' m, sockets r' !! ch = Some s' -> m ∈ queue s' ->
  (exists s, sockets r !! ch = Some s /\ m ∈ queue s) \/ P ch m.
Record reg_quiet (P : Uuid -> AgentControl -> Prop) (r r' : AgentRegistry) : Prop := {
  rq_same : same_but_sockets r r';
  rq_socks : sock_same r r';
  rq_msgs : sock_step P r r'
}.

(** Anything but remote input: other commands, and releases addressed to this very socket. *)
Definition harmless (ch : Uuid) (m : AgentControl) : Prop :=
  match m with
  | CText c => is_remote_input (kind_of c) = false
  | CInputCleanup conn c => conn = ch /\ is_cleanup_command c = true
  | CClose => True
  end.
(** Leases only end. *)
Definition lease_step (st st' : AppState) : Prop :=
  forall a l', leases (sessions (control st')) !! a = Some l' ->
  exists l, leases (sessions (control st)) !! a = Some l /\ owner (grant l) = owner (grant l').
Definition quiet (st st' : AppState) : Prop := reg_quiet harmless (agents st) (agents st') /\ lease_step st st'.

Section relations.
Variable P : Uuid -> AgentControl -> Prop.

Lemma sock_same_refl r : sock_same r r.
Proof. intros ch. by destruct (sockets r !! ch). Qed.
Lemma sock_same_trans r1 r2 r3 : sock_same r1 r2 -> sock_same r2 r3 -> sock_same r1 r3.
Proof.
  intros H1 H2 ch. specialize (H1 ch). specialize (H2 ch).
  destruct (sockets r1 !! ch), (sockets r2 !! ch), (sockets r3 !! ch); auto; done.
Qed.
Lemma sock_step_refl r : sock_step P r r.
Proof. intros ch s m Hs Hm. left. eauto. Qed.
Lemma sock_step_trans r1 r2 r3 : sock_step P r1 r2 -> sock_step P r2 r3 -> sock_step P r1 r3.
Proof.
  intros H1 H2 ch s m Hs Hm. destruct (H2 _ _ _ Hs Hm) as [(s2 & Hs2 & Hm2)|?]; [|by right]. by eapply H1.
Qed.
Lemma reg_quiet_refl r : reg_quiet P r r.
Proof. split; [done|apply sock_same_refl|apply sock_step_refl]. Qed.
Lemma reg_quiet_trans r1 r2 r3 : reg_quiet P r1 r2 -> reg_quiet P r2 r3 -> reg_quiet P r1 r3.
Proof.
  intros [A1 B1 C1] [A2 B2 C2].
  split; [by eapply same_but_sockets_trans|by eapply sock_same_trans|by eapply sock_step_trans].
Qed.
Lemma reg_quiet_dom r r' ch : reg_quiet P r r' -> is_Some (sockets r' !! ch) <-> is_Some (sockets r !! ch).
Proof.
  intros [_ Hs _]. specialize (Hs ch).
  destruct (sockets r !! ch), (sockets r' !! ch); try done; split; intros [? ?]; by eexists || done.
Qed.

Lemma try_send_quiet r ch msg r' : try_send r ch msg = Some r' -> P ch msg -> reg_quiet P r r'.
Proof.
  intros (s & Hs & _ & ->)%try_send_Some HP. split; [done| |].
  - intros c. simpl. destruct (decide (c = ch)) as [->|Hne]; [by rewrite Hs, lookup_insert_eq|].
    rewrite lookup_insert_ne by done. by destruct (sockets r !! c).
  - intros c s' m. simpl. rewrite lookup_insert_Some. intros [[<- <-]|[Hne Hs']] Hm; [|left; eauto].
    simpl in Hm. apply elem_of_app in Hm as [Hm| ->%list_elem_of_singleton]; [left; eauto|by right].
Qed.
Lemma send_shutdown_quiet r ch reason : reg_quiet P r (send_shutdown r ch reason).
Proof.
  unfold send_shutdown. destruct (sockets r !! ch) as [s|] eqn:Hs; [|apply reg_quiet_refl]. split; [done| |].
  - intros c. simpl. destruct (decide (c = ch)) as [->|Hne]; [by rewrite Hs, lookup_insert_eq|].
    rewrite lookup_insert_ne by done. by destruct (sockets r !! c).
  - intros c s' m. simpl. rewrite lookup_insert_Some. intros [[<- <-]|[Hne Hs']] Hm; left; eauto.
Qed.
Lemma enqueue_quiet r a conn c r' :
  enqueue_authorized_command r a conn c = Ok r' -> (forall ch, P ch (CText c)) -> reg_quiet P r r'.
Proof. intros (x & ch & _ & _ & _ & Hs)%enqueue_Ok HP. by eapply try_send_quiet. Qed.
End relations.

Lemma lease_step_refl st : lease_step st st.
Proof. intros a l Hl. eauto. Qed.
Lemma lease_step_trans st1 st2 st3 : lease_step st1 st2 -> lease_step st2 st3 -> lease_step st1 st3.
Proof.
  intros H1 H2 a l Hl. destruct (H2 a l Hl) as (l2 & Hl2 & E2). destruct (H1 a l2 Hl2) as (l1 & Hl1 & E1).
  exists l1. split; [done|congruence].
Qed.
Lemma quiet_refl st : quiet st st.
Proof. split; [apply reg_quiet_refl|apply lease_step_refl]. Qed.
Lemma quiet_trans st1 st2 st3 : quiet st1 st2 -> quiet st2 st3 -> quiet st1 st3.
Proof. intros [A1 B1] [A2 B2]. split; [by eapply reg_quiet_trans|by eapply lease_step_trans]. Qed.
Lemma quiet_same st st' : agents st' = agents st -> sessions (control st') = sessions (control st) -> quiet st st'.
Proof. intros E1 E2. split; [rewrite E1; apply reg_quiet_refl|]. intros a l. rewrite E2. eauto. Qed.
Lemma quiet_agents st r : reg_quiet harmless (agents st) r -> quiet st (with_agents st r).
Proof. intros Hr. split; [done|exact (lease_step_refl st)]. Qed.

(** ** Lease teardowns *)

Section quiet_ops.
Context `{UuidText, JsonText}.

Lemma elem_all_releases r ch bs m :
  m ∈ all_releases r ch bs -> exists b c, b ∈ bs /\ c ∈ c_commands b /\ m = CInputCleanup ch c.
Proof.
  unfold all_releases, releases_to. intros (b & Hm & Hb)%list_elem_of_bind.
  destruct (is_some_and _ _); [|by apply not_elem_of_nil in Hm].
  apply list_elem_of_fmap in Hm as (c & -> & Hc). by exists b, c.
Qed.

Lemma commit_quiet st s c : srv_ok st -> settles (sessions (control st)) s c -> quiet st (commit_sessions st (s, c)).1.
Proof.
  intros Hok (Hfrom & _ & Hs). destruct (commit_sessions_keeps st (s, c)) as (_ & Hsame & Hse & _).
  unfold commit_sessions in *. cbn [fst snd] in *. set (st0 := with_control st (with_sessions (control st) s)) in *.
  destruct (deliver_control_cleanup st0 c) as [st' safe] eqn:Hd. cbn [fst] in *.
  assert (wired (agents st0)) as Hw by apply Hok. destruct (deliver_delivered _ _ _ _ Hw Hd) as [_ Hq _ _ _ _].
  change (agents st0) with (agents st) in Hq. split.
  - split; [done| |].
    + intros ch. rewrite Hq. destruct (sockets (agents st) !! ch); [|done]. simpl. by case_match.
    + intros ch s' m. rewrite Hq. intros (s0 & Hs0 & ->)%fmap_Some Hm. simpl in Hm.
      apply elem_of_app in Hm as [Hm|Hm%elem_of_take]; [left; eauto|]. destruct Hm as (i & Hm & _). apply list_elem_of_lookup_2 in Hm.
      apply elem_all_releases in Hm as (b & k & Hb & Hk & ->). right. split; [done|].
      rewrite Forall_forall in Hfrom. pose proof (cleanup_commands_ok _ _ (sv_held _ Hok) (Hfrom b Hb)) as Hck.
      rewrite Forall_forall in Hck. by apply Hck.
  - intros a l'. rewrite Hse. intros Hl'. specialize (Hs a). rewrite Hl' in Hs.
    destruct (leases (sessions (control st)) !! a) as [l|] eqn:E; [|done]. exists l. split; [done|]. by destruct Hs.
Qed.
Lemma commit_t_quiet {T} st s (t : Transition T) :
  srv_ok st -> settles (sessions (control st)) s (t_cleanup t) -> quiet st (commit_sessions st (s, t_cleanup t)).1.
Proof. apply commit_quiet. Qed.

Lemma after_expiry_quiet st now : srv_ok st -> quiet st (after_expiry st now).
Proof.
  intros Hok. unfold after_expiry, expire_control.
  pose proof (settles_remove_if (sessions (control st)) (fun l => expires_at (grant l) <=? now) RExpired) as Hs.
  unfold expire. destruct (remove_all _ _ _). by apply commit_quiet.
Qed.
Lemma revoke_viewer_quiet st v : srv_ok st -> quiet st (revoke_viewer_control st v).
Proof.
  intros Hok. unfold revoke_viewer_control, revoke_viewer.
  pose proof (settles_remove_if (sessions (control st)) (fun l => bool_decide (viewer_connection_id (owner (grant l)) = v)) RViewerDisconnected) as Hs.
  destruct (remove_all _ _ _). by apply commit_quiet.
Qed.
Lemma revoke_agent_quiet st a conn : srv_ok st -> quiet st (revoke_agent_control_locked st a conn).
Proof.
  intros Hok. unfold revoke_agent_control_locked. pose proof (settles_revoke_agent (sessions (control st)) a conn) as Hs.
  destruct (revoke_agent _ _ _). by apply commit_quiet.
Qed.

(** ** Capture *)

Lemma authorize_kind r id cmd c : authorize_agent_command r id cmd = Ok c -> kind_of c = kind_of cmd.
Proof.
  rewrite authorize_Ok. intros (conn & _ & _ & _ & Ha). unfold authorized_as in Ha.
  destruct (gate (from_kind (kind_of cmd))) as [m| | |] eqn:Hg; [|naive_solver..].
  destruct Ha as [[_ (rt & _ & ->)]|(_ & _ & _ & ->)]; [|done].
  apply kind_of_set_idx; [done|]. apply kind_of_object. intros E. rewrite E in Hg. done.
Qed.

Lemma enqueue_capture_quiet st agent conn cmd gen :
  is_remote_input (kind_of (to_value cmd)) = false -> kind_of (to_value cmd) <> ""%string ->
  reg_quiet harmless (agents st) (agents (enqueue_capture st agent conn cmd gen).1).
Proof.
  intros Hk Hne. destruct (enqueue_capture st agent conn cmd gen) as [st' res] eqn:He. apply enqueue_capture_spec in He as (_ & _ & _ & Hr). simpl.
  destruct res; [|destruct Hr as [->| ->]; [apply reg_quiet_refl|apply send_shutdown_quiet]].
  destruct Hr as (c & ch & Ha & _ & _ & Hs). eapply try_send_quiet; [exact Hs|]. simpl.
  pose proof (authorize_kind _ _ _ _ Ha) as E. rewrite kind_of_set_idx; [by rewrite E|done|].
  apply kind_of_object. by rewrite E.
Qed.

Lemma sync_quiet st agent req fresh : quiet st (sync_capture_locked st agent req fresh).1.
Proof.
  destruct (sync_capture_locked st agent req fresh) as [st' res] eqn:Hs.
  pose proof (sync_spec _ _ _ _ _ _ Hs) as (_ & _ & Hc & _). simpl. split; [|intros a l; rewrite Hc; eauto].
  unfold sync_capture_locked in Hs. destruct (conn_sessions _ _ _) as [|s rest].
  - destruct (ofilter _ _) as [a|]; [|simplify_eq; apply reg_quiet_refl].
    pose proof (enqueue_capture_quiet st agent (a_conn_id a) StopCapture None eq_refl ltac:(done)) as He.
    destruct (enqueue_capture _ _ _ _ _) as [st1 [[]|]]; by simplify_eq.
  - destruct (open_conn_id _ _) as [conn|]; [|simplify_eq; apply reg_quiet_refl]. cbv zeta in Hs.
    destruct (is_some_and _ _); [simplify_eq; apply reg_quiet_refl|].
    match type of Hs with context [enqueue_capture ?x ?y ?z ?u ?v] => assert (reg_quiet harmless (agents st) (agents (enqueue_capture x y z u v).1)) as He;
      [|destruct (enqueue_capture x y z u v) as [st1 [[]|]]; by simplify_eq] end.
    by match goal with |- context [enqueue_capture ?x ?y ?z ?u ?v] => apply (enqueue_capture_quiet x y z u v) end.
Qed.

Lemma begin_quiet st agent session user prefs req now fresh :
  srv_ok st -> quiet st (begin_mjpeg_session st agent session user prefs req now fresh).1.
Proof.
  intros Hok. destruct (begin_mjpeg_session st agent session user prefs req now fresh) as [st' res] eqn:Hb. simpl.
  apply begin_cases in Hb. eapply quiet_trans; [by apply (after_expiry_quiet st now)|].
  revert Hb. generalize (after_expiry st now). intros st0 Hb. destruct Hb as [e _|conn entry st1 st2 res _ _ _ _ _ _ _ -> Hs]; [apply quiet_refl|].
  match type of Hs with sync_capture_locked ?a ?b ?c ?d = _ => pose proof (sync_quiet a b c d) as Hq end.
  rewrite Hs in Hq. cbn [fst] in Hq. eapply quiet_trans; [|eapply quiet_trans; [exact Hq|]]; [by apply quiet_same|].
  destruct res as [[]|]; [apply quiet_refl|by apply quiet_same].
Qed.

Lemma end_quiet st agent session user fresh : srv_ok st -> quiet st (end_mjpeg_session st agent session user fresh).1.
Proof.
  intros Hok. unfold end_mjpeg_session. destruct (ofilter _ _) as [s|]; [|apply quiet_refl]. cbn [fst]. cbv zeta.
  set (m1 := set_sessions _ _). eapply quiet_trans; [|apply sync_quiet]. case_match; [|by apply quiet_same].
  rewrite revoke_agent_control_media. eapply quiet_trans; [by apply (revoke_agent_quiet st agent (s_conn_id s))|]. by apply quiet_same.
Qed.

Lemma vacate_quiet st a conn : srv_ok st -> quiet st (vacate st a conn).
Proof. intros Hok. eapply quiet_trans; [by apply (revoke_agent_quiet st a conn)|]. by apply quiet_same. Qed.
Lemma vacated_quiet st a : srv_ok st -> quiet st (vacated_state st a).
Proof. intros Hok. unfold vacated_state. case_match; [by apply vacate_quiet|apply quiet_refl]. Qed.

(** ** Clipboard and delivery *)

Lemma set_clipboard_quiet st x : quiet st (set_clipboard st x).
Proof. by apply quiet_same. Qed.

Lemma clipboard_valid_quiet st p now now' : srv_ok st -> quiet st (clipboard_valid_locked st p now now').1.
Proof.
  intros Hok. unfold clipboard_valid_locked. destruct (_ || _); [apply quiet_refl|].
  pose proof (settles_authorize (sessions (control st)) (pc_agent p) (pc_owner p) (pc_token p) now') as Hs.
  destruct (authorize _ _ _ _ _) as [s t]. pose proof (commit_t_quiet _ _ _ Hok Hs) as Hq. destruct (commit_sessions _ _) as [st1 safe].
  by repeat case_match.
Qed.

Lemma clipboard_deliverable_quiet st agent conn cmd now now' :
  srv_ok st -> quiet st (clipboard_deliverable_locked st agent conn cmd now now').1.
Proof.
  intros Hok. unfold clipboard_deliverable_locked. destruct (uuid_field _ _) as [id|]; [|apply quiet_refl].
  destruct (clipboard (control st) !! id) as [p|]; [|apply quiet_refl]. cbv zeta.
  pose proof (set_clipboard_quiet st (delete id (clipboard (control st)))) as H1.
  pose proof (clipboard_valid_quiet _ p now now' (set_clipboard_ok _ (delete id (clipboard (control st))) Hok)) as H2.
  destruct (_ && _).
  - destruct (clipboard_valid_locked _ _ _ _). cbn [fst] in *. eapply quiet_trans; [exact H1|]. eapply quiet_trans; [exact H2|]. apply set_clipboard_quiet.
  - cbn [fst]. eapply quiet_trans; [exact H1|]. apply set_clipboard_quiet.
Qed.

Lemma complete_clipboard_quiet st agent conn value now now' :
  srv_ok st -> quiet st (complete_clipboard st agent conn value now now').1.
Proof.
  intros Hok. unfold complete_clipboard. destruct (uuid_field _ _) as [id|]; [|apply quiet_refl].
  destruct (clipboard (control st) !! id) as [p|]; [|apply quiet_refl]. destruct (_ || _); [apply quiet_refl|]. cbv zeta.
  pose proof (set_clipboard_quiet st (delete id (clipboard (control st)))) as H1.
  pose proof (clipboard_valid_quiet _ p now now' (set_clipboard_ok _ (delete id (clipboard (control st))) Hok)) as H2.
  destruct (clipboard_valid_locked _ _ _ _). cbn [fst] in *. eapply quiet_trans; [exact H1|]. eapply quiet_trans; [exact H2|]. apply set_clipboard_quiet.
Qed.

Lemma request_command_kind action text id cmd :
  request_command action text id = Ok cmd -> is_remote_input (kind_of (to_value cmd)) = false.
Proof. unfold request_command. destruct text; case_match; intros [= <-]; done. Qed.

Lemma clipboard_start_quiet st agent user action tok text id now now1 now2 :
  srv_ok st -> quiet st (clipboard_start st agent user action tok text id now now1 now2).1.
Proof.
  intros Hok. unfold clipboard_start. destruct (is_operator user); [|apply quiet_refl]. cbn [negb].
  destruct (request_command _ _ _) as [cmd|] eqn:Hcmd; [|apply quiet_refl]. destruct (http_owner _ _ _ _) as [o|]; [|apply quiet_refl].
  destruct (authorize_agent_command _ _ _) as [c|] eqn:Hc; [|apply quiet_refl]. cbv zeta.
  match goal with |- context [clipboard_valid_locked st ?q now1 now2] => pose proof (clipboard_valid_quiet st q now1 now2 Hok) as Hx;
    destruct (clipboard_valid_locked st q now1 now2) as [st1 valid] end. cbn [fst] in Hx.
  destruct valid; [|done]. cbn [negb]. destruct (_ || _); [done|]. eapply quiet_trans; [exact Hx|].
  destruct (enqueue_authorized_command _ _ _ _) as [r|e] eqn:He.
  - eapply quiet_trans; [apply set_clipboard_quiet|]. apply quiet_agents. eapply enqueue_quiet; [exact He|]. intros ch. simpl.
    rewrite (authorize_kind _ _ _ _ Hc). by eapply request_command_kind.
  - eapply quiet_trans; apply set_clipboard_quiet.
Qed.

Lemma clipboard_tick_quiet st id now now1 now2 : srv_ok st -> quiet st (clipboard_tick st id now now1 now2).1.1.
Proof.
  intros Hok. unfold clipboard_tick. destruct (clipboard (control st) !! id) as [p|]; [|apply quiet_refl]. cbv zeta.
  pose proof (set_clipboard_quiet st (delete id (clipboard (control st)))) as H1.
  pose proof (clipboard_valid_quiet _ p now1 now2 (set_clipboard_ok _ (delete id (clipboard (control st))) Hok)) as H2.
  destruct (clipboard_valid_locked _ _ _ _). cbn [fst] in *. eapply quiet_trans; [exact H1|]. eapply quiet_trans; [exact H2|]. apply set_clipboard_quiet.
Qed.
Lemma clipboard_finish_quiet st id now now' : srv_ok st -> quiet st (clipboard_finish st id now now').1.
Proof.
  intros Hok. unfold clipboard_finish. destruct (clipboard (control st) !! id) as [p|]; [|apply quiet_refl].
  eapply quiet_trans; [apply set_clipboard_quiet|]. by apply clipboard_valid_quiet, set_clipboard_ok.
Qed.
Lemma clipboard_drop_quiet st id : quiet st (clipboard_drop st id).
Proof.
  unfold clipboard_drop. destruct (clipboard (control st) !! id) as [p|]; [|apply quiet_refl]. cbv zeta.
  destruct (enqueue_authorized_command _ _ _ _) as [r|e] eqn:He; [|apply set_clipboard_quiet].
  eapply quiet_trans; [apply set_clipboard_quiet|]. apply quiet_agents. by eapply enqueue_quiet.
Qed.

Lemma deliverable_quiet st agent conn cmd now now' : srv_ok st -> quiet st (command_deliverable st agent conn cmd now now').1.
Proof.
  intros Hok. unfold command_deliverable. pose proof (clipboard_deliverable_quiet st agent conn cmd now now' Hok) as Hx.
  assert (quiet st (if is_clipboard_kind cmd then clipboard_deliverable_locked st agent conn cmd now now' else (st, true)).1) as Hy.
  { case_match; [done|apply quiet_refl]. }
  destruct (if is_clipboard_kind cmd then _ else _) as [st1 clip]. cbn [fst] in Hy. cbv zeta.
  destruct clip; [|done]. cbn [negb]. destruct (negb _); [done|]. destruct (if _ || _ then _ else _); [|done]. by destruct (authorize_agent_command _ _ _).
Qed.

(** Taking the next message off a queue. *)
Definition popped (st : AppState) (conn : Uuid) (s : Socket) (rest : list AgentControl) : AppState :=
  with_agents st (with_sockets (agents st) (<[conn := {| shutdown := shutdown s; queue := rest |}]> (sockets (agents st)))).
Lemma popped_quiet st conn s msg rest :
  sockets (agents st) !! conn = Some s -> queue s = msg :: rest -> quiet st (popped st conn s rest).
Proof.
  intros Hs Hq. apply quiet_agents. split; [done| |].
  - intros c. simpl. destruct (decide (c = conn)) as [->|Hne]; [by rewrite Hs, lookup_insert_eq|].
    rewrite lookup_insert_ne by done. by destruct (sockets (agents st) !! c).
  - intros c s' m. simpl. rewrite lookup_insert_Some. intros [[<- <-]|[Hne Hs']] Hm; left; [|eauto].
    exists s. split; [done|]. rewrite Hq. by right.
Qed.
Lemma popped_ok st conn s msg rest :
  srv_ok st -> sockets (agents st) !! conn = Some s -> queue s = msg :: rest -> srv_ok (popped st conn s rest).
Proof.
  intros Hok Hs Hq. apply srv_ok_agents; [done|]. eapply reg_step_insert; [exact Hs|]. rewrite Hq. simpl. lia.
Qed.

Lemma task_recv_quiet st agent conn now now' : srv_ok st -> quiet st (task_recv st agent conn now now').1.
Proof.
  intros Hok. unfold task_recv. destruct (sockets (agents st) !! conn) as [s|] eqn:Hs; [|apply quiet_refl].
  destruct (queue s) as [|msg rest] eqn:Hq; [apply quiet_refl|]. cbv zeta. fold (popped st conn s rest).
  pose proof (popped_quiet st conn s msg rest Hs Hq) as H1. destruct msg as [cmd|c cmd|]; [|done..].
  pose proof (deliverable_quiet _ agent conn cmd now now' (popped_ok _ _ _ _ _ Hok Hs Hq)) as Hx.
  destruct (command_deliverable _ _ _ _ _ _). by eapply quiet_trans.
Qed.

(** ** Commands *)

Lemma send_quiet r a cmd r' : send_agent_command_json r a cmd = Ok r' -> reg_quiet harmless r r'.
Proof.
  unfold send_agent_command_json. intros (c & Hc & Hs)%rbind_Ok. case_match; [done|].
  destruct (is_remote_input (kind_of cmd)) eqn:Hk; [done|]. cbn [orb] in Hs. case_match; [done|].
  apply rbind_Ok in Hs as (conn & _ & Hs). eapply enqueue_quiet; [exact Hs|]. intros ch. simpl. by rewrite (authorize_kind _ _ _ _ Hc).
Qed.
Lemma disconnect_quiet r a : reg_quiet harmless r (try_disconnect r a).1.
Proof.
  unfold try_disconnect. destruct (cmds r !! a ≫= _) as [r'|] eqn:Hs; [|apply reg_quiet_refl].
  apply bind_Some in Hs as (ch & _ & Hs). by eapply try_send_quiet.
Qed.

(** ** Lease operations *)

(** Everything but the leases and their captures. *)
Lemma acquire_agents st agent o value now clock fresh :
  srv_ok st -> reg_quiet harmless (agents st) (agents (control_acquire st agent o value now clock fresh).1).
Proof.
  intros Hok. pose proof (commit_quiet st _ _ Hok (settles_expire_agent (sessions (control st)) agent now)) as [Hq _].
  rewrite <- surjective_pairing in Hq. fold (acquire_state st agent now) in Hq.
  destruct (acquire_cases st agent o value now clock fresh Hok); [done|by rewrite commit_control_agents|].
  unfold bind_lease. cbn [agents with_control]. by rewrite commit_control_agents.
Qed.

(** Renewals, releases and refusals only take leases away. *)
Lemma lease_op_quiet st agent viewer user value now clock fresh :
  srv_ok st -> kind_of value <> "control_acquire"%string ->
  quiet st (control_lease_op st agent viewer user value now clock fresh).1.
Proof.
  intros Hok Hk%String.eqb_neq. unfold control_lease_op. rewrite Hk. destruct (current_control_owner _ _ _ _) as [o|e]; [|apply quiet_refl].
  destruct (if String.eqb _ _ then _ else _) as [v|e]; [|apply quiet_refl]. cbv zeta.
  destruct (uuid_field value "lease_token") as [tok|]; [|apply quiet_refl].
  destruct (String.eqb _ "control_heartbeat"); [|destruct (String.eqb _ "control_release"); [|apply quiet_refl]].
  - pose proof (settles_heartbeat (sessions (control st)) agent o tok DEFAULT_LEASE_TTL now) as Hs.
    destruct (heartbeat _ _ _ _ _ _) as [s t]. pose proof (commit_t_quiet _ _ _ Hok Hs). by destruct (commit_sessions _ _).
  - pose proof (settles_release (sessions (control st)) agent o tok now) as Hs.
    destruct (release _ _ _ _ _) as [s t]. pose proof (commit_t_quiet _ _ _ Hok Hs). by destruct (commit_sessions _ _).
Qed.

(** An acquire message is an acquisition by the sender, who holds the operator role, on a
    device whose remote input is authorized, or a refusal that changes nothing. *)
Lemma lease_op_acquire st agent viewer user value now clock fresh :
  kind_of value = "control_acquire"%string ->
  (exists e, control_lease_op st agent viewer user value now clock fresh = (st, Err e))
  \/ exists o c, current_control_owner st agent viewer user = Ok o /\ authorize_agent_command (agents st) agent mouse_probe = Ok c
     /\ control_lease_op st agent viewer user value now clock fresh = control_acquire st agent o value now clock fresh.
Proof.
  intros Hk. unfold control_lease_op. destruct (current_control_owner _ _ _ _) as [o|e]; [|eauto]. rewrite Hk. cbv zeta.
  destruct (String.eqb "control_acquire" "control_release") eqn:E; [done|]. clear E.
  destruct (authorize_agent_command _ _ _) as [c|e] eqn:Hc; [|eauto]. right. exists o, c. by split_and!.
Qed.

Lemma lease_op_agents st agent viewer user value now clock fresh :
  srv_ok st -> reg_quiet harmless (agents st) (agents (control_lease_op st agent viewer user value now clock fresh).1).
Proof.
  intros Hok. destruct (decide (kind_of value = "control_acquire"%string)) as [Hk|Hk]; [|by apply lease_op_quiet].
  destruct (lease_op_acquire st agent viewer user value now clock fresh Hk) as [(e & ->)|(o & c & _ & _ & ->)]; [apply reg_quiet_refl|].
  by apply acquire_agents.
Qed.

Lemma lease_message_agents st viewer user value now clock audit_now fresh :
  srv_ok st -> reg_quiet harmless (agents st) (agents (control_lease_message st viewer user value now clock audit_now fresh).1).
Proof.
  intros Hok. unfold control_lease_message. destruct (uuid_field value "agent_id") as [agent|]; [|apply reg_quiet_refl].
  destruct (uuid_field value "request_id"); [|apply reg_quiet_refl]. cbv zeta.
  pose proof (lease_op_agents st agent viewer user value now clock fresh Hok) as Hx. destruct (control_lease_op _ _ _ _ _ _ _ _) as [st1 res].
  by case_match.
Qed.

(** ** Viewer input *)

Lemma track_Ok s a o tok cmd now :
  t_result (authorize_and_track s a o tok cmd now).2 = Ok tt ->
  exists l h, leases s !! a = Some l /\ owner (grant l) = o /\ token (grant l) = tok /\ now < expires_at (grant l)
  /\ track (held l) cmd = Ok h
  /\ authorize_and_track s a o tok cmd now
     = ({| leases := <[a := {| grant := grant l; held := h |}]> (leases s) |}, {| t_result := Ok tt; t_cleanup := [] |}).
Proof.
  unfold authorize_and_track. destruct (authorize s a o tok now) as [s1 t] eqn:Ha.
  destruct (t_result t) as [[]|e] eqn:Ht; [|simpl; congruence].
  assert (is_ok (t_result (authorize s a o tok now).2) = true) as Hi by by rewrite Ha; simpl; rewrite Ht.
  apply authorize_Ok_inv in Hi as (l & Hl & Ho & Htk & Hn & E). rewrite Ha in E. simplify_eq. rewrite Hl.
  destruct (track (held l) cmd) as [h|e] eqn:Htr; [|done]. intros _. exists l, h. by split_and!.
Qed.

(** The leases as they were, but for the device's own when its deadline has passed. *)
Definition own_lease_only (s : ControlSessions) (a : Uuid) (now : Instant) (s' : ControlSessions) : Prop :=
  leases s' = leases s \/ exists l, leases s !! a = Some l /\ expires_at (grant l) <= now /\ leases s' = delete a (leases s).

(** Every way [send_viewer_input] ends. *)
Inductive input_case (st : AppState) (agent viewer : Uuid) (user : AuthUser) (tok : option Uuid) (cmd : json) (now : Instant)
    : AppState -> result unit CommandDenied -> Prop :=
| InRefused st' e :
    quiet st st' -> own_lease_only (sessions (control st)) agent now (sessions (control st')) ->
    code e <> "command_queue_full"%string -> input_case st agent viewer user tok cmd now st' (Err e)
| InQueued o tk l h c r :
    current_control_owner st agent viewer user = Ok o -> tok = Some tk ->
    leases (sessions (control st)) !! agent = Some l -> owner (grant l) = o -> token (grant l) = tk -> now < expires_at (grant l) ->
    track (held l) cmd = Ok h -> authorize_agent_command (agents st) agent cmd = Ok c ->
    enqueue_authorized_command (agents st) agent (agent_connection_id o) c = Ok r ->
    input_case st agent viewer user tok cmd now
      (with_agents (with_control st (with_sessions (control st)
        {| leases := <[agent := {| grant := grant l; held := h |}]> (leases (sessions (control st))) |})) r) (Ok tt)
| InOverflow o l h st1 e :
    current_control_owner st agent viewer user = Ok o ->
    leases (sessions (control st)) !! agent = Some l -> owner (grant l) = o -> track (held l) cmd = Ok h ->
    st1 = with_control st (with_sessions (control st)
      {| leases := <[agent := {| grant := grant l; held := h |}]> (leases (sessions (control st))) |}) ->
    input_case st agent viewer user tok cmd now
      (revoke_agent_control_locked (with_agents st1 (send_shutdown (agents st) (agent_connection_id o) "")) agent (agent_connection_id o)) (Err e).

Lemma authorize_Err_code r id cmd e : authorize_agent_command r id cmd = Err e -> code e <> "command_queue_full"%string.
Proof.
  unfold authorize_agent_command. destruct (connections r !! id) as [conn|]; [|by intros [= <-]]. cbn [ok_or rbind].
  destruct (_ || _); [by intros [= <-]|]. destruct (protocol_command _); [done|]. cbv zeta. destruct (String.eqb _ "disable_module").
  - destruct (ofilter _ _) as [rt|]; [|by intros [= <-]]. cbn [ok_or rbind]. destruct (match _ with Some i => _ | None => None end) as [q|]; [|by intros [= <-]].
    cbn [ok_or rbind]. destruct (_ || _); [by intros [= <-]|done].
  - destruct (command_module _) as [m|]; [|by intros [= <-]]. cbn [ok_or rbind]. destruct (_ && _); [done|].
    destruct (ofilter _ _) as [rt|]; [|by intros [= <-]]. cbn [ok_or rbind]. destruct (_ || _); [by intros [= <-]|]. destruct (has_pending _ _); [by intros [= <-]|done].
Qed.
Lemma owner_Err_code st agent viewer user e : current_control_owner st agent viewer user = Err e -> code e <> "command_queue_full"%string.
Proof. unfold current_control_owner. destruct (negb _); [by intros [= <-]|]. destruct (open_conn _ _); [done|]. by intros [= <-]. Qed.
Lemma lease_error_code x : code (lease_error x) <> "command_queue_full"%string.
Proof. by destruct x. Qed.
Lemma track_Err s a o tok cmd now e :
  t_result (authorize_and_track s a o tok cmd now).2 = Err e ->
  own_lease_only s a now (authorize_and_track s a o tok cmd now).1.
Proof.
  intros Ht. assert ((authorize_and_track s a o tok cmd now).1 = (authorize s a o tok now).1) as ->.
  { revert Ht. unfold authorize_and_track. destruct (authorize s a o tok now) as [s1 t]. destruct (t_result t) eqn:E; [|done].
    destruct (leases s1 !! a) as [x|]; [|done]. destruct (track (held x) cmd); [|done]. simpl. congruence. }
  rewrite authorize_spec. destruct (leases s !! a) as [l|] eqn:E; [|by left].
  destruct (expires_at (grant l) <=? now) eqn:X; [|by left]. right. exists l. split; [done|]. split; [by apply Z.leb_le|done].
Qed.

Lemma input_cases st agent viewer user tok cmd now :
  srv_ok st ->
  input_case st agent viewer user tok cmd now
    (send_viewer_input st agent viewer user tok cmd now).1 (send_viewer_input st agent viewer user tok cmd now).2.
Proof.
  intros Hok. unfold send_viewer_input. destruct (current_control_owner _ _ _ _) as [o|] eqn:Ho; [|apply InRefused; [apply quiet_refl|by left|by eapply owner_Err_code]].
  destruct tok as [tok|]; [|apply InRefused; [apply quiet_refl|by left|done]].
  destruct (authorize_agent_command _ _ _) as [c|] eqn:Hc; [|apply InRefused; [apply quiet_refl|by left|by eapply authorize_Err_code]].
  pose proof (settles_track (sessions (control st)) agent o tok cmd now) as Hs. pose proof (track_Ok (sessions (control st)) agent o tok cmd now) as Htr.
  pose proof (track_Err (sessions (control st)) agent o tok cmd now) as Hte.
  destruct (authorize_and_track _ _ _ _ _ _) as [s t]. cbn [fst snd] in Htr, Hte. pose proof (commit_t_quiet _ _ _ Hok Hs) as Hq.
  destruct (commit_sessions_keeps st (s, t_cleanup t)) as (_ & _ & Hse & _).
  destruct (t_result t) as [[]|e] eqn:Ht.
  2: { destruct (commit_sessions _ _). cbn [fst] in *. apply InRefused; [done|unfold own_lease_only; rewrite Hse; by eapply Hte|apply lease_error_code]. }
  clear Hte Hse.
  destruct (Htr eq_refl) as (l & h & Hl & Hlo & Hlt & Hn & Hh & E). simplify_eq. cbn [t_cleanup]. rewrite commit_nil.
  cbn [agents with_control]. destruct (enqueue_authorized_command _ _ _ _) as [r|e] eqn:He; cbn [fst snd].
  - by eapply InQueued.
  - apply owner_conn in Ho as Hoc. destruct Hoc as [Hopen _]. unfold open_conn_id in Hopen. apply fmap_Some in Hopen as (x & Hx & Hid).
    apply open_conn_Some in Hx as [Hx _]. rewrite Hx. cbn [ofilter]. rewrite bool_decide_eq_true_2 by done.
    rewrite <- Hid. by eapply (InOverflow st agent viewer user _ cmd now).
Qed.

(** ** Control needs both grants *)

(** The device's own report, on its current connection, grants both remote input and the screen. *)
Definition controllable (r : AgentRegistry) (a : Uuid) : Prop :=
  exists rt, current_runtime r a = Some rt
  /\ granted (report_get (Registry.report rt) RemoteInput) = true /\ granted (report_get (Registry.report rt) LiveScreen) = true.
Definition grants_ok (st : AppState) : Prop :=
  forall a l, leases (sessions (control st)) !! a = Some l -> controllable (agents st) a.

Lemma current_runtime_same r r' a : same_but_sockets r r' -> current_runtime r' a = current_runtime r a.
Proof. intros (Hc & _ & Hm & _). unfold current_runtime. by rewrite Hc, Hm. Qed.
Lemma controllable_same r r' a : same_but_sockets r r' -> controllable r a -> controllable r' a.
Proof. intros Hs. unfold controllable. by rewrite (current_runtime_same r r'). Qed.
Lemma grants_quiet st st' : quiet st st' -> grants_ok st -> grants_ok st'.
Proof. intros [[Hs _ _] Hl] Hg a l' Hl'. destruct (Hl a l' Hl') as (l & Hl0 & _). eapply controllable_same; [done|by eapply Hg]. Qed.

Lemma granted_not_blocking r :
  grant_blocks_control r = false -> granted (report_get r RemoteInput) = true /\ granted (report_get r LiveScreen) = true.
Proof.
  unfold grant_blocks_control, granted. cbv zeta.
  by destruct (enabled (report_get r LiveScreen)), (available (report_get r LiveScreen)), (authorization_required (report_get r LiveScreen)),
    (enabled (report_get r RemoteInput)), (available (report_get r RemoteInput)), (authorization_required (report_get r RemoteInput)).
Qed.

Lemma mouse_probe_granted r a c : authorize_agent_command r a mouse_probe = Ok c -> module_authorized r a RemoteInput = true.
Proof.
  intros (conn & _ & _ & _ & Ha)%authorize_Ok. unfold authorized_as in Ha.
  change (gate (from_kind (kind_of mouse_probe))) with (GModule RemoteInput) in Ha. by destruct Ha as [[? _]|(_ & _ & [?|?] & _)].
Qed.
Lemma start_probe_granted r a c : authorize_agent_command r a start_capture_probe = Ok c -> module_authorized r a LiveScreen = true.
Proof.
  intros (conn & _ & _ & _ & Ha)%authorize_Ok. unfold authorized_as in Ha.
  change (gate (from_kind (kind_of start_capture_probe))) with (GModule LiveScreen) in Ha. by destruct Ha as [[? _]|(_ & _ & [?|?] & _)].
Qed.
Lemma authorized_controllable r a :
  module_authorized r a RemoteInput = true -> module_authorized r a LiveScreen = true -> controllable r a.
Proof.
  intros (rt & Hrt & Hg & _)%module_authorized_spec (rt' & Hrt' & Hg' & _)%module_authorized_spec. simplify_eq. by exists rt.
Qed.

Lemma grants_acquire st agent o value now clock fresh c :
  srv_ok st -> grants_ok st -> authorize_agent_command (agents st) agent mouse_probe = Ok c ->
  grants_ok (control_acquire st agent o value now clock fresh).1.
Proof.
  intros Hok Hg Hprobe. pose proof (commit_quiet st _ _ Hok (settles_expire_agent (sessions (control st)) agent now)) as Hq.
  rewrite <- surjective_pairing in Hq. fold (acquire_state st agent now) in Hq. pose proof (grants_quiet _ _ Hq Hg) as Hg1.
  destruct (acquire_cases st agent o value now clock fresh Hok) as [e|l f fr Hl Ho Hn Hv|fr g Hl Hf Hv _]; [done| |].
  - eapply grants_quiet; [|exact Hg1]. apply quiet_same; [apply commit_control_agents|by rewrite commit_control_control].
  - intros a l'. unfold bind_lease. simpl. rewrite commit_control_control, commit_control_agents, lookup_insert_Some.
    intros [[<- _]|[_ Hl']]; [|by eapply Hg1]. apply (controllable_same (agents st)); [apply Hq|].
    apply mouse_probe_granted in Hprobe. apply authorized_controllable; [done|].
    unfold validate_control_capture in Hv. apply rbind_Ok in Hv as (c' & Hv%start_probe_granted & _).
    apply module_authorized_spec in Hv as (rt & Hrt & Hx). apply module_authorized_spec. exists rt. split; [|done].
    destruct Hq as [[Hs _ _] _]. by rewrite (current_runtime_same _ _ _ Hs) in Hrt.
Qed.

Lemma grants_lease_message st viewer user value now clock audit_now fresh :
  srv_ok st -> grants_ok st -> grants_ok (control_lease_message st viewer user value now clock audit_now fresh).1.
Proof.
  intros Hok Hg. unfold control_lease_message. destruct (uuid_field value "agent_id") as [agent|]; [|done].
  destruct (uuid_field value "request_id"); [|done]. cbv zeta.
  assert (grants_ok (control_lease_op st agent viewer user value now clock fresh).1) as Hg1.
  { destruct (decide (kind_of value = "control_acquire"%string)) as [Hk|Hk]; [|by eapply grants_quiet; [apply lease_op_quiet|]].
    destruct (lease_op_acquire st agent viewer user value now clock fresh Hk) as [(e & ->)|(o & c & _ & Hc & ->)]; [done|].
    by eapply grants_acquire. }
  destruct (control_lease_op _ _ _ _ _ _ _ _) as [st1 res]. cbn [fst] in *. case_match; [|done].
  eapply grants_quiet; [|exact Hg1]. apply quiet_same; [done|]. apply audit_event_keeps.
Qed.

(** ** Connections *)

Variable time_json : Z -> json.

(** What a connection handler adds to the queues. *)
Lemma sock_step_sockets P r r' : sockets r' = sockets r -> sock_step P r r'.
Proof. intros E ch s m. rewrite E. left. eauto. Qed.

Lemma registered_msgs P r a entry : sock_step P r (registered r a entry).
Proof.
  intros ch s m. simpl. rewrite lookup_insert_Some. intros [[<- <-]|[_ Hs]] Hm; [by apply not_elem_of_nil in Hm|left; eauto].
Qed.

Lemma register_msgs st a name session has_report at_ conn :
  srv_ok st ->
  sock_step harmless (agents st) (agents (register_authenticated_connection time_json st a name session has_report at_ conn).1).
Proof.
  intros Hok. destruct session as [session|]; [|by apply sock_step_sockets]. rewrite register_eq. cbv zeta. cbn [fst agents broadcast with_agents].
  eapply sock_step_trans; [apply (vacated_quiet st a Hok)|]. eapply sock_step_trans; [apply registered_msgs|].
  destruct (conn_of _ _); [apply send_shutdown_quiet|apply sock_step_refl].
Qed.

Lemma cleanup_msgs st a conn at_ :
  srv_ok st -> sock_step harmless (agents st) (agents (cleanup_connection time_json st a conn at_)).
Proof.
  intros Hok. unfold cleanup_connection. cbv zeta. fold (vacate st a conn).
  eapply sock_step_trans; [apply (vacate_quiet st a conn Hok)|]. intros ch s m. cbn [agents with_agents sockets with_sockets].
  intros [_ Hs]%lookup_delete_Some Hm. left. exists s. split; [|done]. by case_match.
Qed.

Lemma invalidate_msgs st a reason at_ :
  srv_ok st -> sock_step harmless (agents st) (agents (invalidate_agent_connection time_json st a reason at_)).
Proof.
  intros Hok. unfold invalidate_agent_connection. cbv zeta.
  change (match connections (agents st) !! a with Some c => _ | None => st end) with (vacated_state st a).
  eapply sock_step_trans; [apply (vacated_quiet st a Hok)|].
  destruct (connections (agents st) !! a) as [c|]; [|by apply sock_step_sockets]. cbn [agents broadcast with_agents].
  eapply sock_step_trans; [|apply send_shutdown_quiet]. by apply sock_step_sockets.
Qed.

(** ** Operations that keep connections and reports *)

(** A stored report's identity: whose it is and what it says, but not its pending disables. *)
Definition report_key (rt : RuntimeModules) : Uuid * ModuleReport := (rm_conn_id rt, Registry.report rt).
Record gentle (st st' : AppState) : Prop := {
  ge_conns : connections (agents st') = connections (agents st);
  ge_cmds : cmds (agents st') = cmds (agents st);
  ge_reports : forall a, report_key <$> modules (agents st') !! a = report_key <$> modules (agents st) !! a;
  ge_socks : sock_same (agents st) (agents st');
  ge_msgs : sock_step harmless (agents st) (agents st');
  ge_leases : lease_step st st'
}.
Lemma quiet_gentle st st' : quiet st st' -> gentle st st'.
Proof. intros [[(Hc & Hk & Hm & _) Hs Hp] Hl]. split; try done. intros a. by rewrite Hm. Qed.
Lemma gentle_refl st : gentle st st.
Proof. apply quiet_gentle, quiet_refl. Qed.
Lemma gentle_trans st1 st2 st3 : gentle st1 st2 -> gentle st2 st3 -> gentle st1 st3.
Proof.
  intros [A1 A2 A3 A4 A5 A6] [B1 B2 B3 B4 B5 B6].
  split; [congruence|congruence| |by eapply sock_same_trans|by eapply sock_step_trans|by eapply lease_step_trans].
  intros a. by rewrite B3, A3.
Qed.

Lemma current_report r r' a :
  connections r' = connections r -> report_key <$> modules r' !! a = report_key <$> modules r !! a ->
  Registry.report <$> current_runtime r' a = Registry.report <$> current_runtime r a.
Proof.
  intros Hc Hm. unfold current_runtime. rewrite Hc. destruct (connections r !! a) as [c|]; [|done].
  destruct (modules r !! a) as [rt|], (modules r' !! a) as [rt'|]; try done. simpl in *. injection Hm as E1 E2. rewrite E1.
  case_bool_decide; [|done]. simpl. by rewrite E2.
Qed.
Lemma controllable_reports r r' a :
  connections r' = connections r -> report_key <$> modules r' !! a = report_key <$> modules r !! a ->
  controllable r a -> controllable r' a.
Proof.
  intros Hc Hm (rt & Hrt & Hg). pose proof (current_report _ _ _ Hc Hm) as E. rewrite Hrt in E.
  destruct (current_runtime r' a) as [rt'|] eqn:Hrt'; [|done]. injection E as E. exists rt'. by rewrite E.
Qed.
Lemma grants_gentle st st' : gentle st st' -> grants_ok st -> grants_ok st'.
Proof.
  intros [A1 A2 A3 A4 A5 A6] Hg a l' Hl'. destruct (A6 a l' Hl') as (l & Hl & _). eapply controllable_reports; [done|done|by eapply Hg].
Qed.

(** Storing a runtime that says what the stored one says. *)
Lemma set_runtime_gentle st a rt rt' :
  modules (agents st) !! a = Some rt -> report_key rt' = report_key rt -> gentle st (set_runtime st a rt').
Proof.
  intros Hrt E. split; try done; [|exact (sock_same_refl (agents st))|by apply sock_step_sockets|exact (lease_step_refl st)].
  intros b. simpl. destruct (decide (b = a)) as [->|Hne]; [by rewrite lookup_insert_eq, Hrt; simpl; rewrite E|by rewrite lookup_insert_ne].
Qed.

Lemma replay_one_gentle st a conn req now : gentle st (replay_one st a conn req now).
Proof.
  unfold replay_one. destruct (send_command _ _ _) as [r|e] eqn:Hs; [|apply gentle_refl]. cbv zeta.
  eapply gentle_trans; [apply quiet_gentle, (quiet_agents st r); by eapply send_quiet|].
  destruct (ofilter _ _) as [rt|] eqn:Hrt; [|apply gentle_refl]. apply ofilter_Some in Hrt as [Hrt _]. by eapply set_runtime_gentle.
Qed.
Lemma replay_gentle st a conn now : gentle st (replay_module_disables st a conn now).
Proof.
  unfold replay_module_disables. generalize (unsent_requests st a conn). intros l. revert st.
  induction l as [|req l IH]; intros st; [apply gentle_refl|]. cbn [foldl]. eapply gentle_trans; [apply replay_one_gentle|apply IH].
Qed.

Lemma disable_gentle st a req retried now sent_at : srv_ok st -> gentle st (disable_module st a req retried now sent_at).1.
Proof.
  intros Hok. unfold disable_module. assert (gentle st (request_disable st a req retried now).1) as Hg.
  { unfold request_disable. cbv zeta.
    match goal with |- gentle st (match ofilter _ (modules (agents ?x) !! a) with _ => _ end).1 => assert (quiet st x) as Hx; [|revert Hx; generalize x] end.
    { case_bool_decide; [|apply quiet_refl]. destruct (connections (agents st) !! a); [by apply revoke_agent_quiet|apply quiet_refl]. }
    intros x Hx%quiet_gentle. destruct (ofilter _ _) as [rt|] eqn:Hrt; [|done]. destruct (retried && _); [done|].
    apply ofilter_Some in Hrt as [Hrt _]. eapply gentle_trans; [exact Hx|]. by eapply set_runtime_gentle. }
  destruct (request_disable _ _ _ _ _) as [st1 [[conn|]|e]]; [|done..]. eapply gentle_trans; [exact Hg|apply replay_gentle].
Qed.

Lemma live_gentle st l : gentle st (with_agents st (with_live (agents st) l)).
Proof. split; try done; [exact (sock_same_refl (agents st))|by apply sock_step_sockets|exact (lease_step_refl st)]. Qed.

(** ** Report handlers *)

(** The state in which a new report is published: control revoked, capture reset. *)
Definition before_publish (st : AppState) (a conn : Uuid) (revoke screen : bool) : AppState :=
  let st := if revoke then revoke_agent_control_locked st a conn else st in if screen then reset_generation st a else st.
Lemma before_publish_quiet st a conn revoke screen : srv_ok st -> quiet st (before_publish st a conn revoke screen).
Proof.
  intros Hok. unfold before_publish. cbv zeta. assert (forall x, quiet x (reset_generation x a)) as Hr.
  { intros x. unfold reset_generation. case_match; by apply quiet_same. }
  assert (quiet st (if revoke then revoke_agent_control_locked st a conn else st)) as H1.
  { destruct revoke; [by apply revoke_agent_quiet|apply quiet_refl]. }
  destruct screen; [|done]. by eapply quiet_trans.
Qed.
Lemma before_publish_gone st a conn screen :
  srv_ok st -> conn_of (agents st) a = Some conn -> leases (sessions (control (before_publish st a conn true screen))) !! a = None.
Proof.
  intros Hok Hconn. unfold before_publish. cbv zeta. pose proof (revoke_agent_gone st a conn Hok Hconn) as Hg.
  destruct screen; [|done]. unfold reset_generation. by case_match.
Qed.

(** Every way a report ends. *)
Inductive report_case (st : AppState) (a conn : Uuid) (v : json) (at_ : Z) : AppState -> result ModuleReport string -> Prop :=
| RepRefused e : report_case st a conn v at_ st (Err e)
| RepStored r rt revoke screen :
    parse_report v = Ok r -> conn_of (agents st) a = Some conn ->
    (forall old, modules (agents st) !! a = Some old -> rm_conn_id old = conn -> follows r (Registry.report old) = true) ->
    (grant_blocks_control r = true -> revoke = true) -> report_key rt = (conn, r) ->
    report_case st a conn v at_ (broadcast (set_runtime (before_publish st a conn revoke screen) a rt) (BText (modules_event time_json a r at_))) (Ok r).
Lemma report_cases st a conn v ps at_ :
  report_case st a conn v at_ (accept_module_report time_json st a conn v ps at_).1 (accept_module_report time_json st a conn v ps at_).2.
Proof.
  unfold accept_module_report. destruct (parse_report v) as [r|e] eqn:Hp; [|simpl; constructor].
  destruct (bool_decide _) eqn:Hconn; [|simpl; constructor]. cbn [negb]. bool_prop.
  destruct (is_some_and _ _) eqn:Hf; [simpl; constructor|]. rewrite is_some_and_false in Hf. cbv zeta.
  destruct (match ofilter _ _ with Some rt => _ | None => _ end) as [sent last]. cbn [fst snd].
  eapply (RepStored st a conn v at_ r _ _ (revision_changed (agents st) a r LiveScreen)); [done|done| | |].
  - intros old Hold Hid. specialize (Hf old). rewrite Hold in Hf. simpl in Hf. rewrite bool_decide_eq_true_2 in Hf by done.
    specialize (Hf eq_refl). by bool_prop.
  - intros ->. by rewrite orb_true_r.
  - done.
Qed.

(** Every way an acknowledgment ends. *)
Inductive ack_case (st : AppState) (a conn : Uuid) : AppState -> result unit string -> Prop :=
| AckIgnored res : ack_case st a conn st res
| AckStored report rt' revoke screen ev :
    conn_of (agents st) a = Some conn ->
    (forall r old, report = Some r -> modules (agents st) !! a = Some old -> rm_conn_id old = conn -> follows r (Registry.report old) = true) ->
    (forall r, report = Some r -> report_ok r /\ (grant_blocks_control r = true -> revoke = true)) ->
    (exists old, modules (agents st) !! a = Some old /\ rm_conn_id old = conn /\ report_key rt' = (conn, default (Registry.report old) report)) ->
    ack_case st a conn (broadcast (set_runtime (before_publish st a conn revoke screen) a rt') ev) (Ok tt).
Lemma check_ack_follows ack req prev r : check_ack ack req prev = Ok (Some r) -> forall p, prev = Some p -> follows r p = true.
Proof.
  unfold check_ack. cbv zeta. repeat ensure_step. intros (o & _ & Hx)%rbind_Ok. revert Hx. ensure_step. destruct o as [r0|]; [|done].
  do 3 ensure_step. destruct (is_none_or prev (follows r0)) eqn:Hf; [|done]. intros [= <-] p ->. done.
Qed.
Lemma ack_cases st a conn v req :
  srv_ok st -> ack_case st a conn (accept_module_disable_ack st a conn v req).1 (accept_module_disable_ack st a conn v req).2.
Proof.
  intros Hok. unfold accept_module_disable_ack. destruct (decode_ack v) as [ack|]; [|simpl; constructor].
  destruct (negb _); [simpl; constructor|]. destruct (bool_decide _) eqn:Hconn; [|simpl; constructor]. cbn [negb]. bool_prop.
  destruct (req (ack_command_id ack)) as [q|]; [|simpl; constructor]. destruct (negb _); [simpl; constructor|]. cbv zeta.
  destruct (ofilter _ (modules (agents st) !! a)) as [old|] eqn:Hold; [|simpl; constructor]. apply ofilter_Some in Hold as [Hold Hid]. bool_prop.
  destruct (negb _); [simpl; constructor|]. destruct (check_ack _ _ _) as [rep|e] eqn:Hck; [|simpl; constructor]. cbn [fst snd].
  set (rev := is_some_and rep (fun r => revision_changed (agents st) a r LiveScreen) || is_some_and rep (fun r => grant_blocks_control r || revision_changed (agents st) a r RemoteInput)).
  set (scr := is_some_and rep (fun r => revision_changed (agents st) a r LiveScreen)).
  change (ack_case st a conn (broadcast (match ofilter (fun rt => bool_decide (rm_conn_id rt = conn)) (modules (agents (before_publish st a conn rev scr)) !! a) with
    | Some rt => set_runtime (before_publish st a conn rev scr) a {| rm_conn_id := rm_conn_id rt; Registry.report := default (Registry.report rt) rep;
        pending := delete (ack_command_id ack) (pending rt); sent := sent rt ∖ {[ack_command_id ack]}; last_sent := delete (ack_command_id ack) (last_sent rt) |}
    | None => before_publish st a conn rev scr end) (BText (ack_event a ack rep))) (Ok tt)).
  destruct (before_publish_quiet st a conn rev scr Hok) as [[(_ & _ & Hm & _) _ _] _]. rewrite Hm, Hold. cbn [ofilter].
  rewrite bool_decide_eq_true_2 by done. apply (AckStored st a conn rep); [done| | |].
  - intros r o -> Ho _. rewrite Hold in Ho. simplify_eq. by eapply check_ack_follows.
  - intros r ->. split; [by eapply check_ack_report|]. subst rev. simpl. intros ->. by rewrite orb_true_r.
  - exists old. split_and!; [done..|]. unfold report_key. simpl. by rewrite Hid.
Qed.

Lemma publish_grants st a conn revoke screen rt b :
  srv_ok st -> grants_ok st -> conn_of (agents st) a = Some conn -> rm_conn_id rt = conn ->
  (revoke = false -> forall l, leases (sessions (control st)) !! a = Some l ->
    granted (report_get (Registry.report rt) RemoteInput) = true /\ granted (report_get (Registry.report rt) LiveScreen) = true) ->
  grants_ok (broadcast (set_runtime (before_publish st a conn revoke screen) a rt) b).
Proof.
  intros Hok Hg Hconn Hrt Hgr. pose proof (before_publish_quiet st a conn revoke screen Hok) as Hq. pose proof (grants_quiet _ _ Hq Hg) as Hg1.
  intros c l Hl. simpl in Hl. cbn [agents broadcast]. destruct (decide (c = a)) as [->|Hne].
  - destruct revoke; [by rewrite before_publish_gone in Hl|].
    destruct Hq as [[(Hc & _) _ _] Hle]. destruct (Hle a l Hl) as (l0 & Hl0 & _).
    destruct (Hgr eq_refl l0 Hl0) as [? ?]. exists rt. split; [|done]. unfold current_runtime. simpl.
    unfold conn_of in Hconn. rewrite <- Hc in Hconn. apply fmap_Some in Hconn as (x & Hx & ->). rewrite Hx, lookup_insert_eq. simpl. by rewrite bool_decide_eq_true_2.
  - destruct (Hg1 c l Hl) as (rt' & Hrt' & ?). exists rt'. split; [|done]. unfold current_runtime in *. simpl.
    destruct (connections _ !! c); [|done]. by rewrite lookup_insert_ne.
Qed.

Lemma grants_report st a conn v ps at_ :
  srv_ok st -> grants_ok st -> grants_ok (accept_module_report time_json st a conn v ps at_).1.
Proof.
  intros Hok Hg. destruct (report_cases st a conn v ps at_) as [e|r rt revoke screen _ Hconn _ Hrev [= Hid Hrep]]; [done|].
  apply publish_grants; [done..|]. intros -> l _. rewrite Hrep. apply granted_not_blocking. by destruct (grant_blocks_control r); [specialize (Hrev eq_refl)|].
Qed.
Lemma grants_ack st a conn v req : srv_ok st -> grants_ok st -> grants_ok (accept_module_disable_ack st a conn v req).1.
Proof.
  intros Hok Hg. destruct (ack_cases st a conn v req Hok) as [res|rep rt revoke screen ev Hconn _ Hrep (old & Hold & Hid & [= E1 E2])]; [done|].
  apply publish_grants; [done..|]. intros -> l Hl. rewrite E2. destruct rep as [r|]; simpl.
  - destruct (Hrep r eq_refl) as [_ Hrev]. apply granted_not_blocking. by destruct (grant_blocks_control r); [specialize (Hrev eq_refl)|].
  - destruct (Hg a l Hl) as (rt0 & Hrt0 & ?). unfold current_runtime in Hrt0. destruct (connections (agents st) !! a); [|done].
    apply ofilter_Some in Hrt0 as [Hrt0 _]. rewrite Hold in Hrt0. by simplify_eq.
Qed.

(** A vacated agent's entry may be rewired freely. *)
Lemma grants_rewire st a r :
  grants_ok st -> vacated st a -> (forall b, b <> a -> connections r !! b = connections (agents st) !! b /\ modules r !! b = modules (agents st) !! b) ->
  grants_ok (with_agents st r).
Proof.
  intros Hg Hv Hoth b l Hl. simpl in *. destruct (decide (b = a)) as [->|Hne]; [by rewrite (va_lease _ _ Hv) in Hl|].
  destruct (Hg b l Hl) as (rt & Hrt & ?). exists rt. split; [|done]. destruct (Hoth b Hne) as [E1 E2]. unfold current_runtime in *. by rewrite E1, E2.
Qed.
Lemma grants_same st st' :
  grants_ok st -> connections (agents st') = connections (agents st) -> modules (agents st') = modules (agents st) ->
  leases (sessions (control st')) = leases (sessions (control st)) -> grants_ok st'.
Proof.
  intros Hg E1 E2 E3 a l. rewrite E3. intros Hl. destruct (Hg a l Hl) as (rt & Hrt & ?). exists rt. split; [|done].
  unfold current_runtime in *. by rewrite E1, E2.
Qed.

Lemma send_shutdown_conns r ch reason :
  connections (send_shutdown r ch reason) = connections r /\ modules (send_shutdown r ch reason) = modules r.
Proof. unfold send_shutdown. by case_match. Qed.

Lemma grants_register st a name session has_report at_ conn :
  srv_ok st -> grants_ok st -> grants_ok (register_authenticated_connection time_json st a name session has_report at_ conn).1.
Proof.
  intros Hok Hg. destruct session as [session|]; [|done]. rewrite register_eq. cbv zeta. cbn [fst].
  destruct (vacated_state_spec st a Hok) as (_ & Hv & _). pose proof (grants_quiet _ _ (vacated_quiet st a Hok) Hg) as Hg1.
  set (entry := {| conn_id := conn; connected_at := at_; session_id := session; legacy_policy_delivery := negb (default true has_report) |}).
  assert (grants_ok (with_agents (vacated_state st a) (registered (agents (vacated_state st a)) a entry))) as Hg2.
  { apply (grants_rewire _ a); [done..|]. intros b Hb. simpl. by rewrite lookup_insert_ne, lookup_delete_ne. }
  eapply grants_same; [exact Hg2|..|done]; simpl; by destruct (conn_of _ a); [rewrite ?(proj1 (send_shutdown_conns _ _ _)), ?(proj2 (send_shutdown_conns _ _ _))|].
Qed.

Lemma grants_unregistered st a : grants_ok st -> vacated st a -> grants_ok (with_agents st (unregistered (agents st) a)).
Proof. intros Hg Hv. apply (grants_rewire _ a); [done..|]. intros b Hb. simpl. by rewrite !lookup_delete_ne. Qed.

Lemma grants_cleanup st a conn at_ : srv_ok st -> grants_ok st -> grants_ok (cleanup_connection time_json st a conn at_).
Proof.
  intros Hok Hg. unfold cleanup_connection. cbv zeta. fold (vacate st a conn).
  pose proof (grants_quiet _ _ (vacate_quiet st a conn Hok) Hg) as Hg1.
  change (conn_id <$> connections (agents (vacate st a conn)) !! a) with (conn_of (agents (vacate st a conn)) a). rewrite vacate_conn.
  case_bool_decide as Hcur.
  - eapply grants_same; [exact (grants_unregistered _ a Hg1 (vacate_vacated st a conn Hok Hcur))|done..].
  - by eapply grants_same.
Qed.

Lemma grants_invalidate st a reason at_ : srv_ok st -> grants_ok st -> grants_ok (invalidate_agent_connection time_json st a reason at_).
Proof.
  intros Hok Hg. unfold invalidate_agent_connection. cbv zeta.
  change (match connections (agents st) !! a with Some c => _ | None => st end) with (vacated_state st a).
  destruct (vacated_state_spec st a Hok) as (_ & Hv & _). pose proof (grants_quiet _ _ (vacated_quiet st a Hok) Hg) as Hg1.
  pose proof (grants_unregistered _ a Hg1 Hv) as Hg2.
  destruct (connections (agents st) !! a) as [c|]; (eapply grants_same; [exact Hg2|..|done]); simpl;
    rewrite ?(proj1 (send_shutdown_conns _ _ _)), ?(proj2 (send_shutdown_conns _ _ _)); done.
Qed.

End quiet_ops.
