(* ===== verification/System.v ===== *)
(** The server as a transition system: every operation the network, the HTTP handlers and the
    timers run on [AppState], interleaved in any order, and the properties of every state such a
    run reaches. *)
From S2P Require Import Prelude Json Protocol Sessions Modules Registry Geometry State Runtime Capture Control Clipboard Connection Server Steps.

(** ** Operations *)

Inductive Op : Type :=
| Register (agent : Uuid) (name : string) (session : option Z) (has_report : option bool) (at_ : Z) (conn : Uuid)
| Cleanup (agent conn : Uuid) (at_ : Z)
| Invalidate (agent : Uuid) (reason : string) (at_ : Z)
| Report (agent conn : Uuid) (value : json) (pending : list ModuleDisableRequest) (at_ : Z)
| DisableReply (agent conn : Uuid) (value : json) (request : Uuid -> option ModuleDisableRequest)
| Replay (agent conn : Uuid) (now : Instant)
| Disable (agent : Uuid) (request : ModuleDisableRequest) (retried : bool) (now sent_at : Instant)
| Telemetry (agent : Uuid) (kind : string) (value : json) (now : Z)
| Send (agent : Uuid) (cmd : json)
| Disconnect (agent : Uuid)
| LeaseMessage (viewer : Uuid) (user : AuthUser) (value : json) (now clock audit_now : Instant) (fresh : Uuid)
| Input (agent viewer : Uuid) (user : AuthUser) (token : option Uuid) (cmd : json) (now : Instant)
| RevokeViewer (viewer : Uuid)
| ExpireTick (now : Instant)
| BeginStream (agent session user : Uuid) (prefs : MjpegViewerPrefs) (req : option Z) (now : Instant) (fresh : Uuid)
| EndStream (agent session : Uuid) (user : option Uuid) (fresh : Uuid)
| SyncCapture (agent fresh : Uuid)
| StoreFrame (agent : Uuid) (data : list Z) (now : Instant)
| ClipStart (agent : Uuid) (user : AuthUser) (action : string) (token : Uuid) (text : option string) (id : Uuid) (now now1 now2 : Instant)
| ClipTick (id : Uuid) (now now1 now2 : Instant)
| ClipFinish (id : Uuid) (now now' : Instant)
| ClipDrop (id : Uuid)
| ClipReply (agent conn : Uuid) (value : json) (now now' : Instant)
| Recv (agent conn : Uuid) (now now' : Instant)
| AuditCommand (user : AuthUser) (agent : Uuid) (action : string) (rejected : bool) (now : Instant)
| AuditDone.

(** The server with its running socket tasks: the agent each open connection id was
    registered for. *)
Record System := { app : AppState; tasks : gmap Uuid Uuid }.
Definition System_new : System := {| app := AppState_new; tasks := ∅ |}.

Section system.
Context `{UuidText, JsonText}.
Variable time_json : Z -> json.

(** The effect of an operation on the shared state. *)
Definition apply_op (st : AppState) (op : Op) : AppState :=
  match op with
  | Register agent name session has_report at_ conn =>
      (register_authenticated_connection time_json st agent name session has_report at_ conn).1
  | Cleanup agent conn at_ => cleanup_connection time_json st agent conn at_
  | Invalidate agent reason at_ => invalidate_agent_connection time_json st agent reason at_
  | Report agent conn value pending at_ => (accept_module_report time_json st agent conn value pending at_).1
  | DisableReply agent conn value request => (accept_module_disable_ack st agent conn value request).1
  | Replay agent conn now => replay_module_disables st agent conn now
  | Disable agent request retried now sent_at => (disable_module st agent request retried now sent_at).1
  | Telemetry agent kind value now => with_agents st (update_live_from_event (agents st) agent kind value now)
  | Send agent cmd => match send_agent_command_json (agents st) agent cmd with Ok r => with_agents st r | Err _ => st end
  | Disconnect agent => with_agents st (try_disconnect (agents st) agent).1
  | LeaseMessage viewer user value now clock audit_now fresh =>
      (control_lease_message st viewer user value now clock audit_now fresh).1
  | Input agent viewer user token cmd now => (send_viewer_input st agent viewer user token cmd now).1
  | RevokeViewer viewer => revoke_viewer_control st viewer
  | ExpireTick now => expire_control st now
  | BeginStream agent session user prefs req now fresh => (begin_mjpeg_session st agent session user prefs req now fresh).1
  | EndStream agent session user fresh => (end_mjpeg_session st agent session user fresh).1
  | SyncCapture agent fresh => sync_mjpeg_capture st agent fresh
  | StoreFrame agent data now => with_media st (store_frame (media st) agent data now)
  | ClipStart agent user action token text id now now1 now2 => (clipboard_start st agent user action token text id now now1 now2).1
  | ClipTick id now now1 now2 => (clipboard_tick st id now now1 now2).1.1
  | ClipFinish id now now' => (clipboard_finish st id now now').1
  | ClipDrop id => clipboard_drop st id
  | ClipReply agent conn value now now' => (complete_clipboard st agent conn value now now').1
  | Recv agent conn now now' => (task_recv st agent conn now now').1
  | AuditCommand user agent action rejected now =>
      with_control st (audit_control_event (control st) user agent action rejected now).1
  | AuditDone => with_control st (audit_done (control st))
  end.

(** A registration draws a connection id no task holds; a task speaks and ends only for the
    agent it was registered for. Everything else may happen at any time. *)
Definition enabled_op (ts : gmap Uuid Uuid) (op : Op) : bool :=
  match op with
  | Register _ _ _ _ _ conn => negb (isSome (ts !! conn))
  | Cleanup agent conn _ | Report agent conn _ _ _ | DisableReply agent conn _ _ | ClipReply agent conn _ _ _ | Recv agent conn _ _ =>
      bool_decide (ts !! conn = Some agent)
  | _ => true
  end.
Definition next_tasks (ts : gmap Uuid Uuid) (op : Op) : gmap Uuid Uuid :=
  match op with
  | Register agent _ (Some _) _ _ conn => <[conn := agent]> ts
  | Cleanup _ conn _ => delete conn ts
  | _ => ts
  end.
Definition step (s : System) (op : Op) : option System :=
  if enabled_op (tasks s) op then Some {| app := apply_op (app s) op; tasks := next_tasks (tasks s) op |} else None.

Inductive reachable : System -> Prop :=
| reach_new : reachable System_new
| reach_step s op s' : reachable s -> step s op = Some s' -> reachable s'.

(** ** The invariant holds in every reachable state *)

(** A socket exists exactly while its task runs, connections belong to their tasks, and what is
    under control is granted. *)
Record sys_ok (s : System) : Prop := {
  so_srv : srv_ok (app s);
  so_sockets : forall ch, is_Some (sockets (agents (app s)) !! ch) <-> is_Some (tasks s !! ch);
  so_owner : forall a ch, conn_of (agents (app s)) a = Some ch -> tasks s !! ch = Some a;
  so_grants : grants_ok (app s)
}.

Lemma sys_ok_new : sys_ok System_new.
Proof.
  split; [|intros ch; split; by intros [? ?]|by intros a ch|by intros a l].
  split; try done; try apply media_ok_default; by intros a b.
Qed.

(** The operations that keep connections and reports and grant nothing. *)
Definition is_gentle (op : Op) : bool :=
  match op with
  | Register _ _ _ _ _ _ | Cleanup _ _ _ | Invalidate _ _ _ | Report _ _ _ _ _ | DisableReply _ _ _ _ | LeaseMessage _ _ _ _ _ _ _
  | Input _ _ _ _ _ _ => false
  | _ => true
  end.
Lemma apply_gentle st op : srv_ok st -> is_gentle op = true -> gentle st (apply_op st op).
Proof.
  intros Hok Hg. destruct op; try done; cbn [apply_op].
  - apply replay_gentle.
  - by apply disable_gentle.
  - apply live_gentle.
  - destruct (send_agent_command_json _ _ _) as [r|] eqn:Hs; [|apply gentle_refl]. apply quiet_gentle, quiet_agents. by eapply send_quiet.
  - apply quiet_gentle, quiet_agents, disconnect_quiet.
  - by apply quiet_gentle, revoke_viewer_quiet.
  - apply quiet_gentle. by apply (after_expiry_quiet st now).
  - by apply quiet_gentle, begin_quiet.
  - by apply quiet_gentle, end_quiet.
  - apply quiet_gentle, sync_quiet.
  - by apply quiet_gentle, quiet_same.
  - by apply quiet_gentle, clipboard_start_quiet.
  - by apply quiet_gentle, clipboard_tick_quiet.
  - by apply quiet_gentle, clipboard_finish_quiet.
  - apply quiet_gentle, clipboard_drop_quiet.
  - by apply quiet_gentle, complete_clipboard_quiet.
  - by apply quiet_gentle, task_recv_quiet.
  - apply quiet_gentle, quiet_same; [done|]. apply audit_event_keeps.
  - by apply quiet_gentle, quiet_same.
Qed.

Lemma apply_srv_ok s op : sys_ok s -> enabled_op (tasks s) op = true -> srv_ok (apply_op (app s) op).
Proof.
  intros [Hok Hso Hown Hg] Hen. destruct op; cbn [apply_op enabled_op] in *.
  - apply register_ok; [done|]. apply eq_None_not_Some. rewrite Hso. destruct (tasks s !! conn); [done|]. by intros [? ?].
  - bool_prop. apply cleanup_ok; [done|]. intros b Hb%Hown. congruence.
  - by apply invalidate_ok.
  - by apply report_msg_ok.
  - by apply ack_ok_srv.
  - by apply replay_ok.
  - by apply disable_ok.
  - by apply srv_ok_live.
  - destruct (send_agent_command_json _ _ _) as [r|] eqn:Hs; [|done]. apply srv_ok_agents; [done|].
    unfold send_agent_command_json in Hs. apply rbind_Ok in Hs as (c & _ & Hs). repeat case_match; try done.
    apply rbind_Ok in Hs as (x & _ & Hs). by eapply enqueue_step.
  - apply srv_ok_agents; [done|]. unfold try_disconnect. destruct (cmds _ !! agent ≫= _) as [r'|] eqn:Hs; [|apply reg_step_refl].
    apply bind_Some in Hs as (ch & _ & Hs). by eapply try_send_step.
  - by apply lease_message_ok.
  - by apply viewer_input_ok.
  - by apply revoke_viewer_control_ok.
  - by apply (after_expiry_ok (app s) now).
  - by apply begin_ok.
  - by apply end_ok.
  - by apply sync_ok.
  - by apply store_frame_srv_ok.
  - by apply clipboard_start_ok.
  - by apply clipboard_tick_ok.
  - by apply clipboard_finish_ok.
  - by apply clipboard_drop_ok.
  - by apply complete_clipboard_ok.
  - by apply task_recv_ok.
  - apply srv_ok_control; [done|apply audit_event_keeps..].
  - by apply srv_ok_control.
Qed.

(** The state after tracking a command that could not be queued: the connection told to stop. *)
Lemma overflow_ok st agent l cmd h ch :
  srv_ok st -> leases (sessions (control st)) !! agent = Some l -> track (held l) cmd = Ok h ->
  srv_ok (with_agents (with_control st (with_sessions (control st)
      {| leases := <[agent := {| grant := grant l; held := h |}]> (leases (sessions (control st))) |}))
    (send_shutdown (agents st) ch "")).
Proof.
  intros Hok Hl Htr. match goal with |- srv_ok (with_agents ?x _) => apply (send_shutdown_ok x) end.
  pose proof (sv_held _ Hok _ _ Hl) as [hist Hh]. destruct Hok as [G1 G2 G3 G4 G5 G6 G7 G8 G9 G10 G11]. split; simpl; try done.
  - intros a x. rewrite lookup_insert_Some. intros [[<- <-]|[_ Hx]]; [by apply (G5 _ l)|by eapply G5].
  - intros a. rewrite G6. destruct (decide (a = agent)) as [->|Hne]; [by rewrite lookup_insert_eq, Hl|by rewrite lookup_insert_ne].
  - intros a x. simpl. rewrite lookup_insert_Some. intros [[<- <-]|[_ Hx]]; [|by eapply G8]. eexists. by eapply tracks_step.
Qed.

Lemma input_quiet_or st agent viewer user tok cmd now :
  srv_ok st -> lease_step st (send_viewer_input st agent viewer user tok cmd now).1
  /\ same_but_sockets (agents st) (agents (send_viewer_input st agent viewer user tok cmd now).1)
  /\ sock_same (agents st) (agents (send_viewer_input st agent viewer user tok cmd now).1).
Proof.
  intros Hok. destruct (input_cases st agent viewer user tok cmd now Hok) as [st' e [[H1 H2 _] H3] _ _|o tk l h c r Ho _ Hl Hlo _ _ _ _ He|o l h st1 e Ho Hl Hlo Htr ->].
  - done.
  - pose proof (enqueue_quiet (fun _ _ => True) _ _ _ _ _ He ltac:(done)) as [H1 H2 _]. split_and!; [|done..].
    intros a l'. simpl. rewrite lookup_insert_Some. intros [[<- <-]|[_ Hl']]; eauto.
  - set (st1 := with_control st _). set (st2 := with_agents st1 _).
    assert (srv_ok st2) as Hok2 by by eapply overflow_ok.
    destruct (revoke_agent_quiet st2 agent (agent_connection_id o) Hok2) as [[H1 H2 _] H3].
    destruct (send_shutdown_quiet (fun _ _ => True) (agents st) (agent_connection_id o) "") as [Q1 Q2 _]. split_and!.
    + eapply lease_step_trans; [|exact H3]. intros a l'. simpl. rewrite lookup_insert_Some. intros [[<- <-]|[_ Hl']]; eauto.
    + by eapply same_but_sockets_trans.
    + by eapply sock_same_trans.
Qed.

(** Only the three connection handlers change the connection table. *)
Definition is_connection (op : Op) : bool :=
  match op with Register _ _ _ _ _ _ | Cleanup _ _ _ | Invalidate _ _ _ => true | _ => false end.
Lemma publish_conns st a conn revoke screen rt b :
  srv_ok st -> connections (agents (broadcast (set_runtime (before_publish st a conn revoke screen) a rt) b)) = connections (agents st)
  /\ sock_same (agents st) (agents (broadcast (set_runtime (before_publish st a conn revoke screen) a rt) b)).
Proof. intros Hok. destruct (before_publish_quiet st a conn revoke screen Hok) as [[(Hc & _) Hs _] _]. done. Qed.
Lemma conns_kept st op :
  srv_ok st -> is_connection op = false ->
  connections (agents (apply_op st op)) = connections (agents st) /\ sock_same (agents st) (agents (apply_op st op)).
Proof.
  intros Hok Hc. destruct (is_gentle op) eqn:Hg; [by destruct (apply_gentle st op Hok Hg)|]. destruct op; try done; cbn [apply_op].
  - destruct (report_cases time_json st agent conn value pending at_); [split; [done|apply sock_same_refl]|by apply publish_conns].
  - destruct (ack_cases st agent conn value request Hok); [split; [done|apply sock_same_refl]|by apply publish_conns].
  - by destruct (lease_message_agents st viewer user value now clock audit_now fresh Hok) as [(? & _) ? _].
  - destruct (input_quiet_or st agent viewer user token cmd now Hok) as (_ & (? & _) & ?). done.
Qed.

Lemma sock_same_dom r r' ch : sock_same r r' -> is_Some (sockets r' !! ch) <-> is_Some (sockets r !! ch).
Proof.
  intros Hs. specialize (Hs ch). destruct (sockets r !! ch), (sockets r' !! ch); try done; split; intros [? ?]; by eexists || done.
Qed.

Lemma register_tasks st a name session has_report at_ conn ch :
  srv_ok st -> let st' := (register_authenticated_connection time_json st a name (Some session) has_report at_ conn).1 in
  (is_Some (sockets (agents st') !! ch) <-> ch = conn \/ is_Some (sockets (agents st) !! ch))
  /\ conn_of (agents st') a = Some conn /\ forall b, b <> a -> conn_of (agents st') b = conn_of (agents st) b.
Proof.
  intros Hok. rewrite register_eq. cbv zeta. cbn [fst agents broadcast with_agents].
  destruct (vacated_state_spec st a Hok) as (_ & _ & Hco & _ & Hso).
  set (entry := {| conn_id := conn; connected_at := at_; session_id := session; legacy_policy_delivery := negb (default true has_report) |}).
  set (r1 := agents (vacated_state st a)) in *. set (r2 := match conn_of r1 a with Some p => _ | None => _ end).
  assert (is_Some (sockets r2 !! ch) <-> is_Some (sockets (registered r1 a entry) !! ch)) as ->.
  { subst r2. destruct (conn_of r1 a); [apply shutdown_sockets|done]. }
  assert (forall b, conn_of r2 b = conn_of (registered r1 a entry) b) as Hc2.
  { intros b. subst r2. destruct (conn_of r1 a); [|done]. unfold conn_of. by rewrite (proj1 (send_shutdown_conns _ _ _)). }
  rewrite Hc2. split_and!.
  - simpl. destruct (decide (ch = conn)) as [->|Hne]; [rewrite lookup_insert_eq; split; [by left|by eexists]|].
    rewrite lookup_insert_ne by done. rewrite Hso. naive_solver.
  - unfold conn_of. simpl. by rewrite lookup_insert_eq.
  - intros b Hb. rewrite Hc2, <- (Hco b). unfold conn_of. simpl. by rewrite lookup_insert_ne.
Qed.

Lemma cleanup_tasks st a conn at_ ch :
  srv_ok st -> let st' := cleanup_connection time_json st a conn at_ in
  (is_Some (sockets (agents st') !! ch) <-> ch <> conn /\ is_Some (sockets (agents st) !! ch))
  /\ (forall b x, conn_of (agents st') b = Some x -> conn_of (agents st) b = Some x /\ (b <> a \/ x <> conn)).
Proof.
  intros Hok. cbv zeta. unfold cleanup_connection. cbv zeta. fold (vacate st a conn).
  destruct (vacate_quiet st a conn Hok) as [[_ Hs _] _].
  change (conn_id <$> connections (agents (vacate st a conn)) !! a) with (conn_of (agents (vacate st a conn)) a). rewrite vacate_conn. split.
  - cbn [agents with_agents sockets with_sockets].
    match goal with |- is_Some (delete _ ?m !! _) <-> _ => replace m with (sockets (agents (vacate st a conn))) by (by case_bool_decide) end.
    rewrite <- (sock_same_dom _ _ ch Hs). destruct (decide (ch = conn)) as [->|Hne].
    + rewrite lookup_delete_eq. split; [by intros [? ?]|by intros [? _]].
    + rewrite lookup_delete_ne by done. naive_solver.
  - intros b x. case_bool_decide as Hcur; unfold conn_of at 1; cbn [agents with_agents connections with_sockets broadcast drop_frame with_media set_conns clear_live with_live].
    + intros (c & [Hne Hc]%lookup_delete_Some & ->)%fmap_Some. split; [|left; congruence]. rewrite <- (vacate_conn st a conn). unfold conn_of. by rewrite Hc.
    + intros Hc. change (conn_of (agents (vacate st a conn)) b = Some x) in Hc. rewrite vacate_conn in Hc. split; [done|].
      destruct (decide (b = a)) as [->|?]; [|by left]. right. intros ->. done.
Qed.

Lemma cleanup_others st a conn at_ b : b <> a -> conn_of (agents (cleanup_connection time_json st a conn at_)) b = conn_of (agents st) b.
Proof.
  intros Hb. unfold cleanup_connection. cbv zeta. fold (vacate st a conn). rewrite <- (vacate_conn st a conn b).
  case_bool_decide; unfold conn_of; cbn [agents with_agents connections with_sockets broadcast drop_frame with_media set_conns clear_live with_live]; [|done].
  by rewrite lookup_delete_ne.
Qed.

Lemma invalidate_tasks st a reason at_ ch :
  srv_ok st -> let st' := invalidate_agent_connection time_json st a reason at_ in
  (is_Some (sockets (agents st') !! ch) <-> is_Some (sockets (agents st) !! ch))
  /\ conn_of (agents st') a = None /\ (forall b, b <> a -> conn_of (agents st') b = conn_of (agents st) b).
Proof.
  intros Hok. cbv zeta. unfold invalidate_agent_connection. cbv zeta.
  change (match connections (agents st) !! a with Some c => _ | None => st end) with (vacated_state st a).
  destruct (vacated_state_spec st a Hok) as (_ & _ & Hco & _ & Hso).
  set (r := unregistered (agents (vacated_state st a)) a).
  assert (conn_of r a = None /\ forall b, b <> a -> conn_of r b = conn_of (agents st) b) as [E1 E2].
  { subst r. unfold conn_of at 1. simpl. rewrite lookup_delete_eq. split; [done|]. intros b Hb. rewrite <- Hco. unfold conn_of. simpl. by rewrite lookup_delete_ne. }
  destruct (connections (agents st) !! a) as [c|]; cbn [agents broadcast with_agents].
  - match goal with |- context [send_shutdown ?x ?y ?z] => set (r' := x) end.
    assert (forall b, conn_of (send_shutdown r' (conn_id c) reason) b = conn_of r b) as Hc2.
    { intros b. unfold conn_of. by rewrite (proj1 (send_shutdown_conns _ _ _)). }
    rewrite shutdown_sockets, Hc2. split_and!; [apply Hso|done|]. intros b Hb. rewrite Hc2. by apply E2.
  - split_and!; [apply Hso|done..].
Qed.

Lemma step_ok s op s' : sys_ok s -> step s op = Some s' -> sys_ok s'.
Proof.
  unfold step. destruct (enabled_op (tasks s) op) eqn:Hen; [|done]. intros Hs [= <-]. pose proof (apply_srv_ok s op Hs Hen) as Hok'.
  destruct Hs as [Hok Hso Hown Hg]. destruct (is_connection op) eqn:Hc.
  - destruct op; try done; cbn [apply_op next_tasks enabled_op] in *.
    + destruct session as [session|]; [|by split]. destruct (tasks s !! conn) eqn:Hfr; [done|].
      pose proof (fun ch => register_tasks (app s) agent name session has_report at_ conn ch Hok) as Ht. cbv zeta in Ht.
      split; [done| | |by apply grants_register]; cbn [app tasks].
      * intros ch. rewrite (proj1 (Ht ch)), Hso. destruct (decide (ch = conn)) as [->|Hne].
        -- rewrite lookup_insert_eq. split; [by eexists|by left].
        -- rewrite lookup_insert_ne by done. naive_solver.
      * intros a ch. destruct (Ht ch) as (_ & E1 & E2). destruct (decide (a = agent)) as [->|Hne].
        -- rewrite E1. intros [= <-]. by rewrite lookup_insert_eq.
        -- rewrite E2 by done. intros Ha%Hown. rewrite lookup_insert_ne; [done|]. congruence.
    + bool_prop. pose proof (fun ch => cleanup_tasks (app s) agent conn at_ ch Hok) as Ht. cbv zeta in Ht.
      split; [done| | |by apply grants_cleanup]; cbn [app tasks].
      * intros ch. rewrite (proj1 (Ht ch)), Hso. destruct (decide (ch = conn)) as [->|Hne].
        -- rewrite lookup_delete_eq. split; [by intros [? _]|by intros [? ?]].
        -- rewrite lookup_delete_ne by done. split; [by intros [_ ?]|done].
      * intros a ch Ha. destruct (proj2 (Ht ch) a ch Ha) as [Ha' Hne]. apply Hown in Ha'. rewrite lookup_delete_ne; [done|].
        intros ->. destruct Hne as [Hne|?]; [|done]. congruence.
    + pose proof (fun ch => invalidate_tasks (app s) agent reason at_ ch Hok) as Ht. cbv zeta in Ht.
      split; [done| | |by apply grants_invalidate]; cbn [app tasks].
      * intros ch. by rewrite (proj1 (Ht ch)), Hso.
      * intros a ch. destruct (Ht ch) as (_ & E1 & E2). destruct (decide (a = agent)) as [->|Hne]; [by rewrite E1|rewrite E2 by done; apply Hown].
  - destruct (conns_kept (app s) op Hok Hc) as [E1 E2]. assert (next_tasks (tasks s) op = tasks s) as Ht by by destruct op.
    split; cbn [app tasks]; [done|rewrite Ht..|].
    + intros ch. by rewrite (sock_same_dom _ _ ch E2).
    + intros a ch. unfold conn_of. rewrite E1. apply Hown.
    + destruct (is_gentle op) eqn:Hge; [by eapply grants_gentle; [apply apply_gentle|]|]. destruct op; try done; cbn [apply_op].
      * by apply grants_report.
      * by apply grants_ack.
      * by apply grants_lease_message.
      * destruct (input_quiet_or (app s) agent viewer user token cmd now Hok) as (Hl & Hsm & _).
        intros a l' Hl'. destruct (Hl a l' Hl') as (l & Hl0 & _). eapply controllable_same; [done|by eapply Hg].
Qed.

(** A run of operations, [None] when one is not enabled. *)
Definition run (s : System) (ops : list Op) : option System := foldl (fun os op => os ≫= fun s => step s op) (Some s) ops.
Lemma run_None ops : foldl (fun os op => os ≫= fun s => step s op) None ops = None.
Proof. by induction ops. Qed.
Lemma run_reachable s ops s' : reachable s -> run s ops = Some s' -> reachable s'.
Proof.
  unfold run. revert s. induction ops as [|op ops IH]; intros s Hs; cbn [foldl]; [by intros [= <-]|].
  cbn [mbind option_bind]. destruct (step s op) as [s1|] eqn:Hst; [|by rewrite run_None]. apply IH. by eapply reach_step.
Qed.

Lemma reachable_ok s : reachable s -> sys_ok s.
Proof. induction 1; [apply sys_ok_new|by eapply step_ok]. Qed.

(** ** Properties *)

(** C1: in every state the server can reach, control is consistent: a device under a lease is
    connected on the very connection the lease names, has exactly the frozen capture that lease
    bound, and is granted both remote input and the live screen by its own report on that
    connection; no capture is frozen without a lease, every stream session and every running
    capture belongs to a device's current connection, no two devices share a connection, and no
    command queue exceeds its capacity of 512. *)
Theorem control_is_consistent s :
  reachable s ->
  let st := app s in
  (forall a l, leases (sessions (control st)) !! a = Some l ->
     conn_of (agents st) a = Some (agent_connection_id (owner (grant l)))
     /\ controllable (agents st) a
     /\ exists f, capture (control st) !! a = Some f /\ f_owner f = owner (grant l)
        /\ a_conn_id (f_active f) = agent_connection_id (owner (grant l)))
  /\ (forall a, is_Some (capture (control st) !! a) -> is_Some (leases (sessions (control st)) !! a))
  /\ (forall k ss, mjpeg_sessions (media st) !! k = Some ss -> conn_of (agents st) (s_agent_id ss) = Some (s_conn_id ss))
  /\ (forall a act, mjpeg_active_capture (media st) !! a = Some act -> conn_of (agents st) a = Some (a_conn_id act))
  /\ (forall a b ch, conn_of (agents st) a = Some ch -> conn_of (agents st) b = Some ch -> a = b)
  /\ (forall ch sk, sockets (agents st) !! ch = Some sk -> (length (queue sk) <= 512)%nat).
Proof.
  intros Hs%reachable_ok. destruct Hs as [Hok _ _ Hg]. cbv zeta. split_and!.
  - intros a l Hl. split; [by apply (sv_lease _ Hok)|]. split; [by eapply Hg|]. pose proof (sv_capture _ Hok a) as Hc. rewrite Hl in Hc.
    destruct (capture (control (app s)) !! a) as [f|] eqn:Hf; [|done]. injection Hc as E. exists f. split_and!; [done..|].
    by rewrite <- E; apply (sv_frozen _ Hok a).
  - intros a. pose proof (sv_capture _ Hok a) as Hc. intros [f Hf]. rewrite Hf in Hc. by destruct (leases _ !! a).
  - apply (sv_session _ Hok).
  - apply (sv_active _ Hok).
  - apply (sv_own _ Hok).
  - apply (sv_queue _ Hok).
Qed.

Lemma is_remote_input_gate k : is_remote_input k = true -> gate (from_kind k) = GModule RemoteInput.
Proof.
  unfold is_remote_input. cbn [existsb]. rewrite !orb_true_iff, !String.eqb_eq. intros Hk. by destruct_or!; subst.
Qed.

Lemma not_harmless_remote c ch : harmless ch (CText c) -> is_remote_input (kind_of c) = true -> False.
Proof. simpl. congruence. Qed.

(** Whatever any other operation adds to a queue is harmless. *)
Lemma apply_msgs s op :
  sys_ok s -> (forall a v u t c n, op <> Input a v u t c n) -> sock_step harmless (agents (app s)) (agents (apply_op (app s) op)).
Proof.
  intros [Hok _ _ _] Hni. destruct (is_gentle op) eqn:Hg; [by destruct (apply_gentle (app s) op Hok Hg)|].
  assert (forall a conn rev scr rt b, sock_step harmless (agents (app s)) (agents (broadcast (set_runtime (before_publish (app s) a conn rev scr) a rt) b))) as Hpub.
  { intros a conn rev scr rt b. destruct (before_publish_quiet (app s) a conn rev scr Hok) as [[_ _ Hm] _]. exact Hm. }
  destruct op; try done; cbn [apply_op].
  - by apply register_msgs.
  - by apply cleanup_msgs.
  - by apply invalidate_msgs.
  - destruct (report_cases time_json (app s) agent conn value pending at_); [apply sock_step_refl|apply Hpub].
  - destruct (ack_cases (app s) agent conn value request Hok); [apply sock_step_refl|apply Hpub].
  - by apply lease_message_agents.
  - by destruct (Hni agent viewer user token cmd now).
Qed.

(** C2: remote input is queued to a device only by the operator whose live lease it is: whatever
    the server does from a reachable state, a remote-input command that appears in some
    connection's queue was sent in that step by an operator's viewer connection presenting the
    token of the device's unexpired lease, which names this viewer, this user and that very
    connection; the connection is the device's current, open one, remote input is authorized on
    it right now, and what is queued is what the viewer sent but for the grant stamp. *)
Theorem remote_input_needs_lease s op s' ch sk c :
  reachable s -> step s op = Some s' ->
  sockets (agents (app s')) !! ch = Some sk -> CText c ∈ queue sk -> is_remote_input (kind_of c) = true ->
  (forall sk0, sockets (agents (app s)) !! ch = Some sk0 -> CText c ∉ queue sk0) ->
  exists agent viewer user tok cmd now l, op = Input agent viewer user (Some tok) cmd now
  /\ is_operator user = true
  /\ leases (sessions (control (app s))) !! agent = Some l
  /\ token (grant l) = tok /\ now < expires_at (grant l)
  /\ owner (grant l) = {| viewer_connection_id := viewer; user_id := u_user_id user; agent_connection_id := ch |}
  /\ open_conn_id (agents (app s)) agent = Some ch
  /\ module_authorized (agents (app s)) agent RemoteInput = true
  /\ authorize_agent_command (agents (app s)) agent cmd = Ok c.
Proof.
  intros Hr Hst Hsk Hin Hk Hnew. pose proof (reachable_ok _ Hr) as Hs. unfold step in Hst. destruct (enabled_op _ _); [|done]. simplify_eq. cbn [app] in *.
  assert (sock_step harmless (agents (app s)) (agents (apply_op (app s) op)) -> False) as Hno.
  { intros Hm. destruct (Hm _ _ _ Hsk Hin) as [(s0 & Hs0 & Hin0)|Hh]; [by eapply Hnew|by eapply not_harmless_remote]. }
  destruct op; try by (exfalso; apply Hno, apply_msgs). cbn [apply_op] in *. destruct Hs as [Hok _ _ _].
  destruct (input_cases (app s) agent viewer user token cmd now Hok) as [st' e [[_ _ Hm] _] _ _|o tk l h c' r Ho -> Hl Hlo Hlt Hn Htr Hc He|o l h st1 e Ho Hl Hlo Htr ->]; [by destruct (Hno Hm)| |].
  - apply owner_conn in Ho as (Hopen & Hv & Hu & Hop).
    apply enqueue_Ok in He as (x & chn & Hx & Hid & Hcmd & Hsend). pose proof Hsend as (s1 & Hs1 & _ & ->)%try_send_Some. cbn [agents with_agents sockets with_sockets] in Hsk.
    assert (chn = agent_connection_id o) as ->. { apply open_conn_Some in Hx as [Hx _]. destruct (sv_wired _ Hok _ _ Hx) as [Hw _]. congruence. }
    rewrite lookup_insert_Some in Hsk. destruct Hsk as [[<- <-]|[_ Hsk]]; [|by destruct (Hnew _ Hsk)].
    simpl in Hin. apply elem_of_app in Hin as [Hin|Hin%list_elem_of_singleton]; [by destruct (Hnew _ Hs1)|]. simplify_eq.
    eexists _, _, _, _, _, _, l. split; [done|]. split_and!; try done; [by destruct (owner (grant l)); simpl in *; subst|].
    pose proof (authorize_kind _ _ _ _ Hc) as Ek. rewrite Ek in Hk. apply is_remote_input_gate in Hk.
    apply authorize_Ok in Hc as (conn & _ & _ & _ & Ha). unfold authorized_as in Ha. rewrite Hk in Ha. by destruct Ha as [[? _]|(_ & _ & [?|?] & _)].
  - exfalso. apply Hno. eapply sock_step_trans; [apply (send_shutdown_quiet harmless _ (agent_connection_id o) "")|].
    match goal with |- sock_step _ _ (agents (revoke_agent_control_locked ?x _ _)) => 
      assert (srv_ok x) as Hok2 by (by eapply overflow_ok); by apply (revoke_agent_quiet x agent (agent_connection_id o) Hok2) end.
Qed.

(** ** Delivery *)

Lemma kind_str_is c k : k <> ""%string -> str_is (idx c "type") k = true <-> kind_of c = k.
Proof.
  unfold str_is, kind_of. destruct (as_str (idx c "type")) as [x|]; simpl; [|naive_solver]. rewrite String.eqb_eq. naive_solver.
Qed.

(** When a command may still be sent: the tests [command_deliverable] makes in its final state. *)
Definition deliverable_now (st : AppState) (agent conn : Uuid) (c : json) : Prop :=
  open_conn_id (agents st) agent = Some conn
  /\ (forall m, command_module (kind_of c) = Some m ->
        (module_authorized (agents st) agent m = true /\ exists rt, current_runtime (agents st) agent = Some rt
          /\ get c "__module_generation" = Some (generation_json m (ms_revision (report_get (Registry.report rt) m))))
        \/ (current_runtime (agents st) agent = None /\ (m = AppPolicy \/ m = NetworkPolicy) /\ get c "__module_generation" = None))
  /\ (kind_of c = "start_capture"%string -> exists act, mjpeg_active_capture (media st) !! agent = Some act
        /\ a_conn_id act = conn /\ get c "__capture_generation" = Some (uuid_json (generation act)))
  /\ (kind_of c = "stop_capture"%string -> mjpeg_active_capture (media st) !! agent = None)
  /\ (kind_of c <> "start_capture"%string -> kind_of c <> "stop_capture"%string -> get c "__capture_generation" = None).

Lemma capture_tag st agent conn c :
  (if str_is (idx c "type") "start_capture" || str_is (idx c "type") "stop_capture"
   then isSome (get c "__capture_generation") && bool_decide (get c "__capture_generation" = expected_capture st agent conn c)
   else negb (isSome (get c "__capture_generation"))) = true ->
  (kind_of c = "start_capture"%string -> exists act, mjpeg_active_capture (media st) !! agent = Some act
        /\ a_conn_id act = conn /\ get c "__capture_generation" = Some (uuid_json (generation act)))
  /\ (kind_of c = "stop_capture"%string -> mjpeg_active_capture (media st) !! agent = None)
  /\ (kind_of c <> "start_capture"%string -> kind_of c <> "stop_capture"%string -> get c "__capture_generation" = None).
Proof.
  pose proof (kind_str_is c "start_capture" ltac:(done)) as H1. pose proof (kind_str_is c "stop_capture" ltac:(done)) as H2.
  unfold expected_capture. destruct (str_is _ "start_capture") eqn:E1; [apply proj1 in H1; specialize (H1 eq_refl)|].
  - cbn [orb]. intros Ht. bool_prop. rewrite H1. split_and!; [|done..]. intros _.
    destruct (ofilter _ _) as [act|] eqn:Ha; [|by simpl in *; destruct (get c "__capture_generation")].
    apply ofilter_Some in Ha as [Ha Hid]. bool_prop. by exists act.
  - assert (kind_of c <> "start_capture"%string) as N1 by (intros E%H1; congruence). cbn [orb].
    destruct (str_is _ "stop_capture") eqn:E2; [apply proj1 in H2; specialize (H2 eq_refl)|].
    + intros Ht. bool_prop. rewrite H2. split_and!; [done| |done]. intros _.
      destruct (mjpeg_active_capture (media st) !! agent); [|done]. by destruct (get c "__capture_generation").
    + assert (kind_of c <> "stop_capture"%string) as N2 by (intros E%H2; congruence). intros Ht. bool_prop. split_and!; [done|done|].
      intros _ _. by destruct (get c "__capture_generation").
Qed.

Lemma command_deliverable_now st agent conn c now now' st' :
  command_deliverable st agent conn c now now' = (st', true) -> deliverable_now st' agent conn c.
Proof.
  unfold command_deliverable. destruct (if is_clipboard_kind c then _ else _) as [st1 clip]. cbv zeta.
  destruct clip; [|done]. cbn [negb]. destruct (bool_decide (open_conn_id _ _ = _)) eqn:Hopen; [|done]. bool_prop. cbn [negb].
  destruct (if _ || _ then _ else _) eqn:Htag; [|done]. apply capture_tag in Htag as (Ht1 & Ht2 & Ht3).
  set (u := remove_key (remove_key c "__capture_generation") "__module_generation").
  rewrite (get_remove_key_ne c "__capture_generation" "__module_generation") by done.
  destruct (authorize_agent_command (agents st1) agent u) as [ex|e] eqn:Ha; [|done]. intros [= <- Hgen]. bool_prop.
  split_and!; try done. intros m Hm. apply authorize_Ok in Ha as (x & _ & Hng & _ & Ha). unfold authorized_as in Ha.
  assert (kind_of u = kind_of c) as Ek by (unfold u; by rewrite !kind_of_remove_key). rewrite Ek in Ha.
  unfold command_module, module_of in Hm. destruct (gate (from_kind (kind_of c))) as [m'| | |] eqn:Hg; try done. simplify_eq. rewrite Hgen.
  destruct Ha as [[Hauth (rt & Hrt & ->)]|(Hrt & _ & Hm & ->)]; [left|by right]. split; [done|]. exists rt. split; [done|].
  apply get_set_idx_eq, kind_of_object. rewrite Ek. by eapply gate_module_object.
Qed.

(** C3: what reaches a device is current at the moment it is sent: when a connection's task sends
    a message, that message was the oldest in its own queue, the connection is the device's open
    one, and the message is either an input release addressed to this very connection, or a
    command whose module is authorized right now under exactly the grant revision it was
    stamped with (a policy push to a device that never reported has no stamp), whose capture
    generation, for a start, is the running capture's; so a queued command never outlives a
    reconnect, a revoked grant or a grant given again. *)
Theorem delivery_is_current st agent conn now now' st' c :
  task_recv st agent conn now now' = (st', Some c) ->
  exists sk msg rest, sockets (agents st) !! conn = Some sk /\ queue sk = msg :: rest
  /\ open_conn_id (agents st') agent = Some conn
  /\ (msg = CInputCleanup conn c /\ is_cleanup_command c = true \/ msg = CText c /\ deliverable_now st' agent conn c).
Proof.
  unfold task_recv. destruct (sockets (agents st) !! conn) as [sk|] eqn:Hs; [|done]. destruct (queue sk) as [|msg rest] eqn:Hq; [done|].
  cbv zeta. fold (popped st conn sk rest). intros Hrecv. exists sk, msg, rest. split; [done|]. split; [done|].
  destruct msg as [cmd|cc cmd|]; [| |done].
  - destruct (command_deliverable _ _ _ _ _ _) as [st1 ok] eqn:Hd. destruct ok; [|done]. simplify_eq.
    apply command_deliverable_now in Hd. split; [by destruct Hd|]. by right.
  - destruct (control_cleanup_deliverable _ _ _ _ _) eqn:Hd; [|done]. simplify_eq. unfold control_cleanup_deliverable in Hd.
    destruct (bool_decide (conn = cc)) eqn:Hc; [|done]. cbn [negb orb] in Hd. bool_prop. subst cc.
    destruct (is_some_and _ _) eqn:Hopen; [|done]. cbn [negb] in Hd. apply is_some_and_true in Hopen as (x & Hx & Hid). bool_prop.
    split; [|by left]. unfold open_conn_id. rewrite Hx. simpl. by rewrite Hid.
Qed.

(** ** Input, acquisition and the end of a connection *)

(** C5: sending input either does all of its work or fails safe: an accepted command is tracked
    on the sender's live lease and is the last entry of the device's queue, which had room, with
    nothing else of the registry changed; a refused one leaves every other device's lease and
    what it holds exactly as it was, and the device's own unless its deadline had passed or it
    is the sender's; and when the queue was full the lease and its frozen capture are gone and
    the connection is closed, so that input whose release may have been lost never stays held. *)
Theorem viewer_input_tracked_or_closed s agent viewer user tok cmd now st' res :
  reachable s ->
  let st := app s in
  send_viewer_input st agent viewer user tok cmd now = (st', res) ->
  match res with
  | Ok _ => exists ch l h c sk, open_conn_id (agents st) agent = Some ch
      /\ leases (sessions (control st)) !! agent = Some l /\ tok = Some (token (grant l)) /\ now < expires_at (grant l)
      /\ owner (grant l) = {| viewer_connection_id := viewer; user_id := u_user_id user; agent_connection_id := ch |}
      /\ track (held l) cmd = Ok h /\ authorize_agent_command (agents st) agent cmd = Ok c
      /\ leases (sessions (control st')) = <[agent := {| grant := grant l; held := h |}]> (leases (sessions (control st)))
      /\ sockets (agents st) !! ch = Some sk /\ (length (queue sk) < 512)%nat
      /\ agents st' = with_sockets (agents st) (<[ch := {| shutdown := shutdown sk; queue := queue sk ++ [CText c] |}]> (sockets (agents st)))
  | Err e =>
      (forall b, b <> agent -> leases (sessions (control st')) !! b = leases (sessions (control st)) !! b)
      /\ (leases (sessions (control st')) !! agent = leases (sessions (control st)) !! agent
          \/ leases (sessions (control st')) !! agent = None /\ exists l, leases (sessions (control st)) !! agent = Some l
             /\ (expires_at (grant l) <= now
                 \/ viewer_connection_id (owner (grant l)) = viewer /\ user_id (owner (grant l)) = u_user_id user))
      /\ (code e = "command_queue_full"%string ->
          leases (sessions (control st')) !! agent = None /\ capture (control st') !! agent = None
          /\ open_conn_id (agents st') agent = None)
  end.
Proof.
  intros [Hok _ _ _]%reachable_ok. cbv zeta. generalize dependent (app s). clear s. intros st Hok Hsend.
  pose proof (input_cases st agent viewer user tok cmd now Hok) as Hc. rewrite Hsend in Hc. cbn [fst snd] in Hc.
  destruct Hc as [st' e Hq Hle Hcode|o tk l h c r Ho -> Hl Hlo Hlt Hn Htr Hc He|o l h st1 e Ho Hl Hlo Htr ->].
  { destruct Hle as [->|(l & Hl & Hx & ->)]; (split; [|split; [|done]]); [done|by left|intros b Hb; by apply lookup_delete_ne|].
    right. rewrite lookup_delete_eq. split; [done|]. exists l. split; [done|by left]. }
  - apply owner_conn in Ho as (Hopen & Hv & Hu & _). apply enqueue_Ok in He as (x & ch & Hx & Hid & Hcmd & (sk & Hsk & Hlen & ->)%try_send_Some).
    apply open_conn_Some in Hx as [Hx _]. destruct (sv_wired _ Hok _ _ Hx) as [Hw _]. assert (ch = agent_connection_id o) as -> by congruence.
    eexists _, l, h, c, sk. split_and!; try done; [by subst|]. subst. destruct (owner (grant l)); simpl in *; congruence.
  - pose proof (overflow_ok st agent l cmd h (agent_connection_id o) Hok Hl Htr) as Hok2.
    set (st1 := with_control st _) in *. set (st2 := with_agents st1 _) in *.
    apply owner_conn in Ho as (Hopen & Hov & Hou & _). unfold open_conn_id in Hopen. apply fmap_Some in Hopen as (x & Hx & Hid). apply open_conn_Some in Hx as [Hx _].
    destruct (send_shutdown_conns (agents st) (agent_connection_id o) "") as [Hcs _].
    assert (conn_of (agents st2) agent = Some (agent_connection_id o)) as Hconn by (unfold conn_of; simpl; by rewrite Hcs, Hx, Hid).
    pose proof (revoke_agent_gone st2 agent _ Hok2 Hconn) as Hgone. destruct (revoke_agent_quiet st2 agent (agent_connection_id o) Hok2) as [[(Hcr & _) Hsr _] _].
    split; [|split; [right; split; [done|]; exists l; split; [done|right; by rewrite Hlo]|intros _; split_and!; [done| |]]].
    + intros b Hb. unfold revoke_agent_control_locked. destruct (commit_sessions_keeps st2 (revoke_agent (sessions (control st2)) agent (agent_connection_id o))) as (_ & _ & -> & _).
      unfold revoke_agent. cbn [st2 st1 control with_agents with_control sessions with_sessions leases]. rewrite lookup_insert_eq. cbn [is_some_and grant].
      rewrite bool_decide_eq_true_2 by congruence. cbn [remove_lease fst leases]. by rewrite lookup_delete_ne, lookup_insert_ne.
    + pose proof (sv_capture _ (revoke_agent_control_ok st2 agent (agent_connection_id o) Hok2) agent) as Hcap. rewrite Hgone in Hcap.
      by destruct (capture _ !! agent).
    + unfold open_conn_id, open_conn. rewrite Hcr. cbn [st2 agents with_agents]. rewrite Hcs, Hx. cbn [ofilter].
      assert (isSome (conn_shutdown (agents (revoke_agent_control_locked st2 agent (agent_connection_id o))) x) = true) as ->; [|done].
      unfold conn_shutdown. destruct (sv_wired _ Hok _ _ Hx) as [_ [sk Hsk]]. specialize (Hsr (conn_id x)).
      assert (sockets (agents st2) !! conn_id x = Some {| shutdown := Some ""%string; queue := queue sk |}) as E.
      { cbn [st2 agents with_agents]. unfold send_shutdown. rewrite Hid, Hsk. simpl. by rewrite lookup_insert_eq. }
      rewrite E in Hsr. destruct (sockets (agents (revoke_agent_control_locked _ _ _)) !! conn_id x) as [s'|]; [|done].
      simpl. destruct (shutdown s'); [done|]. by destruct Hsr.
Qed.

(** The capture a validated lease freezes, before and after it is pinned. *)
Lemma validate_pins st agent o value now fr :
  validate_control_capture st agent o value now = Ok fr ->
  exists sess act mon, mjpeg_sessions (media st) !! f_session_id fr = Some sess
  /\ s_agent_id sess = agent /\ s_user_id sess = user_id o /\ s_conn_id sess = agent_connection_id o
  /\ mjpeg_active_capture (media (commit_control_capture st agent fr)) !! agent = Some act
  /\ monitor (a_prefs act) = Some mon /\ monitor (a_prefs (f_active fr)) = Some mon /\ a_conn_id act = agent_connection_id o.
Proof.
  unfold validate_control_capture. intros (c & _ & Hx)%rbind_Ok. apply rbind_Ok in Hx as (session & _ & Hx).
  apply rbind_Ok in Hx as (sess & Hs%ok_or_Ok & Hx). apply ofilter_Some in Hs as [Hs Hsb]. bool_prop.
  apply rbind_Ok in Hx as (act & Hact%ok_or_Ok & Hx). apply ofilter_Some in Hact as [Hact Hab]. bool_prop.
  apply rbind_Ok in Hx as (frame & _ & Hx). apply rbind_Ok in Hx as (g & _ & Hx). cbv zeta in Hx.
  destruct (_ && _); [done|]. destruct (bool_decide _); [done|]. destruct (is_some_and (monitor (a_prefs act)) _) eqn:Hm; [done|].
  injection Hx as <-. rewrite is_some_and_false in Hm. unfold commit_control_capture. cbn [f_session_id f_active a_conn_id a_prefs monitor].
  rewrite Hact. cbn [ofilter]. rewrite bool_decide_eq_true_2 by done. destruct (monitor (a_prefs act)) as [m|] eqn:Hmon; simpl.
  - specialize (Hm m eq_refl). bool_prop. subst. exists sess, act. eexists. split_and!; done.
  - exists sess. setoid_rewrite lookup_insert_eq. eexists _, _. split_and!; done.
Qed.

(** An acquisition that is granted binds one viewer to one display: the caller is an operator,
    the lease is in the table under the caller's viewer connection, user and the device's open
    connection, and unexpired; both remote input and the live screen are authorized there; the
    frozen capture is the owner's own, names a live stream session of that user on that
    connection, and the running capture is pinned to a definite monitor; no other device's lease
    appears. *)
Theorem acquire_binds_display s agent viewer user value now clock fresh st' g :
  reachable s -> kind_of value = "control_acquire"%string ->
  control_lease_op (app s) agent viewer user value now clock fresh = (st', Ok (Some g)) ->
  let st := app s in
  is_operator user = true
  /\ viewer_connection_id (owner g) = viewer /\ user_id (owner g) = u_user_id user
  /\ open_conn_id (agents st) agent = Some (agent_connection_id (owner g))
  /\ module_authorized (agents st) agent RemoteInput = true /\ module_authorized (agents st') agent LiveScreen = true
  /\ (exists l, leases (sessions (control st')) !! agent = Some l /\ grant l = g) /\ now < expires_at g
  /\ (exists f sess act, capture (control st') !! agent = Some f /\ f_owner f = owner g
      /\ mjpeg_sessions (media st) !! f_session_id f = Some sess /\ s_agent_id sess = agent
      /\ s_user_id sess = u_user_id user /\ s_conn_id sess = agent_connection_id (owner g)
      /\ mjpeg_active_capture (media st') !! agent = Some act /\ a_conn_id act = agent_connection_id (owner g)
      /\ isSome (monitor (a_prefs act)) = true)
  /\ (forall b l, b <> agent -> leases (sessions (control st')) !! b = Some l -> is_Some (leases (sessions (control st)) !! b)).
Proof.
  intros [Hok _ _ _]%reachable_ok Hk Hop. cbv zeta. generalize dependent (app s). clear s. intros st Hok Hop.
  destruct (lease_op_acquire st agent viewer user value now clock fresh Hk) as [(e & E)|(o & c & Ho & Hc & E)]; rewrite E in Hop; [done|]. clear E.
  apply owner_conn in Ho as (Hopen & Hv & Hu & Hop'). apply mouse_probe_granted in Hc.
  pose proof (acquire_cases st agent o value now clock fresh Hok) as Hcase. rewrite Hop in Hcase. cbn [fst snd] in Hcase. clear Hop.
  pose proof (commit_quiet st _ _ Hok (settles_expire_agent (sessions (control st)) agent now)) as Hq.
  pose proof (commit_ok st _ _ Hok (settles_expire_agent (sessions (control st)) agent now)) as Hok1.
  destruct (commit_sessions_keeps st (expire_agent (sessions (control st)) agent now)) as (Hmed & _).
  rewrite <- surjective_pairing in Hq, Hok1. fold (acquire_state st agent now) in Hq, Hok1, Hmed. destruct Hq as [_ Hle].
  assert (forall b l, leases (sessions (control (acquire_state st agent now))) !! b = Some l -> is_Some (leases (sessions (control st)) !! b)) as Hsub.
  { intros b l Hl. destruct (Hle b l Hl) as (l0 & Hl0 & _). by eexists. }
  assert (forall fr, validate_control_capture (acquire_state st agent now) agent o value clock = Ok fr ->
    module_authorized (agents (acquire_state st agent now)) agent LiveScreen = true) as Hls.
  { intros fr Hvl. unfold validate_control_capture in Hvl. by apply rbind_Ok in Hvl as (? & ?%start_probe_granted & _). }
  inversion Hcase as [|l f fr Hl Hlo Hn Hvl Hf Hfs|fr g' Hl Hf Hvl Hg]; subst.
  - rewrite commit_control_control, commit_control_agents. destruct (validate_pins _ _ _ _ _ _ Hvl) as (sess & act & mon & Hs1 & Hs2 & Hs3 & Hs4 & Ha1 & Ha2 & _ & Ha4).
    rewrite Hmed in Hs1. split_and!; try done; [by eapply Hls|by exists l| |intros b l' _; apply Hsub].
    exists f, sess, act. rewrite Hfs. split_and!; try done; [|congruence|by rewrite Ha2].
    pose proof (sv_capture _ Hok1 agent) as Hc'. rewrite Hf, Hl in Hc'. by injection Hc'.
  - destruct (validate_binds _ _ _ _ _ _ Hvl) as [E1 _].
    destruct (validate_pins _ _ _ _ _ _ Hvl) as (sess & act & mon & Hs1 & Hs2 & Hs3 & Hs4 & Ha1 & Ha2 & _ & Ha4). rewrite Hmed in Hs1.
    unfold bind_lease. cbn [control agents media with_control sessions capture with_capture with_sessions leases owner].
    rewrite commit_control_control, commit_control_agents, !lookup_insert_eq. split_and!; try done; [by eapply Hls| | | |].
    + by eexists.
    + simpl. pose proof (deadline_range now DEFAULT_LEASE_TTL). unfold MIN_LEASE_TTL, secs in *. lia.
    + exists fr, sess, act. split_and!; try done; [congruence|by rewrite Ha2].
    + intros b l' Hb. rewrite lookup_insert_ne by done. apply Hsub.
Qed.

(** The agent whose connection an operation replaces or ends. *)
Definition ends_connection (st : AppState) (op : Op) : option Uuid :=
  match op with
  | Register a _ (Some _) _ _ _ | Invalidate a _ _ => Some a
  | Cleanup a conn _ => if bool_decide (conn_of (agents st) a = Some conn) then Some a else None
  | _ => None
  end.

Lemma ends_vacated s op a :
  sys_ok s -> ends_connection (app s) op = Some a -> vacated (apply_op (app s) op) a.
Proof.
  intros [Hok _ _ _] He. destruct op; try done; cbn [apply_op ends_connection] in *.
  - destruct session as [session|]; [|done]. simplify_eq. rewrite register_eq. destruct (vacated_state_spec (app s) a Hok) as (_ & [] & _). by split.
  - case_bool_decide as Hc; [|done]. simplify_eq. pose proof (vacate_vacated (app s) a conn Hok Hc) as [V1 V2 V3 V4].
    unfold cleanup_connection. cbv zeta. fold (vacate (app s) a conn). change (conn_id <$> connections (agents (vacate (app s) a conn)) !! a) with (conn_of (agents (vacate (app s) a conn)) a).
    rewrite vacate_conn, bool_decide_eq_true_2 by done. by split.
  - simplify_eq. unfold invalidate_agent_connection. cbv zeta.
    change (match connections (agents (app s)) !! a with Some c => _ | None => app s end) with (vacated_state (app s) a).
    destruct (vacated_state_spec (app s) a Hok) as (_ & [] & _). destruct (connections (agents (app s)) !! a); by split.
Qed.

Lemma shutdown_closes r ch reason sk : sockets r !! ch = Some sk -> exists sk', sockets (send_shutdown r ch reason) !! ch = Some sk' /\ shutdown sk' = Some reason.
Proof. intros Hs. unfold send_shutdown. rewrite Hs. eexists. simpl. by rewrite lookup_insert_eq. Qed.

(** The socket of an ended connection is told to stop, or gone with its task. *)
Lemma ends_closes s op s' a old :
  sys_ok s -> step s op = Some s' -> ends_connection (app s) op = Some a -> conn_of (agents (app s)) a = Some old ->
  forall sk, sockets (agents (app s')) !! old = Some sk -> shutdown sk <> None.
Proof.
  intros Hs Hst He Hold sk Hsk. unfold step in Hst. destruct (enabled_op _ _) eqn:Hen; [|done]. simplify_eq. cbn [app] in Hsk.
  destruct Hs as [Hok Hso Hown _].
  assert (is_Some (sockets (agents (vacated_state (app s) a)) !! old)) as [sk1 Hsk1].
  { destruct (vacated_state_spec (app s) a Hok) as (_ & _ & _ & _ & Hd). rewrite Hd. unfold conn_of in Hold. apply fmap_Some in Hold as (c & Hc & ->). apply (sv_wired _ Hok _ _ Hc). }
  destruct op; try done; cbn [apply_op ends_connection enabled_op] in *.
  - destruct session as [session|]; [|done]. simplify_eq. rewrite register_eq in Hsk. cbv zeta in Hsk. cbn [fst agents broadcast with_agents] in Hsk.
    destruct (vacated_state_spec (app s) a Hok) as (_ & _ & Hco & _). rewrite Hco, Hold in Hsk.
    set (r := registered _ _ _) in Hsk. assert (sockets r !! old = Some sk1) as Hr.
    { subst r. simpl. rewrite lookup_insert_ne; [done|]. intros ->. rewrite (Hown _ _ Hold) in Hen. done. }
    destruct (shutdown_closes r old "" sk1 Hr) as (sk' & E & Hd). rewrite E in Hsk. simplify_eq. by rewrite Hd.
  - case_bool_decide; [|done]. simplify_eq. unfold cleanup_connection in Hsk. cbn [agents with_agents sockets with_sockets] in Hsk. simplify_eq. by rewrite lookup_delete_eq in Hsk.
  - simplify_eq. unfold invalidate_agent_connection in Hsk. cbv zeta in Hsk.
    change (match connections (agents (app s)) !! a with Some c => _ | None => app s end) with (vacated_state (app s) a) in Hsk.
    unfold conn_of in Hold. apply fmap_Some in Hold as (c & Hc & ->). rewrite Hc in Hsk. cbn [agents broadcast with_agents] in Hsk.
    match type of Hsk with sockets (send_shutdown ?r _ _) !! _ = _ => destruct (shutdown_closes r (conn_id c) reason sk1) as (sk' & E & Hd); [done|] end.
    rewrite E in Hsk. simplify_eq. by rewrite Hd.
Qed.

Lemma revoke_agent_others st a conn b :
  b <> a -> leases (sessions (control (revoke_agent_control_locked st a conn))) !! b = leases (sessions (control st)) !! b.
Proof.
  intros Hb. unfold revoke_agent_control_locked.
  destruct (commit_sessions_keeps st (revoke_agent (sessions (control st)) a conn)) as (_ & _ & -> & _).
  unfold revoke_agent. case_match; [|done]. simpl. by rewrite lookup_delete_ne.
Qed.
Lemma ends_others s op a b :
  ends_connection (app s) op = Some a -> b <> a ->
  leases (sessions (control (apply_op (app s) op))) !! b = leases (sessions (control (app s))) !! b.
Proof.
  intros He Hb. assert (forall st, leases (sessions (control (vacated_state st a))) !! b = leases (sessions (control st)) !! b) as Hv.
  { intros st. unfold vacated_state. case_match; [by apply revoke_agent_others|done]. }
  destruct op; try done; cbn [apply_op ends_connection] in *.
  - destruct session; [|done]. simplify_eq. rewrite register_eq. apply Hv.
  - case_bool_decide; [|done]. simplify_eq. rewrite <- (revoke_agent_others (app s) a conn b Hb). unfold cleanup_connection. cbv zeta. by case_bool_decide.
  - simplify_eq. etrans; [|apply Hv]. unfold invalidate_agent_connection, vacated_state. cbv zeta. by destruct (connections (agents (app s)) !! a).
Qed.

(** C4: losing a connection ends everything it carried, in the same step: when a device
    reconnects, is invalidated, or its current connection's task ends, no lease, frozen capture,
    stream session, viewer count or running capture of the device is left, the old connection is
    no longer the device's and its socket is told to stop (or gone), and no other device's lease
    or connection is touched. *)
Theorem connection_loss_is_complete s op s' a old :
  reachable s -> step s op = Some s' -> ends_connection (app s) op = Some a -> conn_of (agents (app s)) a = Some old ->
  let st' := app s' in
  leases (sessions (control st')) !! a = None /\ capture (control st') !! a = None
  /\ (forall k ss, mjpeg_sessions (media st') !! k = Some ss -> s_agent_id ss <> a)
  /\ capture_viewers (media st') !! a = None /\ mjpeg_active_capture (media st') !! a = None
  /\ conn_of (agents st') a <> Some old
  /\ (forall sk, sockets (agents st') !! old = Some sk -> shutdown sk <> None)
  /\ (forall b, b <> a -> conn_of (agents st') b = conn_of (agents (app s)) b
      /\ leases (sessions (control st')) !! b = leases (sessions (control (app s))) !! b).
Proof.
  intros Hr Hst He Hold. pose proof (reachable_ok _ Hr) as Hs. pose proof (step_ok _ _ _ Hs Hst) as Hs'.
  pose proof (ends_closes _ _ _ _ _ Hs Hst He Hold) as Hclose. cbv zeta.
  unfold step in Hst. destruct (enabled_op _ _) eqn:Hen; [|done]. simplify_eq. cbn [app] in *.
  destruct (ends_vacated s op a Hs He) as [V1 V2 V3 V4]. split_and!; try done.
  - destruct Hs' as [Hok' _ _ _]. cbn [app] in Hok'. rewrite (mo_counts _ (sv_media _ Hok')). unfold count_entry.
    assert (sessions_of (mjpeg_sessions (media (apply_op (app s) op))) a = 0) as ->; [|done].
    unfold sessions_of. match goal with |- Z.of_nat (length ?l) = 0 => destruct l as [|x l'] eqn:El; [done|] end.
    exfalso. assert (x ∈ x :: l') as Hx by left. rewrite <- El in Hx. apply list_elem_of_filter in Hx as [Hx Hin].
    apply list_elem_of_fmap in Hin as ([k ss] & -> & Hin%elem_of_map_to_list). by eapply V3.
  - destruct Hs as [Hok _ Hown _]. destruct op; try done; cbn [apply_op ends_connection enabled_op] in *.
    + destruct session as [session|]; [|done]. simplify_eq. destruct (register_tasks (app s) a name session has_report at_ conn conn Hok) as (_ & -> & _).
      intros [= ->]. by rewrite (Hown _ _ Hold) in Hen.
    + case_bool_decide; [|done]. simplify_eq. intros Hx. destruct (proj2 (cleanup_tasks (app s) a old at_ old Hok) a old Hx) as [_ [?|?]]; done.
    + simplify_eq. by rewrite (proj1 (proj2 (invalidate_tasks (app s) a reason at_ old Hok))).
  - intros b Hb. split; [|by eapply ends_others]. destruct Hs as [Hok _ Hown _]. destruct op; try done; cbn [apply_op ends_connection enabled_op] in *.
    + destruct session as [session|]; [|done]. simplify_eq. by apply (register_tasks (app s) a name session has_report at_ conn conn Hok).
    + case_bool_decide; [|done]. simplify_eq. by apply cleanup_others.
    + simplify_eq. by apply (invalidate_tasks (app s) a reason at_ old Hok).
Qed.

(** A device's stored grants only move forward: in any step from a reachable state, as long as
    the report kept for a device belongs to the same connection it is a valid report that follows
    the one before it, so a delayed or replayed report can never bring a revoked grant back; and
    what is stored for a device is always a complete, consistent report. *)
Theorem reports_only_move_forward s op s' a rt rt' :
  reachable s -> step s op = Some s' ->
  modules (agents (app s)) !! a = Some rt -> modules (agents (app s')) !! a = Some rt' -> rm_conn_id rt' = rm_conn_id rt ->
  report_ok (Registry.report rt') /\ follows (Registry.report rt') (Registry.report rt) = true.
Proof.
  intros Hr Hst Hrt Hrt' Hid. pose proof (reachable_ok _ Hr) as Hs. pose proof (step_ok _ _ _ Hs Hst) as Hs'.
  pose proof (sv_report _ (so_srv _ Hs') _ _ Hrt') as Hok'. split; [done|].
  unfold step in Hst. destruct (enabled_op _ _) eqn:Hen; [|done]. simplify_eq. cbn [app] in *. destruct Hs as [Hok Hso Hown _].
  assert (report_key rt' = report_key rt -> follows (Registry.report rt') (Registry.report rt) = true) as Hrefl.
  { intros [= _ E]. rewrite <- E. apply follows_spec; [done|]. split; [lia|]. intros m. split_and!; [lia|done..]. }
  assert (forall st' b conn rev scr rtb ev, app s = st' ->
    modules (agents (broadcast (set_runtime (before_publish st' b conn rev scr) b rtb) ev)) !! a = Some rt' -> (a = b -> rt' = rtb -> follows (Registry.report rt') (Registry.report rt) = true) ->
    follows (Registry.report rt') (Registry.report rt) = true) as Hpub.
  { intros st' b conn rev scr rtb ev <- Hx Heq. simpl in Hx. destruct (decide (a = b)) as [->|Hne]; [rewrite lookup_insert_eq in Hx; simplify_eq; by apply Heq|].
    rewrite lookup_insert_ne in Hx by done. destruct (before_publish_quiet (app s) b conn rev scr Hok) as [[(_ & _ & Hm & _) _ _] _]. rewrite Hm in Hx. apply Hrefl. congruence. }
  destruct (is_gentle op) eqn:Hge.
  { apply Hrefl. pose proof (ge_reports _ _ (apply_gentle (app s) op Hok Hge) a) as E. rewrite Hrt, Hrt' in E. simpl in E. congruence. }
  destruct op; try done; cbn [apply_op enabled_op] in *.
  - destruct session as [session|]; [|apply Hrefl; simpl in Hrt'; congruence]. rewrite register_eq in Hrt'. cbv zeta in Hrt'. cbn [fst agents broadcast with_agents] in Hrt'.
    destruct (vacated_state_spec (app s) agent Hok) as (_ & _ & _ & (_ & _ & Hm & _) & _). set (r := registered _ _ _) in Hrt'.
    assert (modules r !! a = Some rt') as Hx by (revert Hrt'; case_match; [by rewrite (proj2 (send_shutdown_conns _ _ _))|done]).
    subst r. simpl in Hx. apply lookup_delete_Some in Hx as [_ Hx]. rewrite Hm in Hx. apply Hrefl. congruence.
  - apply Hrefl. unfold cleanup_connection in Hrt'. cbv zeta in Hrt'. fold (vacate (app s) agent conn) in Hrt'.
    destruct (vacate_quiet (app s) agent conn Hok) as [[(_ & _ & Hm & _) _ _] _]. cbn [agents with_agents modules with_sockets] in Hrt'.
    match type of Hrt' with modules (agents (if ?b then _ else _)) !! _ = _ => destruct b end.
    + cbn [agents broadcast drop_frame with_media with_agents modules set_conns] in Hrt'. apply lookup_delete_Some in Hrt' as [_ Hx].
      change (modules (agents (vacate (app s) agent conn)) !! a = Some rt') in Hx. rewrite Hm in Hx. congruence.
    + rewrite Hm in Hrt'. congruence.
  - apply Hrefl. unfold invalidate_agent_connection in Hrt'. cbv zeta in Hrt'.
    change (match connections (agents (app s)) !! agent with Some c => _ | None => app s end) with (vacated_state (app s) agent) in Hrt'.
    destruct (vacated_state_spec (app s) agent Hok) as (_ & _ & _ & (_ & _ & Hm & _) & _).
    assert (modules (unregistered (agents (vacated_state (app s) agent)) agent) !! a = Some rt') as Hx.
    { destruct (connections (agents (app s)) !! agent); [|done]. cbn [agents broadcast with_agents] in Hrt'. by rewrite (proj2 (send_shutdown_conns _ _ _)) in Hrt'. }
    simpl in Hx. apply lookup_delete_Some in Hx as [_ Hx]. rewrite Hm in Hx. congruence.
  - destruct (report_cases time_json (app s) agent conn value pending at_) as [e|r rtb rev scr Hp Hconn Hf _ [= E1 E2]]; [apply Hrefl; congruence|].
    eapply Hpub; [done|exact Hrt'|]. intros -> ->. rewrite E2. apply Hf; [done|congruence].
  - destruct (ack_cases (app s) agent conn value request Hok) as [res|rep rtb rev scr ev Hconn Hf Hrep (old & Hold & Holdid & [= E1 E2])]; [apply Hrefl; congruence|].
    eapply Hpub; [done|exact Hrt'|]. intros -> ->. simplify_eq. destruct rep as [r|]; simpl in E2.
    + rewrite E2. by eapply Hf.
    + apply Hrefl. unfold report_key. by rewrite E1, E2.
  - apply Hrefl. destruct (lease_message_agents (app s) viewer user value now clock audit_now fresh Hok) as [(_ & _ & Hm & _) _ _]. congruence.
  - apply Hrefl. destruct (input_quiet_or (app s) agent viewer user token cmd now Hok) as (_ & (_ & _ & Hm & _) & _). congruence.
Qed.

(** ** Clipboard requests over time *)

Abbreviation cl st := (clipboard (control st)).

Lemma commit_clip st t : cl (commit_sessions st t).1 = cl st.
Proof. apply (commit_sessions_keeps st t). Qed.

Lemma revoke_agent_clip st a c : cl (revoke_agent_control_locked st a c) = cl st.
Proof. apply commit_clip. Qed.
Lemma clear_clip st a c : cl (clear_capture_connection_locked st a c) = cl st.
Proof. done. Qed.
Lemma register_clip st a n s hr at_ c : cl (register_authenticated_connection time_json st a n s hr at_ c).1 = cl st.
Proof. unfold register_authenticated_connection. repeat case_match; cbn; rewrite ?clear_clip, ?revoke_agent_clip; done. Qed.
Lemma cleanup_clip st a c at_ : cl (cleanup_connection time_json st a c at_) = cl st.
Proof. unfold cleanup_connection. cbv zeta. case_match; cbn; apply revoke_agent_clip. Qed.
Lemma invalidate_clip st a r at_ : cl (invalidate_agent_connection time_json st a r at_) = cl st.
Proof. unfold invalidate_agent_connection. cbv zeta. case_match; cbn; [apply revoke_agent_clip|done]. Qed.
Lemma reset_clip st a : cl (reset_generation st a) = cl st.
Proof. unfold reset_generation. by case_match. Qed.
Lemma report_clip st a c v p at_ : cl (accept_module_report time_json st a c v p at_).1 = cl st.
Proof.
  unfold accept_module_report. cbv zeta. repeat case_match; cbn; rewrite ?reset_clip, ?revoke_agent_clip; done.
Qed.
Lemma ack_clip st a c v q : cl (accept_module_disable_ack st a c v q).1 = cl st.
Proof.
  unfold accept_module_disable_ack. cbv zeta. repeat case_match; cbn; rewrite ?reset_clip, ?revoke_agent_clip; done.
Qed.
Lemma replay_clip st a c now : cl (replay_module_disables st a c now) = cl st.
Proof.
  unfold replay_module_disables. generalize (unsent_requests st a c) as l. intros l. revert st. induction l as [|r l IH]; intros st; simpl; [done|].
  rewrite IH. unfold replay_one. repeat case_match; done.
Qed.
Lemma disable_clip st a r b n1 n2 : cl (disable_module st a r b n1 n2).1 = cl st.
Proof.
  unfold disable_module, request_disable. cbv zeta. repeat case_match; simplify_eq; cbn; rewrite ?replay_clip; cbn; rewrite ?revoke_agent_clip; done.
Qed.
Lemma enqueue_capture_clip st a c cmd g : cl (enqueue_capture st a c cmd g).1 = cl st.
Proof. unfold enqueue_capture. repeat case_match; done. Qed.
Lemma sync_clip st a r f : cl (sync_capture_locked st a r f).1 = cl st.
Proof.
  unfold sync_capture_locked. cbv zeta. 
  repeat (case_match; try done); match goal with H : enqueue_capture ?s ?a ?c ?m ?g = _ |- _ => pose proof (enqueue_capture_clip s a c m g) as Hx; rewrite H in Hx; cbn in * end; done.
Qed.
Lemma commit_clip' st t st' b : commit_sessions st t = (st', b) -> cl st' = cl st.
Proof. intros E. pose proof (commit_clip st t) as Hc. by rewrite E in Hc. Qed.
Lemma sync_clip' st a r f st' b : sync_capture_locked st a r f = (st', b) -> cl st' = cl st.
Proof. intros E. pose proof (sync_clip st a r f) as Hc. by rewrite E in Hc. Qed.
Ltac commits := repeat match goal with
  | H : commit_sessions _ _ = _ |- _ => apply commit_clip' in H
  | H : sync_capture_locked _ _ _ _ = _ |- _ => apply sync_clip' in H
  | H : context [clipboard (control (broadcast _ _))] |- _ => progress cbn in H
  end.
Lemma begin_clip st a s u p r n f : cl (begin_mjpeg_session st a s u p r n f).1 = cl st.
Proof.
  unfold begin_mjpeg_session. cbv zeta. pose proof (commit_clip st (expire (sessions (control st)) n)) as Hc.
  repeat (case_match; try done); commits; cbn in *; congruence.
Qed.
Lemma end_clip st a s u f : cl (end_mjpeg_session st a s u f).1 = cl st.
Proof.
  unfold end_mjpeg_session. cbv zeta. repeat (case_match; try done); cbn; rewrite sync_clip; cbn; rewrite ?revoke_agent_clip; done.
Qed.
Lemma acquire_clip st a o v n c f : cl (control_acquire st a o v n c f).1 = cl st.
Proof.
  unfold control_acquire, commit_control_capture. repeat (case_match; try done); simplify_eq; commits; cbn in *; rewrite ?commit_clip; congruence.
Qed.
Lemma lease_message_clip st w u v n c a f : cl (control_lease_message st w u v n c a f).1 = cl st.
Proof.
  unfold control_lease_message. cbv zeta.
  assert (forall b, cl (control_lease_op st b w u v n c f).1 = cl st) as Hop.
  { intros b. unfold control_lease_op. repeat (case_match; try done); simplify_eq; commits; cbn in *; rewrite ?acquire_clip; congruence. }
  repeat (case_match; try done); match goal with H : control_lease_op _ ?b _ _ _ _ _ _ = _ |- _ => specialize (Hop b); rewrite H in Hop end; cbn in *;
   try done.
  all: unfold audit_control_event; repeat case_match; done.
Qed.
Lemma input_clip st a w u t c n : cl (send_viewer_input st a w u t c n).1 = cl st.
Proof.
  unfold send_viewer_input. cbv zeta. repeat (case_match; try done); simplify_eq; commits; cbn in *; rewrite ?commit_clip; cbn; try congruence.
Qed.

(** A request that is gone or has had its reply stays so: only starting a request of that id
    opens it again. *)
Definition unanswered (st : AppState) (id : Uuid) : bool := is_some_and (cl st !! id) pc_waiting.
Definition starts_other (id : Uuid) (op : Op) : bool :=
  match op with ClipStart _ _ _ _ _ i _ _ _ => negb (bool_decide (i = id)) | _ => true end.
Definition touches_clip (op : Op) : bool :=
  match op with ClipStart _ _ _ _ _ _ _ _ _ | ClipTick _ _ _ _ | ClipFinish _ _ _ | ClipDrop _ | ClipReply _ _ _ _ _ | Recv _ _ _ _ => true | _ => false end.
Lemma other_clip st op : touches_clip op = false -> cl (apply_op st op) = cl st.
Proof.
  intros Hop. destruct op; try done; cbn [apply_op].
  - apply register_clip. - apply cleanup_clip. - apply invalidate_clip. - apply report_clip. - apply ack_clip. - apply replay_clip.
  - apply disable_clip. - by case_match. - apply lease_message_clip. - apply input_clip. - apply commit_clip. - apply commit_clip.
  - apply begin_clip. - apply end_clip. - apply sync_clip.
  - cbn. unfold audit_control_event. repeat case_match; done.
Qed.
Lemma valid_clip st p n1 n2 : cl (clipboard_valid_locked st p n1 n2).1 = cl st.
Proof. apply clipboard_valid_keeps. Qed.
Lemma valid_clip' st p n1 n2 st' b : clipboard_valid_locked st p n1 n2 = (st', b) -> cl st' = cl st.
Proof. intros E. pose proof (valid_clip st p n1 n2) as Hc. by rewrite E in Hc. Qed.
Lemma deliverable_clip st a c cmd n1 n2 : cl (clipboard_deliverable_locked st a c cmd n1 n2).1 = cl st.
Proof.
  unfold clipboard_deliverable_locked. cbv zeta. destruct (uuid_field _ _) as [i|]; [|done]. destruct (cl st !! i) as [p|] eqn:Hp; [|done].
  match goal with |- context [let '(_, _) := ?x in _] => destruct x as [st1 v] eqn:E end. cbn. assert (cl st1 = delete i (cl st)) as ->.
  { revert E. case_match; [intros E%valid_clip'; done|intros [= <- _]; done]. }
  by rewrite insert_delete_eq, insert_id.
Qed.
Lemma recv_clip st a c n1 n2 : cl (task_recv st a c n1 n2).1 = cl st.
Proof.
  unfold task_recv. cbv zeta. destruct (sockets _ !! c) as [s|]; [|done]. destruct (queue s) as [|m l]; [done|]. destruct m as [cmd|cc cmd|]; try done.
  unfold command_deliverable. match goal with |- context [clipboard_deliverable_locked ?s ?x ?y ?z ?u ?v] => pose proof (deliverable_clip s x y z u v) as Hd; destruct (clipboard_deliverable_locked s x y z u v) as [st1 b] end.
  cbn [fst] in Hd. cbv zeta. repeat (case_match; simplify_eq; try done).
Qed.

Lemma answered_stays st op id : unanswered st id = false -> starts_other id op = true -> unanswered (apply_op st op) id = false.
Proof.
  intros Hid Hop. destruct (touches_clip op) eqn:Ht; [|unfold unanswered; by rewrite other_clip].
  destruct op; try done; cbn [apply_op starts_other] in *; bool_prop; unfold unanswered in *.
  - (* start *) unfold clipboard_start. cbv zeta. repeat (case_match; try done); simplify_eq; cbn in *;
      match goal with Hv : clipboard_valid_locked _ _ _ _ = _ |- _ => apply valid_clip' in Hv; rewrite ?Hv end; try done.
    + by rewrite lookup_insert_ne.
    + by rewrite lookup_delete_ne, lookup_insert_ne.
  - (* tick *) unfold clipboard_tick. destruct (cl st !! id0) as [p|] eqn:Hp; [|by rewrite ?Hp]. cbv zeta.
    destruct (clipboard_valid_locked _ _ _ _) as [st1 v] eqn:E. apply valid_clip' in E. cbn in *. rewrite E, insert_delete_eq, insert_id by done. done.
  - unfold clipboard_finish. destruct (cl st !! id0) as [p|] eqn:Hp; [|done]. rewrite valid_clip. cbn.
    destruct (decide (id0 = id)) as [->|Hne]; [by rewrite lookup_delete_eq|by rewrite lookup_delete_ne].
  - unfold clipboard_drop. destruct (cl st !! id0) as [p|] eqn:Hp; [|done]. cbv zeta. destruct (decide (id0 = id)) as [->|Hne]; case_match; cbn; by rewrite ?lookup_delete_eq, ?lookup_delete_ne.
  - unfold complete_clipboard. destruct (uuid_field _ _) as [i|]; [|done]. destruct (cl st !! i) as [p|] eqn:Hp; [|done]. case_match; [done|]. cbv zeta.
    destruct (clipboard_valid_locked _ _ _ _) as [st1 v] eqn:E. apply valid_clip' in E. cbn in *. rewrite E.
    destruct (decide (i = id)) as [->|Hne]; [by rewrite lookup_insert_eq|by rewrite lookup_insert_ne, lookup_delete_ne].
  - by rewrite recv_clip.
Qed.
Lemma answered_forever st ops id :
  unanswered st id = false -> forallb (starts_other id) ops = true -> unanswered (foldl (apply_op) st ops) id = false.
Proof.
  revert st. induction ops as [|op ops IH]; intros st Hid Hall; simpl in *; [done|]. apply andb_true_iff in Hall as [Ho Hall].
  apply IH; [|done]. by apply answered_stays.
Qed.
Lemma answered_silent st id a c v n1 n2 :
  unanswered st id = false -> uuid_field v "request_id" = Some id -> (complete_clipboard st a c v n1 n2).2 = None.
Proof.
  unfold unanswered, complete_clipboard. intros Hid ->. destruct (cl st !! id) as [p|]; [|done]. simpl in Hid. rewrite Hid. case_match; [done|]. cbv zeta. by case_match.
Qed.

(** C6: a clipboard answer reaches its requester only while everything it was asked under still
    holds: a successful reply is delivered only for a pending request of this very device and
    connection, whose sender still waits and whose deadline has not passed, on the open
    connection, under the same unexpired lease, with remote input authorized and the clipboard
    grant at the revision of the request, and any text in it is within 64 KiB without NUL; once
    answered, a request never gets a second reply, whatever the server does after that (every
    operation in any order, timers, deliveries and further answers included) as long as no new
    request is started under the same id. *)
Theorem clipboard_reply_is_authorized st agent conn value now now' st' id reply :
  complete_clipboard st agent conn value now now' = (st', Some (id, reply)) ->
  uuid_field value "request_id" = Some id
  /\ (forall ops agent2 conn2 value2 n1 n2,
        forallb (fun op => match op with ClipStart _ _ _ _ _ i _ _ _ => negb (bool_decide (i = id)) | _ => true end) ops = true ->
        uuid_field value2 "request_id" = Some id ->
        (complete_clipboard (foldl (apply_op) st' ops) agent2 conn2 value2 n1 n2).2 = None)
  /\ exists p, clipboard (control st) !! id = Some p /\ pc_agent p = agent /\ agent_connection_id (pc_owner p) = conn /\ pc_waiting p = true
  /\ (idx reply "ok" = JBool true ->
       now < pc_deadline p /\ open_conn_id (agents st) agent = Some conn
       /\ (exists l, leases (sessions (control st)) !! agent = Some l /\ owner (grant l) = pc_owner p /\ token (grant l) = pc_token p /\ now' < expires_at (grant l))
       /\ module_authorized (agents st) agent RemoteInput = true
       /\ (exists c, authorize_agent_command (agents st) agent (remove_key (pc_fence p) "__module_generation") = Ok c
           /\ idx c "__module_generation" = idx (pc_fence p) "__module_generation")
       /\ forall t, idx reply "text" = JStr t -> text_ok t = true).
Proof.
  unfold complete_clipboard. destruct (uuid_field value "request_id") as [i|] eqn:Hi; [|done].
  destruct (clipboard (control st) !! i) as [p|] eqn:Hp; [|done]. destruct (_ || _) eqn:Hm; [done|]. bool_prop. cbv zeta.
  destruct (clipboard_valid_locked _ p now now') as [st1 valid] eqn:Hv. destruct (pc_waiting p) eqn:Hw; [|done]. intros [= <- <- <-].
  split; [done|]. split.
  { intros ops a2 c2 v2 n1 n2 Hops. apply answered_silent, answered_forever.
    - unfold unanswered. cbn [set_clipboard control with_control clipboard with_clipboard]. by rewrite lookup_insert_eq.
    - exact Hops. }
  exists p. split_and!; [done..|]. intros Hokr. assert (valid = true) as ->.
  { destruct valid; [done|]. unfold clipboard_reply, clip_error in Hokr. simpl in Hokr. done. }
  unfold clipboard_valid_locked in Hv. destruct (_ || _) eqn:Hd; [done|]. bool_prop. cbn [agents set_clipboard with_control control sessions with_clipboard] in *.
  match goal with H1 : is_some_and _ _ = true |- _ => apply is_some_and_true in H1 as (x & Hx & Hxid) end. bool_prop.
  pose proof (authorize_Ok_inv (sessions (control st)) (pc_agent p) (pc_owner p) (pc_token p) now') as Hinv.
  destruct (authorize _ _ _ _ _) as [s1 t]. cbn [snd] in Hinv. destruct (commit_sessions _ (s1, t_cleanup t)) as [st2 safe] eqn:Hcm.
  destruct (is_ok (t_result t)) eqn:Ht; [|done]. cbn [negb] in Hv. destruct (Hinv eq_refl) as (l & Hl & Ho & Htk & Hn & E). simplify_eq.
  cbn [t_cleanup] in Hcm. rewrite commit_nil in Hcm. simplify_eq. cbn [agents with_control set_clipboard] in Hv.
  destruct (authorize_agent_command (agents st) (pc_agent p) mouse_probe) as [cm|] eqn:Hmp; [|done]. cbn [is_ok negb] in Hv.
  destruct (authorize_agent_command (agents st) (pc_agent p) (remove_key _ _)) as [cc|] eqn:Hcc; [|done].
  injection Hv as <- Hgen. apply json_eqb_eq in Hgen.
  split_and!; [done| |by exists l|by eapply mouse_probe_granted|by exists cc|].
  - unfold open_conn_id. rewrite Hx. simpl. by rewrite Hxid.
  - intros txt. unfold clipboard_reply in *. cbn [negb] in *. case_bool_decide; [|done]. destruct (str_is _ _); [|done].
    destruct (ofilter text_ok _) as [t0|] eqn:Htx; [|done]. intros [= <-]. by apply ofilter_Some in Htx as [_ ?].
Qed.

End system.

(** ** A run *)

(** A device registers, reports its grants, is watched, shows a frame and is taken over. *)
Definition ex_run (ops : list Op) : option System := @run bin_uuid bin_json JInt System_new ops.
Definition ex_setup : list Op :=
  [Register 7%N "pc" (Some 1) (Some true) 0 70%N;
   Report 7%N 70%N (report_to_value (ex_report 9 [(RemoteInput, 3); (LiveScreen, 2); (Clipboard, 4)])) [] 0;
   BeginStream 7%N 5%N 2%N ex_prefs None 0 6%N;
   StoreFrame 7%N (default [] ex_frame.2) 0].
Definition ex_message (kind : string) : json :=
  mk_obj [("type", JStr kind); ("agent_id", JStr "111"); ("request_id", JStr "1"); ("capture_session", JStr "101")]%string.
Definition ex_control : list Op := ex_setup ++ [LeaseMessage 1%N ex_user (ex_message "control_acquire") 0 0 0 9%N].
Definition ex_key : json := mk_obj [("type", JStr "KeyDown"); ("key", JStr "shift")]%string.
Definition ex_press : Op := Input 7%N 1%N ex_user (Some 9%N) ex_key 1.
Definition ex_clip : Op := ClipStart 7%N ex_user "read" 9%N None 11%N 1 1 1.
Definition ex_state_after (ops : list Op) : System := default System_new (ex_run ops).

Lemma ex_reachable ops : isSome (ex_run ops) = true -> @reachable bin_uuid bin_json JInt (ex_state_after ops).
Proof.
  unfold ex_state_after, ex_run. destruct (run _ _ _) as [s|] eqn:E; [|done]. intros _. simpl.
  by eapply run_reachable; [apply reach_new|].
Qed.

Lemma control_is_consistent_witness :
  @reachable bin_uuid bin_json JInt (ex_state_after ex_control)
  /\ size (leases (sessions (control (app (ex_state_after ex_control))))) = 1%nat
  /\ controllable (agents (app (ex_state_after ex_control))) 7%N.
Proof.
  assert (@reachable bin_uuid bin_json JInt (ex_state_after ex_control)) as Hr by (apply ex_reachable; vm_compute; reflexivity).
  split; [exact Hr|]. split; [vm_compute; reflexivity|].
  destruct (@control_is_consistent bin_uuid bin_json JInt (ex_state_after ex_control) Hr) as (Hl & _).
  destruct (leases (sessions (control (app (ex_state_after ex_control)))) !! 7%N) as [l|] eqn:E; [|vm_compute in E; discriminate E].
  exact (proj1 (proj2 (Hl 7%N l E))).
Defined.

Lemma remote_input_needs_lease_witness :
  exists s' sk, @step bin_uuid bin_json JInt (ex_state_after ex_control) ex_press = Some s'
  /\ sockets (agents (app s')) !! 70%N = Some sk /\ length (queue sk) = 2%nat
  /\ module_authorized (agents (app (ex_state_after ex_control))) 7%N RemoteInput = true.
Proof.
  set (s := ex_state_after ex_control). set (s' := default System_new (@step bin_uuid bin_json JInt s ex_press)).
  set (sk := default {| shutdown := None; queue := [] |} (sockets (agents (app s')) !! 70%N)).
  set (c := set_idx ex_key "__module_generation" (generation_json RemoteInput 3)).
  assert (@step bin_uuid bin_json JInt s ex_press = Some s') as Hst by (vm_compute; reflexivity).
  assert (sockets (agents (app s')) !! 70%N = Some sk) as Hsk by (vm_compute; reflexivity).
  exists s', sk. split; [exact Hst|]. split; [exact Hsk|]. split; [vm_compute; reflexivity|].
  destruct (@remote_input_needs_lease bin_uuid bin_json JInt s ex_press s' 70%N sk c) as (a & v & u & t & k & n & l & Hop & _ & _ & _ & _ & _ & _ & Hm & _).
  - apply ex_reachable. vm_compute. reflexivity.
  - exact Hst.
  - exact Hsk.
  - apply (bool_decide_unpack _). vm_compute. exact I.
  - vm_compute. reflexivity.
  - intros sk0 Hsk0. assert (sk0 = default {| shutdown := None; queue := [] |} (sockets (agents (app s)) !! 70%N)) as -> by (by rewrite Hsk0).
    apply (bool_decide_unpack _). vm_compute. exact I.
  - unfold ex_press in Hop. injection Hop as <- _ _ _ _ _. exact Hm.
Defined.

Lemma delivery_is_current_witness :
  exists st' c, @task_recv bin_uuid (app (ex_state_after ex_control)) 7%N 70%N 1 1 = (st', Some c)
  /\ kind_of c = "start_capture"%string /\ open_conn_id (agents st') 7%N = Some 70%N.
Proof.
  set (r := @task_recv bin_uuid (app (ex_state_after ex_control)) 7%N 70%N 1 1). set (c := default JNull r.2).
  assert (r = (r.1, Some c)) as Hr by (vm_compute; reflexivity). exists r.1, c. split; [exact Hr|]. split; [vm_compute; reflexivity|].
  destruct (@delivery_is_current bin_uuid (app (ex_state_after ex_control)) 7%N 70%N 1 1 r.1 c Hr) as (sk & msg & rest & _ & _ & Ho & _).
  exact Ho.
Defined.

Lemma viewer_input_tracked_or_closed_witness :
  let s := ex_state_after ex_control in
  exists st', @send_viewer_input bin_uuid (app s) 7%N 1%N ex_user (Some 8%N) ex_key 1 = (st', Err (lease_error Mismatch))
  /\ forall b, b <> 7%N -> leases (sessions (control st')) !! b = leases (sessions (control (app s))) !! b.
Proof.
  intros s. set (r := @send_viewer_input bin_uuid (app s) 7%N 1%N ex_user (Some 8%N) ex_key 1).
  assert (r = (r.1, Err (lease_error Mismatch))) as Hr by (vm_compute; reflexivity). exists r.1. split; [exact Hr|].
  refine (proj1 (@viewer_input_tracked_or_closed bin_uuid bin_json JInt s 7%N 1%N ex_user (Some 8%N) ex_key 1 r.1 (Err (lease_error Mismatch)) _ Hr)).
  apply ex_reachable. vm_compute. reflexivity.
Defined.

Lemma acquire_binds_display_witness :
  let s := ex_state_after ex_setup in
  exists st' g, @control_lease_op bin_uuid bin_json (app s) 7%N 1%N ex_user (ex_message "control_acquire") 0 0 9%N = (st', Ok (Some g))
  /\ token g = 9%N /\ module_authorized (agents st') 7%N LiveScreen = true.
Proof.
  intros s. set (r := @control_lease_op bin_uuid bin_json (app s) 7%N 1%N ex_user (ex_message "control_acquire") 0 0 9%N).
  set (g := {| token := 9%N; owner := ex_lease_owner; expires_at := secs 15 |}).
  assert (r = (r.1, Ok (Some g))) as Hr by (vm_compute; reflexivity). exists r.1, g. split; [exact Hr|]. split; [reflexivity|].
  assert (@reachable bin_uuid bin_json JInt s) as Hs by (apply ex_reachable; vm_compute; reflexivity).
  destruct (@acquire_binds_display bin_uuid bin_json JInt s 7%N 1%N ex_user (ex_message "control_acquire") 0 0 9%N r.1 g Hs eq_refl Hr)
    as (_ & _ & _ & _ & _ & Hls & _).
  exact Hls.
Defined.

Lemma connection_loss_is_complete_witness :
  exists s', @step bin_uuid bin_json JInt (ex_state_after ex_control) (Register 7%N "pc" (Some 2) (Some true) 0 71%N) = Some s'
  /\ leases (sessions (control (app s'))) !! 7%N = None.
Proof.
  set (s := ex_state_after ex_control). set (op := Register 7%N "pc" (Some 2) (Some true) 0 71%N).
  set (s' := default System_new (@step bin_uuid bin_json JInt s op)). assert (@step bin_uuid bin_json JInt s op = Some s') as Hst by (vm_compute; reflexivity).
  exists s'. split; [exact Hst|].
  refine (proj1 (@connection_loss_is_complete bin_uuid bin_json JInt s op s' 7%N 70%N _ Hst _ _)); [|reflexivity|vm_compute; reflexivity].
  apply ex_reachable. vm_compute. reflexivity.
Defined.

Lemma reports_only_move_forward_witness :
  let next := Report 7%N 70%N (report_to_value (ex_report 12 [(RemoteInput, 3); (LiveScreen, 12); (Clipboard, 4)])) [] 1 in
  exists s' rt rt', @step bin_uuid bin_json JInt (ex_state_after ex_control) next = Some s'
  /\ modules (agents (app (ex_state_after ex_control))) !! 7%N = Some rt /\ modules (agents (app s')) !! 7%N = Some rt'
  /\ mr_revision (Registry.report rt') = 12 /\ follows (Registry.report rt') (Registry.report rt) = true.
Proof.
  intros next. set (s := ex_state_after ex_control). set (s' := default System_new (@step bin_uuid bin_json JInt s next)).
  assert (@step bin_uuid bin_json JInt s next = Some s') as Hst by (vm_compute; reflexivity).
  set (d := {| rm_conn_id := 0%N; Registry.report := ex_report 0 []; pending := ∅; sent := ∅; last_sent := ∅ |}).
  set (rt := default d (modules (agents (app s)) !! 7%N)). set (rt' := default d (modules (agents (app s')) !! 7%N)).
  assert (modules (agents (app s)) !! 7%N = Some rt) as H1 by (vm_compute; reflexivity).
  assert (modules (agents (app s')) !! 7%N = Some rt') as H2 by (vm_compute; reflexivity).
  exists s', rt, rt'. split; [exact Hst|]. split; [exact H1|]. split; [exact H2|]. split; [vm_compute; reflexivity|].
  refine (proj2 (@reports_only_move_forward bin_uuid bin_json JInt s next s' 7%N rt rt' _ Hst H1 H2 _)); [|vm_compute; reflexivity].
  apply ex_reachable. vm_compute. reflexivity.
Defined.

Definition ex_clip_answer : json :=
  mk_obj [("request_id", JStr "1101"); ("ok", JBool true); ("text", JStr "hi")]%string.
Lemma clipboard_reply_is_authorized_witness :
  let st := app (ex_state_after (ex_control ++ [ex_clip])) in
  exists st' reply, @complete_clipboard bin_uuid st 7%N 70%N ex_clip_answer 2 2 = (st', Some (11%N, reply))
  /\ idx reply "text" = JStr "hi"
  /\ (@complete_clipboard bin_uuid (@apply_op bin_uuid bin_json JInt st' (ClipTick 11%N 3 3 3)) 7%N 70%N ex_clip_answer 3 3).2 = None.
Proof.
  intros st. set (r := @complete_clipboard bin_uuid st 7%N 70%N ex_clip_answer 2 2).
  set (reply := default JNull (snd <$> r.2)). assert (r = (r.1, Some (11%N, reply))) as Hr by (vm_compute; reflexivity).
  exists r.1, reply. split; [exact Hr|]. split; [vm_compute; reflexivity|].
  destruct (@clipboard_reply_is_authorized bin_uuid bin_json JInt st 7%N 70%N ex_clip_answer 2 2 r.1 11%N reply Hr) as (Hid & Hlater & _).
  exact (Hlater [ClipTick 11%N 3 3 3] 7%N 70%N ex_clip_answer 3 3 eq_refl Hid).
Defined.
