(* ===== verification/Permissions.v ===== *)
(** The device's own grants: [agent/src/permissions/store.rs] and [workers.rs]. The on-disk
    store and its locked transactions, the only remote operation (a revoke), the report the
    device sends, grant generations, and the worker leases a revocation waits for. *)
From S2P Require Import Prelude Json Protocol Modules.

#[export] Instance Module_countable : Countable Module_ := finite_countable.

(** ** Data *)

Record Grant := { g_enabled : bool; g_revision : Z }.
Definition Grant_default : Grant := {| g_enabled := false; g_revision := 0 |}.
Record Receipt := { rc_module : Module_; rc_expected_revision : Z; rc_revision : Z }.
Record Store := {
  st_revision : Z;
  grants : gmap Module_ Grant;
  receipts : gmap string Receipt
}.
Definition Store_default : Store := {| st_revision := 0; grants := ∅; receipts := ∅ |}.
Inductive DisableResult : Type := Disabled | Duplicate | Stale | Conflict.

#[export] Instance Grant_eq_dec : EqDecision Grant.
Proof. solve_decision. Defined.
#[export] Instance Receipt_eq_dec : EqDecision Receipt.
Proof. solve_decision. Defined.
#[export] Instance DisableResult_eq_dec : EqDecision DisableResult.
Proof. solve_decision. Defined.

(** A lease belongs to exactly one locally authorized generation. *)
Record Generation := { gen_module : Module_; gen_revision : Z }.
#[export] Instance Generation_eq_dec : EqDecision Generation.
Proof. solve_decision. Defined.
#[export] Instance Generation_countable : Countable Generation.
Proof.
  refine (inj_countable' (fun g => (gen_module g, gen_revision g))
                         (fun p => {| gen_module := p.1; gen_revision := p.2 |}) _).
  by intros [].
Defined.

(** ** The store ([impl State]) *)

Definition store_enabled (s : Store) (m : Module_) : bool := is_some_and (grants s !! m) g_enabled.
Definition grant_of (s : Store) (m : Module_) : Grant := default Grant_default (grants s !! m).

Definition local_set (s : Store) (m : Module_) (on : bool) : result Store string :=
  let* revision := ok_or (u64_checked_add (st_revision s) 1) "revision exhausted"%string in
  Ok {| st_revision := revision;
        grants := <[m := {| g_enabled := on; g_revision := revision |}]> (grants s);
        receipts := receipts s |}.

Definition disable (s : Store) (m : Module_) (expected : Z) (id : string) : result (Store * DisableResult) string :=
  ensure negb (String.eqb id "") && (Z.of_nat (String.length id) <=? 128) else "invalid command_id"%string in
  match receipts s !! id with
  | Some r =>
      Ok (s, if bool_decide (rc_module r = m) && (rc_expected_revision r =? expected) then Duplicate else Conflict)
  | None =>
      if negb (g_revision (grant_of s m) =? expected) then Ok (s, Stale)
      else
        ensure map_len (receipts s) <? 100000 else "receipt capacity reached"%string in
        let* s := local_set s m false in
        Ok ({| st_revision := st_revision s; grants := grants s;
               receipts := <[id := {| rc_module := m; rc_expected_revision := expected;
                                      rc_revision := st_revision s |}]> (receipts s) |}, Disabled)
  end.

(** [available]: only the clipboard depends on the host ([clipboard] is [clipboard::available()]). *)
Definition module_available (clipboard : bool) (m : Module_) : bool :=
  negb (bool_decide (m = Clipboard)) || clipboard.

(** [State::wire]: the [module_states] report. *)
Definition wire_module (clipboard : bool) (s : Store) (m : Module_) : ModuleState :=
  let g := grant_of s m in
  {| ms_module := m; available := module_available clipboard m;
     enabled := g_enabled g && module_available clipboard m;
     ms_revision := g_revision g; authorization_required := negb (g_enabled g) |}.
Definition wire_report (clipboard : bool) (s : Store) : ModuleReport :=
  {| mr_kind := "module_states"; mr_schema_version := 1; mr_revision := st_revision s;
     mr_modules := wire_module clipboard s <$> MODULES |}.
Definition wire (clipboard : bool) (s : Store) : json := report_to_value (wire_report clipboard s).

(** ** The file: reads and transactions under the cross-process lock *)

(** What reading and decoding the store file gives. *)
Inductive StoreFile : Type :=
| FileMissing
| FileUnreadable (error : string)
| FileHolds (s : Store).
(** How far writing it back got: the rename is atomic, syncing the directory comes after it. *)
Inductive WriteOutcome : Type :=
| WriteFailed (error : string)
| RenamedUnsynced (error : string)
| Renamed.

Definition read (file : StoreFile) : result Store string :=
  match file with
  | FileMissing => Ok Store_default
  | FileUnreadable e => Err e
  | FileHolds s => Ok s
  end.

Definition transaction {T} (file : StoreFile) (f : Store -> result (Store * T) string) (write : bool)
    (outcome : WriteOutcome) : StoreFile * result (Store * T) string :=
  match read file with
  | Err e => (file, Err e)
  | Ok s =>
      match f s with
      | Err e => (file, Err e)
      | Ok (s, t) =>
          if write then
            match outcome with
            | WriteFailed e => (file, Err e)
            | RenamedUnsynced e => (FileHolds s, Err e)
            | Renamed => (FileHolds s, Ok (s, t))
            end
          else (file, Ok (s, t))
      end
  end.

(** [load]; a caller that cannot read it takes the default, everything off. *)
Definition load (file : StoreFile) : result Store string :=
  let* r := (transaction file (fun s => Ok (s, tt)) false Renamed).2 in Ok r.1.
Definition load_or_default (file : StoreFile) : Store := default Store_default (rok (load file)).

(** [local_set] on the file, the device owner's action. *)
Definition local_set_file (file : StoreFile) (m : Module_) (on : bool) (outcome : WriteOutcome)
    : StoreFile * result Store string :=
  let (file, r) := transaction file (fun s => let* s := local_set s m on in Ok (s, tt)) true outcome in
  (file, let* r := r in Ok r.1).

(** ** [remote_disable] *)

Definition disable_status (r : DisableResult) : string :=
  match r with Disabled => "disabled" | Duplicate => "duplicate" | Stale => "stale" | Conflict => "conflict" end.
Definition applied (r : DisableResult) : bool := bool_decide (r = Disabled) || bool_decide (r = Duplicate).

Definition disable_ack (v : json) (status : string) (ok : bool) (state : json) : json :=
  mk_obj [("type", JStr "module_disable_ack"); ("command_id", idx v "command_id"); ("module", idx v "module");
          ("ok", JBool ok); ("status", JStr status); ("persisted", JBool ok); ("stopped", JBool false);
          ("stop_status", JStr "unconfirmed"); ("state", state)]%string.
Definition disable_failed (v : json) (error : string) : json :=
  mk_obj [("type", JStr "module_disable_ack"); ("command_id", idx v "command_id"); ("module", idx v "module");
          ("ok", JBool false); ("status", JStr "error"); ("error", JStr error)]%string.

Definition remote_disable (clipboard : bool) (file : StoreFile) (v : json) (outcome : WriteOutcome) : StoreFile * json :=
  let request :=
    let* m := ok_or (module_of_json (idx v "module")) "invalid module"%string in
    let* revision := ok_or (as_u64 (idx v "expected_revision")) "expected_revision required"%string in
    let* id := ok_or (as_str (idx v "command_id")) "command_id required"%string in
    Ok (m, revision, id) in
  match request with
  | Err e => (file, disable_failed v e)
  | Ok (m, revision, id) =>
      match transaction file (fun s => disable s m revision id) true outcome with
      | (file, Ok (s, r)) => (file, disable_ack v (disable_status r) (applied r) (wire clipboard s))
      | (file, Err e) => (file, disable_failed v e)
      end
  end.

(** ** Generations *)

Definition generation_from_state (s : Store) (m : Module_) : option Generation :=
  g ← ofilter g_enabled (grants s !! m); Some {| gen_module := m; gen_revision := g_revision g |}.
Definition matches (g : Generation) (s : Store) : bool :=
  bool_decide (generation_from_state s (gen_module g) = Some g).
Definition valid_fresh (g : Generation) (file : StoreFile) : bool :=
  match load file with Ok s => matches g s | Err _ => false end.

(** ** Worker leases *)

(** [WORKERS]: how many live leases each generation has; never a zero entry. *)
Abbreviation Workers := (gmap Generation nat).
Definition WorkerLease_new (w : Workers) (g : Generation) : Workers := <[g := S (default 0%nat (w !! g))]> w.
Definition WorkerLease_drop (w : Workers) (g : Generation) : Workers :=
  match w !! g with
  | Some n => if Nat.eqb (n - 1) 0 then delete g w else <[g := (n - 1)%nat]> w
  | None => w
  end.
Definition active_workers (w : Workers) (g : Generation) : nat := default 0%nat (w !! g).

(** [command_worker]: the lease is taken before the store is read, and dropped on failure. *)
Definition command_worker (file : StoreFile) (w : Workers) (g : Generation) (m : Module_) : Workers * result unit string :=
  if negb (bool_decide (gen_module g = m)) then (w, Err "wrong command module"%string)
  else
    let w := WorkerLease_new w g in
    if valid_fresh g file then (w, Ok tt)
    else (WorkerLease_drop w g, Err "command grant revoked or replaced"%string).

(** The wait of [disable_and_wait]: the loop condition is evaluated at poll [i], when [now i] is
    the clock and [active i] the workers of the revoked generation; the result is the poll that
    ends the loop. *)
Fixpoint drain_wait (fuel : nat) (active : nat -> nat) (now : nat -> Instant) (deadline : Instant) (i : nat) : option nat :=
  match fuel with
  | O => None
  | S fuel =>
      if Nat.ltb 0 (active i) && (now i <? deadline) then drain_wait fuel active now deadline (S i)
      else Some i
  end.

(** The fields added to the acknowledgment once the wait ended with [pending] workers. *)
Definition drained_ack (ack : json) (pending : nat) : json :=
  set_idx (set_idx (set_idx ack "local_workers_pending" (JInt (Z.of_nat pending)))
    "local_registered_workers_stopped" (JBool (Nat.eqb pending 0)))
    "stop_status" (JStr (if Nat.eqb pending 0 then "registered_local_workers_drained_global_unconfirmed"
                         else "local_barrier_timeout")).

(** [disable_and_wait]: the workers polled are those of the generation the request names. *)
Definition disable_and_wait (clipboard : bool) (file : StoreFile) (v : json) (outcome : WriteOutcome)
    (start : Instant) (fuel : nat) (workers : nat -> Workers) (now : nat -> Instant) : StoreFile * option json :=
  let (file, ack) := remote_disable clipboard file v outcome in
  if negb (str_is (idx ack "status") "disabled") then (file, Some ack)
  else
    match module_of_json (idx v "module") with
    | None => (file, Some ack)
    | Some m =>
        let g := {| gen_module := m; gen_revision := default 0 (as_u64 (idx v "expected_revision")) |} in
        let active i := active_workers (workers i) g in
        (file, i ← drain_wait fuel active now (start + secs 2) 0; Some (drained_ack ack (active (S i))))
    end.

(** ** Invariant and order of stores *)

Record store_ok (s : Store) : Prop := {
  so_revision : 0 <= st_revision s <= u64_max;
  so_grants : forall m g, grants s !! m = Some g -> 1 <= g_revision g <= st_revision s;
  so_receipts : forall id r, receipts s !! id = Some r ->
    0 <= rc_expected_revision r < rc_revision r /\ rc_revision r <= g_revision (grant_of s (rc_module r));
  so_capacity : map_len (receipts s) <= 100000
}.

(** What every change of the store respects: revisions only grow, a grant that changed has a
    revision no earlier state used, and receipts are never forgotten. *)
Record store_le (s s' : Store) : Prop := {
  le_revision : st_revision s <= st_revision s';
  le_grants : forall m, grant_of s' m = grant_of s m \/ st_revision s < g_revision (grant_of s' m) <= st_revision s';
  le_receipts : receipts s ⊆ receipts s'
}.

(** One change of a store: the owner's, or a remote disable. *)
Inductive store_step (s : Store) : Store -> Prop :=
| step_local m on s' : local_set s m on = Ok s' -> store_step s s'
| step_disable m expected id s' r : disable s m expected id = Ok (s', r) -> store_step s s'.

Lemma local_set_Ok s m on s' :
  local_set s m on = Ok s' <-> st_revision s + 1 <= u64_max
  /\ s' = {| st_revision := st_revision s + 1;
             grants := <[m := {| g_enabled := on; g_revision := st_revision s + 1 |}]> (grants s);
             receipts := receipts s |}.
Proof.
  unfold local_set, u64_checked_add. destruct (_ <=? _) eqn:E; simpl; bool_prop; [|split; [done|lia]].
  split; [by intros [= <-]|by intros [_ ->]].
Qed.

(** The outcomes of a disable, one line each. *)
Lemma disable_Ok s m e id s' r :
  disable s m e id = Ok (s', r) <->
  (1 <= Z.of_nat (String.length id) <= 128) /\
  match receipts s !! id with
  | Some rc => s' = s /\ r = if bool_decide (rc_module rc = m /\ rc_expected_revision rc = e) then Duplicate else Conflict
  | None =>
      if bool_decide (g_revision (grant_of s m) = e) then
        map_len (receipts s) < 100000 /\ st_revision s + 1 <= u64_max /\ r = Disabled
        /\ s' = {| st_revision := st_revision s + 1;
                   grants := <[m := {| g_enabled := false; g_revision := st_revision s + 1 |}]> (grants s);
                   receipts := <[id := {| rc_module := m; rc_expected_revision := e; rc_revision := st_revision s + 1 |}]>
                                 (receipts s) |}
      else s' = s /\ r = Stale
  end.
Proof.
  unfold disable. assert (1 <= Z.of_nat (String.length id) <-> id <> ""%string) as Hid.
  { destruct id; simpl; [split; [lia|done]|split; [done|lia]]. }
  destruct (negb (String.eqb id "") && _) eqn:E.
  2: { split; [done|]. intros [[H1 H2] _]. apply Hid, String.eqb_neq in H1. rewrite H1 in E. simpl in E. bool_prop. lia. }
  bool_prop. apply String.eqb_neq, Hid in H.
  match goal with |- ?P <-> _ /\ ?Q => cut (P <-> Q); [intuition lia|] end.
  destruct (receipts s !! id) as [rc|].
  { case_bool_decide as E1; simpl; [destruct (Z.eqb_spec (rc_expected_revision rc) e)|];
      case_bool_decide as E2; (split; [intros [= <- <-]|intros [-> ->]]); naive_solver. }
  destruct (Z.eqb_spec (g_revision (grant_of s m)) e); case_bool_decide; try done; simpl.
  - destruct (map_len (receipts s) <? 100000) eqn:Hc; bool_prop; [|split; [done|lia]].
    rewrite rbind_Ok. split.
    + intros (s1 & [Hs ->]%local_set_Ok & [= <- <-]). done.
    + intros (_ & Hs & -> & ->). eexists. split; [by apply local_set_Ok|done].
  - split; [by intros [= <- <-]|by intros [-> ->]].
Qed.

Lemma grant_of_insert s m g m' : default Grant_default (<[m := g]> (grants s) !! m') = if bool_decide (m = m') then g else grant_of s m'.
Proof. case_bool_decide as E; [subst; by rewrite lookup_insert_eq|by rewrite lookup_insert_ne]. Qed.

Lemma grant_of_range s m : store_ok s -> 0 <= g_revision (grant_of s m) <= st_revision s.
Proof.
  intros Hok. unfold grant_of. destruct (grants s !! m) as [g|] eqn:E; simpl.
  - apply (so_grants s Hok) in E. lia.
  - destruct (so_revision s Hok). lia.
Qed.

#[export] Instance store_le_preorder : PreOrder store_le.
Proof.
  split.
  - intros s. split; [lia|by left|done].
  - intros s1 s2 s3 [r1 g1 c1] [r2 g2 c2]. split; [lia| |by etrans].
    intros m. destruct (g2 m) as [->|]; [destruct (g1 m) as [->|]; [by left|right; lia]|right; lia].
Qed.

(** ** Steps keep the invariant and the order *)

Lemma bumped_grant s m on m' s' :
  s' = {| st_revision := st_revision s + 1;
          grants := <[m := {| g_enabled := on; g_revision := st_revision s + 1 |}]> (grants s); receipts := receipts s' |} ->
  grant_of s' m' = if bool_decide (m = m') then {| g_enabled := on; g_revision := st_revision s + 1 |} else grant_of s m'.
Proof. intros ->. unfold grant_of at 1. simpl. apply grant_of_insert. Qed.

Lemma bumped_le s s' m on :
  s' = {| st_revision := st_revision s + 1;
          grants := <[m := {| g_enabled := on; g_revision := st_revision s + 1 |}]> (grants s); receipts := receipts s' |} ->
  receipts s ⊆ receipts s' -> store_le s s'.
Proof.
  intros Hs Hr. split; [rewrite Hs; simpl; lia| |done]. intros m'. rewrite (bumped_grant s m on m' s' Hs).
  assert (st_revision s' = st_revision s + 1) as -> by (by rewrite Hs). case_bool_decide; [right; simpl; lia|by left].
Qed.

Lemma local_set_step s m on s' : store_ok s -> local_set s m on = Ok s' -> store_ok s' /\ store_le s s'.
Proof.
  intros Hok [Hmax ->]%local_set_Ok. split; [|by eapply bumped_le].
  pose proof Hok as [Hr Hg Hc Hn]. split; [simpl; lia| |simpl|done].
  - intros m' g. cbn [grants st_revision]. rewrite lookup_insert_Some. intros [[_ <-]|[_ E]]; [simpl; lia|].
    apply Hg in E. lia.
  - intros id r E. destruct (Hc id r E) as [H1 H2]. split; [done|]. rewrite (bumped_grant s m on _ _ eq_refl).
    case_bool_decide; simpl; [|done]. etrans; [exact H2|]. pose proof (grant_of_range s (rc_module r) Hok). lia.
Qed.

Lemma disable_step s m e id s' r : store_ok s -> disable s m e id = Ok (s', r) -> store_ok s' /\ store_le s s'.
Proof.
  intros Hok [_ H]%disable_Ok. case_match; [destruct H as [-> _]; done|]. case_bool_decide; [|by destruct H as [-> _]].
  destruct H as (Hcap & Hmax & -> & ->).
  split; [|eapply bumped_le; [done|]; cbn [receipts]; by apply insert_subseteq].
  destruct (local_set_step s m false _ Hok (proj2 (local_set_Ok s m false _) (conj Hmax eq_refl))) as [[Hr Hg Hc Hn] Hle].
  pose proof (grant_of_range s m Hok). split; [done..| |].
  - intros id' rc. cbn [receipts]. rewrite lookup_insert_Some. intros [[_ <-]|[_ E]].
    + simpl. split; [lia|]. unfold grant_of. simpl. rewrite lookup_insert_eq. simpl. lia.
    + by apply (Hc id' rc).
  - cbn [receipts]. unfold map_len in *. rewrite map_size_insert_None by done. lia.
Qed.

Lemma store_step_le s s' : store_ok s -> store_step s s' -> store_ok s' /\ store_le s s'.
Proof. intros Hok []; [by eapply local_set_step|by eapply disable_step]. Qed.

Lemma store_steps_le s s' : store_ok s -> rtc store_step s s' -> store_ok s' /\ store_le s s'.
Proof.
  intros Hok Hs. revert Hok. induction Hs as [s|s s1 s2 Hst _ IH]; intros Hok; [done|].
  destruct (store_step_le _ _ Hok Hst) as [Hok1 Hle]. destruct (IH Hok1). split; [done|by etrans].
Qed.

Lemma Store_default_ok : store_ok Store_default.
Proof. split; simpl; [done|intros ??; by rewrite lookup_empty|intros ??; by rewrite lookup_empty|done]. Qed.

Lemma matches_spec g s : matches g s = true <-> exists gr, grants s !! gen_module g = Some gr /\ g_enabled gr = true /\ g_revision gr = gen_revision g.
Proof.
  unfold matches, generation_from_state. rewrite bool_decide_eq_true. destruct g as [m z]. simpl.
  destruct (grants s !! m) as [gr|]; simpl; [|by split; [|intros (? & ? & _)]].
  destruct (g_enabled gr) eqn:E; simpl; split.
  - intros [= <-]. by exists gr.
  - by intros (? & [= <-] & _ & <-).
  - done.
  - intros (? & [= <-] & ? & _). congruence.
Qed.

Lemma matches_grant g s : store_ok s -> matches g s = true <-> grant_of s (gen_module g) = {| g_enabled := true; g_revision := gen_revision g |}.
Proof.
  intros Hok. rewrite matches_spec. unfold grant_of. split.
  - intros ([b z] & -> & E1 & E2). simpl in *. by subst.
  - destruct (grants s !! gen_module g) as [gr|]; simpl; [|done]. intros ->. by eexists.
Qed.

(** A generation that does not match no longer comes back, once its revision was used. *)
Lemma matches_never_revived g s s' :
  store_ok s -> store_ok s' -> store_le s s' -> gen_revision g <= st_revision s -> matches g s' = true -> matches g s = true.
Proof.
  intros Hok Hok' [_ Hle _] Hrev Hm. apply matches_grant in Hm; [|done]. apply matches_grant; [done|].
  destruct (Hle (gen_module g)) as [<-|Hgt]; [done|]. rewrite Hm in Hgt. simpl in Hgt. lia.
Qed.

(** ** Reports *)

Lemma wire_report_ok c s : store_ok s -> report_ok (wire_report c s).
Proof.
  intros Hok. split; [done..|by apply (so_revision s)|done|].
  apply Forall_fmap, Forall_forall. intros m _. pose proof (grant_of_range s m Hok). unfold state_ok, compose. simpl.
    destruct (g_enabled (grant_of s m)), (module_available c m); simpl; split_and!; try done; lia.
Qed.

Lemma wire_report_get c s m : store_ok s -> report_get (wire_report c s) m = wire_module c s m.
Proof.
  intros Hok. apply report_get_spec; [by apply wire_report_ok|]. split; [|done].
  apply list_elem_of_fmap_2. destruct m; by apply (bool_decide_unpack _).
Qed.

Lemma wire_parses c s : store_ok s -> parse_report (wire c s) = Ok (wire_report c s).
Proof.
  intros Hok. pose proof (wire_report_ok c s Hok) as Hr. apply parse_report_Ok. exists (wire_report c s).
  rewrite complete_report_id by done. split_and!; [|done..].
  apply decode_report_to_value; [by apply (ok_revision _ Hr)|done|].
  eapply Forall_impl; [exact (ok_states _ Hr)|]. intros x [? _]. pose proof (ok_revision _ Hr). lia.
Qed.

Lemma wire_follows c c' s s' : store_ok s -> store_ok s' -> store_le s s' -> follows (wire_report c' s') (wire_report c s) = true.
Proof.
  intros Hok Hok' [Hle Hg _]. apply follows_spec; [by apply wire_report_ok|]. split; [done|]. intros m.
  rewrite !wire_report_get by done. simpl. pose proof (grant_of_range s m Hok).
  destruct (Hg m) as [->|]; split_and!; try done; lia.
Qed.

(** ** Waiting for workers *)

Lemma drain_wait_ends fuel active now deadline i :
  (exists j, (i <= j < i + fuel)%nat /\ deadline <= now j) ->
  exists k, drain_wait fuel active now deadline i = Some k /\ (i <= k < i + fuel)%nat
  /\ (active k = 0%nat \/ deadline <= now k) /\ (forall j, (i <= j < k)%nat -> (0 < active j)%nat /\ now j < deadline).
Proof.
  revert i. induction fuel as [|fuel IH]; intros i (j & Hj & Hd); [lia|]. simpl.
  destruct (Nat.ltb 0 (active i)) eqn:Ha; simpl; [destruct (now i <? deadline) eqn:Hn|]; bool_prop.
  - apply Nat.ltb_lt in Ha. destruct (IH (S i)) as (k & Hk & Hlt & Hend & Hb).
    { exists j. split; [|done]. destruct (decide (i = j)) as [->|]; lia. }
    exists k. split_and!; [done|lia|lia|done|]. intros j' Hj'. destruct (decide (i = j')) as [<-|]; [done|apply Hb; lia].
  - exists i. split_and!; [done|lia|lia|by right|lia].
  - apply Nat.ltb_ge in Ha. exists i. split_and!; [done|lia|lia|left; lia|lia].
Qed.

(** The leases alive after some [WorkerLease::new] and drops, each drop of a live lease. *)
Inductive leases : list Generation -> Workers -> Prop :=
| leases_none : leases [] ∅
| leases_new held w g : leases held w -> leases (g :: held) (WorkerLease_new w g)
| leases_drop held1 held2 w g : leases (held1 ++ g :: held2) w -> leases (held1 ++ held2) (WorkerLease_drop w g).

Lemma active_new w g g' : active_workers (WorkerLease_new w g) g' = ((if bool_decide (g = g') then 1 else 0) + active_workers w g')%nat.
Proof.
  unfold active_workers, WorkerLease_new. case_bool_decide as E; [subst; by rewrite lookup_insert_eq|by rewrite lookup_insert_ne].
Qed.
Lemma active_drop w g g' : active_workers (WorkerLease_drop w g) g' = (active_workers w g' - (if bool_decide (g = g') then 1 else 0))%nat.
Proof.
  unfold active_workers, WorkerLease_drop. case_bool_decide as E; [subst|].
  - destruct (w !! g') as [n|] eqn:Hw; simpl; [|by rewrite Hw].
    destruct (Nat.eqb_spec (n - 1) 0); [rewrite lookup_delete_eq|rewrite lookup_insert_eq]; simpl; lia.
  - destruct (w !! g) as [n|]; [destruct (Nat.eqb (n - 1) 0)|]; rewrite ?lookup_delete_ne, ?lookup_insert_ne by done; lia.
Qed.
Definition held_count (held : list Generation) (g : Generation) : nat := length (filter (fun x => x = g) held).
Lemma held_count_cons x held g : held_count (x :: held) g = ((if bool_decide (x = g) then 1 else 0) + held_count held g)%nat.
Proof. unfold held_count. rewrite filter_cons. by case_decide; case_bool_decide. Qed.
Lemma held_count_app l k g : held_count (l ++ k) g = (held_count l g + held_count k g)%nat.
Proof. unfold held_count. by rewrite filter_app, length_app. Qed.
Lemma command_worker_drops w g : WorkerLease_drop (WorkerLease_new w g) g = w \/ w !! g = Some 0%nat.
Proof.
  unfold WorkerLease_drop. unfold WorkerLease_new at 1. rewrite lookup_insert_eq. simpl. rewrite Nat.sub_0_r.
  unfold WorkerLease_new. destruct (w !! g) as [[|n]|] eqn:E; simpl; [by right|left|left].
  - rewrite insert_insert_eq. by apply insert_id.
  - by rewrite delete_insert_id.
Qed.

(** ** Properties *)

(** The reports a device sends over the life of its store are always accepted by the server,
    and in order: whatever the owner grants or revokes and whatever remote disables arrive,
    each report parses back to exactly what the store says, and it follows every earlier one,
    even when the clipboard appears or disappears between them. *)
Theorem wire_reports_accepted s s' c c' :
  store_ok s -> rtc store_step s s' ->
  parse_report (wire c' s') = Ok (wire_report c' s') /\ follows (wire_report c' s') (wire_report c s) = true
  /\ forall m, report_get (wire_report c' s') m = wire_module c' s' m.
Proof.
  intros Hok Hs. destruct (store_steps_le s s' Hok Hs) as [Hok' Hle].
  split_and!; [by apply wire_parses|by apply wire_follows|intros m; by apply wire_report_get].
Qed.

(** A store whose owner granted the files (revision 1) and the screen (revision 2). *)
Definition ex_store : Store :=
  {| st_revision := 2; receipts := ∅;
     grants := <[LiveScreen := {| g_enabled := true; g_revision := 2 |}]>
                 {[Files := {| g_enabled := true; g_revision := 1 |}]} |}.
Definition ex_disabled : Store :=
  {| st_revision := 3;
     grants := <[Files := {| g_enabled := false; g_revision := 3 |}]> (grants ex_store);
     receipts := {["111"%string := {| rc_module := Files; rc_expected_revision := 1; rc_revision := 3 |}]} |}.
Lemma ex_store_ok : store_ok ex_store.
Proof.
  split; [done| |intros ??; unfold ex_store; cbn [receipts]; by rewrite lookup_empty|done]. intros m g. unfold ex_store. cbn [grants].
  rewrite lookup_insert_Some, lookup_singleton_Some. intros [[_ <-]|[_ [_ <-]]]; simpl; lia.
Qed.
Lemma ex_disable : disable ex_store Files 1 "111" = Ok (ex_disabled, Disabled).
Proof. vm_compute. reflexivity. Qed.

Lemma wire_reports_accepted_witness :
  rtc store_step ex_store ex_disabled /\ follows (wire_report false ex_disabled) (wire_report true ex_store) = true.
Proof.
  assert (rtc store_step ex_store ex_disabled) as Hs by (eapply rtc_once, step_disable, ex_disable).
  split; [exact Hs|]. exact (proj1 (proj2 (wire_reports_accepted ex_store ex_disabled true false ex_store_ok Hs))).
Defined.

(** C36: a remote disable revokes exactly the generation it names, once and for all: under a fresh
    command id it is stale, and changes nothing, unless the module's grant is at the very revision
    it names; when it applies it turns the module off under a new revision and touches no other
    module; from then on that generation never matches again, whatever the owner grants later,
    and replaying the command answers [Duplicate] (or [Conflict] with other arguments) and
    changes nothing, so neither a late disable nor a late replay ever revokes a later grant. *)
Theorem revocation_is_final s m e id :
  store_ok s -> id <> ""%string -> (String.length id <= 128)%nat ->
  (receipts s !! id = None -> g_revision (grant_of s m) <> e -> disable s m e id = Ok (s, Stale))
  /\ forall s1 s2, disable s m e id = Ok (s1, Disabled) -> rtc store_step s1 s2 ->
     receipts s !! id = None /\ g_revision (grant_of s m) = e
     /\ grant_of s1 m = {| g_enabled := false; g_revision := st_revision s + 1 |}
     /\ (forall m', m' <> m -> grant_of s1 m' = grant_of s m')
     /\ matches {| gen_module := m; gen_revision := e |} s2 = false
     /\ disable s2 m e id = Ok (s2, Duplicate)
     /\ (forall m' e', (m', e') <> (m, e) -> disable s2 m' e' id = Ok (s2, Conflict)).
Proof.
  intros Hok Hne Hlen. split.
  { intros Hr Hg. unfold disable. rewrite Hr. apply String.eqb_neq in Hne. rewrite Hne.
    assert ((Z.of_nat (String.length id) <=? 128) = true) as -> by (apply Z.leb_le; lia). cbn [negb andb].
    apply Z.eqb_neq in Hg. by rewrite Hg. }
  intros s1 s2 Hd Hs. destruct (disable_step _ _ _ _ _ _ Hok Hd) as [Hok1 _].
  destruct (store_steps_le s1 s2 Hok1 Hs) as [Hok2 Hle]. apply disable_Ok in Hd as [Hid Hd].
  destruct (receipts s !! id) eqn:Hrc; [by case_bool_decide; destruct Hd|]. case_bool_decide as He; [|by destruct Hd].
  destruct Hd as (_ & Hmax & _ & Hs1). assert (receipts s2 !! id = Some {| rc_module := m; rc_expected_revision := e; rc_revision := st_revision s + 1 |}) as Hrc2.
  { eapply lookup_weaken; [|exact (le_receipts _ _ Hle)]. rewrite Hs1. apply lookup_insert_eq. }
  assert (forall m', grant_of s1 m' = if bool_decide (m = m') then {| g_enabled := false; g_revision := st_revision s + 1 |} else grant_of s m') as Hg.
  { intros m'. apply bumped_grant. by rewrite Hs1. }
  pose proof (grant_of_range s m Hok). split_and!; [done|exact He|..].
  - by rewrite Hg, bool_decide_true.
  - intros m' Hm. by rewrite Hg, bool_decide_false.
  - destruct (matches _ s2) eqn:Hm; [|done]. apply (matches_never_revived _ s1 s2) in Hm; [|done..|rewrite Hs1; simpl; lia].
    apply matches_grant in Hm; [|done]. simpl in Hm. by rewrite Hg, bool_decide_true in Hm.
  - apply disable_Ok. rewrite Hrc2. split; [done|]. by rewrite bool_decide_true.
  - intros m' e' Hme. apply disable_Ok. rewrite Hrc2. split; [done|]. rewrite bool_decide_false; [done|].
    intros [<- <-]. by destruct Hme.
Qed.

Definition ex_regranted : Store :=
  {| st_revision := 4; grants := <[Files := {| g_enabled := true; g_revision := 4 |}]> (grants ex_disabled); receipts := receipts ex_disabled |}.
Lemma ex_regrant : local_set ex_disabled Files true = Ok ex_regranted.
Proof. vm_compute. reflexivity. Qed.
Lemma ex_fresh : receipts ex_store !! "111"%string = None.
Proof. vm_compute. reflexivity. Qed.
Lemma ex_files_revision : g_revision (grant_of ex_store Files) <> 0.
Proof. vm_compute. discriminate. Qed.

Lemma revocation_is_final_witness :
  disable ex_store Files 0 "111" = Ok (ex_store, Stale)
  /\ disable ex_store Files 1 "111" = Ok (ex_disabled, Disabled)
  /\ disable ex_regranted Files 1 "111" = Ok (ex_regranted, Duplicate).
Proof.
  pose proof (fun e => revocation_is_final ex_store Files e "111" ex_store_ok ltac:(done) ltac:(cbn; lia)) as K.
  split; [exact (proj1 (K 0) ex_fresh ex_files_revision)|]. split; [exact ex_disable|].
  apply (proj2 (K 1) ex_disabled ex_regranted ex_disable). apply rtc_once. exact (step_local _ Files true _ ex_regrant).
Defined.

(** The cases of a remote disable: what the acknowledgment says and what the file holds. *)
Lemma remote_disable_cases c file v outcome :
  let (file', ack) := remote_disable c file v outcome in
  (exists m e id s s' r, module_of_json (idx v "module") = Some m /\ as_u64 (idx v "expected_revision") = Some e
     /\ as_str (idx v "command_id") = Some id /\ read file = Ok s /\ disable s m e id = Ok (s', r)
     /\ outcome = Renamed /\ file' = FileHolds s' /\ ack = disable_ack v (disable_status r) (applied r) (wire c s'))
  \/ (exists e, ack = disable_failed v e /\ (file' = file \/ exists e', outcome = RenamedUnsynced e')).
Proof.
  unfold remote_disable.
  destruct (module_of_json (idx v "module")) as [m|]; simpl; [|right; eexists; split; [done|by left]].
  destruct (as_u64 (idx v "expected_revision")) as [e|]; simpl; [|right; eexists; split; [done|by left]].
  destruct (as_str (idx v "command_id")) as [id|]; simpl; [|right; eexists; split; [done|by left]].
  unfold transaction. destruct (read file) as [s|] eqn:Hr; [|right; eexists; split; [done|by left]].
  destruct (disable s m e id) as [[s' r]|] eqn:Hd; [|right; eexists; split; [done|by left]].
  destruct outcome as [|err|]; [right; eexists; split; [done|by left]| |left].
  - right. eexists. split; [done|]. right. by eexists.
  - by exists m, e, id, s, s', r.
Qed.

Lemma disable_applied s m e id s' r :
  store_ok s -> disable s m e id = Ok (s', r) -> applied r = true ->
  matches {| gen_module := m; gen_revision := e |} s' = false
  /\ exists rc, receipts s' !! id = Some rc /\ rc_module rc = m /\ rc_expected_revision rc = e.
Proof.
  intros Hok Hd Ha. destruct (disable_step _ _ _ _ _ _ Hok Hd) as [Hok' _]. apply disable_Ok in Hd as [_ Hd].
  assert (exists rc, receipts s' !! id = Some rc /\ rc_module rc = m /\ rc_expected_revision rc = e) as Hrc.
  { destruct (receipts s !! id) as [rc|] eqn:E.
    - case_bool_decide as Hb; destruct Hd as [-> ->]; [|done]. by exists rc.
    - case_bool_decide; [|by destruct Hd as [_ ->]]. destruct Hd as (_ & _ & _ & ->). eexists. split; [apply lookup_insert_eq|done]. }
  split; [|done]. destruct Hrc as (rc & Hrc & <- & <-). apply (so_receipts s' Hok') in Hrc as [[_ Hlt] Hle].
  destruct (matches _ s') eqn:Hm; [|done]. apply matches_grant in Hm; [|done]. simpl in Hm. rewrite Hm in Hle. simpl in Hle. lia.
Qed.

(** An acknowledgment claims persistence only for a revocation that is on disk: the file then
    reloads to a store that keeps the command's receipt, in which the revoked generation no
    longer matches, and which the acknowledgment reports; any other acknowledgment is not [ok],
    and leaves what the file reads as unchanged, except when the directory sync failed after
    the rename. *)
Theorem persisted_is_durable c file v outcome :
  (forall s, read file = Ok s -> store_ok s) ->
  let (file', ack) := remote_disable c file v outcome in
  (idx ack "persisted" = JBool true -> exists m e id s' rc,
     module_of_json (idx v "module") = Some m /\ as_u64 (idx v "expected_revision") = Some e
     /\ as_str (idx v "command_id") = Some id /\ load file' = Ok s' /\ store_ok s'
     /\ receipts s' !! id = Some rc /\ rc_module rc = m /\ rc_expected_revision rc = e
     /\ matches {| gen_module := m; gen_revision := e |} s' = false /\ idx ack "state" = wire c s')
  /\ (idx ack "persisted" <> JBool true ->
      idx ack "ok" = JBool false /\ (load file' = load file \/ exists e, outcome = RenamedUnsynced e)).
Proof.
  intros Hfile. pose proof (remote_disable_cases c file v outcome) as H.
  destruct (remote_disable c file v outcome) as [file' ack].
  destruct H as [(m & e & id & s & s' & r & Hm & He & Hid & Hr & Hd & _ & -> & ->)|(e & -> & Hf)].
  - change (idx (disable_ack v (disable_status r) (applied r) (wire c s')) "persisted") with (JBool (applied r)).
    pose proof (Hfile s Hr) as Hok. split.
    + intros [= Ha]. destruct (disable_applied _ _ _ _ _ _ Hok Hd Ha) as (Hmt & rc & Hrc & ? & ?).
      destruct (disable_step _ _ _ _ _ _ Hok Hd) as [Hok' _]. by exists m, e, id, s', rc.
    + intros Ha. split; [simpl; by destruct (applied r)|]. left. apply disable_Ok in Hd as [_ Hd].
      assert (s' = s) as ->.
      { destruct (receipts s !! id); [by destruct Hd|]. case_bool_decide; [|by destruct Hd].
        destruct Hd as (_ & _ & -> & _). by destruct Ha. }
      unfold load, transaction. by rewrite Hr.
  - split; [done|]. intros _. split; [done|]. destruct Hf as [->|]; [by left|by right].
Qed.

Definition ex_request : json :=
  mk_obj [("type", JStr "disable_module"); ("module", JStr "files"); ("expected_revision", JInt 1);
          ("command_id", JStr "111")]%string.
Lemma persisted_is_durable_witness :
  let (file', ack) := remote_disable true (FileHolds ex_store) ex_request Renamed in
  idx ack "persisted" = JBool true /\ exists m e id s' rc,
     module_of_json (idx ex_request "module") = Some m /\ as_u64 (idx ex_request "expected_revision") = Some e
     /\ as_str (idx ex_request "command_id") = Some id /\ load file' = Ok s' /\ store_ok s'
     /\ receipts s' !! id = Some rc /\ rc_module rc = m /\ rc_expected_revision rc = e
     /\ matches {| gen_module := m; gen_revision := e |} s' = false /\ idx ack "state" = wire true s'.
Proof.
  assert (forall s, read (FileHolds ex_store) = Ok s -> store_ok s) as Hf by (intros s [= <-]; exact ex_store_ok).
  pose proof (persisted_is_durable true (FileHolds ex_store) ex_request Renamed Hf) as H1.
  assert (idx (remote_disable true (FileHolds ex_store) ex_request Renamed).2 "persisted" = JBool true) as Hp by (vm_compute; reflexivity).
  destruct (remote_disable _ _ _ _) as [file' ack]. split; [exact Hp|]. exact (proj1 H1 Hp).
Defined.

(** The side conditions of reading a field of an acknowledgment some of whose fields were set. *)
Ltac set_side := first [done | repeat apply set_idx_object; done].

(** C37: a disable is always answered, after at most two seconds of waiting: with polls 20 ms apart
    the loop ends by its 101st test, and before the two seconds only when no worker of the revoked
    generation is left; the answer is the disable's acknowledgment unless that disabled the module, and
    then the same but for the outcome of the wait: how many workers were left when it was read, whether
    that is none, and the status text that says so. *)
Theorem disable_and_wait_answers c file v outcome start workers now :
  (forall i, start + Z.of_nat i * millis 20 <= now i) ->
  exists ack, disable_and_wait c file v outcome start 101 workers now = ((remote_disable c file v outcome).1, Some ack)
  /\ ((ack = (remote_disable c file v outcome).2 /\ str_is (idx ack "status") "disabled" = false)
      \/ exists m k pending, module_of_json (idx v "module") = Some m /\ (k <= 100)%nat
         /\ (forall j, (j < k)%nat -> now j < start + secs 2)
         /\ (let left_at i := active_workers (workers i) {| gen_module := m; gen_revision := default 0 (as_u64 (idx v "expected_revision")) |} in
             (left_at k = 0%nat \/ start + secs 2 <= now k) /\ pending = left_at (S k))
         /\ idx ack "status" = JStr "disabled"
         /\ idx ack "local_workers_pending" = JInt (Z.of_nat pending)
         /\ idx ack "local_registered_workers_stopped" = JBool (bool_decide (pending = 0%nat))
         /\ (pending = 0%nat -> idx ack "stop_status" = JStr "registered_local_workers_drained_global_unconfirmed")
         /\ (pending <> 0%nat -> idx ack "stop_status" = JStr "local_barrier_timeout")
         /\ forall k', k' <> "local_workers_pending"%string -> k' <> "local_registered_workers_stopped"%string -> k' <> "stop_status"%string ->
            idx ack k' = idx (remote_disable c file v outcome).2 k').
Proof.
  intros Hnow. unfold disable_and_wait. pose proof (remote_disable_cases c file v outcome) as H.
  destruct (remote_disable c file v outcome) as [file' ack]. cbn [fst snd].
  destruct (str_is (idx ack "status") "disabled") eqn:Hs; cbn [negb]; [|by exists ack; split; [|left]].
  destruct H as [(m & e & id & s & s' & r & Hm & _ & _ & _ & _ & _ & _ & Hack)|(e & -> & _)]; [|by vm_compute in Hs].
  rewrite Hm. set (g := {| gen_module := m; gen_revision := _ |}).
  destruct (drain_wait_ends 101 (fun i => active_workers (workers i) g) now (start + secs 2) 0) as (k & Hk & Hlt & Hend & Hb).
  { exists 100%nat. split; [lia|]. specialize (Hnow 100%nat). unfold millis, secs in *. lia. }
  rewrite Hk. eexists. split; [done|]. right. exists m, k, (active_workers (workers (S k)) g).
  assert (Ho : is_object ack = true) by (by rewrite Hack).
  assert (Hst : idx ack "status" = JStr "disabled"). { unfold str_is in Hs. destruct (idx ack "status"); try done. by apply String.eqb_eq in Hs as ->. }
  split; [done|]. split; [lia|]. split; [intros j Hj; apply Hb; lia|]. split; [done|]. unfold drained_ack.
  split; [by rewrite !idx_set_idx_ne by set_side|].
  split; [by rewrite 2 idx_set_idx_ne, idx_set_idx_eq by set_side|].
  split; [rewrite idx_set_idx_ne, idx_set_idx_eq by set_side; by case_bool_decide; destruct (Nat.eqb_spec (active_workers (workers (S k)) g) 0)|].
  rewrite idx_set_idx_eq by set_side.
  split; [by intros ->|]. split; [by intros N%Nat.eqb_neq; rewrite N|].
  intros k' N1 N2 N3. by rewrite !idx_set_idx_ne by set_side.
Qed.

Lemma disable_and_wait_answers_witness :
  exists ack, disable_and_wait true (FileHolds ex_store) ex_request Renamed 0 101 (fun _ => ∅) (fun i => Z.of_nat i * millis 20)
              = (FileHolds ex_disabled, Some ack).
Proof.
  destruct (disable_and_wait_answers true (FileHolds ex_store) ex_request Renamed 0 (fun _ => ∅) (fun i => Z.of_nat i * millis 20))
    as (ack & Ha & _); [by intros i|].
  exists ack. exact Ha.
Defined.

(** The worker counts a revocation waits for are exact: after any leases taken and dropped,
    each generation counts precisely the leases still alive, and [command_worker] leaves the
    counts as they were when it refuses. *)
Theorem active_workers_exact held w :
  leases held w ->
  (forall g, active_workers w g = held_count held g)
  /\ (forall g, w !! g <> Some 0%nat)
  /\ (forall file g m e w', command_worker file w g m = (w', Err e) -> w' = w)
  /\ (forall file g m w', command_worker file w g m = (w', Ok tt) ->
      leases (g :: held) w' /\ gen_module g = m /\ exists s, load file = Ok s /\ matches g s = true).
Proof.
  intros Hl. assert (forall g, w !! g <> Some 0%nat) as Hz.
  { induction Hl as [|held w g _ IH|held1 held2 w g _ IH]; intros g'; [done| |].
    - unfold WorkerLease_new. destruct (decide (g = g')) as [<-|]; [by rewrite lookup_insert_eq|rewrite lookup_insert_ne by done; apply IH].
    - unfold WorkerLease_drop. destruct (w !! g) as [n|] eqn:E; [|exact (IH g')].
      destruct (Nat.eqb_spec (n - 1) 0); destruct (decide (g = g')) as [<-|];
        rewrite ?lookup_delete_eq, ?lookup_delete_ne, ?lookup_insert_eq, ?lookup_insert_ne by done; try apply IH; congruence. }
  split_and!; [|done| |].
  - clear Hz. induction Hl as [|held w g _ IH|held1 held2 w g _ IH]; intros g'; [done| |].
    + by rewrite active_new, held_count_cons, IH.
    + rewrite active_drop, IH, !held_count_app, held_count_cons. case_bool_decide; lia.
  - intros file g m e w'. unfold command_worker. case_bool_decide; simpl; [|by intros [= <-]].
    destruct (valid_fresh g file); [done|]. intros [= <-]. by destruct (command_worker_drops w g) as [?|?%Hz].
  - intros file g m w'. unfold command_worker. case_bool_decide; simpl; [|done]. unfold valid_fresh.
    destruct (load file) as [s|] eqn:Hload; [|done]. destruct (matches g s) eqn:Hm; [|done]. intros [= <-].
    split_and!; [by constructor|done|by exists s].
Qed.

Lemma active_workers_exact_witness :
  let g := {| gen_module := Files; gen_revision := 1 |} in
  leases [g] (WorkerLease_new ∅ g) /\ active_workers (WorkerLease_new ∅ g) g = 1%nat.
Proof.
  intros g. assert (leases [g] (WorkerLease_new ∅ g)) as Hl by (repeat constructor). split; [exact Hl|].
  exact (proj1 (active_workers_exact [g] (WorkerLease_new ∅ g) Hl) g).
Defined.
