(* ===== verification/RecallContext.v ===== *)
(** The foreground context of a Recall keyframe: [protocol/src/recall_context.rs] and the agent's
    half, [agent/src/capture/recall_context/mod.rs]. The shared vocabulary and limits, text
    cleaning, building a context around a capture, and re-checking it against the grants. *)
From S2P Require Import Prelude Json Protocol Permissions.

Definition CONTEXT_VERSION : Z := 1.
Definition CONTEXT_SCOPE : string := "session_foreground".
Definition MAX_BRACKET_MS : Z := 1000.
Definition MAX_CONTEXT_BYTES : Z := 4096.
Definition MAX_APP_BYTES : nat := 256.
Definition MAX_TITLE_BYTES : nat := 1024.
Definition BRACKET_BUDGET : Duration := millis 250.

(** ** Wire enums *)

Inductive Status : Type := Observed | Uncertain | StatusUnknown | NotCollected.
Inductive Reason : Type :=
| ModuleDisabled | Revoked | Unsupported | NoForeground | ReadFailed | SampleTimeout | Changed
| IdentityUnverified | NotBrowser | InvalidUrl | InvalidContext.
Inductive Source : Type := Win32 | Hyprland | UiaHwnd | SourceNone.

#[export] Instance Status_eq_dec : EqDecision Status.
Proof. solve_decision. Defined.
#[export] Instance Reason_eq_dec : EqDecision Reason.
Proof. solve_decision. Defined.
#[export] Instance Source_eq_dec : EqDecision Source.
Proof. solve_decision. Defined.

Definition status_str (s : Status) : string :=
  match s with
  | Observed => "observed" | Uncertain => "uncertain" | StatusUnknown => "unknown" | NotCollected => "not_collected"
  end.
Definition reason_str (r : Reason) : string :=
  match r with
  | ModuleDisabled => "module_disabled" | Revoked => "revoked" | Unsupported => "unsupported"
  | NoForeground => "no_foreground" | ReadFailed => "read_failed" | SampleTimeout => "sample_timeout"
  | Changed => "changed" | IdentityUnverified => "identity_unverified" | NotBrowser => "not_browser"
  | InvalidUrl => "invalid_url" | InvalidContext => "invalid_context"
  end.
Definition source_str (s : Source) : string :=
  match s with Win32 => "win32" | Hyprland => "hyprland" | UiaHwnd => "uia_hwnd" | SourceNone => "none" end.
Definition from_wire {A} (str : A -> string) (all : list A) (wire : string) : option A :=
  List.find (fun a => String.eqb (str a) wire) all.
Definition status_from_wire : string -> option Status :=
  from_wire status_str [Observed; Uncertain; StatusUnknown; NotCollected].
Definition reason_from_wire : string -> option Reason :=
  from_wire reason_str [ModuleDisabled; Revoked; Unsupported; NoForeground; ReadFailed; SampleTimeout; Changed;
                        IdentityUnverified; NotBrowser; InvalidUrl; InvalidContext].
Definition source_from_wire : string -> option Source := from_wire source_str [Win32; Hyprland; UiaHwnd; SourceNone].
Definition is_window_source (s : Source) : bool := match s with UiaHwnd => false | _ => true end.
Definition is_browser_source (s : Source) : bool := match s with UiaHwnd | SourceNone => true | _ => false end.

(** ** Contexts *)

Record WindowContext := {
  w_status : Status; w_reason : option Reason; w_source : Source;
  w_app : option string; w_title : option string; w_title_truncated : bool
}.
Record BrowserContext := {
  b_status : Status; b_reason : option Reason; b_source : Source;
  b_url : option string; b_url_host : option string
}.
Record Context := {
  version : Z; scope : string; bracket_ms : Z; monitor_relation : string;
  window : WindowContext; browser : BrowserContext; grant_revisions : gmap Module_ Z
}.

Definition window_empty (s : Status) (r : Reason) : WindowContext :=
  {| w_status := s; w_reason := Some r; w_source := SourceNone; w_app := None; w_title := None; w_title_truncated := false |}.
Definition is_supported (c : Context) : bool :=
  (version c =? CONTEXT_VERSION) && String.eqb (scope c) CONTEXT_SCOPE && (bracket_ms c <=? MAX_BRACKET_MS).
(** What image deduplication compares. *)
Definition signature (c : Context) : option (option string * option string) :=
  if bool_decide (w_status (window c) = Observed) then Some (w_app (window c), w_title (window c)) else None.

(** ** Text cleaning, on UTF-8 bytes *)

(** [char::is_control] is [U+0000..U+001F], [U+007F] and [U+0080..U+009F], the last encoded as the
    byte [C2] and one of [80..9F]. *)
Fixpoint strip_control (s : string) : string :=
  match s with
  | EmptyString => EmptyString
  | String c rest =>
      let n := N_of_ascii c in
      if (n <? 32)%N || (n =? 127)%N then strip_control rest
      else
        match rest with
        | String d tail =>
            if (n =? 194)%N && (128 <=? N_of_ascii d)%N && (N_of_ascii d <? 160)%N then strip_control tail
            else String c (strip_control rest)
        | EmptyString => String c EmptyString
        end
  end.
Definition continuation (c : ascii) : bool := (128 <=? N_of_ascii c)%N && (N_of_ascii c <? 192)%N.
(** [str::is_char_boundary]. *)
Definition is_char_boundary (s : string) (i : nat) : bool :=
  match String.get i s with
  | Some c => negb (continuation c)
  | None => Nat.eqb i (String.length s)
  end.
(** The [while !clean.is_char_boundary(end) { end -= 1 }] loop. *)
Fixpoint floor_boundary (s : string) (i : nat) : nat :=
  if is_char_boundary s i then i else match i with O => O | S i => floor_boundary s i end.
Definition bounded_clean (raw : string) (max : nat) : string * bool :=
  let clean := strip_control raw in
  if (String.length clean <=? max)%nat then (clean, false)
  else (String.substring 0 (floor_boundary clean max) clean, true).
(** [bounded]: an empty text is no text. *)
Definition bounded (raw : string) (cap : nat) : option string * bool :=
  let (text, truncated) := bounded_clean raw cap in
  (if String.eqb text "" then None else Some text, truncated).

(** ** The agent: building and re-checking *)

Record Generations := { window_generation : option Generation; browser_generation : option Generation }.
Definition Generations_default : Generations := {| window_generation := None; browser_generation := None |}.
Definition generations_from_state (s : Store) : Generations :=
  {| window_generation := generation_from_state s WindowActivity;
     browser_generation := generation_from_state s BrowserUrls |}.

Record Snapshot := { identity : string; sn_app : string; sn_title : string; sn_source : Source; sn_title_truncated : bool }.
#[export] Instance Snapshot_eq_dec : EqDecision Snapshot.
Proof. solve_decision. Defined.

(** [snapshot]: the provider [imp] runs only for a current window-activity generation. *)
Definition snapshot (file : StoreFile) (g : option Generation) (imp : result Snapshot Reason) : result Snapshot Reason :=
  if is_some_and g (fun g => bool_decide (gen_module g = WindowActivity) && valid_fresh g file) then imp
  else Err ModuleDisabled.

(** The window component [around] builds from the samples before and after the capture. *)
Definition around_window (before after : result Snapshot Reason) (elapsed : Duration) (g : option Generation) : WindowContext :=
  if negb (isSome g) then window_empty NotCollected ModuleDisabled
  else if BRACKET_BUDGET <? elapsed then window_empty StatusUnknown SampleTimeout
  else
    match before, after with
    | Ok a, Ok b =>
        if bool_decide (a = b) && negb (String.eqb (identity a) "") then
          let (app, app_truncated) := bounded (sn_app a) MAX_APP_BYTES in
          let (title, title_truncated) := bounded (sn_title a) MAX_TITLE_BYTES in
          {| w_status := Observed; w_reason := None; w_source := sn_source a;
             w_app := if app_truncated then None else app; w_title := title;
             w_title_truncated := sn_title_truncated a || title_truncated |}
        else window_empty Uncertain Changed
    | Err Changed, _ | _, Err Changed => window_empty Uncertain Changed
    | Err e, _ | _, Err e => window_empty StatusUnknown e
    end.
Definition browser_placeholder (granted : bool) (refused : Reason) : BrowserContext :=
  {| b_status := if granted then StatusUnknown else NotCollected;
     b_reason := Some (if granted then Unsupported else refused);
     b_source := SourceNone; b_url := None; b_url_host := None |}.
Definition around (before after : result Snapshot Reason) (elapsed : Duration) (gs : Generations) : Context :=
  let w := around_window before after elapsed (window_generation gs) in
  {| version := CONTEXT_VERSION; scope := CONTEXT_SCOPE; bracket_ms := Z.min (as_millis elapsed) MAX_BRACKET_MS;
     monitor_relation := "unknown"; window := w;
     browser := browser_placeholder (isSome (browser_generation gs)) ModuleDisabled;
     grant_revisions :=
       match bool_decide (w_status w = Observed), window_generation gs with
       | true, Some g => {[WindowActivity := gen_revision g]}
       | _, _ => ∅
       end |}.

Definition generation_for (m : Module_) (s : Store) (g : option Generation) : option Generation :=
  ofilter (fun g => bool_decide (gen_module g = m) && matches g s) g.
Definition sanitize_window (w : WindowContext) (valid : option Generation) (claimed : bool) : WindowContext :=
  match valid with
  | None => window_empty NotCollected (if claimed then Revoked else ModuleDisabled)
  | Some _ =>
      if bool_decide (w_status w = Observed) then
        let (app, long) := bounded (default "" (w_app w))%string MAX_APP_BYTES in
        let (title, truncated) := bounded (default "" (w_title w))%string MAX_TITLE_BYTES in
        {| w_status := w_status w; w_reason := w_reason w; w_source := w_source w;
           w_app := if long then None else app; w_title := title;
           w_title_truncated := w_title_truncated w || truncated |}
      else {| w_status := w_status w; w_reason := w_reason w; w_source := w_source w; w_app := None; w_title := None;
              w_title_truncated := w_title_truncated w |}
  end.
(** [sanitize_in]: only the window's grant revision survives the final [retain]. *)
Definition sanitize_in (c : Context) (s : Store) (gs : Generations) : Context :=
  let valid := generation_for WindowActivity s (window_generation gs) in
  {| version := version c; scope := scope c; bracket_ms := bracket_ms c; monitor_relation := "unknown";
     window := sanitize_window (window c) valid (isSome (window_generation gs));
     browser := browser_placeholder (isSome (generation_for BrowserUrls s (browser_generation gs)))
                  (if isSome (browser_generation gs) then Revoked else ModuleDisabled);
     grant_revisions :=
       match valid, bool_decide (w_status (window c) = Observed) with
       | Some g, true => {[WindowActivity := gen_revision g]}
       | _, _ => ∅
       end |}.

(** ** Serde *)

(** A unit variant: its name, or the externally tagged form with a null payload. *)
Definition unit_variant {A} (of_wire : string -> option A) (v : json) : option A :=
  match v with JStr s | JObj [(s, JNull)] => of_wire s | _ => None end.
(** An [Option] field: absent and null read as [None]. *)
Definition option_field {A} (rd : json -> option A) (field : option json) : option (option A) :=
  match field with None | Some JNull => Some None | Some v => Some <$> rd v end.
(** A bool field with [#[serde(default)]]. *)
Definition bool_field (field : option json) : option bool :=
  match field with None => Some false | Some v => as_bool v end.
Definition bounded_int (hi : Z) (v : json) : option Z := z ← as_u64 v; if z <=? hi then Some z else None.

Definition decode_window (v : json) : option WindowContext :=
  fs ← struct_fields false ["status"; "reason"; "source"; "app"; "title"; "title_truncated"]%string v;
  match fs with
  | [st; r; so; a; t; tr] =>
      st ← st ≫= unit_variant status_from_wire; r ← option_field (unit_variant reason_from_wire) r;
      so ← so ≫= unit_variant source_from_wire; a ← option_field as_str a; t ← option_field as_str t; tr ← bool_field tr;
      Some {| w_status := st; w_reason := r; w_source := so; w_app := a; w_title := t; w_title_truncated := tr |}
  | _ => None
  end.
Definition decode_browser (v : json) : option BrowserContext :=
  fs ← struct_fields false ["status"; "reason"; "source"; "url"; "url_host"]%string v;
  match fs with
  | [st; r; so; u; h] =>
      st ← st ≫= unit_variant status_from_wire; r ← option_field (unit_variant reason_from_wire) r;
      so ← so ≫= unit_variant source_from_wire; u ← option_field as_str u; h ← option_field as_str h;
      Some {| b_status := st; b_reason := r; b_source := so; b_url := u; b_url_host := h |}
  | _ => None
  end.
Definition decode_revisions (v : json) : option (gmap Module_ Z) :=
  match v with
  | JObj l => list_to_map <$> mapM (fun kv => m ← module_of_str kv.1; z ← as_u64 kv.2; Some (m, z)) l
  | _ => None
  end.
Definition decode_context (v : json) : option Context :=
  fs ← struct_fields false ["version"; "scope"; "bracket_ms"; "monitor_relation"; "window"; "browser"; "grant_revisions"]%string v;
  match fs with
  | [ve; sc; br; mo; w; b; g] =>
      ve ← ve ≫= bounded_int 255; sc ← sc ≫= as_str; br ← br ≫= bounded_int u32_max; mo ← mo ≫= as_str;
      w ← w ≫= decode_window; b ← b ≫= decode_browser; g ← g ≫= decode_revisions;
      Some {| version := ve; scope := sc; bracket_ms := br; monitor_relation := mo; window := w; browser := b; grant_revisions := g |}
  | _ => None
  end.

Definition opt_value {A} (enc : A -> json) (o : option A) : json := match o with Some a => enc a | None => JNull end.
Definition window_to_value (w : WindowContext) : json :=
  mk_obj ([("status", JStr (status_str (w_status w))); ("reason", opt_value (JStr ∘ reason_str) (w_reason w));
           ("source", JStr (source_str (w_source w))); ("app", opt_value JStr (w_app w)); ("title", opt_value JStr (w_title w))]%string
          ++ if w_title_truncated w then [("title_truncated"%string, JBool true)] else []).
Definition browser_to_value (b : BrowserContext) : json :=
  mk_obj [("status", JStr (status_str (b_status b))); ("reason", opt_value (JStr ∘ reason_str) (b_reason b));
          ("source", JStr (source_str (b_source b))); ("url", opt_value JStr (b_url b)); ("url_host", opt_value JStr (b_url_host b))]%string.
Definition revisions_to_value (g : gmap Module_ Z) : json :=
  mk_obj ((fun kv => (module_str kv.1, JInt kv.2)) <$> map_to_list g).
Definition context_to_value (c : Context) : json :=
  mk_obj [("version", JInt (version c)); ("scope", JStr (scope c)); ("bracket_ms", JInt (bracket_ms c));
          ("monitor_relation", JStr (monitor_relation c)); ("window", window_to_value (window c));
          ("browser", browser_to_value (browser c)); ("grant_revisions", revisions_to_value (grant_revisions c))]%string.

(** ** Lemmas *)

Lemma module_of_str_Some s m : module_of_str s = Some m -> s = module_str m.
Proof. unfold module_of_str. intros [_ E]%List.find_some. by apply String.eqb_eq in E. Qed.
Lemma status_wire s : status_from_wire (status_str s) = Some s.
Proof. by destruct s. Qed.
Lemma reason_wire r : reason_from_wire (reason_str r) = Some r.
Proof. by destruct r. Qed.
Lemma source_wire s : source_from_wire (source_str s) = Some s.
Proof. by destruct s. Qed.

Lemma floor_boundary_le s i : (floor_boundary s i <= i)%nat.
Proof.
  induction i as [|i IH]; simpl; [by case_match|]. case_match; [done|]. lia.
Qed.
Lemma floor_boundary_ok s i : floor_boundary s i = 0%nat \/ is_char_boundary s (floor_boundary s i) = true.
Proof.
  induction i as [|i IH]; simpl; [by case_match; auto|]. destruct (is_char_boundary s (S i)) eqn:E; auto.
Qed.
Lemma floor_boundary_max s i j : (floor_boundary s i < j <= i)%nat -> is_char_boundary s j = false.
Proof.
  induction i as [|i IH]; simpl; [lia|]. destruct (is_char_boundary s (S i)) eqn:E; [lia|].
  intros Hj. destruct (decide (j = S i)) as [->|]; [done|]. apply IH. lia.
Qed.
Lemma substring_length n s : (n <= String.length s)%nat -> String.length (String.substring 0 n s) = n.
Proof. revert n. induction s as [|c s IH]; intros [|n]; simpl; [lia..|]. intros ?. rewrite IH; lia. Qed.
Lemma substring_app n s : exists t, s = (String.substring 0 n s +:+ t)%string.
Proof.
  revert n. induction s as [|c s IH]; intros [|n]; simpl; [by exists ""%string..|by exists (String c s)|].
  destruct (IH n) as [t Ht]. exists t. by rewrite Ht at 1.
Qed.

Lemma bounded_clean_spec raw max text cut :
  bounded_clean raw max = (text, cut) ->
  (String.length text <= max)%nat
  /\ (exists rest, strip_control raw = (text +:+ rest)%string /\ (cut = false -> rest = ""%string))
  /\ (cut = true <-> (max < String.length (strip_control raw))%nat)
  /\ (cut = true -> String.length text = 0%nat \/ is_char_boundary (strip_control raw) (String.length text) = true)
  /\ (forall j, (String.length text < j <= max)%nat -> cut = true -> is_char_boundary (strip_control raw) j = false).
Proof.
  unfold bounded_clean. set (clean := strip_control raw). destruct (String.length clean <=? max)%nat eqn:E; intros [= <- <-].
  - apply Nat.leb_le in E. split_and!; try done; [|split; [done|lia]].
    exists ""%string. split; [|done]. clear. induction clean as [|c s IH]; [done|].
    change (String c s = String c (s +:+ "")%string). by f_equal.
  - apply Nat.leb_gt in E. pose proof (floor_boundary_le clean max) as Hle.
    rewrite substring_length by lia. split_and!; [done| |done|intros _; apply floor_boundary_ok|].
    + destruct (substring_app (floor_boundary clean max) clean) as [t Ht]. by exists t.
    + intros j Hj _. by apply (floor_boundary_max clean max).
Qed.

Lemma bounded_length raw cap text cut : bounded raw cap = (Some text, cut) -> (String.length text <= cap)%nat.
Proof.
  unfold bounded. destruct (bounded_clean raw cap) as [t c] eqn:E. apply bounded_clean_spec in E as [E _].
  destruct (String.eqb t ""); intros [= <- <-]. done.
Qed.

Lemma generation_for_Some m s g g' :
  generation_for m s g = Some g' <-> g = Some g' /\ gen_module g' = m /\ matches g' s = true.
Proof. unfold generation_for. rewrite ofilter_Some, andb_true_iff, bool_decide_eq_true. done. Qed.

(** ** Properties *)

(** A context that leaves the device reveals nothing its current grants do not cover: a window
    app or title only if it was observed and the frame was captured under a window-activity
    generation that still stands, never a browser value; it names no grant revision other than
    that one, its texts fit their byte caps, and a supported envelope stays supported. *)
Theorem sanitized_context_is_fenced c s gs :
  let c' := sanitize_in c s gs in
  (isSome (w_app (window c')) || isSome (w_title (window c')) = true ->
     w_status (window c) = Observed
     /\ exists g, window_generation gs = Some g /\ gen_module g = WindowActivity /\ matches g s = true)
  /\ b_url (browser c') = None /\ b_url_host (browser c') = None
  /\ (forall m r, grant_revisions c' !! m = Some r -> m = WindowActivity /\ matches {| gen_module := m; gen_revision := r |} s = true)
  /\ (forall a, w_app (window c') = Some a -> (String.length a <= MAX_APP_BYTES)%nat)
  /\ (forall t, w_title (window c') = Some t -> (String.length t <= MAX_TITLE_BYTES)%nat)
  /\ is_supported c' = is_supported c.
Proof.
  cbn [sanitize_in window browser grant_revisions]. unfold sanitize_window.
  destruct (generation_for WindowActivity s (window_generation gs)) as [g|] eqn:Hg.
  2: { split_and!; try done; intros m r; by rewrite lookup_empty. }
  apply generation_for_Some in Hg as (Hg & Hm & Hmt). case_bool_decide as Ho.
  2: { split_and!; try done; intros m r; by rewrite lookup_empty. }
  destruct (bounded (default "" (w_app (window c)))%string MAX_APP_BYTES) as [a long] eqn:Ea.
  destruct (bounded (default "" (w_title (window c)))%string MAX_TITLE_BYTES) as [t cut] eqn:Et.
  cbn [w_app w_title window browser_placeholder b_url b_url_host]. split_and!; try done.
  - intros _. split; [done|]. by exists g.
  - intros m r. rewrite lookup_singleton_Some. intros [<- <-]. split; [done|]. destruct g. simpl in *. by subst.
  - intros a' Ha. destruct long; [done|]. subst. by eapply bounded_length.
  - intros t' ->. by eapply bounded_length.
Qed.
