(* ===== verification/Fence.v ===== *)
(** Generation fences on the wire: [agent/src/permissions/fence.rs] and the admission of server
    text frames in [agent/src/connection/ws_client/connection.rs]. Tagging outbound frames,
    admitting server commands, and the last filter before the socket. *)
From S2P Require Import Prelude Json Protocol Permissions RecallContext.

(** ** Bytes *)

Definition HISTORY_FRAME_MAGIC : list Z := [72; 83; 84; 0].
Definition AUDIO_FRAME_MAGIC : list Z := [65; 85; 68; 0].
Definition VGN1 : list Z := [86; 71; 78; 49].

Fixpoint starts_with (b magic : list Z) : bool :=
  match magic, b with
  | [], _ => true
  | x :: magic, y :: b => (x =? y) && starts_with b magic
  | _ :: _, [] => false
  end.
(** [b.get(lo..hi)] and [b.get(lo..)]. *)
Definition slice (b : list Z) (lo hi : nat) : option (list Z) :=
  if (lo <=? hi)%nat && (hi <=? length b)%nat then Some (take (hi - lo) (drop lo b)) else None.
Definition slice_from (b : list Z) (lo : nat) : option (list Z) :=
  if (lo <=? length b)%nat then Some (drop lo b) else None.
(** [(n as u32).to_le_bytes()] and [u32::from_le_bytes]. *)
Definition to_le_bytes (n : Z) : list Z := [n mod 256; n / 256 mod 256; n / 65536 mod 256; n / 16777216 mod 256].
Definition from_le_bytes (b : list Z) : Z :=
  match b with [b0; b1; b2; b3] => b0 + 256 * b1 + 65536 * b2 + 16777216 * b3 | _ => 0 end.

(** ** Generations as values *)

Definition generation_value (g : Generation) : json :=
  mk_obj [("module", module_to_json (gen_module g)); ("revision", JInt (gen_revision g))]%string.
Definition decode_generation (v : json) : option Generation :=
  fs ← struct_fields false ["module"; "revision"]%string v;
  match fs with
  | [m; r] => m ← m ≫= module_of_json; r ← r ≫= as_u64; Some {| gen_module := m; gen_revision := r |}
  | _ => None
  end.

(** [stamp]. *)
Definition stamp (v : json) (g : option Generation) : json :=
  match g with Some g => set_idx v "__module_generation" (generation_value g) | None => v end.

(** ** Admission of server commands *)

Section admission.
Context `{UuidText}.

(** [permissions::command_module]. *)
Definition agent_command_module (kind : string) : option Module_ := module_of (from_kind kind).

Definition command_allowed_in (s : Store) (v : json) : bool :=
  let bound :=
    if isSome (get v "__module_generation") then
      match decode_generation (idx v "__module_generation") with
      | None => false
      | Some g => bool_decide (agent_command_module (kind_of v) = Some (gen_module g)) && matches g s
      end
    else true in
  bound
  && match gate (from_kind (kind_of v)) with
     | GModule m => store_enabled s m
     | GProtocol | GDisableModule => true
     | GDenied => false
     end.

Definition admit_command_in (s : Store) (v : json) : option json :=
  if negb (command_allowed_in s v) then None
  else if isSome (get v "__module_generation") then Some v
  else Some (stamp v (agent_command_module (kind_of v) ≫= generation_from_state s)).
Definition admit_command (file : StoreFile) (v : json) : option json := admit_command_in (load_or_default file) v.

(** [pin_request]: the console session on Windows, nothing elsewhere. *)
Definition pin_request (console : option Z) (v : json) : json :=
  match console with Some id => set_idx v "__clipboard_session" (JInt id) | None => v end.

(** What [admit_text] does with a frame: forward it to the companion, answer it itself, or drop it. *)
Inductive Admission : Type :=
| Forward (v : json)
| ForwardRaw
| AnswerDisable (v : json)
| DropFrame.

(** [admit_text]: [v] is the parsed text, [now_ms] the wall clock. *)
Definition admit_text (file : StoreFile) (console : option Z) (now_ms : Z) (v : option json) : Admission :=
  match v with
  | None => ForwardRaw
  | Some v =>
      if str_is (idx v "type") "disable_module" then AnswerDisable v
      else
        match admit_command file v with
        | None => DropFrame
        | Some v =>
            if str_is (idx v "type") "ClipboardRead" || str_is (idx v "type") "ClipboardWrite"
            then Forward (pin_request console (set_idx v "__clipboard_deadline_ms" (JInt (now_ms + 4000))))
            else Forward v
        end
  end.

(** [ServerCommand::parse] on any value: an internally tagged enum also reads from an array, the
    tag first and then the payload's fields by position, none left over. *)
Definition payload_fields (kind : string) : list string :=
  default [] (assoc_str kind
    [("disable_module", ["module"; "expected_revision"; "command_id"]); ("history_frame_ack", ["uid"; "rejected"; "reason"]);
     ("ClipboardRead", ["request_id"]); ("ClipboardWrite", ["request_id"; "text"]); ("ClipboardCancel", ["request_id"]);
     ("TerminalStart", ["session_id"; "cols"; "rows"]); ("TerminalInput", ["session_id"; "data"]);
     ("TerminalResize", ["session_id"; "cols"; "rows"]); ("TerminalClose", ["session_id"]);
     ("set_auto_update", ["enabled"]); ("set_network_policy", ["blocked"]); ("set_internet_block_rules", ["rules"]);
     ("set_recall_settings", ["settings"]); ("set_app_block_rules", ["rules"]);
     ("start_capture", ["jpeg_quality"; "jpeg_q"; "interval_ms"; "fps"; "monitor"; "monitor_index"]);
     ("ListLogSources", ["request_id"]); ("ReadLogTail", ["request_id"; "kind"; "max_kb"]); ("ListDir", ["path"]);
     ("ReadFile", ["path"]); ("WriteFileChunk", ["path"; "total_chunks"; "chunk_index"; "data"]);
     ("Mkdir", ["request_id"; "path"; "name"]); ("RenamePath", ["request_id"; "src"; "dst"]);
     ("DeletePath", ["request_id"; "path"; "recursive"]); ("CopyPath", ["request_id"; "src"; "dst"]);
     ("RunScript", ["request_id"; "shell"; "script"; "timeout_secs"])]%string).
Definition parse_command (v : json) : ServerCommand :=
  match v with
  | JObj l => parse_fields l
  | JArr (JStr k :: rest) =>
      if (length rest <=? length (payload_fields k))%nat then parse_fields (("type"%string, JStr k) :: zip (payload_fields k) rest)
      else Unknown
  | _ => Unknown
  end.

(** The gate at the head of [handle_server_command], which runs after queues and IPC: a module
    command needs a binding to its own module, and clipboard and disable commands are taken
    before the check against the cached store [s]. *)
Inductive Dispatch : Type :=
| RunCommand (c : ServerCommand) (g : option Generation)
| RunCancel
| RunClipboard (g : option Generation)
| RunDisable
| Refused.
Definition dispatch_command (s : Store) (v : json) : Dispatch :=
  let g := decode_generation (idx v "__module_generation") in
  let command := parse_command v in
  if is_some_and (module_of command) (fun m => is_none_or g (fun g => negb (bool_decide (gen_module g = m)))) then Refused
  else
    match command with
    | ClipboardCancel _ => RunCancel
    | ClipboardRead _ | ClipboardWrite_ _ => RunClipboard g
    | DisableModule_ _ => RunDisable
    | _ => if command_allowed_in s v then RunCommand command g else Refused
    end.
End admission.

(** ** Outbound events *)

Definition event_module (v : json) : option Module_ :=
  let kind := kind_of v in
  let one_of l := existsb (String.eqb kind) l in
  if one_of ["keys"]%string then Some KeyboardText
  else if one_of ["afk"; "active"]%string then Some IdleActivity
  else if one_of ["window_focus"; "app_icon"]%string then Some WindowActivity
  else if one_of ["url"; "url_session"]%string then Some BrowserUrls
  else if one_of ["software_inventory"]%string then Some SoftwareInventory
  else if one_of ["metrics"; "resource_metrics"]%string then Some ResourceMetrics
  else if one_of ["app_block_kill"]%string then Some AppPolicy
  else if one_of ["terminal_output"]%string then Some Terminal
  else if one_of ["script_result"]%string then Some Scripts
  else if one_of ["clipboard_result"]%string then Some Clipboard
  else if one_of ["dir_list"; "file_chunk"; "file_upload_result"; "fs_op_result"]%string then Some Files
  else if one_of ["log_tail"; "log_sources"]%string then Some Logs
  else if one_of ["agent_info"]%string && negb (is_null (idx v "hostname")) then Some SystemInfo
  else None.

(** [session::matches]. *)
Definition session_matches (pinned client : option Z) (active : Z) : bool :=
  negb (active =? 0) && negb (active =? u32_max) && bool_decide (pinned = Some active) && bool_decide (client = Some active).
(** [reply_session_current]: always so off Windows ([console] is [None]); there, the reply's pinned
    session must be the active console session. *)
Definition reply_session_current (console : option Z) (v : json) : bool :=
  match console with
  | None => true
  | Some active =>
      let pinned := ofilter (fun n => n <=? u32_max) (as_u64 (idx v "__clipboard_session")) in
      session_matches pinned pinned active
  end.

(** The part of the filter that looks at one event that is not a batch. *)
Definition event_allowed_in (s : Store) (v : json) : bool :=
  if is_null (idx v "__module_generation") then negb (isSome (event_module v))
  else
    match decode_generation (idx v "__module_generation") with
    | None => false
    | Some g => matches g s && is_none_or (event_module v) (fun m => bool_decide (gen_module g = m))
    end.
Fixpoint outbound_allowed_in (console : option Z) (s : Store) (v : json) {struct v} : bool :=
  if str_is (idx v "type") "clipboard_result" && negb (reply_session_current console v) then false
  else if str_is (idx v "type") "batch" then
    match v with
    | JObj l =>
        (fix events (l : list (string * json)) : bool :=
          match l with
          | [] => false
          | (k, x) :: l =>
              if String.eqb "events" k
              then match x with JArr es => forallb (outbound_allowed_in console s) es | _ => false end
              else events l
          end) l
    | _ => false
    end
  else event_allowed_in s v.

(** [strip] of [prepare_message]: typed text loses its window unless that is current too, and the
    internal fields go, in the message and in its events. *)
Definition window_context_ok (file : StoreFile) (v : json) : bool :=
  is_some_and (decode_generation (idx v "__window_generation"))
    (fun g => bool_decide (gen_module g = WindowActivity) && valid_fresh g file).
Definition clear_window (v : json) : json :=
  foldl (fun v field => set_idx v field (JStr "")) v ["app"; "app_display"; "window"]%string.
Definition strip_fields (v : json) : json :=
  remove_key (remove_key (remove_key v "__module_generation") "__clipboard_session") "__window_generation".
Fixpoint strip (file : StoreFile) (v : json) {struct v} : json :=
  match v with
  | JObj l =>
      let inner :=
        (fix events (l : list (string * json)) : list (string * json) :=
          match l with
          | [] => []
          | (k, x) :: l =>
              (k, if String.eqb k "events" then match x with JArr es => JArr (map (strip file) es) | _ => x end else x) :: events l
          end) l in
      strip_fields (if str_is (idx v "type") "keys" && negb (window_context_ok file v) then clear_window (JObj inner) else JObj inner)
  | _ => v
  end.

(** ** Messages at the last writer *)

Inductive WireMessage : Type :=
| WText (t : list Z)
| WBinary (b : list Z)
| WOther.

Section writer.
Context `{JsonText}.

Definition tag_binary (b : list Z) (g : option Generation) : list Z :=
  match g with
  | None => b
  | Some g =>
      let header := json_print (generation_value g) in
      VGN1 ++ to_le_bytes (Z.of_nat (length header)) ++ header ++ b
  end.
Definition tag_message (m : WireMessage) (g : option Generation) : WireMessage :=
  match m with
  | WText t => WText (json_print (stamp (default JNull (json_parse t)) g))
  | WBinary b => WBinary (tag_binary b g)
  | WOther => WOther
  end.

(** [BinaryFence]: the generation's fields flattened, and the secondary fences of a keyframe. *)
Definition decode_generations (v : json) : option Generations :=
  fs ← struct_fields false ["window_generation"; "browser_generation"]%string v;
  match fs with
  | [w; b] => w ← option_field decode_generation w; b ← option_field decode_generation b;
              Some {| window_generation := w; browser_generation := b |}
  | _ => None
  end.
Definition decode_fence (v : json) : option (Generation * Generations) :=
  match v with
  | JObj l =>
      g ← decode_generation v;
      c ← match fget "context_generations" l with None => Some Generations_default | Some c => decode_generations c end;
      Some (g, c)
  | _ => None
  end.
Definition generations_value (gs : Generations) : json :=
  mk_obj (match window_generation gs with Some g => [("window_generation"%string, generation_value g)] | None => [] end
          ++ match browser_generation gs with Some g => [("browser_generation"%string, generation_value g)] | None => [] end).
Definition tag_recall_binary (b : list Z) (g : option Generation) (gs : Generations) : list Z :=
  match g with
  | None => b
  | Some g =>
      let header := json_print (set_idx (generation_value g) "context_generations" (generations_value gs)) in
      VGN1 ++ to_le_bytes (Z.of_nat (length header)) ++ header ++ b
  end.

Definition payload_module (payload : list Z) : Module_ :=
  if starts_with payload HISTORY_FRAME_MAGIC then Recall
  else if starts_with payload AUDIO_FRAME_MAGIC then LiveAudio
  else LiveScreen.

(** The keyframe rewritten for the wire: its context re-checked, everything else as it was. *)
Definition prepare_recall (payload : list Z) (s : Store) (gs : Generations) : option (list Z) :=
  hlen ← from_le_bytes <$> slice payload 4 8;
  if 1024 * 1024 <? hlen then None
  else
    let hend := (8 + Z.to_nat hlen)%nat in
    header ← slice payload 8 hend ≫= json_parse;
    if negb (is_object header) then None
    else
      let rest := remove_key header "context" in
      let header :=
        match get header "context" ≫= decode_context with
        | Some c => if is_supported c then set_idx rest "context" (context_to_value (sanitize_in c s gs)) else rest
        | None => rest
        end in
      let bytes := json_print header in
      tail ← slice_from payload hend;
      Some (HISTORY_FRAME_MAGIC ++ to_le_bytes (Z.of_nat (length bytes)) ++ bytes ++ tail).

Definition prepare_binary_in (b : list Z) (s : Store) : option (list Z) :=
  n ← Z.to_nat ∘ from_le_bytes <$> slice b 4 8;
  let start := (8 + n)%nat in
  fence ← (slice b 8 start ≫= json_parse) ≫= decode_fence;
  payload ← slice_from b start;
  let m := payload_module payload in
  if negb (bool_decide (gen_module fence.1 = m)) || negb (matches fence.1 s) then None
  else if bool_decide (m = Recall) then prepare_recall payload s fence.2
  else Some payload.

(** The length prefix, the generation in the header and the payload after it ([message_allowed]). *)
Definition binary_allowed (b : list Z) (file : StoreFile) : bool :=
  match slice b 4 8 with
  | None => false
  | Some len =>
      let n := Z.to_nat (from_le_bytes len) in
      match (slice b 8 (8 + n) ≫= json_parse) ≫= decode_generation, slice_from b (8 + n) with
      | Some g, Some payload => bool_decide (gen_module g = payload_module payload) && valid_fresh g file
      | _, _ => false
      end
  end.
Definition message_allowed (console : option Z) (file : StoreFile) (m : WireMessage) : bool :=
  match m with
  | WText t => is_some_and (json_parse t) (outbound_allowed_in console (load_or_default file))
  | WBinary b => starts_with b VGN1 && binary_allowed b file
  | WOther => true
  end.
(** [prepare_message] reads the store twice: [checked] for the filter, [file] for the rewriting. *)
Definition prepare_message (console : option Z) (checked file : StoreFile) (m : WireMessage) : option WireMessage :=
  if negb (message_allowed console checked m) then None
  else
    match m with
    | WText t => v ← json_parse t; Some (WText (json_print (strip file v)))
    | WBinary b =>
        if starts_with b VGN1 then s ← rok (load file); WBinary <$> prepare_binary_in b s
        else Some (WBinary b)
    | WOther => Some WOther
    end.
End writer.

(** ** Lemmas *)

Lemma decode_generation_value g : 0 <= gen_revision g <= u64_max -> decode_generation (generation_value g) = Some g.
Proof.
  destruct g as [m r]. intros Hr%in_range_spec. simpl in Hr.
  unfold decode_generation, generation_value, module_to_json. simpl. rewrite module_of_str_module_str. simpl. by rewrite Hr.
Qed.

Lemma outbound_allowed_in_eq console s v :
  outbound_allowed_in console s v =
  if str_is (idx v "type") "clipboard_result" && negb (reply_session_current console v) then false
  else if str_is (idx v "type") "batch" then
    match get v "events" with Some (JArr es) => forallb (outbound_allowed_in console s) es | _ => false end
  else event_allowed_in s v.
Proof.
  destruct v; try done. cbn [outbound_allowed_in]. destruct (_ && _); [done|]. destruct (str_is _ "batch"); [|done].
  cbn [get]. induction fields as [|[k x] l IH]; [done|]. cbn [fget]. by destruct (String.eqb "events" k).
Qed.

Lemma event_allowed_spec s v m :
  event_allowed_in s v = true -> event_module v = Some m ->
  exists g, decode_generation (idx v "__module_generation") = Some g /\ gen_module g = m /\ matches g s = true.
Proof.
  unfold event_allowed_in. intros Hv Hm. rewrite Hm in Hv. destruct (is_null _); [done|].
  destruct (decode_generation _) as [g|]; [|done]. simpl in Hv. bool_prop. by exists g.
Qed.

(** The events of a message: itself, or those of its batches, nested to any depth. *)
Inductive carries : json -> json -> Prop :=
| carries_self v : str_is (idx v "type") "batch" = false -> carries v v
| carries_batch v es e x : str_is (idx v "type") "batch" = true -> get v "events" = Some (JArr es) -> e ∈ es ->
    carries e x -> carries v x.

Lemma outbound_allowed_carries console s v x :
  outbound_allowed_in console s v = true -> carries v x ->
  event_allowed_in s x = true
  /\ (str_is (idx x "type") "clipboard_result" = true -> reply_session_current console x = true).
Proof.
  intros Hv Hc. induction Hc as [v Hb|v es e x Hb He Hin _ IH]; rewrite outbound_allowed_in_eq, Hb in Hv.
  - destruct (str_is _ "clipboard_result"); simpl in Hv; [|done].
    by destruct (reply_session_current console v).
  - destruct (_ && _); [done|]. rewrite He, forallb_forall in Hv. by apply IH, Hv, list_elem_of_In.
Qed.

Section admission_lemmas.
Context `{UuidText}.

Lemma gate_table k f l l' : (k, f) ∈ command_table -> gate (f l) = gate (f l').
Proof.
  unfold command_table. intros Hin.
  repeat (apply elem_of_cons in Hin as [Heq|Hin]; [injection Heq as -> ->; reflexivity|]).
  by apply not_elem_of_nil in Hin.
Qed.

(** The gate of a command does not depend on its payload. *)
Lemma gate_parse_fields l : gate (parse_fields l) = gate (from_kind (kind_of (JObj l))).
Proof.
  unfold from_kind, parse_fields, kind_of, idx, get. rewrite fget_cons. cbn [String.eqb Ascii.eqb Bool.eqb].
  destruct (fget "type" l) as [[| | | |k| |]|]; try reflexivity.
  cbn [default from_option id as_str]. destruct (assoc_str k command_table) as [f|] eqn:E; [|done].
  eapply gate_table. by apply assoc_str_Some.
Qed.

Lemma agent_command_module_gate k m : agent_command_module k = Some m <-> gate (from_kind k) = GModule m.
Proof. unfold agent_command_module, module_of. destruct (gate _); split; congruence. Qed.

Lemma store_enabled_generation s m : store_enabled s m = isSome (generation_from_state s m).
Proof. unfold store_enabled, generation_from_state. destruct (grants s !! m) as [g|]; simpl; [|done]. by destruct (g_enabled g). Qed.

Lemma generation_from_state_Some s m g : generation_from_state s m = Some g <-> gen_module g = m /\ matches g s = true.
Proof.
  unfold matches. rewrite bool_decide_eq_true. split; [|by intros [<- ?]].
  intros Hg. assert (gen_module g = m) as <-; [|done]. unfold generation_from_state in Hg.
  destruct (ofilter _ _); simpl in Hg; by simplify_eq.
Qed.

Lemma command_allowed_bound s v g :
  get v "__module_generation" = Some g ->
  command_allowed_in s v = true <->
  exists gen, decode_generation g = Some gen /\ gate (from_kind (kind_of v)) = GModule (gen_module gen) /\ matches gen s = true.
Proof.
  intros Hg. unfold command_allowed_in, idx. rewrite Hg. cbn [isSome default from_option id].
  destruct (decode_generation g) as [gen|]; [|by split; [|intros (? & ? & _)]].
  rewrite !andb_true_iff, bool_decide_eq_true, agent_command_module_gate. split.
  - intros [[? ?] _]. by exists gen.
  - intros (gen' & [= <-] & Hgate & Hm). rewrite Hgate. split; [done|]. rewrite store_enabled_generation.
    by rewrite (proj2 (generation_from_state_Some s (gen_module gen) gen) (conj eq_refl Hm)).
Qed.

Lemma gate_not_empty k m : gate (from_kind k) = GModule m -> k <> ""%string.
Proof. by intros Hg ->. Qed.
(** What the device does with each kind of command. *)
Lemma admit_command_cases s v v' :
  admit_command_in s v = Some v' <->
  match get v "__module_generation" with
  | Some x => v' = v /\ exists g, decode_generation x = Some g
              /\ gate (from_kind (kind_of v)) = GModule (gen_module g) /\ matches g s = true
  | None =>
      match gate (from_kind (kind_of v)) with
      | GModule m => exists g, gen_module g = m /\ matches g s = true
                     /\ v' = set_idx v "__module_generation" (generation_value g)
      | GProtocol | GDisableModule => v' = v
      | GDenied => False
      end
  end.
Proof.
  unfold admit_command_in. destruct (get v "__module_generation") as [x|] eqn:Hx; cbn [isSome].
  - pose proof (command_allowed_bound s v x Hx) as Hb. destruct (command_allowed_in s v); cbn [negb].
    + split; [intros [= <-]; split; [done|by apply Hb]|by intros [-> _]].
    + split; [done|]. intros [_ Hg]. by apply Hb in Hg.
  - unfold command_allowed_in. rewrite Hx. cbn [isSome andb].
    destruct (gate (from_kind (kind_of v))) as [m| | |] eqn:Hg; cbn [negb]; [| | |done].
    2,3: unfold agent_command_module, module_of; rewrite Hg; simpl; split; congruence.
    rewrite store_enabled_generation. apply agent_command_module_gate in Hg. rewrite Hg. simpl.
    destruct (generation_from_state s m) as [g|] eqn:E; simpl.
    + apply generation_from_state_Some in E as [Hm Hmt]. split; [intros [= <-]; by exists g|].
      intros (g' & <- & Hg' & ->). f_equal. unfold matches in *. rewrite bool_decide_eq_true in Hg', Hmt. congruence.
    + split; [done|]. intros (g & Hm & Hmt & _).
      rewrite (proj2 (generation_from_state_Some s m g) (conj Hm Hmt)) in E. done.
Qed.

End admission_lemmas.

(** ** Properties *)

Section admission_theorems.
Context `{UuidText}.

(** The device admits a server command exactly when its owner's grants allow it, and binds it
    to a grant before any queue: a command that carries a binding passes unchanged, iff the
    binding decodes, names the module that gates the command, and is the current, enabled
    generation; one without is bound to the current generation of its module, if that is
    enabled; protocol and disable commands pass unbound; everything else is dropped. *)
Theorem admit_command_exact s v v' :
  admit_command_in s v = Some v' <->
  match get v "__module_generation" with
  | Some x => v' = v /\ exists g, decode_generation x = Some g
              /\ gate (from_kind (kind_of v)) = GModule (gen_module g) /\ matches g s = true
  | None =>
      match gate (from_kind (kind_of v)) with
      | GModule m => exists g, gen_module g = m /\ matches g s = true
                     /\ v' = set_idx v "__module_generation" (generation_value g)
      | GProtocol | GDisableModule => v' = v
      | GDenied => False
      end
  end.
Proof. apply admit_command_cases. Qed.

(** After the queues and the companion process, a command still runs only under the grant it
    was bound to: whatever module command is executed carries a binding to its own module that
    is current in the store the check read, so one bound to a generation that was since revoked
    (or granted again) is refused, and so is one without a binding. *)
Theorem dispatch_needs_current_grant s v c g m :
  dispatch_command s v = RunCommand c g -> module_of c = Some m ->
  exists gen, g = Some gen /\ gen_module gen = m /\ matches gen s = true
  /\ decode_generation (idx v "__module_generation") = Some gen.
Proof.
  unfold dispatch_command. set (command := parse_command v).
  destruct (is_some_and _ _) eqn:Hgate; [done|]. intros Hd Hm.
  assert (command = c /\ decode_generation (idx v "__module_generation") = g /\ command_allowed_in s v = true) as (<- & <- & Hal).
  { destruct command; try done; destruct (command_allowed_in s v); by simplify_eq. }
  rewrite is_some_and_false in Hgate. specialize (Hgate m Hm).
  destruct (decode_generation (idx v "__module_generation")) as [gen|] eqn:Hgen; [|done]. simpl in Hgate. bool_prop.
  exists gen. split_and!; [done..| |done].
  unfold idx in Hgen. destruct (get v "__module_generation") as [x|] eqn:Hx; [|done].
  apply (command_allowed_bound s v x Hx) in Hal as (gen' & Hgen' & _ & ?). simpl in Hgen. congruence.
Qed.
End admission_theorems.

(** ** Stripping *)

Lemma get_remove_key_eq v k : obj_wf v -> get (remove_key v k) k = None.
Proof.
  destruct v; try done. simpl. induction fields as [|[k' x] l IH]; simpl; [done|]. rewrite NoDup_cons. intros [Hn Hd].
  destruct (String.eqb_spec k k') as [->|Hne]; [by apply fget_None|]. simpl.
  rewrite (proj2 (String.eqb_neq k k') Hne). by apply IH.
Qed.

Definition strip_events (file : StoreFile) (x : json) : json := match x with JArr es => JArr (map (strip file) es) | _ => x end.
Definition inner (file : StoreFile) (l : list (string * json)) : list (string * json) :=
  map (fun kv => (kv.1, if String.eqb kv.1 "events" then strip_events file kv.2 else kv.2)) l.

Lemma strip_object file l :
  strip file (JObj l) =
  strip_fields (if str_is (idx (JObj l) "type") "keys" && negb (window_context_ok file (JObj l))
                then clear_window (JObj (inner file l)) else JObj (inner file l)).
Proof.
  cbn [strip]. assert (forall l, (fix events (l : list (string * json)) : list (string * json) :=
          match l with
          | [] => []
          | (k, x) :: l => (k, if String.eqb k "events" then match x with JArr es => JArr (map (strip file) es) | _ => x end else x) :: events l
          end) l = inner file l) as ->; [|done].
  intros k. induction k as [|[k x] k' IH]; [done|]. simpl. by rewrite IH.
Qed.

Lemma fget_inner file l k : fget k (inner file l) = if String.eqb k "events" then strip_events file <$> fget k l else fget k l.
Proof.
  induction l as [|[k' x] l IH]; simpl; [by case_match|]. destruct (String.eqb_spec k k') as [->|]; [|done].
  by destruct (String.eqb k' "events").
Qed.

Lemma get_strip_fields v k :
  k <> "__module_generation"%string -> k <> "__clipboard_session"%string -> k <> "__window_generation"%string ->
  get (strip_fields v) k = get v k.
Proof. intros. unfold strip_fields. by rewrite !get_remove_key_ne by congruence. Qed.

Lemma get_clear_window l k :
  get (clear_window (JObj l)) k =
  if existsb (String.eqb k) ["app"; "app_display"; "window"]%string then Some (JStr "") else fget k l.
Proof.
  unfold clear_window. cbn [foldl set_idx get existsb].
  destruct (String.eqb_spec k "app") as [->|]; [by rewrite !fget_finsert_ne, fget_finsert_eq by done|].
  destruct (String.eqb_spec k "app_display") as [->|]; [by rewrite fget_finsert_ne, fget_finsert_eq|].
  destruct (String.eqb_spec k "window") as [->|]; [by rewrite fget_finsert_eq|].
  by rewrite !fget_finsert_ne by congruence.
Qed.

(** The fields of a stripped message other than the internal ones and a cleared window. *)
Definition internal_field (k : string) : bool :=
  existsb (String.eqb k) ["__module_generation"; "__clipboard_session"; "__window_generation"]%string.
Definition window_field (k : string) : bool := existsb (String.eqb k) ["app"; "app_display"; "window"]%string.

Lemma get_strip file v k :
  internal_field k = false ->
  get (strip file v) k =
  if is_object v && str_is (idx v "type") "keys" && negb (window_context_ok file v) && window_field k then Some (JStr "")
  else if String.eqb k "events" then strip_events file <$> get v k else get v k.
Proof.
  intros Hk. unfold internal_field in Hk. cbn [existsb] in Hk. rewrite !orb_false_iff, !String.eqb_neq in Hk.
  destruct Hk as (? & ? & ? & _). destruct v; try (by simpl; case_match). rewrite strip_object.
  rewrite get_strip_fields by done. cbn [is_object andb]. destruct (_ && _); cbn [andb].
  - rewrite get_clear_window. unfold window_field. destruct (existsb _ _); [done|]. apply fget_inner.
  - apply fget_inner.
Qed.

Lemma idx_type_strip file v : idx (strip file v) "type" = idx v "type".
Proof. unfold idx. rewrite get_strip by done. by rewrite andb_false_r. Qed.

Lemma carries_strip file v x : carries v x -> carries (strip file v) (strip file x).
Proof.
  induction 1 as [v Hb|v es e x Hb He Hin _ IH]; [constructor; by rewrite idx_type_strip|].
  apply carries_batch with (es := map (strip file) es) (e := strip file e); [by rewrite idx_type_strip| | |done].
  - rewrite get_strip by done. rewrite andb_false_r. cbn [String.eqb Ascii.eqb Bool.eqb]. by rewrite He.
  - apply list_elem_of_In, in_map. by apply list_elem_of_In.
Qed.

Lemma get_remove_set_ne v k k' x : k <> k' -> get (remove_key (set_idx v k' x) k) k = get (remove_key v k) k.
Proof.
  intros Hne. assert (String.eqb k k' = false) as Hf by by apply String.eqb_neq. destruct v; simpl; try done; [by rewrite Hf; simpl; rewrite Hf|].
  induction fields as [|[k1 x1] l IH]; simpl; [rewrite Hf; simpl; by rewrite Hf|].
  destruct (String.eqb_spec k' k1) as [<-|Hne1]; simpl; [rewrite Hf; simpl; by rewrite Hf|].
  destruct (String.ltb k' k1); simpl; [rewrite Hf; simpl; by rewrite Hf|].
  destruct (String.eqb_spec k k1) as [->|Hne2]; simpl; [by apply fget_finsert_ne|].
  by rewrite (proj2 (String.eqb_neq k k1) Hne2).
Qed.

Lemma get_remove_remove_ne v k k' : k <> k' -> get (remove_key (remove_key v k') k) k = get (remove_key v k) k.
Proof.
  intros Hne. destruct v; simpl; try done. induction fields as [|[k1 x1] l IH]; simpl; [done|].
  destruct (String.eqb_spec k' k1) as [<-|Hne1]; simpl.
  - assert (String.eqb k k' = false) as Hf by by apply String.eqb_neq. simpl. by rewrite Hf; simpl; rewrite Hf.
  - destruct (String.eqb_spec k k1) as [->|Hne2]; simpl; [by apply fget_fremove_ne|].
    by rewrite (proj2 (String.eqb_neq k k1) Hne2).
Qed.

Lemma obj_wf_inner file l : obj_wf (JObj l) -> obj_wf (JObj (inner file l)).
Proof.
  simpl. intros Hl. replace ((inner file l).*1) with (l.*1); [done|]. clear. unfold inner.
  induction l as [|kv l IH]; simpl; [done|]. by f_equal.
Qed.

Lemma strip_internal file v k : obj_wf v -> internal_field k = true -> get (strip file v) k = None.
Proof.
  intros Hwf Hk. destruct v; try done. rewrite strip_object.
  match goal with |- get (strip_fields ?x) _ = _ => set (w := x) end.
  unfold internal_field in Hk. cbn [existsb] in Hk. rewrite !orb_true_iff, !String.eqb_eq in Hk.
  assert (get (remove_key w k) k = None) as Hw.
  { apply obj_wf_inner with (file := file) in Hwf. unfold w. destruct (_ && _); [|by apply get_remove_key_eq].
    unfold clear_window. cbn [foldl].
    rewrite !get_remove_set_ne by (destruct Hk as [->|[->|[->|?]]]; done). by apply get_remove_key_eq. }
  unfold strip_fields. destruct Hk as [->|[->|[->|?]]]; [by rewrite !get_remove_key_ne by done| | |done].
  - by rewrite get_remove_key_ne, get_remove_remove_ne by done.
  - by rewrite !get_remove_remove_ne by done.
Qed.

(** Nothing leaves the device without a current grant: a text message passes the last writer
    only if every event in it, through any nesting of batches, that belongs to a module was
    stamped by a generation of that module that still stands, and every clipboard result is for
    the current console session; what is sent is that message with each event stripped of its
    internal fields, and typed text loses its application and window unless the window
    generation it was read under is current. *)
Theorem outbound_text_is_fenced `{JsonText} console checked file t out :
  prepare_message console checked file (WText t) = Some out ->
  exists v, json_parse t = Some v /\ out = WText (json_print (strip file v))
  /\ forall x, carries v x ->
       carries (strip file v) (strip file x)
       /\ (forall m, event_module x = Some m -> exists g, decode_generation (idx x "__module_generation") = Some g
            /\ gen_module g = m /\ matches g (load_or_default checked) = true)
       /\ (str_is (idx x "type") "clipboard_result" = true -> reply_session_current console x = true)
       /\ (obj_wf x -> forall k, internal_field k = true -> get (strip file x) k = None)
       /\ (is_object x = true -> str_is (idx x "type") "keys" = true -> window_context_ok file x = false ->
            forall k, window_field k = true -> get (strip file x) k = Some (JStr ""))
       /\ (forall k, internal_field k = false -> window_field k = false -> k <> "events"%string -> get (strip file x) k = get x k).
Proof.
  unfold prepare_message, message_allowed. destruct (json_parse t) as [v|] eqn:Hp; [|done]. cbn [is_some_and].
  destruct (outbound_allowed_in _ _ v) eqn:Hv; [|done]. intros [= <-]. exists v. split_and!; [done..|].
  intros x Hc. destruct (outbound_allowed_carries _ _ _ _ Hv Hc) as [He Hs]. split_and!; [by apply carries_strip| |done| | |].
  - intros m. by apply event_allowed_spec.
  - intros Hwf k. by apply strip_internal.
  - intros Ho Hk Hw k Hf. assert (internal_field k = false) as Hi.
    { revert Hf. unfold window_field, internal_field. cbn [existsb]. rewrite !orb_true_iff, !String.eqb_eq.
      by intros [->|[->|[->|?]]]. }
    rewrite get_strip by done. by rewrite Ho, Hk, Hw, Hf.
  - intros k Hi Hf Hne. rewrite get_strip by done. rewrite Hf, andb_false_r.
    by rewrite (proj2 (String.eqb_neq k "events") Hne).
Qed.

Definition ex_event : json :=
  mk_obj [("type", JStr "file_chunk"); ("data", JStr "x"); ("__module_generation", generation_value {| gen_module := Files; gen_revision := 1 |})]%string.
Lemma outbound_text_is_fenced_witness :
  @prepare_message bin_json None (FileHolds ex_store) (FileHolds ex_store) (WText (@json_print bin_json ex_event))
    = Some (WText (@json_print bin_json (mk_obj [("type", JStr "file_chunk"); ("data", JStr "x")]%string)))
  /\ exists v, @json_parse bin_json (@json_print bin_json ex_event) = Some v
     /\ forall m, event_module v = Some m -> exists g, decode_generation (idx v "__module_generation") = Some g
        /\ gen_module g = m /\ matches g ex_store = true.
Proof.
  assert (@prepare_message bin_json None (FileHolds ex_store) (FileHolds ex_store) (WText (@json_print bin_json ex_event))
    = Some (WText (@json_print bin_json (mk_obj [("type", JStr "file_chunk"); ("data", JStr "x")]%string)))) as Hp
    by (vm_compute; reflexivity).
  split; [exact Hp|].
  destruct (@outbound_text_is_fenced bin_json None (FileHolds ex_store) (FileHolds ex_store) _ _ Hp) as (v & Hv & _ & Hx).
  exists v. split; [exact Hv|]. refine (proj1 (proj2 (Hx v _))). constructor.
  assert (@json_parse bin_json (@json_print bin_json ex_event) = Some ex_event) as He by (vm_compute; reflexivity).
  rewrite He in Hv. injection Hv as <-. reflexivity.
Defined.

Lemma dispatch_needs_current_grant_witness :
  let v := mk_obj [("type", JStr "ListDir"); ("path", JStr "/");
                   ("__module_generation", generation_value {| gen_module := Files; gen_revision := 1 |})]%string in
  exists c g, @dispatch_command bin_uuid ex_store v = RunCommand c g /\ @dispatch_command bin_uuid ex_disabled v = Refused
  /\ exists gen, g = Some gen /\ matches gen ex_store = true.
Proof.
  intros v. do 2 eexists. split; [vm_compute; reflexivity|]. split; [vm_compute; reflexivity|].
  destruct (@dispatch_needs_current_grant bin_uuid ex_store v _ _ Files ltac:(vm_compute; reflexivity) eq_refl)
    as (gen & Hg & _ & Hm & _).
  exists gen. split; [exact Hg|exact Hm].
Defined.

(** ** Binary frames *)

Lemma le_bytes_roundtrip n : 0 <= n < 2 ^ 32 -> from_le_bytes (to_le_bytes n) = n.
Proof. intros Hn. unfold from_le_bytes, to_le_bytes. Z.div_mod_to_equations. lia. Qed.

Lemma slice_mid a b c : slice (a ++ b ++ c) (length a) (length a + length b) = Some b.
Proof.
  unfold slice. rewrite !length_app. rewrite (proj2 (Nat.leb_le _ _)) by lia. rewrite (proj2 (Nat.leb_le _ _)) by lia. simpl.
  f_equal. rewrite drop_app_length. replace (length a + length b - length a)%nat with (length b) by lia. apply take_app_length.
Qed.
Lemma slice_from_end a b : slice_from (a ++ b) (length a) = Some b.
Proof.
  unfold slice_from. rewrite length_app, (proj2 (Nat.leb_le _ _)) by lia. by rewrite drop_app_length.
Qed.

(** A frame of a four-byte magic, a length-prefixed header and the rest. *)
Lemma framed_slices magic header rest :
  length magic = 4%nat -> Z.of_nat (length header) < 2 ^ 32 ->
  let b := magic ++ to_le_bytes (Z.of_nat (length header)) ++ header ++ rest in
  from_le_bytes <$> slice b 4 8 = Some (Z.of_nat (length header))
  /\ slice b 8 (8 + length header) = Some header /\ slice_from b (8 + length header) = Some rest.
Proof.
  intros Hm Hl b. set (len := to_le_bytes (Z.of_nat (length header))). assert (length len = 4%nat) as Hlen by done.
  assert (slice b 4 8 = Some len) as ->.
  { pose proof (slice_mid magic len (header ++ rest)) as Hs. by rewrite Hm, Hlen in Hs. }
  split; [change (Some (from_le_bytes (to_le_bytes (Z.of_nat (length header)))) = Some (Z.of_nat (length header)));
           by rewrite le_bytes_roundtrip by lia|]. unfold b. fold len. split.
  - pose proof (slice_mid (magic ++ len) header rest) as Hs. rewrite <- app_assoc, length_app, Hm, Hlen in Hs. exact Hs.
  - pose proof (slice_from_end (magic ++ len ++ header) rest) as Hs. rewrite <- !app_assoc, !length_app, Hm, Hlen in Hs. exact Hs.
Qed.

Section binary.
Context `{JsonText}.

Lemma generation_value_plain g : 0 <= gen_revision g <= u64_max -> json_plain (generation_value g) = true.
Proof.
  intros Hg. unfold generation_value. simpl. rewrite (proj2 (in_range_spec _ _ _)); [done|]. unfold i64_min. lia.
Qed.

Lemma matches_range g s : store_ok s -> matches g s = true -> 0 <= gen_revision g <= u64_max.
Proof.
  intros Hok Hm. apply matches_grant in Hm; [|done]. pose proof (grant_of_range s (gen_module g) Hok) as Hr. rewrite Hm in Hr.
  pose proof (so_revision s Hok). simpl in Hr. lia.
Qed.

(** Header limits: a fence is a few dozen bytes, far below the 4 GiB its length prefix can say. *)
Definition header_fits (v : json) : Prop := Z.of_nat (length (json_print v)) < 2 ^ 32.

Lemma prepare_tagged fence g gs payload s :
  json_plain fence = true -> header_fits fence -> decode_fence fence = Some (g, gs) ->
  prepare_binary_in (VGN1 ++ to_le_bytes (Z.of_nat (length (json_print fence))) ++ json_print fence ++ payload) s =
  if bool_decide (gen_module g = payload_module payload) && matches g s then
    if bool_decide (payload_module payload = Recall) then prepare_recall payload s gs else Some payload
  else None.
Proof.
  intros Hp Hf Hd. destruct (framed_slices VGN1 (json_print fence) payload eq_refl Hf) as (H1 & H2 & H3).
  unfold prepare_binary_in. rewrite option_fmap_compose, H1. cbn [mbind option_bind fmap option_map option_fmap].
  rewrite Nat2Z.id, H2. cbn [mbind option_bind]. rewrite json_parse_print by done. cbn [mbind option_bind].
  rewrite Hd. cbn [mbind option_bind]. rewrite H3. cbn [mbind option_bind fst snd].
  by destruct (bool_decide (gen_module g = payload_module payload)), (matches g s).
Qed.

(** The keyframe header that is sent: the context re-checked, or dropped when it cannot be read. *)
Definition sent_header (s : Store) (gs : Generations) (header : json) : json :=
  let rest := remove_key header "context" in
  match get header "context" ≫= decode_context with
  | Some c => if is_supported c then set_idx rest "context" (context_to_value (sanitize_in c s gs)) else rest
  | None => rest
  end.

Definition gen_typed (g : Generation) : Prop := 0 <= gen_revision g <= u64_max.
Definition gens_typed (gs : Generations) : Prop :=
  (forall g, window_generation gs = Some g -> gen_typed g) /\ (forall g, browser_generation gs = Some g -> gen_typed g).
Definition recall_fence (g : Generation) (gs : Generations) : json :=
  set_idx (generation_value g) "context_generations" (generations_value gs).

Lemma fence_of_generation g : gen_typed g -> decode_fence (generation_value g) = Some (g, Generations_default).
Proof. intros Hg. unfold decode_fence, generation_value. cbn [mk_obj]. fold (generation_value g).
  change (decode_generation (JObj _)) with (decode_generation (generation_value g)). by rewrite decode_generation_value. Qed.

Lemma option_field_generation (o : option Generation) :
  (forall g, o = Some g -> gen_typed g) -> option_field decode_generation (generation_value <$> o) = Some o.
Proof.
  intros Ho. destruct o as [g|]; [|done]. specialize (Ho g eq_refl). cbn [fmap option_fmap option_map option_field].
  change (Some <$> decode_generation (generation_value g) = Some (Some g)). by rewrite decode_generation_value.
Qed.

Lemma decode_generations_value gs : gens_typed gs -> decode_generations (generations_value gs) = Some gs.
Proof.
  destruct gs as [w b]. intros [Hw Hb]. apply option_field_generation in Hw, Hb. unfold decode_generations.
  assert (struct_fields false ["window_generation"; "browser_generation"]%string (generations_value {| window_generation := w; browser_generation := b |})
          = Some [generation_value <$> w; generation_value <$> b]) as -> by by destruct w, b.
  cbn [mbind option_bind]. simpl in Hw, Hb. rewrite Hw. cbn [mbind option_bind]. by rewrite Hb.
Qed.

Lemma fence_of_recall g gs : gen_typed g -> gens_typed gs -> decode_fence (recall_fence g gs) = Some (g, gs).
Proof.
  intros Hg Hgs. unfold decode_fence, recall_fence.
  assert (decode_generation (set_idx (generation_value g) "context_generations" (generations_value gs)) = Some g) as Hd.
  { rewrite <- (decode_generation_value g) by done. reflexivity. }
  cbn [generation_value mk_obj set_idx] in *. rewrite Hd. cbn [mbind option_bind].
  rewrite fget_finsert_eq. by rewrite decode_generations_value.
Qed.

Lemma range_plain z : 0 <= z <= u64_max -> in_range i64_min u64_max z = true.
Proof. intros. apply in_range_spec. unfold i64_min. lia. Qed.

Lemma recall_fence_plain g gs : gen_typed g -> gens_typed gs -> json_plain (recall_fence g gs) = true.
Proof.
  intros Hg [Hw Hb]. pose proof (generation_value_plain g Hg) as Hp.
  assert (json_plain (generations_value gs) = true) as Hq.
  { destruct gs as [[[mw rw]|] [[mb rb]|]]; cbn [window_generation browser_generation] in Hw, Hb; unfold generations_value; simpl;
      rewrite ?range_plain by first [exact (Hw _ eq_refl)|exact (Hb _ eq_refl)]; done. }
  unfold recall_fence. revert Hq. generalize (generations_value gs). intros q Hq. simpl. by rewrite Hq, range_plain.
Qed.
End binary.

Section binary_theorems.
Context `{JsonText}.

Lemma binary_allowed_tagged fence g gs payload file :
  json_plain fence = true -> header_fits fence -> decode_fence fence = Some (g, gs) ->
  binary_allowed (VGN1 ++ to_le_bytes (Z.of_nat (length (json_print fence))) ++ json_print fence ++ payload) file
  = bool_decide (gen_module g = payload_module payload) && valid_fresh g file.
Proof.
  intros Hp Hf Hd. destruct (framed_slices VGN1 (json_print fence) payload eq_refl Hf) as (H1 & H2 & H3).
  unfold binary_allowed. destruct (slice _ 4 8) as [len|]; [|done]. cbn [fmap option_fmap option_map] in H1.
  injection H1 as ->. rewrite Nat2Z.id, H2. cbn [mbind option_bind]. rewrite json_parse_print by done. cbn [mbind option_bind].
  assert (decode_generation fence = Some g) as ->.
  { destruct fence; try done. unfold decode_fence in Hd. apply bind_Some in Hd as (g' & Hg' & Hd).
    apply bind_Some in Hd as (c & _ & Hd). by simplify_eq. }
  by rewrite H3.
Qed.

(** Pixels and sound leave only under their own grant: a live frame tagged at capture comes out of
    the last writer as exactly its payload when its generation belongs to the module its magic
    bytes name and is current both when it is checked and when it is written, and is dropped
    otherwise; a frame without a fence is never sent. *)
Theorem fenced_binary_roundtrip console checked file g payload :
  gen_typed g -> header_fits (generation_value g) -> payload_module payload <> Recall ->
  prepare_message console checked file (WBinary (tag_binary payload (Some g))) =
    (if bool_decide (gen_module g = payload_module payload) && valid_fresh g checked && valid_fresh g file
     then Some (WBinary payload) else None)
  /\ (starts_with payload VGN1 = false -> prepare_message console checked file (WBinary (tag_binary payload None)) = None).
Proof.
  intros Hg Hf Hr. pose proof (generation_value_plain g Hg) as Hp. pose proof (fence_of_generation g Hg) as Hd. split.
  - unfold prepare_message, message_allowed, tag_binary. change (starts_with (VGN1 ++ _) VGN1) with true. cbn [andb].
    rewrite (binary_allowed_tagged _ g Generations_default) by done.
    destruct (bool_decide (gen_module g = _)) eqn:Em; cbn [andb negb]; [|done]. destruct (valid_fresh g checked); [|done]. cbn [negb andb].
    unfold valid_fresh. destruct (load file) as [s|]; [|done]. cbn [rok mbind option_bind].
    rewrite (prepare_tagged _ g Generations_default) by done. rewrite Em. cbn [andb]. destruct (matches g s); [|done].
    by rewrite bool_decide_false.
  - intros Hn. unfold prepare_message, message_allowed, tag_binary. by rewrite Hn.
Qed.

Definition hst_frame (header : json) (jpeg : list Z) : list Z :=
  HISTORY_FRAME_MAGIC ++ to_le_bytes (Z.of_nat (length (json_print header))) ++ json_print header ++ jpeg.

Lemma payload_module_hst header jpeg : payload_module (hst_frame header jpeg) = Recall.
Proof. done. Qed.

Lemma prepare_recall_frame s gs header jpeg :
  json_plain header = true -> is_object header = true -> Z.of_nat (length (json_print header)) <= 1024 * 1024 ->
  prepare_recall (hst_frame header jpeg) s gs = Some (hst_frame (sent_header s gs header) jpeg).
Proof.
  intros Hp Ho Hl. assert (Z.of_nat (length (json_print header)) < 2 ^ 32) as Hl' by lia.
  destruct (framed_slices HISTORY_FRAME_MAGIC (json_print header) jpeg eq_refl Hl') as (H1 & H2 & H3).
  unfold prepare_recall, hst_frame at 1 2 3. rewrite H1. cbn [mbind option_bind].
  rewrite (proj2 (Z.ltb_ge _ _)) by lia. rewrite Nat2Z.id, H2. cbn [mbind option_bind].
  rewrite json_parse_print by done. cbn [mbind option_bind]. rewrite Ho. cbn [negb]. rewrite H3. done.
Qed.

(** A keyframe keeps its pixels and identity and loses what is no longer granted: tagged at
    capture, it is sent iff its recall generation still stands, with the same JPEG bytes and
    every header field but the context unchanged; the context, if it can be read and is of a
    supported version, is the captured one re-checked against the grants at that moment, and
    otherwise it is dropped. *)
Theorem recall_frame_refenced s g gs header jpeg :
  gen_typed g -> gens_typed gs -> header_fits (recall_fence g gs) ->
  json_plain header = true -> is_object header = true -> Z.of_nat (length (json_print header)) <= 1024 * 1024 ->
  prepare_binary_in (tag_recall_binary (hst_frame header jpeg) (Some g) gs) s =
    (if bool_decide (gen_module g = Recall) && matches g s then Some (hst_frame (sent_header s gs header) jpeg) else None)
  /\ (forall k, k <> "context"%string -> get (sent_header s gs header) k = get header k)
  /\ (obj_wf header -> get (sent_header s gs header) "context" =
      context_to_value ∘ (fun c => sanitize_in c s gs) <$> ofilter is_supported (get header "context" ≫= decode_context)).
Proof.
  intros Hg Hgs Hf Hp Ho Hl. split_and!.
  - unfold tag_recall_binary. fold (recall_fence g gs). rewrite (prepare_tagged _ g gs); [|by apply recall_fence_plain|done|by apply fence_of_recall].
    rewrite payload_module_hst. destruct (_ && _); [|done]. by apply prepare_recall_frame.
  - intros k Hk. unfold sent_header. destruct (_ ≫= _) as [c|]; [destruct (is_supported c)|];
      rewrite ?get_set_idx_ne by (try congruence; by destruct header); by apply get_remove_key_ne.
  - intros Hwf. unfold sent_header. destruct (_ ≫= _) as [c|]; simpl; [destruct (is_supported c)|]; simpl.
    + apply get_set_idx_eq. by destruct header.
    + by apply get_remove_key_eq.
    + by apply get_remove_key_eq.
Qed.
End binary_theorems.

Lemma fenced_binary_roundtrip_witness :
  let g := {| gen_module := LiveScreen; gen_revision := 2 |} in
  @prepare_message bin_json None (FileHolds ex_store) (FileHolds ex_store) (WBinary (@tag_binary bin_json [255; 216; 1] (Some g)))
  = Some (WBinary [255; 216; 1]).
Proof.
  intros g.
  refine (eq_trans (proj1 (@fenced_binary_roundtrip bin_json None (FileHolds ex_store) (FileHolds ex_store) g [255; 216; 1] _ _ _)) _).
  - unfold gen_typed, u64_max. simpl. lia.
  - unfold header_fits. vm_compute. reflexivity.
  - done.
  - vm_compute. reflexivity.
Defined.

Definition ex_header : json :=
  mk_obj [("uid", JStr "k1");
          ("context", context_to_value (around (Err ModuleDisabled) (Err ModuleDisabled) 0 Generations_default))]%string.
Lemma recall_frame_refenced_witness :
  let g := {| gen_module := Recall; gen_revision := 2 |} in
  let s := {| st_revision := 2; grants := {[Recall := {| g_enabled := true; g_revision := 2 |}]}; receipts := ∅ |} in
  @prepare_binary_in bin_json (@tag_recall_binary bin_json (@hst_frame bin_json ex_header [1; 2]) (Some g) Generations_default) s
  = Some (@hst_frame bin_json (sent_header s Generations_default ex_header) [1; 2]).
Proof.
  intros g s.
  refine (eq_trans (proj1 (@recall_frame_refenced bin_json s g Generations_default ex_header [1; 2] _ _ _ _ _ _)) _).
  - unfold gen_typed, u64_max. simpl. lia.
  - by split.
  - unfold header_fits. vm_compute. reflexivity.
  - vm_compute. reflexivity.
  - reflexivity.
  - vm_compute. discriminate.
  - vm_compute. reflexivity.
Defined.
