(* ===== verification/Device.v ===== *)
(** The server and the device composed: what the server stamps, the device admits; what the
    device reports and acknowledges, the server accepts. No code of its own: it relates
    [server/src/agents] to [agent/src/permissions] through the values they exchange. *)
From S2P Require Import Prelude Json Protocol Modules Registry State Connection Permissions Fence.

Section device.
Context `{UuidText}.

(** ** Commands *)

Lemma generation_values_agree g : generation_value g = generation_json (gen_module g) (gen_revision g).
Proof. done. Qed.

(** The server's view of a device is a report of an earlier store of that device. *)
Definition reported (r : AgentRegistry) (id : Uuid) (clipboard : bool) (s : Store) : Prop :=
  exists rt, current_runtime r id = Some rt /\ report rt = wire_report clipboard s.

Lemma same_grant_matches s s' m :
  store_ok s -> store_ok s' -> g_enabled (grant_of s m) = true ->
  matches {| gen_module := m; gen_revision := g_revision (grant_of s m) |} s' = true <->
  grant_of s' m = grant_of s m.
Proof.
  intros Hok Hok' He. rewrite matches_grant by done. simpl. destruct (grant_of s m) as [b z]. simpl in *. by subst.
Qed.

(** C35: a command the server authorizes runs on the device under exactly the grant the server
    meant: the command is stamped with the generation of its module's grant in the report, the
    device admits it unchanged as long as its owner left that grant alone, and refuses it from
    the moment the grant changed in any way, even if the module has been granted again since the
    report was sent. *)
Theorem stamped_command_admitted r id clipboard s s' cmd c m :
  store_ok s -> rtc store_step s s' -> reported r id clipboard s ->
  authorize_agent_command r id cmd = Ok c -> gate (from_kind (kind_of cmd)) = GModule m ->
  let g := {| gen_module := m; gen_revision := g_revision (grant_of s m) |} in
  c = stamp cmd (Some g) /\ generation_from_state s m = Some g
  /\ admit_command_in s' c = (if bool_decide (grant_of s' m = grant_of s m) then Some c else None)
  /\ (grant_of s' m <> grant_of s m -> forall s'', rtc store_step s' s'' -> admit_command_in s'' c = None).
Proof.
  intros Hok Hs (rt & Hrt & Hrep) Hauth Hgate g. destruct (store_steps_le s s' Hok Hs) as [Hok' Hle].
  apply authorize_Ok in Hauth as (conn & Hconn & Hg & _ & Ha). unfold authorized_as in Ha. rewrite Hgate in Ha.
  destruct Ha as [[Hm (rt' & Hrt' & Hc)]|(Hn & _)]; [|by rewrite Hrt in Hn]. rewrite Hrt in Hrt'. injection Hrt' as <-.
  rewrite Hrep, wire_report_get in Hc by done. apply module_authorized_spec in Hm as (rt' & Hrt' & Hgr & _).
  rewrite Hrt in Hrt'. injection Hrt' as <-. rewrite Hrep, wire_report_get in Hgr by done.
  unfold granted in Hgr. simpl in Hgr. bool_prop.
  assert (is_object cmd = true) as Ho by (apply kind_of_object; by eapply gate_not_empty).
  assert (kind_of c = kind_of cmd) as Hk by (rewrite Hc; by apply kind_of_set_idx).
  assert (get c "__module_generation" = Some (generation_value g)) as Hget by (rewrite Hc; by rewrite get_set_idx_eq).
  assert (0 <= gen_revision g <= u64_max) as Hrange.
  { pose proof (grant_of_range s m Hok). pose proof (so_revision s Hok). simpl. lia. }
  assert (forall s2, admit_command_in s2 c = if matches g s2 then Some c else None) as Hadmit.
  { intros s2. destruct (admit_command_in s2 c) as [c'|] eqn:E.
    - apply admit_command_cases in E. rewrite Hget in E. destruct E as (-> & g' & Hd & _ & Hmt).
      rewrite decode_generation_value in Hd by done. injection Hd as <-. by rewrite Hmt.
    - destruct (matches g s2) eqn:Hmt; [|done]. pose proof (proj2 (admit_command_cases s2 c c)) as Hx.
      rewrite Hget, Hk in Hx. rewrite <- E. apply Hx. split; [done|].
      exists g. rewrite decode_generation_value by done. by split_and!. }
  pose proof (so_revision s Hok) as Hrev. pose proof (grant_of_range s m Hok) as Hgr.
  split_and!; [done| | |].
  - apply generation_from_state_Some. split; [done|]. by apply same_grant_matches.
  - rewrite Hadmit. case_bool_decide as E.
    + by assert (matches g s' = true) as -> by (by apply same_grant_matches).
    + destruct (matches g s') eqn:Hmt; [|done]. by apply same_grant_matches in Hmt.
  - intros Hne s'' Hs'. destruct (store_steps_le s' s'' Hok' Hs') as [Hok'' Hle'']. rewrite Hadmit.
    destruct (matches g s'') eqn:Hmt; [|done]. apply (matches_never_revived g s' s'') in Hmt; [|done..|pose proof (le_revision _ _ Hle); simpl; lia].
    by apply same_grant_matches in Hmt.
Qed.

(** ** Acknowledgments *)

Lemma decode_ack_get a id m o st t e p x y :
  is_object a = true -> get a "type" = Some (JStr "module_disable_ack") -> get a "command_id" = Some (uuid_json id) ->
  get a "module" = Some (module_to_json m) -> get a "ok" = Some (JBool o) -> get a "status" = Some (JStr st) ->
  get a "state" = t -> (forall w, t = Some w -> is_object w = true) -> get a "error" = JStr <$> e ->
  get a "persisted" = JBool <$> p -> get a "stopped" = JBool <$> x -> get a "stop_status" = JStr <$> y ->
  decode_ack a = Some {| ack_kind := "module_disable_ack"; ack_command_id := id; ack_module := m; ack_ok := o; ack_status := st;
                         ack_state := t; ack_error := e; ack_persisted := default false p; ack_stopped := default false x;
                         ack_stop_status := y |}.
Proof.
  destruct a as [| | | | | |l]; try done. cbn [get]. intros _ H1 H2 H3 H4 H5 H6 Ht H7 H8 H9 H10.
  unfold decode_ack, struct_fields. cbn [andb map mbind option_bind]. rewrite H1, H2, H3, H4, H5, H6, H7, H8, H9, H10.
  cbn [mbind option_bind as_str uuid_json module_to_json module_of_json as_bool]. rewrite parse_uuid_text.
  cbn [mbind option_bind]. rewrite module_of_str_module_str. cbn [mbind option_bind].
  assert (defaulted (nullable (@Some json)) (@None json) t = Some t) as ->.
  { destruct t as [w|]; [|done]. specialize (Ht w eq_refl). by destruct w. }
  by destruct e, p, x, y.
Qed.

(** The command of a request, as [replay_module_disables] sends it. *)
Definition disable_request (req : ModuleDisableRequest) : json :=
  to_value (DisableModule_ (DisableModule_new (dr_module req) (dr_expected_revision req) (dr_command_id req))).

Lemma disable_request_fields req :
  idx (disable_request req) "module" = module_to_json (dr_module req)
  /\ idx (disable_request req) "expected_revision" = JInt (dr_expected_revision req)
  /\ idx (disable_request req) "command_id" = uuid_json (dr_command_id req).
Proof. done. Qed.

(** The two shapes an answer has on the wire: at once, or after waiting for workers. *)
Definition answers (ack answer : json) : Prop :=
  answer = ack \/ str_is (idx ack "status") "disabled" = true /\ exists n, answer = drained_ack ack n.

Lemma get_drained ack n k :
  is_object ack = true ->
  get (drained_ack ack n) k =
  if String.eqb k "stop_status" then Some (JStr (if Nat.eqb n 0 then "registered_local_workers_drained_global_unconfirmed" else "local_barrier_timeout"))
  else if String.eqb k "local_registered_workers_stopped" then Some (JBool (Nat.eqb n 0))
  else if String.eqb k "local_workers_pending" then Some (JInt (Z.of_nat n))
  else get ack k.
Proof.
  destruct ack as [| | | | | |l]; try done. intros _. unfold drained_ack. cbn [set_idx get].
  destruct (String.eqb_spec k "stop_status") as [->|]; [by rewrite fget_finsert_eq|]. rewrite fget_finsert_ne by congruence.
  destruct (String.eqb_spec k "local_registered_workers_stopped") as [->|]; [by rewrite fget_finsert_eq|]. rewrite fget_finsert_ne by congruence.
  destruct (String.eqb_spec k "local_workers_pending") as [->|]; [by rewrite fget_finsert_eq|]. by rewrite fget_finsert_ne by congruence.
Qed.

Lemma decode_answer req st ok w answer :
  is_object w = true -> answers (disable_ack (disable_request req) st ok w) answer ->
  exists status, (String.length status <= 256)%nat /\ decode_ack answer =
    Some {| ack_kind := "module_disable_ack"; ack_command_id := dr_command_id req; ack_module := dr_module req; ack_ok := ok;
            ack_status := st; ack_state := Some w; ack_error := None; ack_persisted := ok; ack_stopped := false;
            ack_stop_status := Some status |}.
Proof.
  intros Hw Ha. set (ack := disable_ack _ _ _ _) in Ha. assert (is_object ack = true) as Ho by done.
  destruct Ha as [->|[_ [n ->]]]; [exists "unconfirmed"%string|exists (if Nat.eqb n 0 then "registered_local_workers_drained_global_unconfirmed" else "local_barrier_timeout")%string];
    (split; [try destruct (Nat.eqb n 0); simpl; lia|]).
  - by apply (decode_ack_get ack _ _ _ _ _ None (Some ok) (Some false)); try done; intros ? [= <-].
  - apply (decode_ack_get _ _ _ _ _ _ None (Some ok) (Some false)); rewrite ?get_drained by done; try done; by intros ? [= <-].
Qed.

Lemma decode_failed req e :
  decode_ack (disable_failed (disable_request req) e) =
    Some {| ack_kind := "module_disable_ack"; ack_command_id := dr_command_id req; ack_module := dr_module req; ack_ok := false;
            ack_status := "error"; ack_state := None; ack_error := Some e; ack_persisted := false; ack_stopped := false;
            ack_stop_status := None |}.
Proof. by apply (decode_ack_get _ _ _ _ _ _ (Some e) None None None). Qed.

(** What a disable leaves behind, as the server's checks see it. *)
Lemma disable_outcome s m e id s' r :
  store_ok s -> disable s m e id = Ok (s', r) ->
  (applied r = true -> e < g_revision (grant_of s' m))
  /\ (r = Disabled -> g_enabled (grant_of s' m) = false)
  /\ (r = Stale -> g_revision (grant_of s' m) <> e).
Proof.
  intros Hok Hd. destruct (disable_step _ _ _ _ _ _ Hok Hd) as [Hok' _]. split.
  - intros Ha. destruct (disable_applied _ _ _ _ _ _ Hok Hd Ha) as (_ & rc & Hrc & <- & <-).
    pose proof (so_receipts s' Hok' _ _ Hrc). lia.
  - apply disable_Ok in Hd as [_ Hd]. destruct (receipts s !! id); [by case_bool_decide; destruct Hd as [_ ->]|].
    case_bool_decide as He; [|by destruct Hd as [-> ->]]. destruct Hd as (_ & _ & -> & ->). split; [|done].
    intros _. rewrite (bumped_grant s m false m _ eq_refl). by rewrite bool_decide_true.
Qed.

Lemma check_ack_answer a req c0 s0 c s' r :
  store_ok s0 -> store_ok s' -> store_le s0 s' ->
  ack_module a = dr_module req -> ack_status a = disable_status r -> ack_ok a = applied r -> ack_persisted a = applied r ->
  ack_stopped a = false -> (String.length (default "unconfirmed" (ack_stop_status a)) <= 256)%nat ->
  ack_state a = Some (wire c s') ->
  (applied r = true -> dr_expected_revision req < g_revision (grant_of s' (dr_module req))) ->
  (r = Disabled -> g_enabled (grant_of s' (dr_module req)) = false) ->
  (r = Stale -> g_revision (grant_of s' (dr_module req)) <> dr_expected_revision req) ->
  check_ack a req (Some (wire_report c0 s0)) = Ok (Some (wire_report c s')).
Proof.
  intros Hok0 Hok' Hle Hm Hst Ho Hp Hx Hl Hw H1 H2 H3. unfold check_ack. rewrite Hm, Hst, Ho, Hp, Hx, Hw, wire_parses by done.
  rewrite bool_decide_true by done. cbn [rbind isSome negb]. rewrite wire_report_get by done. cbn [is_none_or]. rewrite wire_follows by done.
  rewrite (proj2 (Z.leb_le _ 256)) by lia. rewrite orb_true_r.
  destruct r; cbn [applied disable_status wire_module ms_revision enabled authorization_required];
    change (bool_decide (Duplicate = Disabled)) with false in *; cbn -[Z.ltb Z.eqb wire_report grant_of module_available] in *.
  - rewrite (proj2 (Z.ltb_lt _ _)) by auto. by rewrite H2.
  - rewrite (proj2 (Z.ltb_lt _ _)) by auto. done.
  - rewrite (proj2 (Z.eqb_neq _ _)) by auto. done.
  - done.
Qed.

(** The server accepts every answer of the device to a disable it requested: given any earlier
    report the server holds, the answer decodes to the request's command id and passes all its
    checks, whatever the outcome (revoked, replayed, stale, conflicting, failed, or waited for
    workers); an answer that says [ok] moves the server to the report of the store on disk, in
    which the generation the request named no longer matches. *)
Theorem disable_answer_accepted clipboard clipboard0 s0 file req outcome :
  store_ok s0 -> (forall s, read file = Ok s -> store_ok s /\ store_le s0 s) ->
  let (file', ack) := remote_disable clipboard file (disable_request req) outcome in
  forall answer, answers ack answer ->
  exists a rep, decode_ack answer = Some a /\ ack_kind a = "module_disable_ack"%string /\ ack_command_id a = dr_command_id req
  /\ check_ack a req (Some (wire_report clipboard0 s0)) = Ok rep
  /\ (ack_ok a = true -> exists s', load file' = Ok s' /\ store_le s0 s' /\ rep = Some (wire_report clipboard s')
       /\ matches {| gen_module := dr_module req; gen_revision := dr_expected_revision req |} s' = false).
Proof.
  intros Hok0 Hfile. pose proof (remote_disable_cases clipboard file (disable_request req) outcome) as Hc.
  destruct (remote_disable clipboard file (disable_request req) outcome) as [file' ack]. intros answer Ha.
  destruct (disable_request_fields req) as (Fm & Fe & Fi). rewrite Fm, Fe, Fi in Hc.
  destruct Hc as [(m & e & id & s & s' & r & Hm & He & Hid & Hr & Hd & _ & -> & ->)|(e & -> & _)].
  - unfold module_to_json in Hm. cbn [module_of_json] in Hm. rewrite module_of_str_module_str in Hm. injection Hm as <-.
    apply as_u64_Some in He as [[= <-] _]. destruct (Hfile s Hr) as [Hok Hle].
    destruct (disable_step _ _ _ _ _ _ Hok Hd) as [Hok' Hle']. destruct (disable_outcome _ _ _ _ _ _ Hok Hd) as (H1 & H2 & H3).
    destruct (decode_answer req (disable_status r) (applied r) (wire clipboard s') answer eq_refl Ha) as (st & Hst & Hdec).
    assert (store_le s0 s') as Hle0 by by etrans.
    eexists _, _. split_and!; [exact Hdec|done..|by eapply check_ack_answer|]. simpl. intros Hap.
    exists s'. split_and!; [done..|]. by apply (disable_applied _ _ _ _ _ _ Hok Hd Hap).
  - destruct Ha as [->|[Hs _]]; [|done]. eexists _, _. split_and!; [apply decode_failed|done..| |done].
    unfold check_ack. cbn [ack_module ack_status ack_ok ack_persisted ack_stopped ack_stop_status ack_state]. by rewrite bool_decide_true.
Qed.

End device.

(** ** Examples *)

Definition ex_device : AgentRegistry :=
  {| connections := {[ 7%N := {| conn_id := 70%N; connected_at := 0; session_id := 1; legacy_policy_delivery := false |} ]};
     cmds := {[ 7%N := 70%N ]};
     modules := {[ 7%N := {| rm_conn_id := 70%N; report := wire_report true ex_store; pending := ∅; sent := ∅; last_sent := ∅ |} ]};
     live := ∅;
     sockets := {[ 70%N := {| shutdown := None; queue := [] |} ]} |}.

Lemma stamped_command_admitted_witness :
  let cmd := mk_obj [("type", JStr "ListDir"); ("path", JStr "/")]%string in
  exists c, @authorize_agent_command bin_uuid ex_device 7%N cmd = Ok c
  /\ @admit_command_in bin_uuid ex_store c = Some c /\ @admit_command_in bin_uuid ex_disabled c = None.
Proof.
  intros cmd. eexists. split; [vm_compute; reflexivity|].
  assert (reported ex_device 7%N true ex_store) as Hrep.
  { unfold reported. eexists. split; [vm_compute; reflexivity|reflexivity]. }
  split.
  - refine (proj1 (proj2 (proj2 (@stamped_command_admitted bin_uuid ex_device 7%N true ex_store ex_store cmd _ Files ex_store_ok _ Hrep _ _))));
      [reflexivity|vm_compute; reflexivity|vm_compute; reflexivity].
  - refine (proj1 (proj2 (proj2 (@stamped_command_admitted bin_uuid ex_device 7%N true ex_store ex_disabled cmd _ Files ex_store_ok _ Hrep _ _))));
      [eapply rtc_once, step_disable, ex_disable|vm_compute; reflexivity|vm_compute; reflexivity].
Defined.

Lemma disable_answer_accepted_witness :
  let req := {| dr_command_id := 7%N; dr_agent_id := 7%N; dr_module := Files; dr_expected_revision := 1; dr_pending := true |} in
  let '(file', ack) := remote_disable true (FileHolds ex_store) (@disable_request bin_uuid req) Renamed in
  exists a rep, @decode_ack bin_uuid ack = Some a /\ ack_ok a = true
  /\ check_ack a req (Some (wire_report true ex_store)) = Ok rep.
Proof.
  intros req. assert (forall s, read (FileHolds ex_store) = Ok s -> store_ok s /\ store_le ex_store s) as Hf.
  { intros s [= <-]. split; [exact ex_store_ok|reflexivity]. }
  pose proof (@disable_answer_accepted bin_uuid true true ex_store (FileHolds ex_store) req Renamed ex_store_ok Hf) as Hd.
  assert (forall a, @decode_ack bin_uuid (remote_disable true (FileHolds ex_store) (@disable_request bin_uuid req) Renamed).2 = Some a -> ack_ok a = true) as Hok.
  { intros a. vm_compute. by intros [= <-]. }
  destruct (remote_disable _ _ _ _) as [file' ack]. destruct (Hd ack (or_introl eq_refl)) as (a & rep & Ha & _ & _ & Hc & _).
  exists a, rep. split; [exact Ha|]. split; [exact (Hok a Ha)|exact Hc].
Defined.
