(* ===== verification/Keyframes.v ===== *)
(** The server's half of a Recall keyframe: [server/src/recall/context.rs], which rebuilds the
    foreground context from what the agent sent and what it is granted now, and the framing and
    checks of [server/src/agent_ws/history_ingest.rs]. *)
From S2P Require Import Prelude Text Json Protocol Sessions Modules Registry Permissions RecallContext Fence.

(** ** Hosts *)

(** [idna::domain_to_ascii], and [url::Url::parse] of [https://host/] with its [host_str]: the two
    crates the host check calls. *)
Class HostText := { domain_to_ascii : string -> option string; https_host : string -> option string }.

Definition is_control (s : string) : bool := negb (String.eqb (strip_control s) s).
Definition alnum_or_hyphen (c : ascii) : bool :=
  let n := N_of_ascii c in
  ((48 <=? n) && (n <=? 57) || (65 <=? n) && (n <=? 90) || (97 <=? n) && (n <=? 122) || (n =? 45))%N.
Definition bad_label (l : string) : bool :=
  String.eqb l "" || (63 <? String.length l)%nat || starts_with_char "-" l || ends_with_char "-" l || negb (all_char alnum_or_hyphen l).
(** [trim_end_matches('.')]. *)
Fixpoint trim_dots (s : string) : string :=
  match s with
  | EmptyString => EmptyString
  | String c r => if all_char (Ascii.eqb ".") s then EmptyString else String c (trim_dots r)
  end.

Definition forbidden_host_char : ascii -> bool := char_in "/:?#@\%[]".

Section hosts.
Context `{HostText}.
Definition normalize_host (raw : string) : result string string :=
  if String.eqb raw "" || (1024 <? String.length raw)%nat || negb (String.eqb (trim raw) raw) || is_control raw
  then Err "invalid url_host"%string
  else
    let ip := default raw (strip_first "[" raw ≫= strip_last "]") in
    match parse_ip ip with
    | Some ip => Ok (ip_to_string ip)
    | None =>
        if any_char forbidden_host_char raw || any_ws raw
        then Err "url_host must be a host literal without scheme, path or port"%string
        else
          let* host := ok_or (domain_to_ascii (default raw (strip_last "." raw))) "invalid url_host"%string in
          let host := to_ascii_lowercase host in
          if String.eqb host "" || (253 <? String.length host)%nat || existsb bad_label (split_on "." host)
          then Err "invalid url_host"%string
          else
            let* url := ok_or (https_host host) "invalid url_host"%string in
            Ok (trim_dots url)
    end.
End hosts.

(** ** Components *)

Definition empty_component (reason : Reason) (status : Status) (browser : bool) : json :=
  if browser then
    mk_obj [("status", JStr (status_str status)); ("reason", JStr (reason_str reason)); ("source", JStr "none");
            ("url", JNull); ("url_host", JNull)]%string
  else
    mk_obj [("status", JStr (status_str status)); ("reason", JStr (reason_str reason)); ("source", JStr "none");
            ("app", JNull); ("title", JNull)]%string.
Definition component_keys (browser : bool) : list string :=
  if browser then ["status"; "reason"; "source"; "url"; "url_host"]%string
  else ["status"; "reason"; "source"; "app"; "title"; "title_truncated"]%string.
Definition known_keys (v : json) (names : list string) : bool := forallb (fun k => existsb (String.eqb k) names) (obj_keys v).
Definition null_or (f : json -> bool) (o : option json) : bool := is_none_or o (fun v => is_null v || f v).

(** [component]'s shape checks: the status and source, when all pass. *)
Definition component_shape (c : json) (browser : bool) : option (Status * Source) :=
  let reason := as_str (idx c "reason") in
  let valid_reason := is_some_and (get c "reason") is_null || is_some_and reason (fun r => isSome (reason_from_wire r)) in
  let valid_values :=
    if browser then null_or (fun _ => false) (get c "url") && null_or is_string (get c "url_host")
    else null_or is_string (get c "app") && null_or is_string (get c "title") && is_none_or (get c "title_truncated") is_boolean in
  match as_str (idx c "status") ≫= status_from_wire, as_str (idx c "source") ≫= source_from_wire with
  | Some status, Some source =>
      if known_keys c (component_keys browser) && valid_reason
         && (if browser then is_browser_source source else is_window_source source) && valid_values
         && negb (bool_decide (status = Observed) && (bool_decide (source = SourceNone) || isSome reason))
      then Some (status, source) else None
  | _, _ => None
  end.

Definition path_char : ascii -> bool := char_in "/\".
(** The app of an observed window: cleaned, whole, and no path. *)
Definition clean_app (s : string) : option string :=
  let (s, long) := bounded_clean s MAX_APP_BYTES in
  if negb long && negb (String.eqb s "") && negb (any_char path_char s) then Some s else None.
Definition observed_window (c : json) (source : Source) : json :=
  let app := as_str (idx c "app") ≫= clean_app in
  let title := (fun s => bounded_clean s MAX_TITLE_BYTES) <$> as_str (idx c "title") in
  let truncated := default false (as_bool (idx c "title_truncated")) || is_some_and title snd in
  let out := mk_obj [("status", JStr "observed"); ("reason", JNull); ("source", JStr (source_str source));
                     ("app", opt_value JStr app);
                     ("title", opt_value JStr (ofilter (fun s => negb (String.eqb s "")) (fst <$> title)))]%string in
  if truncated then set_idx out "title_truncated" (JBool true) else out.
(** A component that was not observed may carry no values. *)
Definition unobserved (c : json) (status : Status) (source : Source) (browser : bool) : json :=
  if (if browser then negb (is_null (idx c "url_host")) else negb (is_null (idx c "app")) || negb (is_null (idx c "title")))
  then empty_component InvalidContext StatusUnknown browser
  else if browser then
    mk_obj [("status", JStr (status_str status)); ("reason", idx c "reason"); ("source", JStr (source_str source));
            ("url", JNull); ("url_host", JNull)]%string
  else
    mk_obj [("status", JStr (status_str status)); ("reason", idx c "reason"); ("source", JStr (source_str source));
            ("app", JNull); ("title", JNull)]%string.

Section component.
Context `{HostText}.
Definition observed_browser (c : json) (source : Source) : json :=
  let observed host :=
    mk_obj [("status", JStr "observed"); ("reason", JNull); ("source", JStr (source_str source)); ("url", JNull);
            ("url_host", opt_value JStr host)]%string in
  match normalize_host <$> as_str (idx c "url_host") with
  | None => observed None
  | Some (Ok host) => observed (Some host)
  | Some (Err _) => empty_component InvalidUrl StatusUnknown true
  end.
Definition component (raw : option json) (browser : bool) (revision current : option Z) : json :=
  match ofilter is_object raw with
  | None => empty_component InvalidContext StatusUnknown browser
  | Some c =>
      match component_shape c browser with
      | None => empty_component InvalidContext StatusUnknown browser
      | Some (status, source) =>
          if negb (bool_decide (status = Observed)) then unobserved c status source browser
          else if negb (isSome revision) || negb (bool_decide (revision = current)) then empty_component Revoked NotCollected browser
          else if browser then observed_browser c source
          else observed_window c source
      end
  end.

(** ** The envelope *)

Record Metadata := {
  m_context : option json; m_duration_ms : option Z; m_app : option string; m_title : option string; m_host : option string
}.
Definition MONITOR_RELATIONS : list string := ["unknown"; "same"; "other"]%string.
Definition context_keys : list string :=
  ["version"; "scope"; "bracket_ms"; "monitor_relation"; "window"; "browser"; "grant_revisions"]%string.

Context `{JsonText}.
Definition context_fits (v : json) : bool := Z.of_nat (length (json_print v)) <=? MAX_CONTEXT_BYTES.
Definition envelope_ok (c : json) : bool :=
  context_fits c && bool_decide (as_u64 (idx c "version") = Some CONTEXT_VERSION)
  && bool_decide (as_str (idx c "scope") = Some CONTEXT_SCOPE)
  && is_some_and (as_u64 (idx c "bracket_ms")) (fun n => n <=? MAX_BRACKET_MS)
  && is_some_and (as_str (idx c "monitor_relation")) (fun r => existsb (String.eqb r) MONITOR_RELATIONS)
  && known_keys c context_keys.
Definition granted_revision (c : json) (m : string) : option Z := as_u64 (idx (idx c "grant_revisions") m).
Definition stored_context (c window browser : json) : json :=
  mk_obj [("version", JInt 1); ("scope", JStr "session_foreground"); ("bracket_ms", idx c "bracket_ms");
          ("monitor_relation", idx c "monitor_relation"); ("window", window); ("browser", browser)]%string.
Definition sanitize (header : json) (window_revision browser_revision : option Z) : Metadata :=
  let duration := ofilter (fun v => v <=? 1000) (as_u64 (idx header "capture_duration_ms")) in
  let none := {| m_context := None; m_duration_ms := duration; m_app := None; m_title := None; m_host := None |} in
  match ofilter is_object (get header "context") with
  | None => none
  | Some c =>
      if negb (envelope_ok c) then none
      else
        let window := component (get c "window") false (granted_revision c "window_activity") window_revision in
        let browser := component (get c "browser") true (granted_revision c "browser_urls") browser_revision in
        {| m_context := Some (stored_context c window browser); m_duration_ms := duration;
           m_app := to_ascii_lowercase <$> as_str (idx window "app"); m_title := as_str (idx window "title");
           m_host := as_str (idx browser "url_host") |}
  end.
End component.

(** ** Lemmas *)

(** Every [C2] byte is followed by the continuation of its character, as in all UTF-8 text. *)
Fixpoint lead_ok (s : string) : bool :=
  match s with
  | EmptyString => true
  | String c rest =>
      (if (N_of_ascii c =? 194)%N then match rest with String d _ => continues d | EmptyString => false end else true) && lead_ok rest
  end.
Definition no_control (s : string) : Prop := strip_control s = s.

Lemma strip_control_length s : (String.length (strip_control s) <= String.length s)%nat.
Proof.
  assert (forall n s, (String.length s <= n)%nat -> (String.length (strip_control s) <= String.length s)%nat) as G; [|by eapply G].
  clear s. induction n as [|n IH]; intros [|c s] Hn; cbn [strip_control String.length] in *; [done|lia|done|].
  destruct (_ || _); [specialize (IH s); lia|]. destruct s as [|d s]; [done|]. cbn [String.length] in *.
  destruct (_ && _); [specialize (IH s); lia|]. specialize (IH (String d s)). cbn [String.length] in *. lia.
Qed.

(** A head that is kept, and what follows it. *)
Definition kept (c : ascii) (rest : string) : bool :=
  negb ((N_of_ascii c <? 32)%N || (N_of_ascii c =? 127)%N)
  && match rest with String d _ => negb ((N_of_ascii c =? 194)%N && (128 <=? N_of_ascii d)%N && (N_of_ascii d <? 160)%N) | EmptyString => true end.
Lemma strip_control_kept c s : kept c s = true -> strip_control (String c s) = String c (strip_control s).
Proof.
  unfold kept. rewrite andb_true_iff. intros [H1 H2]. apply negb_true_iff in H1. cbn [strip_control]. rewrite H1.
  destruct s as [|d s]; [done|]. apply negb_true_iff in H2. by rewrite H2.
Qed.
Lemma strip_control_dropped c s : kept c s = false -> (String.length (strip_control (String c s)) <= String.length s)%nat.
Proof.
  unfold kept. intros Hk. cbn [strip_control]. destruct (_ || _); [apply strip_control_length|]. cbn [negb andb] in Hk.
  destruct s as [|d s]; [done|]. apply negb_false_iff in Hk. rewrite Hk. pose proof (strip_control_length s). simpl. lia.
Qed.
Lemma no_control_kept c s : no_control (String c s) <-> kept c s = true /\ no_control s.
Proof.
  unfold no_control. destruct (kept c s) eqn:E.
  - rewrite strip_control_kept by done. split; [intros [= ->]; done|by intros [_ ->]].
  - apply strip_control_dropped in E. split; [|by intros [? _]]. intros Hs. rewrite Hs in E. cbn [String.length] in E. lia.
Qed.

Lemma strip_head_continues d s : continues d = true -> lead_ok (String d s) = true ->
  (128 <=? N_of_ascii d)%N = true /\ (N_of_ascii d <? 192)%N = true.
Proof. unfold continues. rewrite andb_true_iff. by intros. Qed.

Lemma strip_no_control s : lead_ok s = true -> no_control (strip_control s).
Proof.
  assert (forall n s, (String.length s <= n)%nat -> lead_ok s = true -> no_control (strip_control s)) as G; [|by eapply G].
  clear s. induction n as [|n IH]; intros [|c s] Hn Hl; cbn [String.length] in *; [done|lia|done|].
  cbn [lead_ok] in Hl. apply andb_prop in Hl as [Hc Hl]. destruct (kept c s) eqn:Hk.
  - rewrite strip_control_kept by done. apply no_control_kept. split; [|apply IH; [lia|done]].
    revert Hk. unfold kept. rewrite !andb_true_iff. intros [H1 H2]. split; [done|].
    destruct (N.eqb_spec (N_of_ascii c) 194) as [E|E]; [|by destruct (strip_control s)].
    destruct s as [|d s]; [done|]. cbn [andb] in H2. unfold continues in Hc. apply andb_prop in Hc as [Hd1 Hd2].
    rewrite Hd1 in H2. cbn [andb negb] in H2. apply negb_true_iff in H2.
    assert (kept d s = true) as Hk.
    { unfold kept. apply N.leb_le in Hd1. apply N.ltb_ge in H2. rewrite (proj2 (N.ltb_ge _ _)), (proj2 (N.eqb_neq _ _)) by lia.
      destruct s; [done|]. apply N.ltb_lt in Hd2. destruct (N.eqb_spec (N_of_ascii d) 194); [lia|done]. }
    rewrite strip_control_kept by done. rewrite Hd1, H2. done.
  - unfold kept in Hk. cbn [strip_control]. destruct (_ || _); [apply IH; [lia|done]|]. cbn [negb andb] in Hk.
    destruct s as [|d s]; [done|]. apply negb_false_iff in Hk. rewrite Hk. cbn [lead_ok] in Hl. apply andb_prop in Hl as [_ Hl].
    apply IH; [cbn [String.length] in *; lia|done].
Qed.
Lemma no_control_prefix a b : no_control (String.append a b) -> no_control a.
Proof.
  induction a as [|c a IH]; [done|]. change (String.append (String c a) b) with (String c (String.append a b)).
  rewrite !no_control_kept. intros [Hk Hn]. split; [|by apply IH]. unfold kept in *. destruct a; [|done].
  apply andb_prop in Hk as [-> _]. done.
Qed.
Lemma bounded_clean_clean raw max text cut :
  lead_ok raw = true -> bounded_clean raw max = (text, cut) -> bounded_clean text max = (text, false).
Proof.
  intros Hl (Hlen & (rest & Hs & _) & _)%bounded_clean_spec. pose proof (strip_no_control raw Hl) as Hn. rewrite Hs in Hn.
  apply no_control_prefix in Hn. unfold bounded_clean. rewrite Hn. by apply Nat.leb_le in Hlen as ->.
Qed.

Lemma lowercase_length s : String.length (to_ascii_lowercase s) = String.length s.
Proof. induction s as [|c s IH]; [done|]. cbn [to_ascii_lowercase String.length]. by rewrite IH. Qed.
Lemma lowercase_path s : any_char path_char (to_ascii_lowercase s) = any_char path_char s.
Proof.
  induction s as [|c s IH]; [done|]. cbn [to_ascii_lowercase any_char]. rewrite IH. f_equal.
  by destruct c as [[] [] [] [] [] [] [] []].
Qed.
Lemma clean_app_spec s a : clean_app s = Some a -> (String.length a <= MAX_APP_BYTES)%nat /\ any_char path_char a = false.
Proof.
  unfold clean_app. destruct (bounded_clean s _) as [t long] eqn:E. apply bounded_clean_spec in E as [E _].
  destruct (_ && _) eqn:Eb; [|done]. intros [= <-]. bool_prop. done.
Qed.

Section component_lemmas.
Context `{HostText}.

(** What a component may reveal: nothing, or an observation under the very revision granted now. *)
Definition bare (v : json) : Prop := idx v "app" = JNull /\ idx v "title" = JNull /\ idx v "url_host" = JNull.
Lemma component_cases raw b rev cur :
  bare (component raw b rev cur)
  \/ exists c source r, raw = Some c /\ component_shape c b = Some (Observed, source) /\ rev = Some r /\ cur = Some r
       /\ component raw b rev cur = (if b then observed_browser c source else observed_window c source).
Proof.
  unfold component. destruct (ofilter is_object raw) as [c|] eqn:Er; [|by left; destruct b].
  apply ofilter_Some in Er as [-> _]. destruct (component_shape c b) as [[status source]|] eqn:Es; [|by left; destruct b].
  destruct (decide (status = Observed)) as [->|Ho].
  - rewrite bool_decide_true by done. destruct rev as [r|]; cbn [isSome negb orb]; [|by left; destruct b].
    destruct (decide (cur = Some r)) as [->|Hc]; [rewrite bool_decide_true by done|rewrite bool_decide_false by congruence; by left; destruct b].
    right. by exists c, source, r.
  - rewrite bool_decide_false by done. left. unfold unobserved. destruct b; cbn [negb]; [by destruct (negb _)|by destruct (_ || _)].
Qed.
Lemma component_url raw rev cur : idx (component raw true rev cur) "url" = JNull.
Proof.
  unfold component. destruct (ofilter is_object raw) as [c|]; [|done]. destruct (component_shape c true) as [[status source]|]; [|done].
  destruct (negb _); [unfold unobserved; by destruct (negb _)|]. destruct (_ || _); [done|]. unfold observed_browser.
  by destruct (normalize_host <$> _) as [[h|e]|].
Qed.
Lemma component_known raw b rev cur : known_keys (component raw b rev cur) (component_keys b) = true.
Proof.
  unfold component. destruct (ofilter is_object raw) as [c|]; [|by destruct b]. destruct (component_shape c b) as [[status source]|]; [|by destruct b].
  destruct (negb _); [destruct b; unfold unobserved; [by destruct (negb (is_null _))|by destruct (_ || _)]|].
  destruct (_ || _); [by destruct b|].
  destruct b; [unfold observed_browser; by destruct (normalize_host <$> _) as [[h|e]|]|].
  unfold observed_window. by destruct (_ || _).
Qed.

Lemma observed_window_values c source :
  as_str (idx (observed_window c source) "app") = as_str (idx c "app") ≫= clean_app
  /\ as_str (idx (observed_window c source) "title")
     = (t ← as_str (idx c "title"); (bounded t MAX_TITLE_BYTES).1)
  /\ as_str (idx (observed_window c source) "url_host") = None.
Proof.
  assert (forall o : option string, as_str (opt_value JStr o) = o) as Ho by by intros [].
  assert (forall o, ofilter (fun s => negb (String.eqb s "")) (fst <$> ((fun s => bounded_clean s MAX_TITLE_BYTES) <$> o))
                    = (t ← o; (bounded t MAX_TITLE_BYTES).1)) as Ht.
  { intros [t|]; [|done]. unfold bounded. cbn [fmap option_fmap option_map mbind option_bind]. destruct (bounded_clean t _) as [x y]. simpl.
    by destruct (String.eqb x ""). }
  assert (forall k, k <> "title_truncated"%string -> idx (observed_window c source) k =
            idx (mk_obj [("status", JStr "observed"); ("reason", JNull); ("source", JStr (source_str source));
                         ("app", opt_value JStr (as_str (idx c "app") ≫= clean_app));
                         ("title", opt_value JStr (ofilter (fun s => negb (String.eqb s ""))
                                     (fst <$> ((fun s => bounded_clean s MAX_TITLE_BYTES) <$> as_str (idx c "title")))))]%string) k) as Hk.
  { intros k Hk. unfold observed_window. destruct (_ || _); [|done]. by apply idx_set_idx_ne. }
  split_and!; rewrite Hk by done; [etrans; [apply (Ho (_ ≫= clean_app))|done]| |done].
  etrans; [apply (Ho (ofilter _ _))|apply Ht].
Qed.
Lemma observed_browser_values c source :
  as_str (idx (observed_browser c source) "app") = None /\ as_str (idx (observed_browser c source) "title") = None
  /\ as_str (idx (observed_browser c source) "url_host") = (h ← as_str (idx c "url_host"); rok (normalize_host h)).
Proof.
  unfold observed_browser. destruct (as_str (idx c "url_host")) as [h|]; [|done]. cbn [fmap option_fmap option_map mbind option_bind].
  by destruct (normalize_host h).
Qed.
End component_lemmas.

Section sanitize.
Context `{HostText, JsonText}.

(** What the checked context [c] claims to have been captured under. *)
Definition context_of (header c : json) : Prop := get header "context" = Some c /\ is_object c = true /\ envelope_ok c = true.
Lemma sanitize_context header c wr br :
  context_of header c ->
  let window := component (get c "window") false (granted_revision c "window_activity") wr in
  let browser := component (get c "browser") true (granted_revision c "browser_urls") br in
  m_context (sanitize header wr br) = Some (stored_context c window browser)
  /\ m_app (sanitize header wr br) = to_ascii_lowercase <$> as_str (idx window "app")
  /\ m_title (sanitize header wr br) = as_str (idx window "title") /\ m_host (sanitize header wr br) = as_str (idx browser "url_host").
Proof. intros (Hg & Ho & He). unfold sanitize. rewrite Hg. cbn [ofilter]. by rewrite Ho, He. Qed.
Lemma sanitize_none header wr br :
  (~ exists c, context_of header c) ->
  m_context (sanitize header wr br) = None /\ m_app (sanitize header wr br) = None
  /\ m_title (sanitize header wr br) = None /\ m_host (sanitize header wr br) = None.
Proof.
  intros Hn. unfold sanitize. destruct (ofilter is_object _) as [c|] eqn:E; [|done]. apply ofilter_Some in E as [Hg Ho].
  destruct (envelope_ok c) eqn:He; [|done]. destruct Hn. by exists c.
Qed.
Lemma context_of_dec header : (exists c, context_of header c) \/ ~ exists c, context_of header c.
Proof.
  unfold context_of. destruct (get header "context") as [c|]; [|by right; intros (? & ? & _)].
  destruct (is_object c) eqn:Ho; [|right; intros (? & ? & ? & _); congruence].
  destruct (envelope_ok c) eqn:He; [left; by exists c|right; intros (? & ? & ? & ?); congruence].
Qed.

(** What the server stores about a keyframe's foreground is what the device grants at that moment:
    an app or title only under the window-activity revision the frame was captured under and the
    server holds now, a host only under the same for browser addresses and in normalized form;
    an app is short and no path, a title is short; the address itself and the claimed revisions
    are never stored, nor any key outside the documented ones. *)
Theorem stored_context_is_fenced header wr br :
  let m := sanitize header wr br in
  (isSome (m_app m) || isSome (m_title m) = true ->
     exists c r, context_of header c /\ wr = Some r /\ granted_revision c "window_activity" = Some r)
  /\ (forall h, m_host m = Some h -> exists c r raw, context_of header c /\ br = Some r
        /\ granted_revision c "browser_urls" = Some r /\ normalize_host raw = Ok h)
  /\ (forall a, m_app m = Some a -> (String.length a <= MAX_APP_BYTES)%nat /\ any_char path_char a = false)
  /\ (forall t, m_title m = Some t -> (String.length t <= MAX_TITLE_BYTES)%nat)
  /\ (forall s, m_context m = Some s ->
        obj_keys s = ["bracket_ms"; "browser"; "monitor_relation"; "scope"; "version"; "window"]%string
        /\ known_keys (idx s "window") (component_keys false) = true /\ known_keys (idx s "browser") (component_keys true) = true
        /\ idx (idx s "browser") "url" = JNull).
Proof.
  intros m. subst m. destruct (context_of_dec header) as [[c Hc]|Hn].
  2: { apply (sanitize_none _ wr br) in Hn as (-> & -> & -> & ->). done. }
  destruct (sanitize_context header c wr br Hc) as (-> & -> & -> & ->).
  set (w := component (get c "window") _ _ _). set (b := component (get c "browser") _ _ _).
  split_and!.
  - destruct (component_cases (get c "window") false (granted_revision c "window_activity") wr) as [(Ha & Ht & _)|(x & so & r & _ & _ & Hr & -> & _)].
    + fold w in Ha, Ht. rewrite Ha, Ht. done.
    + intros _. by exists c, r.
  - intros h. destruct (component_cases (get c "browser") true (granted_revision c "browser_urls") br) as [(_ & _ & Hh)|(x & so & r & _ & _ & Hr & -> & Hb)].
    + fold b in Hh. by rewrite Hh.
    + fold b in Hb. rewrite Hb, (proj2 (proj2 (observed_browser_values x so))). intros (raw & _ & Hn)%bind_Some. exists c, r, raw.
      split_and!; try done. by destruct (normalize_host raw); simplify_eq/=.
  - intros a. destruct (component_cases (get c "window") false (granted_revision c "window_activity") wr) as [(Ha & _)|(x & so & r & _ & _ & _ & _ & Hb)].
    + fold w in Ha. by rewrite Ha.
    + fold w in Hb. rewrite Hb, (proj1 (observed_window_values x so)). intros (a' & (t & _ & Hcl)%bind_Some & ->)%fmap_Some.
      rewrite lowercase_length, lowercase_path. by eapply clean_app_spec.
  - intros t. destruct (component_cases (get c "window") false (granted_revision c "window_activity") wr) as [(_ & Ht & _)|(x & so & r & _ & _ & _ & _ & Hb)].
    + fold w in Ht. by rewrite Ht.
    + fold w in Hb. rewrite Hb, (proj1 (proj2 (observed_window_values x so))). intros (t' & _ & Hbd)%bind_Some.
      destruct (bounded t' _) as [o cut] eqn:E. simpl in Hbd. subst. by eapply bounded_length.
  - intros s [= <-]. split_and!; [done|apply component_known|apply component_known|apply component_url].
Qed.
End sanitize.

(** ** What the agent sent is what the server stores *)

Lemma clean_app_twice raw text cut : lead_ok raw = true -> bounded_clean raw MAX_APP_BYTES = (text, cut) -> cut = false ->
  clean_app text = clean_app raw.
Proof.
  intros Hl E ->. pose proof (bounded_clean_clean _ _ _ _ Hl E) as E'. unfold clean_app. by rewrite E, E'.
Qed.
Lemma bounded_twice raw max : lead_ok raw = true -> bounded (default "" (bounded raw max).1)%string max = ((bounded raw max).1, false).
Proof.
  intros Hl. unfold bounded. destruct (bounded_clean raw max) as [t c] eqn:E. pose proof (bounded_clean_clean _ _ _ _ Hl E) as E'.
  cbn [fst]. destruct (String.eqb_spec t "") as [->|Hne]; unfold default, from_option, id; [done|]. rewrite E'.
  by rewrite (proj2 (String.eqb_neq _ _)).
Qed.

(** The window component the agent sends of an agreed sample [a] under a grant that stands. *)
Definition sent_window (a : Snapshot) : WindowContext :=
  let (app, long) := bounded (sn_app a) MAX_APP_BYTES in
  let (title, cut) := bounded (sn_title a) MAX_TITLE_BYTES in
  {| w_status := Observed; w_reason := None; w_source := sn_source a; w_app := if long then None else app; w_title := title;
     w_title_truncated := sn_title_truncated a || cut |}.
Lemma sanitize_around a elapsed gs g s :
  window_generation gs = Some g -> gen_module g = WindowActivity -> matches g s = true -> identity a <> ""%string ->
  elapsed <= BRACKET_BUDGET -> lead_ok (sn_app a) = true -> lead_ok (sn_title a) = true ->
  let c := sanitize_in (around (Ok a) (Ok a) elapsed gs) s gs in
  window c = sent_window a /\ grant_revisions c = {[WindowActivity := gen_revision g]}
  /\ b_url_host (browser c) = None /\ b_source (browser c) = SourceNone /\ b_url (browser c) = None /\ b_status (browser c) <> Observed
  /\ version c = CONTEXT_VERSION /\ scope c = CONTEXT_SCOPE /\ bracket_ms c = Z.min (as_millis elapsed) MAX_BRACKET_MS
  /\ monitor_relation c = "unknown"%string.
Proof.
  intros Hg Hm Hv Hi He Hla Hlt. cbn [sanitize_in around window grant_revisions browser version scope bracket_ms monitor_relation browser_placeholder b_url b_url_host b_source b_status].
  assert (generation_for WindowActivity s (window_generation gs) = Some g) as -> by (rewrite Hg; by apply generation_for_Some).
  assert (around_window (Ok a) (Ok a) elapsed (window_generation gs) = sent_window a) as ->.
  { unfold around_window. rewrite Hg. cbn [isSome negb]. rewrite (proj2 (Z.ltb_ge _ _)) by done.
    rewrite bool_decide_true by done. by rewrite (proj2 (String.eqb_neq _ _)). }
  pose proof (bounded_twice (sn_app a) MAX_APP_BYTES Hla) as Ha. pose proof (bounded_twice (sn_title a) MAX_TITLE_BYTES Hlt) as Ht.
  unfold sent_window. destruct (bounded (sn_app a) _) as [app long]. destruct (bounded (sn_title a) _) as [title cut]. cbn [fst] in Ha, Ht.
  unfold sanitize_window. cbn [w_status w_app w_title w_reason w_source w_title_truncated]. rewrite bool_decide_true by done. rewrite Ht, orb_false_r.
  split_and!; try done; [|by case_match]. destruct long; [done|]. by rewrite Ha.
Qed.

Lemma window_value_idx w k : k <> "title_truncated"%string ->
  idx (window_to_value w) k = idx (mk_obj [("status", JStr (status_str (w_status w))); ("reason", opt_value (JStr ∘ reason_str) (w_reason w));
           ("source", JStr (source_str (w_source w))); ("app", opt_value JStr (w_app w)); ("title", opt_value JStr (w_title w))]%string) k.
Proof.
  intros Hk. unfold window_to_value. destruct (w_title_truncated w); [|done]. cbn [app].
  change (idx (set_idx (mk_obj [("status", JStr (status_str (w_status w))); ("reason", opt_value (JStr ∘ reason_str) (w_reason w));
           ("source", JStr (source_str (w_source w))); ("app", opt_value JStr (w_app w)); ("title", opt_value JStr (w_title w))]%string)
           "title_truncated" (JBool true)) k = idx (mk_obj [("status", JStr (status_str (w_status w))); ("reason", opt_value (JStr ∘ reason_str) (w_reason w));
           ("source", JStr (source_str (w_source w))); ("app", opt_value JStr (w_app w)); ("title", opt_value JStr (w_title w))]%string) k).
  by rewrite idx_set_idx_ne.
Qed.
Lemma as_str_opt_value o : as_str (opt_value JStr o) = o.
Proof. by destruct o. Qed.
Lemma window_shape w :
  w_status w = Observed -> w_reason w = None -> w_source w <> SourceNone -> is_window_source (w_source w) = true ->
  component_shape (window_to_value w) false = Some (Observed, w_source w).
Proof.
  destruct w as [st r so a t tr]. cbn [w_status w_reason w_source]. intros -> -> Hn Hw. by destruct so, a, t, tr.
Qed.

Lemma shape_status c b st so : component_shape c b = Some (st, so) -> as_str (idx c "status") ≫= status_from_wire = Some st.
Proof.
  unfold component_shape. destruct (_ ≫= status_from_wire) as [x|]; [|done]. destruct (_ ≫= source_from_wire) as [y|]; [|done].
  destruct (_ && _ : bool); [|done]. by intros [= -> ->].
Qed.

Section survives.
Context `{HostText, JsonText}.

Lemma context_of_sent header c :
  get header "context" = Some (context_to_value c) -> context_fits (context_to_value c) = true ->
  version c = CONTEXT_VERSION -> scope c = CONTEXT_SCOPE -> monitor_relation c = "unknown"%string -> 0 <= bracket_ms c <= MAX_BRACKET_MS ->
  context_of header (context_to_value c).
Proof.
  intros Hh Hf Hve Hsc Hmo Hb. split_and!; [done|done|]. unfold envelope_ok. rewrite Hf. cbn [andb].
  change (idx (context_to_value c) "version") with (JInt (version c)). change (idx (context_to_value c) "scope") with (JStr (scope c)).
  change (idx (context_to_value c) "bracket_ms") with (JInt (bracket_ms c)).
  change (idx (context_to_value c) "monitor_relation") with (JStr (monitor_relation c)).
  rewrite Hve, Hsc, Hmo. cbn [as_u64 as_str]. rewrite andb_true_r. unfold MAX_BRACKET_MS in *.
  rewrite (proj2 (in_range_spec 0 u64_max (bracket_ms c))) by (unfold u64_max; lia). cbn [is_some_and]. by rewrite (proj2 (Z.leb_le _ _)) by lia.
Qed.
Lemma sent_window_fields a :
  w_status (sent_window a) = Observed /\ w_reason (sent_window a) = None /\ w_source (sent_window a) = sn_source a
  /\ w_app (sent_window a) = (if (bounded (sn_app a) MAX_APP_BYTES).2 then None else (bounded (sn_app a) MAX_APP_BYTES).1)
  /\ w_title (sent_window a) = (bounded (sn_title a) MAX_TITLE_BYTES).1.
Proof. unfold sent_window. by destruct (bounded (sn_app a) _), (bounded (sn_title a) _). Qed.

(** A device's context reaches the store intact: a sample the agent saw unchanged around the capture,
    re-checked on the device under a grant that stands, and read by the server while it holds the
    same window-activity revision, is stored with exactly the app (lowercased, when it is whole
    and no path) and title the agent cleaned; if the server holds another revision, or none, the
    context is kept but both texts are gone; no host is ever claimed. *)
Theorem agent_context_survives a elapsed gs g s header r br :
  window_generation gs = Some g -> gen_module g = WindowActivity -> gen_typed g -> matches g s = true ->
  identity a <> ""%string -> sn_source a <> SourceNone -> is_window_source (sn_source a) = true ->
  0 <= elapsed <= BRACKET_BUDGET -> lead_ok (sn_app a) = true -> lead_ok (sn_title a) = true ->
  let c := sanitize_in (around (Ok a) (Ok a) elapsed gs) s gs in
  get header "context" = Some (context_to_value c) -> context_fits (context_to_value c) = true ->
  let m := sanitize header r br in
  isSome (m_context m) = true /\ m_host m = None
  /\ (m_app m, m_title m) = (if decide (r = Some (gen_revision g))
                             then (to_ascii_lowercase <$> clean_app (sn_app a), (bounded (sn_title a) MAX_TITLE_BYTES).1)
                             else (None, None)).
Proof.
  intros Hg Hm Ht Hv Hi Hns Hws [He0 He] Hla Hlt c Hh Hf m.
  destruct (sanitize_around a elapsed gs g s Hg Hm Hv Hi He Hla Hlt) as (Hw & Hgr & Hbh & Hbs & Hbu & Hbst & Hve & Hsc & Hbr & Hmo).
  fold c in Hw, Hgr, Hbh, Hbs, Hbu, Hbst, Hve, Hsc, Hbr, Hmo.
  assert (context_of header (context_to_value c)) as Hc.
  { apply context_of_sent; try done. rewrite Hbr. assert (0 <= as_millis elapsed) by (apply Z.div_pos; lia). unfold MAX_BRACKET_MS. lia. }
  destruct (sanitize_context header _ r br Hc) as (Hcx & Hax & Htx & Hhx). fold m in Hcx, Hax, Htx, Hhx.
  rewrite Hcx, Hax, Htx, Hhx.
  change (get (context_to_value c) "window") with (Some (window_to_value (window c))).
  change (get (context_to_value c) "browser") with (Some (browser_to_value (browser c))).
  assert (granted_revision (context_to_value c) "window_activity" = Some (gen_revision g)) as ->.
  { unfold granted_revision. change (idx (context_to_value c) "grant_revisions") with (revisions_to_value (grant_revisions c)).
    rewrite Hgr. unfold revisions_to_value. rewrite map_to_list_singleton. cbn -[as_u64].
    unfold as_u64. by rewrite (proj2 (in_range_spec _ _ _)). }
  split; [done|]. split.
  { destruct (component_cases (Some (browser_to_value (browser c))) true (granted_revision (context_to_value c) "browser_urls") br)
      as [(_ & _ & ->)|(x & so & rr & [= <-] & Hs & _ & _ & _)]; [done|]. exfalso.
    apply shape_status in Hs. change (idx _ "status") with (JStr (status_str (b_status (browser c)))) in Hs.
    cbn [as_str mbind option_bind] in Hs. rewrite status_wire in Hs. congruence. }
  rewrite Hw. unfold component. cbn [ofilter]. assert (is_object (window_to_value (sent_window a)) = true) as -> by done.
  destruct (sent_window_fields a) as (W1 & W2 & W3 & W4 & W5).
  rewrite window_shape by (rewrite ?W3; done). rewrite bool_decide_true by done. cbn [negb isSome orb].
  destruct (decide (r = Some (gen_revision g))) as [->|Hr].
  2: { rewrite bool_decide_false by congruence. done. }
  rewrite bool_decide_true by done. cbn [negb].
  destruct (observed_window_values (window_to_value (sent_window a)) (w_source (sent_window a))) as (-> & -> & _).
  rewrite !window_value_idx by done. cbn [mk_obj foldr]. 
  change (as_str (idx _ "app")) with (as_str (opt_value JStr (w_app (sent_window a)))).
  change (as_str (idx _ "title")) with (as_str (opt_value JStr (w_title (sent_window a)))).
  rewrite !as_str_opt_value, W4, W5. f_equal.
  - f_equal. unfold bounded at 1 2. destruct (bounded_clean (sn_app a) _) as [t cut] eqn:E. cbn [fst snd].
    destruct cut; [unfold clean_app; by rewrite E|]. destruct (String.eqb_spec t "") as [->|]; [unfold clean_app; by rewrite E|].
    cbn [mbind option_bind]. by eapply clean_app_twice.
  - pose proof (bounded_twice (sn_title a) MAX_TITLE_BYTES Hlt) as Hb. destruct (bounded (sn_title a) _) as [[t|] cut]; [|done].
    cbn [fst mbind option_bind]. cbn in Hb. by rewrite Hb.
Qed.
End survives.

(** ** Examples *)

#[local] Instance ex_hosts : HostText := {| domain_to_ascii s := Some s; https_host s := Some s |}.
Definition ex_sample : Snapshot :=
  {| identity := "w1"; sn_app := "Editor.exe"; sn_title := "notes"; sn_source := Win32; sn_title_truncated := false |}%string.
Definition ex_gen : Generation := {| gen_module := WindowActivity; gen_revision := 2 |}.
Definition ex_gens : Generations := {| window_generation := Some ex_gen; browser_generation := None |}.
Definition ex_grants : Store :=
  {| st_revision := 2; grants := {[WindowActivity := {| g_enabled := true; g_revision := 2 |}]}; receipts := ∅ |}.
Definition ex_sent : json := context_to_value (sanitize_in (around (Ok ex_sample) (Ok ex_sample) 0 ex_gens) ex_grants ex_gens).

Lemma stored_context_is_fenced_witness :
  let header := mk_obj [("context"%string, ex_sent)] in
  let m := @sanitize ex_hosts bin_json header (Some 2) None in
  m_app m = Some "editor.exe"%string /\ exists c r, @context_of bin_json header c /\ Some 2 = Some r /\ granted_revision c "window_activity" = Some r.
Proof.
  intros header m. assert (m_app m = Some "editor.exe"%string) as Ha by (vm_compute; reflexivity). split; [exact Ha|].
  apply (proj1 (@stored_context_is_fenced ex_hosts bin_json header (Some 2) None)). fold m. by rewrite Ha.
Defined.
Lemma agent_context_survives_witness :
  let header := mk_obj [("context"%string, ex_sent)] in
  let m := @sanitize ex_hosts bin_json header (Some 2) None in
  m_app m = Some "editor.exe"%string /\ m_title m = Some "notes"%string.
Proof.
  intros header m.
  destruct (@agent_context_survives ex_hosts bin_json ex_sample 0 ex_gens ex_gen ex_grants header (Some 2) None) as (_ & _ & E);
    [done|done|unfold gen_typed, u64_max; simpl; lia|done|done|done|done|by vm_compute|done|done|done|by vm_compute|].
  rewrite decide_True in E by done. fold m in E. split; [transitivity (fst (m_app m, m_title m)); [done|]|transitivity (snd (m_app m, m_title m)); [done|]];
    rewrite E; vm_compute; reflexivity.
Defined.
