(* ===== verification/HistoryIngest.v ===== *)
(** The server's ingestion of Recall keyframes: [server/src/agent_ws/history_ingest.rs], with the
    index insert it ends in ([insert_screen_frame] of [server/src/recall/db/frames.rs]) and the
    blob store as a set of files. *)
From S2P Require Import Prelude Text Json Protocol Sessions Modules Registry Permissions RecallContext Fence Keyframes.

Definition MAX_HISTORY_JPEG_BYTES : Z := 2 * 1024 * 1024.
Definition MAX_OCR_TEXT_CHARS : Z := 20000.

(** [DateTime::parse_from_rfc3339] in UTC nanoseconds and the [%Y%m%d] day of a time ([chrono]), and
    the standard base64 decoder. *)
Class ChronoText := { parse_rfc3339 : string -> option Z; day_text : Z -> string }.
Class Base64 := { base64_decode : string -> option (list Z) }.

(** [z as i32] and [z as i64] of a 64-bit value. *)
Definition wrap_i32 (z : Z) : Z := (z + 2 ^ 31) mod 2 ^ 32 - 2 ^ 31.
Definition wrap_i64 (z : Z) : Z := (z + 2 ^ 63) mod 2 ^ 64 - 2 ^ 63.

(** ** What is stored *)

Record ScreenFrame := {
  sf_agent : Uuid; sf_captured_at : Z; sf_monitor : Z; sf_w : Z; sf_h : Z; sf_phash : Z; sf_blob_ref : string;
  sf_ocr_text : option string; sf_ocr_words : option json; sf_client_uid : option Uuid; sf_metadata : Metadata
}.
Record FrameStore := { frames : list ScreenFrame; blobs : gmap string (list Z) }.
Definition FrameStore_empty : FrameStore := {| frames := []; blobs := ∅ |}.
Definition with_frames (db : FrameStore) (x : list ScreenFrame) : FrameStore := {| frames := x; blobs := blobs db |}.
Definition with_blobs (db : FrameStore) (x : gmap string (list Z)) : FrameStore := {| frames := frames db; blobs := x |}.

(** The conflict target of the insert; rows without a client id never conflict (SQL nulls differ). *)
Definition conflicts (row old : ScreenFrame) : bool :=
  isSome (sf_client_uid row)
  && bool_decide ((sf_agent row, sf_captured_at row, sf_client_uid row) = (sf_agent old, sf_captured_at old, sf_client_uid old)).
(** [insert_screen_frame]: whether a row was added. *)
Definition insert_screen_frame (db : FrameStore) (row : ScreenFrame) : FrameStore * bool :=
  if existsb (conflicts row) (frames db) then (db, false) else (with_frames db (frames db ++ [row]), true).

(** ** Acknowledgements *)

Definition ack_history_frame (val : json) (rejected : option string) : option ServerCommand :=
  uid ← ofilter (fun s => negb (String.eqb s "")) (as_str (idx val "uid"));
  Some (HistoryFrameAck_ (match rejected with
                          | Some reason => HistoryFrameAck_rejected uid reason
                          | None => HistoryFrameAck_accepted uid
                          end)).

(** ** Storing *)

(** What the outside answers: the clock, a fresh file name, the blob write ([None] a panic), and
    whether the insert reaches the database. *)
Record FrameEnv := { fe_now : Z; fe_file : Uuid; fe_blob : option bool; fe_db : bool }.
(** How one keyframe ends. *)
Inductive FrameEnd : Type :=
| FrameRejected (reason : string)
| FrameRevoked
| FrameStored
| FrameDuplicate
| FrameUnstored.
#[export] Instance FrameEnd_eq_dec : EqDecision FrameEnd.
Proof. solve_decision. Defined.

Section ingest.
Context `{UuidText, ChronoText, HostText, JsonText}.

Definition parsed_at (val : json) : option Z := as_str (idx val "captured_at") ≫= parse_rfc3339.
Definition frame_uid (val : json) : option Uuid := as_str (idx val "uid") ≫= parse_uuid ∘ trim.
Definition frame_path (agent : Uuid) (captured_at : Z) (file : Uuid) : string :=
  String.concat "/" [uuid_text agent; day_text captured_at; String.append (uuid_text file) ".jpg"].
Definition int_field (val : json) (k : string) : Z := wrap_i32 (default 0 (as_i64 (idx val k))).

(** The row of a keyframe, once its blob is written and its context checked. *)
Definition frame_row (agent : Uuid) (val : json) (captured_at : Z) (path : string) (metadata : Metadata) : ScreenFrame :=
  {| sf_agent := agent; sf_captured_at := captured_at;
     sf_monitor := int_field val "monitor"; sf_w := int_field val "w"; sf_h := int_field val "h";
     sf_phash := wrap_i64 (default 0 (as_str (idx val "phash") ≫= parse_uint u64_max ∘ trim));
     sf_blob_ref := path;
     sf_ocr_text := chars_take (Z.to_nat MAX_OCR_TEXT_CHARS) <$> ofilter (fun s => negb (String.eqb s "")) (trim <$> as_str (idx val "ocr_text"));
     sf_ocr_words := ofilter (fun v => match v with JArr (_ :: _) => true | _ => false end) (get val "ocr_words");
     sf_client_uid := frame_uid val; sf_metadata := metadata |}.

(** After the blob write: the grants are read from the registry as it then is. *)
Definition finish_history_frame (r : AgentRegistry) (db : FrameStore) (agent conn : Uuid) (val : json) (captured_at : Z) (path : string)
    (env : FrameEnv) : FrameStore * FrameEnd :=
  match recall_context_grants r agent conn with
  | None => (with_blobs db (delete path (blobs db)), FrameRevoked)
  | Some (window, browser) =>
      let row := frame_row agent val captured_at path (sanitize val window browser) in
      if negb (fe_db env) then (db, FrameUnstored)
      else
        let '(db', inserted) := insert_screen_frame db row in
        if inserted then (db', FrameStored) else (with_blobs db' (delete path (blobs db')), FrameDuplicate)
  end.

(** [store_history_frame] with its acknowledgement. *)
Definition frame_ack (val : json) (e : FrameEnd) : option ServerCommand :=
  match e with
  | FrameRejected reason => ack_history_frame val (Some reason)
  | FrameStored | FrameDuplicate => ack_history_frame val None
  | FrameRevoked | FrameUnstored => None
  end.
Definition store_history_frame (r : AgentRegistry) (db : FrameStore) (agent conn : Uuid) (val : json) (jpeg : list Z) (env : FrameEnv)
    : FrameStore * FrameEnd :=
  if is_some_and (get val "context") (fun v => negb (is_null v)) && (negb (isSome (parsed_at val)) || negb (isSome (frame_uid val)))
  then (db, FrameRejected "invalid frame identity")
  else
    let captured_at := default (fe_now env) (parsed_at val) in
    let path := frame_path agent captured_at (fe_file env) in
    match fe_blob env with
    | Some true => finish_history_frame r (with_blobs db (<[path := jpeg]> (blobs db))) agent conn val captured_at path env
    | Some false => (db, FrameRejected "blob write failed")
    | None => (db, FrameRejected "blob write panicked")
    end.

(** ** Framing *)

Definition parse_history_frame_binary (frame : list Z) : result (json * list Z) string :=
  if (length frame <? 8)%nat then Err "truncated header"%string
  else if negb (starts_with frame HISTORY_FRAME_MAGIC) then Err "bad magic"%string
  else
    let hend := (8 + Z.to_nat (from_le_bytes (take 4 (drop 4 frame))))%nat in
    if (length frame <? hend)%nat then Err "bad header length"%string
    else
      match json_parse (take (hend - 8) (drop 8 frame)) with
      | None => Err "bad header JSON"%string
      | Some val => Ok (val, drop hend frame)
      end.
Definition ingest_history_frame_binary (r : AgentRegistry) (db : FrameStore) (agent conn : Uuid) (frame : list Z) (env : FrameEnv)
    : FrameStore * option ServerCommand :=
  match parse_history_frame_binary frame with
  | Err _ => (db, None)
  | Ok (val, jpeg) =>
      let '(db', e) :=
        match jpeg with
        | [] => (db, FrameRejected "empty jpeg")
        | _ => if MAX_HISTORY_JPEG_BYTES <? Z.of_nat (length jpeg) then (db, FrameRejected "jpeg too large")
               else store_history_frame r db agent conn val jpeg env
        end in
      (db', frame_ack val e)
  end.

Context `{Base64}.
Definition ingest_history_frame (r : AgentRegistry) (db : FrameStore) (agent conn : Uuid) (val : json) (env : FrameEnv)
    : FrameStore * option ServerCommand :=
  let b64 := default ""%string (as_str (idx val "jpeg_b64")) in
  let '(db', e) :=
    if String.eqb b64 "" then (db, FrameRejected "empty jpeg")
    else
      match base64_decode b64 with
      | None => (db, FrameRejected "bad base64")
      | Some jpeg => if MAX_HISTORY_JPEG_BYTES <? Z.of_nat (length jpeg) then (db, FrameRejected "jpeg too large")
                     else store_history_frame r db agent conn val jpeg env
      end in
  (db', frame_ack val e).
End ingest.

(** ** Lemmas *)

Section lemmas.
Context `{UuidText, ChronoText, HostText, JsonText}.

Lemma take_header (magic len header rest : list Z) :
  length magic = 4%nat -> length len = 4%nat ->
  take 4 (drop 4 (magic ++ len ++ header ++ rest)) = len
  /\ take (length header) (drop 8 (magic ++ len ++ header ++ rest)) = header
  /\ drop (8 + length header) (magic ++ len ++ header ++ rest) = rest.
Proof.
  intros Hm Hl. split_and!.
  - rewrite (drop_app_length' magic) by done. by apply take_app_length'.
  - rewrite app_assoc, (drop_app_length' (magic ++ len)) by (rewrite length_app; lia). by apply take_app_length'.
  - rewrite !app_assoc. apply drop_app_length'. rewrite !length_app. lia.
Qed.
Lemma parse_hst_frame header jpeg :
  json_plain header = true -> header_fits header -> parse_history_frame_binary (hst_frame header jpeg) = Ok (header, jpeg).
Proof.
  intros Hp Hf. unfold header_fits in Hf. unfold parse_history_frame_binary, hst_frame.
  destruct (take_header HISTORY_FRAME_MAGIC (to_le_bytes (Z.of_nat (length (json_print header)))) (json_print header) jpeg eq_refl eq_refl) as (H1' & H2' & H3').
  set (b := HISTORY_FRAME_MAGIC ++ _) in *.
  assert (length b = 8 + length (json_print header) + length jpeg)%nat as Hl by (unfold b; rewrite !length_app; simpl; lia).
  rewrite (proj2 (Nat.ltb_ge _ _)) by lia. assert (starts_with b HISTORY_FRAME_MAGIC = true) as -> by done. cbn [negb].
  rewrite H1', le_bytes_roundtrip, Nat2Z.id by lia. rewrite (proj2 (Nat.ltb_ge _ _)) by lia.
  replace (8 + length (json_print header) - 8)%nat with (length (json_print header)) by lia.
  by rewrite H2', json_parse_print, H3' by done.
Qed.

Lemma insert_spec db row db' b :
  insert_screen_frame db row = (db', b) ->
  blobs db' = blobs db
  /\ (if b then frames db' = frames db ++ [row] /\ Forall (fun old => conflicts row old = false) (frames db)
      else frames db' = frames db /\ exists old, old ∈ frames db /\ conflicts row old = true).
Proof.
  unfold insert_screen_frame. destruct (existsb (conflicts row) (frames db)) eqn:E; intros [= <- <-].
  - apply existsb_exists in E as (old & Hin%list_elem_of_In & Hc). by eauto.
  - split_and!; try done. apply Forall_forall. intros old Hin. apply not_true_is_false. intros Hc.
    apply not_true_iff_false in E. apply E. apply existsb_exists. exists old. split; [by apply list_elem_of_In|done].
Qed.
Lemma conflicts_spec row old : conflicts row old = true <->
  isSome (sf_client_uid row) = true /\ sf_agent row = sf_agent old /\ sf_captured_at row = sf_captured_at old /\ sf_client_uid row = sf_client_uid old.
Proof.
  unfold conflicts. rewrite andb_true_iff, bool_decide_eq_true. split; [intros [? [= ? ? ?]]|intros (? & ? & ? & ?)]; split_and!; congruence.
Qed.

(** The index and the blobs agree: each row's picture is there, under a name of its own, and no two
    rows are the same upload. *)
Record store_ok (db : FrameStore) : Prop := {
  sto_unique : forall i j a b, frames db !! i = Some a -> frames db !! j = Some b -> i <> j -> conflicts a b = false;
  sto_names : NoDup (sf_blob_ref <$> frames db);
  sto_blobs : forall row, row ∈ frames db -> is_Some (blobs db !! sf_blob_ref row)
}.
Lemma store_ok_empty : store_ok FrameStore_empty.
Proof.
  split; cbn [frames FrameStore_empty].
  - intros i j a b Ha. by rewrite lookup_nil in Ha.
  - by apply NoDup_nil.
  - by intros row Hr%not_elem_of_nil.
Qed.

Lemma store_ok_blobs db bs : store_ok db -> (forall row, row ∈ frames db -> bs !! sf_blob_ref row = blobs db !! sf_blob_ref row) ->
  store_ok (with_blobs db bs).
Proof. intros [Hu Hn Hb] He. split; [done|done|]. intros row Hin. simpl in *. rewrite He by done. by apply Hb. Qed.
Lemma store_fresh db path row : store_ok db -> blobs db !! path = None -> row ∈ frames db -> sf_blob_ref row <> path.
Proof. intros Hok Hf Hin Hp. destruct (sto_blobs db Hok row Hin) as [x Hx]. rewrite Hp in Hx. congruence. Qed.

Lemma conflicts_sym a b : conflicts a b = conflicts b a.
Proof.
  apply eq_true_iff_eq. rewrite !conflicts_spec. split; intros (H1' & H2' & H3' & H4'); split_and!; congruence.
Qed.
Lemma store_ok_insert db row db' b :
  store_ok db -> (forall old, old ∈ frames db -> sf_blob_ref old <> sf_blob_ref row) -> is_Some (blobs db !! sf_blob_ref row) ->
  insert_screen_frame db row = (db', b) -> store_ok db'.
Proof.
  intros Hok Hnew Hb Hi. apply insert_spec in Hi as [Hbl Hi]. destruct b.
  2: { destruct Hi as [Hf _]. destruct db, db'. simpl in *. by subst. }
  destruct Hi as [Hf Hc]. rewrite Forall_forall in Hc. destruct Hok as [Hu Hn Hbs]. split; rewrite ?Hf, ?Hbl.
  - intros i j x y Hi Hj Hne. apply lookup_app_Some in Hi as [Hi|[Hi1 Hi2]]; apply lookup_app_Some in Hj as [Hj|[Hj1 Hj2]].
    + by eapply Hu.
    + apply list_lookup_singleton_Some in Hj2 as [_ <-]. rewrite conflicts_sym. apply Hc. by eapply list_elem_of_lookup_2.
    + apply list_lookup_singleton_Some in Hi2 as [_ <-]. apply Hc. by eapply list_elem_of_lookup_2.
    + apply list_lookup_singleton_Some in Hi2 as [? _], Hj2 as [? _]. lia.
  - rewrite fmap_app. apply NoDup_app. split_and!; [done| |apply NoDup_singleton].
    intros p Hp Hr%list_elem_of_singleton. subst. apply list_elem_of_fmap in Hp as (old & He & Hin). by eapply Hnew.
  - intros x [Hx|Hx%list_elem_of_singleton]%elem_of_app; [by apply Hbs|by subst].
Qed.
End lemmas.

Section store_theorems.
Context `{UuidText, ChronoText, HostText, JsonText}.

(** What one keyframe may do to the store, by how it ends. *)
Definition frame_effect (r : AgentRegistry) (agent conn : Uuid) (val : json) (jpeg : list Z) (env : FrameEnv) (db db' : FrameStore) (e : FrameEnd) : Prop :=
  match e with
  | FrameStored => exists row grants, frames db' = frames db ++ [row] /\ blobs db' = <[sf_blob_ref row := jpeg]> (blobs db)
      /\ recall_context_grants r agent conn = Some grants /\ sf_agent row = agent /\ sf_client_uid row = frame_uid val
      /\ sf_captured_at row = default (fe_now env) (parsed_at val) /\ sf_metadata row = sanitize val grants.1 grants.2
  | FrameDuplicate => db' = db /\ isSome (recall_context_grants r agent conn) = true /\ isSome (frame_uid val) = true
      /\ exists old, old ∈ frames db /\ sf_agent old = agent /\ sf_client_uid old = frame_uid val
                     /\ sf_captured_at old = default (fe_now env) (parsed_at val)
  | FrameRejected _ => db' = db
  | FrameRevoked => db' = db /\ recall_context_grants r agent conn = None
  | FrameUnstored => frames db' = frames db
  end.

Definition new_path (agent : Uuid) (val : json) (env : FrameEnv) : string :=
  frame_path agent (default (fe_now env) (parsed_at val)) (fe_file env).

Lemma with_blobs_restore db x y : y = blobs db -> with_blobs (with_blobs db x) y = db.
Proof. intros ->. by destruct db. Qed.

Lemma store_history_frame_effect r db agent conn val jpeg env db' e :
  blobs db !! new_path agent val env = None ->
  store_history_frame r db agent conn val jpeg env = (db', e) -> frame_effect r agent conn val jpeg env db db' e.
Proof.
  intros Hfresh. unfold store_history_frame. destruct (_ && _ : bool); [by intros [= <- <-]|].
  fold (new_path agent val env). set (path := new_path agent val env) in *.
  destruct (fe_blob env) as [[]|]; [|by intros [= <- <-]..]. unfold finish_history_frame.
  assert (delete path (<[path := jpeg]> (blobs db)) = blobs db) as Hd by by apply delete_insert_id.
  destruct (recall_context_grants r agent conn) as [[w b]|] eqn:Hg.
  2: { intros [= <- <-]. split; [|done]. by apply with_blobs_restore. }
  destruct (fe_db env); cbn [negb]; [|by intros [= <- <-]].
  set (row := frame_row _ _ _ _ _). destruct (insert_screen_frame _ row) as [db1 ins] eqn:Hi. apply insert_spec in Hi as [Hb Hi].
  destruct ins; intros [= <- <-].
  - destruct Hi as [Hf _]. exists row, (w, b). split_and!; done.
  - destruct Hi as (Hf & old & Hin & Hc). apply conflicts_spec in Hc as (Hs & Ha & Ht & Hu). cbn [frames with_blobs] in *.
    split_and!; [|by rewrite Hg|done|by exists old; rewrite <- Ha, <- Ht, <- Hu].
    cbn [blobs with_blobs] in Hb |- *. rewrite Hb, Hd. destruct db, db1. unfold with_blobs. simpl in *. by subst.
Qed.

Lemma frame_effect_ok r agent conn val jpeg env db db' e :
  store_ok db -> blobs db !! new_path agent val env = None ->
  store_history_frame r db agent conn val jpeg env = (db', e) -> store_ok db'.
Proof.
  intros Hok Hfresh Hs. pose proof (store_history_frame_effect _ _ _ _ _ _ _ _ _ Hfresh Hs) as He. revert Hs.
  unfold store_history_frame. destruct (_ && _ : bool); [by intros [= <- <-]|]. fold (new_path agent val env).
  set (path := new_path agent val env) in *. destruct (fe_blob env) as [[]|]; [|by intros [= <- <-]..].
  assert (store_ok (with_blobs db (<[path := jpeg]> (blobs db)))) as Hok'.
  { apply store_ok_blobs; [done|]. intros row Hin. rewrite lookup_insert_ne; [done|]. intros Hp. by destruct (store_fresh db path row Hok Hfresh Hin). }
  unfold finish_history_frame. destruct (recall_context_grants r agent conn) as [[w b]|] eqn:Hg.
  2: { intros [= <- <-]. by destruct He as [-> _]. }
  destruct (fe_db env); cbn [negb]; [|by intros [= <- <-]].
  destruct (insert_screen_frame _ _) as [db1 ins] eqn:Hi. destruct ins; intros [= <- <-]; [|by destruct He as [-> _]].
  eapply store_ok_insert; [exact Hok'| | |exact Hi].
  - intros old Hin. exact (store_fresh db path old Hok Hfresh Hin).
  - cbn [sf_blob_ref frame_row blobs with_blobs]. by rewrite lookup_insert_eq.
Qed.

(** A keyframe of an agent as the server received it: framed, or legacy base64 in a message. *)
Definition binary_result (r : AgentRegistry) (db : FrameStore) (agent conn : Uuid) (val : json) (jpeg : list Z) (env : FrameEnv)
    : FrameStore * FrameEnd :=
  match jpeg with
  | [] => (db, FrameRejected "empty jpeg")
  | _ => if MAX_HISTORY_JPEG_BYTES <? Z.of_nat (length jpeg) then (db, FrameRejected "jpeg too large")
         else store_history_frame r db agent conn val jpeg env
  end.
Lemma binary_result_effect r db agent conn val jpeg env db' e :
  blobs db !! new_path agent val env = None -> binary_result r db agent conn val jpeg env = (db', e) ->
  frame_effect r agent conn val jpeg env db db' e /\ (store_ok db -> store_ok db').
Proof.
  intros Hf. unfold binary_result. destruct jpeg as [|x jpeg]; [intros [= <- <-]; by split|]. destruct (_ <? _); [intros [= <- <-]; by split|].
  intros Hs. split; [by apply store_history_frame_effect|]. intros Hok. by eapply frame_effect_ok.
Qed.

(** Whether [db] holds the upload [uid] of [agent]. *)
Definition holds (db : FrameStore) (agent uid : Uuid) : Prop :=
  exists row, row ∈ frames db /\ sf_agent row = agent /\ sf_client_uid row = Some uid.

(** An acknowledgement means what the agent takes it to mean: it names the upload it answers, an
    accepted one is sent only when the index holds that upload of that agent (newly stored under
    grants that stand, or stored before), a rejected one only when nothing was stored, and where
    the grants are gone or the database failed there is none, so the agent keeps the frame; rows
    are never changed or lost, uploads are never stored twice, and every row has its picture. *)
Theorem keyframe_ack_sound r db agent conn val jpeg env db' e u :
  blobs db !! new_path agent val env = None -> as_str (idx val "uid") = Some (uuid_text u) -> trim (uuid_text u) = uuid_text u ->
  binary_result r db agent conn val jpeg env = (db', e) ->
  (forall ack, frame_ack val e = Some (HistoryFrameAck_ ack) ->
     hfa_uid ack = uuid_text u
     /\ (if hfa_rejected ack is Some true then db' = db else holds db' agent u /\ isSome (recall_context_grants r agent conn) = true))
  /\ (recall_context_grants r agent conn = None -> frames db' = frames db)
  /\ (forall row, row ∈ frames db -> row ∈ frames db')
  /\ (store_ok db -> store_ok db').
Proof.
  intros Hf Hu Htr Hb. destruct (binary_result_effect _ _ _ _ _ _ _ _ _ Hf Hb) as [He Hok].
  assert (frame_uid val = Some u) as Huid by (unfold frame_uid; rewrite Hu; cbn; by rewrite Htr, parse_uuid_text).
  split_and!; [| | |done].
  - intros ack. unfold frame_ack, ack_history_frame. rewrite Hu. cbn [ofilter].
    destruct (negb (String.eqb (uuid_text u) "")) eqn:Hne; [|by destruct e]. cbn [mbind option_bind].
    destruct e; intros [= <-]; (split; [done|]); cbn [hfa_rejected HistoryFrameAck_rejected HistoryFrameAck_accepted]; [done| |].
    + destruct He as (row & gr & Hfr & _ & Hg & Ha & Hc & _). rewrite Hg. split; [|done]. exists row. rewrite Hfr, Hc.
      split_and!; try done. apply elem_of_app. right. by apply list_elem_of_singleton.
    + destruct He as (-> & Hg & _ & old & Hin & Ha & Hc & _). split; [|done]. exists old. by rewrite Hc.
  - intros Hg. destruct e; simpl in He; [by subst|by destruct He as [-> _]| |by destruct He as [-> _]|done].
    destruct He as (row & gr & _ & _ & Hg' & _). congruence.
  - intros row Hin. destruct e; simpl in He; [by subst|by destruct He as [-> _]| |by destruct He as [-> _]|by rewrite He].
    destruct He as (row' & gr & -> & _). apply elem_of_app. by left.
Qed.
End store_theorems.

(** A keyframe's pixels and header cross the wire exactly: what the agent's last writer lets out of a
    frame it tagged at capture is what the server's framing reads back, the same JPEG bytes and
    the re-checked header, at any length the four-byte prefix can say. *)
Theorem keyframe_crosses_the_wire `{JsonText} s g gs header jpeg bytes :
  gen_typed g -> gens_typed gs -> header_fits (recall_fence g gs) ->
  json_plain header = true -> is_object header = true -> Z.of_nat (length (json_print header)) <= 1024 * 1024 ->
  json_plain (sent_header s gs header) = true -> header_fits (sent_header s gs header) ->
  prepare_binary_in (tag_recall_binary (hst_frame header jpeg) (Some g) gs) s = Some bytes ->
  parse_history_frame_binary bytes = Ok (sent_header s gs header, jpeg) /\ gen_module g = Recall /\ matches g s = true.
Proof.
  intros Hg Hgs Hf Hp Ho Hl Hsp Hsf. unfold tag_recall_binary. fold (recall_fence g gs).
  rewrite (prepare_tagged _ g gs); [|by apply recall_fence_plain|done|by apply fence_of_recall]. rewrite payload_module_hst.
  rewrite (bool_decide_true (Recall = Recall)) by done. case_bool_decide as Hm; [|done]. destruct (matches g s) eqn:Hv; [|done].
  cbn [andb]. rewrite prepare_recall_frame by done. intros [= <-]. by rewrite parse_hst_frame.
Qed.

(** ** Examples *)

#[local] Instance ex_times : ChronoText := {| parse_rfc3339 s := Some 5; day_text _ := "day"%string |}.
Definition ex_frame_header : json := mk_obj [("uid", JStr "111"); ("captured_at", JStr "t")]%string.
Definition ex_frame_env : FrameEnv := {| fe_now := 9; fe_file := 3%N; fe_blob := Some true; fe_db := true |}.
Definition ex_ingest (r : AgentRegistry) (db : FrameStore) : FrameStore * FrameEnd :=
  @binary_result bin_uuid ex_times ex_hosts bin_json r db 7%N 70%N ex_frame_header [1; 2] ex_frame_env.
Example ex_ingest_twice :
  let '(db, e) := ex_ingest (ex_registry [(Recall, 2)]) FrameStore_empty in
  e = FrameStored /\ ex_ingest (ex_registry [(Recall, 2)]) (with_blobs db ∅) = (with_blobs db ∅, FrameDuplicate)
  /\ ex_ingest (ex_registry []) FrameStore_empty = (FrameStore_empty, FrameRevoked).
Proof. vm_compute. done. Qed.

Lemma keyframe_crosses_the_wire_witness :
  let g := {| gen_module := Recall; gen_revision := 2 |} in
  let s := {| st_revision := 2; grants := {[Recall := {| g_enabled := true; g_revision := 2 |}]}; receipts := ∅ |} in
  let sent := sent_header s Generations_default ex_header in
  @parse_history_frame_binary bin_json (@hst_frame bin_json sent [1; 2]) = Ok (sent, [1; 2]).
Proof.
  intros g s sent.
  refine (proj1 (@keyframe_crosses_the_wire bin_json s g Generations_default ex_header [1; 2] _ _ _ _ _ _ _ _ _ _)).
  - unfold gen_typed, u64_max. simpl. lia.
  - by split.
  - unfold header_fits. vm_compute. reflexivity.
  - vm_compute. reflexivity.
  - reflexivity.
  - vm_compute. discriminate.
  - vm_compute. reflexivity.
  - unfold header_fits. vm_compute. reflexivity.
  - vm_compute. reflexivity.
Defined.
Lemma keyframe_ack_sound_witness :
  let out := ex_ingest (ex_registry [(Recall, 2)]) FrameStore_empty in
  frame_ack ex_frame_header out.2 = Some (HistoryFrameAck_ (HistoryFrameAck_accepted "111")) /\ holds out.1 7%N 7%N.
Proof.
  intros out. assert (frame_ack ex_frame_header out.2 = Some (HistoryFrameAck_ (HistoryFrameAck_accepted "111"))) as Ha by (vm_compute; reflexivity).
  split; [exact Ha|].
  assert (@blobs FrameStore_empty !! @new_path bin_uuid ex_times 7%N ex_frame_header ex_frame_env = None) as Hn by (vm_compute; reflexivity).
  destruct (@keyframe_ack_sound bin_uuid ex_times ex_hosts bin_json (ex_registry [(Recall, 2)]) FrameStore_empty 7%N 70%N ex_frame_header [1; 2]
              ex_frame_env out.1 out.2 7%N Hn eq_refl eq_refl (surjective_pairing _)) as [Hk _].
  exact (proj1 (proj2 (Hk _ Ha))).
Defined.
