(* ===== verification/Spool.v ===== *)
(** The agent's durable keyframe queue: [agent/src/capture/history/spool.rs] (the on-disk spool, a
    directory of files read in name order), and [agent/src/connection/agent_loop/history.rs]
    (shipping spooled frames and handling the server's acks). *)
From stdpp Require Import sorting.
From S2P Require Import Prelude Text Json Protocol Permissions RecallContext Fence HistoryIngest.
From Stdlib Require Import SpecFloat.
#[local] Set Warnings "-register-all".

Definition MAGIC : list Z := [86; 82; 70; 49].
Definition DEFAULT_MAX_BYTES : Z := 512 * 1024 * 1024.
Definition HISTORY_MAX_IN_FLIGHT : nat := 4.
Definition HISTORY_ACK_TIMEOUT : Duration := secs 90.

(** ** Frames *)

(** Coordinates are [f32] values. *)
Record OcrWord := { ow_t : string; ow_x : spec_float; ow_y : spec_float; ow_w : spec_float; ow_h : spec_float }.
Record HistoryFrame := {
  hf_generation : option Generation; hf_captured_at : Z; hf_capture_duration_ms : option Z; hf_context : option Context;
  hf_context_generations : Generations; hf_monitor : Z; hf_width : Z; hf_height : Z; hf_jpeg : list Z; hf_phash : Z;
  hf_ocr_text : option string; hf_ocr_words : list OcrWord
}.
Record FrameHeader := {
  fh_generation : option Generation; fh_capture_duration_ms : option Z; fh_context : option Context;
  fh_context_generations : Generations; fh_uid : string; fh_captured_at : string; fh_captured_ms : Z;
  fh_monitor : Z; fh_w : Z; fh_h : Z; fh_phash : string; fh_ocr_text : option string; fh_ocr_words : list OcrWord
}.
Record SpooledFrame := { sp_header : FrameHeader; sp_jpeg : list Z }.

(** The spool directory: its files by name. *)
Abbreviation Dir := (gmap string (list Z)).

Definition with_context (h : FrameHeader) (c : option Context) : FrameHeader :=
  {| fh_generation := fh_generation h; fh_capture_duration_ms := fh_capture_duration_ms h; fh_context := c;
     fh_context_generations := fh_context_generations h; fh_uid := fh_uid h; fh_captured_at := fh_captured_at h;
     fh_captured_ms := fh_captured_ms h; fh_monitor := fh_monitor h; fh_w := fh_w h; fh_h := fh_h h; fh_phash := fh_phash h;
     fh_ocr_text := fh_ocr_text h; fh_ocr_words := fh_ocr_words h |}.

(** ** Serde *)

(** [f64] and integers as [f32]. *)
Definition as_f32 (v : json) : option spec_float :=
  match v with
  | JInt z => Some (binary_normalize 24 128 z 0 false)
  | JFloat (S754_finite s m e) => Some (binary_normalize 24 128 (cond_Zopp s (Z.pos m)) e s)
  | JFloat f => Some f
  | _ => None
  end.
Definition decode_word (v : json) : option OcrWord :=
  fs ← struct_fields false ["t"; "x"; "y"; "w"; "h"]%string v;
  match fs with
  | [t; x; y; w; h] =>
      t ← t ≫= as_str; x ← x ≫= as_f32; y ← y ≫= as_f32; w ← w ≫= as_f32; h ← h ≫= as_f32;
      Some {| ow_t := t; ow_x := x; ow_y := y; ow_w := w; ow_h := h |}
  | _ => None
  end.
Definition word_value (w : OcrWord) : json :=
  mk_obj [("t", JStr (ow_t w)); ("x", JFloat (ow_x w)); ("y", JFloat (ow_y w)); ("w", JFloat (ow_w w)); ("h", JFloat (ow_h w))]%string.
Definition defaulted {T} (rd : json -> option T) (d : T) (field : option json) : option T :=
  match field with None => Some d | Some v => rd v end.
Definition signed_int (v : json) : option Z := as_i64 v.

Section serde.
Context `{JsonText}.

(** [deserialize_context]: a context that is too long, unreadable or of another version is no context. *)
Definition deserialize_context (v : json) : option Context :=
  if is_null v || (MAX_CONTEXT_BYTES <? Z.of_nat (length (json_print v))) then None
  else ofilter is_supported (decode_context v).
Definition header_names : list string :=
  ["generation"; "capture_duration_ms"; "context"; "context_generations"; "uid"; "captured_at"; "captured_ms"; "monitor"; "w"; "h";
   "phash"; "ocr_text"; "ocr_words"]%string.
(** [ocr_text] has no default, so only a map may leave it out. *)
Definition ocr_text_field (v : json) (field : option json) : option (option string) :=
  match v, field with JArr _, None => None | _, _ => option_field as_str field end.
Definition decode_header (v : json) : option FrameHeader :=
  fs ← struct_fields false header_names v;
  match fs with
  | [ge; du; co; cg; ui; ca; cm; mo; w; h; ph; ot; ow] =>
      ge ← option_field decode_generation ge; du ← option_field (bounded_int u32_max) du;
      cg ← defaulted decode_generations Generations_default cg;
      ui ← ui ≫= as_str; ca ← ca ≫= as_str; cm ← cm ≫= signed_int; mo ← mo ≫= as_u64;
      w ← w ≫= bounded_int u32_max; h ← h ≫= bounded_int u32_max; ph ← ph ≫= as_str;
      ot ← ocr_text_field v ot;
      ow ← defaulted (fun v => l ← as_array v; mapM decode_word l) [] ow;
      Some {| fh_generation := ge; fh_capture_duration_ms := du; fh_context := co ≫= deserialize_context;
              fh_context_generations := cg; fh_uid := ui; fh_captured_at := ca; fh_captured_ms := cm; fh_monitor := mo;
              fh_w := w; fh_h := h; fh_phash := ph; fh_ocr_text := ot; fh_ocr_words := ow |}
  | _ => None
  end.
Definition header_value (h : FrameHeader) : json :=
  mk_obj ([("generation", opt_value generation_value (fh_generation h))]%string
          ++ (match fh_capture_duration_ms h with Some d => [("capture_duration_ms"%string, JInt d)] | None => [] end)
          ++ (match fh_context h with Some c => [("context"%string, context_to_value c)] | None => [] end)
          ++ [("context_generations", generations_value (fh_context_generations h)); ("uid", JStr (fh_uid h));
              ("captured_at", JStr (fh_captured_at h)); ("captured_ms", JInt (fh_captured_ms h)); ("monitor", JInt (fh_monitor h));
              ("w", JInt (fh_w h)); ("h", JInt (fh_h h)); ("phash", JStr (fh_phash h)); ("ocr_text", opt_value JStr (fh_ocr_text h));
              ("ocr_words", JArr (word_value <$> fh_ocr_words h))]%string).

(** ** The spool directory *)

(** A name [stem.vrf] with a stem; a temporary file ends in [.tmp]. *)
Definition is_spool_name (n : string) : bool :=
  (4 <? String.length n)%nat && String.eqb (String.substring (String.length n - 4) 4 n) ".vrf".
Definition name_le (a b : string) : Prop := String.leb a b = true.
#[export] Instance name_le_dec a b : Decision (name_le a b) := decide (String.leb a b = true).
Definition names (dir : Dir) : list string := merge_sort name_le (List.filter is_spool_name (map_to_list dir).*1).
Definition file_size (dir : Dir) (n : string) : Z := Z.of_nat (length (default [] (dir !! n))).
(** [entries]: oldest first, with their sizes. *)
Definition entries (dir : Dir) : list (string * Z) := (fun n => (n, file_size dir n)) <$> names dir.
Definition pending (dir : Dir) (limit : nat) : list string := take limit (names dir).

Fixpoint evict (max total : Z) (es : list (string * Z)) (dir : Dir) : Dir :=
  match es with
  | [] => dir
  | (n, len) :: es => if total <=? max then dir else evict max (Z.max 0 (total - len)) es (delete n dir)
  end.
Definition sizes (es : list (string * Z)) : Z := foldr (fun e a => e.2 + a) 0 es.
Definition enforce_budget (max : Z) (dir : Dir) : Dir :=
  let es := entries dir in let total := sizes es in if total <=? max then dir else evict max total es dir.

Definition load_frame (bytes : list Z) : option SpooledFrame :=
  if (length bytes <? 8)%nat || negb (starts_with bytes MAGIC) then None
  else
    let hend := (8 + Z.to_nat (from_le_bytes (take 4 (drop 4 bytes))))%nat in
    if (length bytes <? hend)%nat then None
    else
      h ← json_parse (take (hend - 8) (drop 8 bytes)) ≫= decode_header;
      Some {| sp_header := h; sp_jpeg := drop hend bytes |}.

Fixpoint pad_left (n : nat) (s : string) : string :=
  match n with O => s | S n => if (String.length s <=? n)%nat then String "0" (pad_left n s) else s end.
(** [{:013}] of a non-negative number. *)
Definition stamp_text (ms : Z) : string := pad_left 13 (number_text 20 10 ms "").
Definition frame_name (ms : Z) (uid : string) : string :=
  String.append (stamp_text (Z.max ms 0)) (String.append "-" (String.append uid ".vrf")).

Context `{UuidText}.
(** [DateTime::to_rfc3339] and [u64]'s [Display]. *)
Variable rfc3339_text : Z -> string.
Definition frame_header (f : HistoryFrame) (u : Uuid) (s : Store) : FrameHeader :=
  {| fh_generation := hf_generation f; fh_capture_duration_ms := hf_capture_duration_ms f;
     fh_context := (fun c => sanitize_in c s (hf_context_generations f)) <$> hf_context f;
     fh_context_generations := hf_context_generations f; fh_uid := uuid_text u;
     fh_captured_at := rfc3339_text (hf_captured_at f); fh_captured_ms := hf_captured_at f / 1000000; fh_monitor := hf_monitor f;
     fh_w := hf_width f; fh_h := hf_height f; fh_phash := number_text 20 10 (hf_phash f) ""; fh_ocr_text := hf_ocr_text f;
     fh_ocr_words := hf_ocr_words f |}.
Definition frame_bytes (h : FrameHeader) (jpeg : list Z) : list Z :=
  let bytes := json_print (header_value h) in MAGIC ++ to_le_bytes (Z.of_nat (length bytes)) ++ bytes ++ jpeg.
(** [push_in]: [io] says whether creating, writing and renaming the file succeed, [u] is the fresh id. *)
Definition push_in (max : Z) (dir : Dir) (f : HistoryFrame) (s : Store) (u : Uuid) (io : bool) : Dir * result string string :=
  if negb (is_none_or (hf_generation f) (fun g => bool_decide (gen_module g = Recall) && matches g s))
  then (dir, Err "Recall generation revoked before spool write"%string)
  else if negb io then (dir, Err "io"%string)
  else
    let h := frame_header f u s in
    (enforce_budget max (<[frame_name (fh_captured_ms h) (fh_uid h) := frame_bytes h (hf_jpeg f)]> dir), Ok (fh_uid h)).
Definition push (max : Z) (dir : Dir) (f : HistoryFrame) (file : StoreFile) (u : Uuid) (io : bool) : Dir * result string string :=
  push_in max dir f (if isSome (hf_context f) || isSome (hf_generation f) then load_or_default file else Store_default) u io.
End serde.

(** ** Shipping *)

(** Frames on the wire by upload id: their file, and when they were sent. *)
Abbreviation InFlight := (gmap string (string * Instant)).
(** What one pump reads: the module gate, the clock, per file the permission store when the context
    is re-checked and when the fence is, and the time of the send; and how many messages the
    outbound channel still takes before it is closed. *)
Record PumpEnv := {
  pe_allowed : bool; pe_now : Instant; pe_context : string -> Store; pe_fence : string -> StoreFile;
  pe_sent_at : string -> Instant; pe_accepts : nat
}.
Record Pump := { p_dir : Dir; p_in_flight : InFlight; p_out : list (list Z) }.

Section pump.
Context `{JsonText}.

Definition wire_header (h : FrameHeader) : json :=
  mk_obj [("uid", JStr (fh_uid h)); ("captured_at", JStr (fh_captured_at h));
          ("capture_duration_ms", opt_value JInt (fh_capture_duration_ms h)); ("context", opt_value context_to_value (fh_context h));
          ("monitor", JInt (fh_monitor h)); ("w", JInt (fh_w h)); ("h", JInt (fh_h h)); ("phash", JStr (fh_phash h));
          ("ocr_text", opt_value JStr (fh_ocr_text h));
          ("ocr_words", match fh_ocr_words h with [] => JNull | ws => JArr (word_value <$> ws) end)]%string.
Definition rechecked (h : FrameHeader) (s : Store) : FrameHeader :=
  with_context h ((fun c => sanitize_in c s (fh_context_generations h)) <$> fh_context h).
Definition shipped (h : FrameHeader) (jpeg : list Z) : list Z :=
  tag_recall_binary (hst_frame (wire_header h) jpeg) (fh_generation h) (fh_context_generations h).

(** What the loop does with one file: [None] when the channel is closed. *)
Definition pump_one (env : PumpEnv) (path : string) (st : Pump) : option Pump :=
  let dropped := {| p_dir := delete path (p_dir st); p_in_flight := p_in_flight st; p_out := p_out st |} in
  match p_dir st !! path ≫= load_frame with
  | None => Some dropped
  | Some frame =>
      let h := rechecked (sp_header frame) (pe_context env path) in
      if negb (is_some_and (fh_generation h) (fun g => valid_fresh g (pe_fence env path))) then Some dropped
      else if (pe_accepts env <=? length (p_out st))%nat then None
      else Some {| p_dir := p_dir st; p_in_flight := <[fh_uid h := (path, pe_sent_at env path)]> (p_in_flight st);
                   p_out := p_out st ++ [shipped h (sp_jpeg frame)] |}
  end.
Fixpoint pump_loop (env : PumpEnv) (busy : list string) (paths : list string) (st : Pump) : Pump * bool :=
  match paths with
  | [] => (st, true)
  | path :: paths =>
      if (HISTORY_MAX_IN_FLIGHT <=? size (p_in_flight st))%nat then (st, true)
      else if bool_decide (path ∈ busy) then pump_loop env busy paths st
      else match pump_one env path st with
           | None => (st, false)
           | Some st => pump_loop env busy paths st
           end
  end.
(** [pump_history_spool]: the new state, the messages sent, and whether the channel was open. *)
Definition pump_history_spool (env : PumpEnv) (dir : Dir) (in_flight : InFlight) : Pump * bool :=
  if negb (pe_allowed env) then ({| p_dir := dir; p_in_flight := in_flight; p_out := [] |}, true)
  else
    let in_flight := filter (fun kv => saturating_since (pe_now env) kv.2.2 < HISTORY_ACK_TIMEOUT) in_flight in
    let st := {| p_dir := dir; p_in_flight := in_flight; p_out := [] |} in
    if (HISTORY_MAX_IN_FLIGHT <=? size in_flight)%nat then (st, true)
    else
      let busy := (fun kv => kv.2.1) <$> map_to_list in_flight in
      pump_loop env busy (pending dir (HISTORY_MAX_IN_FLIGHT * 8)) st.

(** [handle_history_ack]: whether the text was an ack. *)
Definition handle_history_ack (text : list Z) (dir : Dir) (in_flight : InFlight) : Dir * InFlight * bool :=
  match json_parse text with
  | None => (dir, in_flight, false)
  | Some val =>
      if negb (String.eqb (kind_of val) "history_frame_ack") then (dir, in_flight, false)
      else
        match as_str (idx val "uid") with
        | None => (dir, in_flight, true)
        | Some uid =>
            match in_flight !! uid with
            | Some (path, _) => (delete path dir, delete uid in_flight, true)
            | None => (dir, in_flight, true)
            end
        end
  end.
End pump.

(** ** The directory: lemmas *)

Lemma leb_refl a : String.leb a a = true.
Proof.
  unfold String.leb. pose proof (String.compare_antisym a a) as E. by destruct (String.compare a a).
Qed.
Lemma string_compare_trans a b c : String.compare a b <> Gt -> String.compare b c <> Gt -> String.compare a c <> Gt.
Proof.
  revert b c. induction a as [|x a IH]; intros [|y b] [|z c]; simpl; try done.
  unfold Ascii.compare. destruct (N.compare_spec (N_of_ascii x) (N_of_ascii y)) as [E1|E1|E1]; [| |done];
    destruct (N.compare_spec (N_of_ascii y) (N_of_ascii z)) as [E2|E2|E2]; try done; intros H1 H2.
  - rewrite E1, E2, N.compare_refl. by eapply IH.
  - rewrite E1. by apply N.compare_lt_iff in E2 as ->.
  - rewrite <- E2. by apply N.compare_lt_iff in E1 as ->.
  - assert (N_of_ascii x < N_of_ascii z)%N as Hlt by lia. by apply N.compare_lt_iff in Hlt as ->.
Qed.
Lemma leb_compare a b : String.leb a b = true <-> String.compare a b <> Gt.
Proof. unfold String.leb. by destruct (String.compare a b). Qed.
#[export] Instance name_le_trans : Transitive name_le.
Proof. intros a b c. unfold name_le. rewrite !leb_compare. apply string_compare_trans. Qed.
#[export] Instance name_le_antisymm : AntiSymm (=) name_le.
Proof. intros a b Ha Hb. by apply String.leb_antisym. Qed.
#[export] Instance name_le_total : Total name_le.
Proof. intros a b. unfold name_le. destruct (String.leb_total a b); auto. Qed.

Lemma names_elem dir n : n ∈ names dir <-> is_spool_name n = true /\ is_Some (dir !! n).
Proof.
  unfold names. rewrite merge_sort_Permutation, list_elem_of_In, List.filter_In, <- list_elem_of_In, list_elem_of_fmap.
  split.
  - intros [([n' b] & -> & Hin%elem_of_map_to_list) Hs]. eauto.
  - intros [Hs [b Hb]]. split; [|done]. exists (n, b). split; [done|]. by apply elem_of_map_to_list.
Qed.
Lemma names_NoDup dir : NoDup (names dir).
Proof.
  unfold names. rewrite merge_sort_Permutation. apply NoDup_ListNoDup, List.NoDup_filter, NoDup_ListNoDup, NoDup_fst_map_to_list.
Qed.
Lemma names_sorted dir : StronglySorted name_le (names dir).
Proof. apply StronglySorted_merge_sort; apply _. Qed.
Lemma names_unique dir l :
  StronglySorted name_le l -> NoDup l -> (forall n, n ∈ l <-> is_spool_name n = true /\ is_Some (dir !! n)) -> names dir = l.
Proof.
  intros Hs Hn He. apply (StronglySorted_unique name_le); [apply names_sorted|done|].
  apply NoDup_Permutation; [apply names_NoDup|done|]. intros n. by rewrite names_elem, He.
Qed.
Lemma names_delete_head dir n ns : names dir = n :: ns -> names (delete n dir) = ns.
Proof.
  intros E. pose proof (names_sorted dir) as Hs. pose proof (names_NoDup dir) as Hn. rewrite E in Hs, Hn.
  apply StronglySorted_inv in Hs as [Hs _]. apply NoDup_cons in Hn as [Hn Hd]. apply names_unique; [done|done|].
  intros m. pose proof (names_elem dir m) as Hm. rewrite E, elem_of_cons in Hm. destruct (decide (m = n)) as [->|Hne].
  - rewrite lookup_delete_eq. split; [done|by intros [_ []]].
  - rewrite lookup_delete_ne by done. rewrite <- Hm. split; [by right|by intros [|]].
Qed.
Lemma entries_delete_head dir e es : entries dir = e :: es -> entries (delete e.1 dir) = es.
Proof.
  unfold entries. intros E. apply fmap_cons_inv in E as (n & ns & -> & -> & En). cbn [fst].
  rewrite (names_delete_head dir n ns En). apply list_fmap_ext. intros i m Hm. unfold file_size. rewrite lookup_delete_ne; [done|].
  intros ->. pose proof (names_NoDup dir) as Hn. rewrite En in Hn. apply NoDup_cons in Hn as [Hn _]. apply Hn. by eapply list_elem_of_lookup_2.
Qed.
Lemma sizes_nonneg dir : forall k, 0 <= sizes (drop k (entries dir)).
Proof.
  assert (Forall (fun e : string * Z => 0 <= e.2) (entries dir)) as Hf.
  { unfold entries. apply Forall_fmap, Forall_true. intros n. unfold compose, file_size. simpl. lia. }
  intros k. apply (Forall_drop _ k) in Hf. induction Hf as [|e es He _ IH]; simpl; lia.
Qed.

(** What eviction leaves: the newest frames that fit, and nothing else changes. *)
Definition evicted (max : Z) (dir dir' : Dir) (k : nat) : Prop :=
  entries dir' = drop k (entries dir) /\ (k <= length (entries dir))%nat /\ (sizes (entries dir') <= max \/ entries dir' = [])
  /\ (forall j, (j < k)%nat -> max < sizes (drop j (entries dir)))
  /\ (forall n, is_spool_name n = false \/ n ∉ take k (names dir) -> dir' !! n = dir !! n).
Lemma evict_spec max dir : forall es, entries dir = es -> exists k, evicted max dir (evict max (sizes es) es dir) k.
Proof.
  intros es. revert dir. induction es as [|[n len] es IH]; intros dir E; cbn [evict].
  - exists 0%nat. unfold evicted. rewrite E. split_and!; [done|done|by right|lia|done].
  - destruct (Z.leb_spec (sizes ((n, len) :: es)) max) as [Hle|Hgt].
    + exists 0%nat. unfold evicted. rewrite E. split_and!; [done|lia|by left|lia|done].
    + pose proof (entries_delete_head dir (n, len) es E) as E'. cbn [fst] in E'.
      assert (Z.max 0 (sizes ((n, len) :: es) - len) = sizes es) as ->.
      { pose proof (sizes_nonneg (delete n dir) 0) as Hn. rewrite E', drop_0 in Hn.
        change (sizes ((n, len) :: es)) with (len + sizes es). lia. }
      destruct (IH _ E') as (k & Hk1 & Hk2 & Hk3 & Hk4 & Hk5). exists (S k). unfold evicted. rewrite E. rewrite E' in *.
      split_and!; [done|simpl; lia|done| |].
      * intros [|j] Hj; [done|]. apply Hk4. lia.
      * assert (names dir = n :: names (delete n dir)) as En.
        { unfold entries in E. apply fmap_cons_inv in E as (n' & ns & En & _ & Hnames). injection En as <- _.
          by rewrite Hnames, (names_delete_head dir n ns Hnames). }
        intros m Hm. rewrite Hk5.
        -- rewrite lookup_delete_ne; [done|]. intros ->. destruct Hm as [Hm|Hm].
           ++ assert (m ∈ names dir) as Hin by (rewrite En; by left). apply names_elem in Hin as [Hin _]. congruence.
           ++ apply Hm. rewrite En. by left.
        -- destruct Hm as [Hm|Hm]; [by left|]. right. intros Hin. apply Hm. rewrite En. by right.
Qed.
Lemma enforce_budget_spec max dir : exists k, evicted max dir (enforce_budget max dir) k.
Proof.
  unfold enforce_budget. destruct (Z.leb_spec (sizes (entries dir)) max) as [Hle|]; [|by apply evict_spec].
  exists 0%nat. unfold evicted. split_and!; [done|lia|by left|lia|done].
Qed.

Lemma entries_names dir : (entries dir).*1 = names dir.
Proof. unfold entries. rewrite <- list_fmap_compose. apply list_fmap_id. Qed.
Lemma evicted_names max dir dir' k : evicted max dir dir' k -> names dir' = drop k (names dir).
Proof. intros (He & _). by rewrite <- !entries_names, He, fmap_drop. Qed.
Lemma evicted_gone max dir dir' k n : evicted max dir dir' k -> n ∈ take k (names dir) -> dir' !! n = None.
Proof.
  intros He Hin. destruct (dir' !! n) as [b|] eqn:E; [|done]. exfalso.
  assert (is_spool_name n = true) as Hs.
  { apply (names_elem dir n). rewrite <- (take_drop k (names dir)). apply elem_of_app. by left. }
  assert (n ∈ names dir') as Hn by (apply names_elem; by rewrite E). rewrite (evicted_names _ _ _ _ He) in Hn.
  pose proof (names_NoDup dir) as Hd. rewrite <- (take_drop k (names dir)) in Hd. apply NoDup_app in Hd as (_ & Hd & _). by apply (Hd n).
Qed.

(** ** Reading a spooled frame back *)

(** Values as the Rust types hold them. *)
Record context_typed (c : Context) : Prop := {
  ct_version : 0 <= version c <= 255; ct_bracket : 0 <= bracket_ms c <= u32_max;
  ct_revisions : forall m r, grant_revisions c !! m = Some r -> 0 <= r <= u64_max
}.
Lemma bounded_int_range hi z : 0 <= z <= hi -> hi <= u64_max -> bounded_int hi (JInt z) = Some z.
Proof. intros Hz Hh. unfold bounded_int. rewrite as_u64_JInt by lia. cbn [mbind option_bind]. by rewrite (proj2 (Z.leb_le _ _)) by lia. Qed.

Definition revision_field (kv : Module_ * Z) : string * json := (module_str kv.1, JInt kv.2).
Lemma module_str_inj : Inj (=) (=) module_str.
Proof. intros a b E. apply (f_equal module_of_str) in E. rewrite !module_of_str_module_str in E. congruence. Qed.
Lemma decode_revisions_value g :
  (forall m r, g !! m = Some r -> 0 <= r <= u64_max) -> decode_revisions (revisions_to_value g) = Some g.
Proof.
  intros Hr. unfold revisions_to_value. fold revision_field.
  destruct (mk_obj_fields (revision_field <$> map_to_list g)) as (fields & -> & Hf).
  { rewrite <- list_fmap_compose. change (fst ∘ revision_field) with (module_str ∘ @fst Module_ Z). rewrite list_fmap_compose.
    pose proof module_str_inj. apply NoDup_fmap_2; [apply _|apply NoDup_fst_map_to_list]. }
  apply Permutation_map_inv in Hf as (l & -> & Hl). cbn [decode_revisions].
  assert (forall l', (forall kv, kv ∈ l' -> 0 <= kv.2 <= u64_max) ->
            mapM (fun kv => m ← module_of_str kv.1; z ← as_u64 kv.2; Some (m, z)) (List.map revision_field l') = Some l') as Hm.
  { clear. intros l' Hl. induction l' as [|[m z] l' IH]; [done|]. cbn [List.map revision_field mapM fst snd].
    rewrite module_of_str_module_str. cbn [mbind option_bind]. rewrite as_u64_JInt by (apply (Hl (m, z)); by left). cbn [mbind option_bind].
    rewrite IH; [done|]. intros kv Hin. apply Hl. by right. }
  rewrite Hm.
  - cbn [fmap option_fmap option_map]. f_equal. rewrite <- (list_to_map_to_list g). apply list_to_map_proper; [|by symmetry].
    apply (NoDup_Permutation_proper l.*1 (map_to_list g).*1); [by rewrite Hl|apply NoDup_fst_map_to_list].
  - intros [m r] Hin. rewrite <- Hl in Hin. apply elem_of_map_to_list in Hin. by apply Hr in Hin.
Qed.

Lemma option_field_value {A} (rd : json -> option A) (enc : A -> json) o :
  (forall a, o = Some a -> rd (enc a) = Some a /\ is_null (enc a) = false) -> option_field rd (Some (opt_value enc o)) = Some o.
Proof.
  intros Ho. destruct o as [a|]; [|done]. destruct (Ho a eq_refl) as [Hd Hn]. cbn [opt_value option_field]. destruct (enc a); simpl in *; try done; by rewrite Hd.
Qed.
Lemma decode_window_value w : decode_window (window_to_value w) = Some w.
Proof.
  destruct w as [st r so a t tr]. unfold decode_window.
  assert (struct_fields false ["status"; "reason"; "source"; "app"; "title"; "title_truncated"]%string
            (window_to_value {| w_status := st; w_reason := r; w_source := so; w_app := a; w_title := t; w_title_truncated := tr |})
          = Some [Some (JStr (status_str st)); Some (opt_value (JStr ∘ reason_str) r); Some (JStr (source_str so)); Some (opt_value JStr a);
                  Some (opt_value JStr t); if tr then Some (JBool true) else None]) as -> by by destruct tr.
  cbn [mbind option_bind unit_variant]. rewrite status_wire. cbn [mbind option_bind].
  rewrite (option_field_value (unit_variant reason_from_wire) (JStr ∘ reason_str) r) by (intros x _; simpl; by rewrite reason_wire).
  cbn [mbind option_bind]. rewrite source_wire. cbn [mbind option_bind]. rewrite !(option_field_value as_str JStr) by done. by destruct tr.
Qed.
Lemma decode_browser_value b : decode_browser (browser_to_value b) = Some b.
Proof.
  destruct b as [st r so u h]. unfold decode_browser.
  assert (struct_fields false ["status"; "reason"; "source"; "url"; "url_host"]%string
            (browser_to_value {| b_status := st; b_reason := r; b_source := so; b_url := u; b_url_host := h |})
          = Some [Some (JStr (status_str st)); Some (opt_value (JStr ∘ reason_str) r); Some (JStr (source_str so)); Some (opt_value JStr u);
                  Some (opt_value JStr h)]) as -> by done.
  cbn [mbind option_bind unit_variant]. rewrite status_wire. cbn [mbind option_bind].
  rewrite (option_field_value (unit_variant reason_from_wire) (JStr ∘ reason_str) r) by (intros x _; simpl; by rewrite reason_wire).
  cbn [mbind option_bind]. rewrite source_wire. cbn [mbind option_bind]. by rewrite !(option_field_value as_str JStr) by done.
Qed.
Lemma decode_context_value c : context_typed c -> decode_context (context_to_value c) = Some c.
Proof.
  destruct c as [ve sc br mo w b g]. intros [Hv Hb Hg]. cbn [version bracket_ms grant_revisions] in *. unfold decode_context.
  assert (struct_fields false ["version"; "scope"; "bracket_ms"; "monitor_relation"; "window"; "browser"; "grant_revisions"]%string
            (context_to_value {| version := ve; scope := sc; bracket_ms := br; monitor_relation := mo; window := w; browser := b; grant_revisions := g |})
          = Some [Some (JInt ve); Some (JStr sc); Some (JInt br); Some (JStr mo); Some (window_to_value w); Some (browser_to_value b);
                  Some (revisions_to_value g)]) as -> by done.
  cbn [mbind option_bind]. rewrite (bounded_int_range 255 ve) by (unfold u64_max; lia). cbn [mbind option_bind as_str].
  rewrite (bounded_int_range u32_max br) by (unfold u64_max, u32_max in *; lia). cbn [mbind option_bind].
  rewrite decode_window_value. cbn [mbind option_bind]. rewrite decode_browser_value. cbn [mbind option_bind].
  by rewrite decode_revisions_value.
Qed.

Ltac plain_fields :=
  repeat match goal with
         | |- Forall _ (_ :: _) => apply Forall_cons_2
         | |- Forall _ [] => apply Forall_nil_2
         | |- Forall _ (_ ++ _) => apply Forall_app_2
         end; cbn [snd json_plain forallb]; try done.
Lemma opt_str_plain o : json_plain (opt_value JStr o) = true.
Proof. by destruct o. Qed.
Lemma context_plain c : context_typed c -> json_plain (context_to_value c) = true.
Proof.
  intros [Hv Hb Hg]. unfold context_to_value. apply mk_obj_plain. plain_fields.
  - apply range_plain. unfold u64_max. lia.
  - apply range_plain. unfold u32_max, u64_max in *. lia.
  - unfold window_to_value. apply mk_obj_plain. destruct (w_title_truncated _); plain_fields; try apply opt_str_plain; by destruct (w_reason _).
  - unfold browser_to_value. apply mk_obj_plain. plain_fields; try apply opt_str_plain; by destruct (b_reason _).
  - unfold revisions_to_value. apply mk_obj_plain. apply Forall_fmap, Forall_forall. intros [m r] Hin%elem_of_map_to_list.
    apply range_plain. by eapply Hg.
Qed.

Definition f32_ok (f : spec_float) : Prop := as_f32 (JFloat f) = Some f.
Definition word_typed (w : OcrWord) : Prop := f32_ok (ow_x w) /\ f32_ok (ow_y w) /\ f32_ok (ow_w w) /\ f32_ok (ow_h w).
Lemma decode_word_value w : word_typed w -> decode_word (word_value w) = Some w.
Proof.
  destruct w as [t x y w h]. intros (Hx & Hy & Hw & Hh). unfold f32_ok in *. cbn [ow_x ow_y ow_w ow_h] in *. unfold decode_word.
  assert (struct_fields false ["t"; "x"; "y"; "w"; "h"]%string (word_value {| ow_t := t; ow_x := x; ow_y := y; ow_w := w; ow_h := h |})
          = Some [Some (JStr t); Some (JFloat x); Some (JFloat y); Some (JFloat w); Some (JFloat h)]) as -> by done.
  cbn [mbind option_bind as_str]. rewrite Hx. cbn [mbind option_bind]. rewrite Hy. cbn [mbind option_bind]. rewrite Hw.
  cbn [mbind option_bind]. by rewrite Hh.
Qed.
Lemma decode_words ws : Forall word_typed ws -> mapM decode_word (word_value <$> ws) = Some ws.
Proof. induction 1 as [|w ws Hw _ IH]; [done|]. rewrite fmap_cons. cbn [mapM]. rewrite decode_word_value by done. cbn [mbind option_bind]. by rewrite IH. Qed.

Section roundtrip.
Context `{JsonText}.

Record header_typed (h : FrameHeader) : Prop := {
  ht_generation : forall g, fh_generation h = Some g -> gen_typed g;
  ht_generations : gens_typed (fh_context_generations h);
  ht_duration : forall d, fh_capture_duration_ms h = Some d -> 0 <= d <= u32_max;
  ht_context : forall c, fh_context h = Some c -> context_typed c /\ is_supported c = true
                 /\ Z.of_nat (length (json_print (context_to_value c))) <= MAX_CONTEXT_BYTES;
  ht_ms : i64_min <= fh_captured_ms h <= i64_max; ht_monitor : 0 <= fh_monitor h <= u64_max;
  ht_w : 0 <= fh_w h <= u32_max; ht_h : 0 <= fh_h h <= u32_max; ht_words : Forall word_typed (fh_ocr_words h)
}.
(** The text of the header reads back: always without word boxes, whose floats the text format is
    only known to approximate. *)
Definition reads_back (v : json) : Prop := json_parse (json_print v) = Some v.
Lemma header_fields h :
  struct_fields false header_names (header_value h)
  = Some [Some (opt_value generation_value (fh_generation h)); JInt <$> fh_capture_duration_ms h; context_to_value <$> fh_context h;
          Some (generations_value (fh_context_generations h)); Some (JStr (fh_uid h)); Some (JStr (fh_captured_at h));
          Some (JInt (fh_captured_ms h)); Some (JInt (fh_monitor h)); Some (JInt (fh_w h)); Some (JInt (fh_h h)); Some (JStr (fh_phash h));
          Some (opt_value JStr (fh_ocr_text h)); Some (JArr (word_value <$> fh_ocr_words h))].
Proof. unfold header_value. by destruct (fh_capture_duration_ms h), (fh_context h). Qed.
Lemma deserialize_context_value c :
  context_typed c -> is_supported c = true -> Z.of_nat (length (json_print (context_to_value c))) <= MAX_CONTEXT_BYTES ->
  deserialize_context (context_to_value c) = Some c.
Proof.
  intros Ht Hs Hl. unfold deserialize_context. assert (is_null (context_to_value c) = false) as -> by done. cbn [orb].
  rewrite (proj2 (Z.ltb_ge _ _)) by done. rewrite decode_context_value by done. cbn [ofilter]. by rewrite Hs.
Qed.
Lemma decode_header_value h : header_typed h -> decode_header (header_value h) = Some h.
Proof.
  intros [Hg Hgs Hd Hc Hms Hmo Hw Hh Hwo]. unfold decode_header. rewrite header_fields. cbn [mbind option_bind].
  rewrite (option_field_value decode_generation generation_value).
  2: { intros g Hs. split; [by apply decode_generation_value, Hg|done]. }
  cbn [mbind option_bind].
  assert (option_field (bounded_int u32_max) (JInt <$> fh_capture_duration_ms h) = Some (fh_capture_duration_ms h)) as ->.
  { destruct (fh_capture_duration_ms h) as [d|]; [|done]. cbn [fmap option_fmap option_map option_field].
    rewrite bounded_int_range; [done|by apply Hd|by unfold u32_max, u64_max]. }
  cbn [mbind option_bind defaulted]. rewrite decode_generations_value by done. cbn [mbind option_bind as_str].
  assert (signed_int (JInt (fh_captured_ms h)) = Some (fh_captured_ms h)) as ->.
  { unfold signed_int, as_i64. by rewrite (proj2 (in_range_spec _ _ _)). }
  cbn [mbind option_bind]. rewrite as_u64_JInt by done. cbn [mbind option_bind].
  rewrite (bounded_int_range u32_max (fh_w h)) by (unfold u32_max, u64_max in *; lia). cbn [mbind option_bind].
  rewrite (bounded_int_range u32_max (fh_h h)) by (unfold u32_max, u64_max in *; lia). cbn [mbind option_bind].
  assert (ocr_text_field (header_value h) (Some (opt_value JStr (fh_ocr_text h))) = Some (fh_ocr_text h)) as ->.
  { transitivity (option_field as_str (Some (opt_value JStr (fh_ocr_text h)))); [by destruct (header_value h)|]. by apply option_field_value. }
  cbn [mbind option_bind as_array]. rewrite decode_words by done. cbn [mbind option_bind].
  destruct h as [ge du co cg ui ca cm mo w hh ph ot ow]. cbn in *. do 2 f_equal.
  destruct co as [c|]; [|done]. destruct (Hc c eq_refl) as (Ht & Hs & Hl). by apply deserialize_context_value.
Qed.
Lemma header_plain h : header_typed h -> fh_ocr_words h = [] -> json_plain (header_value h) = true.
Proof.
  intros [Hg Hgs Hd Hc Hms Hmo Hw Hh _] Hwo. unfold header_value. apply mk_obj_plain. rewrite Hwo. cbn [fmap list_fmap].
  assert (forall z, i64_min <= z <= u64_max -> in_range i64_min u64_max z = true) as Hr by (intros; by apply in_range_spec).
  plain_fields.
  - destruct (fh_generation h) as [g|] eqn:E; [|done]. by apply generation_value_plain, Hg.
  - destruct (fh_capture_duration_ms h) as [d|] eqn:E; plain_fields. apply range_plain. specialize (Hd d eq_refl). unfold u32_max, u64_max in *. lia.
  - destruct (fh_context h) as [c|] eqn:E; plain_fields. by apply context_plain, Hc.
  - destruct Hgs as [Hgw Hgb]. unfold generations_value. apply mk_obj_plain.
    destruct (window_generation _) as [x|], (browser_generation _) as [y|]; plain_fields;
      first [by apply generation_value_plain, Hgw|by apply generation_value_plain, Hgb].
  - apply Hr. unfold i64_max, u64_max in *. lia.
  - apply Hr. unfold i64_min. lia.
  - apply Hr. unfold i64_min, u32_max, u64_max in *. lia.
  - apply Hr. unfold i64_min, u32_max, u64_max in *. lia.
  - apply opt_str_plain.
Qed.
Lemma load_frame_bytes h jpeg :
  header_typed h -> header_fits (header_value h) -> reads_back (header_value h) ->
  load_frame (frame_bytes h jpeg) = Some {| sp_header := h; sp_jpeg := jpeg |}.
Proof.
  intros Hh Hf Hr. unfold header_fits in Hf. unfold load_frame, frame_bytes.
  destruct (take_header MAGIC (to_le_bytes (Z.of_nat (length (json_print (header_value h))))) (json_print (header_value h)) jpeg eq_refl eq_refl)
    as (H1 & H2 & H3).
  set (b := MAGIC ++ _) in *.
  assert (length b = 8 + length (json_print (header_value h)) + length jpeg)%nat as Hl by (unfold b; rewrite !length_app; simpl; lia).
  rewrite (proj2 (Nat.ltb_ge _ _)) by lia. assert (starts_with b MAGIC = true) as -> by done. cbn [negb orb].
  rewrite H1, le_bytes_roundtrip, Nat2Z.id by lia. rewrite (proj2 (Nat.ltb_ge _ _)) by lia.
  replace (8 + length (json_print (header_value h)) - 8)%nat with (length (json_print (header_value h))) by lia.
  rewrite H2. unfold reads_back in Hr. rewrite Hr. cbn [mbind option_bind]. rewrite decode_header_value by done.
  cbn [mbind option_bind]. by rewrite H3.
Qed.
End roundtrip.

(** ** Name order is capture order *)

(** [n] in exactly [w] decimal digits. *)
Fixpoint fixed (w : nat) (n : Z) : string :=
  match w with O => EmptyString | S w => String.append (fixed w (n / 10)) (String (digit_char (n mod 10)) EmptyString) end.
Lemma append_length a b : String.length (String.append a b) = (String.length a + String.length b)%nat.
Proof. induction a as [|x a IH]; [done|]. exact (f_equal S IH). Qed.
Lemma fixed_length w n : String.length (fixed w n) = w.
Proof. revert n. induction w as [|w IH]; intros n; [done|]. cbn [fixed]. rewrite append_length, IH. simpl. lia. Qed.
Lemma compare_append p q x y : String.length p = String.length q ->
  String.compare (String.append p x) (String.append q y) = match String.compare p q with Eq => String.compare x y | c => c end.
Proof.
  revert q. induction p as [|a p IH]; intros [|b q]; try done. intros [= Hl].
  change (String.append (String a p) x) with (String a (String.append p x)).
  change (String.append (String b q) y) with (String b (String.append q y)). cbn [String.compare].
  by destruct (Ascii.compare a b); [apply IH|..].
Qed.
Lemma digit_compare a b : 0 <= a < 10 -> 0 <= b < 10 -> Ascii.compare (digit_char a) (digit_char b) = (a ?= b).
Proof.
  intros Ha Hb. unfold Ascii.compare, digit_char. rewrite !(proj2 (Z.ltb_lt _ _)) by lia. rewrite !N_ascii_embedding by lia.
  rewrite Z2N.inj_compare by lia. apply Z.add_compare_mono_l.
Qed.
Lemma fixed_compare w a b : 0 <= a < 10 ^ Z.of_nat w -> 0 <= b < 10 ^ Z.of_nat w -> String.compare (fixed w a) (fixed w b) = (a ?= b).
Proof.
  revert a b. induction w as [|w IH]; intros a b Ha Hb; cbn [fixed].
  - simpl in *. by assert (a = 0) as -> by lia; assert (b = 0) as -> by lia.
  - replace (Z.of_nat (S w)) with (Z.of_nat w + 1) in Ha, Hb by lia. rewrite Z.pow_add_r, Z.pow_1_r in Ha, Hb by lia.
    rewrite compare_append by by rewrite !fixed_length. rewrite IH by (split; [apply Z.div_pos; lia|apply Z.div_lt_upper_bound; lia]).
    pose proof (Z.div_mod a 10 ltac:(lia)). pose proof (Z.div_mod b 10 ltac:(lia)).
    pose proof (Z.mod_pos_bound a 10 ltac:(lia)). pose proof (Z.mod_pos_bound b 10 ltac:(lia)).
    cbn [String.compare]. rewrite digit_compare by lia.
    destruct (Z.compare_spec (a / 10) (b / 10)), (Z.compare_spec (a mod 10) (b mod 10)), (Z.compare_spec a b); try done; lia.
Qed.

Lemma number_text_acc fuel n acc : number_text fuel 10 n acc = String.append (number_text fuel 10 n "") acc.
Proof.
  revert n acc. induction fuel as [|fuel IH]; intros n acc; [done|]. cbn [number_text]. destruct (n / 10 =? 0); [done|].
  rewrite (IH _ (String _ acc)), (IH _ (String _ "")). by rewrite append_assoc.
Qed.
Fixpoint zeros (w : nat) : string := match w with O => EmptyString | S w => String "0" (zeros w) end.
Lemma zeros_snoc w : String.append (zeros w) "0" = zeros (S w).
Proof. induction w as [|w IH]; [done|]. exact (f_equal (String "0") IH). Qed.
Lemma fixed_zero w : fixed w 0 = zeros w.
Proof. induction w as [|w IH]; [done|]. cbn [fixed]. change (0 / 10) with 0. rewrite IH. apply zeros_snoc. Qed.
Lemma pad_left_zeros w s : pad_left w s = String.append (zeros (w - String.length s)) s.
Proof.
  induction w as [|w IH]; [done|]. cbn [pad_left]. destruct (Nat.leb_spec (String.length s) w).
  - replace (S w - String.length s)%nat with (S (w - String.length s)) by lia. cbn [zeros]. exact (f_equal (String "0") IH).
  - by replace (S w - String.length s)%nat with 0%nat by lia.
Qed.
Lemma number_text_length fuel w n : 0 <= n < 10 ^ Z.of_nat (S w) -> (w < fuel)%nat -> (String.length (number_text fuel 10 n "") <= S w)%nat.
Proof.
  revert w n. induction fuel as [|fuel IH]; intros w n Hn Hf; [simpl; lia|]. cbn [number_text]. destruct (Z.eqb_spec (n / 10) 0) as [E|E]; [simpl; lia|].
  rewrite number_text_acc, append_length. destruct w as [|w]; [by rewrite Z.div_small in E by exact Hn|]. cbn [String.length].
  assert (0 <= n / 10 < 10 ^ Z.of_nat (S w)) as Hd.
  { split; [apply Z.div_pos; lia|]. apply Z.div_lt_upper_bound; [lia|]. replace (Z.of_nat (S (S w))) with (1 + Z.of_nat (S w)) in Hn by lia.
    rewrite Z.pow_add_r, Z.pow_1_r in Hn by lia. lia. }
  specialize (IH w (n / 10) Hd ltac:(lia)). lia.
Qed.
Lemma pad_number w fuel n : 0 <= n < 10 ^ Z.of_nat (S w) -> (w < fuel)%nat -> pad_left (S w) (number_text fuel 10 n "") = fixed (S w) n.
Proof.
  revert w n. induction fuel as [|fuel IH]; intros w n Hn Hf; [lia|]. rewrite pad_left_zeros. cbn [number_text fixed].
  destruct (Z.eqb_spec (n / 10) 0) as [E|E].
  - rewrite E, fixed_zero. cbn [String.length]. by replace (S w - 1)%nat with w by lia.
  - rewrite number_text_acc, append_length. destruct w as [|w]; [by rewrite Z.div_small in E by exact Hn|].
    assert (0 <= n / 10 < 10 ^ Z.of_nat (S w)) as Hd.
    { split; [apply Z.div_pos; lia|]. apply Z.div_lt_upper_bound; [lia|]. replace (Z.of_nat (S (S w))) with (1 + Z.of_nat (S w)) in Hn by lia.
      rewrite Z.pow_add_r, Z.pow_1_r in Hn by lia. lia. }
    rewrite <- append_assoc. f_equal. rewrite <- (IH w (n / 10)) by (done || lia). rewrite pad_left_zeros. cbn [String.length].
    by replace (S (S w) - (String.length (number_text fuel 10 (n / 10) "") + 1))%nat with (S w - String.length (number_text fuel 10 (n / 10) ""))%nat by lia.
Qed.

(** Before the year 2286 a millisecond stamp has at most thirteen digits. *)
Lemma stamp_compare a b u v :
  0 <= a < 10 ^ 13 -> 0 <= b < 10 ^ 13 -> a < b -> String.compare (frame_name a u) (frame_name b v) = Lt.
Proof.
  intros Ha Hb Hlt. unfold frame_name, stamp_text. rewrite !Z.max_l by lia.
  rewrite (pad_number 12 20 a), (pad_number 12 20 b) by first [lia|assumption]. rewrite compare_append by by rewrite !fixed_length.
  rewrite fixed_compare by assumption. by rewrite (proj2 (Z.compare_lt_iff _ _)).
Qed.

(** ** Properties *)

Section properties.
Context `{JsonText, UuidText}.
Variable rfc3339_text : Z -> string.

(** A spooled keyframe is durable: a push succeeds exactly when the frame's Recall generation, if it
    has one, still stands and the disk takes it, and then the file, unless the disk budget evicted
    it, reads back as the frame's header, its context re-checked at the push, and the very JPEG
    bytes; a refused push leaves the directory alone. *)
Theorem spooled_frame_reads_back max dir f s u io :
  let h := frame_header rfc3339_text f u s in
  let name := frame_name (fh_captured_ms h) (fh_uid h) in
  header_typed h -> header_fits (header_value h) -> reads_back (header_value h) ->
  let '(dir', res) := push_in rfc3339_text max dir f s u io in
  (is_ok res = is_none_or (hf_generation f) (fun g => bool_decide (gen_module g = Recall) && matches g s) && io)
  /\ (is_ok res = false -> dir' = dir)
  /\ (is_ok res = true -> res = Ok (fh_uid h)
      /\ (dir' !! name = None \/ dir' !! name ≫= load_frame = Some {| sp_header := h; sp_jpeg := hf_jpeg f |})).
Proof.
  intros h name Hh Hf Hr. unfold push_in. destruct (is_none_or _ _); cbn [negb andb]; [|by split_and!].
  destruct io; cbn [negb andb]; [|by split_and!]. fold h. fold name. split_and!; [done|done|]. intros _. split; [done|].
  destruct (enforce_budget_spec max (<[name := frame_bytes h (hf_jpeg f)]> dir)) as (k & He).
  pose proof He as (_ & _ & _ & _ & Hkeep).
  destruct (enforce_budget max _ !! name) as [b|] eqn:Eb; [right|by left].
  destruct (decide (is_spool_name name = false \/ name ∉ take k (names (<[name := frame_bytes h (hf_jpeg f)]> dir)))) as [Hd|Hd].
  - rewrite Hkeep, lookup_insert_eq in Eb by done. injection Eb as <-. cbn [mbind option_bind]. by apply load_frame_bytes.
  - exfalso. apply Hd. right. intros Hin. by rewrite (evicted_gone _ _ _ _ _ He Hin) in Eb.
Qed.

(** C39: the spool keeps the newest frames its budget allows: after a successful push, what is pending is a
    suffix, in order of capture (until 2286), of what was there with the new frame, it fits the budget (or
    nothing is left), one frame more would not have fitted, and no other file is touched; in
    particular nothing is evicted while everything fits. *)
Theorem spool_keeps_newest max dir f s u io dir' uid :
  push_in rfc3339_text max dir f s u io = (dir', Ok uid) ->
  let name := frame_name (hf_captured_at f / 1000000) uid in
  exists file k, let all := <[name := file]> dir in
    names dir' = drop k (names all) /\ StronglySorted name_le (names all)
    /\ (forall a b v w, 0 <= a < b -> b < 10 ^ 13 -> ~ name_le (frame_name b v) (frame_name a w))
    /\ (sizes (entries dir') <= max \/ names dir' = [])
    /\ (forall j, (j < k)%nat -> max < sizes (drop j (entries all)))
    /\ (sizes (entries all) <= max -> dir' = all)
    /\ (forall n, n ∉ take k (names all) -> dir' !! n = all !! n).
Proof.
  unfold push_in. destruct (negb _); [done|]. destruct (negb io); [done|]. set (h := frame_header rfc3339_text f u s).
  intros [= <- <-]. set (all := <[frame_name (fh_captured_ms h) (fh_uid h) := frame_bytes h (hf_jpeg f)]> dir).
  destruct (enforce_budget_spec max all) as (k & He). exists (frame_bytes h (hf_jpeg f)), k. split_and!.
  - by eapply evicted_names.
  - apply names_sorted.
  - intros a b v w Hab Hb. unfold name_le. rewrite leb_compare, String.compare_antisym, (stamp_compare a b) by lia. by intros [].
  - destruct He as (_ & _ & [Hs|Hs] & _); [by left|right].
    pose proof (entries_names (enforce_budget max all)) as E. by rewrite Hs in E.
  - by destruct He as (_ & _ & _ & Hs & _).
  - intros Hle. unfold enforce_budget. fold all. by rewrite (proj2 (Z.leb_le _ _)).
  - intros n Hn. destruct He as (_ & _ & _ & _ & Hk). apply Hk. by right.
Qed.
End properties.

(** ** Examples *)

Definition ex_recall_store : Store :=
  {| st_revision := 2; grants := {[Recall := {| g_enabled := true; g_revision := 2 |}]}; receipts := ∅ |}.
Definition ex_capture (ms : Z) : HistoryFrame :=
  {| hf_generation := Some {| gen_module := Recall; gen_revision := 2 |}; hf_captured_at := ms * 1000000; hf_capture_duration_ms := Some 12;
     hf_context := None; hf_context_generations := Generations_default; hf_monitor := 0; hf_width := 4; hf_height := 3;
     hf_jpeg := [1; 2]; hf_phash := 255; hf_ocr_text := Some "hello"%string; hf_ocr_words := [] |}.
Definition ex_push (max : Z) (dir : Dir) (ms : Z) (u : Uuid) : Dir * result string string :=
  @push_in bin_json bin_uuid (fun _ => "t"%string) max dir (ex_capture ms) ex_recall_store u true.
(** Three pushes under a budget of one frame and a bit: the newest stays. *)
Example ex_evicts :
  let dir := foldl (fun d ms => (ex_push 3000 d ms (Z.to_N ms)).1) ∅ [2000; 1000; 3000] in
  names dir = ["0000000003000-000111011101.vrf"]%string.
Proof. vm_compute. reflexivity. Qed.

Lemma spooled_frame_reads_back_witness :
  let h := @frame_header bin_uuid (fun _ => "t"%string) (ex_capture 5) 1%N ex_recall_store in
  let '(dir', res) := ex_push DEFAULT_MAX_BYTES ∅ 5 1%N in
  is_ok res = true /\ dir' !! "0000000000005-1.vrf"%string ≫= @load_frame bin_json = Some {| sp_header := h; sp_jpeg := [1; 2] |}.
Proof.
  intros h.
  assert (@header_typed bin_json h) as Hh.
  { split; [|by split| |done|by vm_compute|by vm_compute|by vm_compute|by vm_compute|by apply Forall_nil].
    - intros g [= <-]. by vm_compute.
    - intros d [= <-]. by vm_compute. }
  pose proof (@spooled_frame_reads_back bin_json bin_uuid (fun _ => "t"%string) DEFAULT_MAX_BYTES ∅ (ex_capture 5) ex_recall_store 1%N true Hh
                ltac:(unfold header_fits; vm_compute; reflexivity)
                ltac:(unfold reads_back; apply json_parse_print; exact (header_plain h Hh eq_refl))) as Hp.
  unfold ex_push. destruct (push_in _ _ _ _ _ _ _) as [dir' res] eqn:E. destruct Hp as (Hok & _ & Hr).
  assert (is_ok res = true) as Hres by (rewrite Hok; vm_compute; reflexivity).
  split; [exact Hres|]. destruct (Hr Hres) as [_ [Hn|Hl]]; [|exact Hl]. exfalso.
  assert (isSome (fst (ex_push DEFAULT_MAX_BYTES ∅ 5 1%N) !! "0000000000005-1.vrf"%string) = true) as Hs by (vm_compute; reflexivity).
  unfold ex_push in Hs. rewrite E in Hs. cbn [fst] in Hs.
  change (frame_name _ _) with "0000000000005-1.vrf"%string in Hn. by rewrite Hn in Hs.
Defined.
Lemma spool_keeps_newest_witness :
  let dir := (ex_push 3000 ∅ 1000 1%N).1 in
  let '(dir', res) := ex_push 3000 dir 2000 1%N in
  res = Ok "1"%string /\ (sizes (entries dir') <= 3000 \/ names dir' = []).
Proof.
  intros dir. destruct (ex_push 3000 dir 2000 1%N) as [dir' res] eqn:E.
  assert (res = Ok "1"%string) as -> by (change res with (dir', res).2; rewrite <- E; vm_compute; reflexivity).
  split; [reflexivity|].
  destruct (@spool_keeps_newest bin_json bin_uuid (fun _ => "t"%string) 3000 dir (ex_capture 2000) ex_recall_store 1%N true dir' "1"%string E)
    as (file & k & _ & _ & _ & Hs & _). exact Hs.
Defined.
