(* ===== verification/Delivery.v ===== *)
(** Recall keyframes end to end: the agent's spool and in-flight table ([Spool]), its last writer
    ([Fence]), the server's ingestion ([HistoryIngest]) and the acks back, as one transition system
    with losses and reconnects. A frame is shipped again until it is acknowledged, and stored once. *)
From stdpp Require Import relations.
From Stdlib Require Import Sorted.
From S2P Require Import Prelude Text Json Protocol Sessions Modules Registry Permissions RecallContext Fence Keyframes HistoryIngest Spool.

(** ** The system *)

(** The last four fields are history: the uploads ever spooled with their files, the files the budget
    evicted, the files a pump dropped, and the uploads the server rejected. *)
Record Delivery := {
  d_dir : Dir; d_in_flight : InFlight; d_out : list (list Z); d_wire : list (list Z); d_db : FrameStore; d_acks : list (list Z);
  d_pushed : list (string * Uuid); d_evicted : list string; d_dropped : list string; d_rejected : list Uuid
}.
Definition Delivery_new : Delivery :=
  {| d_dir := ∅; d_in_flight := ∅; d_out := []; d_wire := []; d_db := FrameStore_empty; d_acks := [];
     d_pushed := []; d_evicted := []; d_dropped := []; d_rejected := [] |}.
(** The files [dir] has and [dir'] has not. *)
Definition gone (dir dir' : Dir) : list string := List.filter (fun n => negb (isSome (dir' !! n))) (map_to_list dir).*1.

Section delivery.
Context `{UuidText, ChronoText, HostText, JsonText}.
Variable rfc3339_text : Z -> string.
Variables (agent : Uuid) (max_bytes : Z).

Definition ack_text (c : ServerCommand) : list Z := json_print (to_value c).
Definition rejected_upload (c : ServerCommand) : list Uuid :=
  match c with
  | HistoryFrameAck_ a => if hfa_rejected a is Some true then option_list (parse_uuid (hfa_uid a)) else []
  | _ => []
  end.

Inductive d_step (d : Delivery) : Delivery -> Prop :=
| DPush f s u dir' :
    let h := frame_header rfc3339_text f u s in
    let name := frame_name (fh_captured_ms h) (fh_uid h) in
    u ∉ (d_pushed d).*2 -> header_typed h -> header_fits (header_value h) -> reads_back (header_value h) ->
    push_in rfc3339_text max_bytes (d_dir d) f s u true = (dir', Ok (fh_uid h)) ->
    d_step d {| d_dir := dir'; d_in_flight := d_in_flight d; d_out := d_out d; d_wire := d_wire d; d_db := d_db d; d_acks := d_acks d;
                d_pushed := d_pushed d ++ [(name, u)];
                d_evicted := d_evicted d ++ gone (<[name := frame_bytes h (hf_jpeg f)]> (d_dir d)) dir';
                d_dropped := d_dropped d; d_rejected := d_rejected d |}
| DPump env st ok :
    pump_history_spool env (d_dir d) (d_in_flight d) = (st, ok) ->
    d_step d {| d_dir := p_dir st; d_in_flight := p_in_flight st; d_out := d_out d ++ p_out st; d_wire := d_wire d; d_db := d_db d;
                d_acks := d_acks d; d_pushed := d_pushed d; d_evicted := d_evicted d;
                d_dropped := d_dropped d ++ gone (d_dir d) (p_dir st); d_rejected := d_rejected d |}
| DWrite console checked file m out :
    d_out d = m :: out ->
    d_step d {| d_dir := d_dir d; d_in_flight := d_in_flight d; d_out := out;
                d_wire := d_wire d ++ (if prepare_message console checked file (WBinary m) is Some (WBinary b) then [b] else []);
                d_db := d_db d; d_acks := d_acks d; d_pushed := d_pushed d; d_evicted := d_evicted d;
                d_dropped := d_dropped d; d_rejected := d_rejected d |}
| DReceive r conn env b wire db' ack :
    d_wire d = b :: wire -> (forall t, blobs (d_db d) !! frame_path agent t (fe_file env) = None) ->
    ingest_history_frame_binary r (d_db d) agent conn b env = (db', ack) ->
    d_step d {| d_dir := d_dir d; d_in_flight := d_in_flight d; d_out := d_out d; d_wire := wire; d_db := db';
                d_acks := d_acks d ++ option_list (ack_text <$> ack); d_pushed := d_pushed d; d_evicted := d_evicted d;
                d_dropped := d_dropped d; d_rejected := d_rejected d ++ default [] (rejected_upload <$> ack) |}
| DAck t acks dir' fl' known :
    d_acks d = t :: acks -> handle_history_ack t (d_dir d) (d_in_flight d) = (dir', fl', known) ->
    d_step d {| d_dir := dir'; d_in_flight := fl'; d_out := d_out d; d_wire := d_wire d; d_db := d_db d; d_acks := acks;
                d_pushed := d_pushed d; d_evicted := d_evicted d; d_dropped := d_dropped d; d_rejected := d_rejected d |}
(** An ack the server's queue had no room for. *)
| DLoseAck t acks :
    d_acks d = t :: acks ->
    d_step d {| d_dir := d_dir d; d_in_flight := d_in_flight d; d_out := d_out d; d_wire := d_wire d; d_db := d_db d; d_acks := acks;
                d_pushed := d_pushed d; d_evicted := d_evicted d; d_dropped := d_dropped d; d_rejected := d_rejected d |}
(** The session ends, or the agent restarts: everything but the disk and the database is gone. *)
| DReset :
    d_step d {| d_dir := d_dir d; d_in_flight := ∅; d_out := []; d_wire := []; d_db := d_db d; d_acks := [];
                d_pushed := d_pushed d; d_evicted := d_evicted d; d_dropped := d_dropped d; d_rejected := d_rejected d |}.
Definition d_reachable (d : Delivery) : Prop := rtc d_step Delivery_new d.

(** ** Invariant *)

(** Where an upload that was spooled can be. *)
Definition settled (d : Delivery) (p : string) (u : Uuid) : Prop :=
  is_Some (d_dir d !! p) \/ holds (d_db d) agent u \/ u ∈ d_rejected d \/ p ∈ d_evicted d \/ p ∈ d_dropped d.
Definition ack_true (d : Delivery) (t : list Z) : Prop :=
  exists a, t = ack_text (HistoryFrameAck_ a)
    /\ forall u, hfa_uid a = uuid_text u -> u ∈ d_rejected d \/ holds (d_db d) agent u.
Record delivery_ok (d : Delivery) : Prop := {
  dl_files : forall p b, d_dir d !! p = Some b -> exists u, (p, u) ∈ d_pushed d
               /\ forall f, load_frame b = Some f -> fh_uid (sp_header f) = uuid_text u;
  dl_flight : forall uid p t, d_in_flight d !! uid = Some (p, t) -> exists u, uid = uuid_text u /\ (p, u) ∈ d_pushed d;
  dl_bound : (size (d_in_flight d) <= HISTORY_MAX_IN_FLIGHT)%nat;
  dl_once : NoDup (d_pushed d).*1 /\ NoDup (d_pushed d).*2;
  dl_names : forall p u, (p, u) ∈ d_pushed d -> exists ms, p = frame_name ms (uuid_text u);
  dl_acks : Forall (ack_true d) (d_acks d);
  dl_settled : forall p u, (p, u) ∈ d_pushed d -> settled d p u;
  dl_store : store_ok (d_db d)
}.
Lemma delivery_ok_new : delivery_ok Delivery_new.
Proof.
  split; cbn [Delivery_new d_dir d_in_flight d_pushed d_acks d_db].
  - intros p b. by rewrite lookup_empty.
  - intros uid p t. by rewrite lookup_empty.
  - rewrite map_size_empty. unfold HISTORY_MAX_IN_FLIGHT. lia.
  - split; apply NoDup_nil_2.
  - by intros p u ?%not_elem_of_nil.
  - by apply Forall_nil_2.
  - by intros p u ?%not_elem_of_nil.
  - apply store_ok_empty.
Qed.

(** ** Lemmas *)

Lemma gone_elem dir dir' n : n ∈ gone dir dir' <-> is_Some (dir !! n) /\ dir' !! n = None.
Proof.
  unfold gone. rewrite list_elem_of_In, List.filter_In, <- list_elem_of_In, list_elem_of_fmap. split.
  - intros [([m b] & -> & Hin%elem_of_map_to_list) Hn]. cbn [fst] in *. split; [by eexists|]. by destruct (dir' !! m).
  - intros [[b Hb] Hn]. rewrite Hn. split; [|done]. exists (n, b). split; [done|]. by apply elem_of_map_to_list.
Qed.

(** A stamp has no hyphen, so a file name determines its upload. *)
Definition hyphen_free (s : string) : bool := all_char (fun c => negb (Ascii.eqb c "-")) s.
Lemma digit_char_not_hyphen d : 0 <= d < 10 -> Ascii.eqb (digit_char d) "-" = false.
Proof.
  intros Hd. unfold digit_char. rewrite (proj2 (Z.ltb_lt _ _)) by lia. apply Ascii.eqb_neq. intros E. apply (f_equal N_of_ascii) in E.
  rewrite N_ascii_embedding in E by lia. change (N_of_ascii "-") with 45%N in E. lia.
Qed.
Lemma number_text_hyphen fuel n acc : hyphen_free acc = true -> hyphen_free (number_text fuel 10 n acc) = true.
Proof.
  revert n acc. induction fuel as [|fuel IH]; intros n acc Ha; [done|]. cbn [number_text].
  assert (hyphen_free (String (digit_char (n mod 10)) acc) = true) as Hc.
  { unfold hyphen_free. cbn [all_char]. fold (hyphen_free acc). rewrite Ha, digit_char_not_hyphen; [done|]. by apply Z.mod_pos_bound. }
  destruct (n / 10 =? 0); [done|by apply IH].
Qed.
Lemma stamp_hyphen ms : hyphen_free (stamp_text ms) = true.
Proof.
  unfold stamp_text. pose proof (number_text_hyphen 20 ms "" eq_refl) as Hn. revert Hn. generalize (number_text 20 10 ms ""). intros s Hs.
  generalize 13%nat. intros w. induction w as [|w IH]; [done|]. cbn [pad_left]. by destruct (_ <=? _)%nat.
Qed.
Lemma hyphen_split a b x y : hyphen_free a = true -> hyphen_free b = true ->
  String.append a (String "-" x) = String.append b (String "-" y) -> x = y.
Proof.
  revert b. unfold hyphen_free. induction a as [|c a IH]; intros [|e b]; cbn [all_char]; intros Ha Hb.
  - by intros [= ->].
  - change (String.append "" (String "-" x)) with (String "-" x). change (String.append (String e b) _) with (String e (String.append b (String "-" y))).
    intros [= <- _]. done.
  - change (String.append "" (String "-" y)) with (String "-" y). change (String.append (String c a) _) with (String c (String.append a (String "-" x))).
    intros [= -> _]. done.
  - change (String.append (String c a) _) with (String c (String.append a (String "-" x))).
    change (String.append (String e b) _) with (String e (String.append b (String "-" y))). intros [= -> E].
    apply andb_prop in Ha as [_ Ha], Hb as [_ Hb]. by apply (IH b).
Qed.
Lemma append_inj_r a b s : String.append a s = String.append b s -> a = b.
Proof.
  revert b. induction a as [|c a IH]; intros [|e b]; try done.
  - intros E. apply (f_equal String.length) in E. rewrite !append_length in E. simpl in E. lia.
  - intros E. apply (f_equal String.length) in E. rewrite !append_length in E. simpl in E. lia.
  - change (String.append (String c a) s) with (String c (String.append a s)). change (String.append (String e b) s) with (String e (String.append b s)).
    intros [= -> E]. by rewrite (IH b E).
Qed.
Lemma frame_name_inj a b u v : frame_name a (uuid_text u) = frame_name b (uuid_text v) -> u = v.
Proof.
  intros E. assert (uuid_text u = uuid_text v) as Eu.
  { eapply append_inj_r, hyphen_split; [| |exact E]; apply stamp_hyphen. }
  apply (f_equal parse_uuid) in Eu. rewrite !parse_uuid_text in Eu. congruence.
Qed.

(** ** Pumping *)

Definition files_ok (pushed : list (string * Uuid)) (dir : Dir) : Prop :=
  forall p b, dir !! p = Some b -> exists u, (p, u) ∈ pushed /\ forall f, load_frame b = Some f -> fh_uid (sp_header f) = uuid_text u.
Definition flight_ok (pushed : list (string * Uuid)) (fl : InFlight) : Prop :=
  forall uid p t, fl !! uid = Some (p, t) -> exists u, uid = uuid_text u /\ (p, u) ∈ pushed.
Record pump_ok (pushed : list (string * Uuid)) (dir : Dir) (st : Pump) : Prop := {
  pu_files : files_ok pushed (p_dir st); pu_flight : flight_ok pushed (p_in_flight st);
  pu_bound : (size (p_in_flight st) <= HISTORY_MAX_IN_FLIGHT)%nat; pu_sub : p_dir st ⊆ dir
}.
Lemma files_ok_sub pushed dir dir' : dir' ⊆ dir -> files_ok pushed dir -> files_ok pushed dir'.
Proof. intros Hs Hf p b Hp. eapply Hf, lookup_weaken; eauto. Qed.
Lemma flight_ok_sub pushed fl fl' : fl' ⊆ fl -> flight_ok pushed fl -> flight_ok pushed fl'.
Proof. intros Hs Hf uid p t Hp. eapply Hf, lookup_weaken; eauto. Qed.
Lemma map_size_sub {A} (m m' : gmap string A) : m' ⊆ m -> (size m' <= size m)%nat.
Proof. intros Hs. rewrite <- !size_dom. apply subseteq_size, subseteq_dom, Hs. Qed.

Lemma pump_one_ok pushed dir env path st st' :
  pump_ok pushed dir st -> (size (p_in_flight st) < HISTORY_MAX_IN_FLIGHT)%nat -> pump_one env path st = Some st' -> pump_ok pushed dir st'.
Proof.
  intros [Hf Hfl Hb Hs] Hlt. unfold pump_one. set (dropped := Build_Pump _ _ _).
  assert (pump_ok pushed dir dropped) as Hd.
  { split; cbn [p_dir p_in_flight dropped]; [|done|done|].
    - eapply files_ok_sub; [apply delete_subseteq|done].
    - etrans; [apply delete_subseteq|done]. }
  destruct (p_dir st !! path) as [b|] eqn:Hp; cbn [mbind option_bind]; [|by intros [= <-]].
  destruct (load_frame b) as [f|] eqn:Hl; [|by intros [= <-]]. destruct (negb _); [by intros [= <-]|].
  destruct (_ <=? _)%nat; [done|]. intros [= <-]. split; cbn [p_dir p_in_flight]; [done| |rewrite map_size_insert; case_match; simpl; lia|done].
  intros uid p t. rewrite lookup_insert_Some. intros [[<- [= <- <-]]|[_ Hin]]; [|by eapply Hfl].
  destruct (Hf path b Hp) as (u & Hu & Hload). exists u. split; [|done]. apply (Hload f Hl).
Qed.
Lemma pump_loop_ok pushed dir env busy paths st st' ok :
  pump_ok pushed dir st -> pump_loop env busy paths st = (st', ok) -> pump_ok pushed dir st'.
Proof.
  revert st. induction paths as [|path paths IH]; intros st Hst; cbn [pump_loop]; [by intros [= <- <-]|].
  destruct (Nat.leb_spec HISTORY_MAX_IN_FLIGHT (size (p_in_flight st))) as [|Hlt]; [by intros [= <- <-]|].
  case_bool_decide; [by apply IH|]. destruct (pump_one env path st) as [st1|] eqn:E; [|by intros [= <- <-]].
  apply IH. by eapply pump_one_ok.
Qed.
Lemma pump_history_spool_ok pushed env dir fl st ok :
  files_ok pushed dir -> flight_ok pushed fl -> (size fl <= HISTORY_MAX_IN_FLIGHT)%nat ->
  pump_history_spool env dir fl = (st, ok) -> pump_ok pushed dir st.
Proof.
  intros Hf Hfl Hb. unfold pump_history_spool. destruct (negb _); [by intros [= <- <-]|].
  set (fl' := filter _ fl). assert (fl' ⊆ fl) as Hs by apply map_filter_subseteq.
  assert (pump_ok pushed dir {| p_dir := dir; p_in_flight := fl'; p_out := [] |}) as Hi.
  { split; [done|by eapply flight_ok_sub|cbn; pose proof (map_size_sub _ _ Hs); lia|done]. }
  destruct (_ <=? _)%nat; [by intros [= <- <-]|]. intros E. by eapply pump_loop_ok.
Qed.

(** ** Ingestion of any frame *)

Lemma ingest_binary_sound r db conn frame env db' ack :
  (forall u, parse_uuid (trim (uuid_text u)) = Some u) ->
  (forall t, blobs db !! frame_path agent t (fe_file env) = None) ->
  ingest_history_frame_binary r db agent conn frame env = (db', ack) ->
  (forall row, row ∈ frames db -> row ∈ frames db') /\ (store_ok db -> store_ok db')
  /\ (forall c, ack = Some c -> exists a, c = HistoryFrameAck_ a
        /\ forall u, hfa_uid a = uuid_text u -> hfa_rejected a = Some true \/ holds db' agent u).
Proof.
  intros Htrim Hfresh. unfold ingest_history_frame_binary. destruct (parse_history_frame_binary frame) as [[val jpeg]|e]; [|by intros [= <- <-]].
  fold (binary_result r db agent conn val jpeg env). destruct (binary_result _ _ _ _ _ _ _) as [db1 e] eqn:Eb. intros [= <- <-].
  destruct (binary_result_effect _ _ _ _ _ _ _ _ _ (Hfresh _) Eb) as [He Hok]. split_and!; [|done|].
  - intros row Hin. destruct e; simpl in He; [by subst|by destruct He as [-> _]| |by destruct He as [-> _]|by rewrite He].
    destruct He as (row' & gr & -> & _). apply elem_of_app. by left.
  - intros c. unfold frame_ack, ack_history_frame. destruct (as_str (idx val "uid")) as [uid|] eqn:Hu; [|by destruct e]. cbn [ofilter].
    destruct (negb (String.eqb uid "")); [|by destruct e]. cbn [mbind option_bind].
    assert (forall u, uid = uuid_text u -> frame_uid val = Some u) as Hfu.
    { intros u ->. unfold frame_uid. rewrite Hu. apply Htrim. }
    destruct e; intros [= <-]; (eexists; split; [done|]); cbn [hfa_uid hfa_rejected HistoryFrameAck_rejected HistoryFrameAck_accepted]; intros u E.
    + by left.
    + right. destruct He as (row & gr & Hfr & _ & _ & Ha & Hc & _). exists row. rewrite Hfr, Hc, (Hfu u E).
      split_and!; try done. apply elem_of_app. right. by apply list_elem_of_singleton.
    + right. destruct He as (-> & _ & _ & old & Hin & Ha & Hc & _). exists old. by rewrite Hc, (Hfu u E).
Qed.

(** ** The agent reads the ack back *)

Lemma ack_text_parse a : json_parse (ack_text (HistoryFrameAck_ a)) = Some (to_value (HistoryFrameAck_ a)).
Proof.
  unfold ack_text. apply json_parse_print. destruct a as [uid rej rea]. by destruct rej, rea.
Qed.
Lemma ack_value_fields a :
  kind_of (to_value (HistoryFrameAck_ a)) = "history_frame_ack"%string /\ as_str (idx (to_value (HistoryFrameAck_ a)) "uid") = Some (hfa_uid a).
Proof. destruct a as [uid rej rea]. by destruct rej, rea. Qed.
Lemma handle_ack_spec a dir fl :
  handle_history_ack (ack_text (HistoryFrameAck_ a)) dir fl
  = match fl !! hfa_uid a with Some (path, _) => (delete path dir, delete (hfa_uid a) fl, true) | None => (dir, fl, true) end.
Proof.
  unfold handle_history_ack. rewrite ack_text_parse. destruct (ack_value_fields a) as [-> ->]. cbn [String.eqb negb].
  change (negb (String.eqb "history_frame_ack" "history_frame_ack")) with false. by destruct (fl !! hfa_uid a) as [[]|].
Qed.

(** ** Every step keeps the invariant *)

(** The named behaviour of the [uuid] crate's text: no white space around it. *)
Hypothesis uuid_trim : forall u, parse_uuid (trim (uuid_text u)) = Some u.

Lemma settled_mono d d' p u :
  (forall b, d_dir d !! p = Some b -> is_Some (d_dir d' !! p) \/ p ∈ d_evicted d' \/ p ∈ d_dropped d') ->
  (forall row, row ∈ frames (d_db d) -> row ∈ frames (d_db d')) -> d_rejected d ⊆ d_rejected d' ->
  d_evicted d ⊆ d_evicted d' -> d_dropped d ⊆ d_dropped d' -> settled d p u -> settled d' p u.
Proof.
  intros Hdir Hdb Hr He Hdr [[b Hb]|[(row & Hin & Hrow)|[Hs|[Hs|Hs]]]]; unfold settled.
  - destruct (Hdir b Hb) as [|[|]]; auto 6.
  - right; left. exists row. auto.
  - right; right; left. by apply Hr.
  - right; right; right; left. by apply He.
  - right; right; right; right. by apply Hdr.
Qed.
Lemma ack_true_mono d d' t :
  (forall row, row ∈ frames (d_db d) -> row ∈ frames (d_db d')) -> d_rejected d ⊆ d_rejected d' -> ack_true d t -> ack_true d' t.
Proof.
  intros Hdb Hr (a & -> & Ha). exists a. split; [done|]. intros u Hu. destruct (Ha u Hu) as [|(row & Hin & Hrow)]; [left; auto|right].
  exists row. auto.
Qed.
(** A step that leaves the disk, the database and the uploads alone. *)
Lemma quiet_ok d fl out wire acks :
  delivery_ok d -> fl ⊆ d_in_flight d -> acks ⊆ d_acks d ->
  delivery_ok {| d_dir := d_dir d; d_in_flight := fl; d_out := out; d_wire := wire; d_db := d_db d; d_acks := acks;
                 d_pushed := d_pushed d; d_evicted := d_evicted d; d_dropped := d_dropped d; d_rejected := d_rejected d |}.
Proof.
  intros [Hf Hfl Hb Ho Hn Ha Hs Hdb] Hsub Hacks. split; cbn [d_dir d_in_flight d_pushed d_acks d_db]; try done.
  - by eapply flight_ok_sub.
  - pose proof (map_size_sub _ _ Hsub). lia.
  - rewrite Forall_forall in Ha |- *. intros t Ht. by apply (ack_true_mono d); [..|apply Ha, Hacks].
Qed.

Lemma push_ok d f s u dir' (h := frame_header rfc3339_text f u s) (name := frame_name (fh_captured_ms h) (fh_uid h)) :
  delivery_ok d -> u ∉ (d_pushed d).*2 -> header_typed h -> header_fits (header_value h) -> reads_back (header_value h) ->
  push_in rfc3339_text max_bytes (d_dir d) f s u true = (dir', Ok (fh_uid h)) ->
  delivery_ok {| d_dir := dir'; d_in_flight := d_in_flight d; d_out := d_out d; d_wire := d_wire d; d_db := d_db d; d_acks := d_acks d;
                 d_pushed := d_pushed d ++ [(name, u)];
                 d_evicted := d_evicted d ++ gone (<[name := frame_bytes h (hf_jpeg f)]> (d_dir d)) dir';
                 d_dropped := d_dropped d; d_rejected := d_rejected d |}.
Proof.
  intros [Hf Hfl Hb Ho Hn Ha Hs Hdb] Hu Hty Hfits Hreads Hpush. set (all := <[name := frame_bytes h (hf_jpeg f)]> (d_dir d)).
  assert (dir' ⊆ all) as Hsub.
  { unfold push_in in Hpush. destruct (negb _); [done|]. cbn [negb] in Hpush.
    assert (dir' = enforce_budget max_bytes all) as -> by (injection Hpush as <-; done).
    destruct (enforce_budget_spec max_bytes all) as (k & He). pose proof He as (_ & _ & _ & _ & Hk). apply map_subseteq_spec. intros n b Hnb.
    destruct (decide (n ∈ take k (names all))) as [Hin|Hin]; [by rewrite (evicted_gone _ _ _ _ _ He Hin) in Hnb|].
    by rewrite Hk in Hnb by by right. }
  assert (name ∉ (d_pushed d).*1) as Hname.
  { intros ([p v] & Hp & Hin)%list_elem_of_fmap. cbn [fst] in Hp. subst p. destruct (Hn name v Hin) as [ms E].
    assert (u = v) as -> by by eapply (frame_name_inj (fh_captured_ms h) ms). apply Hu. apply list_elem_of_fmap. by exists (name, v). }
  assert (d_pushed d ⊆ d_pushed d ++ [(name, u)]) as Hps by (intros x Hx; apply elem_of_app; by left).
  assert (forall p b, all !! p = Some b -> is_Some (dir' !! p) \/ p ∈ d_evicted d ++ gone all dir') as Hkeep.
  { intros p b Hp. destruct (dir' !! p) as [b'|] eqn:E; [left; by eexists|right]. apply elem_of_app. right. apply gone_elem. by rewrite Hp. }
  split; cbn [d_dir d_in_flight d_pushed d_acks d_db d_evicted d_dropped d_rejected]; try done.
  - intros p b Hp. eapply lookup_weaken in Hp; [|exact Hsub]. unfold all in Hp. apply lookup_insert_Some in Hp as [[<- <-]|[Hne Hp]].
    + exists u. split; [apply elem_of_app; right; by apply list_elem_of_singleton|]. intros fr.
      rewrite load_frame_bytes by done. by intros [= <-].
    + destruct (Hf p b Hp) as (v & Hv & Hl). exists v. auto.
  - intros uid p t Hp. destruct (Hfl uid p t Hp) as (v & Hv & Hin). exists v. auto.
  - rewrite !fmap_app. destruct Ho as [Ho1 Ho2]. split; (apply NoDup_app; split_and!; [done| |apply NoDup_singleton]);
      intros x Hx Hx'%list_elem_of_singleton; by subst x.
  - intros p v [Hin|Hin%list_elem_of_singleton]%elem_of_app; [by apply Hn|]. injection Hin as -> ->. by exists (fh_captured_ms h).
  - intros p v [Hin|Hin%list_elem_of_singleton]%elem_of_app.
    + apply (settled_mono d); [|done|done|intros x Hx; apply elem_of_app; by left|done|by apply Hs]. cbn [d_dir d_evicted d_dropped].
      intros b Hb'. assert (all !! p = Some b) as Hall.
      { unfold all. rewrite lookup_insert_ne; [done|]. intros ->. apply Hname, list_elem_of_fmap. by exists (p, v). }
      destruct (Hkeep p b Hall); auto.
    + injection Hin as -> ->. unfold settled. cbn [d_dir d_evicted]. destruct (Hkeep name (frame_bytes h (hf_jpeg f))) as [|]; auto.
      unfold all. apply lookup_insert_eq.
Qed.

Lemma receive_ok d r conn env b wire db' ack :
  delivery_ok d -> d_wire d = b :: wire -> (forall t, blobs (d_db d) !! frame_path agent t (fe_file env) = None) ->
  ingest_history_frame_binary r (d_db d) agent conn b env = (db', ack) ->
  delivery_ok {| d_dir := d_dir d; d_in_flight := d_in_flight d; d_out := d_out d; d_wire := wire; d_db := db';
                 d_acks := d_acks d ++ option_list (ack_text <$> ack); d_pushed := d_pushed d; d_evicted := d_evicted d;
                 d_dropped := d_dropped d; d_rejected := d_rejected d ++ default [] (rejected_upload <$> ack) |}.
Proof.
  intros [Hf Hfl Hb Ho Hn Ha Hs Hdb] Hw Hfresh Hi. destruct (ingest_binary_sound _ _ _ _ _ _ _ uuid_trim Hfresh Hi) as (Hmono & Hok & Hack).
  assert (d_rejected d ⊆ d_rejected d ++ default [] (rejected_upload <$> ack)) as Hrej by (intros x Hx; apply elem_of_app; by left).
  split; cbn [d_dir d_in_flight d_pushed d_acks d_db]; try done; [| |by apply Hok].
  - apply Forall_app. split.
    + eapply Forall_impl; [exact Ha|]. intros t. by apply ack_true_mono.
    + destruct ack as [c|]; [|by apply Forall_nil_2]. destruct (Hack c eq_refl) as (a & -> & Hu). apply Forall_singleton.
      exists a. split; [done|]. intros u E. cbn [d_rejected d_db]. destruct (Hu u E) as [Hr|Hh]; [left|by right].
      apply elem_of_app. right. cbn [fmap option_fmap option_map default from_option]. unfold rejected_upload, id. rewrite Hr, E, parse_uuid_text.
      by left.
  - intros p u Hin. apply (settled_mono d); [|done|done|done|done|by apply Hs]. cbn [d_dir]. intros x Hx. left. by exists x.
Qed.

Lemma ack_ok d t acks dir' fl' known :
  delivery_ok d -> d_acks d = t :: acks -> handle_history_ack t (d_dir d) (d_in_flight d) = (dir', fl', known) ->
  delivery_ok {| d_dir := dir'; d_in_flight := fl'; d_out := d_out d; d_wire := d_wire d; d_db := d_db d; d_acks := acks;
                 d_pushed := d_pushed d; d_evicted := d_evicted d; d_dropped := d_dropped d; d_rejected := d_rejected d |}.
Proof.
  intros Hd Hacks Hh. pose proof Hd as [Hf Hfl Hb Ho Hn Ha Hs Hdb]. rewrite Hacks in Ha. apply Forall_cons in Ha as [(a & -> & Hu) Ha].
  rewrite handle_ack_spec in Hh. destruct (d_in_flight d !! hfa_uid a) as [[path sent]|] eqn:E.
  2: { injection Hh as <- <- _. apply quiet_ok; [done|done|]. rewrite Hacks. intros x Hx. by right. }
  injection Hh as <- <- _. destruct (Hfl _ _ _ E) as (u & Euid & Hin).
  split; cbn [d_dir d_in_flight d_pushed d_acks d_db]; try done.
  - eapply files_ok_sub; [apply delete_subseteq|done].
  - eapply flight_ok_sub; [apply delete_subseteq|done].
  - pose proof (map_size_sub _ _ (delete_subseteq (d_in_flight d) (hfa_uid a))). lia.
  - intros p v Hin'. destruct (decide (p = path)) as [->|Hne].
    + assert (v = u) as ->.
      { destruct Ho as [Ho _]. apply list_elem_of_lookup in Hin as [i Hi], Hin' as [j Hj].
        assert (i = j) as ->; [|congruence]. eapply (NoDup_lookup _ i j path Ho); rewrite list_lookup_fmap; [by rewrite Hi|by rewrite Hj]. }
      unfold settled. cbn [d_db d_rejected]. destruct (Hu u Euid); auto.
    + apply (settled_mono d); [|done|done|done|done|by apply Hs]. cbn [d_dir]. intros b Hb'. left. rewrite lookup_delete_ne by done. by exists b.
Qed.

Lemma d_step_ok d d' : delivery_ok d -> d_step d d' -> delivery_ok d'.
Proof.
  intros Hd Hstep. pose proof Hd as [Hf Hfl Hb Ho Hn Ha Hs Hdb]. destruct Hstep as
    [f s u dir' h name Hu Hty Hfits Hreads Hpush|env st ok Hpump|console checked file m out Ho'|r conn env b wire db' ack Hw Hfresh Hi
    |t acks dir' fl' known Hacks Hh|t acks Hacks|].
  - by apply push_ok.
  - destruct (pump_history_spool_ok _ _ _ _ _ _ Hf Hfl Hb Hpump) as [Hf' Hfl' Hb' Hsub].
    split; cbn [d_dir d_in_flight d_pushed d_acks d_db]; try done.
    intros p u Hin. apply (settled_mono d); [|done|done|done|intros x Hx; apply elem_of_app; by left|by apply Hs].
    cbn [d_dir d_dropped]. intros b Hp. destruct (p_dir st !! p) as [b'|] eqn:E; [left; by eexists|].
    right; right. apply elem_of_app. right. apply gone_elem. by rewrite Hp.
  - by apply (quiet_ok d (d_in_flight d) _ _ (d_acks d)).
  - by eapply receive_ok.
  - by eapply ack_ok.
  - apply quiet_ok; [done|done|]. rewrite Hacks. intros x Hx. by right.
  - apply quiet_ok; [done|apply map_empty_subseteq|]. by intros x ?%not_elem_of_nil.
Qed.
Lemma d_reachable_ok d : d_reachable d -> delivery_ok d.
Proof.
  unfold d_reachable. assert (forall x, rtc d_step x d -> delivery_ok x -> delivery_ok d) as G; [|intros Hr; by eapply G, delivery_ok_new].
  induction 1 as [|x y z Hxy _ IH]; [done|]. intros Hx. by apply IH, (d_step_ok x).
Qed.

(** C7: no keyframe is silently lost, and none is stored twice: across any interleaving of captures,
    pumps, lost connections, lost acks, restarts and repeated uploads, every upload that was ever
    spooled is still on the agent's disk, or in the server's index, or was rejected by the server
    by name, or gave way to the disk budget, or was dropped by a pump; the index never holds the
    same upload twice and every row has its picture, and never more than four uploads wait for
    an ack. *)
Theorem recall_uploads_never_lost d :
  d_reachable d ->
  (forall p u, (p, u) ∈ d_pushed d ->
     is_Some (d_dir d !! p) \/ holds (d_db d) agent u \/ u ∈ d_rejected d \/ p ∈ d_evicted d \/ p ∈ d_dropped d)
  /\ store_ok (d_db d) /\ (size (d_in_flight d) <= HISTORY_MAX_IN_FLIGHT)%nat.
Proof. intros Hr. pose proof (d_reachable_ok d Hr) as Hd. split_and!; [apply Hd|apply Hd|apply Hd]. Qed.
End delivery.

(** ** What one pump does *)

Section pumping.
Context `{JsonText}.

(** Why a pump drops a file: it cannot be read, or its fence no longer stands. *)
Definition unshippable (env : PumpEnv) (p : string) (b : list Z) : Prop :=
  match load_frame b with
  | None => True
  | Some f => is_some_and (fh_generation (sp_header f)) (fun g => valid_fresh g (pe_fence env p)) = false
  end.
Definition ships (env : PumpEnv) (dir : Dir) (p : string) (m : list Z) : Prop :=
  exists b f g, dir !! p = Some b /\ load_frame b = Some f /\ fh_generation (sp_header f) = Some g
    /\ valid_fresh g (pe_fence env p) = true /\ m = shipped (rechecked (sp_header f) (pe_context env p)) (sp_jpeg f).
Record pumped (env : PumpEnv) (busy : list string) (dir : Dir) (paths : list string) (st st' : Pump) : Prop := {
  pd_sent : exists sent, (sent `sublist_of` paths) /\ (forall p, p ∈ sent -> p ∉ busy)
              /\ (exists out, p_out st' = (p_out st ++ out) /\ Forall2 (ships env dir) sent out);
  pd_sub : p_dir st' ⊆ p_dir st;
  pd_gone : forall p b, p_dir st !! p = Some b -> p_dir st' !! p = None -> (p ∉ busy) /\ unshippable env p b;
  pd_flight : dom (p_in_flight st) ⊆ dom (p_in_flight st')
}.
Lemma StronglySorted_sublist {A} (R : relation A) l k : l `sublist_of` k -> StronglySorted R k -> StronglySorted R l.
Proof.
  induction 1 as [|x l k Hs IH|x l k Hs IH]; intros Hk; [done| |].
  - apply StronglySorted_inv in Hk as [Hk Hx]. apply SSorted_cons; [by apply IH|]. rewrite Forall_forall in Hx |- *.
    intros y Hy. apply Hx. by eapply elem_of_sublist.
  - apply StronglySorted_inv in Hk as [Hk _]. by apply IH.
Qed.
Lemma pumped_refl env busy dir paths st : pumped env busy dir paths st st.
Proof.
  split; [|done| |done].
  - exists []. split_and!; [apply sublist_nil_l|by intros p ?%not_elem_of_nil|]. exists []. by rewrite app_nil_r.
  - intros p b Hp Hn. congruence.
Qed.
Lemma pump_loop_pumped env busy dir paths st st' ok :
  p_dir st ⊆ dir -> pump_loop env busy paths st = (st', ok) -> pumped env busy dir paths st st'.
Proof.
  revert st. induction paths as [|p paths IH]; intros st Hsub; cbn [pump_loop]; [intros [= <- <-]; apply pumped_refl|].
  destruct (_ <=? _)%nat; [intros [= <- <-]; apply pumped_refl|]. case_bool_decide as Hbusy.
  { intros E. destruct (IH st Hsub E) as [(sent & Hs & Hb & Ho) Hd Hg Hf]. split; [|done|done|done].
    exists sent. split; [by apply sublist_cons|done]. }
  unfold pump_one. destruct (p_dir st !! p ≫= load_frame) as [f|] eqn:Hl.
  2: { set (st1 := Build_Pump _ _ _). intros E. assert (p_dir st1 ⊆ dir) as Hsub1 by (etrans; [apply delete_subseteq|done]).
    destruct (IH st1 Hsub1 E) as [(sent & Hs & Hb & Ho) Hd Hg Hf]. split; [|etrans; [exact Hd|apply delete_subseteq]| |done].
    - exists sent. split; [by apply sublist_cons|done].
    - intros q b Hq Hn. destruct (decide (q = p)) as [->|Hne].
      + split; [done|]. unfold unshippable. rewrite Hq in Hl. cbn [mbind option_bind] in Hl. by rewrite Hl.
      + apply Hg; [|done]. cbn. by rewrite lookup_delete_ne. }
  apply bind_Some in Hl as (b & Hb' & Hl). destruct (is_some_and _ _) eqn:Hv; cbn [negb].
  2: { set (st1 := Build_Pump _ _ _). intros E. assert (p_dir st1 ⊆ dir) as Hsub1 by (etrans; [apply delete_subseteq|done]).
    destruct (IH st1 Hsub1 E) as [(sent & Hs & Hb & Ho) Hd Hg Hf]. split; [|etrans; [exact Hd|apply delete_subseteq]| |done].
    - exists sent. split; [by apply sublist_cons|done].
    - intros q b1 Hq Hn. destruct (decide (q = p)) as [->|Hne].
      + split; [done|]. unfold unshippable. assert (b1 = b) as -> by congruence. by rewrite Hl.
      + apply Hg; [|done]. cbn. by rewrite lookup_delete_ne. }
  destruct (_ <=? _)%nat; [intros [= <- <-]; apply pumped_refl|]. set (st1 := Build_Pump _ _ _). intros E.
  destruct (IH st1 Hsub E) as [(sent & Hs & Hb & out & Ho & Hf2) Hd Hg Hf]. split; [|done|done|].
  - exists (p :: sent). split_and!; [by apply sublist_skip|intros q [->|Hq]%elem_of_cons; [done|by apply Hb]|].
    cbn [p_out st1] in Ho. exists (shipped (rechecked (sp_header f) (pe_context env p)) (sp_jpeg f) :: out). split; [by rewrite Ho, <- app_assoc|].
    apply Forall2_cons. split; [|done]. cbn [rechecked with_context fh_generation] in Hv.
    apply is_some_and_true in Hv as (g & Hg' & Hv). exists b, f, g. split_and!; [by eapply lookup_weaken|done..].
  - intros x Hx. apply Hf. cbn [p_in_flight st1]. rewrite dom_insert. set_solver.
Qed.

(** A pump ships oldest first and only what may leave: the messages it sends are frames of pending files
    in capture order, none of them already waiting for an ack, each with a Recall fence that stands
    and with its context re-checked at that moment; it removes only files it cannot read or whose
    fence is gone, never one that is waiting for its ack; with the module off it does nothing. *)
Theorem pump_ships_oldest_first env dir fl st ok :
  pump_history_spool env dir fl = (st, ok) ->
  let waiting := (fun kv => kv.2.1) <$> map_to_list (filter (fun kv => saturating_since (pe_now env) kv.2.2 < HISTORY_ACK_TIMEOUT) fl) in
  (exists sent, sent `sublist_of` pending dir (HISTORY_MAX_IN_FLIGHT * 8) /\ Forall2 (ships env dir) sent (p_out st)
     /\ NoDup sent /\ StronglySorted name_le sent /\ (forall p, p ∈ sent -> p ∉ waiting))
  /\ (forall p b, dir !! p = Some b -> p_dir st !! p = Some b
        \/ (p_dir st !! p = None /\ (p ∉ waiting) /\ unshippable env p b))
  /\ (pe_allowed env = false -> p_dir st = dir /\ p_out st = []).
Proof.
  intros E waiting. unfold pump_history_spool in E.
  assert (forall sent, sent `sublist_of` pending dir (HISTORY_MAX_IN_FLIGHT * 8) -> NoDup sent /\ StronglySorted name_le sent) as Hsub.
  { intros sent Hs. assert (sent `sublist_of` names dir) as Hn by (etrans; [exact Hs|apply sublist_take]). split.
    - eapply sublist_NoDup; [apply names_NoDup|exact Hn].
    - eapply StronglySorted_sublist; [exact Hn|apply names_sorted]. }
  assert (forall out, out = [] -> exists sent, sent `sublist_of` pending dir (HISTORY_MAX_IN_FLIGHT * 8) /\ Forall2 (ships env dir) sent out
     /\ NoDup sent /\ StronglySorted name_le sent /\ (forall p, p ∈ sent -> p ∉ waiting)) as Hnone.
  { intros out ->. exists []. split_and!; [apply sublist_nil_l|done|by apply NoDup_nil_2|by apply SSorted_nil|by intros p ?%not_elem_of_nil]. }
  destruct (pe_allowed env); cbn [negb] in E.
  2: { injection E as <- <-. split_and!; [by apply Hnone|by left|done]. }
  destruct (_ <=? _)%nat; [injection E as <- <-; split_and!; [by apply Hnone|by left|done]|].
  apply (pump_loop_pumped _ _ dir) in E; [|done]. destruct E as [(sent & Hs & Hb & out & Ho & Hf2) Hd Hg _]. cbn [p_dir p_out] in *.
  destruct (Hsub sent Hs) as [Hn Hso]. split_and!; [|..|done].
  - exists sent. by rewrite Ho.
  - intros p b Hp. destruct (p_dir st !! p) as [b'|] eqn:E; [left|right; split; [done|by apply Hg]].
    eapply lookup_weaken in E; [|exact Hd]. congruence.
Qed.
End pumping.

(** ** Progress *)

Section progress.
Context `{UuidText, ChronoText, HostText, JsonText}.
Variable rfc3339_text : Z -> string.
Variables (agent : Uuid) (max_bytes : Z).
Hypothesis uuid_trim : forall u, parse_uuid (trim (uuid_text u)) = Some u.
Hypothesis uuid_nonempty : forall u, uuid_text u <> ""%string.

(** A frame the server accepts, as the agent sends it with the permission store [s]. *)
Record sendable (s : Store) (h : FrameHeader) (jpeg : list Z) (u : Uuid) (g : Generation) : Prop := {
  se_generation : fh_generation h = Some g /\ gen_module g = Recall /\ gen_typed g /\ matches g s = true;
  se_generations : gens_typed (fh_context_generations h);
  se_uid : fh_uid h = uuid_text u;
  se_time : isSome (parse_rfc3339 (fh_captured_at h)) = true;
  se_fence : header_fits (recall_fence g (fh_context_generations h));
  se_wire : json_plain (wire_header h) = true /\ Z.of_nat (length (json_print (wire_header h))) <= 1024 * 1024;
  se_sent : json_plain (sent_header s (fh_context_generations h) (wire_header h)) = true
            /\ header_fits (sent_header s (fh_context_generations h) (wire_header h));
  se_jpeg : jpeg <> [] /\ Z.of_nat (length jpeg) <= MAX_HISTORY_JPEG_BYTES
}.

Lemma sent_header_get s gs header k : is_object header = true -> k <> "context"%string -> get (sent_header s gs header) k = get header k.
Proof.
  intros Ho Hk. unfold sent_header. destruct (_ ≫= _) as [c|]; [destruct (is_supported c)|];
    rewrite ?get_set_idx_ne by (try congruence; by destruct header); by apply get_remove_key_ne.
Qed.

(** The writer lets it through, to exactly the frame the server reads. *)
Lemma write_sendable console s h jpeg u g :
  sendable s h jpeg u g ->
  prepare_message console (FileHolds s) (FileHolds s) (WBinary (shipped h jpeg))
  = Some (WBinary (hst_frame (sent_header s (fh_context_generations h) (wire_header h)) jpeg)).
Proof.
  intros [(Hg & Hm & Hgt & Hv) Hgs _ _ Hf [Hwp Hwl] _ _]. assert (load (FileHolds s) = Ok s) as Hl by done.
  unfold shipped. rewrite Hg. unfold tag_recall_binary. fold (recall_fence g (fh_context_generations h)).
  pose proof (recall_fence_plain g _ Hgt Hgs) as Hp. pose proof (fence_of_recall g _ Hgt Hgs) as Hd.
  unfold prepare_message, message_allowed. change (starts_with (VGN1 ++ _) VGN1) with true. cbn [andb].
  rewrite (binary_allowed_tagged _ g (fh_context_generations h)) by done. rewrite payload_module_hst, bool_decide_true by done.
  unfold valid_fresh. rewrite Hl. cbn [rok mbind option_bind andb]. rewrite Hv. cbn [negb].
  rewrite (prepare_tagged _ g (fh_context_generations h)) by done. rewrite payload_module_hst, !bool_decide_true by done. rewrite Hv. cbn [andb].
  by rewrite prepare_recall_frame.
Qed.

(** The server stores it, or finds it stored, and says so. *)
Lemma receive_sendable r db conn env s h jpeg u g grants :
  sendable s h jpeg u g -> recall_context_grants r agent conn = Some grants -> fe_blob env = Some true -> fe_db env = true ->
  (forall t, blobs db !! frame_path agent t (fe_file env) = None) ->
  exists db', ingest_history_frame_binary r db agent conn (hst_frame (sent_header s (fh_context_generations h) (wire_header h)) jpeg) env
              = (db', Some (HistoryFrameAck_ (HistoryFrameAck_accepted (uuid_text u)))) /\ holds db' agent u.
Proof.
  intros [_ _ Hu Ht _ _ [Hsp Hsf] [Hj Hjl]] Hgr Hblob Hdb Hfresh. unfold ingest_history_frame_binary. rewrite parse_hst_frame by done.
  set (val := sent_header _ _ _) in *. fold (binary_result r db agent conn val jpeg env).
  assert (get val "uid" = Some (JStr (uuid_text u))) as Huid by (unfold val; rewrite sent_header_get by done; rewrite <- Hu; done).
  assert (get val "captured_at" = Some (JStr (fh_captured_at h))) as Hcap by (unfold val; by rewrite sent_header_get).
  assert (as_str (idx val "uid") = Some (uuid_text u)) as Huid' by (unfold idx; by rewrite Huid).
  assert (frame_uid val = Some u) as Hfu by (unfold frame_uid; rewrite Huid'; apply uuid_trim).
  assert (isSome (parsed_at val) = true) as Hpa by (unfold parsed_at, idx; by rewrite Hcap).
  assert (exists db' e, binary_result r db agent conn val jpeg env = (db', e) /\ (e = FrameStored \/ e = FrameDuplicate)) as (db' & e & Hb & He).
  { unfold binary_result. destruct jpeg as [|x jpeg]; [done|]. rewrite (proj2 (Z.ltb_ge _ _)) by done. unfold store_history_frame.
    rewrite Hpa, Hfu. cbn [isSome negb orb]. rewrite andb_false_r, Hblob. unfold finish_history_frame. rewrite Hgr. destruct grants as [w b].
    rewrite Hdb. cbn [negb]. destruct (insert_screen_frame _ _) as [db1 []]; eauto. }
  rewrite Hb. exists db'. split.
  - f_equal. unfold frame_ack, ack_history_frame. rewrite Huid'. cbn [ofilter]. rewrite (proj2 (String.eqb_neq _ _)) by apply uuid_nonempty.
    by destruct He as [->| ->].
  - destruct (binary_result_effect _ _ _ _ _ _ _ _ _ (Hfresh _) Hb) as [Heff _]. destruct He as [->| ->].
    + destruct Heff as (row & gr & Hfr & _ & _ & Ha & Hc & _). exists row. rewrite Hfr, Hc. split_and!; try done.
      apply elem_of_app. right. by apply list_elem_of_singleton.
    + destruct Heff as (-> & _ & _ & old & Hin & Ha & Hc & _). exists old. by rewrite Hc.
Qed.

Lemma pump_first penv dir p ps b f g st ok (h := rechecked (sp_header f) (pe_context penv p)) :
  names dir = p :: ps -> dir !! p = Some b -> load_frame b = Some f -> pe_allowed penv = true -> (0 < pe_accepts penv)%nat ->
  fh_generation h = Some g -> valid_fresh g (pe_fence penv p) = true ->
  pump_history_spool penv dir ∅ = (st, ok) ->
  exists out path t, p_out st = shipped h (sp_jpeg f) :: out /\ p_in_flight st !! fh_uid h = Some (path, t).
Proof.
  intros Hn Hb Hl Ha Hacc Hg Hv. unfold pump_history_spool. rewrite Ha, map_filter_empty, map_size_empty. cbn [negb]. unfold HISTORY_MAX_IN_FLIGHT at 1.
  cbn [Nat.leb]. unfold pending. rewrite Hn. change (HISTORY_MAX_IN_FLIGHT * 8)%nat with 32%nat. rewrite firstn_cons, map_to_list_empty. cbn [fmap list_fmap].
  cbn [pump_loop p_in_flight]. rewrite map_size_empty. unfold HISTORY_MAX_IN_FLIGHT at 1. cbn [Nat.leb]. rewrite bool_decide_false by by intros ?%not_elem_of_nil.
  unfold pump_one. cbn [p_dir p_out length]. rewrite Hb. cbn [mbind option_bind]. rewrite Hl. fold h.
  change (fh_generation (sp_header f)) with (fh_generation h). rewrite Hg. cbn [is_some_and]. rewrite Hv. cbn [negb].
  rewrite (proj2 (Nat.leb_gt _ _)) by lia. intros E. apply (pump_loop_pumped _ _ dir) in E; [|done].
  destruct E as [(sent & _ & _ & out & Ho & _) _ _ Hf]. cbn [p_out p_in_flight app] in Ho, Hf.
  assert (fh_uid h ∈ dom (p_in_flight st)) as Hd by (apply Hf; rewrite dom_insert; set_solver).
  apply elem_of_dom in Hd as [[path t] Hd]. by exists out, path, t.
Qed.
Lemma NoDup_snd_inj {A B} (l : list (A * B)) a a' b : NoDup l.*2 -> (a, b) ∈ l -> (a', b) ∈ l -> a = a'.
Proof.
  intros Hn [i Hi]%list_elem_of_lookup [j Hj]%list_elem_of_lookup.
  assert (i = j) as ->; [|congruence]. eapply (NoDup_lookup _ i j b Hn); rewrite list_lookup_fmap; [by rewrite Hi|by rewrite Hj].
Qed.

(** C8: a healthy round delivers: from any reachable state with nothing in flight, if the module is
    on, the oldest pending frame is one the server accepts and its fence stands while it is shipped
    and written, then whatever the pump returns, its first message is that frame, which it keeps in
    flight under its upload id; the writer puts it on the wire; every server that holds the Recall
    grant and stores what it is given answers it with an ack and holds the frame, whatever it held
    before; and that ack, whatever else the agent spooled, shipped or had acknowledged meanwhile,
    takes that frame and no other file off the agent's disk and frees its slot, as long as the
    frame is still in flight. *)
Theorem healthy_round_delivers d penv s p u b f g ps st ok :
  d_reachable rfc3339_text agent max_bytes d -> d_in_flight d = ∅ ->
  names (d_dir d) = p :: ps -> d_dir d !! p = Some b -> load_frame b = Some f -> (p, u) ∈ d_pushed d ->
  pe_allowed penv = true -> pe_fence penv p = FileHolds s -> (0 < pe_accepts penv)%nat ->
  sendable s (rechecked (sp_header f) (pe_context penv p)) (sp_jpeg f) u g ->
  pump_history_spool penv (d_dir d) (d_in_flight d) = (st, ok) ->
  exists m rest wire t, p_out st = m :: rest /\ p_in_flight st !! uuid_text u = Some (p, t)
  /\ (forall console, prepare_message console (FileHolds s) (FileHolds s) (WBinary m) = Some (WBinary wire))
  /\ forall r conn env grants db,
       recall_context_grants r agent conn = Some grants -> fe_blob env = Some true -> fe_db env = true ->
       (forall t, blobs db !! frame_path agent t (fe_file env) = None) ->
       exists db' ack, ingest_history_frame_binary r db agent conn wire env = (db', Some ack) /\ holds db' agent u
       /\ forall dir fl, fl !! uuid_text u = Some (p, t) ->
            exists dir' fl', handle_history_ack (ack_text ack) dir fl = (dir', fl', true)
            /\ dir' !! p = None /\ (forall n, n <> p -> dir' !! n = dir !! n)
            /\ fl' !! uuid_text u = None /\ (forall v, v <> uuid_text u -> fl' !! v = fl !! v).
Proof.
  intros Hreach Hfl Hnames Hb Hload Hpu Hallow Hfence Hacc Hs Hpump. set (h := rechecked _ _) in *.
  assert (exists out path t, p_out st = shipped h (sp_jpeg f) :: out /\ p_in_flight st !! fh_uid h = Some (path, t)) as (out & path & t & Ho & Hin).
  { apply (pump_first penv (d_dir d) p ps b f g st ok); try done; [by apply (se_generation _ _ _ _ _ Hs)| |by rewrite <- Hfl].
    rewrite Hfence. by apply (se_generation _ _ _ _ _ Hs). }
  rewrite (se_uid _ _ _ _ _ Hs) in Hin.
  assert (path = p) as ->.
  { pose proof (d_reachable_ok rfc3339_text agent max_bytes uuid_trim d Hreach) as Hok.
    pose proof (d_step_ok rfc3339_text agent max_bytes uuid_trim d _ Hok (DPump rfc3339_text agent max_bytes d penv st ok Hpump)) as Hok1.
    destruct (dl_flight _ _ Hok1 _ _ _ Hin) as (v & Ev & Hv).
    apply (f_equal parse_uuid) in Ev. rewrite !parse_uuid_text in Ev. injection Ev as <-.
    destruct (dl_once _ _ Hok) as [_ Ho2]. by eapply (NoDup_snd_inj (d_pushed d)). }
  eexists _, out, _, t. split_and!; [exact Ho|exact Hin|intros console; exact (write_sendable console s h _ u g Hs)|].
  intros r conn env grants db Hgr Hblob Hdb Hfresh.
  destruct (receive_sendable r db conn env s h (sp_jpeg f) u g grants Hs Hgr Hblob Hdb Hfresh) as (db' & Hing & Hholds).
  eexists db', _. split_and!; [exact Hing|done|]. intros dir fl Hf.
  pose proof (handle_ack_spec (HistoryFrameAck_accepted (uuid_text u)) dir fl) as Hh.
  change (hfa_uid (HistoryFrameAck_accepted (uuid_text u))) with (uuid_text u) in Hh. rewrite Hf in Hh.
  eexists _, _. split_and!; [exact Hh|apply lookup_delete_eq| |apply lookup_delete_eq|]; intros x Hx; by apply lookup_delete_ne.
Qed.
End progress.

(** ** Examples *)

Lemma bin_uuid_trim u : @parse_uuid bin_uuid (trim (@uuid_text bin_uuid u)) = Some u.
Proof.
  destruct u as [|p]; [vm_compute; reflexivity|]. transitivity (@parse_uuid bin_uuid (@uuid_text bin_uuid (N.pos p))); [|apply parse_uuid_text].
  change (uuid_text (N.pos p)) with (pos_bin p). by rewrite trim_pos_bin.
Qed.
Lemma bin_uuid_nonempty u : @uuid_text bin_uuid u <> ""%string.
Proof. destruct u as [|p]; [done|]. apply pos_bin_nonempty. Qed.

Definition ex_text (_ : Z) : string := "t"%string.
Definition ex_head : FrameHeader := @frame_header bin_uuid ex_text (ex_capture 5) 1%N ex_recall_store.
Lemma ex_head_typed : @header_typed bin_json ex_head.
Proof.
  split; [|by split| |done|by vm_compute|by vm_compute|by vm_compute|by vm_compute|by apply Forall_nil_2].
  - intros g [= <-]. by vm_compute.
  - intros d [= <-]. by vm_compute.
Qed.
Definition ex_file : string := "0000000000005-1.vrf"%string.
Definition ex_bytes : list Z := @frame_bytes bin_json ex_head [1; 2].
Definition ex_spooled : Delivery :=
  {| d_dir := {[ ex_file := ex_bytes ]}; d_in_flight := ∅; d_out := []; d_wire := []; d_db := FrameStore_empty; d_acks := [];
     d_pushed := [(ex_file, 1%N)]; d_evicted := []; d_dropped := []; d_rejected := [] |}.
Lemma ex_head_reads : @reads_back bin_json (header_value ex_head).
Proof. unfold reads_back. apply json_parse_print. exact (@header_plain bin_json ex_head ex_head_typed eq_refl). Qed.
Lemma ex_delivery_reachable : @d_reachable bin_uuid ex_times ex_hosts bin_json ex_text 7%N DEFAULT_MAX_BYTES ex_spooled.
Proof.
  apply rtc_once. refine (eq_rect _ _ (@DPush bin_uuid ex_times ex_hosts bin_json ex_text 7%N DEFAULT_MAX_BYTES Delivery_new (ex_capture 5)
    ex_recall_store 1%N {[ ex_file := ex_bytes ]} _ ex_head_typed _ ex_head_reads _) _ _).
  - by intros ?%not_elem_of_nil.
  - unfold header_fits. vm_compute. reflexivity.
  - vm_compute. reflexivity.
  - vm_compute. reflexivity.
Qed.
Definition ex_pump_env : PumpEnv :=
  {| pe_allowed := true; pe_now := 0; pe_context _ := ex_recall_store; pe_fence _ := FileHolds ex_recall_store; pe_sent_at _ := 1; pe_accepts := 9 |}.

Lemma recall_uploads_never_lost_witness :
  is_Some (d_dir ex_spooled !! ex_file) \/ holds (d_db ex_spooled) 7%N 1%N \/ 1%N ∈ d_rejected ex_spooled
  \/ ex_file ∈ d_evicted ex_spooled \/ ex_file ∈ d_dropped ex_spooled.
Proof.
  apply (proj1 (@recall_uploads_never_lost bin_uuid ex_times ex_hosts bin_json ex_text 7%N DEFAULT_MAX_BYTES bin_uuid_trim ex_spooled ex_delivery_reachable)).
  by left.
Defined.
Lemma pump_ships_oldest_first_witness :
  let st := (@pump_history_spool bin_json ex_pump_env (d_dir ex_spooled) ∅).1 in
  exists sent, length (p_out st) = 1%nat /\ Forall2 (@ships bin_json ex_pump_env (d_dir ex_spooled)) sent (p_out st).
Proof.
  intros st. destruct (@pump_history_spool bin_json ex_pump_env (d_dir ex_spooled) ∅) as [st' ok] eqn:E.
  destruct (@pump_ships_oldest_first bin_json ex_pump_env (d_dir ex_spooled) ∅ st' ok E) as [(sent & _ & Hf & _) _].
  exists sent. split; [|exact Hf]. subst st. change st' with (st', ok).1. rewrite <- E. vm_compute. reflexivity.
Defined.
Lemma healthy_round_delivers_witness :
  let st := (@pump_history_spool bin_json ex_pump_env (d_dir ex_spooled) ∅).1 in
  exists db' ack dir' fl', @handle_history_ack bin_json (@ack_text bin_uuid bin_json ack) (p_dir st) (p_in_flight st) = (dir', fl', true)
    /\ dir' !! ex_file = None /\ holds db' 7%N 1%N.
Proof.
  destruct (@load_frame bin_json ex_bytes) as [f|] eqn:Hl; [|exfalso; revert Hl; vm_compute; discriminate].
  assert (f = {| sp_header := ex_head; sp_jpeg := [1; 2] |}) as ->.
  { unfold ex_bytes in Hl. rewrite (@load_frame_bytes bin_json ex_head [1; 2] ex_head_typed) in Hl;
      [by injection Hl as <-|unfold header_fits; vm_compute; reflexivity|exact ex_head_reads]. }
  assert (@sendable bin_uuid ex_times bin_json ex_recall_store ex_head [1; 2] 1%N {| gen_module := Recall; gen_revision := 2 |}) as Hs.
  { split.
    - split; [reflexivity|split; [reflexivity|split; [unfold gen_typed, u64_max; simpl; lia|vm_compute; reflexivity]]].
    - by split.
    - reflexivity.
    - reflexivity.
    - unfold header_fits. vm_compute. reflexivity.
    - split; [vm_compute; reflexivity|vm_compute; discriminate].
    - split; [vm_compute; reflexivity|unfold header_fits; vm_compute; reflexivity].
    - split; [discriminate|vm_compute; discriminate]. }
  intros st. destruct (@pump_history_spool bin_json ex_pump_env (d_dir ex_spooled) ∅) as [st' ok] eqn:E.
  assert (st = st') as -> by done.
  destruct (@healthy_round_delivers bin_uuid ex_times ex_hosts bin_json ex_text 7%N DEFAULT_MAX_BYTES bin_uuid_trim bin_uuid_nonempty ex_spooled
            ex_pump_env ex_recall_store ex_file 1%N ex_bytes {| sp_header := ex_head; sp_jpeg := [1; 2] |}
            {| gen_module := Recall; gen_revision := 2 |} [] st' ok ex_delivery_reachable eq_refl)
    as (m & rest & wire & t & _ & Hin & _ & Hserve); [..|exact E|].
  - vm_compute. reflexivity.
  - apply lookup_singleton_eq.
  - exact Hl.
  - by left.
  - reflexivity.
  - reflexivity.
  - simpl. lia.
  - exact Hs.
  - destruct (Hserve (ex_registry [(Recall, 2)]) 70%N ex_frame_env (default (None, None) (recall_context_grants (ex_registry [(Recall, 2)]) 7%N 70%N)) FrameStore_empty) as (db' & ack & _ & Hholds & Hack);
      [vm_compute; reflexivity|reflexivity|reflexivity|intros t0; apply lookup_empty|].
    destruct (Hack (p_dir st') _ Hin) as (dir' & fl' & He & Hgone & _).
    exists db', ack, dir', fl'. split; [exact He|]. split; [exact Hgone|exact Hholds].
Defined.
