(* ===== verification/Throttle.v ===== *)
(** Rate limits of the server: login lockout ([server/src/auth/lockout.rs]), the audit and
    wake-on-LAN throttles ([server/src/state/throttles.rs]), and which client address they key on
    ([server/src/http/trusted_proxy.rs]). *)
From Stdlib Require Import Sorted.
From S2P Require Import Prelude Text.

(** ** Login lockout *)

Definition LOGIN_FAIL_WINDOW : Duration := secs 900.
Definition MAX_LOGIN_FAILURES_PER_WINDOW : nat := 10.

Abbreviation FailureMap := (gmap string (list Instant)).

(** A failure at [t] still counts at [now]. *)
Definition fresh (now t : Instant) : bool := saturating_since now t <? LOGIN_FAIL_WINDOW.
Definition prune (now : Instant) (v : list Instant) : list Instant := List.filter (fresh now) v.

(** [iter().min()] of a non-empty list, and the seconds left of the window that opened then. *)
Definition oldest (now : Instant) (v : list Instant) : Instant := match v with [] => now | t :: v => foldr Z.min t v end.
Definition retry_secs (now : Instant) (v : list Instant) : Z :=
  Z.max 1 (as_secs (Z.max 0 (LOGIN_FAIL_WINDOW - saturating_since now (oldest now v)))).

Definition lockout_retry_after (map : FailureMap) (key : string) (now : Instant) : FailureMap * option Z :=
  match map !! key with
  | None => (map, None)
  | Some v =>
      let v := prune now v in
      if Nat.eqb (length v) 0 then (delete key map, None)
      else (<[key := v]> map,
            if (MAX_LOGIN_FAILURES_PER_WINDOW <=? length v)%nat then Some (retry_secs now v) else None)
  end.

Definition lockout_record (map : FailureMap) (key : string) (now : Instant) : FailureMap * result Z Z :=
  let v := prune now (default [] (map !! key)) ++ [now] in
  (<[key := v]> map,
   if (MAX_LOGIN_FAILURES_PER_WINDOW <=? length v)%nat then Err (retry_secs now v)
   else Ok (Z.of_nat (MAX_LOGIN_FAILURES_PER_WINDOW - length v))).

Definition clear_login_failures (map : FailureMap) (key : string) : FailureMap := delete key map.

(** The buckets of an attempt: its client address and its account. *)
Definition login_locked_retry_after (map : FailureMap) (ip_key user_key : string) (now : Instant) : FailureMap * option Z :=
  let (map, ip) := lockout_retry_after map ip_key now in
  let (map, user) := lockout_retry_after map user_key now in
  (map, match ip, user with
        | Some a, Some b => Some (Z.max a b)
        | Some a, None => Some a
        | None, b => b
        end).
Definition record_login_failure_both (map : FailureMap) (ip_key user_key : string) (now : Instant) : FailureMap * result Z Z :=
  let (map, ip) := lockout_record map ip_key now in
  let (map, user) := lockout_record map user_key now in
  (map, match ip, user with
        | Err a, Err b => Err (Z.max a b)
        | Err a, _ => Err a
        | _, Err b => Err b
        | Ok a, Ok b => Ok (Z.min a b)
        end).
Definition clear_login_failures_both (map : FailureMap) (ip_key user_key : string) : FailureMap :=
  clear_login_failures (clear_login_failures map ip_key) user_key.

(** ** The login handler *)

(** [login_username_key]; the address key of [login_client_key] never has this prefix.
    [normalized] is the trimmed, lowercased name. *)
Definition login_username_key (normalized : string) : string := String.append "user:" normalized.

(** What one request brings and what the database and the credential checks answer. *)
Record LoginAttempt := {
  ip_key : string;
  username : string;
  check_at : Instant;
  record_at : Instant;
  user_row : result (option string) string;
  password_ok : string -> bool;
  totp_row : result (option string * bool) string;
  totp_code : string;
  totp_verify : string -> string -> bool;
  recovery_ok : string -> bool
}.
Definition user_key (a : LoginAttempt) : string := login_username_key (username a).

Inductive LoginOutcome : Type :=
| RateLimited (retry : Z)
| LimitReached (retry : Z)
| InvalidCredentials (remaining : Z)
| TotpRequired
| InvalidTotp
| InternalError (e : string)
| Authenticated.

Definition wrong_password (map : FailureMap) (a : LoginAttempt) : FailureMap * LoginOutcome :=
  let (map, r) := record_login_failure_both map (ip_key a) (user_key a) (record_at a) in
  (map, match r with Err retry => LimitReached retry | Ok remaining => InvalidCredentials remaining end).

(** [login], up to creating the session. *)
Definition login (map : FailureMap) (a : LoginAttempt) : FailureMap * LoginOutcome :=
  let (map, locked) := login_locked_retry_after map (ip_key a) (user_key a) (check_at a) in
  match locked with
  | Some retry => (map, RateLimited retry)
  | None =>
      match user_row a with
      | Err e => (map, InternalError e)
      | Ok None => wrong_password map a
      | Ok (Some hash) =>
          if negb (password_ok a hash) then wrong_password map a
          else
            match totp_row a with
            | Err e => (map, InternalError e)
            | Ok (secret, enabled) =>
                if enabled && String.eqb (totp_code a) "" then (map, TotpRequired)
                else if enabled && negb (is_some_and secret (fun s => totp_verify a s (totp_code a)) || recovery_ok a (totp_code a))
                then ((record_login_failure_both map (ip_key a) (user_key a) (record_at a)).1, InvalidTotp)
                else (clear_login_failures_both map (ip_key a) (user_key a), Authenticated)
            end
      end
  end.

(** ** Recall access audit *)

Definition RECALL_AUDIT_WINDOW : Duration := secs 600.
Definition RECALL_AUDIT_MAX_TRACKED : Z := 4096.
Abbreviation RecallAuditKey := (Uuid * Uuid * string)%type.

Definition covered (now at_ : Instant) : bool := saturating_since now at_ <? RECALL_AUDIT_WINDOW.
Definition recall_audit_decision (seen : gmap RecallAuditKey Instant) (key : RecallAuditKey) (now : Instant)
    : gmap RecallAuditKey Instant * bool :=
  let seen :=
    if RECALL_AUDIT_MAX_TRACKED <=? map_len seen then
      let live := filter (fun kv => covered now kv.2 = true) seen in
      if RECALL_AUDIT_MAX_TRACKED <=? map_len live then ∅ else live
    else seen in
  if is_some_and (seen !! key) (covered now) then (seen, false) else (<[key := now]> seen, true).

(** ** Wake-on-LAN *)

Definition wol_throttle_check (last_wake : gmap Uuid Instant) (agent_id : Uuid) (min_interval : Duration) (now : Instant)
    : result unit Z :=
  if min_interval =? 0 then Ok tt
  else
    match last_wake !! agent_id with
    | Some last =>
        let elapsed := saturating_since now last in
        if elapsed <? min_interval then Err (Z.max 1 (as_secs (Z.max 0 (min_interval - elapsed)))) else Ok tt
    | None => Ok tt
    end.
Definition wol_mark_sent (last_wake : gmap Uuid Instant) (agent_id : Uuid) (min_interval : Duration) (now : Instant)
    : gmap Uuid Instant :=
  if min_interval =? 0 then last_wake else <[agent_id := now]> last_wake.

(** ** Trusted proxies *)

Record Cidr := { base : IpAddr; prefix : Z }.

(** [MAX.checked_shl(bits - prefix).unwrap_or(0)] and the masked comparison. *)
Definition mask (bits prefix : Z) : Z :=
  if bits - prefix <? bits then Z.shiftl (2 ^ bits - 1) (bits - prefix) mod 2 ^ bits else 0.
Definition masked_eq (bits a b prefix : Z) : bool := Z.land a (mask bits prefix) =? Z.land b (mask bits prefix).
Definition contains (c : Cidr) (ip : IpAddr) : bool :=
  match base c, ip with
  | V4 b, V4 i => masked_eq 32 b i (prefix c)
  | V6 b, V6 i => masked_eq 128 b i (prefix c)
  | _, _ => false
  end.
Definition is_trusted (cidrs : list Cidr) (ip : IpAddr) : bool := existsb (fun c => contains c ip) cidrs.

(** [Cidr::parse] and [TrustedProxies::parse_list]. *)
Definition cidr_parse (s : string) : option Cidr :=
  let s := trim s in
  if String.eqb s "" then None else
  match split_once "/" s with
  | Some (addr_s, prefix_s) =>
      base ← parse_ip (trim addr_s); prefix ← parse_uint 255 (trim prefix_s);
      if ip_width base <? prefix then None else Some {| base := base; prefix := prefix |}
  | None => base ← parse_ip s; Some {| base := base; prefix := ip_width base |}
  end.
Definition list_separator (c : ascii) : bool := existsb (N.eqb (N_of_ascii c)) [44; 32; 10; 9; 13]%N.
Definition parse_list (s : string) : list Cidr * list string :=
  foldr (fun part '(cidrs, invalid) =>
           let p := trim part in
           if String.eqb p "" then (cidrs, invalid)
           else match cidr_parse p with Some c => (c :: cidrs, invalid) | None => (cidrs, p :: invalid) end)
        ([], []) (split_by list_separator s).

Fixpoint find_map {A B} (f : A -> option B) (l : list A) : option B :=
  match l with [] => None | x :: l => match f x with Some y => Some y | None => find_map f l end end.

(** The headers that matter, when present and readable as text. *)
Record ForwardHeaders := { x_forwarded_for : option string; x_real_ip : option string }.
Definition forwarded_client_ip (h : ForwardHeaders) : option IpAddr :=
  match x_forwarded_for h ≫= fun v => find_map (parse_ip ∘ trim) (split_on "," v) with
  | Some ip => Some ip
  | None => x_real_ip h ≫= parse_ip ∘ trim
  end.
Definition client_ip (cidrs : list Cidr) (h : ForwardHeaders) (peer : IpAddr) : IpAddr :=
  if is_trusted cidrs peer then default peer (forwarded_client_ip h) else peer.

(** ** Lockout against a log that forgets nothing *)

Inductive LockOp : Type :=
| OpCheck (key : string) (now : Instant)
| OpRecord (key : string) (now : Instant)
| OpClear (key : string).
Inductive LockReply : Type :=
| ReplyCheck (retry : option Z)
| ReplyRecord (r : result Z Z)
| ReplyClear.

Definition lock_step (map : FailureMap) (op : LockOp) : FailureMap * LockReply :=
  match op with
  | OpCheck k now => let (map, r) := lockout_retry_after map k now in (map, ReplyCheck r)
  | OpRecord k now => let (map, r) := lockout_record map k now in (map, ReplyRecord r)
  | OpClear k => (clear_login_failures map k, ReplyClear)
  end.

(** The reference, which shares nothing with the buckets: every failure since its key was last cleared, in
    order; those less than 15 minutes old count, and from the tenth on the key is locked until the first of
    them is 15 minutes old, in whole seconds and at least one. *)
Abbreviation FailureLog := (list (string * Instant)).
Definition failures (log : FailureLog) (k : string) : list Instant := snd <$> filter (fun e => e.1 = k) log.
Definition minutes (n : Z) : Duration := n * 60 * 1000000000.
Definition recent (now : Instant) (l : list Instant) : list Instant := List.filter (fun t => now <? t + minutes 15) l.
Definition unlocks_in (now : Instant) (l : list Instant) : Z :=
  match l with [] => 1 | first :: _ => Z.max 1 ((first + minutes 15 - now) / 1000000000) end.
Definition spec_step (log : FailureLog) (op : LockOp) : FailureLog * LockReply :=
  match op with
  | OpCheck k now =>
      let v := recent now (failures log k) in
      (log, ReplyCheck (if (10 <=? length v)%nat then Some (unlocks_in now v) else None))
  | OpRecord k now =>
      let log := log ++ [(k, now)] in
      let v := recent now (failures log k) in
      (log, ReplyRecord (if (10 <=? length v)%nat then Err (unlocks_in now v) else Ok (10 - Z.of_nat (length v))))
  | OpClear k => (filter (fun e => e.1 <> k) log, ReplyClear)
  end.

Fixpoint replies {S} (step : S -> LockOp -> S * LockReply) (s : S) (ops : list LockOp) : list LockReply :=
  match ops with
  | [] => []
  | op :: ops => let (s, r) := step s op in r :: replies step s ops
  end.

Definition op_time (op : LockOp) : option Instant :=
  match op with OpCheck _ now | OpRecord _ now => Some now | OpClear _ => None end.
(** The clock readings of a run never go back. *)
Fixpoint clock_ok (since : Instant) (ops : list LockOp) : Prop :=
  match ops with
  | [] => True
  | op :: ops => match op_time op with
                 | Some now => since <= now /\ clock_ok now ops
                 | None => clock_ok since ops
                 end
  end.

(** ** Lemmas *)

Lemma fresh_later now now' t : now <= now' -> fresh now' t = true -> fresh now t = true.
Proof. unfold fresh, saturating_since. rewrite !Z.ltb_lt. lia. Qed.
Lemma fresh_self now : fresh now now = true.
Proof. unfold fresh, saturating_since. by rewrite Z.sub_diag. Qed.

Lemma prune_prune now now' v : now <= now' -> prune now' (prune now v) = prune now' v.
Proof.
  intros Hle. induction v as [|t v IH]; simpl; [done|]. destruct (fresh now t) eqn:E; simpl; [by rewrite IH|].
  destruct (fresh now' t) eqn:E'; [|done]. apply (fresh_later now) in E'; [congruence|done].
Qed.
Lemma prune_app now v w : prune now (v ++ w) = prune now v ++ prune now w.
Proof. apply List.filter_app. Qed.
Lemma prune_length now now' v : now <= now' -> (length (prune now' v) <= length (prune now v))%nat.
Proof.
  intros Hle. induction v as [|t v IH]; simpl; [done|]. destruct (fresh now' t) eqn:E'; simpl.
  - rewrite (fresh_later now now' t) by done. simpl. lia.
  - destruct (fresh now t); simpl; lia.
Qed.

(** A bucket and a log of its key's failures that agree on every window from [since] on. *)
Definition bucket_agrees (since : Instant) (map : FailureMap) (k : string) (v : list Instant) : Prop :=
  forall now, since <= now -> prune now (default [] (map !! k)) = prune now v.

Lemma bucket_agrees_later since since' map k v : since <= since' -> bucket_agrees since map k v -> bucket_agrees since' map k v.
Proof. intros Hle H now Hn. apply H. lia. Qed.

Lemma retry_after_agrees map k now k' v :
  bucket_agrees now map k' v -> bucket_agrees now (lockout_retry_after map k now).1 k' v.
Proof.
  intros Ha. unfold lockout_retry_after. destruct (map !! k) as [w|] eqn:E; [|done].
  destruct (Nat.eqb_spec (length (prune now w)) 0) as [E0|E0]; cbn [fst]; intros t Ht; destruct (decide (k = k')) as [<-|Hne];
    rewrite ?lookup_delete_eq, ?lookup_insert_eq, ?lookup_delete_ne, ?lookup_insert_ne by done; try by apply Ha.
  - cbn [default from_option]. rewrite <- Ha by done. rewrite E. cbn [default from_option id]. rewrite <- (prune_prune now t w) by done.
    by apply nil_length_inv in E0 as ->.
  - cbn [default from_option id]. rewrite prune_prune by done. rewrite <- Ha by done. by rewrite E.
Qed.
Lemma retry_after_reply map k now v :
  bucket_agrees now map k v ->
  (lockout_retry_after map k now).2 = if (MAX_LOGIN_FAILURES_PER_WINDOW <=? length (prune now v))%nat then Some (retry_secs now (prune now v)) else None.
Proof.
  intros Ha. rewrite <- (Ha now) by lia. unfold lockout_retry_after. destruct (map !! k) as [w|]; [|done]. cbn [default from_option id].
  destruct (Nat.eqb_spec (length (prune now w)) 0) as [E0|E0]; [|done]. by rewrite E0.
Qed.
Lemma record_agrees map k now k' v :
  bucket_agrees now map k' v ->
  bucket_agrees now (lockout_record map k now).1 k' (if bool_decide (k = k') then v ++ [now] else v).
Proof.
  intros Ha t Ht. unfold lockout_record. cbn [fst]. case_bool_decide as E.
  - subst. rewrite lookup_insert_eq. cbn [default from_option id]. rewrite !prune_app, prune_prune by done. by rewrite Ha.
  - rewrite lookup_insert_ne by done. by apply Ha.
Qed.
Lemma record_reply map k now v :
  bucket_agrees now map k v ->
  (lockout_record map k now).2 =
  let w := prune now v ++ [now] in
  if (MAX_LOGIN_FAILURES_PER_WINDOW <=? length w)%nat then Err (retry_secs now w)
  else Ok (Z.of_nat (MAX_LOGIN_FAILURES_PER_WINDOW - length w)).
Proof. intros Ha. unfold lockout_record. cbn [snd]. by rewrite (Ha now) by lia. Qed.
Lemma clear_agrees since map k k' v :
  bucket_agrees since map k' v -> bucket_agrees since (clear_login_failures map k) k' (if bool_decide (k = k') then [] else v).
Proof.
  intros Ha t Ht. unfold clear_login_failures. case_bool_decide as E; [subst; by rewrite lookup_delete_eq|].
  rewrite lookup_delete_ne by done. by apply Ha.
Qed.

Lemma failures_app log k e : failures (log ++ [e]) k = failures log k ++ (if bool_decide (e.1 = k) then [e.2] else []).
Proof.
  unfold failures. rewrite filter_app, fmap_app, filter_cons, filter_nil. case_decide; case_bool_decide; done.
Qed.
Lemma failures_clear log k k' : failures (filter (fun e => e.1 <> k) log) k' = if bool_decide (k = k') then [] else failures log k'.
Proof.
  unfold failures. induction log as [|e log IH]; [by case_bool_decide|]. destruct (decide (e.1 = k)) as [E|E].
  - rewrite filter_cons_False by congruence. rewrite IH. case_bool_decide; [done|]. by rewrite filter_cons_False by congruence.
  - rewrite (filter_cons_True _ e) by done. destruct (decide (e.1 = k')) as [E'|E'].
    + rewrite !filter_cons_True by done. rewrite !fmap_cons, IH. case_bool_decide; congruence.
    + by rewrite !filter_cons_False by done.
Qed.

(** ** Properties *)

(** The log is in order and in the past, and the buckets agree with it, on every key. *)
Record agrees (since : Instant) (map : FailureMap) (log : FailureLog) : Prop := {
  ag_buckets : forall k, bucket_agrees since map k (failures log k);
  ag_past : Forall (fun t => t <= since) log.*2;
  ag_sorted : StronglySorted Z.le log.*2
}.
Lemma failures_sublist log k : sublist (failures log k) log.*2.
Proof.
  unfold failures. induction log as [|e log IH]; [constructor|]. rewrite filter_cons. case_decide; rewrite !fmap_cons; by constructor.
Qed.
Lemma sublist_sorted (l k : list Instant) : sublist l k -> StronglySorted Z.le k -> StronglySorted Z.le l.
Proof.
  induction 1 as [|x l k S IH|x l k S IH]; intros K; [done| |].
  - apply StronglySorted_inv in K as [K F]. constructor; [by apply IH|]. by eapply Forall_sub.
  - apply StronglySorted_inv in K as [K F]. by apply IH.
Qed.
Lemma sorted_snoc (l : list Instant) now : Forall (fun t => t <= now) l -> StronglySorted Z.le l -> StronglySorted Z.le (l ++ [now]).
Proof.
  induction l as [|x l IH]; intros F S; [by repeat constructor|]. apply Forall_cons in F as [Fx F]. apply StronglySorted_inv in S as [S G].
  cbn. constructor; [by apply IH|]. apply Forall_app. split; [done|by repeat constructor].
Qed.
Lemma prune_recent now l : Forall (fun t => t <= now) l -> prune now l = recent now l.
Proof.
  unfold prune, recent. induction 1 as [|t l Ht F IH]; [done|]. cbn [List.filter]. rewrite IH.
  assert (E : fresh now t = (now <? t + minutes 15)); [|by rewrite E].
  unfold fresh, saturating_since, LOGIN_FAIL_WINDOW, secs, minutes. apply eq_true_iff_eq. rewrite !Z.ltb_lt. lia.
Qed.
Lemma oldest_first now t l : StronglySorted Z.le (t :: l) -> oldest now (t :: l) = t.
Proof.
  intros S. apply StronglySorted_inv in S as [_ F]. cbn. induction F as [|x l Hx F IH]; [done|]. cbn. rewrite IH. lia.
Qed.
Lemma retry_unlocks now l :
  Forall (fun t => t <= now) l -> StronglySorted Z.le l -> recent now l <> [] -> retry_secs now (recent now l) = unlocks_in now (recent now l).
Proof.
  intros F S N. assert (S' : StronglySorted Z.le (recent now l)) by (eapply sublist_sorted; [apply filter_sublist|done]).
  assert (F' : Forall (fun t => t <= now /\ now < t + minutes 15) (recent now l)).
  { apply Forall_forall. intros t I. unfold recent in I. apply list_elem_of_In, filter_In in I as [I E]. apply list_elem_of_In in I.
    rewrite Forall_forall in F. split; [by apply F|by apply Z.ltb_lt]. }
  destruct (recent now l) as [|t k]; [done|]. apply Forall_cons in F' as [[H1 H2] _]. unfold retry_secs. rewrite oldest_first by done. cbn [unlocks_in].
  unfold as_secs, saturating_since, LOGIN_FAIL_WINDOW, secs, minutes in *. do 2 f_equal. lia.
Qed.
Lemma agrees_view since map log k now : agrees since map log -> since <= now ->
  bucket_agrees now map k (failures log k) /\ Forall (fun t => t <= now) (failures log k) /\ StronglySorted Z.le (failures log k).
Proof.
  intros [B P S] L. split; [by eapply bucket_agrees_later|]. pose proof (failures_sublist log k) as Sub. split.
  - eapply Forall_sub; [exact Sub|]. eapply Forall_impl; [exact P|]. cbn. lia.
  - by eapply sublist_sorted.
Qed.
Lemma agrees_move since now map map' log :
  since <= now -> agrees since map log -> (forall k, bucket_agrees now map' k (failures log k)) -> agrees now map' log.
Proof. intros L [B P S] B'. split; [done| |done]. eapply Forall_impl; [exact P|]. cbn. lia. Qed.

Lemma check_agrees since map log k now :
  agrees since map log -> since <= now ->
  agrees now (lockout_retry_after map k now).1 log
  /\ (lockout_retry_after map k now).2 = (let v := recent now (failures log k) in if (10 <=? length v)%nat then Some (unlocks_in now v) else None).
Proof.
  intros A L. split.
  - eapply agrees_move; [done..|]. intros k'. apply retry_after_agrees. by eapply agrees_view.
  - destruct (agrees_view since map log k now A L) as (B & P & S). rewrite (retry_after_reply map k now _ B), prune_recent by done. cbv zeta.
    change MAX_LOGIN_FAILURES_PER_WINDOW with 10%nat. destruct (Nat.leb_spec 10 (length (recent now (failures log k)))) as [K|K]; [|done].
    f_equal. apply retry_unlocks; [done..|]. intros E. rewrite E in K. cbn in K. lia.
Qed.
Lemma failure_agrees since map log k now :
  agrees since map log -> since <= now ->
  agrees now (lockout_record map k now).1 (log ++ [(k, now)])
  /\ (lockout_record map k now).2 = (let v := recent now (failures (log ++ [(k, now)]) k) in
                                    if (10 <=? length v)%nat then Err (unlocks_in now v) else Ok (10 - Z.of_nat (length v))).
Proof.
  intros A L.
  assert (A' : agrees now (lockout_record map k now).1 (log ++ [(k, now)])).
  { pose proof A as [_ P S]. assert (P' : Forall (fun t => t <= now) log.*2) by (eapply Forall_impl; [exact P|]; cbn; lia). split.
    - intros k'. rewrite failures_app. destruct (agrees_view since map log k' now A L) as (B & _). pose proof (record_agrees map k now k' _ B) as R.
      cbn [fst snd]. case_bool_decide; [done|]. by rewrite app_nil_r.
    - rewrite fmap_app. apply Forall_app. split; [done|by repeat constructor].
    - rewrite fmap_app. by apply sorted_snoc. }
  split; [exact A'|].
  destruct (agrees_view since map log k now A L) as (B & P & _). destruct (agrees_view now _ _ k now A' ltac:(lia)) as (_ & P2 & S2).
  rewrite (record_reply map k now _ B). cbv zeta. rewrite failures_app in P2, S2 |- *. cbn [fst snd] in *. rewrite bool_decide_eq_true_2 in P2, S2 |- * by done.
  assert (E : prune now (failures log k) ++ [now] = recent now (failures log k ++ [now])).
  { rewrite <- (prune_recent now (_ ++ _)), prune_app by done. cbn. by rewrite fresh_self. }
  rewrite E. change MAX_LOGIN_FAILURES_PER_WINDOW with 10%nat.
  destruct (Nat.leb_spec 10 (length (recent now (failures log k ++ [now])))) as [K|K]; [|by rewrite Nat2Z.inj_sub by lia].
  f_equal. apply retry_unlocks; [done..|]. intros Z. rewrite Z in K. cbn in K. lia.
Qed.
Lemma agrees_step since map log op :
  agrees since map log -> clock_ok since [op] ->
  let since' := default since (op_time op) in
  agrees since' (lock_step map op).1 (spec_step log op).1 /\ (lock_step map op).2 = (spec_step log op).2.
Proof.
  intros A C. destruct op as [k now|k now|k]; cbn [clock_ok op_time default from_option id lock_step spec_step] in *.
  - destruct (check_agrees since map log k now A ltac:(tauto)) as [A' R]. destruct (lockout_retry_after map k now) as [map' r]. cbn in *. by rewrite R.
  - destruct (failure_agrees since map log k now A ltac:(tauto)) as [A' R]. destruct (lockout_record map k now) as [map' r]. cbn [fst snd] in *. by rewrite R.
  - split; [|done]. cbn [fst]. destruct A as [B P S].
    assert (Sub : sublist (filter (fun e => e.1 <> k) log).*2 log.*2).
    { clear. induction log as [|e log IH]; [constructor|]. rewrite filter_cons. case_decide; rewrite !fmap_cons; by constructor. }
    split; [|by eapply Forall_sub|by eapply sublist_sorted]. intros k'. rewrite failures_clear. by apply clear_agrees.
Qed.

(** C40: the lockout is exactly a sliding window: with a clock that never goes back, any mix of
    checks, failures and clears is answered as if every failure since its key was last cleared
    were remembered and the last 15 minutes of them counted, from the tenth on locked for the
    rest of the window the oldest of them opened; forgetting expired failures, and dropping
    empty buckets, changes no answer. *)
Theorem lockout_is_sliding_window ops since :
  clock_ok since ops -> replies lock_step ∅ ops = replies spec_step [] ops.
Proof.
  assert (agrees since ∅ []) as Ha by (split; [intros k t _; by rewrite lookup_empty|constructor..]).
  revert Ha. generalize (∅ : FailureMap) ([] : FailureLog). revert since.
  induction ops as [|op ops IH]; intros since map log Ha Hc; [done|]. cbn [replies].
  assert (clock_ok since [op] /\ clock_ok (default since (op_time op)) ops) as [Hc1 Hc2].
  { cbn [clock_ok] in *. destruct (op_time op); simpl; tauto. }
  destruct (agrees_step since map log op Ha Hc1) as [Ha' Hr].
  destruct (lock_step map op) as [map' r]. destruct (spec_step log op) as [log' r']. simpl in *. subst. f_equal. by eapply IH.
Qed.

Lemma lockout_is_sliding_window_witness :
  let ops := replicate 10 (OpRecord "a" 5) ++ [OpCheck "a" (secs 60); OpCheck "b" (secs 60); OpCheck "a" (secs 1000)] in
  replies lock_step ∅ ops = replies spec_step [] ops /\
  drop 9 (replies lock_step ∅ ops) = [ReplyRecord (Err 900); ReplyCheck (Some 840); ReplyCheck None; ReplyCheck None].
Proof.
  intros ops. split; [|vm_compute; reflexivity]. apply (lockout_is_sliding_window ops 0).
  vm_compute. repeat split; discriminate.
Defined.

(** ** Guessing passwords *)

Definition touches (a : LoginAttempt) (k : string) : bool := bool_decide (ip_key a = k) || bool_decide (user_key a = k).
(** The outcomes of a wrong password, an unknown name, or a wrong second factor. *)
Definition failed (o : LoginOutcome) : bool :=
  match o with LimitReached _ | InvalidCredentials _ | InvalidTotp => true | _ => false end.
Fixpoint logins (map : FailureMap) (l : list LoginAttempt) : list (LoginAttempt * LoginOutcome) :=
  match l with
  | [] => []
  | a :: l => let (map, o) := login map a in (a, o) :: logins map l
  end.
Fixpoint attempts_ok (since : Instant) (l : list LoginAttempt) : Prop :=
  match l with
  | [] => True
  | a :: l => since <= check_at a /\ check_at a <= record_at a /\ ip_key a <> user_key a /\ attempts_ok (record_at a) l
  end.

(** The failures in the 15 minutes up to [t]. *)
Definition in_window (t f : Instant) : bool := (t - LOGIN_FAIL_WINDOW <? f) && (f <=? t).

Lemma both_agrees map k1 k2 now k v :
  k1 <> k2 -> bucket_agrees now map k v ->
  bucket_agrees now (record_login_failure_both map k1 k2 now).1 k (if bool_decide (k1 = k) || bool_decide (k2 = k) then v ++ [now] else v).
Proof.
  intros Hne Ha. unfold record_login_failure_both. pose proof (record_agrees map k1 now k v Ha) as H1.
  destruct (lockout_record map k1 now) as [map1 r1]. cbn [fst] in H1. pose proof (record_agrees map1 k2 now k _ H1) as H2.
  destruct (lockout_record map1 k2 now) as [map2 r2]. cbn [fst] in *.
  repeat case_bool_decide; simpl in *; try done; congruence.
Qed.

Lemma locked_agrees map k1 k2 now k v :
  bucket_agrees now map k v ->
  bucket_agrees now (login_locked_retry_after map k1 k2 now).1 k v
  /\ ((login_locked_retry_after map k1 k2 now).2 = None -> bool_decide (k1 = k) || bool_decide (k2 = k) = true ->
      (length (prune now v) < MAX_LOGIN_FAILURES_PER_WINDOW)%nat).
Proof.
  intros Ha. unfold login_locked_retry_after. pose proof (retry_after_agrees map k1 now k v Ha) as H1.
  pose proof (fun E : k1 = k => retry_after_reply map k1 now v (eq_rect_r (fun x => bucket_agrees now map x v) Ha E)) as R1.
  destruct (lockout_retry_after map k1 now) as [map1 r1]. cbn [fst snd] in *. pose proof (retry_after_agrees map1 k2 now k v H1) as H2.
  pose proof (fun E : k2 = k => retry_after_reply map1 k2 now v (eq_rect_r (fun x => bucket_agrees now map1 x v) H1 E)) as R2.
  destruct (lockout_retry_after map1 k2 now) as [map2 r2]. cbn [fst snd] in *. split; [done|].
  destruct (Nat.leb_spec MAX_LOGIN_FAILURES_PER_WINDOW (length (prune now v))) as [Hle|]; [|done].
  intros Hr Ht. apply orb_prop in Ht as [Ht|Ht]; bool_prop.
  - rewrite (R1 Ht) in Hr. by destruct r2.
  - rewrite (R2 Ht) in Hr. by destruct r1.
Qed.

Lemma login_step map a k v since :
  bucket_agrees since map k v -> since <= check_at a -> check_at a <= record_at a -> ip_key a <> user_key a ->
  (login map a).2 <> Authenticated \/ touches a k = false ->
  bucket_agrees (record_at a) (login map a).1 k (if touches a k && failed (login map a).2 then v ++ [record_at a] else v)
  /\ (touches a k && failed (login map a).2 = true -> (length (prune (check_at a) v) < MAX_LOGIN_FAILURES_PER_WINDOW)%nat).
Proof.
  intros Ha Hc Hr Hne Hor. unfold login, wrong_password in *.
  destruct (locked_agrees map (ip_key a) (user_key a) (check_at a) k v (bucket_agrees_later _ _ _ _ _ Hc Ha)) as [H1 H2].
  destruct (login_locked_retry_after map (ip_key a) (user_key a) (check_at a)) as [map1 locked]. cbn [fst snd] in *.
  apply (bucket_agrees_later _ (record_at a)) in H1; [|done]. pose proof (both_agrees map1 _ _ _ _ _ Hne H1) as H3.
  destruct locked as [retry|]; [by rewrite andb_false_r|]. specialize (H2 eq_refl). unfold touches in *.
  destruct (record_login_failure_both map1 (ip_key a) (user_key a) (record_at a)) as [map2 r] eqn:Er. cbn [fst] in H3.
  assert (forall o, failed o = true ->
    bucket_agrees (record_at a) map2 k (if (bool_decide (ip_key a = k) || bool_decide (user_key a = k)) && failed o then v ++ [record_at a] else v)
    /\ ((bool_decide (ip_key a = k) || bool_decide (user_key a = k)) && failed o = true -> (length (prune (check_at a) v) < MAX_LOGIN_FAILURES_PER_WINDOW)%nat)) as Hf.
  { intros o ->. rewrite andb_true_r. by split. }
  destruct (user_row a) as [[hash|]|e]; [|by destruct r; apply Hf|by rewrite andb_false_r].
  destruct (password_ok a hash); cbn [negb]; [|by destruct r; apply Hf].
  destruct (totp_row a) as [[secret on]|e]; [|by rewrite andb_false_r].
  destruct (on && String.eqb (totp_code a) ""); [by rewrite andb_false_r|].
  destruct (on && _); cbn [fst snd] in *; [by apply Hf|]. destruct Hor as [|Ht]; [done|]. rewrite Ht. simpl. split; [|done].
  bool_prop. unfold clear_login_failures_both.
  pose proof (clear_agrees _ _ (user_key a) _ _ (clear_agrees _ _ (ip_key a) _ _ H1)) as H4.
  by rewrite !bool_decide_false in H4 by done.
Qed.

Definition windowed (t : Instant) (v : list Instant) : nat := length (List.filter (in_window t) v).
Definition failure_times (k : string) (rs : list (LoginAttempt * LoginOutcome)) : list Instant :=
  map (fun r => record_at r.1) (List.filter (fun r => touches r.1 k && failed r.2) rs).

Lemma windowed_app t v w : windowed t (v ++ w) = (windowed t v + windowed t w)%nat.
Proof. unfold windowed. by rewrite List.filter_app, length_app. Qed.

Lemma windowed_prune now t v :
  now <= t -> (forall f, f ∈ v -> f <= now) -> (windowed t v <= length (prune now v))%nat.
Proof.
  intros Ht. induction v as [|f v IH]; intros Hv; [unfold windowed; simpl; lia|]. unfold windowed, prune in *. simpl.
  assert (f <= now) as Hf by (apply Hv; left). specialize (IH (fun x Hx => Hv x (list_elem_of_further x f v Hx))).
  destruct (in_window t f) eqn:E; [|destruct (fresh now f); simpl; lia].
  assert (fresh now f = true) as ->; [|simpl; lia].
  unfold in_window in E. bool_prop. unfold fresh, saturating_since, LOGIN_FAIL_WINDOW, secs in *. apply Z.ltb_lt. lia.
Qed.

Lemma windowed_push now at_ v :
  now <= at_ -> (forall f, f ∈ v -> f <= now) -> (forall t, (windowed t v <= MAX_LOGIN_FAILURES_PER_WINDOW)%nat) ->
  (length (prune now v) < MAX_LOGIN_FAILURES_PER_WINDOW)%nat ->
  forall t, (windowed t (v ++ [at_]) <= MAX_LOGIN_FAILURES_PER_WINDOW)%nat.
Proof.
  intros Hat Hv Hmax Hlt t. rewrite windowed_app. destruct (in_window t at_) eqn:E.
  - assert (windowed t [at_] = 1%nat) as -> by (unfold windowed; simpl; by rewrite E).
    unfold in_window in E. bool_prop. pose proof (windowed_prune now t v ltac:(lia) Hv). lia.
  - assert (windowed t [at_] = 0%nat) as -> by (unfold windowed; simpl; by rewrite E). specialize (Hmax t). lia.
Qed.

Lemma logins_windowed k l map since v :
  bucket_agrees since map k v -> (forall f, f ∈ v -> f <= since) -> (forall t, (windowed t v <= MAX_LOGIN_FAILURES_PER_WINDOW)%nat) ->
  attempts_ok since l -> (forall a, (a, Authenticated) ∈ logins map l -> touches a k = false) ->
  forall t, (windowed t (v ++ failure_times k (logins map l)) <= MAX_LOGIN_FAILURES_PER_WINDOW)%nat.
Proof.
  revert map since v. induction l as [|a l IH]; intros map since v Ha Hv Hmax Hok Hs; [by rewrite app_nil_r|].
  destruct Hok as (Hc & Hr & Hne & Hok). cbn [logins] in *.
  pose proof (login_step map a k v since Ha Hc Hr Hne) as Hstep. destruct (login map a) as [map' o]. cbn [fst snd] in Hstep.
  destruct Hstep as [Hb Hlt].
  { destruct (decide (touches a k = false)) as [|Ht]; [by right|left]. intros ->. apply Ht, Hs. left. }
  assert (forall a', (a', Authenticated) ∈ logins map' l -> touches a' k = false) as Hs' by (intros a' Ha'; apply Hs; by right).
  unfold failure_times. cbn [List.filter fst snd]. destruct (touches a k && failed o) eqn:E.
  - cbn [List.map fst]. rewrite cons_middle, app_assoc. apply (IH map' (record_at a)); [done| | |done..].
    + intros f [Hf|Hf]%elem_of_app; [apply Hv in Hf; lia|apply list_elem_of_singleton in Hf as ->; lia].
    + apply (windowed_push (check_at a)); [done| |done|by apply Hlt]. intros f Hf%Hv. lia.
  - apply (IH map' (record_at a)); [done| |done..]. intros f Hf%Hv. lia.
Qed.

(** Guessing is rate limited for every account and every address: over any run of sign-in
    requests with a clock that never goes back, in which no request with that key succeeded, no
    15-minute window ever holds more than ten refused credentials for it (wrong password,
    unknown name or wrong second factor), however the requests rotate the other key. *)
Theorem login_guesses_bounded k l since :
  attempts_ok since l -> (forall a, (a, Authenticated) ∈ logins ∅ l -> touches a k = false) ->
  forall t, (windowed t (failure_times k (logins ∅ l)) <= 10)%nat.
Proof.
  intros Hok Hs t. apply (logins_windowed k l ∅ since []); [|by intros f ?%not_elem_of_nil|intros t'; unfold windowed; simpl; lia|done..].
  intros now _. by rewrite lookup_empty.
Qed.

Definition ex_attempt (n : Z) : LoginAttempt :=
  {| ip_key := "203.0.113.7"; username := "admin"; check_at := n; record_at := n; user_row := Ok (Some "hash"%string);
     password_ok := fun _ => false; totp_row := Ok (None, false); totp_code := ""; totp_verify := fun _ _ => false;
     recovery_ok := fun _ => false |}.
Lemma login_guesses_bounded_witness :
  let l := ex_attempt <$> [1; 2; 3; 4; 5; 6; 7; 8; 9; 10; 11; 12] in
  snd <$> drop 9 (logins ∅ l) = [LimitReached 899; RateLimited 899; RateLimited 899]
  /\ (windowed 12 (failure_times (login_username_key "admin") (logins ∅ l)) <= 10)%nat.
Proof.
  intros l. split; [vm_compute; reflexivity|]. apply (login_guesses_bounded _ l 0).
  - vm_compute. repeat split; discriminate.
  - intros a Ha. apply list_elem_of_In in Ha. vm_compute in Ha. repeat (destruct Ha as [Ha|Ha]; [discriminate Ha|]). destruct Ha.
Defined.

(** ** Recall access audit *)

Fixpoint audit_run (seen : gmap RecallAuditKey Instant) (l : list (RecallAuditKey * Instant))
    : gmap RecallAuditKey Instant * list (RecallAuditKey * Instant * bool) :=
  match l with
  | [] => (seen, [])
  | (key, now) :: l =>
      let (seen, audited) := recall_audit_decision seen key now in
      let (seen, out) := audit_run seen l in (seen, (key, now, audited) :: out)
  end.

Lemma audit_decision_spec seen key now seen' b :
  map_len seen <= RECALL_AUDIT_MAX_TRACKED -> recall_audit_decision seen key now = (seen', b) ->
  map_len seen' <= RECALL_AUDIT_MAX_TRACKED
  /\ (forall k at_, seen' !! k = Some at_ -> (b = true /\ k = key /\ at_ = now) \/ seen !! k = Some at_)
  /\ (b = false -> exists at_, seen !! key = Some at_ /\ saturating_since now at_ < RECALL_AUDIT_WINDOW).
Proof.
  intros Hlen. unfold recall_audit_decision.
  set (seen0 := if _ <=? _ then _ else seen).
  assert (map_len seen0 < RECALL_AUDIT_MAX_TRACKED /\ seen0 ⊆ seen) as [Hlt Hsub].
  { unfold seen0. destruct (_ <=? map_len seen) eqn:E; bool_prop; [|by split].
    destruct (_ <=? map_len (filter _ seen)) eqn:E'; bool_prop; split; [|apply map_empty_subseteq| |apply map_filter_subseteq]; [|done].
    by vm_compute. }
  destruct (is_some_and (seen0 !! key) (covered now)) eqn:Hc; intros [= <- <-].
  - split_and!; [lia|intros k at_ E; right; by eapply lookup_weaken|]. intros _. apply is_some_and_true in Hc as (at_ & E & Hc).
    exists at_. split; [by eapply lookup_weaken|]. unfold covered in Hc. by bool_prop.
  - split_and!; [|intros k at_; rewrite lookup_insert_Some; intros [[<- <-]|[_ E]]; [by left|right; by eapply lookup_weaken]|done].
    unfold map_len in *. rewrite map_size_insert. destruct (seen0 !! key); simpl; lia.
Qed.

(** Watching Recall is always on the record: an access is left out of the audit log only if an
    earlier access with the same viewer, device and action was written less than ten minutes
    before it, and the table that decides this never tracks more than 4096 of them. *)
Theorem recall_audit_never_missed l seen out :
  audit_run ∅ l = (seen, out) ->
  map_len seen <= RECALL_AUDIT_MAX_TRACKED
  /\ forall out1 key now out2, out = out1 ++ (key, now, false) :: out2 ->
     exists at_, (key, at_, true) ∈ out1 /\ saturating_since now at_ < RECALL_AUDIT_WINDOW.
Proof.
  assert (forall l seen0 past seen out, map_len seen0 <= RECALL_AUDIT_MAX_TRACKED ->
    (forall k at_, seen0 !! k = Some at_ -> (k, at_, true) ∈ past) -> audit_run seen0 l = (seen, out) ->
    map_len seen <= RECALL_AUDIT_MAX_TRACKED
    /\ forall out1 key now out2, out = out1 ++ (key, now, false) :: out2 ->
       exists at_, (key, at_, true) ∈ past ++ out1 /\ saturating_since now at_ < RECALL_AUDIT_WINDOW) as Hgen.
  { clear. induction l as [|[key now] l IH]; intros seen0 past seen out Hlen Hin; cbn [audit_run].
    - intros [= <- <-]. split; [done|]. by intros [|??] * ?.
    - destruct (recall_audit_decision seen0 key now) as [seen1 b] eqn:E. destruct (audit_run seen1 l) as [seen2 out2] eqn:Er.
      intros [= <- <-]. destruct (audit_decision_spec _ _ _ _ _ Hlen E) as (Hlen1 & Hin1 & Hf).
      apply (IH seen1 (past ++ [(key, now, b)])) in Er as [Hlen2 Hout]; [|done|].
      2: { intros k at_ [(-> & -> & ->)|Hk]%Hin1; apply elem_of_app; [right; left|left; by apply Hin]. }
      split; [done|]. intros [|e out1] k t rest; simpl; intros [= <- Heq].
      + subst. destruct (Hf eq_refl) as (at_ & Hat & ?). exists at_. rewrite app_nil_r. split; [by apply Hin|done].
      + destruct (Hout _ _ _ _ Heq) as (at_ & Hat & ?). exists at_. rewrite <- app_assoc in Hat. by split. }
  intros Hr. apply (Hgen l ∅ [] seen out); [by vm_compute|intros ??; by rewrite lookup_empty|done].
Qed.

Lemma recall_audit_never_missed_witness :
  let k := (1%N, 7%N, "recall_replay"%string) in
  (audit_run ∅ [(k, 0); (k, secs 1); (k, secs 601)]).2 = [(k, 0, true); (k, secs 1, false); (k, secs 601, true)]
  /\ exists at_, (k, at_, true) ∈ [(k, 0, true)] /\ saturating_since (secs 1) at_ < RECALL_AUDIT_WINDOW.
Proof.
  intros k. split; [vm_compute; reflexivity|].
  destruct (audit_run ∅ [(k, 0); (k, secs 1); (k, secs 601)]) as [seen out] eqn:E.
  assert (out = [(k, 0, true)] ++ (k, secs 1, false) :: [(k, secs 601, true)]) as Ho.
  { assert (out = (audit_run ∅ [(k, 0); (k, secs 1); (k, secs 601)]).2) as -> by (by rewrite E). vm_compute. reflexivity. }
  exact (proj2 (recall_audit_never_missed _ _ _ E) _ _ _ _ Ho).
Defined.

(** ** Trusted proxies *)

Definition cidr_ok (c : Cidr) : Prop := ip_ok (base c) /\ 0 <= prefix c <= ip_width (base c).

Lemma cidr_parse_ok s c : cidr_parse s = Some c -> cidr_ok c.
Proof.
  unfold cidr_parse, cidr_ok. destruct (String.eqb _ _); [done|]. destruct (split_once _ _) as [[a p]|]; intros E.
  - apply bind_Some in E as (b & Hb%parse_ip_ok & E). apply bind_Some in E as (n & Hn%parse_uint_range & E).
    destruct (Z.ltb_spec (ip_width b) n); [done|]. injection E as <-. cbn [base prefix]. split; [done|lia].
  - apply bind_Some in E as (b & Hb%parse_ip_ok & [= <-]). cbn [base prefix]. split; [done|]. by destruct b.
Qed.
Lemma parse_list_ok s : Forall cidr_ok (parse_list s).1.
Proof.
  unfold parse_list. induction (split_by _ s) as [|p ps IH]; cbn [foldr]; [by apply Forall_nil|].
  destruct (foldr _ _ ps) as [cs bad]. cbn [fst] in IH. destruct (String.eqb _ _); [done|].
  destruct (cidr_parse _) as [c|] eqn:E; [|done]. apply Forall_cons. split; [by eapply cidr_parse_ok|done].
Qed.

Lemma masked_value bits a p :
  0 <= p <= bits -> 0 <= a < 2 ^ bits -> Z.land a (mask bits p) = Z.shiftl (Z.shiftr a (bits - p)) (bits - p).
Proof.
  intros Hp Ha. unfold mask. destruct (Z.ltb_spec (bits - p) bits).
  - apply Z.bits_inj'. intros i Hi. rewrite Z.land_spec, Z.shiftl_spec by done.
    destruct (Z.ltb_spec i (bits - p)) as [Hlt|Hge].
    + rewrite (Z.testbit_neg_r _ (i - _)) by lia. rewrite Z.mod_pow2_bits_low by lia. rewrite Z.shiftl_spec_low by lia. apply andb_false_r.
    + rewrite Z.shiftr_spec by lia. replace (i - (bits - p) + (bits - p)) with i by lia. destruct (Z.ltb_spec i bits) as [Hb|Hb].
      * rewrite Z.mod_pow2_bits_low, Z.shiftl_spec by lia.
        replace (2 ^ bits - 1) with (Z.ones bits) by (rewrite Z.ones_equiv; lia).
        rewrite Z.ones_spec_low by lia. apply andb_true_r.
      * rewrite <- (Z.mod_small a (2 ^ bits)) by done. by rewrite (Z.mod_pow2_bits_high a) by lia.
  - replace p with 0 by lia. rewrite Z.land_0_r, Z.sub_0_r, Z.shiftr_div_pow2, Z.div_small by lia. by rewrite Z.shiftl_0_l.
Qed.

Lemma masked_eq_spec bits a b p :
  0 <= p <= bits -> 0 <= a < 2 ^ bits -> 0 <= b < 2 ^ bits ->
  masked_eq bits a b p = true <-> a / 2 ^ (bits - p) = b / 2 ^ (bits - p).
Proof.
  intros Hp Ha Hb. unfold masked_eq. rewrite Z.eqb_eq, !masked_value, <- !Z.shiftr_div_pow2 by lia. split; [|by intros ->].
  intros E. apply (f_equal (fun x => Z.shiftr x (bits - p))) in E. by rewrite !Z.shiftr_shiftl_l, Z.sub_diag, !Z.shiftl_0_r in E by lia.
Qed.

(** The address a rate limit keys on cannot be forged from outside: whatever the configured list
    says, forwarding headers count only when the peer itself shares the network prefix of one of
    its blocks, family and all (a /0 covers its whole family); from any other peer, whatever it
    sends, the key is its own address. *)
Theorem client_ip_not_spoofable config h peer :
  ip_ok peer ->
  let cidrs := (parse_list config).1 in
  (is_trusted cidrs peer = true <-> exists c, c ∈ cidrs /\ ip_width (base c) = ip_width peer
     /\ ip_value (base c) / 2 ^ (ip_width peer - prefix c) = ip_value peer / 2 ^ (ip_width peer - prefix c))
  /\ (client_ip cidrs h peer <> peer -> is_trusted cidrs peer = true
      /\ forwarded_client_ip h = Some (client_ip cidrs h peer)).
Proof.
  intros Hp cidrs. pose proof (parse_list_ok config : Forall cidr_ok cidrs) as Hc. split.
  - unfold is_trusted. rewrite existsb_exists. rewrite Forall_forall in Hc. split.
    + intros (c & Hin%list_elem_of_In & Hm). exists c. split; [done|]. destruct (Hc c Hin) as [Hb Hpre]. unfold contains in Hm.
      destruct (base c) as [b|b], peer as [i|i]; try done; (split; [done|]); by apply masked_eq_spec in Hm.
    + intros (c & Hin & Hbits & Hdiv). exists c. split; [by apply list_elem_of_In|]. destruct (Hc c Hin) as [Hb Hpre]. unfold contains.
      destruct (base c) as [b|b], peer as [i|i]; try done; by apply masked_eq_spec.
  - unfold client_ip. destruct (is_trusted cidrs peer); [|done]. intros Hne. split; [done|].
    by destruct (forwarded_client_ip h).
Qed.

Lemma client_ip_not_spoofable_witness :
  let cidrs := (parse_list "10.0.0.0/8, ::1 bogus"%string).1 in
  client_ip cidrs {| x_forwarded_for := Some "bad, 8.8.8.8"%string; x_real_ip := None |} (V4 168430090) = V4 134744072
  /\ (is_trusted cidrs (V4 134744072) = true -> exists c, c ∈ cidrs /\ ip_width (base c) = 32).
Proof.
  intros cidrs. split; [vm_compute; reflexivity|]. intros Ht.
  assert (ip_ok (V4 134744072)) as Hp by (unfold ip_ok; simpl; lia).
  destruct (proj1 (proj1 (client_ip_not_spoofable "10.0.0.0/8, ::1 bogus"%string {| x_forwarded_for := None; x_real_ip := None |} _ Hp)) Ht)
    as (c & Hin & Hb & _).
  exists c. split; [exact Hin|exact Hb].
Defined.
