(* ===== verification/Segments.v ===== *)
(** The activity narrative of a day: [server/src/recall/narrative/segments.rs], [prose.rs] and the
    decision of [mod.rs]. Window focuses become segments of app use, the segments totals, top
    apps and highlights, and these a short text. Times are UTC nanoseconds; a distraction score
    is kept in hundredths. *)
From S2P Require Import Prelude Text.
From Stdlib Require Import Sorted.

(** ** Data *)

Record FocusRow := { f_ts : Z; f_app : string; f_title : string }.
Record SegmentInput := {
  start_ts : Z; end_ts : Z; category : string; seg_app : option string; seg_title : option string;
  summary : option string; distraction_score : Z; source : string
}.
Definition MAX_FOCUS : Duration := secs 900.
Definition MERGE_GAP_SECS : Z := 300.
Definition MIN_SEGMENT_SECS : Z := 20.

(** [chrono::Duration::num_seconds] truncates toward zero. *)
Definition num_seconds (d : Duration) : Z := Z.quot d 1000000000.

(** ** [classify] *)

Definition classify (app title : string) : string * Z :=
  let a := to_ascii_lowercase app in
  let t := to_ascii_lowercase title in
  let has needles := existsb (fun n => str_contains a n || str_contains t n) needles in
  if has ["code"; "devenv"; "idea"; "pycharm"; "goland"; "rider"; "sublime"; "vim"; "nvim"]%string then ("dev"%string, 10)
  else if has ["windowsterminal"; "powershell"; "cmd"; "wt.exe"; "conhost"; "bash"; "wsl"]%string then ("terminal"%string, 10)
  else if has ["slack"; "teams"; "discord"; "zoom"; "outlook"; "mail"; "telegram"; "whatsapp"]%string then ("comms"%string, 40)
  else if has ["youtube"; "netflix"; "spotify"; "twitch"; "vlc"]%string then ("media"%string, 90)
  else if has ["figma"; "photoshop"; "illustrator"; "blender"; "sketch"; "affinity"]%string then ("design"%string, 20)
  else if has ["word"; "excel"; "powerpoint"; "acrobat"; "notion"; "obsidian"; "docs"; "sheets"]%string then ("docs"%string, 20)
  else if has ["chrome"; "firefox"; "edge"; "msedge"; "brave"; "opera"; "safari"]%string then
    if has ["facebook"; "instagram"; "tiktok"; "reddit"; "twitter"; "x.com"; "9gag"]%string then ("media"%string, 85)
    else ("browsing"%string, 50)
  else ("other"%string, 50).

(** ** [build_segments] *)

Definition non_empty (s : string) : option string := if String.eqb s "" then None else Some s.

(** One row of the loop; [segs] is newest first. *)
Definition push_focus (segs : list SegmentInput) (row : FocusRow) (next_ts : Z) : list SegmentInput :=
  let dur := clampZ 0 MAX_FOCUS (next_ts - f_ts row) in
  let end_ := f_ts row + dur in
  let '(cat, score) := classify (f_app row) (f_title row) in
  let fresh := {| start_ts := f_ts row; end_ts := end_; category := cat; seg_app := non_empty (f_app row);
                  seg_title := non_empty (f_title row); summary := None; distraction_score := score; source := "rule" |} in
  match segs with
  | last :: rest =>
      if bool_decide (seg_app last = Some (f_app row)) && (num_seconds (f_ts row - end_ts last) <=? MERGE_GAP_SECS) then
        {| start_ts := start_ts last; end_ts := end_; category := category last; seg_app := seg_app last;
           seg_title := if String.eqb (f_title row) "" then seg_title last else Some (f_title row);
           summary := summary last; distraction_score := distraction_score last; source := source last |} :: rest
      else fresh :: segs
  | [] => [fresh]
  end.
Fixpoint push_all (segs : list SegmentInput) (focus : list FocusRow) (upper : Z) : list SegmentInput :=
  match focus with
  | [] => segs
  | row :: focus => push_all (push_focus segs row (match focus with next :: _ => f_ts next | [] => upper end)) focus upper
  end.

Definition truncate (s : string) (max : nat) : string :=
  if (chars_count s <=? max)%nat then s else String.append (chars_take max s) "…".

Definition with_summary (s : SegmentInput) : SegmentInput :=
  let app := default "app"%string (seg_app s) in
  {| start_ts := start_ts s; end_ts := end_ts s; category := category s; seg_app := seg_app s; seg_title := seg_title s;
     summary := Some (match seg_title s with
                      | Some t => if String.eqb t "" then app else String.append app (String.append " — " (truncate t 80))
                      | None => app
                      end);
     distraction_score := distraction_score s; source := source s |}.
Definition long_enough (s : SegmentInput) : bool := MIN_SEGMENT_SECS <=? num_seconds (end_ts s - start_ts s).
Definition build_segments (focus : list FocusRow) (upper : Z) : list SegmentInput :=
  with_summary <$> List.filter long_enough (rev (push_all [] focus upper)).

(** What the fingerprint hashes, in order: fields that only follow from these are left out. *)
Definition fingerprint_input (segs : list SegmentInput) : Z * list (Z * Z * string * option string) :=
  (Z.of_nat (length segs),
   (fun s => (start_ts s / 1000000000, end_ts s / 1000000000, category s, seg_app s)) <$> segs).

(** ** [aggregate] *)

(** A stable sort by an integer key, ascending. *)
Fixpoint insert_by {A} (key : A -> Z) (x : A) (l : list A) : list A :=
  match l with [] => [x] | y :: l => if key x <=? key y then x :: y :: l else y :: insert_by key x l end.
Definition sort_by_key {A} (key : A -> Z) (l : list A) : list A := foldr (insert_by key) [] l.

Definition seg_secs (s : SegmentInput) : Z := num_seconds (end_ts s - start_ts s).
(** [*map.entry(k).or_default() += n]. *)
Definition add_to (k : string) (n : Z) (m : gmap string Z) : gmap string Z := <[k := default 0 (m !! k) + n]> m.

Record Totals := { active_seconds : Z; segment_count : Z; by_category : gmap string Z }.
Record Highlight := { h_label : string; h_category : string; h_start : Z; h_end : Z }.

Section aggregate.
(** The order in which a hash map hands out its entries. *)
Variable into_iter : gmap string Z -> list (string * Z).

Definition aggregate (segs : list SegmentInput) : Totals * list (string * Z) * list Highlight :=
  let secs_of s := Z.max 0 (seg_secs s) in
  let active := foldl (fun n s => n + secs_of s) 0 segs in
  let by_category := foldl (fun m s => add_to (category s) (secs_of s) m) ∅ segs in
  let by_app := foldl (fun m s => match seg_app s with Some app => add_to app (secs_of s) m | None => m end) ∅ segs in
  let top := take 6 (sort_by_key (fun kv => - kv.2) (into_iter by_app)) in
  let longest := take 3 (sort_by_key (fun s => - seg_secs s) segs) in
  ({| active_seconds := active; segment_count := Z.of_nat (length segs); by_category := by_category |}, top,
   (fun s => {| h_label := default (category s) (summary s); h_category := category s; h_start := start_ts s; h_end := end_ts s |}) <$> longest).

(** ** The text ([prose.rs]) *)

Definition pretty_category (cat : string) : string :=
  default "other apps"%string
    (snd <$> List.find (fun kv => String.eqb kv.1 cat)
      [("dev", "development"); ("terminal", "terminal work"); ("browsing", "browsing"); ("comms", "communication");
       ("docs", "documents"); ("design", "design"); ("media", "media")])%string.
Definition join_and (items : list string) : string :=
  match items with
  | [] => ""
  | [a] => a
  | [a; b] => a +:+ " and " +:+ b
  | _ => String.concat ", " (removelast items) +:+ ", and " +:+ List.last items ""%string
  end.
(** [totals.by_category] and [top_apps] arrive as JSON; an object's entries come sorted by key.
    The share is compared as integers, which is exact for the seconds of a day. *)
Definition rule_based_narrative (segs : list SegmentInput) (totals : Totals) (top_apps : list (string * Z))
    (sorted_categories : list (string * Z)) : string :=
  let top_app := default "several apps"%string (head top_apps ≫= fun kv => non_empty kv.1) in
  let cat_words := pretty_category ∘ fst <$> take 3 (sort_by_key (fun kv => - kv.2) sorted_categories) in
  let distraction := foldl (fun n s => n + Z.max 0 (seg_secs s)) 0 (List.filter (fun s => 70 <=? distraction_score s) segs) in
  let intro := "Mostly worked in " +:+ top_app in
  let out := (if Nat.eqb (length cat_words) 0 then intro else intro +:+ ", across " +:+ join_and cat_words) +:+ "." in
  if 0 <? active_seconds totals then
    if active_seconds totals <=? 4 * distraction then out +:+ " A fair part of the day drifted into media or social browsing."
    else if 0 <? distraction then out +:+ " Focus held up well, with only short breaks."
    else out +:+ " A focused, heads-down day."
  else out.

(** ** One tick for one local day ([summarize_agent_day]) *)

Record DaySummaryState := { content_hash : option string; has_narrative : bool; finalized : bool }.
Inductive DayOutcome : Type :=
| AlreadyFinal
| NothingToSay
| UnchangedDay
| WriteDay (segs : list SegmentInput) (totals : Totals) (top_apps : list (string * Z)) (highlights : list Highlight)
           (hash : string) (final : bool).

(** [focus] is the query for the window events of a range, oldest first. *)
Definition summarize_agent_day (fingerprint : Z * list (Z * Z * string * option string) -> string)
    (focus : Z -> Z -> list FocusRow) (row : option DaySummaryState) (day_start day_end now : Z) : DayOutcome :=
  let day_is_over := day_end <=? now in
  if is_some_and row finalized then AlreadyFinal
  else
    let upper := Z.min day_end now in
    let segments := build_segments (focus day_start upper) upper in
    if Nat.eqb (length segments) 0 then NothingToSay
    else
      let hash := fingerprint (fingerprint_input segments) in
      let unchanged := is_some_and (row ≫= content_hash) (String.eqb hash) in
      if unchanged && is_some_and row has_narrative && negb day_is_over then UnchangedDay
      else
        let '(totals, top_apps, highlights) := aggregate segments in
        WriteDay segments totals top_apps highlights hash day_is_over.
End aggregate.

(** ** Lemmas *)

Definition seg_ok (first upto : Z) (s : SegmentInput) : Prop := first <= start_ts s /\ start_ts s <= end_ts s /\ end_ts s <= upto.
(** Oldest first, each over before the next begins. *)
Definition in_order (segs : list SegmentInput) : Prop := StronglySorted (fun s t => end_ts s <= start_ts t) segs.
Definition focus_sorted (focus : list FocusRow) : Prop := StronglySorted (fun a b => f_ts a <= f_ts b) focus.

Lemma in_order_snoc l s : in_order l -> Forall (fun t => end_ts t <= start_ts s) l -> in_order (l ++ [s]).
Proof.
  intros Hl Hs. induction Hl as [|t l Hl IH Ht]; simpl; [repeat constructor|].
  inversion Hs; subst. constructor; [by apply IH|]. apply Forall_app. split; [done|]. apply Forall_singleton. assumption.
Qed.
Lemma in_order_snoc_inv l s : in_order (l ++ [s]) -> in_order l /\ Forall (fun t => end_ts t <= start_ts s) l.
Proof.
  induction l as [|t l IH]; simpl; [split; constructor|]. intros Hl. inversion Hl as [|? ? Hl' Ht]; subst.
  destruct (IH Hl') as [? ?]. apply Forall_app in Ht as [? Ht]. apply Forall_cons in Ht as [Ht _]. split; [apply SSorted_cons; assumption|apply Forall_cons_2; [exact Ht|assumption]].
Qed.

Lemma Forall_seg_weaken first upto upto' l : upto <= upto' -> Forall (seg_ok first upto) l -> Forall (seg_ok first upto') l.
Proof. intros Hle H. eapply Forall_impl; [exact H|]. unfold seg_ok. intros s ?. lia. Qed.

Lemma push_focus_ok segs row next first :
  in_order (rev segs) -> Forall (seg_ok first (f_ts row)) segs -> first <= f_ts row -> f_ts row <= next ->
  in_order (rev (push_focus segs row next)) /\ Forall (seg_ok first next) (push_focus segs row next).
Proof.
  intros Ho Hs Hf Hn. unfold push_focus. destruct (classify _ _) as [cat score].
  set (fresh := {| start_ts := f_ts row; end_ts := _; category := cat |}).
  assert (seg_ok first next fresh) as Hfresh by (unfold seg_ok, fresh, clampZ, MAX_FOCUS, secs; cbn [start_ts end_ts]; lia).
  assert (Forall (fun t => end_ts t <= f_ts row) segs) as Hends by (eapply Forall_impl; [exact Hs|]; unfold seg_ok; intros ? ?; lia).
  pose proof (Forall_seg_weaken _ _ _ _ Hn Hs) as Hs'.
  destruct segs as [|last rest].
  { split; [apply (in_order_snoc [] fresh); [constructor|done]|by apply Forall_singleton]. }
  destruct (_ && _).
  - simpl in Ho |- *. apply in_order_snoc_inv in Ho as [Ho Hlast]. split; [apply in_order_snoc; [done|exact Hlast]|].
    inversion Hs as [|? ? Hl _]; subst. inversion Hs'; subst. constructor; [|done]. unfold seg_ok in *. cbn [start_ts end_ts]. unfold clampZ, MAX_FOCUS, secs. lia.
  - split; [|by constructor]. change (rev (fresh :: last :: rest)) with (rev (last :: rest) ++ [fresh]).
    apply in_order_snoc; [done|]. apply Forall_rev. exact Hends.
Qed.

Lemma push_all_ok focus segs first upper :
  focus_sorted focus -> Forall (fun r => first <= f_ts r <= upper) focus -> in_order (rev segs) ->
  Forall (seg_ok first (match focus with r :: _ => f_ts r | [] => upper end)) segs ->
  in_order (rev (push_all segs focus upper)) /\ Forall (seg_ok first upper) (push_all segs focus upper).
Proof.
  revert segs. induction focus as [|row focus IH]; intros segs Hs Hb Ho Hf; [done|]. cbn [push_all].
  inversion Hs as [|? ? Hs' Hle]; subst. inversion Hb as [|? ? Hrow Hb']; subst.
  assert (f_ts row <= match focus with next :: _ => f_ts next | [] => upper end) as Hnext.
  { destruct focus; [lia|]. by inversion Hle. }
  destruct (push_focus_ok segs row _ first Ho Hf ltac:(lia) Hnext) as [Ho' Hf']. by apply IH.
Qed.

Lemma with_summary_times s : start_ts (with_summary s) = start_ts s /\ end_ts (with_summary s) = end_ts s.
Proof. done. Qed.

Lemma in_order_filter f l : in_order l -> in_order (List.filter f l).
Proof.
  induction 1 as [|s l Hl IH Hs]; simpl; [constructor|]. destruct (f s); [|done]. constructor; [done|].
  rewrite Forall_forall in *. intros t Ht. apply Hs. apply list_elem_of_In in Ht. apply list_elem_of_In. by apply List.filter_In in Ht as [? _].
Qed.
Lemma in_order_map l : in_order l -> in_order (with_summary <$> l).
Proof.
  induction 1 as [|s l Hl IH Hs]; [constructor|]. rewrite fmap_cons. constructor; [done|]. apply Forall_fmap. exact Hs.
Qed.

(** Sums over a map. *)
Definition map_total (m : gmap string Z) : Z := map_fold (fun _ v a => v + a) 0 m.
Lemma map_total_insert k v m : m !! k = None -> map_total (<[k := v]> m) = v + map_total m.
Proof. intros Hk. unfold map_total. rewrite map_fold_insert_L; [done|intros; lia|done]. Qed.
Lemma map_total_add k n m : map_total (add_to k n m) = n + map_total m.
Proof.
  unfold add_to. destruct (m !! k) as [v|] eqn:E; simpl; [|by rewrite map_total_insert].
  assert (map_total m = v + map_total (delete k m)) as ->.
  { rewrite <- (map_total_insert k v) by apply lookup_delete_eq. by rewrite insert_delete_id. }
  rewrite <- insert_delete_eq, map_total_insert by apply lookup_delete_eq. lia.
Qed.

Lemma foldl_add (f : SegmentInput -> Z) segs n : foldl (fun n s => n + f s) n segs = n + foldr (fun s a => f s + a) 0 segs.
Proof. revert n. induction segs as [|s segs IH]; intros n; simpl; [lia|]. rewrite IH. lia. Qed.
Lemma foldl_category f segs m :
  map_total (foldl (fun m s => add_to (category s) (f s) m) m segs) = foldr (fun s a => f s + a) 0 segs + map_total m.
Proof. revert m. induction segs as [|s segs IH]; intros m; simpl; [done|]. rewrite IH, map_total_add. lia. Qed.
Lemma foldl_app f segs m :
  map_total (foldl (fun m s => match seg_app s with Some app => add_to app (f s) m | None => m end) m segs)
  = foldr (fun s a => (if isSome (seg_app s) then f s else 0) + a) 0 segs + map_total m.
Proof. revert m. induction segs as [|s segs IH]; intros m; simpl; [done|]. rewrite IH. destruct (seg_app s); cbn [isSome]; rewrite ?map_total_add; lia. Qed.

Lemma secs_nonneg s : start_ts s <= end_ts s -> 0 <= seg_secs s /\ seg_secs s * 1000000000 <= end_ts s - start_ts s.
Proof.
  intros Hs. unfold seg_secs, num_seconds. rewrite Z.quot_div_nonneg by lia.
  pose proof (Z.div_mod (end_ts s - start_ts s) 1000000000). pose proof (Z.mod_pos_bound (end_ts s - start_ts s) 1000000000).
  pose proof (Z.div_pos (end_ts s - start_ts s) 1000000000). lia.
Qed.

Lemma total_in_order first upper segs :
  first <= upper -> in_order segs -> Forall (seg_ok first upper) segs ->
  foldr (fun s a => Z.max 0 (seg_secs s) + a) 0 segs * 1000000000 <= upper - first.
Proof.
  intros Hfu Ho. revert first Hfu. induction Ho as [|s segs Ho IH Hs]; intros first Hfu Hf; cbn [foldr]; [lia|].
  inversion Hf as [|? ? (H1 & H2 & H3) Hf']; subst. destruct (secs_nonneg s H2) as [H4 H5].
  assert (Forall (seg_ok (end_ts s) upper) segs) as Hf''.
  { rewrite Forall_forall in *. intros t Ht. specialize (Hs t Ht). specialize (Hf' t Ht). unfold seg_ok in *. lia. }
  specialize (IH (end_ts s) H3 Hf''). lia.
Qed.

Lemma insert_by_perm {A} (key : A -> Z) x l : insert_by key x l ≡ₚ x :: l.
Proof. induction l as [|y l IH]; simpl; [done|]. destruct (key x <=? key y); [done|]. rewrite IH. apply Permutation_swap. Qed.
Lemma sort_by_perm {A} (key : A -> Z) l : sort_by_key key l ≡ₚ l.
Proof. induction l as [|x l IH]; simpl; [done|]. by rewrite insert_by_perm, IH. Qed.
Lemma insert_by_sorted {A} (key : A -> Z) x l :
  StronglySorted (fun a b => key a <= key b) l -> StronglySorted (fun a b => key a <= key b) (insert_by key x l).
Proof.
  induction 1 as [|y l Hl IH Hy]; simpl; [repeat constructor|]. destruct (key x <=? key y) eqn:E; bool_prop.
  - constructor; [by constructor|]. constructor; [done|]. eapply Forall_impl; [exact Hy|]. simpl. intros ? ?. lia.
  - constructor; [done|]. rewrite insert_by_perm. constructor; [lia|done].
Qed.
Lemma sort_by_sorted {A} (key : A -> Z) l : StronglySorted (fun a b => key a <= key b) (sort_by_key key l).
Proof. induction l; simpl; [constructor|by apply insert_by_sorted]. Qed.

Lemma StronglySorted_take {A} (R : A -> A -> Prop) n l : StronglySorted R l -> StronglySorted R (take n l).
Proof.
  intros Hl. revert n. induction Hl as [|x l _ IH Hx]; intros [|n]; simpl; try constructor; [apply IH|]. by apply Forall_take.
Qed.
Lemma sorted_weaken {A} (R S : A -> A -> Prop) l : (forall a b, R a b -> S a b) -> StronglySorted R l -> StronglySorted S l.
Proof. intros Hi. induction 1 as [|x l Hl IH Hx]; constructor; [done|]. eapply Forall_impl; [exact Hx|]. apply Hi. Qed.
Definition entries_total (l : list (string * Z)) : Z := foldr (fun kv a => kv.2 + a) 0 l.
Lemma entries_total_perm l k : l ≡ₚ k -> entries_total l = entries_total k.
Proof. unfold entries_total. induction 1; simpl; lia. Qed.
Lemma entries_total_map m : entries_total (map_to_list m) = map_total m.
Proof. unfold map_total. rewrite map_fold_foldr. unfold entries_total. induction (map_to_list m) as [|[k v] l IH]; simpl; [done|]. lia. Qed.
Lemma entries_total_take n l : Forall (fun kv => 0 <= kv.2) l -> 0 <= entries_total (take n l) <= entries_total l.
Proof.
  intros Hl. revert n. induction Hl as [|x l Hx Hl IH]; intros [|n]; unfold entries_total in *; simpl; try lia.
  - specialize (IH 0%nat). simpl in IH. lia.
  - specialize (IH n). lia.
Qed.
(** Adding non-negative amounts keeps a map's values non-negative. *)
Definition nonneg (m : gmap string Z) : Prop := forall k v, m !! k = Some v -> 0 <= v.
Lemma add_to_nonneg k n m : 0 <= n -> nonneg m -> nonneg (add_to k n m).
Proof.
  intros Hn Hm k' v. unfold add_to. rewrite lookup_insert_Some. intros [[_ <-]|[_ E]]; [|by eapply Hm].
  destruct (m !! k) as [w|] eqn:E; simpl; [apply Hm in E|]; lia.
Qed.
Lemma by_app_nonneg f segs m :
  (forall s, 0 <= f s) -> nonneg m -> nonneg (foldl (fun m s => match seg_app s with Some app => add_to app (f s) m | None => m end) m segs).
Proof.
  intros Hf. revert m. induction segs as [|s segs IH]; intros m Hm; simpl; [done|]. apply IH.
  destruct (seg_app s); [by apply add_to_nonneg|done].
Qed.
Lemma nonneg_entries m : nonneg m -> Forall (fun kv => 0 <= kv.2) (map_to_list m).
Proof. intros Hm. apply Forall_forall. intros [k v] Hin%elem_of_map_to_list. by eapply Hm. Qed.

(** ** Properties *)

(** A day's segments account for its time once: built from window focuses in time order, they
    follow one another without overlap inside the observed range, each at least 20 seconds long;
    the reported active seconds are their sum and never exceed that range, split exactly over
    the categories and at most over the apps; the top apps are the longest-used ones, in order,
    at most six, and the highlights the longest segments, at most three. *)
Theorem day_accounts_for_time into_iter focus upper first :
  (forall m, into_iter m ≡ₚ map_to_list m) -> focus_sorted focus -> first <= upper ->
  Forall (fun r => first <= f_ts r <= upper) focus ->
  let segs := build_segments focus upper in
  let '(totals, top, highlights) := aggregate into_iter segs in
  Forall (fun s => seg_ok first upper s /\ MIN_SEGMENT_SECS <= seg_secs s) segs
  /\ in_order segs
  /\ active_seconds totals * 1000000000 <= upper - first
  /\ map_total (by_category totals) = active_seconds totals
  /\ (length top <= 6)%nat /\ StronglySorted (fun a b => a.2 >= b.2) top
  /\ foldr (fun kv a => kv.2 + a) 0 top <= active_seconds totals
  /\ (length highlights <= 3)%nat.
Proof.
  intros Hiter Hs Hfu Hb segs. destruct (push_all_ok focus [] first upper Hs Hb) as [Ho Hf]; [constructor|constructor|].
  assert (Forall (fun s => seg_ok first upper s /\ MIN_SEGMENT_SECS <= seg_secs s) segs) as Hsegs.
  { unfold segs, build_segments. apply Forall_fmap, Forall_forall. intros s Hin%list_elem_of_In.
    apply List.filter_In in Hin as [Hin Hl]. rewrite <- in_rev in Hin. apply list_elem_of_In in Hin.
    rewrite Forall_forall in Hf. split; [exact (Hf s Hin)|]. unfold long_enough in Hl. by apply Z.leb_le in Hl. }
  assert (in_order segs) as Hord by (by apply in_order_map, in_order_filter).
  assert (Forall (seg_ok first upper) segs) as Hok by (eapply Forall_impl; [exact Hsegs|]; by intros s [? _]).
  cbn [aggregate active_seconds by_category].
  set (f := fun s => Z.max 0 (seg_secs s)). rewrite (foldl_add f), (foldl_category f), Z.add_0_l.
  set (m := foldl (fun m s => match seg_app s with Some app => add_to app (f s) m | None => m end) ∅ segs).
  assert (map_total m <= foldr (fun s a => f s + a) 0 segs) as Hm.
  { unfold m. rewrite (foldl_app f). unfold map_total. rewrite map_fold_empty. clear. induction segs as [|s l IH]; cbn [foldr]; [lia|].
    unfold f in *. destruct (isSome (seg_app s)); lia. }
  assert (nonneg m) as Hnn by (apply by_app_nonneg; [unfold f; lia|intros k v; by rewrite lookup_empty]).
  split_and!; [done|done| |unfold map_total; rewrite map_fold_empty; lia| | | |].
  - exact (total_in_order first upper segs Hfu Hord Hok).
  - rewrite length_take. lia.
  - apply StronglySorted_take. eapply sorted_weaken; [|apply sort_by_sorted]. simpl. intros ? ?. lia.
  - set (l := sort_by_key (fun kv : string * Z => - kv.2) (into_iter m)).
    assert (entries_total l = map_total m) as Hsum.
    { rewrite <- entries_total_map. apply entries_total_perm. unfold l. by rewrite sort_by_perm, Hiter. }
    etrans; [|exact Hm]. rewrite <- Hsum. apply (entries_total_take 6). unfold l. rewrite sort_by_perm, Hiter.
    by apply nonneg_entries.
  - rewrite length_fmap, length_take. lia.
Qed.

Definition ex_focus : list FocusRow :=
  [{| f_ts := secs 0; f_app := "code"; f_title := "main.rs" |}; {| f_ts := secs 60; f_app := "slack"; f_title := "" |};
   {| f_ts := secs 65; f_app := "code"; f_title := "lib.rs" |}].
Lemma day_accounts_for_time_witness :
  let '(totals, top, highlights) := aggregate map_to_list (build_segments ex_focus (secs 2000)) in
  active_seconds totals = 960 /\ top = [("code"%string, 960)] /\ active_seconds totals * 1000000000 <= secs 2000 - 0.
Proof.
  assert (focus_sorted ex_focus) as Hs by (repeat constructor; vm_compute; discriminate).
  pose proof (day_accounts_for_time map_to_list ex_focus (secs 2000) 0 (fun m => reflexivity _) Hs ltac:(vm_compute; discriminate)
    ltac:(repeat constructor; vm_compute; discriminate)) as Hd. cbv zeta in Hd.
  destruct (aggregate map_to_list (build_segments ex_focus (secs 2000))) as [[totals top] highlights] eqn:E.
  assert (active_seconds totals = 960 /\ top = [("code"%string, 960)]) as [Ha Ht].
  { assert ((totals, top) = (aggregate map_to_list (build_segments ex_focus (secs 2000))).1) as Et by (by rewrite E).
    vm_compute in Et. injection Et as -> ->. split; reflexivity. }
  split; [exact Ha|]. split; [exact Ht|]. exact (proj1 (proj2 (proj2 Hd))).
Defined.
