(* ===== verification/Ingest.v ===== *)
(** What the server does with an agent's frames: [server/src/agent_ws/connection.rs] (the receive
    branch of [run]), [dispatch.rs], [policy_push.rs] (the pushes on connect),
    [server/src/state/rpc_waiters.rs], and the typed view of messages in
    [protocol/src/agent_message.rs]. Database writes are recorded in order, each with the
    outcome the environment gives it. *)
From S2P Require Import Prelude Text Json Protocol Sessions Modules Registry Geometry State Runtime Capture Control Clipboard Connection RecallContext Fence Keyframes HistoryIngest Spool.
From Stdlib Require Import SpecFloat.
#[local] Set Warnings "-register-all".

(** ** Agent messages *)

Section messages.
Context `{UuidText}.

Inductive AgentMessage : Type :=
| Batch (events : list json)
| ModuleStates
| ModuleDisableAck
| ClipboardResult
| LogTail (request_id : option Uuid)
| LogSources (request_id : option Uuid)
| ScriptResult (request_id : option Uuid)
| DirList
| FileChunk
| FileUploadResult
| TerminalOutput (session_id : option Uuid)
| TerminalExit (session_id : option Uuid)
| HistoryFrame
| Keys (text : option string)
| WindowFocus (title app : option string)
| Url (url : option string)
| UrlSession
| Afk
| Active
| AppIcon (exe_name png_base64 : option string)
| AppBlockKill (rule_id : option Z) (rule_name exe_name : option string)
| AgentInfo
| Metrics
| SoftwareInventory (captured_at : option Z)
| UnknownMessage.

Definition fi64 (l : list (string * json)) (k : string) : option Z := lenient_opt as_i64 (fget k l).
Definition message_table : list (string * (list (string * json) -> AgentMessage)) :=
  [("batch", fun l => Batch (lenient_array (fget "events" l)));
   ("module_states", fun _ => ModuleStates);
   ("module_disable_ack", fun _ => ModuleDisableAck);
   ("clipboard_result", fun _ => ClipboardResult);
   ("log_tail", fun l => LogTail (fuuid l "request_id"));
   ("log_sources", fun l => LogSources (fuuid l "request_id"));
   ("script_result", fun l => ScriptResult (fuuid l "request_id"));
   ("dir_list", fun _ => DirList);
   ("file_chunk", fun _ => FileChunk);
   ("file_upload_result", fun _ => FileUploadResult);
   ("terminal_output", fun l => TerminalOutput (fuuid l "session_id"));
   ("terminal_exit", fun l => TerminalExit (fuuid l "session_id"));
   ("history_frame", fun _ => HistoryFrame);
   ("keys", fun l => Keys (fstr l "text"));
   ("window_focus", fun l => WindowFocus (fstr l "title") (fstr l "app"));
   ("url", fun l => Url (fstr l "url"));
   ("url_session", fun _ => UrlSession);
   ("afk", fun _ => Afk);
   ("active", fun _ => Active);
   ("app_icon", fun l => AppIcon (fstr l "exe_name") (fstr l "png_base64"));
   ("app_block_kill", fun l => AppBlockKill (fi64 l "rule_id") (fstr l "rule_name") (fstr l "exe_name"));
   ("agent_info", fun _ => AgentInfo);
   ("metrics", fun _ => Metrics);
   ("software_inventory", fun l => SoftwareInventory (fi64 l "captured_at"))].

(** [AgentMessage::parse]: anything that does not deserialize is unknown; like a command, a
    message also reads from an array of its tag and fields. *)
Definition message_fields (kind : string) : list string :=
  default [] (assoc_str kind
    [("batch", ["events"]); ("log_tail", ["request_id"]); ("log_sources", ["request_id"]); ("script_result", ["request_id"]);
     ("terminal_output", ["session_id"; "data_b64"]); ("terminal_exit", ["session_id"]); ("keys", ["text"]);
     ("window_focus", ["title"; "app"]); ("url", ["url"]); ("app_icon", ["exe_name"; "png_base64"]);
     ("app_block_kill", ["rule_id"; "rule_name"; "exe_name"]); ("software_inventory", ["captured_at"])]%string).
Definition message_of (k : string) (l : list (string * json)) : AgentMessage :=
  match assoc_str k message_table with Some f => f l | None => UnknownMessage end.
Definition parse_message (v : json) : AgentMessage :=
  match v with
  | JObj l => match fget "type" l with Some (JStr k) => message_of k l | _ => UnknownMessage end
  | JArr (JStr k :: rest) =>
      if (length rest <=? length (message_fields k))%nat then message_of k (zip (message_fields k) rest) else UnknownMessage
  | _ => UnknownMessage
  end.
End messages.

(** ** RPC waiters *)

(** Waiters and terminal sinks by id; a sink is a bounded channel to one browser. *)
Record Sink := { sink_capacity : nat; sink_frames : list json }.
Record RpcWaiters := {
  script_waiters : gmap Uuid Uuid;
  log_waiters : gmap Uuid Uuid;
  terminal_sessions : gmap Uuid Uuid;
  sinks : gmap Uuid Sink;
  completed : list (Uuid * json)
}.
Definition with_waiters (r : RpcWaiters) (scripts logs terminals : gmap Uuid Uuid) : RpcWaiters :=
  {| script_waiters := scripts; log_waiters := logs; terminal_sessions := terminals; sinks := sinks r; completed := completed r |}.
Definition register_script_waiter (r : RpcWaiters) (id sender : Uuid) : RpcWaiters :=
  with_waiters r (<[id := sender]> (script_waiters r)) (log_waiters r) (terminal_sessions r).
Definition remove_script_waiter (r : RpcWaiters) (id : Uuid) : RpcWaiters :=
  with_waiters r (delete id (script_waiters r)) (log_waiters r) (terminal_sessions r).
Definition register_log_waiter (r : RpcWaiters) (id sender : Uuid) : RpcWaiters :=
  with_waiters r (script_waiters r) (<[id := sender]> (log_waiters r)) (terminal_sessions r).
Definition remove_log_waiter (r : RpcWaiters) (id : Uuid) : RpcWaiters :=
  with_waiters r (script_waiters r) (delete id (log_waiters r)) (terminal_sessions r).
Definition register_terminal_session (r : RpcWaiters) (session_id tx : Uuid) : RpcWaiters :=
  with_waiters r (script_waiters r) (log_waiters r) (<[session_id := tx]> (terminal_sessions r)).
Definition remove_terminal_session (r : RpcWaiters) (session_id : Uuid) : RpcWaiters :=
  with_waiters r (script_waiters r) (log_waiters r) (delete session_id (terminal_sessions r)).
Definition try_complete_script_waiter (r : RpcWaiters) (id : Uuid) (payload : json) : RpcWaiters * bool :=
  match script_waiters r !! id with
  | Some tx => ({| script_waiters := delete id (script_waiters r); log_waiters := log_waiters r;
                   terminal_sessions := terminal_sessions r; sinks := sinks r; completed := completed r ++ [(tx, payload)] |}, true)
  | None => (r, false)
  end.
Definition try_complete_log_waiter (r : RpcWaiters) (id : Uuid) (payload : json) : RpcWaiters * bool :=
  match log_waiters r !! id with
  | Some tx => ({| script_waiters := script_waiters r; log_waiters := delete id (log_waiters r);
                   terminal_sessions := terminal_sessions r; sinks := sinks r; completed := completed r ++ [(tx, payload)] |}, true)
  | None => (r, false)
  end.
(** [route_terminal_output]: a closed sink is one without an entry. *)
Definition route_terminal_output (r : RpcWaiters) (session_id : Uuid) (frame : json) : RpcWaiters * bool :=
  match terminal_sessions r !! session_id with
  | None => (r, false)
  | Some tx =>
      match sinks r !! tx with
      | Some s =>
          if (length (sink_frames s) <? sink_capacity s)%nat then
            ({| script_waiters := script_waiters r; log_waiters := log_waiters r; terminal_sessions := terminal_sessions r;
                sinks := <[tx := {| sink_capacity := sink_capacity s; sink_frames := sink_frames s ++ [frame] |}]> (sinks r);
                completed := completed r |}, true)
          else (r, false)
      | None => (r, false)
      end
  end.

(** ** Telemetry rows: [server/src/agents/telemetry/ingest.rs] *)

(** [lenient::trimmed_non_empty] and [lenient::f32_or_zero]. *)
Definition trimmed_non_empty (user : option string) : option string :=
  ofilter (fun s => negb (String.eqb s "")) (trim <$> user).
Definition lenient_f32_or_zero (field : option json) : spec_float :=
  match lenient_opt as_f64 field with
  | Some (S754_finite s m e) => binary_normalize 24 128 (cond_Zopp s (Z.pos m)) e s
  | Some f => f
  | None => S754_zero false
  end.
(** A lenient struct reads from an object or an array; anything else is its default. *)
Definition lenient_fields (names : list string) (v : json) : list (option json) :=
  default (replicate (length names) None) (struct_fields false names v).
Definition field_at (fs : list (option json)) (i : nat) : option json := default None (fs !! i).

Record KeysEvent := { k_app : string; k_app_display : string; k_window : string; k_text : string; k_ts : option Z; k_user : option string }.
Record WindowFocusEvent := { wf_title : string; wf_app : string; wf_app_display : string; wf_hwnd : Z; wf_ts : option Z; wf_user : option string }.
Record ActivityEvent := { a_kind : string; a_idle_secs : option Z; a_ts : option Z; a_user : option string }.
Record MetricsSample := {
  mx_cpu_pct : spec_float; mx_mem_used_mb : Z; mx_mem_total_mb : Z; mx_mem_pct : spec_float; mx_disk_pct : spec_float;
  mx_disk_used_gb : spec_float; mx_disk_total_gb : spec_float
}.
Definition parse_keys (v : json) : KeysEvent :=
  let fs := lenient_fields ["app"; "app_display"; "window"; "text"; "ts"; "user"]%string v in
  let app := lenient_string (field_at fs 0) in
  {| k_app := app; k_app_display := default app (lenient_opt as_str (field_at fs 1)); k_window := lenient_string (field_at fs 2);
     k_text := lenient_string (field_at fs 3); k_ts := lenient_opt as_i64 (field_at fs 4);
     k_user := trimmed_non_empty (lenient_opt as_str (field_at fs 5)) |}.
Definition parse_window_focus (v : json) : WindowFocusEvent :=
  let fs := lenient_fields ["title"; "app"; "app_display"; "hwnd"; "ts"; "user"]%string v in
  let app := lenient_string (field_at fs 1) in
  {| wf_title := lenient_string (field_at fs 0); wf_app := app; wf_app_display := default app (lenient_opt as_str (field_at fs 2));
     wf_hwnd := lenient_i64_or_zero (field_at fs 3); wf_ts := lenient_opt as_i64 (field_at fs 4);
     wf_user := trimmed_non_empty (lenient_opt as_str (field_at fs 5)) |}.
Definition parse_activity (v : json) : ActivityEvent :=
  let fs := lenient_fields ["type"; "idle_secs"; "ts"; "user"]%string v in
  {| a_kind := lenient_string (field_at fs 0); a_idle_secs := lenient_opt as_i64 (field_at fs 1); a_ts := lenient_opt as_i64 (field_at fs 2);
     a_user := trimmed_non_empty (lenient_opt as_str (field_at fs 3)) |}.
Definition parse_metrics (v : json) : MetricsSample :=
  let fs := lenient_fields ["cpu_pct"; "mem_used_mb"; "mem_total_mb"; "mem_pct"; "disk_pct"; "disk_used_gb"; "disk_total_gb"]%string v in
  {| mx_cpu_pct := lenient_f32_or_zero (field_at fs 0); mx_mem_used_mb := lenient_i64_wrap_or_zero (field_at fs 1);
     mx_mem_total_mb := lenient_i64_wrap_or_zero (field_at fs 2); mx_mem_pct := lenient_f32_or_zero (field_at fs 3);
     mx_disk_pct := lenient_f32_or_zero (field_at fs 4); mx_disk_used_gb := lenient_f32_or_zero (field_at fs 5);
     mx_disk_total_gb := lenient_f32_or_zero (field_at fs 6) |}.

(** ** Software inventory: [server/src/scripts/software_inventory/ingest.rs] and the diff of [dispatch.rs] *)

Definition MAX_SOFTWARE_ITEMS : Z := 12000.
Definition MAX_SOFTWARE_CHANGE_EVENTS : nat := 250.
Record SoftwareItem := {
  si_name : string; si_version : option string; si_publisher : option string; si_install_location : option string; si_install_date : option string
}.
(** [SoftwareItem::parse]: only an object or an array deserializes, and the name must not be blank. *)
Definition parse_software_item (v : json) : option SoftwareItem :=
  fs ← struct_fields false ["name"; "version"; "publisher"; "install_location"; "install_date"]%string v;
  let name := trim (lenient_string (field_at fs 0)) in
  if String.eqb name "" then None
  else Some {| si_name := name; si_version := lenient_opt as_str (field_at fs 1); si_publisher := lenient_opt as_str (field_at fs 2);
               si_install_location := lenient_opt as_str (field_at fs 3); si_install_date := lenient_opt as_str (field_at fs 4) |}.
Definition NL : string := String (ascii_of_N 10) EmptyString.
(** [SoftwareItem::key] of an item with a name, and [key_for_row]. *)
Definition software_key (i : SoftwareItem) : string :=
  let part o := to_ascii_lowercase (trim (default "" o)%string) in
  String.concat NL [to_ascii_lowercase (trim (si_name i)); part (si_version i); part (si_publisher i)].
Definition first_payload (items : list (SoftwareItem * json)) (k : string) : option json :=
  snd <$> List.find (fun it => String.eqb (software_key it.1) k) items.

Section software.
(** In which order the standard library's hash sets yield a difference. *)
Variable hash_order : list string -> list string.
Definition difference (a b : list string) : list string := hash_order (remove_dups (List.filter (fun k => negb (bool_decide (k ∈ b))) a)).
Definition software_installed (captured_at : option Z) (items : list (SoftwareItem * json)) (k : string) : option json :=
  it ← first_payload items k;
  Some (mk_obj [("type", JStr "software_installed"); ("key", JStr k); ("captured_at", opt_value JInt captured_at); ("item", it)]%string).
Definition software_removed (captured_at : option Z) (k : string) : json :=
  mk_obj [("type", JStr "software_removed"); ("key", JStr k); ("captured_at", opt_value JInt captured_at)]%string.
(** The change events of one snapshot: installations first, at most 250 in all, none for the first. *)
Definition software_changes (prev : list SoftwareItem) (items : list (SoftwareItem * json)) (captured_at : option Z) : list json * list json :=
  match prev with
  | [] => ([], [])
  | _ =>
      let prev_keys := software_key <$> prev in
      let new_keys := (software_key ∘ fst) <$> items in
      let installed := take MAX_SOFTWARE_CHANGE_EVENTS (omap (software_installed captured_at items) (difference new_keys prev_keys)) in
      (installed, take (MAX_SOFTWARE_CHANGE_EVENTS - length installed) (software_removed captured_at <$> difference prev_keys new_keys))
  end.
End software.

(** ** Limits: [server/src/agent_ws/mod.rs] *)

Definition MAX_AGENT_TEXT_BYTES : Z := 8 * 1024 * 1024.
Definition MAX_AGENT_BINARY_BYTES : Z := 8 * 1024 * 1024.
Definition MAX_KEYS_TEXT_CHARS : Z := 4000.
Definition MAX_URL_STR_BYTES : Z := 4096.
Definition MAX_WINDOW_TITLE_CHARS : Z := 512.
Definition MAX_WINDOW_APP_CHARS : Z := 256.
Definition chars_le (max : Z) (o : option string) : bool := is_none_or o (fun s => Z.of_nat (chars_count s) <=? max).
Definition bytes_le (max : Z) (o : option string) : bool := is_none_or o (fun s => Z.of_nat (String.length s) <=? max).

(** ** Dispatch *)

(** A write to the database, with what it binds. *)
Inductive DbWrite : Type :=
| UpsertKeys (e : KeysEvent)
| InsertWindow (e : WindowFocusEvent)
| RecordUrlVisit (v : json)
| RecordUrlSession (v : json)
| InsertActivity (e : ActivityEvent)
| UpsertAppIcon (exe : string) (png : list Z)
| LogAppBlockEvent (rule_id : option Z) (rule_name : option string) (exe : string)
| UpsertAgentInfo (v : json)
| InsertMetrics (e : MetricsSample)
| ReplaceSoftware (items : list SoftwareItem).
(** A call of the alert rules, which read the database and are not modelled. *)
Inductive AlertCall : Type := OnUrlOrKeys (kind : string) (v : json) | OnMetrics (v : json).

Record Ingestion := {
  in_state : AppState; in_rpc : RpcWaiters; in_frames : FrameStore; in_writes : list DbWrite; in_alerts : list AlertCall;
  in_clipboard : list (Uuid * json); in_audio : gmap Uuid (list (list Z))
}.
Definition on_state (s : Ingestion) (f : AppState -> AppState) : Ingestion :=
  {| in_state := f (in_state s); in_rpc := in_rpc s; in_frames := in_frames s; in_writes := in_writes s; in_alerts := in_alerts s;
     in_clipboard := in_clipboard s; in_audio := in_audio s |}.
Definition on_rpc (s : Ingestion) (f : RpcWaiters -> RpcWaiters * bool) : Ingestion :=
  {| in_state := in_state s; in_rpc := (f (in_rpc s)).1; in_frames := in_frames s; in_writes := in_writes s; in_alerts := in_alerts s;
     in_clipboard := in_clipboard s; in_audio := in_audio s |}.
Definition write_db (s : Ingestion) (w : DbWrite) : Ingestion :=
  {| in_state := in_state s; in_rpc := in_rpc s; in_frames := in_frames s; in_writes := in_writes s ++ [w]; in_alerts := in_alerts s;
     in_clipboard := in_clipboard s; in_audio := in_audio s |}.
Definition alert (s : Ingestion) (c : AlertCall) : Ingestion :=
  {| in_state := in_state s; in_rpc := in_rpc s; in_frames := in_frames s; in_writes := in_writes s; in_alerts := in_alerts s ++ [c];
     in_clipboard := in_clipboard s; in_audio := in_audio s |}.

(** What the outside answers while one event is handled: the clocks, a fresh id, the database's rows
    and whether each write succeeds, the policies of the agent in push order (a failed query or
    an absent row is [None]), the stored software and the hash order. *)
Record Answers := {
  an_now : Instant; an_now' : Instant; an_at : Z; an_fresh : Uuid; an_frame : FrameEnv;
  an_pending : list ModuleDisableRequest; an_request : Uuid -> option ModuleDisableRequest;
  an_write_ok : DbWrite -> bool; an_policies : list (option ServerCommand); an_software : list SoftwareItem;
  an_hash_order : list string -> list string
}.

Section dispatch.
Context `{UuidText, ChronoText, HostText, JsonText, Base64}.
Variable time_json : Z -> json.

(** [push_initial_policies]: a refused send is logged and the next policy still goes out. *)
Definition push_initial_policies (st : AppState) (agent : Uuid) (policies : list (option ServerCommand)) : AppState :=
  foldl (fun st p => match p with
                     | Some c => with_agents st (try_send_command (agents st) agent c).1
                     | None => st
                     end) st policies.

(** The module report of the agent, whoever's connection it is. *)
Definition stored_report (st : AppState) (agent : Uuid) : option ModuleReport := Registry.report <$> modules (agents st) !! agent.
Definition policy_grants_changed (previous current : option ModuleReport) : bool :=
  is_some_and current (fun r => is_none_or previous (fun old =>
    existsb (fun m => negb (ms_revision (report_get r m) =? ms_revision (report_get old m))) [AppPolicy; NetworkPolicy])).
Definition module_message (st : AppState) (agent conn : Uuid) (states : bool) (v : json) (an : Answers) : AppState * bool :=
  if states then
    let '(st, res) := accept_module_report time_json st agent conn v (an_pending an) (an_at an) in
    (if is_ok res then replay_module_disables st agent conn (an_now an) else st, is_ok res)
  else
    let '(st, res) := accept_module_disable_ack st agent conn v (an_request an) in (st, is_ok res).
Definition handle_module_message (st : AppState) (agent conn : Uuid) (states : bool) (v : json) (an : Answers) : AppState :=
  let previous := stored_report st agent in
  let '(st, accepted) := module_message st agent conn states v an in
  if negb accepted then st
  else
    let st := if policy_grants_changed previous (stored_report st agent) then push_initial_policies st agent (an_policies an) else st in
    sync_mjpeg_capture st agent (an_fresh an).

Definition fan_out (agent : Uuid) (name kind : string) (data : json) : Broadcast :=
  BText (mk_obj [("event", JStr kind); ("agent_id", uuid_json agent); ("agent_name", JStr name); ("data", data)]%string).
Definition software_summary (agent : Uuid) (name : string) (captured_at : option Z) (installed removed : nat) : Broadcast :=
  fan_out agent name "software_change_summary"
    (mk_obj [("captured_at", opt_value JInt captured_at); ("installed_count", JInt (Z.of_nat installed)); ("removed_count", JInt (Z.of_nat removed));
             ("capped", JBool (MAX_SOFTWARE_CHANGE_EVENTS <=? installed + removed)%nat)]%string).
Definition software_inventory (s : Ingestion) (agent : Uuid) (name : string) (v : json) (captured_at : option Z) (an : Answers)
    : Ingestion * bool :=
  let raw := take (Z.to_nat MAX_SOFTWARE_ITEMS) (default [] (as_array (idx v "items"))) in
  let items := omap (fun it => i ← parse_software_item it; Some (i, it)) raw in
  let w := ReplaceSoftware items.*1 in
  if negb (an_write_ok an w) then (s, false)
  else
    let s := write_db s w in
    let '(installed, removed) := software_changes (an_hash_order an) (an_software an) items captured_at in
    let s := match installed, removed with
             | [], [] => s
             | _, _ => on_state s (fun st => broadcast st (software_summary agent name captured_at (length installed) (length removed)))
             end in
    (on_state s (fun st => foldl (fun st ev => broadcast st (fan_out agent name (default "software_change"%string (as_str (idx ev "type"))) ev))
                                 st (installed ++ removed)), true).

(** What an event stores: nothing ([None]), or a write that may fail. *)
Definition event_write (m : AgentMessage) (v : json) : option DbWrite :=
  match m with
  | Keys text => if chars_le MAX_KEYS_TEXT_CHARS text then Some (UpsertKeys (parse_keys v)) else None
  | WindowFocus title app =>
      if chars_le MAX_WINDOW_TITLE_CHARS title && chars_le MAX_WINDOW_APP_CHARS app then Some (InsertWindow (parse_window_focus v)) else None
  | Url url => if bytes_le MAX_URL_STR_BYTES url then Some (RecordUrlVisit v) else None
  | UrlSession => Some (RecordUrlSession v)
  | Afk | Active => Some (InsertActivity (parse_activity v))
  | AppIcon exe png =>
      let b64 := default ""%string png in
      if negb (is_some_and exe (fun s => negb (String.eqb (trim s) "") && (Z.of_nat (String.length s) <=? MAX_WINDOW_APP_CHARS)))
         || String.eqb b64 "" || (300000 <? Z.of_nat (String.length b64)) then None
      else bytes ← base64_decode b64; Some (UpsertAppIcon (default ""%string exe) bytes)
  | AppBlockKill rule_id rule_name exe =>
      let exe := trim (default ""%string exe) in
      if String.eqb exe "" then None else Some (LogAppBlockEvent rule_id rule_name exe)
  | AgentInfo => Some (UpsertAgentInfo v)
  | Metrics => Some (InsertMetrics (parse_metrics v))
  | _ => None
  end.
(** The match on the message: the state, and whether it went well. *)
Definition store_event (s : Ingestion) (agent : Uuid) (name : string) (v : json) (m : AgentMessage) (an : Answers) : Ingestion * bool :=
  match m with
  | SoftwareInventory captured_at => software_inventory s agent name v captured_at an
  | ScriptResult rid => (match rid with Some rid => on_rpc s (fun r => try_complete_script_waiter r rid v) | None => s end, true)
  | _ => match event_write m v with
         | Some w => if an_write_ok an w then (write_db s w, true) else (s, false)
         | None => (s, true)
         end
  end.
(** Everything after the match: the live snapshot, the alert rules and the fan-out. *)
Definition after_event (s : Ingestion) (agent : Uuid) (name : string) (v : json) (m : AgentMessage) (an : Answers) : Ingestion :=
  let kind := kind_of v in
  let s := match m with
           | WindowFocus _ _ | Url _ | Afk | Active =>
               on_state s (fun st => with_agents st (update_live_from_event (agents st) agent kind v (an_at an)))
           | _ => s
           end in
  let s := match m with
           | Keys _ | Url _ => alert s (OnUrlOrKeys kind v)
           | Metrics => alert s (OnMetrics v)
           | _ => s
           end in
  on_state s (fun st => broadcast st (fan_out agent name kind v)).

(** [dispatch_val]. *)
Definition dispatch_val (s : Ingestion) (agent conn : Uuid) (name : string) (v : json) (m : AgentMessage) (an : Answers) : Ingestion :=
  match m with
  | ModuleStates => on_state s (fun st => handle_module_message st agent conn true v an)
  | ModuleDisableAck => on_state s (fun st => handle_module_message st agent conn false v an)
  | ClipboardResult =>
      let '(st, reply) := complete_clipboard (in_state s) agent conn v (an_now an) (an_now' an) in
      {| in_state := st; in_rpc := in_rpc s; in_frames := in_frames s; in_writes := in_writes s; in_alerts := in_alerts s;
         in_clipboard := in_clipboard s ++ option_list reply; in_audio := in_audio s |}
  | LogTail rid | LogSources rid => match rid with Some rid => on_rpc s (fun r => try_complete_log_waiter r rid v) | None => s end
  | TerminalOutput sid | TerminalExit sid => match sid with Some sid => on_rpc s (fun r => route_terminal_output r sid v) | None => s end
  | HistoryFrame =>
      if module_authorized (agents (in_state s)) agent Recall then
        let '(db, ack) := ingest_history_frame (agents (in_state s)) (in_frames s) agent conn v (an_frame an) in
        let st := match ack with Some c => with_agents (in_state s) (try_send_command (agents (in_state s)) agent c).1 | None => in_state s end in
        {| in_state := st; in_rpc := in_rpc s; in_frames := db; in_writes := in_writes s; in_alerts := in_alerts s;
           in_clipboard := in_clipboard s; in_audio := in_audio s |}
      else s
  | _ =>
      let '(s, ok) := store_event s agent name v m an in
      if ok then after_event s agent name v m an else s
  end.
(** [dispatch_text]: a batch is one level deep. [ans] answers each event. *)
Definition dispatch_text (s : Ingestion) (agent conn : Uuid) (name : string) (text : list Z) (ans : nat -> Answers) : Ingestion :=
  match json_parse text with
  | None => s
  | Some v =>
      match parse_message v with
      | Batch events =>
          foldl (fun s ie => match parse_message ie.2 with
                             | Batch _ => s
                             | m => dispatch_val s agent conn name ie.2 m (ans ie.1)
                             end) s (imap pair events)
      | m => dispatch_val s agent conn name v m (ans 0%nat)
      end
  end.

(** ** The receive branch of [run] *)

Inductive AgentFrame : Type := FBinary (b : list Z) | FText (t : list Z) | FClose | FOther.
Definition route_audio_frame (s : Ingestion) (agent : Uuid) (b : list Z) : Ingestion :=
  {| in_state := in_state s; in_rpc := in_rpc s; in_frames := in_frames s; in_writes := in_writes s; in_alerts := in_alerts s;
     in_clipboard := in_clipboard s;
     in_audio := match in_audio s !! agent with Some l => <[agent := l ++ [b]]> (in_audio s) | None => in_audio s end |}.
Definition dispatch_binary (s : Ingestion) (agent conn : Uuid) (b : list Z) (an : Answers) : Ingestion :=
  if starts_with b AUDIO_FRAME_MAGIC then
    if module_authorized (agents (in_state s)) agent LiveAudio then route_audio_frame s agent b else s
  else if starts_with b HISTORY_FRAME_MAGIC then
    if module_authorized (agents (in_state s)) agent Recall then
      let '(db, ack) := ingest_history_frame_binary (agents (in_state s)) (in_frames s) agent conn b (an_frame an) in
      let st := match ack with Some c => with_agents (in_state s) (try_send_command (agents (in_state s)) agent c).1 | None => in_state s end in
      {| in_state := st; in_rpc := in_rpc s; in_frames := db; in_writes := in_writes s; in_alerts := in_alerts s;
         in_clipboard := in_clipboard s; in_audio := in_audio s |}
    else s
  else if module_authorized (agents (in_state s)) agent LiveScreen
  then on_state s (fun st => with_media st (State.store_frame (media st) agent b (an_now an)))
  else s.
(** One received frame: the new state, and whether the session goes on. *)
Definition receive_frame (s : Ingestion) (agent conn : Uuid) (name : string) (f : AgentFrame) (ans : nat -> Answers) : Ingestion * bool :=
  if negb (bool_decide (conn_id <$> connections (agents (in_state s)) !! agent = Some conn)) then (s, false)
  else
    match f with
    | FBinary b => if MAX_AGENT_BINARY_BYTES <? Z.of_nat (length b) then (s, false) else (dispatch_binary s agent conn b (ans 0%nat), true)
    | FText t => if MAX_AGENT_TEXT_BYTES <? Z.of_nat (length t) then (s, false) else (dispatch_text s agent conn name t ans, true)
    | FClose => (s, false)
    | FOther => (s, true)
    end.
End dispatch.

(** ** Lemmas *)

Definition is_private (b : Broadcast) : Prop := exists viewer v, b = BPrivateText viewer v.

Section lemmas.
Context `{UuidText, ChronoText, HostText, JsonText, Base64}.

Lemma deliver_batch_tx st b : tx (deliver_batch st b).1 = tx st ++ notices [b].
Proof.
  unfold deliver_batch. destruct (match ofilter _ _ with Some _ => _ | None => _ end) as [r ok]. unfold notices. cbn [fst omap list_omap].
  destruct (c_reason b); cbn [tx with_agents with_control broadcast]; by rewrite ?app_nil_r.
Qed.
Lemma deliver_tx st bs : tx (deliver_control_cleanup st bs).1 = tx st ++ notices bs.
Proof.
  revert st. induction bs as [|b bs IH]; intros st; cbn [deliver_control_cleanup]; [by rewrite app_nil_r|].
  pose proof (deliver_batch_tx st b) as Hb. destruct (deliver_batch st b) as [st1 ok1]. cbn [fst] in Hb.
  pose proof (IH st1) as Hd. destruct (deliver_control_cleanup st1 bs) as [st2 ok2]. cbn [fst] in *.
  rewrite Hd, Hb, <- app_assoc. f_equal. unfold notices. cbn [omap list_omap]. by destruct (c_reason b).
Qed.
Lemma notices_private bs : Forall is_private (notices bs).
Proof.
  apply Forall_forall. unfold notices. intros x (b & _ & Hb)%list_elem_of_omap. destruct (c_reason b); simplify_eq; by do 2 eexists.
Qed.
(** What a step adds to the fan-out is for single viewers only. *)
Definition adds_private (st st' : AppState) : Prop := exists l, tx st' = tx st ++ l /\ Forall is_private l.
Lemma adds_private_same st st' : tx st' = tx st -> adds_private st st'.
Proof. intros E. exists []. rewrite app_nil_r. split; [done|by apply Forall_nil_2]. Qed.
Lemma clipboard_valid_private st p now now' : adds_private st (clipboard_valid_locked st p now now').1.
Proof.
  unfold clipboard_valid_locked. destruct (_ || _); [by apply adds_private_same|]. destruct (authorize _ _ _ _ _) as [s t].
  destruct (commit_sessions st (s, t_cleanup t)) as [st1 safe] eqn:E.
  assert (adds_private st st1) as Hp.
  { exists (notices (t_cleanup t)). split; [|apply notices_private]. change st1 with (st1, safe).1. rewrite <- E. unfold commit_sessions. by rewrite deliver_tx. }
  destruct (negb _); [done|]. destruct (negb _); [done|]. by destruct (authorize_agent_command _ _ _).
Qed.
Lemma complete_clipboard_private st agent conn v now now' : adds_private st (complete_clipboard st agent conn v now now').1.
Proof.
  unfold complete_clipboard. destruct (uuid_field v "request_id") as [id|]; [|by apply adds_private_same].
  destruct (clipboard (control st) !! id) as [p|]; [|by apply adds_private_same]. destruct (_ || _); [by apply adds_private_same|].
  set (st0 := set_clipboard st _). pose proof (clipboard_valid_private st0 p now now') as (l & Hl & Hp).
  destruct (clipboard_valid_locked st0 p now now') as [st1 valid]. exists l. split; [exact Hl|done].
Qed.

(** The replies that answer one request or one session. *)
Definition private_message (m : AgentMessage) : bool :=
  match m with
  | ClipboardResult | LogTail _ | LogSources _ | TerminalOutput _ | TerminalExit _ | HistoryFrame => true
  | _ => false
  end.
(** What a reply that names a request or a session may do to those who wait: only the waiter of the
    log request it names is completed, only the terminal it names is fed, with this very payload. *)
Definition answers_named (m : AgentMessage) (v : json) (r r' : RpcWaiters) : Prop :=
  match m with
  | LogTail (Some i) | LogSources (Some i) =>
      script_waiters r' = script_waiters r /\ terminal_sessions r' = terminal_sessions r /\ sinks r' = sinks r
      /\ match log_waiters r !! i with
         | Some w => log_waiters r' = delete i (log_waiters r) /\ completed r' = completed r ++ [(w, v)]
         | None => log_waiters r' = log_waiters r /\ completed r' = completed r
         end
  | TerminalOutput (Some i) | TerminalExit (Some i) =>
      script_waiters r' = script_waiters r /\ log_waiters r' = log_waiters r /\ terminal_sessions r' = terminal_sessions r
      /\ completed r' = completed r
      /\ forall k, sinks r' !! k <> sinks r !! k ->
           terminal_sessions r !! i = Some k
           /\ exists sk, sinks r !! k = Some sk /\ (length (sink_frames sk) < sink_capacity sk)%nat
              /\ sinks r' !! k = Some {| sink_capacity := sink_capacity sk; sink_frames := sink_frames sk ++ [v] |}
  | _ => r' = r
  end.
(** The request or session an object message names. *)
Definition names_id (m : AgentMessage) : option (string * Uuid) :=
  match m with
  | LogTail i | LogSources i => pair "request_id"%string <$> i
  | TerminalOutput i | TerminalExit i => pair "session_id"%string <$> i
  | _ => None
  end.
Lemma parse_names_id v k i :
  names_id (parse_message v) = Some (k, i) -> is_object v = true -> as_str (idx v k) ≫= parse_uuid = Some i.
Proof.
  destruct v as [| | | | | |l]; try done. intros Hn _. unfold parse_message in Hn.
  destruct (fget "type" l) as [[| | | |kind| |]|]; try done. unfold message_of, message_table in Hn. cbn [assoc_str] in Hn.
  repeat (destruct (String.eqb kind _);
    [cbn [names_id] in Hn; first [discriminate Hn|
       apply fmap_Some in Hn as (y & Hy & [= -> ->]); unfold fuuid, lenient_uuid, lenient_opt in Hy;
       unfold idx, get; cbv beta iota; match type of Hy with context [fget ?f l] => destruct (fget f l) as [x|]; [|discriminate Hy] end;
       exact Hy]|]).
  discriminate Hn.
Qed.
Lemma log_waiter_named m r i v : m = LogTail (Some i) \/ m = LogSources (Some i) -> answers_named m v r (try_complete_log_waiter r i v).1.
Proof.
  unfold try_complete_log_waiter. intros [-> | ->]; cbn [answers_named]; by destruct (log_waiters r !! i).
Qed.
Lemma terminal_named m r i v : m = TerminalOutput (Some i) \/ m = TerminalExit (Some i) -> answers_named m v r (route_terminal_output r i v).1.
Proof.
  unfold route_terminal_output. intros Hm. assert (answers_named m v r r) as Hrefl by by destruct Hm as [-> | ->].
  destruct (terminal_sessions r !! i) as [w|] eqn:E; [|done].
  destruct (sinks r !! w) as [sk|] eqn:Es; [|done]. destruct (Nat.ltb_spec (length (sink_frames sk)) (sink_capacity sk)) as [Hl|]; [|done].
  destruct Hm as [-> | ->]; cbn [answers_named fst script_waiters log_waiters terminal_sessions completed sinks]; split_and!; try done;
    intros k Hk; (destruct (decide (w = k)) as [->|]; [|by rewrite lookup_insert_ne in Hk]);
    (split; [done|]); exists sk; by rewrite lookup_insert_eq.
Qed.

(** What a keyframe may do to the store: it adds at most one row, to the sending agent, while its
    Recall grants stand on this connection, and writes or deletes at most the blob it was given. *)
Definition keyframe_only (s : AppState) (agent conn : Uuid) (env : FrameEnv) (db db' : FrameStore) : Prop :=
  (db' <> db -> module_authorized (agents s) agent Recall = true)
  /\ (frames db' = frames db
      \/ exists row, frames db' = frames db ++ [row] /\ sf_agent row = agent /\ isSome (recall_context_grants (agents s) agent conn) = true)
  /\ (forall p, blobs db' !! p <> blobs db !! p -> exists t, p = frame_path agent t (fe_file env)).
Lemma keyframe_only_refl s agent conn env db : keyframe_only s agent conn env db db.
Proof. split_and!; [done|by left|done]. Qed.
Lemma store_keyframe_only s db agent conn val jpeg env :
  module_authorized (agents s) agent Recall = true ->
  keyframe_only s agent conn env db (store_history_frame (agents s) db agent conn val jpeg env).1.
Proof.
  intros Ha. unfold store_history_frame. destruct (_ && _); [apply keyframe_only_refl|]. set (path := frame_path _ _ _).
  destruct (fe_blob env) as [[]|]; try apply keyframe_only_refl. unfold finish_history_frame.
  assert (forall fs bs, (fs = frames db \/ exists row, fs = frames db ++ [row] /\ sf_agent row = agent
             /\ isSome (recall_context_grants (agents s) agent conn) = true) -> (forall p, p <> path -> bs !! p = blobs db !! p) ->
            keyframe_only s agent conn env db {| frames := fs; blobs := bs |}) as Hk.
  { intros fs bs Hf Hb. split_and!; [done|done|]. intros p Hp. eexists. destruct (decide (p = path)) as [E|Hne]; [exact E|]. by destruct Hp; apply Hb. }
  destruct (recall_context_grants (agents s) agent conn) as [[w b]|] eqn:Hg.
  2: { apply Hk; [by left|]. intros p Hp. cbn. by rewrite lookup_delete_ne, lookup_insert_ne. }
  destruct (fe_db env); cbn [negb]; [|apply Hk; [by left|]; intros p Hp; by apply lookup_insert_ne].
  destruct (insert_screen_frame _ _) as [db1 ins] eqn:Hi. apply insert_spec in Hi as [Hb Hi]. destruct db1 as [fs bs]. cbn [frames blobs with_blobs] in *. subst bs.
  destruct ins; apply Hk.
  - right. eexists. destruct Hi as [-> _]. by split_and!.
  - intros p Hp. by apply lookup_insert_ne.
  - left. by destruct Hi as [-> _].
  - intros p Hp. cbn. by rewrite lookup_delete_ne, lookup_insert_ne.
Qed.
(** Nothing of it is shown, stored as telemetry, alerted on or played to others. *)
Definition unseen (s s' : Ingestion) : Prop :=
  adds_private (in_state s) (in_state s') /\ media (in_state s') = media (in_state s)
  /\ in_writes s' = in_writes s /\ in_alerts s' = in_alerts s /\ in_audio s' = in_audio s.
End lemmas.

Section theorems.
Context `{UuidText, ChronoText, HostText, JsonText, Base64}.
Variable time_json : Z -> json.

Lemma try_send_command_frame st agent c :
  tx (with_agents st (try_send_command (agents st) agent c).1) = tx st.
Proof. done. Qed.

Lemma complete_clipboard_effect st agent conn v now now' :
  let r := complete_clipboard st agent conn v now now' in
  adds_private st r.1 /\ media r.1 = media st
  /\ (forall id reply, r.2 = Some (id, reply) ->
        exists p, as_str (idx v "request_id") ≫= parse_uuid = Some id /\ clipboard (control st) !! id = Some p
        /\ pc_agent p = agent /\ agent_connection_id (pc_owner p) = conn /\ pc_waiting p = true
        /\ forall t, idx reply "text" = JStr t -> idx v "text" = JStr t)
  /\ (forall j, as_str (idx v "request_id") ≫= parse_uuid <> Some j -> clipboard (control r.1) !! j = clipboard (control st) !! j).
Proof.
  intros r. split; [apply complete_clipboard_private|]. subst r. unfold complete_clipboard. change (uuid_field v "request_id") with (as_str (idx v "request_id") ≫= parse_uuid).
  destruct (as_str _ ≫= _) as [i|]; [|done]. destruct (clipboard (control st) !! i) as [p|] eqn:Hp; [|done].
  destruct (_ || _) eqn:Hg; [done|]. bool_prop. cbv zeta. set (st0 := set_clipboard st _).
  destruct (clipboard_valid_keeps st0 p now now') as [Hm Hc].
  destruct (clipboard_valid_locked st0 p now now') as [st1 valid]. cbn [fst snd] in *. split_and!; [exact Hm| |].
  - intros id reply. destruct (pc_waiting p) eqn:Hw; [|done]. intros [= <- <-]. exists p. split_and!; try done.
    intros t. unfold clipboard_reply. destruct valid; [|done]. cbn [negb]. case_bool_decide; [|done]. destruct (str_is _ _); [|done].
    destruct (ofilter text_ok (as_str (idx v "text"))) as [x|] eqn:Ht; [|done]. intros [= <-]. apply ofilter_Some in Ht as [Ht _].
    by destruct (idx v "text"); simplify_eq/=.
  - intros j Hj. cbn [set_clipboard control with_control clipboard with_clipboard]. rewrite Hc. subst st0. cbn.
    rewrite lookup_insert_ne by congruence. apply lookup_delete_ne. congruence.
Qed.
Lemma keyframe_message_only st db agent conn v env :
  module_authorized (agents st) agent Recall = true -> keyframe_only st agent conn env db (ingest_history_frame (agents st) db agent conn v env).1.
Proof.
  intros Ha. unfold ingest_history_frame. destruct (String.eqb _ _); [apply keyframe_only_refl|]. destruct (base64_decode _) as [jpeg|]; [|apply keyframe_only_refl].
  destruct (_ <? _); [apply keyframe_only_refl|]. pose proof (store_keyframe_only st db agent conn v jpeg env Ha) as Hk.
  by destruct (store_history_frame _ _ _ _ _ _ _).
Qed.
Lemma keyframe_binary_only st db agent conn b env :
  module_authorized (agents st) agent Recall = true -> keyframe_only st agent conn env db (ingest_history_frame_binary (agents st) db agent conn b env).1.
Proof.
  intros Ha. unfold ingest_history_frame_binary. destruct (parse_history_frame_binary b) as [[v [|x jpeg]]|]; try apply keyframe_only_refl.
  destruct (_ <? _); [apply keyframe_only_refl|]. pose proof (store_keyframe_only st db agent conn v (x :: jpeg) env Ha) as Hk.
  by destruct (store_history_frame _ _ _ _ _ _ _).
Qed.

(** C9: a private reply stays private. A clipboard text, a log, terminal output or a keyframe an
    agent sends in a message is never put on the dashboards' shared stream (only lease notices to
    single viewers may be), is stored in no table but a keyframe's own, raises no alert, and
    completes or feeds only the waiter or the terminal of the request or session id it names, with
    its own payload; a clipboard answer goes out only under the request id it names, for a request
    of this device and connection that still waits, with no text but the agent's own. The same
    holds of a keyframe sent as a binary frame, which reaches no waiter at all; either way a
    keyframe is taken only while Recall is granted and adds at most one row, to its own agent. *)
Theorem private_replies_stay_private s agent conn name v b an :
  (private_message (parse_message v) = true ->
   let m := parse_message v in
   let s' := dispatch_val time_json s agent conn name v m an in
   unseen s s' /\ answers_named m v (in_rpc s) (in_rpc s')
   /\ (forall k i, names_id m = Some (k, i) -> is_object v = true -> as_str (idx v k) ≫= parse_uuid = Some i)
   /\ (m <> HistoryFrame -> in_frames s' = in_frames s)
   /\ keyframe_only (in_state s) agent conn (an_frame an) (in_frames s) (in_frames s')
   /\ (in_clipboard s' <> in_clipboard s -> m = ClipboardResult
        /\ exists id reply p, in_clipboard s' = in_clipboard s ++ [(id, reply)]
        /\ as_str (idx v "request_id") ≫= parse_uuid = Some id /\ clipboard (control (in_state s)) !! id = Some p
        /\ pc_agent p = agent /\ agent_connection_id (pc_owner p) = conn /\ pc_waiting p = true
        /\ forall t, idx reply "text" = JStr t -> idx v "text" = JStr t)
   /\ (forall j, as_str (idx v "request_id") ≫= parse_uuid <> Some j ->
         clipboard (control (in_state s')) !! j = clipboard (control (in_state s)) !! j))
  /\ (starts_with b HISTORY_FRAME_MAGIC = true ->
   let s' := dispatch_binary s agent conn b an in
   unseen s s' /\ in_rpc s' = in_rpc s /\ in_clipboard s' = in_clipboard s /\ control (in_state s') = control (in_state s)
   /\ keyframe_only (in_state s) agent conn (an_frame an) (in_frames s) (in_frames s')).
Proof.
  assert (unseen s s) as Hun by (split_and!; [by apply adds_private_same|done..]).
  split.
  - intros Hm m. pose proof (parse_names_id v) as Hids. subst m.
    destruct (parse_message v) as [| | | |rid|rid|rid| | | |sid|sid| | | | | | | | | | | | |]; try done; cbn [dispatch_val].
    2-3: destruct rid as [i|]; split_and!; first [done|apply keyframe_only_refl|apply log_waiter_named; auto|exact Hids].
    2-3: destruct sid as [i|]; split_and!; first [done|apply keyframe_only_refl|apply terminal_named; auto|exact Hids].
    + destruct (complete_clipboard_effect (in_state s) agent conn v (an_now an) (an_now' an)) as (Hp & Hmed & Hreply & Hoth).
      destruct (complete_clipboard _ _ _ _ _ _) as [st reply]. cbn [fst snd] in *.
      split_and!; first [done|apply keyframe_only_refl|idtac]. intros Hne. split; [done|]. destruct reply as [[id reply]|]; [|by destruct Hne; apply app_nil_r].
      destruct (Hreply id reply eq_refl) as (p & Hp'). by exists id, reply, p.
    + destruct (module_authorized _ agent Recall) eqn:Ha; [|split_and!; first [done|apply keyframe_only_refl]].
      pose proof (keyframe_message_only (in_state s) (in_frames s) agent conn v (an_frame an) Ha) as Hk.
      destruct (ingest_history_frame _ _ _ _ _ _) as [db [c|]]; (split_and!; first [done|exact Hk]).
  - intros Hb. unfold dispatch_binary. rewrite Hb. destruct (starts_with b AUDIO_FRAME_MAGIC) eqn:Hau.
    { exfalso. destruct b as [|x b]; [done|]. apply andb_true_iff in Hau as [Hx%Z.eqb_eq _]. apply andb_true_iff in Hb as [Hy%Z.eqb_eq _]. congruence. }
    destruct (module_authorized _ agent Recall) eqn:Ha; [|split_and!; first [done|apply keyframe_only_refl]].
    pose proof (keyframe_binary_only (in_state s) (in_frames s) agent conn b (an_frame an) Ha) as Hk.
    destruct (ingest_history_frame_binary _ _ _ _ _ _) as [db [c|]]; (split_and!; first [done|exact Hk]).
Qed.

(** The messages that are telemetry: stored, then shown. *)
Definition is_telemetry (m : AgentMessage) : bool :=
  match m with
  | Keys _ | WindowFocus _ _ | Url _ | UrlSession | Afk | Active | AppIcon _ _ | AppBlockKill _ _ _ | AgentInfo | Metrics => true
  | _ => false
  end.
Lemma after_event_effect s agent name v m an :
  let s' := after_event s agent name v m an in
  tx (in_state s') = tx (in_state s) ++ [fan_out agent name (kind_of v) v]
  /\ connections (agents (in_state s')) = connections (agents (in_state s)) /\ modules (agents (in_state s')) = modules (agents (in_state s))
  /\ control (in_state s') = control (in_state s) /\ media (in_state s') = media (in_state s)
  /\ in_rpc s' = in_rpc s /\ in_frames s' = in_frames s /\ in_writes s' = in_writes s /\ in_audio s' = in_audio s.
Proof. by destruct m. Qed.

(** Telemetry is stored before it is shown: an event whose write fails leaves the whole server
    as it was, with nothing shown and no alert; one whose write succeeds is written
    exactly once and broadcast exactly once, with the payload the agent sent; no event
    touches the connections, the reports, the leases, the keyframes or anyone's reply. *)
Theorem telemetry_stored_then_shown s agent conn name v m an :
  is_telemetry m = true ->
  let s' := dispatch_val time_json s agent conn name v m an in
  match event_write m v with
  | Some w => if an_write_ok an w
              then in_writes s' = in_writes s ++ [w] /\ tx (in_state s') = tx (in_state s) ++ [fan_out agent name (kind_of v) v]
              else s' = s
  | None => in_writes s' = in_writes s /\ tx (in_state s') = tx (in_state s) ++ [fan_out agent name (kind_of v) v]
  end
  /\ connections (agents (in_state s')) = connections (agents (in_state s)) /\ modules (agents (in_state s')) = modules (agents (in_state s))
  /\ control (in_state s') = control (in_state s) /\ in_rpc s' = in_rpc s /\ in_frames s' = in_frames s.
Proof.
  intros Hm s'. assert (s' = match event_write m v with
    | Some w => if an_write_ok an w then after_event (write_db s w) agent name v m an else s
    | None => after_event s agent name v m an
    end) as E.
  { subst s'. destruct m; try done; cbn [dispatch_val store_event]; (destruct (event_write _ v) as [w|]; [destruct (an_write_ok an w)|]); done. }
  rewrite E. destruct (event_write m v) as [w|]; [destruct (an_write_ok an w)|].
  - destruct (after_event_effect (write_db s w) agent name v m an) as (Ht & Hc & Hmod & Hk & _ & Hr & Hf & Hw & _). by split_and!.
  - done.
  - destruct (after_event_effect s agent name v m an) as (Ht & Hc & Hmod & Hk & _ & Hr & Hf & Hw & _). by split_and!.
Qed.

(** Which module a binary frame belongs to. *)
Definition frame_module (b : list Z) : Module_ :=
  if starts_with b AUDIO_FRAME_MAGIC then LiveAudio else if starts_with b HISTORY_FRAME_MAGIC then Recall else LiveScreen.

(** Media needs its module: a binary frame changes anything only on the agent's current connection,
    within the size limit, and while its own module is granted; it then reaches only
    that module's consumer (the agent's own audio subscribers, the keyframe store or the frame
    cache) and never the event stream, the telemetry tables or the alert rules, and the session
    ends exactly when the connection was replaced or the frame is too large. *)
Theorem media_needs_its_module s agent conn name b ans :
  let '(s', goes_on) := receive_frame time_json s agent conn name (FBinary b) ans in
  let current := conn_id <$> connections (agents (in_state s)) !! agent in
  (goes_on = true <-> current = Some conn /\ Z.of_nat (length b) <= MAX_AGENT_BINARY_BYTES)
  /\ (s' <> s -> goes_on = true /\ module_authorized (agents (in_state s)) agent (frame_module b) = true)
  /\ (frame_module b <> LiveAudio -> in_audio s' = in_audio s) /\ (forall a, a <> agent -> in_audio s' !! a = in_audio s !! a)
  /\ (frame_module b <> Recall -> in_frames s' = in_frames s) /\ (frame_module b <> LiveScreen -> media (in_state s') = media (in_state s))
  /\ tx (in_state s') = tx (in_state s) /\ in_writes s' = in_writes s /\ in_alerts s' = in_alerts s /\ in_rpc s' = in_rpc s
  /\ control (in_state s') = control (in_state s).
Proof.
  unfold receive_frame. destruct (bool_decide_reflect ((conn_id <$> connections (agents (in_state s)) !! agent) = Some conn)) as [Hc|Hc];
    cbn [negb].
  2: { split_and!; naive_solver. }
  destruct (Z.ltb_spec MAX_AGENT_BINARY_BYTES (Z.of_nat (length b))) as [Hl|Hl].
  { split_and!; try done. split; [done|lia]. }
  split; [naive_solver|]. unfold dispatch_binary, frame_module.
  destruct (starts_with b AUDIO_FRAME_MAGIC).
  { destruct (module_authorized _ agent LiveAudio) eqn:Ha; [|done]. split_and!; try done. intros a Hne. cbn.
    destruct (in_audio s !! agent); [by rewrite lookup_insert_ne|done]. }
  destruct (starts_with b HISTORY_FRAME_MAGIC).
  { destruct (module_authorized _ agent Recall) eqn:Ha; [|done]. destruct (ingest_history_frame_binary _ _ _ _ _ _) as [db [c|]]; by split_and!. }
  destruct (module_authorized _ agent LiveScreen) eqn:Ha; [|done]. by split_and!.
Qed.

Lemma first_payload_Some items k : k ∈ (software_key ∘ fst) <$> items -> is_Some (first_payload items k).
Proof.
  intros (it & -> & Hin)%list_elem_of_fmap. unfold first_payload, compose.
  destruct (List.find (fun i => String.eqb (software_key i.1) (software_key it.1)) items) as [x|] eqn:E; [by eexists|].
  apply list_elem_of_In in Hin. pose proof (find_none _ _ E _ Hin) as Hf. cbn in Hf. by rewrite String.eqb_refl in Hf.
Qed.
Lemma omap_full `{f : A -> option B} l : Forall (fun x => is_Some (f x)) l -> length (omap f l) = length l.
Proof. induction 1 as [|x l [y E] _ IH]; [done|]. cbn [omap list_omap length]. rewrite E. cbn [length]. f_equal. exact IH. Qed.
Lemma omap_full_take `{f : A -> option B} n l : Forall (fun x => is_Some (f x)) l -> take n (omap f l) = omap f (take n l).
Proof.
  intros Hl. revert n. induction Hl as [|x l [y E] _ IH]; intros [|n]; try done. cbn [omap list_omap take]. rewrite E. cbn [take]. f_equal. apply IH.
Qed.

Section hashed.
Variable hash_order : list string -> list string.
Hypothesis hash_permutes : forall l, hash_order l ≡ₚ l.
Lemma difference_spec a b : NoDup (difference hash_order a b) /\ forall k, k ∈ difference hash_order a b <-> k ∈ a /\ k ∉ b.
Proof.
  unfold difference. split.
  - rewrite (hash_permutes _). apply NoDup_remove_dups.
  - intros k. rewrite (hash_permutes _), elem_of_remove_dups, list_elem_of_In, filter_In, negb_true_iff, bool_decide_eq_false.
    by rewrite <- list_elem_of_In.
Qed.

(** The software diff is exact and bounded: the first snapshot raises no change events; later ones
    raise at most 250, each installed entry a package of the new snapshot that the old one
    lacked and each removed entry one the new one lacks, none twice; and when the cap was not hit
    every difference is among them, whatever order the hash sets iterate in. *)
Theorem software_diff_exact prev items captured_at installed removed :
  software_changes hash_order prev items captured_at = (installed, removed) ->
  (length installed + length removed <= MAX_SOFTWARE_CHANGE_EVENTS)%nat
  /\ (prev = [] -> installed = [] /\ removed = [])
  /\ exists ki kr, installed = omap (software_installed captured_at items) ki /\ length installed = length ki
     /\ removed = software_removed captured_at <$> kr /\ NoDup ki /\ NoDup kr
     /\ (forall k, k ∈ ki -> k ∈ (software_key ∘ fst) <$> items /\ k ∉ software_key <$> prev)
     /\ (forall k, k ∈ kr -> k ∈ software_key <$> prev /\ k ∉ (software_key ∘ fst) <$> items)
     /\ (prev <> [] -> (length installed + length removed < MAX_SOFTWARE_CHANGE_EVENTS)%nat ->
         (forall k, k ∈ (software_key ∘ fst) <$> items -> k ∉ software_key <$> prev -> k ∈ ki)
         /\ forall k, k ∈ software_key <$> prev -> k ∉ (software_key ∘ fst) <$> items -> k ∈ kr).
Proof.
  unfold software_changes. destruct prev as [|p ps].
  { intros [= <- <-]. split_and!; [cbn; lia|done|]. exists [], []. split_and!; try done; try apply NoDup_nil_2; by intros ? ?%not_elem_of_nil. }
  set (new := (software_key ∘ fst) <$> items). set (old := software_key <$> p :: ps).
  destruct (difference_spec new old) as [Hn1 Hm1]. destruct (difference_spec old new) as [Hn2 Hm2].
  assert (Forall (fun k => is_Some (software_installed captured_at items k)) (difference hash_order new old)) as Hf.
  { apply Forall_forall. intros k [Hk _]%Hm1. destruct (first_payload_Some items k Hk) as [v Hv]. unfold software_installed. rewrite Hv. by eexists. }
  rewrite omap_full_take by done. set (d1 := difference hash_order new old) in *. set (d2 := difference hash_order old new) in *.
  set (n := MAX_SOFTWARE_CHANGE_EVENTS). assert (length (omap (software_installed captured_at items) (take n d1)) = length (take n d1)) as Hlen.
  { apply omap_full. eapply Forall_take. exact Hf. }
  cbv zeta. intros [= <- <-]. rewrite Hlen, <- !fmap_take, length_fmap. pose proof (length_take d1 n) as L1.
  set (r := (n - length (take n d1))%nat). pose proof (length_take d2 r) as L2.
  split_and!; [lia|done|]. exists (take n d1), (take r d2).
  assert (forall k l m, k ∈ take m l -> k ∈ (l : list string)) as Hsub.
  { intros k l m Hk. rewrite <- (take_drop m l). apply elem_of_app. by left. }
  split_and!; try done.
  - eapply sublist_NoDup; [exact Hn1|apply sublist_take].
  - eapply sublist_NoDup; [exact Hn2|apply sublist_take].
  - intros k Hk%Hsub. by apply Hm1.
  - intros k Hk%Hsub. by apply Hm2.
  - intros _ Hlt. rewrite (take_ge d1), (take_ge d2) by lia. split; intros k Ha Hb; [by apply Hm1|by apply Hm2].
Qed.
End hashed.
End theorems.

(** ** Examples *)

#[local] Instance ex_clock : ChronoText := {| parse_rfc3339 s := Some 5; day_text _ := "day"%string |}.
Definition ex_env : FrameEnv := {| fe_now := 9; fe_file := 3%N; fe_blob := Some true; fe_db := true |}.
Definition ex_answers (ok : bool) : Answers :=
  {| an_now := 0; an_now' := 0; an_at := 0; an_fresh := 9%N; an_frame := ex_env; an_pending := []; an_request _ := None;
     an_write_ok _ := ok; an_policies := []; an_software := []; an_hash_order l := l |}.
Definition ex_rpc : RpcWaiters :=
  {| script_waiters := ∅; log_waiters := {[5%N := 6%N]}; terminal_sessions := ∅; sinks := ∅; completed := [] |}.
Definition ex_ingestion : Ingestion :=
  {| in_state := AppState_new; in_rpc := ex_rpc; in_frames := FrameStore_empty; in_writes := []; in_alerts := []; in_clipboard := [];
     in_audio := ∅ |}.
Definition ex_b64 : Base64 := {| base64_decode _ := None |}.
Definition ex_host_text : HostText := {| domain_to_ascii s := Some s; https_host s := Some s |}.
Definition ex_dispatch (v : json) (m : AgentMessage) (an : Answers) : Ingestion :=
  @dispatch_val bin_uuid ex_clock ex_host_text bin_json ex_b64 JInt ex_ingestion 7%N 70%N "pc"%string v m an.
Definition ex_log : json := mk_obj [("type", JStr "log_tail"); ("request_id", JStr "101"); ("text", JStr "secret")]%string.
Definition ex_url : json := mk_obj [("type", JStr "url"); ("url", JStr "https://a")]%string.

Lemma private_replies_stay_private_witness :
  let s' := ex_dispatch ex_log (LogTail (Some 5%N)) (ex_answers true) in
  completed (in_rpc s') = [(6%N, ex_log)] /\ in_writes s' = [] /\ in_alerts s' = [].
Proof.
  destruct (@private_replies_stay_private bin_uuid ex_clock ex_host_text bin_json ex_b64 JInt ex_ingestion 7%N 70%N "pc"%string ex_log []
    (ex_answers true)) as [Hm _].
  assert (@parse_message bin_uuid ex_log = LogTail (Some 5%N)) as E by (vm_compute; reflexivity).
  rewrite E in Hm. destruct (Hm eq_refl) as ((_ & _ & Hw & Ha & _) & (_ & _ & _ & _ & Hc) & _).
  split; [exact Hc|]. split; [exact Hw|exact Ha].
Defined.
Lemma telemetry_stored_then_shown_witness :
  in_writes (ex_dispatch ex_url (Url (Some "https://a"%string)) (ex_answers true)) = [RecordUrlVisit ex_url]
  /\ ex_dispatch ex_url (Url (Some "https://a"%string)) (ex_answers false) = ex_ingestion.
Proof.
  split; [vm_compute; reflexivity|].
  exact (proj1 (@telemetry_stored_then_shown bin_uuid ex_clock ex_host_text bin_json ex_b64 JInt ex_ingestion 7%N 70%N "pc"%string ex_url
    (Url (Some "https://a"%string)) (ex_answers false) eq_refl)).
Defined.
Definition ex_item (n : string) : SoftwareItem :=
  {| si_name := n; si_version := None; si_publisher := None; si_install_location := None; si_install_date := None |}.
Lemma software_diff_exact_witness :
  let new := [(ex_item "B", JNull); (ex_item "c", JNull)]%string in
  let '(installed, removed) := software_changes (fun l => l) [ex_item "a"; ex_item "b"]%string new None in
  (length installed, length removed) = (1, 1)%nat /\ (length installed + length removed <= MAX_SOFTWARE_CHANGE_EVENTS)%nat.
Proof.
  intros new. destruct (software_changes (fun l => l) [ex_item "a"; ex_item "b"]%string new None) as [installed removed] eqn:E. split.
  - vm_compute in E. by simplify_eq.
  - exact (proj1 (@software_diff_exact (fun l => l) (fun l => Permutation_refl l) _ _ _ _ _ E)).
Defined.
