(* ===== verification/Input.v ===== *)
(** Remote input on the device and the shape check that guards it: the viewer commands the server
    forwards ([server/src/viewer/command_shape.rs]), the agent's injector
    ([agent/src/input/remote/mod.rs], [command.rs], [agent/src/commands/input.rs]) and the
    capture worker's input thread ([agent/src/capture/worker.rs]). The operating system answers
    each injected event through an oracle, so every sequence of failures is covered. *)
From S2P Require Import Prelude Text Json Protocol Sessions Geometry Permissions Fence.

(** ** What the server forwards: [command_shape.rs] *)

Definition MAX_TYPE_TEXT_CHARS : Z := 2000.
Definition MAX_NOTIFY_TITLE_CHARS : Z := 64.
Definition MAX_NOTIFY_MESSAGE_CHARS : Z := 256.
Definition MAX_FS_PATH_CHARS : Z := 2048.
Definition MAX_FS_NAME_CHARS : Z := 256.

Definition i32_ok (cmd : json) (name : string) : bool := isSome (read_i32 cmd name).
Definition chars_at_most (max : Z) (s : string) : bool := Z.of_nat (chars_count s) <=? max.
Definition text_field (max : Z) (v : json) : bool := is_some_and (as_str v) (fun s => negb (String.eqb (trim s) "") && chars_at_most max s).
Definition is_valid (cmd_type : string) (cmd : json) : bool :=
  let kind k := String.eqb cmd_type k in
  if kind "MouseMove" then i32_ok cmd "x" && i32_ok cmd "y"
  else if kind "MouseClick" || kind "MouseDoubleClick" || kind "MouseDown" || kind "MouseUp" then
    i32_ok cmd "x" && i32_ok cmd "y"
    && is_none_or (as_str (idx cmd "button")) (fun b => existsb (String.eqb b) BUTTONS)
  else if kind "MouseScroll" then i32_ok cmd "delta_x" && i32_ok cmd "delta_y"
  else if kind "TypeText" then is_some_and (as_str (idx cmd "text")) (chars_at_most MAX_TYPE_TEXT_CHARS)
  else if kind "KeyPress" || kind "KeyDown" || kind "KeyUp" then is_some_and (as_str (idx cmd "key")) tracked_key
  else if kind "KeyChar" then is_some_and (as_str (idx cmd "char")) (fun s => Nat.eqb (chars_count s) 1)
  else if kind "Notify" then
    is_some_and (as_str (idx cmd "title")) (chars_at_most MAX_NOTIFY_TITLE_CHARS)
    && is_some_and (as_str (idx cmd "message")) (chars_at_most MAX_NOTIFY_MESSAGE_CHARS)
  else if kind "ListDir" then true
  else if kind "ReadFile" then isSome (as_str (idx cmd "path"))
  else if kind "Mkdir" then text_field MAX_FS_PATH_CHARS (idx cmd "path") && text_field MAX_FS_NAME_CHARS (idx cmd "name")
  else if kind "RenamePath" || kind "CopyPath" then text_field MAX_FS_PATH_CHARS (idx cmd "src") && text_field MAX_FS_PATH_CHARS (idx cmd "dst")
  else if kind "DeletePath" then text_field MAX_FS_PATH_CHARS (idx cmd "path")
  else if kind "WriteFileChunk" then
    let total := default 0 (as_u64 (idx cmd "total_chunks")) in
    let index := default 0 (as_u64 (idx cmd "chunk_index")) in
    text_field 2048 (idx cmd "path") && (1 <=? total) && (index <? total)
    && (isSome (as_str (idx cmd "data")) || is_null (idx cmd "data"))
  else kind "RequestInfo" || kind "RestartHost" || kind "ShutdownHost" || kind "LockHost" || kind "CollectSoftware".

(** ** The agent's wire types: [command.rs] *)

Inductive MouseButton : Type := Left | Right | Middle.
Inductive SpecialKey : Type :=
| Enter | Backspace | Tab | Escape | Delete | Insert | Space | Home | End_ | PageUp | PageDown | ArrowUp | ArrowDown | ArrowLeft
| ArrowRight | F1 | F2 | F3 | F4 | F5 | F6 | F7 | F8 | F9 | F10 | F11 | F12 | Control | Alt | Shift | Meta | CapsLock.
(** The buttons and keys of the input library. *)
Inductive Button : Type := BLeft | BRight | BMiddle.
Inductive Key : Type :=
| KReturn | KBackspace | KTab | KEscape | KDelete | KInsert | KSpace | KHome | KEnd | KPageUp | KPageDown | KUpArrow | KDownArrow
| KLeftArrow | KRightArrow | KF1 | KF2 | KF3 | KF4 | KF5 | KF6 | KF7 | KF8 | KF9 | KF10 | KF11 | KF12 | KControl | KAlt | KShift
| KMeta | KCapsLock
| KUnicode (c : string).
#[export] Instance Button_eq_dec : EqDecision Button.
Proof. solve_decision. Defined.
#[export] Instance Key_eq_dec : EqDecision Key.
Proof. solve_decision. Defined.

Definition button_into (b : MouseButton) : Button := match b with Left => BLeft | Right => BRight | Middle => BMiddle end.
Definition special_key_to_enigo (k : SpecialKey) : Key :=
  match k with
  | Enter => KReturn | Backspace => KBackspace | Tab => KTab | Escape => KEscape | Delete => KDelete | Insert => KInsert
  | Space => KSpace | Home => KHome | End_ => KEnd | PageUp => KPageUp | PageDown => KPageDown | ArrowUp => KUpArrow
  | ArrowDown => KDownArrow | ArrowLeft => KLeftArrow | ArrowRight => KRightArrow | F1 => KF1 | F2 => KF2 | F3 => KF3 | F4 => KF4
  | F5 => KF5 | F6 => KF6 | F7 => KF7 | F8 => KF8 | F9 => KF9 | F10 => KF10 | F11 => KF11 | F12 => KF12 | Control => KControl
  | Alt => KAlt | Shift => KShift | Meta => KMeta | CapsLock => KCapsLock
  end.
(** Serde's lowercase variant names, in declaration order. *)
Definition button_table : list (string * MouseButton) := [("left", Left); ("right", Right); ("middle", Middle)]%string.
Definition key_table : list (string * SpecialKey) :=
  [("enter", Enter); ("backspace", Backspace); ("tab", Tab); ("escape", Escape); ("delete", Delete); ("insert", Insert); ("space", Space);
   ("home", Home); ("end", End_); ("pageup", PageUp); ("pagedown", PageDown); ("arrowup", ArrowUp); ("arrowdown", ArrowDown);
   ("arrowleft", ArrowLeft); ("arrowright", ArrowRight); ("f1", F1); ("f2", F2); ("f3", F3); ("f4", F4); ("f5", F5); ("f6", F6);
   ("f7", F7); ("f8", F8); ("f9", F9); ("f10", F10); ("f11", F11); ("f12", F12); ("control", Control); ("alt", Alt); ("shift", Shift);
   ("meta", Meta); ("capslock", CapsLock)]%string.
Definition unit_variant {T} (table : list (string * T)) (v : json) : option T :=
  match v with JStr s | JObj [(s, JNull)] => assoc_str s table | _ => None end.

Inductive ControlCommand : Type :=
| MouseMove (x y : Z)
| MouseClick (x y : Z) (button : MouseButton)
| MouseDoubleClick (x y : Z) (button : MouseButton)
| MouseDown (x y : Z) (button : MouseButton)
| MouseUp (x y : Z) (button : MouseButton)
| MouseScroll (delta_x delta_y : Z)
| TypeText (text : string)
| KeyPress (key : SpecialKey)
| KeyDown (key : SpecialKey)
| KeyUp (key : SpecialKey)
| KeyChar (character : string)
| Notify (title message : string).

Definition de_i32 (v : option json) : option Z := v ← v; n ← as_i64 v; try_i32 n.
Definition de_char (v : option json) : option string := ofilter (fun s => Nat.eqb (chars_count s) 1) (v ≫= as_str).
Definition de_key (v : option json) : option SpecialKey := v ≫= unit_variant key_table.
(** [#[serde(default)]]. *)
Definition de_button (v : option json) : option MouseButton :=
  match v with None => Some Left | Some v => unit_variant button_table v end.
Definition de_click (build : Z -> Z -> MouseButton -> ControlCommand) (v : json) : option ControlCommand :=
  fs ← struct_fields false ["x"; "y"; "button"]%string v;
  match fs with
  | [x; y; b] => x ← de_i32 x; y ← de_i32 y; b ← de_button b; Some (build x y b)
  | _ => None
  end.
Definition de_pair {T} (names : list string) (rd : option json -> option T) (build : T -> T -> ControlCommand) (v : json)
    : option ControlCommand :=
  fs ← struct_fields false names v;
  match fs with [a; b] => a ← rd a; b ← rd b; Some (build a b) | _ => None end.
Definition de_one {T} (name : string) (rd : option json -> option T) (build : T -> ControlCommand) (v : json) : option ControlCommand :=
  fs ← struct_fields false [name] v;
  match fs with [a] => build <$> rd a | _ => None end.
Definition control_table : list (string * (json -> option ControlCommand)) :=
  [("MouseMove", de_pair ["x"; "y"] de_i32 MouseMove); ("MouseClick", de_click MouseClick);
   ("MouseDoubleClick", de_click MouseDoubleClick); ("MouseDown", de_click MouseDown); ("MouseUp", de_click MouseUp);
   ("MouseScroll", de_pair ["delta_x"; "delta_y"] de_i32 MouseScroll);
   ("TypeText", de_one "text" (fun v => v ≫= as_str) TypeText); ("KeyPress", de_one "key" de_key KeyPress);
   ("KeyDown", de_one "key" de_key KeyDown); ("KeyUp", de_one "key" de_key KeyUp); ("KeyChar", de_one "char" de_char KeyChar);
   ("Notify", de_pair ["title"; "message"] (fun v => v ≫= as_str) Notify)]%string.
(** An internally tagged enum: the tag and the fields of an object, or of an array in order. *)
Definition decode_control (v : json) : option ControlCommand :=
  match v with
  | JObj _ => k ← as_str (idx v "type"); f ← assoc_str k control_table; f v
  | JArr (JStr k :: rest) => f ← assoc_str k control_table; f (JArr rest)
  | _ => None
  end.

(** ** Injection *)

Inductive Direction : Type := Press | Release | Click.
Inductive Axis : Type := Vertical | Horizontal.
Inductive OsEvent : Type :=
| MoveTo (x y : Z)
| ButtonEvent (b : Button) (d : Direction)
| KeyEvent (k : Key) (d : Direction)
| Scroll (length : Z) (a : Axis)
| Text (s : string)
| NotifyUser (title message : string).
(** Every call made and whether it succeeded, in order. *)
Abbreviation Calls := (list (OsEvent * bool)) (only parsing).

Record InputController := {
  held_keys : list Key; held_buttons : list Button; generation : option Generation; lease : option Generation
}.
(** The controller with what it shares: the process's worker leases and the operating system. *)
Record Injector := { ctl : InputController; workers : Workers; calls : Calls }.
Definition InputController_new : InputController := {| held_keys := []; held_buttons := []; generation := None; lease := None |}.
Definition MAX_SCROLL_NOTCHES : Z := 20.

Definition with_calls (s : Injector) (c : Calls) : Injector := {| ctl := ctl s; workers := workers s; calls := c |}.
Definition with_held (s : Injector) (ks : list Key) (bs : list Button) : Injector :=
  {| ctl := {| held_keys := ks; held_buttons := bs; generation := generation (ctl s); lease := lease (ctl s) |};
     workers := workers s; calls := calls s |}.
(** Assigning the lease takes the new one and drops the old one. *)
Definition set_lease (s : Injector) (l : option Generation) : Injector :=
  let w := match l with Some g => WorkerLease_new (workers s) g | None => workers s end in
  let w := match lease (ctl s) with Some g => WorkerLease_drop w g | None => w end in
  {| ctl := {| held_keys := held_keys (ctl s); held_buttons := held_buttons (ctl s); generation := generation (ctl s); lease := l |};
     workers := w; calls := calls s |}.
Definition set_generation (s : Injector) (g : option Generation) : Injector :=
  {| ctl := {| held_keys := held_keys (ctl s); held_buttons := held_buttons (ctl s); generation := g; lease := lease (ctl s) |};
     workers := workers s; calls := calls s |}.
Definition no_held (s : Injector) : bool := Nat.eqb (length (held_keys (ctl s))) 0 && Nat.eqb (length (held_buttons (ctl s))) 0.

Section injector.
(** The outcome of the [n]-th call to the operating system. *)
Variable os : nat -> bool.

Fixpoint perform (c : Calls) (es : list OsEvent) : Calls * bool :=
  match es with
  | [] => (c, true)
  | e :: es => let ok := os (length c) in
               if ok then perform (c ++ [(e, true)]) es else (c ++ [(e, false)], false)
  end.
(** [release_held]: every item is released, and those whose release failed stay. *)
Fixpoint release_held {T} (ev : T -> OsEvent) (c : Calls) (held : list T) : Calls * list T :=
  match held with
  | [] => (c, [])
  | x :: held =>
      let ok := os (length c) in
      let '(c', kept) := release_held ev (c ++ [(ev x, ok)]) held in
      (c', if ok then kept else x :: kept)
  end.
Definition release_all (s : Injector) : Injector :=
  let '(c, ks) := release_held (fun k => KeyEvent k Release) (calls s) (held_keys (ctl s)) in
  let '(c, bs) := release_held (fun b => ButtonEvent b Release) c (held_buttons (ctl s)) in
  let s := set_generation (with_held (with_calls s c) ks bs) None in
  if no_held s then set_lease s None else s.
(** [store] is the cached grant store. *)
Definition cleanup_revoked (store : Store) (s : Injector) : Injector :=
  if match generation (ctl s) with Some g => negb (matches g store) | None => negb (no_held s) end then release_all s else s.

Definition add_once {T} `{EqDecision T} (x : T) (l : list T) : list T := if bool_decide (x ∈ l) then l else l ++ [x].
Definition without {T} `{EqDecision T} (x : T) (l : list T) : list T := List.filter (fun y => negb (bool_decide (y = x))) l.
(** The calls of one command, and what is held once they all succeeded. *)
Definition command_events (cmd : ControlCommand) : list OsEvent :=
  match cmd with
  | MouseMove x y => [MoveTo x y]
  | MouseClick x y b => [MoveTo x y; ButtonEvent (button_into b) Click]
  | MouseDoubleClick x y b => [MoveTo x y; ButtonEvent (button_into b) Click; ButtonEvent (button_into b) Click]
  | MouseDown x y b => [MoveTo x y; ButtonEvent (button_into b) Press]
  | MouseUp x y b => [MoveTo x y; ButtonEvent (button_into b) Release]
  | MouseScroll delta_x delta_y =>
      let dy := clampZ (- MAX_SCROLL_NOTCHES) MAX_SCROLL_NOTCHES delta_y in
      let dx := clampZ (- MAX_SCROLL_NOTCHES) MAX_SCROLL_NOTCHES delta_x in
      (if dy =? 0 then [] else [Scroll dy Vertical]) ++ (if dx =? 0 then [] else [Scroll dx Horizontal])
  | TypeText t => if String.eqb t "" || negb (chars_at_most MAX_TYPE_TEXT_CHARS t) then [] else [Text t]
  | KeyPress k => [KeyEvent (special_key_to_enigo k) Click]
  | KeyDown k => [KeyEvent (special_key_to_enigo k) Press]
  | KeyUp k => [KeyEvent (special_key_to_enigo k) Release]
  | KeyChar c => [KeyEvent (KUnicode c) Click]
  | Notify _ _ => []
  end.
Definition command_held (cmd : ControlCommand) (c : InputController) : list Key * list Button :=
  match cmd with
  | MouseDown _ _ b => (held_keys c, add_once (button_into b) (held_buttons c))
  | MouseUp _ _ b => (held_keys c, without (button_into b) (held_buttons c))
  | KeyDown k => (add_once (special_key_to_enigo k) (held_keys c), held_buttons c)
  | KeyUp k => (without (special_key_to_enigo k) (held_keys c), held_buttons c)
  | _ => (held_keys c, held_buttons c)
  end.
Definition execute (s : Injector) (cmd : ControlCommand) : Injector * result unit string :=
  match cmd with
  | Notify t m => (with_calls s (calls s ++ [(NotifyUser t m, true)]), Ok tt)
  | _ =>
      let '(c, ok) := perform (calls s) (command_events cmd) in
      let s := with_calls s c in
      if ok then let '(ks, bs) := command_held cmd (ctl s) in (with_held s ks bs, Ok tt)
      else (s, Err "injection failed"%string)
  end.

(** The generation a command runs under: the one it is stamped with, or the current one. *)
Definition command_generation (store : Store) (val : json) : option Generation :=
  let stamp := idx val "__module_generation" in
  if is_null stamp then generation_from_state store RemoteInput else decode_generation stamp.
(** [handle_command] once the text is parsed. *)
Definition handle_value (store : Store) (sel : Selection) (s : Injector) (val : json) : Injector * result unit string :=
  let g := command_generation store val in
  if negb (is_some_and g (fun g => bool_decide (gen_module g = RemoteInput) && matches g store))
  then (s, Err "stale input generation"%string)
  else
    let renew := negb (bool_decide (generation (ctl s) = g)) in
    let s := if renew then release_all s else s in
    if renew && negb (no_held s) then (s, Err "previous input releases pending"%string)
    else
      let s := if renew then set_lease (set_generation s g) g else s in
      match map_command sel val with
      | Err e => (release_all s, Err e)
      | Ok val =>
          match decode_control val with
          | Some cmd => execute s cmd
          | None => (s, Err "Invalid control command JSON"%string)
          end
      end.
Context `{JsonText}.
Definition handle_command (store : Store) (sel : Selection) (s : Injector) (text : list Z) : Injector * result unit string :=
  if negb (store_enabled store RemoteInput) then (s, Err "remote input not locally authorized"%string)
  else
    let s := cleanup_revoked store s in
    match json_parse text with
    | Some val => handle_value store sel s val
    | None => (s, Err "invalid JSON"%string)
    end.
End injector.

(** ** The capture worker's input thread: [worker.rs] *)

(** What one turn of the loop reads: the pipe session and the grant store at its head and again when
    the message is handled, the message, the selection, the desktop that owns input, whether
    attaching to it succeeds (with its name) and whether a controller can be made. *)
Inductive WorkerMessage : Type := Timeout | Disconnected | Line (text : list Z).
Record WorkerTurn := {
  wt_session : Z; wt_message : WorkerMessage; wt_session' : Z; wt_store : Store; wt_store' : Store; wt_selection : Selection;
  wt_desktop : option string; wt_attach : option string; wt_controller : bool
}.
Record WorkerInput := { wi_injector : Injector; wi_controller : bool; wi_attachment : option string; wi_previous : Z }.
(** "__input_disconnect". *)
Definition INPUT_DISCONNECT : list Z := [95; 95; 105; 110; 112; 117; 116; 95; 100; 105; 115; 99; 111; 110; 110; 101; 99; 116].

Section worker.
Variable os : nat -> bool.
Context `{JsonText}.
(** Dropping the controller releases what it can and gives the lease back. *)
Definition drop_controller (s : Injector) : Injector :=
  let s := set_lease (release_all os s) None in {| ctl := InputController_new; workers := workers s; calls := calls s |}.
Definition with_controller (w : WorkerInput) (f : Injector -> Injector) : WorkerInput :=
  if wi_controller w then
    {| wi_injector := f (wi_injector w); wi_controller := true; wi_attachment := wi_attachment w; wi_previous := wi_previous w |}
  else w.
Definition reattach (w : WorkerInput) (t : WorkerTurn) : WorkerInput :=
  let w := with_controller w drop_controller in
  {| wi_injector := wi_injector w; wi_controller := isSome (wt_attach t) && wt_controller t; wi_attachment := wt_attach t;
     wi_previous := wi_previous w |}.
(** One turn of [input_thread]: the state, and whether the loop goes on. *)
Definition input_turn (w : WorkerInput) (t : WorkerTurn) : WorkerInput * bool :=
  let w := if wt_session t =? wi_previous w then w
           else let w := with_controller w (release_all os) in
                {| wi_injector := wi_injector w; wi_controller := wi_controller w; wi_attachment := wi_attachment w; wi_previous := wt_session t |} in
  let w := with_controller w (cleanup_revoked os (wt_store t)) in
  match wt_message t with
  | Timeout => (w, true)
  | Disconnected => (w, false)
  | Line text =>
      if bool_decide (text = INPUT_DISCONNECT) then (with_controller w (release_all os), true)
      else
        match json_parse text with
        | None => (w, true)
        | Some v =>
            if negb (bool_decide (as_u64 (idx v "__input_session") = Some (wt_session' t))) then (w, true)
            else
              let same := match wi_attachment w, wt_desktop t with Some a, Some d => String.eqb a d | _, _ => false end in
              let w := if same then w else reattach w t in
              if store_enabled (wt_store' t) RemoteInput then
                (with_controller w (fun s => (handle_command os (wt_store' t) (wt_selection t) s text).1), true)
              else (w, true)
        end
  end.
End worker.

(** [commands/input.rs]: without a controller or the grant, the command is ignored. *)
Definition handle `{JsonText} (os : nat -> bool) (store : Store) (sel : Selection) (controller : option Injector) (text : list Z) : option Injector :=
  match controller with
  | Some s => if store_enabled store RemoteInput then Some (handle_command os store sel s text).1 else Some s
  | None => None
  end.

(** ** What is physically down *)

(** A successful press or release decides a key or a button, the last one counts; a click ends up. *)
Definition is_press (d : Direction) : bool := match d with Press => true | _ => false end.
Definition key_step (k : Key) (down : bool) (e : OsEvent * bool) : bool :=
  match e with (KeyEvent k' d, true) => if bool_decide (k' = k) then is_press d else down | _ => down end.
Definition button_step (b : Button) (down : bool) (e : OsEvent * bool) : bool :=
  match e with (ButtonEvent b' d, true) => if bool_decide (b' = b) then is_press d else down | _ => down end.
Definition key_down (c : Calls) (k : Key) : bool := foldl (key_step k) false c.
Definition button_down (c : Calls) (b : Button) : bool := foldl (button_step b) false c.

(** What the controller promises between commands. *)
Record injector_ok (s : Injector) : Prop := {
  io_keys : forall k, key_down (calls s) k = true -> k ∈ held_keys (ctl s);
  io_buttons : forall b, button_down (calls s) b = true -> b ∈ held_buttons (ctl s);
  io_lease : forall g, generation (ctl s) = Some g -> lease (ctl s) = Some g;
  io_held : no_held s = false -> is_Some (lease (ctl s))
}.

(** ** Lemmas *)

Lemma no_held_true s : no_held s = true <-> held_keys (ctl s) = [] /\ held_buttons (ctl s) = [].
Proof. unfold no_held. rewrite andb_true_iff, !Nat.eqb_eq, !length_zero_iff_nil. done. Qed.
Lemma add_once_elem {T} `{EqDecision T} (x y : T) l : y ∈ add_once x l <-> y = x \/ y ∈ l.
Proof. unfold add_once. case_bool_decide; [set_solver|]. rewrite elem_of_app, list_elem_of_singleton. tauto. Qed.
Lemma without_elem {T} `{EqDecision T} (x y : T) l : y ∈ without x l <-> y <> x /\ y ∈ l.
Proof. unfold without. rewrite !list_elem_of_In, filter_In, negb_true_iff, bool_decide_eq_false. tauto. Qed.

(** The system accepted every call made between [c] and [c']. *)
Definition accepted (os : nat -> bool) (c c' : Calls) : Prop := forall n, (length c <= n < length c')%nat -> os n = true.
Lemma accepts_all os c c' : (forall n, os n = true) -> accepted os c c'.
Proof. intros Ho n _. apply Ho. Qed.

(** A kind of item: how it is released, and when it is down. *)
Section items.
Context {T : Type} `{EqDecision T}.
Variables (ev : T -> OsEvent) (down : Calls -> T -> bool).
Hypothesis down_release : forall c x y ok, down (c ++ [(ev x, ok)]) y = if ok && bool_decide (x = y) then false else down c y.
Variable os : nat -> bool.
Lemma release_held_down held c c' kept :
  release_held os ev c held = (c', kept) ->
  (forall y, down c' y = true -> down c y = true /\ (y ∈ held -> y ∈ kept))
  /\ (forall y, y ∈ kept -> y ∈ held) /\ (length c <= length c')%nat /\ (accepted os c c' -> kept = []).
Proof.
  revert c c' kept. induction held as [|x held IH]; intros c c' kept; cbn [release_held]; [intros [= <- <-]; split_and!; done|].
  destruct (release_held os ev (c ++ [(ev x, os (length c))]) held) as [c1 k1] eqn:E. intros [= <- <-].
  destruct (IH _ _ _ E) as (H1 & H2 & Hlen & H3). rewrite length_app in Hlen. cbn [length] in Hlen. split_and!.
  - intros y Hy. destruct (H1 y Hy) as [Hd Hk]. rewrite down_release in Hd. destruct (os (length c)) eqn:Ho; cbn [andb] in Hd.
    + case_bool_decide as Hxy; [done|]. split; [done|]. intros [->|Hin]%elem_of_cons; [done|by apply Hk].
    + split; [done|]. intros [->|Hin]%elem_of_cons; [by left|right; by apply Hk].
  - intros y. destruct (os (length c)); [|intros [->|Hin]%elem_of_cons; [by left|right; by apply H2]]. intros Hin. right. by apply H2.
  - lia.
  - intros Ho. rewrite Ho by lia. apply H3. intros n Hn. rewrite length_app in Hn. cbn [length] in Hn. apply Ho. lia.
Qed.
Lemma release_held_same {U} (down' : Calls -> U -> bool) held c :
  (forall c x ok y, down' (c ++ [(ev x, ok)]) y = down' c y) -> forall y, down' (release_held os ev c held).1 y = down' c y.
Proof.
  intros Hd y. revert c. induction held as [|x held IH]; intros c; cbn [release_held]; [done|].
  specialize (IH (c ++ [(ev x, os (length c))])). destruct (release_held _ _ _ held) as [c1 k1]. cbn [fst] in *. by rewrite IH, Hd.
Qed.
End items.

Lemma key_down_snoc c e k : key_down (c ++ [e]) k = key_step k (key_down c k) e.
Proof. unfold key_down. by rewrite foldl_app. Qed.
Lemma button_down_snoc c e b : button_down (c ++ [e]) b = button_step b (button_down c b) e.
Proof. unfold button_down. by rewrite foldl_app. Qed.

Section injection.
Variable os : nat -> bool.

Lemma release_keys held c c' kept :
  release_held os (fun k => KeyEvent k Release) c held = (c', kept) ->
  (forall k, key_down c' k = true -> key_down c k = true /\ (k ∈ held -> k ∈ kept))
  /\ (forall k, k ∈ kept -> k ∈ held) /\ (length c <= length c')%nat /\ (accepted os c c' -> kept = []) /\ forall b, button_down c' b = button_down c b.
Proof.
  intros E. destruct (release_held_down (fun k => KeyEvent k Release) key_down) with (os := os) (held := held) (c := c) (c' := c') (kept := kept)
    as (H1 & H2 & Hlen & H3); [|done|].
  { intros c0 x y ok. rewrite key_down_snoc. by destruct ok. }
  split_and!; [done..|]. intros b. change c' with (c', kept).1. rewrite <- E.
  apply (release_held_same (fun k => KeyEvent k Release)). intros c0 x ok y. by rewrite button_down_snoc.
Qed.
Lemma release_buttons held c c' kept :
  release_held os (fun b => ButtonEvent b Release) c held = (c', kept) ->
  (forall b, button_down c' b = true -> button_down c b = true /\ (b ∈ held -> b ∈ kept))
  /\ (forall b, b ∈ kept -> b ∈ held) /\ (length c <= length c')%nat /\ (accepted os c c' -> kept = []) /\ forall k, key_down c' k = key_down c k.
Proof.
  intros E. destruct (release_held_down (fun b => ButtonEvent b Release) button_down) with (os := os) (held := held) (c := c) (c' := c') (kept := kept)
    as (H1 & H2 & Hlen & H3); [|done|].
  { intros c0 x y ok. rewrite button_down_snoc. by destruct ok. }
  split_and!; [done..|]. intros b. change c' with (c', kept).1. rewrite <- E.
  apply (release_held_same (fun b => ButtonEvent b Release)). intros c0 x ok y. by rewrite key_down_snoc.
Qed.

Lemma release_all_ok s :
  injector_ok s ->
  let s' := release_all os s in
  injector_ok s' /\ generation (ctl s') = None
  /\ (forall k, key_down (calls s') k = true -> key_down (calls s) k = true)
  /\ (forall b, button_down (calls s') b = true -> button_down (calls s) b = true)
  /\ (length (calls s) <= length (calls s'))%nat /\ (accepted os (calls s) (calls s') -> no_held s' = true).
Proof.
  intros [Hk Hb Hl Hh]. unfold release_all.
  destruct (release_held os (fun k => KeyEvent k Release) (calls s) (held_keys (ctl s))) as [c1 ks] eqn:E1.
  destruct (release_held os (fun b => ButtonEvent b Release) c1 (held_buttons (ctl s))) as [c2 bs] eqn:E2.
  destruct (release_keys _ _ _ _ E1) as (K1 & K2 & KL & K3 & K4). destruct (release_buttons _ _ _ _ E2) as (B1 & B2 & BL & B3 & B4).
  set (s1 := set_generation _ None). cbv zeta.
  assert (forall l, (lease (ctl l) = None -> no_held s1 = true) -> generation (ctl l) = None -> calls l = c2 -> held_keys (ctl l) = ks -> held_buttons (ctl l) = bs -> injector_ok l /\ generation (ctl l) = None
    /\ (forall k, key_down (calls l) k = true -> key_down (calls s) k = true)
    /\ (forall b, button_down (calls l) b = true -> button_down (calls s) b = true)
    /\ (length (calls s) <= length (calls l))%nat /\ (accepted os (calls s) (calls l) -> no_held l = true)) as Hs1.
  { intros l Hln Hg Hc Hks Hbs. split_and!; [|done| | |rewrite Hc; lia|].
    - split; rewrite ?Hc, ?Hks, ?Hbs, ?Hg.
      + intros k Hd. rewrite B4 in Hd. destruct (K1 k Hd) as [Hd' Hin]. by apply Hin, Hk.
      + intros b Hd. destruct (B1 b Hd) as [Hd' Hin]. rewrite K4 in Hd'. by apply Hin, Hb.
      + done.
      + intros Hn. destruct (lease (ctl l)); [by eexists|]. specialize (Hln eq_refl). unfold no_held in *. cbn in Hln. rewrite Hks, Hbs in Hn. congruence.
    - rewrite Hc. intros k Hd. rewrite B4 in Hd. by apply K1.
    - rewrite Hc. intros b Hd. rewrite <- K4. by apply B1.
    - rewrite Hc. intros Ho. apply no_held_true. rewrite Hks, Hbs. rewrite K3, B3; [done| |]; intros n Hn; apply Ho; lia. }
  destruct (no_held s1) eqn:Hn; apply Hs1; try done. intros Hnone.
  destruct (no_held s) eqn:Hns.
  - apply no_held_true in Hns as [Hks Hbs]. rewrite Hks in K2. rewrite Hbs in B2. rewrite <- Hn. apply no_held_true. cbn.
    split; apply elem_of_nil_inv; [intros x Hx%K2|intros x Hx%B2]; by apply not_elem_of_nil in Hx.
  - destruct (Hh eq_refl) as [g Hg]. cbn in Hnone. congruence.
Qed.

(** The events a command performs: a prefix, all but the last successful. *)
Lemma perform_spec c es :
  let '(c', ok) := perform os c es in
  exists n, c' = c ++ ((fun e => (e, true)) <$> take n es) ++ (if ok then [] else match es !! n with Some e => [(e, false)] | None => [] end)
  /\ (ok = true -> n = length es).
Proof.
  revert c. induction es as [|e es IH]; intros c; cbn [perform]; [by exists 0%nat; rewrite app_nil_r|].
  destruct (os (length c)); [|by exists 0%nat].
  specialize (IH (c ++ [(e, true)])). destruct (perform os (c ++ [(e, true)]) es) as [c' ok]. destruct IH as (n & -> & Hn).
  exists (S n). split; [by rewrite <- app_assoc|]. intros Hok. by rewrite (Hn Hok).
Qed.

(** No command presses a key or a button but the two that say so. *)
Definition presses (cmd : ControlCommand) (k : Key) : Prop := exists sk, cmd = KeyDown sk /\ k = special_key_to_enigo sk.
Definition presses_button (cmd : ControlCommand) (b : Button) : Prop := exists x y mb, cmd = MouseDown x y mb /\ b = button_into mb.
Definition lifts (cmd : ControlCommand) (k : Key) : Prop := exists sk, cmd = KeyUp sk /\ k = special_key_to_enigo sk.
Definition lifts_button (cmd : ControlCommand) (b : Button) : Prop := exists x y mb, cmd = MouseUp x y mb /\ b = button_into mb.
Lemma no_press_down (k : Key) c es :
  Forall (fun e : OsEvent * bool => forall d, e.1 = KeyEvent k d -> is_press d = false) es -> key_down (c ++ es) k = true -> key_down c k = true.
Proof.
  intros Hes. revert c. induction Hes as [|[e ok] es He _ IH]; intros c; [by rewrite app_nil_r|].
  rewrite cons_middle, app_assoc. intros Hd%IH. rewrite key_down_snoc in Hd. destruct e, ok; try done. cbn [key_step] in Hd.
  case_bool_decide as Hk; [|done]. subst. rewrite (He d eq_refl) in Hd. done.
Qed.
Lemma no_press_button_down (b : Button) c es :
  Forall (fun e : OsEvent * bool => forall d, e.1 = ButtonEvent b d -> is_press d = false) es -> button_down (c ++ es) b = true -> button_down c b = true.
Proof.
  intros Hes. revert c. induction Hes as [|[e ok] es He _ IH]; intros c; [by rewrite app_nil_r|].
  rewrite cons_middle, app_assoc. intros Hd%IH. rewrite button_down_snoc in Hd. destruct e, ok; try done. cbn [button_step] in Hd.
  case_bool_decide as Hk; [|done]. subst. rewrite (He d eq_refl) in Hd. done.
Qed.

Lemma special_key_inj : Inj (=) (=) special_key_to_enigo.
Proof. intros a b. by destruct a, b. Qed.
Lemma button_into_inj : Inj (=) (=) button_into.
Proof. intros a b. by destruct a, b. Qed.

Lemma performed_events (P : OsEvent -> Prop) n es rest :
  Forall P es -> Forall (fun e : OsEvent * bool => P e.1)
    (((fun e => (e, true)) <$> take n es) ++ (if rest : bool then [] else match es !! n with Some e => [(e, false)] | None => [] end)).
Proof.
  intros Hes. apply Forall_app. split; [by apply Forall_fmap, Forall_take|]. destruct rest; [done|].
  destruct (es !! n) as [e|] eqn:E; [|done]. repeat constructor. exact (Forall_lookup_1 _ _ _ _ Hes E).
Qed.
Lemma command_presses cmd k : Forall (fun e => forall d, e = KeyEvent k d -> is_press d = false) (command_events cmd) \/ presses cmd k.
Proof.
  destruct cmd as [| | | | | |t| |sk| | |]; cbn [command_events]; try (left; repeat constructor; intros d [=]; by subst).
  - left. apply Forall_app. split; case_match; repeat constructor; intros d [=].
  - left. case_match; repeat constructor; intros d [=].
  - destruct (decide (special_key_to_enigo sk = k)) as [<-|Hne]; [right; by exists sk|]. left. repeat constructor. intros d [= ? ?]. done.
Qed.
Lemma command_presses_button cmd b :
  Forall (fun e => forall d, e = ButtonEvent b d -> is_press d = false) (command_events cmd) \/ presses_button cmd b.
Proof.
  destruct cmd as [| | |x y mb| | |t| |sk| | |]; cbn [command_events]; try (left; repeat constructor; intros d [=]; by subst).
  - destruct (decide (button_into mb = b)) as [<-|Hne]; [right; by exists x, y, mb|]. left. repeat constructor; intros d [=]. done.
  - left. apply Forall_app. split; case_match; repeat constructor; intros d [=].
  - left. case_match; repeat constructor; intros d [=].
Qed.

Lemma perform_keys c cmd c' ok k :
  perform os c (command_events cmd) = (c', ok) -> key_down c' k = true ->
  (key_down c k = true /\ (ok = true -> ~ lifts cmd k)) \/ (presses cmd k /\ ok = true).
Proof.
  intros E Hd. destruct (command_presses cmd k) as [Hn|(sk & -> & ->)].
  - left. split.
    + pose proof (perform_spec c (command_events cmd)) as Hp. rewrite E in Hp. destruct Hp as (n & -> & _).
      eapply no_press_down; [|exact Hd]. by apply (performed_events (fun e => forall d, e = KeyEvent k d -> is_press d = false)).
    + intros -> (sk & -> & ->). cbn in E. destruct (os (length c)); simplify_eq. rewrite key_down_snoc in Hd. cbn [key_step] in Hd.
      by rewrite bool_decide_true in Hd.
  - cbn in E. destruct (os (length c)); simplify_eq; [right; split; [by exists sk|done]|]. rewrite key_down_snoc in Hd. by left.
Qed.
Lemma perform_buttons c cmd c' ok b :
  perform os c (command_events cmd) = (c', ok) -> button_down c' b = true ->
  (button_down c b = true /\ (ok = true -> ~ lifts_button cmd b)) \/ (presses_button cmd b /\ ok = true).
Proof.
  intros E Hd. destruct (command_presses_button cmd b) as [Hn|(x & y & mb & -> & ->)].
  - left. split.
    + pose proof (perform_spec c (command_events cmd)) as Hp. rewrite E in Hp. destruct Hp as (n & -> & _).
      eapply no_press_button_down; [|exact Hd]. by apply (performed_events (fun e => forall d, e = ButtonEvent b d -> is_press d = false)).
    + intros -> (x & y & mb & -> & ->). cbn in E. destruct (os (length c)); [|done]. destruct (os _); simplify_eq.
      rewrite button_down_snoc in Hd. cbn [button_step] in Hd. by rewrite bool_decide_true in Hd.
  - cbn in E. destruct (os (length c)); [destruct (os _)|]; simplify_eq; [right; split; [by exists x, y, mb|done]|left..];
      rewrite !button_down_snoc in Hd; done.
Qed.

(** One executed command. *)
Lemma execute_effect s cmd s' r :
  execute os s cmd = (s', r) ->
  (forall k, key_down (calls s') k = true ->
     (key_down (calls s) k = true /\ (is_ok r = true -> ~ lifts cmd k)) \/ (presses cmd k /\ is_ok r = true))
  /\ (forall b, button_down (calls s') b = true ->
     (button_down (calls s) b = true /\ (is_ok r = true -> ~ lifts_button cmd b)) \/ (presses_button cmd b /\ is_ok r = true))
  /\ generation (ctl s') = generation (ctl s) /\ lease (ctl s') = lease (ctl s) /\ workers s' = workers s
  /\ (held_keys (ctl s'), held_buttons (ctl s')) = (if is_ok r then command_held cmd (ctl s) else (held_keys (ctl s), held_buttons (ctl s))).
Proof.
  intros E. assert ((exists t m, cmd = Notify t m) \/ forall t m, cmd <> Notify t m) as [(t & m & ->)|Hn].
  { destruct cmd; solve [by left; do 2 eexists|by right]. }
  - cbn [execute] in E. simplify_eq. split_and!; try done; cbn [calls with_calls is_ok].
    + intros k. rewrite key_down_snoc. intros Hd. left. split; [done|]. intros _ (sk & [=] & _).
    + intros b. rewrite button_down_snoc. intros Hd. left. split; [done|]. intros _ (x & y & mb & [=] & _).
  - assert (execute os s cmd = let '(c, ok) := perform os (calls s) (command_events cmd) in
      let s := with_calls s c in if ok then let '(ks, bs) := command_held cmd (ctl s) in (with_held s ks bs, Ok tt)
      else (s, Err "injection failed"%string)) as Eq by (destruct cmd; first [reflexivity|exfalso; by eapply Hn]).
    rewrite Eq in E. clear Eq. destruct (perform os (calls s) (command_events cmd)) as [c ok] eqn:Ep. cbv zeta in E.
    assert (calls s' = c /\ ok = is_ok r) as [-> ->].
    { destruct ok; [destruct (command_held _ _) as [ks bs]|]; by simplify_eq. }
    split_and!; [intros k; by apply perform_keys|intros b; by apply perform_buttons|..].
    + destruct (is_ok r); [destruct (command_held _ _) as [ks bs]|]; by simplify_eq.
    + destruct (is_ok r); [destruct (command_held _ _) as [ks bs]|]; by simplify_eq.
    + destruct (is_ok r); [destruct (command_held _ _) as [ks bs]|]; by simplify_eq.
    + destruct (is_ok r); [|by simplify_eq]. change (ctl (with_calls s c)) with (ctl s) in E. destruct (command_held _ _) as [ks bs]. by simplify_eq.
Qed.
Lemma execute_ok s cmd s' r : injector_ok s -> execute os s cmd = (s', r) -> is_Some (lease (ctl s)) -> injector_ok s'.
Proof.
  intros [Hk Hb Hl Hh] E Hls. destruct (execute_effect s cmd s' r E) as (Dk & Db & Hg & Hle & Hw & Hheld).
  assert (held_keys (ctl s') = (if is_ok r then (command_held cmd (ctl s)).1 else held_keys (ctl s))) as Hks by (destruct (is_ok r); [destruct (command_held _ _)|]; by simplify_eq).
  assert (held_buttons (ctl s') = (if is_ok r then (command_held cmd (ctl s)).2 else held_buttons (ctl s))) as Hbs by (destruct (is_ok r); [destruct (command_held _ _)|]; by simplify_eq).
  split.
  - intros k Hd. rewrite Hks. destruct (Dk k Hd) as [[Hd' Hnl]|[(sk & -> & ->) ->]]; [|cbn; by apply add_once_elem; left].
    specialize (Hk k Hd'). destruct (is_ok r); [|done]. destruct cmd as [| | | | | | | |sk|sk| |]; try done; cbn [command_held fst].
    + apply add_once_elem. by right.
    + apply without_elem. split; [|done]. intros ->. apply Hnl; [done|]. by exists sk.
  - intros b Hd. rewrite Hbs. destruct (Db b Hd) as [[Hd' Hnl]|[(x & y & mb & -> & ->) ->]]; [|cbn; by apply add_once_elem; left].
    specialize (Hb b Hd'). destruct (is_ok r); [|done]. destruct cmd as [| | |x y mb|x y mb| | | | | | |]; try done; cbn [command_held snd].
    + apply add_once_elem. by right.
    + apply without_elem. split; [|done]. intros ->. apply Hnl; [done|]. by exists x, y, mb.
  - rewrite Hg, Hle. done.
  - by rewrite Hle.
Qed.

Lemma set_lease_ok s g : injector_ok s -> injector_ok (set_lease (set_generation s g) g) \/ g = None.
Proof.
  intros [Hk Hb Hl Hh]. destruct g as [g|]; [left; by split|by right].
Qed.

(** The whole of [handle_value]: [s1] is the controller bound to the command's generation. *)
Lemma handle_value_cases store sel s val s' r :
  injector_ok s -> handle_value os store sel s val = (s', r) ->
  (s' = s \/ exists s1, injector_ok s1
     /\ (forall k, key_down (calls s1) k = true -> key_down (calls s) k = true)
     /\ (forall b, button_down (calls s1) b = true -> button_down (calls s) b = true)
     /\ (s' = s1 /\ is_ok r = false
         \/ exists g, command_generation store val = Some g /\ gen_module g = RemoteInput /\ matches g store = true
            /\ generation (ctl s1) = Some g
            /\ (s', r) = match map_command sel val with
                         | Err e => (release_all os s1, Err e)
                         | Ok val => match decode_control val with
                                     | Some cmd => execute os s1 cmd
                                     | None => (s1, Err "Invalid control command JSON"%string)
                                     end
                         end))
  /\ (forall g, (forall n, os n = true) -> command_generation store val = Some g -> gen_module g = RemoteInput -> matches g store = true ->
      exists s1, injector_ok s1
      /\ (forall k, key_down (calls s1) k = true -> key_down (calls s) k = true)
      /\ (forall b, button_down (calls s1) b = true -> button_down (calls s) b = true)
      /\ (s', r) = match map_command sel val with
                   | Err e => (release_all os s1, Err e)
                   | Ok val => match decode_control val with
                               | Some cmd => execute os s1 cmd
                               | None => (s1, Err "Invalid control command JSON"%string)
                               end
                   end).
Proof.
  intros Hok. unfold handle_value. destruct (command_generation store val) as [g|] eqn:Eg; [|intros [= <- <-]; split; [by left|done]].
  cbn [is_some_and]. destruct (bool_decide (gen_module g = RemoteInput) && matches g store) eqn:Hv; [|intros [= <- <-]; split; [by left|]].
  2: { intros g' _ [= <-] Hm Hma. by rewrite bool_decide_true, Hma in Hv. }
  apply andb_true_iff in Hv as [Hm Hma]. apply bool_decide_eq_true in Hm. cbn [negb].
  destruct (bool_decide (generation (ctl s) = Some g)) eqn:Er; cbn [negb andb].
  - apply bool_decide_eq_true in Er. intros E. split.
    + right. exists s. split_and!; try done. right. exists g. by split_and!.
    + intros g' _ [= <-] _ _. exists s. by split_and!.
  - destruct (release_all_ok s Hok) as (Hok1 & _ & Hk1 & Hb1 & _ & Hall). set (s1 := release_all os s) in *.
    destruct (negb (no_held s1)) eqn:Hn.
    { intros [= <- <-]. split; [right; exists s1; split_and!; try done; by left|]. intros g' Ho. by rewrite Hall in Hn by by apply accepts_all. }
    destruct (set_lease_ok s1 (Some g) Hok1) as [Hok2|]; [|done]. intros E. split.
    + right. exists (set_lease (set_generation s1 (Some g)) (Some g)). split_and!; try done. right. exists g. by split_and!.
    + intros g' _ [= <-] _ _. exists (set_lease (set_generation s1 (Some g)) (Some g)). by split_and!.
Qed.
Lemma handle_value_ok store sel s val : injector_ok s -> injector_ok (handle_value os store sel s val).1.
Proof.
  intros Hok. destruct (handle_value os store sel s val) as [s' r] eqn:E. cbn [fst].
  destruct (handle_value_cases _ _ _ _ _ _ Hok E) as [[->|(s1 & Hok1 & _ & _ & Hc)] _]; [done|].
  destruct Hc as [[-> _]|(g & _ & _ & _ & Hg & Hc)]; [done|]. destruct (map_command sel val) as [val'|e].
  - destruct (decode_control val') as [cmd|]; [|by simplify_eq]. symmetry in Hc. eapply execute_ok; [done..|].
    rewrite (io_lease _ Hok1 _ Hg). by eexists.
  - simplify_eq. by apply release_all_ok.
Qed.
Lemma cleanup_revoked_ok store s : injector_ok s -> injector_ok (cleanup_revoked os store s).
Proof. intros Hok. unfold cleanup_revoked. case_match; [by apply release_all_ok|done]. Qed.
Lemma handle_command_ok `{JsonText} store sel s text : injector_ok s -> injector_ok (handle_command os store sel s text).1.
Proof.
  intros Hok. unfold handle_command. destruct (negb _); [done|]. destruct (json_parse text) as [v|]; [|by apply cleanup_revoked_ok].
  by apply handle_value_ok, cleanup_revoked_ok.
Qed.
End injection.

Lemma nothing_down s : injector_ok s -> no_held s = true -> (forall k, key_down (calls s) k = false) /\ forall b, button_down (calls s) b = false.
Proof.
  intros [Hk Hb _ _] [Hks Hbs]%no_held_true. rewrite Hks in Hk. rewrite Hbs in Hb.
  split; [intros k; destruct (key_down (calls s) k) eqn:E|intros b; destruct (button_down (calls s) b) eqn:E]; try done;
    [apply Hk in E|apply Hb in E]; by apply not_elem_of_nil in E.
Qed.
Lemma release_all_lease os s : no_held (release_all os s) = true -> lease (ctl (release_all os s)) = None.
Proof.
  unfold release_all. destruct (release_held os (fun k => KeyEvent k Release) _ _) as [c1 ks].
  destruct (release_held os (fun b => ButtonEvent b Release) _ _) as [c2 bs].
  destruct (no_held (set_generation _ _)) eqn:E; [done|]. congruence.
Qed.
(** What a release that the system accepts leaves. *)
Lemma release_all_clears os s :
  injector_ok s ->
  let s' := release_all os s in
  accepted os (calls s) (calls s') ->
  (forall k, key_down (calls s') k = false) /\ (forall b, button_down (calls s') b = false) /\ generation (ctl s') = None /\ lease (ctl s') = None
  /\ no_held s' = true.
Proof.
  intros Hok s' Ho. destruct (release_all_ok os s Hok) as (Hok1 & Hgn & _ & _ & _ & Hn). specialize (Hn Ho).
  destruct (nothing_down _ Hok1 Hn) as [N1 N2]. split_and!; try done. by apply release_all_lease.
Qed.
Lemma injector_ok_new w : injector_ok {| ctl := InputController_new; workers := w; calls := [] |}.
Proof. by split. Qed.

(** ** Decoding what the server accepted *)

Lemma key_table_names : key_table.*1 = HELD_KEYS.
Proof. reflexivity. Qed.
Lemma button_table_names : button_table.*1 = BUTTONS.
Proof. reflexivity. Qed.
Lemma assoc_str_is_Some {A} k (l : list (string * A)) : k ∈ l.*1 -> is_Some (assoc_str k l).
Proof.
  induction l as [|[k' v] l IH]; [by intros ?%not_elem_of_nil|]. cbn [assoc_str fmap list_fmap fst]. intros Hin.
  destruct (String.eqb_spec k k') as [->|Hne]; [by eexists|]. apply IH. by apply elem_of_cons in Hin as [?|?].
Qed.
Lemma assoc_str_name {A} k (l : list (string * A)) v : assoc_str k l = Some v -> k ∈ l.*1.
Proof. intros Hk%assoc_str_Some. apply list_elem_of_fmap. by exists (k, v). Qed.

Definition control_kind (c : ControlCommand) : string :=
  match c with
  | MouseMove _ _ => "MouseMove" | MouseClick _ _ _ => "MouseClick" | MouseDoubleClick _ _ _ => "MouseDoubleClick"
  | MouseDown _ _ _ => "MouseDown" | MouseUp _ _ _ => "MouseUp" | MouseScroll _ _ => "MouseScroll" | TypeText _ => "TypeText"
  | KeyPress _ => "KeyPress" | KeyDown _ => "KeyDown" | KeyUp _ => "KeyUp" | KeyChar _ => "KeyChar" | Notify _ _ => "Notify"
  end.
(** The reader of a tag builds that tag's command. *)
Lemma de_click_kind build v c : de_click build v = Some c -> exists x y b, c = build x y b.
Proof.
  unfold de_click. intros (fs & _ & H)%bind_Some. destruct fs as [|a [|b [|d [|]]]]; try done.
  apply bind_Some in H as (x & _ & H). apply bind_Some in H as (y & _ & H). apply bind_Some in H as (z & _ & [= <-]). by exists x, y, z.
Qed.
Lemma de_pair_kind {T} names (rd : option json -> option T) build v c : de_pair names rd build v = Some c -> exists a b, c = build a b.
Proof.
  unfold de_pair. intros (fs & _ & H)%bind_Some. destruct fs as [|a [|b [|]]]; try done.
  apply bind_Some in H as (x & _ & H). apply bind_Some in H as (y & _ & [= <-]). by exists x, y.
Qed.
Lemma de_one_kind {T} name (rd : option json -> option T) build v c : de_one name rd build v = Some c -> exists a, c = build a.
Proof.
  unfold de_one. intros (fs & _ & H)%bind_Some. destruct fs as [|a [|]]; try done. apply fmap_Some in H as (x & _ & ->). by exists x.
Qed.
Lemma control_table_kind k f v c : (k, f) ∈ control_table -> f v = Some c -> control_kind c = k.
Proof.
  intros Hin Hf. unfold control_table in Hin.
  repeat (apply elem_of_cons in Hin as [[= -> ->]|Hin];
    [first [apply de_click_kind in Hf as (? & ? & ? & ->)|apply de_pair_kind in Hf as (? & ? & ->)|apply de_one_kind in Hf as (? & ->)]; done|]).
  by apply not_elem_of_nil in Hin.
Qed.
Lemma decode_object v kind :
  is_object v = true -> as_str (idx v "type") = Some kind -> decode_control v = assoc_str kind control_table ≫= fun f => f v.
Proof. intros Ho Hk. destruct v; try done. unfold decode_control. by rewrite Hk. Qed.
Lemma decode_control_kind v c : is_object v = true -> decode_control v = Some c -> as_str (idx v "type") = Some (control_kind c).
Proof.
  intros Ho Hd. destruct (as_str (idx v "type")) as [kind|] eqn:Hk; [|destruct v; try done; unfold decode_control in Hd; by rewrite Hk in Hd].
  rewrite (decode_object v kind Ho Hk) in Hd. apply bind_Some in Hd as (f & Hf & Hv). f_equal. symmetry.
  eapply control_table_kind; [by apply assoc_str_Some|done].
Qed.

(** The coordinate mapping keeps every other field, and its results are [i32]s. *)
Lemma rect_map_i32 r fw fh x y x' y' : rect_map r fw fh x y = Some (x', y') -> try_i32 x' = Some x' /\ try_i32 y' = Some y'.
Proof.
  unfold rect_map. destruct (_ || _); [done|]. intros [= <- <-].
  assert (forall z, try_i32 (as_i32 z) = Some (as_i32 z)) as H; [|split; apply H].
  intros z. apply try_i32_id. unfold as_i32, i32_min, i32_max. pose proof (Z.mod_pos_bound (z + 2 ^ 31) (2 ^ 32)). lia.
Qed.
Lemma de_i32_JInt z : try_i32 z = Some z -> de_i32 (Some (JInt z)) = Some z.
Proof.
  intros Hz. pose proof Hz as [_ Hr]%try_i32_Some. unfold de_i32. cbn [mbind option_bind].
  rewrite as_i64_JInt by (unfold i32_min, i32_max, i64_min, i64_max in *; lia). cbn [mbind option_bind]. exact Hz.
Qed.
Lemma coord_de_i32 v n x : coord v n = Some x -> de_i32 (get v n) = Some x.
Proof. unfold coord, idx, de_i32. destruct (get v n); [done|]. by intros. Qed.
Lemma map_command_fields sel v v' :
  is_object v = true -> map_command sel v = Ok v' ->
  is_object v' = true /\ (forall f, f <> "x"%string -> f <> "y"%string -> get v' f = get v f)
  /\ (existsb (fun k => str_is (idx v "type") k) mouse_kinds = true -> isSome (de_i32 (get v' "x")) = true /\ isSome (de_i32 (get v' "y")) = true).
Proof.
  intros Ho. unfold map_command. destruct (_ && negb _); [done|].
  destruct (existsb _ mouse_kinds) eqn:Hk; cbn [negb]; [|intros [= <-]; by split_and!].
  intros H. apply rbind_Ok in H as (x & Hx%ok_or_Ok & H). apply rbind_Ok in H as (y & Hy%ok_or_Ok & H).
  destruct (f ← sel_frame sel; d ← desktop f; rect_map d (frame_width f) (frame_height f) x y) as [[x' y']|] eqn:Hp.
  - assert (v' = set_idx (set_idx v "x" (JInt x')) "y" (JInt y')) as -> by congruence. clear H.
    apply bind_Some in Hp as (f & _ & Hp). apply bind_Some in Hp as (d & _ & Hp). apply rect_map_i32 in Hp as [Hx' Hy'].
    assert (is_object (set_idx v "x" (JInt x')) = true) as Ho' by (by destruct v).
    split_and!; [by destruct v|intros g Hgx Hgy; by rewrite !get_set_idx_ne|]. intros _.
    rewrite (get_set_idx_ne _ "y" "x"), !get_set_idx_eq by done. by rewrite !de_i32_JInt.
  - destruct (negb _ && _); [|done]. simplify_eq. split_and!; [done..|]. intros _. by rewrite (coord_de_i32 _ _ _ Hx), (coord_de_i32 _ _ _ Hy).
Qed.

(** A key or button command of the shape the server accepts, after the mapping. *)
Lemma decode_key_command v kind name sk :
  is_object v = true -> as_str (idx v "type") = Some kind -> as_str (idx v "key") = Some name -> assoc_str name key_table = Some sk ->
  (kind = "KeyDown"%string -> decode_control v = Some (KeyDown sk)) /\ (kind = "KeyUp"%string -> decode_control v = Some (KeyUp sk)).
Proof.
  intros Ho Hk Hn Hs. rewrite (decode_object v kind Ho Hk).
  assert (get v "key" = Some (JStr name)) as Hg by (unfold idx in Hn; destruct (get v "key") as [[]|]; naive_solver).
  assert (de_key (get v "key") = Some sk) as Hd by (rewrite Hg; exact Hs). destruct v as [| | | | | |l]; try done. cbn [get] in Hd.
  split; intros ->; cbn [assoc_str control_table String.eqb Ascii.eqb Bool.eqb mbind option_bind]; unfold de_one;
    cbn [struct_fields map andb mbind option_bind]; by rewrite Hd.
Qed.
Lemma decode_button_command v kind name mb :
  is_object v = true -> as_str (idx v "type") = Some kind -> button_name v = Some name -> assoc_str name button_table = Some mb ->
  isSome (de_i32 (get v "x")) = true -> isSome (de_i32 (get v "y")) = true ->
  (kind = "MouseDown"%string -> exists x y, decode_control v = Some (MouseDown x y mb))
  /\ (kind = "MouseUp"%string -> exists x y, decode_control v = Some (MouseUp x y mb)).
Proof.
  intros Ho Hk Hn Hs Hx Hy. rewrite (decode_object v kind Ho Hk).
  destruct (de_i32 (get v "x")) as [x|] eqn:Ex; [|done]. destruct (de_i32 (get v "y")) as [y|] eqn:Ey; [|done].
  assert (de_button (get v "button") = Some mb) as Hb.
  { unfold button_name in Hn. destruct (get v "button") as [b|]; [|simplify_eq; cbn in Hs; by simplify_eq]. destruct b; try done. cbn in Hn. by simplify_eq. }
  destruct v as [| | | | | |l]; try done. cbn [get] in *.
  split; intros ->; exists x, y; cbn [assoc_str control_table String.eqb Ascii.eqb Bool.eqb mbind option_bind]; unfold de_click;
    cbn [struct_fields map andb mbind option_bind]; rewrite Ex; cbn [mbind option_bind]; rewrite Ey; cbn [mbind option_bind]; by rewrite Hb.
Qed.

(** ** The server's tracking against the device's state *)

(** What is down on the device was pressed by an accepted command and not released since. *)
Definition down_tracked (hist : History) (s : Injector) : Prop :=
  (forall k, key_down (calls s) k = true ->
     exists name sk, assoc_str name key_table = Some sk /\ k = special_key_to_enigo sk /\ h_key hist name = true)
  /\ (forall b, button_down (calls s) b = true ->
     exists name mb, assoc_str name button_table = Some mb /\ b = button_into mb /\ h_button hist name = true).
(** [v] is the command [c] as sent: it may carry a generation stamp. *)
Definition sent_as (c v : json) : Prop :=
  is_object c = true /\ is_object v = true /\ forall f, f <> "__module_generation"%string -> get v f = get c f.
Definition is_button_event (c : json) : bool := existsb (str_is (idx c "type")) ["MouseDown"; "MouseUp"]%string.
Definition input_shape (c : json) : Prop :=
  is_valid (kind_of c) c = true /\ (is_button_event c = true -> exists name, button_name c = Some name /\ name ∈ BUTTONS).

Lemma str_is_true v x : str_is v x = true <-> as_str v = Some x.
Proof. rewrite str_is_as_str. apply bool_decide_eq_true. Qed.
Lemma hist_key_kept hist c name :
  h_key hist name = true -> ~ (as_str (idx c "key") = Some name /\ as_str (idx c "type") = Some "KeyUp"%string) -> h_key (hist_step hist c) name = true.
Proof.
  intros Hh Hn. cbn [hist_step h_key]. destruct (_ && _); [done|]. destruct (_ && _) eqn:E; [|done].
  apply andb_true_iff in E as [?%str_is_true ?%str_is_true]. by destruct Hn.
Qed.
Lemma hist_button_kept hist c name :
  h_button hist name = true -> ~ (button_name c = Some name /\ as_str (idx c "type") = Some "MouseUp"%string) -> h_button (hist_step hist c) name = true.
Proof.
  intros Hh Hn. cbn [hist_step h_button]. destruct (_ && _); [done|]. destruct (_ && _) eqn:E; [|done].
  apply andb_true_iff in E as [?%bool_decide_eq_true ?%str_is_true]. by destruct Hn.
Qed.
Lemma perform_true os c es : (forall n, os n = true) -> (perform os c es).2 = true.
Proof. intros Ho. revert c. induction es as [|e es IH]; intros c; cbn [perform]; [done|]. rewrite Ho. apply IH. Qed.
Lemma execute_true os s cmd : (forall n, os n = true) -> is_ok (execute os s cmd).2 = true.
Proof.
  intros Ho. destruct cmd; cbn [execute]; try done;
    (match goal with |- context [perform os ?c ?es] => pose proof (perform_true os c es Ho) as Hp; destruct (perform os c es) as [c' ok] end;
     cbn [snd] in Hp; subst ok; by destruct (command_held _ _)).
Qed.

(** An accepted key or button command, as mapped, decodes to the event it names. *)
Lemma shape_key c v v' sel kind :
  sent_as c v -> input_shape c -> map_command sel v = Ok v' -> kind = "KeyDown"%string \/ kind = "KeyUp"%string ->
  as_str (idx c "type") = Some kind ->
  exists name sk, as_str (idx c "key") = Some name /\ assoc_str name key_table = Some sk
  /\ decode_control v' = Some (if String.eqb kind "KeyDown" then KeyDown sk else KeyUp sk).
Proof.
  intros (Hc & Hv & Hf) (Hs & _) Hm Hkind Ht. destruct (map_command_fields _ _ _ Hv Hm) as (Ho' & Hf' & _).
  assert (is_some_and (as_str (idx c "key")) tracked_key = true) as Hk.
  { unfold kind_of in Hs. rewrite Ht in Hs. destruct Hkind as [-> | ->]; exact Hs. }
  destruct (as_str (idx c "key")) as [name|] eqn:En; [|done]. apply existsb_eqb_elem in Hk. rewrite <- key_table_names in Hk.
  destruct (assoc_str_is_Some _ _ Hk) as [sk Hsk]. exists name, sk. split_and!; [done..|].
  assert (forall f, f <> "x"%string -> f <> "y"%string -> f <> "__module_generation"%string -> idx v' f = idx c f) as Hi.
  { intros f Hx Hy Hg. unfold idx. by rewrite Hf', Hf. }
  destruct (decode_key_command v' kind name sk Ho') as [H1 H2]; [by rewrite Hi|by rewrite Hi|done|].
  destruct Hkind as [-> | ->]; [by apply H1|by apply H2].
Qed.
Lemma shape_button c v v' sel kind :
  sent_as c v -> input_shape c -> map_command sel v = Ok v' -> kind = "MouseDown"%string \/ kind = "MouseUp"%string ->
  as_str (idx c "type") = Some kind ->
  exists name mb x y, button_name c = Some name /\ assoc_str name button_table = Some mb
  /\ decode_control v' = Some (if String.eqb kind "MouseDown" then MouseDown x y mb else MouseUp x y mb).
Proof.
  intros (Hc & Hv & Hf) (_ & Hs) Hm Hkind Ht. destruct (map_command_fields _ _ _ Hv Hm) as (Ho' & Hf' & Hxy).
  assert (is_button_event c = true) as Hbe.
  { unfold is_button_event, str_is. rewrite Ht. by destruct Hkind as [-> | ->]. }
  destruct (Hs Hbe) as (name & Hn & Hin). rewrite <- button_table_names in Hin. destruct (assoc_str_is_Some _ _ Hin) as [mb Hmb].
  assert (forall f, f <> "x"%string -> f <> "y"%string -> f <> "__module_generation"%string -> get v' f = get c f) as Hi.
  { intros f Hx Hy Hg. by rewrite Hf', Hf. }
  destruct Hxy as [Hx Hy].
  { unfold idx. rewrite Hf by done. fold (idx c "type"). unfold str_is. rewrite Ht. by destruct Hkind as [-> | ->]. }
  destruct (decode_button_command v' kind name mb Ho') as [H1 H2].
  { unfold idx. rewrite Hi by done. exact Ht. } { unfold button_name. rewrite Hi by done. exact Hn. } { done. } { done. } { done. }
  destruct Hkind as [-> | ->]; [destruct (H1 eq_refl) as (x & y & Hd)|destruct (H2 eq_refl) as (x & y & Hd)]; exists name, mb, x, y; by split_and!.
Qed.

(** One command, tracked by the server and run by the device. *)
Lemma inject_step os store sel hist s c v g :
  (forall n, os n = true) -> injector_ok s -> command_generation store v = Some g -> gen_module g = RemoteInput -> matches g store = true ->
  sent_as c v -> input_shape c -> down_tracked hist s ->
  let s' := (handle_value os store sel s v).1 in injector_ok s' /\ down_tracked (hist_step hist c) s'.
Proof.
  intros Ho Hok Hg Hm Hma Hsent Hshape [Dk Db]. split; [by apply handle_value_ok|].
  destruct (handle_value os store sel s v) as [s' r] eqn:E. cbn [fst].
  destruct (handle_value_cases _ _ _ _ _ _ _ Hok E) as [_ Hc]. destruct (Hc g Ho Hg Hm Hma) as (s1 & Hok1 & Hk1 & Hb1 & Hr). clear Hc.
  destruct (map_command sel v) as [v'|e] eqn:Emap; last first.
  { simplify_eq. destruct (release_all_ok os s1 Hok1) as (Hok2 & _ & _ & _ & _ & Hn). destruct (nothing_down _ Hok2 (Hn (accepts_all os _ _ Ho))) as [N1 N2].
    split; intros x Hx; [by rewrite N1 in Hx|by rewrite N2 in Hx]. }
  assert (is_object v' = true /\ idx v' "type" = idx c "type") as [Ho' Ht].
  { destruct Hsent as (_ & Hv & Hf). destruct (map_command_fields _ _ _ Hv Emap) as (Ho' & Hf' & _). split; [done|]. unfold idx. by rewrite Hf', Hf. }
  assert (forall k, key_down (calls s') k = true -> (key_down (calls s1) k = true /\ forall cmd, decode_control v' = Some cmd -> ~ lifts cmd k)
    \/ exists cmd, decode_control v' = Some cmd /\ presses cmd k) as Ek.
  { intros k Hd. destruct (decode_control v') as [cmd|] eqn:Ed; [|simplify_eq; by left].
    pose proof (execute_true os s1 cmd Ho) as Hi. rewrite <- Hr in Hi. symmetry in Hr.
    destruct (proj1 (execute_effect _ _ _ _ _ Hr) k Hd) as [[? Hl]|[Hp _]]; [left; split; [done|]; intros cmd' [= <-]; by apply Hl|right; by exists cmd]. }
  assert (forall b, button_down (calls s') b = true -> (button_down (calls s1) b = true /\ forall cmd, decode_control v' = Some cmd -> ~ lifts_button cmd b)
    \/ exists cmd, decode_control v' = Some cmd /\ presses_button cmd b) as Eb.
  { intros b Hd. destruct (decode_control v') as [cmd|] eqn:Ed; [|simplify_eq; by left].
    pose proof (execute_true os s1 cmd Ho) as Hi. rewrite <- Hr in Hi. symmetry in Hr.
    destruct (proj1 (proj2 (execute_effect _ _ _ _ _ Hr)) b Hd) as [[? Hl]|[Hp _]]; [left; split; [done|]; intros cmd' [= <-]; by apply Hl|right; by exists cmd]. }
  split.
  - intros k Hd. destruct (Ek k Hd) as [[Hd1 Hl]|(cmd & Ed & sk & -> & ->)].
    + destruct (Dk k (Hk1 k Hd1)) as (name & sk & Hn & -> & Hh). exists name, sk. split_and!; [done..|]. apply hist_key_kept; [done|].
      intros [Hkey Hup]. destruct (shape_key c v v' sel "KeyUp" Hsent Hshape Emap ltac:(by right) Hup) as (name' & sk' & Hn' & Hs' & Hd').
      cbn in Hd'. rewrite Hkey in Hn'. simplify_eq. apply (Hl _ Hd'). by exists sk.
    + pose proof (decode_control_kind _ _ Ho' Ed) as Hkd. rewrite Ht in Hkd. cbn [control_kind] in Hkd.
      destruct (shape_key c v v' sel "KeyDown" Hsent Hshape Emap ltac:(by left) Hkd) as (name' & sk' & Hn' & Hs' & Hd').
      rewrite Ed in Hd'. cbn in Hd'. simplify_eq. exists name', sk'. split_and!; [done..|]. cbn [hist_step h_key].
      by rewrite (proj2 (str_is_true _ _) Hn'), (proj2 (str_is_true _ _) Hkd).
  - intros b Hd. destruct (Eb b Hd) as [[Hd1 Hl]|(cmd & Ed & x & y & mb & -> & ->)].
    + destruct (Db b (Hb1 b Hd1)) as (name & mb & Hn & -> & Hh). exists name, mb. split_and!; [done..|]. apply hist_button_kept; [done|].
      intros [Hkey Hup]. destruct (shape_button c v v' sel "MouseUp" Hsent Hshape Emap ltac:(by right) Hup) as (name' & mb' & x & y & Hn' & Hs' & Hd').
      cbn in Hd'. rewrite Hkey in Hn'. simplify_eq. apply (Hl _ Hd'). by exists x, y, mb.
    + pose proof (decode_control_kind _ _ Ho' Ed) as Hkd. rewrite Ht in Hkd. cbn [control_kind] in Hkd.
      destruct (shape_button c v v' sel "MouseDown" Hsent Hshape Emap ltac:(by left) Hkd) as (name' & mb' & x' & y' & Hn' & Hs' & Hd').
      rewrite Ed in Hd'. cbn in Hd'. simplify_eq. exists name', mb'. split_and!; [done..|]. cbn [hist_step h_button].
      rewrite (proj2 (str_is_true _ _) Hkd). by rewrite bool_decide_true.
Qed.

(** A command with the generation stamp the server adds. *)
Definition stamped (g : Generation) (c : json) : json := set_idx c "__module_generation" (generation_value g).
(** The device runs commands in order, each under the selection of its moment. *)
Definition inject (os : nat -> bool) (store : Store) (s : Injector) (cmds : list (Selection * json)) : Injector :=
  foldl (fun s x => (handle_value os store x.1 s x.2).1) s cmds.

Lemma is_valid_object c : is_valid (kind_of c) c = true -> is_object c = true.
Proof. intros Hv. apply kind_of_object. intros E. by rewrite E in Hv. Qed.
Lemma sent_stamped g c : is_object c = true -> sent_as c (stamped g c).
Proof. intros Ho. split_and!; [done|by destruct c|]. intros f Hf. by apply get_set_idx_ne. Qed.
Lemma stamped_generation store g c : is_object c = true -> 0 <= gen_revision g <= u64_max -> command_generation store (stamped g c) = Some g.
Proof.
  intros Ho Hr. unfold command_generation, stamped. rewrite idx_set_idx_eq by done. change (is_null (generation_value g)) with false.
  by apply decode_generation_value.
Qed.
Lemma unstamped_generation store g c :
  get c "__module_generation" = None -> gen_module g = RemoteInput -> matches g store = true -> command_generation store c = Some g.
Proof. intros Hc Hm Hma. unfold command_generation, idx. rewrite Hc. unfold matches in Hma. rewrite Hm in Hma. by apply bool_decide_eq_true in Hma. Qed.

(** The commands a lease accepted have the shape the device reads. *)
Lemma tracked_shape h c h' : track h c = Ok h' -> is_valid (kind_of c) c = true -> input_shape c.
Proof.
  intros Ht Hv. split; [done|]. unfold is_button_event, str_is. destruct (as_str (idx c "type")) as [kind|] eqn:Hk; [|done].
  cbn [is_some_and existsb]. rewrite orb_false_r. intros Hb. unfold track in Ht. rewrite Hk in Ht.
  assert (String.eqb kind "KeyDown" || String.eqb kind "KeyUp" = false /\ String.eqb kind "MouseDown" || String.eqb kind "MouseUp" = true) as [E1 E2].
  { apply orb_true_iff in Hb as [<-%String.eqb_eq|<-%String.eqb_eq]; done. }
  rewrite E1, E2 in Ht. apply rbind_Ok in Ht as (i & Hi & _). destruct (input_button_name c i Hi) as (b & Hn & Hin). exists b.
  split; [done|]. by eapply list_elem_of_lookup_2.
Qed.
Lemma key_up_shape k : k ∈ HELD_KEYS -> input_shape (key_up k).
Proof. intros Hk. split; [by apply existsb_eqb_elem|by intros [=]]. Qed.
Lemma mouse_up_shape b p : b ∈ BUTTONS -> in_range i32_min i32_max p.1 && in_range i32_min i32_max p.2 = true -> input_shape (mouse_up b p).
Proof.
  intros Hb [Hx Hy]%andb_prop. apply i32_as_i64 in Hx as [Hx1 Hx2], Hy as [Hy1 Hy2]. split; [|intros _; by exists b].
  change (kind_of (mouse_up b p)) with "MouseUp"%string. unfold is_valid. cbn [String.eqb Ascii.eqb Bool.eqb orb]. unfold i32_ok, read_i32.
  change (idx (mouse_up b p) "x") with (JInt p.1). change (idx (mouse_up b p) "y") with (JInt p.2).
  change (idx (mouse_up b p) "button") with (JStr b). rewrite Hx1, Hx2, Hy1, Hy2. by apply existsb_eqb_elem.
Qed.

Lemma inject_tracked os store g steps : forall hist s h h',
  (forall n, os n = true) -> gen_module g = RemoteInput -> 0 <= gen_revision g <= u64_max -> matches g store = true ->
  Forall (fun x => is_valid (kind_of x.2) x.2 = true) steps -> track_all h steps.*2 = Ok h' -> injector_ok s -> down_tracked hist s ->
  let s' := inject os store s ((fun x => (x.1, stamped g x.2)) <$> steps) in
  injector_ok s' /\ down_tracked (foldl hist_step hist steps.*2) s'.
Proof.
  induction steps as [|[sel c] steps IH]; intros hist s h h' Ho Hm Hr Hma Hv Ht Hok Hd; [by split|].
  apply Forall_cons in Hv as [Hc Hv]. cbn [fmap list_fmap snd track_all] in Ht. apply rbind_Ok in Ht as (h1 & H1 & Ht). cbn [snd] in Hc.
  pose proof (is_valid_object c Hc) as Hobj.
  destruct (inject_step os store sel hist s c (stamped g c) g Ho Hok (stamped_generation store g c Hobj Hr) Hm Hma (sent_stamped g c Hobj)
    (tracked_shape _ _ _ H1 Hc) Hd) as [Hok1 Hd1].
  exact (IH _ _ _ _ Ho Hm Hr Hma Hv Ht Hok1 Hd1).
Qed.
(** The releases sent at the end of a lease. *)
Definition is_release (c : json) : Prop :=
  (exists k, k ∈ HELD_KEYS /\ c = key_up k) \/ exists b p, b ∈ BUTTONS /\ in_range i32_min i32_max p.1 && in_range i32_min i32_max p.2 = true /\ c = mouse_up b p.
Lemma release_shape c : is_release c -> input_shape c /\ is_object c = true /\ get c "__module_generation" = None
  /\ as_str (idx c "type") <> Some "KeyDown"%string /\ as_str (idx c "type") <> Some "MouseDown"%string.
Proof.
  intros [(k & Hk & ->)|(b & p & Hb & Hp & ->)]; (split; [|by split_and!]); [by apply key_up_shape|by apply mouse_up_shape].
Qed.
Lemma inject_releases os store g ends : forall hist s,
  (forall n, os n = true) -> gen_module g = RemoteInput -> matches g store = true -> Forall is_release ends.*2 -> injector_ok s -> down_tracked hist s ->
  let s' := inject os store s ends in injector_ok s' /\ down_tracked (foldl hist_step hist ends.*2) s'.
Proof.
  induction ends as [|[sel c] ends IH]; intros hist s Ho Hm Hma Hv Hok Hd; [by split|].
  apply Forall_cons in Hv as [Hc Hv]. cbn [snd] in Hc. destruct (release_shape c Hc) as (Hs & Hobj & Hg & _).
  destruct (inject_step os store sel hist s c c g Ho Hok (unstamped_generation store g c Hg Hm Hma) Hm Hma ltac:(by split_and!) Hs Hd) as [Hok1 Hd1].
  exact (IH _ _ Ho Hm Hma Hv Hok1 Hd1).
Qed.

(** After releases, what is still down was down before and was not released. *)
Lemma hist_ups cs : forall hist, Forall is_release cs ->
  (forall k, h_key (foldl hist_step hist cs) k = true -> h_key hist k = true /\ key_up k ∉ cs)
  /\ (forall b, h_button (foldl hist_step hist cs) b = true -> h_button hist b = true /\ forall p, mouse_up b p ∉ cs).
Proof.
  induction cs as [|c cs IH]; intros hist Hcs; cbn [foldl]; [split; intros; (split; [done|]); intros; apply not_elem_of_nil|].
  apply Forall_cons in Hcs as [Hc Hcs]. destruct (IH (hist_step hist c) Hcs) as [IHk IHb]. destruct (release_shape c Hc) as (_ & _ & _ & Hd1 & Hd2).
  assert (forall x, x <> "MouseDown"%string /\ x <> "KeyDown"%string \/ str_is (idx c "type") x = false) as Hno.
  { intros x. destruct (str_is (idx c "type") x) eqn:E; [left|by right]. apply str_is_true in E. split; intros ->; done. }
  split.
  - intros k [Hk Hn]%IHk. cbn [hist_step h_key] in Hk. destruct (Hno "KeyDown"%string) as [[_ ?]|E]; [done|]. rewrite E, andb_false_r in Hk.
    destruct (_ && _) eqn:Eu; [done|]. split; [done|]. rewrite not_elem_of_cons. split; [|done]. intros <-.
    change (String.eqb k k && true = false) in Eu. by rewrite String.eqb_refl in Eu.
  - intros b [Hb Hn]%IHb. cbn [hist_step h_button] in Hb. destruct (Hno "MouseDown"%string) as [[? _]|E]; [done|]. rewrite E, andb_false_r in Hb.
    destruct (_ && _) eqn:Eu; [done|]. split; [done|]. intros p. rewrite not_elem_of_cons. split; [|apply Hn]. intros <-.
    change (button_name (mouse_up b p)) with (Some b) in Eu. rewrite bool_decide_true in Eu by done. done.
Qed.

(** C10: when a control lease ends, nothing stays pressed on the device: whatever commands the server
    tracked for the lease and forwarded, however the frame geometry changed in between, every key
    and button down on the device is one the server has recorded as held; and once the device
    has also run the releases the server computes from that record, no key and no button is
    down at all (while the grant stands and the operating system accepts the events). *)
Theorem lease_end_releases_device os store g s steps ends h :
  (forall n, os n = true) -> gen_module g = RemoteInput -> 0 <= gen_revision g <= u64_max -> matches g store = true ->
  injector_ok s -> no_held s = true ->
  Forall (fun x => is_valid (kind_of x.2) x.2 = true) steps -> track_all HeldInput_default steps.*2 = Ok h -> ends.*2 = drain h ->
  let during := inject os store s ((fun x => (x.1, stamped g x.2)) <$> steps) in
  let after := inject os store during ends in
  (forall k, key_down (calls during) k = true -> exists name, special_key_to_enigo <$> assoc_str name key_table = Some k /\ key_up name ∈ drain h)
  /\ (forall b, button_down (calls during) b = true -> exists name p, button_into <$> assoc_str name button_table = Some b /\ mouse_up name p ∈ drain h)
  /\ (forall k, key_down (calls after) k = false) /\ (forall b, button_down (calls after) b = false).
Proof.
  intros Ho Hm Hr Hma Hok Hn Hv Ht Hends. destruct (nothing_down s Hok Hn) as [N1 N2].
  assert (down_tracked History_empty s) as Hd0 by (split; [intros k Hk; by rewrite N1 in Hk|intros b Hb; by rewrite N2 in Hb]).
  destruct (inject_tracked os store g steps History_empty s _ h Ho Hm Hr Hma Hv Ht Hok Hd0) as [Hok1 [Dk Db]].
  set (hist := foldl hist_step History_empty steps.*2) in *. pose proof (tracks_all _ _ _ _ tracks_default Ht) as Htr. fold hist in Htr.
  pose proof (tracks_drain h hist Htr) as Hdr. destruct Htr as (_ & _ & Hpos & Hpr).
  assert (Forall is_release (drain h)) as Hrel.
  { rewrite Hdr. apply Forall_app. split.
    - apply Forall_fmap, Forall_forall. intros k [_ Hk]%list_elem_of_filter. left. by exists k.
    - destruct (h_pos hist) as [[x y]|] eqn:Hp; [|constructor]. apply Forall_fmap, Forall_forall. intros b [_ Hb]%list_elem_of_filter.
      right. exists b, (x, y). split_and!; [done|by apply Hpr|done]. }
  assert (forall name, name ∈ HELD_KEYS -> h_key hist name = true -> key_up name ∈ drain h) as Hku.
  { intros name Hin Hh. rewrite Hdr. apply elem_of_app. left. apply list_elem_of_fmap. exists name. by rewrite list_elem_of_filter. }
  assert (forall name, name ∈ BUTTONS -> h_button hist name = true -> exists p, mouse_up name p ∈ drain h) as Hmu.
  { intros name Hin Hh. specialize (Hpos name Hin Hh). destruct (h_pos hist) as [p|] eqn:Hp; [|done]. exists p. rewrite Hdr. apply elem_of_app. right.
    rewrite Hp. apply list_elem_of_fmap. exists name. by rewrite list_elem_of_filter. }
  destruct (inject_releases os store g ends hist _ Ho Hm Hma ltac:(by rewrite Hends) Hok1 (conj Dk Db)) as [Hok2 [Ek Eb]].
  rewrite Hends in Ek, Eb. destruct (hist_ups (drain h) hist Hrel) as [Uk Ub]. split_and!.
  - intros k Hk. destruct (Dk k Hk) as (name & sk & Hs & -> & Hh). exists name. rewrite Hs. split; [done|]. apply Hku; [|done].
    rewrite <- key_table_names. by eapply assoc_str_name.
  - intros b Hb. destruct (Db b Hb) as (name & mb & Hs & -> & Hh). destruct (Hmu name) as [p Hp]; [|done|].
    { rewrite <- button_table_names. by eapply assoc_str_name. } exists name, p. by rewrite Hs.
  - intros k. destruct (key_down _ k) eqn:E; [|done]. destruct (Ek k E) as (name & sk & Hs & -> & Hh). destruct (Uk name Hh) as [Hh' Hnot].
    destruct Hnot. apply Hku; [|done]. rewrite <- key_table_names. by eapply assoc_str_name.
  - intros b. destruct (button_down _ b) eqn:E; [|done]. destruct (Eb b E) as (name & mb & Hs & -> & Hh). destruct (Ub name Hh) as [Hh' Hnot].
    destruct (Hmu name) as [p Hp]; [|done|by destruct (Hnot p)]. rewrite <- button_table_names. by eapply assoc_str_name.
Qed.

(** ** Grants and injection *)

Inductive InputOp : Type :=
| OpCommand (store : Store) (sel : Selection) (text : list Z)
| OpCleanup (store : Store)
| OpRelease.
Section runs.
Context `{JsonText}.
Variable os : nat -> bool.
Definition input_op (s : Injector) (op : InputOp) : Injector :=
  match op with
  | OpCommand store sel text => default s (handle os store sel (Some s) text)
  | OpCleanup store => cleanup_revoked os store s
  | OpRelease => release_all os s
  end.
Definition input_run (s : Injector) (ops : list InputOp) : Injector := foldl input_op s ops.

Definition is_release_event (e : OsEvent * bool) : bool := match e.1 with KeyEvent _ Release | ButtonEvent _ Release => true | _ => false end.
Definition only_releases (s s' : Injector) : Prop := exists new, calls s' = calls s ++ new /\ Forall (fun e => is_release_event e = true) new.
Lemma only_releases_refl s s' : calls s' = calls s -> only_releases s s'.
Proof. intros E. exists []. by rewrite app_nil_r. Qed.
Lemma release_held_calls {T} (ev : T -> OsEvent) held c :
  (forall x ok, is_release_event (ev x, ok) = true) ->
  exists new, (release_held os ev c held).1 = c ++ new /\ Forall (fun e => is_release_event e = true) new.
Proof.
  intros He. revert c. induction held as [|x held IH]; intros c; cbn [release_held]; [exists []; by rewrite app_nil_r|].
  destruct (IH (c ++ [(ev x, os (length c))])) as (new & Hn & Hf). destruct (release_held _ _ _ held) as [c' k]. cbn [fst] in *.
  exists ((ev x, os (length c)) :: new). rewrite Hn, <- app_assoc. split; [done|]. by constructor.
Qed.
Lemma release_all_calls s : only_releases s (release_all os s).
Proof.
  unfold release_all. destruct (release_held_calls (fun k => KeyEvent k Release) (held_keys (ctl s)) (calls s)) as (n1 & E1 & F1); [done|].
  destruct (release_held os (fun k => KeyEvent k Release) _ _) as [c1 ks]. cbn [fst] in E1.
  destruct (release_held_calls (fun b => ButtonEvent b Release) (held_buttons (ctl s)) c1) as (n2 & E2 & F2); [done|].
  destruct (release_held os (fun b => ButtonEvent b Release) _ _) as [c2 bs]. cbn [fst] in E2. subst.
  exists (n1 ++ n2). rewrite app_assoc. split; [by destruct (no_held _)|]. by apply Forall_app.
Qed.
Lemma cleanup_calls store s : only_releases s (cleanup_revoked os store s).
Proof. unfold cleanup_revoked. case_match; [apply release_all_calls|by apply only_releases_refl]. Qed.

Lemma input_run_ok ops : forall s, injector_ok s -> injector_ok (input_run s ops).
Proof.
  induction ops as [|op ops IH]; intros s Hok; [done|]. apply IH. destruct op; cbn [input_op].
  - unfold handle. destruct (store_enabled _ _); cbn [default]; [by apply handle_command_ok|done].
  - by apply cleanup_revoked_ok.
  - by apply release_all_ok.
Qed.

(** C11: the injector never acts without the grant and never forgets what it pressed: from a fresh
    controller, over any commands, clean-ups, grant changes and operating-system failures, each key or
    button that is down is one it will release, and its worker lease is registered while it
    holds any; a step that makes any call but a release runs a command whose Remote Input
    generation is current in the store of that moment; and after any failures before it, a clean-up
    in a store where the controller's generation is gone leaves nothing down, no generation and no
    lease, if only the system accepts the releases that clean-up makes: it tries again whatever an
    earlier release failed to lift. *)
Theorem injector_acts_only_under_its_grant w ops op :
  let s := input_run {| ctl := InputController_new; workers := w; calls := [] |} ops in
  let s' := input_op s op in
  (forall k, key_down (calls s) k = true -> k ∈ held_keys (ctl s)) /\ (forall b, button_down (calls s) b = true -> b ∈ held_buttons (ctl s))
  /\ (no_held s = false -> is_Some (lease (ctl s)))
  /\ (only_releases s s' \/ exists store sel text val g, op = OpCommand store sel text /\ json_parse text = Some val
        /\ store_enabled store RemoteInput = true /\ command_generation store val = Some g /\ gen_module g = RemoteInput /\ matches g store = true)
  /\ (forall store, op = OpCleanup store -> (forall n, (length (calls s) <= n < length (calls s'))%nat -> os n = true) ->
       (forall g, generation (ctl s) = Some g -> matches g store = false) ->
       (forall k, key_down (calls s') k = false) /\ (forall b, button_down (calls s') b = false) /\ held_keys (ctl s') = [] /\ held_buttons (ctl s') = []
       /\ generation (ctl s') = None /\ (lease (ctl s') = None \/ s' = s)).
Proof.
  intros s s'. assert (injector_ok s) as Hok by (apply input_run_ok, injector_ok_new). pose proof Hok as [Hk Hb Hl Hh].
  split_and!; [done..| |].
  - subst s'. destruct op as [store sel text|store|]; cbn [input_op]; [|left; apply cleanup_calls|left; apply release_all_calls].
    unfold handle. destruct (store_enabled store RemoteInput) eqn:Hs; cbn [default]; [|left; by apply only_releases_refl].
    unfold handle_command. rewrite Hs. cbn [negb]. pose proof (cleanup_calls store s) as Hc. pose proof (cleanup_revoked_ok os store s Hok) as Hok1.
    destruct (json_parse text) as [val|] eqn:Ep; [|by left]. destruct (handle_value os store sel _ val) as [s2 r] eqn:E. cbn [fst].
    unfold handle_value in E. destruct (command_generation store val) as [g|] eqn:Eg; [|left; injection E as <- _; exact Hc]. cbn [is_some_and] in E.
    destruct (bool_decide (gen_module g = RemoteInput) && matches g store) eqn:Hv; [|left; injection E as <- _; exact Hc].
    apply andb_true_iff in Hv as [Hm Hma]. apply bool_decide_eq_true in Hm. right. by exists store, sel, text, val, g.
  - intros store -> Ho Hg. subst s'. cbn [input_op] in *. unfold cleanup_revoked in *.
    pose proof (release_all_clears os s Hok) as Hclear. destruct (generation (ctl s)) as [g|] eqn:Eg; [rewrite (Hg g eq_refl) in *; cbn [negb] in *|].
    + destruct (Hclear Ho) as (N1 & N2 & Hgn & Hle & Hnh). apply no_held_true in Hnh as [? ?]. split_and!; [done..|by left].
    + destruct (no_held s) eqn:Hns; cbn [negb] in *.
      * destruct (nothing_down s Hok Hns) as [M1 M2]. apply no_held_true in Hns as [? ?]. split_and!; [done..|by right].
      * destruct (Hclear Ho) as (N1 & N2 & Hgn & Hle & Hnh). apply no_held_true in Hnh as [? ?]. split_and!; [done..|by left].
Qed.
End runs.

(** ** The server forwards only what the device understands *)

Lemma de_i32_ok c n : i32_ok c n = true -> isSome (de_i32 (get c n)) = true.
Proof. unfold i32_ok, read_i32, de_i32, idx. destruct (get c n) as [v|]; [|done]. cbn. by destruct (as_i64 v). Qed.
Lemma idx_as_str c n s : as_str (idx c n) = Some s -> get c n = Some (JStr s).
Proof. unfold idx. destruct (get c n) as [[]|]; try done. cbn. by intros [= ->]. Qed.
Lemma str_field c n f : is_some_and (as_str (idx c n)) f = true -> exists s, get c n = Some (JStr s) /\ f s = true.
Proof. destruct (as_str (idx c n)) as [s|] eqn:E; [|done]. intros Hf. exists s. split; [by apply idx_as_str|done]. Qed.

(** Every input command the server forwards is one the device understands: a command whose shape
    the viewer check accepts decodes on the agent to a command of the same kind, for each of
    the twelve kinds, provided its button, if it has one, is a string (the check lets any other
    value through, and the agent refuses it). *)
Theorem forwarded_input_is_understood c :
  is_valid (kind_of c) c = true -> kind_of c ∈ control_table.*1 -> is_none_or (get c "button") (fun v => isSome (as_str v)) = true ->
  exists cmd, decode_control c = Some cmd /\ control_kind cmd = kind_of c.
Proof.
  intros Hv Hin Hb. pose proof (is_valid_object c Hv) as Ho.
  assert (is_Some (decode_control c)) as [cmd Hd].
  2: { exists cmd. split; [done|]. pose proof (decode_control_kind c cmd Ho Hd) as Hk. unfold kind_of. by rewrite Hk. }
  assert (as_str (idx c "type") = Some (kind_of c)) as Hk.
  { unfold kind_of in *. destruct (as_str (idx c "type")); [done|]. by vm_compute in Hv. }
  rewrite (decode_object c _ Ho Hk). clear Hk. revert Hv Hin. generalize (kind_of c). intros kind Hv Hin.
  assert (forall build, i32_ok c "x" && i32_ok c "y" && is_none_or (as_str (idx c "button")) (fun b => existsb (String.eqb b) BUTTONS) = true ->
    is_Some (de_click build c)) as Hclick.
  { intros build [[Hx%de_i32_ok Hy%de_i32_ok]%andb_prop Hbt]%andb_prop. destruct c as [| | | | | |l]; try done. unfold de_click.
    cbn [struct_fields map andb mbind option_bind get] in *. destruct (de_i32 (fget "x" l)) as [x|]; [|done]. destruct (de_i32 (fget "y" l)) as [y|]; [|done].
    cbn [mbind option_bind]. destruct (fget "button" l) as [v|] eqn:Ev; [|by eexists]. unfold idx in Hbt. cbn [get] in Hbt. rewrite Ev in Hbt.
    destruct v as [| | | |name| |]; try done. change (existsb (String.eqb name) BUTTONS = true) in Hbt. apply existsb_eqb_elem in Hbt. rewrite <- button_table_names in Hbt.
    destruct (assoc_str_is_Some _ _ Hbt) as [mb Hmb]. cbn [de_button unit_variant]. rewrite Hmb. by eexists. }
  assert (forall n1 n2 build, i32_ok c n1 && i32_ok c n2 = true -> is_Some (de_pair [n1; n2] de_i32 build c)) as Hpair.
  { intros n1 n2 build [Hx%de_i32_ok Hy%de_i32_ok]%andb_prop. destruct c as [| | | | | |l]; try done. unfold de_pair.
    cbn [struct_fields map andb mbind option_bind get] in *. destruct (de_i32 (fget n1 l)) as [x|]; [|done]. destruct (de_i32 (fget n2 l)) as [y|]; [|done].
    by eexists. }
  assert (forall (build : SpecialKey -> ControlCommand), is_some_and (as_str (idx c "key")) tracked_key = true -> is_Some (de_one "key" de_key build c)) as Hkey.
  { intros build (name & Hg & Hn)%str_field. apply existsb_eqb_elem in Hn. rewrite <- key_table_names in Hn.
    destruct (assoc_str_is_Some _ _ Hn) as [sk Hsk]. destruct c as [| | | | | |l]; try done. unfold de_one.
    cbn [struct_fields map andb mbind option_bind get] in *. rewrite Hg. cbn [de_key mbind option_bind unit_variant]. rewrite Hsk. by eexists. }
  unfold control_table in Hin. cbn [fmap list_fmap fst] in Hin.
  repeat (apply elem_of_cons in Hin as [->|Hin]); [..|by apply not_elem_of_nil in Hin];
    cbn [assoc_str control_table String.eqb Ascii.eqb Bool.eqb mbind option_bind];
    unfold is_valid in Hv; cbn [String.eqb Ascii.eqb Bool.eqb orb] in Hv; try (by apply Hclick); try (by apply Hpair); try (by apply Hkey).
  - apply str_field in Hv as (s & Hg & _). destruct c as [| | | | | |l]; try done. unfold de_one. cbn [struct_fields map andb mbind option_bind get] in *. rewrite Hg. by eexists.
  - apply str_field in Hv as (s & Hg & Hs). destruct c as [| | | | | |l]; try done. unfold de_one. cbn [struct_fields map andb mbind option_bind get] in *. rewrite Hg.
    unfold de_char. cbn [mbind option_bind as_str ofilter]. rewrite Hs. by eexists.
  - apply andb_prop in Hv as [(s & Hg & _)%str_field (t & Hg' & _)%str_field]. destruct c as [| | | | | |l]; try done. unfold de_pair.
    cbn [struct_fields map andb mbind option_bind get] in *. rewrite Hg, Hg'. by eexists.
Qed.

(** ** The worker's thread *)

Section turns.
Context `{JsonText}.
Variable os : nat -> bool.
Lemma only_releases_trans s1 s2 s3 : only_releases s1 s2 -> only_releases s2 s3 -> only_releases s1 s3.
Proof. intros (n1 & E1 & F1) (n2 & E2 & F2). exists (n1 ++ n2). rewrite E2, E1, app_assoc. split; [done|]. by apply Forall_app. Qed.
Lemma with_controller_releases w f : (forall s, only_releases s (f s)) -> only_releases (wi_injector w) (wi_injector (with_controller w f)).
Proof. intros Hf. unfold with_controller. destruct (wi_controller w); [apply Hf|by apply only_releases_refl]. Qed.
Lemma drop_controller_releases s : only_releases s (drop_controller os s).
Proof. destruct (release_all_calls os s) as (n & E & F). by exists n. Qed.

(** The capture worker injects only for the pipe session and the grant of the moment: a turn of its
    input thread makes no call but releases unless its message carries the current pipe session's
    number and the command's Remote Input generation is current; a message of an earlier session, a
    disconnect, a timeout or a desktop switch only ever lets go. *)
Theorem worker_turn_is_fenced w t :
  let '(w', _) := input_turn os w t in
  only_releases (wi_injector w) (wi_injector w')
  \/ exists text val g, wt_message t = Line text /\ text <> INPUT_DISCONNECT /\ json_parse text = Some val
     /\ as_u64 (idx val "__input_session") = Some (wt_session' t) /\ store_enabled (wt_store' t) RemoteInput = true
     /\ command_generation (wt_store' t) val = Some g /\ gen_module g = RemoteInput /\ matches g (wt_store' t) = true.
Proof.
  unfold input_turn. set (w1 := if _ =? _ then w else _).
  assert (only_releases (wi_injector w) (wi_injector w1)) as H1.
  { subst w1. destruct (_ =? _); [by apply only_releases_refl|]. cbn [wi_injector]. apply with_controller_releases, release_all_calls. }
  set (w2 := with_controller w1 _). assert (only_releases (wi_injector w) (wi_injector w2)) as H2.
  { eapply only_releases_trans; [exact H1|]. apply with_controller_releases. apply cleanup_calls. }
  destruct (wt_message t) as [| |text]; [by left..|]. case_bool_decide as Hd.
  { left. eapply only_releases_trans; [exact H2|]. apply with_controller_releases, release_all_calls. }
  destruct (json_parse text) as [val|] eqn:Ep; [|by left]. case_bool_decide as Hs; [|by left]. cbn [negb].
  set (w3 := if _ : bool then w2 else reattach os w2 t). assert (only_releases (wi_injector w) (wi_injector w3)) as H3.
  { eapply only_releases_trans; [exact H2|]. subst w3. case_match; [by apply only_releases_refl|]. cbn [wi_injector reattach].
    apply with_controller_releases, drop_controller_releases. }
  destruct (store_enabled (wt_store' t) RemoteInput) eqn:He; [|by left]. unfold with_controller. destruct (wi_controller w3); [|by left].
  cbn [wi_injector]. unfold handle_command. rewrite He, Ep. cbn [negb].
  assert (only_releases (wi_injector w) (cleanup_revoked os (wt_store' t) (wi_injector w3))) as H4 by (eapply only_releases_trans; [exact H3|apply cleanup_calls]).
  unfold handle_value. destruct (command_generation (wt_store' t) val) as [g|] eqn:Eg; [|by left]. cbn [is_some_and].
  destruct (bool_decide (gen_module g = RemoteInput) && matches g (wt_store' t)) eqn:Hv; [|by left].
  apply andb_true_iff in Hv as [Hm Hma]. apply bool_decide_eq_true in Hm. right. exists text, val, g. by split_and!.
Qed.
End turns.

(** ** Examples *)

Definition ex_input_grant : Generation := {| gen_module := RemoteInput; gen_revision := 3 |}.
Definition ex_input_store : Store :=
  {| st_revision := 3; grants := {[ RemoteInput := {| g_enabled := true; g_revision := 3 |} ]}; receipts := ∅ |}.
Definition ex_input_sel : Selection := Selection_default.
Definition ex_key (kind name : string) : json := mk_obj [("type", JStr kind); ("key", JStr name)]%string.
Definition ex_press (kind : string) : json := mk_obj [("type", JStr kind); ("x", JInt 4); ("y", JInt 5)]%string.
Definition ex_lease_steps : list (Selection * json) :=
  [(ex_input_sel, ex_key "KeyDown" "shift"); (ex_input_sel, ex_press "MouseDown")]%string.
Definition ex_held : HeldInput := default HeldInput_default (rok (track_all HeldInput_default ex_lease_steps.*2)).
Definition ex_injector : Injector := {| ctl := InputController_new; workers := ∅; calls := [] |}.

Lemma lease_end_releases_device_witness :
  let os := fun _ : nat => true in
  let during := inject os ex_input_store ex_injector ((fun x => (x.1, stamped ex_input_grant x.2)) <$> ex_lease_steps) in
  let after := inject os ex_input_store during ((fun c => (ex_input_sel, c)) <$> drain ex_held) in
  key_down (calls during) KShift = true /\ button_down (calls during) BLeft = true
  /\ key_down (calls after) KShift = false /\ button_down (calls after) BLeft = false.
Proof.
  intros os during after. split; [vm_compute; reflexivity|]. split; [vm_compute; reflexivity|].
  destruct (@lease_end_releases_device os ex_input_store ex_input_grant ex_injector ex_lease_steps ((fun c => (ex_input_sel, c)) <$> drain ex_held) ex_held)
    as (_ & _ & Hk & Hb).
  - reflexivity.
  - reflexivity.
  - vm_compute. split; discriminate.
  - vm_compute. reflexivity.
  - apply injector_ok_new.
  - reflexivity.
  - repeat constructor.
  - vm_compute. reflexivity.
  - vm_compute. reflexivity.
  - split; [apply Hk|apply Hb].
Defined.
Lemma forwarded_input_is_understood_witness : exists cmd, decode_control (ex_press "MouseDown") = Some cmd /\ control_kind cmd = "MouseDown"%string.
Proof.
  apply (@forwarded_input_is_understood (ex_press "MouseDown")).
  - vm_compute. reflexivity.
  - apply (bool_decide_unpack _). vm_compute. exact I.
  - vm_compute. reflexivity.
Defined.
