(* ===== verification/Enrollment.v ===== *)
(** Enrolling devices: pairing codes, claims and their approval, the credential each approval issues,
    its one retrieval, and revoking, replacing and deleting a device
    ([server/src/agents/enrollment/], [server/src/agents/lifecycle.rs], the sign-in of
    [server/src/agent_ws/connection.rs]). The tables of the migrations are finite maps with their
    unique indexes; a database call that fails leaves its transaction undone. Digests, password
    hashes, random draws and clocks are parameters. *)
From stdpp Require Import sorting.
From S2P Require Import Prelude Text Json Protocol Sessions Modules Registry Geometry State Runtime Capture Control Connection.

(** ** Tables *)

Inductive InviteKind : Type := QuickPair | Unattended | ReEnroll.
Inductive ClaimStatus : Type := StPending | StApproved | StRejected | StExpired.
#[export] Instance InviteKind_eq_dec : EqDecision InviteKind.
Proof. solve_decision. Defined.
#[export] Instance ClaimStatus_eq_dec : EqDecision ClaimStatus.
Proof. solve_decision. Defined.
Definition claim_status_str (s : ClaimStatus) : string :=
  match s with StPending => "pending" | StApproved => "approved" | StRejected => "rejected" | StExpired => "expired" end.

(** A row of [agent_enrollment_invites]. *)
Record Invite := {
  inv_digest : string; inv_kind : InviteKind; uses_remaining : Z; inv_expires : option Z; inv_auto_approve : bool;
  inv_bound : option Uuid; inv_note : option string; inv_revoked : option Z
}.
(** A row of [agent_enrollment_claims]. *)
Record EnrollmentClaimRow := {
  cl_invite : option Uuid; cl_status : ClaimStatus; cl_name : string; cl_hostname : option string; cl_os : option string;
  cl_version : option string; cl_install : option string; cl_client_ip : option string; cl_discovered : option string; cl_created : Z;
  cl_approved_by : option string; cl_approved_at : option Z; cl_rejected_by : option string; cl_rejected_at : option Z;
  cl_agent : option Uuid; cl_token_hash : option string; cl_error : option string
}.
(** A row of [agents]. *)
Record AgentRow := { ag_name : string; ag_hash : option string; ag_seen : Z }.
Record Db := {
  invites : gmap Uuid Invite; claims : gmap Uuid EnrollmentClaimRow; agent_rows : gmap Uuid AgentRow;
  groups : gset Uuid; group_members : gset (Uuid * Uuid)
}.
Definition Db_empty : Db := {| invites := ∅; claims := ∅; agent_rows := ∅; groups := ∅; group_members := ∅ |}.

Definition with_invites (db : Db) (x : gmap Uuid Invite) : Db :=
  {| invites := x; claims := claims db; agent_rows := agent_rows db; groups := groups db; group_members := group_members db |}.
Definition with_claims (db : Db) (x : gmap Uuid EnrollmentClaimRow) : Db :=
  {| invites := invites db; claims := x; agent_rows := agent_rows db; groups := groups db; group_members := group_members db |}.
Definition with_rows (db : Db) (x : gmap Uuid AgentRow) : Db :=
  {| invites := invites db; claims := claims db; agent_rows := x; groups := groups db; group_members := group_members db |}.
Definition with_members (db : Db) (x : gset (Uuid * Uuid)) : Db :=
  {| invites := invites db; claims := claims db; agent_rows := agent_rows db; groups := groups db; group_members := x |}.

(** The row a query with at most one match returns. *)
Definition select {A} (f : A -> bool) (m : gmap Uuid A) : option (Uuid * A) := List.find (fun r => f r.2) (map_to_list m).

(** ** Pairing codes: [db/invites.rs] *)

(** "{:0n}" of a number below 10^n. *)
Fixpoint zero_padded (n : nat) (c : Z) : string :=
  match n with
  | O => ""
  | S n => (zero_padded n (c / 10) ++ String (digit_char (c mod 10)) "")%string
  end.
Definition code_text (c : Z) : string := zero_padded 6 c.
(** What one attempt draws: the code, the id the database gives the row, and the clock. *)
Record Draw := { d_code : Z; d_id : Uuid; d_now : Z }.
Definition ALLOCATION_ATTEMPTS : nat := 512.

(** "SET uses_remaining = 0, revoked_at = COALESCE(revoked_at, NOW())". *)
Definition revoked (now : Z) (i : Invite) : Invite :=
  {| inv_digest := inv_digest i; inv_kind := inv_kind i; uses_remaining := 0; inv_expires := inv_expires i;
     inv_auto_approve := inv_auto_approve i; inv_bound := inv_bound i; inv_note := inv_note i;
     inv_revoked := Some (default now (inv_revoked i)) |}.
Definition revoke_where (f : Invite -> bool) (now : Z) (db : Db) : Db :=
  with_invites db ((fun i => if f i then revoked now i else i) <$> invites db).
Definition is_bound_to (agent : Uuid) (i : Invite) : bool := bool_decide (inv_bound i = Some agent).
Definition set_hash (hash : option string) (r : AgentRow) : AgentRow := {| ag_name := ag_name r; ag_hash := hash; ag_seen := ag_seen r |}.
(** The insert of an invite: [None] on a unique violation (its digest, or the id drawn for it). *)
Definition insert_invite (db : Db) (id : Uuid) (i : Invite) : option Db :=
  if isSome (invites db !! id) || isSome (select (fun j => String.eqb (inv_digest j) (inv_digest i)) (invites db)) then None
  else Some (with_invites db (<[id := i]> (invites db))).

Section enrollment.
Context `{UuidText, JsonText}.
Variable time_json : Z -> json.
Variable sha256_hex : string -> string.

(** The attempts, each with its own draw; [None]: "could not allocate a unique ... code". *)
Fixpoint allocate_code {R} (fuel : nat) (draws : list Draw) (attempt : Draw -> option R) : option R :=
  match fuel, draws with
  | S fuel, d :: draws => match attempt d with Some r => Some r | None => allocate_code fuel draws attempt end
  | _, _ => None
  end.
Definition create_agent_enrollment_token (db : Db) (uses : Z) (expires_at : option Z) (note : option string) (draws : list Draw)
    : option (Db * (Uuid * string)) :=
  allocate_code ALLOCATION_ATTEMPTS draws (fun d =>
    let plaintext := code_text (d_code d) in
    db ← insert_invite db (d_id d)
           {| inv_digest := sha256_hex plaintext; inv_kind := QuickPair; uses_remaining := Z.max uses 1; inv_expires := expires_at;
              inv_auto_approve := true; inv_bound := None; inv_note := note; inv_revoked := None |};
    Some (db, (d_id d, plaintext))).
Definition revoke_agent_enrollment_token (db : Db) (token_id : Uuid) (now : Z) : Db :=
  with_invites db (alter (revoked now) token_id (invites db)).
Definition revoke_all_agent_enrollment_tokens (db : Db) (now : Z) : Db := revoke_where (fun i => 0 <? uses_remaining i) now db.
Definition revoke_agent_credentials (db : Db) (agent : Uuid) (now : Z) : Db :=
  let db := revoke_where (is_bound_to agent) now db in
  with_rows db (alter (set_hash None) agent (agent_rows db)).
Definition minutes (n : Z) : Z := n * 60000000.
(** [Some (_, None)]: no such agent. *)
Definition create_agent_replacement_token (db : Db) (agent : Uuid) (draws : list Draw) : option (Db * option (Uuid * string * Z)) :=
  if isSome (agent_rows db !! agent) then
    allocate_code ALLOCATION_ATTEMPTS draws (fun d =>
      let plaintext := code_text (d_code d) in
      let expires_at := d_now d + minutes 10 in
      db ← insert_invite (revoke_agent_credentials db agent (d_now d)) (d_id d)
             {| inv_digest := sha256_hex plaintext; inv_kind := ReEnroll; uses_remaining := 1; inv_expires := Some expires_at;
                inv_auto_approve := true; inv_bound := Some agent; inv_note := None; inv_revoked := None |};
      Some (db, Some (d_id d, plaintext, expires_at)))
  else Some (db, None).

(** ** Claims: [db/claims.rs] *)

Inductive ClaimCreateReject : Type := InvalidOrExpiredCode | AlreadyEnrolledName.
Inductive ClaimApproveReject : Type := NotFound | NotPending | AlreadyEnrolled.

Definition is_ascii_digit (c : ascii) : bool := ((48 <=? N_of_ascii c) && (N_of_ascii c <=? 57))%N.
Fixpoint keep_digits (s : string) : string :=
  match s with
  | EmptyString => ""
  | String c s => if is_ascii_digit c then String c (keep_digits s) else keep_digits s
  end.
Definition normalize_enrollment_code_for_lookup (raw : string) : option string :=
  let digits := keep_digits raw in if Nat.eqb (String.length digits) 6 then Some digits else None.

Record AgentEnrollmentClaimInput := {
  pairing_code : option string; in_name : string; in_hostname : option string; in_os : option string; in_version : option string;
  in_install : string; in_discovered : option string; in_client_ip : option string
}.
Definition install_digest (install_id : string) : option string :=
  if String.eqb (trim install_id) "" then None else Some (sha256_hex (trim install_id)).
Definition claim_name (name : string) (hostname : option string) : string :=
  let n := chars_take 128 (trim name) in
  if String.eqb n "" then chars_take 128 (trim (default "agent"%string hostname)) else n.
Definition past (now : Z) (exp : option Z) : bool := is_some_and exp (fun e => e <? now).
Definition unbound_replacement (i : Invite) : bool := bool_decide (inv_kind i = ReEnroll) && negb (isSome (inv_bound i)).
(** The invite a code names, locked, when it can still be used at [now]. *)
Definition usable_invite (db : Db) (now : Z) (code : string) : option (Uuid * Invite) :=
  digits ← normalize_enrollment_code_for_lookup code;
  i ← select (fun i => String.eqb (inv_digest i) (sha256_hex digits) && negb (isSome (inv_revoked i))) (invites db);
  if (uses_remaining i.2 <=? 0) || past now (inv_expires i.2) || unbound_replacement i.2 then None else Some i.
Definition name_taken (db : Db) (name : string) : bool := isSome (select (fun r => String.eqb (ag_name r) name) (agent_rows db)).
Definition one_use_less (i : Invite) : Invite :=
  {| inv_digest := inv_digest i; inv_kind := inv_kind i; uses_remaining := uses_remaining i - 1; inv_expires := inv_expires i;
     inv_auto_approve := inv_auto_approve i; inv_bound := inv_bound i; inv_note := inv_note i; inv_revoked := inv_revoked i |}.
Definition take_use (db : Db) (invite : Uuid) : Db := with_invites db (alter one_use_less invite (invites db)).
Definition auto_approved (i : Invite) : bool := inv_auto_approve i || bool_decide (inv_kind i = QuickPair).

Definition updated_claim (c : EnrollmentClaimRow) (name : string) (input : AgentEnrollmentClaimInput) (invite : option Uuid) : EnrollmentClaimRow :=
  {| cl_invite := match invite with Some i => Some i | None => cl_invite c end; cl_status := cl_status c; cl_name := name;
     cl_hostname := in_hostname input; cl_os := in_os input; cl_version := in_version input; cl_install := cl_install c;
     cl_client_ip := in_client_ip input; cl_discovered := in_discovered input; cl_created := cl_created c; cl_approved_by := cl_approved_by c;
     cl_approved_at := cl_approved_at c; cl_rejected_by := cl_rejected_by c; cl_rejected_at := cl_rejected_at c; cl_agent := cl_agent c;
     cl_token_hash := cl_token_hash c; cl_error := cl_error c |}.
Definition new_claim (name : string) (input : AgentEnrollmentClaimInput) (digest : option string) (invite : option Uuid) (at_ : Z) : EnrollmentClaimRow :=
  {| cl_invite := invite; cl_status := StPending; cl_name := name; cl_hostname := in_hostname input; cl_os := in_os input;
     cl_version := in_version input; cl_install := digest; cl_client_ip := in_client_ip input; cl_discovered := in_discovered input;
     cl_created := at_; cl_approved_by := None; cl_approved_at := None; cl_rejected_by := None; cl_rejected_at := None; cl_agent := None;
     cl_token_hash := None; cl_error := None |}.
Definition pending_install (digest : string) (c : EnrollmentClaimRow) : bool :=
  bool_decide (cl_install c = Some digest) && bool_decide (cl_status c = StPending).

(** The claim's id and whether its code approves it at once. [fresh] is the id drawn for a new row,
    [started] the transaction's time, [now] the clock when the code is checked; [None]: the database
    refused the insert. *)
Definition create_agent_enrollment_claim (db : Db) (started now : Z) (fresh : Uuid) (input : AgentEnrollmentClaimInput)
    : Db * option (result (Uuid * bool) ClaimCreateReject) :=
  let digest := install_digest (in_install input) in
  let name := claim_name (in_name input) (in_hostname input) in
  let code := default ""%string (trim <$> pairing_code input) in
  let reject e := (db, Some (Err e)) in
  match (d ← digest; select (pending_install d) (claims db)) with
  | Some (claim_id, row) =>
      if String.eqb code "" then
        (with_claims db (<[claim_id := updated_claim row name input None]> (claims db)), Some (Ok (claim_id, false)))
      else
        match usable_invite db now code with
        | None => reject InvalidOrExpiredCode
        | Some (invite_id, i) =>
            if negb (isSome (inv_bound i)) && name_taken db name then reject AlreadyEnrolledName
            else
              let db := take_use db invite_id in
              (with_claims db (<[claim_id := updated_claim row name input (Some invite_id)]> (claims db)),
               Some (Ok (claim_id, auto_approved i)))
        end
  | None =>
      let add db invite auto :=
        if isSome (claims db !! fresh) then None
        else Some (with_claims db (<[fresh := new_claim name input digest invite started]> (claims db)), Some (Ok (fresh, auto))) in
      if String.eqb code "" then
        if name_taken db name then reject AlreadyEnrolledName else default (db, None) (add db None false)
      else
        match usable_invite db now code with
        | None => reject InvalidOrExpiredCode
        | Some (invite_id, i) =>
            if negb (isSome (inv_bound i)) && name_taken db name then reject AlreadyEnrolledName
            else default (db, None) (add (take_use db invite_id) (Some invite_id) (auto_approved i))
        end
  end.

Definition enrollment_claim_bound_agent_id (db : Db) (claim_id : Uuid) (now : Z) : option Uuid :=
  c ← claims db !! claim_id; i ← cl_invite c ≫= (invites db !!.);
  if bool_decide (cl_status c = StPending) && negb (isSome (inv_revoked i)) && is_none_or (inv_expires i) (fun e => now <? e)
  then inv_bound i else None.

Record LockedClaim := { lk_name : string; lk_bound : option Uuid }.
Definition lock_claim_for_approval (db : Db) (claim_id : Uuid) (expected : option Uuid) (now : Z) : result LockedClaim ClaimApproveReject :=
  let* c := ok_or (claims db !! claim_id) NotFound in
  let bound := (cl_invite c ≫= (invites db !!.)) ≫= inv_bound in
  ensure bool_decide (cl_status c = StPending) else NotPending in
  ensure bool_decide (bound = expected) else NotPending in
  ensure is_none_or (cl_invite c) (fun id => is_some_and (invites db !! id) (fun i =>
           negb (isSome (inv_revoked i) || past now (inv_expires i) || unbound_replacement i))) else NotPending in
  Ok {| lk_name := cl_name c; lk_bound := bound |}.

(** [fresh] is the id drawn for a new agent. *)
Definition issue_agent_credentials (db : Db) (bound : option Uuid) (final_name api_hash : string) (fresh : Uuid) (now : Z)
    : result (Db * (Uuid * string)) ClaimApproveReject :=
  match bound with
  | Some id =>
      let* r := ok_or (agent_rows db !! id) NotFound in
      Ok (with_rows db (<[id := {| ag_name := ag_name r; ag_hash := Some api_hash; ag_seen := now |}]> (agent_rows db)), (id, ag_name r))
  | None =>
      ensure negb (isSome (agent_rows db !! fresh) || name_taken db final_name) else AlreadyEnrolled in
      Ok (with_rows db (<[fresh := {| ag_name := final_name; ag_hash := Some api_hash; ag_seen := now |}]> (agent_rows db)), (fresh, final_name))
  end.
Definition approved_claim (by_ : string) (now : Z) (agent : Uuid) (api_hash : string) (c : EnrollmentClaimRow) : EnrollmentClaimRow :=
  {| cl_invite := cl_invite c; cl_status := StApproved; cl_name := cl_name c; cl_hostname := cl_hostname c; cl_os := cl_os c;
     cl_version := cl_version c; cl_install := cl_install c; cl_client_ip := cl_client_ip c; cl_discovered := cl_discovered c;
     cl_created := cl_created c; cl_approved_by := Some by_; cl_approved_at := Some now; cl_rejected_by := cl_rejected_by c;
     cl_rejected_at := cl_rejected_at c; cl_agent := Some agent; cl_token_hash := Some api_hash; cl_error := None |}.
(** [None]: the group is gone. *)
Definition mark_claim_approved (db : Db) (claim_id : Uuid) (by_ : string) (agent : Uuid) (group_id : option Uuid) (api_hash : string) (now : Z) : option Db :=
  let done db := with_claims db (alter (approved_claim by_ now agent api_hash) claim_id (claims db)) in
  match group_id with
  | Some g => if bool_decide (g ∈ groups db) then Some (done (with_members db ({[ (g, agent) ]} ∪ group_members db))) else None
  | None => Some (done db)
  end.
Definition rejected_claim (by_ : string) (now : Z) (error : option string) (c : EnrollmentClaimRow) : EnrollmentClaimRow :=
  {| cl_invite := cl_invite c; cl_status := StRejected; cl_name := cl_name c; cl_hostname := cl_hostname c; cl_os := cl_os c;
     cl_version := cl_version c; cl_install := cl_install c; cl_client_ip := cl_client_ip c; cl_discovered := cl_discovered c;
     cl_created := cl_created c; cl_approved_by := cl_approved_by c; cl_approved_at := cl_approved_at c; cl_rejected_by := Some by_;
     cl_rejected_at := Some now; cl_agent := cl_agent c; cl_token_hash := cl_token_hash c;
     cl_error := Some (default "Rejected by admin"%string error) |}.
Definition reject_agent_enrollment_claim (db : Db) (claim_id : Uuid) (by_ : string) (error : option string) (now : Z) : Db * bool :=
  match claims db !! claim_id with
  | Some c => if bool_decide (cl_status c = StPending)
              then (with_claims db (<[claim_id := rejected_claim by_ now error c]> (claims db)), true) else (db, false)
  | None => (db, false)
  end.

(** ** Approval: [service.rs] *)

(** "URL_SAFE_NO_PAD" of the bytes drawn, and the password hash of a text under the salt drawn
    ([None] when it fails) with its check. *)
Variable base64_url : list Z -> string.
Variable hash_dashboard_password : string -> string -> option string.
Variable verify_dashboard_password : string -> string -> bool.

Definition new_agent_token_plain (raw : list Z) : string := base64_url raw.
Definition final_agent_name (override_name : option string) (requested_name : string) : string :=
  chars_take 128 (default requested_name (ofilter (fun s => negb (String.eqb s "")) (trim <$> override_name))).
(** What an approval draws and reads: the token's bytes, the salt, the id of a new agent, and the clock
    of the code check and of the transaction. *)
Record Approval := { ap_raw : list Z; ap_salt : string; ap_id : Uuid; ap_now : Z; ap_started : Z }.
(** The outer [None] is an error that leaves the transaction undone. *)
Definition approve_claim_with_binding (db : Db) (claim_id : Uuid) (by_ : string) (agent_name : option string) (group_id : option Uuid)
    (expected : option Uuid) (a : Approval) : Db * option (result (Uuid * string * string) ClaimApproveReject) :=
  match lock_claim_for_approval db claim_id expected (ap_now a) with
  | Err e => (db, Some (Err e))
  | Ok locked =>
      let token := new_agent_token_plain (ap_raw a) in
      match hash_dashboard_password (ap_salt a) token with
      | None => (db, None)
      | Some hash =>
          match issue_agent_credentials db (lk_bound locked) (final_agent_name agent_name (lk_name locked)) hash (ap_id a) (ap_started a) with
          | Err e => (db, Some (Err e))
          | Ok (db', (agent, name)) =>
              match mark_claim_approved db' claim_id by_ agent group_id hash (ap_started a) with
              | None => (db, None)
              | Some db' => (db', Some (Ok (agent, token, name)))
              end
          end
      end
  end.

(** ** The server: database, shared state and unretrieved tokens *)

Record PendingEnrollmentToken := { pt_agent : Uuid; pt_name : string; pt_token : string }.
Record Enrollment := { en_db : Db; en_app : AppState; en_tokens : gmap Uuid PendingEnrollmentToken }.
Definition set_db (e : Enrollment) (db : Db) : Enrollment := {| en_db := db; en_app := en_app e; en_tokens := en_tokens e |}.
Definition set_app (e : Enrollment) (st : AppState) : Enrollment := {| en_db := en_db e; en_app := st; en_tokens := en_tokens e |}.
Definition set_tokens (e : Enrollment) (t : gmap Uuid PendingEnrollmentToken) : Enrollment := {| en_db := en_db e; en_app := en_app e; en_tokens := t |}.
Definition forget_tokens (e : Enrollment) (ids : list Uuid) : Enrollment :=
  set_tokens e (filter (fun kt => kt.2.(pt_agent) ∉ ids) (en_tokens e)).
Definition publish_token (e : Enrollment) (claim_id : Uuid) (t : PendingEnrollmentToken) : Enrollment :=
  set_tokens e (<[claim_id := t]> (en_tokens e)).

(** [approve_agent_enrollment_claim] ([enrollment/mod.rs]) from the moment it holds the device's gate:
    [bound] is what it read before waiting for it. *)
Definition approve_under_gate (e : Enrollment) (bound : option Uuid) (claim_id : Uuid) (by_ : string) (agent_name : option string)
    (group_id : option Uuid) (now : Z) (a : Approval) : Enrollment * option (result (Uuid * string * string) ClaimApproveReject) :=
  let approve e :=
    let '(db, out) := approve_claim_with_binding (en_db e) claim_id by_ agent_name group_id bound a in (set_db e db, out) in
  match bound with
  | Some id =>
      if bool_decide (enrollment_claim_bound_agent_id (en_db e) claim_id now = Some id)
      then approve (set_app e (invalidate_agent_connection time_json (en_app e) id "agent_credentials_revoked" now))
      else (e, Some (Err NotPending))
  | None => approve e
  end.
Definition issued_token (out : option (result (Uuid * string * string) ClaimApproveReject)) : option PendingEnrollmentToken :=
  match out with
  | Some (Ok (agent, token, name)) => Some {| pt_agent := agent; pt_name := name; pt_token := token |}
  | _ => None
  end.
Definition approve_agent_enrollment_claim (e : Enrollment) (claim_id : Uuid) (by_ : string) (agent_name : option string)
    (group_id : option Uuid) (now now' : Z) (a : Approval) : Enrollment * option (result (Uuid * string * string) ClaimApproveReject) :=
  let bound := enrollment_claim_bound_agent_id (en_db e) claim_id now in
  let '(e, out) := approve_under_gate e bound claim_id by_ agent_name group_id now' a in
  (match issued_token out with Some t => publish_token e claim_id t | None => e end, out).

(** ** The endpoints agents call: [public_http.rs] *)

(** A status code and a body. *)
Abbreviation Response := (Z * json)%type (only parsing).
Definition error_body (msg : string) : json := mk_obj [("error", JStr msg)]%string.
Record ClaimDraws := { cd_started : Z; cd_now : Z; cd_id : Uuid; cd_bound : Z; cd_gate : Z; cd_approval : Approval }.
Definition claim_body (claim_id : Uuid) (status : string) (poll_after_secs : Z) : json :=
  mk_obj [("claim_id", uuid_json claim_id); ("status", JStr status); ("poll_after_secs", JInt poll_after_secs)]%string.
Definition create_enrollment_claim (e : Enrollment) (input : AgentEnrollmentClaimInput) (d : ClaimDraws) : Enrollment * Response :=
  if String.eqb (trim (in_name input)) "" || String.eqb (trim (in_install input)) ""
  then (e, (400, error_body "requested_name and install_id required"))
  else
    let '(db, out) := create_agent_enrollment_claim (en_db e) (cd_started d) (cd_now d) (cd_id d) input in
    let e := set_db e db in
    match out with
    | None => (e, (500, error_body "could not create enrollment claim"))
    | Some (Err InvalidOrExpiredCode) => (e, (401, error_body "invalid or expired pairing code"))
    | Some (Err AlreadyEnrolledName) => (e, (409, error_body "an enrolled agent already uses that name"))
    | Some (Ok (claim_id, true)) =>
        let '(e, out) := approve_agent_enrollment_claim e claim_id "pairing_code" None None (cd_bound d) (cd_gate d) (cd_approval d) in
        match out with
        | Some (Ok _) => (e, (200, claim_body claim_id "approved" 1))
        | Some (Err AlreadyEnrolled) => (e, (409, error_body "an enrolled agent already uses that name"))
        | _ => (e, (500, error_body "could not auto-approve enrollment claim"))
        end
    | Some (Ok (claim_id, false)) =>
        let status := default ""%string ((fun c => claim_status_str (cl_status c)) <$> claims db !! claim_id) in
        (e, (200, claim_body claim_id status 2))
    end.
Definition RETRIEVED : string := "credential was already retrieved; start a new pairing if this device did not save it".
Definition poll_enrollment_claim (e : Enrollment) (claim_id : Uuid) : Enrollment * Response :=
  match claims (en_db e) !! claim_id with
  | None => (e, (404, error_body "claim not found"))
  | Some c =>
      match cl_status c with
      | StPending => (e, (200, mk_obj [("status", JStr "pending"); ("poll_after_secs", JInt 2)]%string))
      | StApproved =>
          match en_tokens e !! claim_id with
          | Some t =>
              (set_tokens e (delete claim_id (en_tokens e)),
               (200, mk_obj [("status", JStr "approved"); ("agent_id", uuid_json (pt_agent t)); ("agent_name", JStr (pt_name t));
                             ("agent_token", JStr (pt_token t))]%string))
          | None =>
              (e, (200, mk_obj [("status", JStr "approved"); ("agent_id", opt_json uuid_json (cl_agent c));
                                ("agent_name", JStr (cl_name c)); ("error", JStr RETRIEVED)]%string))
          end
      | StRejected | StExpired =>
          (e, (200, mk_obj [("status", JStr (claim_status_str (cl_status c)));
                            ("error", JStr (default "Rejected by admin"%string (cl_error c)))]%string))
      end
  end.

(** ** The admin's endpoints: [api.rs], [lifecycle.rs] *)

Definition hours (n : Z) : Z := n * 3600000000.
(** The uses and the expiry of a new code ([None]: refused). *)
Definition token_terms (uses : Z) (expires_in_hours : option Z) (now : Z) : option (Z * option Z) :=
  match expires_in_hours with
  | Some h => if 0 <? h then Some (clampZ 1 100000 uses, Some (now + hours h)) else None
  | None => Some (clampZ 1 100000 uses, Some (now + minutes 10))
  end.
Definition token_note (note : option string) : option string := ofilter (fun s => negb (String.eqb s "")) (trim <$> note).
Definition forbidden : Response := (403, error_body "admin only").

Definition replace_agent_installation (e : Enrollment) (admin : bool) (agent : Uuid) (at_ : Z) (draws : list Draw) : Enrollment * Response :=
  if negb admin then (e, forbidden)
  else
    let e := set_app e (invalidate_agent_connection time_json (en_app e) agent "agent_credentials_revoked" at_) in
    match create_agent_replacement_token (en_db e) agent draws with
    | None => (e, (500, error_body "could not allocate a unique replacement code"))
    | Some (_, None) => (e, (404, error_body "agent not found"))
    | Some (db, Some (id, plaintext, expires_at)) =>
        (forget_tokens (set_db e db) [agent],
         (200, mk_obj [("id", uuid_json id); ("enrollment_token", JStr plaintext); ("uses", JInt 1); ("expires_at", time_json expires_at);
                       ("bound_agent_id", uuid_json agent)]%string))
    end.
Definition create_enrollment_token (e : Enrollment) (admin : bool) (uses : Z) (expires_in_hours : option Z) (note : option string)
    (bound_agent_id : option Uuid) (now : Z) (draws : list Draw) : Enrollment * Response :=
  if negb admin then (e, forbidden)
  else
    match bound_agent_id with
    | Some id => replace_agent_installation e admin id now draws
    | None =>
        match token_terms uses expires_in_hours now with
        | None => (e, (400, error_body "expires_in_hours must be positive"))
        | Some (uses, expires_at) =>
            match create_agent_enrollment_token (en_db e) uses expires_at (token_note note) draws with
            | None => (e, (500, error_body "could not create token"))
            | Some (db, (id, plaintext)) =>
                (set_db e db,
                 (200, mk_obj [("id", uuid_json id); ("enrollment_token", JStr plaintext); ("uses", JInt uses);
                               ("expires_at", opt_json time_json expires_at); ("note", opt_json JStr note)]%string))
            end
        end
    end.
Definition approve_enrollment_claim (e : Enrollment) (admin : bool) (user : string) (claim_id : Uuid) (agent_name : option string)
    (group_id : option Uuid) (now now' : Z) (a : Approval) : Enrollment * Response :=
  if negb admin then (e, forbidden)
  else
    let '(e, out) := approve_agent_enrollment_claim e claim_id user agent_name group_id now now' a in
    match out with
    | None => (e, (500, error_body "could not approve claim"))
    | Some (Err NotFound) => (e, (404, error_body "claim not found"))
    | Some (Err NotPending) => (e, (409, error_body "claim is not pending"))
    | Some (Err AlreadyEnrolled) => (e, (409, error_body "an enrolled agent already uses that name"))
    | Some (Ok (agent, _, _)) => (e, (200, mk_obj [("ok", JBool true); ("agent_id", uuid_json agent)]%string))
    end.
Definition reject_enrollment_claim (e : Enrollment) (admin : bool) (user : string) (claim_id : Uuid) (error : option string) (now : Z)
    : Enrollment * Response :=
  if negb admin then (e, forbidden)
  else
    let '(db, rejected) := reject_agent_enrollment_claim (en_db e) claim_id user error now in
    (set_db e db, if rejected then (200, mk_obj [("ok", JBool true)]%string) else (409, error_body "claim is not pending")).
Definition revoke_agent_credentials_handler (e : Enrollment) (admin : bool) (agent : Uuid) (now : Z) : Enrollment * Response :=
  if negb admin then (e, forbidden)
  else
    let e := set_app e (invalidate_agent_connection time_json (en_app e) agent "agent_credentials_revoked" now) in
    let e := set_db e (revoke_agent_credentials (en_db e) agent now) in
    (forget_tokens e [agent], (200, mk_obj [("ok", JBool true)]%string)).

(** ON DELETE SET NULL. *)
Definition unbind (ids : list Uuid) (i : Invite) : Invite :=
  {| inv_digest := inv_digest i; inv_kind := inv_kind i; uses_remaining := uses_remaining i; inv_expires := inv_expires i;
     inv_auto_approve := inv_auto_approve i; inv_bound := ofilter (fun a => negb (bool_decide (a ∈ ids))) (inv_bound i);
     inv_note := inv_note i; inv_revoked := inv_revoked i |}.
Definition forget_agent (ids : list Uuid) (c : EnrollmentClaimRow) : EnrollmentClaimRow :=
  {| cl_invite := cl_invite c; cl_status := cl_status c; cl_name := cl_name c; cl_hostname := cl_hostname c; cl_os := cl_os c;
     cl_version := cl_version c; cl_install := cl_install c; cl_client_ip := cl_client_ip c; cl_discovered := cl_discovered c;
     cl_created := cl_created c; cl_approved_by := cl_approved_by c; cl_approved_at := cl_approved_at c; cl_rejected_by := cl_rejected_by c;
     cl_rejected_at := cl_rejected_at c; cl_agent := ofilter (fun a => negb (bool_decide (a ∈ ids))) (cl_agent c);
     cl_token_hash := cl_token_hash c; cl_error := cl_error c |}.
Definition delete_agents_by_ids (db : Db) (ids : list Uuid) : Db * Z :=
  let gone := filter (fun kr => kr.1 ∈ ids) (agent_rows db) in
  ({| invites := unbind ids <$> invites db; claims := forget_agent ids <$> claims db;
      agent_rows := filter (fun kr => kr.1 ∉ ids) (agent_rows db); groups := groups db;
      group_members := filter (fun ga => ga.2 ∉ ids) (group_members db) |}, Z.of_nat (size gone)).
Definition agent_removed (st : AppState) (agent : Uuid) : AppState :=
  broadcast (drop_frame (with_agents st (clear_live (agents st) agent)) agent)
    (BText (mk_obj [("event", JStr "agent_removed"); ("agent_id", uuid_json agent)]%string)).
(** [sort_unstable] and [dedup]. *)
Definition gate_order (ids : list Uuid) : list Uuid := merge_sort N.le (remove_dups ids).
Definition delete_agents_bulk (e : Enrollment) (admin : bool) (ids : list Uuid) (now : Z) : Enrollment * Response :=
  if negb admin then (e, forbidden)
  else if Nat.eqb (length ids) 0 then (e, (400, error_body "agent_ids must be non-empty"))
  else if (128 <? length ids)%nat then (e, (400, error_body "at most 128 agents per request"))
  else
    let e := set_app e (foldl (fun st id => invalidate_agent_connection time_json st id "agent_deleted" now) (en_app e) (gate_order ids)) in
    let e := set_db e (foldl (fun db id => revoke_agent_credentials db id now) (en_db e) ids) in
    let e := forget_tokens e ids in
    let '(db, n) := delete_agents_by_ids (en_db e) ids in
    let e := set_app (set_db e db) (foldl agent_removed (en_app e) ids) in
    (e, (200, mk_obj [("ok", JBool true); ("deleted", JInt n)]%string)).

(** ** Signing in: [agent_ws/connection.rs], [agents/db.rs] *)

Definition get_agent_auth_by_name (db : Db) (name : string) : option (Uuid * option string) :=
  (fun r => (r.1, ag_hash r.2)) <$> select (fun r => String.eqb (ag_name r) name) (agent_rows db).
Definition authenticate_agent (db : Db) (name provided : string) : option (Uuid * string) :=
  if String.eqb provided "" then None
  else match get_agent_auth_by_name db name with
       | Some (id, Some hash) => if verify_dashboard_password hash provided then Some (id, hash) else None
       | _ => None
       end.
(** [session] is the id of the session row inserted. *)
Definition register_authenticated_agent (db : Db) (agent : Uuid) (hash : string) (session now : Z) : Db * option Z :=
  match agent_rows db !! agent with
  | Some r => if bool_decide (ag_hash r = Some hash)
              then (with_rows db (<[agent := {| ag_name := ag_name r; ag_hash := ag_hash r; ag_seen := now |}]> (agent_rows db)), Some session)
              else (db, None)
  | None => (db, None)
  end.
End enrollment.

(** ** Runs *)

(** One transaction or one change of the shared state, in any order the server interleaves them. *)
Inductive EnrollOp : Type :=
| OCode (uses : Z) (expires_at : option Z) (note : option string) (draws : list Draw)
| OReplace (agent : Uuid) (draws : list Draw)
| OClaim (started now : Z) (fresh : Uuid) (input : AgentEnrollmentClaimInput)
| OApprove (bound : option Uuid) (claim_id : Uuid) (by_ : string) (agent_name : option string) (group_id : option Uuid) (now : Z) (a : Approval)
| OPublish (claim_id : Uuid)
| OReject (claim_id : Uuid) (by_ : string) (error : option string) (now : Z)
| ORevokeCode (id : Uuid) (now : Z)
| ORevokeAll (now : Z)
| ORevoke (agent : Uuid) (now : Z)
| OForget (ids : list Uuid)
| ODelete (ids : list Uuid)
| OPoll (claim_id : Uuid)
| ORegister (agent : Uuid) (hash : string) (session now : Z).

(** The server, the tokens of approvals that committed but are not published yet, and history: the
    tokens polls returned, and the uses each code was created with. *)
Record Run := {
  r_e : Enrollment; r_issued : gmap Uuid PendingEnrollmentToken; r_delivered : list (Uuid * PendingEnrollmentToken); r_granted : gmap Uuid Z
}.
Definition Run_new : Run :=
  {| r_e := {| en_db := Db_empty; en_app := AppState_new; en_tokens := ∅ |}; r_issued := ∅; r_delivered := []; r_granted := ∅ |}.
Definition r_db (r : Run) : Db := en_db (r_e r).
Definition with_e (r : Run) (e : Enrollment) : Run :=
  {| r_e := e; r_issued := r_issued r; r_delivered := r_delivered r; r_granted := r_granted r |}.
Definition with_db (r : Run) (db : Db) : Run := with_e r (set_db (r_e r) db).
Definition grant_uses (r : Run) (id : Uuid) (n : Z) : Run :=
  {| r_e := r_e r; r_issued := r_issued r; r_delivered := r_delivered r; r_granted := <[id := n]> (r_granted r) |}.
Definition deliverable (e : Enrollment) (claim_id : Uuid) : option PendingEnrollmentToken :=
  c ← claims (en_db e) !! claim_id; if bool_decide (cl_status c = StApproved) then en_tokens e !! claim_id else None.

Section runs.
Context `{UuidText, JsonText}.
Variable time_json : Z -> json.
Variable sha256_hex : string -> string.
Variable base64_url : list Z -> string.
Variable hash_dashboard_password : string -> string -> option string.
Variable verify_dashboard_password : string -> string -> bool.

Definition enroll_step (r : Run) (o : EnrollOp) : Run :=
  match o with
  | OCode uses expires_at note draws =>
      match create_agent_enrollment_token sha256_hex (r_db r) uses expires_at note draws with
      | Some (db, (id, _)) => grant_uses (with_db r db) id (Z.max uses 1)
      | None => r
      end
  | OReplace agent draws =>
      match create_agent_replacement_token sha256_hex (r_db r) agent draws with
      | Some (db, Some (id, _, _)) => grant_uses (with_db r db) id 1
      | _ => r
      end
  | OClaim started now fresh input => with_db r (create_agent_enrollment_claim sha256_hex (r_db r) started now fresh input).1
  | OApprove bound claim_id by_ agent_name group_id now a =>
      let '(e, out) := approve_under_gate time_json base64_url hash_dashboard_password (r_e r) bound claim_id by_ agent_name group_id now a in
      {| r_e := e; r_issued := match issued_token out with Some t => <[claim_id := t]> (r_issued r) | None => r_issued r end;
         r_delivered := r_delivered r; r_granted := r_granted r |}
  | OPublish claim_id =>
      match r_issued r !! claim_id with
      | Some t => {| r_e := publish_token (r_e r) claim_id t; r_issued := delete claim_id (r_issued r); r_delivered := r_delivered r;
                     r_granted := r_granted r |}
      | None => r
      end
  | OReject claim_id by_ error now => with_db r (reject_agent_enrollment_claim (r_db r) claim_id by_ error now).1
  | ORevokeCode id now => with_db r (revoke_agent_enrollment_token (r_db r) id now)
  | ORevokeAll now => with_db r (revoke_all_agent_enrollment_tokens (r_db r) now)
  | ORevoke agent now => with_db r (revoke_agent_credentials (r_db r) agent now)
  | OForget ids => with_e r (forget_tokens (r_e r) ids)
  | ODelete ids => with_db r (delete_agents_by_ids (r_db r) ids).1
  | OPoll claim_id =>
      {| r_e := (poll_enrollment_claim (r_e r) claim_id).1; r_issued := r_issued r;
         r_delivered := r_delivered r ++ option_list ((fun t => (claim_id, t)) <$> deliverable (r_e r) claim_id); r_granted := r_granted r |}
  | ORegister agent hash session now => with_db r (register_authenticated_agent (r_db r) agent hash session now).1
  end.
Definition enroll_run (r : Run) (ops : list EnrollOp) : Run := foldl enroll_step r ops.

(** The claims that hold a use of an invite. *)
Definition claims_of (db : Db) (id : Uuid) : Z := Z.of_nat (size (filter (fun kc => cl_invite kc.2 = Some id) (claims db))).
Definition unique_digests (db : Db) : Prop :=
  forall i j a b, invites db !! i = Some a -> invites db !! j = Some b -> inv_digest a = inv_digest b -> i = j.
Definition unique_names (db : Db) : Prop :=
  forall i j a b, agent_rows db !! i = Some a -> agent_rows db !! j = Some b -> ag_name a = ag_name b -> i = j.

Lemma select_Some {A} (f : A -> bool) m i a : select f m = Some (i, a) -> m !! i = Some a /\ f a = true.
Proof. unfold select. intros [Hin Hf]%List.find_some. apply list_elem_of_In, elem_of_map_to_list in Hin. done. Qed.
Lemma select_None {A} (f : A -> bool) m i a : select f m = None -> m !! i = Some a -> f a = false.
Proof. unfold select. intros Hn Hm. apply (List.find_none _ _ Hn (i, a)). by apply list_elem_of_In, elem_of_map_to_list. Qed.
Lemma select_unique {A} (f : A -> bool) m i a : m !! i = Some a -> f a = true -> (forall j b, m !! j = Some b -> f b = true -> j = i) -> select f m = Some (i, a).
Proof.
  intros Hi Hf Hu. destruct (select f m) as [[j b]|] eqn:E; [|by rewrite (select_None _ _ _ _ E Hi) in Hf].
  apply select_Some in E as [Hj Hfb]. pose proof (Hu _ _ Hj Hfb). subst. congruence.
Qed.
Lemma insert_invite_Some db id i db' : insert_invite db id i = Some db' ->
  db' = with_invites db (<[id := i]> (invites db)) /\ invites db !! id = None /\ forall j b, invites db !! j = Some b -> inv_digest b <> inv_digest i.
Proof.
  unfold insert_invite. destruct (invites db !! id) eqn:E; [done|]. cbn [isSome orb]. destruct (select _ _) as [p|] eqn:Es; [done|].
  intros [= <-]. split_and!; [done..|]. intros j b Hj Heq. pose proof (select_None _ _ _ _ Es Hj) as Hf. cbn in Hf. apply String.eqb_neq in Hf. done.
Qed.
Lemma allocate_Some {R} fuel draws (attempt : Draw -> option R) x : allocate_code fuel draws attempt = Some x -> exists d, d ∈ draws /\ attempt d = Some x.
Proof.
  revert draws. induction fuel as [|fuel IH]; intros [|d draws]; cbn [allocate_code]; try done. destruct (attempt d) eqn:E.
  - intros [= ->]. exists d. split; [apply elem_of_cons; by left|done].
  - intros (d' & Hin & Hd)%IH. exists d'. split; [apply elem_of_cons; by right|done].
Qed.
Lemma revoke_where_lookup f now db i a : invites (revoke_where f now db) !! i = Some a ->
  exists b, invites db !! i = Some b /\ inv_digest a = inv_digest b /\ inv_bound a = inv_bound b /\ inv_kind a = inv_kind b
    /\ (a = b /\ f b = false \/ a = revoked now b /\ f b = true).
Proof.
  unfold revoke_where. cbn [invites with_invites]. rewrite lookup_fmap, fmap_Some. intros (b & Hb & ->). exists b. destruct (f b); split_and!; auto.
Qed.
Lemma create_token_Some db uses exp note draws db' id text : create_agent_enrollment_token sha256_hex db uses exp note draws = Some (db', (id, text)) ->
  exists d, d ∈ draws /\ id = d_id d /\ text = code_text (d_code d) /\
    insert_invite db id {| inv_digest := sha256_hex text; inv_kind := QuickPair; uses_remaining := Z.max uses 1; inv_expires := exp;
      inv_auto_approve := true; inv_bound := None; inv_note := note; inv_revoked := None |} = Some db'.
Proof.
  unfold create_agent_enrollment_token. intros (d & Hd & Ht)%allocate_Some. exists d. destruct (insert_invite _ _ _) as [db1|] eqn:E; [|done].
  cbn in Ht. injection Ht as <- <- <-. done.
Qed.
Lemma create_replacement_Some db agent draws db' id text exp :
  create_agent_replacement_token sha256_hex db agent draws = Some (db', Some (id, text, exp)) ->
  is_Some (agent_rows db !! agent) /\ exists d, d ∈ draws /\ id = d_id d /\ text = code_text (d_code d) /\ exp = d_now d + minutes 10 /\
    insert_invite (revoke_agent_credentials db agent (d_now d)) id {| inv_digest := sha256_hex text; inv_kind := ReEnroll; uses_remaining := 1;
      inv_expires := Some exp; inv_auto_approve := true; inv_bound := Some agent; inv_note := None; inv_revoked := None |} = Some db'.
Proof.
  unfold create_agent_replacement_token. destruct (agent_rows db !! agent) eqn:Ea; [|done]. cbn [isSome]. intros (d & Hd & Ht)%allocate_Some.
  split; [done|]. exists d. destruct (insert_invite _ _ _) as [db1|] eqn:E; [|done]. cbn in Ht. injection Ht as <- <- <- <-. done.
Qed.

(** ** What each operation does to the tables *)

Lemma usable_invite_Some db now code i inv : usable_invite sha256_hex db now code = Some (i, inv) ->
  invites db !! i = Some inv /\ inv_revoked inv = None /\ 0 < uses_remaining inv /\ past now (inv_expires inv) = false
  /\ unbound_replacement inv = false /\ exists digits, normalize_enrollment_code_for_lookup code = Some digits /\ inv_digest inv = sha256_hex digits.
Proof.
  unfold usable_invite. destruct (normalize_enrollment_code_for_lookup code) as [digits|]; [|done]. cbn [mbind option_bind].
  destruct (select _ _) as [[j b]|] eqn:E; [|done]. cbn [mbind option_bind snd]. apply select_Some in E as [Hj [Hd Hr]%andb_prop].
  destruct (_ || _) eqn:Hc; [done|]. intros [= <- <-]. bool_prop. apply String.eqb_eq in Hd. destruct (inv_revoked b); [done|]. split_and!; try done.
  by exists digits.
Qed.
Definition pending_or_new (db : Db) (k : Uuid) : Prop := forall c, claims db !! k = Some c -> cl_status c = StPending.
Lemma create_claim_cases db started now fresh input db' out : create_agent_enrollment_claim sha256_hex db started now fresh input = (db', out) ->
  db' = db \/ exists k c', pending_or_new db k /\ cl_status c' = StPending /\
    ((db' = with_claims db (<[k := c']> (claims db))
        /\ cl_invite c' = match claims db !! k with Some c => cl_invite c | None => None end)
     \/ exists i inv code, pairing_code input = Some code /\ usable_invite sha256_hex db now (trim code) = Some (i, inv) /\ cl_invite c' = Some i
        /\ db' = with_claims (take_use db i) (<[k := c']> (claims db))).
Proof.
  unfold create_agent_enrollment_claim. destruct (d ← _; _) as [[k row]|] eqn:Ed.
  - assert (claims db !! k = Some row /\ cl_status row = StPending) as [Hk Hs].
    { destruct (install_digest _ _) as [d|]; [|done]. apply select_Some in Ed as [Hk [_ Hs]%andb_prop]. by apply bool_decide_eq_true in Hs. }
    assert (pending_or_new db k) as Hp by (intros c Hc; congruence).
    destruct (String.eqb _ _) eqn:Ec.
    + intros [= <- <-]. right. eexists k, (updated_claim row _ input None). rewrite Hk. split_and!; [done..|by left].
    + destruct (pairing_code input) as [code|]; [|done]. cbn [default fmap option_fmap option_map] in *.
      destruct (usable_invite _ _ _ _) as [[i inv]|] eqn:Eu; [|by intros [= <- _]; left]. destruct (_ && _); [by intros [= <- _]; left|].
      intros [= <- <-]. right. eexists k, (updated_claim row _ input (Some i)). split_and!; [done..|right]. exists i, inv, code. by split_and!.
  - clear Ed. destruct (String.eqb _ _) eqn:Ec.
    + destruct (name_taken _ _); [by intros [= <- _]; left|]. destruct (claims db !! fresh) eqn:Ef; cbn [isSome default]; intros [= <- _]; [by left|].
      right. eexists fresh, (new_claim _ input _ None started). split_and!; [intros c Hc; congruence|done|left; by rewrite Ef].
    + destruct (pairing_code input) as [code|]; [|done]. cbn [default fmap option_fmap option_map] in *.
      destruct (usable_invite _ _ _ _) as [[i inv]|] eqn:Eu; [|by intros [= <- _]; left]. destruct (_ && _); [by intros [= <- _]; left|].
      cbn [claims take_use with_invites]. destruct (claims db !! fresh) eqn:Ef; cbn [isSome default]; intros [= <- _]; [by left|].
      right. eexists fresh, (new_claim _ input _ (Some i) started). split_and!; [intros c Hc; congruence|done|right]. exists i, inv, code. by split_and!.
Qed.

(** The claim of an approval: pending, its invite live, and bound as [expected]. *)
Definition approvable (db : Db) (claim_id : Uuid) (expected : option Uuid) (now : Z) (c : EnrollmentClaimRow) : Prop :=
  claims db !! claim_id = Some c /\ cl_status c = StPending /\
  match cl_invite c with
  | None => expected = None
  | Some i => exists inv, invites db !! i = Some inv /\ inv_revoked inv = None /\ past now (inv_expires inv) = false /\ inv_bound inv = expected
               /\ (inv_kind inv = ReEnroll -> is_Some expected)
  end.
Lemma lock_Ok db claim_id expected now l : lock_claim_for_approval db claim_id expected now = Ok l ->
  lk_bound l = expected /\ exists c, approvable db claim_id expected now c /\ lk_name l = cl_name c.
Proof.
  unfold lock_claim_for_approval, approvable. destruct (claims db !! claim_id) as [c|]; [|done]. cbn [ok_or rbind].
  case_bool_decide as Hs; [|done]. case_bool_decide as Hb; [|done]. destruct (is_none_or _ _) eqn:Hi; [|done]. intros [= <-]. cbn [lk_bound lk_name].
  split; [done|]. exists c. destruct (cl_invite c) as [i|]; cbn [mbind option_bind is_none_or] in *; [|by subst expected; split_and!].
  destruct (invites db !! i) as [inv|]; [|done]. cbn [is_some_and mbind option_bind] in *. bool_prop. subst expected.
  destruct (inv_revoked inv) eqn:Er; [done|]. split; [|done]. split; [done|]. split; [done|]. exists inv. split_and!; [done..|]. intros Hk.
  unfold unbound_replacement in *. destruct (inv_bound inv); [by eexists|]. by rewrite Hk in *.
Qed.
Definition issued_row (name h : string) (at_ : Z) : AgentRow := {| ag_name := name; ag_hash := Some h; ag_seen := at_ |}.
Lemma approve_cases db claim_id by_ agent_name group_id expected a db' out :
  approve_claim_with_binding base64_url hash_dashboard_password db claim_id by_ agent_name group_id expected a = (db', out) ->
  (db' = db /\ issued_token out = None) \/
  exists c h agent name, approvable db claim_id expected (ap_now a) c /\ hash_dashboard_password (ap_salt a) (base64_url (ap_raw a)) = Some h
    /\ out = Some (Ok (agent, base64_url (ap_raw a), name)) /\ invites db' = invites db
    /\ claims db' = <[claim_id := approved_claim by_ (ap_started a) agent h c]> (claims db)
    /\ agent_rows db' = <[agent := issued_row name h (ap_started a)]> (agent_rows db)
    /\ match expected with
       | Some b => agent = b /\ exists r, agent_rows db !! b = Some r /\ ag_name r = name
       | None => agent = ap_id a /\ agent_rows db !! agent = None /\ name_taken db name = false
                 /\ name = final_agent_name agent_name (cl_name c)
       end.
Proof.
  unfold approve_claim_with_binding. destruct (lock_claim_for_approval _ _ _ _) as [l|e] eqn:El; [|by intros [= <- <-]; left].
  apply lock_Ok in El as (Hb & c & Ha & Hn). destruct (hash_dashboard_password _ _) as [h|] eqn:Eh; [|by intros [= <- <-]; left].
  destruct (issue_agent_credentials _ _ _ _ _ _) as [[db1 [agent name]]|e] eqn:Ei; [|by intros [= <- <-]; left].
  destruct (mark_claim_approved _ _ _ _ _ _ _) as [db2|] eqn:Em; [|by intros [= <- <-]; left]. intros [= <- <-]. right.
  exists c, h, agent, name. rewrite Hb, Hn in Ei. clear Hb Hn.
  assert (claims db1 = claims db /\ invites db1 = invites db /\ agent_rows db1 = <[agent := issued_row name h (ap_started a)]> (agent_rows db)
    /\ match expected with
       | Some b => agent = b /\ exists r, agent_rows db !! b = Some r /\ ag_name r = name
       | None => agent = ap_id a /\ agent_rows db !! agent = None /\ name_taken db name = false /\ name = final_agent_name agent_name (cl_name c)
       end) as (Hc1 & Hi1 & Hr1 & Hx).
  { unfold issue_agent_credentials in Ei. destruct expected as [b|].
    - destruct (agent_rows db !! b) as [r|] eqn:Er; [|done]. cbn in Ei. injection Ei as <- <- <-. split_and!; try done. by exists r.
    - destruct (agent_rows db !! ap_id a) eqn:Er; [done|]. cbn [isSome orb] in Ei. destruct (name_taken _ _) eqn:En; [done|]. injection Ei as <- <- <-. done. }
  destruct Ha as (Hc & Hs & Hi).
  assert (claims db2 = <[claim_id := approved_claim by_ (ap_started a) agent h c]> (claims db) /\ invites db2 = invites db /\ agent_rows db2 = agent_rows db1)
    as (Hc2 & Hi2 & Hr2).
  { assert (alter (approved_claim by_ (ap_started a) agent h) claim_id (claims db1) = <[claim_id := approved_claim by_ (ap_started a) agent h c]> (claims db)) as Hal
      by (rewrite Hc1; (apply map_eq; intros k; destruct (decide (claim_id = k)) as [<-|Hne];
          [by rewrite lookup_alter_eq, lookup_insert_eq, Hc|by rewrite lookup_alter_ne, lookup_insert_ne])).
    unfold mark_claim_approved in Em. destruct group_id as [g|]; [destruct (bool_decide _); [|done]|]; injection Em as <-; cbn; by rewrite ?Hal, ?Hi1. }
  split_and!; try done. by rewrite Hr2.
Qed.

(** ** Invariants of the tables *)

(** [granted]: the uses each code was created with. *)
Record tables_ok (db : Db) (granted : gmap Uuid Z) : Prop := {
  to_digests : unique_digests db;
  to_names : unique_names db;
  to_uses : forall i inv, invites db !! i = Some inv ->
    0 <= uses_remaining inv /\ (is_Some (inv_revoked inv) -> uses_remaining inv = 0)
    /\ exists n, granted !! i = Some n /\ uses_remaining inv + claims_of db i <= n;
  to_claims : forall k c i, claims db !! k = Some c -> cl_invite c = Some i -> is_Some (invites db !! i)
}.

Definition holders (db : Db) (id : Uuid) : gset Uuid := dom (filter (fun kc => cl_invite kc.2 = Some id) (claims db)).
Lemma elem_of_holders db id k : k ∈ holders db id <-> exists c, claims db !! k = Some c /\ cl_invite c = Some id.
Proof.
  unfold holders. rewrite elem_of_dom. unfold is_Some. split.
  - intros [c [Hc Hi]%map_lookup_filter_Some]. by exists c.
  - intros (c & Hc & Hi). exists c. by apply map_lookup_filter_Some.
Qed.
Lemma claims_of_holders db id : claims_of db id = Z.of_nat (size (holders db id)).
Proof. unfold claims_of, holders. by rewrite size_dom. Qed.
Lemma claims_of_le db db' id : holders db' id ⊆ holders db id -> claims_of db' id <= claims_of db id.
Proof. intros Hs%subseteq_size. rewrite !claims_of_holders. lia. Qed.
Lemma claims_of_add db db' id k : holders db' id ⊆ {[ k ]} ∪ holders db id -> claims_of db' id <= claims_of db id + 1.
Proof.
  intros Hs%subseteq_size. rewrite !claims_of_holders. rewrite size_union_alt, size_singleton in Hs.
  pose proof (subseteq_size (holders db id ∖ {[k]}) (holders db id) ltac:(set_solver)). lia.
Qed.
Lemma claims_of_nonneg db id : 0 <= claims_of db id.
Proof. unfold claims_of. lia. Qed.
(** Claims that keep their invites. *)
Definition same_invites (db db' : Db) : Prop := forall k, cl_invite <$> claims db' !! k = cl_invite <$> claims db !! k.
Lemma holders_same db db' id : same_invites db db' -> holders db' id = holders db id.
Proof.
  intros Hs. apply set_eq. intros k. rewrite !elem_of_holders. specialize (Hs k).
  destruct (claims db' !! k) as [c'|], (claims db !! k) as [c|]; cbn in Hs; try done. injection Hs as Hs. split.
  - intros (x & [= <-] & Hi). exists c. by rewrite <- Hs.
  - intros (x & [= <-] & Hi). exists c'. by rewrite Hs.
Qed.
Lemma same_invites_refl db db' : claims db' = claims db -> same_invites db db'.
Proof. intros He k. by rewrite He. Qed.
Lemma same_invites_insert db db' k c c' : claims db !! k = Some c -> cl_invite c' = cl_invite c -> claims db' = <[k := c']> (claims db) -> same_invites db db'.
Proof.
  intros Hk Hi He j. rewrite He. destruct (decide (k = j)) as [<-|Hne]; [by rewrite lookup_insert_eq, Hk; cbn; rewrite Hi|by rewrite lookup_insert_ne].
Qed.

(** An invite that keeps its digest and whose uses only shrink. *)
Definition spent (a b : Invite) : Prop :=
  inv_digest b = inv_digest a /\ 0 <= uses_remaining b <= uses_remaining a /\ (is_Some (inv_revoked b) -> uses_remaining b = 0).
Definition rows_kept (db db' : Db) : Prop :=
  forall k r', agent_rows db' !! k = Some r' -> exists r, agent_rows db !! k = Some r /\ ag_name r' = ag_name r.
Lemma unique_names_kept db db' : unique_names db -> rows_kept db db' -> unique_names db'.
Proof. intros Hu Hk i j a b (a0 & Ha & En)%Hk (b0 & Hb & Em)%Hk Heq. eapply Hu; [exact Ha|exact Hb|congruence]. Qed.
Lemma rows_kept_refl db db' : agent_rows db' = agent_rows db -> rows_kept db db'.
Proof. intros He k r Hr. rewrite He in Hr. by exists r. Qed.

Lemma tables_ok_spent db db' granted : tables_ok db granted -> same_invites db db' -> unique_names db' ->
  (forall i, is_Some (invites db !! i) -> is_Some (invites db' !! i)) ->
  (forall i b, invites db' !! i = Some b -> exists a, invites db !! i = Some a /\ spent a b) -> tables_ok db' granted.
Proof.
  intros [Hd Hn Hu Hc] Hs Hn' Hdom Hi. split; [|done| |].
  - intros i j a b (a0 & Ha & Ea & _)%Hi (b0 & Hb & Eb & _)%Hi Heq. eapply Hd; [exact Ha|exact Hb|congruence].
  - intros i b (a & Ha & _ & Hub & Hr)%Hi. destruct (Hu _ _ Ha) as (_ & _ & n & Hg & Hle). split_and!; [lia|done|]. exists n. split; [done|].
    pose proof (claims_of_le db db' i) as Hcl. rewrite (holders_same _ _ _ Hs) in Hcl. specialize (Hcl ltac:(done)). lia.
  - intros k c i Hk He. apply Hdom. specialize (Hs k). rewrite Hk in Hs. destruct (claims db !! k) as [c0|] eqn:E; [|done]. injection Hs as Hs.
    apply (Hc k c0 i); [done|congruence].
Qed.
Lemma spent_refl db granted i a : tables_ok db granted -> invites db !! i = Some a -> spent a a.
Proof. intros Hok Hi. destruct (to_uses _ _ Hok _ _ Hi) as (Hp & Hr & _). split_and!; [done|lia..|done]. Qed.
Lemma spent_revoked a now : 0 <= uses_remaining a -> spent a (revoked now a).
Proof. intros Hp. split_and!; [done|by cbn; lia..|done]. Qed.

Lemma tables_ok_revoke db granted f now : tables_ok db granted -> tables_ok (revoke_where f now db) granted.
Proof.
  intros Hok. apply (tables_ok_spent db); [done|by apply same_invites_refl|apply (to_names _ _ Hok)| |].
  - intros i [a Ha]. unfold revoke_where. cbn. rewrite lookup_fmap, Ha. by eexists.
  - intros i b Hb. apply revoke_where_lookup in Hb as (a & Ha & _ & _ & _ & Hx). exists a. split; [done|].
    destruct Hx as [[-> _]|[-> _]]; [by eapply spent_refl|]. apply spent_revoked, (to_uses _ _ Hok _ _ Ha).
Qed.
Lemma tables_ok_rows db db' granted : tables_ok db granted -> invites db' = invites db -> claims db' = claims db -> unique_names db' -> tables_ok db' granted.
Proof.
  intros Hok Hi Hc Hn. apply (tables_ok_spent db); [done|by apply same_invites_refl|done|by intros i; rewrite Hi|].
  intros i b Hb. rewrite Hi in Hb. exists b. split; [done|]. by eapply spent_refl.
Qed.
Lemma tables_ok_claims db db' granted : tables_ok db granted -> invites db' = invites db -> same_invites db db' -> unique_names db' -> tables_ok db' granted.
Proof.
  intros Hok Hi Hc Hn. apply (tables_ok_spent db); [done..|by intros i; rewrite Hi|].
  intros i b Hb. rewrite Hi in Hb. exists b. split; [done|]. by eapply spent_refl.
Qed.
Lemma unclaimed_invite db granted id : tables_ok db granted -> invites db !! id = None -> claims_of db id = 0.
Proof.
  intros Hok Hi. rewrite claims_of_holders. assert (holders db id = ∅) as ->; [|by rewrite size_empty].
  apply set_eq. intros k. rewrite elem_of_holders. split; [|set_solver]. intros (c & Hc & He). destruct (to_claims _ _ Hok _ _ _ Hc He) as [inv Hinv]. congruence.
Qed.
Lemma tables_ok_insert db granted id inv db' n : tables_ok db granted -> insert_invite db id inv = Some db' -> uses_remaining inv = n -> 0 <= n ->
  inv_revoked inv = None -> tables_ok db' (<[id := n]> granted).
Proof.
  intros Hok (-> & Hid & Hdig)%insert_invite_Some Hn Hp Hr. split; cbn [invites claims agent_rows with_invites].
  - intros i j a b; cbn [invites with_invites]. destruct (decide (i = id)) as [->|Hi], (decide (j = id)) as [->|Hj]; rewrite ?lookup_insert_eq, ?lookup_insert_ne by done; [done| | |intros Ha Hb; exact (to_digests _ _ Hok i j a b Ha Hb)].
    + intros [= <-] Hb Heq. by destruct (Hdig _ _ Hb).
    + intros Ha [= <-] Heq. by destruct (Hdig _ _ Ha).
  - apply (to_names _ _ Hok).
  - intros i a. change (claims_of (with_invites db _) i) with (claims_of db i). destruct (decide (i = id)) as [->|Hi]; rewrite ?lookup_insert_eq, ?lookup_insert_ne by done.
    + intros [= <-]. rewrite Hr. split_and!; [lia|by intros [? ?]|]. exists n. split; [done|]. rewrite (unclaimed_invite _ _ _ Hok Hid). lia.
    + apply (to_uses _ _ Hok).
  - intros k c i Hk He. destruct (to_claims _ _ Hok _ _ _ Hk He) as [x Hx]. destruct (decide (i = id)) as [->|Hi]; rewrite ?lookup_insert_eq, ?lookup_insert_ne by done; by eexists.
Qed.
Lemma take_use_lookup db id i b : invites (take_use db id) !! i = Some b ->
  exists a, invites db !! i = Some a /\ (b = a /\ i <> id \/ b = one_use_less a /\ i = id).
Proof.
  cbn [take_use invites with_invites]. destruct (decide (id = i)) as [<-|Hne].
  - rewrite lookup_alter_eq, fmap_Some. intros (a & Ha & ->). exists a. by split; [|right].
  - rewrite lookup_alter_ne by done. intros Ha. exists b. by split; [|left].
Qed.
Lemma tables_ok_claim db granted started now fresh input db' out : tables_ok db granted ->
  create_agent_enrollment_claim sha256_hex db started now fresh input = (db', out) -> tables_ok db' granted.
Proof.
  intros Hok [->|(k & c' & Hp & _ & Hx)]%create_claim_cases; [done|]. destruct Hx as [[-> Hi]|(i & inv & code & _ & Hu & Hi & ->)].
  - destruct (claims db !! k) as [c|] eqn:Ek.
    + eapply tables_ok_claims; [exact Hok|done| |exact (to_names _ _ Hok)]. by eapply same_invites_insert.
    + destruct Hok as [Hd Hn Hu Hc]. split; [done|done| |].
      * intros i inv Hinv. destruct (Hu _ _ Hinv) as (H1 & H2 & n & Hg & Hle). split_and!; [done..|]. exists n. split; [done|].
        assert (claims_of (with_claims db (<[k:=c']> (claims db))) i <= claims_of db i); [|lia]. apply claims_of_le. intros j. rewrite !elem_of_holders.
        cbn [claims with_claims]. destruct (decide (k = j)) as [<-|Hne]; [rewrite lookup_insert_eq|by rewrite lookup_insert_ne by done].
        intros (c & [= <-] & He). congruence.
      * intros j c i Hj He. cbn [claims with_claims] in Hj. destruct (decide (k = j)) as [<-|Hne].
        -- rewrite lookup_insert_eq in Hj. injection Hj as <-. congruence.
        -- rewrite lookup_insert_ne in Hj by done. by eapply Hc.
  - apply usable_invite_Some in Hu as (Hinv & Hr & Hpos & _). destruct Hok as [Hd Hn Hu Hc].
    assert (forall j, holders (with_claims (take_use db i) (<[k:=c']> (claims db))) j ⊆ (if decide (j = i) then {[k]} else ∅) ∪ holders db j) as Hh.
    { intros j m. rewrite elem_of_union, !elem_of_holders. cbn [claims with_claims]. destruct (decide (k = m)) as [<-|Hne].
      - rewrite lookup_insert_eq. intros (c & [= <-] & He). left. destruct (decide (j = i)) as [->|]; [set_solver|congruence].
      - rewrite lookup_insert_ne by done. intros Hx. by right. }
    split; [|done| |].
    + intros a b x y (x0 & Hx & Ex)%take_use_lookup (y0 & Hy & Ey)%take_use_lookup Heq. eapply Hd; [exact Hx|exact Hy|].
      destruct Ex as [[-> _]|[-> _]], Ey as [[-> _]|[-> _]]; exact Heq.
    + intros j b (a & Ha & Hb)%take_use_lookup. destruct (Hu _ _ Ha) as (H1 & H2 & n & Hg & Hle). specialize (Hh j).
      destruct Hb as [[-> Hne]|[-> ->]].
      * rewrite decide_False in Hh by done. rewrite (left_id_L ∅ (∪)) in Hh. apply claims_of_le in Hh. split_and!; [done..|]. exists n. split; [done|lia].
      * rewrite decide_True in Hh by done. apply claims_of_add in Hh. rewrite Hinv in Ha. injection Ha as <-. cbn [one_use_less uses_remaining inv_revoked] in *.
        rewrite Hr in *. split_and!; [lia|by intros [? ?]|]. exists n. split; [done|lia].
    + intros m c j Hm He. cbn [claims with_claims] in Hm. assert (is_Some (invites db !! j)) as [x Hx].
      { destruct (decide (k = m)) as [<-|Hne]; [rewrite lookup_insert_eq in Hm; injection Hm as <-; rewrite Hi in He; injection He as <-; by eexists|].
        rewrite lookup_insert_ne in Hm by done. by eapply Hc. }
      cbn [invites with_claims take_use with_invites]. destruct (decide (i = j)) as [<-|Hne]; [rewrite lookup_alter_eq, Hx|rewrite lookup_alter_ne, Hx by done]; by eexists.
Qed.
Lemma name_taken_false db name k r : name_taken db name = false -> agent_rows db !! k = Some r -> ag_name r <> name.
Proof.
  unfold name_taken. destruct (select _ _) eqn:E; [done|]. intros _ Hk Heq. pose proof (select_None _ _ _ _ E Hk) as Hf. cbn in Hf. by apply String.eqb_neq in Hf.
Qed.
Lemma tables_ok_approve db granted claim_id by_ nm g expected a db' out : tables_ok db granted ->
  approve_claim_with_binding base64_url hash_dashboard_password db claim_id by_ nm g expected a = (db', out) -> tables_ok db' granted.
Proof.
  intros Hok [[-> _]|(c & h & agent & name & (Hc & _) & _ & _ & Hi & Hc' & Hr & Hx)]%approve_cases; [done|].
  eapply tables_ok_claims; [exact Hok|done|eapply same_invites_insert; [exact Hc| |exact Hc']; done|]. pose proof (to_names _ _ Hok) as Hn.
  intros i j x y. rewrite Hr. destruct (decide (agent = i)) as [<-|Hi'], (decide (agent = j)) as [<-|Hj]; rewrite ?lookup_insert_eq, ?lookup_insert_ne by done;
    [done| | |intros Ha Hb; exact (Hn _ _ _ _ Ha Hb)].
  all: destruct expected as [b|]; [destruct Hx as (-> & r & Hb & <-)|destruct Hx as (-> & Hnone & Ht & _)].
  - intros [= <-] Hy Heq. exact (Hn _ _ _ _ Hb Hy Heq).
  - intros [= <-] Hy Heq. by destruct (name_taken_false _ _ _ _ Ht Hy).
  - intros Hy [= <-] Heq. exact (Hn _ _ _ _ Hy Hb Heq).
  - intros Hy [= <-] Heq. by destruct (name_taken_false _ _ _ _ Ht Hy).
Qed.
Lemma approve_under_gate_db r bound claim_id by_ nm g now a e out :
  approve_under_gate time_json base64_url hash_dashboard_password r bound claim_id by_ nm g now a = (e, out) ->
  en_tokens e = en_tokens r /\ ((en_db e = en_db r /\ issued_token out = None)
    \/ approve_claim_with_binding base64_url hash_dashboard_password (en_db r) claim_id by_ nm g bound a = (en_db e, out)).
Proof.
  unfold approve_under_gate. destruct bound as [id|].
  - case_bool_decide; [|by intros [= <- <-]; split; [|left]]. cbn [en_db set_app]. destruct (approve_claim_with_binding _ _ _ _ _ _ _ _ _) as [db o].
    intros [= <- <-]. split; [done|by right].
  - destruct (approve_claim_with_binding _ _ _ _ _ _ _ _ _) as [db o]. intros [= <- <-]. split; [done|by right].
Qed.
Lemma poll_db e claim_id : en_db (poll_enrollment_claim e claim_id).1 = en_db e.
Proof. unfold poll_enrollment_claim. destruct (claims _ !! _) as [c|]; [|done]. destruct (cl_status c); [done| |done..]. by destruct (en_tokens e !! _). Qed.
Lemma revoke_code_spent db id i b now : invites (revoke_agent_enrollment_token db id now) !! i = Some b ->
  exists a, invites db !! i = Some a /\ (b = a \/ b = revoked now a).
Proof.
  cbn [revoke_agent_enrollment_token invites with_invites]. destruct (decide (id = i)) as [<-|Hne].
  - rewrite lookup_alter_eq, fmap_Some. intros (a & Ha & ->). exists a. by split; [|right].
  - rewrite lookup_alter_ne by done. intros Ha. exists b. by split; [|left].
Qed.
Lemma revoke_rows db agent now : rows_kept db (revoke_agent_credentials db agent now).
Proof.
  intros k r'. cbn [revoke_agent_credentials agent_rows with_rows revoke_where with_invites]. destruct (decide (agent = k)) as [<-|Hne].
  - rewrite lookup_alter_eq, fmap_Some. intros (r & Hr & ->). by exists r.
  - rewrite lookup_alter_ne by done. intros Hr. by exists r'.
Qed.
Lemma tables_ok_credentials db granted agent now : tables_ok db granted -> tables_ok (revoke_agent_credentials db agent now) granted.
Proof.
  intros Hok. pose proof (tables_ok_revoke _ _ (is_bound_to agent) now Hok) as H1. eapply tables_ok_rows; [exact H1|done..|].
  eapply unique_names_kept; [exact (to_names _ _ Hok)|apply revoke_rows].
Qed.

Lemma enroll_step_ok r o : tables_ok (r_db r) (r_granted r) -> tables_ok (r_db (enroll_step r o)) (r_granted (enroll_step r o)).
Proof.
  intros Hok. destruct o as [uses exp note draws|agent draws|started now fresh input|bound k by_ nm g now a|k|k by_ err now|id now|now|agent now|ids|ids|k|agent h s now]; cbn [enroll_step].
  - destruct (create_agent_enrollment_token _ _ _ _ _ _) as [[db [id text]]|] eqn:E; [|done]. apply create_token_Some in E as (d & _ & _ & _ & Hi).
    eapply tables_ok_insert; [exact Hok|exact Hi|done|lia|done].
  - destruct (create_agent_replacement_token _ _ _ _) as [[db [[[id text] exp]|]]|] eqn:E; [|done..]. apply create_replacement_Some in E as (_ & d & _ & _ & _ & _ & Hi).
    eapply tables_ok_insert; [by apply tables_ok_credentials|exact Hi|done..].
  - destruct (create_agent_enrollment_claim _ _ _ _ _ _) as [db out] eqn:E. eapply tables_ok_claim; [exact Hok|exact E].
  - destruct (approve_under_gate _ _ _ _ _ _ _ _ _ _ _) as [e out] eqn:E. apply approve_under_gate_db in E as [_ [[E _]|E]]; unfold r_db; cbn [r_e r_granted].
    + rewrite E. exact Hok.
    + eapply tables_ok_approve; [exact Hok|exact E].
  - by destruct (r_issued r !! k).
  - unfold reject_agent_enrollment_claim. destruct (claims (r_db r) !! k) as [c|] eqn:Ek; [|done]. case_bool_decide; [|done].
    eapply tables_ok_claims; [exact Hok|done|eapply same_invites_insert; [exact Ek| |reflexivity]; done|exact (to_names _ _ Hok)].
  - eapply tables_ok_spent; [exact Hok|by apply same_invites_refl|exact (to_names _ _ Hok)| |].
    + intros i [a Ha]. cbn. destruct (decide (id = i)) as [<-|Hne]; [rewrite lookup_alter_eq, Ha|rewrite lookup_alter_ne, Ha by done]; by eexists.
    + intros i b (a & Ha & Hb)%revoke_code_spent. exists a. split; [done|]. destruct Hb as [->| ->]; [by eapply spent_refl|].
      apply spent_revoked, (to_uses _ _ Hok _ _ Ha).
  - by apply tables_ok_revoke.
  - by apply tables_ok_credentials.
  - done.
  - eapply tables_ok_spent; [exact Hok| | | |].
    + intros j. cbn. rewrite lookup_fmap. by destruct (claims (r_db r) !! j).
    + eapply unique_names_kept; [exact (to_names _ _ Hok)|]. intros j x [Hx _]%map_lookup_filter_Some. by exists x.
    + intros i [a Ha]. cbn. rewrite lookup_fmap. rewrite Ha. by eexists.
    + intros i b. cbn. rewrite lookup_fmap, fmap_Some. intros (a & Ha & ->). exists a. split; [done|]. destruct (to_uses _ _ Hok _ _ Ha) as (Hp & Hr & _).
      split_and!; [done|cbn; lia..|done].
  - unfold r_db. cbn [r_e r_granted]. by rewrite poll_db.
  - unfold register_authenticated_agent. destruct (agent_rows (r_db r) !! agent) as [x|] eqn:Ex; [|done]. case_bool_decide; [|done].
    eapply tables_ok_rows; [exact Hok|done..|]. eapply unique_names_kept; [exact (to_names _ _ Hok)|]. intros j y. cbn. destruct (decide (agent = j)) as [<-|Hne].
    + rewrite lookup_insert_eq. intros [= <-]. by exists x.
    + rewrite lookup_insert_ne by done. by exists y.
Qed.
Lemma tables_ok_new : tables_ok Db_empty ∅.
Proof. by split. Qed.
Lemma enroll_run_ok ops r : tables_ok (r_db r) (r_granted r) -> tables_ok (r_db (enroll_run r ops)) (r_granted (enroll_run r ops)).
Proof. revert r. induction ops as [|o ops IH]; intros r Hok; [done|]. by apply IH, enroll_step_ok. Qed.

(** ** Claims and tokens *)

(** No claim leaves the approved state, and its stored hash stays. *)
Definition approvals_kept (db db' : Db) : Prop :=
  forall k c, claims db !! k = Some c -> cl_status c = StApproved ->
    exists c', claims db' !! k = Some c' /\ cl_status c' = StApproved /\ cl_token_hash c' = cl_token_hash c.
Lemma approvals_refl db db' : claims db' = claims db -> approvals_kept db db'.
Proof. intros He k c Hk Hs. exists c. by rewrite He. Qed.
Lemma approvals_insert db db' k c' : claims db' = <[k := c']> (claims db) -> pending_or_new db k -> approvals_kept db db'.
Proof.
  intros He Hp j c Hj Hs. assert (k <> j) as Hne by (intros <-; specialize (Hp _ Hj); congruence). exists c. by rewrite He, lookup_insert_ne.
Qed.
Lemma enroll_step_approvals r o : approvals_kept (r_db r) (r_db (enroll_step r o)).
Proof.
  destruct o as [uses exp note draws|agent draws|started now fresh input|bound k by_ nm g now a|k|k by_ err now|id now|now|agent now|ids|ids|k|agent h s now]; cbn [enroll_step].
  - destruct (create_agent_enrollment_token _ _ _ _ _ _) as [[db [id text]]|] eqn:E; [|by apply approvals_refl].
    apply create_token_Some in E as (d & _ & _ & _ & (-> & _)%insert_invite_Some). by apply approvals_refl.
  - destruct (create_agent_replacement_token _ _ _ _) as [[db [[[id text] exp]|]]|] eqn:E; [|by apply approvals_refl..].
    apply create_replacement_Some in E as (_ & d & _ & _ & _ & _ & (-> & _)%insert_invite_Some). by apply approvals_refl.
  - destruct (create_agent_enrollment_claim _ _ _ _ _ _) as [db out] eqn:E.
    apply create_claim_cases in E as [->|(k & c' & Hp & _ & [[-> _]|(i & inv & code & _ & _ & _ & ->)])]; [by apply approvals_refl|..]; by eapply approvals_insert.
  - destruct (approve_under_gate _ _ _ _ _ _ _ _ _ _ _) as [e out] eqn:E. unfold r_db. cbn [r_e].
    apply approve_under_gate_db in E as [_ [[E _]|E]]; [rewrite E; by apply approvals_refl|].
    apply approve_cases in E as [[-> _]|(c & h & agent & name & (Hc & Hs & _) & _ & _ & _ & Hc' & _)]; [by apply approvals_refl|].
    eapply approvals_insert; [exact Hc'|]. intros x Hx. congruence.
  - destruct (r_issued r !! k); by apply approvals_refl.
  - unfold reject_agent_enrollment_claim. destruct (claims (r_db r) !! k) as [c|] eqn:Ek; [|by apply approvals_refl]. case_bool_decide as Hs; [|by apply approvals_refl].
    eapply approvals_insert; [done|]. intros x Hx. congruence.
  - by apply approvals_refl.
  - by apply approvals_refl.
  - by apply approvals_refl.
  - by apply approvals_refl.
  - intros j c Hj Hs. exists (forget_agent ids c). cbn. by rewrite lookup_fmap, Hj.
  - unfold r_db. cbn [r_e]. rewrite poll_db. by apply approvals_refl.
  - unfold register_authenticated_agent. destruct (agent_rows (r_db r) !! agent) as [x|] eqn:Ex; [|by apply approvals_refl].
    case_bool_decide; by apply approvals_refl.
Qed.

(** A claim holds an invite only by presenting its code while the code is live. *)
Lemma enroll_step_invites r o k c' i : claims (r_db (enroll_step r o)) !! k = Some c' -> cl_invite c' = Some i ->
  (exists c, claims (r_db r) !! k = Some c /\ cl_invite c = Some i) \/
  exists started now fresh input inv code, o = OClaim started now fresh input /\ pairing_code input = Some code
    /\ usable_invite sha256_hex (r_db r) now (trim code) = Some (i, inv)
    /\ invites (r_db (enroll_step r o)) !! i = Some (one_use_less inv).
Proof.
  assert (forall db', same_invites (r_db r) db' -> claims db' !! k = Some c' -> cl_invite c' = Some i -> exists c, claims (r_db r) !! k = Some c /\ cl_invite c = Some i) as Hsame.
  { intros db' Hs Hk Hi. specialize (Hs k). rewrite Hk in Hs. destruct (claims (r_db r) !! k) as [c|]; [|done]. injection Hs as Hs. exists c. split; [done|congruence]. }
  destruct o as [uses exp note draws|agent draws|started now fresh input|bound cl by_ nm g now a|cl|cl by_ err now|id now|now|agent now|ids|ids|cl|agent h s now]; cbn [enroll_step].
  3: { destruct (create_agent_enrollment_claim _ _ _ _ _ _) as [db out] eqn:E.
    apply create_claim_cases in E as [->|(m & x & Hp & _ & [[-> Hx]|(j & inv & code & Hcode & Hu & Hx & ->)])]; cbn [fst r_db with_db with_e r_e set_db en_db claims invites with_claims].
    - intros Hk Hi. left. by exists c'.
    - intros Hk Hi. left. destruct (decide (m = k)) as [<-|Hne]; [|rewrite lookup_insert_ne in Hk by done; by exists c'].
      rewrite lookup_insert_eq in Hk. injection Hk as <-. destruct (claims (r_db r) !! m) as [c|] eqn:Em; [|congruence]. exists c. split; [done|congruence].
    - intros Hk Hi. destruct (decide (m = k)) as [<-|Hne]; [|rewrite lookup_insert_ne in Hk by done; left; by exists c'].
      rewrite lookup_insert_eq in Hk. injection Hk as <-. rewrite Hx in Hi. injection Hi as ->. right. exists started, now, fresh, input, inv, code.
      split_and!; [done..|]. apply usable_invite_Some in Hu as (Hinv & _). cbn. by rewrite lookup_alter_eq, Hinv. }
  all: intros Hk Hi; left; revert Hk Hi; apply Hsame.
  - destruct (create_agent_enrollment_token _ _ _ _ _ _) as [[db [id text]]|] eqn:E; [|by apply same_invites_refl].
    apply create_token_Some in E as (d & _ & _ & _ & (-> & _)%insert_invite_Some). by apply same_invites_refl.
  - destruct (create_agent_replacement_token _ _ _ _) as [[db [[[id text] exp]|]]|] eqn:E; [|by apply same_invites_refl..].
    apply create_replacement_Some in E as (_ & d & _ & _ & _ & _ & (-> & _)%insert_invite_Some). by apply same_invites_refl.
  - destruct (approve_under_gate _ _ _ _ _ _ _ _ _ _ _) as [e out] eqn:E. unfold r_db. cbn [r_e].
    apply approve_under_gate_db in E as [_ [[E _]|E]]; [rewrite E; by apply same_invites_refl|].
    apply approve_cases in E as [[-> _]|(c & h & agent & name & (Hc & Hs & _) & _ & _ & _ & Hc' & _)]; [by apply same_invites_refl|].
    eapply same_invites_insert; [exact Hc| |exact Hc']; done.
  - destruct (r_issued r !! cl); by apply same_invites_refl.
  - unfold reject_agent_enrollment_claim. destruct (claims (r_db r) !! cl) as [c|] eqn:Ek; [|by apply same_invites_refl]. case_bool_decide; [|by apply same_invites_refl].
    eapply same_invites_insert; [exact Ek| |reflexivity]; done.
  - by apply same_invites_refl.
  - by apply same_invites_refl.
  - by apply same_invites_refl.
  - by apply same_invites_refl.
  - intros j. cbn. rewrite lookup_fmap. by destruct (claims (r_db r) !! j).
  - unfold r_db. cbn [r_e]. rewrite poll_db. by apply same_invites_refl.
  - unfold register_authenticated_agent. destruct (agent_rows (r_db r) !! agent); [|by apply same_invites_refl]. case_bool_decide; by apply same_invites_refl.
Qed.

(** A pairing code is worth its uses: in any run of the server, whatever the interleaving of codes,
    claims, approvals, revocations and deletions, the uses a code has left are never negative, a
    revoked code has none, and together with the claims that hold the code they never exceed the
    uses it was created with; and a claim comes to hold a code only by presenting six digits that
    hash to it while it is unrevoked, unexpired and has a use left, which that takes. *)
Theorem pairing_uses_conserved ops o i inv :
  let r := enroll_run Run_new ops in
  let r' := enroll_step r o in
  invites (r_db r) !! i = Some inv ->
  (exists n, r_granted r !! i = Some n /\ 0 <= uses_remaining inv /\ uses_remaining inv + claims_of (r_db r) i <= n)
  /\ (is_Some (inv_revoked inv) -> uses_remaining inv = 0)
  /\ forall k c', claims (r_db r') !! k = Some c' -> cl_invite c' = Some i ->
       (exists c, claims (r_db r) !! k = Some c /\ cl_invite c = Some i) \/
       exists started now fresh input code digits, o = OClaim started now fresh input /\ pairing_code input = Some code
         /\ normalize_enrollment_code_for_lookup (trim code) = Some digits /\ inv_digest inv = sha256_hex digits /\ inv_revoked inv = None
         /\ 0 < uses_remaining inv /\ past now (inv_expires inv) = false /\ invites (r_db r') !! i = Some (one_use_less inv).
Proof.
  intros r r' Hinv. assert (tables_ok (r_db r) (r_granted r)) as Hok by (apply enroll_run_ok, tables_ok_new).
  destruct (to_uses _ _ Hok _ _ Hinv) as (Hp & Hr & n & Hg & Hle). split_and!; [by exists n|done|]. intros k c' Hk Hi.
  destruct (enroll_step_invites r o k c' i Hk Hi) as [Hc|(started & now & fresh & input & inv' & code & -> & Hcode & Hu & Hs)]; [by left|right].
  apply usable_invite_Some in Hu as (Hinv' & Hr' & Hpos & Hpast & _ & digits & Hd & Hdig). rewrite Hinv in Hinv'. injection Hinv' as <-.
  exists started, now, fresh, input, code, digits. by split_and!.
Qed.

(** ** One retrieval per approval *)

Definition token_at (r : Run) (k : Uuid) (t : PendingEnrollmentToken) : Prop :=
  en_tokens (r_e r) !! k = Some t \/ r_issued r !! k = Some t \/ (k, t) ∈ r_delivered r.
Record tokens_ok (r : Run) : Prop := {
  tk_row : forall k t, token_at r k t -> exists c h salt, claims (r_db r) !! k = Some c /\ cl_status c = StApproved /\ cl_token_hash c = Some h
             /\ hash_dashboard_password salt (pt_token t) = Some h;
  tk_once : NoDup (r_delivered r).*1;
  tk_issued : forall k, is_Some (r_issued r !! k) -> en_tokens (r_e r) !! k = None /\ k ∉ (r_delivered r).*1;
  tk_tokens : forall k, is_Some (en_tokens (r_e r) !! k) -> k ∉ (r_delivered r).*1
}.
(** The tokens a step leaves where they are, or drops. *)
Lemma tokens_ok_kept r r' : tokens_ok r -> approvals_kept (r_db r) (r_db r') -> en_tokens (r_e r') ⊆ en_tokens (r_e r) -> r_issued r' = r_issued r ->
  r_delivered r' = r_delivered r -> tokens_ok r'.
Proof.
  intros [Hr Ho Hi Ht] Ha Hs Ei Ed. split; rewrite ?Ei, ?Ed; [|done| |].
  - intros k t Hk. destruct (Hr k t) as (c & h & salt & Hc & Hst & Hh & Hx).
    { unfold token_at in *. rewrite Ei, Ed in Hk. destruct Hk as [Hk|[Hk|Hk]]; [left; by eapply lookup_weaken|by right; left|by right; right]. }
    destruct (Ha _ _ Hc Hst) as (c' & Hc' & Hs' & Hh'). exists c', h, salt. split_and!; [done..|congruence|done].
  - intros k Hk. destruct (Hi _ Hk) as [Hn Hd]. split; [by eapply lookup_weaken_None|done].
  - intros k [t Hk]. apply Ht. exists t. by eapply lookup_weaken.
Qed.
Lemma tokens_of_db r db : en_tokens (r_e (with_db r db)) = en_tokens (r_e r).
Proof. done. Qed.
Lemma deliverable_Some e k t : deliverable e k = Some t ->
  en_tokens e !! k = Some t /\ exists c, claims (en_db e) !! k = Some c /\ cl_status c = StApproved.
Proof.
  unfold deliverable. destruct (claims (en_db e) !! k) as [c|]; [|done]. cbn [mbind option_bind]. case_bool_decide; [|done]. intros Ht. split; [done|by exists c].
Qed.
Lemma poll_tokens e k : en_tokens (poll_enrollment_claim e k).1 = match deliverable e k with Some _ => delete k (en_tokens e) | None => en_tokens e end.
Proof.
  unfold poll_enrollment_claim, deliverable. destruct (claims (en_db e) !! k) as [c|]; [|done]. cbn [mbind option_bind].
  destruct (cl_status c); [done| |done..]. cbn. by destruct (en_tokens e !! k).
Qed.

Lemma enroll_step_tokens r o : tokens_ok r -> tokens_ok (enroll_step r o).
Proof.
  intros Hok. pose proof (enroll_step_approvals r o) as Ha.
  destruct o as [uses exp note draws|agent draws|started now fresh input|bound k by_ nm g now a|k|k by_ err now|id now|now|agent now|ids|ids|k|agent h s now].
  5: { cbn [enroll_step] in *. destruct (r_issued r !! k) as [t|] eqn:Ek; [|done]. destruct Hok as [Hr Ho Hi Ht]. destruct (Hi k) as [Hn Hd]; [by eexists|].
    split; cbn [r_e r_issued r_delivered publish_token set_tokens en_tokens]; [|done| |].
    - intros j x. unfold token_at. cbn [r_e r_issued r_delivered publish_token set_tokens en_tokens]. rewrite lookup_insert_Some, lookup_delete_Some. intros Hj.
      apply (Hr j x). unfold token_at. destruct Hj as [[[<- <-]|[_ Hj]]|[[_ Hj]|Hj]]; auto.
    - intros j Hj. destruct (decide (k = j)) as [<-|Hne]; [by rewrite lookup_delete_eq in Hj; destruct Hj|]. rewrite lookup_delete_ne in Hj by done.
      rewrite lookup_insert_ne by done. by apply Hi.
    - intros j Hj. destruct (decide (k = j)) as [<-|Hne]; [done|]. rewrite lookup_insert_ne in Hj by done. by apply Ht. }
  4: { cbn [enroll_step] in *. destruct (approve_under_gate _ _ _ _ _ _ _ _ _ _ _) as [e out] eqn:E. apply approve_under_gate_db in E as [Et E].
    destruct (issued_token out) as [t|] eqn:Ei; [|eapply tokens_ok_kept; [exact Hok|exact Ha|cbn [r_e]; by rewrite Et|done|done]].
    destruct E as [[_ Hno]|E]; [congruence|].
    apply approve_cases in E as [[_ Hno]|(c & h & agent & name & (Hc & Hst & _) & Hh & -> & _ & Hc' & _)]; [congruence|]. injection Ei as <-.
    assert (forall x, ~ token_at r k x) as Hno.
    { intros x Hx. destruct (tk_row _ Hok _ _ Hx) as (c0 & _ & _ & Hc0 & Hs0 & _). unfold r_db in Hc0. congruence. }
    assert (k ∉ (r_delivered r).*1) as Hkd.
    { intros [[k' x] [-> Hx]]%list_elem_of_fmap. by apply (Hno x); right; right. }
    destruct Hok as [Hr Ho Hi Ht]. split; cbn [r_e r_issued r_delivered]; rewrite ?Et; [|done| |done].
    - intros j x Hj. assert (j = k /\ pt_token x = base64_url (ap_raw a) \/ j <> k /\ token_at r j x) as [[-> Hx]|[Hne Hx]].
      { unfold token_at in *. cbn [r_e r_issued r_delivered] in Hj. rewrite Et, lookup_insert_Some in Hj. destruct (decide (j = k)) as [->|Hne]; [left|right].
        - destruct Hj as [Hj|[[[_ <-]|[? _]]|Hj]]; [destruct (Hno x); by left|done|done|destruct (Hno x); by right; right].
        - split; [done|]. destruct Hj as [Hj|[[[? _]|[_ Hj]]|Hj]]; [by left|done|by right; left|by right; right]. }
      + exists (approved_claim by_ (ap_started a) agent h c), h, (ap_salt a). unfold r_db. cbn [r_e]. rewrite Hc', lookup_insert_eq, Hx. by split_and!.
      + destruct (Hr _ _ Hx) as (c0 & h0 & salt & Hc0 & Hs0 & Hh0 & Hv). exists c0, h0, salt. unfold r_db in *. cbn [r_e]. rewrite Hc', lookup_insert_ne by done. by split_and!.
    - intros j Hj. destruct (decide (k = j)) as [<-|Hne].
      + split; [|done]. destruct (en_tokens (r_e r) !! k) as [x|] eqn:Ek; [|done]. destruct (Hno x). by left.
      + rewrite lookup_insert_ne in Hj by done. by apply Hi. }
  10: { cbn [enroll_step] in *. destruct (deliverable (r_e r) k) as [t|] eqn:Ed.
    - pose proof Ed as (Hk & _)%deliverable_Some. destruct Hok as [Hr Ho Hi Ht]. assert (k ∉ (r_delivered r).*1) as Hkd by (apply Ht; by eexists).
      change (option_list _) with [(k, t)] in *. split; cbn [r_e r_issued r_delivered]; rewrite ?poll_tokens, ?Ed, ?fmap_app.
      + intros j x Hj. destruct (Hr j x) as (c0 & h0 & salt & Hc0 & Hs0 & Hh0 & Hv).
        { unfold token_at in *. cbn [r_e r_issued r_delivered] in Hj. rewrite poll_tokens, Ed, lookup_delete_Some, elem_of_app, list_elem_of_singleton in Hj.
          destruct Hj as [[_ Hj]|[Hj|[Hj|[= -> ->]]]]; auto. }
        destruct (Ha _ _ Hc0 Hs0) as (c' & Hc' & Hs' & Hh'). exists c', h0, salt. split_and!; [done..|congruence|done].
      + apply NoDup_app. split_and!; [done| |by apply NoDup_singleton]. intros j Hj. cbn. rewrite list_elem_of_singleton. by intros ->.
      + intros j Hj. destruct (Hi _ Hj) as [Hn Hd]. split; [by rewrite lookup_delete_None; right|]. cbn. rewrite not_elem_of_app, list_elem_of_singleton.
        split; [done|]. intros ->. congruence.
      + intros j [x Hj]. rewrite lookup_delete_Some in Hj. destruct Hj as [Hne Hj]. cbn. rewrite not_elem_of_app, list_elem_of_singleton.
        split; [apply Ht; by eexists|]. by intros ->.
    - eapply tokens_ok_kept; [exact Hok|exact Ha|cbn [r_e]; by rewrite poll_tokens, Ed|done|cbn; by rewrite app_nil_r]. }
  all: cbn [enroll_step] in *; repeat case_match; try done; eapply tokens_ok_kept; [exact Hok|exact Ha| |done..]; try done.
  - cbn. apply map_filter_subseteq.
Qed.
Lemma tokens_ok_new : tokens_ok Run_new.
Proof.
  split; [|constructor|by intros k [? ?]|by intros k [? ?]]. intros k t [Hk|[Hk|Hk]]; [done..|]. cbn in Hk. by apply not_elem_of_nil in Hk.
Qed.
Lemma enroll_run_tokens ops r : tokens_ok r -> tokens_ok (enroll_run r ops).
Proof. revert r. induction ops as [|o ops IH]; intros r Hok; [done|]. by apply IH, enroll_step_tokens. Qed.

(** An issued credential is handed out once: over any run, no claim's token is returned by two polls,
    what a poll returned is the token whose hash the approval stored with the claim, the claim is
    approved and stays so, and every later poll of it returns no token. *)
Theorem token_retrieved_once ops k t :
  (forall salt p h, hash_dashboard_password salt p = Some h -> verify_dashboard_password h p = true) ->
  let r := enroll_run Run_new ops in
  NoDup (r_delivered r).*1
  /\ ((k, t) ∈ r_delivered r ->
      (exists c h, claims (r_db r) !! k = Some c /\ cl_status c = StApproved /\ cl_token_hash c = Some h /\ verify_dashboard_password h (pt_token t) = true)
      /\ deliverable (r_e r) k = None
      /\ r_delivered (enroll_step r (OPoll k)) = r_delivered r).
Proof.
  intros Hv r. assert (tokens_ok r) as Hok by (apply enroll_run_tokens, tokens_ok_new). split; [exact (tk_once _ Hok)|]. intros Hd.
  assert (deliverable (r_e r) k = None) as Hn.
  { destruct (deliverable (r_e r) k) as [x|] eqn:Ex; [|done]. apply deliverable_Some in Ex as [Hx _].
    destruct (tk_tokens _ Hok k); [by eexists|]. apply list_elem_of_fmap. by exists (k, t). }
  split_and!; [|done|cbn [enroll_step r_delivered]; rewrite Hn; apply app_nil_r].
  destruct (tk_row _ Hok k t) as (c & h & salt & Hc & Hs & Hh & Hx); [by right; right|]. exists c, h. split_and!; [done..|]. by eapply Hv.
Qed.

(** ** Identities *)

(** What a step may do to a device's row. *)
Lemma enroll_step_rows r o a row : agent_rows (r_db r) !! a = Some row ->
  match agent_rows (r_db (enroll_step r o)) !! a with
  | None => exists ids, o = ODelete ids /\ a ∈ ids
  | Some row' => ag_name row' = ag_name row /\
      (ag_hash row' = ag_hash row
       \/ ag_hash row' = None /\ ((exists now, o = ORevoke a now) \/ exists draws, o = OReplace a draws)
       \/ exists claim_id by_ nm g now ap c, o = OApprove (Some a) claim_id by_ nm g now ap /\ approvable (r_db r) claim_id (Some a) (ap_now ap) c)
  end.
Proof.
  intros Hrow.
  assert (forall b now x, agent_rows (revoke_agent_credentials (r_db r) b now) !! a = Some x ->
    ag_name x = ag_name row /\ (ag_hash x = ag_hash row \/ a = b /\ ag_hash x = None)) as Hrev.
  { intros b now x. cbn. destruct (decide (b = a)) as [->|Hne].
    - rewrite lookup_alter_eq, Hrow. intros [= <-]. by split; [|right].
    - rewrite lookup_alter_ne, Hrow by done. intros [= <-]. by split; [|left]. }
  assert (forall b now, is_Some (agent_rows (revoke_agent_credentials (r_db r) b now) !! a)) as Hrev'.
  { intros b now. cbn. destruct (decide (b = a)) as [->|Hne]; [rewrite lookup_alter_eq, Hrow|rewrite lookup_alter_ne, Hrow by done]; by eexists. }
  destruct o as [uses exp note draws|agent draws|started now fresh input|bound cl by_ nm g now ap|cl|cl by_ err now|id now|now|agent now|ids|ids|cl|agent h s now]; cbn [enroll_step].
  - destruct (create_agent_enrollment_token _ _ _ _ _ _) as [[db [id text]]|] eqn:E; [|rewrite Hrow; by split; [|left]].
    apply create_token_Some in E as (d & _ & _ & _ & (-> & _)%insert_invite_Some). cbn. rewrite Hrow. by split; [|left].
  - destruct (create_agent_replacement_token _ _ _ _) as [[db [[[id text] exp]|]]|] eqn:E; [|rewrite Hrow; by split; [|left]..].
    apply create_replacement_Some in E as (_ & d & _ & _ & _ & _ & (-> & _)%insert_invite_Some). destruct (Hrev' agent (d_now d)) as [x Hx].
    change (agent_rows (r_db _) !! a) with (agent_rows (revoke_agent_credentials (r_db r) agent (d_now d)) !! a). rewrite Hx.
    destruct (Hrev _ _ _ Hx) as [Hn [Hh|[-> Hh]]]; split; auto. right. left. split; [done|right; by eexists].
  - destruct (create_agent_enrollment_claim _ _ _ _ _ _) as [db out] eqn:E.
    apply create_claim_cases in E as [->|(m & x & _ & _ & [[-> _]|(j & inv & code & _ & _ & _ & ->)])]; cbn; rewrite Hrow; by split; [|left].
  - destruct (approve_under_gate _ _ _ _ _ _ _ _ _ _ _) as [e out] eqn:E. unfold r_db. cbn [r_e].
    apply approve_under_gate_db in E as [_ [[E _]|E]]; [rewrite E; unfold r_db in Hrow; rewrite Hrow; by split; [|left]|].
    apply approve_cases in E as [[E _]|(c & hh & agent & name & Hap & _ & _ & _ & _ & Hr & Hx)]; [rewrite E; unfold r_db in Hrow; rewrite Hrow; by split; [|left]|].
    rewrite Hr. destruct (decide (agent = a)) as [->|Hne]; [|rewrite lookup_insert_ne by done; unfold r_db in Hrow; rewrite Hrow; by split; [|left]].
    rewrite lookup_insert_eq. unfold r_db in Hrow. destruct bound as [b|]; [|destruct Hx as (_ & Hn & _); congruence].
    destruct Hx as (<- & r0 & Hr0 & <-). rewrite Hrow in Hr0. injection Hr0 as <-. split; [done|]. right; right. exists cl, by_, nm, g, now, ap, c. by split.
  - destruct (r_issued r !! cl); unfold r_db in *; cbn; rewrite Hrow; by split; [|left].
  - unfold reject_agent_enrollment_claim. destruct (claims (r_db r) !! cl) as [c|]; [case_bool_decide|]; cbn; rewrite Hrow; by split; [|left].
  - cbn. rewrite Hrow. by split; [|left].
  - cbn. rewrite Hrow. by split; [|left].
  - destruct (Hrev' agent now) as [x Hx]. change (agent_rows (r_db _) !! a) with (agent_rows (revoke_agent_credentials (r_db r) agent now) !! a). rewrite Hx.
    destruct (Hrev _ _ _ Hx) as [Hn [Hh|[-> Hh]]]; split; auto. right. left. split; [done|left; by eexists].
  - unfold r_db in *. cbn. rewrite Hrow. by split; [|left].
  - cbn. destruct (filter _ _ !! a) as [x|] eqn:Ex.
    + apply map_lookup_filter_Some in Ex as [Ex _]. rewrite Hrow in Ex. injection Ex as <-. by split; [|left].
    + exists ids. split; [done|]. apply map_lookup_filter_None in Ex as [Ex|Ex]; [congruence|]. destruct (decide (a ∈ ids)) as [|Hni]; [done|].
      destruct (Ex _ Hrow). exact Hni.
  - unfold r_db in *. cbn [r_e]. rewrite poll_db, Hrow. by split; [|left].
  - unfold register_authenticated_agent. destruct (agent_rows (r_db r) !! agent) as [x|] eqn:Ex; [|cbn; rewrite Hrow; by split; [|left]].
    case_bool_decide; [|cbn; rewrite Hrow; by split; [|left]]. cbn. destruct (decide (agent = a)) as [->|Hne].
    + rewrite lookup_insert_eq. rewrite Hrow in Ex. injection Ex as <-. by split; [|left].
    + rewrite lookup_insert_ne, Hrow by done. by split; [|left].
Qed.

(** A device without a credential and without a live invite bound to it. *)
Record shut_out (a : Uuid) (db : Db) : Prop := {
  so_row : forall row, agent_rows db !! a = Some row -> ag_hash row = None;
  so_invites : forall i inv, invites db !! i = Some inv -> inv_bound inv = Some a -> is_Some (inv_revoked inv)
}.
(** The operations other than issuing a replacement code for the device. *)
Definition leaves_out (a : Uuid) (o : EnrollOp) : Prop :=
  match o with
  | OReplace b _ => b <> a
  | OApprove None _ _ _ _ _ ap => ap_id ap <> a
  | _ => True
  end.
(** The invites of a step: an old one, at most revoked or unbound, or a new one. *)
Lemma enroll_step_bound r o i inv a : leaves_out a o -> invites (r_db (enroll_step r o)) !! i = Some inv -> inv_bound inv = Some a ->
  exists old, invites (r_db r) !! i = Some old /\ inv_bound old = Some a /\ (is_Some (inv_revoked old) -> is_Some (inv_revoked inv)).
Proof.
  intros Ho Hi Hb. assert (forall db', invites db' = invites (r_db r) -> invites db' !! i = Some inv ->
    exists old, invites (r_db r) !! i = Some old /\ inv_bound old = Some a /\ (is_Some (inv_revoked old) -> is_Some (inv_revoked inv))) as Hsame.
  { intros db' He Hx. rewrite He in Hx. by exists inv. }
  assert (forall f now, invites (revoke_where f now (r_db r)) !! i = Some inv ->
    exists old, invites (r_db r) !! i = Some old /\ inv_bound old = Some a /\ (is_Some (inv_revoked old) -> is_Some (inv_revoked inv))) as Hwhere.
  { intros f now (old & Hold & _ & Hbo & _ & Hx)%revoke_where_lookup. exists old. split_and!; [done|congruence|].
    destruct Hx as [[-> _]|[-> _]]; [done|by eexists]. }
  destruct o as [uses exp note draws|agent draws|started now fresh input|bound cl by_ nm g now ap|cl|cl by_ err now|id now|now|agent now|ids|ids|cl|agent h s now]; cbn [enroll_step] in Hi.
  - destruct (create_agent_enrollment_token _ _ _ _ _ _) as [[db [id text]]|] eqn:E; [|by eapply Hsame].
    apply create_token_Some in E as (d & _ & _ & _ & (-> & _)%insert_invite_Some). cbn in Hi. apply lookup_insert_Some in Hi as [[_ <-]|[_ Hi]]; [done|by eapply Hsame].
  - destruct (create_agent_replacement_token _ _ _ _) as [[db [[[id text] exp]|]]|] eqn:E; [|by eapply Hsame..].
    apply create_replacement_Some in E as (_ & d & _ & _ & _ & _ & (-> & _)%insert_invite_Some). cbn [r_db r_e grant_uses with_db with_e set_db en_db invites with_invites] in Hi.
    apply lookup_insert_Some in Hi as [[_ <-]|[_ Hi]]; [cbn in Hb, Ho; congruence|].
    exact (Hwhere (is_bound_to agent) (d_now d) Hi).
  - destruct (create_agent_enrollment_claim _ _ _ _ _ _) as [db out] eqn:E.
    apply create_claim_cases in E as [->|(m & x & _ & _ & [[-> _]|(j & inv' & code & _ & _ & _ & ->)])]; [by eapply Hsame..|].
    change (invites (take_use (r_db r) j) !! i = Some inv) in Hi. apply take_use_lookup in Hi as (old & Hold & [[-> _]|[-> _]]); by exists old.
  - destruct (approve_under_gate _ _ _ _ _ _ _ _ _ _ _) as [e out] eqn:E. unfold r_db in Hi. cbn [r_e] in Hi.
    apply approve_under_gate_db in E as [_ [[E _]|E]]; [rewrite E in Hi; by eapply Hsame|].
    apply approve_cases in E as [[E _]|(c & hh & agent & name & _ & _ & _ & Hinv & _)]; [rewrite E in Hi|]; by eapply Hsame.
  - destruct (r_issued r !! cl); by eapply Hsame.
  - unfold reject_agent_enrollment_claim in Hi. destruct (claims (r_db r) !! cl) as [c|]; [case_bool_decide|]; by eapply Hsame.
  - change (invites (revoke_agent_enrollment_token (r_db r) id now) !! i = Some inv) in Hi. apply revoke_code_spent in Hi as (old & Hold & [->| ->]); exists old; split_and!; try done.
  - exact (Hwhere (fun i => 0 <? uses_remaining i) now Hi).
  - exact (Hwhere (is_bound_to agent) now Hi).
  - by eapply Hsame.
  - cbn in Hi. rewrite lookup_fmap, fmap_Some in Hi. destruct Hi as (old & Hold & ->). exists old. split_and!; [done| |done]. cbn in Hb. by apply ofilter_Some in Hb as [Hb _].
  - unfold r_db in Hi. cbn [r_e] in Hi. rewrite poll_db in Hi. by eapply Hsame.
  - unfold register_authenticated_agent in Hi. destruct (agent_rows (r_db r) !! agent); [case_bool_decide|]; by eapply Hsame.
Qed.

Lemma enroll_step_out r o a : leaves_out a o -> shut_out a (r_db r) -> shut_out a (r_db (enroll_step r o)).
Proof.
  intros Ho [Hr Hi]. split.
  - intros row' Hrow'. destruct (agent_rows (r_db r) !! a) as [row|] eqn:Erow.
    + pose proof (enroll_step_rows r o a row Erow) as Hs. rewrite Hrow' in Hs. destruct Hs as [_ [Hh|[[Hh _]|Hap]]]; [rewrite Hh; by apply Hr|done|].
      destruct Hap as (cl & by_ & nm & g & now & ap & c & _ & _ & _ & Hx). destruct (cl_invite c) as [i|]; [|done].
      destruct Hx as (inv & Hinv & Hnr & _ & Hb & _). destruct (Hi _ _ Hinv Hb) as [? ?]. congruence.
    + exfalso. revert Hrow'. assert (forall db', rows_kept (r_db r) db' -> agent_rows db' !! a = Some row' -> False) as Hk.
      { intros db' Hk Hx. destruct (Hk _ _ Hx) as (r0 & Hr0 & _). congruence. }
      destruct o as [uses exp note draws|agent draws|started now fresh input|bound cl by_ nm g now ap|cl|cl by_ err now|id now|now|agent now|ids|ids|cl|agent h s now]; cbn [enroll_step].
      * destruct (create_agent_enrollment_token _ _ _ _ _ _) as [[db [id text]]|] eqn:E; [|by apply Hk, rows_kept_refl].
        apply create_token_Some in E as (d & _ & _ & _ & (-> & _)%insert_invite_Some). by apply Hk, rows_kept_refl.
      * destruct (create_agent_replacement_token _ _ _ _) as [[db [[[id text] exp]|]]|] eqn:E; [|by apply Hk, rows_kept_refl..].
        apply create_replacement_Some in E as (_ & d & _ & _ & _ & _ & (-> & _)%insert_invite_Some). apply Hk.
        exact (revoke_rows (r_db r) agent (d_now d)).
      * destruct (create_agent_enrollment_claim _ _ _ _ _ _) as [db out] eqn:E.
        apply create_claim_cases in E as [->|(m & x & _ & _ & [[-> _]|(j & inv & code & _ & _ & _ & ->)])]; by apply Hk, rows_kept_refl.
      * destruct (approve_under_gate _ _ _ _ _ _ _ _ _ _ _) as [e out] eqn:E. unfold r_db in *. cbn [r_e].
        apply approve_under_gate_db in E as [_ [[E _]|E]]; [rewrite E, Erow; done|].
        apply approve_cases in E as [[E _]|(c & hh & agent & name & _ & _ & _ & _ & _ & Hrr & Hx)]; [rewrite E, Erow; done|]. rewrite Hrr, lookup_insert_Some, Erow.
        intros [[-> _]|[_ ?]]; [|done]. destruct bound as [b|]; [destruct Hx as (-> & r0 & Hr0 & _); congruence|]. destruct Hx as (-> & _). by cbn in Ho.
      * destruct (r_issued r !! cl); by apply Hk, rows_kept_refl.
      * unfold reject_agent_enrollment_claim. destruct (claims (r_db r) !! cl) as [c|]; [case_bool_decide|]; by apply Hk, rows_kept_refl.
      * by apply Hk, rows_kept_refl.
      * by apply Hk, rows_kept_refl.
      * apply Hk, revoke_rows.
      * by apply Hk, rows_kept_refl.
      * apply Hk. intros j x [Hx _]%map_lookup_filter_Some. by exists x.
      * unfold r_db in *. cbn [r_e]. rewrite poll_db, Erow. done.
      * unfold register_authenticated_agent. destruct (agent_rows (r_db r) !! agent) as [x|] eqn:Ex; [case_bool_decide|]; [|by apply Hk, rows_kept_refl..].
        cbn. rewrite lookup_insert_Some, Erow. intros [[-> _]|[_ ?]]; congruence.
  - intros i inv Hinv Hb. destruct (enroll_step_bound r o i inv a Ho Hinv Hb) as (old & Hold & Hbo & Hx). apply Hx. by eapply Hi.
Qed.
Lemma enroll_run_out ops r a : Forall (leaves_out a) ops -> shut_out a (r_db r) -> shut_out a (r_db (enroll_run r ops)).
Proof.
  revert r. induction ops as [|o ops IH]; intros r Hf Hs; [done|]. apply Forall_cons in Hf as [Ho Hf]. apply IH; [done|]. by apply enroll_step_out.
Qed.
Lemma revoke_shuts_out db a now : shut_out a (revoke_agent_credentials db a now).
Proof.
  split.
  - intros row. cbn. rewrite lookup_alter_eq, fmap_Some. by intros (r & _ & ->).
  - intros i inv Hi Hb. change (invites (revoke_where (is_bound_to a) now db) !! i = Some inv) in Hi.
    apply revoke_where_lookup in Hi as (old & _ & _ & Hbo & _ & [[-> Hf]|[-> _]]); [|by eexists].
    unfold is_bound_to in Hf. apply bool_decide_eq_false in Hf. congruence.
Qed.
Lemma shut_out_authenticate db a name provided h : shut_out a db -> authenticate_agent verify_dashboard_password db name provided <> Some (a, h).
Proof.
  intros [Hr _]. unfold authenticate_agent, get_agent_auth_by_name. destruct (String.eqb _ _); [done|].
  destruct (select _ _) as [[b row]|] eqn:E; [|done]. cbn. apply select_Some in E as [Hb _]. destruct (ag_hash row) eqn:Eh; [|done].
  destruct (verify_dashboard_password _ _); [|done]. intros [= -> <-]. rewrite (Hr _ Hb) in Eh. done.
Qed.
Lemma shut_out_register db a h s now : shut_out a db -> (register_authenticated_agent db a h s now).2 = None.
Proof.
  intros [Hr _]. unfold register_authenticated_agent. destruct (agent_rows db !! a) as [row|] eqn:E; [|done]. rewrite (Hr _ eq_refl).
  by rewrite bool_decide_eq_false_2.
Qed.
Lemma invalidate_disconnects st a reason at_ : connections (agents (invalidate_agent_connection time_json st a reason at_)) !! a = None.
Proof.
  unfold invalidate_agent_connection. destruct (connections (agents st) !! a) as [c|]; cbn; [|by rewrite lookup_delete_eq].
  unfold send_shutdown. case_match; cbn; by rewrite lookup_delete_eq.
Qed.

(** C12: revoking a device is final: once an admin revoked its credential, its socket is gone, none of its
    unretrieved tokens is left, and over any later run of codes, claims, approvals, re-deliveries
    and deletions, with no replacement code issued for it (and no new device drawing its id),
    no name and token ever authenticate as it and no credential registers it. *)
Theorem revoked_device_stays_out r a now ops :
  let e := (revoke_agent_credentials_handler time_json (r_e r) true a now).1 in
  let r' := enroll_run (with_e r e) ops in
  Forall (leaves_out a) ops ->
  connections (agents (en_app e)) !! a = None
  /\ (forall k t, en_tokens e !! k = Some t -> pt_agent t <> a)
  /\ (forall name provided h, authenticate_agent verify_dashboard_password (r_db r') name provided <> Some (a, h))
  /\ (forall h s at_, (register_authenticated_agent (r_db r') a h s at_).2 = None).
Proof.
  intros e r' Hf. assert (shut_out a (r_db r')) as Hs by (apply enroll_run_out; [done|]; apply revoke_shuts_out).
  split_and!.
  - apply invalidate_disconnects.
  - intros k t. cbn. rewrite map_lookup_filter_Some. intros [_ Hn] Ht. apply Hn. cbn. rewrite Ht. by apply list_elem_of_singleton.
  - intros name provided h. by apply shut_out_authenticate.
  - intros h s at_. by apply shut_out_register.
Qed.

(** Only a code bound to a device replaces its identity: in any state and for any step, a device's
    row disappears only by deletion, its name never changes, and its credential stays, is cleared
    by a revocation or a replacement of that device, or is rotated by the approval of a pending
    claim whose invite is bound to it, not revoked and not expired; an unbound code or a claim
    without one never touches an existing device. *)
Theorem identity_needs_bound_code r o a row :
  agent_rows (r_db r) !! a = Some row ->
  match agent_rows (r_db (enroll_step r o)) !! a with
  | None => exists ids, o = ODelete ids /\ a ∈ ids
  | Some row' => ag_name row' = ag_name row /\
      (ag_hash row' = ag_hash row
       \/ ag_hash row' = None /\ ((exists now, o = ORevoke a now) \/ exists draws, o = OReplace a draws)
       \/ exists claim_id by_ nm g now ap c i inv, o = OApprove (Some a) claim_id by_ nm g now ap
            /\ claims (r_db r) !! claim_id = Some c /\ cl_status c = StPending /\ cl_invite c = Some i /\ invites (r_db r) !! i = Some inv
            /\ inv_bound inv = Some a /\ inv_revoked inv = None /\ past (ap_now ap) (inv_expires inv) = false)
  end.
Proof.
  intros Hrow. pose proof (enroll_step_rows r o a row Hrow) as Hs. destruct (agent_rows (r_db (enroll_step r o)) !! a) as [row'|]; [|done].
  destruct Hs as [Hn [Hh|[Hh|Hap]]]; (split; [done|]); auto. right; right.
  destruct Hap as (cl & by_ & nm & g & now & ap & c & -> & Hc & Hst & Hx). destruct (cl_invite c) as [i|] eqn:Ei; [|done].
  destruct Hx as (inv & Hinv & Hnr & Hp & Hb & _). exists cl, by_, nm, g, now, ap, c, i, inv. by split_and!.
Qed.

(** ** Pairing, end to end *)

Lemma chars_take_idem n s : chars_take n (chars_take n s) = chars_take n s.
Proof.
  revert n. induction s as [|c s IH]; intros n; [done|]. cbn [chars_take]. destruct (continues c) eqn:Ec.
  - cbn [chars_take]. by rewrite Ec, IH.
  - destruct n as [|n]; [done|]. cbn [chars_take]. by rewrite Ec, IH.
Qed.
Lemma claim_name_taken name hostname : final_agent_name None (claim_name name hostname) = claim_name name hostname.
Proof. unfold final_agent_name, claim_name. cbn. destruct (String.eqb _ _); apply chars_take_idem. Qed.
Lemma name_taken_rows db db' name : agent_rows db' = agent_rows db -> name_taken db' name = name_taken db name.
Proof. unfold name_taken. by intros ->. Qed.
Lemma normalized_nonempty code digits : normalize_enrollment_code_for_lookup code = Some digits -> String.eqb code "" = false.
Proof. destruct code; [done|]. done. Qed.
Lemma usable_fresh_invite db uses exp note draws db' id text now code :
  create_agent_enrollment_token sha256_hex db uses exp note draws = Some (db', (id, text)) ->
  normalize_enrollment_code_for_lookup code = Some text -> past now exp = false ->
  exists inv, usable_invite sha256_hex db' now code = Some (id, inv) /\ invites db' !! id = Some inv /\ inv_kind inv = QuickPair /\ inv_bound inv = None
    /\ inv_expires inv = exp /\ inv_revoked inv = None /\ uses_remaining inv = Z.max uses 1 /\ inv_auto_approve inv = true
    /\ claims db' = claims db /\ agent_rows db' = agent_rows db.
Proof.
  intros (d & _ & _ & -> & (-> & Hid & Hdig)%insert_invite_Some)%create_token_Some Hn Hp. cbn [invites claims agent_rows with_invites]. rewrite lookup_insert_eq.
  eexists. split_and!; [|done..]. unfold usable_invite. rewrite Hn. cbn [mbind option_bind].
  rewrite (select_unique _ _ id {| inv_digest := sha256_hex (code_text (d_code d)); inv_kind := QuickPair; uses_remaining := Z.max uses 1; inv_expires := exp;
      inv_auto_approve := true; inv_bound := None; inv_note := note; inv_revoked := None |}).
  - cbn [mbind option_bind snd uses_remaining inv_expires]. rewrite Hp. unfold unbound_replacement. cbn. destruct (Z.max uses 1 <=? 0) eqn:E; [bool_prop; lia|done].
  - apply lookup_insert_eq.
  - cbn. by rewrite String.eqb_refl.
  - intros j b Hj [Hb _]%andb_prop. apply String.eqb_eq in Hb. cbn [invites with_invites] in Hj.
    apply lookup_insert_Some in Hj as [[? _]|[_ Hj]]; [done|]. by destruct (Hdig _ _ Hj).
Qed.

(** A pairing code enrolls a device: once an admin created a code, an installation that presents it,
    however punctuated, before it expires, under a name no device has and with no claim of its own
    pending, is approved at once; the next poll returns an identity and a token, with that name
    and token the device authenticates and registers, a second poll returns no token, and the
    code has one use less. *)
Theorem pairing_code_enrolls e uses exp note draws db id text input code d h session at_ :
  create_agent_enrollment_token sha256_hex (en_db e) uses exp note draws = Some (db, (id, text)) ->
  pairing_code input = Some code -> normalize_enrollment_code_for_lookup (trim code) = Some text ->
  trim (in_name input) <> ""%string -> trim (in_install input) <> ""%string ->
  select (pending_install (sha256_hex (trim (in_install input)))) (claims (en_db e)) = None ->
  past (cd_now d) exp = false -> past (ap_now (cd_approval d)) exp = false ->
  claims (en_db e) !! cd_id d = None -> agent_rows (en_db e) !! ap_id (cd_approval d) = None ->
  let name := claim_name (in_name input) (in_hostname input) in
  let token := base64_url (ap_raw (cd_approval d)) in
  name_taken (en_db e) name = false -> token <> ""%string ->
  hash_dashboard_password (ap_salt (cd_approval d)) token = Some h -> verify_dashboard_password h token = true ->
  let '(e1, answer) := create_enrollment_claim time_json sha256_hex base64_url hash_dashboard_password (set_db e db) input d in
  let '(e2, polled) := poll_enrollment_claim e1 (cd_id d) in
  answer = (200, claim_body (cd_id d) "approved" 1)
  /\ polled = (200, mk_obj [("status", JStr "approved"); ("agent_id", uuid_json (ap_id (cd_approval d))); ("agent_name", JStr name);
                            ("agent_token", JStr token)]%string)
  /\ authenticate_agent verify_dashboard_password (en_db e2) name token = Some (ap_id (cd_approval d), h)
  /\ (register_authenticated_agent (en_db e2) (ap_id (cd_approval d)) h session at_).2 = Some session
  /\ get (poll_enrollment_claim e2 (cd_id d)).2.2 "agent_token" = None
  /\ uses_remaining <$> invites (en_db e2) !! id = Some (Z.max uses 1 - 1).
Proof.
  intros Hcreate Hcode Hnorm Hname Hinst Hpend Hp1 Hp2 Hfresh Hnew name token Htaken Htok Hh Hv.
  destruct (usable_fresh_invite _ _ _ _ _ _ _ _ (cd_now d) (trim code) Hcreate Hnorm Hp1) as (inv & Hu & Hinv & Hk & Hb & He & Hr & Hur & Hauto & Hcl & Hrows).
  set (ag := ap_id (cd_approval d)) in *. set (k := cd_id d) in *.
  set (db1 := with_claims (take_use db id) (<[k := new_claim name input (Some (sha256_hex (trim (in_install input)))) (Some id) (cd_started d)]> (claims db))).
  assert (create_agent_enrollment_claim sha256_hex db (cd_started d) (cd_now d) k input = (db1, Some (Ok (k, true)))) as Hclaim.
  { unfold create_agent_enrollment_claim, install_digest. apply String.eqb_neq in Hinst. rewrite Hinst. cbn [mbind option_bind]. rewrite Hcl, Hpend, Hcode.
    change (default ""%string (trim <$> Some code)) with (trim code). rewrite (normalized_nonempty _ _ Hnorm), Hu, Hb. cbn [isSome negb andb]. fold name.
    rewrite (name_taken_rows (en_db e) db _ Hrows). rewrite Htaken. cbn [claims take_use with_invites]. rewrite Hcl, Hfresh. cbn [isSome default].
    unfold auto_approved, db1. by rewrite Hauto, Hcl. }
  assert (claims db1 !! k = Some (new_claim name input (Some (sha256_hex (trim (in_install input)))) (Some id) (cd_started d))) as Hk1 by apply lookup_insert_eq.
  assert (invites db1 !! id = Some (one_use_less inv)) as Hi1 by (cbn; by rewrite lookup_alter_eq, Hinv).
  assert (enrollment_claim_bound_agent_id db1 k (cd_bound d) = None) as Hbound.
  { unfold enrollment_claim_bound_agent_id. rewrite Hk1. cbn [mbind option_bind cl_invite new_claim]. rewrite Hi1. cbn [mbind option_bind].
    destruct (_ && _); [|done]. cbn [one_use_less inv_bound]. exact Hb. }
  set (db2 := with_rows db1 (<[ag := issued_row name h (ap_started (cd_approval d))]> (agent_rows db1))).
  set (db3 := with_claims db2 (alter (approved_claim "pairing_code" (ap_started (cd_approval d)) ag h) k (claims db2))).
  assert (approve_claim_with_binding base64_url hash_dashboard_password db1 k "pairing_code" None None None (cd_approval d)
    = (db3, Some (Ok (ag, token, name)))) as Happ.
  { assert (lock_claim_for_approval db1 k None (ap_now (cd_approval d)) = Ok {| lk_name := name; lk_bound := None |}) as Hlock.
    { unfold lock_claim_for_approval. rewrite Hk1. cbn [ok_or rbind cl_status cl_invite new_claim mbind option_bind is_none_or cl_name].
      rewrite Hi1. cbn [mbind option_bind is_some_and one_use_less inv_bound inv_revoked inv_expires]. unfold unbound_replacement. cbn [one_use_less inv_bound inv_kind].
      by rewrite Hb, Hr, He, Hp2, Hk. }
    assert (agent_rows db1 !! ag = None) as Hnew1 by (change (agent_rows db1) with (agent_rows db); by rewrite Hrows).
    unfold approve_claim_with_binding. rewrite Hlock. cbn [lk_bound lk_name]. change (new_agent_token_plain base64_url _) with token. rewrite Hh.
    unfold issue_agent_credentials. fold ag. rewrite (claim_name_taken (in_name input) (in_hostname input) : final_agent_name None name = name), Hnew1.
    by rewrite (name_taken_rows (en_db e) db1 _ Hrows), Htaken. }
  set (tok := {| pt_agent := ag; pt_name := name; pt_token := token |}).
  assert (create_enrollment_claim time_json sha256_hex base64_url hash_dashboard_password (set_db e db) input d
    = (publish_token (set_db e db3) k tok, (200, claim_body k "approved" 1))) as ->.
  { unfold create_enrollment_claim. apply String.eqb_neq in Hname, Hinst. rewrite Hname, Hinst. cbn [orb en_db set_db]. fold k. rewrite Hclaim.
    unfold approve_agent_enrollment_claim. cbn [en_db set_db]. rewrite Hbound. unfold approve_under_gate. cbn [en_db set_db]. rewrite Happ. done. }
  assert (claims db3 !! k = Some (approved_claim "pairing_code" (ap_started (cd_approval d)) ag h
     (new_claim name input (Some (sha256_hex (trim (in_install input)))) (Some id) (cd_started d)))) as Hk3.
  { subst db3. cbn [claims with_claims]. rewrite lookup_alter_eq. subst db2. cbn [claims with_rows]. by rewrite Hk1. }
  assert (agent_rows db3 = <[ag := issued_row name h (ap_started (cd_approval d))]> (agent_rows (en_db e))) as Hr3 by (cbn; by rewrite Hrows).
  assert (invites db3 !! id = Some (one_use_less inv)) as Hi3 by exact Hi1.
  unfold poll_enrollment_claim at 1. cbn [en_db publish_token set_tokens set_db en_tokens]. rewrite Hk3. cbn [cl_status approved_claim]. rewrite lookup_insert_eq.
  cbn [en_db set_tokens set_db publish_token]. split_and!; [done..| | | |].
  - unfold authenticate_agent, get_agent_auth_by_name. apply String.eqb_neq in Htok. rewrite Htok, Hr3.
    rewrite (select_unique _ _ ag (issued_row name h (ap_started (cd_approval d)))).
    + cbn. by rewrite Hv.
    + apply lookup_insert_eq.
    + cbn. apply String.eqb_refl.
    + intros j b [[? _]|[_ Hj]]%lookup_insert_Some Hn; [done|]. apply String.eqb_eq in Hn. by destruct (name_taken_false _ _ _ _ Htaken Hj).
  - unfold register_authenticated_agent. rewrite Hr3, lookup_insert_eq. cbn. by rewrite bool_decide_eq_true_2.
  - unfold poll_enrollment_claim. cbn [en_db set_tokens set_db en_tokens publish_token]. rewrite Hk3. cbn [cl_status approved_claim]. rewrite lookup_delete_eq. done.
  - rewrite Hi3. cbn. by rewrite Hur.
Qed.
End runs.

(** ** Examples *)

Definition ex_sha (s : string) : string := String "d" s.
Definition ex_token (raw : list Z) : string := "token".
Definition ex_hash (salt plain : string) : option string := Some (salt ++ plain)%string.
Definition ex_verify (hash plain : string) : bool := String.eqb hash (String "$" plain).
Definition ex_draws : list Draw := [{| d_code := 42; d_id := 5%N; d_now := 0 |}].
Definition ex_claim_input : AgentEnrollmentClaimInput :=
  {| pairing_code := Some "000-042"%string; in_name := "desk"; in_hostname := None; in_os := None; in_version := None; in_install := "install";
     in_discovered := None; in_client_ip := None |}.
Definition ex_approval : Approval := {| ap_raw := [1]; ap_salt := "$"; ap_id := 9%N; ap_now := 12; ap_started := 12 |}.
Definition ex_enroll : list EnrollOp :=
  [OCode 2 (Some 100) None ex_draws; OClaim 10 10 6%N ex_claim_input; OApprove None 6%N "pairing_code" None None 11 ex_approval; OPublish 6%N].
Definition ex_run (ops : list EnrollOp) : Run := @enroll_run bin_uuid JInt ex_sha ex_token (fun _ p => ex_hash "$" p) Run_new ops.
Definition ex_pending : PendingEnrollmentToken := {| pt_agent := 9%N; pt_name := "desk"; pt_token := "token" |}.

Lemma pairing_uses_conserved_witness :
  exists inv, invites (r_db (ex_run ex_enroll)) !! 5%N = Some inv /\ uses_remaining inv = 1 /\ claims_of (r_db (ex_run ex_enroll)) 5%N = 1
    /\ exists n, r_granted (ex_run ex_enroll) !! 5%N = Some n /\ 0 <= uses_remaining inv /\ uses_remaining inv + claims_of (r_db (ex_run ex_enroll)) 5%N <= n.
Proof.
  destruct (invites (r_db (ex_run ex_enroll)) !! 5%N) as [inv|] eqn:E; [|vm_compute in E; discriminate E]. exists inv. split; [reflexivity|].
  split; [vm_compute in E; injection E as <-; reflexivity|]. split; [vm_compute; reflexivity|].
  destruct (@pairing_uses_conserved bin_uuid JInt ex_sha ex_token (fun _ p => ex_hash "$" p) ex_enroll (OPoll 6%N) 5%N inv E) as (Hg & _). exact Hg.
Defined.
Lemma token_retrieved_once_witness :
  let r := ex_run (ex_enroll ++ [OPoll 6%N]) in
  r_delivered r = [(6%N, ex_pending)] /\ NoDup (r_delivered r).*1 /\ deliverable (r_e r) 6%N = None.
Proof.
  intros r. assert (r_delivered r = [(6%N, ex_pending)]) as Hr by (vm_compute; reflexivity). split; [exact Hr|].
  destruct (@token_retrieved_once bin_uuid JInt ex_sha ex_token (fun _ p => ex_hash "$" p) ex_verify (ex_enroll ++ [OPoll 6%N]) 6%N ex_pending) as [Hn Hd].
  - intros salt p h [= <-]. apply String.eqb_refl.
  - split; [exact Hn|]. apply Hd. fold (ex_run (ex_enroll ++ [OPoll 6%N])). fold r. rewrite Hr. left.
Defined.
Lemma revoked_device_stays_out_witness :
  let r := ex_run ex_enroll in
  let e := (@revoke_agent_credentials_handler bin_uuid JInt (r_e r) true 9%N 20).1 in
  let r' := @enroll_run bin_uuid JInt ex_sha ex_token (fun _ p => ex_hash "$" p) (with_e r e) [OPublish 6%N; OPoll 6%N] in
  authenticate_agent ex_verify (r_db r) "desk" "token" = Some (9%N, "$token"%string)
  /\ authenticate_agent ex_verify (r_db r') "desk" "token" <> Some (9%N, "$token"%string).
Proof.
  intros r e r'. split; [vm_compute; reflexivity|].
  destruct (@revoked_device_stays_out bin_uuid JInt ex_sha ex_token (fun _ p => ex_hash "$" p) ex_verify r 9%N 20 [OPublish 6%N; OPoll 6%N]) as (_ & _ & Ha & _).
  - repeat constructor.
  - exact (Ha "desk"%string "token"%string "$token"%string).
Defined.
Lemma identity_needs_bound_code_witness :
  let r := ex_run ex_enroll in
  exists row row', agent_rows (r_db r) !! 9%N = Some row
  /\ agent_rows (r_db (@enroll_step bin_uuid JInt ex_sha ex_token (fun _ p => ex_hash "$" p) r (ORevoke 9%N 30))) !! 9%N = Some row'
  /\ ag_name row' = ag_name row /\ ag_hash row' = None.
Proof.
  intros r. destruct (agent_rows (r_db r) !! 9%N) as [row|] eqn:E; [|vm_compute in E; discriminate E]. exists row.
  pose proof (@identity_needs_bound_code bin_uuid JInt ex_sha ex_token (fun _ p => ex_hash "$" p) r (ORevoke 9%N 30) 9%N row E) as Hs.
  destruct (agent_rows (r_db (@enroll_step _ _ _ _ _ _ _)) !! 9%N) as [row'|] eqn:E'; [|vm_compute in E'; discriminate E'].
  exists row'. split; [reflexivity|]. split; [reflexivity|]. split; [exact (proj1 Hs)|]. vm_compute in E'. injection E' as <-. reflexivity.
Defined.
Definition ex_claim_draws : ClaimDraws := {| cd_started := 10; cd_now := 10; cd_id := 6%N; cd_bound := 11; cd_gate := 11; cd_approval := ex_approval |}.
Definition ex_server : Enrollment := r_e Run_new.
Definition ex_code_db : Db := default Db_empty (fst <$> create_agent_enrollment_token ex_sha Db_empty 2 (Some 100) None ex_draws).
Lemma pairing_code_enrolls_witness :
  (@create_enrollment_claim bin_uuid JInt ex_sha ex_token (fun _ p => ex_hash "$" p) (set_db ex_server ex_code_db) ex_claim_input ex_claim_draws).2
  = (200, @claim_body bin_uuid 6%N "approved" 1).
Proof.
  pose proof (@pairing_code_enrolls bin_uuid JInt ex_sha ex_token (fun _ p => ex_hash "$" p) ex_verify ex_server 2 (Some 100) None ex_draws ex_code_db 5%N "000042"
    ex_claim_input "000-042" ex_claim_draws "$token" 1 50) as Hs. cbv zeta in Hs.
  destruct (@create_enrollment_claim _ _ _ _ _ _ _ _) as [e1 answer]. destruct (@poll_enrollment_claim _ _ _) as [e2 polled]. apply Hs.
  1, 2, 3: vm_compute; reflexivity.
  1, 2: vm_compute; discriminate.
  all: try (vm_compute; reflexivity).
  vm_compute. discriminate.
Defined.
