(* ===== verification/Retention.v ===== *)
(** Recall retention: the bounded scan of the blob directory and the removal of old days
    ([server/src/recall/retention.rs]) and of old partitions ([server/src/recall/db/partitions.rs]).
    The file system is a finite map from paths to kinds of entries; directory listings, clocks,
    timeouts and the outcome of each system or database call are arguments. *)
From S2P Require Import Prelude Text.

(** ** Paths and entries *)

Inductive Component : Type := RootDir | CurDir | ParentDir | Normal (name : string).
#[export] Instance Component_eq_dec : EqDecision Component.
Proof. solve_decision. Defined.
Abbreviation Path := (list Component) (only parsing).
Inductive EntryKind : Type := KFile | KDir | KSymlink.
#[export] Instance EntryKind_eq_dec : EqDecision EntryKind.
Proof. solve_decision. Defined.
(** By absolute path; the root directory is the empty one. *)
Abbreviation Files := (gmap (list string) EntryKind) (only parsing).

Definition is_absolute (p : Path) : bool := match p with RootDir :: _ => true | _ => false end.
Definition join (p : Path) (name : string) : Path := p ++ [Normal name].
Fixpoint strip_prefix (p prefix : Path) : option Path :=
  match prefix, p with
  | [], _ => Some p
  | c :: prefix, d :: p => if bool_decide (c = d) then strip_prefix p prefix else None
  | _ :: _, [] => None
  end.
(** The entry a path without parent components names, from a directory. *)
Fixpoint resolve (cur : list string) (p : Path) : list string :=
  match p with
  | [] => cur
  | RootDir :: p => resolve [] p
  | CurDir :: p | ParentDir :: p => resolve cur p
  | Normal n :: p => resolve (cur ++ [n]) p
  end.
Definition is_dir (fs : Files) (k : list string) : bool := bool_decide (fs !! k = Some KDir).
Fixpoint check_components (fs : Files) (cur : list string) (p : Path) : bool :=
  match p with
  | [] => true
  | CurDir :: p => check_components fs cur p
  | ParentDir :: _ => false
  | RootDir :: p => is_dir fs [] && check_components fs [] p
  | Normal n :: p => is_dir fs (cur ++ [n]) && check_components fs (cur ++ [n]) p
  end.

Definition SCAN_ENTRIES : nat := 512.
Definition CANDIDATES : nat := 32.
Definition TRASH_DIR : string := ".retention-trash".

(** A directory entry: its name and whether it is valid text; [None] is an error of the enumeration. *)
Record DirEntry := { de_name : string; de_text : bool }.
Abbreviation ReadDir := (list (option DirEntry)) (only parsing).
Record Candidate := { c_agent : Uuid; c_day : Z; c_path : Path }.
Inductive Failure : Type :=
| FPartition | FDefault | FNarrative | FScan | FDevice (p : Path) | FDay (p : Path) | FDayEnumeration | FDeviceEnumeration
| FGate (agent : Uuid) | FReference (p : Path) | FRemoval (p : Path) | FPurge.
Record Batch := { b_complete : bool; b_candidates : list Candidate; b_scanned : nat; b_failures : list Failure }.
Record Scan := { sc_agents : option ReadDir; sc_current : option (Uuid * Path * ReadDir) }.
Definition Scan_default : Scan := {| sc_agents := None; sc_current := None |}.
Record Report := {
  partitions_dropped : Z; default_batches_attempted : Z; default_batches_committed : Z; default_rows_deleted : Z;
  default_rows_pending : option bool; default_prune_failures : Z; scanned : nat; scan_complete : bool; partition_batch_full : bool;
  candidates : nat; removed : nat; protected : nat; skipped_running : bool; budget_exhausted : bool; failures : list Failure
}.
Definition Report_default : Report :=
  {| partitions_dropped := 0; default_batches_attempted := 0; default_batches_committed := 0; default_rows_deleted := 0;
     default_rows_pending := None; default_prune_failures := 0; scanned := 0; scan_complete := false; partition_batch_full := false;
     candidates := 0; removed := 0; protected := 0; skipped_running := false; budget_exhausted := false; failures := [] |}.

Section retention.
Context `{UuidText}.
(** [chrono]: reading and printing a date as "%Y%m%d"; a date is its day number. *)
Variable parse_date : string -> option Z.
Variable format_date : Z -> string.
(** The working directory, when it can be read. *)
Variable cwd : option Path.

Definition day_name (value : string) : option Z :=
  if negb (Nat.eqb (String.length value) 8) || negb (all_char (fun c => isSome (digit_val 10 c)) value) then None
  else day ← parse_date value; if String.eqb (format_date day) value then Some day else None.

Definition absolute (p : Path) : option Path := if is_absolute p then Some p else (fun d => d ++ p) <$> cwd.
Definition checked_directory (fs : Files) (p : Path) : bool := is_some_and (absolute p) (check_components fs []).
Definition location (p : Path) : list string := resolve [] (default p (absolute p)).

(** ** The scan *)

Record ScanState := { ss_scan : Scan; ss_batch : Batch }.
Definition scan_again (s : ScanState) (sc : Scan) : ScanState := {| ss_scan := sc; ss_batch := ss_batch s |}.
Definition count_entry (s : ScanState) (sc : Scan) (c : list Candidate) (f : list Failure) : ScanState :=
  {| ss_scan := sc; ss_batch := {| b_complete := b_complete (ss_batch s); b_candidates := b_candidates (ss_batch s) ++ c;
       b_scanned := S (b_scanned (ss_batch s)); b_failures := b_failures (ss_batch s) ++ f |} |}.
Definition add_failure (s : ScanState) (sc : Scan) (f : Failure) : ScanState :=
  {| ss_scan := sc; ss_batch := {| b_complete := b_complete (ss_batch s); b_candidates := b_candidates (ss_batch s);
       b_scanned := b_scanned (ss_batch s); b_failures := b_failures (ss_batch s) ++ [f] |} |}.
Definition complete_scan (s : ScanState) (sc : Scan) : ScanState :=
  {| ss_scan := sc; ss_batch := {| b_complete := true; b_candidates := b_candidates (ss_batch s); b_scanned := b_scanned (ss_batch s);
       b_failures := b_failures (ss_batch s) |} |}.
(** [list]: what [read_dir] returns. *)
Variable list_dir : Path -> option ReadDir.

(** What a day entry adds: a candidate, a failure or nothing. *)
Definition visit_day (fs : Files) (cutoff : Z) (agent : Uuid) (path : Path) (e : DirEntry) : list Candidate * list Failure :=
  match (if de_text e then day_name (de_name e) else None) with
  | None => ([], [])
  | Some day =>
      if cutoff <=? day then ([], [])
      else let p := join path (de_name e) in
           if checked_directory fs p then ([{| c_agent := agent; c_day := day; c_path := p |}], []) else ([], [FDay p])
  end.
(** The device an entry of the root names, with its listing. *)
Definition visit_device (fs : Files) (root : Path) (e : DirEntry) : option (Uuid * Path * option ReadDir) :=
  if de_text e then
    agent ← parse_uuid (de_name e);
    if String.eqb (uuid_text agent) (de_name e)
    then let p := join root (de_name e) in Some (agent, p, if checked_directory fs p then list_dir p else None)
    else None
  else None.
(** One turn of the loop; [None] when it ends. *)
Definition scan_turn (fs : Files) (root : Path) (cutoff : Z) (s : ScanState) : option ScanState :=
  if Nat.ltb (b_scanned (ss_batch s)) SCAN_ENTRIES && Nat.ltb (length (b_candidates (ss_batch s))) CANDIDATES && negb (b_complete (ss_batch s)) then
    match sc_current (ss_scan s) with
    | Some (agent, path, days) =>
        let at_ days := {| sc_agents := sc_agents (ss_scan s); sc_current := days |} in
        if negb (checked_directory fs path) then Some (add_failure s (at_ None) (FDevice path))
        else match days with
             | Some e :: days => let '(c, f) := visit_day fs cutoff agent path e in Some (count_entry s (at_ (Some (agent, path, days))) c f)
             | None :: days => Some (count_entry s (at_ (Some (agent, path, days))) [] [FDayEnumeration])
             | [] => Some (scan_again s (at_ None))
             end
    | None =>
        match default [] (sc_agents (ss_scan s)) with
        | Some e :: rest =>
            let at_ current := {| sc_agents := Some rest; sc_current := current |} in
            match visit_device fs root e with
            | None => Some (count_entry s (at_ None) [] [])
            | Some (agent, path, Some days) => Some (count_entry s (at_ (Some (agent, path, days))) [] [])
            | Some (_, path, None) => Some (count_entry s (at_ None) [] [FDevice path])
            end
        | None :: rest => Some (count_entry s {| sc_agents := Some rest; sc_current := None |} [] [FDeviceEnumeration])
        | [] => Some (complete_scan s {| sc_agents := None; sc_current := None |})
        end
    end
  else None.
Fixpoint scan_loop (fuel : nat) (fs : Files) (root : Path) (cutoff : Z) (s : ScanState) : option ScanState :=
  match fuel with
  | O => None
  | S fuel => match scan_turn fs root cutoff s with Some s => scan_loop fuel fs root cutoff s | None => Some s end
  end.
Definition Batch_new : Batch := {| b_complete := false; b_candidates := []; b_scanned := 0; b_failures := [] |}.
(** Two turns per entry, and two to end. *)
Definition SCAN_FUEL : nat := 2 * SCAN_ENTRIES + 4.
(** [Scan::batch]: [None] is an error. *)
Definition scan_batch (fs : Files) (root : Path) (cutoff : Z) (sc : Scan) : Scan * option Batch :=
  if negb (checked_directory fs root) then ({| sc_agents := None; sc_current := None |}, None)
  else
    match (match sc_agents sc with Some l => Some l | None => list_dir root end) with
    | None => (sc, None)
    | Some agents =>
        match scan_loop SCAN_FUEL fs root cutoff {| ss_scan := {| sc_agents := Some agents; sc_current := sc_current sc |}; ss_batch := Batch_new |} with
        | Some s => (ss_scan s, Some (ss_batch s))
        | None => (sc, None)
        end
    end.

(** ** Detaching and purging *)

Definition under (k prefix : list string) : bool := bool_decide (take (length prefix) k = prefix).
(** [std::fs::rename] of a directory. *)
Definition rename (fs : Files) (src dst : list string) : Files :=
  filter (fun kv => under kv.1 src = false) fs
  ∪ list_to_map ((fun kv => (dst ++ drop (length src) kv.1, kv.2)) <$> map_to_list (filter (fun kv => under kv.1 src = true) fs)).
(** What the system answers: [create_dir] when the trash is missing, the name drawn, and [rename]. *)
Record DetachEnv := { dt_create : bool; dt_name : Uuid; dt_rename : bool }.
Definition day_owner (root path : Path) : option (string * string) :=
  match strip_prefix path root with
  | Some [Normal owner; Normal day] =>
      agent ← parse_uuid owner; if String.eqb owner (uuid_text agent) && isSome (day_name day) then Some (owner, day) else None
  | _ => None
  end.
Definition trash_of (root : Path) : Path := join root TRASH_DIR.
Definition detach_day (fs : Files) (root path : Path) (env : DetachEnv) : Files * bool :=
  if negb (checked_directory fs root) then (fs, false)
  else
    match day_owner root path with
    | None => (fs, false)
    | Some (owner, day) =>
        if negb (checked_directory fs path) then (fs, false)
        else
          let trash := location (trash_of root) in
          let fs' := match fs !! trash with
                     | Some _ => Some fs
                     | None => if dt_create env then Some (<[trash := KDir]> fs) else None
                     end in
          match fs' with
          | None => (fs, false)
          | Some fs =>
              if negb (checked_directory fs (trash_of root)) then (fs, false)
              else if dt_rename env
              then (rename fs (location path) (location (join (trash_of root) (owner ++ "-" ++ day ++ "-" ++ uuid_text (dt_name env))%string)), true)
              else (fs, false)
          end
    end.
(** [gone] is what [remove_dir_all] got to remove, all of it when it succeeds. *)
Definition purge_trash (fs : Files) (root : Path) (gone : option (list string -> bool)) : Files * bool :=
  if negb (checked_directory fs root) then (fs, false)
  else
    let trash := location (trash_of root) in
    match fs !! trash with
    | None => (fs, true)
    | Some _ =>
        if negb (checked_directory fs (trash_of root)) then (fs, false)
        else match gone with
             | None => (filter (fun kv => under kv.1 trash = false) fs, true)
             | Some g => (filter (fun kv => under kv.1 trash && g kv.1 = false) fs, false)
             end
    end.

(** ** A pass *)

(** [prune_screen_history_partitions]: the names the catalog query returned, at most four of them. *)
Definition partition_day (name : string) : option Z :=
  let suffix := String.substring 14 (String.length name - 14) name in
  if String.eqb (String.substring 0 14 name) "screen_frames_" then
    day ← parse_date suffix; if String.eqb (format_date day) suffix then Some day else None
  else None.
Definition partitions_to_drop (rows : list string) (cutoff : Z) : list string :=
  filter (fun name => is_some_and (partition_day name) (fun d => d <? cutoff) = true) rows.

(** What a candidate meets: the run deadline, whether the gate of a device is taken in time, what the
    index check answers for a device and a day ([None] is an error or a timeout), the file system, and
    whether the removal answered in time. *)
Record CandidateEnv := {
  ce_deadline : bool; ce_gate : Uuid -> bool; ce_indexed : Uuid -> Z -> option bool; ce_detach : DetachEnv; ce_timely : bool
}.
(** The outcome of each stage of a pass, the partitions as the rows of the catalog query: [None] is an error
    or a timeout. *)
Record PassEnv := {
  pe_partitions : option (list string); pe_default_in_time : bool; pe_default : option (Z * bool); pe_narrative : bool; pe_scan_timely : bool;
  pe_candidate : nat -> CandidateEnv; pe_purge : option (list string -> bool); pe_purge_timely : bool
}.
Definition set_failures (r : Report) (f : list Failure) : Report :=
  {| partitions_dropped := partitions_dropped r; default_batches_attempted := default_batches_attempted r;
     default_batches_committed := default_batches_committed r; default_rows_deleted := default_rows_deleted r;
     default_rows_pending := default_rows_pending r; default_prune_failures := default_prune_failures r; scanned := scanned r;
     scan_complete := scan_complete r; partition_batch_full := partition_batch_full r; candidates := candidates r; removed := removed r;
     protected := protected r; skipped_running := skipped_running r; budget_exhausted := budget_exhausted r; failures := f |}.
Definition fail (r : Report) (f : Failure) : Report := set_failures r (failures r ++ [f]).
Definition set_counts (r : Report) (rm pr : nat) (exhausted : bool) : Report :=
  {| partitions_dropped := partitions_dropped r; default_batches_attempted := default_batches_attempted r;
     default_batches_committed := default_batches_committed r; default_rows_deleted := default_rows_deleted r;
     default_rows_pending := default_rows_pending r; default_prune_failures := default_prune_failures r; scanned := scanned r;
     scan_complete := scan_complete r; partition_batch_full := partition_batch_full r; candidates := candidates r; removed := rm;
     protected := pr; skipped_running := skipped_running r; budget_exhausted := exhausted; failures := failures r |}.
Definition database_stages (cutoff : Z) (env : PassEnv) : Report :=
  let dropped := (fun rows => Z.of_nat (length (partitions_to_drop rows cutoff))) <$> pe_partitions env in
  let f := match pe_partitions env with None => [FPartition] | Some _ => [] end in
  let g := if pe_default_in_time env then match pe_default env with None => [FDefault] | Some _ => [] end else [] in
  let attempted := pe_default_in_time env in
  {| partitions_dropped := default 0 dropped;
     default_batches_attempted := if attempted then 1 else 0;
     default_batches_committed := if attempted && isSome (pe_default env) then 1 else 0;
     default_rows_deleted := if attempted then default 0 (fst <$> pe_default env) else 0;
     default_rows_pending := if attempted then snd <$> pe_default env else None;
     default_prune_failures := if attempted && negb (isSome (pe_default env)) then 1 else 0;
     scanned := 0; scan_complete := false; partition_batch_full := bool_decide (dropped = Some 4); candidates := 0; removed := 0;
     protected := 0; skipped_running := false; budget_exhausted := negb attempted;
     failures := f ++ g ++ (if pe_narrative env then [] else [FNarrative]) |}.
Definition with_batch (r : Report) (b : Batch) : Report :=
  {| partitions_dropped := partitions_dropped r; default_batches_attempted := default_batches_attempted r;
     default_batches_committed := default_batches_committed r; default_rows_deleted := default_rows_deleted r;
     default_rows_pending := default_rows_pending r; default_prune_failures := default_prune_failures r; scanned := b_scanned b;
     scan_complete := b_complete b; partition_batch_full := partition_batch_full r; candidates := length (b_candidates b); removed := removed r;
     protected := protected r; skipped_running := skipped_running r; budget_exhausted := budget_exhausted r;
     failures := failures r ++ b_failures b |}.
Fixpoint remove_candidates (n : nat) (root : Path) (env : PassEnv) (fs : Files) (r : Report) (cs : list Candidate) : Files * Report :=
  match cs with
  | [] => (fs, r)
  | c :: cs =>
      let e := pe_candidate env n in
      if ce_deadline e then (fs, set_counts r (removed r) (protected r) true)
      else
        let go := remove_candidates (S n) root env in
        if negb (ce_gate e (c_agent c)) then go fs (fail r (FGate (c_agent c))) cs
        else match ce_indexed e (c_agent c) (c_day c) with
             | Some true => go fs (set_counts r (removed r) (S (protected r)) (budget_exhausted r)) cs
             | Some false =>
                 let '(fs, ok) := detach_day fs root (c_path c) (ce_detach e) in
                 if ok && ce_timely e then go fs (set_counts r (S (removed r)) (protected r) (budget_exhausted r)) cs
                 else go fs (fail r (FRemoval (c_path c))) cs
             | None => go fs (fail r (FReference (c_path c))) cs
             end
  end.
(** The files, the cursor kept for the next pass, the report and whether the pass returned it as complete. *)
Definition run (fs : Files) (root : Path) (cutoff : Z) (sc : Scan) (env : PassEnv) : Files * Scan * Report * bool :=
  let r := database_stages cutoff env in
  let finish r := Nat.eqb (length (failures r)) 0 in
  let '(sc, out) := scan_batch fs root cutoff sc in
  match (if pe_scan_timely env then out else None) with
  | None => let r := fail r FScan in (fs, sc, r, finish r)
  | Some b =>
      let '(fs, r) := remove_candidates 0 root env fs (with_batch r b) (b_candidates b) in
      let '(fs, ok) := purge_trash fs root (pe_purge env) in
      let r := if ok && pe_purge_timely env then r else fail r FPurge in
      (fs, sc, r, finish r)
  end.
(** [prune_at]: one job at a time. *)
Definition prune_at (running : bool) (fs : Files) (root : Path) (cutoff : Z) (sc : Scan) (env : PassEnv) : Files * Scan * Report * bool :=
  if running then (fs, sc, {| partitions_dropped := 0; default_batches_attempted := 0; default_batches_committed := 0; default_rows_deleted := 0;
     default_rows_pending := None; default_prune_failures := 0; scanned := 0; scan_complete := false; partition_batch_full := false;
     candidates := 0; removed := 0; protected := 0; skipped_running := true; budget_exhausted := false; failures := [] |}, true)
  else run fs root cutoff sc env.
(** [prune]: [None] is refused; [today_minus] is the day that many days back, when the calendar has it. *)
Definition prune (today_minus : Z -> option Z) (days : Z) (running : bool) (fs : Files) (root : Path) (sc : Scan) (env : PassEnv)
    : option (Files * Scan * Report * bool) :=
  if days <=? 0 then None else cutoff ← today_minus days; Some (prune_at running fs root cutoff sc env).
End retention.

(** ** Bounds and progress of the scan *)

Section scanning.
Context `{UuidText}.
Variable parse_date : string -> option Z.
Variable format_date : Z -> string.
Variable cwd : option Path.
Variable list_dir : Path -> option ReadDir.
Variable fs : Files.
Variables (root : Path) (cutoff : Z).

Definition visit (agent : Uuid) (path : Path) (e : DirEntry) : list Candidate * list Failure :=
  visit_day parse_date format_date cwd fs cutoff agent path e.
Definition device (e : DirEntry) : option (Uuid * Path * option ReadDir) := visit_device cwd list_dir fs root e.
Definition turn : ScanState -> option ScanState := scan_turn parse_date format_date cwd list_dir fs root cutoff.
(** The old days a cursor has yet to yield, in order, and the entries it has yet to read. *)
Definition days_left (agent : Uuid) (path : Path) (days : ReadDir) : list Candidate :=
  concat ((fun e => match e with Some e => (visit agent path e).1 | None => [] end) <$> days).
Definition devices_left (agents : ReadDir) : list Candidate :=
  concat ((fun e => match e with
                    | Some e => match device e with Some (a, p, Some days) => days_left a p days | _ => [] end
                    | None => []
                    end) <$> agents).
Definition device_entries (e : option DirEntry) : nat :=
  match e with Some e => match device e with Some (_, _, Some days) => length days | _ => 0%nat end | None => 0%nat end.
Definition left (sc : Scan) : list Candidate :=
  match sc_current sc with Some (a, p, days) => days_left a p days | None => [] end ++ devices_left (default [] (sc_agents sc)).
Definition entries (sc : Scan) : nat :=
  (match sc_current sc with Some (_, _, days) => length days | None => 0 end + length (default [] (sc_agents sc))
   + sum_list (device_entries <$> default [] (sc_agents sc)))%nat.
(** A cursor inside a device was opened on a real directory. *)
Definition opened (sc : Scan) : Prop :=
  is_Some (sc_agents sc) /\ match sc_current sc with Some (_, p, _) => checked_directory cwd fs p = true | None => True end.

Lemma device_opened e a p days : device e = Some (a, p, Some days) -> checked_directory cwd fs p = true.
Proof.
  unfold device, visit_device. destruct (de_text e); [|done]. destruct (parse_uuid _); [|done]. cbn [mbind option_bind]. destruct (String.eqb _ _); [|done].
  destruct (checked_directory _ _ _) eqn:E; [|done]. by intros [= _ <- _].
Qed.
Definition in_bounds (b : Batch) : Prop :=
  (b_scanned b <= SCAN_ENTRIES)%nat /\ (length (b_candidates b) <= CANDIDATES)%nat /\ (length (b_candidates b) <= b_scanned b)%nat.
Lemma visit_length agent path e : (length (visit agent path e).1 <= 1)%nat.
Proof. unfold visit, visit_day. repeat case_match; simpl; lia. Qed.

(** What one turn preserves: the candidates found and left, the count of entries and the bounds. *)
Record turn_effect (s s' : ScanState) : Prop := {
  te_bounds : in_bounds (ss_batch s');
  te_left : b_complete (ss_batch s') = false ->
    b_candidates (ss_batch s') ++ left (ss_scan s') = b_candidates (ss_batch s) ++ left (ss_scan s)
    /\ (b_scanned (ss_batch s') + entries (ss_scan s') = b_scanned (ss_batch s) + entries (ss_scan s))%nat /\ opened (ss_scan s');
  te_complete : b_complete (ss_batch s') = true ->
    b_candidates (ss_batch s') = b_candidates (ss_batch s) ++ left (ss_scan s) /\ b_scanned (ss_batch s') = b_scanned (ss_batch s)
}.
Lemma turn_spec s s' : turn s = Some s' -> in_bounds (ss_batch s) -> opened (ss_scan s) -> turn_effect s s'.
Proof.
  unfold turn, scan_turn. intros Ht (B1 & B2 & B3) [Hag Hop]. destruct (Nat.ltb _ SCAN_ENTRIES) eqn:E1; [|done]. destruct (Nat.ltb _ CANDIDATES) eqn:E2; [|done].
  apply Nat.ltb_lt in E1, E2. destruct (b_complete (ss_batch s)) eqn:Ec; [done|]. cbn [andb negb] in Ht. destruct s as [[agents current] b]. cbn [ss_scan ss_batch sc_agents sc_current] in *.
  destruct Hag as [agents' ->]. cbn [default from_option] in *. destruct current as [[[a p] days]|].
  - rewrite Hop in Ht. cbn [negb] in Ht. destruct days as [|[e|] days].
    + injection Ht as <-. split; cbn; [done| |by rewrite Ec]. intros _. done.
    + pose proof (visit_length a p e) as Hl. unfold visit in Hl. destruct (visit_day _ _ _ _ _ _ _ _) as [c f] eqn:Ev. cbn [fst] in Hl. injection Ht as <-.
      split; cbn; [unfold in_bounds; cbn; rewrite length_app; lia| |by rewrite Ec].
      intros _. unfold left, entries. cbn. unfold days_left at 2. cbn. unfold visit at 2. rewrite Ev. cbn. rewrite <- !app_assoc. split_and!; [done|lia|done..].
    + injection Ht as <-. split; cbn; [unfold in_bounds; cbn; rewrite app_nil_r; lia| |by rewrite Ec]. intros _. unfold left, entries. cbn. rewrite app_nil_r.
      split_and!; [done|lia|done..].
  - destruct agents' as [|[e|] rest].
    + injection Ht as <-. split; cbn; [done|done|]. intros _. unfold left. cbn. by rewrite app_nil_r.
    + cbn [id] in Ht. change (visit_device _ _ _ _ e) with (device e) in Ht. destruct (device e) as [[[a p] [days|]]|] eqn:Ed; injection Ht as <-.
      all: split; cbn; [unfold in_bounds; cbn; rewrite app_nil_r; lia| |by rewrite Ec]; intros _; unfold left, entries; cbn; rewrite Ed; cbn; rewrite app_nil_r.
      * split_and!; [done|lia|split; [by eexists|by eapply device_opened]].
      * split_and!; [done|lia|split; [by eexists|done]].
      * split_and!; [done|lia|split; [by eexists|done]].
    + injection Ht as <-. split; cbn; [unfold in_bounds; cbn; rewrite app_nil_r; lia| |by rewrite Ec]. intros _. unfold left, entries. cbn. rewrite app_nil_r.
      split_and!; [done|lia|split; [by eexists|done]].
Qed.

Definition turns_left (s : ScanState) : nat :=
  (2 * (SCAN_ENTRIES - b_scanned (ss_batch s)) + (match sc_current (ss_scan s) with Some _ => 1 | None => 0 end) + (if b_complete (ss_batch s) then 0 else 1))%nat.
Lemma turn_decreases s s' : turn s = Some s' -> (turns_left s' < turns_left s)%nat.
Proof.
  unfold turn, scan_turn, turns_left. intros Ht. destruct (Nat.ltb _ SCAN_ENTRIES) eqn:E1; [|done]. destruct (Nat.ltb _ CANDIDATES) eqn:E2; [|done].
  apply Nat.ltb_lt in E1. destruct (b_complete (ss_batch s)) eqn:Ec; [done|]. cbn [andb negb] in Ht. destruct s as [[agents current] b]. cbn [ss_scan ss_batch sc_agents sc_current] in *.
  destruct current as [[[a p] days]|].
  - destruct (negb _).
    + injection Ht as <-. cbn -[Nat.mul Nat.sub SCAN_ENTRIES]. rewrite Ec. lia.
    + destruct days as [|[e|] days]; [injection Ht as <-; cbn -[Nat.mul Nat.sub SCAN_ENTRIES]; rewrite Ec; lia|destruct (visit_day _ _ _ _ _ _ _ _); injection Ht as <-; cbn -[Nat.mul Nat.sub SCAN_ENTRIES]; rewrite Ec; lia|
        injection Ht as <-; cbn -[Nat.mul Nat.sub SCAN_ENTRIES]; rewrite Ec; lia].
  - destruct (default [] agents) as [|[e|] rest]; [injection Ht as <-; cbn -[Nat.mul Nat.sub SCAN_ENTRIES]; lia| |injection Ht as <-; cbn -[Nat.mul Nat.sub SCAN_ENTRIES]; rewrite Ec; lia].
    destruct (visit_device _ _ _ _ _) as [[[a p] [days|]]|]; injection Ht as <-; cbn -[Nat.mul Nat.sub SCAN_ENTRIES]; rewrite Ec; lia.
Qed.
Lemma turn_None s : turn s = None -> b_complete (ss_batch s) = false -> (SCAN_ENTRIES <= b_scanned (ss_batch s))%nat \/ (CANDIDATES <= length (b_candidates (ss_batch s)))%nat.
Proof.
  unfold turn, scan_turn. destruct (Nat.ltb _ SCAN_ENTRIES) eqn:E1; [|apply Nat.ltb_ge in E1; by left]. destruct (Nat.ltb _ CANDIDATES) eqn:E2; [|apply Nat.ltb_ge in E2; by right].
  intros Ht Hc. rewrite Hc in Ht. cbn [andb negb] in Ht. repeat case_match; done.
Qed.
(** What a whole batch does from a state that is not complete. *)
Record batch_effect (s s' : ScanState) : Prop := {
  be_bounds : in_bounds (ss_batch s');
  be_left : b_complete (ss_batch s') = false ->
    b_candidates (ss_batch s') ++ left (ss_scan s') = b_candidates (ss_batch s) ++ left (ss_scan s)
    /\ (b_scanned (ss_batch s') + entries (ss_scan s') = b_scanned (ss_batch s) + entries (ss_scan s))%nat /\ opened (ss_scan s')
    /\ ((SCAN_ENTRIES <= b_scanned (ss_batch s'))%nat \/ (CANDIDATES <= length (b_candidates (ss_batch s')))%nat);
  be_complete : b_complete (ss_batch s') = true -> b_candidates (ss_batch s') = b_candidates (ss_batch s) ++ left (ss_scan s)
}.
Lemma loop_spec fuel s : (turns_left s < fuel)%nat -> in_bounds (ss_batch s) -> opened (ss_scan s) -> b_complete (ss_batch s) = false ->
  exists s', scan_loop parse_date format_date cwd list_dir fuel fs root cutoff s = Some s' /\ batch_effect s s'.
Proof.
  revert s. induction fuel as [|fuel IH]; intros s Hf Hb Ho Hc; [lia|]. cbn [scan_loop]. change (scan_turn _ _ _ _ _ _ _ s) with (turn s).
  destruct (turn s) as [s1|] eqn:Et.
  - pose proof (turn_decreases _ _ Et) as Hd. destruct (turn_spec _ _ Et Hb Ho) as [B L C]. destruct (b_complete (ss_batch s1)) eqn:Ec.
    + destruct (C eq_refl) as [Hcand Hsc]. assert (turn s1 = None) as Hn by (unfold turn, scan_turn; rewrite Ec; cbn [negb]; by rewrite andb_false_r).
      destruct fuel as [|fuel]; [lia|]. cbn [scan_loop]. change (scan_turn _ _ _ _ _ _ _ s1) with (turn s1). rewrite Hn. exists s1. split; [done|].
      split; [done|congruence|done].
    + destruct (L eq_refl) as (L1 & L2 & L3). destruct (IH s1) as (s' & Hs' & [B' L' C']); [lia|done..|]. exists s'. split; [done|]. split; [done| |].
      * intros Hc'. destruct (L' Hc') as (M1 & M2 & M3 & M4). rewrite M1, M2. by split_and!.
      * intros Hc'. by rewrite (C' Hc').
  - exists s. split; [done|]. split; [done| |congruence]. intros _. split_and!; [done..|]. by apply turn_None.
Qed.

Definition batch (sc : Scan) : Scan * option Batch := scan_batch parse_date format_date cwd list_dir fs root cutoff sc.
(** Passes until one completes, with every candidate they yield. *)
Fixpoint sweep (passes : nat) (sc : Scan) : option (list Candidate) :=
  match passes with
  | O => None
  | S passes =>
      match batch sc with
      | (sc, Some b) => if b_complete b then Some (b_candidates b) else (fun l => b_candidates b ++ l) <$> sweep passes sc
      | (_, None) => None
      end
  end.
Lemma in_bounds_new : in_bounds Batch_new.
Proof. unfold in_bounds. cbn. unfold SCAN_ENTRIES, CANDIDATES. lia. Qed.
Lemma batch_opened sc : checked_directory cwd fs root = true -> opened sc ->
  exists s', batch sc = (ss_scan s', Some (ss_batch s')) /\ batch_effect {| ss_scan := sc; ss_batch := Batch_new |} s'.
Proof.
  intros Hr [Ha Hc]. unfold batch, scan_batch. rewrite Hr. cbn [negb]. destruct Ha as [agents Ha]. rewrite Ha.
  assert ({| sc_agents := Some agents; sc_current := sc_current sc |} = sc) as -> by (destruct sc; cbn in *; by subst).
  destruct (loop_spec SCAN_FUEL {| ss_scan := sc; ss_batch := Batch_new |}) as (s' & Hs' & He); [|apply in_bounds_new|split; [by eexists|done]|done|].
  - unfold turns_left, SCAN_FUEL. cbn. unfold SCAN_ENTRIES. destruct (sc_current sc); lia.
  - exists s'. by rewrite Hs'.
Qed.
Lemma sweep_opened n : checked_directory cwd fs root = true -> forall sc, opened sc -> (entries sc < n)%nat ->
  exists m, (m <= n)%nat /\ sweep m sc = Some (left sc).
Proof.
  intros Hr. induction n as [|n IH]; intros sc Ho Hn; [lia|]. destruct (batch_opened sc Hr Ho) as (s' & Hb & [B L C]).
  destruct (b_complete (ss_batch s')) eqn:Ec.
  - exists 1%nat. split; [lia|]. cbn [sweep]. rewrite Hb, Ec. by rewrite (C eq_refl).
  - destruct (L eq_refl) as (L1 & L2 & L3 & L4). cbn [ss_scan ss_batch Batch_new b_scanned b_candidates] in L1, L2. destruct B as (_ & _ & B3).
    destruct (IH (ss_scan s') L3) as (m & Hm & Hs).
    { assert (1 <= b_scanned (ss_batch s'))%nat; [|lia]. unfold SCAN_ENTRIES, CANDIDATES in L4. lia. }
    exists (S m). split; [lia|]. cbn [sweep]. rewrite Hb, Ec, Hs. cbn. by rewrite L1.
Qed.

Lemma device_Some e a p days : device e = Some (a, p, Some days) ->
  de_text e = true /\ parse_uuid (de_name e) = Some a /\ uuid_text a = de_name e /\ p = join root (de_name e) /\ checked_directory cwd fs p = true /\ list_dir p = Some days.
Proof.
  unfold device, visit_device. destruct (de_text e); [|done]. destruct (parse_uuid _) as [x|]; [|done]. cbn [mbind option_bind].
  destruct (String.eqb _ _) eqn:Es; [|done]. apply String.eqb_eq in Es. destruct (checked_directory _ _ _) eqn:Ec; [|done]. by intros [= <- <- Hl].
Qed.
Lemma visit_elem a p d c : c ∈ (visit a p d).1 ->
  de_text d = true /\ day_name parse_date format_date (de_name d) = Some (c_day c) /\ c_day c < cutoff /\ c_path c = join p (de_name d)
  /\ checked_directory cwd fs (c_path c) = true /\ c_agent c = a.
Proof.
  unfold visit, visit_day. destruct (de_text d); [|intros []%not_elem_of_nil]. destruct (day_name _ _ _) as [day|]; [|intros []%not_elem_of_nil].
  destruct (cutoff <=? day) eqn:El; [intros []%not_elem_of_nil|]. destruct (checked_directory _ _ _) eqn:Ec; [|intros []%not_elem_of_nil].
  intros ->%list_elem_of_singleton. cbn. bool_prop. split_and!; [done..|lia|done|done|done].
Qed.

(** The reference: every entry of every device directory of the root, in the order of the listings. *)
Definition old_days (agents : ReadDir) : list Candidate := devices_left agents.
(** The bounded scan finds exactly the old days: with the directory tree at rest, repeated passes
    from a fresh cursor, each reading at most 512 entries and yielding at most 32 days, end with a
    pass that reports completion, and together they yield, once each and in order, what one
    unbounded walk of the tree yields: the day directories of the device directories whose day is before
    the cutoff. *)
Theorem scan_finds_old_days agents :
  checked_directory cwd fs root = true -> list_dir root = Some agents ->
  (exists passes, sweep passes Scan_default = Some (old_days agents))
  /\ forall c, c ∈ old_days agents <-> exists e d days, Some e ∈ agents /\ de_text e = true /\ parse_uuid (de_name e) = Some (c_agent c)
       /\ uuid_text (c_agent c) = de_name e /\ checked_directory cwd fs (join root (de_name e)) = true
       /\ list_dir (join root (de_name e)) = Some days /\ Some d ∈ days /\ de_text d = true /\ day_name parse_date format_date (de_name d) = Some (c_day c)
       /\ c_day c < cutoff /\ c_path c = join (join root (de_name e)) (de_name d) /\ checked_directory cwd fs (c_path c) = true.
Proof.
  intros Hr Hl. split.
  - set (sc := {| sc_agents := Some agents; sc_current := None |}).
    destruct (sweep_opened (S (entries sc)) Hr sc) as (m & _ & Hs); [split; [by eexists|done]|lia|]. exists m.
    assert (batch Scan_default = batch sc) as Hb.
    { destruct (batch_opened sc Hr) as (s' & Hb & _); [split; [by eexists|done]|]. revert Hb. unfold batch, scan_batch, sc. cbn [sc_agents sc_current Scan_default].
      rewrite Hl, Hr. cbn [negb]. by destruct (scan_loop _ _ _ _ _ _ _ _ _). }
    destruct m as [|m]; [done|]. cbn [sweep] in *. by rewrite Hb.
  - intros [a day p]. unfold old_days, devices_left. rewrite elem_of_concat. cbn [c_agent c_day c_path]. split.
    + intros (l & (e & -> & He)%list_elem_of_fmap & Hin). destruct e as [e|]; [|by apply not_elem_of_nil in Hin].
      destruct (device e) as [[[a' p'] [days|]]|] eqn:Ed; [|by apply not_elem_of_nil in Hin..]. apply device_Some in Ed as (Ht & Hp & Hu & -> & Hc & Hd).
      unfold days_left in Hin. apply elem_of_concat in Hin as (l & (d & -> & Hd')%list_elem_of_fmap & Hin). destruct d as [d|]; [|by apply not_elem_of_nil in Hin].
      apply visit_elem in Hin. cbn [c_agent c_day c_path] in Hin. destruct Hin as (Hdt & Hdn & Hlt & -> & Hcp & ->). exists e, d, days. by split_and!.
    + intros (e & d & days & He & Ht & Hp & Hu & Hc & Hd & Hd' & Hdt & Hdn & Hlt & -> & Hcp). eexists. split.
      * apply list_elem_of_fmap. exists (Some e). split; [reflexivity|exact He].
      * assert (device e = Some (a, join root (de_name e), Some days)) as ->.
        { unfold device, visit_device. rewrite Ht, Hp. cbn [mbind option_bind]. rewrite Hu, String.eqb_refl. cbn [mbind option_bind]. by rewrite Hc, Hd. }
        unfold days_left. apply elem_of_concat. eexists. split; [apply list_elem_of_fmap; exists (Some d); split; [reflexivity|exact Hd']|].
        unfold visit, visit_day. rewrite Hdt, Hdn. destruct (cutoff <=? day) eqn:El; [bool_prop; lia|]. rewrite Hcp. by apply list_elem_of_singleton.
Qed.
End scanning.

(** ** What a pass may touch *)

Section removal.
Context `{UuidText}.
Variable parse_date : string -> option Z.
Variable format_date : Z -> string.
Variable cwd : option Path.
Variable list_dir : Path -> option ReadDir.
Variable root : Path.

Definition trash : list string := location cwd (trash_of root).
Lemma absolute_join p n : absolute cwd (join p n) = (fun q => join q n) <$> absolute cwd p.
Proof.
  unfold absolute, join. destruct p as [|c p]; [cbn; destruct cwd as [d|]; cbn; by rewrite ?app_nil_r|]. cbn [app is_absolute]. destruct c; [done|..].
  all: destruct cwd as [d|]; cbn; [by rewrite <- app_assoc|done].
Qed.
Lemma resolve_join q n : forall cur, resolve cur (q ++ [Normal n]) = resolve cur q ++ [n].
Proof. induction q as [|c q IH]; intros cur; [done|]. destruct c; cbn; apply IH. Qed.
Lemma location_join p n : location cwd (join p n) = location cwd p ++ [n].
Proof. unfold location. rewrite absolute_join. destruct (absolute cwd p) as [q|]; apply resolve_join. Qed.
Lemma under_app k prefix n : under k (prefix ++ [n]) = true -> under k prefix = true.
Proof.
  unfold under. intros Hp%bool_decide_eq_true. apply bool_decide_eq_true. rewrite length_app in Hp. cbn in Hp.
  assert (take (length prefix) k = take (length prefix) (take (length prefix + 1) k)) as -> by (rewrite take_take; f_equal; lia). rewrite Hp. by rewrite take_app_length.
Qed.
Lemma under_self k : under k k = true.
Proof. unfold under. apply bool_decide_eq_true. by rewrite firstn_all. Qed.
Lemma rename_other fs src dst k : under k src = false -> under k dst = false -> rename fs src dst !! k = fs !! k.
Proof.
  intros Hs Hd. unfold rename. destruct (fs !! k) as [v|] eqn:E.
  - rewrite (lookup_union_Some_l _ _ _ v); [done|]. by apply map_lookup_filter_Some.
  - apply lookup_union_None. split; [apply map_lookup_filter_None; by left|]. apply not_elem_of_list_to_map. intros Hin.
    apply list_elem_of_fmap in Hin as ([k' v] & -> & Hin). apply list_elem_of_fmap in Hin as ([k0 v0] & [= -> ->] & _). cbn in *.
    unfold under in Hd. rewrite take_app_length in Hd. by rewrite bool_decide_eq_true_2 in Hd.
Qed.
(** Detaching touches the day and the trash only. *)
Lemma detach_touches fs path env k :
  (is_Some (day_owner parse_date format_date root path) -> under k (location cwd path) = false) -> under k trash = false ->
  (detach_day parse_date format_date cwd fs root path env).1 !! k = fs !! k.
Proof.
  intros Hp Ht. unfold detach_day. destruct (negb _); [done|]. destruct (day_owner _ _ _ _) as [[owner day]|]; [|done].
  specialize (Hp ltac:(by eexists)). destruct (negb (checked_directory _ _ path)); [done|].
  fold trash. assert (forall fs1 : Files, fs1 !! k = fs !! k ->
    (if negb (checked_directory cwd fs1 (trash_of root)) then (fs1, false)
     else if dt_rename env then (rename fs1 (location cwd path) (location cwd (join (trash_of root) (owner ++ "-" ++ day ++ "-" ++ uuid_text (dt_name env))%string)), true)
     else (fs1, false)).1 !! k = fs !! k) as Hcase.
  { intros fs1 He. destruct (negb _); [done|]. destruct (dt_rename env); [|done]. cbn [fst]. rewrite rename_other; [done..|]. rewrite location_join.
    apply not_true_is_false. intros Eu%under_app. unfold trash in Ht. congruence. }
  destruct (fs !! trash) as [kind|].
  - pose proof (Hcase fs eq_refl) as Hx. revert Hx. destruct (negb _); [done|]. by destruct (dt_rename env).
  - destruct (dt_create env); [|done]. assert ((<[trash := KDir]> fs : Files) !! k = fs !! k) as He.
    { apply lookup_insert_ne. intros <-. rewrite under_self in Ht. done. }
    pose proof (Hcase _ He) as Hx. revert Hx. destruct (negb _); [done|]. by destruct (dt_rename env).
Qed.
(** A candidate of a pass that may be removed: its gate was taken and its index check said no row refers to it. *)
Definition removable (env : PassEnv) (i : nat) (c : Candidate) : bool :=
  ce_gate (pe_candidate env i) (c_agent c) && bool_decide (ce_indexed (pe_candidate env i) (c_agent c) (c_day c) = Some false).
Lemma remove_candidates_touch env cs : forall n fs r k,
  under k trash = false ->
  (forall i c, cs !! i = Some c -> removable env (n + i) c = true -> is_Some (day_owner parse_date format_date root (c_path c)) ->
     under k (location cwd (c_path c)) = false) ->
  (remove_candidates parse_date format_date cwd n root env fs r cs).1 !! k = fs !! k.
Proof.
  induction cs as [|c cs IH]; intros n fs r k Ht Hc; [done|]. cbn [remove_candidates].
  assert (forall i d, cs !! i = Some d -> removable env (S n + i) d = true -> is_Some (day_owner parse_date format_date root (c_path d)) -> under k (location cwd (c_path d)) = false) as Hc'.
  { intros i d Hi Hr Ho. apply (Hc (S i) d); [done| |done]. by rewrite <- plus_n_Sm. }
  destruct (ce_deadline _); [done|]. destruct (ce_gate _ _) eqn:Eg; cbn [negb]; [|by apply IH]. destruct (ce_indexed _ _ _) as [[|]|] eqn:Ei; [by apply IH| |by apply IH].
  assert (is_Some (day_owner parse_date format_date root (c_path c)) -> under k (location cwd (c_path c)) = false) as Hu.
  { intros Ho. apply (Hc 0%nat c); [done| |done]. unfold removable. rewrite Nat.add_0_r, Eg, Ei. by rewrite bool_decide_eq_true_2. }
  pose proof (detach_touches fs (c_path c) (ce_detach (pe_candidate env n)) k Hu Ht) as Hd. destruct (detach_day _ _ _ _ _ _ _) as [fs' ok].
  cbn [fst] in Hd. destruct (ok && _); (rewrite IH; [done..]).
Qed.
Lemma purge_touches fs gone k : under k trash = false -> (purge_trash cwd fs root gone).1 !! k = fs !! k.
Proof.
  intros Ht. unfold purge_trash. fold trash. destruct (negb _); [done|]. destruct (fs !! trash); [|done]. destruct (negb _); [done|].
  destruct gone as [g|]; cbn [fst]; (destruct (fs !! k) as [v|] eqn:E; [apply map_lookup_filter_Some; cbn; by rewrite Ht|apply map_lookup_filter_None; by left]).
Qed.

(** A cursor inside a device holds the directory that device's identifier names, and an old day of a
    device lies in that device's own directory. *)
Definition cursor_ok (sc : Scan) : Prop :=
  match sc_current sc with Some (a, p, _) => p = join root (uuid_text a) | None => True end.
Definition old_day (cutoff : Z) (c : Candidate) : Prop :=
  c_day c < cutoff /\ exists name, c_path c = join (join root (uuid_text (c_agent c))) name /\ day_name parse_date format_date name = Some (c_day c).
Lemma visit_old fs cutoff a p d c :
  p = join root (uuid_text a) -> c ∈ (visit_day parse_date format_date cwd fs cutoff a p d).1 -> old_day cutoff c.
Proof. intros -> (_ & Hn & Hlt & Hp & _ & <-)%visit_elem. split; [done|]. by exists (de_name d). Qed.
Lemma scan_turn_old fs cutoff s s1 :
  scan_turn parse_date format_date cwd list_dir fs root cutoff s = Some s1 ->
  Forall (old_day cutoff) (b_candidates (ss_batch s)) -> cursor_ok (ss_scan s) ->
  Forall (old_day cutoff) (b_candidates (ss_batch s1)) /\ cursor_ok (ss_scan s1).
Proof.
  unfold scan_turn, cursor_ok. intros Et Hs Hc. destruct (_ && _); [|done]. destruct (sc_current _) as [[[a p] days]|].
  - destruct (negb _); [by injection Et as <-|]. destruct days as [|[e|] days]; [by injection Et as <-| |injection Et as <-; cbn; by rewrite app_nil_r].
    pose proof (fun c => visit_old fs cutoff a p e c Hc) as He. destruct (visit_day _ _ _ _ _ _ _ _) as [c f]. injection Et as <-. cbn. split; [|done].
    apply Forall_app. split; [done|]. apply Forall_forall. exact He.
  - destruct (default [] _) as [|[e|] rest]; [by injection Et as <-| |injection Et as <-; cbn; by rewrite app_nil_r].
    destruct (visit_device _ _ _ _ _) as [[[a p] [days|]]|] eqn:Ed; injection Et as <-; cbn; rewrite app_nil_r; split; try done.
    apply device_Some in Ed as (_ & _ & -> & -> & _). done.
Qed.
Lemma scan_loop_old fs cutoff fuel : forall s s',
  scan_loop parse_date format_date cwd list_dir fuel fs root cutoff s = Some s' ->
  Forall (old_day cutoff) (b_candidates (ss_batch s)) -> cursor_ok (ss_scan s) ->
  Forall (old_day cutoff) (b_candidates (ss_batch s')) /\ cursor_ok (ss_scan s').
Proof.
  induction fuel as [|fuel IH]; intros s s'; cbn [scan_loop]; [done|]. destruct (scan_turn _ _ _ _ _ _ _ s) as [s1|] eqn:Et; [|by intros [= <-]].
  intros Hl Hs Hc. destruct (scan_turn_old _ _ _ _ Et Hs Hc). by eapply IH.
Qed.
Lemma scan_batch_old fs cutoff sc sc' out :
  scan_batch parse_date format_date cwd list_dir fs root cutoff sc = (sc', out) -> cursor_ok sc ->
  cursor_ok sc' /\ forall b, out = Some b -> Forall (old_day cutoff) (b_candidates b).
Proof.
  unfold scan_batch. intros Hb Hc. destruct (negb _); [by injection Hb as <- <-|].
  destruct (match sc_agents sc with Some l => Some l | None => list_dir root end) as [agents|]; [|by injection Hb as <- <-].
  destruct (scan_loop _ _ _ _ _ _ _ _ _) as [s|] eqn:E; [|by injection Hb as <- <-]. injection Hb as <- <-.
  apply scan_loop_old in E as [Ho Hc']; [|by constructor|done]. split; [done|]. by intros b [= <-].
Qed.
Lemma strip_prefix_app p prefix rest : strip_prefix p prefix = Some rest -> p = prefix ++ rest.
Proof.
  revert p. induction prefix as [|c prefix IH]; intros p; [destruct p; by intros [= <-]|]. destruct p as [|d p]; [done|]. cbn [strip_prefix].
  case_bool_decide as Hc; [|done]. intros Hs%IH. by subst.
Qed.
Lemma day_owner_Some path o : day_owner parse_date format_date root path = Some o ->
  exists owner agent name, path = join (join root owner) name /\ parse_uuid owner = Some agent /\ owner = uuid_text agent /\ is_Some (day_name parse_date format_date name).
Proof.
  unfold day_owner. destruct (strip_prefix path root) as [rest|] eqn:E; [|done]. apply strip_prefix_app in E as ->.
  destruct rest as [|[| | |owner] [|[| | |name] [|]]]; try done. destruct (parse_uuid owner) as [agent|] eqn:Ep; [|done]. cbn [mbind option_bind].
  destruct (_ && _) eqn:Ec; [|done]. intros _. apply andb_prop in Ec as [Eo Ed]. apply String.eqb_eq in Eo. exists owner, agent, name. unfold join.
  split_and!; [by rewrite <- app_assoc|done|done|]. destruct (day_name _ _ name); [by eexists|done].
Qed.

End removal.

(** A cursor that earlier passes left, whatever they met. *)
Inductive kept `{UuidText} (parse_date : string -> option Z) (format_date : Z -> string) (cwd : option Path) (root : Path) : Scan -> Prop :=
| kept_default : kept parse_date format_date cwd root Scan_default
| kept_pass list_dir running fs cutoff sc env fs' sc' r ok :
    kept parse_date format_date cwd root sc ->
    prune_at parse_date format_date cwd list_dir running fs root cutoff sc env = (fs', sc', r, ok) -> kept parse_date format_date cwd root sc'.
Lemma kept_cursor_ok `{UuidText} parse_date format_date cwd root sc : kept parse_date format_date cwd root sc -> cursor_ok root sc.
Proof.
  induction 1 as [|list_dir running fs cutoff sc env fs' sc' r ok _ IH Hp]; [done|]. unfold prune_at in Hp. destruct running; [by injection Hp as _ <- _ _|].
  unfold run in Hp. destruct (scan_batch _ _ _ _ _ _ _ _) as [sc1 out] eqn:Es. apply scan_batch_old in Es as [Hc _]; [|done].
  destruct (if pe_scan_timely env then out else None) as [b|]; [|by injection Hp as _ <- _ _].
  destruct (remove_candidates _ _ _ _ _ _ _ _). destruct (purge_trash _ _ _ _). by injection Hp as _ <- _ _.
Qed.

(** C13: Recall retention removes nothing but old, unreferenced days: whatever the cursor that
    earlier passes left, the failures and the timeouts of a pass, an entry of the file system changes
    only inside the trash directory or inside [root/device/day], where the device directory is the
    text form of a device's identifier, the day is a calendar date before the cutoff, and the pass,
    which is the only one running, found that day of that device in its scan, took that very device's gate
    and was told by the index check for that device and that day that no stored frame refers to it;
    what the gates and the index say of other devices and days is not asked. *)
Theorem only_old_unindexed_days_go `{UuidText} parse_date format_date cwd list_dir root running fs cutoff sc env k :
  kept parse_date format_date cwd root sc ->
  let '(fs', _, _, _) := prune_at parse_date format_date cwd list_dir running fs root cutoff sc env in
  fs' !! k <> fs !! k ->
  under k (trash cwd root) = true \/
  exists agent name day b i c, running = false /\ under k (location cwd root ++ [uuid_text agent; name]) = true
    /\ day_name parse_date format_date name = Some day /\ day < cutoff
    /\ (scan_batch parse_date format_date cwd list_dir fs root cutoff sc).2 = Some b /\ b_candidates b !! i = Some c
    /\ c_agent c = agent /\ c_day c = day /\ c_path c = join (join root (uuid_text agent)) name
    /\ ce_gate (pe_candidate env i) agent = true /\ ce_indexed (pe_candidate env i) agent day = Some false.
Proof.
  intros Hsc%kept_cursor_ok. unfold prune_at. destruct running; [done|]. unfold run. destruct (scan_batch _ _ _ _ _ _ _ _) as [sc' out] eqn:Es.
  destruct (if pe_scan_timely env then out else None) as [b|] eqn:Eo; [|done]. assert (out = Some b) as -> by (by destruct (pe_scan_timely env)).
  destruct (scan_batch_old _ _ _ _ _ _ _ _ _ _ Es Hsc) as [_ Hold]. specialize (Hold b eq_refl). destruct (remove_candidates _ _ _ _ _ _ _ _) as [fs1 r1] eqn:Er.
  destruct (purge_trash _ _ _ _) as [fs2 ok] eqn:Ep. intros Hk. destruct (under k (trash cwd root)) eqn:Et; [by left|right].
  set (f ic := removable env ic.1 ic.2 && isSome (day_owner parse_date format_date root (c_path ic.2)) && under k (location cwd (c_path ic.2))).
  destruct (existsb f (imap pair (b_candidates b))) eqn:Ex.
  - apply List.existsb_exists in Ex as (ic & Hin & Hf). apply list_elem_of_In, elem_of_lookup_imap in Hin as (i & c & -> & Hi). unfold f in Hf. cbn [fst snd] in Hf.
    apply andb_prop in Hf as [[Hr Ho]%andb_prop Hu]. destruct (day_owner _ _ _ _) as [o|] eqn:Eow; [|done].
    apply day_owner_Some in Eow as (owner & agent & name & Hp & _ & -> & _). pose proof (Forall_lookup_1 _ _ _ _ Hold Hi) as (Hlt & n & Hp' & Hn).
    assert (uuid_text agent = uuid_text (c_agent c) /\ name = n) as [Ea <-].
    { rewrite Hp in Hp'. unfold join in Hp'. apply app_inj_tail in Hp' as [[_ [= Ea]]%app_inj_tail [= En]]. done. }
    unfold removable in Hr. apply andb_prop in Hr as [Hg Hx]. apply bool_decide_eq_true in Hx. exists (c_agent c), name, (c_day c), b, i, c.
    rewrite Hp', !location_join, <- app_assoc in Hu. by split_and!.
  - destruct Hk. assert (fs2 !! k = fs1 !! k) as -> by (rewrite <- (purge_touches cwd root fs1 (pe_purge env) k Et); by rewrite Ep).
    assert (fs1 = (remove_candidates parse_date format_date cwd 0 root env fs (with_batch (database_stages parse_date format_date cutoff env) b) (b_candidates b)).1) as -> by (by rewrite Er).
    apply remove_candidates_touch; [done|]. intros i c Hi Hr [o Ho]. apply not_true_is_false. intros Hu.
    enough (existsb f (imap pair (b_candidates b)) = true) by congruence. apply List.existsb_exists. exists (i, c). split.
    + apply list_elem_of_In, elem_of_lookup_imap. by exists i, c.
    + unfold f. cbn [fst snd]. rewrite Ho, Hu. cbn [plus Nat.add] in Hr. by rewrite Hr.
Qed.

(** ** Examples *)

Definition ex_parse_date (s : string) : option Z := parse_uint 99999999 s.
Definition ex_format_date (d : Z) : string := number_text 9 10 d "".
Definition ex_root : Path := [RootDir; Normal "r"].
Definition ex_day (name : string) : list string := ["r"; "1"; name]%string.
Definition ex_files : Files :=
  {[ [] := KDir; ["r"]%string := KDir; ["r"; "1"]%string := KDir; ex_day "20240102" := KDir; ex_day "20240102" ++ ["a.jpg"]%string := KFile;
     ex_day "20250101" := KDir ]}.
Definition ex_entry (name : string) : option DirEntry := Some {| de_name := name; de_text := true |}.
Definition ex_list (p : Path) : option ReadDir :=
  if bool_decide (p = ex_root) then Some [ex_entry "1"; ex_entry "other"]
  else if bool_decide (p = join ex_root "1") then Some [ex_entry "20240102"; ex_entry "20250101"; ex_entry "notes"] else None.
Definition ex_pass : PassEnv :=
  {| pe_partitions := Some []; pe_default_in_time := true; pe_default := Some (0, false); pe_narrative := true; pe_scan_timely := true;
     pe_candidate _ := {| ce_deadline := false; ce_gate a := bool_decide (a = 1%N); ce_indexed a d := Some (negb (bool_decide (a = 1%N /\ d = 20240102)));
                          ce_detach := {| dt_create := true; dt_name := 5%N; dt_rename := true |}; ce_timely := true |};
     pe_purge := None; pe_purge_timely := true |}.

Lemma scan_finds_old_days_witness :
  exists passes, @sweep bin_uuid ex_parse_date ex_format_date None ex_list ex_files ex_root 20250000 passes Scan_default
    = Some [{| c_agent := 1%N; c_day := 20240102; c_path := join (join ex_root "1") "20240102" |}].
Proof.
  destruct (@scan_finds_old_days bin_uuid ex_parse_date ex_format_date None ex_list ex_files ex_root 20250000 [ex_entry "1"; ex_entry "other"]) as [[n Hn] _].
  - vm_compute. reflexivity.
  - vm_compute. reflexivity.
  - exists n. rewrite Hn. vm_compute. reflexivity.
Defined.
Definition ex_result : Files * Scan * Report * bool :=
  @prune_at bin_uuid ex_parse_date ex_format_date None ex_list false ex_files ex_root 20250000 Scan_default ex_pass.
Lemma only_old_unindexed_days_go_witness :
  removed ex_result.1.2 = 1%nat /\ ex_result.2 = true /\ ex_result.1.1.1 !! ex_day "20250101" = Some KDir /\ ex_result.1.1.1 !! ex_day "20240102" = None
  /\ (under (ex_day "20240102") (@trash None ex_root) = true \/ exists day, @day_name ex_parse_date ex_format_date "20240102" = Some day /\ day < 20250000).
Proof.
  split; [vm_compute; reflexivity|]. split; [vm_compute; reflexivity|]. split; [vm_compute; reflexivity|].
  assert (ex_result.1.1.1 !! ex_day "20240102" = None) as Hgone by (vm_compute; reflexivity). split; [exact Hgone|].
  pose proof (@only_old_unindexed_days_go bin_uuid ex_parse_date ex_format_date None ex_list ex_root false ex_files 20250000 Scan_default ex_pass (ex_day "20240102")
    (kept_default _ _ _ _)) as Ht.
  fold ex_result in Ht. destruct ex_result as [[[fs' sc'] r] ok]. cbn [fst snd] in Hgone.
  destruct Ht as [Ht|(agent & name & day & b & i & c & _ & Hu & Hd & Hlt & _)].
  - rewrite Hgone. vm_compute. discriminate.
  - left. exact Ht.
  - right. exists day. split; [|exact Hlt]. apply bool_decide_eq_true in Hu. injection Hu as _ Hn. rewrite Hn. exact Hd.
Defined.
