(* ===== verification/Accounts.v ===== *)
(** Dashboard accounts and sessions: user management ([server/src/auth/users/]), two-factor setup
    ([server/src/auth/twofa/]), the session of a sign-in ([server/src/auth/login.rs], whose lockout
    is in [Throttle]), the request guard ([server/src/auth/middleware.rs], [session_cookie.rs]) and
    single sign-on after the identity provider answered ([server/src/auth/oidc/handlers.rs]).
    Tables are finite maps; hashes, random draws, case folding and the one-time-code check are parameters. *)
From S2P Require Import Prelude Text Json Protocol RecallContext Keyframes Throttle.

Record UserRow := {
  us_name : string; us_hash : string; us_role : string; us_display : string; us_icon : option string; us_secret : option string; us_totp : bool
}.
Record SessionRow := { se_user : Uuid; se_expires : Z; se_ip : option string; se_csrf : string }.
Record IdentityRow := { id_issuer : string; id_subject : string; id_user : Uuid }.
Record CodeRow := { rc_user : Uuid; rc_hash : string; rc_used : bool }.
(** The tables; sessions by the hash of their token. *)
Record Accounts := {
  users : gmap Uuid UserRow; sessions : gmap string SessionRow; identities : gmap Z IdentityRow; recovery : gmap Z CodeRow
}.
Definition Accounts_empty : Accounts := {| users := ∅; sessions := ∅; identities := ∅; recovery := ∅ |}.
Definition set_users (a : Accounts) (x : gmap Uuid UserRow) : Accounts :=
  {| users := x; sessions := sessions a; identities := identities a; recovery := recovery a |}.
Definition set_sessions (a : Accounts) (x : gmap string SessionRow) : Accounts :=
  {| users := users a; sessions := x; identities := identities a; recovery := recovery a |}.
Definition set_identities (a : Accounts) (x : gmap Z IdentityRow) : Accounts :=
  {| users := users a; sessions := sessions a; identities := x; recovery := recovery a |}.
Definition set_recovery (a : Accounts) (x : gmap Z CodeRow) : Accounts :=
  {| users := users a; sessions := sessions a; identities := identities a; recovery := x |}.
Definition first_row {K A} `{Countable K} (f : A -> bool) (m : gmap K A) : option (K * A) := List.find (fun r => f r.2) (map_to_list m).

(** [str::strip_prefix]. *)
Fixpoint strip_prefix (p s : string) : option string :=
  match p, s with
  | EmptyString, _ => Some s
  | String c p, String d s => if Ascii.eqb c d then strip_prefix p s else None
  | String _ _, EmptyString => None
  end.

Inductive ApiError : Type := BadRequest (msg : string) | Forbidden | NotFoundError (msg : string) | ConflictError (msg : string) | Internal.
Abbreviation ApiResult T := (result T ApiError) (only parsing).

(** The user a request acts as. *)
Record SignedIn := { si_user : Uuid; si_name : string; si_role : string; si_display : string; si_icon : option string; si_csrf : string }.
Definition is_admin (u : SignedIn) : bool := String.eqb (si_role u) "admin".
Definition is_operator (u : SignedIn) : bool := String.eqb (si_role u) "operator" || String.eqb (si_role u) "admin".
Definition require_admin (u : SignedIn) : ApiResult SignedIn := if is_admin u then Ok u else Err Forbidden.
Definition require_operator (u : SignedIn) : ApiResult SignedIn := if is_operator u then Ok u else Err Forbidden.

Section accounts.
(** [str::to_lowercase] and SQL's [lower]; SHA-256 in hexadecimal; the password hash of a text under a
    salt and its check; the check of a one-time code against a secret at a time. *)
Variable to_lowercase : string -> string.
Variable sql_lower : string -> string.
Variable sha256_hex : string -> string.
Variable hash_dashboard_password : string -> string -> option string.
Variable verify_dashboard_password : string -> string -> bool.
Variable check_current : string -> string -> Z -> bool.

(** ** Queries: [users/db] *)

Definition user_is (f : UserRow -> bool) (a : Accounts) (id : Uuid) : bool := is_some_and (users a !! id) f.
Definition admin_row (r : UserRow) : bool := String.eqb (us_role r) "admin".
Definition dashboard_user_is_admin : Accounts -> Uuid -> bool := user_is admin_row.
Definition dashboard_admin_count (a : Accounts) : Z := Z.of_nat (size (filter (fun kr => admin_row kr.2 = true) (users a))).
Definition dashboard_user_get_by_username (a : Accounts) (name : string) : option (Uuid * UserRow) :=
  first_row (fun r => String.eqb (sql_lower (us_name r)) (sql_lower name)) (users a).
Definition dashboard_username_taken_by_other (a : Accounts) (name : string) (id : Uuid) : bool :=
  isSome (List.find (fun kr => String.eqb (sql_lower (us_name kr.2)) (sql_lower name) && negb (bool_decide (kr.1 = id))) (map_to_list (users a))).
Definition update_user (f : UserRow -> UserRow) (a : Accounts) (id : Uuid) : Accounts := set_users a (alter f id (users a)).
Definition with_role (role : string) (r : UserRow) : UserRow :=
  {| us_name := us_name r; us_hash := us_hash r; us_role := role; us_display := us_display r; us_icon := us_icon r; us_secret := us_secret r; us_totp := us_totp r |}.
Definition with_hash (h : string) (r : UserRow) : UserRow :=
  {| us_name := us_name r; us_hash := h; us_role := us_role r; us_display := us_display r; us_icon := us_icon r; us_secret := us_secret r; us_totp := us_totp r |}.
Definition with_name (n : string) (r : UserRow) : UserRow :=
  {| us_name := n; us_hash := us_hash r; us_role := us_role r; us_display := us_display r; us_icon := us_icon r; us_secret := us_secret r; us_totp := us_totp r |}.
Definition with_display (d : string) (r : UserRow) : UserRow :=
  {| us_name := us_name r; us_hash := us_hash r; us_role := us_role r; us_display := d; us_icon := us_icon r; us_secret := us_secret r; us_totp := us_totp r |}.
Definition with_icon (i : option string) (r : UserRow) : UserRow :=
  {| us_name := us_name r; us_hash := us_hash r; us_role := us_role r; us_display := us_display r; us_icon := i; us_secret := us_secret r; us_totp := us_totp r |}.
Definition with_totp (s : option string) (on : bool) (r : UserRow) : UserRow :=
  {| us_name := us_name r; us_hash := us_hash r; us_role := us_role r; us_display := us_display r; us_icon := us_icon r; us_secret := s; us_totp := on |}.
(** The insert of a user: refused when its id or its exact name is taken. *)
Definition dashboard_user_create (a : Accounts) (fresh : Uuid) (name hash role display : string) : option Accounts :=
  if isSome (users a !! fresh) || isSome (first_row (fun r => String.eqb (us_name r) name) (users a)) then None
  else Some (set_users a (<[fresh := {| us_name := name; us_hash := hash; us_role := role; us_display := display; us_icon := None;
                                        us_secret := None; us_totp := false |}]> (users a))).
(** A deleted user's sessions, identities and recovery codes go with it. *)
Definition dashboard_user_delete (a : Accounts) (id : Uuid) : Accounts :=
  {| users := delete id (users a); sessions := filter (fun ks => se_user ks.2 <> id) (sessions a);
     identities := filter (fun ki => id_user ki.2 <> id) (identities a); recovery := filter (fun kc => rc_user kc.2 <> id) (recovery a) |}.
Definition dashboard_sessions_delete_for_user (a : Accounts) (id : Uuid) : Accounts :=
  set_sessions a (filter (fun ks => se_user ks.2 <> id) (sessions a)).
Definition dashboard_session_create (a : Accounts) (hash : string) (s : SessionRow) : option Accounts :=
  if isSome (sessions a !! hash) || negb (isSome (users a !! se_user s)) then None else Some (set_sessions a (<[hash := s]> (sessions a))).
Definition dashboard_session_get_user (a : Accounts) (hash : string) (now : Z) : option SignedIn :=
  s ← sessions a !! hash;
  if now <? se_expires s then
    (fun u => {| si_user := se_user s; si_name := us_name u; si_role := us_role u; si_display := us_display u; si_icon := us_icon u; si_csrf := se_csrf s |})
    <$> users a !! se_user s
  else None.

(** ** Account service: [users/service.rs] *)

Definition create_user (a : Accounts) (fresh : Uuid) (salt name password role display : string) : option Accounts :=
  hash ← hash_dashboard_password salt password; dashboard_user_create a fresh name hash role display.
Definition set_password (a : Accounts) (id : Uuid) (salt password : string) : option Accounts :=
  hash ← hash_dashboard_password salt password; Some (update_user (with_hash hash) a id).
Definition bootstrap_default_admin (a : Accounts) (fresh : Uuid) (salt name password : string) : option Accounts :=
  if (0 <? size (users a))%nat then Some a else create_user a fresh salt name password "admin" "".
Definition unused_code (user : Uuid) (code : string) (r : CodeRow) : bool :=
  bool_decide (rc_user r = user) && negb (rc_used r) && verify_dashboard_password (rc_hash r) code.
Definition matching_recovery_code (a : Accounts) (user : Uuid) (code : string) : option Z := fst <$> first_row (unused_code user code) (recovery a).
Definition mark_used (r : CodeRow) : CodeRow := {| rc_user := rc_user r; rc_hash := rc_hash r; rc_used := true |}.
Definition dashboard_recovery_code_mark_used (a : Accounts) (id : Z) : Accounts := set_recovery a (alter mark_used id (recovery a)).
Definition consume_recovery_code (a : Accounts) (user : Uuid) (code : string) : Accounts * bool :=
  match matching_recovery_code a user code with
  | Some id => (dashboard_recovery_code_mark_used a id, true)
  | None => (a, false)
  end.

(** ** User management: [users/api.rs] *)

Definition normalize_role (raw : option string) : result string string :=
  let t := to_lowercase (trim (default "viewer"%string raw)) in
  if existsb (String.eqb t) ["admin"; "operator"; "viewer"]%string then Ok t else Err "role must be one of: admin, operator, viewer"%string.
Definition normalize_profile_display_name (raw : string) : result string string :=
  let t := trim raw in
  ensure negb (200 <? String.length t)%nat else "display name must be at most 200 characters"%string in
  ensure negb (is_control t) else "display name may not contain control characters"%string in Ok t.
Definition normalize_profile_username (raw : string) : result string string :=
  let t := trim raw in
  ensure negb (String.eqb t "") else "username must not be empty"%string in
  ensure negb (128 <? String.length t)%nat else "username must be at most 128 characters"%string in
  ensure negb (is_control t) else "username may not contain control characters"%string in Ok t.
Definition MAX_AVATAR_DATA_URL_BYTES : Z := 240000.
Definition ascii_alphanumeric (c : ascii) : bool :=
  let n := N_of_ascii c in ((48 <=? n) && (n <=? 57) || (65 <=? n) && (n <=? 90) || (97 <=? n) && (n <=? 122))%N.
Definition avatar_heads : list string :=
  ["data:image/png;base64"; "data:image/jpeg;base64"; "data:image/jpg;base64"; "data:image/webp;base64"; "data:image/gif;base64"]%string.
Definition lucide_name : string -> option string := strip_prefix "icon:lucide:".
Definition normalize_profile_display_icon_set (raw : string) : result string string :=
  let t := trim raw in
  ensure negb (String.eqb t "") else "icon must not be blank (omit the field or send null to clear)"%string in
  match lucide_name t with
  | Some name =>
      ensure negb (String.eqb name "") else "Lucide icon name is required"%string in
      ensure negb (48 <? String.length name)%nat else "Lucide icon name is too long"%string in
      ensure all_char ascii_alphanumeric name else "Lucide icon name must be alphanumeric (PascalCase)"%string in Ok ("icon:lucide:" ++ name)%string
  | None =>
      if String.prefix "data:image/" t then
        ensure negb (MAX_AVATAR_DATA_URL_BYTES <? Z.of_nat (String.length t)) else "avatar image is too large"%string in
        let head := to_ascii_lowercase (match split_once "," t with Some (h, _) => h | None => t end) in
        ensure existsb (fun p => String.prefix p head) avatar_heads else "avatar must be a PNG, JPEG, WebP, or GIF data URL"%string in
        ensure negb (is_control t) else "avatar data URL may not contain control characters"%string in Ok t
      else
        ensure negb (32 <? String.length t)%nat else "icon must be at most 32 characters"%string in
        ensure negb (is_control t) else "icon may not contain control characters"%string in Ok t
  end.

Definition or_internal {T} (o : option T) : ApiResult T := ok_or o Internal.
Definition as_bad_request {T} (r : result T string) : ApiResult T := rmap_err BadRequest r.
(** Each handler returns the tables and its answer; a refusal leaves them alone. *)
Definition answer {T} (a : Accounts) (r : ApiResult (Accounts * T)) : Accounts * ApiResult T :=
  match r with Ok (a, t) => (a, Ok t) | Err e => (a, Err e) end.

Definition users_create (a : Accounts) (user : SignedIn) (fresh : Uuid) (salt name password : string) (role display_name : option string)
    : Accounts * ApiResult Uuid :=
  answer a (
    let* _ := require_admin user in
    let* role := as_bad_request (normalize_role role) in
    ensure negb (String.eqb (trim name) "") else BadRequest "username is required" in
    ensure negb (String.length password <? 6)%nat else BadRequest "password must be at least 6 characters" in
    let* display := as_bad_request (normalize_profile_display_name (default ""%string display_name)) in
    let* a := or_internal (create_user a fresh salt (trim name) password role display) in Ok (a, fresh)).

(** The fields a profile update carries; the icon may be cleared. *)
Record UserProfileBody := { pb_username : option string; pb_display_name : option string; pb_icon : option (option string) }.
Definition profile_username (id : Uuid) (row : UserRow) (a : Accounts) (raw : option string) : Accounts * ApiResult unit :=
  match raw with
  | None => (a, Ok tt)
  | Some raw =>
      match normalize_profile_username raw with
      | Err e => (a, Err (BadRequest e))
      | Ok name => if String.eqb name (us_name row) then (a, Ok tt)
                   else if dashboard_username_taken_by_other a name id then (a, Err (ConflictError "That username is already taken"))
                   else (update_user (with_name name) a id, Ok tt)
      end
  end.
Definition profile_display_name (id : Uuid) (row : UserRow) (a : Accounts) (raw : option string) : Accounts * ApiResult unit :=
  match raw with
  | None => (a, Ok tt)
  | Some raw =>
      match normalize_profile_display_name raw with
      | Err e => (a, Err (BadRequest e))
      | Ok d => if String.eqb d (us_display row) then (a, Ok tt) else (update_user (with_display d) a id, Ok tt)
      end
  end.
Definition profile_icon (id : Uuid) (a : Accounts) (raw : option (option string)) : Accounts * ApiResult unit :=
  match raw with
  | None => (a, Ok tt)
  | Some None => (update_user (with_icon None) a id, Ok tt)
  | Some (Some raw) => match normalize_profile_display_icon_set raw with
                       | Err e => (a, Err (BadRequest e))
                       | Ok i => (update_user (with_icon (Some i)) a id, Ok tt)
                       end
  end.
(** The fields are stored one after the other: a refused one keeps those stored before it. *)
Definition user_profile_update (a : Accounts) (user : SignedIn) (id : Uuid) (body : UserProfileBody) : Accounts * ApiResult unit :=
  if negb (bool_decide (si_user user = id)) && negb (is_admin user) then (a, Err Forbidden)
  else if negb (isSome (pb_username body)) && negb (isSome (pb_icon body)) && negb (isSome (pb_display_name body))
  then (a, Err (BadRequest "Provide username, display_name, and/or display_icon to update"))
  else
    match users a !! id with
    | None => (a, Err (NotFoundError "user not found"))
    | Some row =>
        match profile_username id row a (pb_username body) with
        | (a, Err e) => (a, Err e)
        | (a, Ok _) =>
            match profile_display_name id row a (pb_display_name body) with
            | (a, Err e) => (a, Err e)
            | (a, Ok _) => profile_icon id a (pb_icon body)
            end
        end
    end.

(** [revoked]: whether deleting the sessions succeeded; its failure is ignored. *)
Definition revoke_sessions (revoked : bool) (a : Accounts) (id : Uuid) : Accounts := if revoked then dashboard_sessions_delete_for_user a id else a.
Definition user_set_password (a : Accounts) (user : SignedIn) (id : Uuid) (salt password : string) (revoked : bool) : Accounts * ApiResult unit :=
  answer a (
    let* _ := require_admin user in
    ensure negb (String.length password <? 6)%nat else BadRequest "password must be at least 6 characters" in
    let* a := or_internal (set_password a id salt password) in Ok (revoke_sessions revoked a id, tt)).

(** Whether the two reads of the last-admin guard succeeded: a failed one counts as "not an admin" and
    as no admins. *)
Record GuardReads := { gr_is_admin : bool; gr_count : bool }.
Definition last_admin (a : Accounts) (id : Uuid) (g : GuardReads) : bool :=
  (gr_is_admin g && dashboard_user_is_admin a id) && ((if gr_count g then dashboard_admin_count a else 0) <=? 1).
Definition set_role_check (a : Accounts) (user : SignedIn) (id : Uuid) (role : string) (g : GuardReads) : ApiResult string :=
  let* _ := require_admin user in
  let* role := as_bad_request (normalize_role (Some role)) in
  ensure String.eqb role "admin" || negb (last_admin a id g) else BadRequest "Cannot demote the last admin user" in Ok role.
Definition set_role_write (a : Accounts) (id : Uuid) (role : string) (revoked : bool) : Accounts := revoke_sessions revoked (update_user (with_role role) a id) id.
Definition user_set_role (a : Accounts) (user : SignedIn) (id : Uuid) (role : string) (g : GuardReads) (revoked : bool) : Accounts * ApiResult unit :=
  answer a (let* role := set_role_check a user id role g in Ok (set_role_write a id role revoked, tt)).
Definition delete_check (a : Accounts) (user : SignedIn) (id : Uuid) (g : GuardReads) : ApiResult unit :=
  let* _ := require_admin user in
  ensure negb (bool_decide (id = si_user user)) else BadRequest "cannot delete your own user" in
  ensure negb (last_admin a id g) else BadRequest "Cannot delete the last admin user" in Ok tt.
Definition user_delete (a : Accounts) (user : SignedIn) (id : Uuid) (g : GuardReads) : Accounts * ApiResult unit :=
  answer a (let* _ := delete_check a user id g in Ok (dashboard_user_delete a id, tt)).

Definition identity_of (issuer subject : string) (i : IdentityRow) : bool := String.eqb (id_issuer i) issuer && String.eqb (id_subject i) subject.
(** Insert, or point the existing identity at the user. *)
Definition dashboard_identity_link (a : Accounts) (fresh : Z) (issuer subject : string) (user : Uuid) : option Accounts :=
  if isSome (users a !! user) then
    let key := default fresh (fst <$> first_row (identity_of issuer subject) (identities a)) in
    Some (set_identities a (<[key := {| id_issuer := issuer; id_subject := subject; id_user := user |}]> (identities a)))
  else None.
Definition user_identity_link (a : Accounts) (user : SignedIn) (id : Uuid) (fresh : Z) (issuer subject : string) : Accounts * ApiResult unit :=
  answer a (
    let* _ := require_admin user in
    ensure negb (String.eqb (trim issuer) "" || String.eqb (trim subject) "") else BadRequest "issuer and subject are required" in
    let* a := or_internal (dashboard_identity_link a fresh (trim issuer) (trim subject) id) in Ok (a, tt)).
Definition identity_unlink (a : Accounts) (user : SignedIn) (identity : Z) : Accounts * ApiResult unit :=
  answer a (let* _ := require_admin user in Ok (set_identities a (delete identity (identities a)), tt)).

(** ** Two-factor setup: [twofa/] *)

Definition ascii_digit (c : ascii) : bool := let n := N_of_ascii c in ((48 <=? n) && (n <=? 57))%N.
Definition verify (secret code : string) (now : Z) : bool :=
  let code := trim code in Nat.eqb (String.length code) 6 && all_char ascii_digit code && check_current secret code now.
Definition dashboard_user_totp_get (a : Accounts) (id : Uuid) : option string * bool :=
  match users a !! id with Some r => (us_secret r, us_totp r) | None => (None, false) end.
Definition twofa_status (a : Accounts) (user : SignedIn) : bool * bool :=
  let (secret, enabled) := dashboard_user_totp_get a (si_user user) in (enabled, isSome secret && negb enabled).
(** The secret drawn is stored, and the second factor is off until a code is verified. *)
Definition twofa_setup (a : Accounts) (user : SignedIn) (secret : string) : Accounts := update_user (with_totp (Some secret) false) a (si_user user).
Definition drop_codes (user : Uuid) (m : gmap Z CodeRow) : gmap Z CodeRow := filter (fun kc => rc_user kc.2 <> user) m.
Definition insert_code (user : Uuid) (m : gmap Z CodeRow) (r : Z * string) : gmap Z CodeRow :=
  <[r.1 := {| rc_user := user; rc_hash := r.2; rc_used := false |}]> m.
Definition dashboard_recovery_codes_replace (a : Accounts) (user : Uuid) (rows : list (Z * string)) : Accounts :=
  set_recovery a (foldl (insert_code user) (drop_codes user (recovery a)) rows).
(** A recovery code drawn, the salt of its hash and the id of its row. *)
Record NewCode := { nc_plain : string; nc_salt : string; nc_row : Z }.
Definition hash_code (c : NewCode) : option (Z * string) := (fun h => (nc_row c, h)) <$> hash_dashboard_password (nc_salt c) (nc_plain c).
(** The factor is on before the recovery codes are stored: their failure leaves it on. *)
Definition twofa_enable (a : Accounts) (user : SignedIn) (code : string) (now : Z) (codes : list NewCode) : Accounts * ApiResult (list string) :=
  match dashboard_user_totp_get a (si_user user) with
  | (_, true) => (a, Err (BadRequest "Two-factor authentication is already enabled"))
  | (None, false) => (a, Err (BadRequest "Start 2FA setup before enabling"))
  | (Some secret, false) =>
      if negb (verify secret (trim code) now) then (a, Err (BadRequest "Invalid code"))
      else
        let a := update_user (fun r => with_totp (us_secret r) true r) a (si_user user) in
        match mapM hash_code codes with
        | Some rows => (dashboard_recovery_codes_replace a (si_user user) rows, Ok (nc_plain <$> codes))
        | None => (a, Err Internal)
        end
  end.
Definition dashboard_user_totp_disable (a : Accounts) (user : Uuid) : Accounts :=
  let a := update_user (with_totp None false) a user in set_recovery a (drop_codes user (recovery a)).
(** The second factor: the current code, or a recovery code, which is then used up. *)
Definition second_factor (a : Accounts) (user : Uuid) (secret : option string) (code : string) (now : Z) : Accounts * bool :=
  if is_some_and secret (fun s => verify s code now) then (a, true) else consume_recovery_code a user code.
Definition twofa_disable (a : Accounts) (user : SignedIn) (code : string) (now : Z) : Accounts * ApiResult unit :=
  match dashboard_user_totp_get a (si_user user) with
  | (_, false) => (a, Ok tt)
  | (secret, true) =>
      match second_factor a (si_user user) secret (trim code) now with
      | (a, true) => (dashboard_user_totp_disable a (si_user user), Ok tt)
      | (a, false) => (a, Err (BadRequest "Invalid code"))
      end
  end.

(** ** Signing in: [login.rs] *)

Definition session_seconds : Z := 86400.
Record LoginRequest := {
  lr_username : string; lr_password : string; lr_totp : option string; lr_ip_key : string; lr_client_ip : option string;
  lr_check_at : Instant; lr_record_at : Instant; lr_now : Z; lr_token : string; lr_csrf : string
}.
Definition totp_code_of (rq : LoginRequest) : string := default ""%string (trim <$> lr_totp rq).
(** What the lockout and the credential checks of [Throttle.login] see of the tables. *)
Definition attempt_of (a : Accounts) (rq : LoginRequest) (row : option (Uuid * UserRow)) : LoginAttempt :=
  {| ip_key := lr_ip_key rq; username := to_lowercase (trim (lr_username rq)); check_at := lr_check_at rq; record_at := lr_record_at rq;
     user_row := Ok ((fun kr => us_hash kr.2) <$> row);
     password_ok := fun hash => verify_dashboard_password hash (lr_password rq);
     totp_row := Ok (match row with Some (id, _) => dashboard_user_totp_get a id | None => (None, false) end);
     Throttle.totp_code := totp_code_of rq;
     totp_verify := fun secret code => verify secret code (lr_now rq);
     recovery_ok := fun code => match row with Some (id, _) => isSome (matching_recovery_code a id code) | None => false end |}.
(** The new session: its token leaves only as a hash. *)
Definition new_session (a : Accounts) (user : Uuid) (rq : LoginRequest) : option Accounts :=
  dashboard_session_create a (sha256_hex (lr_token rq))
    {| se_user := user; se_expires := lr_now rq + session_seconds; se_ip := lr_client_ip rq; se_csrf := lr_csrf rq |}.
Definition sign_in (map : FailureMap) (a : Accounts) (rq : LoginRequest) : FailureMap * Accounts * LoginOutcome :=
  let row := dashboard_user_get_by_username a (trim (lr_username rq)) in
  match Throttle.login map (attempt_of a rq row), row with
  | (map, Authenticated), Some (id, _) =>
      let (secret, enabled) := dashboard_user_totp_get a id in
      let a := if enabled then (second_factor a id secret (totp_code_of rq) (lr_now rq)).1 else a in
      match new_session a id rq with
      | Some a => (map, a, Authenticated)
      | None => (map, a, InternalError "session")
      end
  | (map, out), _ => (map, a, out)
  end.

(** ** The request guard: [session_cookie.rs] and [middleware.rs] *)

Definition csrf_header_matches (expected : string) (supplied : option string) : bool := is_some_and supplied (String.eqb expected).
Definition cookie_get (cookies : option string) (name : string) : option string :=
  c ← cookies; find_map (fun part => strip_prefix (name ++ "=") (trim part)) (split_on ";" c).
Definition extract_session (cookies : option string) : option string :=
  c ← cookies; find_map (fun part => strip_prefix "session=" (trim part)) (split_on ";" c).
Definition cookie_clear (name : string) (secure : bool) : string :=
  (name ++ "=; HttpOnly; " ++ (if secure then "SameSite=None; Secure" else "SameSite=Lax") ++ "; Path=/; Max-Age=0")%string.
Inductive Method := GET | HEAD | OPTIONS | POST | PUT | PATCH | DELETE | OtherMethod.
Definition request_requires_csrf_token (m : Method) : bool := match m with POST | PUT | PATCH | DELETE => true | _ => false end.
(** The headers the guard reads; one that is not visible ASCII reads as absent. *)
Record Request := { rq_method : Method; rq_cookie : option string; rq_csrf : option string }.
Inductive Guarded := PassedOpen | Passed (user : SignedIn) | Unauthorized | CsrfRejected | StoreUnavailable.
(** [open]: a debug build that may run without users; [count_ok] and [store_ok]: whether the two reads succeeded. *)
Definition require_auth (open count_ok store_ok : bool) (a : Accounts) (now : Z) (rq : Request) : Guarded :=
  if open && count_ok && Nat.eqb (size (users a)) 0 then PassedOpen
  else
    match extract_session (rq_cookie rq) with
    | None => Unauthorized
    | Some token =>
        if negb store_ok then StoreUnavailable
        else
          match dashboard_session_get_user a (sha256_hex token) now with
          | None => Unauthorized
          | Some user => if request_requires_csrf_token (rq_method rq) && negb (csrf_header_matches (si_csrf user) (rq_csrf rq)) then CsrfRejected
                         else Passed user
          end
    end.
(** [deleted]: whether the delete succeeded. *)
Definition logout (a : Accounts) (cookies : option string) (deleted : bool) : Accounts :=
  match extract_session cookies with
  | Some token => if deleted then set_sessions a (delete (sha256_hex token) (sessions a)) else a
  | None => a
  end.
Definition status (open count_ok store_ok : bool) (a : Accounts) (cookies : option string) (now : Z) : bool * bool :=
  if open && count_ok && Nat.eqb (size (users a)) 0 then (true, false)
  else (match extract_session cookies with
        | Some token => store_ok && isSome (dashboard_session_get_user a (sha256_hex token) now)
        | None => false
        end, true).

(** ** Single sign-on: [oidc/handlers.rs] *)

Definition sanitize_return_to (raw : string) : string :=
  let t := trim raw in
  if String.eqb t "" then "/"%string
  else if negb (String.prefix "/" t) || String.prefix "//" t || str_contains t "://" then "/"%string
  else if is_control t then "/"%string
  else t.
Record OidcConfig := { admin_group : option string; operator_group : option string; allowed_groups : list string }.
Definition in_groups (groups : list string) (g : string) : bool := existsb (String.eqb g) groups.
Definition oidc_provisioning_allowed (cfg : OidcConfig) (groups : list string) : bool :=
  match allowed_groups cfg with [] => true | _ => existsb (in_groups groups) (allowed_groups cfg) end.
Definition map_role_from_groups (cfg : OidcConfig) (groups : list string) : string :=
  if is_some_and (admin_group cfg) (in_groups groups) then "admin"%string
  else if is_some_and (operator_group cfg) (in_groups groups) then "operator"%string else "viewer"%string.
Record OidcClaims := {
  cl_issuer : string; cl_subject : string; cl_preferred : option string; cl_email : option string; cl_name : option string; cl_groups : list string
}.
Record OidcCallbackQuery := { q_error : option string; q_code : option string; q_state : option string }.
Inductive OidcOutcome :=
| NotConfigured | ProviderError (e : string) | MissingCode | MissingState | InvalidState | MissingNonce
| ExchangeFailed (e : string) | NotAuthorized | Failed | Panicked | Redirect (user : Uuid) (return_to : string).
(** [&subject[..min(len, 12)]]: inside a character it panics. *)
Definition fallback_name (subject : string) : option string :=
  let n := Nat.min 12 (String.length subject) in
  if is_char_boundary subject n then Some ("oidc-" ++ String.substring 0 n subject)%string else None.
(** Draws and clock of a callback: the session, a new user's id, salt and password, a new identity's
    row, and whether the identity's upsert succeeded. *)
Record OidcDraws := { od_login : LoginRequest; od_user : Uuid; od_salt : string; od_password : string; od_row : Z; od_upsert : bool }.
(** Find the user of the claims, or create one. *)
Definition oidc_user (a : Accounts) (cfg : OidcConfig) (c : OidcClaims) (d : OidcDraws) : result (Accounts * Uuid) OidcOutcome :=
  match first_row (identity_of (cl_issuer c) (cl_subject c)) (identities a) with
  | Some (_, i) => Ok (a, id_user i)
  | None =>
      if negb (oidc_provisioning_allowed cfg (cl_groups c)) then Err NotAuthorized
      else
        match (match cl_preferred c with Some n => Some n | None => match cl_email c with Some e => Some e | None => fallback_name (cl_subject c) end end) with
        | None => Err Panicked
        | Some uname =>
            match create_user a (od_user d) (od_salt d) uname (od_password d) (map_role_from_groups cfg (cl_groups c)) (trim (default ""%string (cl_name c))) with
            | Some a => Ok (a, od_user d)
            | None => Err Failed
            end
        end
  end.
Definition oidc_sign_in (a : Accounts) (cfg : OidcConfig) (c : OidcClaims) (d : OidcDraws) (return_to : string) : Accounts * OidcOutcome :=
  match oidc_user a cfg c d with
  | Err e => (a, e)
  | Ok (a, user) =>
      let a := if od_upsert d then default a (dashboard_identity_link a (od_row d) (cl_issuer c) (cl_subject c) user) else a in
      match new_session a user (od_login d) with
      | Some a => (a, Redirect user return_to)
      | None => (a, Failed)
      end
  end.
(** [exchange code nonce]: the provider's round trip and the checks on its token. *)
Definition oidc_callback (urldecode : string -> option string) (exchange : string -> string -> result OidcClaims string)
    (a : Accounts) (cfg : option OidcConfig) (cookies : option string) (q : OidcCallbackQuery) (d : OidcDraws) : Accounts * OidcOutcome :=
  match cfg with
  | None => (a, NotConfigured)
  | Some cfg =>
      match q_error q, q_code q, q_state q with
      | Some e, _, _ => (a, ProviderError e)
      | None, None, _ => (a, MissingCode)
      | None, Some _, None => (a, MissingState)
      | None, Some code, Some state =>
          let return_to := default "/"%string (cookie_get cookies "oidc_return_to" ≫= urldecode) in
          if negb (bool_decide (cookie_get cookies "oidc_state" = Some state)) then (a, InvalidState)
          else
            match cookie_get cookies "oidc_nonce" with
            | None => (a, MissingNonce)
            | Some nonce => match exchange code nonce with
                            | Err e => (a, ExchangeFailed e)
                            | Ok c => oidc_sign_in a cfg c d return_to
                            end
            end
      end
  end.

(** ** Start-up: [users/mod.rs] *)

(** [counted]: whether the first count succeeded; a failed one counts no users. *)
Definition bootstrap_dashboard_users (debug open_env counted : bool) (admin_username : string) (admin_password : option string)
    (a : Accounts) (fresh : Uuid) (salt : string) : result (Accounts * bool) string :=
  let open := debug && open_env in
  if Nat.eqb (if counted then size (users a) else 0) 0 then
    match admin_password with
    | Some pw => match bootstrap_default_admin a fresh salt admin_username pw with
                 | Some a => Ok (a, open)
                 | None => Err "bootstrap"%string
                 end
    | None => if open then Ok (a, open)
              else Err "No dashboard users exist. Set ADMIN_PASSWORD (or UI_PASSWORD) to bootstrap the default admin."%string
    end
  else Ok (a, open).
End accounts.

(** ** Histories of requests *)

Create HintDb modest discriminated.

Section histories.
Context (to_lowercase sql_lower sha256_hex : string -> string) (hash_dashboard_password : string -> string -> option string)
  (verify_dashboard_password : string -> string -> bool) (check_current : string -> string -> Z -> bool)
  (urldecode : string -> option string) (exchange : string -> string -> result OidcClaims string).

(** The requests that write the tables, each with what it draws and how its best-effort writes went. *)
Inductive Op : Type :=
| OpCreate (user : SignedIn) (fresh : Uuid) (salt name password : string) (role display : option string)
| OpProfile (user : SignedIn) (id : Uuid) (body : UserProfileBody)
| OpPassword (user : SignedIn) (id : Uuid) (salt password : string) (revoked : bool)
| OpRole (user : SignedIn) (id : Uuid) (role : string) (g : GuardReads) (revoked : bool)
| OpDelete (user : SignedIn) (id : Uuid) (g : GuardReads)
| OpLink (user : SignedIn) (id : Uuid) (fresh : Z) (issuer subject : string)
| OpUnlink (user : SignedIn) (identity : Z)
| OpSetup (user : SignedIn) (secret : string)
| OpEnable (user : SignedIn) (code : string) (now : Z) (codes : list NewCode)
| OpDisable (user : SignedIn) (code : string) (now : Z)
| OpSignIn (map : FailureMap) (rq : LoginRequest)
| OpLogout (cookies : option string) (deleted : bool)
| OpOidc (cfg : option OidcConfig) (cookies : option string) (q : OidcCallbackQuery) (d : OidcDraws).
Definition step (a : Accounts) (op : Op) : Accounts :=
  match op with
  | OpCreate u fresh salt name pw role d => (users_create to_lowercase hash_dashboard_password a u fresh salt name pw role d).1
  | OpProfile u id body => (user_profile_update sql_lower a u id body).1
  | OpPassword u id salt pw revoked => (user_set_password hash_dashboard_password a u id salt pw revoked).1
  | OpRole u id role g revoked => (user_set_role to_lowercase a u id role g revoked).1
  | OpDelete u id g => (user_delete a u id g).1
  | OpLink u id fresh issuer subject => (user_identity_link a u id fresh issuer subject).1
  | OpUnlink u i => (identity_unlink a u i).1
  | OpSetup u secret => twofa_setup a u secret
  | OpEnable u code now codes => (twofa_enable hash_dashboard_password check_current a u code now codes).1
  | OpDisable u code now => (twofa_disable verify_dashboard_password check_current a u code now).1
  | OpSignIn m rq => (sign_in to_lowercase sql_lower sha256_hex verify_dashboard_password check_current m a rq).1.2
  | OpLogout cookies deleted => logout sha256_hex a cookies deleted
  | OpOidc cfg cookies q d => (oidc_callback sha256_hex hash_dashboard_password urldecode exchange a cfg cookies q d).1
  end.
Definition steps : Accounts -> list Op -> Accounts := foldl step.
(** The reads of the last-admin guard succeed. *)
Definition guards_read (op : Op) : Prop :=
  match op with OpRole _ _ _ g _ | OpDelete _ _ g => g = {| gr_is_admin := true; gr_count := true |} | _ => True end.
(** The tokens a request may mint. *)
Definition token_of (op : Op) : option string :=
  match op with OpSignIn _ rq => Some (lr_token rq) | OpOidc _ _ _ d => Some (lr_token (od_login d)) | _ => None end.
Definition an_admin (a : Accounts) : Prop := exists id row, users a !! id = Some row /\ us_role row = "admin"%string.

(** *** What a request does to the roles and to the sessions *)

(** No user loses or changes a role; no session appears, unless under the hash [minted]. *)
Definition keeps_roles (a a' : Accounts) : Prop :=
  forall id row, users a !! id = Some row -> exists row', users a' !! id = Some row' /\ us_role row' = us_role row.
Definition mints (minted : option string) (a a' : Accounts) : Prop :=
  forall h s, sessions a' !! h = Some s -> sessions a !! h = Some s \/ minted = Some h.
Definition modest (minted : option string) (a a' : Accounts) : Prop := keeps_roles a a' /\ mints minted a a'.

Lemma modest_refl m a : modest m a a.
Proof. split; [|by left]. intros id row R. by exists row. Qed.
Lemma modest_trans m a b c : modest m a b -> modest m b c -> modest m a c.
Proof.
  intros [K1 M1] [K2 M2]. split.
  - intros id row R. destruct (K1 _ _ R) as (r1 & R1 & E1). destruct (K2 _ _ R1) as (r2 & R2 & E2). exists r2. split; [done|congruence].
  - intros h s S. destruct (M2 _ _ S) as [S'|]; [|by right]. exact (M1 _ _ S').
Qed.
Lemma modest_weaken m a b : modest None a b -> modest m a b.
Proof. intros [K M]. split; [done|]. intros h s S. destruct (M _ _ S); [by left|done]. Qed.
Lemma modest_update f m a id : (forall r, us_role (f r) = us_role r) -> modest m a (update_user f a id).
Proof.
  intros F. split; [|by left]. intros i row R. cbn [update_user set_users users]. destruct (decide (i = id)) as [->|N].
  - rewrite lookup_alter_eq, R. exists (f row). split; [done|apply F].
  - rewrite lookup_alter_ne by done. by exists row.
Qed.
Lemma modest_users m a x : (forall id row, users a !! id = Some row -> x !! id = Some row) -> modest m a (set_users a x).
Proof. intros X. split; [|by left]. intros id row R. exists row. split; [by apply X|done]. Qed.
Lemma modest_sessions m a x : (forall h s, x !! h = Some s -> sessions a !! h = Some s \/ m = Some h) -> modest m a (set_sessions a x).
Proof. intros X. split; [|exact X]. intros id row R. by exists row. Qed.
Lemma modest_identities m a x : modest m a (set_identities a x).
Proof. split; [|by left]. intros id row R. by exists row. Qed.
Lemma modest_recovery m a x : modest m a (set_recovery a x).
Proof. split; [|by left]. intros id row R. by exists row. Qed.
Lemma modest_revoke m a id : modest m a (dashboard_sessions_delete_for_user a id).
Proof. apply modest_sessions. intros h s S. apply map_lookup_filter_Some in S as [S _]. by left. Qed.
#[local] Hint Resolve modest_refl modest_update modest_identities modest_recovery modest_revoke : modest.
Lemma modest_revoke_if m a b id : modest m a (revoke_sessions b a id).
Proof. destruct b; cbn [revoke_sessions]; auto with modest. Qed.
Lemma modest_create m a fresh name hash role d a' : dashboard_user_create a fresh name hash role d = Some a' -> modest m a a'.
Proof.
  unfold dashboard_user_create. destruct (users a !! fresh) eqn:F; cbn [isSome orb]; [done|]. destruct (isSome _); [done|]. intros [= <-].
  apply modest_users. intros id row R. rewrite lookup_insert_ne; [done|]. intros ->. congruence.
Qed.
Lemma modest_create_user m a fresh salt name pw role d a' :
  create_user hash_dashboard_password a fresh salt name pw role d = Some a' -> modest m a a'.
Proof. unfold create_user. destruct (hash_dashboard_password salt pw); [cbn; apply modest_create|done]. Qed.
Lemma modest_session m a user rq a' : m = Some (sha256_hex (lr_token rq)) -> new_session sha256_hex a user rq = Some a' -> modest m a a'.
Proof.
  intros ->. unfold new_session, dashboard_session_create. destruct (isSome _ || _); [done|]. intros [= <-]. apply modest_sessions. intros h s S.
  destruct (decide (h = sha256_hex (lr_token rq))) as [->|N]; [by right|]. rewrite lookup_insert_ne in S by done. by left.
Qed.
Lemma modest_factor m a user secret code now : modest m a (second_factor verify_dashboard_password check_current a user secret code now).1.
Proof.
  unfold second_factor. destruct (is_some_and _ _); [apply modest_refl|]. unfold consume_recovery_code.
  destruct (matching_recovery_code _ _ _ _); [apply modest_recovery|apply modest_refl].
Qed.
Lemma modest_link m a fresh i s u a' : dashboard_identity_link a fresh i s u = Some a' -> modest m a a'.
Proof. unfold dashboard_identity_link. destruct (isSome _); [|done]. intros [= <-]. apply modest_identities. Qed.

Lemma modest_profile m a u id body : modest m a (user_profile_update sql_lower a u id body).1.
Proof.
  unfold user_profile_update. destruct (_ && _); [apply modest_refl|]. destruct (_ && _); [apply modest_refl|].
  destruct (users a !! id) as [row|]; [|apply modest_refl].
  assert (N : modest m a (profile_username sql_lower id row a (pb_username body)).1).
  { unfold profile_username. destruct (pb_username body) as [raw|]; [|apply modest_refl]. destruct (normalize_profile_username raw); [|apply modest_refl].
    destruct (String.eqb _ _); [apply modest_refl|]. destruct (dashboard_username_taken_by_other _ _ _ _); [apply modest_refl|by apply modest_update]. }
  destruct (profile_username _ _ _ _ _) as [a1 [?|?]]; [|done]. cbn [fst] in N.
  assert (D : modest m a1 (profile_display_name id row a1 (pb_display_name body)).1).
  { unfold profile_display_name. destruct (pb_display_name body) as [raw|]; [|apply modest_refl]. destruct (normalize_profile_display_name raw); [|apply modest_refl].
    destruct (String.eqb _ _); [apply modest_refl|by apply modest_update]. }
  destruct (profile_display_name _ _ _ _) as [a2 [?|?]]; [|exact (modest_trans _ _ _ _ N D)]. cbn [fst] in D.
  apply (modest_trans _ _ _ _ N), (modest_trans _ _ _ _ D). unfold profile_icon. destruct (pb_icon body) as [[raw|]|].
  - destruct (normalize_profile_display_icon_set raw); [by apply modest_update|apply modest_refl].
  - by apply modest_update.
  - apply modest_refl.
Qed.
Lemma modest_enable m a u code now codes : modest m a (twofa_enable hash_dashboard_password check_current a u code now codes).1.
Proof.
  unfold twofa_enable. destruct (dashboard_user_totp_get a (si_user u)) as [[secret|] [|]]; try apply modest_refl.
  destruct (negb _); [apply modest_refl|]. cbv zeta. destruct (mapM _ codes).
  - eapply modest_trans; [|apply modest_recovery]. by apply modest_update.
  - by apply modest_update.
Qed.
Lemma modest_disable m a u code now : modest m a (twofa_disable verify_dashboard_password check_current a u code now).1.
Proof.
  unfold twofa_disable. destruct (dashboard_user_totp_get a (si_user u)) as [secret [|]]; [|apply modest_refl].
  pose proof (modest_factor m a (si_user u) secret (trim code) now) as F. destruct (second_factor _ _ _ _ _ _ _) as [a1 [|]]; [|exact F]. cbn [fst] in *.
  apply (modest_trans _ _ _ _ F). unfold dashboard_user_totp_disable. eapply modest_trans; [|apply modest_recovery]. by apply modest_update.
Qed.
Lemma modest_sign_in m a map rq : m = Some (sha256_hex (lr_token rq)) ->
  modest m a (sign_in to_lowercase sql_lower sha256_hex verify_dashboard_password check_current map a rq).1.2.
Proof.
  intros M. unfold sign_in. destruct (Throttle.login _ _) as [map' []]; try apply modest_refl.
  destruct (dashboard_user_get_by_username _ _ _) as [[id row]|]; [|apply modest_refl]. destruct (dashboard_user_totp_get a id) as [secret enabled].
  set (a1 := if enabled then _ else a).
  assert (A : modest m a a1) by (subst a1; destruct enabled; [apply modest_factor|apply modest_refl]).
  destruct (new_session _ a1 id rq) as [a2|] eqn:S; [|exact A]. exact (modest_trans _ _ _ _ A (modest_session _ _ _ _ _ M S)).
Qed.
Lemma modest_oidc m a cfg cookies q d : m = Some (sha256_hex (lr_token (od_login d))) ->
  modest m a (oidc_callback sha256_hex hash_dashboard_password urldecode exchange a cfg cookies q d).1.
Proof.
  intros M. unfold oidc_callback. destruct cfg as [cfg|]; [|apply modest_refl].
  destruct (q_error q), (q_code q) as [code|], (q_state q) as [state|]; try apply modest_refl.
  destruct (negb _); [apply modest_refl|]. destruct (cookie_get cookies "oidc_nonce") as [nonce|]; [|apply modest_refl].
  destruct (exchange code nonce) as [c|]; [|apply modest_refl]. unfold oidc_sign_in.
  destruct (oidc_user _ a cfg c d) as [[a1 user]|] eqn:U; [|apply modest_refl].
  assert (A : modest m a a1).
  { unfold oidc_user in U. destruct (first_row _ _) as [[? i]|]; [injection U as <- _; apply modest_refl|]. destruct (negb _); [done|].
    destruct (match cl_preferred c with Some n => Some n | None => _ end); [|done].
    destruct (create_user _ _ _ _ _ _ _) as [a2|] eqn:C; [|done]. injection U as <- _. exact (modest_create_user _ _ _ _ _ _ _ _ _ C). }
  set (a2 := if od_upsert d then _ else a1).
  assert (B : modest m a a2).
  { subst a2. destruct (od_upsert d); [|done]. destruct (dashboard_identity_link _ _ _ _ _) eqn:L; [|done].
    exact (modest_trans _ _ _ _ A (modest_link _ _ _ _ _ _ _ L)). }
  destruct (new_session _ a2 user _) as [a3|] eqn:S; [|exact B]. exact (modest_trans _ _ _ _ B (modest_session _ _ _ _ _ M S)).
Qed.

(** Only a role change and a deletion touch a role. *)
Definition manages (op : Op) : bool := match op with OpRole _ _ _ _ _ | OpDelete _ _ _ => true | _ => false end.
Lemma step_modest a op : manages op = false -> modest (sha256_hex <$> token_of op) a (step a op).
Proof.
  destruct op; cbn [manages step token_of fmap option_fmap option_map]; try done; intros _.
  - unfold users_create, answer. destruct (require_admin _); cbn; [|apply modest_refl]. destruct (as_bad_request (normalize_role _ _)); cbn; [|apply modest_refl].
    destruct (negb _); cbn; [|apply modest_refl]. destruct (negb _); cbn; [|apply modest_refl]. destruct (as_bad_request _); cbn; [|apply modest_refl].
    destruct (create_user _ _ _ _ _ _ _) eqn:C; cbn; [exact (modest_create_user _ _ _ _ _ _ _ _ _ C)|apply modest_refl].
  - apply modest_profile.
  - unfold user_set_password, answer, set_password. destruct (require_admin _); cbn; [|apply modest_refl]. destruct (negb _); cbn; [|apply modest_refl].
    destruct (hash_dashboard_password salt password); cbn; [|apply modest_refl]. eapply modest_trans; [|apply modest_revoke_if]. by apply modest_update.
  - unfold user_identity_link, answer. destruct (require_admin _); cbn; [|apply modest_refl]. destruct (negb _); cbn; [|apply modest_refl].
    destruct (dashboard_identity_link _ _ _ _ _) eqn:L; cbn; [exact (modest_link _ _ _ _ _ _ _ L)|apply modest_refl].
  - unfold identity_unlink, answer. destruct (require_admin _); cbn; [apply modest_identities|apply modest_refl].
  - by apply modest_update.
  - apply modest_enable.
  - apply modest_disable.
  - by apply modest_sign_in.
  - unfold logout. destruct (extract_session cookies) as [t|]; [|apply modest_refl]. destruct deleted; [|apply modest_refl].
    apply modest_sessions. intros h s S. apply lookup_delete_Some in S as [_ S]. by left.
  - by apply modest_oidc.
Qed.

Lemma set_role_cases a u id role g revoked :
  (user_set_role to_lowercase a u id role g revoked).1 = a \/
  exists r, normalize_role to_lowercase (Some role) = Ok r /\ (r = "admin"%string \/ last_admin a id g = false) /\
            (user_set_role to_lowercase a u id role g revoked).1 = set_role_write a id r revoked.
Proof.
  unfold user_set_role, answer, set_role_check. destruct (require_admin u); cbn; [|by left].
  destruct (normalize_role to_lowercase (Some role)) as [r|]; cbn; [|by left].
  destruct (String.eqb r "admin") eqn:E; cbn.
  - right. exists r. apply String.eqb_eq in E. auto.
  - destruct (last_admin a id g) eqn:L; cbn; [by left|]. right. exists r. auto.
Qed.
Lemma delete_cases a u id g :
  (user_delete a u id g).1 = a \/ (last_admin a id g = false /\ (user_delete a u id g).1 = dashboard_user_delete a id).
Proof.
  unfold user_delete, answer, delete_check. destruct (require_admin u); cbn; [|by left]. destruct (negb _); cbn; [|by left].
  destruct (last_admin a id g) eqn:L; cbn; [by left|by right].
Qed.
Lemma step_mints a op : mints (sha256_hex <$> token_of op) a (step a op).
Proof.
  destruct (manages op) eqn:M; [|by apply step_modest]. destruct op; try done; cbn [step token_of fmap option_fmap option_map].
  - destruct (set_role_cases a user id role g revoked) as [->|(r & _ & _ & ->)]; [by left|]. unfold set_role_write.
    apply (modest_revoke_if None (update_user (with_role r) a id) revoked id).
  - destruct (delete_cases a user id g) as [->|[_ ->]]; [by left|]. intros h s S. apply map_lookup_filter_Some in S as [S _]. by left.
Qed.
Lemma steps_mint a ops h s : sessions (steps a ops) !! h = Some s -> sessions a !! h = Some s \/ exists op t, op ∈ ops /\ token_of op = Some t /\ sha256_hex t = h.
Proof.
  revert a. induction ops as [|op ops IH]; intros a S; [by left|]. cbn [steps foldl] in S. destruct (IH _ S) as [S'|(o & t & I & T & H)].
  - destruct (step_mints a op h s S') as [|M]; [by left|]. right. destruct (token_of op) as [t|] eqn:T; [|done]. injection M as M.
    exists op, t. split; [by left|done].
  - right. exists o, t. split; [by right|done].
Qed.

(** The guard of the last admin: whoever else is an admin keeps the role. *)
Lemma other_admin (m : gmap Uuid UserRow) id : (1 < size (filter (fun kr => admin_row kr.2 = true) m))%nat ->
  exists id' row, id' <> id /\ m !! id' = Some row /\ us_role row = "admin"%string.
Proof.
  intros C. set (f := filter _ m) in *. destruct (decide (delete id f = ∅)) as [E|N].
  - exfalso. pose proof (map_size_delete id f) as D. rewrite E, map_size_empty in D. revert D C. destruct (f !! id); intros; cbn in *; lia.
  - apply map_choose in N as (id' & row & L). apply lookup_delete_Some in L as [N L]. apply map_lookup_filter_Some in L as [L A].
    exists id', row. split; [done|]. split; [done|]. by apply String.eqb_eq in A.
Qed.
Lemma spared_admin a id : an_admin a -> last_admin a id {| gr_is_admin := true; gr_count := true |} = false ->
  exists id' row, id' <> id /\ users a !! id' = Some row /\ us_role row = "admin"%string.
Proof.
  intros (id0 & row & R & A). unfold last_admin, dashboard_user_is_admin, user_is, dashboard_admin_count. cbn [gr_is_admin gr_count andb].
  destruct (decide (id0 = id)) as [->|N]; [|by exists id0, row]. rewrite R. cbn [is_some_and]. unfold admin_row at 1. rewrite A. cbn [String.eqb andb].
  intros L. apply Z.leb_gt in L. apply other_admin. lia.
Qed.
Lemma step_admin a op : guards_read op -> an_admin a -> an_admin (step a op).
Proof.
  intros G A. destruct (manages op) eqn:M.
  - destruct op; try done; cbn [step guards_read] in *; subst g.
    + destruct (set_role_cases a user id role {| gr_is_admin := true; gr_count := true |} revoked) as [->|(r & _ & C & ->)]; [done|].
      assert (W : an_admin (update_user (with_role r) a id)); [|unfold set_role_write, revoke_sessions; by destruct revoked].
      destruct C as [->|L].
      * destruct A as (id0 & row & R & A). destruct (decide (id0 = id)) as [->|N].
        -- exists id, (with_role "admin" row). cbn. by rewrite lookup_alter_eq, R.
        -- exists id0, row. cbn. by rewrite lookup_alter_ne by done.
      * destruct (spared_admin a id A L) as (id' & row & N & R & A'). exists id', row. cbn. by rewrite lookup_alter_ne by done.
    + destruct (delete_cases a user id {| gr_is_admin := true; gr_count := true |}) as [->|[L ->]]; [done|].
      destruct (spared_admin a id A L) as (id' & row & N & R & A'). exists id', row. cbn. by rewrite lookup_delete_ne by done.
  - destruct (step_modest a op M) as [K _]. destruct A as (id & row & R & A). destruct (K _ _ R) as (row' & R' & E). exists id, row'. split; [done|congruence].
Qed.

(** Requests that sign a user out everywhere. *)
Definition revokes (a : Accounts) (op : Op) (id : Uuid) : Prop :=
  match op with
  | OpPassword u i salt pw revoked => i = id /\ revoked = true /\ (user_set_password hash_dashboard_password a u i salt pw revoked).2 = Ok tt
  | OpRole u i role g revoked => i = id /\ revoked = true /\ (user_set_role to_lowercase a u i role g revoked).2 = Ok tt
  | OpDelete u i g => i = id /\ (user_delete a u i g).2 = Ok tt
  | _ => False
  end.
Definition signed_out (a : Accounts) (id : Uuid) : Prop := forall h s, sessions a !! h = Some s -> se_user s <> id.
Lemma delete_sessions_out a id : signed_out (dashboard_sessions_delete_for_user a id) id.
Proof. intros h s S. by apply map_lookup_filter_Some in S as [_ N]. Qed.
Lemma revokes_signs_out a op id : revokes a op id -> signed_out (step a op) id.
Proof.
  destruct op; cbn [revokes step]; try done.
  - intros (<- & -> & R). revert R. unfold user_set_password, answer. destruct (require_admin _); cbn; [|done]. destruct (negb _); cbn; [|done].
    destruct (or_internal _); cbn; [|done]. intros _. apply delete_sessions_out.
  - intros (<- & -> & R). revert R. unfold user_set_role, answer. destruct (set_role_check _ _ _ _ _ _); cbn; [|done]. intros _. apply delete_sessions_out.
  - intros (<- & R). revert R. unfold user_delete, answer. destruct (delete_check _ _ _ _); cbn; [|done]. intros _ h s S.
    by apply map_lookup_filter_Some in S as [_ N].
Qed.
End histories.

(** C16: an administrator always remains: however many accounts are created, renamed, demoted, deleted or
    linked, by whom and in what order, while each request runs on its own and the guard can read the
    tables, some account keeps the admin role. *)
Theorem an_admin_remains tl sl sh hp vp cc ud ex a ops :
  Forall guards_read ops -> an_admin a -> an_admin (steps tl sl sh hp vp cc ud ex a ops).
Proof. intros G. revert a. induction G as [|op ops G Gs IH]; intros a A; [done|]. cbn [steps foldl]. apply IH. by apply step_admin. Qed.

(** The request guard lets a request act as a user exactly when its cookie carries the token of a
    session that has not expired, of an account that still exists, with the account's current name and
    role, and, for a request that writes, with the session's own CSRF token; without a session only an
    empty table in an insecure debug build lets it through. *)
Theorem require_auth_exact sha256_hex open count_ok store_ok a now rq :
  (forall u, require_auth sha256_hex open count_ok store_ok a now rq = Passed u <->
     (open && count_ok && Nat.eqb (size (users a)) 0 = false /\ store_ok = true /\
      exists token s row, extract_session (rq_cookie rq) = Some token /\ sessions a !! sha256_hex token = Some s /\ now < se_expires s /\
        users a !! se_user s = Some row /\ (request_requires_csrf_token (rq_method rq) = true -> rq_csrf rq = Some (se_csrf s)) /\
        u = {| si_user := se_user s; si_name := us_name row; si_role := us_role row; si_display := us_display row; si_icon := us_icon row; si_csrf := se_csrf s |})) /\
  (require_auth sha256_hex open count_ok store_ok a now rq = PassedOpen -> open = true /\ users a = ∅).
Proof.
  unfold require_auth. destruct (open && count_ok && _) eqn:O.
  { split; [intros u; split; [done|by intros [? _]]|]. intros _. apply andb_true_iff in O as [O E]. apply andb_true_iff in O as [-> _].
    split; [done|]. apply map_size_empty_inv. by apply Nat.eqb_eq in E. }
  split.
  - intros u. split.
    + intros P. split; [done|]. destruct (extract_session (rq_cookie rq)) as [t|]; [|done]. destruct store_ok; [|done]. split; [done|]. cbn [negb] in P.
      unfold dashboard_session_get_user in P. destruct (sessions a !! sha256_hex t) as [s|] eqn:S; [|done]. cbn in P.
      destruct (now <? se_expires s) eqn:N; [|done]. destruct (users a !! se_user s) as [row|] eqn:R; [|done]. cbn in P.
      exists t, s, row. split; [done|]. split; [done|]. split; [by apply Z.ltb_lt|]. split; [done|].
      destruct (request_requires_csrf_token (rq_method rq)); cbn in P; [|by injection P as <-].
      destruct (csrf_header_matches (se_csrf s) (rq_csrf rq)) eqn:C; [|done]. injection P as <-. split; [|done]. intros _. unfold csrf_header_matches in C.
      destruct (rq_csrf rq) as [h|]; [|done]. cbn in C. by apply String.eqb_eq in C as <-.
    + intros (_ & -> & t & s & row & -> & S & N & R & C & ->). cbn [negb]. unfold dashboard_session_get_user. rewrite S. cbn.
      apply Z.ltb_lt in N as ->. rewrite R. cbn. destruct (request_requires_csrf_token (rq_method rq)); [|done]. cbn [andb].
      rewrite (C eq_refl). cbn. by rewrite String.eqb_refl.
  - destruct (extract_session (rq_cookie rq)); [|done]. destruct store_ok; [|done]. cbn [negb]. destruct (dashboard_session_get_user _ _ _) as [u|]; [|done]. by destruct (request_requires_csrf_token (rq_method rq) && _).
Qed.

(** C17: a session that existed when an account's password was reset, its role changed or the account
    deleted never acts as that account again, provided, for a reset and a role change, that deleting
    the account's sessions succeeded (the code ignores its failure and still answers success; deleting
    an account takes its sessions with it): whatever requests follow, a token that none of them minted
    is not let through as that user. Where the deletion fails, a reset or a role change that is
    answered with success has kept every session. *)
Theorem revoked_sessions_stay_dead tl sl sh hp vp cc ud ex a id :
  (forall op ops open count_ok store_ok now rq token who,
    match op with
    | OpPassword u i salt pw deleted => i = id /\ deleted = true /\ (user_set_password hp a u i salt pw deleted).2 = Ok tt
    | OpRole u i role g deleted => i = id /\ deleted = true /\ (user_set_role tl a u i role g deleted).2 = Ok tt
    | OpDelete u i g => i = id /\ (user_delete a u i g).2 = Ok tt
    | _ => False
    end ->
    (forall o t, o ∈ ops -> token_of o = Some t -> sh t <> sh token) ->
    extract_session (rq_cookie rq) = Some token ->
    require_auth sh open count_ok store_ok (steps tl sl sh hp vp cc ud ex (step tl sl sh hp vp cc ud ex a op) ops) now rq = Passed who ->
    si_user who <> id)
  /\ (forall u salt pw, (user_set_password hp a u id salt pw false).2 = Ok tt -> sessions (user_set_password hp a u id salt pw false).1 = sessions a)
  /\ (forall u role g, (user_set_role tl a u id role g false).2 = Ok tt -> sessions (user_set_role tl a u id role g false).1 = sessions a).
Proof.
  split_and!.
  - intros op ops open count_ok store_ok now rq token who R F X P. change (revokes tl hp a op id) in R.
    unfold require_auth in P. destruct (_ && _ && _); [done|]. rewrite X in P. destruct store_ok; [|done]. cbn [negb] in P.
    unfold dashboard_session_get_user in P. destruct (sessions _ !! sh token) as [s|] eqn:S; [|done]. cbn in P. destruct (now <? se_expires s); [|done].
    destruct (users _ !! se_user s) as [row|]; [|done]. cbn in P. destruct (_ && _); [done|]. injection P as <-. cbn [si_user].
    destruct (steps_mint _ _ _ _ _ _ _ _ _ _ _ _ S) as [S'|(o & t & I & T & H)]; [|by destruct (F _ _ I T)].
    exact (revokes_signs_out _ sl sh _ vp cc ud ex _ _ _ R _ _ S').
  - intros u salt pw _. unfold user_set_password, answer. destruct (require_admin _); cbn; [|done]. destruct (negb _); cbn; [|done].
    unfold set_password. by destruct (hp salt pw).
  - intros u role g _. unfold user_set_role, answer. by destruct (set_role_check _ _ _ _ _ _).
Qed.

(** ** Signing in *)

Lemma first_row_spec {K A} `{Countable K} (f : A -> bool) (m : gmap K A) k x : first_row f m = Some (k, x) -> m !! k = Some x /\ f x = true.
Proof.
  unfold first_row. intros F. apply List.find_some in F as [I T]. split; [|exact T]. apply list_elem_of_In in I. by apply elem_of_map_to_list in I.
Qed.
Lemma matching_code_spec vp a user code k : matching_recovery_code vp a user code = Some k ->
  exists r, recovery a !! k = Some r /\ rc_user r = user /\ rc_used r = false /\ vp (rc_hash r) code = true.
Proof.
  unfold matching_recovery_code. destruct (first_row _ _) as [[k' r]|] eqn:F; [|done]. intros [= <-]. apply first_row_spec in F as [L M].
  exists r. split; [done|]. unfold unused_code in M. apply andb_true_iff in M as [M V]. apply andb_true_iff in M as [U N].
  apply bool_decide_eq_true in U. apply negb_true_iff in N. done.
Qed.
(** A second factor that passes is the current code, or spends one of the user's unused recovery codes. *)
Lemma second_factor_spec vp cc a user secret code now a' : second_factor vp cc a user secret code now = (a', true) ->
  (exists k, secret = Some k /\ verify cc k code now = true /\ a' = a) \/
  (exists k r, recovery a !! k = Some r /\ rc_user r = user /\ rc_used r = false /\ vp (rc_hash r) code = true /\
               a' = set_recovery a (<[k := mark_used r]> (recovery a))).
Proof.
  unfold second_factor. destruct (is_some_and secret _) eqn:S.
  - intros [= <-]. left. destruct secret as [k|]; [|done]. by exists k.
  - unfold consume_recovery_code. destruct (matching_recovery_code vp a user code) as [k|] eqn:M; [|done]. intros [= <-]. right.
    apply matching_code_spec in M as (r & L & U & N & V). exists k, r. split; [done|]. split; [done|]. split; [done|]. split; [done|].
    unfold dashboard_recovery_code_mark_used. f_equal. apply map_eq. intros i. destruct (decide (i = k)) as [->|D].
    + by rewrite lookup_alter_eq, lookup_insert_eq, L.
    + by rewrite lookup_alter_ne, lookup_insert_ne.
Qed.
Lemma login_authenticated map at_ map' : Throttle.login map at_ = (map', Authenticated) ->
  (login_locked_retry_after map (ip_key at_) (user_key at_) (check_at at_)).2 = None /\
  exists hash secret enabled, user_row at_ = Ok (Some hash) /\ password_ok at_ hash = true /\ totp_row at_ = Ok (secret, enabled) /\
    (enabled = true -> Throttle.totp_code at_ <> ""%string /\
       is_some_and secret (fun s => totp_verify at_ s (Throttle.totp_code at_)) || recovery_ok at_ (Throttle.totp_code at_) = true).
Proof.
  unfold Throttle.login. destruct (login_locked_retry_after _ _ _ _) as [m [r|]]; [done|]. cbn [snd]. unfold wrong_password.
  destruct (user_row at_) as [[hash|]|]; [|by destruct (record_login_failure_both _ _ _ _) as [? []]|done].
  destruct (password_ok at_ hash) eqn:P; cbn [negb]; [|by destruct (record_login_failure_both _ _ _ _) as [? []]].
  destruct (totp_row at_) as [[secret enabled]|]; [|done]. destruct (enabled && String.eqb _ "") eqn:E; [done|].
  destruct (enabled && negb _) eqn:V; [done|]. intros _. split; [done|]. exists hash, secret, enabled. split; [done|]. split; [done|]. split; [done|].
  intros ->. cbn [andb] in *. split; [by apply String.eqb_neq|]. by apply negb_false_iff in V.
Qed.
Lemma new_session_spec sh a user rq a' : new_session sh a user rq = Some a' ->
  sessions a !! sh (lr_token rq) = None /\ isSome (users a !! user) = true /\
  a' = set_sessions a (<[sh (lr_token rq) := {| se_user := user; se_expires := lr_now rq + session_seconds; se_ip := lr_client_ip rq; se_csrf := lr_csrf rq |}]> (sessions a)).
Proof.
  unfold new_session, dashboard_session_create. cbn [se_user]. destruct (sessions a !! _); [done|]. destruct (users a !! user); [|done]. by intros [= <-].
Qed.

(** C18: signing in with a name and a password opens a session only for the account of that name, when
    neither the address nor the name is locked out and the password is the account's; with two-factor on
    it takes in addition the current code of the account's secret, or one of its unused recovery codes,
    which that spends: its row is kept with the used mark set, and no other code changes. The session is
    a new one, lasts a day, and is stored under the hash of its token; accounts are untouched. *)
Theorem sign_in_needs_credentials tl sl sh vp cc map a rq map' a' :
  sign_in tl sl sh vp cc map a rq = (map', a', Authenticated) ->
  (login_locked_retry_after map (lr_ip_key rq) (login_username_key (tl (trim (lr_username rq)))) (lr_check_at rq)).2 = None /\
  exists id row, users a !! id = Some row /\ sl (us_name row) = sl (trim (lr_username rq)) /\ vp (us_hash row) (lr_password rq) = true /\
    users a' = users a /\ sessions a !! sh (lr_token rq) = None /\
    sessions a' = <[sh (lr_token rq) := {| se_user := id; se_expires := lr_now rq + 86400; se_ip := lr_client_ip rq; se_csrf := lr_csrf rq |}]> (sessions a) /\
    (us_totp row = true ->
       (exists k, us_secret row = Some k /\ verify cc k (totp_code_of rq) (lr_now rq) = true /\ recovery a' = recovery a) \/
       (exists k r, recovery a !! k = Some r /\ rc_user r = id /\ rc_used r = false /\ vp (rc_hash r) (totp_code_of rq) = true /\
                    recovery a' !! k = Some {| rc_user := id; rc_hash := rc_hash r; rc_used := true |} /\
                    forall k', k' <> k -> recovery a' !! k' = recovery a !! k')) /\
    (us_totp row = false -> recovery a' = recovery a).
Proof.
  unfold sign_in. set (row := dashboard_user_get_by_username sl a (trim (lr_username rq))).
  destruct (Throttle.login map (attempt_of tl vp cc a rq row)) as [m out] eqn:L. destruct out; try done. destruct row as [[id row']|] eqn:R;
    [|by apply login_authenticated in L as (_ & ? & ? & ? & ? & _)].
  apply first_row_spec in R as [U N]. apply String.eqb_eq in N. apply login_authenticated in L as (K & hash & secret & enabled & H & P & T & V).
  cbn in H. injection H as <-. cbn [attempt_of totp_row] in T. injection T as T.
  unfold dashboard_user_totp_get in *. rewrite U in *. injection T as <- <-.
  set (a1 := if us_totp row' then _ else a).
  destruct (new_session sh a1 id rq) as [a2|] eqn:S; [|done]. intros [= _ <-]. apply new_session_spec in S as (F & _ & ->).
  assert (F1 : (us_totp row' = true -> second_factor vp cc a id (us_secret row') (totp_code_of rq) (lr_now rq) = (a1, true)) /\
               users a1 = users a /\ sessions a1 = sessions a).
  { subst a1. destruct (us_totp row').
    - destruct (V eq_refl) as [_ W]. cbn in W. unfold second_factor, consume_recovery_code in *. destruct (is_some_and _ _); [done|]. cbn in W.
      destruct (matching_recovery_code vp a id _); done.
    - done. }
  destruct F1 as (G & EU & ES). rewrite ES in F. split; [exact K|]. exists id, row'. split; [done|]. split; [done|]. split; [exact P|].
  split; [exact EU|]. split; [exact F|]. split; [cbn; by rewrite ES|].
  split; [|intros E; subst a1; cbn; by rewrite E]. intros E. destruct (second_factor_spec _ _ _ _ _ _ _ _ (G E)) as [(k & Sk & Vk & E1)|(k & r & Lk & Ur & Nr & Vr & E1)].
  - left. exists k. split; [done|]. split; [done|]. cbn. by rewrite E1.
  - right. exists k, r. split; [done|]. split; [done|]. split; [done|]. split; [done|]. cbn. rewrite E1.
    cbn. split; [rewrite lookup_insert_eq; unfold mark_used; by rewrite Ur|]. intros k' Hk'. by apply lookup_insert_ne.
Qed.

(** ** Examples *)

Module Sample.
Definition root : UserRow :=
  {| us_name := "root"; us_hash := "s3cret"; us_role := "admin"; us_display := ""; us_icon := None; us_secret := Some "K"%string; us_totp := true |}.
Definition ops : UserRow :=
  {| us_name := "ops"; us_hash := "hunter2"; us_role := "admin"; us_display := ""; us_icon := None; us_secret := None; us_totp := false |}.
Definition hash_token (t : string) : string := ("sha:" ++ t)%string.
Definition hash_plain (salt p : string) : option string := Some p.
Definition totp (secret code : string) (now : Z) : bool := String.eqb code "123456".
Definition decode (s : string) : option string := Some s.
Definition exchange (code nonce : string) : result OidcClaims string := Err "offline"%string.
Definition tables : Accounts :=
  {| users := {[ 1%N := root; 2%N := ops ]};
     sessions := {[ "sha:t2"%string := {| se_user := 2%N; se_expires := 1000; se_ip := None; se_csrf := "x" |} ]};
     identities := ∅; recovery := {[ 7 := {| rc_user := 1%N; rc_hash := "abcd-efgh"; rc_used := false |} ]} |}.
Definition as_root : SignedIn := {| si_user := 1%N; si_name := "root"; si_role := "admin"; si_display := ""; si_icon := None; si_csrf := "c" |}.
Definition as_ops : SignedIn := {| si_user := 2%N; si_name := "ops"; si_role := "admin"; si_display := ""; si_icon := None; si_csrf := "x" |}.
Definition reads : GuardReads := {| gr_is_admin := true; gr_count := true |}.
Definition request : LoginRequest :=
  {| lr_username := " Root "; lr_password := "s3cret"; lr_totp := Some "abcd-efgh"%string; lr_ip_key := "ip"; lr_client_ip := None;
     lr_check_at := 0; lr_record_at := 0; lr_now := 100; lr_token := "t9"; lr_csrf := "y" |}.
Definition with_cookie (t : string) : Request := {| rq_method := GET; rq_cookie := Some ("a=b; session=" ++ t)%string; rq_csrf := None |}.
Definition run : Accounts -> list Op -> Accounts := steps to_ascii_lowercase to_ascii_lowercase hash_token hash_plain String.eqb totp decode exchange.
Definition signed_in : FailureMap * Accounts * LoginOutcome := sign_in to_ascii_lowercase to_ascii_lowercase hash_token String.eqb totp ∅ tables request.
End Sample.

Lemma an_admin_remains_witness :
  an_admin (Sample.run Sample.tables [OpRole Sample.as_root 2%N "viewer" Sample.reads true; OpRole Sample.as_root 1%N "viewer" Sample.reads true;
                                      OpDelete Sample.as_ops 1%N Sample.reads]).
Proof.
  unfold Sample.run. apply (an_admin_remains to_ascii_lowercase to_ascii_lowercase Sample.hash_token Sample.hash_plain String.eqb Sample.totp Sample.decode Sample.exchange).
  - repeat constructor.
  - exists 1%N, Sample.root. split; reflexivity.
Defined.
Lemma revoked_sessions_stay_dead_witness :
  si_user {| si_user := 1%N; si_name := "root"; si_role := "admin"; si_display := ""; si_icon := None; si_csrf := "y" |} <> 2%N.
Proof.
  eapply (proj1 (revoked_sessions_stay_dead to_ascii_lowercase to_ascii_lowercase Sample.hash_token Sample.hash_plain String.eqb Sample.totp Sample.decode Sample.exchange
           (set_sessions Sample.tables {[ "sha:t9"%string := {| se_user := 1%N; se_expires := 1000; se_ip := None; se_csrf := "y" |} ]}) 2%N)
           (OpPassword Sample.as_root 2%N "salt" "longer-one" true) [OpSetup Sample.as_root "K2"] false true true 100 (Sample.with_cookie "t9") "t9").
  - split; [done|]. split; [done|]. vm_compute. reflexivity.
  - intros o t I T. apply list_elem_of_singleton in I as ->. discriminate T.
  - reflexivity.
  - vm_compute. reflexivity.
Defined.
Lemma sign_in_needs_credentials_witness :
  Sample.signed_in.2 = Authenticated /\ users Sample.signed_in.1.2 = users Sample.tables /\
  exists k r, recovery Sample.tables !! k = Some r /\ recovery Sample.signed_in.1.2 !! k = Some {| rc_user := rc_user r; rc_hash := rc_hash r; rc_used := true |}.
Proof.
  assert (S : sign_in to_ascii_lowercase to_ascii_lowercase Sample.hash_token String.eqb Sample.totp ∅ Sample.tables Sample.request
              = (Sample.signed_in.1.1, Sample.signed_in.1.2, Authenticated)) by (vm_compute; reflexivity).
  destruct (sign_in_needs_credentials _ _ _ _ _ _ _ _ _ _ S) as (_ & id & row & _ & _ & _ & U & _).
  split; [vm_compute; reflexivity|]. split; [exact U|].
  exists 7, {| rc_user := 1%N; rc_hash := "abcd-efgh"; rc_used := false |}. split; vm_compute; reflexivity.
Defined.

(** Two admins who demote each other at the same time both pass the guard, and none remains. *)
Lemma concurrent_demotions_leave_no_admin :
  set_role_check to_ascii_lowercase Sample.tables Sample.as_root 2%N "viewer" Sample.reads = Ok "viewer"%string /\
  set_role_check to_ascii_lowercase Sample.tables Sample.as_ops 1%N "viewer" Sample.reads = Ok "viewer"%string /\
  dashboard_admin_count (set_role_write (set_role_write Sample.tables 2%N "viewer" true) 1%N "viewer" true) = 0.
Proof. repeat split; vm_compute; reflexivity. Qed.
(** A guard that could not read the tables lets the last admin be demoted. *)
Lemma unread_guard_demotes_last_admin :
  dashboard_admin_count (Sample.run (set_users Sample.tables {[ 1%N := Sample.root ]})
                           [OpRole Sample.as_root 1%N "viewer" {| gr_is_admin := false; gr_count := true |} true]) = 0.
Proof. vm_compute. reflexivity. Qed.
(** Starting two-factor setup again turns a working second factor off, without a code. *)
Lemma setup_turns_factor_off a u secret row : users a !! si_user u = Some row -> dashboard_user_totp_get (twofa_setup a u secret) (si_user u) = (Some secret, false).
Proof. intros R. unfold dashboard_user_totp_get, twofa_setup, update_user. cbn. by rewrite lookup_alter_eq, R. Qed.
(** A password reset whose session revocation fails reports success, and the old session still acts. *)
Lemma failed_revocation_keeps_session :
  (user_set_password Sample.hash_plain Sample.tables Sample.as_root 2%N "salt" "longer-one" false).2 = Ok tt /\
  require_auth Sample.hash_token false true true (user_set_password Sample.hash_plain Sample.tables Sample.as_root 2%N "salt" "longer-one" false).1 100 (Sample.with_cookie "t2")
    = Passed Sample.as_ops.
Proof. split; vm_compute; reflexivity. Qed.
(** Two accounts may differ only in case; sign-in looks a name up without case. *)
Lemma names_differing_in_case :
  (users_create to_ascii_lowercase Sample.hash_plain Sample.tables Sample.as_root 3%N "salt" "ROOT" "another-pw" None None).2 = Ok 3%N /\
  dashboard_username_taken_by_other to_ascii_lowercase Sample.tables "ROOT" 3%N = true.
Proof. split; vm_compute; reflexivity. Qed.
(** A backslash gets past the check on return paths. *)
Lemma return_path_with_backslash : sanitize_return_to "/\evil.example" = "/\evil.example"%string.
Proof. vm_compute. reflexivity. Qed.
