(* ===== verification/AgentSession.v ===== *)
(** One connected session of the agent: what it observes and sends, and the commands that start and stop
    its workers ([agent/src/connection/agent_loop/]: [session.rs], [url_session.rs], [events.rs]; the
    window trackers of [agent/src/platform/]; the frames of [agent/src/outbound/telemetry.rs]; and the
    retry delay of [connection/reconnect.rs]). Every branch of the session's [select!] is a step on a
    [Session]; what a step reads of the world is in its argument. *)
From S2P Require Import Prelude Text Json Protocol Permissions RecallContext Fence Geometry Spool Input.

(** ** Telemetry frames: [outbound/telemetry.rs] *)

Definition text_opt : option string -> json := opt_value JStr.
Definition event (kind : string) (fields : list (string * json)) : json := mk_obj (("type"%string, JStr kind) :: fields).
Definition Keys_event (window_generation : option Generation) (text app app_display window : string) (ts : Z) (user : option string) : json :=
  event "keys" [("__window_generation", opt_value generation_value window_generation); ("text", JStr text); ("app", JStr app);
                ("app_display", JStr app_display); ("window", JStr window); ("ts", JInt ts); ("user", text_opt user)]%string.
Definition Afk_event (idle_secs ts : Z) (user : option string) : json :=
  event "afk" [("idle_secs", JInt idle_secs); ("ts", JInt ts); ("user", text_opt user)]%string.
Definition Active_event (ts : Z) (user : option string) : json := event "active" [("ts", JInt ts); ("user", text_opt user)]%string.
Definition WindowFocus_event (title app app_display app_path : string) (hwnd ts : Z) (user : option string) : json :=
  event "window_focus" [("title", JStr title); ("app", JStr app); ("app_display", JStr app_display); ("app_path", JStr app_path);
                        ("hwnd", JInt hwnd); ("ts", JInt ts); ("user", text_opt user)]%string.
Definition AppIcon_event (exe_name png_base64 : string) (ts : Z) : json :=
  event "app_icon" [("exe_name", JStr exe_name); ("png_base64", JStr png_base64); ("ts", JInt ts)]%string.
Definition AppBlockKill_event (rule_id : Z) (rule_name exe_name : string) : json :=
  event "app_block_kill" [("rule_id", JInt rule_id); ("rule_name", JStr rule_name); ("exe_name", JStr exe_name)]%string.
Definition Url_event (url title browser : string) (ts : Z) (user : option string) : json :=
  event "url" [("url", JStr url); ("title", JStr title); ("browser", JStr browser); ("ts", JInt ts); ("user", text_opt user)]%string.
Definition UrlSession_event (url : string) (title browser user : option string) (started_at_ts ended_at_ts duration_ms : Z) : json :=
  event "url_session" [("url", JStr url); ("title", text_opt title); ("browser", text_opt browser); ("user", text_opt user);
                       ("started_at_ts", JInt started_at_ts); ("ended_at_ts", JInt ended_at_ts); ("duration_ms", JInt duration_ms)]%string.
Definition Batch_event (events : list json) : json := event "batch" [("events", JArr events)]%string.

(** ** Time on site: [url_session.rs] *)

Record UrlSession := {
  us_url : string; us_title : option string; us_browser : option string; us_user : option string;
  us_started_at : Instant; us_started_ts : Z; us_generation : option Generation
}.
Record UrlTracker := { session : option UrlSession; blocked_by_afk : bool; last_live_key : option string }.
Definition UrlTracker_default : UrlTracker := {| session := None; blocked_by_afk := false; last_live_key := None |}.
Definition url_session_event_value (s : UrlSession) (ended_at_ts : Z) (now : Instant) : json :=
  stamp (UrlSession_event (us_url s) (us_title s) (us_browser s) (us_user s) (us_started_ts s) ended_at_ts
           (Z.min (as_millis (saturating_since now (us_started_at s))) u64_max)) (us_generation s).
Definition tracker_reset (t : UrlTracker) : UrlTracker := {| session := None; blocked_by_afk := blocked_by_afk t; last_live_key := None |}.
Definition set_blocked (t : UrlTracker) (b : bool) : UrlTracker := {| session := session t; blocked_by_afk := b; last_live_key := last_live_key t |}.
Definition end_session (t : UrlTracker) (ts : Z) (now : Instant) : UrlTracker * list json :=
  match session t with
  | Some s => ({| session := None; blocked_by_afk := blocked_by_afk t; last_live_key := last_live_key t |}, [url_session_event_value s ts now])
  | None => (t, [])
  end.
Record ActiveUrl := { au_url : string; au_title : string; au_browser : string }.
(** What a poll reads: the grant captured at its head, the cached grants before the browser is asked and
    when the sample is queued, the clocks, the tab and the user. *)
Record UrlPoll := {
  up_generation : option Generation; up_before : Store; up_after : Store; up_ts : Z; up_now : Instant;
  up_active : option ActiveUrl; up_user : option string
}.
Definition open_session (p : UrlPoll) (info : ActiveUrl) : UrlSession :=
  {| us_url := au_url info; us_title := if String.eqb (trim (au_title info)) "" then None else Some (au_title info);
     us_browser := Some (au_browser info); us_user := up_user p; us_started_at := up_now p; us_started_ts := up_ts p;
     us_generation := up_generation p |}.
Definition newline : string := String "010" EmptyString.
Definition live_key (info : ActiveUrl) : string := (au_url info ++ newline ++ au_title info ++ newline ++ au_browser info)%string.
(** The session a poll leaves, and the event of the one it ended. *)
Definition transition (s : option UrlSession) (active : option ActiveUrl) (p : UrlPoll) : option UrlSession * list json :=
  match s, active with
  | None, Some info => (Some (open_session p info), [])
  | Some s, Some info => if String.eqb (us_url s) (au_url info) then (Some s, [])
                         else (Some (open_session p info), [url_session_event_value s (up_ts p) (up_now p)])
  | Some s, None => (None, [url_session_event_value s (up_ts p) (up_now p)])
  | None, None => (None, [])
  end.
Definition poll (t : UrlTracker) (p : UrlPoll) : UrlTracker * list json :=
  let stale := is_some_and (session t) (fun s => negb (is_some_and (us_generation s) (fun g => matches g (up_before p)))) in
  let t := if stale then tracker_reset t else t in
  let active := if blocked_by_afk t || negb (store_enabled (up_before p) BrowserUrls) then None else up_active p in
  let (s, ended) := transition (session t) active p in
  let tracker k := {| session := s; blocked_by_afk := blocked_by_afk t; last_live_key := k |} in
  match (if is_some_and (up_generation p) (fun g => matches g (up_after p)) then active else None) with
  | None => (tracker None, ended)
  | Some info =>
      let key := live_key info in
      if bool_decide (last_live_key t = Some key) then (tracker (last_live_key t), ended)
      else (tracker (Some key), ended ++ [stamp (Url_event (au_url info) (au_title info) (au_browser info) (up_ts p) (up_user p)) (up_generation p)])
  end.

(** ** The foreground window: [activity_tracker.rs] of each platform *)

Record WindowEvent := { we_title : string; we_app : string; we_app_display : string; we_app_path : string; we_hwnd : Z }.
Definition desktop : WindowEvent := {| we_title := ""; we_app := ""; we_app_display := ""; we_app_path := ""; we_hwnd := 0 |}.
(** Windows: the handle and title last reported; handle 0 is the desktop. *)
Record WindowTracker := { wt_generation : option Generation; last_hwnd : Z; last_title : string }.
Definition WindowTracker_default : WindowTracker := {| wt_generation := None; last_hwnd := 0; last_title := "" |}.
Definition window_poll (t : WindowTracker) (generation : option Generation) (w : WindowEvent) : WindowTracker * option WindowEvent :=
  match generation with
  | None => (t, None)
  | Some _ =>
      let t := if bool_decide (generation = wt_generation t) then t else {| wt_generation := generation; last_hwnd := 0; last_title := "" |} in
      if we_hwnd w =? 0 then
        if last_hwnd t =? 0 then (t, None) else ({| wt_generation := wt_generation t; last_hwnd := 0; last_title := "" |}, Some desktop)
      else if (we_hwnd w =? last_hwnd t) && String.eqb (we_title w) (last_title t) then (t, None)
      else ({| wt_generation := wt_generation t; last_hwnd := we_hwnd w; last_title := we_title w |}, Some w)
  end.
(** Linux: the key last reported; no window is no report. *)
Record LinuxTracker := { lt_generation : option Generation; last_key : string }.
Definition linux_window_poll (decimal : Z -> string) (t : LinuxTracker) (generation : option Generation) (w : option WindowEvent)
    : LinuxTracker * option WindowEvent :=
  match generation with
  | None => (t, None)
  | Some _ =>
      let t := if bool_decide (generation = lt_generation t) then t else {| lt_generation := generation; last_key := "" |} in
      match w with
      | None => (t, None)
      | Some w =>
          let key := (decimal (we_hwnd w) ++ newline ++ we_title w ++ newline ++ we_app_path w)%string in
          if String.eqb key (last_key t) then (t, None) else ({| lt_generation := lt_generation t; last_key := key |}, Some w)
      end
  end.

(** What a new focus queues: the application's icon the first time, then the event. [icon] is the
    extraction of the icon, already encoded. *)
Definition push_window_focus (to_lowercase : string -> string) (w : WindowEvent) (generation : option Generation) (user : option string)
    (icon : string -> option string) (ts : Z) (sent : gset string) : gset string * list json :=
  let exe_key := to_lowercase (trim (we_app w)) in
  let focus := stamp (WindowFocus_event (we_title w) (we_app w) (we_app_display w) (we_app_path w) (we_hwnd w) ts user) generation in
  if negb (String.eqb exe_key "") && negb (bool_decide (exe_key ∈ sent)) && negb (String.eqb (trim (we_app_path w)) "") then
    ({[exe_key]} ∪ sent,
     match icon (we_app_path w) with Some png => [stamp (AppIcon_event exe_key png ts) generation] | None => [] end ++ [focus])
  else (sent, [focus]).

(** ** The outbound channel and the flush: [events.rs] *)

Definition event_permitted (cached : Store) (v : json) : bool :=
  let kind := kind_of v in
  let one_of l := existsb (String.eqb kind) l in
  if one_of ["keys"]%string then store_enabled cached KeyboardText
  else if one_of ["afk"; "active"]%string then store_enabled cached IdleActivity
  else if one_of ["window_focus"; "app_icon"]%string then store_enabled cached WindowActivity
  else if one_of ["url"; "url_session"]%string then store_enabled cached BrowserUrls
  else true.
(** [retain]: the store is read for every event, from the file and then from the cache. *)
Definition keep_event (console : option Z) (file : StoreFile) (cached : Store) (v : json) : bool :=
  outbound_allowed_in console (load_or_default file) v && event_permitted cached v.
Fixpoint retain (console : option Z) (file : nat -> StoreFile) (cached : nat -> Store) (i : nat) (l : list json) : list json :=
  match l with
  | [] => []
  | v :: l => (if keep_event console (file i) (cached i) v then [v] else []) ++ retain console file cached (S i) l
  end.

(** What was handed to the writer, and how many messages it still takes before it is gone. *)
Record Outbound := { sent : list WireMessage; room : nat }.
Definition send (o : Outbound) (m : WireMessage) : Outbound * bool :=
  match room o with
  | O => (o, false)
  | S n => ({| sent := sent o ++ [m]; room := n |}, true)
  end.

Section session.
Context `{JsonText}.
Definition text_of (v : json) : WireMessage := WText (json_print v).
Fixpoint send_each (o : Outbound) (l : list json) : Outbound * bool :=
  match l with
  | [] => (o, true)
  | v :: l => match send o (text_of v) with (o, true) => send_each o l | (o, false) => (o, false) end
  end.
Definition BATCH_LIMIT : nat := Z.to_nat 250000.
(** [flush_events]; the queue is empty afterwards in every case. *)
Definition flush_events (console : option Z) (file : nat -> StoreFile) (cached : nat -> Store) (o : Outbound) (pending : list json) : Outbound * bool :=
  match retain console file cached 0 pending with
  | [] => (o, true)
  | [one] => send o (text_of one)
  | events =>
      let batch := json_print (Batch_event events) in
      if (length batch <=? BATCH_LIMIT)%nat then send o (WText batch) else send_each o events
  end.

(** ** The session: [session.rs] *)

(** The fields of [Session], by what they serve: the way out, what is observed, the live workers (whether
    their stop flag is held) and Recall's pipeline. *)
Record Link := { out : Outbound; pending_events : list json; permission_report : json }.
Record Watch := {
  win_tracker : WindowTracker; sent_app_icons : gset string; url_tracker : UrlTracker; active_user : option string; is_afk : bool;
  idle_generation : option Generation; metrics_generation : option Generation; url_deadline : Instant; window_deadline : Instant
}.
Record Live := { controller : option Injector; capture_running : bool; audio_running : bool }.
Record RecallSide := { recall_active : bool; last_input : Z; recall_wake : bool; spool : option Dir; history_in_flight : InFlight }.
Record Session := { link : Link; watch : Watch; live : Live; recall : RecallSide }.
Definition set_link (s : Session) (l : Link) : Session := {| link := l; watch := watch s; live := live s; recall := recall s |}.
Definition set_watch (s : Session) (w : Watch) : Session := {| link := link s; watch := w; live := live s; recall := recall s |}.
Definition set_live (s : Session) (l : Live) : Session := {| link := link s; watch := watch s; live := l; recall := recall s |}.
Definition set_recall (s : Session) (r : RecallSide) : Session := {| link := link s; watch := watch s; live := live s; recall := r |}.
Definition set_out (s : Session) (o : Outbound) : Session :=
  set_link s {| out := o; pending_events := pending_events (link s); permission_report := permission_report (link s) |}.
Definition set_pending (s : Session) (l : list json) : Session :=
  set_link s {| out := out (link s); pending_events := l; permission_report := permission_report (link s) |}.
Definition queue (s : Session) (l : list json) : Session := set_pending s (pending_events (link s) ++ l).
Definition set_tracker (s : Session) (t : UrlTracker) : Session :=
  set_watch s {| win_tracker := win_tracker (watch s); sent_app_icons := sent_app_icons (watch s); url_tracker := t; active_user := active_user (watch s);
                 is_afk := is_afk (watch s); idle_generation := idle_generation (watch s); metrics_generation := metrics_generation (watch s);
                 url_deadline := url_deadline (watch s); window_deadline := window_deadline (watch s) |}.
Definition set_afk (s : Session) (afk : bool) (url window : Instant) : Session :=
  set_watch s {| win_tracker := win_tracker (watch s); sent_app_icons := sent_app_icons (watch s);
                 url_tracker := set_blocked (url_tracker (watch s)) afk; active_user := active_user (watch s);
                 is_afk := afk; idle_generation := idle_generation (watch s); metrics_generation := metrics_generation (watch s);
                 url_deadline := url; window_deadline := window |}.
Definition set_recall_active (s : Session) (on : bool) : Session :=
  set_recall s {| recall_active := on; last_input := last_input (recall s); recall_wake := recall_wake (recall s); spool := spool (recall s);
                  history_in_flight := history_in_flight (recall s) |}.
Definition note_input (s : Session) (ms : Z) : Session :=
  set_recall s {| recall_active := recall_active (recall s); last_input := ms; recall_wake := recall_wake (recall s); spool := spool (recall s);
                  history_in_flight := history_in_flight (recall s) |}.
Definition set_controller (s : Session) (c : option Injector) : Session :=
  set_live s {| controller := c; capture_running := capture_running (live s); audio_running := audio_running (live s) |}.
Definition set_capture (s : Session) (on : bool) : Session :=
  set_live s {| controller := controller (live s); capture_running := on; audio_running := audio_running (live s) |}.
Definition set_audio (s : Session) (on : bool) : Session :=
  set_live s {| controller := controller (live s); capture_running := capture_running (live s); audio_running := on |}.

Definition WINDOW_POLL_INTERVAL_MS : Z := 200.
Definition URL_POLL_INTERVAL_SECS : Z := 2.
Definition URL_POLL_AFK_INTERVAL_SECS : Z := 10.
Definition WINDOW_POLL_AFK_INTERVAL_MS : Z := 1000.

(** What starts a session: the hello frames, the backends that could be opened, the user and the grants. *)
Record SessionStart := {
  st_file : StoreFile; st_clipboard : bool; st_info : option json; st_controller : option Injector; st_user : option string; st_room : nat;
  st_now : Instant; st_recall_active : bool; st_last_input : Z; st_spool : option Dir; st_capture : bool; st_audio : bool
}.
Definition send_session_hello (o : Outbound) (file : StoreFile) (clipboard : bool) (info : option json) : Outbound * json :=
  let report := wire clipboard (load_or_default file) in
  let o := (send o (text_of report)).1 in
  (match info with Some i => (send o (text_of i)).1 | None => o end, report).
Definition Session_new (a : SessionStart) (report : json) (o : Outbound) : Session :=
  {| link := {| out := o; pending_events := []; permission_report := report |};
     watch := {| win_tracker := WindowTracker_default; sent_app_icons := ∅; url_tracker := UrlTracker_default; active_user := st_user a; is_afk := false;
                 idle_generation := rok (load (st_file a)) ≫= fun s => generation_from_state s IdleActivity; metrics_generation := None;
                 url_deadline := st_now a + secs URL_POLL_INTERVAL_SECS; window_deadline := st_now a + millis WINDOW_POLL_INTERVAL_MS |};
     live := {| controller := st_controller a; capture_running := st_capture a; audio_running := st_audio a |};
     recall := {| recall_active := st_recall_active a; last_input := st_last_input a; recall_wake := false; spool := st_spool a; history_in_flight := ∅ |} |}.

Inductive Flow : Type := Continue | Break | Fail.
Definition flow (ok : bool) : Flow := if ok then Continue else Fail.

(** *** Server text *)

(** The cached grants, the capture geometry, whether a service owns capture and input, and whether
    capture starts. *)
Record TextEnv := { te_cached : Store; te_selection : Selection; te_suppressed : bool; te_capture_starts : bool; te_audio_starts : bool }.
Section text.
Variable os : nat -> bool.
Context `{UuidText}.
(** A command whose worker is not part of the session. *)
Definition elsewhere (c : ServerCommand) : bool :=
  match c with
  | StartCapture_ _ | StopCapture | StartAudio | StopAudio => false
  | Protocol.MouseMove | Protocol.MouseClick | Protocol.MouseDoubleClick | Protocol.MouseDown | Protocol.MouseUp | Protocol.MouseScroll
  | Protocol.Scroll | Protocol.KeyDown | Protocol.KeyUp | Protocol.KeyPress | Protocol.KeyChar | Protocol.TypeText | Protocol.Notify => false
  | HistoryFrameAck_ _ | Unknown => false
  | _ => true
  end.
Definition input_handle (e : TextEnv) (s : Session) (text : list Z) : Session :=
  match controller (live s) with
  | Some c => if store_enabled (te_cached e) RemoteInput then set_controller s (Some (handle_command os (te_cached e) (te_selection e) c text).1) else s
  | None => s
  end.
Definition run_command (e : TextEnv) (s : Session) (text : list Z) (c : ServerCommand) (g : option Generation) : Session :=
  match c with
  | StartCapture_ _ => if te_suppressed e then s else match g with None => s | Some _ => set_capture s (te_capture_starts e) end
  | StopCapture => if te_suppressed e then s else set_capture s false
  | StartAudio => match g with None => s | Some _ => set_audio s (te_audio_starts e) end
  | StopAudio => set_audio s false
  | c => if elsewhere c then s else if te_suppressed e then s else input_handle e s text
  end.
Definition handle_server_command (e : TextEnv) (s : Session) (text : list Z) : Session :=
  match json_parse text with
  | None => s
  | Some v => match dispatch_command (te_cached e) v with RunCommand c g => run_command e s text c g | _ => s end
  end.
End text.

Fixpoint mentions (p l : list Z) : bool := starts_with l p || match l with [] => false | _ :: l => mentions p l end.
Definition ACK_KIND : list Z := (fun c => Z.of_N (N_of_ascii c)) <$> String.list_ascii_of_string "history_frame_ack".
Definition set_spool (s : Session) (d : option Dir) (f : InFlight) (wake : bool) : Session :=
  set_recall s {| recall_active := recall_active (recall s); last_input := last_input (recall s); recall_wake := wake; spool := d; history_in_flight := f |}.
Definition on_server_text `{UuidText} (os : nat -> bool) (e : TextEnv) (s : Session) (text : list Z) : Session :=
  let '(dir, in_flight, acked) := handle_history_ack text (default ∅ (spool (recall s))) (history_in_flight (recall s)) in
  if mentions ACK_KIND text && acked then set_spool s ((fun _ => dir) <$> spool (recall s)) in_flight true
  else handle_server_command os e s text.

(** *** Ticks and events *)

(** What a flush tick reads: the grants of each of its checks, the console, the report's clipboard half. *)
Record FlushEnv := {
  fe_console : option Z; fe_clipboard : bool; fe_capture : StoreFile; fe_load : StoreFile; fe_cleanup : Store; fe_cached : Store;
  fe_file : nat -> StoreFile; fe_store : nat -> Store
}.
Definition flush (console : option Z) (file : nat -> StoreFile) (cached : nat -> Store) (s : Session) : Session * bool :=
  let (o, ok) := flush_events console file cached (out (link s)) (pending_events (link s)) in (set_pending (set_out s o) [], ok).
Definition renew_idle (next : option Generation) (s : Session) : Session :=
  if bool_decide (next = idle_generation (watch s)) then s
  else
    let s := set_afk s false (url_deadline (watch s)) (window_deadline (watch s)) in
    let w := watch s in
    set_recall_active (set_watch s {| win_tracker := win_tracker w; sent_app_icons := sent_app_icons w; url_tracker := url_tracker w; active_user := active_user w;
                                      is_afk := is_afk w; idle_generation := next; metrics_generation := metrics_generation w;
                                      url_deadline := url_deadline w; window_deadline := window_deadline w |}) true.
Definition renew_report (report : json) (s : Session) : Session :=
  if bool_decide (report = permission_report (link s)) then s
  else set_link s {| out := (send (out (link s)) (text_of report)).1; pending_events := pending_events (link s); permission_report := report |}.
(** Work whose module was revoked stops. *)
Definition stop_revoked (os : nat -> bool) (cleanup cached : Store) (s : Session) : Session :=
  let s := set_controller s (cleanup_revoked os cleanup <$> controller (live s)) in
  let s := if store_enabled cached BrowserUrls then s else set_tracker s (tracker_reset (url_tracker (watch s))) in
  let s := if store_enabled cached LiveScreen then s else set_capture s false in
  if store_enabled cached LiveAudio then s else set_audio s false.
Definition on_flush_tick (os : nat -> bool) (e : FlushEnv) (s : Session) : Session * Flow :=
  let s := renew_idle (rok (load (fe_capture e)) ≫= fun st => generation_from_state st IdleActivity) s in
  let s := renew_report (wire (fe_clipboard e) (load_or_default (fe_load e))) s in
  let s := stop_revoked os (fe_cleanup e) (fe_cached e) s in
  let (s, ok) := flush (fe_console e) (fe_file e) (fe_store e) s in (s, flow ok).

Record KillEvent := { ke_rule_id : Z; ke_rule_name : string; ke_exe_name : string; ke_generation : Generation }.
Definition on_kill_event (s : Session) (k : KillEvent) : Session :=
  queue s [stamp (AppBlockKill_event (ke_rule_id k) (ke_rule_name k) (ke_exe_name k)) (Some (ke_generation k))].
(** The newest frame of those waiting. *)
Definition on_frame (console : option Z) (file : StoreFile) (s : Session) (first : option (list Z)) (waiting : list (list Z)) : Session * Flow :=
  match last (match first with Some f => [f] | None => [] end ++ waiting) with
  | None => (s, Continue)
  | Some jpeg =>
      if message_allowed console file (WBinary jpeg) then let (o, ok) := send (out (link s)) (WBinary jpeg) in (set_out s o, flow ok)
      else (s, Continue)
  end.
(** [pump_history]: the pump's sends are this channel's. *)
Definition pump_env_on (e : PumpEnv) (o : Outbound) : PumpEnv :=
  {| pe_allowed := pe_allowed e; pe_now := pe_now e; pe_context := pe_context e; pe_fence := pe_fence e; pe_sent_at := pe_sent_at e; pe_accepts := room o |}.
Definition pump_history (e : PumpEnv) (s : Session) : Session * Flow :=
  match spool (recall s) with
  | None => (s, Continue)
  | Some dir =>
      let o := out (link s) in
      let (p, ok) := pump_history_spool (pump_env_on e o) dir (history_in_flight (recall s)) in
      (set_out (set_spool s (Some (p_dir p)) (p_in_flight p) (recall_wake (recall s)))
         {| sent := sent o ++ (WBinary <$> p_out p); room := room o - length (p_out p) |}, flow ok)
  end.
Definition on_url_poll (p : UrlPoll) (s : Session) : Session :=
  let w := watch s in
  let wait := if is_afk w then URL_POLL_AFK_INTERVAL_SECS else URL_POLL_INTERVAL_SECS in
  let (t, events) := poll (url_tracker w) p in
  queue (set_watch s {| win_tracker := win_tracker w; sent_app_icons := sent_app_icons w; url_tracker := t; active_user := active_user w; is_afk := is_afk w;
                        idle_generation := idle_generation w; metrics_generation := metrics_generation w;
                        url_deadline := up_now p + secs wait; window_deadline := window_deadline w |}) events.

Inductive InputEvent : Type :=
| KeysTyped (text app app_display window : string) (ts : Z) (generation : Generation) (context_generation : option Generation)
| WentAfk (idle_secs : Z) (generation : Generation)
| BecameActive (generation : Generation).
Definition event_generation (e : InputEvent) : Generation :=
  match e with KeysTyped _ _ _ _ _ g _ | WentAfk _ g | BecameActive g => g end.
Definition input_module (e : InputEvent) : Module_ := match e with KeysTyped _ _ _ _ _ _ _ => KeyboardText | _ => IdleActivity end.
Record Clock := { ck_now : Instant; ck_ts : Z; ck_ms : Z }.
Definition enter_afk (c : Clock) (s : Session) : Session :=
  let s := set_afk (set_recall_active s false) true (ck_now c + secs URL_POLL_AFK_INTERVAL_SECS) (ck_now c + millis WINDOW_POLL_AFK_INTERVAL_MS) in
  let (t, events) := end_session (url_tracker (watch s)) (ck_ts c) (ck_now c) in
  queue (set_tracker s t) events.
Definition leave_afk (c : Clock) (s : Session) : Session :=
  note_input (set_recall_active (set_afk s false (ck_now c + secs URL_POLL_INTERVAL_SECS) (ck_now c + millis WINDOW_POLL_INTERVAL_MS)) true) (ck_ms c).
(** [cached] and [cached']: the grants at the generation's check and at the module's. *)
Definition on_input_event (cached cached' : Store) (c : Clock) (s : Session) (e : option InputEvent) : Session * Flow :=
  match e with
  | None => (s, Break)
  | Some e =>
      if negb (matches (event_generation e) cached) || negb (store_enabled cached' (input_module e)) then (s, Continue)
      else
        let user := active_user (watch s) in
        match e with
        | KeysTyped text app app_display window ts g w =>
            (queue (note_input s (ck_ms c)) [stamp (Keys_event w text app app_display window ts user) (Some g)], Continue)
        | WentAfk idle g => (queue (enter_afk c s) [stamp (Afk_event idle (ck_ts c) user) (Some g)], Continue)
        | BecameActive g => (queue (leave_afk c s) [stamp (Active_event (ck_ts c) user) (Some g)], Continue)
        end
  end.
Record WindowEnv := { wn_clock : Clock; wn_cached : Store; wn_generation : option Generation; wn_tracker_generation : option Generation; wn_window : WindowEvent }.
Definition on_window_poll (to_lowercase : string -> string) (icon : string -> option string) (e : WindowEnv) (s : Session) : Session :=
  let w := watch s in
  let wait := if is_afk w then WINDOW_POLL_AFK_INTERVAL_MS else WINDOW_POLL_INTERVAL_MS in
  let rearm t icons := {| win_tracker := t; sent_app_icons := icons; url_tracker := url_tracker w; active_user := active_user w; is_afk := is_afk w;
                          idle_generation := idle_generation w; metrics_generation := metrics_generation w; url_deadline := url_deadline w;
                          window_deadline := ck_now (wn_clock e) + millis wait |} in
  if negb (store_enabled (wn_cached e) WindowActivity) then set_watch s (rearm (win_tracker w) (sent_app_icons w))
  else
    match window_poll (win_tracker w) (wn_tracker_generation e) (wn_window e) with
    | (t, None) => set_watch s (rearm t (sent_app_icons w))
    | (t, Some ev) =>
        let (icons, events) := push_window_focus to_lowercase ev (wn_generation e) (active_user w) icon (ck_ts (wn_clock e)) (sent_app_icons w) in
        queue (note_input (set_watch s (rearm t icons)) (ck_ms (wn_clock e))) events
    end.
(** [sample]: the metrics read, when the grant is the one they were started under. *)
Definition on_metrics_tick (cached : Store) (next : option Generation) (sample : option json) (s : Session) : Session :=
  let w := watch s in
  if negb (store_enabled cached ResourceMetrics) then s
  else if negb (bool_decide (metrics_generation w = next))
  then set_watch s {| win_tracker := win_tracker w; sent_app_icons := sent_app_icons w; url_tracker := url_tracker w; active_user := active_user w;
                      is_afk := is_afk w; idle_generation := idle_generation w; metrics_generation := next; url_deadline := url_deadline w;
                      window_deadline := window_deadline w |}
  else match sample with Some m => set_out s (send (out (link s)) (text_of m)).1 | None => s end.
Definition refresh_active_user (user : option string) (s : Session) : Session :=
  let w := watch s in
  set_watch s {| win_tracker := win_tracker w; sent_app_icons := sent_app_icons w; url_tracker := url_tracker w; active_user := user; is_afk := is_afk w;
                 idle_generation := idle_generation w; metrics_generation := metrics_generation w; url_deadline := url_deadline w;
                 window_deadline := window_deadline w |}.
Record EndEnv := { ee_clock : Clock; ee_console : option Z; ee_file : nat -> StoreFile; ee_store : nat -> Store }.
Definition shutdown (os : nat -> bool) (e : EndEnv) (s : Session) : Session :=
  let s := set_controller s (release_all os <$> controller (live s)) in
  let (t, events) := end_session (url_tracker (watch s)) (ck_ts (ee_clock e)) (ck_now (ee_clock e)) in
  (flush (ee_console e) (ee_file e) (ee_store e) (queue (set_tracker s t) events)).1.

(** *** The loop *)

(** What a branch of the [select!] brings. *)
Inductive Branch : Type :=
| BText (e : TextEnv) (text : list Z) | BOtherMessage | BClosed
| BUser (user : option string)
| BFlush (e : FlushEnv)
| BKill (k : option KillEvent)
| BFrame (console : option Z) (file : StoreFile) (first : option (list Z)) (waiting : list (list Z))
| BPumpWoken (e : PumpEnv) | BPumpTick (e : PumpEnv)
| BUrl (p : UrlPoll)
| BInput (cached cached' : Store) (c : Clock) (e : option InputEvent)
| BWindow (e : WindowEnv)
| BSoftware
| BMetrics (cached : Store) (next : option Generation) (sample : option json).
Definition branch `{UuidText} (os : nat -> bool) (to_lowercase : string -> string) (icon : string -> option string) (s : Session) (b : Branch)
    : Session * Flow :=
  match b with
  | BText e text => (on_server_text os e s text, Continue)
  | BOtherMessage => (s, Continue)
  | BClosed => (s, Break)
  | BUser user => (refresh_active_user user s, Continue)
  | BFlush e => on_flush_tick os e s
  | BKill (Some k) => (on_kill_event s k, Continue)
  | BKill None => (s, Continue)
  | BFrame console file first waiting => on_frame console file s first waiting
  | BPumpWoken e => pump_history e (set_spool s (spool (recall s)) (history_in_flight (recall s)) false)
  | BPumpTick e => pump_history e s
  | BUrl p => (on_url_poll {| up_generation := up_generation p; up_before := up_before p; up_after := up_after p; up_ts := up_ts p; up_now := up_now p;
                              up_active := up_active p; up_user := active_user (watch s) |} s, Continue)
  | BInput cached cached' c e => on_input_event cached cached' c s e
  | BWindow e => (on_window_poll to_lowercase icon e s, Continue)
  | BSoftware => (s, Continue)
  | BMetrics cached next sample => (on_metrics_tick cached next sample s, Continue)
  end.
Fixpoint session_loop `{UuidText} (os : nat -> bool) (lower : string -> string) (icon : string -> option string) (s : Session) (bs : list Branch)
    : Session * Flow :=
  match bs with
  | [] => (s, Continue)
  | b :: bs => match branch os lower icon s b with
               | (s, Continue) => session_loop os lower icon s bs
               | r => r
               end
  end.
(** [run_session] and what follows it in [run_agent_loop]: the capture and audio threads are stopped on
    every end. *)
Definition run_session `{UuidText} (os : nat -> bool) (lower : string -> string) (icon : string -> option string) (a : SessionStart) (bs : list Branch)
    (e : EndEnv) : Session * Flow :=
  let (o, report) := send_session_hello {| sent := []; room := st_room a |} (st_file a) (st_clipboard a) (st_info a) in
  let (s, f) := session_loop os lower icon (Session_new a report o) bs in (shutdown os e s, f).
Definition stop_session_workers (s : Session) : Session := set_audio (set_capture s false) false.
End session.

(** ** Retrying: [reconnect.rs] *)

Definition RECONNECT_BACKOFF_BASE_MS : Z := 750.
Definition RECONNECT_BACKOFF_MAX_MS : Z := 30000.
(** [subsec]: the milliseconds of the wall clock's second. *)
Definition reconnect_backoff_ms (attempt subsec : Z) : Z :=
  let pow := Z.min attempt 6 in
  let base := Z.min (RECONNECT_BACKOFF_BASE_MS * Z.shiftl 1 pow) u64_max in
  let capped := Z.min base RECONNECT_BACKOFF_MAX_MS in
  Z.min (capped + subsec mod 500) u64_max.
(** The attempts of [run_agent_loop]: a session resets them, a failed connect counts up to [u32::MAX], a
    changed configuration resets them while waiting. *)
Definition after_connect (attempt : Z) (connected : bool) : Z := if connected then 0 else Z.min (attempt + 1) u32_max.
Definition wait_ms (attempt subsec : Z) : Z := reconnect_backoff_ms (Z.max attempt 1) subsec.
Definition after_wait (attempt : Z) (config_changed : bool) : Z := if config_changed then 0 else attempt.

(** ** What leaves the session *)

Section delivery.
Context `{JsonText}.
(** The events a message carries, read back from its text. *)
Definition carried (m : WireMessage) : list json :=
  match m with
  | WText t => match json_parse t with
               | Some v => if str_is (idx v "type") "batch" then match get v "events" with Some (JArr es) => es | _ => [] end else [v]
               | None => []
               end
  | _ => []
  end.
Lemma not_batch v : kind_of v <> "batch"%string -> str_is (idx v "type") "batch" = false.
Proof.
  unfold str_is, kind_of. destruct (as_str (idx v "type")) as [k|]; [|done]. intros K. apply String.eqb_neq. intros E. by apply K.
Qed.
Lemma carried_text v : json_plain v = true -> kind_of v <> "batch"%string -> carried (text_of v) = [v].
Proof.
  intros P K. cbn [carried text_of]. rewrite json_parse_print by done. by rewrite (not_batch v K).
Qed.
Lemma carried_batch es : forallb json_plain es = true -> carried (WText (json_print (Batch_event es))) = es.
Proof.
  intros P. cbn [carried]. rewrite json_parse_print; [done|]. apply mk_obj_plain. repeat constructor. exact P.
Qed.
Lemma carried_texts l : Forall (fun v => json_plain v = true /\ kind_of v <> "batch"%string) l -> concat (carried <$> (text_of <$> l)) = l.
Proof. induction 1 as [|v l [P K] _ IH]; [done|]. cbn [fmap list_fmap concat]. rewrite carried_text, IH by done. done. Qed.
Lemma retain_spec console file cached i l v : v ∈ retain console file cached i l ->
  v ∈ l /\ exists j, keep_event console (file j) (cached j) v = true.
Proof.
  revert i. induction l as [|x l IH]; intros i I; [by apply elem_of_nil in I|]. cbn [retain] in I. apply elem_of_app in I as [I|I].
  - destruct (keep_event _ _ _ x) eqn:K; [|by apply elem_of_nil in I]. apply list_elem_of_singleton in I as ->. split; [by left|by exists i].
  - destruct (IH _ I) as [? ?]. split; [by right|done].
Qed.
Lemma send_each_spec o l o' ok : send_each o l = (o', ok) ->
  exists n, sent o' = sent o ++ (text_of <$> take n l) /\ (ok = true -> n = length l) /\ (ok = false -> room o' = 0%nat /\ (n < length l)%nat).
Proof.
  revert o. induction l as [|v l IH]; intros o E; cbn [send_each] in E.
  - injection E as <- <-. exists 0%nat. split; [by rewrite app_nil_r|done].
  - unfold send in E. destruct (room o) as [|r] eqn:R.
    + injection E as <- <-. exists 0%nat. split; [by rewrite app_nil_r|]. split; [done|]. intros _. split; [done|cbn; lia].
    + apply IH in E as (n & S & T & F). exists (Datatypes.S n). cbn [take sent] in *. split; [by rewrite S, <-app_assoc|].
      cbn [length]. split; [intros K; by rewrite (T K)|]. intros K. destruct (F K). split; [done|lia].
Qed.
Lemma send_spec o m o' ok : send o m = (o', ok) -> if ok then sent o' = sent o ++ [m] else o' = o /\ room o' = 0%nat.
Proof. unfold send. destruct (room o) eqn:R; intros [= <- <-]; [by split|done]. Qed.

(** A flush hands the queued events to the writer once each and in order, in one batch or one by one:
    exactly those that pass the check made for them, and when the writer goes away, those before the
    first it did not take. Every one of a module was stamped by a generation of that module that stood
    when it was checked, and its module was on. *)
Theorem flush_delivers console file cached o pending o' ok :
  Forall (fun v => json_plain v = true /\ kind_of v <> "batch"%string) pending ->
  flush_events console file cached o pending = (o', ok) ->
  exists msgs lost, sent o' = sent o ++ msgs /\ retain console file cached 0 pending = concat (carried <$> msgs) ++ lost /\
    (ok = true -> lost = []) /\ (ok = false -> room o' = 0%nat) /\
    (forall v, v ∈ concat (carried <$> msgs) -> v ∈ pending /\ exists i, event_permitted (cached i) v = true /\
       forall m, event_module v = Some m -> exists g, decode_generation (idx v "__module_generation") = Some g /\ gen_module g = m /\
         matches g (load_or_default (file i)) = true).
Proof.
  intros P E.
  assert (W : exists msgs lost, sent o' = sent o ++ msgs /\ retain console file cached 0 pending = concat (carried <$> msgs) ++ lost /\
    (ok = true -> lost = []) /\ (ok = false -> room o' = 0%nat)).
  { assert (PR : Forall (fun v => json_plain v = true /\ kind_of v <> "batch"%string) (retain console file cached 0 pending)).
    { apply Forall_forall. intros v I. apply retain_spec in I as [I _]. rewrite Forall_forall in P. by apply P. }
    unfold flush_events in E. destruct (retain console file cached 0 pending) as [|v [|v' l]] eqn:R.
    - injection E as <- <-. exists [], []. split; [by rewrite app_nil_r|done].
    - apply Forall_cons in PR as [[Pv Kv] _]. apply send_spec in E. destruct ok.
      + exists [text_of v], []. split; [done|]. cbn [fmap list_fmap concat]. by rewrite carried_text, app_nil_r by done.
      + destruct E as [-> E]. exists [], [v]. split; [by rewrite app_nil_r|done].
    - set (es := v :: v' :: l) in *. cbv zeta in E. destruct (_ <=? _)%nat.
      + apply send_spec in E. destruct ok.
        * exists [WText (json_print (Batch_event es))], []. split; [done|]. cbn [fmap list_fmap concat].
          rewrite carried_batch, !app_nil_r; [done|]. apply forallb_forall. intros x I. rewrite Forall_forall in PR. apply list_elem_of_In in I. by destruct (PR x I).
        * destruct E as [-> E]. exists [], es. split; [by rewrite app_nil_r|done].
      + apply send_each_spec in E as (n & S & T & F). exists (text_of <$> take n es), (drop n es). split; [exact S|].
        rewrite carried_texts by (by apply Forall_take). rewrite take_drop. split; [done|]. split.
        * intros K. apply drop_ge. by rewrite (T K).
        * intros K. by destruct (F K). }
  destruct W as (msgs & lost & S & R & T & F). exists msgs, lost. repeat (split; [done|]). intros v I.
  assert (I' : v ∈ retain console file cached 0 pending) by (rewrite R; apply elem_of_app; by left).
  apply retain_spec in I' as (Ip & j & K). split; [done|]. exists j. unfold keep_event in K. apply andb_true_iff in K as [K1 K2]. split; [done|].
  intros m M. rewrite outbound_allowed_in_eq in K1. destruct (_ && _); [done|]. rewrite Forall_forall in P.
  destruct (P v Ip) as [_ NB]. rewrite (not_batch v NB) in K1. by apply event_allowed_spec.
Qed.
End delivery.

(** ** Time on site, against a reference *)

Fixpoint polls (t : UrlTracker) (l : list UrlPoll) : UrlTracker * list json :=
  match l with
  | [] => (t, [])
  | p :: l => let (t, events) := poll t p in let (t, rest) := polls t l in (t, events ++ rest)
  end.
(** Everything a tracker emits over some polls and the end of the session. *)
Definition site_events (l : list UrlPoll) (ts : Z) (now : Instant) : list json :=
  let (t, events) := polls UrlTracker_default l in events ++ (end_session t ts now).2.
Definition on_site (url : string) (p : UrlPoll) : bool := is_some_and (up_active p) (fun i => String.eqb url (au_url i)).
(** The visits: every sample on another site than the one before opens one, which lasts until the first
    later sample that is not on it. *)
Fixpoint visits (before : option ActiveUrl) (l : list UrlPoll) : list (UrlPoll * ActiveUrl * option UrlPoll) :=
  match l with
  | [] => []
  | p :: l =>
      match up_active p with
      | Some i => if is_some_and before (fun b => String.eqb (au_url b) (au_url i)) then [] else [(p, i, List.find (fun q => negb (on_site (au_url i) q)) l)]
      | None => []
      end ++ visits (up_active p) l
  end.
Definition visit_event (ts : Z) (now : Instant) (v : UrlPoll * ActiveUrl * option UrlPoll) : json :=
  let '(p, i, e) := v in
  url_session_event_value (open_session p i) (match e with Some q => up_ts q | None => ts end) (match e with Some q => up_now q | None => now end).
(** The samples whose tab differs from the one before, in the lines of address, title and browser. *)
Definition tab_lines (i : ActiveUrl) : string := String.concat (String "010" EmptyString) [au_url i; au_title i; au_browser i].
Fixpoint tab_changes (before : option ActiveUrl) (l : list UrlPoll) : list (UrlPoll * ActiveUrl) :=
  match l with
  | [] => []
  | p :: l =>
      match up_active p with
      | Some i => if is_some_and before (fun b => String.eqb (tab_lines b) (tab_lines i)) then [] else [(p, i)]
      | None => []
      end ++ tab_changes (up_active p) l
  end.
Definition live_event (c : UrlPoll * ActiveUrl) : json :=
  stamp (Url_event (au_url c.2) (au_title c.2) (au_browser c.2) (up_ts c.1) (up_user c.1)) (up_generation c.1).
Definition of_kind (k : string) (l : list json) : list json := List.filter (fun v => String.eqb (kind_of v) k) l.

Section one_grant.
Context (g : Generation) (G : gen_module g = BrowserUrls).
(** A sample taken while the grant [g] stands. *)
Definition sampled (p : UrlPoll) : Prop := up_generation p = Some g /\ matches g (up_before p) = true /\ matches g (up_after p) = true.
Definition tracking (t : UrlTracker) (before : option ActiveUrl) : Prop :=
  blocked_by_afk t = false /\ last_live_key t = live_key <$> before /\
  match session t, before with Some s, Some i => us_url s = au_url i /\ us_generation s = Some g | None, None => True | _, _ => False end.

Lemma tab_lines_key before i :
  is_some_and before (fun b => String.eqb (tab_lines b) (tab_lines i)) = bool_decide (live_key <$> before = Some (live_key i)).
Proof.
  destruct before as [b|]; [|done]. cbn [is_some_and fmap option_fmap option_map]. change (tab_lines b) with (live_key b). change (tab_lines i) with (live_key i).
  destruct (String.eqb_spec (live_key b) (live_key i)) as [->|N]; [by rewrite bool_decide_eq_true_2|]. rewrite bool_decide_eq_false_2; [done|congruence].
Qed.
Lemma of_kind_app k a b : of_kind k (a ++ b) = of_kind k a ++ of_kind k b.
Proof. apply List.filter_app. Qed.
Lemma visit_kind s ts now : kind_of (url_session_event_value s ts now) = "url_session"%string.
Proof. unfold url_session_event_value, stamp. by destruct (us_generation s). Qed.
Lemma live_kind c : kind_of (live_event c) = "url"%string.
Proof. unfold live_event, stamp. by destruct (up_generation c.1). Qed.
Lemma poll_sampled t p before : sampled p -> tracking t before ->
  let (s, ended) := transition (session t) (up_active p) p in
  poll t p = ({| session := s; blocked_by_afk := false; last_live_key := live_key <$> up_active p |},
              ended ++ match up_active p with
                       | Some i => if bool_decide (live_key <$> before = Some (live_key i)) then [] else [live_event (p, i)]
                       | None => []
                       end) /\
  tracking (poll t p).1 (up_active p).
Proof.
  intros (C & B & A) (K & L & S). unfold poll. rewrite C. cbn [is_some_and]. rewrite A.
  assert (E : store_enabled (up_before p) BrowserUrls = true).
  { rewrite store_enabled_generation. pose proof (proj2 (generation_from_state_Some (up_before p) BrowserUrls g) (conj G B)) as ->. done. }
  assert (T : is_some_and (session t) (fun s => negb (is_some_and (us_generation s) (fun g => matches g (up_before p)))) = false).
  { destruct (session t) as [s|], before as [i|]; try done. destruct S as [_ S]. cbn. rewrite S. cbn. by rewrite B. }
  rewrite T, K, E. cbn [orb negb]. rewrite L. destruct t as [sess blk live]. cbn in K, L, S |- *. subst blk live.
  destruct sess as [s|], before as [b|], (up_active p) as [i|]; try done; cbn [transition fmap option_fmap option_map].
  - destruct S as [SU SG]. destruct (String.eqb (us_url s) (au_url i)) eqn:U.
    + case_bool_decide as D; (split; [unfold live_event; cbn; rewrite ?C; try rewrite D; done|]); repeat split; cbn; try done; by apply String.eqb_eq.
    + case_bool_decide as D; (split; [unfold live_event; cbn; rewrite ?C, ?app_nil_r; try rewrite D; done|]); repeat split; cbn; done.
  - case_bool_decide as D; [done|]. split; [unfold live_event; cbn; by rewrite C|]. repeat split; cbn; done.
Qed.

Lemma live_none c (d : bool) : of_kind "url_session" (if d then [] else [live_event c]) = [].
Proof. destruct d; [done|]. cbn [of_kind List.filter]. by rewrite live_kind. Qed.
Lemma live_all c (d : bool) : of_kind "url" (if d then [] else [live_event c]) = live_event <$> (if d then [] else [c]).
Proof. destruct d; [done|]. cbn [of_kind List.filter]. by rewrite live_kind. Qed.
Definition ended_by (ts : Z) (now : Instant) (s : UrlSession) (l : list UrlPoll) : json :=
  let e := List.find (fun q => negb (on_site (us_url s) q)) l in
  url_session_event_value s (match e with Some q => up_ts q | None => ts end) (match e with Some q => up_now q | None => now end).
Lemma polls_sampled ts now l t before : Forall sampled l -> tracking t before ->
  let (t', events) := polls t l in
  of_kind "url_session" (events ++ (end_session t' ts now).2) =
    match session t with Some s => [ended_by ts now s l] | None => [] end ++ (visit_event ts now <$> visits before l) /\
  of_kind "url" (events ++ (end_session t' ts now).2) = live_event <$> tab_changes before l.
Proof.
  intros F. revert t before. induction F as [|p l P F IH]; intros t before T.
  - cbn [polls]. rewrite app_nil_l. destruct T as (_ & _ & T). unfold end_session. destruct (session t) as [s|]; cbn [snd of_kind List.filter]; [|by destruct before].
    rewrite visit_kind. destruct before; [|done]. done.
  - pose proof (poll_sampled t p before P T) as E. destruct (transition (session t) (up_active p) p) as [s ended] eqn:TR. destruct E as [E T'].
    cbn [polls]. rewrite E in *. cbn [fst] in T'. specialize (IH _ _ T'). destruct (polls _ l) as [t' rest]. destruct IH as [I1 I2].
    rewrite <-app_assoc, !(of_kind_app _ _ (rest ++ _)), I1, I2, !of_kind_app. cbn [session]. cbn [visits tab_changes].
    assert (match up_active p with Some i => if is_some_and before (fun b => String.eqb (tab_lines b) (tab_lines i)) then [] else [(p, i)] | None => [] end
            = match up_active p with Some i => if bool_decide (live_key <$> before = Some (live_key i)) then [] else [(p, i)] | None => [] end) as ->
      by (destruct (up_active p); [by rewrite tab_lines_key|done]).
    rewrite !fmap_app.
    destruct T as (_ & _ & T). destruct (session t) as [s0|] eqn:S, before as [b|], (up_active p) as [i|] eqn:AI; try done; cbn [transition] in TR.
    + destruct T as [TU _]. rewrite TU in TR. assert (O : on_site (us_url s0) p = String.eqb (au_url b) (au_url i)) by (unfold on_site; by rewrite AI, TU).
      cbn [is_some_and]. rewrite live_none, live_all, app_nil_r.
      destruct (String.eqb (au_url b) (au_url i)) eqn:U; injection TR as <- <-; (split; [|by cbn; rewrite ?visit_kind]); unfold ended_by; cbn [List.find]; rewrite O;
        cbn [negb]; [done|]. cbn [of_kind List.filter]. by rewrite visit_kind.
    + destruct T as [TU _]. injection TR as <- <-. assert (O : on_site (us_url s0) p = false) by (unfold on_site; by rewrite AI).
      split; [|by cbn; rewrite ?visit_kind]. unfold ended_by. cbn [List.find]. rewrite O. cbn [negb of_kind List.filter]. by rewrite visit_kind.
    + injection TR as <- <-. rewrite live_none, live_all. done.
    + injection TR as <- <-. done.
Qed.
End one_grant.

(** The reports a visit and a tab are to be sent as, field by field. *)
Definition user_field (u : option string) : json := match u with Some u => JStr u | None => JNull end.
Definition visit_report (g : Generation) (ts : Z) (now : Instant) (v : UrlPoll * ActiveUrl * option UrlPoll) : json :=
  let '(p, i, e) := v in
  let until := match e with Some q => up_now q | None => now end in
  mk_obj [("type", JStr "url_session"); ("url", JStr (au_url i)); ("title", if String.eqb (trim (au_title i)) "" then JNull else JStr (au_title i));
          ("browser", JStr (au_browser i)); ("user", user_field (up_user p)); ("started_at_ts", JInt (up_ts p));
          ("ended_at_ts", JInt (match e with Some q => up_ts q | None => ts end));
          ("duration_ms", JInt (Z.min (Z.max 0 (until - up_now p) / 1000000) (2 ^ 64 - 1))); ("__module_generation", generation_value g)]%string.
Definition tab_report (g : Generation) (c : UrlPoll * ActiveUrl) : json :=
  mk_obj [("type", JStr "url"); ("url", JStr (au_url c.2)); ("title", JStr (au_title c.2)); ("browser", JStr (au_browser c.2)); ("ts", JInt (up_ts c.1));
          ("user", user_field (up_user c.1)); ("__module_generation", generation_value g)]%string.
Lemma visit_event_report g ts now v : up_generation v.1.1 = Some g -> visit_event ts now v = visit_report g ts now v.
Proof.
  destruct v as [[p i] e]. cbn [fst]. intros G. unfold visit_event, visit_report, url_session_event_value, open_session, UrlSession_event, event, stamp.
  cbn [us_url us_title us_browser us_user us_started_at us_started_ts us_generation]. rewrite G. unfold text_opt, opt_value, user_field, as_millis, saturating_since, u64_max.
  by destruct (String.eqb (trim (au_title i)) ""), (up_user p).
Qed.
Lemma live_event_report g c : up_generation c.1 = Some g -> live_event c = tab_report g c.
Proof. intros G. unfold live_event, tab_report, Url_event, event, stamp. rewrite G. unfold text_opt, opt_value, user_field. by destruct (up_user c.1). Qed.
Lemma visits_from before l v : v ∈ visits before l -> v.1.1 ∈ l.
Proof.
  revert before. induction l as [|p l IH]; intros before; [by intros ?%not_elem_of_nil|]. cbn [visits]. intros [I|I]%elem_of_app; [|right; by eapply IH].
  destruct (up_active p) as [i|]; [|by apply not_elem_of_nil in I]. destruct (is_some_and before _); [by apply not_elem_of_nil in I|]. apply list_elem_of_singleton in I as ->. left.
Qed.
Lemma tab_changes_from before l c : c ∈ tab_changes before l -> c.1 ∈ l.
Proof.
  revert before. induction l as [|p l IH]; intros before; [by intros ?%not_elem_of_nil|]. cbn [tab_changes]. intros [I|I]%elem_of_app; [|right; by eapply IH].
  destruct (up_active p) as [i|]; [|by apply not_elem_of_nil in I]. destruct (is_some_and before _); [by apply not_elem_of_nil in I|]. apply list_elem_of_singleton in I as ->. left.
Qed.

(** C19: time on site is accounted exactly: over any samples taken under one grant, the sessions reported
    are the visits of the reference, in order, each from the sample that opened it to the first later
    sample on another site (or to the end): the report carries the site, title, browser and user of the
    sample that opened it, the wall-clock times of both, the milliseconds between their instants, and the
    grant; and a live address is reported, with its title, browser, user and time, for exactly the
    samples whose tab differs (in address, title or browser) from the one before. *)
Theorem url_sessions_are_visits g l ts now : gen_module g = BrowserUrls -> Forall (sampled g) l ->
  of_kind "url_session" (site_events l ts now) = visit_report g ts now <$> visits None l /\
  of_kind "url" (site_events l ts now) = tab_report g <$> tab_changes None l.
Proof.
  intros G F. unfold site_events. pose proof (polls_sampled g G ts now l UrlTracker_default None F) as P. destruct (polls UrlTracker_default l) as [t events].
  destruct P as [P1 P2]; [by repeat split|]. rewrite P1, P2. rewrite Forall_forall in F.
  split; apply list_fmap_ext; intros k x Hx%list_elem_of_lookup_2.
  - apply visit_event_report, F. by eapply visits_from.
  - apply live_event_report, F. by eapply tab_changes_from.
Qed.

(** ** A whole session *)

Section runs.
Context `{JsonText} `{UuidText} (os : nat -> bool) (lower : string -> string) (icon : string -> option string).

(** While the user is away nothing is timed and Recall does not capture. *)
Definition away_ok (s : Session) : Prop :=
  is_afk (watch s) = blocked_by_afk (url_tracker (watch s)) /\
  (is_afk (watch s) = true -> session (url_tracker (watch s)) = None /\ recall_active (recall s) = false).
(** A step that leaves these alone. *)
Definition same_away (s s' : Session) : Prop :=
  is_afk (watch s') = is_afk (watch s) /\ blocked_by_afk (url_tracker (watch s')) = blocked_by_afk (url_tracker (watch s)) /\
  (session (url_tracker (watch s)) = None -> session (url_tracker (watch s')) = None) /\ recall_active (recall s') = recall_active (recall s).
Lemma away_same s s' : same_away s s' -> away_ok s -> away_ok s'.
Proof. intros (A & B & S & R) [E N]. unfold away_ok. rewrite A, B, R. split; [done|]. intros T. destruct (N T). auto. Qed.
Lemma same_away_trans a b c : same_away a b -> same_away b c -> same_away a c.
Proof. intros (A & B & S & R) (A' & B' & S' & R'). repeat split; try congruence. auto. Qed.
Lemma same_away_refl s : same_away s s.
Proof. by split. Qed.
Lemma live_same s s' : watch s' = watch s -> recall_active (recall s') = recall_active (recall s) -> same_away s s'.
Proof. unfold same_away. by intros -> ->. Qed.
Lemma input_same e s text : same_away s (input_handle os e s text).
Proof. unfold input_handle. destruct (controller _); [|apply same_away_refl]. destruct (store_enabled _ _); [by apply live_same|apply same_away_refl]. Qed.
Lemma command_same e s text c g : same_away s (run_command os e s text c g).
Proof.
  pose proof (input_same e s text) as I. pose proof (same_away_refl s) as R.
  destruct c; cbn [run_command elsewhere]; try exact R; try (destruct (te_suppressed e); [exact R|]); try exact I; try (by apply live_same);
    destruct g; [by apply live_same|exact R|by apply live_same|exact R].
Qed.
Lemma text_same e s text : same_away s (on_server_text os e s text).
Proof.
  unfold on_server_text. destruct (handle_history_ack _ _ _) as [[dir f] acked]. destruct (_ && _); [by apply live_same|].
  unfold handle_server_command. destruct (json_parse text) as [v|]; [|apply same_away_refl].
  destruct (dispatch_command _ v); try apply same_away_refl. apply command_same.
Qed.
Lemma poll_blocked t p : blocked_by_afk (poll t p).1 = blocked_by_afk t.
Proof.
  unfold poll. set (t1 := if is_some_and _ _ then _ else t). assert (B : blocked_by_afk t1 = blocked_by_afk t) by (subst t1; by destruct (is_some_and _ _)).
  destruct (transition _ _ _) as [s ended]. destruct (if is_some_and _ _ then _ else None); [destruct (bool_decide _)|]; exact B.
Qed.
Lemma poll_away t p : blocked_by_afk t = true -> session t = None -> blocked_by_afk (poll t p).1 = true /\ session (poll t p).1 = None.
Proof.
  intros B S. split; [by rewrite poll_blocked|]. unfold poll. rewrite S. cbn [is_some_and]. rewrite B, S. cbn [orb transition]. by destruct (is_some_and _ _).
Qed.
Lemma revoked_same cleanup cached s : same_away s (stop_revoked os cleanup cached s).
Proof.
  unfold stop_revoked. destruct (store_enabled cached BrowserUrls), (store_enabled cached LiveScreen), (store_enabled cached LiveAudio); done.
Qed.
Lemma flush_same console file cached s : same_away s (flush console file cached s).1.
Proof. unfold flush. by destruct (flush_events _ _ _ _ _). Qed.
Lemma renew_idle_away next s : away_ok s -> away_ok (renew_idle next s).
Proof. intros A. unfold renew_idle. by case_bool_decide. Qed.
Lemma branch_away s b : away_ok s -> away_ok (branch os lower icon s b).1.
Proof.
  intros A. destruct b; cbn [branch fst]; try done.
  - exact (away_same _ _ (text_same e s text) A).
  - unfold on_flush_tick. destruct (flush _ _ _ _) as [s' ok] eqn:F. cbn [fst].
    refine (away_same _ _ _ (renew_idle_away _ s A)). pose proof (flush_same (fe_console e) (fe_file e) (fe_store e)) as FS.
    eapply same_away_trans; [|replace s' with (flush (fe_console e) (fe_file e) (fe_store e)
      (stop_revoked os (fe_cleanup e) (fe_cached e) (renew_report (wire (fe_clipboard e) (load_or_default (fe_load e)))
        (renew_idle (rok (load (fe_capture e)) ≫= fun st => generation_from_state st IdleActivity) s)))).1 by (by rewrite F); apply FS].
    eapply same_away_trans; [|apply revoked_same]. unfold renew_report. by case_bool_decide.
  - by destruct k.
  - unfold on_frame. destruct (last _); [|done]. destruct (message_allowed _ _ _); [|done]. by destruct (send _ _).
  - unfold pump_history. destruct (spool _); [|done]. by destruct (pump_history_spool _ _ _).
  - unfold pump_history. destruct (spool _); [|done]. by destruct (pump_history_spool _ _ _).
  - unfold on_url_poll. destruct A as [E N]. set (q := {| up_generation := _ |}). pose proof (poll_blocked (url_tracker (watch s)) q) as B.
    destruct (poll (url_tracker (watch s)) q) as [t events] eqn:P. cbn in B |- *. unfold away_ok. cbn. rewrite B. split; [done|]. intros T. destruct (N T) as [S R].
    rewrite E in T. destruct (poll_away (url_tracker (watch s)) q T S) as [_ S']. rewrite P in S'. done.
  - unfold on_input_event. destruct e as [e|]; [|done]. destruct (_ || _); [done|]. destruct e; cbn [fst].
    + done.
    + unfold enter_afk. destruct (end_session _ _ _) as [t events] eqn:S. unfold end_session in S. cbn in S.
      unfold away_ok. cbn. destruct (session (url_tracker (watch s))) eqn:O; injection S as <- <-; cbn; by rewrite ?O.
    + done.
  - unfold on_window_poll. destruct (negb _); [done|]. destruct (window_poll _ _ _) as [t [ev|]]; [|done]. by destruct (push_window_focus _ _ _ _ _ _ _).
  - unfold on_metrics_tick. destruct (negb _); [done|]. destruct (negb _); [done|]. by destruct sample.
Qed.
Lemma loop_away bs s : away_ok s -> away_ok (session_loop os lower icon s bs).1.
Proof.
  revert s. induction bs as [|b bs IH]; intros s A; [done|]. cbn [session_loop]. pose proof (branch_away s b A) as B.
  destruct (branch os lower icon s b) as [s' []]; [by apply IH|done|done].
Qed.

(** What the controller keeps through every branch. *)
Definition controller_ok (s : Session) : Prop := match controller (live s) with Some c => injector_ok c | None => True end.
Lemma controller_live s s' : live s' = live s -> controller_ok s -> controller_ok s'.
Proof. unfold controller_ok. by intros ->. Qed.
Lemma input_handle_ok e s text : controller_ok s -> controller_ok (input_handle os e s text).
Proof.
  unfold input_handle. destruct (controller (live s)) as [c|] eqn:C; [|done]. unfold controller_ok at 1. rewrite C. intros I.
  destruct (store_enabled _ _); [|unfold controller_ok; by rewrite C]. exact (handle_command_ok _ _ _ _ _ I).
Qed.
Lemma command_ok e s text c g : controller_ok s -> controller_ok (run_command os e s text c g).
Proof.
  intros I. pose proof (input_handle_ok e s text I) as N.
  destruct c; cbn [run_command elsewhere]; try exact I; try (destruct (te_suppressed e); [exact I|]); try exact N; try exact I; destruct g; exact I.
Qed.
Lemma text_ok e s text : controller_ok s -> controller_ok (on_server_text os e s text).
Proof.
  intros I. unfold on_server_text. destruct (handle_history_ack _ _ _) as [[dir f] acked]. destruct (_ && _); [exact I|].
  unfold handle_server_command. destruct (json_parse text) as [v|]; [|exact I]. destruct (dispatch_command _ v); try exact I. by apply command_ok.
Qed.
Lemma flush_live console file cached s : live (flush console file cached s).1 = live s.
Proof. unfold flush. by destruct (flush_events _ _ _ _ _). Qed.
Lemma tick_live e s : exists s', live s' = live s /\ live (on_flush_tick os e s).1 = live (stop_revoked os (fe_cleanup e) (fe_cached e) s').
Proof.
  unfold on_flush_tick. set (s1 := renew_report _ _). exists s1. split.
  - subst s1. unfold renew_report, renew_idle. by repeat case_bool_decide.
  - destruct (flush _ _ _ _) as [s2 ok] eqn:F. cbn [fst]. pose proof (flush_live (fe_console e) (fe_file e) (fe_store e) (stop_revoked os (fe_cleanup e) (fe_cached e) s1)) as L.
    rewrite F in L. exact L.
Qed.
Lemma stop_revoked_live cleanup cached s :
  live (stop_revoked os cleanup cached s) =
  {| controller := cleanup_revoked os cleanup <$> controller (live s); capture_running := store_enabled cached LiveScreen && capture_running (live s);
     audio_running := store_enabled cached LiveAudio && audio_running (live s) |}.
Proof. unfold stop_revoked. by destruct (store_enabled cached BrowserUrls), (store_enabled cached LiveScreen), (store_enabled cached LiveAudio). Qed.
Lemma tick_ok e s : controller_ok s -> controller_ok (on_flush_tick os e s).1.
Proof.
  intros I. destruct (tick_live e s) as (s' & L & E). unfold controller_ok in *. rewrite E, stop_revoked_live, L. cbn [controller].
  destruct (controller (live s)); [|done]. by apply cleanup_revoked_ok.
Qed.
Lemma branch_ok s b : controller_ok s -> controller_ok (branch os lower icon s b).1.
Proof.
  intros I. destruct b; cbn [branch fst]; try exact I.
  - by apply text_ok.
  - by apply tick_ok.
  - by destruct k.
  - unfold on_frame. destruct (last _); [|exact I]. destruct (message_allowed _ _ _); [|exact I]. by destruct (send _ _).
  - unfold pump_history. destruct (spool _); [|exact I]. by destruct (pump_history_spool _ _ _).
  - unfold pump_history. destruct (spool _); [|exact I]. by destruct (pump_history_spool _ _ _).
  - unfold on_url_poll. by destruct (poll _ _).
  - unfold on_input_event. destruct e as [e|]; [|exact I]. destruct (_ || _); [exact I|]. destruct e; cbn [fst]; try exact I.
    unfold enter_afk. by destruct (end_session _ _ _).
  - unfold on_window_poll. destruct (negb _); [exact I|]. destruct (window_poll _ _ _) as [t [ev|]]; [|exact I]. by destruct (push_window_focus _ _ _ _ _ _ _).
  - unfold on_metrics_tick. destruct (negb _); [exact I|]. destruct (negb _); [exact I|]. by destruct sample.
Qed.
Lemma loop_ok bs s : controller_ok s -> controller_ok (session_loop os lower icon s bs).1.
Proof.
  revert s. induction bs as [|b bs IH]; intros s A; [done|]. cbn [session_loop]. pose proof (branch_ok s b A) as B.
  destruct (branch os lower icon s b) as [s' []]; [by apply IH|done|done].
Qed.
End runs.

(** Whether the user is away, told from what happened alone: going idle under an idle grant that stood
    makes it so, coming back under one ends it, and so does a flush tick that finds another idle grant
    than the one before. *)
Definition idle_grant (file : StoreFile) : option Generation := rok (load file) ≫= fun st => generation_from_state st IdleActivity.
Definition stands (g : Generation) (cached cached' : Store) : bool := matches g cached && store_enabled cached' IdleActivity.
Definition away_step (x : bool * option Generation) (b : Branch) : bool * option Generation :=
  match b with
  | BInput cached cached' _ (Some (WentAfk _ g)) => (stands g cached cached' || x.1, x.2)
  | BInput cached cached' _ (Some (BecameActive g)) => (negb (stands g cached cached') && x.1, x.2)
  | BFlush e => (x.1 && bool_decide (idle_grant (fe_capture e) = x.2), idle_grant (fe_capture e))
  | _ => x
  end.
Definition away_flags (s : Session) : bool * option Generation := (is_afk (watch s), idle_generation (watch s)).
Section away.
Context `{JsonText} `{UuidText} (os : nat -> bool) (lower : string -> string) (icon : string -> option string).
Lemma input_watch e s text : watch (input_handle os e s text) = watch s.
Proof. unfold input_handle. destruct (controller _); [|done]. by destruct (store_enabled _ _). Qed.
Lemma command_watch e s text c g : watch (run_command os e s text c g) = watch s.
Proof.
  pose proof (input_watch e s text) as I. destruct c; cbn [run_command elsewhere]; try done; try (destruct (te_suppressed e); [done|]); try exact I; try done; by destruct g.
Qed.
Lemma tick_away e s : away_flags (on_flush_tick os e s).1 = away_step (away_flags s) (BFlush e).
Proof.
  unfold on_flush_tick. fold (idle_grant (fe_capture e)). set (s1 := renew_idle _ s).
  assert (away_flags s1 = away_step (away_flags s) (BFlush e)) as <-.
  { unfold s1, renew_idle, away_flags, away_step. cbn [fst snd]. destruct (bool_decide_reflect (idle_grant (fe_capture e) = idle_generation (watch s))) as [->|N].
    - by rewrite andb_true_r.
    - by rewrite andb_false_r. }
  set (s2 := renew_report _ s1). assert (away_flags s2 = away_flags s1) as <- by (unfold s2, renew_report; by case_bool_decide).
  assert (away_flags (stop_revoked os (fe_cleanup e) (fe_cached e) s2) = away_flags s2) as <-
    by (unfold stop_revoked; by destruct (store_enabled (fe_cached e) BrowserUrls), (store_enabled (fe_cached e) LiveScreen), (store_enabled (fe_cached e) LiveAudio)).
  unfold flush. by destruct (flush_events _ _ _ _ _).
Qed.
Lemma branch_flags s b : away_flags (branch os lower icon s b).1 = away_step (away_flags s) b.
Proof.
  destruct b; cbn [branch fst]; try done.
  - unfold on_server_text. destruct (handle_history_ack _ _ _) as [[dir f] acked]. destruct (_ && _); [done|].
    unfold handle_server_command. destruct (json_parse text) as [v|]; [|done]. destruct (dispatch_command _ v); try done. unfold away_flags. by rewrite command_watch.
  - apply tick_away.
  - by destruct k.
  - unfold on_frame. destruct (last _); [|done]. destruct (message_allowed _ _ _); [|done]. by destruct (send _ _).
  - unfold pump_history. destruct (spool _); [|done]. by destruct (pump_history_spool _ _ _).
  - unfold pump_history. destruct (spool _); [|done]. by destruct (pump_history_spool _ _ _).
  - unfold on_url_poll. by destruct (poll _ _).
  - destruct e as [[text app display window ts g w|idle g|g]|]; cbn [on_input_event event_generation input_module away_step]; [| | |done].
    + by destruct (_ || _).
    + unfold stands. destruct (matches g cached), (store_enabled cached' IdleActivity); cbn [negb orb andb fst]; try done.
      unfold enter_afk. by destruct (end_session _ _ _).
    + unfold stands. destruct (matches g cached), (store_enabled cached' IdleActivity); cbn [negb orb andb fst]; done.
  - unfold on_window_poll. destruct (negb _); [done|]. destruct (window_poll _ _ _) as [t [ev|]]; [|done]. by destruct (push_window_focus _ _ _ _ _ _ _).
  - unfold on_metrics_tick. destruct (negb _); [done|]. destruct (negb _); [done|]. by destruct sample.
Qed.
Lemma loop_flags bs s s' : session_loop os lower icon s bs = (s', Continue) -> away_flags s' = foldl away_step (away_flags s) bs.
Proof.
  revert s. induction bs as [|b bs IH]; intros s; cbn [session_loop foldl]; [by intros [= <-]|]. pose proof (branch_flags s b) as B.
  destruct (branch os lower icon s b) as [s1 []]; [|done|done]. cbn [fst] in B. rewrite <- B. apply IH.
Qed.
End away.

(** C20: a user who is away is not observed: through any session, whatever its branches bring and in
    whatever order, while the last accepted idle event says the user is away (one whose idle grant stood,
    with no accepted return and no change of the idle grant since), the session holds the user as
    away, no time on a site is being counted, no count starts, and Recall does not capture; and the
    session never holds a user as away who is not. *)
Theorem away_user_not_observed `{JsonText} `{UuidText} os lower icon a report o bs s :
  session_loop os lower icon (Session_new a report o) bs = (s, Continue) ->
  let away := (foldl away_step (false, idle_grant (st_file a)) bs).1 in
  is_afk (watch s) = away
  /\ (away = true -> session (url_tracker (watch s)) = None /\ recall_active (recall s) = false
       /\ forall p, session (url_tracker (watch (on_url_poll p s))) = None /\ pending_events (link (on_url_poll p s)) = pending_events (link s)).
Proof.
  intros L away. pose proof (loop_flags os lower icon bs _ _ L) as F. change (away_flags (Session_new a report o)) with (false, idle_grant (st_file a)) in F.
  assert (is_afk (watch s) = away) as A by (unfold away; by rewrite <- F). split; [exact A|]. intros W.
  pose proof (loop_away os lower icon bs (Session_new a report o)) as K. rewrite L in K. destruct K as [B N]; [by split|]. cbn [fst] in *. rewrite A in B, N.
  destruct (N W) as [S R]. split; [exact S|]. split; [exact R|]. intros p. rewrite W in B. unfold on_url_poll.
  destruct (poll_away (url_tracker (watch s)) p (eq_sym B) S) as [_ S']. destruct (poll (url_tracker (watch s)) p) as [t events] eqn:P. cbn [fst] in S'. split; [exact S'|].
  assert (events = []) as ->; [|apply app_nil_r]. unfold poll in P. rewrite S in P. cbn [is_some_and] in P. rewrite <- B, S in P. cbn [orb transition] in P.
  destruct (is_some_and (up_generation p) _); by injection P as _ <-.
Qed.

(** However a session ends (closed by the service, the keyboard monitor gone, the writer gone, or
    still looping), its end leaves nothing running: when the system accepts the releases no key or button
    stays down, the visit being timed is closed and offered to the writer with the events still queued,
    and the capture and audio threads are stopped. *)
Theorem session_end_is_clean `{JsonText} `{UuidText} os lower icon a bs e :
  (forall n, os n = true) -> match st_controller a with Some c => injector_ok c | None => True end ->
  let s := stop_session_workers (run_session os lower icon a bs e).1 in
  (forall c, controller (live s) = Some c ->
     (forall k, key_down (calls c) k = false) /\ (forall b, button_down (calls c) b = false) /\ lease (ctl c) = None) /\
  session (url_tracker (watch s)) = None /\ pending_events (link s) = [] /\ capture_running (live s) = false /\ audio_running (live s) = false.
Proof.
  intros O C. unfold run_session. destruct (send_session_hello _ _ _ _) as [o report].
  pose proof (loop_ok os lower icon bs (Session_new a report o) C) as I. destruct (session_loop _ _ _ _ bs) as [s f]. cbn [fst] in *. unfold shutdown.
  set (s1 := set_controller s _). assert (E : controller (live s1) = release_all os <$> controller (live s)) by done.
  destruct (end_session (url_tracker (watch s1)) _ _) as [t events] eqn:T. unfold flush. destruct (flush_events _ _ _ _ _) as [o' ok]. cbv zeta. cbn [fst].
  split; [|split; [|done]].
  - cbn. intros c. destruct (controller (live s)) as [c0|] eqn:C0; [|done]. cbn. intros [= <-]. unfold controller_ok in I. rewrite C0 in I.
    destruct (release_all_clears os c0 I (accepts_all os _ _ O)) as (K & B & _ & L & _). done.
  - cbn. unfold end_session in T. cbn in T. destruct (session (url_tracker (watch s))) eqn:S; injection T as <- <-; done.
Qed.

(** A flush tick stops work whose module is off: the capture and audio threads, the visit being timed;
    and input injected under a grant that no longer stands is released. *)
Theorem tick_stops_revoked_work `{JsonText} `{UuidText} os e s :
  (forall n, os n = true) -> controller_ok s ->
  let s' := (on_flush_tick os e s).1 in
  (store_enabled (fe_cached e) LiveScreen = false -> capture_running (live s') = false) /\
  (store_enabled (fe_cached e) LiveAudio = false -> audio_running (live s') = false) /\
  (forall c, controller (live s') = Some c -> no_held c = false -> exists g, generation (ctl c) = Some g /\ matches g (fe_cleanup e) = true).
Proof.
  intros O I. cbv zeta. destruct (tick_live os e s) as (s1 & L & E). rewrite E, stop_revoked_live, L. cbn [capture_running audio_running controller].
  split; [by intros ->|]. split; [by intros ->|]. intros c C N. unfold controller_ok in I. destruct (controller (live s)) as [c0|]; [|done]. cbn in C.
  injection C as <-. unfold cleanup_revoked in *. destruct (generation (ctl c0)) as [g|] eqn:G.
  - destruct (matches g (fe_cleanup e)) eqn:M; cbn [negb] in *; [by exists g|]. destruct (release_all_clears os c0 I (accepts_all os _ _ O)) as (_ & _ & _ & _ & NH). congruence.
  - destruct (no_held c0) eqn:Z; cbn [negb] in *; [congruence|]. destruct (release_all_clears os c0 I (accepts_all os _ _ O)) as (_ & _ & _ & _ & NH). congruence.
Qed.

(** ** Retrying *)

(** The retry delay: at least 1.5 s (twice the base, even at the first attempt), never 30.5 s, and, jitter
    apart, doubling until it is capped. *)
Lemma backoff_bounds attempt subsec : 1 <= attempt -> 0 <= subsec -> 1500 <= reconnect_backoff_ms attempt subsec < 30500.
Proof.
  intros A S. unfold reconnect_backoff_ms. pose proof (Z.mod_pos_bound subsec 500 ltac:(lia)) as J.
  assert (1 <= Z.min attempt 6 <= 6) as P by lia. rewrite Z.shiftl_mul_pow2, Z.mul_1_l by lia.
  assert (2 <= 2 ^ Z.min attempt 6 <= 64) as W by (split; [apply (Z.pow_le_mono_r 2 1)|apply (Z.pow_le_mono_r 2 _ 6)]; lia).
  unfold RECONNECT_BACKOFF_BASE_MS, RECONNECT_BACKOFF_MAX_MS, u64_max in *. lia.
Qed.
Lemma first_retry_is_twice_the_base : wait_ms 0 0 = 2 * RECONNECT_BACKOFF_BASE_MS /\ wait_ms 1 0 = 2 * RECONNECT_BACKOFF_BASE_MS.
Proof. split; reflexivity. Qed.

(** ** Examples *)

Module Sample.
Definition grant : Generation := {| gen_module := BrowserUrls; gen_revision := 1 |}.
Definition store : Store := {| st_revision := 1; grants := {[BrowserUrls := {| g_enabled := true; g_revision := 1 |}]}; receipts := ∅ |}.
Definition tab (url title : string) : option ActiveUrl := Some {| au_url := url; au_title := title; au_browser := "b" |}.
Definition at_ (ts : Z) (active : option ActiveUrl) : UrlPoll :=
  {| up_generation := Some grant; up_before := store; up_after := store; up_ts := ts; up_now := secs ts; up_active := active; up_user := None |}.
(** Two tabs of one site, another site, nothing, the first again. *)
Definition day : list UrlPoll := [at_ 10 (tab "x" "1"); at_ 12 (tab "x" "2"); at_ 14 (tab "y" "1"); at_ 16 None; at_ 18 (tab "x" "1")].
Definition queued : list json := [stamp (Url_event "x" "1" "b" 10 None) (Some grant); stamp (Afk_event 60 12 None) None; stamp (Url_event "y" "1" "b" 14 None) (Some grant)].
Definition writer (n : nat) : Outbound := {| sent := []; room := n |}.
Definition start : SessionStart :=
  {| st_file := FileHolds store; st_clipboard := false; st_info := None;
     st_controller := Some {| ctl := InputController_new; workers := ∅; calls := [] |}; st_user := None; st_room := 4; st_now := 0;
     st_recall_active := true; st_last_input := 0; st_spool := None; st_capture := true; st_audio := false |}.
Definition finish : EndEnv :=
  {| ee_clock := {| ck_now := secs 30; ck_ts := 30; ck_ms := 30000 |}; ee_console := None; ee_file := fun _ => FileHolds store; ee_store := fun _ => store |}.
Definition ended : Session :=
  stop_session_workers (@run_session bin_json bin_uuid (fun _ => true) to_ascii_lowercase (fun _ => None) start [BUrl (at_ 10 (tab "x" "1")); BClosed] finish).1.
End Sample.

Lemma flush_delivers_witness :
  exists msgs, sent (@flush_events bin_json None (fun _ => FileHolds Sample.store) (fun _ => Sample.store) (Sample.writer 1) Sample.queued).1 = msgs /\
    concat (@carried bin_json <$> msgs) = [stamp (Url_event "x" "1" "b" 10 None) (Some Sample.grant); stamp (Url_event "y" "1" "b" 14 None) (Some Sample.grant)].
Proof.
  destruct (@flush_delivers bin_json None (fun _ => FileHolds Sample.store) (fun _ => Sample.store) (Sample.writer 1) Sample.queued
              (@flush_events bin_json None (fun _ => FileHolds Sample.store) (fun _ => Sample.store) (Sample.writer 1) Sample.queued).1 true)
    as (msgs & lost & S & R & L & _).
  - repeat constructor; vm_compute; congruence.
  - vm_compute. reflexivity.
  - exists msgs. split; [exact S|]. rewrite (L eq_refl), app_nil_r in R. rewrite <-R. vm_compute. reflexivity.
Defined.
Lemma url_sessions_are_visits_witness :
  length (visits None Sample.day) = 3%nat /\ length (tab_changes None Sample.day) = 4%nat /\
  of_kind "url_session" (site_events Sample.day 20 (secs 20)) =
    [stamp (UrlSession_event "x" (Some "1"%string) (Some "b"%string) None 10 14 4000) (Some Sample.grant);
     stamp (UrlSession_event "y" (Some "1"%string) (Some "b"%string) None 14 16 2000) (Some Sample.grant);
     stamp (UrlSession_event "x" (Some "1"%string) (Some "b"%string) None 18 20 2000) (Some Sample.grant)].
Proof.
  split; [reflexivity|]. split; [reflexivity|]. rewrite (proj1 (url_sessions_are_visits Sample.grant Sample.day 20 (secs 20) eq_refl ltac:(repeat constructor))).
  vm_compute. reflexivity.
Defined.
Lemma session_end_is_clean_witness :
  length (sent (out (link Sample.ended))) = 2%nat /\ session (url_tracker (watch Sample.ended)) = None /\ capture_running (live Sample.ended) = false.
Proof.
  pose proof (@session_end_is_clean bin_json bin_uuid (fun _ => true) to_ascii_lowercase (fun _ => None) Sample.start
                [BUrl (Sample.at_ 10 (Sample.tab "x" "1")); BClosed] Sample.finish ltac:(done) (injector_ok_new ∅)) as (_ & S & _ & C & _).
  split; [vm_compute; reflexivity|]. split; [exact S|exact C].
Defined.
Definition ex_idle_store : Store := {| st_revision := 1; grants := {[IdleActivity := {| g_enabled := true; g_revision := 1 |}]}; receipts := ∅ |}.
Definition ex_idle : Generation := {| gen_module := IdleActivity; gen_revision := 1 |}.
Definition ex_idle_start : SessionStart :=
  {| st_file := FileHolds ex_idle_store; st_clipboard := false; st_info := None; st_controller := None; st_user := None; st_room := 4; st_now := 0;
     st_recall_active := true; st_last_input := 0; st_spool := None; st_capture := false; st_audio := false |}.
Lemma away_user_not_observed_witness :
  let s := (@session_loop bin_json bin_uuid (fun _ => true) to_ascii_lowercase (fun _ => None) (Session_new ex_idle_start JNull (Sample.writer 4))
              [BUrl (Sample.at_ 10 (Sample.tab "x" "1")); BInput ex_idle_store ex_idle_store {| ck_now := secs 12; ck_ts := 12; ck_ms := 12000 |} (Some (WentAfk 60 ex_idle))]).1 in
  is_afk (watch s) = true /\ session (url_tracker (watch s)) = None /\ recall_active (recall s) = false.
Proof.
  intros s. set (bs := [_; _]) in s.
  assert (@session_loop bin_json bin_uuid (fun _ => true) to_ascii_lowercase (fun _ => None) (Session_new ex_idle_start JNull (Sample.writer 4)) bs = (s, Continue)) as L
    by (vm_compute; reflexivity).
  destruct (@away_user_not_observed bin_json bin_uuid (fun _ => true) to_ascii_lowercase (fun _ => None) ex_idle_start JNull (Sample.writer 4) bs s L) as [A W].
  assert ((foldl away_step (false, idle_grant (st_file ex_idle_start)) bs).1 = true) as T by (vm_compute; reflexivity).
  destruct (W T) as (S & R & _). rewrite A, T. split; [reflexivity|]. split; [exact S|exact R].
Defined.
