(* ===== verification/Alerts.v ===== *)
(** Alert rules ([server/src/policy/alert_rules/]): the rules and their scopes ([db/rules.rs]), what the
    admin endpoints accept ([api.rs]), and the engine that matches telemetry, spaces alerts by their
    cooldown, stores and announces them and asks for a screenshot ([engine.rs], [db/events.rs]). The
    regular-expression engine, case folding and number printing are parameters. *)
From stdpp Require Import sorting.
From S2P Require Import Prelude Text Throttle Json Protocol Sessions Modules Registry State.
From Stdlib Require Import SpecFloat.

(** ** Tables: [db/rules.rs], [db/events.rs] *)

Record Scope := { sc_kind : string; sc_group : option Uuid; sc_agent : option Uuid }.
Record AlertRule := {
  r_id : Z; r_name : string; r_channel : string; r_pattern : string; r_match_mode : string; r_case_insensitive : bool; r_cooldown_secs : Z;
  r_enabled : bool; r_take_screenshot : bool; r_metric : option string; r_comparator : option string; r_threshold : option spec_float;
  r_duration_secs : option Z; r_scopes : list Scope
}.
Record AlertEvent := { e_id : Z; e_agent : Uuid; e_rule : Z; e_rule_name : string; e_channel : string; e_snippet : string }.
Record AgentSeen := { as_id : Uuid; as_name : string; as_last_seen : Z }.
(** Rules and events in the order of their ids, which only grow; group memberships; and what the server
    keeps in memory and sends: the cooldowns, the viewers' messages, the notifications. *)
Record Alerts := {
  rules : list AlertRule; next_rule : Z; groups : gset Uuid; members : gset (Uuid * Uuid); agent_rows : list AgentSeen;
  events : list AlertEvent; next_event : Z; screenshots : gmap Z (list Z);
  alert_match_cooldowns : gmap (Z * Uuid) Instant; announced : list json; notified : list json
}.
Definition Alerts_empty : Alerts :=
  {| rules := []; next_rule := 1; groups := ∅; members := ∅; agent_rows := []; events := []; next_event := 1; screenshots := ∅;
     alert_match_cooldowns := ∅; announced := []; notified := [] |}.
Definition with_rules (a : Alerts) (l : list AlertRule) (n : Z) : Alerts :=
  {| rules := l; next_rule := n; groups := groups a; members := members a; agent_rows := agent_rows a; events := events a; next_event := next_event a;
     screenshots := screenshots a; alert_match_cooldowns := alert_match_cooldowns a; announced := announced a; notified := notified a |}.
Definition with_cooldowns (a : Alerts) (m : gmap (Z * Uuid) Instant) : Alerts :=
  {| rules := rules a; next_rule := next_rule a; groups := groups a; members := members a; agent_rows := agent_rows a; events := events a;
     next_event := next_event a; screenshots := screenshots a; alert_match_cooldowns := m; announced := announced a; notified := notified a |}.
Definition with_screenshots (a : Alerts) (m : gmap Z (list Z)) : Alerts :=
  {| rules := rules a; next_rule := next_rule a; groups := groups a; members := members a; agent_rows := agent_rows a; events := events a;
     next_event := next_event a; screenshots := m; alert_match_cooldowns := alert_match_cooldowns a; announced := announced a; notified := notified a |}.

(** A scope that covers the agent, and how permissive its kind is. *)
Definition scope_matches (a : Alerts) (agent : Uuid) (s : Scope) : bool :=
  String.eqb (sc_kind s) "all"
  || String.eqb (sc_kind s) "agent" && bool_decide (sc_agent s = Some agent)
  || String.eqb (sc_kind s) "group" && is_some_and (sc_group s) (fun g => bool_decide ((g, agent) ∈ members a)).
Definition scope_rank (kind : string) : Z := if String.eqb kind "all" then 1 else if String.eqb kind "group" then 2 else 3.
(** The first of the scopes with the smallest rank. *)
Definition broadest (l : list Scope) : option string :=
  foldl (fun acc s => match acc with Some k => if scope_rank (sc_kind s) <? scope_rank k then Some (sc_kind s) else acc | None => Some (sc_kind s) end) None l.
(** The rules that apply to an agent on a channel, each with the kind of its broadest matching scope. *)
Definition alert_rules_effective_for_agent (a : Alerts) (agent : Uuid) (channel : string) : list (AlertRule * string) :=
  omap (fun r => if r_enabled r && String.eqb (r_channel r) channel then (fun k => (r, k)) <$> broadest (List.filter (scope_matches a agent) (r_scopes r)) else None)
       (rules a).
Definition has_enabled_alert_rules (a : Alerts) (channel : string) : bool := existsb (fun r => String.eqb (r_channel r) channel && r_enabled r) (rules a).

(** The table's own checks: the kinds a scope may have, the cooldown, and that a scope's group or agent exists. *)
Definition scope_stored (a : Alerts) (s : Scope) : bool :=
  match sc_group s, sc_agent s with
  | None, None => String.eqb (sc_kind s) "all"
  | Some g, None => String.eqb (sc_kind s) "group" && bool_decide (g ∈ groups a)
  | None, Some x => String.eqb (sc_kind s) "agent" && existsb (fun r => bool_decide (as_id r = x)) (agent_rows a)
  | Some _, Some _ => false
  end.
Definition channels : list string := ["url"; "keys"; "url_category"; "agent_offline"; "resource"]%string.
Definition row_stored (a : Alerts) (r : AlertRule) : bool :=
  existsb (String.eqb (r_channel r)) channels && existsb (String.eqb (r_match_mode r)) ["substring"; "regex"]%string && (0 <=? r_cooldown_secs r)
  && forallb (scope_stored a) (r_scopes r).
Definition with_id (id : Z) (r : AlertRule) : AlertRule :=
  {| r_id := id; r_name := r_name r; r_channel := r_channel r; r_pattern := r_pattern r; r_match_mode := r_match_mode r;
     r_case_insensitive := r_case_insensitive r; r_cooldown_secs := r_cooldown_secs r; r_enabled := r_enabled r; r_take_screenshot := r_take_screenshot r;
     r_metric := r_metric r; r_comparator := r_comparator r; r_threshold := r_threshold r; r_duration_secs := r_duration_secs r; r_scopes := r_scopes r |}.
(** The row and its scopes are written in one transaction. *)
Definition alert_rule_create_with_scopes (a : Alerts) (r : AlertRule) : option (Alerts * Z) :=
  let r := with_id (next_rule a) r in
  if row_stored a r then Some (with_rules a (rules a ++ [r]) (next_rule a + 1), next_rule a) else None.
Definition alert_rule_update_with_scopes (a : Alerts) (id : Z) (r : AlertRule) : option (Alerts * bool) :=
  let r := with_id id r in
  if existsb (fun x => r_id x =? id) (rules a)
  then if row_stored a r then Some (with_rules a ((fun x => if r_id x =? id then r else x) <$> rules a) (next_rule a), true) else None
  else Some (a, false).
Definition alert_rule_delete (a : Alerts) (id : Z) : Alerts * bool :=
  (with_rules a (List.filter (fun x => negb (r_id x =? id)) (rules a)) (next_rule a), existsb (fun x => r_id x =? id) (rules a)).

Inductive RuleError : Type := BadRule (msg : string) | RuleNotFound | RuleInternal.

Section engine.
(** [None]: the expression does not compile. *)
Variable regex_is_match : bool -> string -> string -> option bool.
Variable to_lowercase : string -> string.
Variable decimal : Z -> string.

(** ** The admin endpoints: [api.rs] *)

Record ScopeIn := { si_kind : string; si_group : option Uuid; si_agent : option Uuid }.
Definition scope_error : string := "each scope must be { kind: all } or { kind: group, group_id } or { kind: agent, agent_id }".
Definition normalize_scope (s : ScopeIn) : result Scope string :=
  if String.eqb (si_kind s) "all" && negb (isSome (si_group s)) && negb (isSome (si_agent s)) then Ok {| sc_kind := "all"; sc_group := None; sc_agent := None |}
  else if String.eqb (si_kind s) "group" && isSome (si_group s) && negb (isSome (si_agent s)) then Ok {| sc_kind := "group"; sc_group := si_group s; sc_agent := None |}
  else if String.eqb (si_kind s) "agent" && isSome (si_agent s) && negb (isSome (si_group s)) then Ok {| sc_kind := "agent"; sc_group := None; sc_agent := si_agent s |}
  else Err scope_error.
Fixpoint normalize_each (l : list ScopeIn) : result (list Scope) string :=
  match l with
  | [] => Ok []
  | s :: l => let* s := normalize_scope s in let* l := normalize_each l in Ok (s :: l)
  end.
Definition normalize_alert_scopes (l : list ScopeIn) : result (list Scope) string :=
  match l with [] => Err "at least one scope is required"%string | l => normalize_each l end.
Definition one_of (l : list string) (o : option string) : bool := is_some_and o (fun s => existsb (String.eqb s) l).
Definition float_100 : spec_float := binary_normalize 24 128 100 0 false.
Definition percent (t : spec_float) : bool := SFleb (S754_zero false) t && SFleb t float_100.
Definition validate_alert_rule_pattern (channel match_mode pattern : string) (case_insensitive : bool) (metric comparator : option string)
    (threshold : option spec_float) (duration_secs : option Z) : result unit string :=
  if existsb (String.eqb channel) ["url"; "keys"; "url_category"]%string then
    ensure existsb (String.eqb match_mode) ["substring"; "regex"]%string else "match_mode must be substring or regex"%string in
    ensure negb (String.eqb (trim pattern) "") else "pattern must be non-empty"%string in
    ensure negb (String.eqb match_mode "regex") || isSome (regex_is_match case_insensitive pattern "") else "invalid regex"%string in
    Ok tt
  else if String.eqb channel "resource" then
    ensure one_of ["cpu_pct"; "mem_pct"; "disk_pct"]%string metric else "metric must be cpu_pct, mem_pct, or disk_pct"%string in
    ensure one_of ["gt"; "lt"]%string comparator else "comparator must be gt or lt"%string in
    ensure is_some_and threshold percent else "threshold must be between 0 and 100"%string in Ok tt
  else if String.eqb channel "agent_offline" then
    ensure is_none_or duration_secs (fun d => 0 <=? d) else "duration_secs must be >= 0"%string in Ok tt
  else Err "channel must be url, keys, url_category, resource, or agent_offline"%string.
Record RuleBody := {
  b_name : string; b_channel : string; b_pattern : string; b_match_mode : string; b_case_insensitive : bool; b_cooldown_secs : Z; b_enabled : bool;
  b_take_screenshot : bool; b_metric : option string; b_comparator : option string; b_threshold : option spec_float; b_duration_secs : option Z;
  b_scopes : list ScopeIn
}.
(** The row a body asks for, once it passed the checks. *)
Definition rule_of_body (b : RuleBody) : result AlertRule string :=
  let* _ := validate_alert_rule_pattern (trim (b_channel b)) (trim (b_match_mode b)) (trim (b_pattern b)) (b_case_insensitive b) (b_metric b) (b_comparator b)
              (b_threshold b) (b_duration_secs b) in
  let* scopes := normalize_alert_scopes (b_scopes b) in
  Ok {| r_id := 0; r_name := trim (b_name b); r_channel := trim (b_channel b); r_pattern := trim (b_pattern b); r_match_mode := trim (b_match_mode b);
        r_case_insensitive := b_case_insensitive b; r_cooldown_secs := b_cooldown_secs b; r_enabled := b_enabled b; r_take_screenshot := b_take_screenshot b;
        r_metric := b_metric b; r_comparator := b_comparator b; r_threshold := b_threshold b; r_duration_secs := b_duration_secs b; r_scopes := scopes |}.
Definition alert_rules_create_h (a : Alerts) (b : RuleBody) : Alerts * result Z RuleError :=
  match rule_of_body b with
  | Err e => (a, Err (BadRule e))
  | Ok r => match alert_rule_create_with_scopes a r with Some (a, id) => (a, Ok id) | None => (a, Err RuleInternal) end
  end.
Definition alert_rules_update_h (a : Alerts) (id : Z) (b : RuleBody) : Alerts * result unit RuleError :=
  match rule_of_body b with
  | Err e => (a, Err (BadRule e))
  | Ok r => match alert_rule_update_with_scopes a id r with
            | Some (a, true) => (a, Ok tt)
            | Some (a, false) => (a, Err RuleNotFound)
            | None => (a, Err RuleInternal)
            end
  end.
Definition alert_rules_delete_h (a : Alerts) (id : Z) : Alerts * result unit RuleError :=
  match alert_rule_delete a id with (a, true) => (a, Ok tt) | (a, false) => (a, Err RuleNotFound) end.

(** ** The engine: [engine.rs] *)

Definition haystack_for_channel (channel : string) (payload : json) : string :=
  let text k := default ""%string (as_str (idx payload k)) in
  if String.eqb channel "url" then text "url"%string
  else if String.eqb channel "keys" then text "text"%string
  else if String.eqb channel "url_category" then text "category_key"%string
  else ""%string.
Definition truncate_snippet (s channel : string) : string :=
  let max_chars := if String.eqb channel "keys" then 48%nat else 120%nat in
  let t := chars_take max_chars s in if (max_chars <? chars_count s)%nat then (t ++ "…")%string else t.
Definition rule_matches (r : AlertRule) (haystack : string) : bool :=
  if String.eqb haystack "" then false
  else if String.eqb (r_match_mode r) "regex" then default false (regex_is_match (r_case_insensitive r) (r_pattern r) haystack)
  else if r_case_insensitive r then str_contains (to_lowercase haystack) (to_lowercase (r_pattern r))
  else str_contains haystack (r_pattern r).

(** One firing: the clocks, the dashboard's address, and whether the event could be stored. *)
Record FireEnv := { fe_now : Instant; fe_ts : Z; fe_at : string; fe_base : option string; fe_insert : bool }.
(** [None]: still cooling down. *)
Definition pass_cooldown (a : Alerts) (rule : Z) (agent : Uuid) (cooldown_secs : Z) (now : Instant) : option Alerts :=
  let cooldown := Z.max cooldown_secs 0 in
  if 0 <? cooldown then
    if is_some_and (alert_match_cooldowns a !! (rule, agent)) (fun last => as_secs (saturating_since now last) <? cooldown) then None
    else Some (with_cooldowns a (<[(rule, agent) := now]> (alert_match_cooldowns a)))
  else Some a.
Context `{UuidText}.
Definition alert_message (rule : AlertRule) (channel snippet name : string) (agent : Uuid) (ts : Z) : json :=
  mk_obj [("event", JStr "alert_rule_match"); ("rule_id", JInt (r_id rule)); ("rule_name", JStr (r_name rule)); ("channel", JStr channel);
          ("agent_id", uuid_json agent); ("agent_name", JStr name); ("snippet", JStr snippet); ("ts", JInt ts)]%string.
Definition alert_payload (event : Z) (rule : AlertRule) (channel snippet name : string) (agent : Uuid) (e : FireEnv) : json :=
  let agent_url := (fun base => base ++ "/agents/" ++ uuid_text agent)%string <$> fe_base e in
  mk_obj [("event_id", JInt event); ("rule_id", JInt (r_id rule)); ("rule_name", JStr (r_name rule)); ("channel", JStr channel);
          ("agent_id", uuid_json agent); ("agent_name", JStr name); ("snippet", JStr snippet); ("ts", JInt (fe_ts e));
          ("dashboard_url", match agent_url with Some u => JStr u | None => JNull end);
          ("dashboard_activity_url", match agent_url with Some u => JStr (u ++ "?tab=activity&at=" ++ fe_at e)%string | None => JNull end)]%string.
(** The new state and, when the rule asks for one, the event a screenshot is to be taken for. *)
Definition fire_alert (a : Alerts) (agent : Uuid) (name : string) (rule : AlertRule) (channel snippet : string) (take_screenshot : bool) (e : FireEnv)
    : Alerts * option Z :=
  match pass_cooldown a (r_id rule) agent (r_cooldown_secs rule) (fe_now e) with
  | None => (a, None)
  | Some a =>
      if negb (fe_insert e) then (a, None)
      else
        let id := next_event a in
        ({| rules := rules a; next_rule := next_rule a; groups := groups a; members := members a; agent_rows := agent_rows a;
            events := events a ++ [{| e_id := id; e_agent := agent; e_rule := r_id rule; e_rule_name := r_name rule; e_channel := channel; e_snippet := snippet |}];
            next_event := id + 1; screenshots := screenshots a; alert_match_cooldowns := alert_match_cooldowns a;
            announced := announced a ++ [alert_message rule channel snippet name agent (fe_ts e)];
            notified := notified a ++ [alert_payload id rule channel snippet name agent e] |},
         if take_screenshot then Some id else None)
  end.
(** Fire each of some rules in turn; the screenshots asked for, in order. *)
Fixpoint fire_each (a : Alerts) (agent : Uuid) (name channel : string) (l : list (AlertRule * string * bool)) (env : nat -> FireEnv) (i : nat) : Alerts * list Z :=
  match l with
  | [] => (a, [])
  | (rule, snippet, shot) :: l =>
      let (a, asked) := fire_alert a agent name rule channel snippet shot (env i) in
      let (a, rest) := fire_each a agent name channel l env (S i) in
      (a, match asked with Some id => id :: rest | None => rest end)
  end.
(** [loaded]: whether the rules could be read. *)
Definition on_url_or_keys_event (a : Alerts) (agent : Uuid) (name channel : string) (payload : json) (loaded : bool) (env : nat -> FireEnv) : Alerts * list Z :=
  if negb (existsb (String.eqb channel) ["url"; "keys"; "url_category"]%string) then (a, [])
  else
    let haystack := haystack_for_channel channel payload in
    if String.eqb haystack "" then (a, [])
    else if negb loaded then (a, [])
    else
      let hits := List.filter (fun r => rule_matches r haystack) (fst <$> alert_rules_effective_for_agent a agent channel) in
      fire_each a agent name channel ((fun r => (r, truncate_snippet haystack channel, r_take_screenshot r)) <$> hits) env 0.
Definition on_url_category_event (a : Alerts) (agent : Uuid) (name : string) (payload : json) (loaded : bool) (env : nat -> FireEnv) : Alerts * list Z :=
  on_url_or_keys_event a agent name "url_category" payload loaded env.

(** *** Thresholds: [f32] and [f64] as the standard's binary floats *)

Definition as_f64 (v : json) : option spec_float :=
  match v with JInt z => Some (binary_normalize 53 1024 z 0 false) | JFloat f => Some f | _ => None end.
Definition as_f32 (f : spec_float) : spec_float := match f with S754_finite s m e => binary_round 24 128 s m e | _ => f end.
(** Rounded to a whole number, halves to even. *)
Definition round_half_even (m e : Z) : Z :=
  if 0 <=? e then m * 2 ^ e
  else
    let d := 2 ^ (- e) in
    let q := m / d in
    let twice := 2 * (m mod d) in
    if twice <? d then q else if d <? twice then q + 1 else if Z.even q then q else q + 1.
Definition fmt0 (f : spec_float) : string :=
  let sign (s : bool) := if s then "-"%string else ""%string in
  match f with
  | S754_zero s => (sign s ++ "0")%string
  | S754_infinity s => (sign s ++ "inf")%string
  | S754_nan => "NaN"%string
  | S754_finite s m e => (sign s ++ decimal (round_half_even (Z.pos m) e))%string
  end.
Definition metric_label (metric : string) : string :=
  if String.eqb metric "cpu_pct" then "CPU"%string else if String.eqb metric "mem_pct" then "Memory"%string
  else if String.eqb metric "disk_pct" then "Disk"%string else metric.
Definition is_lt (r : AlertRule) : bool := bool_decide (r_comparator r = Some "lt"%string).
Definition breached (r : AlertRule) (value threshold : spec_float) : bool := if is_lt r then SFltb value threshold else SFltb threshold value.
(** What a resource rule reports of a metrics frame. *)
Definition resource_hit (metrics : json) (r : AlertRule) : option (AlertRule * string * bool) :=
  match r_metric r, r_threshold r with
  | Some metric, Some threshold =>
      v ← as_f64 (idx metrics metric);
      let value := as_f32 v in
      if breached r value threshold
      then Some (r, (metric_label metric ++ " " ++ fmt0 value ++ "% " ++ (if is_lt r then "<" else ">") ++ " " ++ fmt0 threshold ++ "%")%string, r_take_screenshot r)
      else None
  | _, _ => None
  end.
Definition on_metrics_event (a : Alerts) (agent : Uuid) (name : string) (metrics : json) (loaded : bool) (env : nat -> FireEnv) : Alerts * list Z :=
  if negb loaded then (a, [])
  else fire_each a agent name "resource" (omap (resource_hit metrics) (fst <$> alert_rules_effective_for_agent a agent "resource")) env 0.

(** *** Devices that went away *)

Definition offline_hit (offline_secs : Z) (r : AlertRule) : option (AlertRule * string * bool) :=
  if offline_secs <? Z.max (default 300 (r_duration_secs r)) 0 then None
  else Some (r, ("Offline for " ++ decimal (offline_secs / 60) ++ "m")%string, false).
(** [connected]: the devices with a connection; [loaded]: per device, whether its rules could be read. *)
Fixpoint sweep (a : Alerts) (connected : gset Uuid) (now : Z) (loaded : Uuid -> bool) (env : Uuid -> nat -> FireEnv) (l : list AgentSeen) : Alerts :=
  match l with
  | [] => a
  | x :: l =>
      let a :=
        if bool_decide (as_id x ∈ connected) then a
        else if negb (loaded (as_id x)) then a
        else
          let offline_secs := Z.max (now - as_last_seen x) 0 in
          (fire_each a (as_id x) (as_name x) "agent_offline"
             (omap (offline_hit offline_secs) (fst <$> alert_rules_effective_for_agent a (as_id x) "agent_offline")) (env (as_id x)) 0).1 in
      sweep a connected now loaded env l
  end.
Definition evaluate_offline_alerts (a : Alerts) (connected : gset Uuid) (now : Z) (any_loaded seen_loaded : bool) (loaded : Uuid -> bool) (env : Uuid -> nat -> FireEnv)
    : Alerts :=
  if negb any_loaded || negb (has_enabled_alert_rules a "agent_offline") || negb seen_loaded then a
  else sweep a connected now loaded env (agent_rows a).

(** *** Screenshots *)

(** The screenshot of an event: the capture is started, the frame cache is polled for a newer frame until
    three seconds have passed, and the capture is stopped. [polls]: what each poll sees of the server,
    before the deadline. *)
Definition newer_frame (agent : Uuid) (prev_seq : Z) (st : AppState) : option (list Z) :=
  match frames (media st) !! agent with
  | Some f => if (prev_seq <? seq f) && negb (Nat.eqb (length (jpeg f)) 0) then Some (jpeg f) else None
  | None => None
  end.
Definition capture_and_store_screenshot_for_event (a : Alerts) (st : AppState) (agent : Uuid) (event : Z)
    (polls : list AppState) (at_end : AppState -> AppState) (stored : bool) : Alerts * AppState :=
  if negb (isSome (cmds (agents st) !! agent)) then (a, st)
  else
    let prev_seq := match frames (media st) !! agent with Some f => seq f | None => 0 end in
    match try_send_command (agents st) agent (StartCapture_ StartCapture_default) with
    | (_, false) => (a, st)
    | (r, true) =>
        let jpeg := find_map (newer_frame agent prev_seq) polls in
        let st := at_end (with_agents st r) in
        let st := with_agents st (try_send_command (agents st) agent StopCapture).1 in
        (match jpeg with Some j => if stored then with_screenshots a (<[event := j]> (screenshots a)) else a | None => a end, st)
    end.
End engine.

(** ** Theorems *)

Lemma scope_stored_ok a s : scope_stored a s = true -> existsb (String.eqb (sc_kind s)) ["all"; "group"; "agent"]%string = true.
Proof.
  unfold scope_stored. destruct (sc_group s), (sc_agent s); intros E; try done; try apply andb_true_iff in E as [E _]; apply String.eqb_eq in E as ->; reflexivity.
Qed.

(** A stored rule can be evaluated: its expression compiles, its threshold is a percentage of a known
    metric, it has scopes, and each names what its kind needs. *)
Section well_formed.
Context (regex_is_match : bool -> string -> string -> option bool).
(** Whether an expression compiles does not depend on the text it is matched against. *)
Hypothesis regex_compiles : forall ci p h h', isSome (regex_is_match ci p h) = isSome (regex_is_match ci p h').
Definition rule_ok (r : AlertRule) : Prop :=
  (r_channel r ∈ ["url"; "keys"; "url_category"]%string ->
     trim (r_pattern r) <> ""%string /\ (r_match_mode r = "regex"%string -> forall h, is_Some (regex_is_match (r_case_insensitive r) (r_pattern r) h))) /\
  (r_channel r = "resource"%string ->
     one_of ["cpu_pct"; "mem_pct"; "disk_pct"]%string (r_metric r) = true /\ one_of ["gt"; "lt"]%string (r_comparator r) = true /\ is_some_and (r_threshold r) percent = true) /\
  (r_channel r = "agent_offline"%string -> forall d, r_duration_secs r = Some d -> 0 <= d) /\
  r_channel r ∈ channels /\ 0 <= r_cooldown_secs r /\ r_scopes r <> [].
Inductive RuleOp : Type := RCreate (b : RuleBody) | RUpdate (id : Z) (b : RuleBody) | RDelete (id : Z).
Definition rule_step (a : Alerts) (op : RuleOp) : Alerts :=
  match op with
  | RCreate b => (alert_rules_create_h regex_is_match a b).1
  | RUpdate id b => (alert_rules_update_h regex_is_match a id b).1
  | RDelete id => (alert_rules_delete_h a id).1
  end.
(** Ids are those of the rules created so far, once each, in order. *)
Definition ids_ok (a : Alerts) : Prop := StronglySorted Z.lt (r_id <$> rules a) /\ Forall (fun r => r_id r < next_rule a) (rules a).
Definition rules_ok (a : Alerts) : Prop := ids_ok a /\ Forall rule_ok (rules a).

Lemma normalize_each_length l l' : normalize_each l = Ok l' -> length l' = length l.
Proof.
  revert l'. induction l as [|s l IH]; intros l'; cbn [normalize_each]; [by intros [= <-]|].
  destruct (normalize_scope s); cbn; [|done]. destruct (normalize_each l) as [l1|]; cbn; [|done]. intros [= <-]. cbn. by rewrite (IH l1).
Qed.
Lemma rule_of_body_ok a b r id : rule_of_body regex_is_match b = Ok r -> row_stored a (with_id id r) = true -> rule_ok (with_id id r).
Proof.
  unfold rule_of_body. destruct (validate_alert_rule_pattern _ _ _ _ _ _ _ _ _) as [[]|] eqn:V; cbn; [|done].
  destruct (normalize_alert_scopes (b_scopes b)) as [scopes|] eqn:S; cbn; [|done]. intros [= <-]. cbn -[String.eqb existsb channels]. unfold row_stored. cbn -[String.eqb existsb channels].
  intros R. apply andb_true_iff in R as [R _]. apply andb_true_iff in R as [R C]. apply andb_true_iff in R as [R M].
  apply existsb_eqb_elem in R. apply Z.leb_le in C. unfold rule_ok. cbn -[channels]. unfold validate_alert_rule_pattern in V.
  assert (N : scopes <> []).
  { unfold normalize_alert_scopes in S. destruct (b_scopes b); [done|]. apply normalize_each_length in S. by destruct scopes. }
  split; [|split; [|split; [|done]]].
  - intros I. apply existsb_eqb_elem in I. rewrite I in V. destruct (existsb _ _); cbn [negb] in V; [|done].
    destruct (String.eqb (trim (trim (b_pattern b))) "") eqn:P; cbn [negb] in V; [done|]. apply String.eqb_neq in P. split; [done|].
    intros E h. rewrite E in V. cbn in V. destruct (regex_is_match (b_case_insensitive b) (trim (b_pattern b)) "") eqn:X; [|done].
    pose proof (regex_compiles (b_case_insensitive b) (trim (b_pattern b)) h "") as Y. rewrite X in Y. destruct (regex_is_match _ _ h); [by eexists|done].
  - intros E. rewrite E in V. cbn -[one_of percent] in V. destruct (one_of _ (b_metric b)); [|done]. cbn in V. destruct (one_of _ (b_comparator b)); [|done]. cbn in V.
    by destruct (is_some_and (b_threshold b) percent).
  - intros E. rewrite E in V. cbn in V. intros d D. rewrite D in V. cbn in V. destruct (0 <=? d) eqn:Z; [by apply Z.leb_le|done].
Qed.

Lemma sorted_app_last l x : StronglySorted Z.lt l -> Forall (fun y => y < x) l -> StronglySorted Z.lt (l ++ [x]).
Proof.
  induction 1 as [|y l S IH F]; intros L; [by repeat constructor|]. apply Forall_cons in L as [L1 L2]. cbn [app]. constructor; [by apply IH|].
  apply Forall_app. split; [done|by apply Forall_singleton].
Qed.
Lemma sorted_filter {A} (f : A -> Z) (p : A -> bool) (l : list A) : StronglySorted Z.lt (f <$> l) -> StronglySorted Z.lt (f <$> List.filter p l).
Proof.
  induction l as [|x l IH]; [done|]. cbn [fmap list_fmap List.filter]. intros [S F]%StronglySorted_inv. destruct (p x); [|by apply IH].
  cbn [fmap list_fmap]. constructor; [by apply IH|]. rewrite Forall_forall in F |- *. intros y I. apply F. apply list_elem_of_fmap in I as (z & -> & I).
  apply list_elem_of_fmap. exists z. split; [done|]. apply list_elem_of_In in I. apply filter_In in I as [I _]. by apply list_elem_of_In.
Qed.
Lemma replace_ids id r (l : list AlertRule) : r_id r = id -> r_id <$> ((fun x => if r_id x =? id then r else x) <$> l) = r_id <$> l.
Proof.
  intros E. rewrite <-list_fmap_compose. apply list_fmap_ext. intros i x _. cbn. destruct (r_id x =? id) eqn:X; [|done]. apply Z.eqb_eq in X. congruence.
Qed.
Lemma rule_step_ok a op : rules_ok a -> rules_ok (rule_step a op).
Proof.
  intros [[S N] O]. destruct op as [b|id b|id]; cbn [rule_step].
  - unfold alert_rules_create_h. destruct (rule_of_body regex_is_match b) as [r|] eqn:B; [|by split]. unfold alert_rule_create_with_scopes.
    destruct (row_stored a (with_id (next_rule a) r)) eqn:R; [|by split]. cbn [fst]. split; [split|]; cbn [with_rules rules next_rule].
    + rewrite fmap_app. apply sorted_app_last; [exact S|]. apply Forall_fmap. exact N.
    + apply Forall_app. split; [|apply Forall_singleton; cbn; lia]. eapply Forall_impl; [exact N|]. cbn. lia.
    + apply Forall_app. split; [exact O|]. apply Forall_singleton. exact (rule_of_body_ok _ _ _ _ B R).
  - unfold alert_rules_update_h. destruct (rule_of_body regex_is_match b) as [r|] eqn:B; [|by split]. unfold alert_rule_update_with_scopes.
    destruct (existsb _ (rules a)) eqn:X; [|by split]. destruct (row_stored a (with_id id r)) eqn:R; [|by split]. cbn [fst]. split; [split|]; cbn [with_rules rules next_rule].
    + by rewrite replace_ids.
    + apply existsb_exists in X as (x & I & E). apply Z.eqb_eq in E. apply list_elem_of_In in I. rewrite Forall_forall in N. pose proof (N _ I) as L. cbn in L.
      apply Forall_fmap. apply Forall_forall. intros y J. cbn. destruct (r_id y =? id); [cbn; lia|by apply N].
    + apply Forall_fmap. eapply Forall_impl; [exact O|]. intros y Y. cbn. destruct (r_id y =? id); [|exact Y]. exact (rule_of_body_ok _ _ _ _ B R).
  - unfold alert_rules_delete_h, alert_rule_delete. assert (P : rules_ok (with_rules a (List.filter (fun x => negb (r_id x =? id)) (rules a)) (next_rule a))).
    { split; [split|]; cbn [with_rules rules next_rule].
      - by apply sorted_filter.
      - rewrite Forall_forall in N |- *. intros y I. apply N. apply list_elem_of_In in I. apply filter_In in I as [I _]. by apply list_elem_of_In.
      - rewrite Forall_forall in O |- *. intros y I. apply O. apply list_elem_of_In in I. apply filter_In in I as [I _]. by apply list_elem_of_In. }
    by destruct (existsb _ (rules a)).
Qed.
End well_formed.

(** Whatever the admin endpoints are asked, the rules they store are ones the engine can evaluate:
    an expression that compiles and a pattern that is not blank, a known metric with a percentage to
    compare it to, a grace that is not negative, a cooldown that is not negative, at least one scope; and
    no two rules share an id. A request that fails stores nothing. *)
Theorem stored_rules_are_evaluable regex_is_match ops :
  (forall ci p h h', isSome (regex_is_match ci p h) = isSome (regex_is_match ci p h')) ->
  rules_ok regex_is_match (foldl (rule_step regex_is_match) Alerts_empty ops) /\
  forall a op, match op with RCreate b => isSome (rok (alert_rules_create_h regex_is_match a b).2) | RUpdate id b => isSome (rok (alert_rules_update_h regex_is_match a id b).2)
               | RDelete id => isSome (rok (alert_rules_delete_h a id).2) end = false -> rules (rule_step regex_is_match a op) = rules a.
Proof.
  intros C. split.
  - assert (I : rules_ok regex_is_match Alerts_empty) by (repeat constructor). revert I. generalize Alerts_empty.
    induction ops as [|op ops IH]; intros a I; [done|]. cbn [foldl]. apply IH. by apply rule_step_ok.
  - intros a [b|id b|id]; cbn [rule_step].
    + unfold alert_rules_create_h. destruct (rule_of_body _ b); [|done]. destruct (alert_rule_create_with_scopes a _) as [[? ?]|]; [done|done].
    + unfold alert_rules_update_h. destruct (rule_of_body _ b) as [r|]; [|done]. unfold alert_rule_update_with_scopes.
      destruct (existsb _ _); [|done]. by destruct (row_stored _ _).
    + unfold alert_rules_delete_h, alert_rule_delete. destruct (existsb _ _) eqn:X; [done|]. intros _. cbn.
      induction (rules a) as [|x l IH]; [done|]. cbn [existsb List.filter] in *. apply orb_false_iff in X as [X1 X2]. rewrite X1. cbn. by rewrite IH.
Qed.

(** *** Which rules apply *)

Lemma broadest_from (l : list Scope) k0 k :
  foldl (fun acc s => match acc with Some k => if scope_rank (sc_kind s) <? scope_rank k then Some (sc_kind s) else acc | None => Some (sc_kind s) end) (Some k0) l = Some k ->
  (k = k0 \/ exists s, s ∈ l /\ sc_kind s = k) /\ scope_rank k <= scope_rank k0 /\ forall s, s ∈ l -> scope_rank k <= scope_rank (sc_kind s).
Proof.
  revert k0. induction l as [|x l IH]; intros k0 E; cbn [foldl] in E.
  - injection E as <-. split; [by left|]. split; [lia|]. intros s I. by apply elem_of_nil in I.
  - destruct (scope_rank (sc_kind x) <? scope_rank k0) eqn:L.
    + apply Z.ltb_lt in L. destruct (IH _ E) as (C & R & A). split; [|split; [lia|]].
      * right. destruct C as [->|(s & I & K)]; [exists x; split; [by left|done]|exists s; split; [by right|done]].
      * intros s I. apply elem_of_cons in I as [->|I]; [done|by apply A].
    + apply Z.ltb_ge in L. destruct (IH _ E) as (C & R & A). split; [|split; [done|]].
      * destruct C as [->|(s & I & K)]; [by left|right; exists s; split; [by right|done]].
      * intros s I. apply elem_of_cons in I as [->|I]; [lia|by apply A].
Qed.
Lemma broadest_spec l k : broadest l = Some k -> (exists s, s ∈ l /\ sc_kind s = k) /\ forall s, s ∈ l -> scope_rank k <= scope_rank (sc_kind s).
Proof.
  unfold broadest. destruct l as [|x l]; [done|]. cbn [foldl]. intros E. apply broadest_from in E as (C & R & A). split.
  - destruct C as [->|(s & I & K)]; [exists x; split; [by left|done]|exists s; split; [by right|done]].
  - intros s I. apply elem_of_cons in I as [->|I]; [done|by apply A].
Qed.
Lemma broadest_some l s : s ∈ l -> is_Some (broadest l).
Proof.
  unfold broadest. destruct l as [|x l]; [by intros I%elem_of_nil|]. intros _. cbn [foldl]. generalize (sc_kind x). induction l as [|y l IH]; intros k; [by eexists|].
  cbn [foldl]. destruct (_ <? _); apply IH.
Qed.
Lemma matching_kind a agent s : scope_matches a agent s = true -> sc_kind s ∈ ["all"; "agent"; "group"]%string.
Proof.
  unfold scope_matches. intros M. apply orb_true_iff in M as [M|M]; [apply orb_true_iff in M as [M|M]|].
  - apply String.eqb_eq in M as ->. by left.
  - apply andb_true_iff in M as [M _]. apply String.eqb_eq in M as ->. right. by left.
  - apply andb_true_iff in M as [M _]. apply String.eqb_eq in M as ->. right. right. by left.
Qed.
Lemma rank_injective k k' : k ∈ ["all"; "agent"; "group"]%string -> k' ∈ ["all"; "agent"; "group"]%string -> scope_rank k = scope_rank k' -> k = k'.
Proof.
  rewrite !elem_of_cons, !elem_of_nil. intros K K'. destruct K as [->|[->|[->|[]]]], K' as [->|[->|[->|[]]]]; vm_compute; congruence.
Qed.

(** A rule applies to a device exactly when it is enabled, is of the channel, and one of its scopes
    covers the device: all devices, the device itself, or a group the device is in; and it is labelled
    with the broadest of the scopes that do. *)
Theorem effective_rules_exact a agent channel r k :
  (r, k) ∈ alert_rules_effective_for_agent a agent channel <->
  r ∈ rules a /\ r_enabled r = true /\ r_channel r = channel /\
  exists s, s ∈ r_scopes r /\ scope_matches a agent s = true /\ sc_kind s = k /\
    forall s', s' ∈ r_scopes r -> scope_matches a agent s' = true -> scope_rank k <= scope_rank (sc_kind s').
Proof.
  unfold alert_rules_effective_for_agent. rewrite list_elem_of_omap.
  assert (F : forall s, s ∈ List.filter (scope_matches a agent) (r_scopes r) <-> s ∈ r_scopes r /\ scope_matches a agent s = true)
    by (intros s; rewrite !list_elem_of_In; apply filter_In).
  split.
  - intros (x & I & E). destruct (r_enabled x && String.eqb (r_channel x) channel) eqn:C; [|done].
    destruct (broadest _) as [k'|] eqn:B; [|done]. injection E as -> ->. apply andb_true_iff in C as [En Ch]. apply String.eqb_eq in Ch.
    apply broadest_spec in B as [(s & S & K) A]. split; [done|]. split; [done|]. split; [done|]. apply F in S as [S M]. exists s. split; [done|]. split; [done|].
    split; [done|]. intros s' S' M'. apply A. by apply F.
  - intros (I & En & Ch & s & S & M & K & A). exists r. split; [done|]. rewrite En, Ch, String.eqb_refl. cbn [andb].
    destruct (broadest_some (List.filter (scope_matches a agent) (r_scopes r)) s) as [k' B]; [by apply F|]. rewrite B. cbn. do 2 f_equal.
    apply broadest_spec in B as [(s' & S' & K') A']. apply F in S' as [S' M']. subst k k'.
    apply rank_injective; [by apply (matching_kind a agent)|by apply (matching_kind a agent)|]. pose proof (A' s (proj2 (F s) (conj S M))). pose proof (A s' S' M'). lia.
Qed.

(** *** Spacing *)

Section firing.
Context `{UuidText}.
(** One call of [fire_alert]. *)
Record Firing := {
  f_agent : Uuid; f_name : string; f_rule : AlertRule; f_channel : string; f_snippet : string; f_shot : bool; f_env : FireEnv
}.
Definition fire (a : Alerts) (f : Firing) : Alerts := (fire_alert a (f_agent f) (f_name f) (f_rule f) (f_channel f) (f_snippet f) (f_shot f) (f_env f)).1.
Definition of_key (rule : Z) (agent : Uuid) (f : Firing) : bool := (r_id (f_rule f) =? rule) && bool_decide (f_agent f = agent).
(** When the alerts of a rule for a device were raised. *)
Fixpoint raised (a : Alerts) (rule : Z) (agent : Uuid) (l : list Firing) : list Instant :=
  match l with
  | [] => []
  | f :: l =>
      (if of_key rule agent f && negb (Nat.eqb (length (events (fire a f))) (length (events a))) then [fe_now (f_env f)] else []) ++ raised (fire a f) rule agent l
  end.
Fixpoint clock_from (since : Instant) (l : list Firing) : Prop :=
  match l with [] => True | f :: l => since <= fe_now (f_env f) /\ clock_from (fe_now (f_env f)) l end.

Lemma fire_cooldowns a f :
  alert_match_cooldowns (fire a f) = alert_match_cooldowns a \/
  alert_match_cooldowns (fire a f) = <[(r_id (f_rule f), f_agent f) := fe_now (f_env f)]> (alert_match_cooldowns a).
Proof.
  unfold fire, fire_alert, pass_cooldown. destruct (0 <? Z.max (r_cooldown_secs (f_rule f)) 0).
  - destruct (is_some_and _ _); [by left|]. destruct (negb (fe_insert (f_env f))); by right.
  - destruct (negb (fe_insert (f_env f))); by left.
Qed.
Lemma fire_raised a f c : 0 < c -> c <= r_cooldown_secs (f_rule f) -> length (events (fire a f)) <> length (events a) ->
  alert_match_cooldowns (fire a f) !! (r_id (f_rule f), f_agent f) = Some (fe_now (f_env f)) /\
  forall last, alert_match_cooldowns a !! (r_id (f_rule f), f_agent f) = Some last -> last <= fe_now (f_env f) -> last + secs c <= fe_now (f_env f).
Proof.
  intros P C. unfold fire, fire_alert, pass_cooldown. rewrite (proj2 (Z.ltb_lt 0 (Z.max (r_cooldown_secs (f_rule f)) 0))) by lia.
  destruct (is_some_and _ _) eqn:S; [by intros []|]. destruct (negb (fe_insert (f_env f))); [by intros []|]. intros _. cbn [fst alert_match_cooldowns with_cooldowns].
  rewrite lookup_insert_eq. split; [done|]. intros last L O. rewrite L in S. cbn in S. apply Z.ltb_ge in S. unfold as_secs, saturating_since in S. unfold secs.
  rewrite (Z.max_r 0 (fe_now (f_env f) - last)) in S by lia. rewrite (Z.max_l (r_cooldown_secs (f_rule f)) 0) in S by lia.
  pose proof (Z.mul_div_le (fe_now (f_env f) - last) 1000000000 ltac:(lia)). nia.
Qed.
Lemma pass_cooldown_exact a rule agent cd now :
  let cooling := exists last, alert_match_cooldowns a !! (rule, agent) = Some last /\ 0 < cd /\ now < last + secs cd in
  (cooling -> pass_cooldown a rule agent cd now = None) /\
  (~ cooling -> pass_cooldown a rule agent cd now = Some (if 0 <? cd then with_cooldowns a (<[(rule, agent) := now]> (alert_match_cooldowns a)) else a)).
Proof.
  cbv zeta. unfold pass_cooldown, as_secs, saturating_since, secs. split.
  - intros (last & L & P & B). rewrite (Z.max_l cd 0), (proj2 (Z.ltb_lt 0 cd)), L by lia. cbn. rewrite (proj2 (Z.ltb_lt _ _)); [done|].
    apply Z.div_lt_upper_bound; lia.
  - intros C. destruct (0 <? cd) eqn:P; cycle 1.
    { apply Z.ltb_ge in P. by rewrite (Z.max_r cd 0) by lia. }
    pose proof (proj1 (Z.ltb_lt _ _) P) as P'. rewrite (Z.max_l cd 0), P by lia. destruct (alert_match_cooldowns a !! (rule, agent)) as [last|] eqn:L; cbn; [|done].
    destruct (_ / _ <? cd) eqn:B; [|done]. exfalso. apply C. exists last. split; [done|]. split; [done|]. apply Z.ltb_lt in B.
    pose proof (Z.mul_succ_div_gt (Z.max 0 (now - last)) 1000000000 ltac:(lia)). lia.
Qed.
Lemma raised_spaced c rule agent l a since (dn : list Instant) : 0 < c ->
  Forall (fun f => of_key rule agent f = true -> c <= r_cooldown_secs (f_rule f)) l -> clock_from since l ->
  (forall last, alert_match_cooldowns a !! (rule, agent) = Some last -> last <= since) ->
  (forall t, t ∈ dn -> exists last, alert_match_cooldowns a !! (rule, agent) = Some last /\ t <= last) ->
  StronglySorted (fun x y => x + secs c <= y) (raised a rule agent l) /\ forall t t', t ∈ dn -> t' ∈ raised a rule agent l -> t + secs c <= t'.
Proof.
  intros P F. revert a since dn. induction F as [|f l C F IH]; intros a since dn K B D; cbn [raised].
  - split; [constructor|]. intros t t' _ I. by apply elem_of_nil in I.
  - destruct K as [K1 K2]. set (now := fe_now (f_env f)) in *.
    assert (B' : forall last, alert_match_cooldowns (fire a f) !! (rule, agent) = Some last -> last <= now).
    { intros last L. destruct (fire_cooldowns a f) as [E|E]; rewrite E in L; [specialize (B last L); lia|].
      apply lookup_insert_Some in L as [[_ <-]|[_ L]]; [done|specialize (B last L); lia]. }
    assert (D' : forall t, t ∈ dn -> exists last, alert_match_cooldowns (fire a f) !! (rule, agent) = Some last /\ t <= last).
    { intros t I. destruct (D t I) as (last & L & T). destruct (fire_cooldowns a f) as [E|E]; rewrite E; [by exists last|].
      destruct (decide ((r_id (f_rule f), f_agent f) = (rule, agent))) as [->|N].
      - exists now. rewrite lookup_insert_eq. split; [done|]. specialize (B last L). lia.
      - exists last. by rewrite lookup_insert_ne. }
    destruct (of_key rule agent f && negb (Nat.eqb (length (events (fire a f))) (length (events a)))) eqn:R.
    + apply andb_true_iff in R as [R1 R2]. apply negb_true_iff, Nat.eqb_neq in R2. specialize (C R1). destruct (fire_raised a f c P C R2) as [L G].
      unfold of_key in R1. apply andb_true_iff in R1 as [E1 E2]. apply Z.eqb_eq in E1. apply bool_decide_eq_true in E2. rewrite E1, E2 in L, G.
      destruct (IH (fire a f) now (now :: dn) K2 B') as [S A].
      { intros t I. apply elem_of_cons in I as [->|I]; [exists now; split; [exact L|lia]|by apply D']. }
      cbn [app]. split.
      * constructor; [exact S|]. apply Forall_forall. intros y I. apply A; [by left|done].
      * intros t t' I I'. apply elem_of_cons in I' as [->|I'].
        -- destruct (D t I) as (last & L' & T). pose proof (G last L'). specialize (B last L'). lia.
        -- apply A; [by right|done].
    + cbn [app]. exact (IH (fire a f) now dn K2 B' D').
Qed.
End firing.

(** C25: alerts are spaced by the rule's cooldown: from no running cooldown, however often a rule matches
    on a device, between whatever else fires and whichever events can be stored, while the clock does not
    go back two alerts of it are at least the cooldown apart. A match before the cooldown has passed
    changes nothing. A match after it starts the cooldown again; when the event can be stored, the event
    with the rule, the device and the text is stored under the next id, and exactly this alert is announced
    to the viewers and notified, with the device's pages on the dashboard when its address is known; when
    storing fails, nothing is stored, announced or notified, although the cooldown has started. *)
Theorem alerts_are_spaced `{UuidText} a rule agent l c :
  0 < c -> alert_match_cooldowns a !! (rule, agent) = None -> Forall (fun f => of_key rule agent f = true -> c <= r_cooldown_secs (f_rule f)) l ->
  (exists since, clock_from since l) ->
  StronglySorted (fun x y => x + secs c <= y) (raised a rule agent l) /\
  forall f, let r := f_rule f in let key := (r_id r, f_agent f) in let now := fe_now (f_env f) in
    let cooling := exists last, alert_match_cooldowns a !! key = Some last /\ 0 < r_cooldown_secs r /\ now < last + secs (r_cooldown_secs r) in
    (cooling -> fire a f = a) /\
    (~ cooling ->
       alert_match_cooldowns (fire a f) = (if 0 <? r_cooldown_secs r then <[key := now]> (alert_match_cooldowns a) else alert_match_cooldowns a) /\
       (fe_insert (f_env f) = false -> events (fire a f) = events a /\ announced (fire a f) = announced a /\ notified (fire a f) = notified a) /\
       (fe_insert (f_env f) = true ->
          let page suffix := match fe_base (f_env f) with
                             | Some base => JStr (base ++ "/agents/" ++ uuid_text (f_agent f) ++ suffix)%string
                             | None => JNull
                             end in
          let about := [("rule_id", JInt (r_id r)); ("rule_name", JStr (r_name r)); ("channel", JStr (f_channel f)); ("agent_id", JStr (uuid_text (f_agent f)));
                        ("agent_name", JStr (f_name f)); ("snippet", JStr (f_snippet f)); ("ts", JInt (fe_ts (f_env f)))]%string in
          events (fire a f) = events a ++ [{| e_id := next_event a; e_agent := f_agent f; e_rule := r_id r; e_rule_name := r_name r; e_channel := f_channel f; e_snippet := f_snippet f |}] /\
          next_event (fire a f) = next_event a + 1 /\
          announced (fire a f) = announced a ++ [mk_obj (("event"%string, JStr "alert_rule_match") :: about)] /\
          notified (fire a f) = notified a ++ [mk_obj ((("event_id"%string, JInt (next_event a)) :: about) ++
             [("dashboard_url"%string, page ""%string); ("dashboard_activity_url"%string, page ("?tab=activity&at=" ++ fe_at (f_env f))%string)])])).
Proof.
  intros P N F [since K]. split.
  - eapply (raised_spaced c rule agent l a since []); try done.
    + intros last L. congruence.
    + intros t I. by apply elem_of_nil in I.
  - intros f r key now cooling. pose proof (pass_cooldown_exact a (r_id r) (f_agent f) (r_cooldown_secs r) now) as [G1 G2]. split.
    + intros C. unfold fire, fire_alert. fold r now. by rewrite (G1 C).
    + intros C. unfold fire, fire_alert. fold r now. rewrite (G2 C). split; [|split].
      * by destruct (0 <? _), (fe_insert (f_env f)).
      * intros ->. by destruct (0 <? _).
      * intros ->. cbv zeta. unfold alert_message, alert_payload, uuid_json. destruct (fe_base (f_env f)) as [base|]; destruct (0 <? _); repeat split; cbn;
          rewrite ?append_assoc, ?append_empty; reflexivity.
Qed.

(** *** What a piece of telemetry raises *)

Section telemetry.
Context `{UuidText}.
Definition hit_key (h : AlertRule * string * bool) : Z * string := (r_id h.1.1, h.1.2).
Definition event_of (agent : Uuid) (channel : string) (e : AlertEvent) (h : AlertRule * string * bool) : Prop :=
  e_agent e = agent /\ e_channel e = channel /\ (e_rule e, e_snippet e) = hit_key h.
(** Alerts are clear to fire: stored when tried, and not cooling down. *)
Definition clear (a : Alerts) (agent : Uuid) (h : AlertRule * string * bool) (e : FireEnv) : Prop :=
  fe_insert e = true /\ alert_match_cooldowns a !! (r_id h.1.1, agent) = None.
Lemma fire_cases a agent name rule channel snippet shot e :
  let r := fire_alert a agent name rule channel snippet shot e in
  rules r.1 = rules a /\ members r.1 = members a /\
  (events r.1 = events a /\ announced r.1 = announced a /\ notified r.1 = notified a /\ r.2 = None /\ ~ clear a agent (rule, snippet, shot) e \/
   exists ev, events r.1 = events a ++ [ev] /\ event_of agent channel ev (rule, snippet, shot) /\
     announced r.1 = announced a ++ [alert_message rule channel snippet name agent (fe_ts e)] /\
     notified r.1 = notified a ++ [alert_payload (e_id ev) rule channel snippet name agent e] /\ r.2 = if shot then Some (e_id ev) else None).
Proof.
  cbv zeta. unfold fire_alert, clear. destruct (pass_cooldown _ _ _ _ _) as [a1|] eqn:P.
  - assert (Q : a1 = a \/ a1 = with_cooldowns a (<[(r_id rule, agent) := fe_now e]> (alert_match_cooldowns a))).
    { unfold pass_cooldown in P. destruct (0 <? _); [|injection P as <-; by left]. destruct (is_some_and _ _); [done|]. injection P as <-. by right. }
    destruct (fe_insert e); cbn [negb].
    + destruct Q as [->| ->]; (split; [done|]; split; [done|]; right; eexists; split; [done|]; split; [repeat split|done]).
    + destruct Q as [->| ->]; (split; [done|]; split; [done|]; left; repeat split; by intros [? _]).
  - split; [done|]. split; [done|]. left. repeat split. intros [_ N]. cbn in N. unfold pass_cooldown in P. destruct (0 <? _); [|done]. by rewrite N in P.
Qed.
Lemma fire_other_key a agent name rule channel snippet shot e id :
  id <> r_id rule -> alert_match_cooldowns (fire_alert a agent name rule channel snippet shot e).1 !! (id, agent) = alert_match_cooldowns a !! (id, agent).
Proof.
  intros N. destruct (fire_cooldowns a {| f_agent := agent; f_name := name; f_rule := rule; f_channel := channel; f_snippet := snippet; f_shot := shot; f_env := e |}) as [E|E];
    unfold fire in E; cbn in E; rewrite E; [done|]. rewrite lookup_insert_ne; [done|]. intros [= X]. by apply N.
Qed.
Lemma fire_each_spec a agent name channel l env i :
  exists new fired, sublist fired l /\ events (fire_each a agent name channel l env i).1 = events a ++ new /\ Forall2 (event_of agent channel) new fired /\
    length (announced (fire_each a agent name channel l env i).1) = (length (announced a) + length new)%nat /\
    length (notified (fire_each a agent name channel l env i).1) = (length (notified a) + length new)%nat /\
    (NoDup (r_id ∘ fst ∘ fst <$> l) -> (forall j h, l !! j = Some h -> clear a agent h (env (i + j)%nat)) -> fired = l).
Proof.
  revert a i. induction l as [|[[rule snippet] shot] l IH]; intros a i; cbn [fire_each].
  - exists [], []. rewrite app_nil_r. split; [apply sublist_nil_l|]. split; [done|]. split; [by apply Forall2_nil|]. split; [cbn; lia|]. split; [cbn; lia|done].
  - pose proof (fire_cases a agent name rule channel snippet shot (env i)) as C. pose proof (fire_other_key a agent name rule channel snippet shot (env i)) as K.
    destruct (fire_alert a agent name rule channel snippet shot (env i)) as [a1 asked]. cbn [fst snd] in C, K. destruct C as (_ & _ & C).
    destruct (IH a1 (S i)) as (new & fired & Sub & E & F & An & No & Q). destruct (fire_each a1 agent name channel l env (S i)) as [a2 rest]. cbn [fst snd] in *.
    assert (G : NoDup (r_id ∘ fst ∘ fst <$> (rule, snippet, shot) :: l) -> (forall j h, ((rule, snippet, shot) :: l) !! j = Some h -> clear a agent h (env (i + j)%nat)) -> fired = l).
    { intros D A. cbn [fmap list_fmap] in D. apply NoDup_cons in D as [D1 D2]. apply Q; [exact D2|]. intros j h L. specialize (A (S j) h L).
      replace (S i + j)%nat with (i + S j)%nat by lia. destruct A as [A1 A2]. split; [exact A1|]. rewrite K; [exact A2|]. intros X. apply D1.
      apply list_elem_of_fmap. exists h. split; [cbn; congruence|]. by eapply list_elem_of_lookup_2. }
    destruct C as [(E1 & E2 & E3 & _ & NC)|(ev & E1 & Ev & E2 & E3 & _)].
    + exists new, fired. rewrite <-E1, <-E2, <-E3. split; [by constructor|]. repeat (split; [done|]). intros D A. exfalso. apply NC.
      specialize (A 0%nat _ eq_refl). by rewrite Nat.add_0_r in A.
    + exists (ev :: new), ((rule, snippet, shot) :: fired). split; [by constructor|]. split; [by rewrite E, E1, <-app_assoc|]. split; [by constructor|].
      rewrite An, No, E2, E3, !length_app. cbn [length]. split; [lia|]. split; [lia|]. intros D A. by rewrite (G D A).
Qed.
End telemetry.

(** What an address, typed text or a category raises: for some of the rules that apply to the device
    on that channel and match it, in the rules' order, one event each, with the rule, the device and the
    shortened text, and as many announcements and notifications; for every one of them, when no alert of
    theirs is cooling down and the events can be stored. Nothing is raised on other channels, for an empty
    text, or when the rules cannot be read. *)
Theorem telemetry_raises_matching_rules rx tl `{UuidText} a agent name channel payload loaded env :
  let haystack := haystack_for_channel channel payload in
  let hits := (fun r => (r, truncate_snippet haystack channel, r_take_screenshot r)) <$>
                List.filter (fun r => rule_matches rx tl r haystack) (fst <$> alert_rules_effective_for_agent a agent channel) in
  let a' := (on_url_or_keys_event rx tl a agent name channel payload loaded env).1 in
  exists new fired, sublist fired hits /\ events a' = events a ++ new /\ Forall2 (event_of agent channel) new fired /\
    length (announced a') = (length (announced a) + length new)%nat /\ length (notified a') = (length (notified a) + length new)%nat /\
    (existsb (String.eqb channel) ["url"; "keys"; "url_category"]%string = true -> haystack <> ""%string -> loaded = true ->
     NoDup (r_id <$> rules a) -> (forall j h, hits !! j = Some h -> clear a agent h (env j)) -> fired = hits) /\
    (existsb (String.eqb channel) ["url"; "keys"; "url_category"]%string = false \/ haystack = ""%string \/ loaded = false -> a' = a).
Proof.
  cbv zeta. unfold on_url_or_keys_event. set (hits := _ <$> List.filter _ _).
  destruct (existsb _ _) eqn:C; cbn [negb]; cycle 1.
  { exists [], []. rewrite app_nil_r. split; [apply sublist_nil_l|]. split; [done|]. split; [by apply Forall2_nil|]. split; [cbn; lia|]. split; [cbn; lia|]. by split. }
  destruct (String.eqb (haystack_for_channel channel payload) "") eqn:Hs.
  { apply String.eqb_eq in Hs. exists [], []. rewrite app_nil_r. split; [apply sublist_nil_l|]. split; [done|]. split; [by apply Forall2_nil|]. split; [cbn; lia|]. split; [cbn; lia|]. by split. }
  apply String.eqb_neq in Hs. destruct loaded; cbn [negb]; cycle 1.
  { exists [], []. rewrite app_nil_r. split; [apply sublist_nil_l|]. split; [done|]. split; [by apply Forall2_nil|]. split; [cbn; lia|]. split; [cbn; lia|]. by split. }
  destruct (fire_each_spec a agent name channel hits env 0) as (new & fired & Sub & E & F & An & No & Q).
  exists new, fired. repeat (split; [done|]). split; [|by intros [|[|]]]. intros _ _ _ D A. apply Q; [|exact A].
  subst hits. rewrite <-list_fmap_compose. change (NoDup (r_id <$> List.filter (fun r => rule_matches rx tl r (haystack_for_channel channel payload)) (fst <$> alert_rules_effective_for_agent a agent channel))).
  assert (S : sublist (fst <$> alert_rules_effective_for_agent a agent channel) (rules a)).
  { unfold alert_rules_effective_for_agent. clear. induction (rules a) as [|r l IH]; [constructor|]. cbn [omap list_omap].
    destruct (r_enabled r && _); [|by constructor]. destruct (broadest _); cbn [fmap option_fmap option_map list_fmap]; by constructor. }
  assert (S' : sublist (List.filter (fun r => rule_matches rx tl r (haystack_for_channel channel payload)) (fst <$> alert_rules_effective_for_agent a agent channel)) (rules a)).
  { etrans; [|exact S]. generalize (fst <$> alert_rules_effective_for_agent a agent channel). clear. induction l as [|r l IH]; [constructor|]. cbn [List.filter].
    destruct (rule_matches _ _ _ _); by constructor. }
  eapply sublist_NoDup; [exact D|by apply fmap_sublist].
Qed.

(** *** Screenshots *)

(** The engine starts the capture through the generic command path, which leaves captures to the viewers'
    sessions: it is refused whatever the device reported, so no rule ever gets its screenshot. *)
Theorem screenshots_are_never_taken `{UuidText} a st agent event polls at_end stored :
  capture_and_store_screenshot_for_event a st agent event polls at_end stored = (a, st).
Proof.
  unfold capture_and_store_screenshot_for_event. destruct (negb _); [done|]. unfold try_send_command, send_command, send_agent_command_json.
  destruct (authorize_agent_command _ _ _); done.
Qed.

(** ** Examples *)

Module Sample.
Definition rule (id cooldown : Z) : AlertRule :=
  {| r_id := id; r_name := "games"; r_channel := "url"; r_pattern := "game"; r_match_mode := "substring"; r_case_insensitive := true; r_cooldown_secs := cooldown;
     r_enabled := true; r_take_screenshot := true; r_metric := None; r_comparator := None; r_threshold := None; r_duration_secs := None;
     r_scopes := [{| sc_kind := "group"; sc_group := Some 5%N; sc_agent := None |}; {| sc_kind := "all"; sc_group := None; sc_agent := None |}] |}.
Definition tables : Alerts := with_rules Alerts_empty [rule 1 60; rule 2 0] 3.
Definition env (t : Z) (ok : bool) : FireEnv := {| fe_now := secs t; fe_ts := t; fe_at := "t"; fe_base := None; fe_insert := ok |}.
Definition rx (ci : bool) (p h : string) : option bool := Some (str_contains h p).
Definition visit : json := mk_obj [("url"%string, JStr "https://Game.example")].
Definition after (a : Alerts) (t : Z) (ok : bool) : Alerts :=
  (@on_url_or_keys_event rx to_ascii_lowercase bin_uuid a 7%N "pc" "url" visit true (fun _ => env t ok)).1.
Definition firing (t : Z) : Firing :=
  {| f_agent := 7%N; f_name := "pc"; f_rule := rule 1 60; f_channel := "url"; f_snippet := "x"; f_shot := false; f_env := env t true |}.
Definition body : RuleBody :=
  {| b_name := "games"; b_channel := " url "; b_pattern := "game"; b_match_mode := "substring"; b_case_insensitive := true; b_cooldown_secs := 60; b_enabled := true;
     b_take_screenshot := false; b_metric := None; b_comparator := None; b_threshold := None; b_duration_secs := None;
     b_scopes := [{| si_kind := "all"; si_group := None; si_agent := None |}] |}.
End Sample.

Lemma stored_rules_are_evaluable_witness :
  r_id <$> rules (foldl (rule_step Sample.rx) Alerts_empty [RCreate Sample.body; RCreate Sample.body; RDelete 1]) = [2] /\
  rules_ok Sample.rx (foldl (rule_step Sample.rx) Alerts_empty [RCreate Sample.body; RCreate Sample.body; RDelete 1]).
Proof.
  split; [vm_compute; reflexivity|].
  apply (stored_rules_are_evaluable Sample.rx [RCreate Sample.body; RCreate Sample.body; RDelete 1] (fun _ _ _ _ => eq_refl)).
Defined.
Lemma alerts_are_spaced_witness :
  @raised bin_uuid Sample.tables 1 7%N [Sample.firing 10; Sample.firing 30; Sample.firing 70] = [secs 10; secs 70] /\
  StronglySorted (fun x y => x + secs 60 <= y) (@raised bin_uuid Sample.tables 1 7%N [Sample.firing 10; Sample.firing 30; Sample.firing 70]).
Proof.
  split; [vm_compute; reflexivity|].
  eapply proj1, (@alerts_are_spaced bin_uuid Sample.tables 1 7%N [Sample.firing 10; Sample.firing 30; Sample.firing 70] 60).
  - lia.
  - reflexivity.
  - repeat constructor; intros _; cbn; lia.
  - exists 0. cbn. unfold secs. lia.
Defined.
(** Nothing is announced when the event cannot be stored, and the cooldown has begun all the same: a match
    a second later, when the event could be stored, raises nothing. *)
Lemma failed_insert_silences_the_rule :
  announced (Sample.after Sample.tables 10 false) = [] /\
  e_rule <$> events (Sample.after (Sample.after Sample.tables 10 false) 11 true) = [2] /\
  e_rule <$> events (Sample.after Sample.tables 11 true) = [1; 2].
Proof. repeat split; vm_compute; reflexivity. Qed.
(** A resource rule's duration plays no part: one sample over the threshold raises the alert. *)
Lemma resource_alerts_need_no_duration decimal metrics r d :
  isSome (resource_hit decimal metrics {| r_id := r_id r; r_name := r_name r; r_channel := r_channel r; r_pattern := r_pattern r; r_match_mode := r_match_mode r;
     r_case_insensitive := r_case_insensitive r; r_cooldown_secs := r_cooldown_secs r; r_enabled := r_enabled r; r_take_screenshot := r_take_screenshot r;
     r_metric := r_metric r; r_comparator := r_comparator r; r_threshold := r_threshold r; r_duration_secs := d; r_scopes := r_scopes r |})
  = isSome (resource_hit decimal metrics r).
Proof.
  unfold resource_hit, breached, is_lt. cbn [r_metric r_threshold r_comparator]. destruct (r_metric r), (r_threshold r); try done.
  destruct (as_f64 _); [|done]. cbn. by destruct (bool_decide _), (SFltb _ _).
Qed.
