(* ===== verification/Viewer.v ===== *)
(** Dashboard viewers: the socket that watches and controls devices ([server/src/viewer/ws.rs], with
    the per-connection capability cache of [capabilities.rs] and the capability texts of
    [agents/capabilities.rs]) and the terminal socket ([terminal_ws.rs]). A viewer acts on the server
    as a transition system ([System]), so what holds of every reachable state holds while dashboards
    are connected. *)
From S2P Require Import Ingest Accounts Text Input.
From S2P Require Import Prelude Json Protocol Sessions Modules Registry Geometry State Runtime Capture Control Clipboard Connection Server Steps System.

(** ** Capabilities: [agents/capabilities.rs] *)

Definition capability_is_unavailable (status : string) : bool :=
  existsb (String.eqb (to_ascii_lowercase (trim status))) ["unsupported"; "unavailable"; "not_supported"; "disabled"]%string.
Definition capability_is_attemptable (status : option string) : bool :=
  match status with None => true | Some s => negb (capability_is_unavailable s) end.
(** The device's stored information, if any. *)
Definition capability_status (info : option json) (capability : string) : option string :=
  info ← info; caps ← get info "capabilities"; v ← get caps capability; as_str v.
Definition capability_attemptable (info : option json) (capability : string) : bool :=
  capability_is_attemptable (capability_status info capability).
Inductive AgentPlatform : Type := Windows | Linux | Other | Unknown.
Definition platform (info : option json) : AgentPlatform :=
  match info with
  | None => Unknown
  | Some info =>
      let v := match get info "capabilities" ≫= fun caps => get caps "platform" with Some v => Some v | None => get info "platform" end in
      let name := to_ascii_lowercase (trim (default "" (v ≫= as_str)))%string in
      if String.eqb name "windows" then Windows else if String.eqb name "linux" then Linux else if String.eqb name "" then Unknown else Other
  end.
Definition shell_allowed (info : option json) (shell : string) : bool :=
  let shell := to_ascii_lowercase (trim shell) in
  match platform info with
  | Linux => existsb (String.eqb shell) ["sh"; "bash"]%string
  | Windows | Unknown => existsb (String.eqb shell) ["powershell"; "cmd"]%string
  | Other => false
  end.

(** ** The cache: [capabilities.rs] *)

(** A device's connection and a capability, with the status found; [None] when there was none. *)
Abbreviation CapabilityCache := (gmap (Uuid * Uuid * string) (option string)) (only parsing).
Definition CACHE_LIMIT : nat := 4096.
Definition command_capability (cmd_type : string) : option string :=
  if existsb (String.eqb cmd_type)
       ["MouseMove"; "MouseClick"; "MouseDoubleClick"; "MouseDown"; "MouseUp"; "MouseScroll"; "TypeText"; "KeyPress"; "KeyDown"; "KeyUp"; "KeyChar"; "Notify"]%string
  then Some "remote_input"%string
  else if existsb (String.eqb cmd_type) ["RestartHost"; "ShutdownHost"; "LockHost"]%string then Some "system_control"%string
  else if String.eqb cmd_type "CollectSoftware" then Some "software_inventory"%string
  else None.

(** What the outside answers while one message is handled: the stored information of the device it
    names ([None]: the query failed), what the server did meanwhile, the clocks and a fresh token. *)
Record Turn := { t_info : option (option json); t_meanwhile : list Op; t_now : Instant; t_clock : Instant; t_audit : Instant; t_fresh : Uuid }.

(** A row for [audit_log], merged with an equal one of the last [ar_window] seconds. *)
Record AuditRow := { ar_actor : string; ar_agent : Uuid; ar_kind : string; ar_status : string; ar_window : Z }.
Inductive Received : Type := RGot (b : Broadcast) | RClosed | RLagged (n : Z).
Inductive ViewerFrame : Type := FText (text : list Z) | FClosed | FOther.
Record Viewer := { v_id : Uuid; v_user : AuthUser; v_hash : option string; v_cache : CapabilityCache; v_sent : list json; v_audit : list AuditRow }.
Definition Viewer_new (id : Uuid) (user : AuthUser) (hash : option string) : Viewer :=
  {| v_id := id; v_user := user; v_hash := hash; v_cache := ∅; v_sent := []; v_audit := [] |}.
Definition with_user (v : Viewer) (u : AuthUser) : Viewer :=
  {| v_id := v_id v; v_user := u; v_hash := v_hash v; v_cache := v_cache v; v_sent := v_sent v; v_audit := v_audit v |}.
Definition with_cache (v : Viewer) (c : CapabilityCache) : Viewer :=
  {| v_id := v_id v; v_user := v_user v; v_hash := v_hash v; v_cache := c; v_sent := v_sent v; v_audit := v_audit v |}.
Definition say (v : Viewer) (event : json) : Viewer :=
  {| v_id := v_id v; v_user := v_user v; v_hash := v_hash v; v_cache := v_cache v; v_sent := v_sent v ++ [event]; v_audit := v_audit v |}.
Definition note (v : Viewer) (row : AuditRow) : Viewer :=
  {| v_id := v_id v; v_user := v_user v; v_hash := v_hash v; v_cache := v_cache v; v_sent := v_sent v; v_audit := v_audit v ++ [row] |}.
Definition with_app (s : System) (st : AppState) : System := {| app := st; tasks := tasks s |}.

Section viewer.
Context `{UuidText, JsonText}.
Variable time_json : Z -> json.

(** The server after the operations that ran during an await. *)
Definition waited (s : System) (t : Turn) : System := default s (run time_json s (t_meanwhile t)).
Definition capability_denial (s : System) (t : Turn) (agent : Uuid) (capability : string) (cache : CapabilityCache)
    : System * CapabilityCache * option CommandDenied :=
  match conn_of (agents (app s)) agent with
  | None => (s, cache, None)
  | Some connection =>
      let key := (agent, connection, capability) in
      let cache := if (CACHE_LIMIT <=? size cache)%nat then ∅ else cache in
      let cache : CapabilityCache := filter (fun kv => kv.1.1.1 <> agent \/ kv.1.1.2 = connection) cache in
      let '(s, cache, status) :=
        match cache !! key with
        | Some status => (s, cache, status)
        | None => match t_info t with
                  | Some info => let status := capability_status info capability in (waited s t, <[key := status]> cache, status)
                  | None => (waited s t, cache, None)
                  end
        end in
      if negb (bool_decide (conn_of (agents (app s)) agent = Some connection)) then (s, cache, Some (denied "agent_offline" None))
      else (s, cache, if is_some_and status capability_is_unavailable then Some (denied "capability_unavailable" None) else None)
  end.

(** ** Messages: [viewer_message] *)

Definition MAX_VIEWER_TEXT_BYTES : Z := 64 * 1024.
Definition MAX_VIEWER_WRITEFILE_MSG_BYTES : Z := 8 * 1024 * 1024.
Definition longer (max : Z) (text : list Z) : bool := max <? Z.of_nat (length text).
Definition lease_kind (kind : string) : bool := existsb (String.eqb kind) ["control_acquire"; "control_heartbeat"; "control_release"]%string.
Definition audit_control (s : System) (user : AuthUser) (agent : Uuid) (action : string) (rejected : bool) (now : Instant) : System :=
  with_app s (with_control (app s) (audit_control_event (control (app s)) user agent action rejected now).1).
Definition lease_denied (agent request : Uuid) (d : CommandDenied) : json :=
  mk_obj [("event", JStr "control_lease"); ("agent_id", uuid_json agent); ("request_id", uuid_json request); ("status", JStr "denied");
          ("expires_in_ms", JInt 0); ("code", JStr (code d))]%string.
Definition command_rejected (agent : Uuid) (kind : string) (d : CommandDenied) : list (string * json) :=
  [("event", JStr "command_rejected"); ("agent_id", uuid_json agent); ("cmd_type", JStr kind); ("code", JStr (code d))]%string.

(** The lease branch. *)
Definition lease_message (s : System) (v : Viewer) (t : Turn) (value : json) : System * Viewer * option json :=
  let user := v_user v in
  let grant s cache :=
    let '(st, event) := control_lease_message (app s) (v_id v) user value (t_now t) (t_clock t) (t_audit t) (t_fresh t) in
    (with_app s st, with_cache v cache, Some event) in
  if is_operator user && negb (String.eqb (kind_of value) "control_release") then
    match uuid_field value "agent_id", uuid_field value "request_id" with
    | Some agent, Some request =>
        let '(s, cache, d) := capability_denial s t agent "remote_input" (v_cache v) in
        match d with
        | Some d => (audit_control s user agent "control_acquire" true (t_audit t), with_cache v cache, Some (lease_denied agent request d))
        | None => grant s cache
        end
    | _, _ => grant s (v_cache v)
    end
  else grant s (v_cache v).

(** A command that passed the shape and capability checks. *)
Definition forward (s : System) (v : Viewer) (t : Turn) (value : json) (agent : Uuid) (cmd : json) : System * Viewer * option json :=
  let user := v_user v in
  let kind := kind_of cmd in
  let '(st, sent) :=
    if is_remote_input kind then send_viewer_input (app s) agent (v_id v) user (uuid_field value "lease_token") cmd (t_now t)
    else match send_agent_command_json (agents (app s)) agent cmd with
         | Ok r => (with_agents (app s) r, Ok tt)
         | Err e => (app s, Err e)
         end in
  let event := match sent with
               | Ok _ => None
               | Err d => Some (mk_obj (command_rejected agent kind d ++ [("module"%string, opt_json module_to_json (denied_module d))]))
               end in
  let s := with_app s st in
  if is_remote_input kind then (audit_control s user agent "control_command" (negb (is_ok sent)) (t_audit t), v, event)
  else (s, note v {| ar_actor := u_username user; ar_agent := agent; ar_kind := kind; ar_status := if is_ok sent then "ok" else "rejected";
                     ar_window := if existsb (String.eqb kind) ["MouseMove"; "MouseScroll"]%string then 5 else 2 |}, event).

(** The command branch, once the sender is known to be an operator. *)
Definition command_message (s : System) (v : Viewer) (t : Turn) (value : json) (agent : Uuid) : System * Viewer * option json :=
  let cmd := idx value "cmd" in
  let kind := kind_of cmd in
  if negb (is_valid kind cmd) then
    (s, note v {| ar_actor := u_username (v_user v); ar_agent := agent; ar_kind := if String.eqb kind "" then "unknown" else kind;
                  ar_status := "rejected"; ar_window := 2 |}, None)
  else
    let '(s, v, d) := match command_capability kind with
                      | Some capability => let '(s, cache, d) := capability_denial s t agent capability (v_cache v) in (s, with_cache v cache, d)
                      | None => (s, v, None)
                      end in
    match d with
    | Some d => (audit_control s (v_user v) agent "control_command" true (t_audit t), v, Some (mk_obj (command_rejected agent kind d)))
    | None => if is_null cmd then (s, v, None) else forward s v t value agent cmd
    end.

Definition viewer_message (s : System) (v : Viewer) (t : Turn) (text : list Z) : System * Viewer * option json :=
  if longer MAX_VIEWER_WRITEFILE_MSG_BYTES text then (s, v, None)
  else
    match json_parse text with
    | None => (s, v, None)
    | Some value =>
        if lease_kind (kind_of value) then
          if longer MAX_VIEWER_TEXT_BYTES text then (s, v, None) else lease_message s v t value
        else if negb (is_operator (v_user v)) then (s, v, None)
        else if negb (String.eqb (kind_of value) "control") then (s, v, None)
        else if longer MAX_VIEWER_TEXT_BYTES text && negb (String.eqb (kind_of (idx value "cmd")) "WriteFileChunk") then (s, v, None)
        else match uuid_field value "agent_id" with
             | Some agent => command_message s v t value agent
             | None => (s, v, None)
             end
    end.

(** ** The socket: [run] and [refresh_viewer_session] *)

(** The account behind the session, looked up in [a]; [answered] is false when the query failed or
    took more than three seconds. *)
Definition refresh_viewer_session (s : System) (v : Viewer) (a : Accounts) (now : Z) (answered : bool) : System * Viewer * bool :=
  let found := if answered then v_hash v ≫= fun hash => dashboard_session_get_user a hash now else None in
  let found := ofilter (fun u => bool_decide (si_user u = u_user_id (v_user v))) found in
  let v := match found with
           | Some u => with_user v {| u_user_id := si_user u; u_username := si_name u; u_role := si_role u |}
           | None => v
           end in
  let valid := isSome found in
  let s := if negb valid || negb (is_operator (v_user v)) then with_app s (revoke_viewer_control (app s) (v_id v)) else s in
  (s, v, valid).

(** What wakes the socket's task; [ok]: whether what it sends to the browser is taken. [VServer] is
    the rest of the server. *)
Inductive ViewerEvent : Type :=
| VServer (op : Op)
| VTick (a : Accounts) (now : Z) (answered : bool)
| VBroadcast (r : Received) (ok : bool)
| VFrame (f : ViewerFrame) (t : Turn) (ok : bool).

Definition viewer_step (s : System) (v : Viewer) (e : ViewerEvent) : System * Viewer * bool :=
  match e with
  | VServer op => (default s (step time_json s op), v, true)
  | VTick a now answered => refresh_viewer_session s v a now answered
  | VBroadcast RClosed _ => (s, v, false)
  | VBroadcast (RLagged _) _ => (s, v, true)
  | VBroadcast (RGot (BText text)) ok => (s, if ok then say v text else v, ok)
  | VBroadcast (RGot (BPrivateText owner text)) ok =>
      if bool_decide (owner = v_id v) then (s, if ok then say v text else v, ok) else (s, v, true)
  | VFrame (FText text) t ok =>
      let '(s, v, reply) := viewer_message s v t text in
      match reply with
      | Some event => (s, if ok then say v event else v, ok)
      | None => (s, v, true)
      end
  | VFrame FClosed _ _ => (s, v, false)
  | VFrame FOther _ _ => (s, v, true)
  end.
(** The loop; when it ends, the viewer's control is revoked. *)
Fixpoint viewer_run (s : System) (v : Viewer) (es : list ViewerEvent) : System * Viewer * bool :=
  match es with
  | [] => (s, v, true)
  | e :: es =>
      let '(s, v, alive) := viewer_step s v e in
      if alive then viewer_run s v es else (with_app s (revoke_viewer_control (app s) (v_id v)), v, false)
  end.
End viewer.

(** ** Who gets a lease *)

Section leases.
Context `{UuidText, JsonText}.
Variable time_json : Z -> json.

(** A lease in [st'] was there with the same owner, or names a viewer accepted by [P]. *)
Definition leases_from (P : Uuid -> Prop) (st st' : AppState) : Prop :=
  forall a l', leases (sessions (control st')) !! a = Some l' ->
  (exists l, leases (sessions (control st)) !! a = Some l /\ owner (grant l) = owner (grant l')) \/ P (viewer_connection_id (owner (grant l'))).
Definition lease_asker (op : Op) : option Uuid :=
  match op with LeaseMessage viewer user _ _ _ _ _ => if is_operator user then Some viewer else None | _ => None end.

Lemma lease_step_from P st st' : lease_step st st' -> leases_from P st st'.
Proof. intros Hs a l Hl. left. by apply Hs. Qed.

Lemma message_leases st viewer user value now clock audit_now fresh :
  srv_ok st -> leases_from (fun v => is_operator user = true /\ v = viewer) st (control_lease_message st viewer user value now clock audit_now fresh).1.
Proof.
  intros Hok. unfold control_lease_message. destruct (uuid_field value "agent_id") as [agent|]; [|apply lease_step_from, lease_step_refl].
  destruct (uuid_field value "request_id") as [req|]; [|apply lease_step_from, lease_step_refl]. cbv zeta.
  assert (leases_from (fun v => is_operator user = true /\ v = viewer) st (control_lease_op st agent viewer user value now clock fresh).1) as Hop.
  { destruct (decide (kind_of value = "control_acquire"%string)) as [Hk|Hk]; [|apply lease_step_from; by apply lease_op_quiet].
    destruct (lease_op_acquire st agent viewer user value now clock fresh Hk) as [(e & ->)|(o & c & Ho & _ & ->)]; [apply lease_step_from, lease_step_refl|].
    assert (is_operator user = true) as Hu. { unfold current_control_owner in Ho. by destruct (is_operator user). }
    apply owner_conn in Ho as (_ & Hv & _).
    assert (lease_step st (acquire_state st agent now)) as Hx.
    { pose proof (commit_quiet st _ _ Hok (settles_expire_agent (sessions (control st)) agent now)) as [_ Hq]. by rewrite <- surjective_pairing in Hq. }
    assert (forall x fr, sessions (control (commit_control_capture x agent fr)) = sessions (control x)) as Hsame by (intros x fr; by rewrite commit_control_control).
    intros b l' Hl'. destruct (acquire_cases st agent o value now clock fresh Hok) as [e|l f fr|fr g Hn Hf Hval ->].
    - left. by apply Hx.
    - rewrite Hsame in Hl'. left. by apply Hx.
    - unfold bind_lease in Hl'. simpl in Hl'. rewrite Hsame in Hl'. apply lookup_insert_Some in Hl' as [[<- <-]|[_ Hl']]; [by right|left; by apply Hx]. }
  destruct (control_lease_op _ _ _ _ _ _ _ _) as [st1 res]. cbn [fst] in *. case_match; [|done].
  intros a l. simpl. rewrite (proj1 (audit_event_keeps _ _ _ _ _ _)). apply Hop.
Qed.

(** Only an operator's lease message gives its own viewer a lease. *)
Lemma lease_origin s op :
  sys_ok s -> enabled_op (tasks s) op = true -> leases_from (fun v => lease_asker op = Some v) (app s) (apply_op time_json (app s) op).
Proof.
  intros Hs Hen. pose proof (so_srv _ Hs) as Hok. destruct (is_gentle op) eqn:Hg; [by apply lease_step_from, apply_gentle|].
  destruct op; try done; cbn [apply_op lease_asker].
  - apply lease_step_from. destruct session as [se|]; [|apply lease_step_refl]. rewrite register_eq. by apply (vacated_quiet (app s) agent).
  - unfold cleanup_connection. cbv zeta. fold (vacate (app s) agent conn). apply lease_step_from.
    destruct (vacate_quiet (app s) agent conn Hok) as [_ Hl]. by case_bool_decide.
  - unfold invalidate_agent_connection. cbv zeta. apply lease_step_from.
    change (match connections (agents (app s)) !! agent with Some c => _ | None => app s end) with (vacated_state (app s) agent).
    destruct (vacated_quiet (app s) agent Hok) as [_ Hl]. by destruct (connections (agents (app s)) !! agent).
  - apply lease_step_from. destruct (report_cases time_json (app s) agent conn value pending at_) as [e|r rt revoke screen]; [apply lease_step_refl|].
    by destruct (before_publish_quiet (app s) agent conn revoke screen Hok).
  - apply lease_step_from. destruct (ack_cases (app s) agent conn value request Hok) as [res|r rt revoke screen ev]; [apply lease_step_refl|].
    by destruct (before_publish_quiet (app s) agent conn revoke screen Hok).
  - intros a l Hl. destruct (message_leases (app s) viewer user value now clock audit_now fresh Hok a l Hl) as [?|[Hu ->]]; [by left|right]. by rewrite Hu.
  - apply lease_step_from. by apply input_quiet_or.
Qed.

(** ** A viewer's socket issues operations of the server *)

(** What the socket of a signed-in viewer may ask of the server. *)
Inductive issued (id : Uuid) (user : AuthUser) : Op -> Prop :=
| IssuedLease value now clock audit_now fresh :
    lease_kind (kind_of value) = true -> issued id user (LeaseMessage id user value now clock audit_now fresh)
| IssuedInput agent token cmd now :
    is_operator user = true -> is_valid (kind_of cmd) cmd = true -> is_remote_input (kind_of cmd) = true -> issued id user (Input agent id user token cmd now)
| IssuedCommand agent cmd :
    is_operator user = true -> is_valid (kind_of cmd) cmd = true -> is_remote_input (kind_of cmd) = false -> issued id user (Send agent cmd)
| IssuedAudit agent action rejected now : is_operator user = true -> issued id user (AuditCommand user agent action rejected now)
| IssuedRevoke : issued id user (RevokeViewer id).

(** [s'] is [s] after operations that all satisfy [P]. *)
Definition reaches (P : Op -> Prop) (s s' : System) : Prop := exists ops, run time_json s ops = Some s' /\ Forall P ops.

Lemma run_app s ops1 ops2 s1 s2 : run time_json s ops1 = Some s1 -> run time_json s1 ops2 = Some s2 -> run time_json s (ops1 ++ ops2) = Some s2.
Proof. unfold run. intros E1 E2. by rewrite foldl_app, E1. Qed.
Lemma reaches_refl P s : reaches P s s.
Proof. by exists []. Qed.
Lemma reaches_trans P s1 s2 s3 : reaches P s1 s2 -> reaches P s2 s3 -> reaches P s1 s3.
Proof.
  intros (o1 & R1 & F1) (o2 & R2 & F2). exists (o1 ++ o2). split; [by eapply run_app|]. by apply Forall_app.
Qed.
Lemma reaches_mono P Q s s' : (forall op, P op -> Q op) -> reaches P s s' -> reaches Q s s'.
Proof. intros PQ (ops & R & F). exists ops. split; [done|]. by eapply Forall_impl. Qed.
Lemma reaches_reachable P s s' : reaches P s s' -> reachable time_json s -> reachable time_json s'.
Proof. intros (ops & R & _) Hr. by eapply run_reachable. Qed.
(** An operation that is always possible and leaves the tasks alone. *)
Lemma reaches_one (P : Op -> Prop) s op st :
  P op -> enabled_op (tasks s) op = true -> next_tasks (tasks s) op = tasks s -> st = apply_op time_json (app s) op -> reaches P s (with_app s st).
Proof. intros Hp He Hn ->. exists [op]. split; [|by constructor]. unfold run, step. simpl. by rewrite He, Hn. Qed.
Lemma reaches_waited (P : Op -> Prop) s t : Forall P (t_meanwhile t) -> reaches P s (waited time_json s t).
Proof. intros F. unfold waited. destruct (run time_json s (t_meanwhile t)) as [s'|] eqn:R; [by exists (t_meanwhile t)|apply reaches_refl]. Qed.

Definition may (v : Viewer) (t : Turn) (op : Op) : Prop := issued (v_id v) (v_user v) op \/ op ∈ t_meanwhile t.

Lemma may_wait v t s : reaches (may v t) s (waited time_json s t).
Proof. apply reaches_waited, Forall_forall. by right. Qed.

Lemma denial_reaches v t s agent capability cache : reaches (may v t) s (capability_denial time_json s t agent capability cache).1.1.
Proof.
  unfold capability_denial. destruct (conn_of (agents (app s)) agent) as [c|]; [|apply reaches_refl]. cbv zeta.
  destruct (_ !! _) as [status|]; [|destruct (t_info t) as [info|]]; case_match; cbn [fst]; (apply reaches_refl || apply may_wait).
Qed.
Lemma audit_reaches v t s agent action rejected now :
  is_operator (v_user v) = true -> reaches (may v t) s (audit_control s (v_user v) agent action rejected now).
Proof.
  intros Hu. apply (reaches_one _ s (AuditCommand (v_user v) agent action rejected now)); [|done..]. left. by constructor.
Qed.
Lemma lease_reaches v t s value : lease_kind (kind_of value) = true -> reaches (may v t) s (lease_message time_json s v t value).1.1.
Proof.
  intros Hk. unfold lease_message. cbv zeta.
  assert (forall x, reaches (may v t) s x -> forall cache,
    reaches (may v t) s (let '(st, event) := control_lease_message (app x) (v_id v) (v_user v) value (t_now t) (t_clock t) (t_audit t) (t_fresh t) in
                         (with_app x st, with_cache v cache, Some event)).1.1) as Hgrant.
  { intros x Hx cache. eapply reaches_trans; [exact Hx|]. destruct (control_lease_message _ _ _ _ _ _ _ _) as [st event] eqn:E. cbn [fst].
    eapply (reaches_one _ x (LeaseMessage (v_id v) (v_user v) value (t_now t) (t_clock t) (t_audit t) (t_fresh t))); [left; by constructor|done|done|].
    cbn [apply_op]. by rewrite E. }
  destruct (is_operator (v_user v)) eqn:Hu; [|apply Hgrant, reaches_refl]. destruct (String.eqb _ _); [apply Hgrant, reaches_refl|]. cbn [andb negb].
  destruct (uuid_field value "agent_id") as [agent|]; [|apply Hgrant, reaches_refl]. destruct (uuid_field value "request_id") as [req|]; [|apply Hgrant, reaches_refl].
  pose proof (denial_reaches v t s agent "remote_input" (v_cache v)) as Hd. destruct (capability_denial _ _ _ _ _ _) as [[s1 cache] [d|]]; cbn [fst] in *; [|by apply Hgrant].
  eapply reaches_trans; [exact Hd|]. by apply audit_reaches.
Qed.
Lemma forward_reaches v t s value agent cmd :
  is_operator (v_user v) = true -> is_valid (kind_of cmd) cmd = true -> reaches (may v t) s (forward s v t value agent cmd).1.1.
Proof.
  intros Hu Hv. unfold forward. cbv zeta. destruct (is_remote_input (kind_of cmd)) eqn:Hk.
  - destruct (send_viewer_input _ _ _ _ _ _ _) as [st sent] eqn:E. cbn [fst]. eapply reaches_trans; [|by apply audit_reaches].
    eapply (reaches_one _ s (Input agent (v_id v) (v_user v) (uuid_field value "lease_token") cmd (t_now t))); [left; by constructor|done|done|].
    cbn [apply_op]. by rewrite E.
  - assert (reaches (may v t) s (with_app s (apply_op time_json (app s) (Send agent cmd)))) as Hs.
    { eapply reaches_one; [left; by apply IssuedCommand|done..]. }
    cbn [apply_op] in Hs. by destruct (send_agent_command_json _ _ _).
Qed.
Lemma command_reaches v t s value agent :
  is_operator (v_user v) = true -> reaches (may v t) s (command_message time_json s v t value agent).1.1.
Proof.
  intros Hu. unfold command_message. cbv zeta. destruct (is_valid _ _) eqn:Hv; [|apply reaches_refl]. cbn [negb].
  destruct (command_capability _) as [capability|].
  - pose proof (denial_reaches v t s agent capability (v_cache v)) as Hd. destruct (capability_denial _ _ _ _ _ _) as [[s1 cache] [d|]]; cbn [fst] in *.
    + eapply reaches_trans; [exact Hd|]. by apply (audit_reaches v).
    + destruct (is_null _); [done|]. eapply reaches_trans; [exact Hd|]. by apply (forward_reaches (with_cache v cache)).
  - destruct (is_null _); [apply reaches_refl|]. by apply forward_reaches.
Qed.
Lemma message_reaches v t s text : reaches (may v t) s (viewer_message time_json s v t text).1.1.
Proof.
  unfold viewer_message. destruct (longer _ text); [apply reaches_refl|]. destruct (json_parse text) as [value|]; [|apply reaches_refl].
  destruct (lease_kind _) eqn:Hk; [destruct (longer _ text); [apply reaches_refl|by apply lease_reaches]|].
  destruct (is_operator (v_user v)) eqn:Hu; [|apply reaches_refl]. cbn [negb]. destruct (negb _); [apply reaches_refl|]. destruct (_ && _); [apply reaches_refl|].
  destruct (uuid_field value "agent_id"); [by apply command_reaches|apply reaches_refl].
Qed.

(** ** Runs of a socket *)

Definition holds_nothing (id : Uuid) (s : System) : Prop :=
  forall a l, leases (sessions (control (app s))) !! a = Some l -> viewer_connection_id (owner (grant l)) <> id.
(** What the rest of the server does while the socket runs. *)
Definition elsewhere (e : ViewerEvent) : list Op :=
  match e with VServer op => [op] | VFrame _ t _ => t_meanwhile t | _ => [] end.
(** Whom the socket acts for after an event, for a browser with the session [hash]: a check that was
    answered in time and found the session's row live, of the same account, and the account still there
    takes the name and role the account has then; nothing else changes them. *)
Definition checked_user (hash : option string) (user : AuthUser) (e : ViewerEvent) : AuthUser :=
  match e, hash with
  | VTick a now true, Some h =>
      match Accounts.sessions a !! h with
      | Some row =>
          match Accounts.users a !! se_user row with
          | Some account =>
              if (now <? se_expires row) && bool_decide (se_user row = u_user_id user)
              then {| u_user_id := se_user row; u_username := us_name account; u_role := us_role account |} else user
          | None => user
          end
      | None => user
      end
  | _, _ => user
  end.

Lemma revoke_viewer_gone s id : holds_nothing id (with_app s (revoke_viewer_control (app s) id)).
Proof.
  intros a l. cbn [with_app app]. unfold revoke_viewer_control. rewrite (proj1 (proj2 (proj2 (commit_sessions_keeps _ _)))). unfold revoke_viewer.
  rewrite remove_if_lookup. intros [_ Hx]%ofilter_Some. by bool_prop.
Qed.
Lemma refresh_spec s v a now answered s' v' alive :
  refresh_viewer_session s v a now answered = (s', v', alive) ->
  v_id v' = v_id v /\ v_hash v' = v_hash v /\ (s' = s \/ s' = with_app s (revoke_viewer_control (app s) (v_id v)))
  /\ (alive = false \/ is_operator (v_user v') = false -> s' = with_app s (revoke_viewer_control (app s) (v_id v)))
  /\ (if alive then exists hash u, answered = true /\ v_hash v = Some hash /\ dashboard_session_get_user a hash now = Some u
        /\ si_user u = u_user_id (v_user v) /\ v_user v' = {| u_user_id := si_user u; u_username := si_name u; u_role := si_role u |}
      else v_user v' = v_user v).
Proof.
  unfold refresh_viewer_session. cbv zeta. destruct (ofilter _ _) as [u|] eqn:F; intros [= <- <- <-]; cbn [isSome negb orb].
  - apply ofilter_Some in F as [F Hid]. bool_prop. destruct answered; [|done]. destruct (v_hash v) as [hash|] eqn:Hh; [|done]. simpl in F. cbn [v_id with_user v_user v_hash].
    split_and!; [done|done| | |].
    + destruct (is_operator _); [by left|by right].
    + intros [?|Hu]; [done|]. by rewrite Hu.
    + by exists hash, u.
  - split_and!; try done. by right.
Qed.
Lemma refresh_user s v a now answered :
  v_user (refresh_viewer_session s v a now answered).1.2 = checked_user (v_hash v) (v_user v) (VTick a now answered).
Proof.
  unfold refresh_viewer_session, checked_user. cbv zeta. cbn [fst snd]. destruct answered; [|done]. destruct (v_hash v) as [hash|]; [|done].
  cbn [mbind option_bind]. unfold dashboard_session_get_user. destruct (Accounts.sessions a !! hash) as [row|]; [|done]. cbn [mbind option_bind].
  destruct (Accounts.users a !! se_user row) as [account|]; destruct (now <? se_expires row); try done. cbn. unfold ofilter. cbn.
  by destruct (bool_decide _).
Qed.
Lemma message_same s v t text :
  let v' := (viewer_message time_json s v t text).1.2 in v_id v' = v_id v /\ v_user v' = v_user v /\ v_hash v' = v_hash v.
Proof.
  cbv zeta. unfold viewer_message, lease_message, command_message, forward. cbv zeta.
  repeat (case_match; try done); simplify_eq; done.
Qed.
Lemma step_spec s v e s' v' alive :
  viewer_step time_json s v e = (s', v', alive) ->
  v_id v' = v_id v /\ v_hash v' = v_hash v /\ v_user v' = checked_user (v_hash v) (v_user v) e
  /\ reaches (fun op => issued (v_id v) (v_user v') op \/ op ∈ elsewhere e) s s'.
Proof.
  intros Hst. destruct e as [op|a now answered|r ok|f t ok]; cbn [viewer_step elsewhere] in *.
  - injection Hst as <- <- <-. split_and!; try done. destruct (step time_json s op) as [s'|] eqn:E; [|apply reaches_refl]. exists [op].
    split; [done|]. constructor; [right; by apply list_elem_of_singleton|done].
  - pose proof (refresh_user s v a now answered) as Hu. rewrite Hst in Hu. apply refresh_spec in Hst as (Hid & Hh & Hs & _ & _). split_and!; [done|done|exact Hu|].
    destruct Hs as [->| ->]; [apply reaches_refl|]. apply (reaches_one _ s (RevokeViewer (v_id v))); [left; by constructor|done..].
  - assert (s' = s /\ v_id v' = v_id v /\ v_hash v' = v_hash v /\ v_user v' = v_user v) as (-> & E1 & E2 & E3).
    { destruct r as [[text|owner text]| |n]; [destruct ok| case_bool_decide; [destruct ok|]| |]; by simplify_eq. }
    rewrite E1, E2, E3. split_and!; try done. apply reaches_refl.
  - assert ((s', v_id v', v_hash v', v_user v') = match f with FText text => ((viewer_message time_json s v t text).1.1, v_id v, v_hash v, v_user v)
              | _ => (s, v_id v, v_hash v, v_user v) end) as E.
    { destruct f as [text| |]; [|by simplify_eq..]. pose proof (message_same s v t text) as (Q1 & Q2 & Q3).
      destruct (viewer_message _ _ _ _ _) as [[s1 v1] reply]. cbn [fst snd] in *. destruct reply as [ev|]; [destruct ok|]; simplify_eq; cbn [v_id v_hash v_user say]; congruence. }
    assert (v_id v' = v_id v /\ v_hash v' = v_hash v /\ v_user v' = v_user v) as (E1 & E2 & E3) by (destruct f; by simplify_eq).
    rewrite E1, E2, E3. split_and!; try done. destruct f as [text| |]; [|injection E as -> _ _ _; apply reaches_refl..].
    injection E as -> _ _ _. apply message_reaches.
Qed.
(** The operations of each event the socket handled, in their order. *)
Definition turns_of (id : Uuid) (hash : option string) (user : AuthUser) (es : list ViewerEvent) (turns : list (list Op)) : Prop :=
  forall i ops op, turns !! i = Some ops -> op ∈ ops ->
    exists e, es !! i = Some e /\ (op ∈ elsewhere e \/ issued id (foldl (checked_user hash) user (take (S i) es)) op).
Lemma turns_of_cons id hash user e es ops turns :
  Forall (fun op => issued id (checked_user hash user e) op \/ op ∈ elsewhere e) ops -> turns_of id hash (checked_user hash user e) es turns ->
  turns_of id hash user (e :: es) (ops :: turns).
Proof.
  intros F T [|i] l op; [intros [= ->] I|intros L I; exact (T i l op L I)]. exists e. split; [done|]. rewrite Forall_forall in F.
  destruct (F op I); [by right|by left].
Qed.
Lemma turns_of_nil id hash user es : turns_of id hash user es [].
Proof. intros i ops op L. done. Qed.
Lemma checked_user_id hash user e : u_user_id (checked_user hash user e) = u_user_id user.
Proof. unfold checked_user. by repeat (case_match; try done); bool_prop. Qed.
Lemma checked_users_id hash user es : u_user_id (foldl (checked_user hash) user es) = u_user_id user.
Proof. revert user. induction es as [|e es IH]; intros user; [done|]. cbn [foldl]. by rewrite IH, checked_user_id. Qed.
(** What a check found that keeps the socket open. *)
Definition check_found (v : Viewer) (a : Accounts) (now : Z) (answered : bool) : Prop :=
  answered = true /\ exists hash row account, v_hash v = Some hash /\ Accounts.sessions a !! hash = Some row /\ now < se_expires row
    /\ se_user row = u_user_id (v_user v) /\ Accounts.users a !! se_user row = Some account.
Lemma tick_found s v a now answered s' v' : viewer_step time_json s v (VTick a now answered) = (s', v', true) -> check_found v a now answered.
Proof.
  intros Hst. cbn [viewer_step] in Hst. apply refresh_spec in Hst as (_ & _ & _ & _ & hash & u & Ha & Hh & Hf & Hid & _). split; [done|].
  unfold dashboard_session_get_user in Hf. destruct (Accounts.sessions a !! hash) as [row|] eqn:Hrow; [|done]. cbn in Hf.
  destruct (now <? se_expires row) eqn:Hn; [|done]. destruct (Accounts.users a !! se_user row) as [account|] eqn:Hacc; [|done]. cbn in Hf. injection Hf as <-. cbn in *.
  exists hash, row, account. split_and!; try done. lia.
Qed.
Lemma viewer_run_turns s v es s' v' alive :
  viewer_run time_json s v es = (s', v', alive) ->
  exists turns, run time_json s (concat turns) = Some s' /\ turns_of (v_id v) (v_hash v) (v_user v) es turns
    /\ (length turns <= length es)%nat /\ (alive = true -> length turns = length es)
    /\ v_id v' = v_id v /\ v_user v' = foldl (checked_user (v_hash v)) (v_user v) (take (length turns) es)
    /\ forall i a now answered, alive = true \/ (S i < length turns)%nat -> es !! i = Some (VTick a now answered) -> check_found v a now answered.
Proof.
  revert s v. induction es as [|e es IH]; intros s v Hrun; cbn [viewer_run] in Hrun.
  { simplify_eq. exists []. split_and!; done. }
  destruct (viewer_step time_json s v e) as [[s1 v1] go] eqn:Hst. destruct (step_spec _ _ _ _ _ _ Hst) as (Hid & Hh & Hu & ops & R & F). destruct go.
  - destruct (IH _ _ Hrun) as (turns & Rt & T & L & A & I & U & C). rewrite Hid, Hh, Hu in T. rewrite Hid in I. rewrite Hh, Hu in U. exists (ops :: turns). split_and!; try done.
    + cbn [concat]. by eapply run_app.
    + apply turns_of_cons; [by rewrite <-Hu|exact T].
    + cbn [length]. lia.
    + intros E. cbn [length]. by rewrite A.
    + intros [|i] a now answered D E; [injection E as ->; by eapply tick_found|].
      assert (alive = true \/ (S i < length turns)%nat) as D' by (cbn [length] in D; destruct D; [by left|right; lia]).
      pose proof (C i a now answered D' E) as G. unfold check_found in *. rewrite Hh, Hu, checked_user_id in G. exact G.
  - simplify_eq. exists [ops ++ [RevokeViewer (v_id v')]]. split_and!; try done.
    + cbn [concat]. rewrite app_nil_r. eapply run_app; [exact R|]. reflexivity.
    + apply turns_of_cons; [|apply turns_of_nil]. apply Forall_app. split; [by rewrite <-Hu|]. apply Forall_singleton. left. rewrite Hid. constructor.
    + cbn [length]. lia.
    + intros i a now answered [D|D]; [done|]. cbn [length] in D. lia.
Qed.

(** C26: a dashboard socket acts on the server only through the server's own operations: whatever
    messages, broadcasts and session checks it handles, in any order with everything else the
    server does, the state it leaves is one the server reaches by its operations, a list of them for each
    event the socket handled. Those the socket adds carry its own viewer id and the account it signed in
    with, under the name and role that the last answered session check before them, or the event itself
    when it is one, found for the live session of that account (a check that finds none ends the socket);
    commands, input and audit rows are added only when that role is an operator's, the first two only in
    their checked shape. So every property of reachable states holds with dashboards attached. *)
Theorem viewer_run_refines_server s v es s' v' alive :
  viewer_run time_json s v es = (s', v', alive) ->
  exists turns, run time_json s (concat turns) = Some s' /\ (length turns <= length es)%nat /\ (alive = true -> length turns = length es)
  /\ (forall i ops op, turns !! i = Some ops -> op ∈ ops ->
        exists e, es !! i = Some e /\ (op ∈ elsewhere e \/ issued (v_id v) (foldl (checked_user (v_hash v)) (v_user v) (take (S i) es)) op))
  /\ v_id v' = v_id v /\ v_user v' = foldl (checked_user (v_hash v)) (v_user v) (take (length turns) es)
  /\ u_user_id (v_user v') = u_user_id (v_user v)
  /\ forall i a now answered, alive = true \/ (S i < length turns)%nat -> es !! i = Some (VTick a now answered) ->
       answered = true /\ exists hash row account, v_hash v = Some hash /\ Accounts.sessions a !! hash = Some row /\ now < se_expires row
         /\ se_user row = u_user_id (v_user v) /\ Accounts.users a !! se_user row = Some account.
Proof.
  intros Hrun. destruct (viewer_run_turns s v es s' v' alive Hrun) as (turns & R & T & L & A & I & U & C). exists turns. split_and!; try done.
  rewrite U. apply checked_users_id.

Qed.

Lemma reaches_leases (P : Op -> Prop) s s' :
  sys_ok s -> reaches P s s' -> leases_from (fun v => exists op, P op /\ lease_asker op = Some v) (app s) (app s').
Proof.
  intros Hs (ops & R & F). revert s Hs R. induction F as [|op ops Hp _ IH]; intros s Hs R.
  - unfold run in R. simpl in R. simplify_eq. apply lease_step_from, lease_step_refl.
  - unfold run in R. cbn [foldl mbind option_bind] in R. destruct (step time_json s op) as [s1|] eqn:Hst; [|by rewrite run_None in R].
    pose proof (step_ok _ _ _ _ Hs Hst) as Hs1. intros a l' Hl'. destruct (IH s1 Hs1 R a l' Hl') as [(l & Hl & E)|?]; [|by right].
    unfold step in Hst. destruct (enabled_op _ _) eqn:Hen; [|done]. injection Hst as <-. cbn [app] in Hl. rewrite <- E.
    destruct (lease_origin s op Hs Hen a l Hl) as [?|?]; [by left|right; by exists op].
Qed.
Lemma issued_asker id user op : issued id user op -> forall w, lease_asker op = Some w -> w = id /\ is_operator user = true.
Proof. intros [] w; cbn [lease_asker]; try done. destruct (is_operator user); [|done]. by intros [= <-]. Qed.

(** The socket holds leases only as an operator. *)
Lemma step_holds s v e s' v' alive :
  sys_ok s -> viewer_step time_json s v e = (s', v', alive) -> Forall (fun op => lease_asker op <> Some (v_id v)) (elsewhere e) ->
  (is_operator (v_user v) = false -> holds_nothing (v_id v) s) -> is_operator (v_user v') = false -> holds_nothing (v_id v) s'.
Proof.
  intros Hs Hst Hel Hh Hu. pose proof (step_spec s v e s' v' alive Hst) as (_ & _ & _ & Hr).
  assert (is_operator (v_user v) = false -> holds_nothing (v_id v) s') as Hkeep.
  { intros Ho a l Hl Hv. destruct (reaches_leases _ _ _ Hs Hr a l Hl) as [(l0 & Hl0 & E)|(op & [Hop|Hop] & Ha)].
    - apply (Hh Ho a l0 Hl0). by rewrite E.
    - apply (issued_asker _ _ _ Hop) in Ha as [_ ?]. congruence.
    - rewrite Forall_forall in Hel. apply (Hel op Hop). congruence. }
  destruct (is_operator (v_user v)) eqn:Ho; [|by apply Hkeep]. destruct e as [op|a now answered|r ok|f t ok].
  - cbn in Hst. simplify_eq. congruence.
  - apply refresh_spec in Hst as (Hid & _ & _ & Hs' & _). rewrite Hs' by (by right). apply revoke_viewer_gone.
  - exfalso. assert (v_user v' = v_user v) as E; [|congruence]. cbn in Hst. destruct r as [[text|owner text]| |n]; [destruct ok|case_bool_decide; [destruct ok|]| |]; by simplify_eq.
  - exfalso. assert (v_user v' = v_user v) as E; [|congruence]. cbn in Hst. destruct f as [text| |]; [|by simplify_eq..].
    pose proof (message_same s v t text) as (_ & Q2 & _). destruct (viewer_message _ _ _ _ _) as [[s1 v1] reply]. cbn [fst snd] in Q2.
    destruct reply as [ev|]; [destruct ok|]; by simplify_eq.
Qed.

(** Control follows the session: from a socket that starts without a lease, on a server whose
    other work never asks for one in this viewer's name, the viewer holds a lease only while its socket is
    open and its last session check found an operator; when the socket closes for any reason, when
    its session was deleted, expired or could not be checked, or when its account lost the operator
    role, no lease of any device names it. *)
Theorem viewer_control_follows_session s v es s' v' alive :
  reachable time_json s -> holds_nothing (v_id v) s ->
  Forall (fun op => lease_asker op <> Some (v_id v)) (es ≫= elsewhere) ->
  viewer_run time_json s v es = (s', v', alive) ->
  alive = false \/ is_operator (v_user v') = false -> holds_nothing (v_id v) s'.
Proof.
  intros Hr Hh Hel Hrun. assert (is_operator (v_user v) = false -> holds_nothing (v_id v) s) as Hh1 by done. clear Hh. revert s v Hr Hh1 Hel Hrun.
  induction es as [|e es IH]; intros s v Hr Hh Hel Hrun Hend; cbn [viewer_run] in Hrun.
  - simplify_eq. destruct Hend as [?|?]; [done|auto].
  - simpl in Hel. apply Forall_app in Hel as [He Hes].
    destruct (viewer_step time_json s v e) as [[s1 v1] go] eqn:Hst. pose proof (step_spec _ _ _ _ _ _ Hst) as (Hid & _ & _ & (ops & Hops & _)).
    destruct go; [|simplify_eq; rewrite <- Hid; apply revoke_viewer_gone].
    rewrite <- Hid. eapply (IH s1 v1); [by eapply run_reachable| |by rewrite Hid|done|done].
    intros Hu. rewrite Hid. eapply step_holds; [by apply (reachable_ok time_json)|done..].
Qed.

(** ** What a message queues *)

(** No command is queued, only releases. *)
Definition no_text (ch : Uuid) (m : AgentControl) : Prop := match m with CText _ => False | _ => True end.

Lemma queue_cleanup_texts r ch conn commands : sock_step no_text r (queue_cleanup r ch conn commands).1.
Proof.
  revert r. induction commands as [|c commands IH]; intros r; [apply sock_step_refl|]. cbn [queue_cleanup].
  destruct (ch ≫= _) as [r'|] eqn:E; [|by apply send_shutdown_quiet]. apply bind_Some in E as (x & _ & E).
  eapply sock_step_trans; [|apply IH]. by apply (try_send_quiet no_text) in E as [_ _ ?].
Qed.
Lemma commit_texts st t : sock_step no_text (agents st) (agents (commit_sessions st t).1).
Proof.
  unfold commit_sessions. change (agents st) with (agents (with_control st (with_sessions (control st) t.1))).
  generalize (with_control st (with_sessions (control st) t.1)). clear st. intros st. generalize t.2. clear t. intros bs. revert st.
  induction bs as [|b bs IH]; intros st; [apply sock_step_refl|]. cbn [deliver_control_cleanup].
  assert (sock_step no_text (agents st) (agents (deliver_batch st b).1)) as Hb.
  { unfold deliver_batch. cbv zeta. cbn [agents with_control]. destruct (ofilter _ _) as [c|]; [|destruct (c_reason b); apply sock_step_refl].
    pose proof (queue_cleanup_texts (agents st) (cmds (agents st) !! c_agent_id b) (conn_id c) (c_commands b)) as Hq.
    destruct (queue_cleanup _ _ _ _) as [r ok]. by destruct (c_reason b). }
  destruct (deliver_batch st b) as [st1 ok1]. specialize (IH st1). destruct (deliver_control_cleanup st1 bs) as [st2 ok2]. by eapply sock_step_trans.
Qed.
Lemma lease_op_texts st agent viewer user value now clock fresh :
  sock_step no_text (agents st) (agents (control_lease_op st agent viewer user value now clock fresh).1).
Proof.
  unfold control_lease_op. destruct (current_control_owner _ _ _ _) as [o|]; [|apply sock_step_refl]. destruct (if String.eqb _ _ then _ else _); [|apply sock_step_refl].
  cbv zeta. destruct (String.eqb (kind_of value) "control_acquire").
  - unfold control_acquire. pose proof (commit_texts st (expire_agent (sessions (control st)) agent now)) as H1. destruct (commit_sessions st _) as [st1 safe]. cbn [fst] in *.
    destruct safe; [|done]. cbn [negb]. destruct (validate_control_capture _ _ _ _ _) as [fr|]; [|done]. destruct (is_some_and _ _); [done|].
    destruct (acquire _ _ _ _ _ _) as [se tr]. pose proof (commit_texts st1 (se, t_cleanup tr)) as H2. destruct (commit_sessions st1 _) as [st2 safe]. cbn [fst] in *.
    assert (sock_step no_text (agents st) (agents st2)) as H3 by (by eapply sock_step_trans). destruct safe; cbn [negb].
    + destruct (t_result tr) as [g|]; [|done]. cbv zeta. case_match; cbn [fst agents with_control]; by rewrite commit_control_agents.
    + eapply sock_step_trans; [exact H3|]. apply commit_texts.
  - destruct (uuid_field value "lease_token") as [tok|]; [|apply sock_step_refl]. destruct (String.eqb _ "control_heartbeat"); [|destruct (String.eqb _ "control_release"); [|apply sock_step_refl]].
    + destruct (heartbeat _ _ _ _ _ _) as [se tr]. pose proof (commit_texts st (se, t_cleanup tr)). by destruct (commit_sessions st _).
    + destruct (release _ _ _ _ _) as [se tr]. pose proof (commit_texts st (se, t_cleanup tr)). by destruct (commit_sessions st _).
Qed.
Lemma lease_message_texts st viewer user value now clock audit_now fresh :
  sock_step no_text (agents st) (agents (control_lease_message st viewer user value now clock audit_now fresh).1).
Proof.
  unfold control_lease_message. destruct (uuid_field value "agent_id") as [agent|]; [|apply sock_step_refl]. destruct (uuid_field value "request_id"); [|apply sock_step_refl].
  cbv zeta. pose proof (lease_op_texts st agent viewer user value now clock fresh) as Hx. destruct (control_lease_op _ _ _ _ _ _ _ _) as [st1 res]. by case_match.
Qed.
Lemma input_refused_texts st agent viewer user tok cmd now e :
  (send_viewer_input st agent viewer user tok cmd now).2 = Err e -> sock_step no_text (agents st) (agents (send_viewer_input st agent viewer user tok cmd now).1).
Proof.
  unfold send_viewer_input. destruct (current_control_owner _ _ _ _) as [o|]; [|intros _; apply sock_step_refl]. destruct tok as [tok|]; [|intros _; apply sock_step_refl].
  destruct (authorize_agent_command _ _ _) as [c|]; [|intros _; apply sock_step_refl]. destruct (authorize_and_track _ _ _ _ _ _) as [se tr].
  pose proof (commit_texts st (se, t_cleanup tr)) as H1. destruct (commit_sessions st _) as [st1 safe]. cbn [fst] in H1. destruct (t_result tr) as [[]|]; [|done].
  destruct (enqueue_authorized_command _ _ _ _) as [r|]; [done|]. intros _. cbn [fst]. eapply sock_step_trans; [exact H1|].
  destruct (ofilter _ _) as [x|]; [|apply commit_texts].
  eapply sock_step_trans; [|apply (commit_texts (with_agents st1 _))]. by apply send_shutdown_quiet.
Qed.

(** The status the check of a capability goes by: the cached one, unless the cache is full and
    about to be emptied, or else the stored information's. *)
Definition known_status (v : Viewer) (t : Turn) (agent conn : Uuid) (capability : string) : option string :=
  match (if (CACHE_LIMIT <=? size (v_cache v))%nat then None else v_cache v !! (agent, conn, capability)) with
  | Some status => status
  | None => t_info t ≫= fun info => capability_status info capability
  end.
(** The queue of connection [ch] may take [c] for the viewer's [cmd] to [agent]. *)
Record delivered_as (s : System) (v : Viewer) (t : Turn) (tok : option Uuid) (agent : Uuid) (cmd : json) (ch : Uuid) (c : json) : Prop := {
  da_conn : open_conn_id (agents (app s)) agent = Some ch;
  da_grant : authorize_agent_command (agents (app s)) agent cmd = Ok c;
  da_lease : is_remote_input (kind_of cmd) = true ->
    exists l, leases (sessions (control (app s))) !! agent = Some l /\ tok = Some (token (grant l)) /\ t_now t < expires_at (grant l)
    /\ owner (grant l) = {| viewer_connection_id := v_id v; user_id := u_user_id (v_user v); agent_connection_id := ch |}
}.
Definition texts (P : Uuid -> json -> Prop) (ch : Uuid) (m : AgentControl) : Prop := match m with CText c => P ch c | _ => True end.
Lemma no_text_texts P r r' : sock_step no_text r r' -> sock_step (texts P) r r'.
Proof. intros Hs ch s' m Hs' Hm. destruct (Hs ch s' m Hs' Hm) as [?|Hn]; [by left|right]. by destruct m. Qed.

Lemma enqueued_texts (P : Uuid -> json -> Prop) st agent conn c r :
  srv_ok st -> enqueue_authorized_command (agents st) agent conn c = Ok r -> (open_conn_id (agents st) agent = Some conn -> P conn c) -> sock_step (texts P) (agents st) r.
Proof.
  intros Hok (x & ch & Hx & Hid & Hcmd & Hsend)%enqueue_Ok HP. apply open_conn_Some in Hx as Hx'. destruct Hx' as [Hc _].
  destruct (sv_wired _ Hok _ _ Hc) as [Hw _]. assert (ch = conn) as -> by congruence.
  apply (try_send_quiet (texts P)) in Hsend as [_ _ Hm]; [done|]. apply HP. unfold open_conn_id. by rewrite Hx, <- Hid.
Qed.

Lemma forward_texts s v t value agent cmd :
  srv_ok (app s) -> sock_step (texts (delivered_as s v t (uuid_field value "lease_token") agent cmd)) (agents (app s)) (agents (app (forward s v t value agent cmd).1.1)).
Proof.
  intros Hok. unfold forward. cbv zeta. destruct (is_remote_input (kind_of cmd)) eqn:Hk.
  - pose proof (input_cases (app s) agent (v_id v) (v_user v) (uuid_field value "lease_token") cmd (t_now t) Hok) as Hc.
    pose proof (input_refused_texts (app s) agent (v_id v) (v_user v) (uuid_field value "lease_token") cmd (t_now t)) as He.
    destruct (send_viewer_input _ _ _ _ _ _ _) as [st res]. cbn [fst snd app with_app audit_control agents with_control] in *.
    destruct res as [[]|e]; [|apply no_text_texts; by eapply He]. inversion Hc as [|o tk l h c r Ho Htk Hl Hlo Hlt Hn Htr Hauth Henq|]; subst st. cbn [agents with_agents].
    apply owner_conn in Ho as (Hop & Hv & Hu & _). eapply enqueued_texts; [done|exact Henq|]. intros Hopen. split; [done..|]. intros _. exists l.
    split_and!; [done|congruence|done|]. destruct (owner (grant l)); destruct o; simpl in *. congruence.
  - destruct (send_agent_command_json (agents (app s)) agent cmd) as [r|e] eqn:Hs; cbn [fst app with_app agents with_agents]; [|apply sock_step_refl].
    unfold send_agent_command_json in Hs. apply rbind_Ok in Hs as (c & Hc & Hs). cbv zeta in Hs. destruct (existsb _ _); [done|]. destruct (_ || _); [done|].
    apply rbind_Ok in Hs as (conn & Hconn & Hs). eapply enqueued_texts; [done|exact Hs|]. intros Hopen. split; [done|done|congruence].
Qed.

(** A check that lets a command through: the device kept its connection, and nothing known of the
    capability on it rules it out. *)
Lemma denial_passed s v t agent capability s1 cache :
  capability_denial time_json s t agent capability (v_cache v) = (s1, cache, None) ->
  (s1 = s \/ s1 = waited time_json s t) /\ conn_of (agents (app s1)) agent = conn_of (agents (app s)) agent
  /\ forall conn, conn_of (agents (app s)) agent = Some conn -> is_some_and (known_status v t agent conn capability) capability_is_unavailable = false.
Proof.
  unfold capability_denial, known_status. destruct (conn_of (agents (app s)) agent) as [conn|] eqn:Hconn.
  2: { intros [= <- <-]. split_and!; [by left|done|done]. }
  cbv zeta. set (base := if (CACHE_LIMIT <=? size (v_cache v))%nat then ∅ else v_cache v).
  assert ((filter (fun kv : Uuid * Uuid * string * option string => kv.1.1.1 <> agent \/ kv.1.1.2 = conn) base : CapabilityCache) !! (agent, conn, capability)
          = base !! (agent, conn, capability)) as ->.
  { rewrite map_lookup_filter. destruct (base !! _); [|done]. simpl. by rewrite option_guard_True by (by right). }
  assert (base !! (agent, conn, capability) = if (CACHE_LIMIT <=? size (v_cache v))%nat then None else v_cache v !! (agent, conn, capability)) as Hb by (subst base; by destruct (_ <=? _)%nat).
  destruct (base !! _) as [status|]; [|destruct (t_info t) as [info|]]; case_bool_decide as Hc; cbn [negb]; try done; intros [= <- <-];
    (split_and!; [by (left + right)|done|]); intros c [= <-]; rewrite <- Hb; cbn [mbind option_bind].
  - destruct status as [x|]; [|done]. simpl in *. by destruct (capability_is_unavailable x).
  - destruct (capability_status info capability) as [x|]; [|done]. simpl in *. by destruct (capability_is_unavailable x).
  - done.
Qed.

Lemma waited_reachable s t : reachable time_json s -> reachable time_json (waited time_json s t).
Proof. intros Hr. unfold waited. destruct (run _ _ _) as [s'|] eqn:E; [by eapply run_reachable|done]. Qed.

Lemma denial_state s t agent capability cache :
  (capability_denial time_json s t agent capability cache).1.1 = s \/ (capability_denial time_json s t agent capability cache).1.1 = waited time_json s t.
Proof.
  unfold capability_denial. destruct (conn_of _ _); [|by left]. cbv zeta. destruct (_ !! _); [|destruct (t_info t)]; case_match; by (left + right).
Qed.
Lemma lease_texts s v t value :
  exists s1, (s1 = s \/ s1 = waited time_json s t) /\ sock_step no_text (agents (app s1)) (agents (app (lease_message time_json s v t value).1.1)).
Proof.
  unfold lease_message. cbv zeta.
  assert (forall x cache, sock_step no_text (agents (app x))
    (agents (app (let '(st, event) := control_lease_message (app x) (v_id v) (v_user v) value (t_now t) (t_clock t) (t_audit t) (t_fresh t) in
                  (with_app x st, with_cache v cache, Some event)).1.1))) as Hgrant.
  { intros x cache. pose proof (lease_message_texts (app x) (v_id v) (v_user v) value (t_now t) (t_clock t) (t_audit t) (t_fresh t)). by destruct (control_lease_message _ _ _ _ _ _ _ _). }
  destruct (_ && _); [|exists s; split; [by left|apply Hgrant]].
  destruct (uuid_field value "agent_id") as [agent|]; [|exists s; split; [by left|apply Hgrant]].
  destruct (uuid_field value "request_id") as [req|]; [|exists s; split; [by left|apply Hgrant]].
  pose proof (denial_state s t agent "remote_input" (v_cache v)) as Hx. destruct (capability_denial _ _ _ _ _ _) as [[s1 cache] [d|]]; exists s1; (split; [done|]); [apply sock_step_refl|apply Hgrant].
Qed.

(** What a queued command went through, on the server [s] at the moment it was queued. *)
Record checked (s : System) (v : Viewer) (t : Turn) (value : json) (agent ch : Uuid) (c : json) : Prop := {
  ck_operator : is_operator (v_user v) = true;
  ck_shape : is_valid (kind_of (idx value "cmd")) (idx value "cmd") = true;
  ck_capability : forall capability, command_capability (kind_of (idx value "cmd")) = Some capability ->
    is_some_and (known_status v t agent ch capability) capability_is_unavailable = false;
  ck_delivered : delivered_as s v t (uuid_field value "lease_token") agent (idx value "cmd") ch c
}.

Lemma command_texts s v t value agent :
  reachable time_json s -> is_operator (v_user v) = true ->
  exists s1, (s1 = s \/ s1 = waited time_json s t)
  /\ sock_step (texts (checked s1 v t value agent)) (agents (app s1)) (agents (app (command_message time_json s v t value agent).1.1)).
Proof.
  intros Hr Hu. unfold command_message. cbv zeta. set (cmd := idx value "cmd"). destruct (is_valid (kind_of cmd) cmd) eqn:Hv.
  2: { exists s. split; [by left|apply sock_step_refl]. }
  cbn [negb].
  assert (forall s1 v1, (s1 = s \/ s1 = waited time_json s t) -> v_id v1 = v_id v -> v_user v1 = v_user v -> conn_of (agents (app s1)) agent = conn_of (agents (app s)) agent ->
    (forall capability conn, command_capability (kind_of cmd) = Some capability -> conn_of (agents (app s)) agent = Some conn ->
       is_some_and (known_status v t agent conn capability) capability_is_unavailable = false) ->
    exists s2, (s2 = s \/ s2 = waited time_json s t)
    /\ sock_step (texts (checked s2 v t value agent)) (agents (app s2)) (agents (app (if is_null cmd then (s1, v1, None) else forward s1 v1 t value agent cmd).1.1))) as Hfwd.
  { intros s1 v1 Hs1 Ei Eu Hc Hcap. exists s1. split; [done|]. destruct (is_null cmd); [apply sock_step_refl|].
    assert (srv_ok (app s1)) as Hok by (apply (so_srv s1), (reachable_ok time_json); destruct Hs1 as [->| ->]; [done|by apply waited_reachable]).
    intros ch sk m Hsk Hm. destruct (forward_texts s1 v1 t value agent cmd Hok ch sk m Hsk Hm) as [?|Hd]; [by left|right]. destruct m as [c| |]; [|done..].
    destruct Hd as [D1 D2 D3]. rewrite Ei, Eu in D3. split; [done|done| |by split]. intros capability Hcp. apply Hcap; [done|]. rewrite <- Hc. by apply open_conn_id_conn. }
  destruct (command_capability (kind_of cmd)) as [capability|]; [|by apply Hfwd; [left|..]].
  destruct (capability_denial _ _ _ _ _ _) as [[s1 cache] [d|]] eqn:Hd.
  - exists s1. split; [|apply sock_step_refl]. pose proof (denial_state s t agent capability (v_cache v)) as Hx. by rewrite Hd in Hx.
  - apply denial_passed in Hd as (H1 & H2 & H3). apply Hfwd; try done. intros c conn [= <-]. apply H3.
Qed.

(** No command slips past the checks: when the task of a dashboard socket handles a message, every
    command newly in a connection's queue (beside the state [s1] in which the message took effect,
    the one it arrived in or the one an await left) is the one this message carries, of at most
    8 MiB of text, and 64 KiB unless it is a file chunk; its sender is an operator; it has the
    shape its type demands; no capability it needs is known to be unavailable on that very
    connection; its module is authorized for the device right now and stamped with the grant; the
    queue is that of the device's open connection; and remote input comes under the sender's own
    live lease with its token. *)
Theorem viewer_commands_are_checked s v t text s' v' reply :
  reachable time_json s -> viewer_message time_json s v t text = (s', v', reply) ->
  exists s1, (s1 = s \/ s1 = waited time_json s t)
  /\ forall ch sk c, sockets (agents (app s')) !! ch = Some sk -> CText c ∈ queue sk ->
     (exists sk1, sockets (agents (app s1)) !! ch = Some sk1 /\ CText c ∈ queue sk1)
     \/ exists value agent, json_parse text = Some value /\ kind_of value = "control"%string /\ uuid_field value "agent_id" = Some agent
        /\ Z.of_nat (length text) <= (if String.eqb (kind_of (idx value "cmd")) "WriteFileChunk" then 8388608 else 65536)
        /\ checked s1 v t value agent ch c.
Proof.
  intros Hr Hm.
  assert (forall x, (exists s1, (s1 = s \/ s1 = waited time_json s t) /\ sock_step no_text (agents (app s1)) (agents (app x))) ->
    exists s1, (s1 = s \/ s1 = waited time_json s t) /\ forall ch sk c, sockets (agents (app x)) !! ch = Some sk -> CText c ∈ queue sk ->
     (exists sk1, sockets (agents (app s1)) !! ch = Some sk1 /\ CText c ∈ queue sk1)
     \/ exists value agent, json_parse text = Some value /\ kind_of value = "control"%string /\ uuid_field value "agent_id" = Some agent
        /\ Z.of_nat (length text) <= (if String.eqb (kind_of (idx value "cmd")) "WriteFileChunk" then 8388608 else 65536)
        /\ checked s1 v t value agent ch c) as Hno.
  { intros x (s1 & H1 & Hx). exists s1. split; [done|]. intros ch sk c Hsk Hc. destruct (Hx ch sk _ Hsk Hc) as [?|[]]. by left. }
  assert (exists s1, (s1 = s \/ s1 = waited time_json s t) /\ sock_step no_text (agents (app s1)) (agents (app s))) as Hsame.
  { exists s. split; [by left|apply sock_step_refl]. }
  unfold viewer_message in Hm. destruct (longer MAX_VIEWER_WRITEFILE_MSG_BYTES text) eqn:L1; [injection Hm as <- <- <-; exact (Hno _ Hsame)|].
  destruct (json_parse text) as [value|] eqn:Hp; [|injection Hm as <- <- <-; exact (Hno _ Hsame)].
  destruct (lease_kind _); [destruct (longer MAX_VIEWER_TEXT_BYTES text); [injection Hm as <- <- <-; exact (Hno _ Hsame)|]|].
  { pose proof (lease_texts s v t value) as Hl. rewrite Hm in Hl. by apply Hno. }
  destruct (is_operator (v_user v)) eqn:Hu; [|injection Hm as <- <- <-; exact (Hno _ Hsame)]. cbn [negb] in Hm.
  destruct (String.eqb (kind_of value) "control") eqn:Hk; [|injection Hm as <- <- <-; exact (Hno _ Hsame)]. cbn [negb] in Hm. apply String.eqb_eq in Hk.
  destruct (longer MAX_VIEWER_TEXT_BYTES text && _) eqn:L2; [injection Hm as <- <- <-; exact (Hno _ Hsame)|].
  destruct (uuid_field value "agent_id") as [agent|] eqn:Ha; [|injection Hm as <- <- <-; exact (Hno _ Hsame)].
  destruct (command_texts s v t value agent Hr Hu) as (s1 & H1 & Hx). rewrite Hm in Hx. exists s1. split; [done|]. intros ch sk c Hsk Hc.
  destruct (Hx ch sk _ Hsk Hc) as [?|Hck]; [by left|right]. cbn [texts] in Hck. exists value, agent. split_and!; [done..| |exact Hck]. unfold longer in L1, L2.
  change MAX_VIEWER_WRITEFILE_MSG_BYTES with 8388608 in L1. change MAX_VIEWER_TEXT_BYTES with 65536 in L2.
  destruct (String.eqb _ "WriteFileChunk"); cbn [negb] in L2; rewrite ?andb_true_r in L2; lia.
Qed.

(** ** The capability cache *)

Definition cache_ok (c : CapabilityCache) : Prop :=
  (size c <= CACHE_LIMIT)%nat
  /\ forall a conn1 conn2 cap1 cap2, is_Some (c !! (a, conn1, cap1)) -> is_Some (c !! (a, conn2, cap2)) -> conn1 = conn2.

Lemma denial_cache_ok s t agent capability cache : cache_ok cache -> cache_ok (capability_denial time_json s t agent capability cache).1.2.
Proof.
  intros Hc. unfold capability_denial. destruct (conn_of (agents (app s)) agent) as [conn|]; [|done]. cbv zeta.
  set (base := if (CACHE_LIMIT <=? size cache)%nat then ∅ else cache).
  assert (forall k, is_Some (base !! k) -> is_Some (cache !! k)) as Hsub. { intros k. subst base. destruct (_ <=? _)%nat; [by rewrite lookup_empty; intros [? ?]|done]. }
  assert ((size base < CACHE_LIMIT)%nat) as Hsize.
  { subst base. destruct (CACHE_LIMIT <=? size cache)%nat eqn:E; [by rewrite map_size_empty; apply (bool_decide_unpack _)|]. by apply Nat.leb_gt in E. }
  set (kept := filter (fun kv : Uuid * Uuid * string * option string => kv.1.1.1 <> agent \/ kv.1.1.2 = conn) base : CapabilityCache).
  assert (forall k, is_Some (kept !! k) -> is_Some (base !! k) /\ (k.1.1 = agent -> k.1.2 = conn)) as Hkept.
  { intros k [x Hx]. subst kept. apply map_lookup_filter_Some in Hx as [Hx Hk]. split; [by eexists|]. cbn [fst] in Hk. intros E. by destruct Hk. }
  assert ((size kept < CACHE_LIMIT)%nat) as Hks. { eapply Nat.le_lt_trans; [|exact Hsize]. apply map_subseteq_size, map_filter_subseteq. }
  assert (cache_ok kept) as Hok.
  { split; [lia|]. intros a c1 c2 k1 k2 [H1 _]%Hkept [H2 _]%Hkept. apply (proj2 Hc a c1 c2 k1 k2); by apply Hsub. }
  assert (forall status, cache_ok (<[(agent, conn, capability) := status]> kept)) as Hins.
  { intros status. split.
    - rewrite map_size_insert. destruct (kept !! _); simpl; lia.
    - assert (forall a c k, is_Some (<[(agent, conn, capability) := status]> kept !! (a, c, k)) -> a = agent /\ c = conn \/ a <> agent /\ is_Some (kept !! (a, c, k))) as Hl.
      { intros a c k [x [[[= <- <- <-] _]|[_ Hx]]%lookup_insert_Some]; [by left|]. destruct (decide (a = agent)) as [->|?]; [left|right; split; [done|by eexists]].
        split; [done|]. by apply (Hkept (agent, c, k)). }
      intros a c1 c2 k1 k2 [[-> ->]|[N1 Q1]]%Hl [[N2 ->]|[N2 Q2]]%Hl; try done. by eapply (proj2 Hok). }
  destruct (kept !! _) as [status|]; [|destruct (t_info t) as [info|]]; case_match; cbn [fst snd]; (exact Hok || apply Hins).
Qed.
Lemma message_cache_ok s v t text : cache_ok (v_cache v) -> cache_ok (v_cache (viewer_message time_json s v t text).1.2).
Proof.
  intros Hc. unfold viewer_message. destruct (longer _ text); [done|]. destruct (json_parse text) as [value|]; [|done].
  destruct (lease_kind _); [destruct (longer _ text); [done|]|destruct (negb _); [done|]; destruct (negb _); [done|]; destruct (_ && _); [done|]].
  - unfold lease_message. cbv zeta. assert (forall (x : System) cache, cache_ok cache -> cache_ok (v_cache
      (let '(st, event) := control_lease_message (app x) (v_id v) (v_user v) value (t_now t) (t_clock t) (t_audit t) (t_fresh t) in (with_app x st, with_cache v cache, Some event)).1.2)) as Hg.
    { intros x cache Hx. by destruct (control_lease_message _ _ _ _ _ _ _ _). }
    destruct (_ && _); [|by apply Hg]. destruct (uuid_field value "agent_id") as [agent|]; [|by apply Hg]. destruct (uuid_field value "request_id"); [|by apply Hg].
    pose proof (denial_cache_ok s t agent "remote_input" _ Hc) as Hd. destruct (capability_denial _ _ _ _ _ _) as [[s1 cache] [d|]]; [done|by apply Hg].
  - destruct (uuid_field value "agent_id") as [agent|]; [|done]. unfold command_message. cbv zeta. destruct (negb _); [done|].
    assert (forall x v1 cmd, v_cache (forward x v1 t value agent cmd).1.2 = v_cache v1) as Hf.
    { intros x v1 cmd. unfold forward. cbv zeta. destruct (is_remote_input _); [by destruct (send_viewer_input _ _ _ _ _ _ _)|by destruct (send_agent_command_json _ _ _)]. }
    destruct (command_capability _) as [capability|]; [|destruct (is_null _); [done|by rewrite Hf]].
    pose proof (denial_cache_ok s t agent capability _ Hc) as Hd. destruct (capability_denial _ _ _ _ _ _) as [[s1 cache] [d|]]; [done|].
    destruct (is_null _); [done|]. by rewrite Hf.
Qed.

(** The capability cache of a socket never grows past 4096 entries, whatever messages arrive on it
    and however devices come and go, and all it knows of a device was found on one and the same
    connection: an answer from before a reconnect is not kept beside a newer one. *)
Theorem capability_cache_stays_bounded s id user hash es s' v' alive :
  viewer_run time_json s (Viewer_new id user hash) es = (s', v', alive) ->
  (size (v_cache v') <= 4096)%nat
  /\ forall a conn1 conn2 cap1 cap2, is_Some (v_cache v' !! (a, conn1, cap1)) -> is_Some (v_cache v' !! (a, conn2, cap2)) -> conn1 = conn2.
Proof.
  change (viewer_run time_json s (Viewer_new id user hash) es = (s', v', alive) -> cache_ok (v_cache v')).
  assert (cache_ok (v_cache (Viewer_new id user hash))) as Hc.
  { split; [cbn [v_cache Viewer_new]; rewrite map_size_empty; apply Nat.le_0_l|]. intros a c1 c2 k1 k2. cbn [v_cache Viewer_new]. rewrite lookup_empty. by intros [? ?]. }
  revert Hc. generalize (Viewer_new id user hash). clear id user hash. revert s. induction es as [|e es IH]; intros s v Hc Hrun; cbn [viewer_run] in Hrun; [by simplify_eq|].
  destruct (viewer_step time_json s v e) as [[s1 v1] go] eqn:Hst.
  assert (cache_ok (v_cache v1)) as Hc1; [|destruct go; [by eapply IH|by simplify_eq]].
  destruct e as [op|a now answered|r ok|f t ok]; cbn [viewer_step] in Hst.
  - by simplify_eq.
  - unfold refresh_viewer_session in Hst. cbv zeta in Hst. destruct (ofilter _ _); by simplify_eq.
  - destruct r as [[text|owner text]| |n]; [destruct ok|case_bool_decide; [destruct ok|]| |]; by simplify_eq.
  - destruct f as [text| |]; [|by simplify_eq..]. pose proof (message_cache_ok s v t text Hc) as Hm. destruct (viewer_message _ _ _ _ _) as [[s2 v2] reply]. cbn [fst snd] in Hm.
    destruct reply as [ev|]; [destruct ok|]; by simplify_eq.
Qed.

(** A session check accepts exactly a live session of the same account: the socket stays open
    when, and only when, the lookup was answered in time, the session's row is there and has not
    expired, and it belongs to the account the socket was opened with; the socket then acts under the
    name and role the account has now, and loses its control at once when that is not an operator's. *)
Theorem session_check_exact s v a now answered s' v' alive :
  viewer_step time_json s v (VTick a now answered) = (s', v', alive) ->
  (alive = true <-> answered = true /\ exists hash row account, v_hash v = Some hash /\ Accounts.sessions a !! hash = Some row /\ now < se_expires row
     /\ se_user row = u_user_id (v_user v) /\ Accounts.users a !! se_user row = Some account
     /\ v_user v' = {| u_user_id := se_user row; u_username := us_name account; u_role := us_role account |})
  /\ (alive = false \/ is_operator (v_user v') = false -> holds_nothing (v_id v) s')
  /\ (alive = true -> is_operator (v_user v') = true -> s' = s).
Proof.
  intros Hst. cbn [viewer_step] in Hst. split_and!.
  - pose proof (refresh_spec _ _ _ _ _ _ _ _ Hst) as (_ & _ & _ & _ & Hu). split.
    + intros ->. destruct Hu as (hash & u & Ha & Hh & Hf & Hid & Hu). split; [done|]. unfold dashboard_session_get_user in Hf.
      destruct (Accounts.sessions a !! hash) as [row|] eqn:Hrow; [|done]. cbn in Hf. destruct (now <? se_expires row) eqn:Hn; [|done].
      destruct (Accounts.users a !! se_user row) as [account|] eqn:Hacc; [|done]. cbn in Hf. injection Hf as <-. cbn in *. exists hash, row, account. split_and!; try done. lia.
    + intros (-> & hash & row & account & Hh & Hrow & Hn & Hid & Hacc & _). unfold refresh_viewer_session in Hst. cbv zeta in Hst.
      rewrite Hh in Hst. cbn in Hst. unfold dashboard_session_get_user in Hst. rewrite Hrow in Hst. cbn in Hst. assert ((now <? se_expires row) = true) as E by lia.
      rewrite E, Hacc in Hst. cbn in Hst. rewrite bool_decide_eq_true_2 in Hst by done. by injection Hst as _ _ <-.
  - intros Hend. destruct (refresh_spec _ _ _ _ _ _ _ _ Hst) as (_ & _ & _ & Hs & _). rewrite (Hs Hend). apply revoke_viewer_gone.
  - intros -> Hop. unfold refresh_viewer_session in Hst. cbv zeta in Hst. destruct (ofilter _ _) as [u|]; [|done]. cbn [isSome negb orb] in Hst. injection Hst as <- <-.
    cbn [v_user with_user] in *. by rewrite Hop.
Qed.
End leases.

(** ** A dashboard at work *)

Definition ex_viewer : Viewer := Viewer_new 1%N ex_user (Some "sha:t2"%string).
Definition ex_turn (now : Instant) : Turn := {| t_info := Some None; t_meanwhile := []; t_now := now; t_clock := now; t_audit := now; t_fresh := 9%N |}.
Definition ex_text (v : json) : list Z := @json_print bin_json v.
Definition ex_command : json :=
  mk_obj [("type", JStr "control"); ("agent_id", JStr "111"); ("lease_token", JStr "1001"); ("cmd", ex_key)]%string.
(** Acquire control, press a key, a session check, and one after the session was deleted. *)
Definition ex_dashboard : list ViewerEvent :=
  [VFrame (FText (ex_text (ex_message "control_acquire"))) (ex_turn 0) true; VFrame (FText (ex_text ex_command)) (ex_turn 1) true;
   VServer (Recv 7%N 70%N 1 1); VTick Sample.tables 500 true].
Definition ex_dashboard_end : list ViewerEvent := ex_dashboard ++ [VTick Accounts_empty 505 true].
Definition ex_viewing (es : list ViewerEvent) : System * Viewer * bool :=
  @viewer_run bin_uuid bin_json JInt (ex_state_after ex_setup) ex_viewer es.

Lemma viewer_run_refines_server_witness :
  (ex_viewing ex_dashboard).2 = true /\ size (leases (sessions (control (app (ex_viewing ex_dashboard).1.1)))) = 1%nat
  /\ exists ops, @run bin_uuid bin_json JInt (ex_state_after ex_setup) ops = Some (ex_viewing ex_dashboard).1.1.
Proof.
  split; [vm_compute; reflexivity|]. split; [vm_compute; reflexivity|].
  destruct (@viewer_run_refines_server bin_uuid bin_json JInt (ex_state_after ex_setup) ex_viewer ex_dashboard (ex_viewing ex_dashboard).1.1
    (ex_viewing ex_dashboard).1.2 (ex_viewing ex_dashboard).2) as (turns & Hops & _).
  - unfold ex_viewing. destruct (viewer_run _ _ _ _) as [[? ?] ?]. reflexivity.
  - exists (concat turns). exact Hops.
Defined.

Lemma viewer_control_follows_session_witness :
  (ex_viewing ex_dashboard_end).2 = false /\ holds_nothing 1%N (ex_viewing ex_dashboard_end).1.1.
Proof.
  assert ((ex_viewing ex_dashboard_end).2 = false) as He by (vm_compute; reflexivity). split; [exact He|].
  apply (@viewer_control_follows_session bin_uuid bin_json JInt (ex_state_after ex_setup) ex_viewer ex_dashboard_end (ex_viewing ex_dashboard_end).1.1
    (ex_viewing ex_dashboard_end).1.2 (ex_viewing ex_dashboard_end).2).
  - apply ex_reachable. vm_compute. reflexivity.
  - assert (leases (sessions (control (app (ex_state_after ex_setup)))) = ∅) as E by (vm_compute; reflexivity). intros a l Hl. exfalso. revert Hl. rewrite E, lookup_empty. discriminate.
  - cbn. repeat constructor. discriminate.
  - unfold ex_viewing. destruct (viewer_run _ _ _ _) as [[? ?] ?]. reflexivity.
  - left. exact He.
Defined.

Lemma viewer_commands_are_checked_witness :
  let s := (ex_viewing [VFrame (FText (ex_text (ex_message "control_acquire"))) (ex_turn 0) true]).1.1 in
  let s' := (@viewer_message bin_uuid bin_json JInt s ex_viewer (ex_turn 1) (ex_text ex_command)).1.1 in
  exists sk c, sockets (agents (app s')) !! 70%N = Some sk /\ CText c ∈ queue sk /\ kind_of c = "KeyDown"%string
  /\ exists s1, s1 = s \/ s1 = @waited bin_uuid bin_json JInt s (ex_turn 1).
Proof.
  cbv zeta. set (s := (ex_viewing _).1.1). set (m := viewer_message _ s _ _ _).
  exists (default {| shutdown := None; queue := [] |} (sockets (agents (app m.1.1)) !! 70%N)), (set_idx ex_key "__module_generation" (generation_json RemoteInput 3)).
  split; [vm_compute; reflexivity|]. split; [apply (bool_decide_unpack _); vm_compute; exact I|]. split; [vm_compute; reflexivity|].
  destruct (@viewer_commands_are_checked bin_uuid bin_json JInt s ex_viewer (ex_turn 1) (ex_text ex_command) m.1.1 m.1.2 m.2) as (s1 & Hs1 & _).
  - destruct (@viewer_run_turns bin_uuid bin_json JInt (ex_state_after ex_setup) ex_viewer [VFrame (FText (ex_text (ex_message "control_acquire"))) (ex_turn 0) true] s
      (ex_viewing [VFrame (FText (ex_text (ex_message "control_acquire"))) (ex_turn 0) true]).1.2
      (ex_viewing [VFrame (FText (ex_text (ex_message "control_acquire"))) (ex_turn 0) true]).2) as (ops & Hops & _).
    + subst s. unfold ex_viewing. destruct (viewer_run _ _ _ _) as [[? ?] ?]. reflexivity.
    + eapply run_reachable; [|exact Hops]. apply ex_reachable. vm_compute. reflexivity.
  - subst m. destruct (viewer_message _ _ _ _ _) as [[? ?] ?]. reflexivity.
  - exists s1. exact Hs1.
Defined.

Lemma capability_cache_stays_bounded_witness :
  size (v_cache (ex_viewing ex_dashboard).1.2) = 1%nat /\ (size (v_cache (ex_viewing ex_dashboard).1.2) <= 4096)%nat.
Proof.
  split; [vm_compute; reflexivity|].
  apply (@capability_cache_stays_bounded bin_uuid bin_json JInt (ex_state_after ex_setup) 1%N ex_user (Some "sha:t2"%string) ex_dashboard
    (ex_viewing ex_dashboard).1.1 (ex_viewing ex_dashboard).1.2 (ex_viewing ex_dashboard).2).
  fold ex_viewer. unfold ex_viewing. destruct (viewer_run _ _ _ _) as [[? ?] ?]. reflexivity.
Defined.

Lemma session_check_exact_witness :
  exists s' v', @viewer_step bin_uuid bin_json JInt (ex_state_after ex_setup) ex_viewer (VTick Sample.tables 500 true) = (s', v', true)
  /\ s' = ex_state_after ex_setup /\ v_user v' = {| u_user_id := 2%N; u_username := "ops"; u_role := "admin" |}.
Proof.
  set (r := viewer_step _ _ _ _). assert (r.2 = true) as Hr by (vm_compute; reflexivity). assert (r = (r.1.1, r.1.2, true)) as E.
  { rewrite <- Hr. by destruct r as [[? ?] ?]. }
  exists r.1.1, r.1.2. split; [exact E|]. split; [|vm_compute; reflexivity].
  destruct (@session_check_exact bin_uuid bin_json JInt (ex_state_after ex_setup) ex_viewer Sample.tables 500 true r.1.1 r.1.2 true E) as (_ & _ & Hs).
  apply Hs; [reflexivity|vm_compute; reflexivity].
Defined.
