(* ===== verification/Terminal.v ===== *)
(** The interactive terminal's socket ([server/src/viewer/terminal_ws.rs]): who may open one, the
    shell it asks the device for, the bridge between the browser and the device, and its end. *)
From S2P Require Import Ingest Prelude Text Json Protocol Sessions Modules Registry Geometry State Runtime Steps Viewer.

(** ** Opening: [handler] *)

Definition MAX_TERMINAL_INPUT_BYTES : Z := 64 * 1024.
Record TerminalParams := { tp_agent_id : string; tp_cols : option Z; tp_rows : option Z }.
Inductive TerminalRefusal : Type := OperatorRequired | RemoteExecutionDisabled | InvalidAgent | NotSupported | Denied (d : CommandDenied).
Definition TERMINAL_CHANNEL_CAPACITY : nat := 512.

(** The server as the socket's task uses it; [tm_browser] is what the browser received, [tm_audit] the
    statuses of the session's audit rows. *)
Record Bridge := { tm_agents : AgentRegistry; tm_rpc : RpcWaiters; tm_browser : list json; tm_audit : list string }.
Definition with_registry (t : Bridge) (r : AgentRegistry) : Bridge :=
  {| tm_agents := r; tm_rpc := tm_rpc t; tm_browser := tm_browser t; tm_audit := tm_audit t |}.
Definition with_rpc (t : Bridge) (r : RpcWaiters) : Bridge :=
  {| tm_agents := tm_agents t; tm_rpc := r; tm_browser := tm_browser t; tm_audit := tm_audit t |}.
Definition to_browser (t : Bridge) (ok : bool) (frame : json) : Bridge :=
  if ok then {| tm_agents := tm_agents t; tm_rpc := tm_rpc t; tm_browser := tm_browser t ++ [frame]; tm_audit := tm_audit t |} else t.
Definition audit (t : Bridge) (status : string) : Bridge :=
  {| tm_agents := tm_agents t; tm_rpc := tm_rpc t; tm_browser := tm_browser t; tm_audit := tm_audit t ++ [status] |}.
(** [mpsc::channel(512)] and the drop of its receiver. *)
Definition set_sinks (r : RpcWaiters) (s : gmap Uuid Sink) : RpcWaiters :=
  {| script_waiters := script_waiters r; log_waiters := log_waiters r; terminal_sessions := terminal_sessions r; sinks := s; completed := completed r |}.
Definition open_sink (r : RpcWaiters) (tx : Uuid) : RpcWaiters :=
  set_sinks r (<[tx := {| sink_capacity := TERMINAL_CHANNEL_CAPACITY; sink_frames := [] |}]> (sinks r)).
Definition close_sink (r : RpcWaiters) (tx : Uuid) : RpcWaiters := set_sinks r (delete tx (sinks r)).

Section terminal.
Context `{UuidText, JsonText}.

(** [info]: the device's stored information, [None] when the query failed, which is not a refusal. *)
Definition terminal_handler (r : AgentRegistry) (user : AuthUser) (allow_remote_script : bool) (p : TerminalParams) (info : option (option json))
    : result (Uuid * Z * Z) TerminalRefusal :=
  ensure is_operator user else OperatorRequired in
  ensure allow_remote_script else RemoteExecutionDisabled in
  let* agent_id := ok_or (parse_uuid (trim (tp_agent_id p))) InvalidAgent in
  ensure is_none_or info (fun i => capability_attemptable i "terminal") else NotSupported in
  let* _ := rmap_err Denied (authorize_agent_command r agent_id
              (to_value (TerminalStart {| ts_session_id := None; ts_cols := None; ts_rows := None |}))) in
  Ok (agent_id, clampZ 2 500 (default 80 (tp_cols p)), clampZ 1 200 (default 24 (tp_rows p))).

(** ** The bridge: [run] and [handle_browser_msg] *)

Definition terminal_error (d : CommandDenied) : json := mk_obj [("type", JStr "terminal_error"); ("code", JStr (code d))]%string.
Definition size_of (session : Uuid) (cols rows : Z) : TerminalSize := {| ts_session_id := Some session; ts_cols := Some cols; ts_rows := Some rows |}.
Definition send_terminal (t : Bridge) (agent : Uuid) (c : ServerCommand) : Bridge * option CommandDenied :=
  match send_command (tm_agents t) agent c with
  | Ok r => (with_registry t r, None)
  | Err e => (t, Some e)
  end.
Definition handle_browser_msg (t : Bridge) (agent session : Uuid) (text : list Z) : Bridge * option CommandDenied :=
  if MAX_TERMINAL_INPUT_BYTES <? Z.of_nat (length text) then (t, None)
  else
    match json_parse text with
    | None => (t, None)
    | Some val =>
        let kind := kind_of val in
        if String.eqb kind "input" then
          match as_str (idx val "data") with
          | Some data => send_terminal t agent (TerminalInput_ {| ti_session_id := Some session; ti_data := Some data |})
          | None => (t, None)
          end
        else if String.eqb kind "resize" then
          send_terminal t agent (TerminalResize (size_of session (clampZ 2 500 (default 80 (as_u64 (idx val "cols"))))
                                                                 (clampZ 1 200 (default 24 (as_u64 (idx val "rows"))))))
        else (t, None)
    end.

(** What wakes the loop: device output in the session's channel, the browser, or, between two
    turns, the rest of the server. *)
Inductive TerminalEvent : Type :=
| TOutput (ok : bool)
| TBrowser (f : ViewerFrame) (ok : bool)
| TElse (agents' : AgentRegistry -> AgentRegistry) (rpc' : RpcWaiters -> RpcWaiters).

(** The next frame of the channel; [None] once it is empty and no sender is left. *)
Definition recv_output (r : RpcWaiters) (session tx : Uuid) : option (RpcWaiters * option json) :=
  match sinks r !! tx with
  | Some s =>
      match sink_frames s with
      | frame :: rest => Some (set_sinks r (<[tx := {| sink_capacity := sink_capacity s; sink_frames := rest |}]> (sinks r)), Some frame)
      | [] => if bool_decide (terminal_sessions r !! session = Some tx) then Some (r, None) else None
      end
  | None => None
  end.
Definition terminal_turn (t : Bridge) (agent session tx : Uuid) (e : TerminalEvent) : Bridge * bool :=
  match e with
  | TOutput ok =>
      match recv_output (tm_rpc t) session tx with
      | Some (r, Some frame) => (to_browser (with_rpc t r) ok frame, ok)
      | Some (r, None) => (t, true)
      | None => (t, false)
      end
  | TBrowser (FText text) ok =>
      match handle_browser_msg t agent session text with
      | (t, Some d) => (to_browser t ok (terminal_error d), false)
      | (t, None) => (t, true)
      end
  | TBrowser FClosed _ => (t, false)
  | TBrowser FOther _ => (t, true)
  | TElse agents' rpc' => (with_rpc (with_registry t (agents' (tm_agents t))) (rpc' (tm_rpc t)), true)
  end.
Fixpoint terminal_loop (t : Bridge) (agent session tx : Uuid) (es : list TerminalEvent) : Bridge * bool :=
  match es with
  | [] => (t, true)
  | e :: es => let '(t, alive) := terminal_turn t agent session tx e in if alive then terminal_loop t agent session tx es else (t, false)
  end.
Definition end_session (t : Bridge) (session tx : Uuid) : Bridge :=
  with_rpc t (close_sink (remove_terminal_session (tm_rpc t) session) tx).
(** The whole task, for a socket whose loop ends within [es]; [true] while it still runs. [ok]: whether
    the browser takes the error of a shell that could not be asked for. *)
Definition terminal_run (t : Bridge) (agent session tx : Uuid) (cols rows : Z) (ok : bool) (es : list TerminalEvent) : Bridge * bool :=
  let t := with_rpc t (register_terminal_session (open_sink (tm_rpc t) tx) session tx) in
  let t := audit t "started" in
  match send_terminal t agent (TerminalStart (size_of session cols rows)) with
  | (t, Some d) => (end_session (to_browser t ok (terminal_error d)) session tx, false)
  | (t, None) =>
      let '(t, alive) := terminal_loop t agent session tx es in
      if alive then (t, true)
      else
        let close := try_send_command (tm_agents t) agent (TerminalClose {| tss_session_id := Some session |}) in
        (audit (end_session (with_registry t close.1) session tx) "ended", false)
  end.
End terminal.

(** ** What the socket does to the rest *)

Section properties.
Context `{UuidText, JsonText}.

(** A command for the session's own shell, with sane sizes. *)
Definition terminal_command (session : Uuid) (c : ServerCommand) : Prop :=
  match c with
  | TerminalStart p | TerminalResize p =>
      ts_session_id p = Some session /\ exists cols rows, ts_cols p = Some cols /\ ts_rows p = Some rows /\ 2 <= cols <= 500 /\ 1 <= rows <= 200
  | TerminalInput_ p => ti_session_id p = Some session
  | TerminalClose p => tss_session_id p = Some session
  | _ => False
  end.
(** [c] was queued to the device for such a command, authorized when it was queued. *)
Definition queued_for (r : AgentRegistry) (agent session ch : Uuid) (c : json) : Prop :=
  cmds r !! agent = Some ch
  /\ exists k, terminal_command session k /\ authorize_agent_command r agent (to_value k) = Ok c.

Lemma send_command_texts r agent session k r' :
  terminal_command session k -> send_command r agent k = Ok r' -> sock_step (texts (queued_for r agent session)) r r'.
Proof.
  intros Hk Hs. unfold send_command, send_agent_command_json in Hs. apply rbind_Ok in Hs as (c & Hc & Hs). cbv zeta in Hs.
  destruct (existsb _ _); [done|]. destruct (_ || _); [done|]. apply rbind_Ok in Hs as (conn & _ & Hs).
  apply enqueue_Ok in Hs as (x & ch & _ & _ & Hcmd & Hs). apply (try_send_quiet (texts (queued_for r agent session))) in Hs as [_ _ Hm]; [done|].
  split; [done|by exists k].
Qed.
Lemma send_terminal_texts t agent session k :
  terminal_command session k ->
  tm_rpc (send_terminal t agent k).1 = tm_rpc t
  /\ sock_step (texts (queued_for (tm_agents t) agent session)) (tm_agents t) (tm_agents (send_terminal t agent k).1).
Proof.
  intros Hk. unfold send_terminal. destruct (send_command _ _ _) as [r|e] eqn:E; [|split; [done|apply sock_step_refl]].
  split; [done|]. by eapply send_command_texts.
Qed.
Lemma clamp_range lo hi z : lo <= hi -> lo <= clampZ lo hi z <= hi.
Proof. unfold clampZ. lia. Qed.
Lemma browser_texts t agent session text :
  tm_rpc (handle_browser_msg t agent session text).1 = tm_rpc t
  /\ sock_step (texts (queued_for (tm_agents t) agent session)) (tm_agents t) (tm_agents (handle_browser_msg t agent session text).1).
Proof.
  assert (tm_rpc t = tm_rpc t /\ sock_step (texts (queued_for (tm_agents t) agent session)) (tm_agents t) (tm_agents t)) as Hsame by (split; [done|apply sock_step_refl]).
  unfold handle_browser_msg. destruct (_ <? _); [done|]. destruct (json_parse text) as [val|]; [|done]. cbv zeta.
  destruct (String.eqb _ "input"); [|destruct (String.eqb _ "resize"); [|done]].
  - destruct (as_str (idx val "data")); [|done]. by apply send_terminal_texts.
  - apply send_terminal_texts. split; [done|]. eexists _, _. split; [done|]. split; [done|]. split; by apply clamp_range.
Qed.

(** A terminal socket touches only its own session: in every turn, whatever the browser sends or
    the device answers, a command newly in any queue goes to the terminal's device, was authorized
    for it at that moment, names this session, and asks for at least 2 by 1 and at most 500 by 200
    characters however large the sizes the browser names; the routes of all sessions stay as
    they are, no other session's output is touched, and what the browser gets is either the oldest
    frame waiting for this session, which is taken exactly once, or an error that closes the socket. *)
Theorem terminal_turn_is_contained t agent session tx e t' alive :
  (forall f g, e <> TElse f g) -> terminal_turn t agent session tx e = (t', alive) ->
  sock_step (texts (queued_for (tm_agents t) agent session)) (tm_agents t) (tm_agents t')
  /\ terminal_sessions (tm_rpc t') = terminal_sessions (tm_rpc t)
  /\ (forall other, other <> tx -> sinks (tm_rpc t') !! other = sinks (tm_rpc t) !! other)
  /\ (tm_browser t' = tm_browser t /\ (alive = true -> sinks (tm_rpc t') = sinks (tm_rpc t))
      \/ (exists s frame rest, tm_browser t' = tm_browser t ++ [frame] /\ sinks (tm_rpc t) !! tx = Some s /\ sink_frames s = frame :: rest
          /\ sinks (tm_rpc t') !! tx = Some {| sink_capacity := sink_capacity s; sink_frames := rest |})
      \/ (exists d, tm_browser t' = tm_browser t ++ [terminal_error d] /\ alive = false)).
Proof.
  intros Hne Ht. destruct e as [ok|[text| |] ok|f g]; cbn [terminal_turn] in Ht; [| | | |by destruct (Hne f g)].
  - unfold recv_output in Ht. destruct (sinks (tm_rpc t) !! tx) as [s|] eqn:Hs; [|injection Ht as <- <-; split_and!; [apply sock_step_refl|done|done|by left]].
    destruct (sink_frames s) as [|frame rest] eqn:Hf.
    + destruct (bool_decide _); injection Ht as <- <-; (split_and!; [apply sock_step_refl|done|done|by left]).
    + injection Ht as <- <-. assert (tm_agents (to_browser (with_rpc t (set_sinks (tm_rpc t) (<[tx := {| sink_capacity := sink_capacity s; sink_frames := rest |}]> (sinks (tm_rpc t))))) ok frame) = tm_agents t
        /\ tm_rpc (to_browser (with_rpc t (set_sinks (tm_rpc t) (<[tx := {| sink_capacity := sink_capacity s; sink_frames := rest |}]> (sinks (tm_rpc t))))) ok frame)
           = set_sinks (tm_rpc t) (<[tx := {| sink_capacity := sink_capacity s; sink_frames := rest |}]> (sinks (tm_rpc t)))) as [-> ->] by by destruct ok.
      split_and!; [apply sock_step_refl|done| |].
      * intros other Ho. cbn [sinks set_sinks]. by rewrite lookup_insert_ne.
      * destruct ok; [right; left|left; split; [done|discriminate]]. exists s, frame, rest. split_and!; [done..|]. cbn [sinks set_sinks to_browser tm_rpc with_rpc]. by rewrite lookup_insert_eq.
  - pose proof (browser_texts t agent session text) as [Hr Hq]. assert (tm_browser (handle_browser_msg t agent session text).1 = tm_browser t) as Hb.
    { unfold handle_browser_msg, send_terminal. cbv zeta. repeat case_match; done. }
    destruct (handle_browser_msg t agent session text) as [t1 [d|]]; cbn [fst] in *; injection Ht as <- <-.
    + assert (tm_agents (to_browser t1 ok (terminal_error d)) = tm_agents t1 /\ tm_rpc (to_browser t1 ok (terminal_error d)) = tm_rpc t1) as [-> ->] by by destruct ok.
      rewrite Hr. split_and!; [done..|]. destruct ok; [right; right|left; split; [done|discriminate]]. exists d. cbn [to_browser tm_browser]. by rewrite Hb.
    + rewrite Hr. split_and!; [done..|]. by left.
  - injection Ht as <- <-. split_and!; [apply sock_step_refl|done|done|by left].
  - injection Ht as <- <-. split_and!; [apply sock_step_refl|done|done|by left].
Qed.

(** However a terminal ends, its session ends with it: once the socket's task is over, no route
    and no channel of the session is left, so later output of the device for it is dropped; the
    start is audited, and unless the shell could not even be asked for, the device was told to
    close it as the last thing, and the end is audited too. *)
Theorem terminal_session_is_cleaned_up t agent session tx cols rows ok es t' :
  terminal_run t agent session tx cols rows ok es = (t', false) ->
  terminal_sessions (tm_rpc t') !! session = None /\ sinks (tm_rpc t') !! tx = None
  /\ (forall frame, route_terminal_output (tm_rpc t') session frame = (tm_rpc t', false))
  /\ ((exists e, send_command (tm_agents t) agent (TerminalStart (size_of session cols rows)) = Err e /\ tm_agents t' = tm_agents t /\ tm_audit t' = tm_audit t ++ ["started"%string])
      \/ exists t1 r, tm_agents t' = (try_send_command (tm_agents t1) agent (TerminalClose {| tss_session_id := Some session |})).1
          /\ send_command (tm_agents t) agent (TerminalStart (size_of session cols rows)) = Ok r /\ tm_audit t' = tm_audit t1 ++ ["ended"%string]).
Proof.
  assert (forall x, terminal_sessions (tm_rpc (end_session x session tx)) !! session = None /\ sinks (tm_rpc (end_session x session tx)) !! tx = None) as Hend.
  { intros x. cbn. by rewrite !lookup_delete_eq. }
  assert (forall r frame, terminal_sessions r !! session = None -> route_terminal_output r session frame = (r, false)) as Hroute.
  { intros r frame Hr. unfold route_terminal_output. by rewrite Hr. }
  unfold terminal_run. cbv zeta. set (t0 := audit _ _). unfold send_terminal. change (tm_agents t0) with (tm_agents t).
  destruct (send_command (tm_agents t) agent _) as [r|e] eqn:Hs.
  - destruct (terminal_loop _ _ _ _ es) as [t1 alive]. destruct alive; [done|]. intros [= <-]. cbn [tm_rpc audit]. destruct (Hend (with_registry t1
      (try_send_command (tm_agents t1) agent (TerminalClose {| tss_session_id := Some session |})).1)) as [E1 E2].
    split_and!; [done|done|intros frame; by apply Hroute|]. right. by exists t1, r.
  - intros [= <-]. destruct (Hend (to_browser t0 ok (terminal_error e))) as [E1 E2]. split_and!; [done|done|intros frame; by apply Hroute|]. left. exists e. by destruct ok.
Qed.

(** A terminal opens exactly when it may: for an operator, with remote execution enabled on the
    server, on a device whose id reads, that is not known to lack a terminal and that would accept
    the command now; and then always with a size of at least 2 by 1 and at most 500 by 200. *)
Theorem terminal_opens_exactly r user allowed p info agent cols rows :
  terminal_handler r user allowed p info = Ok (agent, cols, rows) <->
  is_operator user = true /\ allowed = true /\ parse_uuid (trim (tp_agent_id p)) = Some agent
  /\ (forall i, info = Some i -> capability_attemptable i "terminal" = true)
  /\ is_ok (authorize_agent_command r agent (to_value (TerminalStart {| ts_session_id := None; ts_cols := None; ts_rows := None |}))) = true
  /\ cols = clampZ 2 500 (default 80 (tp_cols p)) /\ rows = clampZ 1 200 (default 24 (tp_rows p)) /\ 2 <= cols <= 500 /\ 1 <= rows <= 200.
Proof.
  unfold terminal_handler. destruct (is_operator user); [|naive_solver]. destruct allowed; [|naive_solver].
  destruct (parse_uuid _) as [a|]; [|naive_solver]. cbn [ok_or rbind]. destruct (is_none_or _ _) eqn:Hi.
  - destruct (authorize_agent_command _ a _) as [c|e] eqn:Ha; cbn [rmap_err rbind].
    + split.
      * intros [= -> <- <-]. rewrite Ha. split_and!; try done; try (by apply clamp_range); [|unfold clampZ; lia..]. intros i ->. done.
      * by intros (_ & _ & [= ->] & _ & _ & -> & -> & _).
    + split; [done|]. intros (_ & _ & [= ->] & _ & Hok & _). by rewrite Ha in Hok.
  - split; [done|]. intros (_ & _ & _ & Hx & _). destruct info as [i|]; [|done]. simpl in Hi. by rewrite (Hx i eq_refl) in Hi.
Qed.
End properties.

(** ** A terminal at work *)

Definition ex_terminal : Bridge := {| tm_agents := ex_registry [(Terminal, 4)]; tm_rpc := ex_rpc; tm_browser := []; tm_audit := [] |}.
Definition ex_resize : json := mk_obj [("type", JStr "resize"); ("cols", JInt 100000); ("rows", JInt 0)]%string.
Definition ex_terminal_events : list TerminalEvent :=
  [TBrowser (FText (ex_text ex_resize)) true; TElse (fun r => r) (fun r => (route_terminal_output r 3%N (JStr "out")).1); TOutput true; TBrowser FClosed true].
Definition ex_terminal_run (es : list TerminalEvent) : Bridge * bool := @terminal_run bin_uuid bin_json ex_terminal 7%N 3%N 4%N 80 24 true es.

Lemma terminal_turn_is_contained_witness :
  let t := @terminal_turn bin_uuid bin_json ex_terminal 7%N 3%N 4%N (TBrowser (FText (ex_text ex_resize)) true) in
  t.2 = true /\ (exists sk, sockets (tm_agents t.1) !! 70%N = Some sk /\ length (queue sk) = 1%nat) /\ terminal_sessions (tm_rpc t.1) = ∅.
Proof.
  cbv zeta. set (t := terminal_turn _ _ _ _ _). split; [vm_compute; reflexivity|]. split; [eexists; split; vm_compute; reflexivity|].
  destruct (@terminal_turn_is_contained bin_uuid bin_json ex_terminal 7%N 3%N 4%N (TBrowser (FText (ex_text ex_resize)) true) t.1 t.2) as (_ & Hr & _).
  - discriminate.
  - apply surjective_pairing.
  - exact Hr.
Defined.

Lemma terminal_session_is_cleaned_up_witness :
  (ex_terminal_run ex_terminal_events).2 = false /\ tm_browser (ex_terminal_run ex_terminal_events).1 = [JStr "out"]
  /\ terminal_sessions (tm_rpc (ex_terminal_run ex_terminal_events).1) !! 3%N = None.
Proof.
  assert ((ex_terminal_run ex_terminal_events).2 = false) as He by (vm_compute; reflexivity). split; [exact He|]. split; [vm_compute; reflexivity|].
  apply (@terminal_session_is_cleaned_up bin_uuid bin_json ex_terminal 7%N 3%N 4%N 80 24 true ex_terminal_events (ex_terminal_run ex_terminal_events).1).
  rewrite <- He. apply surjective_pairing.
Defined.
