(* ===== verification/Scripts.v ===== *)
(** Remote scripts: one-off and bulk runs ([server/src/scripts/remote_api.rs]), waiting for a device's
    answer ([dispatch.rs]), scheduled scripts with their tables, checks and endpoints
    ([scripts/scheduled/]) and the minute scheduler ([scheduler.rs]). The time zone, case folding and
    the order in which a hash set or an unordered query is read are parameters. *)
From S2P Require Import Ingest Prelude Text Json Protocol Sessions Modules Registry Geometry State Viewer.

(** ** Tables: [scheduled/mod.rs], [scheduled/db] *)

Record ScheduledScriptScope := { sp_kind : string; sp_group_id : option Uuid; sp_agent_id : option Uuid }.
Record ScheduledScriptSchedule := { sd_frequency : string; sd_day_of_week : option Z; sd_fire_minute : Z }.
Record ScheduledScript := {
  sr_id : Z; sr_name : string; sr_shell : string; sr_script : string; sr_timeout_secs : Z; sr_enabled : bool;
  sr_scopes : list ScheduledScriptScope; sr_schedules : list ScheduledScriptSchedule
}.
Record Execution := { ex_status : string; ex_output : option string; ex_is_manual : bool }.
(** Scripts by id, ids only grow; executions by script, device and time of firing in microseconds; the
    devices known and the members of groups. *)
Record ScriptTables := {
  scripts : list ScheduledScript; next_script : Z; executions : gmap (Z * Uuid * Z) Execution; agent_ids : gset Uuid; group_members : gset (Uuid * Uuid)
}.
Definition ScriptTables_empty : ScriptTables := {| scripts := []; next_script := 1; executions := ∅; agent_ids := ∅; group_members := ∅ |}.
Definition set_scripts (d : ScriptTables) (l : list ScheduledScript) (next : Z) : ScriptTables :=
  {| scripts := l; next_script := next; executions := executions d; agent_ids := agent_ids d; group_members := group_members d |}.
Definition set_executions (d : ScriptTables) (m : gmap (Z * Uuid * Z) Execution) : ScriptTables :=
  {| scripts := scripts d; next_script := next_script d; executions := m; agent_ids := agent_ids d; group_members := group_members d |}.
Definition script_body (d : ScriptTables) (id : Z) : option ScheduledScript := List.find (fun s => sr_id s =? id) (scripts d).
Definition list_enabled_scripts (d : ScriptTables) : list ScheduledScript := List.filter sr_enabled (scripts d).

Definition create_script_row (d : ScriptTables) (s : ScheduledScript) : ScriptTables * Z :=
  let id := next_script d in
  (set_scripts d (scripts d ++ [{| sr_id := id; sr_name := sr_name s; sr_shell := sr_shell s; sr_script := sr_script s; sr_timeout_secs := sr_timeout_secs s;
                                   sr_enabled := true; sr_scopes := sr_scopes s; sr_schedules := sr_schedules s |}]) (id + 1), id).
(** [None] leaves a column as it is. *)
Record ScriptUpdate := {
  up_enabled : option bool; up_name : option string; up_shell : option string; up_script : option string; up_timeout_secs : option Z;
  up_scopes : option (list ScheduledScriptScope); up_schedules : option (list ScheduledScriptSchedule)
}.
Definition updated (u : ScriptUpdate) (s : ScheduledScript) : ScheduledScript :=
  {| sr_id := sr_id s; sr_name := default (sr_name s) (up_name u); sr_shell := default (sr_shell s) (up_shell u); sr_script := default (sr_script s) (up_script u);
     sr_timeout_secs := default (sr_timeout_secs s) (up_timeout_secs u); sr_enabled := default (sr_enabled s) (up_enabled u);
     sr_scopes := default (sr_scopes s) (up_scopes u); sr_schedules := default (sr_schedules s) (up_schedules u) |}.
(** Rows for an id that is not there break the reference to the script; without any, nothing happens. *)
Definition update_script_row (d : ScriptTables) (id : Z) (u : ScriptUpdate) : option ScriptTables :=
  if isSome (script_body d id) then Some (set_scripts d ((fun s => if sr_id s =? id then updated u s else s) <$> scripts d) (next_script d))
  else match up_scopes u, up_schedules u with
       | Some (_ :: _), _ | _, Some (_ :: _) => None
       | _, _ => Some d
       end.
(** The executions go with their script. *)
Definition delete_script_row (d : ScriptTables) (id : Z) : ScriptTables * bool :=
  if isSome (script_body d id)
  then (set_executions (set_scripts d (List.filter (fun s => negb (sr_id s =? id)) (scripts d)) (next_script d))
          (filter (fun kv => kv.1.1.1 <> id) (executions d)), true)
  else (d, false).
Definition resolve_agents (d : ScriptTables) (scopes : list ScheduledScriptScope) : gset Uuid :=
  if existsb (fun s => String.eqb (sp_kind s) "all") scopes then agent_ids d
  else ⋃ ((fun s => if String.eqb (sp_kind s) "agent" then match sp_agent_id s with Some a => {[ a ]} | None => ∅ end
                    else if String.eqb (sp_kind s) "group" then
                      match sp_group_id s with Some g => list_to_set (omap (fun m => if bool_decide (m.1 = g) then Some m.2 else None) (elements (group_members d))) | None => ∅ end
                    else ∅) <$> scopes).

(** A stored time has microseconds. *)
Definition to_micros (t : Z) : Z := t / 1000.
Definition execution_exists (d : ScriptTables) (script : Z) (agent : Uuid) (at_ : Z) : bool := isSome (executions d !! (script, agent, to_micros at_)).
(** [ON CONFLICT DO NOTHING]; a script that is gone is an error, which the callers ignore. *)
Definition insert_execution (d : ScriptTables) (ok manual : bool) (script : Z) (agent : Uuid) (status : string) (at_ : Z) : ScriptTables :=
  if ok && isSome (script_body d script) && negb (execution_exists d script agent at_)
  then set_executions d (<[(script, agent, to_micros at_) := {| ex_status := status; ex_output := None; ex_is_manual := manual |}]> (executions d))
  else d.
Definition finish_execution (d : ScriptTables) (script : Z) (agent : Uuid) (at_ : Z) (status output : string) : ScriptTables :=
  set_executions d (alter (fun e => {| ex_status := status; ex_output := Some output; ex_is_manual := ex_is_manual e |}) (script, agent, to_micros at_) (executions d)).

(** A run handed to [spawn_run_and_record]. *)
Record Run := { rn_script : Z; rn_agent : Uuid; rn_shell : string; rn_text : string; rn_timeout : Z; rn_at : Z; rn_skip_empty_error : bool }.
Definition spawned (s : ScheduledScript) (agent : Uuid) (at_ : Z) (manual : bool) : Run :=
  {| rn_script := sr_id s; rn_agent := agent; rn_shell := sr_shell s; rn_text := sr_script s; rn_timeout := sr_timeout_secs s; rn_at := at_; rn_skip_empty_error := manual |}.
Definition fire_status (online : bool) : string := if online then "fired" else "skipped_offline".

Section scripts.
Variable to_lowercase : string -> string.
(** The hour and minute, and the day counted from Sunday, of a UTC time in the scheduler's zone. *)
Variable local_hour local_minute local_weekday : Z -> Z.
(** How a hash set and an unordered query are read. *)
Variable set_order : gset Uuid -> list Uuid.
Variable row_order : list ScheduledScript -> list ScheduledScript.

(** ** The scheduler: [scheduler.rs] *)

(** Seconds to sleep before the first tick. *)
Definition first_wait (second : Z) : Z := if second =? 0 then 60 else 60 - second.
(** [with_second(0)], [with_nanosecond(0)]. *)
Definition minute_start (now : Z) : Z := now - now mod 60000000000.
(** At a minute of the day and a day of the week. *)
Definition matches_at (minute weekday : Z) (s : ScheduledScriptSchedule) : bool :=
  if String.eqb (sd_frequency s) "hourly" then Z.rem minute 60 =? Z.rem (sd_fire_minute s) 60
  else if String.eqb (sd_frequency s) "daily" then minute =? sd_fire_minute s
  else if String.eqb (sd_frequency s) "weekly" then bool_decide (sd_day_of_week s = Some weekday) && (minute =? sd_fire_minute s)
  else false.
Definition matches (now : Z) : ScheduledScriptSchedule -> bool := matches_at (local_hour now * 60 + local_minute now) (local_weekday now).
(** What the outside answers during a tick: the time, which queries succeed and who is connected when
    a script is reached. *)
Record TickEnv := {
  te_now : Z; te_list_ok : bool; te_resolve_ok : Z -> bool; te_exists_ok : Z -> Uuid -> bool; te_insert_ok : Z -> Uuid -> bool; te_connected : Z -> gset Uuid
}.
(** A failed query ends the tick; what it did so far stays. *)
Record Ticked := { tk_tables : ScriptTables; tk_runs : list Run; tk_ok : bool }.
Definition tick_agent (e : TickEnv) (s : ScheduledScript) (k : Ticked) (agent : Uuid) : Ticked :=
  if negb (tk_ok k) then k
  else
    let online := bool_decide (agent ∈ te_connected e (sr_id s)) in
    let at_ := minute_start (te_now e) in
    if negb (te_exists_ok e (sr_id s) agent) then {| tk_tables := tk_tables k; tk_runs := tk_runs k; tk_ok := false |}
    else if execution_exists (tk_tables k) (sr_id s) agent at_ then k
    else {| tk_tables := insert_execution (tk_tables k) (te_insert_ok e (sr_id s) agent) false (sr_id s) agent (fire_status online) at_;
            tk_runs := tk_runs k ++ (if online then [spawned s agent at_ false] else []); tk_ok := true |}.
Definition tick_script (e : TickEnv) (k : Ticked) (s : ScheduledScript) : Ticked :=
  if negb (tk_ok k) then k
  else if negb (existsb (matches (te_now e)) (sr_schedules s)) then k
  else match sr_scopes s with
       | [] => k
       | scopes =>
           if te_resolve_ok e (sr_id s) then foldl (tick_agent e s) k (set_order (resolve_agents (tk_tables k) scopes))
           else {| tk_tables := tk_tables k; tk_runs := tk_runs k; tk_ok := false |}
       end.
Definition tick (e : TickEnv) (d : ScriptTables) : Ticked :=
  if te_list_ok e then foldl (tick_script e) {| tk_tables := d; tk_runs := []; tk_ok := true |} (row_order (list_enabled_scripts d))
  else {| tk_tables := d; tk_runs := []; tk_ok := false |}.

(** ** The endpoints: [scheduled/api.rs] *)

Definition MAX_SCRIPT_BODY_BYTES : Z := 256 * 1024.
Definition MIN_TIMEOUT_SECS : Z := 5.
Definition MAX_TIMEOUT_SECS : Z := 300.
Inductive ScriptError : Type := ScriptForbidden | ScriptBad (msg : string) | ScriptNotFound | ScriptInternal | ScriptUnsupported | ScriptDenied (d : CommandDenied).
Definition bytes_len (s : string) : Z := Z.of_nat (String.length s).

Definition validate_name (name : string) : result string string :=
  let trimmed := trim name in
  ensure negb (String.eqb trimmed "") else "name is required"%string in
  ensure bytes_len trimmed <=? 120 else "name must be 120 characters or fewer"%string in
  Ok trimmed.
Definition validate_shell (shell : string) : result string string :=
  let normalized := to_lowercase (trim shell) in
  if String.eqb normalized "powershell" || String.eqb normalized "cmd" then Ok normalized else Err "shell must be powershell or cmd"%string.
Definition validate_script (script : string) : result unit string :=
  ensure negb (String.eqb script "") else "script is required"%string in
  ensure bytes_len script <=? MAX_SCRIPT_BODY_BYTES else "script exceeds maximum size"%string in
  Ok tt.
Definition validate_timeout (t : Z) : result Z string :=
  if in_range MIN_TIMEOUT_SECS MAX_TIMEOUT_SECS t then Ok t else Err "timeout_secs must be between 5 and 300"%string.
Definition validate_scope (s : ScheduledScriptScope) : result unit string :=
  if String.eqb (sp_kind s) "all" && negb (isSome (sp_group_id s)) && negb (isSome (sp_agent_id s)) then Ok tt
  else if String.eqb (sp_kind s) "group" && isSome (sp_group_id s) && negb (isSome (sp_agent_id s)) then Ok tt
  else if String.eqb (sp_kind s) "agent" && isSome (sp_agent_id s) && negb (isSome (sp_group_id s)) then Ok tt
  else Err "invalid scope"%string.
Definition validate_schedule (s : ScheduledScriptSchedule) : result unit string :=
  if String.eqb (sd_frequency s) "hourly" then
    ensure in_range 0 59 (sd_fire_minute s) else "hourly fire_minute must be between 0 and 59"%string in
    ensure negb (isSome (sd_day_of_week s)) else "hourly schedules must not set day_of_week"%string in Ok tt
  else if String.eqb (sd_frequency s) "daily" then
    ensure in_range 0 1439 (sd_fire_minute s) else "daily fire_minute must be between 0 and 1439"%string in
    ensure negb (isSome (sd_day_of_week s)) else "daily schedules must not set day_of_week"%string in Ok tt
  else if String.eqb (sd_frequency s) "weekly" then
    ensure in_range 0 1439 (sd_fire_minute s) else "weekly fire_minute must be between 0 and 1439"%string in
    ensure is_some_and (sd_day_of_week s) (in_range 0 6) else "weekly schedules require day_of_week between 0 and 6"%string in Ok tt
  else Err "frequency must be hourly, daily, or weekly"%string.
Fixpoint validate_each {A} (check : A -> result unit string) (l : list A) : result unit string :=
  match l with [] => Ok tt | x :: l => let* _ := check x in validate_each check l end.
Definition validate_list {A} (none many : string) (check : A -> result unit string) (l : list A) : result unit string :=
  match l with
  | [] => Err none
  | _ => if 256 <? Z.of_nat (length l) then Err many else validate_each check l
  end.
Definition validate_scopes : list ScheduledScriptScope -> result unit string :=
  validate_list "at least one scope is required" "too many scopes" validate_scope.
Definition validate_schedules : list ScheduledScriptSchedule -> result unit string :=
  validate_list "at least one schedule is required" "too many schedules" validate_schedule.

Record CreateScheduledScriptBody := {
  cb_name : string; cb_shell : string; cb_script : string; cb_timeout_secs : Z; cb_scopes : list ScheduledScriptScope; cb_schedules : list ScheduledScriptSchedule
}.
Definition script_of_body (b : CreateScheduledScriptBody) : result ScheduledScript string :=
  let* name := validate_name (cb_name b) in
  let* shell := validate_shell (cb_shell b) in
  let* _ := validate_script (cb_script b) in
  let* timeout := validate_timeout (cb_timeout_secs b) in
  let* _ := validate_scopes (cb_scopes b) in
  let* _ := validate_schedules (cb_schedules b) in
  Ok {| sr_id := 0; sr_name := name; sr_shell := shell; sr_script := cb_script b; sr_timeout_secs := timeout; sr_enabled := true;
        sr_scopes := cb_scopes b; sr_schedules := cb_schedules b |}.
Definition create_script (d : ScriptTables) (user : AuthUser) (b : CreateScheduledScriptBody) : ScriptTables * result Z ScriptError :=
  if negb (is_admin user) then (d, Err ScriptForbidden)
  else match script_of_body b with
       | Err m => (d, Err (ScriptBad m))
       | Ok s => let '(d, id) := create_script_row d s in (d, Ok id)
       end.
(** Checks a field that is there. *)
Definition given {A B} (check : A -> result B string) (o : option A) : result (option B) string :=
  match o with Some a => let* b := check a in Ok (Some b) | None => Ok None end.
Definition update_of_body (b : ScriptUpdate) : result ScriptUpdate string :=
  let* name := given validate_name (up_name b) in
  let* shell := given validate_shell (up_shell b) in
  let* _ := given validate_script (up_script b) in
  let* timeout := given validate_timeout (up_timeout_secs b) in
  let* _ := given validate_scopes (up_scopes b) in
  let* _ := given validate_schedules (up_schedules b) in
  Ok {| up_enabled := up_enabled b; up_name := name; up_shell := shell; up_script := up_script b; up_timeout_secs := timeout;
        up_scopes := up_scopes b; up_schedules := up_schedules b |}.
Definition update_script (d : ScriptTables) (user : AuthUser) (id : Z) (b : ScriptUpdate) : ScriptTables * result unit ScriptError :=
  if negb (is_admin user) then (d, Err ScriptForbidden)
  else match update_of_body b with
       | Err m => (d, Err (ScriptBad m))
       | Ok u => match update_script_row d id u with Some d => (d, Ok tt) | None => (d, Err ScriptInternal) end
       end.
Definition delete_script (d : ScriptTables) (user : AuthUser) (id : Z) : ScriptTables * result unit ScriptError :=
  if negb (is_admin user) then (d, Err ScriptForbidden)
  else let '(d, found) := delete_script_row d id in (d, if found then Ok tt else Err ScriptNotFound).
(** [now]: the moment of the request; [insert_ok]: whether each row could be written. *)
Definition trigger_agent (s : ScheduledScript) (now : Z) (connected : gset Uuid) (insert_ok : Uuid -> bool) (k : ScriptTables * list Run) (agent : Uuid)
    : ScriptTables * list Run :=
  let online := bool_decide (agent ∈ connected) in
  (insert_execution k.1 (insert_ok agent) true (sr_id s) agent (fire_status online) now, k.2 ++ (if online then [spawned s agent now true] else [])).
Definition trigger_script (d : ScriptTables) (user : AuthUser) (allow_remote_script : bool) (id now : Z) (connected : gset Uuid) (insert_ok : Uuid -> bool)
    : ScriptTables * list Run * result Z ScriptError :=
  if negb (is_admin user) || negb allow_remote_script then (d, [], Err ScriptForbidden)
  else
    match script_body d id with
    | None => (d, [], Err ScriptNotFound)
    | Some s =>
        let targets := set_order (resolve_agents d (sr_scopes s)) in
        match targets with
        | [] => (d, [], Err (ScriptBad "No agents in scope"))
        | _ => let '(d, runs) := foldl (trigger_agent s now connected insert_ok) (d, []) targets in (d, runs, Ok (Z.of_nat (length targets)))
        end
    end.
End scripts.

(** ** Running a script on a device: [dispatch.rs] *)

Section dispatch.
Context `{UuidText}.
(** The human-readable text of a refusal. *)
Variable error_text : CommandDenied -> string.

(** How the wait for an answer ends: with the device's reply, with its sender dropped, or at the time limit. *)
Inductive Answer : Type := AReply (v : json) | AClosed | ATimeout.
Definition wait_secs (timeout : Z) : Z := Z.min (timeout + 15) 330.
Definition script_error (agent : Uuid) (msg : string) (rest : list (string * json)) : json :=
  mk_obj ([("agent_id", uuid_json agent); ("ok", JBool false); ("error", JStr msg)]%string ++ rest).
(** The waiter is registered before the command goes out, so the answer cannot be missed. *)
Definition start_script (r : AgentRegistry) (w : RpcWaiters) (agent : Uuid) (shell script : string) (timeout : Z) (rid tx : Uuid)
    : AgentRegistry * RpcWaiters * option json :=
  let w := register_script_waiter w rid tx in
  match send_command r agent (RunScript_ {| rs_request_id := uuid_text rid; rs_shell := Some shell; rs_script := script; rs_timeout_secs := Some timeout |}) with
  | Err e => (r, remove_script_waiter w rid, Some (script_error agent (error_text e) [("code"%string, JStr (code e))]))
  | Ok r => (r, w, None)
  end.
(** [w]: the waiters when the wait ends. *)
Definition finish_wait (w : RpcWaiters) (agent rid : Uuid) (a : Answer) : RpcWaiters * json :=
  match a with
  | AReply v => (w, if is_object v then set_idx v "agent_id" (uuid_json agent) else v)
  | AClosed => (w, script_error agent "Internal wait channel closed." [])
  | ATimeout => (remove_script_waiter w rid, script_error agent "Timed out waiting for script result." [("request_id"%string, uuid_json rid)])
  end.
(** The whole wait; [meanwhile] is what the waiters' other users do until it ends. *)
Definition run_script_and_wait (r : AgentRegistry) (w : RpcWaiters) (agent : Uuid) (shell script : string) (timeout : Z) (rid tx : Uuid)
    (meanwhile : RpcWaiters -> RpcWaiters) (a : Answer) : AgentRegistry * RpcWaiters * json :=
  match start_script r w agent shell script timeout rid tx with
  | (r, w, Some v) => (r, w, v)
  | (r, w, None) => let '(w, v) := finish_wait (meanwhile w) agent rid a in (r, w, v)
  end.

(** ** What is recorded: [spawn_run_and_record] *)

Definition section_text (title body : string) : string := ("--- " ++ title ++ " ---" ++ String "010" body ++ String "010" "")%string.
Definition str_field (v : json) (k : string) : option string := get v k ≫= as_str.
Definition result_output (v : json) (skip_empty_error : bool) : string :=
  let part title k := match str_field v k with Some s => if String.eqb s "" then ""%string else section_text title s | None => ""%string end in
  (part "STDOUT" "stdout" ++ part "STDERR" "stderr"
   ++ match str_field v "error" with Some s => if skip_empty_error && String.eqb s "" then "" else section_text "ERROR" s | None => "" end)%string.
(** [result.get(ok) == Some(false) || error is there without an exit code]. *)
Definition result_failed (v : json) : bool :=
  is_some_and (get v "ok") (fun x => json_eqb x (JBool false)) || isSome (get v "error") && negb (isSome (get v "exit_code")).
Definition result_status (v : json) : string :=
  if result_failed v then "error" else if is_some_and (get v "exit_code") (fun x => json_eqb x (JInt 0)) then "success" else "failed".
Definition record_result (d : ScriptTables) (run : Run) (v : json) : ScriptTables :=
  finish_execution d (rn_script run) (rn_agent run) (rn_at run) (result_status v) (result_output v (rn_skip_empty_error run)).

(** ** One-off and bulk runs: [remote_api.rs] *)

Definition unix_or_windows_shell (shell : string) : bool := existsb (String.eqb shell) ["powershell"; "cmd"; "sh"; "bash"]%string.
Definition clamp_timeout (t : option Z) : Z := clampZ 5 300 (default 120 t).
(** What a run asks of the device once it passed the checks. *)
Record RunRequest := { rq_shell : string; rq_script : string; rq_timeout : Z }.
(** [info]: the device's stored information; [None] when a query failed, which is only logged. *)
Definition shell_mismatch (info : option (option json)) (shell : string) : bool := is_some_and info (fun i => negb (shell_allowed i shell)).
Definition no_scripts (info : option (option json)) : bool := is_some_and info (fun i => negb (capability_attemptable i "script_execution")).
Definition agent_run_script (r : AgentRegistry) (user : AuthUser) (allow_remote_script : bool) (agent : Uuid) (shell script : string) (timeout : option Z)
    (info info' : option (option json)) : result RunRequest ScriptError :=
  let shell := to_ascii_lowercase (trim shell) in
  ensure is_operator user && allow_remote_script else ScriptForbidden in
  ensure negb (shell_mismatch info shell) else ScriptBad "shell must fit this agent" in
  ensure negb (no_scripts info') else ScriptUnsupported in
  ensure unix_or_windows_shell shell else ScriptBad "unsupported shell" in
  ensure bytes_len script <=? MAX_SCRIPT_BODY_BYTES else ScriptBad "script exceeds maximum size" in
  let* _ := rmap_err ScriptDenied (authorize_agent_command r agent
              (to_value (RunScript_ {| rs_request_id := ""; rs_shell := None; rs_script := ""; rs_timeout_secs := None |}))) in
  Ok {| rq_shell := shell; rq_script := script; rq_timeout := clamp_timeout timeout |}.
(** The status audited for a run's result. *)
Definition audit_status (v : json) : string := if result_failed v then "error" else "ok".
(** For each device, in order, what it is asked to run, or why not. *)
Definition agents_bulk_script (user : AuthUser) (allow_remote_script : bool) (agents : list Uuid) (shell script : string) (timeout : option Z)
    (info info' : Uuid -> option (option json)) : result (list (Uuid * result RunRequest ScriptError)) ScriptError :=
  let shell := to_ascii_lowercase (trim shell) in
  ensure is_operator user && allow_remote_script else ScriptForbidden in
  ensure (0 <? length agents)%nat else ScriptBad "agent_ids must be non-empty" in
  ensure (length agents <=? 64)%nat else ScriptBad "at most 64 agents per bulk request" in
  ensure unix_or_windows_shell shell else ScriptBad "unsupported shell" in
  ensure bytes_len script <=? MAX_SCRIPT_BODY_BYTES else ScriptBad "script exceeds maximum size" in
  Ok ((fun a => (a, if shell_mismatch (info a) shell then Err (ScriptBad "shell must fit this agent")
                    else if no_scripts (info' a) then Err ScriptUnsupported
                    else Ok {| rq_shell := shell; rq_script := script; rq_timeout := clamp_timeout timeout |})) <$> agents).
End dispatch.

(** ** One tick *)

Section ticks.
Context (to_lowercase : string -> string) (local_hour local_minute local_weekday : Z -> Z).
Context (set_order : gset Uuid -> list Uuid) (row_order : list ScheduledScript -> list ScheduledScript).
Hypothesis set_order_perm : forall X, set_order X ≡ₚ elements X.
Hypothesis row_order_perm : forall l, row_order l ≡ₚ l.
Abbreviation matches := (matches local_hour local_minute local_weekday).
Abbreviation tick_script := (tick_script local_hour local_minute local_weekday set_order).
Abbreviation tick := (tick local_hour local_minute local_weekday set_order row_order).

(** Only executions changed, none was lost, and only scripts of [P] have new ones. *)
Record keeps_tables (P : Z -> Prop) (d d' : ScriptTables) : Prop := {
  kt_scripts : scripts d' = scripts d; kt_next : next_script d' = next_script d; kt_agents : agent_ids d' = agent_ids d; kt_members : group_members d' = group_members d;
  kt_other : forall k, ~ P k.1.1 -> executions d' !! k = executions d !! k;
  kt_grows : forall k, is_Some (executions d !! k) -> is_Some (executions d' !! k)
}.
Lemma keeps_refl P d : keeps_tables P d d.
Proof. by split. Qed.
Lemma keeps_trans P d1 d2 d3 : keeps_tables P d1 d2 -> keeps_tables P d2 d3 -> keeps_tables P d1 d3.
Proof. intros [A1 A2 A3 A4 A5 A6] [B1 B2 B3 B4 B5 B6]. split; try congruence; [|by auto]. intros k Hk. by rewrite B5, A5. Qed.
Lemma resolve_same d d' scopes : agent_ids d' = agent_ids d -> group_members d' = group_members d -> resolve_agents d' scopes = resolve_agents d scopes.
Proof. intros E1 E2. unfold resolve_agents. by rewrite E1, E2. Qed.
Lemma insert_keeps (P : Z -> Prop) d ok manual id agent status at_ : P id -> keeps_tables P d (insert_execution d ok manual id agent status at_).
Proof.
  intros Hp. unfold insert_execution. destruct (_ && _); [|apply keeps_refl]. split; try done.
  - intros k Hk. cbn [executions set_executions]. rewrite lookup_insert_ne; [done|]. by intros <-.
  - intros k [x Hx]. cbn [executions set_executions]. destruct (decide ((id, agent, to_micros at_) = k)) as [<-|?]; [by rewrite lookup_insert_eq; eexists|by rewrite lookup_insert_ne by done; eexists].
Qed.
(** A row written for one device leaves the others' alone. *)
Lemma insert_other_agent d ok manual id agent status at_ id' agent' at' :
  agent' <> agent -> execution_exists (insert_execution d ok manual id agent status at_) id' agent' at' = execution_exists d id' agent' at'.
Proof.
  intros Hne. unfold insert_execution. destruct (_ && _); [|done]. unfold execution_exists. cbn [executions set_executions]. rewrite lookup_insert_ne; [done|]. congruence.
Qed.

Definition fires (e : TickEnv) (d : ScriptTables) (s : ScheduledScript) (agent : Uuid) : bool :=
  bool_decide (agent ∈ te_connected e (sr_id s)) && negb (execution_exists d (sr_id s) agent (minute_start (te_now e))).
Definition runs_of (e : TickEnv) (d : ScriptTables) (s : ScheduledScript) (l : list Uuid) : list Run :=
  (fun a => spawned s a (minute_start (te_now e)) false) <$> List.filter (fires e d s) l.

Lemma tick_agents_spec e s l k :
  tk_ok k = true -> (forall a, te_exists_ok e (sr_id s) a = true) -> NoDup l ->
  let k' := foldl (tick_agent e s) k l in
  tk_ok k' = true /\ tk_runs k' = tk_runs k ++ runs_of e (tk_tables k) s l /\ keeps_tables (eq (sr_id s)) (tk_tables k) (tk_tables k').
Proof.
  intros Hk Hex. revert k Hk. induction l as [|a l IH]; intros k Hk Hnd; cbv zeta.
  - cbn. unfold runs_of. cbn. split_and!; [done|by rewrite app_nil_r|apply keeps_refl].
  - apply NoDup_cons in Hnd as [Ha Hnd]. cbn [foldl].
    assert (exists d', tick_agent e s k a = {| tk_tables := d'; tk_runs := tk_runs k ++ runs_of e (tk_tables k) s [a]; tk_ok := true |}
      /\ keeps_tables (eq (sr_id s)) (tk_tables k) d' /\ forall b, b <> a -> execution_exists d' (sr_id s) b (minute_start (te_now e)) = execution_exists (tk_tables k) (sr_id s) b (minute_start (te_now e)))
      as (d' & -> & Hkeep & Hother).
    { unfold tick_agent. rewrite Hk, Hex. cbn [negb]. cbv zeta. unfold runs_of. cbn [List.filter]. unfold fires.
      destruct (execution_exists (tk_tables k) (sr_id s) a (minute_start (te_now e))) eqn:E.
      - exists (tk_tables k). rewrite andb_false_r. cbn. rewrite app_nil_r. split_and!; [by destruct k; simpl in *; subst|apply keeps_refl|done].
      - exists (insert_execution (tk_tables k) (te_insert_ok e (sr_id s) a) false (sr_id s) a (fire_status (bool_decide (a ∈ te_connected e (sr_id s)))) (minute_start (te_now e))).
        split; [rewrite andb_true_r; by destruct (bool_decide _)|]. split; [by apply insert_keeps|]. intros b Hb. by apply insert_other_agent. }
    destruct (IH {| tk_tables := d'; tk_runs := tk_runs k ++ runs_of e (tk_tables k) s [a]; tk_ok := true |} eq_refl Hnd) as (H1 & H2 & H3). cbn [tk_runs tk_tables] in *.
    split_and!; [done| |by eapply keeps_trans]. rewrite H2, <- app_assoc. f_equal. unfold runs_of. rewrite <- fmap_app. f_equal.
    cbn [List.filter]. assert (List.filter (fires e d' s) l = List.filter (fires e (tk_tables k) s) l) as ->.
    { apply filter_ext_in. intros b Hb. unfold fires. rewrite Hother; [done|]. intros ->. by apply Ha, list_elem_of_In. }
    by destruct (fires e (tk_tables k) s a).
Qed.
Lemma keeps_mono (P Q : Z -> Prop) d d' : (forall id, P id -> Q id) -> keeps_tables P d d' -> keeps_tables Q d d'.
Proof. intros PQ [A1 A2 A3 A4 A5 A6]. split; try done. intros k Hk. apply A5. by intros ?%PQ. Qed.

(** The runs a script starts in a tick. *)
Definition script_runs (e : TickEnv) (d : ScriptTables) (s : ScheduledScript) : list Run :=
  if existsb (matches (te_now e)) (sr_schedules s) && negb (Nat.eqb (length (sr_scopes s)) 0)
  then runs_of e d s (set_order (resolve_agents d (sr_scopes s))) else [].
(** Every query of a tick is answered. *)
Definition all_answered (e : TickEnv) : Prop :=
  te_list_ok e = true /\ (forall id, te_resolve_ok e id = true) /\ forall id a, te_exists_ok e id a = true.

Lemma set_order_NoDup X : NoDup (set_order X).
Proof. rewrite set_order_perm. apply NoDup_elements. Qed.
Lemma elem_of_set_order X a : a ∈ set_order X <-> a ∈ X.
Proof. rewrite set_order_perm. apply elem_of_elements. Qed.

Lemma script_runs_same e d d' s :
  agent_ids d' = agent_ids d -> group_members d' = group_members d -> (forall k, k.1.1 = sr_id s -> executions d' !! k = executions d !! k) ->
  script_runs e d' s = script_runs e d s.
Proof.
  intros E1 E2 E3. unfold script_runs. destruct (_ && _); [|done]. rewrite (resolve_same d d') by done. unfold runs_of. f_equal.
  apply filter_ext. intros a. unfold fires, execution_exists. by rewrite E3.
Qed.
Lemma tick_script_spec e s k :
  tk_ok k = true -> all_answered e ->
  let k' := tick_script e k s in
  tk_ok k' = true /\ tk_runs k' = tk_runs k ++ script_runs e (tk_tables k) s /\ keeps_tables (eq (sr_id s)) (tk_tables k) (tk_tables k').
Proof.
  intros Hk (_ & Hres & Hex). cbv zeta. unfold tick_script, script_runs. rewrite Hk. cbn [negb].
  assert (tk_ok k = true /\ tk_runs k = tk_runs k ++ [] /\ keeps_tables (eq (sr_id s)) (tk_tables k) (tk_tables k)) as Hsame.
  { rewrite app_nil_r. split_and!; [done..|apply keeps_refl]. }
  destruct (existsb _ _); [|done]. cbn [negb andb]. destruct (sr_scopes s) as [|sc scs] eqn:Hsc; [done|]. rewrite Hres. cbn [length Nat.eqb negb].
  apply tick_agents_spec; [done|done|apply set_order_NoDup].
Qed.
Lemma tick_scripts_spec e l k :
  tk_ok k = true -> all_answered e -> NoDup (sr_id <$> l) ->
  let k' := foldl (tick_script e) k l in
  tk_ok k' = true /\ tk_runs k' = tk_runs k ++ (l ≫= script_runs e (tk_tables k)) /\ keeps_tables (fun id => id ∈ sr_id <$> l) (tk_tables k) (tk_tables k').
Proof.
  intros Hk He. revert k Hk. induction l as [|s l IH]; intros k Hk Hnd; cbv zeta.
  - cbn. split_and!; [done|by rewrite app_nil_r|apply keeps_refl].
  - rewrite fmap_cons in Hnd. apply NoDup_cons in Hnd as [Hs Hnd]. cbn [foldl].
    destruct (tick_script_spec e s k Hk He) as (H1 & H2 & H3). destruct (IH (tick_script e k s) H1 Hnd) as (G1 & G2 & G3). split_and!; [done| |].
    + rewrite G2, H2, <- app_assoc. f_equal. cbn [mbind list_bind]. f_equal. apply Forall_bind_ext, Forall_forall. intros x Hx.
      apply script_runs_same; [apply H3..|]. intros key Hkey. apply (kt_other _ _ _ H3). rewrite Hkey. intros E. apply Hs. rewrite E. by apply list_elem_of_fmap_2.
    + eapply keeps_trans; [eapply keeps_mono; [|exact H3]|eapply keeps_mono; [|exact G3]].
      * intros id <-. rewrite fmap_cons. by left.
      * intros id Hid. rewrite fmap_cons. by right.
Qed.

(** What a tick records for the devices it looks at. *)
Definition row_after (d : ScriptTables) (id : Z) (agent : Uuid) (at_ : Z) (online : bool) : Execution :=
  default {| ex_status := fire_status online; ex_output := None; ex_is_manual := false |} (executions d !! (id, agent, to_micros at_)).
Lemma keeps_body P d d' id : keeps_tables P d d' -> script_body d' id = script_body d id.
Proof. intros [E _ _ _ _ _]. unfold script_body. by rewrite E. Qed.
Lemma tick_agents_rows e s l k a :
  tk_ok k = true -> (forall b, te_exists_ok e (sr_id s) b = true) -> NoDup l -> a ∈ l -> te_insert_ok e (sr_id s) a = true -> isSome (script_body (tk_tables k) (sr_id s)) = true ->
  executions (tk_tables (foldl (tick_agent e s) k l)) !! (sr_id s, a, to_micros (minute_start (te_now e)))
  = Some (row_after (tk_tables k) (sr_id s) a (minute_start (te_now e)) (bool_decide (a ∈ te_connected e (sr_id s)))).
Proof.
  intros Hk Hex Hnd Ha Hins Hbody.
  assert (forall l k, tk_ok k = true -> a ∉ l -> executions (tk_tables (foldl (tick_agent e s) k l)) !! (sr_id s, a, to_micros (minute_start (te_now e)))
    = executions (tk_tables k) !! (sr_id s, a, to_micros (minute_start (te_now e)))) as Hrest.
  { clear -Hex. induction l as [|b l IH]; intros k Hk Hl; [done|]. apply not_elem_of_cons in Hl as [Hb Hl]. cbn [foldl]. unfold tick_agent at 2. rewrite Hk, Hex. cbn [negb]. cbv zeta.
    destruct (execution_exists _ _ _ _) eqn:E; [by apply IH|]. rewrite IH by done. cbn [tk_tables]. unfold insert_execution. destruct (_ && _); [|done].
    cbn [executions set_executions]. rewrite lookup_insert_ne; [done|]. congruence. }
  revert k Hk Hbody. induction l as [|b l IH]; intros k Hk Hbody; [by apply not_elem_of_nil in Ha|]. apply NoDup_cons in Hnd as [Hb Hnd]. cbn [foldl].
  apply elem_of_cons in Ha as [<-|Ha].
  - assert (tk_ok (tick_agent e s k a) = true) as Hk' by (unfold tick_agent; rewrite Hk, Hex; cbn [negb]; cbv zeta; by destruct (execution_exists _ _ _ _)).
    rewrite Hrest by done. unfold tick_agent. rewrite Hk, Hex. cbn [negb]. cbv zeta. unfold row_after.
    destruct (execution_exists (tk_tables k) (sr_id s) a (minute_start (te_now e))) eqn:E.
    + unfold execution_exists in E. by destruct (executions (tk_tables k) !! _).
    + cbn [tk_tables]. unfold insert_execution. rewrite Hins, Hbody, E. cbn [andb negb executions set_executions]. rewrite lookup_insert_eq.
      unfold execution_exists in E. by destruct (executions (tk_tables k) !! _).
  - assert (tk_ok (tick_agent e s k b) = true /\ isSome (script_body (tk_tables (tick_agent e s k b)) (sr_id s)) = true
      /\ executions (tk_tables (tick_agent e s k b)) !! (sr_id s, a, to_micros (minute_start (te_now e))) = executions (tk_tables k) !! (sr_id s, a, to_micros (minute_start (te_now e))))
      as (E1 & E2 & E3).
    { unfold tick_agent. rewrite Hk, Hex. cbn [negb]. cbv zeta. destruct (execution_exists _ _ b _); [done|]. cbn [tk_tables tk_ok].
      rewrite (keeps_body (eq (sr_id s)) (tk_tables k)) by by apply insert_keeps. split_and!; [done..|].
      unfold insert_execution. destruct (_ && _); [|done]. cbn [executions set_executions]. rewrite lookup_insert_ne; [done|]. intros [= ->]. done. }
    rewrite (IH Hnd Ha _ E1 E2). unfold row_after. by rewrite E3.
Qed.

Lemma enabled_NoDup d : NoDup (sr_id <$> scripts d) -> NoDup (sr_id <$> row_order (list_enabled_scripts d)).
Proof.
  intros Hnd. rewrite row_order_perm. unfold list_enabled_scripts. eapply sublist_NoDup; [exact Hnd|]. apply fmap_sublist, filter_sublist.
Qed.
Lemma elem_of_enabled d s : s ∈ row_order (list_enabled_scripts d) <-> s ∈ scripts d /\ sr_enabled s = true.
Proof. rewrite row_order_perm. unfold list_enabled_scripts. rewrite !list_elem_of_In, filter_In. done. Qed.
Lemma resolve_nothing d : resolve_agents d [] = ∅.
Proof. done. Qed.
Lemma elem_of_script_runs e d s run :
  run ∈ script_runs e d s <->
  exists agent, (exists sch, sch ∈ sr_schedules s /\ matches (te_now e) sch = true) /\ agent ∈ resolve_agents d (sr_scopes s) /\ agent ∈ te_connected e (sr_id s)
  /\ execution_exists d (sr_id s) agent (minute_start (te_now e)) = false /\ run = spawned s agent (minute_start (te_now e)) false.
Proof.
  unfold script_runs. destruct (existsb _ _ && _) eqn:E.
  - apply andb_true_iff in E as [E1 _]. apply existsb_exists in E1 as (sch & Hin%list_elem_of_In & Hm). unfold runs_of. rewrite list_elem_of_fmap. split.
    + intros (a & -> & Ha). apply list_elem_of_In, filter_In in Ha as [Ha Hf]. apply list_elem_of_In, elem_of_set_order in Ha. unfold fires in Hf. apply andb_true_iff in Hf as [Ho He].
      bool_prop. exists a. split; [by exists sch|]. by split_and!.
    + intros (a & _ & Ha & Hc & Hx & ->). exists a. split; [done|]. apply list_elem_of_In, filter_In. split; [by apply list_elem_of_In, elem_of_set_order|].
      unfold fires. rewrite Hx, bool_decide_eq_true_2; done.
  - split; [by intros ?%not_elem_of_nil|]. intros (a & (sch & Hin & Hm) & Ha & _). exfalso. apply andb_false_iff in E as [E|E].
    + assert (existsb (matches (te_now e)) (sr_schedules s) = true) as E'; [|congruence]. apply existsb_exists. exists sch. split; [by apply list_elem_of_In|done].
    + destruct (sr_scopes s); [|done]. rewrite resolve_nothing in Ha. by apply not_elem_of_empty in Ha.
Qed.
(** The device and script of a run. *)
Definition run_key (r : Run) : Z * Uuid * Z := (rn_script r, rn_agent r, to_micros (rn_at r)).
Lemma script_runs_keys e d s : NoDup (run_key <$> script_runs e d s).
Proof.
  unfold script_runs. destruct (_ && _); [|apply NoDup_nil_2]. unfold runs_of. rewrite <- list_fmap_compose. apply NoDup_fmap_2_strong.
  - intros a b _ _ E. unfold run_key in E. simpl in E. congruence.
  - eapply sublist_NoDup; [apply set_order_NoDup|apply filter_sublist].
Qed.
Lemma all_runs_keys e d l : NoDup (sr_id <$> l) -> NoDup (run_key <$> (l ≫= script_runs e d)).
Proof.
  induction l as [|s l IH]; intros Hnd; [apply NoDup_nil_2|]. rewrite fmap_cons in Hnd. apply NoDup_cons in Hnd as [Hs Hnd]. cbn [mbind list_bind]. rewrite fmap_app.
  apply NoDup_app. split; [apply script_runs_keys|]. split; [|by apply IH]. intros key (r & -> & Hr)%list_elem_of_fmap (r' & E & Hr')%list_elem_of_fmap.
  apply elem_of_script_runs in Hr as (a & _ & _ & _ & _ & ->). apply list_elem_of_bind in Hr' as (s' & Hr' & Hs'). apply elem_of_script_runs in Hr' as (a' & _ & _ & _ & _ & ->).
  unfold run_key in E. simpl in E. apply Hs. injection E as E _. rewrite E. by apply list_elem_of_fmap_2.
Qed.

Lemma tick_scripts_rows e l k s a sch :
  tk_ok k = true -> all_answered e -> NoDup (sr_id <$> l) -> s ∈ l -> sch ∈ sr_schedules s -> matches (te_now e) sch = true ->
  a ∈ resolve_agents (tk_tables k) (sr_scopes s) -> te_insert_ok e (sr_id s) a = true -> isSome (script_body (tk_tables k) (sr_id s)) = true ->
  executions (tk_tables (foldl (tick_script e) k l)) !! (sr_id s, a, to_micros (minute_start (te_now e)))
  = Some (row_after (tk_tables k) (sr_id s) a (minute_start (te_now e)) (bool_decide (a ∈ te_connected e (sr_id s)))).
Proof.
  intros Hk He Hnd Hs Hsch Hm. revert k Hk. induction l as [|x l IH]; intros k Hk Ha Hins Hbody; [by apply not_elem_of_nil in Hs|].
  rewrite fmap_cons in Hnd. apply NoDup_cons in Hnd as [Hx Hnd]. cbn [foldl]. destruct (tick_script_spec e x k Hk He) as (H1 & _ & H3). apply elem_of_cons in Hs as [<-|Hs].
  - destruct (tick_scripts_spec e l _ H1 He Hnd) as (_ & _ & G3). rewrite (kt_other _ _ _ G3) by done. unfold tick_script. rewrite Hk. cbn [negb].
    assert (existsb (matches (te_now e)) (sr_schedules s) = true) as -> by (apply existsb_exists; exists sch; split; [by apply list_elem_of_In|done]). cbn [negb].
    destruct He as (_ & Hr & Hex). destruct (sr_scopes s) as [|sc scs]; [rewrite resolve_nothing in Ha; by apply not_elem_of_empty in Ha|]. rewrite Hr.
    apply tick_agents_rows; [done|done|apply set_order_NoDup|by apply elem_of_set_order|done|done].
  - assert (sr_id x <> sr_id s) as Hne. { intros E. apply Hx. rewrite E. by apply list_elem_of_fmap_2. }
    rewrite (IH Hnd Hs _ H1); [|by rewrite (resolve_same (tk_tables k)) by apply H3|done|by rewrite (keeps_body _ _ _ _ H3)].
    unfold row_after. by rewrite (kt_other _ _ _ H3).
Qed.
Lemma body_of d s : NoDup (sr_id <$> scripts d) -> s ∈ scripts d -> script_body d (sr_id s) = Some s.
Proof.
  unfold script_body. generalize (scripts d). intros l. induction l as [|x l IH]; intros Hnd Hs; [by apply not_elem_of_nil in Hs|].
  rewrite fmap_cons in Hnd. apply NoDup_cons in Hnd as [Hx Hnd]. cbn [List.find]. apply elem_of_cons in Hs as [<-|Hs]; [by rewrite Z.eqb_refl|].
  destruct (Z.eqb_spec (sr_id x) (sr_id s)) as [E|_]; [|by apply IH]. destruct Hx. rewrite E. by apply list_elem_of_fmap_2.
Qed.

(** A tick whose queries are answered runs exactly what is due: the runs it starts are, once each
    and nothing else, one for every enabled script with a schedule matching the minute in the
    scheduler's zone and every device in its scopes that is connected and has no execution recorded for
    this minute yet; each carries the script as stored and the start of the minute; and every device of a
    due script, connected or not, has a row for the minute afterwards, written now unless one was
    there, if the write succeeds. *)
Theorem tick_fires_exactly e d :
  all_answered e -> NoDup (sr_id <$> scripts d) ->
  let k := tick e d in
  tk_ok k = true /\ NoDup (run_key <$> tk_runs k) /\ scripts (tk_tables k) = scripts d
  /\ (forall run, run ∈ tk_runs k <-> exists s agent, s ∈ scripts d /\ sr_enabled s = true
       /\ (exists sch, sch ∈ sr_schedules s /\ matches (te_now e) sch = true) /\ agent ∈ resolve_agents d (sr_scopes s) /\ agent ∈ te_connected e (sr_id s)
       /\ execution_exists d (sr_id s) agent (minute_start (te_now e)) = false /\ run = spawned s agent (minute_start (te_now e)) false)
  /\ (forall s agent sch, s ∈ scripts d -> sr_enabled s = true -> sch ∈ sr_schedules s -> matches (te_now e) sch = true -> agent ∈ resolve_agents d (sr_scopes s) ->
       te_insert_ok e (sr_id s) agent = true ->
       executions (tk_tables k) !! (sr_id s, agent, to_micros (minute_start (te_now e)))
       = Some (row_after d (sr_id s) agent (minute_start (te_now e)) (bool_decide (agent ∈ te_connected e (sr_id s))))).
Proof.
  intros He Hnd. cbv zeta. destruct He as (Hlist & He). unfold tick at 1 2 3 4 5. rewrite Hlist. pose proof (conj Hlist He : all_answered e) as Hall.
  set (k0 := {| tk_tables := d; tk_runs := []; tk_ok := true |}). set (l := row_order (list_enabled_scripts d)). pose proof (enabled_NoDup d Hnd) as Hl.
  destruct (tick_scripts_spec e l k0 eq_refl Hall Hl) as (H1 & H2 & H3). cbn [tk_runs tk_tables k0 app] in *. split_and!; [done| | | |].
  - rewrite H2. by apply all_runs_keys.
  - apply H3.
  - intros run. rewrite H2, list_elem_of_bind. split.
    + intros (s & Hr & Hs). apply elem_of_enabled in Hs as [Hs Hen]. apply elem_of_script_runs in Hr as (a & Hm & Ha & Hc & Hx & ->). by exists s, a.
    + intros (s & a & Hs & Hen & Hm & Ha & Hc & Hx & ->). exists s. split; [apply elem_of_script_runs; by exists a|by apply elem_of_enabled].
  - intros s a sch Hs Hen Hsch Hm Ha Hins. apply (tick_scripts_rows e l k0 s a sch); try done; [by apply elem_of_enabled|]. cbn [tk_tables k0]. by rewrite body_of.
Qed.

(** ** Histories *)

Inductive ScriptOp : Type :=
| OTick (e : TickEnv)
| OCreate (user : AuthUser) (b : CreateScheduledScriptBody)
| OUpdate (user : AuthUser) (id : Z) (b : ScriptUpdate)
| ODelete (user : AuthUser) (id : Z)
| OTrigger (user : AuthUser) (allow_remote_script : bool) (id now : Z) (connected : gset Uuid) (insert_ok : Uuid -> bool)
| ORecord (run : Run) (v : json)
| ODevices (ids : gset Uuid) (members : gset (Uuid * Uuid)).
Definition script_op (d : ScriptTables) (op : ScriptOp) : ScriptTables * list Run :=
  match op with
  | OTick e => let k := tick e d in (tk_tables k, tk_runs k)
  | OCreate user b => ((create_script to_lowercase d user b).1, [])
  | OUpdate user id b => ((update_script to_lowercase d user id b).1, [])
  | ODelete user id => ((delete_script d user id).1, [])
  | OTrigger user allow id now connected insert_ok => ((trigger_script set_order d user allow id now connected insert_ok).1.1, [])
  | ORecord run v => (record_result d run v, [])
  | ODevices ids members => ({| scripts := scripts d; next_script := next_script d; executions := executions d; agent_ids := ids; group_members := members |}, [])
  end.
(** The tables and every run the ticks started. *)
Fixpoint script_history (d : ScriptTables) (ops : list ScriptOp) : ScriptTables * list Run :=
  match ops with
  | [] => (d, [])
  | op :: ops => let '(d, runs) := script_op d op in let '(d, more) := script_history d ops in (d, runs ++ more)
  end.

(** Ids are fresh, and every scheduled run so far has its row unless its script is gone. *)
Record once (d : ScriptTables) (past : list Run) : Prop := {
  on_ids : NoDup (sr_id <$> scripts d);
  on_next : forall s, s ∈ scripts d -> sr_id s < next_script d;
  on_keys : NoDup (run_key <$> past);
  on_rows : forall r, r ∈ past -> rn_script r < next_script d /\ (isSome (script_body d (rn_script r)) = true -> is_Some (executions d !! run_key r))
}.

Lemma body_ids d d' id : sr_id <$> scripts d' = sr_id <$> scripts d -> isSome (script_body d' id) = isSome (script_body d id).
Proof.
  unfold script_body. generalize (scripts d) as l, (scripts d') as l'. induction l as [|x l IH]; intros [|y l']; try done.
  rewrite !fmap_cons. intros [= E1 E2]. cbn [List.find]. rewrite E1. destruct (sr_id x =? id); [done|by apply IH].
Qed.
Lemma once_kept d d' past :
  once d past -> sr_id <$> scripts d' = sr_id <$> scripts d -> next_script d' = next_script d -> (forall k, is_Some (executions d !! k) -> is_Some (executions d' !! k)) -> once d' past.
Proof.
  intros [A1 A2 A3 A4] E1 E2 E3. split; [by rewrite E1| |done|].
  - intros s Hs. rewrite E2. assert (sr_id s ∈ sr_id <$> scripts d) as (s0 & E & Hs0)%list_elem_of_fmap by (rewrite <- E1; by apply list_elem_of_fmap_2). rewrite E. by apply A2.
  - intros r Hr. rewrite E2. destruct (A4 r Hr) as [B1 B2]. split; [done|]. rewrite (body_ids d d') by done. auto.
Qed.
Lemma keeps_once P d d' past : once d past -> keeps_tables P d d' -> once d' past.
Proof. intros Ho Hk. eapply once_kept; [done|by rewrite (kt_scripts _ _ _ Hk)|apply Hk|apply Hk]. Qed.

Lemma once_tick_agent e s k past a :
  once (tk_tables k) (past ++ tk_runs k) -> s ∈ scripts (tk_tables k) -> te_insert_ok e (sr_id s) a = true ->
  once (tk_tables (tick_agent e s k a)) (past ++ tk_runs (tick_agent e s k a)) /\ scripts (tk_tables (tick_agent e s k a)) = scripts (tk_tables k).
Proof.
  intros Ho Hs Hins. unfold tick_agent. destruct (tk_ok k); [|done]. cbn [negb]. cbv zeta. destruct (negb _); [done|].
  destruct (execution_exists _ _ _ _) eqn:Hx; [done|]. cbn [tk_tables tk_runs].
  set (d' := insert_execution _ _ _ _ _ _ _). assert (keeps_tables (eq (sr_id s)) (tk_tables k) d') as Hk by by apply insert_keeps. split; [|apply Hk].
  pose proof (keeps_once _ _ _ _ Ho Hk) as Ho'. destruct (bool_decide _); [|by rewrite app_nil_r].
  assert (executions (tk_tables k) !! (sr_id s, a, to_micros (minute_start (te_now e))) = None) as Hnone. { unfold execution_exists in Hx. by destruct (executions (tk_tables k) !! _). }
  pose proof (body_of _ s (on_ids _ _ Ho) Hs) as Hb.
  rewrite app_assoc. split; [apply Ho'|apply Ho'| |].
  - rewrite fmap_app. apply NoDup_app. split; [apply Ho|]. split; [|apply NoDup_singleton]. intros key (r & -> & Hr)%list_elem_of_fmap Hin%list_elem_of_singleton.
    destruct (on_rows _ _ Ho r Hr) as [_ Hrow]. cbn in Hin. unfold run_key in Hin at 2. cbn in Hin. injection Hin as Hid Hag Hat. rewrite Hid, Hb in Hrow. destruct (Hrow eq_refl) as [x Hx'].
    unfold run_key in Hx'. rewrite Hid, Hag, Hat, Hnone in Hx'. done.
  - intros r [Hr|Hr%list_elem_of_singleton]%elem_of_app; [by apply Ho'|]. subst r. cbn [rn_script spawned]. rewrite (kt_next _ _ _ Hk). split; [by apply (on_next _ _ Ho)|].
    intros _. subst d'. unfold insert_execution, run_key. cbn. rewrite Hins, Hb, Hx. cbn. rewrite lookup_insert_eq. by eexists.
Qed.
Lemma once_tick_agents e s l k past :
  (forall a, te_insert_ok e (sr_id s) a = true) -> once (tk_tables k) (past ++ tk_runs k) -> s ∈ scripts (tk_tables k) ->
  let k' := foldl (tick_agent e s) k l in once (tk_tables k') (past ++ tk_runs k') /\ scripts (tk_tables k') = scripts (tk_tables k).
Proof.
  intros Hins. revert k. induction l as [|a l IH]; intros k Ho Hs; [done|]. cbn [foldl]. destruct (once_tick_agent e s k past a Ho Hs (Hins a)) as [H1 E].
  rewrite <- E. apply IH; [done|by rewrite E].
Qed.
Lemma once_tick_scripts e l k past :
  (forall id a, te_insert_ok e id a = true) -> once (tk_tables k) (past ++ tk_runs k) -> (forall s, s ∈ l -> s ∈ scripts (tk_tables k)) ->
  let k' := foldl (tick_script e) k l in once (tk_tables k') (past ++ tk_runs k').
Proof.
  intros Hins. revert k. induction l as [|s l IH]; intros k Ho Hl; [done|]. cbn [foldl].
  assert (once (tk_tables (tick_script e k s)) (past ++ tk_runs (tick_script e k s)) /\ scripts (tk_tables (tick_script e k s)) = scripts (tk_tables k)) as [H1 E].
  { unfold tick_script. destruct (negb _); [done|]. destruct (negb _); [done|]. destruct (sr_scopes s) as [|sc scs]; [done|]. destruct (te_resolve_ok e _); [|done].
    apply once_tick_agents; [done|done|]. apply Hl. by left. }
  apply IH; [done|]. intros x Hx. rewrite E. apply Hl. by right.
Qed.
Lemma once_tick e d past : (forall id a, te_insert_ok e id a = true) -> once d past -> once (tk_tables (tick e d)) (past ++ tk_runs (tick e d)).
Proof.
  intros Hins Ho. unfold tick. destruct (te_list_ok e); cbn [tk_tables tk_runs]; [|by rewrite app_nil_r].
  apply (once_tick_scripts e _ {| tk_tables := d; tk_runs := []; tk_ok := true |}); [done|cbn; by rewrite app_nil_r|]. intros s [Hs _]%elem_of_enabled. done.
Qed.

Lemma find_app_new (l : list ScheduledScript) x id : sr_id x <> id -> List.find (fun s => sr_id s =? id) (l ++ [x]) = List.find (fun s => sr_id s =? id) l.
Proof.
  intros Hx. induction l as [|y l IH]; cbn [app List.find]; [by destruct (Z.eqb_spec (sr_id x) id)|]. by rewrite IH.
Qed.
Lemma once_create d past s : once d past -> once (create_script_row d s).1 past.
Proof.
  intros [A1 A2 A3 A4]. unfold create_script_row. cbv zeta. cbn [fst]. split; cbn [scripts next_script set_scripts executions].
  - rewrite fmap_app. apply NoDup_app. split; [done|]. split; [|apply NoDup_singleton]. intros id (x & -> & Hx)%list_elem_of_fmap E%list_elem_of_singleton. apply A2 in Hx. cbn in E. lia.
  - intros x [Hx|Hx%list_elem_of_singleton]%elem_of_app; [apply A2 in Hx; lia|]. subst x. cbn. lia.
  - done.
  - intros r Hr. destruct (A4 r Hr) as [B1 B2]. split; [lia|]. unfold script_body. cbn [scripts set_scripts]. rewrite find_app_new by (cbn; lia). exact B2.
Qed.
Lemma once_update d past id u d' : once d past -> update_script_row d id u = Some d' -> once d' past.
Proof.
  intros Ho. unfold update_script_row. destruct (isSome _).
  - intros [= <-]. eapply once_kept; [done| |done|done]. cbn [scripts set_scripts]. rewrite <- list_fmap_compose. apply list_fmap_ext. intros i s _. cbn. by destruct (sr_id s =? id).
  - intros E. assert (d' = d) as ->; [|done]. destruct (up_scopes u) as [[|]|], (up_schedules u) as [[|]|]; by simplify_eq.
Qed.
Lemma once_delete d past id : once d past -> once (delete_script_row d id).1 past.
Proof.
  intros [A1 A2 A3 A4]. unfold delete_script_row. destruct (isSome _); [|by split]. cbn [fst]. split; cbn [scripts next_script set_scripts set_executions executions].
  - eapply sublist_NoDup; [exact A1|]. apply fmap_sublist, filter_sublist.
  - intros s [Hs _]%list_elem_of_In%filter_In. apply A2. by apply list_elem_of_In.
  - done.
  - intros r Hr. destruct (A4 r Hr) as [B1 B2]. split; [done|]. unfold script_body. cbn [scripts set_scripts set_executions]. intros Hsome.
    destruct (List.find _ (List.filter _ _)) as [x|] eqn:F; [|done]. apply find_some in F as [[Hx Hne]%filter_In Heq]. bool_prop.
    assert (isSome (script_body d (rn_script r)) = true) as Hb.
    { unfold script_body. destruct (List.find _ (scripts d)) eqn:F'; [done|]. pose proof (find_none _ _ F' x Hx) as Hf. cbn in Hf. lia. }
    destruct (B2 Hb) as [y Hy]. exists y. apply map_lookup_filter_Some. split; [done|]. cbn. lia.
Qed.
Lemma trigger_keeps P s now connected insert_ok l k : P (sr_id s) -> keeps_tables P k.1 (foldl (trigger_agent s now connected insert_ok) k l).1.
Proof.
  intros Hp. revert k. induction l as [|a l IH]; intros k; [apply keeps_refl|]. cbn [foldl]. eapply keeps_trans; [|apply IH]. by apply insert_keeps.
Qed.
Lemma once_op d past op :
  match op with OTick e => forall id a, te_insert_ok e id a = true | _ => True end -> once d past -> once (script_op d op).1 (past ++ (script_op d op).2).
Proof.
  intros Hop Ho. destruct op as [e|user b|user id b|user id|user allow id now connected insert_ok|run v|ids members]; cbn [script_op fst snd]; rewrite ?app_nil_r.
  - by apply once_tick.
  - unfold create_script. destruct (negb _); [done|]. destruct (script_of_body _ b) as [s|]; [|done]. by apply (once_create d past s).
  - unfold update_script. destruct (negb _); [done|]. destruct (update_of_body _ b) as [u|]; [|done]. destruct (update_script_row d id u) as [d'|] eqn:E; [|done]. by eapply once_update.
  - unfold delete_script. destruct (negb _); [done|]. pose proof (once_delete d past id Ho). by destruct (delete_script_row d id).
  - unfold trigger_script. destruct (_ || _); [done|]. destruct (script_body d id) as [s|]; [|done]. destruct (set_order _) as [|a l]; [done|].
    pose proof (trigger_keeps (eq (sr_id s)) s now connected insert_ok (a :: l) (d, []) eq_refl) as Hk. destruct (foldl _ _ _) as [d' runs]. by eapply keeps_once.
  - eapply once_kept; [done|done|done|]. intros k [x Hx]. unfold record_result, finish_execution. cbn [executions set_executions].
    destruct (decide ((rn_script run, rn_agent run, to_micros (rn_at run)) = k)) as [<-|Hne]; [rewrite lookup_alter_eq, Hx; by eexists|rewrite lookup_alter_ne by done; by eexists].
  - by eapply once_kept.
Qed.

Lemma once_history ops d past :
  once d past -> (forall e, OTick e ∈ ops -> forall id a, te_insert_ok e id a = true) -> NoDup (run_key <$> past ++ (script_history d ops).2).
Proof.
  revert d past. induction ops as [|op ops IH]; intros d past Hd Hins; cbn [script_history]; [rewrite app_nil_r; apply Hd|].
  assert (once (script_op d op).1 (past ++ (script_op d op).2)) as H1. { apply once_op; [|done]. destruct op as [e| | | | | |]; try done. apply Hins. by left. }
  destruct (script_op d op) as [d1 r1]. specialize (IH d1 (past ++ r1) H1). destruct (script_history d1 ops) as [d2 r2]. cbn [snd] in *. rewrite app_assoc.
  apply IH. intros e He. apply Hins. by right.
Qed.
(** What the ticks of a history started: the script, the device and the minute of the clock. *)
Definition minute_of (now : Z) : Z := now / 60000000000.
Definition started (now : Z) (r : Run) : Z * Uuid * Z := (rn_script r, rn_agent r, minute_of now).
Fixpoint ticked (d : ScriptTables) (ops : list ScriptOp) : list (Z * Uuid * Z) :=
  match ops with
  | [] => []
  | op :: ops => match op with OTick e => started (te_now e) <$> tk_runs (tick e d) | _ => [] end ++ ticked (script_op d op).1 ops
  end.
Lemma minute_start_mult now : minute_start now = minute_of now * 60000000000.
Proof. unfold minute_start, minute_of. pose proof (Z.div_mod now 60000000000 ltac:(lia)). lia. Qed.
Definition timed (e : TickEnv) (k : Ticked) : Prop := Forall (fun r => rn_at r = minute_start (te_now e)) (tk_runs k).
Lemma timed_agents e s l k : timed e k -> timed e (foldl (tick_agent e s) k l).
Proof.
  revert k. induction l as [|a l IH]; intros k T; [done|]. cbn [foldl]. apply IH. unfold tick_agent, timed.
  destruct (negb (tk_ok k)); [done|]. cbv zeta. destruct (negb _); [done|]. destruct (execution_exists _ _ _ _); [done|].
  cbn [tk_runs]. apply Forall_app. split; [exact T|]. destruct (bool_decide _); [by apply Forall_singleton|exact (Forall_nil_2 _)].
Qed.
Lemma timed_tick e d : timed e (tick e d).
Proof.
  unfold tick. destruct (te_list_ok e); [|by constructor]. set (k := {| tk_tables := d; tk_runs := []; tk_ok := true |}).
  assert (timed e k) as T by exact (Forall_nil_2 _). revert T. generalize k as k0, (row_order (list_enabled_scripts d)) as l.
  intros k0 l. revert k0. induction l as [|s l IH]; intros k0 T; [done|]. cbn [foldl]. apply IH. unfold tick_script.
  repeat case_match; try done. by apply timed_agents.
Qed.
Lemma ticked_keys d ops : (fun '(s, a, m) => (s, a, m * 60000000)) <$> ticked d ops = run_key <$> (script_history d ops).2.
Proof.
  revert d. induction ops as [|op ops IH]; intros d; [done|]. cbn [ticked script_history]. specialize (IH (script_op d op).1).
  assert ((fun '(s, a, m) => (s, a, m * 60000000)) <$> (match op with OTick e => started (te_now e) <$> tk_runs (tick e d) | _ => [] end)
          = run_key <$> (script_op d op).2) as E.
  { destruct op as [e| | | | | |]; try done. cbn [script_op snd]. rewrite <-list_fmap_compose. apply list_fmap_ext. intros i r L. cbn. unfold run_key.
    pose proof (timed_tick e d) as T. unfold timed in T. rewrite Forall_forall in T. rewrite (T r) by (by eapply list_elem_of_lookup_2).
    rewrite minute_start_mult. unfold to_micros. do 2 f_equal. replace (minute_of (te_now e) * 60000000000) with (minute_of (te_now e) * 60000000 * 1000) by lia.
    by rewrite Z.div_mul. }
  destruct (script_op d op) as [d1 r1]. cbn [fst snd] in *. destruct (script_history d1 ops) as [d2 r2]. cbn [snd] in *. by rewrite !fmap_app, E, IH.
Qed.

(** C27: a schedule fires once: whatever administrators create, change, delete and trigger, whatever
    devices do, however often the scheduler ticks and at whatever times, and whichever of its queries
    fail, ticks whose own inserts succeed never start the same script on the same device twice within
    one minute of the clock. *)
Theorem scheduled_runs_fire_once ops :
  (forall e, OTick e ∈ ops -> forall id a, te_insert_ok e id a = true) -> NoDup (ticked ScriptTables_empty ops).
Proof.
  intros Hins. apply (NoDup_fmap_1 (fun '(s, a, m) => (s, a, m * 60000000))). rewrite ticked_keys.
  assert (once ScriptTables_empty []) as Ho.
  { split; try (intros ? Hx; by apply not_elem_of_nil in Hx); apply NoDup_nil_2. }
  apply (once_history ops _ [] Ho Hins).
Qed.

(** ** What is stored can run *)

Record script_ok (s : ScheduledScript) : Prop := {
  sok_name : 0 < bytes_len (sr_name s) <= 120;
  sok_shell : sr_shell s = "powershell"%string \/ sr_shell s = "cmd"%string;
  sok_text : 0 < bytes_len (sr_script s) <= 262144;
  sok_timeout : 5 <= sr_timeout_secs s <= 300;
  sok_scopes : (0 < length (sr_scopes s) <= 256)%nat /\ Forall (fun sc => validate_scope sc = Ok tt) (sr_scopes s);
  sok_schedules : (0 < length (sr_schedules s) <= 256)%nat
    /\ Forall (fun sch => exists minute day, 0 <= minute < 1440 /\ 0 <= day <= 6 /\ matches_at minute day sch = true) (sr_schedules s)
}.

Lemma validate_each_Ok {A} (check : A -> result unit string) l : validate_each check l = Ok tt -> Forall (fun x => check x = Ok tt) l.
Proof. induction l as [|x l IH]; [constructor|]. cbn. destruct (check x) as [[]|] eqn:E; [|done]. intros Hl. constructor; [done|by apply IH]. Qed.
Lemma validate_list_Ok {A} none many (check : A -> result unit string) l u :
  validate_list none many check l = Ok u -> (0 < length l <= 256)%nat /\ Forall (fun x => check x = Ok tt) l.
Proof.
  destruct u. unfold validate_list. destruct l as [|x l]; [done|]. destruct (256 <? _) eqn:E; [done|]. intros Hl%validate_each_Ok. split; [|done]. apply Z.ltb_ge in E. cbn [length] in *. split; lia.
Qed.
Lemma string_len_pos s : s <> ""%string -> 0 < bytes_len s.
Proof. destruct s; [done|]. unfold bytes_len. cbn [String.length]. lia. Qed.
Lemma name_Ok n t : validate_name n = Ok t -> 0 < bytes_len t <= 120.
Proof.
  unfold validate_name. cbv zeta. destruct (String.eqb_spec (trim n) "") as [|Hne]; [done|]. cbn [negb]. destruct (_ <=? 120) eqn:E; [|done].
  intros [= <-]. split; [by apply string_len_pos|lia].
Qed.
Lemma shell_Ok s t : validate_shell to_lowercase s = Ok t -> t = "powershell"%string \/ t = "cmd"%string.
Proof. unfold validate_shell. cbv zeta. destruct (_ || _) eqn:E; [|done]. intros [= <-]. apply orb_true_iff in E as [E|E]; apply String.eqb_eq in E; [by left|by right]. Qed.
Lemma text_Ok s u : validate_script s = Ok u -> 0 < bytes_len s <= 262144.
Proof.
  unfold validate_script. destruct (String.eqb_spec s "") as [|Hne]; [done|]. cbn [negb]. destruct (_ <=? _) eqn:E; [|done]. intros _. split; [by apply string_len_pos|].
  change MAX_SCRIPT_BODY_BYTES with 262144 in E. lia.
Qed.
Lemma timeout_Ok t t' : validate_timeout t = Ok t' -> t' = t /\ 5 <= t <= 300.
Proof. unfold validate_timeout. destruct (in_range _ _ t) eqn:E; [|done]. intros [= <-]. split; [done|]. by apply in_range_spec in E. Qed.
(** A schedule that passes the check names a minute of the week. *)
Lemma schedule_Ok sch : validate_schedule sch = Ok tt -> exists minute day, 0 <= minute < 1440 /\ 0 <= day <= 6 /\ matches_at minute day sch = true.
Proof.
  unfold validate_schedule, matches_at. destruct (String.eqb (sd_frequency sch) "hourly"); [|destruct (String.eqb (sd_frequency sch) "daily"); [|destruct (String.eqb (sd_frequency sch) "weekly"); [|done]]].
  - destruct (in_range 0 59 _) eqn:R; [|done]. apply in_range_spec in R. intros _. exists (sd_fire_minute sch), 0. split_and!; [lia..|apply Z.eqb_refl].
  - destruct (in_range 0 1439 _) eqn:R; [|done]. apply in_range_spec in R. intros _. exists (sd_fire_minute sch), 0. split_and!; [lia..|apply Z.eqb_refl].
  - destruct (in_range 0 1439 _) eqn:R; [|done]. apply in_range_spec in R. destruct (sd_day_of_week sch) as [day|]; [|done]. cbn [is_some_and].
    destruct (in_range 0 6 day) eqn:D; [|done]. apply in_range_spec in D. intros _. exists (sd_fire_minute sch), day. split_and!; try lia. rewrite bool_decide_eq_true_2 by done. cbn. lia.
Qed.
Lemma schedules_Ok l u : validate_schedules l = Ok u ->
  (0 < length l <= 256)%nat /\ Forall (fun sch => exists minute day, 0 <= minute < 1440 /\ 0 <= day <= 6 /\ matches_at minute day sch = true) l.
Proof. intros [H1 H2]%validate_list_Ok. split; [done|]. eapply Forall_impl; [exact H2|]. intros sch. apply schedule_Ok. Qed.
Lemma given_Ok {A B} (check : A -> result B string) o o' :
  given check o = Ok o' -> match o with Some a => exists b, check a = Ok b /\ o' = Some b | None => o' = None end.
Proof. destruct o as [a|]; cbn; [|congruence]. intros (b & E & [= <-])%rbind_Ok. by exists b. Qed.

Lemma body_ok b s : script_of_body to_lowercase b = Ok s -> script_ok s.
Proof.
  unfold script_of_body. intros (n & N & (sh & S & (u1 & T & (t & M & (u2 & C & (u3 & D & [= <-])%rbind_Ok)%rbind_Ok)%rbind_Ok)%rbind_Ok)%rbind_Ok)%rbind_Ok.
  split; cbn; [by eapply name_Ok|by eapply shell_Ok|by eapply text_Ok| |by eapply validate_list_Ok|by eapply schedules_Ok].
  apply timeout_Ok in M as [-> ?]. done.
Qed.
Lemma updated_ok b u s : update_of_body to_lowercase b = Ok u -> script_ok s -> script_ok (updated u s).
Proof.
  unfold update_of_body. intros (n & N & (sh & S & (u1 & T & (t & M & (u2 & C & (u3 & D & [= <-])%rbind_Ok)%rbind_Ok)%rbind_Ok)%rbind_Ok)%rbind_Ok)%rbind_Ok.
  apply given_Ok in N, S, T, M, C, D. intros [O1 O2 O3 O4 O5 O6]. split; cbn.
  - destruct (up_name b); [destruct N as (x & N & ->); by eapply name_Ok|by rewrite N].
  - destruct (up_shell b); [destruct S as (x & S & ->); by eapply shell_Ok|by rewrite S].
  - destruct (up_script b); [destruct T as (x & T & _); by eapply text_Ok|done].
  - destruct (up_timeout_secs b); [destruct M as (x & M & ->); by apply timeout_Ok in M as [-> ?]|by rewrite M].
  - destruct (up_scopes b); [destruct C as (x & C & _); by eapply validate_list_Ok|done].
  - destruct (up_schedules b); [destruct D as (x & D & _); by eapply schedules_Ok|done].
Qed.

Lemma fold_keeps {A} (P : Z -> Prop) (f : Ticked -> A -> Ticked) l k :
  (forall k a, keeps_tables P (tk_tables k) (tk_tables (f k a))) -> keeps_tables P (tk_tables k) (tk_tables (foldl f k l)).
Proof. intros Hf. revert k. induction l as [|a l IH]; intros k; [apply keeps_refl|]. cbn [foldl]. eapply keeps_trans; [apply Hf|apply IH]. Qed.
Lemma tick_keeps e d : keeps_tables (fun _ => True) d (tk_tables (tick e d)).
Proof.
  unfold tick. destruct (te_list_ok e); [|apply keeps_refl]. apply (fold_keeps _ (tick_script e) _ {| tk_tables := d; tk_runs := []; tk_ok := true |}).
  intros k s. unfold tick_script. destruct (negb _); [apply keeps_refl|]. destruct (negb _); [apply keeps_refl|]. destruct (sr_scopes s); [apply keeps_refl|].
  destruct (te_resolve_ok e _); [|apply keeps_refl]. apply fold_keeps. intros k1 a. unfold tick_agent. destruct (negb _); [apply keeps_refl|]. cbv zeta.
  destruct (negb _); [apply keeps_refl|]. destruct (execution_exists _ _ _ _); [apply keeps_refl|]. by apply insert_keeps.
Qed.
Lemma op_ok d op : Forall script_ok (scripts d) -> Forall script_ok (scripts (script_op d op).1).
Proof.
  intros Hok. destruct op as [e|user b|user id b|user id|user allow id now connected insert_ok|run v|ids members]; cbn [script_op fst snd].
  - by rewrite (kt_scripts _ _ _ (tick_keeps e d)).
  - unfold create_script. destruct (negb _); [done|]. destruct (script_of_body _ b) as [s|] eqn:E; [|done]. cbn. apply Forall_app. split; [done|]. constructor; [|done].
    apply body_ok in E as [O1 O2 O3 O4 O5 O6]. by split.
  - unfold update_script. destruct (negb _); [done|]. destruct (update_of_body _ b) as [u|] eqn:E; [|done]. unfold update_script_row. destruct (isSome _).
    + cbn [fst scripts set_scripts]. apply Forall_fmap. eapply Forall_impl; [exact Hok|]. intros s Hs. cbn. destruct (_ =? _); [|done]. by eapply updated_ok.
    + by destruct (up_scopes u) as [[|]|], (up_schedules u) as [[|]|].
  - unfold delete_script. destruct (negb _); [done|]. unfold delete_script_row. destruct (isSome _); [|done]. cbn.
    rewrite Forall_forall in *. intros s [Hs _]%list_elem_of_In%filter_In. apply Hok. by apply list_elem_of_In.
  - unfold trigger_script. destruct (_ || _); [done|]. destruct (script_body d id) as [s|]; [|done]. destruct (set_order _) as [|a l]; [done|].
    pose proof (trigger_keeps (fun _ => True) s now connected insert_ok (a :: l) (d, []) I) as Hk. destruct (foldl _ _ _) as [d' runs]. cbn [fst] in *. by rewrite (kt_scripts _ _ _ Hk).
  - done.
  - done.
Qed.

(** C28: every stored script can run: through whatever is created, changed, deleted, triggered and fired,
    each script in the table has a name of 1 to 120 bytes, one of the two shells, a text of 1 byte
    to 256 KiB, a timeout of 5 to 300 seconds, and between 1 and 256 well-formed scopes and schedules, and
    each of its schedules matches at some minute of the week. *)
Theorem stored_scripts_can_run ops d runs s :
  script_history ScriptTables_empty ops = (d, runs) -> s ∈ scripts d -> script_ok s.
Proof.
  assert (forall d0, Forall script_ok (scripts d0) -> script_history d0 ops = (d, runs) -> Forall script_ok (scripts d)) as Hgen.
  { revert d runs. induction ops as [|op ops IH]; intros d runs d0 Hd Hrun; cbn [script_history] in Hrun; [by simplify_eq|].
    pose proof (op_ok d0 op Hd) as H1. destruct (script_op d0 op) as [d1 r1]. destruct (script_history d1 ops) as [d2 r2] eqn:E. simplify_eq. by eapply IH. }
  intros Hrun Hs. pose proof (Hgen ScriptTables_empty (List.Forall_nil _) Hrun) as Hall. rewrite Forall_forall in Hall. by apply Hall.
Qed.
End ticks.

(** ** One-off runs *)

Section runs.
Context `{UuidText}.
Variable error_text : CommandDenied -> string.

Lemma request_bounds (shell script : string) (timeout : option Z) :
  unix_or_windows_shell shell = true -> (bytes_len script <=? MAX_SCRIPT_BODY_BYTES) = true ->
  let q := {| rq_shell := shell; rq_script := script; rq_timeout := clamp_timeout timeout |} in
  rq_shell q ∈ ["powershell"; "cmd"; "sh"; "bash"]%string /\ bytes_len (rq_script q) <= 262144 /\ 5 <= rq_timeout q <= 300.
Proof.
  intros Hs Hl. cbv zeta. cbn [rq_shell rq_script rq_timeout]. split; [|split].
  - unfold unix_or_windows_shell in Hs. apply existsb_exists in Hs as (x & Hx & E). apply String.eqb_eq in E as ->. by apply list_elem_of_In.
  - apply Z.leb_le in Hl. exact Hl.
  - unfold clamp_timeout, clampZ. lia.
Qed.

(** A bulk run treats every device as a run of its own would: an accepted request names 1 to 64
    devices and answers for each of them in order; a device the single run would refuse for its shell
    or its missing script support is refused in the same way, and one it would run the script on is
    asked for exactly the same run, always with one of the four shells, at most 256 KiB of text and 5 to 300
    seconds; only the authorization of the device's modules, which the send itself checks, comes
    later. *)
Theorem bulk_run_matches_single r user allowed agents shell script timeout info info' out :
  agents_bulk_script user allowed agents shell script timeout info info' = Ok out ->
  out.*1 = agents /\ (1 <= length agents <= 64)%nat
  /\ forall agent res, (agent, res) ∈ out ->
     match agent_run_script r user allowed agent shell script timeout (info agent) (info' agent) with
     | Ok q => res = Ok q
     | Err (ScriptDenied _) => is_ok res = true
     | Err e => res = Err e
     end
     /\ forall q, res = Ok q -> rq_shell q ∈ ["powershell"; "cmd"; "sh"; "bash"]%string /\ bytes_len (rq_script q) <= 262144 /\ 5 <= rq_timeout q <= 300.
Proof.
  unfold agents_bulk_script, agent_run_script. cbv zeta. set (sh := to_ascii_lowercase (trim shell)).
  destruct (is_operator user && allowed); [|done]. destruct (0 <? length agents)%nat eqn:L1; [|done]. destruct (length agents <=? 64)%nat eqn:L2; [|done].
  destruct (unix_or_windows_shell sh) eqn:Hsh; [|done]. destruct (bytes_len script <=? MAX_SCRIPT_BODY_BYTES) eqn:Hb; [|done]. intros [= <-].
  apply Nat.ltb_lt in L1. apply Nat.leb_le in L2. split_and!; [|lia|lia|].
  - rewrite <- list_fmap_compose. by rewrite list_fmap_id.
  - intros agent res (a & [= -> ->] & _)%list_elem_of_fmap. destruct (shell_mismatch (info a) sh); [done|]. destruct (no_scripts (info' a)); [done|]. cbn [negb]. split.
    + by destruct (authorize_agent_command _ _ _).
    + intros q [= <-]. by apply (request_bounds sh script timeout).
Qed.

(** The waiter of a run is gone when the run ends, with the answer handed to this run's receiver,
    and no other waiter is touched. *)
Lemma script_wait_cleans_up r w agent shell script timeout rid tx a r' w' v :
  script_waiters w !! rid = None -> a <> AClosed ->
  run_script_and_wait error_text r w agent shell script timeout rid tx
    (fun w => match a with AReply reply => (try_complete_script_waiter w rid reply).1 | _ => w end) a = (r', w', v) ->
  script_waiters w' = script_waiters w
  /\ (completed w' = completed w \/ exists reply, a = AReply reply /\ completed w' = completed w ++ [(tx, reply)]).
Proof.
  intros Hnone Ha. unfold run_script_and_wait, start_script. cbv zeta. destruct (send_command _ _ _) as [r1|e].
  - destruct a as [reply| |]; [|done|]; cbn [finish_wait].
    + unfold try_complete_script_waiter. cbn [script_waiters register_script_waiter with_waiters]. rewrite lookup_insert_eq. intros [= <- <- <-]. cbn [script_waiters completed fst].
      rewrite delete_insert_id by done. split; [done|]. right. by exists reply.
    + intros [= <- <- <-]. cbn. rewrite delete_insert_id by done. split; [done|by left].
  - intros [= <- <- <-]. cbn. rewrite delete_insert_id by done. split; [done|by left].
Qed.
Lemma wait_is_bounded timeout : 0 <= timeout -> 15 <= wait_secs timeout <= 330.
Proof. unfold wait_secs. lia. Qed.
End runs.

(** A run started by hand carries the moment of the request to the nanosecond, not cut to its second. *)
Lemma trigger_fires_at_the_full_time set_order d user allow id now connected insert_ok run :
  run ∈ (trigger_script set_order d user allow id now connected insert_ok).1.2 -> rn_at run = now.
Proof.
  unfold trigger_script. destruct (_ || _); [by intros ?%not_elem_of_nil|]. destruct (script_body d id) as [s|]; [|by intros ?%not_elem_of_nil].
  destruct (set_order _) as [|a l]; [by intros ?%not_elem_of_nil|].
  assert (forall l k, (forall x, x ∈ k.2 -> rn_at x = now) -> forall x, x ∈ (foldl (trigger_agent s now connected insert_ok) k l).2 -> rn_at x = now) as Hgen.
  { clear. induction l as [|b l IH]; intros k Hk; [done|]. cbn [foldl]. apply IH. intros x. unfold trigger_agent. cbn [snd]. intros [Hx|Hx]%elem_of_app; [by apply Hk|].
    case_bool_decide; [|by apply not_elem_of_nil in Hx]. by apply list_elem_of_singleton in Hx as ->. }
  pose proof (Hgen (a :: l) (d, [])) as Hx. destruct (foldl _ _ _) as [d' runs]. apply Hx. intros x Hn. by apply not_elem_of_nil in Hn.
Qed.
(** The limit on a name that is said to be in characters counts bytes. *)
Fixpoint repeat_text (n : nat) (s : string) : string := match n with O => ""%string | S n => (s ++ repeat_text n s)%string end.
Lemma name_limit_counts_bytes :
  let name := repeat_text 61 (String "195" (String "169" "")) in
  chars_count name = 61%nat /\ validate_name name = Err "name must be 120 characters or fewer"%string.
Proof. split; vm_compute; reflexivity. Qed.
(** No shell a scheduled script may have runs on a Linux device. *)
Lemma scheduled_shells_do_not_fit_linux to_lowercase info shell t :
  platform info = Linux -> validate_shell to_lowercase shell = Ok t -> shell_allowed info t = false.
Proof. intros Hp [->| ->]%shell_Ok; unfold shell_allowed; rewrite Hp; vm_compute; reflexivity. Qed.

(** ** A day of scripts *)

Module Nightly.
Definition hour (now : Z) : Z := now / 3600000000000 mod 24.
Definition minute (now : Z) : Z := now / 60000000000 mod 60.
Definition weekday (now : Z) : Z := (now / 86400000000000 + 4) mod 7.
Definition order (X : gset Uuid) : list Uuid := elements X.
Definition rows (l : list ScheduledScript) : list ScheduledScript := l.
Definition lower (s : string) : string := to_ascii_lowercase s.
Definition admin : AuthUser := {| u_user_id := 1%N; u_username := "root"; u_role := "admin" |}.
Definition body : CreateScheduledScriptBody :=
  {| cb_name := " backup "; cb_shell := "PowerShell"; cb_script := "Get-Date"; cb_timeout_secs := 60;
     cb_scopes := [{| sp_kind := "group"; sp_group_id := Some 9%N; sp_agent_id := None |}];
     cb_schedules := [{| sd_frequency := "daily"; sd_day_of_week := None; sd_fire_minute := 150 |}] |}.
(** Half past two at night, and thirteen seconds. *)
Definition at_ : Z := 150 * 60000000000 + 13000000000.
Definition env : TickEnv :=
  {| te_now := at_; te_list_ok := true; te_resolve_ok _ := true; te_exists_ok _ _ := true; te_insert_ok _ _ := true; te_connected _ := {[ 7%N ]} |}.
(** Twenty seconds later. *)
Definition later : TickEnv :=
  {| te_now := at_ + 20000000000; te_list_ok := true; te_resolve_ok _ := true; te_exists_ok _ _ := true; te_insert_ok _ _ := true; te_connected _ := {[ 7%N ]} |}.
Definition ops : list ScriptOp := [ODevices {[ 7%N; 8%N ]} {[ (9%N, 7%N); (9%N, 8%N) ]}; OCreate admin body; OTick env; OTick later].
Definition result_of (ops : list ScriptOp) : ScriptTables * list Run := script_history lower hour minute weekday order rows ScriptTables_empty ops.
Definition before : ScriptTables := (result_of (take 2 ops)).1.
Definition spare : ScheduledScript :=
  {| sr_id := 0; sr_name := ""; sr_shell := ""; sr_script := ""; sr_timeout_secs := 0; sr_enabled := false; sr_scopes := []; sr_schedules := [] |}.
End Nightly.
Import Nightly.

Lemma tick_fires_exactly_witness :
  let k := tick hour minute weekday order rows env before in
  tk_ok k = true /\ run_key <$> tk_runs k = [(1, 7%N, 9000000000)] /\ size (executions (tk_tables k)) = 2%nat.
Proof.
  cbv zeta. split; [|split; vm_compute; reflexivity].
  apply (tick_fires_exactly hour minute weekday order rows (fun X => Permutation_refl _) (fun l => Permutation_refl _) env before).
  - split; [reflexivity|]. split; intros; reflexivity.
  - vm_compute. repeat constructor. by intros ?%not_elem_of_nil.
Defined.
Lemma scheduled_runs_fire_once_witness :
  ticked lower hour minute weekday order rows ScriptTables_empty ops = [(1, 7%N, 150)] /\ NoDup (ticked lower hour minute weekday order rows ScriptTables_empty ops).
Proof.
  split; [vm_compute; reflexivity|].
  apply (scheduled_runs_fire_once lower hour minute weekday order rows (fun l => Permutation_refl _)).
  intros e He id a. unfold ops in He. repeat (apply elem_of_cons in He as [He|He]; [try discriminate He; injection He as ->; reflexivity|]). by apply not_elem_of_nil in He.
Defined.
Lemma stored_scripts_can_run_witness : exists s, s ∈ scripts (result_of ops).1 /\ sr_name s = "backup"%string /\ script_ok s.
Proof.
  exists (nth 0 (scripts (result_of ops).1) spare). split; [vm_compute; left|]. split; [vm_compute; reflexivity|].
  apply (stored_scripts_can_run lower hour minute weekday order rows ops (result_of ops).1 (result_of ops).2); [apply surjective_pairing|]. vm_compute. left.
Defined.
Lemma bulk_run_matches_single_witness :
  let out := default [] (rok (agents_bulk_script admin true [7%N; 8%N] " Bash " "ls" None (fun _ => Some (Some (mk_obj [("platform"%string, JStr "linux")]))) (fun _ => Some None))) in
  agents_bulk_script admin true [7%N; 8%N] " Bash " "ls" None (fun _ => Some (Some (mk_obj [("platform"%string, JStr "linux")]))) (fun _ => Some None) = Ok out
  /\ out.*1 = [7%N; 8%N] /\ (1 <= length [7%N; 8%N] <= 64)%nat.
Proof.
  cbv zeta. set (out := default [] _). assert (agents_bulk_script admin true [7%N; 8%N] " Bash " "ls" None (fun _ => Some (Some (mk_obj [("platform"%string, JStr "linux")]))) (fun _ => Some None) = Ok out) as E
    by (vm_compute; reflexivity).
  split; [exact E|]. destruct (@bulk_run_matches_single bin_uuid (ex_registry [(Scripts, 2)]) admin true [7%N; 8%N] " Bash " "ls" None _ _ out E) as (E1 & E2 & _). exact (conj E1 E2).
Defined.
