(* ===== verification/Policies.v ===== *)
(** Device policies on the server: app-block and internet-block rules with their scopes and schedules
    ([server/src/policy/mod.rs], [app_block/], [internet_block/]), the admin endpoints that edit them, and
    the pushes that tell connected devices ([agent_ws/policy_push.rs]). Both kinds of rule share their
    table operations. The queries of one function are one step; whether each statement succeeds is an
    argument. The endpoints' admin check is [Accounts]'s. *)
From stdpp Require Import sorting.
From S2P Require Import RecallContext Alerts Viewer.
From S2P Require Import Prelude Text Json Protocol Sessions Modules Registry Runtime.

(** ** Tables *)

(** A weekly window, in the device's local time. *)
Record RuleScheduleJson := { day_of_week : Z; start_minute : Z; end_minute : Z }.
(** A rule of either kind: [B] is what it blocks. *)
Record Rule (B : Type) := {
  ru_id : Z; ru_name : string; ru_body : B; ru_enabled : bool; ru_created_at : Z; ru_scopes : list Scope; ru_schedules : list RuleScheduleJson
}.
Arguments ru_id {B} r.
Arguments ru_name {B} r.
Arguments ru_body {B} r.
Arguments ru_enabled {B} r.
Arguments ru_created_at {B} r.
Arguments ru_scopes {B} r.
Arguments ru_schedules {B} r.
Record ExeMatch := { exe_pattern : string; match_mode : string }.
Abbreviation AppBlockRule := (Rule ExeMatch) (only parsing).
Abbreviation InternetBlockRule := (Rule unit) (only parsing).
(** The rows in the order of their ids, which a sequence hands out up to its maximum. *)
Record Table (B : Type) := { rows : list (Rule B); next_id : Z; max_id : Z }.
Arguments rows {B} t.
Arguments next_id {B} t.
Arguments max_id {B} t.
Record AppBlockEvent := { ev_id : Z; ev_agent : Uuid; ev_rule : option Z; ev_rule_name : option string; ev_exe : string; ev_killed_at : Z }.
Record Policies := {
  app_rules : Table ExeMatch; net_rules : Table unit; app_events : list AppBlockEvent; next_event : Z;
  p_groups : gset Uuid; p_members : gset (Uuid * Uuid); p_agents : gset Uuid
}.
(** The app-block sequence was created for 32-bit ids. *)
Definition Policies_empty : Policies :=
  {| app_rules := {| rows := []; next_id := 1; max_id := i32_max |}; net_rules := {| rows := []; next_id := 1; max_id := i64_max |};
     app_events := []; next_event := 1; p_groups := ∅; p_members := ∅; p_agents := ∅ |}.
Definition with_app (p : Policies) (t : Table ExeMatch) (ev : list AppBlockEvent) : Policies :=
  {| app_rules := t; net_rules := net_rules p; app_events := ev; next_event := next_event p; p_groups := p_groups p; p_members := p_members p; p_agents := p_agents p |}.
Definition with_net (p : Policies) (t : Table unit) : Policies :=
  {| app_rules := app_rules p; net_rules := t; app_events := app_events p; next_event := next_event p; p_groups := p_groups p; p_members := p_members p;
     p_agents := p_agents p |}.

(** The tables' own checks. *)
Definition scope_stored (p : Policies) (s : Scope) : bool :=
  match sc_group s, sc_agent s with
  | None, None => String.eqb (sc_kind s) "all"
  | Some g, None => String.eqb (sc_kind s) "group" && bool_decide (g ∈ p_groups p)
  | None, Some x => String.eqb (sc_kind s) "agent" && bool_decide (x ∈ p_agents p)
  | Some _, Some _ => false
  end.
Definition schedule_stored (s : RuleScheduleJson) : bool :=
  in_range 0 6 (day_of_week s) && in_range 0 1439 (start_minute s) && in_range 1 1440 (end_minute s) && (start_minute s <? end_minute s).
Definition scope_covers (p : Policies) (agent : Uuid) (s : Scope) : bool :=
  String.eqb (sc_kind s) "all"
  || String.eqb (sc_kind s) "agent" && bool_decide (sc_agent s = Some agent)
  || String.eqb (sc_kind s) "group" && is_some_and (sc_group s) (fun g => bool_decide ((g, agent) ∈ p_members p)).
(** Schedules are read back by day, start and end. *)
Definition schedule_leb (a b : RuleScheduleJson) : bool :=
  (day_of_week a <? day_of_week b)
  || (day_of_week a =? day_of_week b)
     && ((start_minute a <? start_minute b) || (start_minute a =? start_minute b) && (end_minute a <=? end_minute b)).
Definition schedule_le (a b : RuleScheduleJson) : Prop := schedule_leb a b = true.
#[export] Instance schedule_le_dec : RelDecision schedule_le.
Proof. intros a b. unfold schedule_le. apply _. Defined.
Definition sorted_schedules (l : list RuleScheduleJson) : list RuleScheduleJson := merge_sort schedule_le l.

Section tables.
Context {B : Type}.

Definition applies (p : Policies) (agent : Uuid) (r : Rule B) : bool := existsb (scope_covers p agent) (ru_scopes r).
Definition always_on (r : Rule B) : bool := match ru_schedules r with [] => true | _ => false end.
(** The row, its scopes and its schedules, in one transaction; [None] undoes it. *)
Definition insert_rule (p : Policies) (t : Table B) (name : string) (body : B) (scopes : list Scope) (schedules : list RuleScheduleJson) (now : Z)
    : option (Table B * Z) :=
  if (next_id t <=? max_id t) && forallb (scope_stored p) scopes && forallb schedule_stored schedules then
    Some ({| rows := rows t ++ [{| ru_id := next_id t; ru_name := name; ru_body := body; ru_enabled := true; ru_created_at := now;
                                   ru_scopes := scopes; ru_schedules := schedules |}];
             next_id := next_id t + 1; max_id := max_id t |}, next_id t)
  else None.
Definition has_rule (t : Table B) (id : Z) : bool := existsb (fun r => ru_id r =? id) (rows t).
Definition map_rule (t : Table B) (id : Z) (f : Rule B -> Rule B) : Table B :=
  {| rows := (fun r => if ru_id r =? id then f r else r) <$> rows t; next_id := next_id t; max_id := max_id t |}.
Definition remove_rules (t : Table B) (drop : Rule B -> bool) : Table B :=
  {| rows := List.filter (fun r => negb (drop r)) (rows t); next_id := next_id t; max_id := max_id t |}.
Definition edit (r : Rule B) (name : string) (body : B) (enabled : bool) (scopes : list Scope) (schedules : list RuleScheduleJson) : Rule B :=
  {| ru_id := ru_id r; ru_name := name; ru_body := body; ru_enabled := enabled; ru_created_at := ru_created_at r; ru_scopes := scopes; ru_schedules := schedules |}.
Definition set_rule_enabled (t : Table B) (id : Z) (enabled : bool) : Table B * bool :=
  (map_rule t id (fun r => edit r (ru_name r) (ru_body r) enabled (ru_scopes r) (ru_schedules r)), has_rule t id).
Definition set_rule_schedules (t : Table B) (id : Z) (l : list RuleScheduleJson) : option (Table B * bool) :=
  if negb (has_rule t id) then Some (t, false)
  else if forallb schedule_stored l then Some (map_rule t id (fun r => edit r (ru_name r) (ru_body r) (ru_enabled r) (ru_scopes r) l), true)
  else None.
Definition scopes_of (t : Table B) (id : Z) : list Scope := List.filter (fun r => ru_id r =? id) (rows t) ≫= ru_scopes.
Definition has_all_scope (t : Table B) (id : Z) : bool := existsb (fun s => String.eqb (sc_kind s) "all") (scopes_of t id).
Definition direct_agent_ids (t : Table B) (id : Z) : list Uuid :=
  omap (fun s => if String.eqb (sc_kind s) "agent" then sc_agent s else None) (scopes_of t id).
End tables.

(** ** App-block rules: [app_block/db/rules.rs], [app_block/db/events.rs] *)

Record AppBlockRuleRow := {
  ar_id : Z; ar_name : string; ar_exe_pattern : string; ar_match_mode : string; ar_enabled : bool; ar_scope_kind : string; ar_schedules : list RuleScheduleJson
}.
(** The scope shown is the rule's broadest one, whether or not it covers the device. *)
Definition app_row (enabled : bool) (r : AppBlockRule) : AppBlockRuleRow :=
  {| ar_id := ru_id r; ar_name := ru_name r; ar_exe_pattern := exe_pattern (ru_body r); ar_match_mode := match_mode (ru_body r); ar_enabled := enabled;
     ar_scope_kind := default "agent"%string (broadest (ru_scopes r)); ar_schedules := sorted_schedules (ru_schedules r) |}.
Definition app_block_rules_effective_for_agent (p : Policies) (agent : Uuid) : list AppBlockRuleRow :=
  app_row true <$> List.filter (fun r => ru_enabled r && applies p agent r) (rows (app_rules p)).
Definition app_block_rules_applicable_for_agent (p : Policies) (agent : Uuid) : list AppBlockRuleRow :=
  (fun r => app_row (ru_enabled r) r) <$> List.filter (applies p agent) (rows (app_rules p)).
Definition app_block_rules_list_all (p : Policies) : list AppBlockRule :=
  (fun r => edit r (ru_name r) (ru_body r) (ru_enabled r) (ru_scopes r) (sorted_schedules (ru_schedules r))) <$> rows (app_rules p).
Definition app_block_rule_create (p : Policies) (name : string) (body : ExeMatch) (scopes : list Scope) (schedules : list RuleScheduleJson) (now : Z)
    : option (Policies * Z) :=
  '(t, id) ← insert_rule p (app_rules p) name body scopes schedules now; Some (with_app p t (app_events p), id).
Definition app_block_rule_set_schedules (p : Policies) (id : Z) (l : list RuleScheduleJson) : option (Policies * bool) :=
  '(t, found) ← set_rule_schedules (app_rules p) id l; Some (with_app p t (app_events p), found).
Record AppBlockRuleUpdateOpts := {
  up_name : option string; up_exe_pattern : option string; up_match_mode : option string; up_enabled : option bool;
  up_scopes : option (list Scope); up_schedules : option (list RuleScheduleJson)
}.
Definition updated_rule (o : AppBlockRuleUpdateOpts) (r : AppBlockRule) : AppBlockRule :=
  edit r (default (ru_name r) (up_name o))
    {| exe_pattern := default (exe_pattern (ru_body r)) (up_exe_pattern o); match_mode := default (match_mode (ru_body r)) (up_match_mode o) |}
    (default (ru_enabled r) (up_enabled o)) (default (ru_scopes r) (up_scopes o)) (default (ru_schedules r) (up_schedules o)).
Definition app_block_rule_update (p : Policies) (id : Z) (o : AppBlockRuleUpdateOpts) : option (Policies * bool) :=
  if negb (has_rule (app_rules p) id) then Some (p, false)
  else if is_none_or (up_scopes o) (forallb (scope_stored p)) && is_none_or (up_schedules o) (forallb schedule_stored)
  then Some (with_app p (map_rule (app_rules p) id (updated_rule o)) (app_events p), true)
  else None.
Definition app_block_rule_set_enabled (p : Policies) (id : Z) (enabled : bool) : Policies * bool :=
  let (t, found) := set_rule_enabled (app_rules p) id enabled in (with_app p t (app_events p), found).
(** Deleting a rule keeps its events, without the reference. *)
Definition forget_rule (id : Z) (e : AppBlockEvent) : AppBlockEvent :=
  {| ev_id := ev_id e; ev_agent := ev_agent e; ev_rule := ofilter (fun x => negb (x =? id)) (ev_rule e); ev_rule_name := ev_rule_name e;
     ev_exe := ev_exe e; ev_killed_at := ev_killed_at e |}.
Definition app_block_rule_delete (p : Policies) (id : Z) : Policies * bool :=
  (with_app p (remove_rules (app_rules p) (fun r => ru_id r =? id)) (forget_rule id <$> app_events p), has_rule (app_rules p) id).
Definition app_block_rule_direct_agent_ids (p : Policies) (id : Z) : list Uuid := direct_agent_ids (app_rules p) id.
Definition app_block_rule_has_all_scope (p : Policies) (id : Z) : bool := has_all_scope (app_rules p) id.
(** An event of an unknown device or rule is refused by the table. *)
Definition log_app_block_event (p : Policies) (agent : Uuid) (rule : option Z) (name : option string) (exe : string) (now : Z) : option Policies :=
  if bool_decide (agent ∈ p_agents p) && is_none_or rule (has_rule (app_rules p)) then
    Some {| app_rules := app_rules p; net_rules := net_rules p;
            app_events := app_events p ++ [{| ev_id := next_event p; ev_agent := agent; ev_rule := rule; ev_rule_name := name; ev_exe := exe; ev_killed_at := now |}];
            next_event := next_event p + 1; p_groups := p_groups p; p_members := p_members p; p_agents := p_agents p |}
  else None.

(** ** Internet-block rules: [internet_block/db.rs] *)

Definition get_agent_internet_blocked (p : Policies) (agent : Uuid) : bool :=
  existsb (fun r => ru_enabled r && always_on r && applies p agent r) (rows (net_rules p)).
Definition get_agent_internet_block_source (p : Policies) (agent : Uuid) : option string :=
  broadest (rows (net_rules p) ≫= fun r => if ru_enabled r && always_on r then List.filter (scope_covers p agent) (ru_scopes r) else []).
Definition internet_block_rules_list_all (p : Policies) : list InternetBlockRule :=
  (fun r => edit r (ru_name r) (ru_body r) (ru_enabled r) (ru_scopes r) (sorted_schedules (ru_schedules r))) <$> rows (net_rules p).
Record InternetBlockRuleEffectiveRow := { nr_id : Z; nr_name : string; nr_schedules : list RuleScheduleJson }.
Definition net_row (r : InternetBlockRule) : InternetBlockRuleEffectiveRow :=
  {| nr_id := ru_id r; nr_name := ru_name r; nr_schedules := sorted_schedules (ru_schedules r) |}.
Definition internet_block_rules_effective_for_agent (p : Policies) (agent : Uuid) : list InternetBlockRuleEffectiveRow :=
  net_row <$> List.filter (fun r => ru_enabled r && applies p agent r) (rows (net_rules p)).
Definition internet_block_rule_create (p : Policies) (name : string) (scopes : list Scope) (schedules : list RuleScheduleJson) (now : Z) : option (Policies * Z) :=
  '(t, id) ← insert_rule p (net_rules p) name tt scopes schedules now; Some (with_net p t, id).
Definition internet_block_rule_set_enabled (p : Policies) (id : Z) (enabled : bool) : Policies * bool :=
  let (t, found) := set_rule_enabled (net_rules p) id enabled in (with_net p t, found).
Definition internet_block_rule_set_schedules (p : Policies) (id : Z) (l : list RuleScheduleJson) : option (Policies * bool) :=
  '(t, found) ← set_rule_schedules (net_rules p) id l; Some (with_net p t, found).
Definition internet_block_rule_delete (p : Policies) (id : Z) : Policies * bool :=
  (with_net p (remove_rules (net_rules p) (fun r => ru_id r =? id)), has_rule (net_rules p) id).
Definition internet_block_rule_direct_agent_ids (p : Policies) (id : Z) : list Uuid := direct_agent_ids (net_rules p) id.
Definition internet_block_rule_has_all_scope (p : Policies) (id : Z) : bool := has_all_scope (net_rules p) id.
Definition direct_scope (agent : Uuid) (s : Scope) : bool := String.eqb (sc_kind s) "agent" && bool_decide (sc_agent s = Some agent).
(** The quick toggle of one device: [write_ok] and [read_ok] are whether its statements succeed. What was
    written stays when the last read fails. *)
Definition internet_block_set_for_agent (p : Policies) (agent : Uuid) (blocked : bool) (now : Z) (count_ok write_ok read_ok : bool) : Policies * option bool :=
  let finish p := (p, if read_ok then Some (get_agent_internet_blocked p agent) else None) in
  if blocked then
    if negb count_ok then (p, None)
    else if existsb (fun r => ru_enabled r && existsb (direct_scope agent) (ru_scopes r)) (rows (net_rules p)) then finish p
    else match (if write_ok then internet_block_rule_create p "Manual block" [{| sc_kind := "agent"; sc_group := None; sc_agent := Some agent |}] [] now else None) with
         | Some (p, _) => finish p
         | None => (p, None)
         end
  else if write_ok then finish (with_net p (remove_rules (net_rules p) (fun r => existsb (direct_scope agent) (ru_scopes r))))
  else (p, None).

(** ** Pushes: [agent_ws/policy_push.rs] *)

Definition schedule_json (s : RuleScheduleJson) : json :=
  mk_obj [("day_of_week", JInt (day_of_week s)); ("start_minute", JInt (start_minute s)); ("end_minute", JInt (end_minute s))]%string.
Definition app_row_json (r : AppBlockRuleRow) : json :=
  mk_obj [("id", JInt (ar_id r)); ("name", JStr (ar_name r)); ("exe_pattern", JStr (ar_exe_pattern r)); ("match_mode", JStr (ar_match_mode r));
          ("enabled", JBool (ar_enabled r)); ("scope_kind", JStr (ar_scope_kind r)); ("schedules", JArr (schedule_json <$> ar_schedules r))]%string.
Definition net_row_json (r : InternetBlockRuleEffectiveRow) : json :=
  mk_obj [("id", JInt (nr_id r)); ("name", JStr (nr_name r)); ("schedules", JArr (schedule_json <$> nr_schedules r))]%string.
(** The three messages a device's policies are told by. *)
Definition app_block_command (p : Policies) (agent : Uuid) : ServerCommand :=
  SetAppBlockRules {| br_rules := app_row_json <$> app_block_rules_effective_for_agent p agent |}.
Definition network_command (p : Policies) (agent : Uuid) : ServerCommand := SetNetworkPolicy_ {| snp_blocked := Some (get_agent_internet_blocked p agent) |}.
Definition internet_command (p : Policies) (agent : Uuid) : ServerCommand :=
  SetInternetBlockRules {| br_rules := net_row_json <$> internet_block_rules_effective_for_agent p agent |}.

(** What a push reads: the device's stored information ([None]: the query failed), and whether the rules
    could be read. *)
Record PushAnswers := { pa_info : option (option json); pa_rules : bool }.
Definition attemptable (e : PushAnswers) (capability : string) : bool := is_none_or (pa_info e) (fun info => capability_attemptable info capability).

Section pushes.
Context `{UuidText}.
(** The order in which a hash map lists its keys. *)
Variable hash_order : gset Uuid -> list Uuid.

Definition push_to_agent (capability : string) (c : ServerCommand) (r : AgentRegistry) (agent : Uuid) (e : PushAnswers) : AgentRegistry :=
  if negb (attemptable e capability) then r else if negb (pa_rules e) then r else (try_send_command r agent c).1.
Definition push_network_policy_to_agent (p : Policies) (r : AgentRegistry) (agent : Uuid) (e : PushAnswers) : AgentRegistry :=
  push_to_agent "network_blocking" (network_command p agent) r agent e.
Definition push_internet_block_rules_to_agent (p : Policies) (r : AgentRegistry) (agent : Uuid) (e : PushAnswers) : AgentRegistry :=
  push_to_agent "network_blocking" (internet_command p agent) r agent e.
Definition push_app_block_rules_to_agent (p : Policies) (r : AgentRegistry) (agent : Uuid) (e : PushAnswers) : AgentRegistry :=
  push_to_agent "app_blocking" (app_block_command p agent) r agent e.
Definition connected_ids (r : AgentRegistry) : list Uuid := hash_order (dom (connections r)).
Definition push_app_block_rules_to_all_connected (p : Policies) (r : AgentRegistry) (env : Uuid -> PushAnswers) : AgentRegistry :=
  foldl (fun r id => push_app_block_rules_to_agent p r id (env id)) r (connected_ids r).
Definition push_internet_block_to_all_connected (p : Policies) (r : AgentRegistry) (env : Uuid -> PushAnswers * PushAnswers) : AgentRegistry :=
  foldl (fun r id => push_internet_block_rules_to_agent p (push_network_policy_to_agent p r id (env id).1) id (env id).2) r (connected_ids r).
(** The policies that have no rules: [None] when the setting could not be read. *)
Definition push_auto_update_policy_to_agent (r : AgentRegistry) (agent : Uuid) (enabled : option bool) : AgentRegistry :=
  match enabled with Some b => (try_send_command r agent (SetAutoUpdate_ {| sau_enabled := Some b |})).1 | None => r end.
Definition push_auto_update_policy_to_all_connected (r : AgentRegistry) (enabled : Uuid -> option bool) : AgentRegistry :=
  foldl (fun r id => push_auto_update_policy_to_agent r id (enabled id)) r (connected_ids r).
Definition push_recall_settings_to_agent (r : AgentRegistry) (agent : Uuid) (settings : option json) : AgentRegistry :=
  match settings with Some v => (try_send_command r agent (SetRecallSettings_ {| srs_settings := v |})).1 | None => r end.
Definition push_recall_settings_to_all_connected (r : AgentRegistry) (settings : Uuid -> option json) : AgentRegistry :=
  foldl (fun r id => push_recall_settings_to_agent r id (settings id)) r (connected_ids r).
(** What a device is sent when it connects or its policy grants change ([Ingest.push_initial_policies]);
    [read i]: whether the [i]-th query succeeds. *)
Definition initial_policies (p : Policies) (agent : Uuid) (auto_update : option bool) (recall : option json) (read : nat -> bool) : list (option ServerCommand) :=
  [(fun b => SetAutoUpdate_ {| sau_enabled := Some b |}) <$> auto_update;
   if read 1%nat then Some (network_command p agent) else None;
   if read 2%nat then Some (internet_command p agent) else None;
   if read 3%nat then Some (app_block_command p agent) else None;
   (fun v => SetRecallSettings_ {| srs_settings := v |}) <$> recall].

(** ** The app-block endpoints: [app_block/api.rs] *)

Variable to_lowercase : string -> string.

Inductive PolicyError : Type := PBadRequest (msg : string) | PProtected (exe : string) | PNotFound | PInternal.
Definition PROTECTED_EXES : list string :=
  ["explorer.exe"; "winlogon.exe"; "lsass.exe"; "csrss.exe"; "svchost.exe"; "services.exe"; "wininit.exe"; "smss.exe"; "dwm.exe"; "taskmgr.exe";
   "conhost.exe"; "spoolsv.exe"; "audiodg.exe"; "ntoskrnl.exe"; "system"; "registry"; "vantyr-agent.exe"; "vantyr-agent"]%string.
Definition check_protected (exe_pattern match_mode : string) : option string :=
  let pat := to_lowercase (trim exe_pattern) in
  List.find (fun protected => if String.eqb match_mode "exact" then String.eqb pat protected else str_contains protected pat) PROTECTED_EXES.
Definition default_match_mode : string := "contains".
Definition norm_match_mode (m : string) : string := if String.eqb m "exact" then "exact" else "contains".
Record CreateAppBlockRuleBody := {
  cb_name : string; cb_exe_pattern : string; cb_match_mode : string; cb_scopes : list Scope; cb_schedules : list RuleScheduleJson
}.
(** Pushes follow the scopes in order; a group is not resolved: every connected device is told. *)
Fixpoint push_scopes (p : Policies) (r : AgentRegistry) (l : list Scope) (env : nat -> Uuid -> PushAnswers) (i : nat) : AgentRegistry :=
  match l with
  | [] => r
  | s :: l =>
      if String.eqb (sc_kind s) "agent" then
        push_scopes p (match sc_agent s with Some id => push_app_block_rules_to_agent p r id (env i id) | None => r end) l env (S i)
      else if String.eqb (sc_kind s) "group" then push_app_block_rules_to_all_connected p r (env i)
      else push_scopes p r l env (S i)
  end.
Definition push_app_to_affected (p : Policies) (r : AgentRegistry) (scopes : list Scope) (env : nat -> Uuid -> PushAnswers) : AgentRegistry :=
  if existsb (fun s => String.eqb (sc_kind s) "all") scopes then push_app_block_rules_to_all_connected p r (env 0%nat)
  else push_scopes p r scopes env 0.
Definition app_block_rules_create (p : Policies) (r : AgentRegistry) (b : CreateAppBlockRuleBody) (now : Z) (write_ok : bool) (env : nat -> Uuid -> PushAnswers)
    : Policies * AgentRegistry * result Z PolicyError :=
  if String.eqb (trim (cb_exe_pattern b)) "" then (p, r, Err (PBadRequest "exe_pattern is required"))
  else
    let mode := norm_match_mode (cb_match_mode b) in
    match check_protected (trim (cb_exe_pattern b)) mode with
    | Some hit => (p, r, Err (PProtected hit))
    | None =>
        match (if write_ok then app_block_rule_create p (cb_name b) {| exe_pattern := trim (cb_exe_pattern b); match_mode := mode |} (cb_scopes b) (cb_schedules b) now
               else None) with
        | Some (p, id) => (p, push_app_to_affected p r (cb_scopes b) env, Ok id)
        | None => (p, r, Err PInternal)
        end
    end.
Record UpdateAppBlockRuleBody := {
  ub_enabled : option bool; ub_name : option string; ub_exe_pattern : option string; ub_match_mode : option string;
  ub_scopes : option (list Scope); ub_schedules : option (list RuleScheduleJson)
}.
Definition app_block_rules_update (p : Policies) (r : AgentRegistry) (id : Z) (b : UpdateAppBlockRuleBody) (write_ok : bool) (env : Uuid -> PushAnswers)
    : Policies * AgentRegistry * result unit PolicyError :=
  let mode := norm_match_mode <$> ub_match_mode b in
  match ub_exe_pattern b ≫= fun pat => check_protected (trim pat) (default "contains"%string mode) with
  | Some hit => (p, r, Err (PProtected hit))
  | None =>
      let opts := {| up_name := ub_name b; up_exe_pattern := ofilter (fun s => negb (String.eqb s "")) (trim <$> ub_exe_pattern b); up_match_mode := mode;
                     up_enabled := ub_enabled b; up_scopes := ub_scopes b; up_schedules := ub_schedules b |} in
      match (if write_ok then app_block_rule_update p id opts else None) with
      | Some (p, true) => (p, push_app_block_rules_to_all_connected p r env, Ok tt)
      | Some (p, false) => (p, r, Err PNotFound)
      | None => (p, r, Err PInternal)
      end
  end.
(** [scopes_ok]: whether the reads of the scopes before the deletion succeed; a failed read finds none. *)
Definition app_block_rules_delete (p : Policies) (r : AgentRegistry) (id : Z) (scopes_ok : bool * bool) (write_ok : bool) (env : nat -> Uuid -> PushAnswers)
    : Policies * AgentRegistry * result unit PolicyError :=
  let has_all := scopes_ok.1 && app_block_rule_has_all_scope p id in
  let direct := if scopes_ok.2 then app_block_rule_direct_agent_ids p id else [] in
  if negb write_ok then (p, r, Err PInternal)
  else match app_block_rule_delete p id with
       | (_, false) => (p, r, Err PNotFound)
       | (p, true) =>
           (p, if has_all then push_app_block_rules_to_all_connected p r (env 0%nat)
               else foldl (fun r a => push_app_block_rules_to_agent p r a.2 (env a.1 a.2)) r (imap pair direct), Ok tt)
       end.

(** ** The internet-block endpoints: [internet_block/api.rs] *)

Definition push_net_to_affected (p : Policies) (r : AgentRegistry) (scopes : list Scope) (env : nat -> Uuid -> PushAnswers * PushAnswers) : AgentRegistry :=
  if existsb (fun s => String.eqb (sc_kind s) "all" || String.eqb (sc_kind s) "group") scopes then push_internet_block_to_all_connected p r (env 0%nat)
  else foldl (fun r a => push_network_policy_to_agent p r a.2 (env a.1 a.2).1) r (imap pair (omap sc_agent scopes)).
Definition internet_block_rules_create (p : Policies) (r : AgentRegistry) (name : string) (scopes : list Scope) (schedules : list RuleScheduleJson) (now : Z)
    (write_ok : bool) (env : nat -> Uuid -> PushAnswers * PushAnswers) : Policies * AgentRegistry * result Z PolicyError :=
  match (if write_ok then internet_block_rule_create p name scopes schedules now else None) with
  | Some (p, id) => (p, push_net_to_affected p r scopes env, Ok id)
  | None => (p, r, Err PInternal)
  end.
(** Two statements: when the second fails, the first one stays and nothing is pushed. *)
Definition internet_block_rules_update (p : Policies) (r : AgentRegistry) (id : Z) (enabled : bool) (schedules : option (list RuleScheduleJson))
    (write_ok : bool * bool) (env : Uuid -> PushAnswers * PushAnswers) : Policies * AgentRegistry * result unit PolicyError :=
  if negb write_ok.1 then (p, r, Err PInternal)
  else match internet_block_rule_set_enabled p id enabled with
       | (_, false) => (p, r, Err PNotFound)
       | (p, true) =>
           match (match schedules with
                  | Some l => if write_ok.2 then internet_block_rule_set_schedules p id l else None
                  | None => Some (p, true)
                  end) with
           | Some (p, _) => (p, push_internet_block_to_all_connected p r env, Ok tt)
           | None => (p, r, Err PInternal)
           end
       end.
Definition internet_block_rules_delete (p : Policies) (r : AgentRegistry) (id : Z) (scopes_ok : bool * bool) (write_ok : bool)
    (env : nat -> Uuid -> PushAnswers * PushAnswers) : Policies * AgentRegistry * result unit PolicyError :=
  let has_all := scopes_ok.1 && internet_block_rule_has_all_scope p id in
  let direct := if scopes_ok.2 then internet_block_rule_direct_agent_ids p id else [] in
  if negb write_ok then (p, r, Err PInternal)
  else match internet_block_rule_delete p id with
       | (_, false) => (p, r, Err PNotFound)
       | (p, true) =>
           (p, if has_all then push_internet_block_to_all_connected p r (env 0%nat)
               else foldl (fun r a => push_network_policy_to_agent p r a.2 (env a.1 a.2).1) r (imap pair direct), Ok tt)
       end.
(** A failed read of the state shows the device as not blocked. *)
Definition agent_internet_blocked_get (p : Policies) (agent : Uuid) (read_ok : bool * bool) : json :=
  mk_obj [("blocked", JBool (read_ok.1 && get_agent_internet_blocked p agent));
          ("source", opt_value JStr (if read_ok.2 then get_agent_internet_block_source p agent else None))]%string.
Definition agent_internet_blocked_put (p : Policies) (r : AgentRegistry) (agent : Uuid) (blocked : bool) (now : Z) (ok : bool * bool * bool) (read_ok : bool * bool)
    (env : PushAnswers) : Policies * AgentRegistry * result json PolicyError :=
  match internet_block_set_for_agent p agent blocked now ok.1.1 ok.1.2 ok.2 with
  | (p, Some _) => (p, push_network_policy_to_agent p r agent env, Ok (agent_internet_blocked_get p agent read_ok))
  | (p, None) => (p, r, Err PInternal)
  end.
End pushes.

(** ** The endpoints as steps *)

Inductive PolicyOp : Type :=
| CreateApp (b : CreateAppBlockRuleBody) (now : Z) (write_ok : bool) (env : nat -> Uuid -> PushAnswers)
| UpdateApp (id : Z) (b : UpdateAppBlockRuleBody) (write_ok : bool) (env : nat -> Uuid -> PushAnswers)
| DeleteApp (id : Z) (scopes_ok : bool * bool) (write_ok : bool) (env : nat -> Uuid -> PushAnswers)
| CreateNet (name : string) (scopes : list Scope) (schedules : list RuleScheduleJson) (now : Z) (write_ok : bool) (env : nat -> Uuid -> PushAnswers * PushAnswers)
| UpdateNet (id : Z) (enabled : bool) (schedules : option (list RuleScheduleJson)) (write_ok : bool * bool) (env : nat -> Uuid -> PushAnswers * PushAnswers)
| DeleteNet (id : Z) (scopes_ok : bool * bool) (write_ok : bool) (env : nat -> Uuid -> PushAnswers * PushAnswers)
| ToggleNet (agent : Uuid) (blocked : bool) (now : Z) (ok : bool * bool * bool) (read_ok : bool * bool) (env : nat -> Uuid -> PushAnswers).

Section steps.
Context `{UuidText}.
Variable hash_order : gset Uuid -> list Uuid.
Variable to_lowercase : string -> string.

Definition policy_step (p : Policies) (r : AgentRegistry) (op : PolicyOp) : Policies * AgentRegistry * bool :=
  match op with
  | CreateApp b now ok env => let '(p, r, res) := app_block_rules_create hash_order to_lowercase p r b now ok env in (p, r, is_ok res)
  | UpdateApp id b ok env => let '(p, r, res) := app_block_rules_update hash_order to_lowercase p r id b ok (env 0%nat) in (p, r, is_ok res)
  | DeleteApp id sok ok env => let '(p, r, res) := app_block_rules_delete hash_order p r id sok ok env in (p, r, is_ok res)
  | CreateNet name scopes scheds now ok env => let '(p, r, res) := internet_block_rules_create hash_order p r name scopes scheds now ok env in (p, r, is_ok res)
  | UpdateNet id enabled scheds ok env => let '(p, r, res) := internet_block_rules_update hash_order p r id enabled scheds ok (env 0%nat) in (p, r, is_ok res)
  | DeleteNet id sok ok env => let '(p, r, res) := internet_block_rules_delete hash_order p r id sok ok env in (p, r, is_ok res)
  | ToggleNet a b now ok rok env => let '(p, r, res) := agent_internet_blocked_put p r a b now ok rok (env 0%nat a) in (p, r, is_ok res)
  end.
(** The pushes of a request read everything they need. *)
Definition answers_good (e : PushAnswers) (capability : string) : Prop := attemptable e capability = true /\ pa_rules e = true.
Definition answered (op : PolicyOp) (agent : Uuid) : Prop :=
  match op with
  | CreateApp _ _ _ env | UpdateApp _ _ _ env | DeleteApp _ _ _ env => forall i, answers_good (env i agent) "app_blocking"
  | CreateNet _ _ _ _ _ env | UpdateNet _ _ _ _ env | DeleteNet _ _ _ env =>
      forall i, answers_good (env i agent).1 "network_blocking" /\ answers_good (env i agent).2 "network_blocking"
  | ToggleNet _ _ _ _ _ env => forall i, answers_good (env i agent) "network_blocking"
  end.

Inductive Message : Type := MApp | MNetwork | MInternet.
Definition message (p : Policies) (agent : Uuid) (m : Message) : ServerCommand :=
  match m with MApp => app_block_command p agent | MNetwork => network_command p agent | MInternet => internet_command p agent end.
(** Whether a rule has a scope. *)
Definition rule_scope {B} (t : Table B) (id : Z) (P : Scope -> bool) : bool := existsb (fun r => (ru_id r =? id) && existsb P (ru_scopes r)) (rows t).
Definition everyone (s : Scope) : bool := String.eqb (sc_kind s) "all".
Definition names_device (agent : Uuid) (s : Scope) : bool := String.eqb (sc_kind s) "agent" && bool_decide (sc_agent s = Some agent).
(** The devices an edit may change something for and does not tell: rules that are deleted tell only all
    devices or those they name, as far as their scopes were read; the list of internet rules is sent only to
    all devices at once, and the quick toggle tells one device its block state. *)
Definition left_behind (p : Policies) (op : PolicyOp) (agent : Uuid) (m : Message) : bool :=
  match op, m with
  | DeleteApp id sok _ _, MApp => negb (sok.1 && rule_scope (app_rules p) id everyone) && negb (sok.2 && rule_scope (app_rules p) id (names_device agent))
  | DeleteNet id sok _ _, MNetwork => negb (sok.1 && rule_scope (net_rules p) id everyone) && negb (sok.2 && rule_scope (net_rules p) id (names_device agent))
  | DeleteNet id sok _ _, MInternet => negb (sok.1 && rule_scope (net_rules p) id everyone)
  | CreateNet _ scopes _ _ _ _, MInternet => forallb (fun s => negb (String.eqb (sc_kind s) "all") && negb (String.eqb (sc_kind s) "group")) scopes
  | ToggleNet a _ _ _ _ _, MNetwork => negb (bool_decide (agent = a))
  | ToggleNet _ _ _ _ _ _, MInternet => true
  | _, _ => false
  end.
End steps.

(** ** Theorems: what a push does to the connections *)

(** Queues only grow, and nothing else changes. *)
Definition longer (s s' : Socket) : Prop := shutdown s' = shutdown s /\ queue s `prefix_of` queue s'.
Definition grows (r r' : AgentRegistry) : Prop := same_but_sockets r r' /\ forall ch, option_Forall2 longer (sockets r !! ch) (sockets r' !! ch).
#[export] Instance longer_preorder : PreOrder longer.
Proof.
  split; [intros s; by split|]. intros s1 s2 s3 [E1 P1] [E2 P2]. split; [congruence|by etrans].
Qed.
#[export] Instance grows_preorder : PreOrder grows.
Proof.
  split; [intros r; split; [done|]; intros ch; reflexivity|]. intros r1 r2 r3 [S1 Q1] [S2 Q2]. split; [by eapply same_but_sockets_trans|].
  intros ch. etrans; [apply Q1|apply Q2].
Qed.
Lemma try_send_grows r ch m r' : try_send r ch m = Some r' -> grows r r'.
Proof.
  intros E. split; [by eapply try_send_same|]. apply try_send_Some in E as (s & Hs & _ & ->). intros ch'. simpl.
  destruct (decide (ch' = ch)) as [->|Hne]; [|by rewrite lookup_insert_ne].
  rewrite lookup_insert_eq, Hs. constructor. split; [done|]. simpl. by eexists.
Qed.
Lemma grows_socket r r' ch s : grows r r' -> sockets r !! ch = Some s -> exists s', sockets r' !! ch = Some s' /\ longer s s'.
Proof. intros [_ Q] Hs. specialize (Q ch). rewrite Hs in Q. inversion Q as [? s' L|]; subst. by exists s'. Qed.
Lemma grows_shutdown r r' conn : grows r r' -> conn_shutdown r' conn = conn_shutdown r conn.
Proof. intros [_ Q]. unfold conn_shutdown. by destruct (Q (conn_id conn)) as [? ? [E _]|]. Qed.
Lemma grows_open r r' agent : grows r r' -> open_conn r' agent = open_conn r agent.
Proof.
  intros Hg. pose proof Hg as [(Hc & _) _]. unfold open_conn. rewrite Hc. destruct (connections r !! agent) as [c|]; [|done]. cbn. by rewrite (grows_shutdown _ _ _ Hg).
Qed.

Section pushing.
Context `{UuidText}.

(** A device the command may be sent to finds it in its queue, unless the queue is full. *)
Definition told (r r' : AgentRegistry) (agent : Uuid) (c : ServerCommand) : Prop :=
  forall cmd conn ch s, authorize_agent_command r agent (to_value c) = Ok cmd -> open_conn r agent = Some conn -> cmds r !! agent = Some ch ->
  sockets r !! ch = Some s ->
  exists s', sockets r' !! ch = Some s' /\ (CText cmd ∈ queue s' \/ (AGENT_CMD_CHANNEL_CAPACITY <= length (queue s'))%nat).

Lemma send_grows r agent c : grows r (try_send_command r agent c).1.
Proof.
  unfold try_send_command. destruct (send_command r agent c) as [r'|] eqn:E; [|reflexivity]. revert E. unfold send_command, send_agent_command_json.
  destruct (authorize_agent_command _ _ _) as [cmd|]; [|done]. cbn [rbind fst].
  case_match; [done|]. case_match; [done|]. destruct (conn_id <$> _) as [conn|]; [|done]. cbn [ok_or rbind].
  intros (? & ch & _ & _ & _ & E)%enqueue_Ok. by eapply try_send_grows.
Qed.
Lemma grows_authorize r r' agent v : grows r r' -> authorize_agent_command r' agent v = authorize_agent_command r agent v.
Proof. intros [(Hc & _ & Hm & _) _]. unfold authorize_agent_command. by rewrite Hc, Hm. Qed.
Lemma told_grows r r1 r2 agent c : told r r1 agent c -> grows r1 r2 -> told r r2 agent c.
Proof.
  intros Ht Hg cmd conn ch s A O C S. destruct (Ht _ _ _ _ A O C S) as (s1 & Hs1 & Hin). destruct (grows_socket _ _ _ _ Hg Hs1) as (s2 & Hs2 & _ & Hp).
  exists s2. split; [done|]. destruct Hin as [Hin|Hfull]; [left|right].
  - destruct Hp as [k ->]. apply elem_of_app. by left.
  - apply prefix_length in Hp. lia.
Qed.
Lemma push_grows capability c r agent e : grows r (push_to_agent capability c r agent e).
Proof. unfold push_to_agent. destruct (negb _); [reflexivity|]. destruct (negb _); [reflexivity|apply send_grows]. Qed.
(** Neither a capture start or stop, nor one that needs a lease. *)
Definition plain (c : ServerCommand) : Prop :=
  let k := kind_of (to_value c) in
  existsb (String.eqb k) ["start_capture"; "stop_capture"]%string = false
  /\ is_remote_input k || existsb (String.eqb k) ["ClipboardRead"; "ClipboardWrite"]%string = false.
Lemma send_told r r1 agent c : plain c -> grows r r1 -> told r (try_send_command r1 agent c).1 agent c.
Proof.
  intros [Hk1 Hk2] Hg cmd conn ch s A O C S.
  unfold try_send_command, send_command, send_agent_command_json. rewrite (grows_authorize _ _ _ _ Hg), A. cbn [rbind].
  rewrite Hk1, Hk2. pose proof Hg as [(Ec & Em & _) _]. destruct (grows_socket _ _ _ _ Hg S) as (s1 & Hs1 & _).
  pose proof O as [O1 _]%open_conn_Some. rewrite Ec, O1. cbn [fmap option_fmap option_map ok_or rbind].
  unfold enqueue_authorized_command. rewrite (grows_open _ _ _ Hg), O. cbn [is_some_and]. rewrite bool_decide_eq_true_2 by done. cbn [negb].
  rewrite Em, C. cbn [ok_or rbind]. unfold try_send. rewrite Hs1.
  destruct (Nat.ltb_spec (length (queue s1)) AGENT_CMD_CHANNEL_CAPACITY) as [Hlt|Hge]; cbn [ok_or fst].
  - cbn. rewrite lookup_insert_eq. eexists. split; [done|]. left. simpl. apply elem_of_app. right. by left.
  - exists s1. split; [done|by right].
Qed.
(** The policy messages take the plain way out. *)
Lemma plain_message p agent m : plain (message p agent m).
Proof. by destruct m. Qed.
Lemma push_told capability r r1 p agent m e :
  answers_good e capability -> grows r r1 -> told r (push_to_agent capability (message p agent m) r1 agent e) agent (message p agent m).
Proof. intros [Ha Hr] Hg. unfold push_to_agent. rewrite Ha, Hr. cbn [negb]. apply send_told; [apply plain_message|done]. Qed.

(** One round of pushes: the state only grows, and every device in it is told. *)
Lemma fold_grows {A} (f : AgentRegistry -> A -> AgentRegistry) (l : list A) r : (forall r a, grows r (f r a)) -> grows r (foldl f r l).
Proof. intros Hf. revert r. induction l as [|a l IH]; intros r; [reflexivity|]. cbn. etrans; [apply Hf|apply IH]. Qed.
Lemma fold_told {A} (f : AgentRegistry -> A -> AgentRegistry) (l : list A) a r r1 agent c :
  (forall r a, grows r (f r a)) -> (forall r1, grows r r1 -> told r (f r1 a) agent c) -> a ∈ l -> grows r r1 -> told r (foldl f r1 l) agent c.
Proof.
  intros Hf Ha Hin. revert r1. induction l as [|b l IH]; intros r1 Hg; [by apply not_elem_of_nil in Hin|]. cbn. apply elem_of_cons in Hin as [<-|Hin].
  - eapply told_grows; [by apply Ha|]. by apply fold_grows.
  - apply IH; [done|]. etrans; [done|apply Hf].
Qed.
End pushing.

Section reach.
Context `{UuidText}.
Context (hash_order : gset Uuid -> list Uuid) (to_lowercase : string -> string).
Hypothesis hash_order_lists : forall s a, a ∈ s -> a ∈ hash_order s.

Lemma told_connected r r' agent c : (agent ∈ dom (connections r) -> told r r' agent c) -> told r r' agent c.
Proof. intros Ht cmd conn ch s A O. pose proof O as [O1 _]%open_conn_Some. apply elem_of_dom_2 in O1. exact (Ht O1 cmd conn ch s A O). Qed.
Lemma in_connected r agent : agent ∈ dom (connections r) -> agent ∈ connected_ids hash_order r.
Proof. apply hash_order_lists. Qed.
Lemma all_app_told p r env agent :
  answers_good (env agent) "app_blocking" -> told r (push_app_block_rules_to_all_connected hash_order p r env) agent (message p agent MApp).
Proof.
  intros Ha. apply told_connected. intros Hin. apply (fold_told _ _ agent); [intros; apply push_grows| |by apply in_connected|reflexivity].
  intros r1 Hg. by apply push_told.
Qed.
Lemma both_grow p r agent e1 e2 : grows r (push_internet_block_rules_to_agent p (push_network_policy_to_agent p r agent e1) agent e2).
Proof. etrans; apply push_grows. Qed.
Lemma all_net_told p r env agent m :
  answers_good (env agent).1 "network_blocking" -> answers_good (env agent).2 "network_blocking" -> m <> MApp ->
  told r (push_internet_block_to_all_connected hash_order p r env) agent (message p agent m).
Proof.
  intros H1 H2 Hm. apply told_connected. intros Hin. apply (fold_told _ _ agent); [intros; apply both_grow| |by apply in_connected|reflexivity].
  intros r1 Hg. destruct m; [done| |].
  - eapply told_grows; [exact (push_told "network_blocking" r r1 p agent MNetwork _ H1 Hg)|apply push_grows].
  - apply (push_told "network_blocking" r _ p agent MInternet); [done|]. etrans; [done|apply push_grows].
Qed.
Lemma direct_told {A} (f : nat -> AgentRegistry -> Uuid -> A -> AgentRegistry) (env : nat -> Uuid -> A) r l agent c :
  (forall i r a e, grows r (f i r a e)) -> (forall i r1, grows r r1 -> told r (f i r1 agent (env i agent)) agent c) -> agent ∈ l ->
  told r (foldl (fun r a => f a.1 r a.2 (env a.1 a.2)) r (imap pair l)) agent c.
Proof.
  intros Hf Ha Hin. apply list_elem_of_lookup in Hin as [i Hi]. apply (fold_told _ _ (i, agent)); [intros; apply Hf|intros; by apply Ha| |reflexivity].
  apply list_elem_of_lookup. exists i. by rewrite list_lookup_imap, Hi.
Qed.
Lemma push_scopes_told p r r1 l env i agent :
  (forall i, answers_good (env i agent) "app_blocking") -> grows r r1 -> existsb (scope_covers p agent) l = true ->
  existsb (fun s => String.eqb (sc_kind s) "all") l = false -> told r (push_scopes hash_order p r1 l env i) agent (message p agent MApp).
Proof.
  intros Ha. revert r1 i. induction l as [|s l IH]; intros r1 i Hg Hc Hall; [done|]. cbn [existsb push_scopes] in *.
  assert (forall r1 i, grows r1 (push_scopes hash_order p r1 l env i)) as Hps.
  { clear -hash_order_lists. induction l as [|s l IH]; intros r1 i; cbn [push_scopes]; [reflexivity|]. case_match.
    - destruct (sc_agent s); [|apply IH]. etrans; [apply push_grows|apply IH].
    - case_match; [apply fold_grows; intros; apply push_grows|apply IH]. }
  apply orb_false_elim in Hall as [Hs Hall]. unfold scope_covers in Hc at 1. rewrite Hs in Hc. cbn [orb] in Hc.
  destruct (String.eqb (sc_kind s) "agent") eqn:Ek; cbn [andb orb] in Hc.
  - apply String.eqb_eq in Ek. rewrite Ek in Hc. cbn [String.eqb Ascii.eqb Bool.eqb andb] in Hc. rewrite orb_false_r in Hc. case_bool_decide as Hag.
    + rewrite Hag. eapply told_grows; [|apply Hps]. by apply (push_told "app_blocking" r _ p agent MApp).
    + destruct (sc_agent s) as [x|]; [|by apply IH]. apply IH; [|done..]. etrans; [done|apply push_grows].
  - destruct (String.eqb (sc_kind s) "group"); [|by apply IH]. apply told_connected. intros Hin.
    apply (fold_told _ _ agent); [intros; apply push_grows|intros; by apply (push_told "app_blocking" r _ p agent MApp)| |done].
    destruct Hg as [(Ec & _) _]. apply in_connected. by rewrite Ec.
Qed.

(** A new rule changes what a device is told only when a scope of it covers the device. *)
Lemma insert_rows {B} p (t t' : Table B) name body scopes schedules now id :
  insert_rule p t name body scopes schedules now = Some (t', id) ->
  exists r, rows t' = rows t ++ [r] /\ ru_id r = next_id t /\ ru_scopes r = scopes /\ ru_schedules r = schedules /\ ru_body r = body
  /\ forallb (scope_stored p) scopes = true /\ forallb schedule_stored schedules = true /\ next_id t <= max_id t /\ next_id t' = next_id t + 1 /\ max_id t' = max_id t
  /\ id = next_id t.
Proof.
  unfold insert_rule. destruct (_ && _) eqn:E; [|done]. intros [= <- <-]. bool_prop. eexists. split_and!; try done.
Qed.
Lemma insert_filter {B} (l l' : list (Rule B)) r (keep : Rule B -> bool) : l' = l ++ [r] -> keep r = false -> List.filter keep l' = List.filter keep l.
Proof. intros -> Hk. rewrite List.filter_app. cbn [List.filter]. by rewrite Hk, app_nil_r. Qed.
Lemma create_app_covers p p' name body scopes schedules now id agent :
  app_block_rule_create p name body scopes schedules now = Some (p', id) ->
  message p' agent MApp <> message p agent MApp -> existsb (scope_covers p agent) scopes = true.
Proof.
  unfold app_block_rule_create. destruct (insert_rule _ _ _ _ _ _ _) as [[t n]|] eqn:E; [|done]. cbn. intros [= <- <-] Hm.
  apply insert_rows in E as (r & Er & _ & Es & _). destruct (existsb _ _) eqn:Ec; [done|]. exfalso. apply Hm. unfold message, app_block_command, app_block_rules_effective_for_agent.
  cbn [app_rules with_app]. erewrite (insert_filter (rows (app_rules p))); [done|done|]. unfold applies. rewrite Es. change (scope_covers (with_app _ _ _) agent) with (scope_covers p agent).
  by rewrite Ec, andb_false_r.
Qed.
Lemma create_net_covers p p' name scopes schedules now id agent m :
  internet_block_rule_create p name scopes schedules now = Some (p', id) ->
  message p' agent m <> message p agent m -> existsb (scope_covers p agent) scopes = true.
Proof.
  unfold internet_block_rule_create. destruct (insert_rule _ _ _ _ _ _ _) as [[t n]|] eqn:E; [|done]. cbn. intros [= <- <-] Hm.
  apply insert_rows in E as (r & Er & _ & Es & _). destruct (existsb _ _) eqn:Ec; [done|]. exfalso. apply Hm.
  assert (applies p agent r = false) as Ha by (unfold applies; by rewrite Es). destruct m; [done| |]; cbn [message].
  - unfold network_command, get_agent_internet_blocked. cbn [net_rules with_net]. rewrite Er, existsb_app. cbn [existsb].
    change (applies (with_net p t) agent) with (applies (B:=unit) p agent). by rewrite Ha, andb_false_r, !orb_false_r.
  - unfold internet_command, internet_block_rules_effective_for_agent. cbn [net_rules with_net].
    erewrite (insert_filter (rows (net_rules p))); [done|done|]. change (applies (with_net p t) agent) with (applies (B:=unit) p agent). by rewrite Ha, andb_false_r.
Qed.
Lemma covers_direct p agent l :
  existsb (scope_covers p agent) l = true -> existsb (fun s => String.eqb (sc_kind s) "all" || String.eqb (sc_kind s) "group") l = false -> agent ∈ omap sc_agent l.
Proof.
  intros (s & Hin & Hc)%existsb_exists Hn. apply list_elem_of_omap. exists s. split; [by apply list_elem_of_In|].
  assert (String.eqb (sc_kind s) "all" || String.eqb (sc_kind s) "group" = false) as E.
  { destruct (_ || _) eqn:E; [|done]. rewrite <- Hn. symmetry. apply existsb_exists. by exists s. }
  apply orb_false_elim in E as [E1 E2]. unfold scope_covers in Hc. rewrite E1, E2 in Hc. cbn [orb andb] in Hc. rewrite orb_false_r in Hc. by bool_prop.
Qed.
Lemma toggle_keeps_app p p' agent x blocked now c w rd res :
  internet_block_set_for_agent p agent blocked now c w rd = (p', res) -> message p' x MApp = message p x MApp.
Proof.
  unfold internet_block_set_for_agent, internet_block_rule_create. cbv zeta. intros E.
  destruct blocked; [destruct (negb c); [|destruct (existsb _ _); [|destruct w; [destruct (insert_rule _ _ _ _ _ _ _) as [[? ?]|]|]]]|destruct w]; cbn in E; by simplify_eq.
Qed.
Lemma set_schedules_keeps_app p p' id l found x : internet_block_rule_set_schedules p id l = Some (p', found) -> message p' x MApp = message p x MApp.
Proof. unfold internet_block_rule_set_schedules. destruct (set_rule_schedules _ _ _) as [[? ?]|]; [|done]. cbn. intros. by simplify_eq. Qed.

Lemma scopes_of_exists {B} (t : Table B) id P : existsb P (scopes_of t id) = rule_scope t id P.
Proof.
  unfold scopes_of, rule_scope. induction (rows t) as [|r l IH]; [done|]. cbn [List.filter existsb]. destruct (ru_id r =? id); [|exact IH].
  cbn [mbind list_bind andb]. by rewrite existsb_app, IH.
Qed.
Lemma no_broad l :
  forallb (fun s => negb (String.eqb (sc_kind s) "all") && negb (String.eqb (sc_kind s) "group")) l
  = negb (existsb (fun s => String.eqb (sc_kind s) "all" || String.eqb (sc_kind s) "group") l).
Proof. induction l as [|s l IH]; [done|]. cbn [forallb existsb]. rewrite IH. by destruct (String.eqb _ "all"), (String.eqb _ "group"). Qed.
Lemma direct_named {B} (t : Table B) id agent : rule_scope t id (names_device agent) = true -> agent ∈ direct_agent_ids t id.
Proof.
  rewrite <-scopes_of_exists. intros (s & I%list_elem_of_In & N)%existsb_exists. unfold names_device in N. apply andb_true_iff in N as [N1 N2].
  apply list_elem_of_omap. exists s. split; [done|]. rewrite N1. by apply bool_decide_eq_true in N2.
Qed.
Lemma all_scope_everyone {B} (t : Table B) id : has_all_scope t id = rule_scope t id everyone.
Proof. apply scopes_of_exists. Qed.
(** C29: an edit of the policies reaches the devices it concerns. When an endpoint reports success, every
    device for which the edit changed the app-block rules, the block state or the internet rules has the new
    ones, as authorized and stamped for its connection, in that connection's queue, unless the queue is
    full. This holds for a device with an open connection that its reported modules, or its legacy version, authorize for the message
    ([told]), whose reported capability does not rule it out and for which the queries of the push succeed
    ([answered]), and with the exceptions [left_behind] lists, which the code has: after the deletion of a
    rule that does not cover all devices, or whose scopes could not be read, the devices the rule does not
    name one by one (or none, when those scopes could not be read), and for an internet rule the list of
    rules, which no device is sent then; the list of internet rules after a rule was created for single
    devices only; and after the quick toggle of one device, the list of internet rules of every device, and
    the block state of other devices, which change when the toggle deletes a rule they shared. *)
Theorem edits_reach_devices p r op p' r' agent m :
  policy_step hash_order to_lowercase p r op = (p', r', true) -> answered op agent ->
  message p' agent m <> message p agent m -> left_behind p op agent m = false -> told r r' agent (message p' agent m).
Proof.
  intros Hst Ha Hm Hl. destruct op as [b now ok env|id b ok env|id sok ok env|name scopes scheds now ok env|id en scheds ok env|id sok ok env|a bl now ok rok env];
    cbn [policy_step answered] in *.
  - unfold app_block_rules_create in Hst. cbv zeta in Hst. destruct (String.eqb _ ""); [by simplify_eq|]. destruct (check_protected _ _ _); [by simplify_eq|].
    destruct ok; [|by simplify_eq]. destruct (app_block_rule_create _ _ _ _ _ _) as [[p1 n]|] eqn:E; [|by simplify_eq]. simplify_eq/=.
    assert (m = MApp) as ->. { destruct m; [done| |]; unfold app_block_rule_create in E; destruct (insert_rule _ _ _ _ _ _ _) as [[? ?]|]; cbn in E; by simplify_eq. }
    pose proof (create_app_covers _ _ _ _ _ _ _ _ _ E Hm) as Hc. unfold push_app_to_affected. destruct (existsb (fun s => String.eqb (sc_kind s) "all") (cb_scopes b)) eqn:Eall; [by apply all_app_told|].
    apply push_scopes_told; [done|reflexivity| |done]. unfold app_block_rule_create in E. destruct (insert_rule _ _ _ _ _ _ _) as [[? ?]|]; cbn in E; by simplify_eq.
  - unfold app_block_rules_update in Hst. cbv zeta in Hst. destruct (_ ≫= _); [by simplify_eq|]. destruct ok; [|by simplify_eq].
    destruct (app_block_rule_update _ _ _) as [[p1 []]|] eqn:E; simplify_eq/=. assert (m = MApp) as ->; [|by apply all_app_told].
    unfold app_block_rule_update in E. destruct m; [done| |]; destruct (negb _); (destruct (_ && _) in E; by simplify_eq) || by simplify_eq.
  - unfold app_block_rules_delete in Hst. cbv zeta in Hst. destruct (negb ok); [by simplify_eq|]. unfold app_block_rule_delete in Hst.
    destruct (has_rule _ _); [|by simplify_eq]. simplify_eq/=. destruct m; [|done..]. cbn [left_behind] in Hl. unfold app_block_rule_has_all_scope, app_block_rule_direct_agent_ids. rewrite all_scope_everyone.
    destruct (sok.1 && _); [by apply all_app_told|]. cbn [negb andb] in Hl. apply negb_false_iff, andb_true_iff in Hl as [-> Hl%direct_named]. apply (direct_told (fun _ => push_app_block_rules_to_agent _)); [intros; apply push_grows| |done].
    intros i r1 Hg. by apply (push_told "app_blocking" r _ _ agent MApp).
  - unfold internet_block_rules_create in Hst. destruct ok; [|by simplify_eq]. destruct (internet_block_rule_create _ _ _ _ _) as [[p1 n]|] eqn:E; simplify_eq/=.
    pose proof (create_net_covers _ _ _ _ _ _ _ _ _ E Hm) as Hc. unfold push_net_to_affected. destruct (existsb (fun s => String.eqb (sc_kind s) "all" || String.eqb (sc_kind s) "group") scopes) eqn:Eg.
    + apply all_net_told; [by apply Ha..|]. intros ->. unfold internet_block_rule_create in E. destruct (insert_rule _ _ _ _ _ _ _) as [[? ?]|]; cbn in E; by simplify_eq.
    + destruct m; [unfold internet_block_rule_create in E; destruct (insert_rule _ _ _ _ _ _ _) as [[? ?]|]; cbn in E; by simplify_eq| |cbn [left_behind] in Hl; by rewrite no_broad, Eg in Hl].
      apply (direct_told (fun _ r a e => push_network_policy_to_agent _ r a e.1)); [intros; apply push_grows| |by eapply covers_direct].
      intros i r1 Hg. apply (push_told "network_blocking" r _ _ agent MNetwork); [apply Ha|done].
  - unfold internet_block_rules_update in Hst. destruct (negb ok.1); [by simplify_eq|]. unfold internet_block_rule_set_enabled in Hst.
    destruct (set_rule_enabled _ _ _) as [t []]; [|by simplify_eq]. destruct scheds as [l|].
    + destruct ok.2; [|by simplify_eq]. destruct (internet_block_rule_set_schedules _ _ _) as [[p1 f]|] eqn:E; simplify_eq/=.
      apply all_net_told; [by apply Ha..|]. intros ->. by rewrite (set_schedules_keeps_app _ _ _ _ _ _ E) in Hm.
    + simplify_eq/=. apply all_net_told; [by apply Ha..|]. by intros ->.
  - unfold internet_block_rules_delete in Hst. cbv zeta in Hst. destruct (negb ok); [by simplify_eq|]. unfold internet_block_rule_delete in Hst.
    destruct (has_rule _ _); [|by simplify_eq]. simplify_eq/=. unfold internet_block_rule_has_all_scope, internet_block_rule_direct_agent_ids. rewrite all_scope_everyone.
    destruct m; [done| |]; cbn [left_behind] in Hl; destruct (sok.1 && _); try (by apply all_net_told; [apply Ha..|]); [|done].
    cbn [negb andb] in Hl. apply negb_false_iff, andb_true_iff in Hl as [-> Hl%direct_named]. apply (direct_told (fun _ r a e => push_network_policy_to_agent _ r a e.1)); [intros; apply push_grows| |done].
    intros i r1 Hg. apply (push_told "network_blocking" r _ _ agent MNetwork); [apply Ha|done].
  - unfold agent_internet_blocked_put in Hst. destruct (internet_block_set_for_agent _ _ _ _ _ _ _) as [p1 [x|]] eqn:E; simplify_eq/=.
    destruct m; [by rewrite (toggle_keeps_app _ _ _ _ _ _ _ _ _ _ E) in Hm| |done]. cbn [left_behind] in Hl. bool_prop. subst a.
    by apply (push_told "network_blocking" r _ _ agent MNetwork).
Qed.
End reach.

(** ** Theorems: what the tables hold *)

(** A scope that names what its kind needs, and nothing else. *)
Definition scope_shape (s : Scope) : bool :=
  match sc_group s, sc_agent s with
  | None, None => String.eqb (sc_kind s) "all"
  | Some _, None => String.eqb (sc_kind s) "group"
  | None, Some _ => String.eqb (sc_kind s) "agent"
  | Some _, Some _ => false
  end.
Section fits.
Context {B : Type} (body_ok : B -> Prop).
Record rule_fits (r : Rule B) : Prop := {
  fits_id : 1 <= ru_id r <= i64_max; fits_body : body_ok (ru_body r); fits_scopes : Forall (fun s => scope_shape s = true) (ru_scopes r);
  fits_schedules : Forall (fun s => schedule_stored s = true) (ru_schedules r)
}.
Record table_ok (t : Table B) : Prop := {
  ok_sorted : StronglySorted Z.lt (ru_id <$> rows t); ok_next : Forall (fun r => ru_id r < next_id t) (rows t); ok_fits : Forall rule_fits (rows t);
  ok_start : 1 <= next_id t; ok_max : max_id t <= i64_max
}.
Lemma stored_shape p s : scope_stored p s = true -> scope_shape s = true.
Proof. unfold scope_stored, scope_shape. destruct (sc_group s), (sc_agent s); intros E; by bool_prop. Qed.
Lemma stored_shapes p l : forallb (scope_stored p) l = true -> Forall (fun s => scope_shape s = true) l.
Proof. intros E. apply List.Forall_forall. intros s Hin. rewrite forallb_forall in E. by eapply stored_shape, E. Qed.
Lemma stored_schedules l : forallb schedule_stored l = true -> Forall (fun s => schedule_stored s = true) l.
Proof. intros E. apply List.Forall_forall. by rewrite forallb_forall in E. Qed.
Lemma insert_ok p t name body scopes schedules now t' id :
  table_ok t -> body_ok body -> insert_rule p t name body scopes schedules now = Some (t', id) -> table_ok t'.
Proof.
  intros [S N F L M] Hb (r & Er & Ei & Es & Ec & Eb & H1 & H2 & Hm & En & Em & _)%insert_rows. split; rewrite ?Er, ?En, ?Em; [| | |lia|done].
  - rewrite fmap_app. apply sorted_app_last; [done|]. rewrite Ei. by apply Forall_fmap.
  - apply Forall_app. split; [|apply Forall_singleton; lia]. eapply Forall_impl; [exact N|]. cbn. intros x Hx. lia.
  - apply Forall_app. split; [done|]. apply Forall_singleton. split; [lia|by rewrite Eb|rewrite Es; by eapply stored_shapes|rewrite Ec; by apply stored_schedules].
Qed.
Lemma map_ok t id f :
  table_ok t -> (forall r, ru_id (f r) = ru_id r) -> (forall r, rule_fits r -> rule_fits (f r)) -> table_ok (map_rule t id f).
Proof.
  intros [S N F L M] Hid Hf. split; cbn [map_rule rows next_id max_id]; [| | |done..].
  - rewrite <- list_fmap_compose. rewrite (list_fmap_ext _ ru_id); [done|]. intros i r _. cbn. by destruct (_ =? _).
  - apply Forall_fmap. eapply Forall_impl; [exact N|]. intros r Hr. cbn in Hr |- *. destruct (_ =? _); [rewrite Hid|]; exact Hr.
  - apply Forall_fmap. eapply Forall_impl; [exact F|]. intros r Hr. cbn. destruct (_ =? _); [by apply Hf|done].
Qed.
Lemma Forall_filter_bool {A} (P : A -> Prop) f l : Forall P l -> Forall P (List.filter f l).
Proof. intros F. apply List.Forall_forall. intros x [Hin _]%filter_In. by rewrite List.Forall_forall in F; apply F. Qed.
Lemma remove_ok t drop : table_ok t -> table_ok (remove_rules t drop).
Proof. intros [S N F L M]. split; cbn [remove_rules rows next_id max_id]; [by apply sorted_filter|by apply Forall_filter_bool..|done|done]. Qed.
Lemma set_enabled_ok t id b : table_ok t -> table_ok (set_rule_enabled t id b).1.
Proof. intros Ht. apply map_ok; [done|done|]. by intros r []. Qed.
Lemma set_schedules_ok t id l t' found : table_ok t -> set_rule_schedules t id l = Some (t', found) -> table_ok t'.
Proof.
  intros Ht. unfold set_rule_schedules. destruct (negb _); [by intros [= <- <-]|]. destruct (forallb _ _) eqn:E; [|done]. intros [= <- <-].
  apply map_ok; [done|done|]. intros r []. split; [done..|]. by apply stored_schedules.
Qed.
End fits.

(** A pattern that is not blank and one of the two modes. *)
Definition body_ok (b : ExeMatch) : Prop := exe_pattern b <> ""%string /\ match_mode b ∈ ["exact"; "contains"]%string.
(** Every event's rule exists. *)
Definition policies_ok (p : Policies) : Prop :=
  table_ok body_ok (app_rules p) /\ table_ok (fun _ => True) (net_rules p)
  /\ Forall (fun e => is_none_or (ev_rule e) (has_rule (app_rules p)) = true) (app_events p).
Lemma norm_mode_ok m : norm_match_mode m ∈ ["exact"; "contains"]%string.
Proof. unfold norm_match_mode. destruct (String.eqb m "exact"); [by left|right; by left]. Qed.
Lemma has_rule_map {B} (t : Table B) id f x : (forall r, ru_id (f r) = ru_id r) -> has_rule (map_rule t id f) x = has_rule t x.
Proof.
  intros Hf. unfold has_rule. cbn [map_rule rows]. induction (rows t) as [|r l IH]; [done|]. cbn. rewrite IH. destruct (ru_id r =? id); [by rewrite Hf|done].
Qed.
Lemma has_rule_insert {B} p (t t' : Table B) name body scopes schedules now id x :
  insert_rule p t name body scopes schedules now = Some (t', id) -> has_rule t x = true -> has_rule t' x = true.
Proof. intros (r & Er & _)%insert_rows Hx. unfold has_rule in *. by rewrite Er, existsb_app, Hx. Qed.
Lemma events_mono (t t' : Table ExeMatch) ev :
  (forall x, has_rule t x = true -> has_rule t' x = true) ->
  Forall (fun e => is_none_or (ev_rule e) (has_rule t) = true) ev -> Forall (fun e => is_none_or (ev_rule e) (has_rule t') = true) ev.
Proof. intros Hx F. eapply Forall_impl; [done|]. intros e He. cbn in He |- *. destruct (ev_rule e); [by apply Hx|done]. Qed.
Lemma create_app_ok p name body scopes schedules now p' id :
  policies_ok p -> body_ok body -> app_block_rule_create p name body scopes schedules now = Some (p', id) -> policies_ok p'.
Proof.
  intros (Ha & Hn & He) Hb. unfold app_block_rule_create. destruct (insert_rule _ _ _ _ _ _ _) as [[t n]|] eqn:E; [|done]. cbn. intros [= <- <-].
  split_and!; [by eapply insert_ok|done|]. eapply events_mono; [|done]. intros x. by eapply has_rule_insert.
Qed.
Lemma update_app_ok p id o p' found :
  policies_ok p -> (forall s, up_exe_pattern o = Some s -> s <> ""%string) -> (forall m, up_match_mode o = Some m -> m ∈ ["exact"; "contains"]%string) ->
  app_block_rule_update p id o = Some (p', found) -> policies_ok p'.
Proof.
  intros Hp Hpat Hmode. unfold app_block_rule_update. destruct (negb _); [by intros [= <- <-]|]. destruct (_ && _) eqn:E; [|done]. intros [= <- <-].
  destruct Hp as (Ha & Hn & He). bool_prop. split_and!; [|done|].
  - apply map_ok; [done|done|]. intros r [F1 [F2 F2'] F3 F4]. split; [done| | |]; cbn [updated_rule edit ru_body ru_scopes ru_schedules].
    + split; cbn [exe_pattern match_mode]; [destruct (up_exe_pattern o); [by apply Hpat|done]|destruct (up_match_mode o); [by apply Hmode|done]].
    + destruct (up_scopes o); [by eapply stored_shapes|done].
    + destruct (up_schedules o); [by apply stored_schedules|done].
  - eapply events_mono; [|done]. intros x. cbn [app_rules with_app]. by rewrite has_rule_map.
Qed.
Lemma delete_app_ok p id : policies_ok p -> policies_ok (app_block_rule_delete p id).1.
Proof.
  intros (Ha & Hn & He). split_and!; [by apply remove_ok|done|]. cbn [app_block_rule_delete fst with_app app_events app_rules]. apply Forall_fmap.
  eapply Forall_impl; [exact He|]. intros e He'. cbv beta in He'.
  change (is_none_or (ofilter (fun x => negb (x =? id)) (ev_rule e)) (has_rule (remove_rules (app_rules p) (fun r => ru_id r =? id))) = true). destruct (ev_rule e) as [x|]; [|done]. cbn [is_none_or ofilter] in He' |- *.
  destruct (x =? id) eqn:Ex; [done|]. cbn [negb is_none_or].
  unfold has_rule in *. cbn [remove_rules rows]. apply existsb_exists in He' as (r & Hin & Hr). apply existsb_exists. exists r. split; [|done].
  apply filter_In. split; [done|]. bool_prop. subst x. rewrite negb_true_iff. by apply Z.eqb_neq.
Qed.
Lemma net_ok p t : policies_ok p -> table_ok (fun _ => True) t -> policies_ok (with_net p t).
Proof. intros (Ha & _ & He) Ht. by split_and!. Qed.
Lemma create_net_ok p name scopes schedules now p' id : policies_ok p -> internet_block_rule_create p name scopes schedules now = Some (p', id) -> policies_ok p'.
Proof.
  intros Hp. unfold internet_block_rule_create. destruct (insert_rule _ _ _ _ _ _ _) as [[t n]|] eqn:E; [|done]. cbn. intros [= <- <-].
  apply net_ok; [done|]. by eapply insert_ok; [apply Hp| |].
Qed.
Lemma toggle_ok p agent blocked now c w rd : policies_ok p -> policies_ok (internet_block_set_for_agent p agent blocked now c w rd).1.
Proof.
  intros Hp. unfold internet_block_set_for_agent. cbv zeta. destruct blocked.
  - destruct (negb c); [done|]. destruct (existsb _ _); [done|]. destruct w; [|done]. destruct (internet_block_rule_create _ _ _ _ _) as [[p1 n]|] eqn:E; [|done].
    by eapply create_net_ok.
  - destruct w; [|done]. apply net_ok; [done|]. by apply remove_ok, Hp.
Qed.
Lemma policy_step_ok `{UuidText} hash_order to_lowercase p r op p' r' ok :
  policies_ok p -> policy_step hash_order to_lowercase p r op = (p', r', ok) -> policies_ok p'.
Proof.
  intros Hp Hst. destruct op as [b now ok1 env|id b ok1 env|id sok ok1 env|name scopes scheds now ok1 env|id en scheds ok1 env|id sok ok1 env|a bl now ok1 rok env]; cbn [policy_step] in Hst.
  - unfold app_block_rules_create in Hst. cbv zeta in Hst. destruct (String.eqb _ "") eqn:Eb; [by simplify_eq|]. destruct (check_protected _ _ _); [by simplify_eq|].
    destruct ok1; [|by simplify_eq]. destruct (app_block_rule_create _ _ _ _ _ _) as [[p1 n]|] eqn:E; simplify_eq/=; [|done].
    eapply create_app_ok; [done| |done]. split; [by apply String.eqb_neq|apply norm_mode_ok].
  - unfold app_block_rules_update in Hst. cbv zeta in Hst. destruct (_ ≫= _); [by simplify_eq|]. destruct ok1; [|by simplify_eq].
    destruct (app_block_rule_update _ _ _) as [[p1 found]|] eqn:E; [|by simplify_eq].
    assert (policies_ok p1); [|destruct found; by simplify_eq]. eapply update_app_ok; [done| | |done]; cbn [up_exe_pattern up_match_mode].
    + intros s [_ Hs]%ofilter_Some. by apply negb_true_iff, String.eqb_neq in Hs.
    + intros m Hmo. apply fmap_Some in Hmo as (x & _ & ->). apply norm_mode_ok.
  - unfold app_block_rules_delete in Hst. cbv zeta in Hst. destruct (negb ok1); [by simplify_eq|]. pose proof (delete_app_ok p id Hp) as Hd.
    destruct (app_block_rule_delete p id) as [p1 []]; by simplify_eq.
  - unfold internet_block_rules_create in Hst. destruct ok1; [|by simplify_eq]. destruct (internet_block_rule_create _ _ _ _ _) as [[p1 n]|] eqn:E; simplify_eq/=; [|done].
    by eapply create_net_ok.
  - unfold internet_block_rules_update in Hst. destruct (negb ok1.1); [by simplify_eq|]. unfold internet_block_rule_set_enabled in Hst.
    pose proof (set_enabled_ok (fun _ => True) (net_rules p) id en (proj1 (proj2 Hp))) as Ht. destruct (set_rule_enabled _ _ _) as [t []]; [|by simplify_eq]. cbn [fst] in Ht.
    pose proof (net_ok p t Hp Ht) as Hp1. destruct scheds as [l|]; [|by simplify_eq]. destruct ok1.2; [|by simplify_eq].
    unfold internet_block_rule_set_schedules in Hst. destruct (set_rule_schedules _ _ _) as [[t2 f]|] eqn:E; cbn in Hst; simplify_eq; [|done].
    apply net_ok; [done|]. eapply set_schedules_ok; [|exact E]. exact Ht.
  - unfold internet_block_rules_delete in Hst. cbv zeta in Hst. destruct (negb ok1); [by simplify_eq|]. unfold internet_block_rule_delete in Hst.
    assert (policies_ok (with_net p (remove_rules (net_rules p) (fun r => ru_id r =? id)))) as Hd by (apply net_ok; [done|]; by apply remove_ok, Hp).
    destruct (has_rule _ _); by simplify_eq.
  - unfold agent_internet_blocked_put in Hst. pose proof (toggle_ok p a bl now ok1.1.1 ok1.1.2 ok1.2 Hp) as Ht.
    destruct (internet_block_set_for_agent _ _ _ _ _ _ _) as [p1 [x|]]; by simplify_eq.
Qed.

(** Whatever the policy endpoints are asked, and whichever of their statements fail, the rules they
    store are ones a device can hold and enforce: ids in range and never repeated, a pattern that is not
    blank with a known mode, scopes that name what their kind needs, windows inside one day of the week;
    and each recorded kill refers to a rule that exists. *)
Theorem stored_policies_fit `{UuidText} hash_order to_lowercase ops p r :
  policies_ok p -> policies_ok (foldl (fun s op => let '(p, r, _) := policy_step hash_order to_lowercase s.1 s.2 op in (p, r)) (p, r) ops).1.
Proof.
  revert p r. induction ops as [|op ops IH]; intros p r Hp; [done|]. cbn [foldl fst snd]. destruct (policy_step _ _ p r op) as [[p1 r1] ok] eqn:E.
  apply IH. by eapply policy_step_ok.
Qed.
Lemma log_event_ok p agent rule name exe now p' : policies_ok p -> log_app_block_event p agent rule name exe now = Some p' -> policies_ok p'.
Proof.
  intros (Ha & Hn & He). unfold log_app_block_event. destruct (_ && _) eqn:E; [|done]. intros [= <-]. bool_prop. split_and!; [done..|].
  apply Forall_app. split; [done|]. by apply Forall_singleton.
Qed.
Lemma empty_ok : policies_ok Policies_empty.
Proof. split_and!; [split; [constructor|constructor|constructor|done|done]..|constructor]. Qed.

(** The quick toggle: switched on, the device is blocked unless it has a scheduled rule of its own;
    switched off, no rule names it any more, and nothing was added. *)
Lemma quick_toggle_exact p agent blocked now c w rd p' b :
  internet_block_set_for_agent p agent blocked now c w rd = (p', Some b) ->
  b = get_agent_internet_blocked p' agent
  /\ if blocked then b = true \/ exists r, r ∈ rows (net_rules p) /\ ru_enabled r = true /\ existsb (direct_scope agent) (ru_scopes r) = true /\ ru_schedules r <> []
     else forall r, r ∈ rows (net_rules p') -> existsb (direct_scope agent) (ru_scopes r) = false /\ r ∈ rows (net_rules p).
Proof.
  unfold internet_block_set_for_agent. cbv zeta. destruct blocked.
  - destruct (negb c); [done|]. destruct (existsb _ (rows _)) eqn:Ex.
    + destruct rd; [|done]. intros [= <- <-]. split; [done|]. apply existsb_exists in Ex as (r & Hin & Hr). bool_prop. apply list_elem_of_In in Hin.
      destruct (ru_schedules r) as [|s l] eqn:Es; [left|right; exists r; by rewrite Es]. unfold get_agent_internet_blocked. apply existsb_exists. exists r.
      split; [by apply list_elem_of_In|]. unfold always_on. rewrite Es. rewrite H, andb_true_l. unfold applies. apply existsb_exists.
      apply existsb_exists in H0 as (s & Hs & Hd). exists s. split; [done|]. unfold direct_scope in Hd. unfold scope_covers. rewrite Hd. by rewrite orb_true_r.
    + destruct w; [|done]. destruct (internet_block_rule_create _ _ _ _ _) as [[p1 n]|] eqn:E; [|done]. destruct rd; [|done]. intros [= <- <-]. split; [done|left].
      unfold internet_block_rule_create in E. destruct (insert_rule _ _ _ _ _ _ _) as [[t n']|] eqn:Ei; [|done]. cbn in E. simplify_eq.
      unfold insert_rule in Ei. destruct (_ && _) in Ei; [|done]. simplify_eq. unfold get_agent_internet_blocked. cbn [net_rules with_net rows]. rewrite existsb_app.
      apply orb_true_iff. right. cbn [existsb ru_enabled always_on ru_schedules]. unfold applies, scope_covers.
      cbn [ru_scopes existsb sc_kind sc_agent sc_group]. by rewrite (bool_decide_eq_true_2 (Some agent = Some agent)).
  - destruct w; [|done]. destruct rd; [|done]. intros [= <- <-]. split; [done|]. intros r Hr. cbn in Hr.
    apply list_elem_of_In in Hr. apply filter_In in Hr as [Hr Hn]. apply negb_true_iff in Hn. split; [done|]. by apply list_elem_of_In.
Qed.

(** ** Examples *)

(** Two connected devices, 7 and 8; 7 is in group 3. *)
Definition ex_conn (id : Uuid) : AgentConn := {| conn_id := id; connected_at := 0; session_id := 1; legacy_policy_delivery := true |}.
Definition ex_socket : Socket := {| shutdown := None; queue := [] |}.
Definition ex_registry : AgentRegistry :=
  {| connections := {[7%N := ex_conn 70%N; 8%N := ex_conn 80%N]}; cmds := {[7%N := 70%N; 8%N := 80%N]}; modules := ∅; live := ∅;
     sockets := {[70%N := ex_socket; 80%N := ex_socket]} |}.
Definition ex_policies : Policies :=
  {| app_rules := app_rules Policies_empty; net_rules := net_rules Policies_empty; app_events := []; next_event := 1; p_groups := {[3%N]};
     p_members := {[(3%N, 7%N)]}; p_agents := {[7%N; 8%N]} |}.
Definition ex_group : Scope := {| sc_kind := "group"; sc_group := Some 3%N; sc_agent := None |}.
Definition ex_agent (a : Uuid) : Scope := {| sc_kind := "agent"; sc_group := None; sc_agent := Some a |}.
Definition ex_all : Scope := {| sc_kind := "all"; sc_group := None; sc_agent := None |}.
Definition ex_night : RuleScheduleJson := {| day_of_week := 1; start_minute := 1260; end_minute := 1440 |}.
Definition ex_answers : PushAnswers := {| pa_info := Some None; pa_rules := true |}.
Definition ex_body (pattern mode : string) (scope : Scope) : CreateAppBlockRuleBody :=
  {| cb_name := "games"; cb_exe_pattern := pattern; cb_match_mode := mode; cb_scopes := [scope]; cb_schedules := [ex_night] |}.
Definition ex_create (pattern mode : string) (scope : Scope) : PolicyOp := CreateApp (ex_body pattern mode scope) 100 true (fun _ _ => ex_answers).
Definition ex_step (s : Policies * AgentRegistry) (op : PolicyOp) : Policies * AgentRegistry * bool := @policy_step bin_uuid elements to_ascii_lowercase s.1 s.2 op.
Definition ex_run (ops : list PolicyOp) : Policies * AgentRegistry := foldl (fun s op => (ex_step s op).1) (ex_policies, ex_registry) ops.
Definition ex_queue (s : Policies * AgentRegistry) (ch : Uuid) : list AgentControl := default [] (queue <$> sockets s.2 !! ch).

Lemma ex_policies_ok : policies_ok ex_policies.
Proof. exact empty_ok. Qed.
Lemma stored_policies_fit_witness : policies_ok ex_policies /\ length (rows (app_rules (ex_run [ex_create "Steam" "contains" ex_group; ex_create "explorer" "contains" ex_all]).1)) = 1%nat
  /\ policies_ok (ex_run [ex_create "Steam" "contains" ex_group; ex_create "explorer" "contains" ex_all]).1.
Proof.
  split; [exact ex_policies_ok|]. split; [vm_compute; reflexivity|].
  pose proof (@stored_policies_fit bin_uuid elements to_ascii_lowercase [ex_create "Steam" "contains" ex_group; ex_create "explorer" "contains" ex_all]
    ex_policies ex_registry ex_policies_ok) as Hok.
  vm_compute in Hok |- *. exact Hok.
Defined.

Lemma edits_reach_devices_witness :
  let s := ex_run [ex_create "Steam" "contains" ex_group] in
  exists q cmd, ex_queue s 70%N = q /\ CText cmd ∈ q /\ cmd = @to_value bin_uuid (app_block_command s.1 7%N) /\ @told bin_uuid ex_registry s.2 7%N (app_block_command s.1 7%N).
Proof.
  cbv zeta. exists (ex_queue (ex_run [ex_create "Steam" "contains" ex_group]) 70%N), (@to_value bin_uuid (app_block_command (ex_run [ex_create "Steam" "contains" ex_group]).1 7%N)).
  split; [reflexivity|]. split; [apply (bool_decide_unpack _); vm_compute; exact I|]. split; [reflexivity|].
  apply (@edits_reach_devices bin_uuid elements to_ascii_lowercase) with (m := MApp) (p := ex_policies) (op := ex_create "Steam" "contains" ex_group).
  - intros s a Hin. by apply elem_of_elements.
  - unfold ex_run, ex_step. cbn [foldl fst snd]. destruct (policy_step _ _ _ _ _) as [[p1 r1] ok] eqn:E. cbn [fst snd].
    assert ((@policy_step bin_uuid elements to_ascii_lowercase ex_policies ex_registry (ex_create "Steam" "contains" ex_group)).2 = true) as Hok by (vm_compute; reflexivity).
    rewrite E in Hok. cbn in Hok. by subst ok.
  - intros i. split; vm_compute; reflexivity.
  - intros E. apply (f_equal (@to_value bin_uuid)) in E. vm_compute in E. discriminate E.
  - vm_compute. reflexivity.
Defined.

(** Deleting a rule that covers devices through groups only tells none of them. *)
Lemma group_rule_deletion_tells_nobody `{UuidText} hash_order p r id sok env :
  forallb (fun s => String.eqb (sc_kind s) "group") (scopes_of (app_rules p) id) = true -> (app_block_rules_delete hash_order p r id sok true env).1.2 = r.
Proof.
  intros Hg. rewrite forallb_forall in Hg. unfold app_block_rules_delete. cbv zeta.
  assert (app_block_rule_has_all_scope p id = false) as ->.
  { unfold app_block_rule_has_all_scope, has_all_scope. apply not_true_iff_false. intros (s & Hin & Hs)%existsb_exists. specialize (Hg _ Hin).
    apply String.eqb_eq in Hs, Hg. congruence. }
  assert (app_block_rule_direct_agent_ids p id = []) as ->.
  { unfold app_block_rule_direct_agent_ids, direct_agent_ids. revert Hg. generalize (scopes_of (app_rules p) id) as l. induction l as [|s l IH]; [done|]. intros Hg.
    cbn [omap list_omap]. rewrite IH by (intros; apply Hg; by right). specialize (Hg s (or_introl eq_refl)). apply String.eqb_eq in Hg. by rewrite Hg. }
  rewrite andb_false_r. cbn [negb]. destruct (app_block_rule_delete p id) as [p' []]; [|done]. by destruct sok.2.
Qed.
Lemma deleted_group_rule_stays_on_device :
  let s := ex_run [ex_create "Steam" "contains" ex_group] in
  let t := ex_step s (DeleteApp 1 (true, true) true (fun _ _ => ex_answers)) in
  t.2 = true /\ t.1.2 = s.2 /\ length (app_block_rules_effective_for_agent s.1 7%N) = 1%nat /\ app_block_rules_effective_for_agent t.1.1 7%N = [].
Proof. vm_compute. done. Qed.
(** A scheduled internet rule made for one device is not sent to it: only whether it is always blocked is. *)
Lemma device_curfew_is_not_sent :
  let t := ex_step (ex_policies, ex_registry) (CreateNet "night" [ex_agent 7%N] [ex_night] 100 true (fun _ _ => (ex_answers, ex_answers))) in
  t.2 = true /\ length (internet_block_rules_effective_for_agent t.1.1 7%N) = 1%nat
  /\ ex_queue t.1 70%N = [CText (@to_value bin_uuid (SetNetworkPolicy_ {| snp_blocked := Some false |}))].
Proof. vm_compute. done. Qed.
(** With such a rule, "block now" blocks nothing. *)
Lemma toggle_leaves_scheduled_device_online :
  let t := ex_step (ex_policies, ex_registry) (CreateNet "night" [ex_agent 7%N] [ex_night] 100 true (fun _ _ => (ex_answers, ex_answers))) in
  let u := ex_step t.1 (ToggleNet 7%N true 200 (true, true, true) (true, true) (fun _ _ => ex_answers)) in
  u.2 = true /\ get_agent_internet_blocked u.1.1 7%N = false.
Proof. vm_compute. done. Qed.
(** And "unblock" for one device deletes rules that also cover others, who are not told. *)
Lemma toggle_off_frees_other_devices :
  let t := ex_step (ex_policies, ex_registry) (CreateNet "" [ex_agent 7%N; ex_agent 8%N] [] 100 true (fun _ _ => (ex_answers, ex_answers))) in
  let u := ex_step t.1 (ToggleNet 7%N false 200 (true, true, true) (true, true) (fun _ _ => ex_answers)) in
  get_agent_internet_blocked t.1.1 8%N = true /\ get_agent_internet_blocked u.1.1 8%N = false /\ ex_queue u.1 80%N = ex_queue t.1 80%N.
Proof. vm_compute. done. Qed.
(** The mode alone can be edited, and the protected names are not looked at again. *)
Lemma relaxed_rule_hits_protected :
  let s := ex_run [ex_create "exp" "exact" ex_all;
                   UpdateApp 1 {| ub_enabled := None; ub_name := None; ub_exe_pattern := None; ub_match_mode := Some "contains"%string; ub_scopes := None; ub_schedules := None |}
                     true (fun _ _ => ex_answers)] in
  (fun r => (ar_exe_pattern r, ar_match_mode r)) <$> app_block_rules_effective_for_agent s.1 7%N = [("exp", "contains")]%string
  /\ check_protected to_ascii_lowercase "exp" "contains" = Some "explorer.exe"%string.
Proof. vm_compute. done. Qed.
