(* ===== verification/Enforcement.v ===== *)
(** Device policies on the agent: the messages that set them ([agent/src/commands/policy.rs]), the weekly
    windows and the app-block enforcer ([agent/src/policy/schedule.rs], [app_block/]), the network
    kill-switch and its curfew scheduler ([network/]; the service's half in [host/service/requests.rs]).
    The processes, the firewall tools, name resolution, URLs and case folding are parameters; a firewall
    command is the list of its arguments with whether it succeeded. *)
From stdpp Require Import sorting.
From S2P Require Import AgentSession Policies.
From S2P Require Import Prelude Text Json Protocol Permissions.

(** ** Stored rules: [config/mod.rs], [app_block/mod.rs] *)

Record StoredScheduleWindow := { w_day_of_week : Z; w_start_minute : Z; w_end_minute : Z }.
Record StoredInternetBlockRule := { si_id : Z; si_name : string; si_schedules : list StoredScheduleWindow }.
Record StoredBlockRule := { sb_id : Z; sb_exe_pattern : string; sb_match_mode : string; sb_schedules : list StoredScheduleWindow }.
Inductive MatchMode : Type := Exact | Contains.
Record BlockRule := { bl_id : Z; bl_exe_pattern : string; bl_match_mode : MatchMode; bl_schedules : list StoredScheduleWindow }.
Definition mode_from_str (s : string) : MatchMode := if String.eqb s "exact" then Exact else Contains.
Definition from_stored (s : StoredBlockRule) : BlockRule :=
  {| bl_id := sb_id s; bl_exe_pattern := sb_exe_pattern s; bl_match_mode := mode_from_str (sb_match_mode s); bl_schedules := sb_schedules s |}.
Definition to_stored (r : BlockRule) : StoredBlockRule :=
  {| sb_id := bl_id r; sb_exe_pattern := bl_exe_pattern r; sb_match_mode := match bl_match_mode r with Exact => "exact" | Contains => "contains" end;
     sb_schedules := bl_schedules r |}.

(** The derived readers. *)
Definition de_uint (hi : Z) (v : json) : option Z := ofilter (fun n => n <=? hi) (as_u64 v).
Definition decode_window (v : json) : option StoredScheduleWindow :=
  fs ← struct_fields false ["day_of_week"; "start_minute"; "end_minute"]%string v;
  match fs with
  | [d; s; e] => d ← d ≫= de_uint 255; s ← s ≫= de_uint u16_max; e ← e ≫= de_uint u16_max;
                 Some {| w_day_of_week := d; w_start_minute := s; w_end_minute := e |}
  | _ => None
  end.
(** [#[serde(default)]]: an absent list is empty. *)
Definition decode_windows (v : option json) : option (list StoredScheduleWindow) :=
  match v with None => Some [] | Some v => l ← as_array v; mapM decode_window l end.
Definition decode_mode (v : json) : option MatchMode :=
  match v with
  | JStr s | JObj [(s, JNull)] => if String.eqb s "exact" then Some Exact else if String.eqb s "contains" then Some Contains else None
  | _ => None
  end.
Definition decode_block_rule (v : json) : option BlockRule :=
  fs ← struct_fields false ["id"; "exe_pattern"; "match_mode"; "schedules"]%string v;
  match fs with
  | [i; p; m; w] => i ← i ≫= as_i64; p ← p ≫= as_str; m ← m ≫= decode_mode; w ← decode_windows w;
                    Some {| bl_id := i; bl_exe_pattern := p; bl_match_mode := m; bl_schedules := w |}
  | _ => None
  end.
Definition decode_internet_rule (v : json) : option StoredInternetBlockRule :=
  fs ← struct_fields false ["id"; "name"; "schedules"]%string v;
  match fs with
  | [i; n; w] => i ← i ≫= as_i64; n ← n ≫= as_str; w ← decode_windows w; Some {| si_id := i; si_name := n; si_schedules := w |}
  | _ => None
  end.

(** ** Windows: [schedule.rs] *)

(** The local clock: days from Sunday, hour and minute. *)
Record LocalNow := { l_weekday : Z; l_hour : Z; l_minute : Z }.
Definition is_active_now_local (windows : list StoredScheduleWindow) (now : LocalNow) : bool :=
  match windows with
  | [] => true
  | _ =>
      let minute := l_hour now * 60 + l_minute now in
      existsb (fun w => (w_day_of_week w =? l_weekday now) && (w_start_minute w <=? minute) && (minute <? w_end_minute w)) windows
  end.

Section device.
Variable to_lowercase : string -> string.
Definition matches (r : BlockRule) (exe : string) : bool :=
  let exe_lower := to_lowercase exe in
  let pat := to_lowercase (bl_exe_pattern r) in
  match bl_match_mode r with Exact => String.eqb exe_lower pat | Contains => str_contains exe_lower pat end.

(** ** The enforcer: [run_enforcer], [app_block/linux.rs], [app_block/windows.rs] *)

(** A process of [/proc]: its directory's name and files ([None]: unreadable), whether the grant still
    stands when it is reached and when it is to be killed, and whether [kill] succeeds. *)
Record Proc := {
  p_name : string; p_exe : option string; p_comm : option string; p_cmdline : option string; p_valid : bool; p_valid' : bool; p_killed : bool
}.
Fixpoint replace_char (a b : ascii) (s : string) : string :=
  match s with EmptyString => EmptyString | String c s => String (if Ascii.eqb c a then b else c) (replace_char a b s) end.
Definition candidates (p : Proc) : list string :=
  let exe_path := default ""%string (p_exe p) in
  let comm := trim (default "" (p_comm p))%string in
  let cmdline := default ""%string ((fun s => trim (replace_char "000" " " s)) <$> p_cmdline p) in
  let basename := default comm (ofilter (fun s => negb (String.eqb s "")) (List.last (Some <$> split_on "/" exe_path) None)) in
  [exe_path; basename; comm; cmdline].
Definition find_rule (rules : list BlockRule) (cands : list string) : option BlockRule := List.find (fun r => existsb (matches r) cands) rules.
Definition spared (self_pid pid : Z) : bool := (pid =? 0) || (pid =? 1) || (pid =? self_pid).
Definition kill_event (g : Generation) (r : BlockRule) (exe : string) : KillEvent :=
  {| ke_rule_id := bl_id r; ke_rule_name := bl_exe_pattern r; ke_exe_name := exe; ke_generation := g |}.
(** The kill of one process, with its pid. *)
Definition kill_linux (rules : list BlockRule) (g : Generation) (self_pid pid : Z) (p : Proc) : option (Z * KillEvent) :=
  if spared self_pid pid then None
  else
    let cands := candidates p in
    r ← find_rule rules cands;
    let shown := default "unknown"%string (List.find (fun s => negb (String.eqb (trim s) "")) cands) in
    if p_valid' p && p_killed p then Some (pid, kill_event g r shown) else None.
Fixpoint scan_linux (rules : list BlockRule) (g : Generation) (self_pid : Z) (procs : list Proc) : list (Z * KillEvent) :=
  match procs with
  | [] => []
  | p :: procs =>
      match parse_uint u32_max (p_name p) with
      | None => scan_linux rules g self_pid procs
      | Some pid =>
          if negb (p_valid p) then []
          else match kill_linux rules g self_pid pid p with
               | Some k => k :: scan_linux rules g self_pid procs
               | None => scan_linux rules g self_pid procs
               end
      end
  end.
(** A process of the snapshot: its image path when it could be asked. *)
Record WinProc := { wp_pid : Z; wp_exe : string; wp_image : option string; wp_valid : bool; wp_killed : bool }.
Definition win_candidate (p : WinProc) : string := default (wp_exe p) (wp_image p).
Definition win_spared (self_pid pid : Z) : bool := (pid =? self_pid) || (pid =? 0) || (pid =? 4).
Definition kill_windows (rules : list BlockRule) (g : Generation) (self_pid : Z) (p : WinProc) : option (Z * KillEvent) :=
  if win_spared self_pid (wp_pid p) then None
  else
    r ← List.find (fun r => matches r (win_candidate p)) rules;
    if wp_valid p && wp_killed p then Some (wp_pid p, kill_event g r (win_candidate p)) else None.
Definition scan_windows (rules : list BlockRule) (g : Generation) (self_pid : Z) (valid : bool) (procs : list WinProc) : list (Z * KillEvent) :=
  if negb valid then [] else omap (kill_windows rules g self_pid) procs.
(** One poll: the cached grants, the store file, the clock, and the scan over what is running. The kills,
    and the events for the session when one is attached. *)
Definition enforcer_poll (rules : list BlockRule) (cached : Store) (file : StoreFile) (now : LocalNow) (attached : bool)
    (scan : list BlockRule -> Generation -> list (Z * KillEvent)) : list (Z * KillEvent) * list KillEvent :=
  if negb (store_enabled cached AppPolicy) then ([], [])
  else match rok (load file) ≫= fun s => generation_from_state s AppPolicy with
       | None => ([], [])
       | Some g =>
           let active := List.filter (fun r => is_active_now_local (bl_schedules r) now) rules in
           match active with
           | [] => ([], [])
           | _ => let kills := scan active g in (kills, if attached then kills.*2 else [])
           end
       end.

(** ** The network kill-switch: [network/mod.rs], [network/linux.rs], [network/windows.rs] *)

Record Url := { u_scheme : string; u_host : option string; u_port : option Z }.
Variable url_parse : string -> option Url.
Fixpoint trim_start_char (c : ascii) (s : string) : string :=
  match s with String d s' => if Ascii.eqb d c then trim_start_char c s' else s | EmptyString => EmptyString end.
Fixpoint trim_end_char (c : ascii) (s : string) : string :=
  match s with
  | String d s' => match trim_end_char c s' with EmptyString => if Ascii.eqb d c then EmptyString else String d EmptyString | t => String d t end
  | EmptyString => EmptyString
  end.
Definition parse_server_host_port (server_url : string) : option (string * Z) :=
  u ← url_parse (trim server_url);
  if negb (existsb (String.eqb (u_scheme u)) ["ws"; "wss"]%string) then None
  else host ← u_host u; port ← u_port u; Some (trim_end_char "]" (trim_start_char "[" host), port).

(** Commands run so far, each with whether it succeeded; [ok i] is the outcome of the [i]-th. *)
Abbreviation Trace := (list (list string * bool)) (only parsing).
Definition run_command (ok : nat -> bool) (tr : Trace) (args : list string) : Trace * bool := (tr ++ [(args, ok (length tr))], ok (length tr)).
(** Each with [?]: the first failure ends it. *)
Fixpoint run_all (ok : nat -> bool) (tr : Trace) (l : list (list string)) : Trace * bool :=
  match l with
  | [] => (tr, true)
  | args :: l => let (tr, good) := run_command ok tr args in if good then run_all ok tr l else (tr, false)
  end.
Definition delete_table (t : string) : list string := ["delete"; "table"; "inet"; t]%string.
Definition nft_rule (l : list string) : list string := app ["add"; "rule"; "inet"; "vantyr_next"; "output"]%string l.
Definition add_chain : list string :=
  ["add"; "chain"; "inet"; "vantyr_next"; "output"; "{"; "type"; "filter"; "hook"; "output"; "priority"; "0"; ";"; "policy"; "drop"; ";"; "}"]%string.
Definition nft_steps (ip : IpAddr) (port : Z) : list (list string) :=
  let family := match ip with V4 _ => "ip" | V6 _ => "ip6" end%string in
  [["add"; "table"; "inet"; "vantyr_next"]%string; add_chain;
   nft_rule ["ct"; "state"; "established,related"; "accept"]%string; nft_rule ["oif"; "lo"; "accept"]%string;
   nft_rule [family; "daddr"; ip_to_string ip; "tcp"; "dport"; decimal port; "accept"]%string;
   nft_rule ["udp"; "dport"; "53"; "accept"]%string; nft_rule ["tcp"; "dport"; "53"; "accept"]%string; nft_rule ["udp"; "dport"; "67"; "accept"]%string].
Definition apply_nft_block (ok : nat -> bool) (ip : IpAddr) (port : Z) : Trace * bool :=
  let tr := (run_command ok [] (delete_table "vantyr_next")).1 in
  let (tr, good) := run_all ok tr (nft_steps ip port) in
  if negb good then (tr, false)
  else
    let tr := (run_command ok tr (delete_table "vantyr")).1 in
    run_command ok tr ["rename"; "table"; "inet"; "vantyr_next"; "vantyr"]%string.
(** [resolved]: what the resolver answers; IPv4 first. *)
Definition resolve_server_ip (host : string) (resolved : option (list IpAddr)) : option IpAddr :=
  match parse_ip host with
  | Some ip => Some ip
  | None => l ← resolved; List.find (fun ip => match ip with V4 _ => true | V6 _ => false end) l ∪ head l
  end.
Definition apply_block (ok : nat -> bool) (host : string) (port : Z) (resolved : option (list IpAddr)) : Trace * bool :=
  match resolve_server_ip host resolved with Some ip => apply_nft_block ok ip port | None => ([], false) end.
Definition remove_block (ok : nat -> bool) : Trace * bool :=
  let tr := (run_command ok [] (delete_table "vantyr_next")).1 in
  let tr := (run_command ok tr (delete_table "vantyr")).1 in (tr, true).

Definition win_rules : list string := ["VantyrAllowServer"; "VantyrAllowDNS"; "VantyrAllowDHCP"]%string.
Definition win_delete (name : string) : list string := ["advfirewall"; "firewall"; "delete"; "rule"; "name=" ++ name]%string.
Definition win_allow (name : string) (l : list string) : list string :=
  app ["advfirewall"; "firewall"; "add"; "rule"; "name=" ++ name; "dir=out"; "action=allow"; "enable=yes"]%string l.
Definition win_policy (p : string) : list string := ["advfirewall"; "set"; "allprofiles"; "firewallpolicy"; p]%string.
Definition delete_vantyr_rules (ok : nat -> bool) (tr : Trace) : Trace := foldl (fun tr n => (run_command ok tr (win_delete n)).1) tr win_rules.
Definition win_apply_block (ok : nat -> bool) (host : string) (port : Z) (resolved : option (list IpAddr)) : Trace * bool :=
  let server_ip := match resolved ≫= head with Some ip => ip_to_string ip | None => host end in
  run_all ok (delete_vantyr_rules ok [])
    [win_allow "VantyrAllowServer" ["protocol=TCP"; "remoteip=" ++ server_ip; "remoteport=" ++ decimal port]%string;
     win_allow "VantyrAllowDNS" ["protocol=UDP"; "remoteport=53"]%string; win_allow "VantyrAllowDHCP" ["protocol=UDP"; "remoteport=67"]%string;
     win_policy "blockinbound,blockoutbound"].
Definition win_remove_block (ok : nat -> bool) : Trace * bool :=
  let (tr, good) := run_command ok [] (win_policy "blockinbound,allowoutbound") in
  if good then (delete_vantyr_rules ok tr, true) else (tr, false).

(** What is asked of the firewall. *)
Inductive FwCall : Type := FwBlock (host : string) (port : Z) | FwRemove.
Definition fw_call (blocked : bool) (host : string) (port : Z) : FwCall := if blocked then FwBlock host port else FwRemove.
Definition network_valid (g : option Generation) (s : Store) : bool :=
  is_some_and g (fun g => bool_decide (gen_module g = NetworkPolicy) && Permissions.matches g s).
(** [apply_network_policy]: a block needs a standing grant, lifting one does not. *)
Definition apply_network_policy (blocked : bool) (host : string) (port : Z) (g : option Generation) (cached : Store) : option FwCall :=
  if blocked && negb (network_valid g cached) then None else Some (fw_call blocked host port).
(** On Windows the call goes through the service, which checks the stored grant again; when it cannot be
    reached, directly. *)
Definition service_set_network_policy (g : option Generation) (blocked : bool) (host : string) (port : Z) (file : StoreFile) : option FwCall :=
  if blocked && negb (is_some_and g (fun g => bool_decide (gen_module g = NetworkPolicy) && valid_fresh g file)) then None else Some (fw_call blocked host port).
Definition win_direct (blocked : bool) (host : string) (port : Z) (g : option Generation) (file : StoreFile) : option FwCall :=
  if blocked && negb (is_some_and g (fun g => valid_fresh g file)) then None else Some (fw_call blocked host port).

(** ** Messages from the server: [commands/policy.rs] *)

(** The fields of the configuration the policies use. *)
Record PolicyConfig := {
  server_url : string; auto_update_enabled : bool; internet_blocked : bool; internet_block_rules : list StoredInternetBlockRule;
  app_block_rules : list StoredBlockRule
}.
(** A change of the firewall spawned by a message. *)
Record NetTask := { t_blocked : bool; t_host : string; t_port : Z; t_generation : option Generation }.
(** The shared configuration, what the disk holds, what the configuration watch was last sent, the
    enforcer's rules, and the tasks spawned. *)
Record PolicyState := {
  ps_cfg : PolicyConfig; ps_disk : PolicyConfig; ps_watch : option PolicyConfig; ps_rules : list BlockRule; ps_tasks : list NetTask
}.
Definition with_blocked (c : PolicyConfig) (b : bool) : PolicyConfig :=
  {| server_url := server_url c; auto_update_enabled := auto_update_enabled c; internet_blocked := b; internet_block_rules := internet_block_rules c;
     app_block_rules := app_block_rules c |}.
Definition with_net_rules (c : PolicyConfig) (l : list StoredInternetBlockRule) : PolicyConfig :=
  {| server_url := server_url c; auto_update_enabled := auto_update_enabled c; internet_blocked := internet_blocked c; internet_block_rules := l;
     app_block_rules := app_block_rules c |}.
Definition with_app_rules (c : PolicyConfig) (l : list StoredBlockRule) : PolicyConfig :=
  {| server_url := server_url c; auto_update_enabled := auto_update_enabled c; internet_blocked := internet_blocked c;
     internet_block_rules := internet_block_rules c; app_block_rules := l |}.
Definition with_auto_update (c : PolicyConfig) (b : bool) : PolicyConfig :=
  {| server_url := server_url c; auto_update_enabled := b; internet_blocked := internet_blocked c; internet_block_rules := internet_block_rules c;
     app_block_rules := app_block_rules c |}.
(** The configuration is changed in memory, then saved; the watch hears of it when it was saved. *)
Definition store_config (s : PolicyState) (c : PolicyConfig) (save_ok watched : bool) : PolicyState :=
  {| ps_cfg := c; ps_disk := if save_ok then c else ps_disk s; ps_watch := if save_ok && watched then Some c else ps_watch s;
     ps_rules := ps_rules s; ps_tasks := ps_tasks s |}.
Definition spawn (s : PolicyState) (t : NetTask) : PolicyState :=
  {| ps_cfg := ps_cfg s; ps_disk := ps_disk s; ps_watch := ps_watch s; ps_rules := ps_rules s; ps_tasks := ps_tasks s ++ [t] |}.
Definition host_port (c : PolicyConfig) : string * Z := default (""%string, 443) (parse_server_host_port (server_url c)).
Definition net_task (c : PolicyConfig) (blocked : bool) (g : option Generation) : NetTask :=
  {| t_blocked := blocked; t_host := (host_port c).1; t_port := (host_port c).2; t_generation := g |}.
Definition set_auto_update (s : PolicyState) (cmd : SetAutoUpdate) (save_ok : bool) : PolicyState :=
  match sau_enabled cmd with Some b => store_config s (with_auto_update (ps_cfg s) b) save_ok true | None => s end.
Definition set_network_policy (s : PolicyState) (cmd : SetNetworkPolicy) (g : option Generation) (save_ok : bool) : PolicyState :=
  let blocked := default false (snp_blocked cmd) in
  let s := if blocked || internet_blocked (ps_cfg s) then spawn s (net_task (ps_cfg s) blocked g) else s in
  store_config s (with_blocked (ps_cfg s) blocked) save_ok true.
(** Whether the internet is to be cut now. *)
Definition desired_now (c : PolicyConfig) (now : LocalNow) : bool :=
  match internet_block_rules c with
  | [] => internet_blocked c
  | rules => existsb (fun r => is_active_now_local (si_schedules r) now) rules
  end.
Definition set_internet_block_rules (s : PolicyState) (cmd : BlockRules) (g : option Generation) (now : LocalNow) (save_ok : bool) : PolicyState :=
  let current := internet_blocked (ps_cfg s) in
  let c := with_net_rules (ps_cfg s) (omap decode_internet_rule (br_rules cmd)) in
  let desired := desired_now c now in
  let s := store_config s (with_blocked c desired) save_ok false in
  if Bool.eqb desired current then s else spawn s (net_task c desired g).
Definition set_app_block_rules (s : PolicyState) (cmd : BlockRules) (save_ok : bool) : PolicyState :=
  let rules := omap decode_block_rule (br_rules cmd) in
  store_config {| ps_cfg := ps_cfg s; ps_disk := ps_disk s; ps_watch := ps_watch s; ps_rules := rules; ps_tasks := ps_tasks s |}
    (with_app_rules (ps_cfg s) (to_stored <$> rules)) save_ok false.
(** The arms of the command dispatch that set policies. *)
Definition policy_command (s : PolicyState) (c : ServerCommand) (g : option Generation) (now : LocalNow) (save_ok : bool) : PolicyState :=
  match c with
  | SetAutoUpdate_ cmd => set_auto_update s cmd save_ok
  | SetNetworkPolicy_ cmd => set_network_policy s cmd g save_ok
  | SetInternetBlockRules cmd => set_internet_block_rules s cmd g now save_ok
  | SetAppBlockRules cmd => set_app_block_rules s cmd save_ok
  | _ => s
  end.
(** [spawn_for_command]: a task that starts after its grant ended does nothing; one cut short may end
    before it reached the firewall. *)
Definition run_task (t : NetTask) (at_start at_call : Store) (cut : bool) : option FwCall :=
  if is_some_and (t_generation t) (fun g => negb (Permissions.matches g at_start)) then None
  else if cut then None
  else apply_network_policy (t_blocked t) (t_host t) (t_port t) (t_generation t) at_call.
(** A start of the agent: the saved configuration, and the enforcer's rules from it. *)
Definition start_policies (disk : PolicyConfig) : PolicyState :=
  {| ps_cfg := disk; ps_disk := disk; ps_watch := None; ps_rules := from_stored <$> app_block_rules disk; ps_tasks := [] |}.

(** ** The curfew scheduler: [network/scheduler.rs] *)

Record Scheduler := { last_applied : option bool; remove_failed : bool }.
Definition Scheduler_new : Scheduler := {| last_applied := None; remove_failed := false |}.
(** One tick: the cached grants at its head and when the firewall is called, the store file, the clock,
    and whether lifting the block and saving succeed. *)
Record TickEnv := { te_cached : Store; te_at_call : Store; te_file : StoreFile; te_now : LocalNow; te_removed : bool; te_saved : bool }.
Definition scheduler_tick (s : PolicyState) (k : Scheduler) (e : TickEnv) : PolicyState * Scheduler * list FwCall :=
  if negb (store_enabled (te_cached e) NetworkPolicy) then (s, {| last_applied := None; remove_failed := negb (te_removed e) |}, [FwRemove])
  else
    let c := ps_cfg s in
    let has_rules := match internet_block_rules c with [] => false | _ => true end in
    let desired := desired_now c (te_now e) in
    if Bool.eqb desired (default (internet_blocked c) (last_applied k)) then (s, k, [])
    else
      let g := rok (load (te_file e)) ≫= fun st => generation_from_state st NetworkPolicy in
      let call := apply_network_policy desired (host_port c).1 (host_port c).2 g (te_at_call e) in
      let s := if has_rules then store_config s (with_blocked c desired) (te_saved e) false else s in
      (s, {| last_applied := Some desired; remove_failed := remove_failed k |}, match call with Some f => [f] | None => [] end).
Fixpoint scheduler_run (s : PolicyState) (k : Scheduler) (es : list TickEnv) : PolicyState * Scheduler * list FwCall :=
  match es with
  | [] => (s, k, [])
  | e :: es => let '(s, k, f) := scheduler_tick s k e in let '(s, k, fs) := scheduler_run s k es in (s, k, f ++ fs)
  end.
End device.

(** ** Theorems: rules reach the enforcer *)

Definition device_window (s : RuleScheduleJson) : StoredScheduleWindow :=
  {| w_day_of_week := day_of_week s; w_start_minute := start_minute s; w_end_minute := end_minute s |}.
(** A server rule as the device holds it. *)
Definition device_rule (r : AppBlockRule) : BlockRule :=
  {| bl_id := ru_id r; bl_exe_pattern := exe_pattern (ru_body r); bl_match_mode := mode_from_str (match_mode (ru_body r));
     bl_schedules := device_window <$> sorted_schedules (ru_schedules r) |}.
Definition device_internet_rule (r : InternetBlockRule) : StoredInternetBlockRule :=
  {| si_id := ru_id r; si_name := ru_name r; si_schedules := device_window <$> sorted_schedules (ru_schedules r) |}.

Lemma de_uint_ok hi z : 0 <= z <= hi -> hi <= u64_max -> de_uint hi (JInt z) = Some z.
Proof.
  intros Hz Hh. unfold de_uint, as_u64. rewrite (proj2 (in_range_spec 0 u64_max z)) by lia. cbn. by rewrite (proj2 (Z.leb_le z hi)) by lia.
Qed.
Lemma decode_schedule s : schedule_stored s = true -> decode_window (schedule_json s) = Some (device_window s).
Proof.
  unfold schedule_stored. intros E. bool_prop. repeat match goal with H : in_range _ _ _ = true |- _ => apply in_range_spec in H end.
  unfold decode_window. change (struct_fields _ _ (schedule_json s)) with (Some [Some (JInt (day_of_week s)); Some (JInt (start_minute s)); Some (JInt (end_minute s))]).
  cbn [mbind option_bind]. unfold u16_max. by rewrite !de_uint_ok by (unfold u64_max; lia).
Qed.
Lemma decode_schedules l :
  Forall (fun s => schedule_stored s = true) l -> decode_windows (Some (JArr (schedule_json <$> sorted_schedules l))) = Some (device_window <$> sorted_schedules l).
Proof.
  intros F. assert (Forall (fun s => schedule_stored s = true) (sorted_schedules l)) as F' by (unfold sorted_schedules; by rewrite merge_sort_Permutation).
  cbn [decode_windows as_array mbind option_bind]. revert F'. generalize (sorted_schedules l) as k. clear. induction k as [|s k IH]; [done|].
  intros [Hs Hk]%Forall_cons. cbn [fmap list_fmap mapM]. rewrite decode_schedule by done. cbn [mbind option_bind]. by rewrite IH.
Qed.
Lemma as_i64_ok z : 1 <= z <= i64_max -> as_i64 (JInt z) = Some z.
Proof. intros Hz. unfold as_i64. by rewrite (proj2 (in_range_spec i64_min i64_max z)) by (unfold i64_min; lia). Qed.
Lemma decode_app_row r : rule_fits body_ok r -> decode_block_rule (app_row_json (app_row true r)) = Some (device_rule r).
Proof.
  intros [Hi [_ Hm] _ Hs]. unfold decode_block_rule.
  change (struct_fields _ _ _) with (Some [Some (JInt (ru_id r)); Some (JStr (exe_pattern (ru_body r))); Some (JStr (match_mode (ru_body r)));
    Some (JArr (schedule_json <$> sorted_schedules (ru_schedules r)))]).
  cbn [mbind option_bind as_str]. rewrite as_i64_ok by done. cbn [mbind option_bind]. rewrite decode_schedules by done.
  unfold decode_mode. apply elem_of_cons in Hm as [Hm|Hm%list_elem_of_singleton]; unfold device_rule; by rewrite Hm.
Qed.
Lemma decode_net_row r : rule_fits (fun _ => True) r -> decode_internet_rule (net_row_json (net_row r)) = Some (device_internet_rule r).
Proof.
  intros [Hi _ _ Hs]. unfold decode_internet_rule.
  change (struct_fields _ _ _) with (Some [Some (JInt (ru_id r)); Some (JStr (ru_name r)); Some (JArr (schedule_json <$> sorted_schedules (ru_schedules r)))]).
  cbn [mbind option_bind as_str]. rewrite as_i64_ok by done. cbn [mbind option_bind]. by rewrite decode_schedules.
Qed.
Lemma decode_each {A B} (enc : A -> json) (dec : json -> option B) (f : A -> B) (P : A -> Prop) l :
  (forall a, P a -> dec (enc a) = Some (f a)) -> Forall P l -> omap dec (enc <$> l) = f <$> l.
Proof. intros Hd. induction 1 as [|a l Ha _ IH]; [done|]. cbn [fmap list_fmap omap list_omap]. by rewrite Hd, IH. Qed.
Lemma stored_rule_again r : from_stored (to_stored r) = r.
Proof. by destruct r as [? ? [] ?]. Qed.

(** What the device reads of a message off the wire. *)
Definition received `{UuidText} (c : ServerCommand) : ServerCommand := match to_value c with JObj l => parse_fields l | _ => Unknown end.

(** C30: the device holds exactly the rules the server means for it: whatever policies the endpoints stored,
    a pushed message read off the wire leaves the device with every enabled rule that covers it, in order
    and with its pattern, mode and windows, and with no other; none is lost to a reader on the way,
    and a restart from the saved configuration has the same rules. *)
Theorem pushed_rules_arrive `{UuidText} url_parse p agent s g now :
  policies_ok p ->
  let rules := device_rule <$> List.filter (fun r => ru_enabled r && applies p agent r) (rows (app_rules p)) in
  let s1 := policy_command url_parse s (received (app_block_command p agent)) g now true in
  ps_rules s1 = rules /\ ps_rules (start_policies (ps_disk s1)) = rules
  /\ let s2 := policy_command url_parse s (received (internet_command p agent)) g now true in
     let nets := device_internet_rule <$> List.filter (fun r => ru_enabled r && applies p agent r) (rows (net_rules p)) in
     internet_block_rules (ps_cfg s2) = nets /\ internet_block_rules (ps_disk s2) = nets.
Proof.
  intros ([_ _ Fa _ _] & [_ _ Fn _ _] & _). cbv zeta.
  assert (received (app_block_command p agent) = app_block_command p agent) as -> by reflexivity.
  assert (received (internet_command p agent) = internet_command p agent) as -> by reflexivity.
  set (la := List.filter _ (rows (app_rules p))). set (ln := List.filter _ (rows (net_rules p))).
  assert (omap decode_block_rule (app_row_json <$> app_block_rules_effective_for_agent p agent) = device_rule <$> la) as Ea.
  { unfold app_block_rules_effective_for_agent. rewrite <- list_fmap_compose. apply (decode_each _ _ _ (rule_fits body_ok)); [intros r; apply decode_app_row|].
    by apply Forall_filter_bool. }
  assert (omap decode_internet_rule (net_row_json <$> internet_block_rules_effective_for_agent p agent) = device_internet_rule <$> ln) as En.
  { unfold internet_block_rules_effective_for_agent. rewrite <- list_fmap_compose. apply (decode_each _ _ _ (rule_fits (fun _ => True))); [intros r; apply decode_net_row|].
    by apply Forall_filter_bool. }
  cbn [policy_command app_block_command internet_command]. unfold set_app_block_rules, set_internet_block_rules. cbn [br_rules]. rewrite Ea, En.
  split_and!; [done| | |].
  - cbn [store_config start_policies ps_disk ps_rules with_app_rules app_block_rules]. rewrite <- list_fmap_compose.
    rewrite (list_fmap_ext _ id); [by rewrite list_fmap_id|]. intros i r _. apply stored_rule_again.
  - by destruct (Bool.eqb _ _).
  - by destruct (Bool.eqb _ _).
Qed.

(** ** Theorems: what the enforcer kills *)

(** A rule is active in one of its windows, or always when it has none. *)
Definition active_at (windows : list StoredScheduleWindow) (now : LocalNow) : Prop :=
  windows = [] \/ exists w, w ∈ windows /\ w_day_of_week w = l_weekday now /\ w_start_minute w <= l_hour now * 60 + l_minute now < w_end_minute w.
Lemma is_active_spec windows now : is_active_now_local windows now = true <-> active_at windows now.
Proof.
  unfold is_active_now_local, active_at. destruct windows as [|w0 l]; [by split; [left|]|]. rewrite existsb_exists. split.
  - intros (w & Hin & Hw). right. exists w. bool_prop. split; [by apply list_elem_of_In|]. lia.
  - intros [?|(w & Hin & Hd & Hm)]; [done|]. exists w. split; [by apply list_elem_of_In|].
    rewrite !andb_true_iff, Z.eqb_eq, Z.leb_le, Z.ltb_lt. lia.
Qed.

Section kills.
Context (to_lowercase : string -> string).
(** The processes the scan reaches while the grant stands. *)
Fixpoint reached (procs : list Proc) : list Proc :=
  match procs with
  | [] => []
  | p :: procs => if isSome (parse_uint u32_max (p_name p)) && negb (p_valid p) then [] else p :: reached procs
  end.
(** A rule that matches a name: the pattern is the name, or part of it, whatever the case. *)
Definition named (r : BlockRule) (name : string) : Prop :=
  match bl_match_mode r with
  | Exact => to_lowercase name = to_lowercase (bl_exe_pattern r)
  | Contains => str_contains (to_lowercase name) (to_lowercase (bl_exe_pattern r)) = true
  end.
Lemma matches_named r name : matches to_lowercase r name = true <-> named r name.
Proof. unfold matches, named. destruct (bl_match_mode r); [apply String.eqb_eq|done]. Qed.
(** A rule in force that matches a process known under [shown]. *)
Definition hit (rules : list BlockRule) (now : LocalNow) (shown : list string) (r : BlockRule) : Prop :=
  r ∈ rules /\ active_at (bl_schedules r) now /\ exists c, c ∈ shown /\ named r c.
(** The generation under which the device grants app blocking: by the cached grants and by the stored ones. *)
Definition granted (cached : Store) (file : StoreFile) (g : Generation) : Prop :=
  store_enabled cached AppPolicy = true /\ exists st, load file = Ok st /\ generation_from_state st AppPolicy = Some g.
Definition in_force (rules : list BlockRule) (now : LocalNow) : list BlockRule := List.filter (fun r => is_active_now_local (bl_schedules r) now) rules.
Lemma elem_of_in_force rules now r : r ∈ in_force rules now <-> r ∈ rules /\ active_at (bl_schedules r) now.
Proof. unfold in_force. by rewrite !list_elem_of_In, filter_In, is_active_spec. Qed.
Lemma poll_spec rules cached file now attached scan kills events :
  enforcer_poll rules cached file now attached scan = (kills, events) ->
  events = (if attached then kills.*2 else [])
  /\ (forall x, x ∈ kills -> exists g, granted cached file g /\ x ∈ scan (in_force rules now) g)
  /\ (forall g r, granted cached file g -> r ∈ in_force rules now -> kills = scan (in_force rules now) g).
Proof.
  unfold enforcer_poll, granted. fold (in_force rules now).
  destruct (store_enabled cached AppPolicy); cbn [negb]; [|intros [= <- <-]; split_and!; [by destruct attached|by intros ? ?%not_elem_of_nil|by intros ? ? [? _]]].
  destruct (load file) as [st|]; cbn [rok mbind option_bind];
    [|intros [= <- <-]; split_and!; [by destruct attached|by intros ? ?%not_elem_of_nil|by intros ? ? (_ & ? & ? & _)]].
  destruct (generation_from_state st AppPolicy) as [g|] eqn:Hg;
    [|intros [= <- <-]; split_and!; [by destruct attached|by intros ? ?%not_elem_of_nil|intros ? ? (_ & ? & [= <-] & ?); congruence]].
  destruct (in_force rules now) as [|r0 l] eqn:Ha.
  { intros [= <- <-]. split_and!; [by destruct attached|by intros ? ?%not_elem_of_nil|by intros ? ? _ ?%not_elem_of_nil]. }
  intros [= <- <-]. split_and!; [done| |].
  - intros x Hx. exists g. split; [|done]. split; [done|]. by exists st.
  - intros g' r (_ & st' & [= <-] & Hg') _. congruence.
Qed.
Lemma find_rule_Some rules cands r : find_rule to_lowercase rules cands = Some r -> r ∈ rules /\ exists c, c ∈ cands /\ matches to_lowercase r c = true.
Proof.
  intros [Hin Hx]%find_some. split; [by apply list_elem_of_In|]. apply existsb_exists in Hx as (c & Hc & Hm). exists c. split; [by apply list_elem_of_In|done].
Qed.
Lemma find_rule_None rules cands r c : find_rule to_lowercase rules cands = None -> r ∈ rules -> c ∈ cands -> matches to_lowercase r c = false.
Proof.
  intros Hn Hr Hc. apply list_elem_of_In in Hr, Hc. pose proof (find_none _ _ Hn r Hr) as Hx. destruct (matches _ r c) eqn:E; [|done].
  rewrite <- Hx. symmetry. apply existsb_exists. by exists c.
Qed.
Lemma kill_linux_spec rules g self pid p k :
  kill_linux to_lowercase rules g self pid p = Some k <->
  spared self pid = false /\ p_valid' p = true /\ p_killed p = true
  /\ exists r, find_rule to_lowercase rules (candidates p) = Some r
     /\ k = (pid, kill_event g r (default "unknown"%string (List.find (fun s => negb (String.eqb (trim s) "")) (candidates p)))).
Proof.
  unfold kill_linux. destruct (spared self pid); [naive_solver|]. destruct (find_rule _ _ _) as [r|]; cbn [mbind option_bind]; [|naive_solver].
  destruct (p_valid' p), (p_killed p); cbn [andb]; naive_solver.
Qed.
Lemma scan_spec rules g self procs :
  scan_linux to_lowercase rules g self procs =
  omap (fun p => pid ← parse_uint u32_max (p_name p); kill_linux to_lowercase rules g self pid p) (reached procs).
Proof.
  induction procs as [|p procs IH]; [done|]. cbn [scan_linux reached]. destruct (parse_uint _ (p_name p)) as [pid|] eqn:E; cbn [isSome andb].
  - destruct (p_valid p); cbn [negb]; [|done]. cbn [omap list_omap]. rewrite E. cbn [mbind option_bind]. rewrite IH. by destruct (kill_linux _ _ _ _ _ _).
  - cbn [omap list_omap]. by rewrite E.
Qed.

Lemma kill_windows_spec rules g self p k :
  kill_windows to_lowercase rules g self p = Some k <->
  win_spared self (wp_pid p) = false /\ wp_valid p = true /\ wp_killed p = true
  /\ exists r, find_rule to_lowercase rules [win_candidate p] = Some r /\ k = (wp_pid p, kill_event g r (win_candidate p)).
Proof.
  assert (find_rule to_lowercase rules [win_candidate p] = List.find (fun r => matches to_lowercase r (win_candidate p)) rules) as ->.
  { unfold find_rule. induction rules as [|r l IH]; [done|]. cbn [List.find]. rewrite IH. cbn [existsb]. by rewrite orb_false_r. }
  unfold kill_windows. destruct (win_spared self (wp_pid p)); [naive_solver|]. destruct (List.find _ rules) as [r|]; cbn [mbind option_bind]; [|naive_solver].
  destruct (wp_valid p), (wp_killed p); cbn [andb]; naive_solver.
Qed.
Lemma find_hit rules now cands r : find_rule to_lowercase (in_force rules now) cands = Some r -> hit rules now cands r.
Proof. intros ([Hr Ha]%elem_of_in_force & c & Hc & Hm)%find_rule_Some. split; [done|]. split; [done|]. exists c. split; [done|by apply matches_named]. Qed.
Lemma hit_found rules now cands r : hit rules now cands r -> r ∈ in_force rules now /\ exists r', find_rule to_lowercase (in_force rules now) cands = Some r'.
Proof.
  intros (Hr & Ha & c & Hc & Hm). assert (r ∈ in_force rules now) as Hin by by apply elem_of_in_force. split; [done|].
  destruct (find_rule _ _ _) as [r'|] eqn:Hf; [by eexists|]. apply matches_named in Hm. by rewrite (find_rule_None _ _ _ _ Hf Hin Hc) in Hm.
Qed.
Lemma reached_elem procs p : p ∈ reached procs -> p ∈ procs.
Proof.
  induction procs as [|q l IH]; [done|]. cbn [reached]. destruct (_ && _); [by intros ?%not_elem_of_nil|].
  intros [->|Hin]%elem_of_cons; [left|right; by apply IH].
Qed.

Lemma reached_valid procs p pid : p ∈ reached procs -> parse_uint u32_max (p_name p) = Some pid -> p_valid p = true.
Proof.
  intros Hin Hn. induction procs as [|q l IH]; [by apply not_elem_of_nil in Hin|]. cbn [reached] in Hin.
  destruct (isSome _ && negb _) eqn:E; [by apply not_elem_of_nil in Hin|]. apply elem_of_cons in Hin as [<-|Hin]; [|by apply IH].
  rewrite Hn in E. cbn in E. by apply negb_false_iff in E.
Qed.

(** C31: enforcement is exact, on Linux and on Windows. A poll of the enforcer ends a process only while the
    device grants app blocking, by its cached and its stored grants when the poll starts and by its grant
    right before the kill, and only when a rule whose window is open matches one of the process's names;
    never the agent itself, nor the first two process ids (on Windows 0 and 4). It ends every such process
    whose turn comes (the Linux scan stops, the Windows one does not start, once the grant is gone) and that
    it may signal. Each kill is reported once, under the grant and the rule it was made for, when a session
    is attached. *)
Theorem enforcement_is_exact rules cached file now attached self procs valid snapshot kills events wkills wevents :
  enforcer_poll rules cached file now attached (fun active g => scan_linux to_lowercase active g self procs) = (kills, events) ->
  enforcer_poll rules cached file now attached (fun active g => scan_windows to_lowercase active g self valid snapshot) = (wkills, wevents) ->
  (forall pid k, (pid, k) ∈ kills -> exists g p r,
     granted cached file g /\ p ∈ procs /\ parse_uint u32_max (p_name p) = Some pid /\ p_valid p = true /\ p_valid' p = true /\ p_killed p = true
     /\ ~ (pid = 0 \/ pid = 1 \/ pid = self) /\ hit rules now (candidates p) r /\ ke_rule_id k = bl_id r /\ ke_rule_name k = bl_exe_pattern r /\ ke_generation k = g)
  /\ (forall g p pid r, granted cached file g -> p ∈ reached procs -> parse_uint u32_max (p_name p) = Some pid -> p_valid' p = true -> p_killed p = true ->
        ~ (pid = 0 \/ pid = 1 \/ pid = self) -> hit rules now (candidates p) r -> pid ∈ kills.*1)
  /\ (forall pid k, (pid, k) ∈ wkills -> exists g p r,
        granted cached file g /\ valid = true /\ p ∈ snapshot /\ wp_pid p = pid /\ wp_valid p = true /\ wp_killed p = true
        /\ ~ (pid = 0 \/ pid = 4 \/ pid = self) /\ hit rules now [default (wp_exe p) (wp_image p)] r
        /\ ke_rule_id k = bl_id r /\ ke_rule_name k = bl_exe_pattern r /\ ke_generation k = g)
  /\ (forall g p r, granted cached file g -> valid = true -> p ∈ snapshot -> wp_valid p = true -> wp_killed p = true ->
        ~ (wp_pid p = 0 \/ wp_pid p = 4 \/ wp_pid p = self) -> hit rules now [default (wp_exe p) (wp_image p)] r -> wp_pid p ∈ wkills.*1)
  /\ events = (if attached then kills.*2 else []) /\ wevents = (if attached then wkills.*2 else []).
Proof.
  intros (Ev & Only & All)%poll_spec (Ew & Wonly & Wall)%poll_spec. split_and!; [| | | |done|done].
  - intros pid k Hk. destruct (Only _ Hk) as (g & Hg & Hs). rewrite scan_spec in Hs. apply list_elem_of_omap in Hs as (p & Hin & Hs).
    destruct (parse_uint _ _) as [n|] eqn:Hn; [|done]. cbn [mbind option_bind] in Hs. apply kill_linux_spec in Hs as (Sp & V & K & r & Hf & [= -> ->]).
    exists g, p, r. unfold spared in Sp. bool_prop. split_and!; try done; [by apply reached_elem|by eapply reached_valid|lia|by apply find_hit].
  - intros g p pid r Hg Hin Hn V K Sp Hh. apply hit_found in Hh as (Ha & r' & Hf). rewrite (All g r Hg Ha). apply list_elem_of_fmap. eexists (pid, _). split; [done|].
    rewrite scan_spec. apply list_elem_of_omap. exists p. split; [done|]. rewrite Hn. cbn [mbind option_bind]. apply kill_linux_spec.
    split_and!; [unfold spared; lia|done|done|by exists r'].
  - intros pid k Hk. destruct (Wonly _ Hk) as (g & Hg & Hs). unfold scan_windows in Hs. destruct valid; [|by apply not_elem_of_nil in Hs].
    cbn [negb] in Hs. apply list_elem_of_omap in Hs as (p & Hin & Hs). apply kill_windows_spec in Hs as (Sp & V & K & r & Hf & [= -> ->]).
    exists g, p, r. unfold win_spared in Sp. bool_prop. split_and!; try done; [lia|by apply find_hit].
  - intros g p r Hg -> Hin V K Sp Hh. apply hit_found in Hh as (Ha & r' & Hf). rewrite (Wall g r Hg Ha). apply list_elem_of_fmap. eexists (_, _). split; [done|].
    unfold scan_windows. cbn [negb]. apply list_elem_of_omap. exists p. split; [done|]. apply kill_windows_spec. split_and!; [unfold win_spared; lia|done|done|by exists r'].
Qed.
End kills.

(** ** Theorems: the curfew *)

Section curfew.
Context (url_parse : string -> option Url).
(** Whether the firewall was last asked to block. *)
Definition fw_after (fw : bool) (calls : list FwCall) : bool := foldl (fun _ f => match f with FwBlock _ _ => true | FwRemove => false end) fw calls.
(** The scheduler knows what the firewall was last asked. *)
Definition in_step (s : PolicyState) (k : Scheduler) (fw : bool) : Prop := default (internet_blocked (ps_cfg s)) (last_applied k) = fw.
(** A tick all of whose looks at the grants find the device granting network policy. *)
Definition granted_tick (e : TickEnv) : Prop :=
  store_enabled (te_cached e) NetworkPolicy = true
  /\ exists st g, load (te_file e) = Ok st /\ generation_from_state st NetworkPolicy = Some g /\ generation_from_state (te_at_call e) NetworkPolicy = Some g.
Lemma generation_module st m g : generation_from_state st m = Some g -> gen_module g = m.
Proof. unfold generation_from_state. destruct (ofilter _ _); cbn; [|done]. by intros [= <-]. Qed.
Lemma fw_call_after fw b h p : fw_after fw [fw_call b h p] = b.
Proof. by destruct b. Qed.
Lemma desired_blocked c b now : internet_block_rules c <> [] -> desired_now (with_blocked c b) now = desired_now c now.
Proof. unfold desired_now. cbn [with_blocked internet_block_rules]. by destruct (internet_block_rules c). Qed.
(** One granted tick. *)
Lemma granted_tick_spec s k e fw s' k' calls :
  in_step s k fw -> granted_tick e -> scheduler_tick url_parse s k e = (s', k', calls) ->
  fw_after fw calls = desired_now (ps_cfg s) (te_now e) /\ in_step s' k' (fw_after fw calls) /\ (forall now, desired_now (ps_cfg s') now = desired_now (ps_cfg s) now).
Proof.
  intros Hi (Hc & st & g & Hl & Hg & Hg') Ht. unfold scheduler_tick in Ht. rewrite Hc in Ht. cbn [negb] in Ht. cbv zeta in Ht. rewrite Hl in Ht.
  cbn [rok mbind option_bind] in Ht. rewrite Hg in Ht. unfold in_step in *. rewrite Hi in Ht. destruct (Bool.eqb (desired_now (ps_cfg s) (te_now e)) fw) eqn:E.
  - simplify_eq/=. apply Bool.eqb_prop in E. done.
  - assert (network_valid (Some g) (te_at_call e) = true) as Hv.
    { cbn [network_valid is_some_and]. rewrite (generation_module _ _ _ Hg). unfold Permissions.matches. rewrite (generation_module _ _ _ Hg), Hg'.
      by apply andb_true_intro; split; apply bool_decide_eq_true_2. }
    unfold apply_network_policy in Ht. rewrite Hv, andb_false_r in Ht. injection Ht as <- <- <-. rewrite fw_call_after. cbn [last_applied default].
    split; [done|]. split; [done|]. intros now. destruct (internet_block_rules (ps_cfg s)) as [|r l] eqn:Er; [done|]. cbn [store_config ps_cfg].
    apply desired_blocked. by rewrite Er.
Qed.

(** A curfew follows the device's own clock, connected or not: starting in step with the firewall, as
    long as the device grants network policy each tick of the scheduler leaves the firewall as the
    rules want it at that minute (blocked in an open window of some rule, or always under a rule
    without windows; without rules, as last told), whether or not the configuration can be saved; and
    a tick that finds the grant gone lifts the block, whatever was applied before. *)
Theorem curfew_follows_clock s k fw es e s' k' calls :
  in_step s k fw -> scheduler_run url_parse s k (es ++ [e]) = (s', k', calls) ->
  (Forall granted_tick (es ++ [e]) -> fw_after fw calls = desired_now (ps_cfg s) (te_now e) /\ in_step s' k' (fw_after fw calls))
  /\ (store_enabled (te_cached e) NetworkPolicy = false -> fw_after fw calls = false).
Proof.
  revert s k fw s' k' calls. induction es as [|e1 es IH]; intros s k fw s' k' calls Hi Hr; cbn [app scheduler_run] in Hr.
  - destruct (scheduler_tick _ s k e) as [[s1 k1] f1] eqn:Ht. simplify_eq. rewrite app_nil_r. split.
    + intros [Hg _]%Forall_cons. by destruct (granted_tick_spec _ _ _ _ _ _ _ Hi Hg Ht) as (? & ? & _).
    + intros Hg. unfold scheduler_tick in Ht. rewrite Hg in Ht. cbn [negb] in Ht. by simplify_eq.
  - destruct (scheduler_tick _ s k e1) as [[s1 k1] f1] eqn:Ht. destruct (scheduler_run _ s1 k1 (es ++ [e])) as [[s2 k2] f2] eqn:Hrest. simplify_eq.
    unfold fw_after. rewrite foldl_app. fold (fw_after fw f1). change (foldl _ ?b f2) with (fw_after b f2). split.
    + intros [Hg Hgs]%Forall_cons. destruct (granted_tick_spec _ _ _ _ _ _ _ Hi Hg Ht) as (_ & Hi1 & Hd).
      rewrite <- Hd. by apply (IH s1 k1 (fw_after fw f1) s' k' f2 Hi1 Hrest).
    + intros Hg. clear -Hg Hrest. revert s1 k1 f2 s' k' Hrest. generalize (fw_after fw f1) as b. induction es as [|e2 es IH]; intros b s1 k1 f2 s' k' Hrest; cbn [app scheduler_run] in Hrest.
      * unfold scheduler_tick in Hrest. rewrite Hg in Hrest. cbn [negb] in Hrest. by simplify_eq.
      * destruct (scheduler_tick _ s1 k1 e2) as [[s2 k2] f3]. destruct (scheduler_run _ s2 k2 _) as [[s3 k3] f4] eqn:E. simplify_eq.
        unfold fw_after. rewrite foldl_app. by eapply IH.
Qed.
End curfew.

(** ** Theorems: the firewall of a Linux device *)

(** The table in force is removed only once the next one is complete, and the block is reported applied
    only when the next one took its place. *)
Lemma block_is_staged ok ip port :
  let res := apply_nft_block ok ip port in
  (delete_table "vantyr" ∈ res.1.*1 \/ res.2 = true -> forall args, args ∈ nft_steps ip port -> (args, true) ∈ res.1)
  /\ (res.2 = true -> last res.1 = Some (["rename"; "table"; "inet"; "vantyr_next"; "vantyr"]%string, true)).
Proof.
  cbv zeta. assert (forall l tr, let res := run_all ok tr l in tr `prefix_of` res.1 /\ (res.2 = true -> forall args, args ∈ l -> (args, true) ∈ res.1)
    /\ forall args, args ∈ res.1.*1 -> args ∈ tr.*1 \/ args ∈ l) as Hrun.
  { induction l as [|a l IH]; intros tr; cbn [run_all]; [split_and!; [done|by intros _ ? ?%not_elem_of_nil|by left]|].
    unfold run_command. destruct (ok (length tr)).
    - destruct (IH (tr ++ [(a, true)])) as (Hp & Hg & Hin). split_and!.
      + etrans; [by eexists|exact Hp].
      + intros Hgood args [->|Hx]%elem_of_cons; [|by apply Hg]. destruct Hp as [k ->]. rewrite <- app_assoc. apply elem_of_app. right. by left.
      + intros args Hx. destruct (Hin _ Hx) as [Hy|?]; [|right; by right]. rewrite fmap_app in Hy. apply elem_of_app in Hy as [?|Hy]; [by left|].
        apply list_elem_of_singleton in Hy as ->. right. by left.
    - split_and!; [by eexists|done|]. intros args Hx. cbn [fst] in Hx. rewrite fmap_app in Hx. apply elem_of_app in Hx as [?|Hx]; [by left|].
      apply list_elem_of_singleton in Hx as ->. right. by left. }
  unfold apply_nft_block. specialize (Hrun (nft_steps ip port) (run_command ok [] (delete_table "vantyr_next")).1).
  destruct (run_all _ _ _) as [tr good]. cbn [fst snd] in Hrun. destruct Hrun as (_ & Hg & Hin). destruct good; cbn [negb].
  - unfold run_command. cbn [fst snd]. split; [|intros E; rewrite last_snoc; by rewrite E].
    intros _ args Ha. apply elem_of_app. left. apply elem_of_app. left. by apply Hg.
  - cbn [fst snd]. split; [|done]. intros [Hd|?]; [|done]. destruct (Hin _ Hd) as [Hx|Hx]; exfalso; clear -Hx.
    + by apply list_elem_of_singleton in Hx.
    + unfold nft_steps, nft_rule in Hx. cbn [app] in Hx. repeat (apply elem_of_cons in Hx as [Hx|Hx]; [discriminate Hx|]). by apply not_elem_of_nil in Hx.
Qed.
(** But the next table is live as soon as its chain is: when one of its exceptions cannot be added, the
    chain that drops everything stays, the server's traffic included. *)
Lemma failed_block_leaves_drop_chain ok ip port :
  ok 1%nat = true -> ok 2%nat = true -> ok 3%nat = false ->
  exists first failed, apply_nft_block ok ip port = ([first; (["add"; "table"; "inet"; "vantyr_next"]%string, true); (add_chain, true); (failed, false)], false).
Proof. intros H1 H2 H3. unfold apply_nft_block, run_command. cbn. rewrite H1. cbn. rewrite H2. cbn. rewrite H3. cbn. by eexists _, _. Qed.

(** ** Theorems: protected names *)

(** A rule the endpoint accepts spares the protected programs: on the device it matches no name that
    folds to one of them, whatever its mode (full paths and command lines are another matter). *)
Theorem created_rules_spare_protected `{UuidText} hash_order to_lowercase p r b now ok env p' r' id rule exe :
  policies_ok p -> app_block_rules_create hash_order to_lowercase p r b now ok env = (p', r', Ok id) ->
  rule ∈ rows (app_rules p') -> ru_id rule = id -> to_lowercase exe ∈ PROTECTED_EXES -> matches to_lowercase (device_rule rule) exe = false.
Proof.
  intros Hok Hc Hin Hid Hexe. unfold app_block_rules_create in Hc. cbv zeta in Hc. destruct (String.eqb _ ""); [done|].
  destruct (check_protected _ _ _) eqn:Hp; [done|]. destruct ok; [|done]. unfold app_block_rule_create in Hc.
  destruct (insert_rule _ _ _ _ _ _ _) as [[t n]|] eqn:Hi; [|done]. cbn in Hc. simplify_eq/=.
  apply insert_rows in Hi as (r1 & Er & Ei & _ & _ & Eb & _ & _ & _ & _ & _ & Hn). rewrite Er in Hin. apply elem_of_app in Hin as [Hin|Hin%list_elem_of_singleton].
  { exfalso. destruct Hok as ([_ N _ _ _] & _). rewrite Forall_forall in N. specialize (N _ Hin). cbn in N. lia. }
  subst rule. unfold matches, device_rule. cbn [bl_match_mode bl_exe_pattern]. rewrite Eb. cbn [match_mode exe_pattern].
  unfold check_protected in Hp. rewrite trim_idem in Hp. apply list_elem_of_In in Hexe. pose proof (find_none _ _ Hp _ Hexe) as Hx. cbv beta in Hx. clear -Hx.
  unfold norm_match_mode, mode_from_str in *. destruct (String.eqb (cb_match_mode b) "exact"); cbn [String.eqb Ascii.eqb Bool.eqb] in *; [|done].
  by rewrite String.eqb_sym.
Qed.

(** ** Examples *)

Definition ex_grants (m : Module_) : Store := {| st_revision := 4; grants := {[m := {| g_enabled := true; g_revision := 4 |}]}; receipts := ∅ |}.
Definition ex_monday (hour : Z) : LocalNow := {| l_weekday := 1; l_hour := hour; l_minute := 15 |}.
Definition ex_no_url (s : string) : option Url := None.
Definition ex_config : PolicyConfig :=
  {| server_url := "wss://vantyr.test/ws/agent"; auto_update_enabled := false; internet_blocked := false; internet_block_rules := []; app_block_rules := [] |}.
(** The policies of [Policies]'s examples with one rule for device 7, which receives it. *)
Definition ex_one_rule (pattern mode : string) : Policies := (ex_run [ex_create pattern mode ex_group]).1.
Definition ex_pushed (pattern mode : string) : PolicyState :=
  policy_command ex_no_url (start_policies ex_config) (@received bin_uuid (app_block_command (ex_one_rule pattern mode) 7%N)) None (ex_monday 22) true.

Lemma ex_one_rule_ok pattern mode : policies_ok (ex_one_rule pattern mode).
Proof.
  unfold ex_one_rule, ex_run. cbn [foldl fst]. unfold ex_step. cbn [fst snd]. destruct (policy_step _ _ _ _ _) as [[p r] ok] eqn:E.
  exact (policy_step_ok _ _ _ _ _ _ _ _ ex_policies_ok E).
Qed.
Lemma pushed_rules_arrive_witness :
  policies_ok (ex_one_rule "Steam" "contains") /\ length (ps_rules (ex_pushed "Steam" "contains")) = 1%nat
  /\ ps_rules (start_policies (ps_disk (ex_pushed "Steam" "contains"))) = ps_rules (ex_pushed "Steam" "contains").
Proof.
  split; [apply ex_one_rule_ok|]. split; [vm_compute; reflexivity|].
  destruct (@pushed_rules_arrive bin_uuid ex_no_url (ex_one_rule "Steam" "contains") 7%N (start_policies ex_config) None (ex_monday 22) (ex_one_rule_ok "Steam" "contains"))
    as (E1 & E2 & _). unfold ex_pushed. rewrite E1. exact E2.
Defined.

Definition ex_proc (pid exe : string) : Proc :=
  {| p_name := pid; p_exe := Some exe; p_comm := None; p_cmdline := None; p_valid := true; p_valid' := true; p_killed := true |}.
Definition ex_poll (pattern mode : string) (hour : Z) (procs : list Proc) : list (Z * KillEvent) * list KillEvent :=
  enforcer_poll (ps_rules (ex_pushed pattern mode)) (ex_grants AppPolicy) (FileHolds (ex_grants AppPolicy)) (ex_monday hour) true
    (fun active g => scan_linux to_ascii_lowercase active g 77 procs).
Definition ex_win (pid : Z) (image : string) : WinProc := {| wp_pid := pid; wp_exe := "game.exe"; wp_image := Some image; wp_valid := true; wp_killed := true |}.
Definition ex_win_poll (pattern mode : string) (hour : Z) (procs : list WinProc) : list (Z * KillEvent) * list KillEvent :=
  enforcer_poll (ps_rules (ex_pushed pattern mode)) (ex_grants AppPolicy) (FileHolds (ex_grants AppPolicy)) (ex_monday hour) true
    (fun active g => scan_windows to_ascii_lowercase active g 77 true procs).
Definition ex_rule : BlockRule :=
  device_rule {| ru_id := 1; ru_name := "games"; ru_body := {| exe_pattern := "Steam"; match_mode := "contains" |};
                 ru_enabled := true; ru_created_at := 100; ru_scopes := [ex_group]; ru_schedules := [ex_night] |}.
Lemma enforcement_is_exact_witness :
  let procs := [ex_proc "1" "/sbin/steam-init"; ex_proc "self" "/usr/games/steam"; ex_proc "42" "/usr/games/steam"; ex_proc "43" "/usr/bin/bash"] in
  let snapshot := [ex_win 4 "steam"; ex_win 50 "c:/steam/steam.exe"] in
  (ex_poll "Steam" "contains" 22 procs).1.*1 = [42] /\ (ex_poll "Steam" "contains" 9 procs).1 = [] /\ 42 ∈ (ex_poll "Steam" "contains" 22 procs).1.*1
  /\ (ex_win_poll "Steam" "contains" 22 snapshot).1.*1 = [50] /\ 50 ∈ (ex_win_poll "Steam" "contains" 22 snapshot).1.*1.
Proof.
  cbv zeta. set (procs := [_; _; _; _]). set (snapshot := [_; _]). split; [vm_compute; reflexivity|]. split; [vm_compute; reflexivity|].
  destruct (enforcement_is_exact to_ascii_lowercase (ps_rules (ex_pushed "Steam" "contains")) (ex_grants AppPolicy) (FileHolds (ex_grants AppPolicy)) (ex_monday 22) true 77 procs
    true snapshot (ex_poll "Steam" "contains" 22 procs).1 (ex_poll "Steam" "contains" 22 procs).2 (ex_win_poll "Steam" "contains" 22 snapshot).1
    (ex_win_poll "Steam" "contains" 22 snapshot).2) as (_ & Hkill & _ & Hwin & _).
  - unfold ex_poll. by destruct (enforcer_poll _ _ _ _ _ _).
  - unfold ex_win_poll. by destruct (enforcer_poll _ _ _ _ _ _).
  - assert (ps_rules (ex_pushed "Steam" "contains") = [ex_rule]) as E by (vm_compute; reflexivity).
    assert (granted (ex_grants AppPolicy) (FileHolds (ex_grants AppPolicy)) {| gen_module := AppPolicy; gen_revision := 4 |}) as Hg.
    { split; [vm_compute; reflexivity|]. exists (ex_grants AppPolicy). split; vm_compute; reflexivity. }
    assert (active_at (bl_schedules ex_rule) (ex_monday 22)) as Ha by (apply is_active_spec; vm_compute; reflexivity).
    split; [|split; [vm_compute; reflexivity|]].
    + apply (Hkill _ (ex_proc "42" "/usr/games/steam") 42 ex_rule Hg); [cbn; right; right; left|vm_compute; reflexivity..|lia|].
      split; [rewrite E; left|]. split; [exact Ha|]. exists "/usr/games/steam"%string. split; [left|vm_compute; reflexivity].
    + apply (Hwin _ (ex_win 50 "c:/steam/steam.exe") ex_rule Hg eq_refl); [right; left|reflexivity..|cbn; lia|].
      split; [rewrite E; left|]. split; [exact Ha|]. exists "c:/steam/steam.exe"%string. split; [left|vm_compute; reflexivity].
Defined.

Definition ex_curfew : PolicyState :=
  start_policies (with_net_rules ex_config [{| si_id := 1; si_name := "night"; si_schedules := [device_window ex_night] |}]).
Definition ex_tick (granted : bool) (hour : Z) : TickEnv :=
  let st := if granted then ex_grants NetworkPolicy else Store_default in
  {| te_cached := st; te_at_call := st; te_file := FileHolds st; te_now := ex_monday hour; te_removed := true; te_saved := true |}.
Definition ex_ticks (s : PolicyState) (es : list TickEnv) : PolicyState * Scheduler * list FwCall := scheduler_run ex_no_url s Scheduler_new es.
Lemma granted_ex hour : granted_tick (ex_tick true hour).
Proof. split; [vm_compute; reflexivity|]. exists (ex_grants NetworkPolicy), {| gen_module := NetworkPolicy; gen_revision := 4 |}. split_and!; vm_compute; reflexivity. Qed.
Lemma curfew_follows_clock_witness :
  (ex_ticks ex_curfew ([ex_tick true 9] ++ [ex_tick true 22])).2 = [FwBlock "" 443] /\ fw_after false (ex_ticks ex_curfew ([ex_tick true 9] ++ [ex_tick true 22])).2 = true.
Proof.
  split; [vm_compute; reflexivity|].
  destruct (curfew_follows_clock ex_no_url ex_curfew Scheduler_new false [ex_tick true 9] (ex_tick true 22) (ex_ticks ex_curfew ([ex_tick true 9] ++ [ex_tick true 22])).1.1
    (ex_ticks ex_curfew ([ex_tick true 9] ++ [ex_tick true 22])).1.2 (ex_ticks ex_curfew ([ex_tick true 9] ++ [ex_tick true 22])).2) as [Hfw _].
  - reflexivity.
  - unfold ex_ticks. by destruct (scheduler_run _ _ _ _) as [[? ?] ?].
  - destruct Hfw as [E _]; [|rewrite E; vm_compute; reflexivity]. constructor; [apply granted_ex|]. constructor; [apply granted_ex|constructor].
Defined.
(** A block state pushed inside an open window lifts the curfew, and the scheduler, which still remembers
    having applied it, leaves it lifted. *)
Lemma lifted_curfew_stays_lifted :
  let '(s, k, calls) := ex_ticks ex_curfew [ex_tick true 22] in
  let s' := set_network_policy ex_no_url s {| snp_blocked := Some false |} (Some {| gen_module := NetworkPolicy; gen_revision := 4 |}) true in
  let task := omap (fun t => run_task t (ex_grants NetworkPolicy) (ex_grants NetworkPolicy) false) (ps_tasks s') in
  let '(_, _, later) := scheduler_run ex_no_url s' k [ex_tick true 22; ex_tick true 23] in
  calls = [FwBlock "" 443] /\ task = [FwRemove] /\ later = [] /\ desired_now (ps_cfg s') (ex_monday 23) = true.
Proof. vm_compute. done. Qed.
(** A grant that is withdrawn and given back inside a window does not bring the block back either. *)
Lemma regranted_curfew_is_not_reapplied :
  let calls := (ex_ticks ex_curfew [ex_tick true 22; ex_tick false 22; ex_tick true 22; ex_tick true 23]).2 in
  calls = [FwBlock "" 443; FwRemove] /\ desired_now (ps_cfg ex_curfew) (ex_monday 23) = true.
Proof. vm_compute. done. Qed.

Lemma created_rules_spare_protected_witness :
  let rule := {| ru_id := 1; ru_name := "games"; ru_body := {| exe_pattern := "Steam"; match_mode := "contains" |}; ru_enabled := true; ru_created_at := 100;
                 ru_scopes := [ex_group]; ru_schedules := [ex_night] |}%string in
  matches to_ascii_lowercase (device_rule rule) "C:\Games\STEAM.exe" = true /\ matches to_ascii_lowercase (device_rule rule) "EXPLORER.EXE" = false.
Proof.
  cbv zeta. split; [vm_compute; reflexivity|].
  destruct (@app_block_rules_create bin_uuid elements to_ascii_lowercase ex_policies ex_registry (ex_body "Steam" "contains" ex_group) 100 true (fun _ _ => ex_answers))
    as [[p' r'] res] eqn:E.
  assert (res = Ok 1 /\ rows (app_rules p') = [{| ru_id := 1; ru_name := "games"; ru_body := {| exe_pattern := "Steam"; match_mode := "contains" |}; ru_enabled := true;
    ru_created_at := 100; ru_scopes := [ex_group]; ru_schedules := [ex_night] |}]%string) as [-> Er].
  { apply (f_equal (fun x => (x.2, rows (app_rules x.1.1)))) in E. vm_compute in E. by simplify_eq. }
  apply (@created_rules_spare_protected bin_uuid elements to_ascii_lowercase ex_policies ex_registry (ex_body "Steam" "contains" ex_group) 100 true (fun _ _ => ex_answers) p' r' 1).
  - exact ex_policies_ok.
  - exact E.
  - rewrite Er. left.
  - reflexivity.
  - vm_compute. left.
Defined.
(** A pattern may still match the path of a protected program, which is what Windows compares. *)
Lemma path_pattern_hits_protected :
  check_protected to_ascii_lowercase "windows" "contains" = None
  /\ matches to_ascii_lowercase {| bl_id := 1; bl_exe_pattern := "windows"; bl_match_mode := Contains; bl_schedules := [] |}
       (win_candidate {| wp_pid := 9; wp_exe := "explorer.exe"; wp_image := Some "C:\Windows\explorer.exe"%string; wp_valid := true; wp_killed := true |}) = true.
Proof. vm_compute. done. Qed.
(** And an exact rule for a program's name misses the program there. *)
Lemma exact_name_misses_image_path :
  let p := {| wp_pid := 9; wp_exe := "steam.exe"; wp_image := Some "C:\Games\steam.exe"%string; wp_valid := true; wp_killed := true |} in
  let r := {| bl_id := 1; bl_exe_pattern := "steam.exe"; bl_match_mode := Exact; bl_schedules := [] |} in
  matches to_ascii_lowercase r (wp_exe p) = true /\ kill_windows to_ascii_lowercase [r] {| gen_module := AppPolicy; gen_revision := 4 |} 77 p = None.
Proof. vm_compute. done. Qed.
