(* ===== verification/Sql.v ===== *)
(** What the components share of SQL: the row a [LIMIT 1] takes and the order of equal keys, which the
    statements leave open; [LIKE] patterns; and ordering by several columns with the keyset pages that
    continue after a position. *)
From stdpp Require Import sorting.
From S2P Require Import Prelude Text.

(** ** What SQL leaves open *)

Definition key_le {A} (key : A -> Z) (a b : A) : Prop := key a <= key b.
#[export] Instance key_le_dec {A} (key : A -> Z) : RelDecision (key_le key).
Proof. intros a b. unfold key_le. apply _. Defined.
Class SqlRows := {
  any_row : forall {A : Type}, list A -> option A;
  any_row_elem : forall {A : Type} (l : list A) x, any_row l = Some x -> x ∈ l;
  any_row_nil : forall {A : Type} (l : list A), any_row l = None -> l = [];
  sort_by : forall {A : Type}, (A -> Z) -> list A -> list A;
  sort_by_perm : forall {A : Type} (key : A -> Z) l, sort_by key l ≡ₚ l;
  sort_by_sorted : forall {A : Type} (key : A -> Z) l, StronglySorted (key_le key) (sort_by key l)
}.
(** First row, stable order: one instance, to evaluate examples. *)
Definition first_rows : SqlRows.
Proof.
  refine {| any_row A l := head l; sort_by A key l := merge_sort (key_le key) l |}.
  - intros A [|y l] x [= ->]. by left.
  - by intros A [|y l].
  - intros A key l. apply merge_sort_Permutation.
  - intros A key l. apply StronglySorted_merge_sort; [intros x y z; unfold key_le; lia|intros x y; unfold key_le; lia].
Defined.

(** A [LIKE] pattern: [%] any text, [_] one character, a backslash takes the next literally. *)
Fixpoint skip_continuation (s : string) : string :=
  match s with String c r => if continues c then skip_continuation r else s | EmptyString => EmptyString end.
Fixpoint like (p s : string) : bool :=
  match p with
  | EmptyString => String.eqb s ""
  | String c p' =>
      if Ascii.eqb c "%" then
        (fix any (s : string) : bool := like p' s || match s with String _ s => any s | EmptyString => false end) s
      else if Ascii.eqb c "_" then match s with String _ s => like p' (skip_continuation s) | EmptyString => false end
      else if Ascii.eqb c "\" then
        match p', s with String d p'', String e s => Ascii.eqb d e && like p'' s | _, _ => false end
      else match s with String e s => Ascii.eqb c e && like p' s | EmptyString => false end
  end.

(** ** Keyset pages *)

(** [ORDER BY] three columns, ascending; a descending column is negated. *)
Definition key_lt (a b : Z * Z * Z) : bool :=
  let '(a1, a2, a3) := a in
  let '(b1, b2, b3) := b in
  (a1 <? b1) || (a1 =? b1) && ((a2 <? b2) || (a2 =? b2) && (a3 <? b3)).
Definition before {A} (key : A -> Z * Z * Z) (x y : A) : Prop := key_lt (key x) (key y) = true.
Definition not_after {A} (key : A -> Z * Z * Z) (x y : A) : Prop := key_lt (key y) (key x) = false.
#[export] Instance not_after_dec {A} (key : A -> Z * Z * Z) : RelDecision (not_after key).
Proof. intros x y. unfold not_after. apply _. Defined.
Definition order_by {A} (key : A -> Z * Z * Z) (l : list A) : list A := merge_sort (not_after key) l.
(** [WHERE key > after ORDER BY key LIMIT n]. *)
Definition follows {A} (key : A -> Z * Z * Z) (after : option (Z * Z * Z)) (x : A) : bool := is_none_or after (fun p => key_lt p (key x)).
Definition keyset_rows {A} (key : A -> Z * Z * Z) (after : option (Z * Z * Z)) (n : nat) (l : list A) : list A :=
  take n (order_by key (List.filter (follows key after) l)).

(** ** Lemmas: patterns *)

Definition plain_char (c : ascii) : bool := negb (Ascii.eqb c "%" || Ascii.eqb c "_" || Ascii.eqb c "\").
Lemma like_any s : like "%" s = true.
Proof. induction s as [|c s IH]; [done|exact IH]. Qed.
(** A prefix without special characters is a plain prefix. *)
Lemma like_plain_prefix p s : all_char plain_char p = true -> like (p ++ "%") s = String.prefix p s.
Proof.
  revert s. induction p as [|c p IH]; intros s Hp; [by rewrite like_any; destruct s|].
  cbn [all_char] in Hp. apply andb_prop in Hp as [Hc Hp]. unfold plain_char in Hc. apply negb_true_iff in Hc.
  apply orb_false_elim in Hc as [Hc H3]. apply orb_false_elim in Hc as [H1 H2].
  change (String c p ++ "%")%string with (String c (p ++ "%")). cbn [like]. rewrite H1, H2, H3.
  destruct s as [|e s]; [done|]. cbn [String.prefix]. destruct (ascii_dec c e) as [->|Hne].
  - by rewrite Ascii.eqb_refl, IH.
  - by rewrite (proj2 (Ascii.eqb_neq c e) Hne).
Qed.

(** ** Lemmas: order *)

Lemma key_lt_spec a1 a2 a3 b1 b2 b3 :
  key_lt (a1, a2, a3) (b1, b2, b3) = true <-> a1 < b1 \/ a1 = b1 /\ (a2 < b2 \/ a2 = b2 /\ a3 < b3).
Proof. unfold key_lt. rewrite !orb_true_iff, !andb_true_iff, !orb_true_iff, !andb_true_iff, !Z.ltb_lt, !Z.eqb_eq. lia. Qed.
Lemma key_lt_irrefl a : key_lt a a = false.
Proof. destruct a as [[? ?] ?]. apply not_true_iff_false. rewrite key_lt_spec. lia. Qed.
Lemma key_lt_trans a b c : key_lt a b = true -> key_lt b c = true -> key_lt a c = true.
Proof. destruct a as [[? ?] ?], b as [[? ?] ?], c as [[? ?] ?]. rewrite !key_lt_spec. lia. Qed.
Lemma key_lt_total a b : key_lt a b = true \/ a = b \/ key_lt b a = true.
Proof.
  destruct a as [[a1 a2] a3], b as [[b1 b2] b3]. rewrite !key_lt_spec.
  destruct (Z.lt_trichotomy a1 b1) as [?|[->|?]], (Z.lt_trichotomy a2 b2) as [?|[->|?]], (Z.lt_trichotomy a3 b3) as [?|[->|?]];
    first [by right; left|left; lia|right; right; lia].
Qed.
Lemma key_lt_asym a b : key_lt a b = true -> key_lt b a = false.
Proof.
  intros H1. apply not_true_iff_false. intros H2. pose proof (key_lt_trans _ _ _ H1 H2) as H3. by rewrite key_lt_irrefl in H3.
Qed.
Lemma not_after_cases {A} (key : A -> Z * Z * Z) x y : not_after key x y <-> before key x y \/ key x = key y.
Proof.
  unfold not_after, before. destruct (key_lt_total (key x) (key y)) as [H|[->|H]].
  - rewrite (key_lt_asym _ _ H). tauto.
  - rewrite key_lt_irrefl. tauto.
  - rewrite H, (key_lt_asym _ _ H). split; [done|]. intros [?|He]; [done|]. rewrite He, key_lt_irrefl in H. done.
Qed.

Section keyset.
Context {A : Type} (key : A -> Z * Z * Z).
Implicit Types (l : list A).
Abbreviation sorted := (StronglySorted (before key)) (only parsing).

Lemma order_by_perm l : order_by key l ≡ₚ l.
Proof. apply merge_sort_Permutation. Qed.
Lemma order_by_sorted l : NoDup (key <$> l) -> sorted (order_by key l).
Proof.
  intros Hnd. assert (NoDup (key <$> order_by key l)) as Hnd' by (by rewrite order_by_perm).
  assert (StronglySorted (not_after key) (order_by key l)) as Hs.
  { apply StronglySorted_merge_sort.
    - intros x y z. rewrite !not_after_cases. unfold before. intros [H|H] [H'|H'].
      + left. by eapply key_lt_trans.
      + left. by rewrite <- H'.
      + left. by rewrite H.
      + right. congruence.
    - intros x y. rewrite !not_after_cases. unfold before. destruct (key_lt_total (key x) (key y)) as [H|[H|H]]; auto. }
  revert Hnd'. induction Hs as [|x l' Hs IH Hf]; intros Hnd'; constructor.
  - apply IH. by inversion Hnd'.
  - rewrite Forall_forall in Hf |- *. intros y Hy. specialize (Hf y Hy). apply not_after_cases in Hf as [?|He]; [done|].
    inversion Hnd' as [|? ? Hx]; subst. exfalso. apply Hx. rewrite He. by apply list_elem_of_fmap_2.
Qed.
Lemma sorted_unique l1 l2 : sorted l1 -> sorted l2 -> (forall x, x ∈ l1 <-> x ∈ l2) -> l1 = l2.
Proof.
  intros H1. revert l2. induction H1 as [|x l1 H1 IH Hf]; intros l2 H2 He.
  - destruct l2 as [|y l2]; [done|]. pose proof (proj2 (He y) (list_elem_of_here _ _)) as Hy. by apply not_elem_of_nil in Hy.
  - destruct H2 as [|y l2 H2 Hg]; [pose proof (proj1 (He x) (list_elem_of_here _ _)) as Hx; by apply not_elem_of_nil in Hx|].
    rewrite Forall_forall in Hf, Hg. assert (x = y) as ->.
    { destruct (proj1 (elem_of_cons _ _ _) (proj1 (He x) (list_elem_of_here _ _))) as [?|Hx]; [done|].
      destruct (proj1 (elem_of_cons _ _ _) (proj2 (He y) (list_elem_of_here _ _))) as [?|Hy]; [done|].
      pose proof (Hf _ Hy) as Ha. pose proof (Hg _ Hx) as Hb. unfold before in *. rewrite (key_lt_asym _ _ Ha) in Hb. done. }
    f_equal. apply IH; [done|]. intros z. specialize (He z). rewrite !elem_of_cons in He.
    assert (forall l, (forall w, w ∈ l -> before key y w) -> z ∈ l -> z <> y) as Hne.
    { intros l Hl Hz ->. apply Hl in Hz. unfold before in Hz. by rewrite key_lt_irrefl in Hz. }
    split; intros Hz; [destruct (proj1 He (or_intror Hz)) as [?|?]|destruct (proj2 He (or_intror Hz)) as [?|?]]; try done; by eapply Hne in Hz.
Qed.

Lemma sorted_app l1 l2 : sorted l1 -> sorted l2 -> (forall x y, x ∈ l1 -> y ∈ l2 -> before key x y) -> sorted (l1 ++ l2).
Proof. intros. by apply StronglySorted_app. Qed.
Lemma sorted_take n l : sorted l -> sorted (take n l).
Proof. rewrite <- (take_drop n l) at 1. apply StronglySorted_app_1_l. Qed.
(** What a page of [n] rows out of [n + 1] says about the rest. *)
Lemma page_cut n l : sorted l -> (0 < n)%nat ->
  match last (take n l) with
  | Some q => forall x, x ∈ l -> x ∈ take n l /\ (x = q \/ before key x q) \/ before key q x /\ x ∈ drop n l
  | None => l = []
  end.
Proof.
  intros Hs Hn. destruct (last (take n l)) as [q|] eqn:El.
  2: { apply last_None in El. destruct n; [lia|]. by destruct l. }
  apply last_Some in El as [l' El]. intros x Hx. rewrite <- (take_drop n l) in Hx. apply elem_of_app in Hx as [Hx|Hx].
  - left. split; [done|]. rewrite El in Hx. apply elem_of_app in Hx as [Hx|Hx%list_elem_of_singleton]; [right|by left].
    pose proof (sorted_take n l Hs) as Ht. rewrite El in Ht. eapply StronglySorted_app_1_elem_of; [exact Ht|done|by left].
  - right. split; [|done]. rewrite <- (take_drop n l) in Hs. eapply StronglySorted_app_1_elem_of; [exact Hs| |done]. rewrite El. apply elem_of_app. right. by left.
Qed.

(** Reading page after page, each from its own table: the rows, and whether a page said it was the last. *)
Fixpoint pages (n : nat) (tables : list (list A)) (after : option (Z * Z * Z)) : list A * bool :=
  match tables with
  | [] => ([], false)
  | t :: tables =>
      let rows := keyset_rows key after (S n) t in
      match (if (n <? length rows)%nat then last (take n rows) else None) with
      | Some q => let '(rest, done) := pages n tables (Some (key q)) in (take n rows ++ rest, done)
      | None => (take n rows, true)
      end
  end.

Lemma keyset_elem after n l x : NoDup (key <$> l) -> x ∈ keyset_rows key after n l -> x ∈ l /\ follows key after x = true.
Proof.
  intros _ Hx. unfold keyset_rows in Hx. apply elem_of_take in Hx as (i & Hx & _). apply list_elem_of_lookup_2 in Hx.
  rewrite order_by_perm in Hx. by apply list_elem_of_In, filter_In in Hx as [?%list_elem_of_In ?].
Qed.
Lemma filter_keys_NoDup f l : NoDup (key <$> l) -> NoDup (key <$> List.filter f l).
Proof. intros Hnd. eapply sublist_NoDup; [exact Hnd|]. apply fmap_sublist, filter_sublist. Qed.
(** One page: its rows are the next [n], and it either shows where the rest begins or shows all. *)
Lemma page_rows after n l (rows := keyset_rows key after (S n) l) :
  (0 < n)%nat -> NoDup (key <$> l) ->
  sorted (take n rows)
  /\ match (if (n <? length rows)%nat then last (take n rows) else None) with
     | Some q => follows key after q = true /\ q ∈ l /\ length (take n rows) = n
                 /\ forall x, x ∈ l -> follows key after x = true -> x ∈ take n rows /\ (x = q \/ before key x q) \/ before key q x
     | None => forall x, x ∈ l -> follows key after x = true -> x ∈ take n rows
     end.
Proof.
  intros Hn Hnd. set (all := order_by key (List.filter (follows key after) l)).
  assert (sorted all) as Hs by (apply order_by_sorted, filter_keys_NoDup, Hnd).
  assert (forall x, x ∈ l -> follows key after x = true -> x ∈ all) as Hall.
  { intros x Hx Hf. unfold all. rewrite order_by_perm. apply list_elem_of_In, filter_In. split; [by apply list_elem_of_In|done]. }
  assert (take n rows = take n all) as Ht by (unfold rows, keyset_rows; fold all; rewrite take_take; f_equal; lia).
  rewrite Ht. split; [by apply sorted_take|]. destruct (Nat.ltb_spec n (length rows)) as [Hlt|Hge].
  - assert (n < length all)%nat as Hla. { unfold rows, keyset_rows in Hlt. fold all in Hlt. rewrite length_take in Hlt. lia. }
    pose proof (page_cut n all Hs Hn) as Hc. destruct (last (take n all)) as [q|] eqn:El.
    + assert (q ∈ all) as Hq.
      { rewrite <- (take_drop n all), elem_of_app. left. by apply last_Some_elem_of. }
      unfold all in Hq. rewrite order_by_perm in Hq. apply list_elem_of_In, filter_In in Hq as [Hq%list_elem_of_In Hf].
      split_and!; [done|done|rewrite length_take; lia|]. intros x Hx Hfx. destruct (Hc x (Hall x Hx Hfx)) as [?|[? _]]; auto.
    + rewrite Hc in Hla. simpl in Hla. lia.
  - intros x Hx Hf. assert (length all <= n)%nat as Hla.
    { unfold rows, keyset_rows in Hge. fold all in Hge. rewrite length_take in Hge. lia. }
    rewrite take_ge by done. by apply Hall.
Qed.

(** Whatever the tables were, pages are in strict order and show only rows that were there; once a page
    is the last, every row that was in all of them has been shown. *)
Lemma pages_spec n tables : (0 < n)%nat -> Forall (fun t => NoDup (key <$> t)) tables -> forall after items done,
  pages n tables after = (items, done) ->
  sorted items
  /\ (forall x, x ∈ items -> follows key after x = true /\ exists t, t ∈ tables /\ x ∈ t)
  /\ (done = true -> forall x, (forall t, t ∈ tables -> x ∈ t) -> follows key after x = true -> x ∈ items).
Proof.
  intros Hn Hnd. induction Hnd as [|t tables Ht Hnd IH]; intros after items done; cbn [pages].
  { intros [= <- <-]. split_and!; [constructor| |done]. by intros x Hx%not_elem_of_nil. }
  pose proof (page_rows after n t Hn Ht) as [Hs Hp]. cbv zeta in *. set (rows := keyset_rows key after (S n) t) in *.
  assert (forall x, x ∈ take n rows -> x ∈ t /\ follows key after x = true) as Hin.
  { intros x Hx. apply (keyset_elem after (S n) t x Ht). fold rows. rewrite <- (take_drop n rows). apply elem_of_app. by left. }
  destruct (if (n <? length rows)%nat then last (take n rows) else None) as [q|] eqn:Eq.
  - destruct (pages n tables (Some (key q))) as [rest d] eqn:Er. intros [= <- <-].
    destruct Hp as (Hfq & Hqt & Hlen & Hcut). destruct (IH _ _ _ Er) as (Hrs & Hrin & Hrall).
    assert (last (take n rows) = Some q) as Hl by (by destruct (n <? length rows)%nat).
    apply last_Some in Hl as [l' El].
    assert (forall x, follows key (Some (key q)) x = true -> follows key after x = true) as Hmono.
    { intros x. destruct after as [p|]; [|done]. cbn. intros Hx. by eapply key_lt_trans. }
    split_and!.
    + apply sorted_app; [done|done|]. intros x y Hx Hy. destruct (Hrin y Hy) as [Hy' _]. cbn in Hy'. unfold before.
      rewrite El in Hx. apply elem_of_app in Hx as [Hx|Hx%list_elem_of_singleton]; [|by subst].
      eapply key_lt_trans; [|exact Hy']. rewrite El in Hs. eapply (StronglySorted_app_1_elem_of _ _ _ _ _ Hs); [done|by left].
    + intros x [Hx|Hx]%elem_of_app.
      * destruct (Hin x Hx). split; [done|]. exists t. split; [by left|done].
      * destruct (Hrin x Hx) as [Hf (t' & Ht' & Hx')]. split; [by apply Hmono|]. exists t'. split; [by right|done].
    + intros -> x Hx Hf. apply elem_of_app. destruct (Hcut x (Hx t (list_elem_of_here _ _)) Hf) as [[? _]|Hb]; [by left|].
      right. apply Hrall; [done| |done]. intros t' Ht'. apply Hx. by right.
  - intros [= <- <-]. split_and!; [done| |].
    + intros x Hx. destruct (Hin x Hx). split; [done|]. exists t. split; [by left|done].
    + intros _ x Hx Hf. apply Hp; [|done]. apply Hx. by left.
Qed.
(** An unchanging table is read to its end, in at most one page more than it has rows. *)
Lemma pages_done n t k after : (0 < n)%nat -> NoDup (key <$> t) -> (length (List.filter (follows key after) t) < k)%nat ->
  (pages n (repeat t k) after).2 = true.
Proof.
  intros Hn Ht. revert after. induction k as [|k IH]; intros after Hk; [lia|]. cbn [repeat pages].
  pose proof (page_rows after n t Hn Ht) as [_ Hp]. cbv zeta in *. set (rows := keyset_rows key after (S n) t) in *.
  destruct (if (n <? length rows)%nat then last (take n rows) else None) as [q|] eqn:Eq; [|done]. destruct Hp as (Hfq & Hqt & _).
  destruct (pages n (repeat t k) (Some (key q))) as [rest d] eqn:Er. cbn.
  replace d with (pages n (repeat t k) (Some (key q))).2 by (by rewrite Er). apply IH.
  assert (forall l, q ∈ l -> (length (List.filter (follows key (Some (key q))) l) < length (List.filter (follows key after) l))%nat) as Hlt.
  { assert (forall l, (length (List.filter (follows key (Some (key q))) l) <= length (List.filter (follows key after) l))%nat) as Hle.
    { intros l. induction l as [|x l IHl]; [done|]. cbn [List.filter]. destruct (follows key (Some (key q)) x) eqn:E.
      - assert (follows key after x = true) as ->; [|simpl; lia]. destruct after as [p|]; [|done]. cbn in *. by eapply key_lt_trans.
      - destruct (follows key after x); simpl; lia. }
    intros l. induction l as [|x l IHl]; [by intros ?%not_elem_of_nil|]. intros [<-|Hx]%elem_of_cons; cbn [List.filter].
    - rewrite Hfq. assert (follows key (Some (key q)) q = false) as -> by (cbn; apply key_lt_irrefl). specialize (Hle l). simpl. lia.
    - specialize (IHl Hx). destruct (follows key (Some (key q)) x) eqn:E.
      + assert (follows key after x = true) as ->; [|simpl; lia]. destruct after as [p|]; [|done]. cbn in *. by eapply key_lt_trans.
      + destruct (follows key after x); simpl; lia. }
  specialize (Hlt t Hqt). lia.
Qed.
Lemma pages_constant n t k : (0 < n)%nat -> NoDup (key <$> t) -> (length t < k)%nat -> pages n (repeat t k) None = (order_by key t, true).
Proof.
  intros Hn Ht Hk. destruct (pages n (repeat t k) None) as [items d] eqn:E.
  assert (d = true) as ->.
  { replace d with (pages n (repeat t k) None).2 by (by rewrite E). apply pages_done; [done|done|].
    eapply Nat.le_lt_trans; [|exact Hk]. apply sublist_length, filter_sublist. }
  assert (Forall (fun t => NoDup (key <$> t)) (repeat t k)) as Hall.
  { apply Forall_forall. intros t' Hin. apply list_elem_of_In, repeat_spec in Hin; by subst. }
  destruct (pages_spec n _ Hn Hall _ _ _ E) as (Hs & Hin & Hcov). f_equal. apply sorted_unique; [done|by apply order_by_sorted|].
  intros x. rewrite order_by_perm. split; intros Hx.
  - destruct (Hin x Hx) as [_ (t' & Ht' & Hx')]. apply list_elem_of_In, repeat_spec in Ht'; by subst.
  - apply Hcov; [done| |done]. intros t' Ht'. apply list_elem_of_In, repeat_spec in Ht'; by subst.
Qed.
End keyset.
