(* ===== verification/WebActivity.v ===== *)
(** Web activity on the server: the URL visits and sessions devices report, their aggregates
    ([server/src/web_activity/ingest.rs], [db.rs]), and how a URL gets its category: the lookups in the
    overrides and the lists ([url_categorization/engine.rs], [db/lookup.rs]) and the queue with its
    worker ([db/queue.rs]). The admin's side is in [UrlCategories]. URL parsing, IDNA and case folding
    are parameters; so is what SQL leaves open, the row of a [LIMIT 1] and the order of equal keys. *)
From stdpp Require Import sorting.
From S2P Require Import Ingest Alerts Keyframes.
From S2P Require Import Prelude Text Json Protocol Sql.

(** ** Tables *)

Record Category := { cat_key : string; cat_enabled : bool }.
Record Override := { ov_id : Z; ov_category : Z; ov_value : string; ov_note : string; ov_created : Z }.
Record Release := { re_id : Z; re_sha256 : string; re_active : bool }.
Record CustomCategory := { cu_key : string; cu_label_en : string; cu_description_en : string; cu_display_order : Z; cu_hidden : bool }.
Record Settings := { st_enabled : bool; st_auto_update : bool; st_source_url : string; st_last_update_at : option Z; st_last_update_error : option string }.
Record Job := { jb_state : string; jb_started_at : option Z; jb_updated_at : Z; jb_bytes_total : option Z; jb_bytes_done : Z; jb_message : option string }.
(** What decides a category, and the admin's settings. Ids of categories, releases, overrides and
    custom categories only grow; members by their unique UT1 key. *)
Record Lists := {
  url_categories : gmap Z Category; next_category : Z; url_category_labels : gmap string (string * string);
  url_category_domain_entries : gset (Z * string); url_category_url_entries : gset (Z * string);
  url_categorization_release : list Release; next_release : Z;
  url_category_overrides_domain : list Override; url_category_overrides_url : list Override; next_override : Z;
  url_custom_categories : gmap Z CustomCategory; next_custom : Z; url_custom_category_members : gmap string Z;
  url_categorization_settings : Settings; url_categorization_job : Job
}.

Record VisitRow := { v_id : Z; v_agent : Uuid; v_url : string; v_title : option string; v_browser : option string; v_ts : Z; v_user : option string }.
Record SessionRow := {
  s_id : Z; s_agent : Uuid; s_url : string; s_hostname : string; s_title : option string; s_browser : option string; s_start : Z; s_end : Z;
  s_duration_ms : Z; s_category : option Z; s_user : option string
}.
Record QueuedVisit := { q_visit : Z; q_agent : Uuid; q_ts : Z; q_url : string; q_hostname : string }.
Record Stat := { visit_count : Z; last_ts : Z }.
Record TimeStat := { time_ms : Z; times : Stat }.
(** Rows by id, which only grows; aggregates by their primary keys. *)
Record Web := {
  url_visits : list VisitRow; next_visit : Z; url_top_stats : gmap (Uuid * string) Stat;
  url_categorization_queue : list QueuedVisit; url_visit_category : gmap Z (option Z); url_category_stats : gmap (Uuid * Z) Stat;
  url_sessions : list SessionRow; next_session : Z; url_site_stats : gmap (Uuid * string) TimeStat; url_category_time_stats : gmap (Uuid * Z) TimeStat;
  lists : Lists
}.
Definition add_visit (w : Web) (v : VisitRow) : Web :=
  {| url_visits := url_visits w ++ [v]; next_visit := v_id v + 1; url_top_stats := url_top_stats w; url_categorization_queue := url_categorization_queue w;
     url_visit_category := url_visit_category w; url_category_stats := url_category_stats w; url_sessions := url_sessions w; next_session := next_session w;
     url_site_stats := url_site_stats w; url_category_time_stats := url_category_time_stats w; lists := lists w |}.
Definition with_top (w : Web) (x : gmap (Uuid * string) Stat) : Web :=
  {| url_visits := url_visits w; next_visit := next_visit w; url_top_stats := x; url_categorization_queue := url_categorization_queue w;
     url_visit_category := url_visit_category w; url_category_stats := url_category_stats w; url_sessions := url_sessions w; next_session := next_session w;
     url_site_stats := url_site_stats w; url_category_time_stats := url_category_time_stats w; lists := lists w |}.
Definition with_queue (w : Web) (x : list QueuedVisit) : Web :=
  {| url_visits := url_visits w; next_visit := next_visit w; url_top_stats := url_top_stats w; url_categorization_queue := x;
     url_visit_category := url_visit_category w; url_category_stats := url_category_stats w; url_sessions := url_sessions w; next_session := next_session w;
     url_site_stats := url_site_stats w; url_category_time_stats := url_category_time_stats w; lists := lists w |}.
Definition with_visit_category (w : Web) (x : gmap Z (option Z)) : Web :=
  {| url_visits := url_visits w; next_visit := next_visit w; url_top_stats := url_top_stats w; url_categorization_queue := url_categorization_queue w;
     url_visit_category := x; url_category_stats := url_category_stats w; url_sessions := url_sessions w; next_session := next_session w;
     url_site_stats := url_site_stats w; url_category_time_stats := url_category_time_stats w; lists := lists w |}.
Definition with_category_stats (w : Web) (x : gmap (Uuid * Z) Stat) : Web :=
  {| url_visits := url_visits w; next_visit := next_visit w; url_top_stats := url_top_stats w; url_categorization_queue := url_categorization_queue w;
     url_visit_category := url_visit_category w; url_category_stats := x; url_sessions := url_sessions w; next_session := next_session w;
     url_site_stats := url_site_stats w; url_category_time_stats := url_category_time_stats w; lists := lists w |}.
Definition with_sessions (w : Web) (x : list SessionRow) (next : Z) : Web :=
  {| url_visits := url_visits w; next_visit := next_visit w; url_top_stats := url_top_stats w; url_categorization_queue := url_categorization_queue w;
     url_visit_category := url_visit_category w; url_category_stats := url_category_stats w; url_sessions := x; next_session := next;
     url_site_stats := url_site_stats w; url_category_time_stats := url_category_time_stats w; lists := lists w |}.
Definition with_site_stats (w : Web) (x : gmap (Uuid * string) TimeStat) : Web :=
  {| url_visits := url_visits w; next_visit := next_visit w; url_top_stats := url_top_stats w; url_categorization_queue := url_categorization_queue w;
     url_visit_category := url_visit_category w; url_category_stats := url_category_stats w; url_sessions := url_sessions w; next_session := next_session w;
     url_site_stats := x; url_category_time_stats := url_category_time_stats w; lists := lists w |}.
Definition with_category_time (w : Web) (x : gmap (Uuid * Z) TimeStat) : Web :=
  {| url_visits := url_visits w; next_visit := next_visit w; url_top_stats := url_top_stats w; url_categorization_queue := url_categorization_queue w;
     url_visit_category := url_visit_category w; url_category_stats := url_category_stats w; url_sessions := url_sessions w; next_session := next_session w;
     url_site_stats := url_site_stats w; url_category_time_stats := x; lists := lists w |}.
Definition with_lists (w : Web) (x : Lists) : Web :=
  {| url_visits := url_visits w; next_visit := next_visit w; url_top_stats := url_top_stats w; url_categorization_queue := url_categorization_queue w;
     url_visit_category := url_visit_category w; url_category_stats := url_category_stats w; url_sessions := url_sessions w; next_session := next_session w;
     url_site_stats := url_site_stats w; url_category_time_stats := url_category_time_stats w; lists := x |}.

(** A row counted in an aggregate: [None] is BIGINT out of range. *)
Definition add_i64 (a b : Z) : option Z := if in_range i64_min i64_max (a + b) then Some (a + b) else None.
Definition bump (ts : Z) (o : option Stat) : option Stat :=
  match o with
  | None => Some {| visit_count := 1; last_ts := ts |}
  | Some s => n ← add_i64 (visit_count s) 1; Some {| visit_count := n; last_ts := Z.max (last_ts s) ts |}
  end.
Definition bump_time (ms ts : Z) (o : option TimeStat) : option TimeStat :=
  t ← match o with None => Some ms | Some s => add_i64 (time_ms s) ms end;
  n ← bump ts (times <$> o);
  Some {| time_ms := t; times := n |}.
(** "INSERT .. ON CONFLICT (key) DO UPDATE": [None] when the statement fails. *)
Definition upsert {K V} `{Countable K} (ok : bool) (k : K) (f : option V -> option V) (m : gmap K V) : option (gmap K V) :=
  if ok then v ← f (m !! k); Some (<[k := v]> m) else None.

(** ** Reading frames: [ingest.rs] *)

Record UrlVisit := { uv_url : string; uv_title : option string; uv_browser : option string; uv_ts : option Z; uv_user : option string }.
Definition parse_visit (v : json) : UrlVisit :=
  let fs := lenient_fields ["url"; "title"; "browser"; "ts"; "user"]%string v in
  {| uv_url := lenient_string (field_at fs 0); uv_title := lenient_opt as_str (field_at fs 1); uv_browser := lenient_opt as_str (field_at fs 2);
     uv_ts := lenient_opt as_i64 (field_at fs 3); uv_user := trimmed_non_empty (lenient_opt as_str (field_at fs 4)) |}.
Record UrlSessionEvent := {
  us_url : string; us_title : option string; us_browser : option string; us_started_at_ts : option Z; us_ended_at_ts : option Z; us_duration_ms : Z;
  us_user : option string
}.
Definition parse_session (v : json) : UrlSessionEvent :=
  let fs := lenient_fields ["url"; "title"; "browser"; "started_at_ts"; "ended_at_ts"; "duration_ms"; "user"]%string v in
  {| us_url := lenient_string (field_at fs 0); us_title := lenient_opt as_str (field_at fs 1); us_browser := lenient_opt as_str (field_at fs 2);
     us_started_at_ts := lenient_opt as_i64 (field_at fs 3); us_ended_at_ts := lenient_opt as_i64 (field_at fs 4);
     us_duration_ms := Z.max (lenient_i64_or_zero (field_at fs 5)) 0; us_user := trimmed_non_empty (lenient_opt as_str (field_at fs 6)) |}.

(** A parsed URL: its host and its text. *)
Record ParsedUrl := { pu_host : option string; pu_text : string }.

Section web.
Context `{SqlRows, UuidText}.
Variable url_parse : string -> option ParsedUrl.
Variable domain_to_ascii : string -> option string.
Variable to_lowercase : string -> string.
(** [Utc.timestamp_opt(s, 0).single()]. *)
Variable timestamp : Z -> option Z.

(** ** URLs: [engine.rs] *)

Definition normalize_hostname (host : string) : string :=
  let raw := to_lowercase (trim_dots (trim host)) in
  if String.eqb raw "" then ""%string else default raw (domain_to_ascii raw).
Definition special_schemes : list string := ["chrome:"; "edge:"; "brave:"; "about:"; "file:"; "moz-extension:"; "devtools:"]%string.
Definition unbracketed (host : string) : option string := strip_first "[" host ≫= strip_last "]".
Definition looks_like_complete_navigation_url (raw : string) : bool :=
  let s := trim raw in
  if String.eqb s "" then false
  else if existsb (fun p => String.prefix p (to_ascii_lowercase s)) special_schemes then true
  else
    match url_parse (if str_contains s "://" then s else "https://" ++ s)%string with
    | None => false
    | Some u =>
        match pu_host u with
        | None => false
        | Some host =>
            if String.eqb (to_ascii_lowercase host) "localhost" then true
            else if isSome (parse_ip host) then true
            else if isSome (unbracketed host ≫= parse_ip) then true
            else str_contains host "."
        end
    end.
Definition is_http (s : string) : bool := String.prefix "http://" (to_lowercase s) || String.prefix "https://" (to_lowercase s).
Definition with_scheme (s : string) : string := if is_http s then s else ("https://" ++ s)%string.
Definition extract_hostname_from_url (url : string) : string :=
  let raw := trim url in
  if String.eqb raw "" then ""%string
  else
    match url_parse (with_scheme raw) with
    | Some u => default ""%string (normalize_hostname <$> pu_host u)
    | None => normalize_hostname (default ""%string (head (split_by (char_in "/:?#") raw)))
    end.
Definition suffix_candidates (hostname : string) : list string :=
  let parts := List.filter (fun s => negb (String.eqb s "")) (split_on "." hostname) in
  (fun i => String.concat "." (drop i parts)) <$> seq 0 (length parts).
Definition normalize_url_for_prefix_match (url_str : string) : string :=
  match url_parse url_str with Some u => pu_text u | None => with_scheme url_str end.

(** ** Lookups: [db/lookup.rs]. [ok]: whether the query succeeded. *)

Definition enabled_key (l : Lists) (c : Z) : option string :=
  cat ← url_categories l !! c; if cat_enabled cat then Some (cat_key cat) else None.
Definition hit_of (l : Lists) (f : string -> bool) (row : Z * string) : option (Z * string) :=
  if f row.2 then k ← enabled_key l row.1; Some (row.1, k) else None.
Definition lookup_rows (ok : bool) (l : Lists) (f : string -> bool) (rows : list (Z * string)) : option (option (Z * string)) :=
  if ok then Some (any_row (omap (hit_of l f) rows)) else None.
Definition override_rows (l : list Override) : list (Z * string) := (fun o => (ov_category o, ov_value o)) <$> l.
Definition in_suffixes (suffixes : list string) (d : string) : bool := existsb (String.eqb d) suffixes.
Definition prefix_of_url (url_norm prefix : string) : bool := like (prefix ++ "%") url_norm.
Definition override_domain_match (ok : bool) (l : Lists) (suffixes : list string) : option (option (Z * string)) :=
  lookup_rows ok l (in_suffixes suffixes) (override_rows (url_category_overrides_domain l)).
Definition override_url_match (ok : bool) (l : Lists) (url_norm : string) : option (option (Z * string)) :=
  lookup_rows ok l (prefix_of_url url_norm) (override_rows (url_category_overrides_url l)).
Definition domain_entry_match (ok : bool) (l : Lists) (suffixes : list string) : option (option (Z * string)) :=
  lookup_rows ok l (in_suffixes suffixes) (elements (url_category_domain_entries l)).
Definition url_entry_match (ok : bool) (l : Lists) (url_norm : string) : option (option (Z * string)) :=
  lookup_rows ok l (prefix_of_url url_norm) (elements (url_category_url_entries l)).

(** [ok i]: the outcome of the [i]-th lookup, in the order of the tiers; [None] is an error. *)
Definition categorize_override (l : Lists) (hostname url_str : string) (ok : nat -> bool) : option (option (Z * string)) :=
  let host := normalize_hostname hostname in
  r ← if String.eqb host "" then Some None else override_domain_match (ok 0%nat) l (suffix_candidates host);
  match r with
  | Some hit => Some (Some hit)
  | None => override_url_match (ok 1%nat) l (normalize_url_for_prefix_match url_str)
  end.
Definition categorize_url_now (l : Lists) (hostname url_str : string) (ok : nat -> bool) : option (option (Z * string)) :=
  r ← categorize_override l hostname url_str ok;
  match r with
  | Some v => Some (Some v)
  | None =>
      let host := normalize_hostname hostname in
      if String.eqb host "" then Some None
      else
        r ← domain_entry_match (ok 2%nat) l (suffix_candidates host);
        match r with
        | Some hit => Some (Some hit)
        | None => url_entry_match (ok 3%nat) l (normalize_url_for_prefix_match url_str)
        end
  end.

(** ** Storing visits and sessions: [db.rs] *)

Definition unix_to_dt (ts : option Z) (now : Z) : Z := default now (ts ≫= timestamp).
(** "ORDER BY ts DESC LIMIT 1". *)
Definition last_url (w : Web) (agent : Uuid) : option string :=
  let mine := List.filter (fun v => bool_decide (v_agent v = agent)) (url_visits w) in
  v_url <$> any_row (List.filter (fun v => forallb (fun x => v_ts x <=? v_ts v) mine) mine).
Definition enqueue (w : Web) (q : QueuedVisit) : Web :=
  if existsb (fun x => q_visit x =? q_visit q) (url_categorization_queue w) then w else with_queue w (url_categorization_queue w ++ [q]).
(** The new state and whether it is [Ok]; [ok i]: the outcome of the [i]-th statement. *)
Definition insert_url (w : Web) (agent : Uuid) (ev : UrlVisit) (now : Z) (ok : nat -> bool) : Web * bool :=
  let ts := unix_to_dt (uv_ts ev) now in
  if negb (ok 0%nat) then (w, false)
  else if bool_decide (last_url w agent = Some (uv_url ev)) then (w, true)
  else if negb (ok 1%nat) then (w, false)
  else
    let id := next_visit w in
    let w := add_visit w {| v_id := id; v_agent := agent; v_url := uv_url ev; v_title := uv_title ev; v_browser := uv_browser ev; v_ts := ts; v_user := uv_user ev |} in
    match upsert (ok 2%nat) (agent, uv_url ev) (bump ts) (url_top_stats w) with
    | None => (w, false)
    | Some top =>
        let w := with_top w top in
        (if ok 3%nat && st_enabled (url_categorization_settings (lists w))
         then enqueue w {| q_visit := id; q_agent := agent; q_ts := ts; q_url := uv_url ev; q_hostname := "" |} else w, true)
    end.
Definition record_url_visit (w : Web) (agent : Uuid) (v : json) (now : Z) (ok : nat -> bool) : Web * bool :=
  let ev := parse_visit v in
  if looks_like_complete_navigation_url (uv_url ev) then insert_url w agent ev now ok else (w, true).

Definition insert_url_session (w : Web) (agent : Uuid) (ev : UrlSessionEvent) (hostname : string) (category : option Z) (now1 now2 : Z) (ok : nat -> bool)
    : Web * bool :=
  let start_ts := unix_to_dt (us_started_at_ts ev) now1 in
  let end_ts := unix_to_dt (us_ended_at_ts ev) now2 in
  if negb (ok 0%nat) then (w, false)
  else
    let row := {| s_id := next_session w; s_agent := agent; s_url := us_url ev; s_hostname := hostname; s_title := us_title ev; s_browser := us_browser ev;
                  s_start := start_ts; s_end := end_ts; s_duration_ms := us_duration_ms ev; s_category := category; s_user := us_user ev |} in
    let w := with_sessions w (url_sessions w ++ [row]) (next_session w + 1) in
    match (if String.eqb hostname "" then Some (url_site_stats w)
           else upsert (ok 1%nat) (agent, hostname) (bump_time (us_duration_ms ev) end_ts) (url_site_stats w)) with
    | None => (w, false)
    | Some site =>
        let w := with_site_stats w site in
        match category with
        | None => (w, true)
        | Some cid =>
            match upsert (ok 2%nat) (agent, cid) (bump_time (us_duration_ms ev) end_ts) (url_category_time_stats w) with
            | None => (w, false)
            | Some time => (with_category_time w time, true)
            end
        end
    end.
Definition record_url_session (w : Web) (agent : Uuid) (v : json) (now1 now2 : Z) (looked ok : nat -> bool) : Web * bool :=
  let ev := parse_session v in
  if looks_like_complete_navigation_url (us_url ev) then
    let hostname := extract_hostname_from_url (us_url ev) in
    match categorize_url_now (lists w) hostname (us_url ev) looked with
    | None => (w, false)
    | Some cat => insert_url_session w agent ev hostname (fst <$> cat) now1 now2 ok
    end
  else (w, true).

(** ** The queue and its worker: [db/queue.rs], [worker_tick] *)

Definition WORKER_BATCH : nat := 250.
Definition queue_batch (w : Web) (limit : nat) : list QueuedVisit := take limit (sort_by q_ts (url_categorization_queue w)).
Definition set_visit_category (w : Web) (visit : Z) (category : option Z) : Web :=
  with_visit_category w (<[visit := category]> (url_visit_category w)).
Definition dequeue (w : Web) (visit : Z) : Web :=
  with_queue w (List.filter (fun q => negb (q_visit q =? visit)) (url_categorization_queue w)).

Variable regex_is_match : bool -> string -> string -> option bool.
(** What the worker reads for one row: the lookups' outcomes, the three writes' ([set_visit_category],
    [bump_category_stats], [dequeue]), the device's name if it has one, and the alert engine's. *)
Record RowEnv := { re_looked : nat -> bool; re_wrote : nat -> bool; re_name : option string; re_loaded : bool; re_fire : nat -> FireEnv }.
Definition category_payload (url hostname : string) (cid : Z) (key : string) : json :=
  mk_obj [("url", JStr url); ("hostname", JStr hostname); ("category_id", JInt cid); ("category_key", JStr key)]%string.
Definition row_hostname (r : QueuedVisit) : string :=
  if String.eqb (q_hostname r) "" then extract_hostname_from_url (q_url r) else q_hostname r.
(** The server's tables and alerts, and the events screenshots are to be taken for. *)
Definition worker_row (w : Web) (a : Alerts) (r : QueuedVisit) (e : RowEnv) : Web * Alerts * list Z * bool :=
  let hostname := row_hostname r in
  match categorize_url_now (lists w) hostname (q_url r) (re_looked e) with
  | None => (w, a, [], false)
  | Some cat =>
      if negb (re_wrote e 0%nat) then (w, a, [], false)
      else
        let w := set_visit_category w (q_visit r) (fst <$> cat) in
        let finish w a shots := if re_wrote e 2%nat then (dequeue w (q_visit r), a, shots, true) else (w, a, shots, false) in
        match cat with
        | None => finish w a []
        | Some (cid, key) =>
            match upsert (re_wrote e 1%nat) (q_agent r, cid) (bump (q_ts r)) (url_category_stats w) with
            | None => (w, a, [], false)
            | Some stats =>
                let w := with_category_stats w stats in
                let '(a, shots) := on_url_category_event regex_is_match to_lowercase a (q_agent r) (default "unknown"%string (re_name e))
                                     (category_payload (q_url r) hostname cid key) (re_loaded e) (re_fire e) in
                finish w a shots
            end
        end
  end.
(** The first error ends the tick. *)
Fixpoint worker_rows (w : Web) (a : Alerts) (rows : list QueuedVisit) (env : nat -> RowEnv) (i : nat) : Web * Alerts * list Z * bool :=
  match rows with
  | [] => (w, a, [], true)
  | r :: rows =>
      let '(w, a, shots, ok) := worker_row w a r (env i) in
      if ok then let '(w, a, more, ok) := worker_rows w a rows env (S i) in (w, a, shots ++ more, ok) else (w, a, shots, false)
  end.
(** [read]: whether the batch could be read. *)
Definition worker_tick (w : Web) (a : Alerts) (read : bool) (env : nat -> RowEnv) : Web * Alerts * list Z * bool :=
  if read then worker_rows w a (queue_batch w WORKER_BATCH) env 0 else (w, a, [], false).
(** A turn of the worker's loop: [settings], whether the settings could be read. *)
Record TurnEnv := { tn_settings : bool; tn_read : bool; tn_rows : nat -> RowEnv }.
Definition worker_turn (w : Web) (a : Alerts) (e : TurnEnv) : Web * Alerts * list Z :=
  if tn_settings e && st_enabled (url_categorization_settings (lists w))
  then (worker_tick w a (tn_read e) (tn_rows e)).1
  else (w, a, []).
Fixpoint worker_run (w : Web) (a : Alerts) (es : list TurnEnv) : Web * Alerts * list Z :=
  match es with
  | [] => (w, a, [])
  | e :: es => let '(w, a, shots) := worker_turn w a e in let '(w, a, more) := worker_run w a es in (w, a, shots ++ more)
  end.

(** ** Backfill and recalculation: [db/queue.rs], [engine.rs] *)

Definition uncategorized (w : Web) (v : VisitRow) : bool := negb (isSome (url_visit_category w !! v_id v)).
Fixpoint enqueue_all (w : Web) (vs : list VisitRow) : Web * Z :=
  match vs with
  | [] => (w, 0)
  | v :: vs =>
      let w' := enqueue w {| q_visit := v_id v; q_agent := v_agent v; q_ts := v_ts v; q_url := v_url v; q_hostname := "" |} in
      let n := if existsb (fun x => q_visit x =? v_id v) (url_categorization_queue w) then 0 else 1 in
      let '(w'', k) := enqueue_all w' vs in (w'', n + k)
  end.
(** Of one device, or of all; [None] is an error. [ok i]: the outcome of the [i]-th statement. *)
Definition enqueue_url_categorization_backfill (w : Web) (agent : option Uuid) (limit : Z) (ok : nat -> bool) : Web * option Z :=
  if negb (ok 0%nat) then (w, None)
  else if negb (st_enabled (url_categorization_settings (lists w))) then (w, Some 0)
  else if negb (ok 1%nat) then (w, None)
  else
    let mine := match agent with Some a => List.filter (fun v => bool_decide (v_agent v = a)) (url_visits w) | None => url_visits w end in
    let '(w, n) := enqueue_all w (take (Z.to_nat (Z.max limit 0)) (sort_by v_ts (List.filter (uncategorized w) mine))) in
    (w, Some n).
Definition recent_sessions (w : Web) (limit : Z) : list SessionRow :=
  take (Z.to_nat (Z.max limit 0)) (sort_by (fun s => - s_end s) (url_sessions w)).
Definition recategorized (category : option Z) (s : SessionRow) : SessionRow :=
  {| s_id := s_id s; s_agent := s_agent s; s_url := s_url s; s_hostname := s_hostname s; s_title := s_title s; s_browser := s_browser s; s_start := s_start s;
     s_end := s_end s; s_duration_ms := s_duration_ms s; s_category := category; s_user := s_user s |}.
Definition set_session_category (w : Web) (id : Z) (category : option Z) : Web * Z :=
  (with_sessions w ((fun s => if s_id s =? id then recategorized category s else s) <$> url_sessions w) (next_session w),
   Z.of_nat (length (List.filter (fun s => s_id s =? id) (url_sessions w)))).
(** [looked], [wrote]: the outcomes for the [i]-th session; [None] is an error. *)
Fixpoint recategorize_each (w : Web) (rows : list SessionRow) (looked : nat -> nat -> bool) (wrote : nat -> bool) (i : nat) : Web * option Z :=
  match rows with
  | [] => (w, Some 0)
  | s :: rows =>
      match categorize_url_now (lists w) (s_hostname s) (s_url s) (looked i) with
      | None => (w, None)
      | Some cat =>
          if negb (wrote i) then (w, None)
          else
            let '(w, n) := set_session_category w (s_id s) (fst <$> cat) in
            let '(w, k) := recategorize_each w rows looked wrote (S i) in
            (w, (fun k => (if 0 <? n then 1 else 0) + k) <$> k)
      end
  end.
Definition recategorize_recent_sessions (w : Web) (limit : Z) (read : bool) (looked : nat -> nat -> bool) (wrote : nat -> bool) : Web * option Z :=
  if read then recategorize_each w (recent_sessions w limit) looked wrote 0 else (w, None).
(** The admin endpoints clamp the limit. [None]: not an administrator. *)
Definition recalc_url_visits (w : Web) (admin : bool) (limit : Z) (ok : nat -> bool) : Web * option (option Z) :=
  if admin then let '(w, n) := enqueue_url_categorization_backfill w None (clampZ 1 500000 limit) ok in (w, Some n) else (w, None).
Definition recalc_url_sessions (w : Web) (admin : bool) (limit : Z) (read : bool) (looked : nat -> nat -> bool) (wrote : nat -> bool) : Web * option (option Z) :=
  if admin then let '(w, n) := recategorize_recent_sessions w (clampZ 1 500000 limit) read looked wrote in (w, Some n) else (w, None).
End web.

(** ** Patterns and suffixes *)

(** [h] is the domain [d] or one under it. *)
Definition in_domain (h d : string) : Prop := d <> ""%string /\ (h = d \/ exists p, h = (p ++ "." ++ d)%string).
(** A host whose labels are not empty, which the empty host is not. *)
Definition labelled (h : string) : Prop := Forall (fun l => l <> ""%string) (split_on "." h).
Lemma labelled_parts h : labelled h -> List.filter (fun s => negb (String.eqb s "")) (split_on "." h) = split_on "." h.
Proof.
  unfold labelled. induction (split_on "." h) as [|x l IH]; intros Hl; [done|]. apply Forall_cons in Hl as [Hx Hl]. cbn [List.filter].
  destruct (String.eqb_spec x ""); [done|]. cbn [negb]. by rewrite IH.
Qed.
Lemma concat_labels_ne l : l <> [] -> Forall (fun x => x <> ""%string) l -> String.concat "." l <> ""%string.
Proof.
  destruct l as [|x l]; [done|]. intros _ Hl. apply Forall_cons in Hl as [Hx _]. destruct x as [|c x]; [done|]. by destruct l.
Qed.
Theorem suffixes_are_domains h d : labelled h -> d ∈ suffix_candidates h <-> in_domain h d.
Proof.
  intros Hl. unfold suffix_candidates. cbv zeta. rewrite labelled_parts by done. rewrite list_elem_of_fmap. split.
  - intros (i & -> & Hi%elem_of_seq). assert (drop i (split_on "." h) <> []) as Hd.
    { intros E. apply (f_equal length) in E. rewrite length_drop in E. simpl in E. lia. }
    split; [apply concat_labels_ne; [done|by apply Forall_drop]|].
    destruct i as [|i]; [left; by rewrite drop_0, split_join|right].
    exists (String.concat "." (take (S i) (split_on "." h))). rewrite <- join_app; [by rewrite take_drop, split_join| |done].
    pose proof (split_by_ne (Ascii.eqb ".") h). unfold split_on. by destruct (split_by _ h).
  - intros [Hd [->|(p & ->)]].
    + exists 0%nat. rewrite drop_0, split_join. split; [done|]. apply elem_of_seq.
      pose proof (split_by_ne (Ascii.eqb ".") d). unfold split_on. destruct (split_by _ d); [done|simpl; lia].
    + assert (split_on "." (p ++ "." ++ d) = split_on "." p ++ split_on "." d) as E by (by apply split_by_app).
      exists (length (split_on "." p)). rewrite E, drop_app_length, split_join. split; [done|]. apply elem_of_seq.
      rewrite length_app. pose proof (split_by_ne (Ascii.eqb ".") d). unfold split_on. destruct (split_by _ d); [done|simpl; lia].
Qed.

(** ** The category of a URL *)

(** The four sources of a category, in the order they are asked. *)
Inductive Tier : Type := OverrideDomain | OverrideUrl | ListDomain | ListUrl.
Definition rank (t : Tier) : nat := match t with OverrideDomain => 0 | OverrideUrl => 1 | ListDomain => 2 | ListUrl => 3 end.
(** A rule of the tier gives a URL on [host], with the text [url], the enabled category [c] named [k]. *)
Definition rule_applies (l : Lists) (t : Tier) (host url : string) (c : Z) (k : string) : Prop :=
  enabled_key l c = Some k /\ exists v,
  match t with
  | OverrideDomain => (c, v) ∈ override_rows (url_category_overrides_domain l) /\ in_domain host v
  | OverrideUrl => (c, v) ∈ override_rows (url_category_overrides_url l) /\ prefix_of_url url v = true
  | ListDomain => (c, v) ∈ url_category_domain_entries l /\ in_domain host v
  | ListUrl => host <> ""%string /\ (c, v) ∈ url_category_url_entries l /\ prefix_of_url url v = true
  end.

Section lookups.
Context `{SqlRows}.
Lemma lookup_hit l f rows c k : lookup_rows true l f rows = Some (Some (c, k)) -> enabled_key l c = Some k /\ exists v, (c, v) ∈ rows /\ f v = true.
Proof.
  unfold lookup_rows. intros [= Ha]. apply any_row_elem, list_elem_of_omap in Ha as ((c' & v) & Hin & Hh). unfold hit_of in Hh. cbn [fst snd] in Hh.
  destruct (f v) eqn:Hf; [|done]. destruct (enabled_key l c') as [k'|] eqn:E; [|done]. injection Hh as -> ->. split; [done|]. by exists v.
Qed.
Lemma lookup_miss l f rows c k v : lookup_rows true l f rows = Some None -> enabled_key l c = Some k -> (c, v) ∈ rows -> f v = true -> False.
Proof.
  unfold lookup_rows. intros [= Ha] Hk Hin Hf. apply any_row_nil in Ha. assert ((c, k) ∈ omap (hit_of l f) rows) as Hx.
  { apply list_elem_of_omap. exists (c, v). split; [done|]. unfold hit_of. cbn [fst snd]. by rewrite Hf, Hk. }
  rewrite Ha in Hx. by apply not_elem_of_nil in Hx.
Qed.
Lemma in_suffixes_true h d : labelled h -> in_suffixes (suffix_candidates h) d = true <-> in_domain h d.
Proof. intros Hl. unfold in_suffixes. rewrite existsb_eqb_elem. by apply suffixes_are_domains. Qed.
Lemma not_in_domain_empty d : ~ in_domain "" d.
Proof. intros [Hd [E|(p & E)]]; [by subst|]. by destruct p. Qed.
End lookups.

Section categories.
Context `{SqlRows} (url_parse : string -> option ParsedUrl) (domain_to_ascii : string -> option string) (to_lowercase : string -> string).
Abbreviation host_of := (normalize_hostname domain_to_ascii to_lowercase).
Abbreviation categorize := (categorize_url_now url_parse domain_to_ascii to_lowercase).
Abbreviation url_text := (normalize_url_for_prefix_match url_parse to_lowercase).

#[local] Arguments lookup_rows {_} ok l f rows : simpl never.
Lemma domain_hit l rows host c k :
  labelled host -> lookup_rows true l (in_suffixes (suffix_candidates host)) rows = Some (Some (c, k)) ->
  enabled_key l c = Some k /\ exists v, (c, v) ∈ rows /\ in_domain host v.
Proof. intros Hl Hr. apply lookup_hit in Hr as (Hk & v & Hin & Hf). split; [done|]. exists v. split; [done|]. by apply in_suffixes_true in Hf. Qed.
Lemma domain_miss l rows host c k v :
  labelled host -> lookup_rows true l (in_suffixes (suffix_candidates host)) rows = Some None -> enabled_key l c = Some k -> (c, v) ∈ rows -> ~ in_domain host v.
Proof. intros Hl Hr Hk Hin Hd. eapply lookup_miss; [exact Hr|done|done|]. by apply in_suffixes_true. Qed.

(** What the lookups answer when none fails: the decision by tiers, on a host that is empty or labelled. *)
Definition decided (l : Lists) (host url : string) (r : option (Z * string)) : Prop :=
  match r with
  | Some (c, k) => exists t, rule_applies l t host url c k /\ forall t' c' k', (rank t' < rank t)%nat -> ~ rule_applies l t' host url c' k'
  | None => forall t c k, ~ rule_applies l t host url c k
  end.
Lemma tier_missed l t host url rows f c k :
  lookup_rows true l f rows = Some None ->
  (forall v, match t with
             | OverrideDomain => (c, v) ∈ override_rows (url_category_overrides_domain l) /\ in_domain host v
             | OverrideUrl => (c, v) ∈ override_rows (url_category_overrides_url l) /\ prefix_of_url url v = true
             | ListDomain => (c, v) ∈ url_category_domain_entries l /\ in_domain host v
             | ListUrl => host <> ""%string /\ (c, v) ∈ url_category_url_entries l /\ prefix_of_url url v = true
             end -> (c, v) ∈ rows /\ f v = true) ->
  ~ rule_applies l t host url c k.
Proof. intros Hr Hm (Hk & v & Hv). apply Hm in Hv as [Hin Hf]. by eapply lookup_miss. Qed.

Lemma categorize_decided l hostname url ok :
  (forall i, ok i = true) -> host_of hostname = ""%string \/ labelled (host_of hostname) ->
  exists r, categorize l hostname url ok = Some r /\ decided l (host_of hostname) (url_text url) r.
Proof.
  intros Hok Hh. unfold categorize_url_now, categorize_override. cbv zeta.
  unfold override_domain_match, override_url_match, domain_entry_match, url_entry_match. rewrite !Hok.
  set (host := host_of hostname) in *. set (u := url_text url).
  assert (String.eqb host "" = true /\ host = ""%string \/ String.eqb host "" = false /\ labelled host /\ host <> ""%string) as Hc.
  { destruct (String.eqb_spec host "") as [E|E]; [by left|right]. by destruct Hh as [Hh|Hh]. }
  set (f1 := in_suffixes (suffix_candidates host)). set (f2 := prefix_of_url u).
  destruct Hc as [[-> E]|(-> & Hl & Hne)].
  - cbn [mbind option_bind]. destruct (lookup_rows true l f2 (override_rows (url_category_overrides_url l))) as [[[c k]|]|] eqn:E2; [| |done]; cbn [mbind option_bind]; eexists; (split; [reflexivity|]).
    + apply lookup_hit in E2 as (Hk & v & Hin & Hf). exists OverrideUrl. split; [by split; [|exists v]|].
      intros [] c' k' Hr (_ & v' & Hv'); cbn in Hr; try lia. rewrite E in Hv'. by apply proj2, not_in_domain_empty in Hv'.
    + intros [] c k (Hk & v & Hv); rewrite ?E in Hv; try (by apply proj2, not_in_domain_empty in Hv); [|by destruct Hv].
      destruct Hv. by eapply lookup_miss.
  - destruct (lookup_rows true l f1 (override_rows (url_category_overrides_domain l))) as [[[c k]|]|] eqn:E1; [| |done]; cbn [mbind option_bind].
    { eexists. split; [reflexivity|]. apply domain_hit in E1; [|done]. exists OverrideDomain. split; [done|]. intros t' c' k' Hr. cbn in Hr. lia. }
    assert (forall c k, ~ rule_applies l OverrideDomain host u c k) as N1.
    { intros c k. eapply tier_missed; [exact E1|]. intros v [Hin Hv]. split; [done|]. by apply in_suffixes_true. }
    destruct (lookup_rows true l f2 (override_rows (url_category_overrides_url l))) as [[[c k]|]|] eqn:E2; [| |done]; cbn [mbind option_bind].
    { eexists. split; [reflexivity|]. apply lookup_hit in E2 as (Hk & v & Hin & Hf). exists OverrideUrl. split; [by split; [|exists v]|].
      intros [] c' k' Hr; cbn in Hr; try lia. apply N1. }
    assert (forall c k, ~ rule_applies l OverrideUrl host u c k) as N2.
    { intros c k. eapply tier_missed; [exact E2|]. by intros v [Hin Hv]. }
    destruct (lookup_rows true l f1 (elements (url_category_domain_entries l))) as [[[c k]|]|] eqn:E3; [| |done]; cbn [mbind option_bind].
    { eexists. split; [reflexivity|]. apply domain_hit in E3 as (Hk & v & Hin & Hf); [|done]. exists ListDomain.
      split; [split; [done|]; exists v; split; [by apply elem_of_elements|done]|]. intros [] c' k' Hr; cbn in Hr; try lia; [apply N1|apply N2]. }
    assert (forall c k, ~ rule_applies l ListDomain host u c k) as N3.
    { intros c k. eapply tier_missed; [exact E3|]. intros v [Hin Hv]. split; [by apply elem_of_elements|by apply in_suffixes_true]. }
    destruct (lookup_rows true l f2 (elements (url_category_url_entries l))) as [[[c k]|]|] eqn:E4; [| |done]; cbn [mbind option_bind]; eexists; (split; [reflexivity|]).
    + apply lookup_hit in E4 as (Hk & v & Hin & Hf). exists ListUrl. split; [split; [done|]; exists v; split; [done|split; [by apply elem_of_elements|done]]|].
      intros [] c' k' Hr; cbn in Hr; try lia; [apply N1|apply N2|apply N3].
    + intros [] c k; [apply N1|apply N2|apply N3|]. eapply tier_missed; [exact E4|]. intros v (_ & Hin & Hv). split; [by apply elem_of_elements|done].
Qed.
(** A failed lookup is an error or makes no difference. *)
Lemma categorize_fails l hostname url ok : categorize l hostname url ok = None \/ categorize l hostname url ok = categorize l hostname url (fun _ => true).
Proof.
  unfold categorize_url_now, categorize_override. cbv zeta. unfold override_domain_match, override_url_match, domain_entry_match, url_entry_match, lookup_rows.
  destruct (String.eqb (host_of hostname) ""), (ok 0%nat), (ok 1%nat), (ok 2%nat), (ok 3%nat);
    repeat (cbn [mbind option_bind]; try (by left); try (by right); match goal with |- context [any_row ?x] => destruct (any_row x) eqn:? end).
Qed.

(** C32: the category of a URL follows the rules. When no lookup fails, a URL whose host has no empty label gets a
    category exactly when some enabled rule applies, from the first tier that has one: domain overrides, URL
    overrides, listed domains, listed URLs. A domain rule applies to the domain and everything under it and to
    nothing else; a URL rule without pattern characters applies to the URLs it is a prefix of. A failed lookup
    yields an error or the same answer, never another category. *)
Theorem categorization_follows_rules l hostname url ok :
  let host := host_of hostname in
  host = ""%string \/ labelled host ->
  (exists r, categorize l hostname url (fun _ => true) = Some r /\ decided l host (url_text url) r
             /\ (categorize l hostname url ok = None \/ categorize l hostname url ok = Some r))
  /\ ((forall i, ok i = true) -> categorize l hostname url ok <> None)
  /\ (forall v, in_suffixes (suffix_candidates host) v = true <-> in_domain host v)
  /\ (forall p, all_char plain_char p = true -> prefix_of_url (url_text url) p = String.prefix p (url_text url)).
Proof.
  intros host Hh. destruct (categorize_decided l hostname url (fun _ => true) (fun _ => eq_refl) Hh) as (r & Hr & Hd).
  split; [exists r; split; [done|]; split; [done|]; rewrite <- Hr; apply categorize_fails|].
  split; [intros Hok; destruct (categorize_decided l hostname url ok Hok Hh) as (r' & -> & _); done|].
  split; [|intros p Hp; by apply like_plain_prefix].
  intros v. destruct Hh as [E|Hl]; [|by apply in_suffixes_true]. rewrite E. split; [by vm_compute|]. by intros Hv%not_in_domain_empty.
Qed.
End categories.

(** ** Aggregates *)

Definition visits_of (w : Web) (a : Uuid) (u : string) : Z :=
  Z.of_nat (length (List.filter (fun v => bool_decide (v_agent v = a) && String.eqb (v_url v) u) (url_visits w))).
Definition sessions_where (w : Web) (f : SessionRow -> bool) : list SessionRow := List.filter f (url_sessions w).
Definition total_time (l : list SessionRow) : Z := foldr (fun s n => s_duration_ms s + n) 0 l.
Definition on_site (a : Uuid) (h : string) (s : SessionRow) : bool := bool_decide (s_agent s = a) && String.eqb (s_hostname s) h.
Definition in_category (a : Uuid) (c : Z) (s : SessionRow) : bool := bool_decide (s_agent s = a) && bool_decide (s_category s = Some c).
Definition count_at {K} `{Countable K} (m : gmap K Stat) (k : K) : Z := default 0 (visit_count <$> m !! k).
Definition time_at {K} `{Countable K} (m : gmap K TimeStat) (k : K) : Z * Z := default (0, 0) ((fun t => (time_ms t, visit_count (times t))) <$> m !! k).
(** An aggregate row against the rows it sums up, related by [R]. *)
Definition sums (R : Z -> Z -> Prop) (row : Z * Z) (l : list SessionRow) : Prop := R row.1 (total_time l) /\ R row.2 (Z.of_nat (length l)).
Record aggregates (R : Z -> Z -> Prop) (w : Web) : Prop := {
  ag_top : forall a u, R (count_at (url_top_stats w) (a, u)) (visits_of w a u);
  ag_site : forall a h, h <> ""%string -> sums R (time_at (url_site_stats w) (a, h)) (sessions_where w (on_site a h));
  ag_category : forall a c, sums R (time_at (url_category_time_stats w) (a, c)) (sessions_where w (in_category a c))
}.

(** How the sum follows the rows: adding the same to both keeps the relation. *)
Class Summing (R : Z -> Z -> Prop) := { summing_refl : forall x, R x x; summing_add : forall x y n, R x y -> R (x + n) (y + n) }.
#[export] Instance eq_summing : Summing eq.
Proof. split; [done|intros; by subst]. Qed.
#[export] Instance le_summing : Summing Z.le.
Proof. split; intros; lia. Qed.

Lemma upsert_Some {K V} `{Countable K} ok (k : K) (f : option V -> option V) m m' :
  upsert ok k f m = Some m' -> ok = true /\ exists v, f (m !! k) = Some v /\ m' = <[k := v]> m.
Proof.
  unfold upsert. destruct ok; [|done]. destruct (f (m !! k)) as [v|]; [|done]. intros [= <-]. split; [done|]. by exists v.
Qed.
Lemma add_i64_Some a b c : add_i64 a b = Some c -> c = a + b /\ i64_min <= c <= i64_max.
Proof. unfold add_i64. destruct (in_range _ _ _) eqn:E; [|done]. intros [= <-]. by apply in_range_spec in E. Qed.
Lemma bump_count ts o s : bump ts o = Some s -> visit_count s = default 0 (visit_count <$> o) + 1.
Proof.
  destruct o as [x|]; cbn; [|by intros [= <-]]. destruct (add_i64 _ 1) as [n|] eqn:E; [|done]. apply add_i64_Some in E as [-> _]. by intros [= <-].
Qed.
Lemma bump_time_count ms ts o t : bump_time ms ts o = Some t ->
  time_ms t = default 0 (time_ms <$> o) + ms /\ visit_count (times t) = default 0 ((fun t => visit_count (times t)) <$> o) + 1.
Proof.
  unfold bump_time. destruct o as [x|]; cbn [fmap option_fmap option_map default from_option].
  - destruct (add_i64 _ _) as [t'|] eqn:E; [|done]. apply add_i64_Some in E as [-> _]. cbn [mbind option_bind].
    destruct (bump ts (Some (times x))) as [n|] eqn:En; [|done]. apply bump_count in En. intros [= <-]. by split.
  - cbn. intros [= <-]. by split.
Qed.
Lemma count_at_insert {K} `{Countable K} (m : gmap K Stat) k k' ts s : bump ts (m !! k) = Some s ->
  count_at (<[k := s]> m) k' = count_at m k' + (if bool_decide (k = k') then 1 else 0).
Proof.
  intros Hs%bump_count. unfold count_at. case_bool_decide as E; [subst k'; rewrite lookup_insert_eq; exact Hs|]. rewrite lookup_insert_ne by done. lia.
Qed.
Lemma time_at_insert {K} `{Countable K} (m : gmap K TimeStat) k k' ms ts t : bump_time ms ts (m !! k) = Some t ->
  time_at (<[k := t]> m) k' = ((time_at m k').1 + (if bool_decide (k = k') then ms else 0), (time_at m k').2 + (if bool_decide (k = k') then 1 else 0)).
Proof.
  intros Ht%bump_time_count. unfold time_at. case_bool_decide as E.
  - subst k'. rewrite lookup_insert_eq. destruct Ht as [Ht Hc]. cbn. rewrite Ht, Hc. by destruct (m !! k).
  - rewrite lookup_insert_ne, !Z.add_0_r by done. apply surjective_pairing.
Qed.
Lemma total_time_snoc l s : total_time (l ++ [s]) = total_time l + s_duration_ms s.
Proof.
  induction l as [|x l IH]; [cbn; lia|]. change (s_duration_ms x + total_time (l ++ [s]) = s_duration_ms x + total_time l + s_duration_ms s). rewrite IH. lia.
Qed.
(** A new session added to what an aggregate sums up. *)
Lemma sums_snoc R `{Summing R} row l (s : SessionRow) (b : bool) : sums R row l ->
  sums R (row.1 + (if b then s_duration_ms s else 0), row.2 + (if b then 1 else 0)) (l ++ if b then [s] else []).
Proof.
  intros [H1 H2]. destruct b.
  - split; cbn [fst snd]; [rewrite total_time_snoc; by apply summing_add|]. rewrite length_app, Nat2Z.inj_add. by apply (summing_add _ _ 1).
  - rewrite app_nil_r. split; cbn [fst snd]; by rewrite Z.add_0_r.
Qed.
Lemma sums_le_snoc row l s (b : bool) : 0 <= s_duration_ms s -> sums Z.le row l -> sums Z.le row (l ++ if b then [s] else []).
Proof.
  intros Hd [H1 H2]. destruct b; [|by rewrite app_nil_r]. split; [rewrite total_time_snoc; lia|]. rewrite length_app. lia.
Qed.

Section ingestion.
Context `{SqlRows} (url_parse : string -> option ParsedUrl) (domain_to_ascii : string -> option string) (to_lowercase : string -> string)
        (timestamp : Z -> option Z).

(** A frame of a device with what the server reads while it stores it. *)
Inductive Frame : Type :=
| VisitFrame (agent : Uuid) (v : json) (now : Z) (ok : nat -> bool)
| SessionFrame (agent : Uuid) (v : json) (now1 now2 : Z) (looked ok : nat -> bool).
Definition ingest (w : Web) (f : Frame) : Web * bool :=
  match f with
  | VisitFrame agent v now ok => record_url_visit url_parse timestamp w agent v now ok
  | SessionFrame agent v now1 now2 looked ok => record_url_session url_parse domain_to_ascii to_lowercase timestamp w agent v now1 now2 looked ok
  end.
Fixpoint ingest_all (w : Web) (fs : list Frame) : Web * list bool :=
  match fs with
  | [] => (w, [])
  | f :: fs => let '(w, ok) := ingest w f in let '(w, oks) := ingest_all w fs in (w, ok :: oks)
  end.

Lemma visits_of_add w v a u : visits_of (add_visit w v) a u = visits_of w a u + (if bool_decide ((v_agent v, v_url v) = (a, u)) then 1 else 0).
Proof.
  unfold visits_of. cbn [add_visit url_visits]. rewrite filter_snoc, length_app, Nat2Z.inj_add. f_equal.
  case_bool_decide as E1; destruct (String.eqb_spec (v_url v) u); cbn; case_bool_decide; naive_solver.
Qed.
(** What storing a visit does to the aggregates: as the rows, or, when it fails, less. *)
Lemma insert_url_sums w agent ev now ok w' r :
  insert_url timestamp w agent ev now ok = (w', r) ->
  (forall R, Summing R -> aggregates R w -> r = true -> aggregates R w') /\ (aggregates Z.le w -> aggregates Z.le w').
Proof.
  unfold insert_url. cbv zeta. set (row := {| v_id := _ |}).
  destruct (negb _); [by intros [= <- <-]|]. case_bool_decide; [by intros [= <- <-]; split|].
  destruct (negb _); [by intros [= <- <-]|]. destruct (upsert _ _ _ _) as [top|] eqn:Eu.
  - intros Hw. set (w1 := with_top _ _) in Hw. assert (forall R, Summing R -> aggregates R w -> aggregates R w1) as N.
    { intros R HR [H1 H2 H3]. split; [|exact H2|exact H3]. intros a u. apply upsert_Some in Eu as (_ & s & Hs & ->).
      unfold w1. cbn [with_top url_top_stats]. rewrite (count_at_insert _ _ _ _ _ Hs). change (visits_of _ a u) with (visits_of (add_visit w row) a u).
      rewrite visits_of_add. by apply summing_add. }
    assert (forall R, aggregates R w1 -> aggregates R w') as N'.
    { intros R [H1 H2 H3]. injection Hw as <- _. destruct (_ && _); [|done]. unfold enqueue. by destruct (existsb _ _). }
    split; intros; apply N'; eauto using le_summing.
  - intros [= <- <-]. split; [done|]. intros [H1 H2 H3]. split; [|exact H2|exact H3]. intros a u.
    rewrite visits_of_add. specialize (H1 a u). cbn [add_visit url_top_stats]. case_bool_decide; lia.
Qed.

Lemma site_sums R `{Summing R} (m : gmap (Uuid * string) TimeStat) l row t ts a h :
  bump_time (s_duration_ms row) ts (m !! (s_agent row, s_hostname row)) = Some t ->
  sums R (time_at m (a, h)) (List.filter (on_site a h) l) ->
  sums R (time_at (<[(s_agent row, s_hostname row) := t]> m) (a, h)) (List.filter (on_site a h) (l ++ [row])).
Proof.
  intros Ht Hs. rewrite (time_at_insert _ _ _ _ _ _ Ht), filter_snoc.
  replace (bool_decide ((s_agent row, s_hostname row) = (a, h))) with (on_site a h row); [by apply sums_snoc|].
  unfold on_site. do 2 case_bool_decide; destruct (String.eqb_spec (s_hostname row) h); naive_solver.
Qed.
Lemma category_sums R `{Summing R} (m : gmap (Uuid * Z) TimeStat) l row c t ts a c' :
  s_category row = Some c -> bump_time (s_duration_ms row) ts (m !! (s_agent row, c)) = Some t ->
  sums R (time_at m (a, c')) (List.filter (in_category a c') l) ->
  sums R (time_at (<[(s_agent row, c) := t]> m) (a, c')) (List.filter (in_category a c') (l ++ [row])).
Proof.
  intros Hc Ht Hs. rewrite (time_at_insert _ _ _ _ _ _ Ht), filter_snoc.
  replace (bool_decide ((s_agent row, c) = (a, c'))) with (in_category a c' row); [by apply sums_snoc|].
  unfold in_category. rewrite Hc. repeat case_bool_decide; naive_solver.
Qed.
Lemma sums_unmatched R (row : Z * Z) f l s : f s = false -> sums R row (List.filter f l) -> sums R row (List.filter f (l ++ [s])).
Proof. intros Hf. by rewrite filter_snoc, Hf, app_nil_r. Qed.
Lemma sums_le_more (row : Z * Z) f l s : 0 <= s_duration_ms s -> sums Z.le row (List.filter f l) -> sums Z.le row (List.filter f (l ++ [s])).
Proof. intros Hd Hs. rewrite filter_snoc. by apply sums_le_snoc. Qed.

Lemma insert_session_sums w agent ev hostname category now1 now2 ok w' r :
  0 <= us_duration_ms ev -> insert_url_session timestamp w agent ev hostname category now1 now2 ok = (w', r) ->
  (forall R, Summing R -> aggregates R w -> r = true -> aggregates R w') /\ (aggregates Z.le w -> aggregates Z.le w').
Proof.
  intros Hd. unfold insert_url_session. cbv zeta. set (row := {| s_id := _ |}). destruct (negb _); [by intros [= <- <-]|].
  set (w1 := with_sessions _ _ _). cbn [with_sessions url_site_stats w1].
  set (site := if String.eqb hostname "" then _ else _).
  assert (forall R m, Summing R -> aggregates R w -> site = Some m -> forall a h, h <> ""%string -> sums R (time_at m (a, h)) (sessions_where w1 (on_site a h))) as Ns.
  { intros R m HR Ha Hm a h Hh. pose proof (ag_site _ _ Ha a h Hh) as Hs. unfold site in Hm. destruct (String.eqb_spec hostname "") as [->|Hne].
    - injection Hm as <-. apply sums_unmatched; [|exact Hs]. unfold on_site, row. cbn. apply andb_false_intro2. destruct h; [done|done].
    - apply upsert_Some in Hm as (_ & t & Ht & ->). exact (site_sums R _ (url_sessions w) row t _ a h Ht Hs). }
  assert (aggregates Z.le w -> aggregates Z.le w1) as Nl.
  { intros [H1 H2 H3]. split; [exact H1| |]; intros; apply sums_le_more; eauto. }
  destruct site as [m|]; [|intros [= <- <-]; by split]. specialize (Ns). 
  destruct category as [c|].
  - destruct (upsert _ _ _ _) as [time|] eqn:Et; intros [= <- <-].
    + apply upsert_Some in Et as (_ & t & Ht & ->).
      assert (forall R, Summing R -> aggregates R w -> aggregates R (with_category_time (with_site_stats w1 m) (<[(agent, c) := t]> (url_category_time_stats w)))) as N.
      { intros R HR Ha. split; [exact (ag_top _ _ Ha)|intros a h; by apply Ns|]. intros a c'.
        exact (category_sums R _ (url_sessions w) row c t _ a c' eq_refl Ht (ag_category _ _ Ha a c')). }
      split; eauto using le_summing.
    + split; [done|]. intros Ha. split; [exact (ag_top _ _ Ha)|intros a h; apply Ns; eauto using le_summing|].
      intros a c'. exact (ag_category _ _ (Nl Ha) a c').
  - intros [= <- <-]. assert (forall R, Summing R -> aggregates R w -> aggregates R (with_site_stats w1 m)) as N.
    { intros R HR Ha. split; [exact (ag_top _ _ Ha)|intros a h; by apply Ns|]. intros a c'. apply sums_unmatched; [|exact (ag_category _ _ Ha a c')].
      unfold in_category, row. cbn. by rewrite andb_false_r. }
    split; eauto using le_summing.
Qed.

Lemma ingest_sums w f w' r : ingest w f = (w', r) ->
  (forall R, Summing R -> aggregates R w -> r = true -> aggregates R w') /\ (aggregates Z.le w -> aggregates Z.le w').
Proof.
  destruct f as [agent v now ok|agent v now1 now2 looked ok]; cbn [ingest].
  - unfold record_url_visit. destruct (looks_like_complete_navigation_url _ _); [apply insert_url_sums|by intros [= <- <-]].
  - unfold record_url_session. destruct (looks_like_complete_navigation_url _ _); [|by intros [= <- <-]].
    destruct (categorize_url_now _ _ _ _ _ _ _) as [cat|]; [|by intros [= <- <-]]. apply insert_session_sums. cbn. lia.
Qed.

(** C33: the aggregates never count more than was stored, and count it all when nothing failed. Whatever frames arrive
    and whichever statements fail or overflow, each per-URL, per-site and per-category total stays at most the sum
    over the stored rows; if they were equal and every frame was answered without an error, they are equal after. *)
Theorem aggregates_follow_rows fs w w' oks :
  ingest_all w fs = (w', oks) ->
  (aggregates Z.le w -> aggregates Z.le w')
  /\ (aggregates eq w -> Forall (fun r => r = true) oks -> aggregates eq w').
Proof.
  revert w oks. induction fs as [|f fs IH]; intros w oks; cbn [ingest_all]; [by intros [= <- <-]|].
  destruct (ingest w f) as [w1 r] eqn:E1. destruct (ingest_all w1 fs) as [w2 rs] eqn:E2. intros [= <- <-]. apply IH in E2 as [H1 H2].
  apply ingest_sums in E1 as [H3 H4]. split; [auto|]. intros Ha [Hr Hrs]%Forall_cons. apply H2; [|done]. by apply H3; [apply _| |].
Qed.
End ingestion.

(** ** The worker *)

Definition queue_ids (w : Web) : list Z := q_visit <$> url_categorization_queue w.
Lemma filter_out_perm (ids : list Z) (q done_ rest : list QueuedVisit) :
  q ≡ₚ done_ ++ rest -> NoDup (q_visit <$> q) -> ids = q_visit <$> done_ ->
  List.filter (fun x => negb (bool_decide (q_visit x ∈ ids))) q ≡ₚ rest.
Proof.
  intros Hp Hn ->. rewrite Hp, fmap_app in Hn. apply NoDup_app in Hn as (_ & Hd & _). set (f := fun x => _).
  assert (List.filter f q ≡ₚ List.filter f (done_ ++ rest)) as ->.
  { clear -Hp. induction Hp as [|x l l' Hp IH|x y l|l l' l'' H1 IH1 H2 IH2]; cbn [List.filter]; [done| | |by rewrite IH1].
    - destruct (f x); by rewrite IH.
    - destruct (f x), (f y); try done. apply perm_swap. }
  rewrite List.filter_app, filter_none, filter_every; [done| |].
  - intros x Hx. unfold f. case_bool_decide as Hin; [|done]. exfalso. eapply Hd; [exact Hin|]. by apply list_elem_of_fmap_2.
  - intros x Hx. unfold f. rewrite bool_decide_true; [done|]. by apply list_elem_of_fmap_2.
Qed.

Section worker.
Context `{SqlRows, UuidText} (url_parse : string -> option ParsedUrl) (domain_to_ascii : string -> option string) (to_lowercase : string -> string)
        (regex_is_match : bool -> string -> string -> option bool).
Abbreviation row_step := (worker_row url_parse domain_to_ascii to_lowercase regex_is_match).
Abbreviation rows_step := (worker_rows url_parse domain_to_ascii to_lowercase regex_is_match).
Abbreviation turn := (worker_turn url_parse domain_to_ascii to_lowercase regex_is_match).
Abbreviation run := (worker_run url_parse domain_to_ascii to_lowercase regex_is_match).

Definition healthy_row (e : RowEnv) : Prop := (forall i, re_looked e i = true) /\ (forall i, re_wrote e i = true).
Definition healthy_turn (e : TurnEnv) : Prop := tn_settings e = true /\ tn_read e = true /\ forall i, healthy_row (tn_rows e i).
(** The category the lists give a queued visit, when no lookup fails. *)
Definition category_of (l : Lists) (q : QueuedVisit) : option (Z * string) :=
  default None (categorize_url_now url_parse domain_to_ascii to_lowercase l (row_hostname url_parse domain_to_ascii to_lowercase q) (q_url q) (fun _ => true)).
Definition counts_for (l : Lists) (a : Uuid) (c : Z) (q : QueuedVisit) : bool :=
  bool_decide (q_agent q = a) && bool_decide (fst <$> category_of l q = Some c).
Definition counted_in (l : Lists) (a : Uuid) (c : Z) (qs : list QueuedVisit) : Z := Z.of_nat (length (List.filter (counts_for l a c) qs)).

Lemma categorize_total l hostname url : exists r,
  categorize_url_now url_parse domain_to_ascii to_lowercase l hostname url (fun _ => true) = Some r.
Proof.
  unfold categorize_url_now, categorize_override. cbv zeta. unfold override_domain_match, override_url_match, domain_entry_match, url_entry_match, lookup_rows.
  destruct (String.eqb (normalize_hostname _ _ _) "");
    repeat (cbn [mbind option_bind]; try (by eexists); match goal with |- context [any_row ?x] => destruct (any_row x) eqn:? end).
Qed.
Lemma categorize_healthy l hostname url ok : (forall i, ok i = true) ->
  categorize_url_now url_parse domain_to_ascii to_lowercase l hostname url ok
  = categorize_url_now url_parse domain_to_ascii to_lowercase l hostname url (fun _ => true).
Proof.
  intros Hok. unfold categorize_url_now, categorize_override. cbv zeta. unfold override_domain_match, override_url_match, domain_entry_match, url_entry_match.
  by rewrite !Hok.
Qed.

(** What handling the rows [qs] did to the tables. *)
Record handled (w w' : Web) (qs : list QueuedVisit) : Prop := {
  hd_lists : lists w' = lists w;
  hd_queue : url_categorization_queue w' = List.filter (fun x => negb (bool_decide (q_visit x ∈ q_visit <$> qs))) (url_categorization_queue w);
  hd_done : NoDup (q_visit <$> qs) -> forall q, q ∈ qs -> url_visit_category w' !! q_visit q = Some (fst <$> category_of (lists w) q);
  hd_other : forall v, v ∉ q_visit <$> qs -> url_visit_category w' !! v = url_visit_category w !! v;
  hd_stats : forall a c, count_at (url_category_stats w') (a, c) = count_at (url_category_stats w) (a, c) + counted_in (lists w) a c qs
}.
Lemma row_handled w a r e :
  healthy_row e -> (forall k, 0 <= count_at (url_category_stats w) k < i64_max) ->
  exists w' a' shots, row_step w a r e = (w', a', shots, true) /\ handled w w' [r].
Proof.
  intros [Hl Hw] Hc. unfold worker_row. rewrite (categorize_healthy _ _ _ _ Hl), !Hw. cbn [negb]. cbv zeta.
  destruct (categorize_total (lists w) (row_hostname url_parse domain_to_ascii to_lowercase r) (q_url r)) as (cat & Ecat). rewrite Ecat.
  assert (category_of (lists w) r = cat) as Ec by (unfold category_of; by rewrite Ecat).
  assert (forall a c, counted_in (lists w) a c [r] = if counts_for (lists w) a c r then 1 else 0) as En.
  { intros a0 c. unfold counted_in. cbn [List.filter]. by destruct (counts_for _ _ _ _). }
  assert (forall w1, lists w1 = lists w -> url_categorization_queue w1 = url_categorization_queue w -> url_visit_category w1 = <[q_visit r := fst <$> cat]> (url_visit_category w) ->
          (forall a c, count_at (url_category_stats w1) (a, c) = count_at (url_category_stats w) (a, c) + counted_in (lists w) a c [r]) -> handled w (dequeue w1 (q_visit r)) [r]) as N.
  { intros w1 H1 H2 H3 H4. split; [exact H1| | | |exact H4].
    - cbn [dequeue with_queue url_categorization_queue]. rewrite H2. apply List.filter_ext. intros x. f_equal. cbn [fmap list_fmap].
      case_bool_decide as Hx; [apply list_elem_of_singleton in Hx; by apply Z.eqb_eq|]. apply Z.eqb_neq. intros Hq. by apply Hx, list_elem_of_singleton.
    - intros _ q ->%list_elem_of_singleton. cbn [dequeue with_queue url_visit_category]. rewrite H3, lookup_insert_eq. by rewrite Ec.
    - intros v Hv. cbn [dequeue with_queue url_visit_category]. rewrite H3, lookup_insert_ne; [done|]. intros E. by apply Hv, list_elem_of_singleton. }
  destruct cat as [[cid key]|].
  - unfold upsert, bump. cbn [set_visit_category with_visit_category url_category_stats].
    set (o := url_category_stats w !! (q_agent r, cid)).
    assert (exists s, match o with None => Some {| visit_count := 1; last_ts := q_ts r |}
                      | Some s => n ← add_i64 (visit_count s) 1; Some {| visit_count := n; last_ts := Z.max (last_ts s) (q_ts r) |} end = Some s) as (s & Es).
    { specialize (Hc (q_agent r, cid)). unfold count_at in Hc. fold o in Hc. destruct o as [s|]; [|by eexists]. cbn in Hc.
      unfold add_i64. rewrite (proj2 (in_range_spec _ _ _)); [by eexists|]. unfold i64_min, i64_max in *. lia. }
    rewrite Es. cbn [mbind option_bind]. destruct (on_url_category_event _ _ _ _ _ _ _ _) as [a' shots]. do 3 eexists. split; [reflexivity|].
    apply N; try done. intros a0 c. cbn [with_category_stats url_category_stats]. rewrite (count_at_insert _ _ _ (q_ts r) s Es), En. f_equal.
    unfold counts_for. rewrite Ec. repeat case_bool_decide; naive_solver.
  - do 3 eexists. split; [reflexivity|]. apply N; try done. intros a0 c. rewrite En. unfold counts_for. rewrite Ec. cbn. rewrite andb_false_r. lia.
Qed.

Lemma handled_nil w : handled w w [].
Proof.
  split; try done; [|intros _ q Hq; by apply not_elem_of_nil in Hq|intros a c; unfold counted_in; cbn; lia].
  cbn. symmetry. induction (url_categorization_queue w) as [|x l IH]; [done|]. cbn [List.filter]. rewrite bool_decide_false by apply not_elem_of_nil. cbn. by rewrite IH at 1.
Qed.
Lemma handled_cons w w1 w2 r qs : handled w w1 [r] -> handled w1 w2 qs -> handled w w2 (r :: qs).
Proof.
  intros [L1 Q1 D1 O1 S1] [L2 Q2 D2 O2 S2]. split.
  - by rewrite L2.
  - rewrite Q2, Q1, filter_twice. apply List.filter_ext. intros x. rewrite fmap_cons. repeat case_bool_decide; set_solver.
  - intros [Hr Hn]%NoDup_cons q [->|Hq]%elem_of_cons.
    + rewrite O2 by done. apply D1; [apply NoDup_singleton|by apply list_elem_of_singleton].
    + rewrite <- L1. by apply D2.
  - intros v Hv. rewrite fmap_cons in Hv. apply not_elem_of_cons in Hv as [Hne Hv]. rewrite O2 by done. apply O1. cbn. by intros ->%list_elem_of_singleton.
  - intros a c. rewrite S2, S1, L1. unfold counted_in. cbn [List.filter]. destruct (counts_for _ _ _ r); cbn; lia.
Qed.
Lemma rows_handled rs : forall w a env i,
  (forall j, healthy_row (env j)) -> (forall k, 0 <= count_at (url_category_stats w) k /\ count_at (url_category_stats w) k + Z.of_nat (length rs) <= i64_max) ->
  exists w' a' shots, rows_step w a rs env i = (w', a', shots, true) /\ handled w w' rs.
Proof.
  induction rs as [|r rs IH]; intros w a env i He Hc; [do 3 eexists; split; [reflexivity|apply handled_nil]|].
  destruct (row_handled w a r (env i) (He i)) as (w1 & a1 & s1 & E1 & H1).
  { intros k. specialize (Hc k). cbn [length] in Hc. lia. }
  destruct (IH w1 a1 env (S i) He) as (w2 & a2 & s2 & E2 & H2).
  { intros [a0 c]. rewrite (hd_stats _ _ _ H1). specialize (Hc (a0, c)). cbn [length] in Hc. unfold counted_in. cbn [List.filter].
    destruct (counts_for _ _ _ _); cbn [length]; lia. }
  exists w2, a2, (s1 ++ s2). split; [cbn [worker_rows]; by rewrite E1, E2|]. by eapply handled_cons.
Qed.

(** The queue has one entry for a visit, and the counts leave room for it. *)
Record queue_ok (w : Web) : Prop := {
  qo_ids : NoDup (queue_ids w);
  qo_enabled : st_enabled (url_categorization_settings (lists w)) = true;
  qo_counts : forall k, 0 <= count_at (url_category_stats w) k /\ count_at (url_category_stats w) k + Z.of_nat (length (url_categorization_queue w)) <= i64_max
}.
(** What [n] of the worker's turns left to do, when [qs] was queued: [done_] was handled. *)
Record drained (w w' : Web) (done_ rest : list QueuedVisit) : Prop := {
  dr_split : url_categorization_queue w ≡ₚ done_ ++ rest;
  dr_rest : url_categorization_queue w' ≡ₚ rest;
  dr_lists : lists w' = lists w;
  dr_done : forall q, q ∈ done_ -> url_visit_category w' !! q_visit q = Some (fst <$> category_of (lists w) q);
  dr_other : forall v, v ∉ q_visit <$> done_ -> url_visit_category w' !! v = url_visit_category w !! v;
  dr_stats : forall a c, count_at (url_category_stats w') (a, c) = count_at (url_category_stats w) (a, c) + counted_in (lists w) a c done_
}.
Lemma counted_in_app l a c p q : counted_in l a c (p ++ q) = counted_in l a c p + counted_in l a c q.
Proof. unfold counted_in. rewrite List.filter_app, length_app. lia. Qed.
Lemma counted_in_bound l a c p : 0 <= counted_in l a c p <= Z.of_nat (length p).
Proof. unfold counted_in. pose proof (sublist_length _ _ (filter_sublist (counts_for l a c) p)). lia. Qed.
Lemma drained_ok w w' done_ rest : queue_ok w -> drained w w' done_ rest -> queue_ok w'.
Proof.
  intros [Hi He Hc] [Hs Hr Hl _ _ Ht]. split.
  - unfold queue_ids in *. rewrite Hr. rewrite Hs, fmap_app in Hi. by apply NoDup_app in Hi as (_ & _ & Hi).
  - by rewrite Hl.
  - intros [a c]. rewrite Ht. specialize (Hc (a, c)). rewrite Hs, length_app in Hc. rewrite Hr. pose proof (counted_in_bound (lists w) a c done_). lia.
Qed.
Lemma turn_drains w a e : queue_ok w -> healthy_turn e ->
  exists w' a' shots, turn w a e = (w', a', shots) /\ drained w w' (queue_batch w WORKER_BATCH) (drop WORKER_BATCH (sort_by q_ts (url_categorization_queue w))).
Proof.
  intros [Hi He Hc] (Hs & Hr & Hrows). unfold worker_turn. rewrite Hs, He. cbn [andb]. unfold worker_tick. rewrite Hr.
  set (q := url_categorization_queue w) in *. set (rs := queue_batch w WORKER_BATCH).
  assert (q ≡ₚ rs ++ drop WORKER_BATCH (sort_by q_ts q)) as Hp by (unfold rs, queue_batch; fold q; rewrite take_drop; symmetry; apply sort_by_perm).
  destruct (rows_handled rs w a (tn_rows e) 0 Hrows) as (w' & a' & shots & -> & [H1 H2 H3 H4 H5]).
  { intros k. specialize (Hc k). rewrite Hp, length_app in Hc. lia. }
  exists w', a', shots. split; [done|]. split; try done.
  - rewrite H2. fold q. eapply filter_out_perm; [exact Hp|exact Hi|done].
  - apply H3. unfold queue_ids in Hi. fold q in Hi. rewrite Hp, fmap_app in Hi. by apply NoDup_app in Hi as [Hi _].
Qed.
Lemma drained_trans w w1 w2 d1 r1 d2 r2 : NoDup (queue_ids w) -> drained w w1 d1 r1 -> drained w1 w2 d2 r2 -> drained w w2 (d1 ++ d2) r2.
Proof.
  intros Hi [S1 R1 L1 D1 O1 T1] [S2 R2 L2 D2 O2 T2]. assert (r1 ≡ₚ d2 ++ r2) as Hr by (by rewrite <- R1).
  assert (NoDup (q_visit <$> d1 ++ d2 ++ r2)) as Hn by (unfold queue_ids in Hi; by rewrite S1, Hr in Hi).
  rewrite !fmap_app in Hn. apply NoDup_app in Hn as (_ & Hd & _). split.
  - by rewrite S1, Hr, app_assoc.
  - done.
  - by rewrite L2.
  - intros q [Hq|Hq]%elem_of_app; [|rewrite <- L1; by apply D2]. rewrite O2; [by apply D1|]. intros Hq2. apply (Hd (q_visit q)); [by apply list_elem_of_fmap_2|].
    apply elem_of_app. by left.
  - intros v Hv. rewrite fmap_app in Hv. apply not_elem_of_app in Hv as [V1 V2]. by rewrite O2, O1.
  - intros a c. rewrite T2, T1, L1, counted_in_app. lia.
Qed.

Lemma batch_is_oldest w q q' :
  q ∈ queue_batch w WORKER_BATCH -> q' ∈ drop WORKER_BATCH (sort_by q_ts (url_categorization_queue w)) -> q_ts q <= q_ts q'.
Proof.
  intros H1 H2. pose proof (sort_by_sorted q_ts (url_categorization_queue w)) as Hs. rewrite <- (take_drop WORKER_BATCH (sort_by _ _)) in Hs.
  exact (StronglySorted_app_1_elem_of _ _ _ _ _ Hs H1 H2).
Qed.
(** The turns, one after another. *)
Lemma run_drains es : forall w a,
  queue_ok w -> Forall healthy_turn es ->
  exists w' a' shots done_ rest, run w a es = (w', a', shots) /\ drained w w' done_ rest
  /\ length rest = (length (url_categorization_queue w) - WORKER_BATCH * length es)%nat
  /\ (forall q q', q ∈ done_ -> q' ∈ rest -> q_ts q <= q_ts q').
Proof.
  induction es as [|e es IH]; intros w a Hw He.
  - exists w, a, [], [], (url_categorization_queue w). split; [done|]. split; [|split; [cbn; lia|intros q q' Hq; by apply not_elem_of_nil in Hq]].
    split; try done; [intros q Hq; by apply not_elem_of_nil in Hq|]. intros a0 c. unfold counted_in. cbn. lia.
  - apply Forall_cons in He as [He Hes]. destruct (turn_drains w a e Hw He) as (w1 & a1 & s1 & E1 & D1).
    set (d1 := queue_batch w WORKER_BATCH) in *. set (r1 := drop _ _) in D1.
    destruct (IH w1 a1 (drained_ok _ _ _ _ Hw D1) Hes) as (w2 & a2 & s2 & d2 & r2 & E2 & D2 & L2 & O2).
    exists w2, a2, (s1 ++ s2), (d1 ++ d2), r2. cbn [worker_run]. rewrite E1, E2. split; [done|]. split; [exact (drained_trans _ _ _ _ _ _ _ (qo_ids _ Hw) D1 D2)|].
    split.
    + rewrite L2, (dr_rest _ _ _ _ D1). unfold r1. rewrite length_drop, sort_by_perm. cbn [length]. lia.
    + intros q q' [Hq|Hq]%elem_of_app Hr; [|by apply O2]. apply (batch_is_oldest w); [exact Hq|]. fold r1.
      rewrite <- (dr_rest _ _ _ _ D1), (dr_split _ _ _ _ D2). apply elem_of_app. by right.
Qed.

(** The worker empties the queue, each visit once. With categorization on and turns in which nothing fails, one
    turn for every 250 queued visits leaves the queue empty; each visit that was queued has the category the rules
    give it, no other visit's category changed, and each count grew by exactly the queued visits of that device and
    category. Fewer turns take the oldest visits first. *)
Theorem worker_drains_queue w a es :
  queue_ok w -> Forall healthy_turn es ->
  exists w' a' shots done_, run w a es = (w', a', shots)
  /\ url_categorization_queue w ≡ₚ done_ ++ url_categorization_queue w'
  /\ length (url_categorization_queue w') = (length (url_categorization_queue w) - WORKER_BATCH * length es)%nat
  /\ (forall q, q ∈ done_ -> url_visit_category w' !! q_visit q = Some (fst <$> category_of (lists w) q))
  /\ (forall v, v ∉ q_visit <$> done_ -> url_visit_category w' !! v = url_visit_category w !! v)
  /\ (forall ag c, count_at (url_category_stats w') (ag, c) = count_at (url_category_stats w) (ag, c) + counted_in (lists w) ag c done_)
  /\ (forall q q', q ∈ done_ -> q' ∈ url_categorization_queue w' -> q_ts q <= q_ts q').
Proof.
  intros Hw He. destruct (run_drains es w a Hw He) as (w' & a' & shots & d & r & E & [Hs Hr Hl Hd Ho Ht] & Hn & Hq).
  exists w', a', shots, d. split; [done|]. rewrite Hr. do 5 (split; [done|]). intros q q' H1 H2. apply Hq; [done|]. by rewrite <- Hr.
Qed.
End worker.

(** ** The queue's invariant, and what recalculation leaves as it was *)

Lemma enqueue_unique w q : NoDup (queue_ids w) -> NoDup (queue_ids (enqueue w q)).
Proof.
  intros Hn. unfold enqueue. destruct (existsb _ _) eqn:E; [done|]. unfold queue_ids in *. cbn [with_queue url_categorization_queue]. rewrite fmap_app.
  apply NoDup_app. split; [done|]. split; [|apply NoDup_singleton]. intros x Hx ->%list_elem_of_singleton. apply list_elem_of_fmap in Hx as (y & Hy & Hin).
  assert (existsb (fun x => q_visit x =? q_visit q) (url_categorization_queue w) = true) as Ht; [|congruence].
  apply existsb_exists. exists y. split; [by apply list_elem_of_In|by apply Z.eqb_eq].
Qed.
Lemma dequeue_unique w v : NoDup (queue_ids w) -> NoDup (queue_ids (dequeue w v)).
Proof. intros Hn. eapply sublist_NoDup; [exact Hn|]. apply fmap_sublist, filter_sublist. Qed.
(** A visit is queued only if it was, or if it has no entry in [url_visit_category]. *)
Lemma enqueue_all_spec vs : forall w w' n, enqueue_all w vs = (w', n) ->
  (NoDup (queue_ids w) -> NoDup (queue_ids w'))
  /\ (forall q, q ∈ url_categorization_queue w' -> q ∈ url_categorization_queue w \/ exists v, v ∈ vs /\ q_visit q = v_id v)
  /\ n = Z.of_nat (length (url_categorization_queue w')) - Z.of_nat (length (url_categorization_queue w)).
Proof.
  induction vs as [|v vs IH]; intros w w' n; cbn [enqueue_all]; [intros [= <- <-]; split; [done|split; [by left|lia]]|]. cbv zeta.
  set (q0 := {| q_visit := _ |}). destruct (enqueue_all (enqueue w q0) vs) as [w2 k] eqn:E. intros [= <- <-]. apply IH in E as (H1 & H2 & H3).
  split; [intros Hn; by apply H1, enqueue_unique|]. split.
  - intros q Hq. apply H2 in Hq as [Hq|(v' & Hv & Hq)]; [|right; exists v'; split; [by right|done]].
    unfold enqueue in Hq. destruct (existsb _ _); [by left|]. cbn [with_queue url_categorization_queue] in Hq.
    apply elem_of_app in Hq as [Hq| ->%list_elem_of_singleton]; [by left|]. right. exists v. split; [by left|done].
  - rewrite H3. unfold enqueue. cbn [q0 q_visit]. destruct (existsb _ _); cbn [with_queue url_categorization_queue]; [lia|]. rewrite length_app. cbn [length]. lia.
Qed.

Section recalculation.
Context `{SqlRows} (url_parse : string -> option ParsedUrl) (domain_to_ascii : string -> option string) (to_lowercase : string -> string).

(** What [recalc_url_visits] adds to the queue was never categorized: a visit found uncategorized once keeps the
    entry that says so, and is not looked at again, whatever rules were added since. *)
Lemma uncategorized_visits_are_not_requeued w admin limit ok w' r :
  recalc_url_visits w admin limit ok = (w', r) ->
  (NoDup (queue_ids w) -> NoDup (queue_ids w'))
  /\ forall q, q ∈ url_categorization_queue w' -> q ∈ url_categorization_queue w \/ url_visit_category w !! q_visit q = None.
Proof.
  unfold recalc_url_visits. destruct admin; [|intros [= <- _]; split; [done|by left]].
  destruct (enqueue_url_categorization_backfill _ _ _ _) as [w1 n] eqn:E. intros [= <- _]. revert E. unfold enqueue_url_categorization_backfill.
  repeat (destruct (negb _); [intros [= <- _]; split; [done|by left]|]). cbv zeta. set (vs := take _ _).
  destruct (enqueue_all w vs) as [w2 k] eqn:E. intros [= <- _]. apply enqueue_all_spec in E as (H1 & H2 & _). split; [exact H1|].
  intros q [Hq|(v & Hv & Hq)]%H2; [by left|right]. rewrite Hq. unfold vs in Hv.
  assert (v ∈ sort_by v_ts (List.filter (uncategorized w) (url_visits w))) as Hs.
  { rewrite <- (take_drop (Z.to_nat (Z.max (clampZ 1 500000 limit) 0))). apply elem_of_app. by left. }
  rewrite sort_by_perm in Hs. apply list_elem_of_In, filter_In in Hs as [_ Hs]. unfold uncategorized in Hs. by destruct (url_visit_category w !! v_id v).
Qed.

Record same_aggregates (w w' : Web) : Prop := {
  sa_site : url_site_stats w' = url_site_stats w;
  sa_category : url_category_time_stats w' = url_category_time_stats w;
  sa_top : url_top_stats w' = url_top_stats w;
  sa_stats : url_category_stats w' = url_category_stats w
}.
Lemma recategorize_each_spec rows : forall w looked wrote i w' n,
  recategorize_each url_parse domain_to_ascii to_lowercase w rows looked wrote i = (w', n) ->
  same_aggregates w w' /\ s_id <$> url_sessions w' = s_id <$> url_sessions w.
Proof.
  induction rows as [|s rows IH]; intros w looked wrote i w' n; cbn [recategorize_each]; [by intros [= <- _]|].
  destruct (categorize_url_now _ _ _ _ _ _ _) as [cat|]; [|by intros [= <- _]]. destruct (negb _); [by intros [= <- _]|].
  unfold set_session_category. cbv zeta. set (w1 := with_sessions w _ _). destruct (recategorize_each _ _ _ w1 rows _ _ _) as [w2 k] eqn:E. intros [= <- _].
  apply IH in E as [[H1 H2 H3 H4] H5]. split; [by split; rewrite ?H1, ?H2, ?H3, ?H4|]. rewrite H5. unfold w1. cbn [with_sessions url_sessions].
  rewrite <- list_fmap_compose. apply list_fmap_ext. intros _ x _. cbn. by destruct (s_id x =? s_id s).
Qed.
(** [recategorize_recent_sessions] changes the category of sessions but no aggregate. *)
Lemma recategorization_leaves_aggregates w limit read looked wrote w' n :
  recategorize_recent_sessions url_parse domain_to_ascii to_lowercase w limit read looked wrote = (w', n) -> same_aggregates w w'.
Proof.
  unfold recategorize_recent_sessions. destruct read; [|by intros [= <- _]]. intros E. by apply recategorize_each_spec in E as [E _].
Qed.
End recalculation.

(** ** Examples *)

Fixpoint before_slash (s : string) : string :=
  match s with EmptyString => EmptyString | String c r => if Ascii.eqb c "/" then EmptyString else String c (before_slash r) end.
(** A parser for absolute https URLs, which keeps their text. *)
Definition ex_url_parse (s : string) : option ParsedUrl :=
  if String.prefix "https://" s then Some {| pu_host := Some (before_slash (String.substring 8 (String.length s) s)); pu_text := s |} else None.
Definition ex_timestamp (s : Z) : option Z := Some (s * 1000000).
Definition ex_settings : Settings := {| st_enabled := true; st_auto_update := false; st_source_url := "https://lists"; st_last_update_at := None; st_last_update_error := None |}.
Definition ex_job : Job := {| jb_state := "idle"; jb_started_at := None; jb_updated_at := 0; jb_bytes_total := None; jb_bytes_done := 0; jb_message := None |}.
Definition ex_lists : Lists := {|
  url_categories := {[ 1 := {| cat_key := "news"; cat_enabled := true |}; 2 := {| cat_key := "games"; cat_enabled := true |} ]}; next_category := 3; url_category_labels := ∅;
  url_category_domain_entries := {[ (1, "example.com"%string); (2, "play.example.org"%string) ]}; url_category_url_entries := {[ (2, "https://b.net/play"%string) ]};
  url_categorization_release := []; next_release := 1;
  url_category_overrides_domain := [{| ov_id := 1; ov_category := 2; ov_value := "games.example.com"; ov_note := ""; ov_created := 0 |}]; url_category_overrides_url := [];
  next_override := 2; url_custom_categories := ∅; next_custom := 1; url_custom_category_members := ∅;
  url_categorization_settings := ex_settings; url_categorization_job := ex_job |}.
Definition ex_web : Web := {|
  url_visits := []; next_visit := 1; url_top_stats := ∅; url_categorization_queue := []; url_visit_category := ∅; url_category_stats := ∅;
  url_sessions := []; next_session := 1; url_site_stats := ∅; url_category_time_stats := ∅; lists := ex_lists |}.
Definition ex_categorize (hostname url : string) : option (option (Z * string)) :=
  @categorize_url_now first_rows ex_url_parse Some to_ascii_lowercase ex_lists hostname url (fun _ => true).

Lemma categorization_follows_rules_witness :
  ex_categorize "www.games.example.com" "https://www.games.example.com/a" = Some (Some (2, "games"%string))
  /\ ex_categorize "www.example.com" "https://www.example.com/a" = Some (Some (1, "news"%string))
  /\ ex_categorize "notexample.com" "https://notexample.com/a" = Some None
  /\ ex_categorize "b.net" "https://b.net/play/1" = Some (Some (2, "games"%string))
  /\ exists t, @rule_applies ex_lists t "www.games.example.com" "https://www.games.example.com/a" 2 "games".
Proof.
  do 4 (split; [by vm_compute|]).
  assert (labelled "www.games.example.com") as Hl by (vm_compute; by repeat (apply Forall_cons; split)).
  destruct (@categorization_follows_rules first_rows ex_url_parse Some to_ascii_lowercase ex_lists "www.games.example.com" "https://www.games.example.com/a" (fun _ => true)
              (or_intror Hl)) as ((r & Hr & Hd & _) & _).
  assert (r = Some (2, "games"%string)) as -> by (enough (Some r = Some (Some (2, "games"%string))) as [=] by done; rewrite <- Hr; by vm_compute).
  destruct Hd as (t & Ht & _). exists t. exact Ht.
Defined.

Definition ex_visit_frame (u : string) (ts : Z) : json := mk_obj [("type", JStr "url"); ("url", JStr u); ("ts", JInt ts)]%string.
Definition ex_session_frame (u : string) (ms : Z) : json :=
  mk_obj [("type", JStr "url_session"); ("url", JStr u); ("started_at_ts", JInt 10); ("ended_at_ts", JInt 20); ("duration_ms", JInt ms)]%string.
Definition ex_all_ok (i : nat) : bool := true.
Definition ex_frames : list Frame :=
  [VisitFrame 7%N (ex_visit_frame "https://www.example.com/a" 5) 0 ex_all_ok; VisitFrame 7%N (ex_visit_frame "https://www.example.com/a" 6) 0 ex_all_ok;
   VisitFrame 7%N (ex_visit_frame "exam" 7) 0 ex_all_ok; VisitFrame 7%N (ex_visit_frame "https://play.example.org/" 8) 0 ex_all_ok;
   SessionFrame 7%N (ex_session_frame "https://www.example.com/a" 900) 0 0 ex_all_ok ex_all_ok; SessionFrame 7%N (ex_session_frame "https://www.example.com/b" 100) 0 0 ex_all_ok ex_all_ok].
Definition ex_ingested : Web * list bool := @ingest_all first_rows ex_url_parse Some to_ascii_lowercase ex_timestamp ex_web ex_frames.
Lemma ex_web_exact : aggregates eq ex_web.
Proof. by split. Qed.
Lemma aggregates_follow_rows_witness :
  ex_ingested.2 = [true; true; true; true; true; true] /\ length (url_visits ex_ingested.1) = 2%nat
  /\ time_at (url_site_stats ex_ingested.1) (7%N, "www.example.com"%string) = (1000, 2) /\ aggregates eq ex_ingested.1.
Proof.
  split; [by vm_compute|]. split; [by vm_compute|]. split; [by vm_compute|].
  apply (proj2 (@aggregates_follow_rows first_rows ex_url_parse Some to_ascii_lowercase ex_timestamp ex_frames ex_web ex_ingested.1 ex_ingested.2 (surjective_pairing _))).
  - exact ex_web_exact.
  - vm_compute. by repeat (apply Forall_cons; split).
Defined.

Definition ex_no_regex (ci : bool) (p s : string) : option bool := None.
Definition ex_fire (i : nat) : FireEnv := {| fe_now := 0; fe_ts := 0; fe_at := ""; fe_base := None; fe_insert := true |}.
Definition ex_row_env (wrote : nat -> bool) : RowEnv := {| re_looked := ex_all_ok; re_wrote := wrote; re_name := None; re_loaded := true; re_fire := ex_fire |}.
Definition ex_turn (wrote : nat -> bool) : TurnEnv := {| tn_settings := true; tn_read := true; tn_rows := fun _ => ex_row_env wrote |}.
Definition ex_run (w : Web) (es : list TurnEnv) : Web :=
  (@worker_run first_rows bin_uuid ex_url_parse Some to_ascii_lowercase ex_no_regex w Alerts_empty es).1.1.
Lemma worker_drains_queue_witness :
  length (url_categorization_queue ex_ingested.1) = 2%nat
  /\ url_categorization_queue (ex_run ex_ingested.1 [ex_turn ex_all_ok]) = []
  /\ count_at (url_category_stats (ex_run ex_ingested.1 [ex_turn ex_all_ok])) (7%N, 2) = 1.
Proof.
  split; [by vm_compute|].
  destruct (@worker_drains_queue first_rows bin_uuid ex_url_parse Some to_ascii_lowercase ex_no_regex ex_ingested.1 Alerts_empty [ex_turn ex_all_ok])
    as (w' & a' & shots & d & E & _ & Hn & _).
  - split; [vm_compute; apply NoDup_cons; split; [|apply NoDup_singleton]; by intros Hx%list_elem_of_singleton|by vm_compute|].
    intros k. assert (url_category_stats ex_ingested.1 = ∅) as -> by by vm_compute. unfold count_at. rewrite lookup_empty. by vm_compute.
  - apply Forall_cons. split; [|done]. by split.
  - unfold ex_run. rewrite E. split; [|rewrite <- (f_equal (fun x => x.1.1) E : _ = w'); by vm_compute].
    apply (f_equal Nat.eqb) in Hn. destruct (url_categorization_queue w') eqn:Eq; [done|]. exfalso.
    apply (f_equal (fun f => f 0%nat)) in Hn. revert Hn. by vm_compute.
Defined.

(** A visit whose removal from the queue fails is counted again on the next turn. *)
Lemma failed_dequeue_counts_twice :
  let w := ex_run ex_ingested.1 [ex_turn (fun i => negb (Nat.eqb i 2)); ex_turn ex_all_ok] in
  url_categorization_queue w = [] /\ length (url_visits w) = 2%nat /\ count_at (url_category_stats w) (7%N, 1) = 2.
Proof. by vm_compute. Qed.
(** An underscore in a URL rule stands for any character. *)
Lemma underscore_in_url_rule_is_a_wildcard :
  prefix_of_url "https://example.com/my-page" "https://example.com/my_page" = true
  /\ String.prefix "https://example.com/my_page" "https://example.com/my-page" = false.
Proof. by vm_compute. Qed.
