(* ===== verification/UrlCategories.v ===== *)
(** The administration of URL categories ([server/src/web_activity/url_categorization/]): settings and the
    job that downloads and imports the lists ([engine.rs], [db/lists.rs], [db/settings.rs]), enabling and
    labelling categories ([api.rs], [db/categories.rs]), overrides ([overrides.rs], [db/overrides.rs]), the
    custom categories that group them ([custom.rs], [db/custom.rs]), and the reports that show time by
    category ([web_activity/db.rs]). The tables and lookups are [WebActivity]'s. A transaction is one step
    with whether it committed. *)
From stdpp Require Import sorting.
From S2P Require Import Ingest Keyframes WebActivity.
From S2P Require Import Prelude Text Json Protocol Sql.

Definition with_categories (l : Lists) (x : gmap Z Category) (next : Z) : Lists :=
  {| url_categories := x; next_category := next; url_category_labels := url_category_labels l;
     url_category_domain_entries := url_category_domain_entries l; url_category_url_entries := url_category_url_entries l;
     url_categorization_release := url_categorization_release l; next_release := next_release l;
     url_category_overrides_domain := url_category_overrides_domain l; url_category_overrides_url := url_category_overrides_url l;
     next_override := next_override l; url_custom_categories := url_custom_categories l; next_custom := next_custom l;
     url_custom_category_members := url_custom_category_members l; url_categorization_settings := url_categorization_settings l;
     url_categorization_job := url_categorization_job l |}.
Definition with_labels (l : Lists) (x : gmap string (string * string)) : Lists :=
  {| url_categories := url_categories l; next_category := next_category l; url_category_labels := x;
     url_category_domain_entries := url_category_domain_entries l; url_category_url_entries := url_category_url_entries l;
     url_categorization_release := url_categorization_release l; next_release := next_release l;
     url_category_overrides_domain := url_category_overrides_domain l; url_category_overrides_url := url_category_overrides_url l;
     next_override := next_override l; url_custom_categories := url_custom_categories l; next_custom := next_custom l;
     url_custom_category_members := url_custom_category_members l; url_categorization_settings := url_categorization_settings l;
     url_categorization_job := url_categorization_job l |}.
Definition with_entries (l : Lists) (d u : gset (Z * string)) : Lists :=
  {| url_categories := url_categories l; next_category := next_category l; url_category_labels := url_category_labels l;
     url_category_domain_entries := d; url_category_url_entries := u; url_categorization_release := url_categorization_release l;
     next_release := next_release l; url_category_overrides_domain := url_category_overrides_domain l;
     url_category_overrides_url := url_category_overrides_url l; next_override := next_override l; url_custom_categories := url_custom_categories l;
     next_custom := next_custom l; url_custom_category_members := url_custom_category_members l;
     url_categorization_settings := url_categorization_settings l; url_categorization_job := url_categorization_job l |}.
Definition with_releases (l : Lists) (x : list Release) (next : Z) : Lists :=
  {| url_categories := url_categories l; next_category := next_category l; url_category_labels := url_category_labels l;
     url_category_domain_entries := url_category_domain_entries l; url_category_url_entries := url_category_url_entries l;
     url_categorization_release := x; next_release := next; url_category_overrides_domain := url_category_overrides_domain l;
     url_category_overrides_url := url_category_overrides_url l; next_override := next_override l; url_custom_categories := url_custom_categories l;
     next_custom := next_custom l; url_custom_category_members := url_custom_category_members l;
     url_categorization_settings := url_categorization_settings l; url_categorization_job := url_categorization_job l |}.
Definition with_overrides (l : Lists) (d u : list Override) (next : Z) : Lists :=
  {| url_categories := url_categories l; next_category := next_category l; url_category_labels := url_category_labels l;
     url_category_domain_entries := url_category_domain_entries l; url_category_url_entries := url_category_url_entries l;
     url_categorization_release := url_categorization_release l; next_release := next_release l; url_category_overrides_domain := d;
     url_category_overrides_url := u; next_override := next; url_custom_categories := url_custom_categories l; next_custom := next_custom l;
     url_custom_category_members := url_custom_category_members l; url_categorization_settings := url_categorization_settings l;
     url_categorization_job := url_categorization_job l |}.
Definition with_customs (l : Lists) (x : gmap Z CustomCategory) (next : Z) : Lists :=
  {| url_categories := url_categories l; next_category := next_category l; url_category_labels := url_category_labels l;
     url_category_domain_entries := url_category_domain_entries l; url_category_url_entries := url_category_url_entries l;
     url_categorization_release := url_categorization_release l; next_release := next_release l;
     url_category_overrides_domain := url_category_overrides_domain l; url_category_overrides_url := url_category_overrides_url l;
     next_override := next_override l; url_custom_categories := x; next_custom := next; url_custom_category_members := url_custom_category_members l;
     url_categorization_settings := url_categorization_settings l; url_categorization_job := url_categorization_job l |}.
Definition with_members (l : Lists) (x : gmap string Z) : Lists :=
  {| url_categories := url_categories l; next_category := next_category l; url_category_labels := url_category_labels l;
     url_category_domain_entries := url_category_domain_entries l; url_category_url_entries := url_category_url_entries l;
     url_categorization_release := url_categorization_release l; next_release := next_release l;
     url_category_overrides_domain := url_category_overrides_domain l; url_category_overrides_url := url_category_overrides_url l;
     next_override := next_override l; url_custom_categories := url_custom_categories l; next_custom := next_custom l; url_custom_category_members := x;
     url_categorization_settings := url_categorization_settings l; url_categorization_job := url_categorization_job l |}.
Definition with_settings (l : Lists) (x : Settings) : Lists :=
  {| url_categories := url_categories l; next_category := next_category l; url_category_labels := url_category_labels l;
     url_category_domain_entries := url_category_domain_entries l; url_category_url_entries := url_category_url_entries l;
     url_categorization_release := url_categorization_release l; next_release := next_release l;
     url_category_overrides_domain := url_category_overrides_domain l; url_category_overrides_url := url_category_overrides_url l;
     next_override := next_override l; url_custom_categories := url_custom_categories l; next_custom := next_custom l;
     url_custom_category_members := url_custom_category_members l; url_categorization_settings := x; url_categorization_job := url_categorization_job l |}.
Definition with_job (l : Lists) (x : Job) : Lists :=
  {| url_categories := url_categories l; next_category := next_category l; url_category_labels := url_category_labels l;
     url_category_domain_entries := url_category_domain_entries l; url_category_url_entries := url_category_url_entries l;
     url_categorization_release := url_categorization_release l; next_release := next_release l;
     url_category_overrides_domain := url_category_overrides_domain l; url_category_overrides_url := url_category_overrides_url l;
     next_override := next_override l; url_custom_categories := url_custom_categories l; next_custom := next_custom l;
     url_custom_category_members := url_custom_category_members l; url_categorization_settings := url_categorization_settings l;
     url_categorization_job := x |}.

Inductive AdminError : Type := Bad (msg : string) | NotFound | Conflict | Internal.

(** ** Settings and the job's row: [db/settings.rs] *)

Definition set_settings (l : Lists) (enabled auto_update : bool) (source_url : string) : Lists :=
  let s := url_categorization_settings l in
  with_settings l {| st_enabled := enabled; st_auto_update := auto_update; st_source_url := source_url;
                     st_last_update_at := st_last_update_at s; st_last_update_error := st_last_update_error s |}.
Definition record_update_ok (l : Lists) (now : Z) : Lists :=
  let s := url_categorization_settings l in
  with_settings l {| st_enabled := st_enabled s; st_auto_update := st_auto_update s; st_source_url := st_source_url s;
                     st_last_update_at := Some now; st_last_update_error := None |}.
Definition record_update_err (l : Lists) (err : string) : Lists :=
  let s := url_categorization_settings l in
  with_settings l {| st_enabled := st_enabled s; st_auto_update := st_auto_update s; st_source_url := st_source_url s;
                     st_last_update_at := st_last_update_at s; st_last_update_error := Some err |}.
Definition job_set (l : Lists) (now : Z) (state : string) (bytes_done : Z) (bytes_total : option Z) (message : option string) : Lists :=
  with_job l {| jb_state := state; jb_started_at := Some (default now (jb_started_at (url_categorization_job l))); jb_updated_at := now;
                jb_bytes_total := bytes_total; jb_bytes_done := Z.max bytes_done 0; jb_message := message |}.
Definition job_reset (l : Lists) (now : Z) : Lists :=
  with_job l {| jb_state := "idle"; jb_started_at := None; jb_updated_at := now; jb_bytes_total := None; jb_bytes_done := 0; jb_message := None |}.
(** [put_settings]; [ok]: whether the update succeeded. *)
Definition put_settings (l : Lists) (enabled auto_update : bool) (source_url : string) (ok : bool) : Lists * result unit AdminError :=
  let source_url := trim source_url in
  if String.eqb source_url "" then (l, Err (Bad "source_url is required"))
  else if ok then (set_settings l enabled auto_update source_url, Ok tt) else (l, Err Internal).

Section admin.
Context `{SqlRows} (url_parse : string -> option ParsedUrl) (domain_to_ascii : string -> option string) (to_lowercase : string -> string).
Abbreviation hostname_text := (normalize_hostname domain_to_ascii to_lowercase).

(** ** Importing a release: [import_from_targz_bytes], [db/lists.rs] *)

Definition LF : ascii := ascii_of_N 10.
Definition CR : ascii := ascii_of_N 13.
(** [str::lines]. *)
Definition lines (s : string) : list string :=
  let parts := split_on LF s in
  let parts := match rev parts with EmptyString :: r => rev r | _ => parts end in
  (fun x => default x (strip_last CR x)) <$> parts.
Definition list_line (t : string) : bool := negb (String.eqb t "" || starts_with_char "#" t).
Definition domains_of (s : string) : list string :=
  List.filter (fun d => negb (String.eqb d "")) (hostname_text <$> List.filter list_line (trim <$> lines s)).
Definition list_url (t : string) : string :=
  match url_parse t with
  | Some u => pu_text u
  | None => if String.prefix "http://" t || String.prefix "https://" t then t else ("https://" ++ t)%string
  end.
Definition urls_of (s : string) : list string := list_url <$> List.filter list_line (trim <$> lines s).
(** Category to entries, as a hash map collects them. *)
Abbreviation Parsed := (gmap string (list string)) (only parsing).
Definition extend (m : Parsed) (k : string) (l : list string) : Parsed := <[k := default [] (m !! k) ++ l]> m.
(** [.../blacklists/<category>/(domains|urls)]. *)
Definition entry_place (path : string) : option (string * bool) :=
  let parts := split_on "/" path in
  i ← position (String.eqb "blacklists") parts;
  category ← parts !! S i; leaf ← parts !! S (S i);
  if String.eqb category "" then None
  else if String.eqb leaf "domains" then Some (category, true)
  else if String.eqb leaf "urls" then Some (category, false) else None.
(** A file of the archive: its path, and its text if it is UTF-8. *)
Definition parse_entry (acc : Parsed * Parsed) (e : string * option string) : Parsed * Parsed :=
  match entry_place e.1 with
  | None => acc
  | Some (category, domains) =>
      let s := default ""%string e.2 in
      if String.eqb (trim s) "" then acc
      else if domains then (extend acc.1 category (domains_of s), acc.2) else (acc.1, extend acc.2 category (urls_of s))
  end.
Definition parse_archive (entries : list (string * option string)) : Parsed * Parsed := foldl parse_entry (∅, ∅) entries.

Definition insert_release (l : Lists) (sha256 : string) : Lists * Z :=
  (with_releases l (url_categorization_release l ++ [{| re_id := next_release l; re_sha256 := sha256; re_active := false |}]) (next_release l + 1), next_release l).
Definition category_id_by_key (l : Lists) (key : string) : option Z :=
  fst <$> List.find (fun c => String.eqb (cat_key c.2) key) (map_to_list (url_categories l)).
(** "INSERT .. ON CONFLICT (key)": a sequence value is drawn either way. *)
Definition ensure_category (l : Lists) (key : string) : Lists :=
  match category_id_by_key l key with
  | Some _ => with_categories l (url_categories l) (next_category l + 1)
  | None => with_categories l (<[next_category l := {| cat_key := key; cat_enabled := true |}]> (url_categories l)) (next_category l + 1)
  end.
Definition rows_of (l : Lists) (kv : string * list string) : list (Z * string) :=
  match category_id_by_key l kv.1 with Some id => (fun d => (id, d)) <$> kv.2 | None => [] end.
Definition entry_rows (l : Lists) (m : Parsed) : gset (Z * string) := list_to_set (concat (rows_of l <$> map_to_list m)).
Definition activate (id : Z) (r : Release) : Release := {| re_id := re_id r; re_sha256 := re_sha256 r; re_active := re_id r =? id |}.
(** [keys]: the order in which the categories are visited. *)
Definition activate_release (l : Lists) (release_id : Z) (domains urls : Parsed) (keys : list string) (committed : bool) : option Lists :=
  if committed then
    let l := foldl ensure_category l keys in
    let l := with_entries l (entry_rows l domains) (entry_rows l urls) in
    Some (with_releases l (activate release_id <$> url_categorization_release l) (next_release l))
  else None.

(** The job: [spawn_update_job]. What happens to it, in order: the answer to the request with the length it
    announces; the chunks, each with whether the progress is due and could be written; the digest and the
    files of the archive ([None]: not a gzip or tar file); the order of the new categories; the database. *)
Record Download := {
  dl_response : result (option Z) string; dl_chunks : list (Z * bool); dl_stream_error : option string; dl_sha256 : string;
  dl_archive : result (list (string * option string)) string; dl_keys : list string -> list string
}.
Record JobDb := { jd_read : bool; jd_reset : bool; jd_start : bool; jd_importing : bool; jd_release : bool; jd_commit : bool; jd_ok : bool; jd_ready : bool; jd_err : bool; jd_error : bool }.
(** How it ends: by itself, by the thirty minutes' limit or a panic, or with the server's process. *)
Inductive JobStop : Type := RunsOut | TimedOut | Panicked | Killed.
Definition when (ok : bool) (l l' : Lists) : Lists := if ok then l' else l.
Definition i64_saturating_add (a b : Z) : Z := Z.min i64_max (a + b).
Fixpoint download_states (l : Lists) (now : Z) (total : option Z) (done_ : Z) (chunks : list (Z * bool)) : list Lists * Z :=
  match chunks with
  | [] => ([], done_)
  | (n, report) :: chunks =>
      let done_ := i64_saturating_add done_ n in
      let l := when report l (job_set l now "downloading" done_ total None) in
      let '(ls, d) := download_states l now total done_ chunks in (l :: ls, d)
  end.
Definition parsed_keys (p : Parsed * Parsed) : list string := remove_dups ((map_to_list p.1).*1 ++ (map_to_list p.2).*1).
Definition import_from_targz_bytes (l : Lists) (d : Download) (db : JobDb) : list Lists * result unit string :=
  if negb (jd_release db) then ([], Err "database error"%string)
  else
    let '(l, id) := insert_release l (dl_sha256 d) in
    match dl_archive d with
    | Err e => ([l], Err e)
    | Ok entries =>
        let p := parse_archive entries in
        match activate_release l id p.1 p.2 (dl_keys d (parsed_keys p)) (jd_commit db) with
        | None => ([l], Err "database error"%string)
        | Some l' => ([l; l'], Ok tt)
        end
    end.
(** The states the job goes through, one after each thing it writes, and its result. *)
Definition job_block (l : Lists) (d : Download) (now : Z) (db : JobDb) : list Lists * result unit string :=
  match dl_response d with
  | Err e => ([], Err e)
  | Ok total =>
      let '(ls, done_) := download_states l now total 0 (dl_chunks d) in
      let l := default l (last ls) in
      match dl_stream_error d with
      | Some e => (ls, Err e)
      | None =>
          let l := when (jd_importing db) l (job_set l now "importing" done_ total (Some "Importing lists"%string)) in
          let '(is_, r) := import_from_targz_bytes l d db in
          let ls := ls ++ l :: is_ in
          let l := default l (last is_) in
          match r with
          | Err e => (ls, Err e)
          | Ok _ =>
              if negb (jd_ok db) then (ls, Err "database error"%string)
              else
                let l := record_update_ok l now in
                let l' := when (jd_ready db) l (job_set l now "ready" done_ total (Some "Ready"%string)) in
                (ls ++ [l; l'], Ok tt)
          end
      end
  end.
Definition busy (state : string) : bool := String.eqb state "downloading" || String.eqb state "importing".
(** [stop]: what ended the job and after how many of its writes. *)
Definition update_job (l : Lists) (d : Download) (now : Z) (db : JobDb) (stop : JobStop) (after : nat) : Lists :=
  if jd_read db && busy (jb_state (url_categorization_job l)) then l
  else
    let l := when (jd_reset db) l (job_reset l now) in
    let l := when (jd_start db) l (job_set l now "downloading" 0 None (Some "Starting download"%string)) in
    let '(ls, r) := job_block l d now db in
    let failed l msg :=
      let l := when (jd_err db) l (record_update_err l msg) in
      when (jd_error db) l (job_set l now "error" 0 None (Some msg)) in
    match stop with
    | RunsOut => let l := default l (last ls) in match r with Ok _ => l | Err e => failed l e end
    | TimedOut => failed (default l (last (take after ls))) "update job timed out"%string
    | Panicked => failed (default l (last (take after ls))) "update job panicked"%string
    | Killed => default l (last (take after ls))
    end.
(** A turn of the automatic update, every six hours. *)
Definition auto_update_turn (l : Lists) (read : bool) (d : Download) (now : Z) (db : JobDb) (stop : JobStop) (after : nat) : Lists :=
  if read && st_enabled (url_categorization_settings l) && st_auto_update (url_categorization_settings l) then update_job l d now db stop after else l.
Definition post_update_now (l : Lists) (read : bool) (d : Download) (now : Z) (db : JobDb) (stop : JobStop) (after : nat) : Lists * result unit AdminError :=
  if read then (update_job l d now db stop after, Ok tt) else (l, Err Internal).

(** ** Categories: [api.rs], [db/categories.rs] *)

Record CategoryUpdate := { up_key : string; up_enabled : bool; up_label : option string; up_description : string }.
Record PutCategoryRow := { pc_key : string; pc_enabled : bool; pc_label : option string; pc_description : option string }.
Definition category_update (c : PutCategoryRow) : option CategoryUpdate :=
  let key := trim (pc_key c) in
  if String.eqb key "" then None
  else Some {| up_key := key; up_enabled := pc_enabled c; up_label := ofilter (fun s => negb (String.eqb s "")) (trim <$> pc_label c);
               up_description := trim (default ""%string (pc_description c)) |}.
Definition set_category (l : Lists) (u : CategoryUpdate) : Lists :=
  let l := with_categories l ((fun c => if String.eqb (cat_key c) (up_key u) then {| cat_key := cat_key c; cat_enabled := up_enabled u |} else c) <$> url_categories l)
             (next_category l) in
  match up_label u with Some label => with_labels l (<[up_key u := (label, up_description u)]> (url_category_labels l)) | None => l end.
Definition put_categories (l : Lists) (cs : list PutCategoryRow) (committed : bool) : Lists * result unit AdminError :=
  if (512 <? length cs)%nat then (l, Err (Bad "at most 512 categories per request"))
  else if committed then (foldl set_category l (omap category_update cs), Ok tt) else (l, Err Internal).

(** ** Overrides: [overrides.rs], [db/overrides.rs] *)

Inductive OverrideTarget : Type := Domain (domain : string) | UrlPrefix (url_prefix : string).
(** The outcome of the write: a lock timeout is told apart. *)
Inductive WriteOutcome : Type := Committed | LockTimeout | WriteFailed.
Definition upsert_row (rows : list Override) (id now category : Z) (value note : string) : list Override :=
  if existsb (fun o => String.eqb (ov_value o) value) rows
  then (fun o => if String.eqb (ov_value o) value
                 then {| ov_id := ov_id o; ov_category := category; ov_value := value; ov_note := note; ov_created := ov_created o |} else o) <$> rows
  else rows ++ [{| ov_id := id; ov_category := category; ov_value := value; ov_note := note; ov_created := now |}].
Definition upsert_override (l : Lists) (category now : Z) (t : OverrideTarget) (note : string) : Lists :=
  let id := next_override l in
  match t with
  | Domain d => with_overrides l (upsert_row (url_category_overrides_domain l) id now category d note) (url_category_overrides_url l) (id + 1)
  | UrlPrefix u => with_overrides l (url_category_overrides_domain l) (upsert_row (url_category_overrides_url l) id now category u note) (id + 1)
  end.
Definition override_target (kind value : string) : result OverrideTarget AdminError :=
  if String.eqb kind "domain" then
    let d := hostname_text value in
    if String.eqb d "" then Err (Bad "invalid domain") else Ok (Domain d)
  else if String.eqb kind "url" then Ok (UrlPrefix (with_scheme to_lowercase value))
  else Err (Bad "kind must be domain or url").
(** [read]: whether the category could be looked up. *)
Definition add_override (l : Lists) (kind value category_key note : string) (now : Z) (read : bool) (w : WriteOutcome) : Lists * result OverrideTarget AdminError :=
  let kind := trim kind in
  let value := trim value in
  let key := trim category_key in
  if String.eqb value "" || String.eqb key "" then (l, Err (Bad "value and category_key are required"))
  else
    match (if read then category_id_by_key l key else None) with
    | None => (l, Err (Bad "unknown category_key"))
    | Some category =>
        match override_target kind value with
        | Err e => (l, Err e)
        | Ok t =>
            match w with
            | Committed => (upsert_override l category now t (trim note), Ok t)
            | LockTimeout => (l, Err Conflict)
            | WriteFailed => (l, Err Internal)
            end
        end
    end.
Definition without_id (id : Z) (rows : list Override) : list Override := List.filter (fun o => negb (ov_id o =? id)) rows.
Definition delete_override (l : Lists) (kind : string) (id : Z) (ok : bool) : Lists * result unit AdminError :=
  let kind := trim kind in
  if String.eqb kind "domain" then
    if ok then (with_overrides l (without_id id (url_category_overrides_domain l)) (url_category_overrides_url l) (next_override l), Ok tt) else (l, Err Internal)
  else if String.eqb kind "url" then
    if ok then (with_overrides l (url_category_overrides_domain l) (without_id id (url_category_overrides_url l)) (next_override l), Ok tt) else (l, Err Internal)
  else (l, Err (Bad "kind must be domain or url")).

(** ** Custom categories: [custom.rs], [db/custom.rs] *)

Definition custom_key_char (c : ascii) : bool :=
  let n := N_of_ascii c in ((97 <=? n) && (n <=? 122) || (48 <=? n) && (n <=? 57))%N || Ascii.eqb c "_" || Ascii.eqb c "-".
Definition validate_custom_key (key : string) : bool :=
  let k := trim key in negb (String.eqb k "" || (64 <? String.length k)%nat) && all_char custom_key_char k.
Definition label_ok (s : string) : bool := negb (String.eqb s "" || (128 <? String.length s)%nat).
Definition key_taken (l : Lists) (key : string) : bool := existsb (fun c => String.eqb (cu_key c.2) key) (map_to_list (url_custom_categories l)).
Record CreateCustomBody := { cc_key : string; cc_label_en : string; cc_description_en : string; cc_display_order : Z; cc_hidden : bool }.
Record UpdateCustomBody := { uc_label_en : option string; uc_description_en : option string; uc_display_order : option Z; uc_hidden : option bool }.
Definition create_custom_category (l : Lists) (b : CreateCustomBody) (ok : bool) : Lists * result Z AdminError :=
  let key := to_lowercase (trim (cc_key b)) in
  if negb (validate_custom_key key) then (l, Err (Bad "invalid key (use lowercase letters, digits, _ or -)"))
  else
    let label := trim (cc_label_en b) in
    if negb (label_ok label) then (l, Err (Bad "label_en is required (max 128 chars)"))
    else if negb ok || key_taken l key then (l, Err Internal)
    else
      let c := {| cu_key := key; cu_label_en := label; cu_description_en := trim (cc_description_en b); cu_display_order := cc_display_order b; cu_hidden := cc_hidden b |} in
      (with_customs l (<[next_custom l := c]> (url_custom_categories l)) (next_custom l + 1), Ok (next_custom l)).
(** [ok i]: whether the row could be read, and updated. *)
Definition update_custom_category (l : Lists) (id : Z) (b : UpdateCustomBody) (ok : nat -> bool) : Lists * result unit AdminError :=
  if negb (ok 0%nat) then (l, Err Internal)
  else
    match url_custom_categories l !! id with
    | None => (l, Err NotFound)
    | Some cur =>
        let label := default (cu_label_en cur) (ofilter (fun s => negb (String.eqb s "")) (trim <$> uc_label_en b)) in
        if negb (label_ok label) then (l, Err (Bad "label_en must be non-empty (max 128 chars)"))
        else if negb (ok 1%nat) then (l, Err Internal)
        else
          let c := {| cu_key := cu_key cur; cu_label_en := label; cu_description_en := default (cu_description_en cur) (trim <$> uc_description_en b);
                      cu_display_order := default (cu_display_order cur) (uc_display_order b); cu_hidden := default (cu_hidden cur) (uc_hidden b) |} in
          (with_customs l (<[id := c]> (url_custom_categories l)) (next_custom l), Ok tt)
    end.
(** [keys.sort(); keys.dedup()]. *)
Variable sort_keys : list string -> list string.
Definition member_keys (ut1_keys : list string) : list string :=
  sort_keys (remove_dups (List.filter (fun k => negb (String.eqb k "") && (String.length k <=? 128)%nat) (trim <$> ut1_keys))).
Definition known_key (l : Lists) (k : string) : bool := isSome (category_id_by_key l k).
(** "INSERT .. ON CONFLICT DO NOTHING": a key has one group. *)
Definition add_member (id : Z) (m : gmap string Z) (k : string) : gmap string Z := match m !! k with Some _ => m | None => <[k := id]> m end.
Definition replace_members (m : gmap string Z) (id : Z) (keys : list string) : gmap string Z :=
  foldl (add_member id) (filter (fun kv => kv.2 <> id) m) keys.
(** [exists_ok], [known_ok]: whether these could be read; the result is the count answered. *)
Definition put_custom_category_members (l : Lists) (id : Z) (ut1_keys : list string) (exists_ok known_ok committed : bool) : Lists * result nat AdminError :=
  if (4096 <? length ut1_keys)%nat then (l, Err (Bad "too many members (max 4096)"))
  else if negb (exists_ok && isSome (url_custom_categories l !! id)) then (l, Err NotFound)
  else
    let keys := member_keys ut1_keys in
    if known_ok && negb (forallb (known_key l) keys) then (l, Err (Bad "unknown UT1 keys in members"))
    else if committed then (with_members l (replace_members (url_custom_category_members l) id keys), Ok (length keys)) else (l, Err Internal).
(** Its members go with it. *)
Definition delete_custom_category (l : Lists) (id : Z) (ok : bool) : Lists * result unit AdminError :=
  if ok then
    (with_members (with_customs l (delete id (url_custom_categories l)) (next_custom l)) (filter (fun kv => kv.2 <> id) (url_custom_category_members l)), Ok tt)
  else (l, Err Internal).

(** Everything that changes the lists. *)
Inductive ListsOp : Type :=
| PutSettings (enabled auto_update : bool) (source_url : string) (ok : bool)
| UpdateJob (d : Download) (now : Z) (db : JobDb) (stop : JobStop) (after : nat)
| AutoUpdate (read : bool) (d : Download) (now : Z) (db : JobDb) (stop : JobStop) (after : nat)
| PutCategories (cs : list PutCategoryRow) (committed : bool)
| AddOverride (kind value category_key note : string) (now : Z) (read : bool) (w : WriteOutcome)
| DeleteOverride (kind : string) (id : Z) (ok : bool)
| CreateCustom (b : CreateCustomBody) (ok : bool)
| UpdateCustom (id : Z) (b : UpdateCustomBody) (ok : nat -> bool)
| PutMembers (id : Z) (ut1_keys : list string) (exists_ok known_ok committed : bool)
| DeleteCustom (id : Z) (ok : bool).
Definition lists_step (l : Lists) (o : ListsOp) : Lists :=
  match o with
  | PutSettings e a s ok => (put_settings l e a s ok).1
  | UpdateJob d now db stop n => update_job l d now db stop n
  | AutoUpdate read d now db stop n => auto_update_turn l read d now db stop n
  | PutCategories cs ok => (put_categories l cs ok).1
  | AddOverride k v c n now read w => (add_override l k v c n now read w).1
  | DeleteOverride k id ok => (delete_override l k id ok).1
  | CreateCustom b ok => (create_custom_category l b ok).1
  | UpdateCustom id b ok => (update_custom_category l id b ok).1
  | PutMembers id ks e k c => (put_custom_category_members l id ks e k c).1
  | DeleteCustom id ok => (delete_custom_category l id ok).1
  end.
End admin.

(** ** Categories by key *)

Record categories_ok (m : gmap Z Category) (next : Z) : Prop := {
  co_ids : forall i c, m !! i = Some c -> i < next;
  co_keys : forall i j c d, m !! i = Some c -> m !! j = Some d -> cat_key c = cat_key d -> i = j
}.
Lemma category_id_Some l key i : category_id_by_key l key = Some i -> exists c, url_categories l !! i = Some c /\ cat_key c = key.
Proof.
  unfold category_id_by_key. destruct (List.find _ _) as [[j c]|] eqn:E; [|done]. intros [= <-]. apply find_some in E as [Hin Hk].
  exists c. split; [by apply elem_of_map_to_list, list_elem_of_In|by apply String.eqb_eq in Hk].
Qed.
Lemma category_id_None l key i c : category_id_by_key l key = None -> url_categories l !! i = Some c -> cat_key c <> key.
Proof.
  unfold category_id_by_key. intros Hn Hc <-. destruct (List.find _ _) eqn:E; [done|]. apply elem_of_map_to_list, list_elem_of_In in Hc.
  pose proof (find_none _ _ E _ Hc) as Hx. cbn in Hx. by rewrite String.eqb_refl in Hx.
Qed.
Lemma category_id_of l i c : categories_ok (url_categories l) (next_category l) -> url_categories l !! i = Some c -> category_id_by_key l (cat_key c) = Some i.
Proof.
  intros Hok Hc. destruct (category_id_by_key l (cat_key c)) as [j|] eqn:E; [|by destruct (category_id_None _ _ _ _ E Hc)].
  apply category_id_Some in E as (d & Hd & Hk). f_equal. by eapply co_keys.
Qed.

Definition cats_ok (l : Lists) : Prop := categories_ok (url_categories l) (next_category l).
(** [l'] has the categories of [l], and possibly new ones that are enabled and named in [keys]; nothing else changed. *)
Record grown (l l' : Lists) (keys : list string) : Prop := {
  gr_old : forall i c, url_categories l !! i = Some c -> url_categories l' !! i = Some c;
  gr_new : forall i c, url_categories l' !! i = Some c -> url_categories l !! i = Some c \/ (cat_enabled c = true /\ cat_key c ∈ keys);
  gr_rest : l' = with_categories l (url_categories l') (next_category l');
  gr_ok : cats_ok l';
  gr_keys : forall k, k ∈ keys -> is_Some (category_id_by_key l' k)
}.
Lemma grown_refl l : cats_ok l -> grown l l [].
Proof. intros Hok. split; [done|by left|by destruct l|done|]. by intros k Hk%not_elem_of_nil. Qed.
Lemma key_kept l l' k : (forall i c, url_categories l !! i = Some c -> url_categories l' !! i = Some c) -> is_Some (category_id_by_key l k) -> is_Some (category_id_by_key l' k).
Proof.
  intros Hold (i & (c & Hc & <-)%category_id_Some). destruct (category_id_by_key l' (cat_key c)) eqn:E; [done|]. by destruct (category_id_None _ _ _ _ E (Hold _ _ Hc)).
Qed.
Lemma ensure_grown l key : cats_ok l -> grown l (ensure_category l key) [key].
Proof.
  intros [H1 H2]. unfold ensure_category. destruct (category_id_by_key l key) as [i|] eqn:E.
  - split; [done|by left|done| |].
    + split; [intros j c Hj; cbn in *; specialize (H1 j c Hj); lia|exact H2].
    + intros k ->%list_elem_of_singleton. apply (key_kept l); [done|]. by rewrite E.
  - set (c0 := {| cat_key := key; cat_enabled := true |}).
    assert (forall i c, url_categories l !! i = Some c -> <[next_category l := c0]> (url_categories l) !! i = Some c) as Hold.
    { intros i c Hc. rewrite lookup_insert_ne; [done|]. specialize (H1 i c Hc). lia. }
    split; cbn [with_categories url_categories next_category]; [exact Hold| |done| |].
    + intros i c [[<- <-]|[Hne Hc]]%lookup_insert_Some; [right; split; [done|by apply list_elem_of_singleton]|by left].
    + split; cbn [with_categories url_categories next_category].
      * intros i c [[<- <-]|[Hne Hc]]%lookup_insert_Some; [lia|]. specialize (H1 i c Hc). lia.
      * intros i j c d [[<- <-]|[Hi Hc]]%lookup_insert_Some [[<- <-]|[Hj Hd]]%lookup_insert_Some Hk; [done| | |by eapply H2].
        -- by destruct (category_id_None _ _ _ _ E Hd).
        -- by destruct (category_id_None _ _ _ _ E Hc).
    + intros k ->%list_elem_of_singleton. destruct (category_id_by_key (with_categories _ _ _) key) eqn:E'; [done|].
      destruct (category_id_None _ _ (next_category l) c0 E'); [|done]. apply lookup_insert_eq.
Qed.
Lemma grown_trans l1 l2 l3 k1 k2 : grown l1 l2 k1 -> grown l2 l3 k2 -> grown l1 l3 (k1 ++ k2).
Proof.
  intros [A1 A2 A3 A4 A5] [B1 B2 B3 B4 B5]. split; [auto| |by rewrite B3, A3|done|].
  - intros i c [Hc|[He Hk]]%B2; [apply A2 in Hc as [Hc|[He Hk]]; [by left|]|]; right; (split; [done|]); apply elem_of_app; auto.
  - intros k [Hk|Hk]%elem_of_app; [|by apply B5]. by apply (key_kept l2), A5.
Qed.
Lemma ensure_all_grown keys : forall l, cats_ok l -> grown l (foldl ensure_category l keys) keys.
Proof.
  induction keys as [|k keys IH]; intros l Hok; [by apply grown_refl|]. pose proof (ensure_grown l k Hok) as G. cbn [foldl].
  exact (grown_trans _ _ _ [k] keys G (IH _ (gr_ok _ _ _ G))).
Qed.

(** ** Entries of a release *)

(** The rows stored for some parsed lists: one for each entry, under its category. *)
Lemma elem_of_entry_rows l (m : gmap string (list string)) c d :
  cats_ok l -> (c, d) ∈ entry_rows l m <-> exists cat ds, url_categories l !! c = Some cat /\ m !! cat_key cat = Some ds /\ d ∈ ds.
Proof.
  intros Hok. unfold entry_rows. rewrite elem_of_list_to_set, elem_of_concat. split.
  - intros (rows & Hr & Hd). apply list_elem_of_fmap in Hr as ([k ds] & -> & Hm%elem_of_map_to_list). unfold rows_of in Hd. cbn [fst snd] in Hd.
    destruct (category_id_by_key l k) as [i|] eqn:E; [|by apply not_elem_of_nil in Hd]. apply list_elem_of_fmap in Hd as (d' & [= -> ->] & Hd).
    apply category_id_Some in E as (cat & Hc & <-). by exists cat, ds.
  - intros (cat & ds & Hc & Hm & Hd). exists ((fun d => (c, d)) <$> ds). split; [|by apply list_elem_of_fmap_2].
    apply list_elem_of_fmap. exists (cat_key cat, ds). split; [|by apply elem_of_map_to_list]. unfold rows_of. cbn [fst snd].
    by rewrite (category_id_of _ _ _ Hok Hc).
Qed.

(** ** The invariant of the lists *)

Definition job_states : list string := ["idle"; "downloading"; "importing"; "ready"; "error"]%string.
Record lists_ok (l : Lists) : Prop := {
  lo_categories : cats_ok l;
  lo_entries : forall c d, (c, d) ∈ url_category_domain_entries l \/ (c, d) ∈ url_category_url_entries l -> is_Some (url_categories l !! c);
  lo_overrides : forall o, o ∈ url_category_overrides_domain l \/ o ∈ url_category_overrides_url l -> is_Some (url_categories l !! ov_category o);
  lo_values : NoDup (ov_value <$> url_category_overrides_domain l) /\ NoDup (ov_value <$> url_category_overrides_url l);
  lo_releases : NoDup (re_id <$> url_categorization_release l) /\ forall r, r ∈ url_categorization_release l -> re_id r < next_release l;
  lo_active : forall r s, r ∈ url_categorization_release l -> s ∈ url_categorization_release l -> re_active r = true -> re_active s = true -> r = s;
  lo_customs : forall i c, url_custom_categories l !! i = Some c -> i < next_custom l /\ validate_custom_key (cu_key c) = true /\ label_ok (cu_label_en c) = true;
  lo_custom_keys : forall i j c d, url_custom_categories l !! i = Some c -> url_custom_categories l !! j = Some d -> cu_key c = cu_key d -> i = j;
  lo_members : forall k i, url_custom_category_members l !! k = Some i -> is_Some (url_custom_categories l !! i);
  lo_job : jb_state (url_categorization_job l) ∈ job_states /\ 0 <= jb_bytes_done (url_categorization_job l);
  lo_source : st_source_url (url_categorization_settings l) <> ""%string
}.
(** The same rules, and the same names and groups: [l'] differs in its settings, job and releases at most. *)
Record same_rules (l l' : Lists) : Prop := {
  sr_categories : url_categories l' = url_categories l;
  sr_domain : url_category_domain_entries l' = url_category_domain_entries l;
  sr_url : url_category_url_entries l' = url_category_url_entries l;
  sr_ov_domain : url_category_overrides_domain l' = url_category_overrides_domain l;
  sr_ov_url : url_category_overrides_url l' = url_category_overrides_url l;
  sr_custom : url_custom_categories l' = url_custom_categories l /\ url_custom_category_members l' = url_custom_category_members l
              /\ url_category_labels l' = url_category_labels l
}.
#[export] Instance same_rules_preorder : PreOrder same_rules.
Proof.
  split; [by intros l; split|]. intros l1 l2 l3 [A1 A2 A3 A4 A5 (A6 & A7 & A8)] [B1 B2 B3 B4 B5 (B6 & B7 & B8)].
  split; [congruence..|]. split; [|split]; congruence.
Qed.

Lemma job_set_ok l now st n t m : st ∈ job_states -> lists_ok l -> lists_ok (job_set l now st n t m) /\ same_rules l (job_set l now st n t m).
Proof. intros Hst [H1 H2 H3 H4 H5 H6 H7 H8 H9 H10 H11]. split; [|done]. split; try done. split; [done|cbn; lia]. Qed.
Lemma job_reset_ok l now : lists_ok l -> lists_ok (job_reset l now) /\ same_rules l (job_reset l now).
Proof. intros [H1 H2 H3 H4 H5 H6 H7 H8 H9 H10 H11]. split; [|done]. split; try done. split; [by left|done]. Qed.
Lemma when_ok b l l' : lists_ok l -> lists_ok l' /\ same_rules l l' -> lists_ok (when b l l') /\ same_rules l (when b l l').
Proof. by destruct b. Qed.
Lemma settings_ok l s : st_source_url s <> ""%string -> lists_ok l -> lists_ok (with_settings l s) /\ same_rules l (with_settings l s).
Proof. intros Hs [H1 H2 H3 H4 H5 H6 H7 H8 H9 H10 H11]. by split. Qed.
Ltac job_state := first [by left|right; job_state].

Section invariant.
Context `{SqlRows} (url_parse : string -> option ParsedUrl) (domain_to_ascii : string -> option string) (to_lowercase : string -> string)
        (sort_keys : list string -> list string).

Lemma insert_release_ok l sha : lists_ok l -> lists_ok (insert_release l sha).1 /\ same_rules l (insert_release l sha).1.
Proof.
  intros [H1 H2 H3 H4 [H5 H5'] H6 H7 H8 H9 H10 H11]. split; [|done]. split; try done; cbn [insert_release fst with_releases url_categorization_release next_release].
  - split.
    + rewrite fmap_app. apply NoDup_app. split; [done|]. split; [|apply NoDup_singleton]. intros i Hi ->%list_elem_of_singleton.
      apply list_elem_of_fmap in Hi as (r & E & Hr). specialize (H5' r Hr). cbn in E. lia.
    + intros r [Hr| ->%list_elem_of_singleton]%elem_of_app; [specialize (H5' r Hr); lia|cbn; lia].
  - intros r s [Hr| ->%list_elem_of_singleton]%elem_of_app [Hs| ->%list_elem_of_singleton]%elem_of_app; try done. by apply H6.
Qed.

(** The lists hold exactly the entries [dom] and [urls] give each category; other categories and everything an
    administrator set stay; the release is there and is the only active one. *)
Record replaced_by (dom urls : string -> string -> Prop) (id : Z) (l l' : Lists) : Prop := {
  rp_old : forall i c, url_categories l !! i = Some c -> url_categories l' !! i = Some c;
  rp_new : forall i c, url_categories l' !! i = Some c -> url_categories l !! i = Some c \/ cat_enabled c = true;
  rp_domain : forall k d, dom k d <-> exists c cat, url_categories l' !! c = Some cat /\ cat_key cat = k /\ (c, d) ∈ url_category_domain_entries l';
  rp_url : forall k d, urls k d <-> exists c cat, url_categories l' !! c = Some cat /\ cat_key cat = k /\ (c, d) ∈ url_category_url_entries l';
  rp_overrides : url_category_overrides_domain l' = url_category_overrides_domain l /\ url_category_overrides_url l' = url_category_overrides_url l;
  rp_custom : url_custom_categories l' = url_custom_categories l /\ url_custom_category_members l' = url_custom_category_members l
              /\ url_category_labels l' = url_category_labels l;
  rp_release : (exists r, r ∈ url_categorization_release l' /\ re_id r = id) /\ forall r, r ∈ url_categorization_release l' -> re_active r = (re_id r =? id)
}.
Definition collected (m : gmap string (list string)) (k d : string) : Prop := exists ds, m !! k = Some ds /\ d ∈ ds.
Definition leaf_name (domains : bool) : string := if domains then "domains" else "urls".
(** An entry of a category, read off the archive: a line of a file [.../blacklists/<category>/domains] or
    [.../urls], which is text and not blank; the line without the blanks around it, neither empty nor a comment; a domain in its
    normal form unless that is empty, an address as the parser prints it, or, when it does not parse, with
    "https://" before it unless it has a scheme of the web. *)
Definition listed (domains : bool) (entries : list (string * option string)) (category value : string) : Prop :=
  exists path text above below line,
    (path, Some text) ∈ entries
    /\ split_on "/" path = above ++ "blacklists"%string :: category :: leaf_name domains :: below
    /\ ("blacklists"%string ∉ above) /\ category <> ""%string
    /\ trim text <> ""%string /\ line ∈ lines text /\ trim line <> ""%string /\ starts_with_char "#" (trim line) = false
    /\ (if domains then value = normalize_hostname domain_to_ascii to_lowercase (trim line) /\ value <> ""%string
       else match url_parse (trim line) with
            | Some u => value = pu_text u
            | None => value = (if String.prefix "http://" (trim line) || String.prefix "https://" (trim line) then trim line else ("https://" ++ trim line)%string)
            end).

Lemma list_line_spec t : list_line t = true <-> t <> ""%string /\ starts_with_char "#" t = false.
Proof. unfold list_line. rewrite negb_true_iff, orb_false_iff, String.eqb_neq. done. Qed.
Lemma elem_of_list_lines t s : t ∈ List.filter list_line (trim <$> lines s) <-> exists line, line ∈ lines s /\ trim line = t /\ t <> ""%string /\ starts_with_char "#" t = false.
Proof.
  rewrite list_elem_of_In, filter_In, list_line_spec, <-list_elem_of_In, list_elem_of_fmap. split.
  - intros ((line & -> & Hl) & H1 & H2). by exists line.
  - intros (line & Hl & <- & H1 & H2). split; [by exists line|done].
Qed.
Lemma elem_of_domains d s : d ∈ domains_of domain_to_ascii to_lowercase s <->
  exists line, line ∈ lines s /\ trim line <> ""%string /\ starts_with_char "#" (trim line) = false
    /\ d = normalize_hostname domain_to_ascii to_lowercase (trim line) /\ d <> ""%string.
Proof.
  unfold domains_of. rewrite list_elem_of_In, filter_In, negb_true_iff, String.eqb_neq, <-list_elem_of_In, list_elem_of_fmap. split.
  - intros ((t & -> & (line & Hl & <- & H1 & H2)%elem_of_list_lines) & Hd). by exists line.
  - intros (line & Hl & H1 & H2 & -> & Hd). split; [|done]. exists (trim line). split; [done|]. apply elem_of_list_lines. by exists line.
Qed.
Lemma elem_of_urls d s : d ∈ urls_of url_parse s <->
  exists line, line ∈ lines s /\ trim line <> ""%string /\ starts_with_char "#" (trim line) = false /\ d = list_url url_parse (trim line).
Proof.
  unfold urls_of. rewrite list_elem_of_fmap. split.
  - intros (t & -> & (line & Hl & <- & H1 & H2)%elem_of_list_lines). by exists line.
  - intros (line & Hl & H1 & H2 & ->). exists (trim line). split; [done|]. apply elem_of_list_lines. by exists line.
Qed.
Lemma position_split x l i : position (String.eqb x) l = Some i -> exists above below, l = above ++ x :: below /\ (x ∉ above) /\ length above = i.
Proof.
  revert i. induction l as [|y l IH]; intros i; cbn [position]; [done|]. destruct (String.eqb_spec x y) as [->|Hne].
  - intros [= <-]. exists [], l. split; [done|]. split; [apply not_elem_of_nil|done].
  - destruct (position _ l) as [j|]; [|done]. intros [= <-]. destruct (IH j eq_refl) as (above & below & -> & Hn & <-). exists (y :: above), below.
    split; [done|]. split; [|done]. by intros [?|?]%elem_of_cons.
Qed.
Lemma position_of above x below : x ∉ above -> position (String.eqb x) (above ++ x :: below) = Some (length above).
Proof.
  induction above as [|y above IH]; intros Hn; cbn [app position length]; [by rewrite String.eqb_refl|]. apply not_elem_of_cons in Hn as [Hy Hn].
  destruct (String.eqb_spec x y) as [|_]; [done|]. by rewrite IH.
Qed.
Lemma lookup_past {A} (above : list A) x l : (above ++ x :: l) !! S (length above) = l !! 0%nat /\ (above ++ x :: l) !! S (S (length above)) = l !! 1%nat.
Proof. by induction above. Qed.
(** Where a file's entries go. *)
Lemma entry_place_spec path category domains :
  entry_place path = Some (category, domains) <->
  exists above below, split_on "/" path = above ++ "blacklists"%string :: category :: leaf_name domains :: below
    /\ ("blacklists"%string ∉ above) /\ category <> ""%string.
Proof.
  unfold entry_place. split.
  - destruct (position _ _) as [i|] eqn:P; [|done]. cbn [mbind option_bind]. apply position_split in P as (above & rest & E & Hn & <-). rewrite E.
    rewrite (proj1 (lookup_past _ _ _)), (proj2 (lookup_past _ _ _)). destruct rest as [|c rest]; [done|]. cbn. destruct rest as [|leaf rest]; [done|]. cbn.
    destruct (String.eqb_spec c "") as [|Hc]; [done|]. destruct (String.eqb_spec leaf "domains") as [->|]; [intros [= <- <-]; by exists above, rest|].
    destruct (String.eqb_spec leaf "urls") as [->|]; [intros [= <- <-]; by exists above, rest|done].
  - intros (above & below & E & Hn & Hc). rewrite E, (position_of above) by done. cbn [mbind option_bind].
    rewrite (proj1 (lookup_past _ _ _)), (proj2 (lookup_past _ _ _)). cbn.
    destruct (String.eqb_spec category "") as [|_]; [done|]. by destruct domains.
Qed.
Lemma collected_extend m k l k' d : collected (extend m k l) k' d <-> collected m k' d \/ (k' = k /\ d ∈ l).
Proof.
  unfold collected, extend. destruct (decide (k' = k)) as [->|Hne].
  - rewrite lookup_insert_eq. split.
    + intros (ds & [= <-] & [Hd|Hd]%elem_of_app); [|by right]. left. destruct (m !! k) as [ds|]; [by exists ds|by apply not_elem_of_nil in Hd].
    + intros [(ds & -> & Hd)|[_ Hd]]; (eexists; split; [done|]; apply elem_of_app); [by left|by right].
  - rewrite lookup_insert_ne by done. split; [by left|]. by intros [?|[? _]].
Qed.
Definition side (b : bool) (p : gmap string (list string) * gmap string (list string)) : gmap string (list string) := if b then p.1 else p.2.
Lemma parse_entry_listed acc e b k d :
  collected (side b (parse_entry url_parse domain_to_ascii to_lowercase acc e)) k d <-> collected (side b acc) k d \/ listed b [e] k d.
Proof.
  destruct e as [path text]. unfold parse_entry. cbn [fst snd].
  assert (forall (b' : bool) c t, entry_place path = Some (c, b') -> text = Some t -> trim t <> ""%string ->
    listed b [(path, text)] k d <-> b = b' /\ k = c /\ d ∈ (if b' then domains_of domain_to_ascii to_lowercase t else urls_of url_parse t)) as Hl.
  { intros b' c t P -> Ht. split.
    - intros (path' & t' & above & below & line & Hin%list_elem_of_singleton & E & Hn & Hk & Ht' & Hline & H1 & H2 & Hv). injection Hin as -> ->.
      assert (entry_place path = Some (k, b)) as P' by (apply entry_place_spec; by exists above, below). rewrite P in P'. injection P' as -> ->.
      split; [done|]. split; [done|]. destruct b; [apply elem_of_domains|apply elem_of_urls]; exists line; [done|]. split_and!; try done.
      unfold list_url. by destruct (url_parse (trim line)).
    - intros (-> & -> & Hd). apply entry_place_spec in P as (above & below & E & Hn & Hc).
      assert (exists line, line ∈ lines t /\ trim line <> ""%string /\ starts_with_char "#" (trim line) = false
        /\ (if b' then d = normalize_hostname domain_to_ascii to_lowercase (trim line) /\ d <> ""%string else d = list_url url_parse (trim line))) as (line & L1 & L2 & L3 & L4).
      { destruct b'; [apply elem_of_domains in Hd|apply elem_of_urls in Hd]; destruct Hd as (line & ? & ? & ? & ?); by exists line. }
      exists path, t, above, below, line. split_and!; try done; [by left|]. destruct b'; [done|]. unfold list_url in L4. by destruct (url_parse (trim line)). }
  assert (entry_place path = None \/ trim (default "" text)%string = ""%string -> ~ listed b [(path, text)] k d) as Hno.
  { intros Hx (path' & t' & above & below & line & Hin%list_elem_of_singleton & E & Hn & Hk & Ht' & _). injection Hin as -> <-.
    destruct Hx as [Hx|Hx]; [|done]. assert (entry_place path = Some (k, b)); [|congruence]. apply entry_place_spec. by exists above, below. }
  destruct (entry_place path) as [[c b']|] eqn:P; [|split; [by left|intros [?|?]; [done|exfalso; apply Hno; [by left|done]]]].
  destruct (String.eqb_spec (trim (default "" text)%string) "") as [Ht|Ht]; [split; [by left|intros [?|?]; [done|exfalso; apply Hno; [by right|done]]]|].
  destruct text as [t|]; [|done]. cbn [default from_option] in *. rewrite (Hl b' c t eq_refl eq_refl Ht).
  destruct b', b; cbn [side fst snd]; rewrite ?collected_extend; naive_solver.
Qed.
Lemma listed_app b es es' k d : listed b (es ++ es') k d <-> listed b es k d \/ listed b es' k d.
Proof.
  unfold listed. split.
  - intros (path & t & above & below & line & [Hin|Hin]%elem_of_app & Hx); [left|right]; by exists path, t, above, below, line.
  - intros [(path & t & above & below & line & Hin & Hx)|(path & t & above & below & line & Hin & Hx)]; exists path, t, above, below, line; (split; [|exact Hx]);
      apply elem_of_app; [by left|by right].
Qed.
Lemma parse_archive_listed entries b k d :
  collected (side b (parse_archive url_parse domain_to_ascii to_lowercase entries)) k d <-> listed b entries k d.
Proof.
  unfold parse_archive. induction entries as [|e es IH] using rev_ind.
  - cbn [foldl]. split; [|by intros (? & ? & ? & ? & ? & ?%not_elem_of_nil & _)]. intros (ds & Hds & _). by destruct b.
  - rewrite foldl_app. cbn [foldl]. by rewrite parse_entry_listed, IH, listed_app.
Qed.
Lemma replaced_listed entries id l l' :
  replaced_by (collected (parse_archive url_parse domain_to_ascii to_lowercase entries).1) (collected (parse_archive url_parse domain_to_ascii to_lowercase entries).2) id l l' ->
  replaced_by (listed true entries) (listed false entries) id l l'.
Proof.
  intros [B1 B2 B3 B4 B5 B6 B7]. split; try done.
  - intros k d. by rewrite <-B3, <-(parse_archive_listed entries true).
  - intros k d. by rewrite <-B4, <-(parse_archive_listed entries false).
Qed.
Lemma entries_by_key l (m : gmap string (list string)) k d :
  cats_ok l -> (forall k, is_Some (m !! k) -> is_Some (category_id_by_key l k)) ->
  (exists ds, m !! k = Some ds /\ d ∈ ds) <-> exists c cat, url_categories l !! c = Some cat /\ cat_key cat = k /\ (c, d) ∈ entry_rows l m.
Proof.
  intros Hok Hkeys. split.
  - intros (ds & Hm & Hd). destruct (Hkeys k) as (i & Hi); [by exists ds|]. apply category_id_Some in Hi as (cat & Hc & Hk). exists i, cat.
    split; [done|]. split; [done|]. apply elem_of_entry_rows; [done|]. exists cat, ds. by rewrite Hk.
  - intros (c & cat & Hc & Hk & Hin). apply elem_of_entry_rows in Hin as (cat' & ds & Hc' & Hm & Hd); [|done]. rewrite Hc in Hc'. injection Hc' as <-.
    exists ds. by rewrite <- Hk.
Qed.
Lemma activate_spec l id dom urls keys committed l' :
  lists_ok l -> (exists r, r ∈ url_categorization_release l /\ re_id r = id) -> (forall k, is_Some (dom !! k) \/ is_Some (urls !! k) -> k ∈ keys) ->
  activate_release l id dom urls keys committed = Some l' -> lists_ok l' /\ replaced_by (collected dom) (collected urls) id l l'.
Proof.
  intros [H1 H2 H3 H4 [H5 H5'] H6 H7 H8 H9 H10 H11] Hid Hkeys. unfold activate_release. destruct committed; [|done].
  pose proof (ensure_all_grown keys l H1) as G. set (l1 := foldl _ l keys) in *. destruct G as [G1 G2 G3 G4 G5]. intros [= <-].
  assert (url_categorization_release l1 = url_categorization_release l /\ next_release l1 = next_release l /\ url_category_overrides_domain l1 = url_category_overrides_domain l
          /\ url_category_overrides_url l1 = url_category_overrides_url l /\ url_custom_categories l1 = url_custom_categories l /\ next_custom l1 = next_custom l
          /\ url_custom_category_members l1 = url_custom_category_members l /\ url_category_labels l1 = url_category_labels l
          /\ url_categorization_job l1 = url_categorization_job l /\ url_categorization_settings l1 = url_categorization_settings l) as (E1 & E2 & E3 & E4 & E5 & E6 & E7 & E8 & E9 & E10)
    by (rewrite G3; done).
  assert (forall i, is_Some (url_categories l !! i) -> is_Some (url_categories l1 !! i)) as Gs by (intros i (c & Hc); exists c; by apply G1).
  split.
  - split; cbn [with_releases with_entries url_categories next_category url_category_domain_entries url_category_url_entries url_category_overrides_domain
                url_category_overrides_url url_categorization_release next_release url_custom_categories next_custom url_custom_category_members
                url_categorization_job url_categorization_settings]; rewrite ?E1, ?E2, ?E3, ?E4, ?E5, ?E6, ?E7, ?E9, ?E10; try done.
    + intros c d [Hd|Hd]; apply elem_of_entry_rows in Hd as (cat & ds & Hc & _); try done; by exists cat.
    + intros o Ho. by apply Gs, H3.
    + split.
      * rewrite <- list_fmap_compose. erewrite list_fmap_ext; [exact H5|]. done.
      * intros r (r0 & -> & Hr)%list_elem_of_fmap. exact (H5' _ Hr).
    + intros r s (r0 & -> & Hr)%list_elem_of_fmap (s0 & -> & Hs)%list_elem_of_fmap. cbn. intros Er%Z.eqb_eq Es%Z.eqb_eq.
      assert (r0 = s0) as ->; [|done]. apply list_elem_of_lookup in Hr as (i & Hi), Hs as (j & Hj).
      assert (i = j) as ->; [|congruence]. eapply (NoDup_lookup _ i j id H5); by rewrite list_lookup_fmap, ?Hi, ?Hj; cbn; congruence.
  - split; cbn [with_releases with_entries url_categories url_category_domain_entries url_category_url_entries url_category_overrides_domain fst snd
                url_category_overrides_url url_categorization_release url_custom_categories url_custom_category_members url_category_labels];
      rewrite ?E1, ?E3, ?E4, ?E5, ?E7, ?E8; try done.
    + intros i c [Hc|[He _]]%G2; [by left|by right].
    + intros k d. apply entries_by_key; [done|]. intros k' Hk'. apply G5, Hkeys. by left.
    + intros k d. apply entries_by_key; [done|]. intros k' Hk'. apply G5, Hkeys. by right.
    + split; [|by intros r (r0 & -> & _)%list_elem_of_fmap]. destruct Hid as (r & Hr & Hi). exists (activate id r). split; [by apply list_elem_of_fmap_2|done].
Qed.

(** *** The job: it replaces the lists, or keeps them *)

Lemma replaced_from dom urls id l0 l l' : same_rules l0 l -> replaced_by dom urls id l l' -> replaced_by dom urls id l0 l'.
Proof.
  intros [A1 A2 A3 A4 A5 (A6 & A7 & A8)] [B1 B2 B3 B4 (B5 & B5') (B6 & B7 & B8) B9]. split; try done.
  - intros i c Hc. apply B1. by rewrite A1.
  - intros i c [Hc|Hc]%B2; [left; by rewrite <- A1|by right].
  - split; congruence.
  - split; [|split]; congruence.
Qed.
Lemma replaced_to dom urls id l l' l'' :
  replaced_by dom urls id l l' -> same_rules l' l'' -> url_categorization_release l'' = url_categorization_release l' -> replaced_by dom urls id l l''.
Proof.
  intros [B1 B2 B3 B4 (B5 & B5') (B6 & B7 & B8) B9] [A1 A2 A3 A4 A5 (A6 & A7 & A8)] Er. split; rewrite ?A1, ?A2, ?A3, ?A4, ?A5, ?A6, ?A7, ?A8, ?Er; done.
Qed.
Definition keeps_or_replaces (d : Download) (l l' : Lists) : Prop :=
  lists_ok l' /\ (same_rules l l' \/ exists entries id, dl_archive d = Ok entries
                  /\ replaced_by (listed true entries) (listed false entries) id l l').
Abbreviation import := (import_from_targz_bytes url_parse domain_to_ascii to_lowercase).
Abbreviation block := (job_block url_parse domain_to_ascii to_lowercase).

Lemma kept d l l' : lists_ok l' /\ same_rules l l' -> keeps_or_replaces d l l'.
Proof. intros [H1 H2]. by split; [|left]. Qed.
Lemma kept_after d l0 l l' : same_rules l0 l -> keeps_or_replaces d l l' -> keeps_or_replaces d l0 l'.
Proof.
  intros Hs [H1 [H2|(es & id & He & Hr)]]; split; try done; [left; by etransitivity|right]. exists es, id. split; [done|]. by eapply replaced_from.
Qed.
(** A write to the job's row or the settings, after any of these. *)
Lemma still d l l' l'' : keeps_or_replaces d l l' -> (lists_ok l' -> lists_ok l'' /\ same_rules l' l'') -> url_categorization_release l'' = url_categorization_release l' ->
  keeps_or_replaces d l l''.
Proof.
  intros [H1 [H2|(es & id & He & Hr)]] Hw Hrel; destruct (Hw H1) as [H3 H4]; (split; [done|]); [left; by etransitivity|right].
  exists es, id. split; [done|]. by eapply replaced_to.
Qed.
Lemma download_kept chunks : forall l now total done_, lists_ok l ->
  Forall (fun s => lists_ok s /\ same_rules l s) (download_states l now total done_ chunks).1.
Proof.
  induction chunks as [|[n report] chunks IH]; intros l now total done_ Hl; cbn [download_states]; [by constructor|].
  set (l1 := when report l _). assert (lists_ok l1 /\ same_rules l l1) as [H1 H2] by (apply when_ok; [done|]; apply job_set_ok; [job_state|done]).
  specialize (IH l1 now total (i64_saturating_add done_ n) H1). destruct (download_states _ _ _ _ _) as [ls r]. constructor; [done|].
  eapply Forall_impl; [exact IH|]. intros s [Hs Hr]. split; [done|]. by etransitivity.
Qed.
Lemma parsed_keys_all (p : gmap string (list string) * gmap string (list string)) k : is_Some (p.1 !! k) \/ is_Some (p.2 !! k) -> k ∈ parsed_keys p.
Proof.
  intros Hk. unfold parsed_keys. apply elem_of_remove_dups, elem_of_app.
  destruct Hk as [(ds & Hd)|(ds & Hd)]; [left|right]; apply list_elem_of_fmap; exists (k, ds); (split; [done|]); by apply elem_of_map_to_list.
Qed.
Lemma import_spec l d db :
  lists_ok l -> (forall ks, dl_keys d ks ≡ₚ ks) ->
  Forall (keeps_or_replaces d l) (import l d db).1
  /\ ((import l d db).2 = Ok tt -> exists l' entries id, last (import l d db).1 = Some l' /\ dl_archive d = Ok entries
       /\ replaced_by (listed true entries) (listed false entries) id l l').
Proof.
  intros Hl Hks. unfold import_from_targz_bytes. destruct (negb (jd_release db)); [by split|].
  pose proof (insert_release_ok l (dl_sha256 d) Hl) as [H1 H2]. destruct (insert_release l (dl_sha256 d)) as [l1 id] eqn:Ei.
  assert (exists r, r ∈ url_categorization_release l1 /\ re_id r = id) as Hr.
  { unfold insert_release in Ei. injection Ei as <- <-. eexists. cbn. split; [apply elem_of_app; right; by left|done]. }
  cbn [fst] in H1, H2. destruct (dl_archive d) as [es|e] eqn:Ed; [|split; [|done]; constructor; [by apply kept|constructor]].
  destruct (activate_release _ _ _ _ _ _) as [l2|] eqn:Ea; [|split; [|done]; constructor; [by apply kept|constructor]].
  apply activate_spec in Ea as [H3 H4]; [|done|done|intros k Hk; rewrite Hks; by apply parsed_keys_all]. apply replaced_listed in H4.
  pose proof (replaced_from _ _ _ _ _ _ H2 H4) as H5. split.
  - constructor; [by apply kept|]. constructor; [|constructor]. split; [done|]. right. by exists es, id.
  - intros _. by exists l2, es, id.
Qed.
Lemma block_spec l d now db :
  lists_ok l -> (forall ks, dl_keys d ks ≡ₚ ks) ->
  Forall (keeps_or_replaces d l) (block l d now db).1
  /\ ((block l d now db).2 = Ok tt -> exists entries id, dl_archive d = Ok entries
       /\ replaced_by (listed true entries) (listed false entries) id l (default l (last (block l d now db).1))).
Proof.
  intros Hl Hks. unfold job_block. destruct (dl_response d) as [total|e]; [|by split].
  pose proof (download_kept (dl_chunks d) l now total 0 Hl) as Hd. destruct (download_states _ _ _ _ _) as [ls done_]. cbn [fst] in Hd.
  assert (Forall (keeps_or_replaces d l) ls) as Hls by (eapply Forall_impl; [exact Hd|]; intros s; apply kept).
  destruct (dl_stream_error d) as [e|]; [by split|]. assert (lists_ok (default l (last ls)) /\ same_rules l (default l (last ls))) as [H1 H2] by by apply (last_Forall (fun s => lists_ok s /\ same_rules l s)).
  set (l1 := when (jd_importing db) _ _). assert (lists_ok l1 /\ same_rules l l1) as [H3 H4].
  { destruct (when_ok (jd_importing db) (default l (last ls)) (job_set (default l (last ls)) now "importing" done_ total (Some "Importing lists"%string)) H1) as [W1 W2];
      [apply job_set_ok; [job_state|done]|]. split; [done|]. by etransitivity. }
  destruct (import_spec l1 d db H3 Hks) as [Hi Hok]. destruct (import l1 d db) as [is_ r]. cbn [fst snd] in Hi, Hok.
  assert (Forall (keeps_or_replaces d l) (ls ++ l1 :: is_)) as Ha.
  { apply Forall_app. split; [done|]. constructor; [by apply kept|]. eapply Forall_impl; [exact Hi|]. intros s. by apply kept_after. }
  destruct r as [[]|e]; [|by split]. destruct (negb (jd_ok db)); [by split|]. cbn [fst snd].
  destruct Hok as (l2 & es & id & El & Ees & Hr); [done|]. rewrite El. cbn [default from_option].
  apply (replaced_from _ _ _ l) in Hr; [|done].
  assert (keeps_or_replaces d l l2) as K2.
  { apply last_Some_elem_of in El. apply kept_after with l1; [done|]. by apply (proj1 (Forall_forall _ _) Hi). }
  set (l3 := record_update_ok l2 now).
  assert (lists_ok l2 -> lists_ok l3 /\ same_rules l2 l3) as S3 by (intros Ho; apply settings_ok; [exact (lo_source _ Ho)|done]).
  pose proof (still _ _ _ l3 K2 S3 eq_refl) as K3.
  assert (forall l4, l4 = when (jd_ready db) l3 (job_set l3 now "ready" done_ total (Some "Ready"%string)) ->
          (lists_ok l3 -> lists_ok l4 /\ same_rules l3 l4) /\ url_categorization_release l4 = url_categorization_release l3) as S4.
  { intros l4 ->. split; [intros Ho; apply when_ok; [done|]; apply job_set_ok; [job_state|done]|]. by destruct (jd_ready db). }
  destruct (S4 _ eq_refl) as [S5 S6]. set (l4 := when (jd_ready db) l3 _) in *. split.
  - apply Forall_app. split; [done|]. constructor; [done|]. constructor; [|constructor]. by apply (still _ _ l3).
  - intros _. exists es, id. split; [done|]. rewrite last_app. cbn [last default from_option]. 
    eapply replaced_to; [eapply replaced_to; [exact Hr|apply S3, K2|done]|apply S5, K3|exact S6].
Qed.
End invariant.

Section updates.
Context `{SqlRows} (url_parse : string -> option ParsedUrl) (domain_to_ascii : string -> option string) (to_lowercase : string -> string)
        (sort_keys : list string -> list string).
Abbreviation run_job := (update_job url_parse domain_to_ascii to_lowercase).
Abbreviation outcome := (keeps_or_replaces url_parse domain_to_ascii to_lowercase).

(** The database answers everything, and the download and its archive are whole. *)
Definition healthy_db (db : JobDb) : Prop :=
  jd_read db = true /\ jd_reset db = true /\ jd_start db = true /\ jd_importing db = true /\ jd_release db = true /\ jd_commit db = true
  /\ jd_ok db = true /\ jd_ready db = true.
Definition whole (d : Download) : Prop := is_ok (dl_response d) = true /\ dl_stream_error d = None /\ is_ok (dl_archive d) = true.
Lemma categorize_same l l' hostname url ok : same_rules l l' ->
  categorize_url_now url_parse domain_to_ascii to_lowercase l' hostname url ok = categorize_url_now url_parse domain_to_ascii to_lowercase l hostname url ok.
Proof.
  intros [H1 H2 H3 H4 H5 _]. assert (forall f rows b, lookup_rows b l' f rows = lookup_rows b l f rows) as E.
  { intros f rows b. unfold lookup_rows, hit_of, enabled_key. by rewrite H1. }
  unfold categorize_url_now, categorize_override, override_domain_match, override_url_match, domain_entry_match, url_entry_match.
  by rewrite !E, H2, H3, H4, H5.
Qed.
Lemma failed_kept d l s db now msg :
  outcome d l s -> outcome d l (let l := when (jd_err db) s (record_update_err s msg) in when (jd_error db) l (job_set l now "error" 0 None (Some msg))).
Proof.
  intros K. cbv zeta. set (s1 := when (jd_err db) s _).
  assert (outcome d l s1) as K1.
  { apply (still _ _ _ d l s); [done| |by unfold s1; destruct (jd_err db)]. intros Ho. apply when_ok; [done|]. apply settings_ok; [exact (lo_source _ Ho)|done]. }
  apply (still _ _ _ d l s1); [done| |by destruct (jd_error db)]. intros Ho. apply when_ok; [done|]. apply job_set_ok; [job_state|done].
Qed.
Lemma healthy_block l d now db : healthy_db db -> whole d ->
  let '(ls, r) := job_block url_parse domain_to_ascii to_lowercase l d now db in
  r = Ok tt /\ exists s, last ls = Some s /\ jb_state (url_categorization_job s) = "ready"%string /\ st_last_update_at (url_categorization_settings s) = Some now
  /\ st_last_update_error (url_categorization_settings s) = None.
Proof.
  intros (_ & _ & _ & _ & Hrel & Hc & Hok & Hrd) (Hr & Hs & Ha). unfold job_block. destruct (dl_response d) as [total|]; [|done].
  destruct (download_states _ _ _ _ _) as [ls done_]. rewrite Hs. unfold import_from_targz_bytes. rewrite Hrel. cbn [negb].
  destruct (insert_release _ _) as [l1 id]. destruct (dl_archive d) as [es|]; [|done]. unfold activate_release. rewrite Hc, Hok. cbn [negb]. rewrite Hrd.
  cbn [when]. split; [done|]. rewrite last_app. cbn [last]. eexists. split; [reflexivity|]. by split.
Qed.

(** C34: an update replaces the lists or keeps them. Wherever the download, the import or the server itself stops, and
    whichever statement fails, afterwards the lists are the old ones, and every URL has the category it had; or they
    are exactly the entries of the downloaded archive, each line of its files of domains and addresses under its
    category, with every category, switch, override, label and group an administrator set in place and the new
    release as the one active. When nothing fails, they are replaced and the job says so. *)
Theorem update_replaces_or_keeps l d now db stop after :
  lists_ok l -> (forall ks, dl_keys d ks ≡ₚ ks) ->
  let l' := run_job l d now db stop after in
  lists_ok l'
  /\ ((same_rules l l' /\ forall hostname url ok, categorize_url_now url_parse domain_to_ascii to_lowercase l' hostname url ok
                                                 = categorize_url_now url_parse domain_to_ascii to_lowercase l hostname url ok)
      \/ exists entries id, dl_archive d = Ok entries /\ replaced_by (listed url_parse domain_to_ascii to_lowercase true entries) (listed url_parse domain_to_ascii to_lowercase false entries) id l l')
  /\ (stop = RunsOut -> healthy_db db -> whole d -> busy (jb_state (url_categorization_job l)) = false ->
      exists entries id, dl_archive d = Ok entries /\ replaced_by (listed url_parse domain_to_ascii to_lowercase true entries) (listed url_parse domain_to_ascii to_lowercase false entries) id l l'
      /\ jb_state (url_categorization_job l') = "ready"%string /\ st_last_update_at (url_categorization_settings l') = Some now).
Proof.
  intros Hl Hks l'. assert (outcome d l l' /\ (stop = RunsOut -> healthy_db db -> whole d -> busy (jb_state (url_categorization_job l)) = false ->
      exists entries id, dl_archive d = Ok entries /\ replaced_by (listed url_parse domain_to_ascii to_lowercase true entries) (listed url_parse domain_to_ascii to_lowercase false entries) id l l'
      /\ jb_state (url_categorization_job l') = "ready"%string /\ st_last_update_at (url_categorization_settings l') = Some now)) as [[H1 H2] H3].
  2:{ split; [done|]. split; [|done]. destruct H2 as [H2|H2]; [left|by right]. split; [done|]. intros. by apply categorize_same. }
  unfold l', update_job. destruct (jd_read db && busy _) eqn:Eb.
  { split; [by apply kept|]. intros _ (Hr & _) _ Hb. by rewrite Hr, Hb in Eb. }
  clear l' Eb. cbv zeta. set (l1 := when (jd_start db) _ _).
  assert (lists_ok l1 /\ same_rules l l1) as [O1 S1].
  { destruct (when_ok (jd_reset db) l (job_reset l now) Hl (job_reset_ok l now Hl)) as [A1 A2].
    destruct (when_ok (jd_start db) _ (job_set (when (jd_reset db) l (job_reset l now)) now "downloading" 0 None (Some "Starting download"%string)) A1) as [B1 B2];
      [apply job_set_ok; [job_state|done]|]. split; [done|]. by etransitivity. }
  destruct (block_spec url_parse domain_to_ascii to_lowercase l1 d now db O1 Hks) as [Hb Hr]. pose proof (healthy_block l1 d now db) as Hh.
  destruct (job_block _ _ _ l1 d now db) as [ls r]. cbn [fst snd] in Hb, Hr.
  assert (forall x, default l1 (last (take after ls)) = x -> outcome d l x) as N.
  { intros x <-. apply (kept_after _ _ _ d l l1); [done|]. apply last_Forall; [by apply kept|]. by apply Forall_take. }
  assert (outcome d l (default l1 (last ls))) as NL by (apply (kept_after _ _ _ d l l1); [done|]; apply last_Forall; [by apply kept|done]).
  destruct stop; [|split; [by apply failed_kept, N|done]..|split; [by apply N|done]].
  split; [destruct r as [[]|e]; [done|by apply failed_kept]|]. intros _ Hdb Hw _. destruct (Hh Hdb Hw) as (-> & s & El & Ej & Es & _).
  destruct (Hr eq_refl) as (es & id & Ea & Hp). exists es, id. rewrite El in *. cbn [default from_option] in *.
  split; [done|]. split; [by eapply replaced_from|done].
Qed.
End updates.

(** ** Every operation keeps the invariant *)

Lemma upsert_row_value rows id now c v note o :
  o ∈ upsert_row rows id now c v note -> (o ∈ rows /\ ov_value o <> v) \/ (ov_value o = v /\ ov_category o = c).
Proof.
  unfold upsert_row. destruct (existsb _ _) eqn:E.
  - intros (o' & -> & Ho)%list_elem_of_fmap. destruct (String.eqb_spec (ov_value o') v); [by right|by left].
  - intros [Ho| ->%list_elem_of_singleton]%elem_of_app; [left|by right]. split; [done|]. intros Hv.
    assert (existsb (fun o => String.eqb (ov_value o) v) rows = true) as Ht; [|congruence]. apply existsb_exists. exists o. split; [by apply list_elem_of_In|by apply String.eqb_eq].
Qed.
Lemma upsert_row_has rows id now c v note : exists o, o ∈ upsert_row rows id now c v note /\ ov_value o = v /\ ov_category o = c.
Proof.
  unfold upsert_row. destruct (existsb _ _) eqn:E.
  - apply existsb_exists in E as (o & Ho%list_elem_of_In & Hv). eexists. split; [apply list_elem_of_fmap_2; exact Ho|]. by rewrite Hv.
  - eexists. split; [apply elem_of_app; right; by apply list_elem_of_singleton|done].
Qed.
Lemma upsert_row_values rows id now c v note : NoDup (ov_value <$> rows) -> NoDup (ov_value <$> upsert_row rows id now c v note).
Proof.
  intros Hn. unfold upsert_row. destruct (existsb _ _) eqn:E.
  - rewrite <- list_fmap_compose. erewrite list_fmap_ext; [exact Hn|]. intros _ o _. cbn. by destruct (String.eqb_spec (ov_value o) v).
  - rewrite fmap_app. apply NoDup_app. split; [done|]. split; [|apply NoDup_singleton]. intros x Hx ->%list_elem_of_singleton.
    apply list_elem_of_fmap in Hx as (o & Hv & Ho). cbn in Hv.
    assert (existsb (fun o => String.eqb (ov_value o) v) rows = true) as Ht; [|congruence]. apply existsb_exists. exists o. split; [by apply list_elem_of_In|by apply String.eqb_eq].
Qed.
Lemma without_id_in id rows o : o ∈ without_id id rows -> o ∈ rows.
Proof. intros [Ho _]%list_elem_of_In%filter_In. by apply list_elem_of_In. Qed.
Lemma without_id_values id rows : NoDup (ov_value <$> rows) -> NoDup (ov_value <$> without_id id rows).
Proof. intros Hn. eapply sublist_NoDup; [exact Hn|]. apply fmap_sublist, filter_sublist. Qed.
Lemma with_overrides_ok l d u next :
  lists_ok l -> (forall o, o ∈ d \/ o ∈ u -> is_Some (url_categories l !! ov_category o)) -> NoDup (ov_value <$> d) -> NoDup (ov_value <$> u) ->
  lists_ok (with_overrides l d u next).
Proof. intros [H1 H2 H3 H4 H5 H6 H7 H8 H9 H10 H11] Ho Hd Hu. by split. Qed.

Lemma add_member_lookup id keys : forall m k i, foldl (add_member id) m keys !! k = Some i <-> m !! k = Some i \/ (m !! k = None /\ k ∈ keys /\ i = id).
Proof.
  induction keys as [|k0 keys IH]; intros m k i; cbn [foldl].
  - split; [by left|]. intros [Hm|(_ & Hk & _)]; [done|by apply not_elem_of_nil in Hk].
  - rewrite IH. unfold add_member. destruct (m !! k0) as [j|] eqn:Em.
    + rewrite elem_of_cons. split; [naive_solver|]. intros [Hm|(Hm & [->|Hk] & ->)]; [by left|congruence|by right].
    + rewrite elem_of_cons. destruct (decide (k0 = k)) as [->|Hne]; [rewrite lookup_insert_eq, Em|rewrite lookup_insert_ne by done]; naive_solver.
Qed.
Lemma set_categories_ok us : forall l, lists_ok l -> lists_ok (foldl set_category l us).
Proof.
  induction us as [|u us IH]; intros l Hl; [done|]. cbn [foldl]. apply IH. unfold set_category. set (f := fun c : Category => if String.eqb _ _ then _ else _).
  assert (lists_ok (with_categories l (f <$> url_categories l) (next_category l))) as Hc.
  { destruct Hl as [[C1 C2] H2 H3 H4 H5 H6 H7 H8 H9 H10 H11].
    assert (forall i c, (f <$> url_categories l) !! i = Some c -> exists c0, url_categories l !! i = Some c0 /\ cat_key c = cat_key c0) as N.
    { intros i c Hc. rewrite lookup_fmap in Hc. apply fmap_Some in Hc as (c0 & Hc0 & ->). exists c0. split; [done|]. unfold f. by destruct (String.eqb _ _). }
    assert (forall i, is_Some (url_categories l !! i) -> is_Some ((f <$> url_categories l) !! i)) as M by (intros i Hi; rewrite lookup_fmap; by apply fmap_is_Some).
    split; cbn [with_categories]; try done; eauto.
    split; cbn [with_categories url_categories next_category].
    - intros i c (c0 & Hc0 & _)%N. by eapply C1.
    - intros i j c d (c0 & Hc0 & Ec)%N (d0 & Hd0 & Ed)%N Hk. eapply C2; [done|done|congruence]. }
  destruct (up_label u); [|exact Hc]. destruct Hc as [H1 H2 H3 H4 H5 H6 H7 H8 H9 H10 H11]. by split.
Qed.
Lemma without_custom_members (m : gmap string Z) id k i : filter (fun kv => kv.2 <> id) m !! k = Some i -> m !! k = Some i /\ i <> id.
Proof. by intros [? ?]%map_lookup_filter_Some. Qed.

Section steps.
Context `{SqlRows} (url_parse : string -> option ParsedUrl) (domain_to_ascii : string -> option string) (to_lowercase : string -> string)
        (sort_keys : list string -> list string).
Abbreviation step := (lists_step url_parse domain_to_ascii to_lowercase sort_keys).
(** A job's categories are visited in some order. *)
Definition op_ok (o : ListsOp) : Prop :=
  match o with UpdateJob d _ _ _ _ | AutoUpdate _ d _ _ _ _ => forall ks, dl_keys d ks ≡ₚ ks | _ => True end.

Lemma customs_ok l i c next :
  lists_ok l -> i < next -> next_custom l <= next -> validate_custom_key (cu_key c) = true -> label_ok (cu_label_en c) = true ->
  (forall j d, url_custom_categories l !! j = Some d -> cu_key d = cu_key c -> j = i) ->
  lists_ok (with_customs l (<[i := c]> (url_custom_categories l)) next).
Proof.
  intros [H1 H2 H3 H4 H5 H6 H7 H8 H9 H10 H11] Hi Hn Hk Hlab Hu.
  split; cbn [with_customs url_custom_categories next_custom url_custom_category_members]; try done.
  - intros j d [[<- <-]|[Hne Hd]]%lookup_insert_Some; [done|]. apply H7 in Hd as (Hj & ?). split; [lia|done].
  - intros j k d e [[<- <-]|[Hj Hd]]%lookup_insert_Some [[<- <-]|[Hk' He]]%lookup_insert_Some Hkey; [done| | |by eapply H8].
    + symmetry. by eapply Hu.
    + by eapply Hu.
  - intros k j Hm. apply H9 in Hm. destruct (decide (i = j)) as [->|]; [rewrite lookup_insert_eq; done|by rewrite lookup_insert_ne].
Qed.
Lemma update_job_ok l d now db stop after : lists_ok l -> (forall ks, dl_keys d ks ≡ₚ ks) -> lists_ok (update_job url_parse domain_to_ascii to_lowercase l d now db stop after).
Proof.
  intros Hl Hks. unfold update_job. destruct (_ && _); [done|]. cbv zeta. set (l1 := when (jd_start db) _ _).
  assert (lists_ok l1) as O1.
  { destruct (when_ok (jd_reset db) l (job_reset l now) Hl (job_reset_ok l now Hl)) as [A1 _]. apply when_ok; [done|]. apply job_set_ok; [job_state|done]. }
  destruct (block_spec url_parse domain_to_ascii to_lowercase l1 d now db O1 Hks) as [Hb _]. destruct (job_block _ _ _ l1 d now db) as [ls r]. cbn [fst] in Hb.
  assert (forall n, lists_ok (default l1 (last (take n ls)))) as N.
  { intros n. apply last_Forall; [done|]. apply Forall_take. eapply Forall_impl; [exact Hb|]. by intros s [Hs _]. }
  assert (lists_ok (default l1 (last ls))) as NL by (apply last_Forall; [done|]; eapply Forall_impl; [exact Hb|]; by intros s [Hs _]).
  assert (forall s msg, lists_ok s -> lists_ok (let l := when (jd_err db) s (record_update_err s msg) in when (jd_error db) l (job_set l now "error" 0 None (Some msg)))) as F.
  { intros s msg Hs. by apply (failed_kept url_parse domain_to_ascii to_lowercase d s s db now msg (kept _ _ _ d s s (conj Hs (reflexivity s)))). }
  destruct stop; [destruct r; [done|]|..]; auto.
Qed.
(** The stored rules stay consistent under every administrator's operation and every update, whatever fails: the
    keys of categories and of custom categories are unique, every entry and override names a category that exists
    and overrides do not repeat, at most one release is active, every member's group exists, keys and labels have
    the form the checks demand, and the job is in one of its five states. *)
Theorem stored_rules_stay_consistent l ops : lists_ok l -> Forall op_ok ops -> lists_ok (foldl step l ops).
Proof.
  revert l. induction ops as [|o ops IH]; intros l Hl Ho; [done|]. apply Forall_cons in Ho as [Ho Hops]. cbn [foldl]. apply IH; [|done]. clear IH ops Hops.
  destruct o as [e a s ok|d now db stop n|read d now db stop n|cs ok|k v c n now read w|k id ok|b ok|id b ok|id ks e k c|id ok]; cbn [lists_step op_ok] in *.
  - unfold put_settings. cbv zeta. destruct (String.eqb_spec (trim s) ""); [done|]. destruct ok; [|done]. apply settings_ok; [done|exact Hl].
  - by apply update_job_ok.
  - unfold auto_update_turn. destruct (_ && _ && _); [by apply update_job_ok|done].
  - unfold put_categories. destruct (_ <? _)%nat; [done|]. destruct ok; [|done]. by apply set_categories_ok.
  - unfold add_override. cbv zeta. destruct (_ || _); [done|]. destruct (if read then _ else _) as [cat|] eqn:Ec; [|done]. destruct (override_target _ _ _ _) as [t|]; [|done].
    destruct w; [|done|done]. destruct read; [|done]. apply category_id_Some in Ec as (c0 & Hc0 & _). pose proof (lo_values _ Hl) as [V1 V2]. pose proof (lo_overrides _ Hl) as Ho'.
    destruct t; apply with_overrides_ok; try done; try (by apply upsert_row_values); intros o [Hx|Hx]; eauto;
      apply upsert_row_value in Hx as [[Hx _]|[_ ->]]; eauto.
  - unfold delete_override. cbv zeta. pose proof (lo_values _ Hl) as [V1 V2]. pose proof (lo_overrides _ Hl) as Ho'.
    repeat (destruct (String.eqb _ _); [destruct ok; [|done]; apply with_overrides_ok; try done; try (by apply without_id_values);
      intros o [Hx|Hx]; try apply without_id_in in Hx; eauto|]). done.
  - unfold create_custom_category. cbv zeta. destruct (validate_custom_key _) eqn:Ek; [|done]. destruct (label_ok _) eqn:El; [|done]. cbn [negb].
    destruct (negb ok || _) eqn:Et; [done|]. apply orb_false_elim in Et as [_ Et]. apply customs_ok; try done; [lia..|]. intros j d Hd Hk. exfalso.
    assert (key_taken l (to_lowercase (trim (cc_key b))) = true) as Ht; [|congruence].
    apply existsb_exists. exists (j, d). split; [by apply list_elem_of_In, elem_of_map_to_list|by apply String.eqb_eq].
  - unfold update_custom_category. destruct (negb _); [done|]. destruct (url_custom_categories l !! id) as [cur|] eqn:Ec; [|done]. cbv zeta.
    destruct (label_ok _) eqn:El; [|done]. cbn [negb]. destruct (negb _); [done|]. destruct (lo_customs _ Hl id cur Ec) as (Hi & Hk & _).
    apply customs_ok; try done. intros j d Hd Hkey. by eapply (lo_custom_keys _ Hl).
  - unfold put_custom_category_members. destruct (_ <? _)%nat; [done|]. destruct (e && _) eqn:Ee; [|done]. cbn [negb]. cbv zeta. destruct (k && _); [done|]. destruct c; [|done].
    apply andb_prop in Ee as [_ Ee]. destruct Hl as [H1 H2 H3 H4 H5 H6 H7 H8 H9 H10 H11]. split; try done. cbn [fst with_members url_custom_category_members url_custom_categories].
    intros x i [Hm|(_ & _ & ->)]%add_member_lookup; [apply without_custom_members in Hm as [Hm _]; by eapply H9|by destruct (url_custom_categories l !! id)].
  - unfold delete_custom_category. destruct ok; [|done]. destruct Hl as [H1 H2 H3 H4 H5 H6 H7 H8 H9 H10 H11].
    split; try done; cbn [fst with_members with_customs url_custom_category_members url_custom_categories next_custom].
    + intros i c [_ Hc]%lookup_delete_Some. by apply H7.
    + intros i j c d [_ Hc]%lookup_delete_Some [_ Hd]%lookup_delete_Some. by eapply H8.
    + intros x i [Hm Hne]%without_custom_members. rewrite lookup_delete_ne by done. by eapply H9.
Qed.

(** ** An override takes effect *)

(** What an administrator set for a domain is what its pages get: after a domain override was accepted, a page of
    that domain or under it has the override's category, or that of another enabled override on one of its domains;
    with no such other, it has this one. *)
Theorem domain_override_takes_effect l value key note now t hostname url cat c :
  let '(l', r) := add_override domain_to_ascii to_lowercase l "domain" value key note now true Committed in
  r = Ok (Domain t) -> lists_ok l -> url_categories l !! c = Some cat -> cat_key cat = trim key -> cat_enabled cat = true ->
  let host := normalize_hostname domain_to_ascii to_lowercase hostname in
  labelled host -> in_domain host t ->
  (exists k c', categorize_url_now url_parse domain_to_ascii to_lowercase l' hostname url (fun _ => true) = Some (Some (c', k))
                /\ rule_applies l' OverrideDomain host (normalize_url_for_prefix_match url_parse to_lowercase url) c' k)
  /\ ((forall o, o ∈ url_category_overrides_domain l -> in_domain host (ov_value o) -> ov_value o = t) ->
      categorize_url_now url_parse domain_to_ascii to_lowercase l' hostname url (fun _ => true) = Some (Some (c, trim key))).
Proof.
  unfold add_override. cbv zeta. change (trim "domain") with "domain"%string. destruct (_ || _); [done|]. destruct (category_id_by_key l (trim key)) as [c0|] eqn:Ec; [|done].
  destruct (override_target _ _ _ _) as [t'|] eqn:Et; [|done]. intros [= ->] Hl Hcat Hkey Hen Hlab Hin.
  assert (c0 = c) as -> by (pose proof (category_id_of l c cat (lo_categories _ Hl) Hcat) as E; rewrite Hkey in E; congruence).
  set (l' := upsert_override _ _ _ _ _). set (host := normalize_hostname _ _ _) in *.
  destruct (categorize_decided url_parse domain_to_ascii to_lowercase l' hostname url (fun _ => true) (fun _ => eq_refl) (or_intror Hlab)) as (r & Er & Hd).
  fold host in Hd. set (u := normalize_url_for_prefix_match _ _ _) in *. destruct (upsert_row_has (url_category_overrides_domain l) (next_override l) now c t (trim note)) as (o & Ho & Hov & Hoc).
  assert (enabled_key l' c = Some (trim key)) as Hek by (unfold enabled_key, l'; cbn [upsert_override with_overrides url_categories]; rewrite Hcat; cbn; by rewrite Hen, Hkey).
  assert (rule_applies l' OverrideDomain host u c (trim key)) as Ha.
  { split; [done|]. exists t. split; [|done]. apply list_elem_of_fmap. exists o. by rewrite Hov, Hoc. }
  destruct r as [[c' k]|]; [|by destruct (Hd OverrideDomain c (trim key))]. destruct Hd as (tier & Ht & Hfirst).
  assert (tier = OverrideDomain) as -> by (destruct tier; [done|..]; destruct (Hfirst OverrideDomain c (trim key)); cbn; try lia; done).
  split; [by exists k, c'|]. intros Honly. rewrite Er. destruct Ht as (Hk & v & Hv & Hiv). apply list_elem_of_fmap in Hv as (o' & [= -> ->] & Ho').
  apply upsert_row_value in Ho' as [[Ho' Hne]|[_ Hc']]; [by destruct Hne; apply Honly|]. rewrite Hc' in Hk. rewrite Hek in Hk. injection Hk as <-. by rewrite Hc'.
Qed.
End steps.

(** ** Reports: [web_activity/db.rs] *)

Section reports.
Context `{SqlRows}.
(** "initcap(replace(replace(key, '_', ' '), '-', ' '))". *)
Variable default_label : string -> string.

(** The custom category a key is shown under. *)
Definition shown_group (l : Lists) (key : string) : option CustomCategory :=
  id ← url_custom_category_members l !! key; c ← url_custom_categories l !! id; if cu_hidden c then None else Some c.
(** The key and label shown for a category. *)
Definition shown_category (l : Lists) (category : option Z) : string * string :=
  match c ← category; url_categories l !! c with
  | None => ("uncategorized", "Uncategorized")%string
  | Some cat =>
      match shown_group l (cat_key cat) with
      | Some g => (cu_key g, cu_label_en g)
      | None => (cat_key cat, default (default_label (cat_key cat)) (fst <$> url_category_labels l !! cat_key cat))
      end
  end.
Definition in_period (agent : Uuid) (from to : Z) (s : SessionRow) : bool := bool_decide (s_agent s = agent) && (from <=? s_start s) && (s_end s <=? to).
Definition latest_end (l : list SessionRow) : Z := foldr (fun s m => Z.max (s_end s) m) (default 0 (s_end <$> head l)) l.
(** "GROUP BY": the rows of each value of [f]. *)
Definition group_by {K} `{EqDecision K} (f : SessionRow -> K) (l : list SessionRow) : list (K * list SessionRow) :=
  (fun k => (k, List.filter (fun s => bool_decide (f s = k)) l)) <$> remove_dups (f <$> l).
(** "SUM(..)::bigint" fails out of range. *)
Definition sum_fits {K} (g : K * list SessionRow) : bool := in_range i64_min i64_max (total_time g.2).
Record AgentUrlCategoryTimeRow := { ct_key : string; ct_label : string; ct_time_ms : Z; ct_visit_count : Z; ct_last_ts : Z }.
Definition category_time_row (g : (string * string) * list SessionRow) : AgentUrlCategoryTimeRow :=
  {| ct_key := g.1.1; ct_label := g.1.2; ct_time_ms := total_time g.2; ct_visit_count := Z.of_nat (length g.2); ct_last_ts := latest_end g.2 |}.
Definition query_agent_url_categories_time (w : Web) (agent : Uuid) (from to : Z) (limit : nat) : option (list AgentUrlCategoryTimeRow) :=
  let groups := group_by (fun s => shown_category (lists w) (s_category s)) (List.filter (in_period agent from to) (url_sessions w)) in
  if forallb sum_fits groups then Some (take limit (sort_by (fun r => - ct_time_ms r) (category_time_row <$> groups))) else None.
Record AgentUrlSiteTimeRow := { st_hostname : string; st_key : string; st_label : string; st_time_ms : Z; st_visit_count : Z; st_last_ts : Z }.
Definition site_time_row (g : (string * (string * string)) * list SessionRow) : AgentUrlSiteTimeRow :=
  {| st_hostname := g.1.1; st_key := g.1.2.1; st_label := g.1.2.2; st_time_ms := total_time g.2; st_visit_count := Z.of_nat (length g.2); st_last_ts := latest_end g.2 |}.
Definition site_filter (l : Lists) (shown_key category_key : option string) (s : SessionRow) : bool :=
  is_none_or shown_key (String.eqb (shown_category l (s_category s)).1)
  && is_none_or category_key (fun k => is_some_and (c ← s_category s; cat_key <$> url_categories l !! c) (fun k' => String.eqb k' k)).
Definition query_agent_url_sites_time (w : Web) (agent : Uuid) (from to : Z) (shown_key category_key : option string) (limit : nat) : option (list AgentUrlSiteTimeRow) :=
  let rows := List.filter (site_filter (lists w) shown_key category_key) (List.filter (in_period agent from to) (url_sessions w)) in
  let groups := group_by (fun s => (s_hostname s, shown_category (lists w) (s_category s))) rows in
  if forallb sum_fits groups then Some (take limit (sort_by (fun r => - st_time_ms r) (site_time_row <$> groups))) else None.
Definition query_agent_url_sessions (w : Web) (agent : Uuid) (from to : Z) (limit : nat) : list (SessionRow * (string * string)) :=
  (fun s => (s, shown_category (lists w) (s_category s)))
    <$> take limit (sort_by (fun s => - s_start s) (List.filter (in_period agent from to) (url_sessions w))).
Definition query_urls (w : Web) (agent : Uuid) (limit offset : nat) : list (VisitRow * (string * string)) :=
  (fun v => (v, shown_category (lists w) (mjoin (url_visit_category w !! v_id v))))
    <$> take limit (drop offset (sort_by (fun v => - v_ts v) (List.filter (fun v => bool_decide (v_agent v = agent)) (url_visits w)))).
End reports.

Lemma total_time_perm l l' : l ≡ₚ l' -> total_time l = total_time l'.
Proof. induction 1 as [|x l l' Hp IH|x y l|l l1 l2 H1 IH1 H2 IH2]; unfold total_time in *; cbn [foldr]; [done|by rewrite IH|lia|congruence]. Qed.
Definition sumZ (l : list Z) : Z := foldr Z.add 0 l.
Lemma sumZ_perm l l' : l ≡ₚ l' -> sumZ l = sumZ l'.
Proof. induction 1 as [|x l l' Hp IH|x y l|l l1 l2 H1 IH1 H2 IH2]; unfold sumZ in *; cbn [foldr]; [done|by rewrite IH|lia|congruence]. Qed.
(** Splitting by some keys splits the total. *)
Lemma groups_total {K} `{EqDecision K} (f : SessionRow -> K) ks l :
  NoDup ks -> (forall s, s ∈ l -> f s ∈ ks) ->
  sumZ ((fun k => total_time (List.filter (fun s => bool_decide (f s = k)) l)) <$> ks) = total_time l
  /\ sumZ ((fun k => Z.of_nat (length (List.filter (fun s => bool_decide (f s = k)) l))) <$> ks) = Z.of_nat (length l).
Proof.
  revert l. induction ks as [|k ks IH]; intros l Hn Hall.
  - destruct l as [|s l]; [done|]. by destruct (not_elem_of_nil (f s)); apply Hall; left.
  - apply NoDup_cons in Hn as [Hk Hn]. set (rest := List.filter (fun s => negb (bool_decide (f s = k))) l).
    assert (forall k', k' ∈ ks -> List.filter (fun s => bool_decide (f s = k')) rest = List.filter (fun s => bool_decide (f s = k')) l) as E.
    { intros k' Hk'. unfold rest. rewrite filter_twice. apply List.filter_ext. intros s. do 2 case_bool_decide; naive_solver. }
    assert (forall l0, total_time l0 = total_time (List.filter (fun s => bool_decide (f s = k)) l0) + total_time (List.filter (fun s => negb (bool_decide (f s = k))) l0)
            /\ length l0 = (length (List.filter (fun s => bool_decide (f s = k)) l0) + length (List.filter (fun s => negb (bool_decide (f s = k))) l0))%nat) as S.
    { induction l0 as [|s l0 [I1 I2]]; [done|]. cbn [List.filter]. unfold total_time in *. case_bool_decide; cbn [negb foldr length]; lia. }
    destruct (IH rest Hn) as [I1 I2].
    { intros s [Hs Hne]%list_elem_of_In%filter_In. apply list_elem_of_In in Hs. apply Hall, elem_of_cons in Hs as [Hs|Hs]; [|done]. by rewrite bool_decide_true in Hne. }
    destruct (S l) as [S1 S2]. fold rest in S1, S2. cbn [fmap list_fmap sumZ foldr]. split.
    + rewrite S1, <- I1. unfold sumZ. f_equal. f_equal. apply list_fmap_ext. intros i k' Hi. apply list_elem_of_lookup_2 in Hi. cbv beta. by rewrite E.
    + rewrite S2, Nat2Z.inj_add, <- I2. unfold sumZ. f_equal. f_equal. apply list_fmap_ext. intros i k' Hi. apply list_elem_of_lookup_2 in Hi. cbv beta. by rewrite E.
Qed.
Lemma group_totals {K} `{EqDecision K} (f : SessionRow -> K) l :
  sumZ ((fun g => total_time g.2) <$> group_by f l) = total_time l /\ sumZ ((fun g => Z.of_nat (length g.2)) <$> group_by f l) = Z.of_nat (length l).
Proof.
  unfold group_by. rewrite <- !list_fmap_compose. apply (groups_total f); [apply NoDup_remove_dups|].
  intros s Hs. by apply elem_of_remove_dups, list_elem_of_fmap_2.
Qed.

(** The report of time by category accounts for every session of the period once, whatever groups the administrator
    made: a row for each shown category, its time and count those of the sessions shown under it; with room for
    all rows they add up to all of the device's time. *)
Theorem category_report_accounts_for_all `{SqlRows} default_label w agent from to limit rows :
  let period := List.filter (in_period agent from to) (url_sessions w) in
  let shown s := shown_category default_label (lists w) (s_category s) in
  query_agent_url_categories_time default_label w agent from to limit = Some rows ->
  (forall r, r ∈ rows -> let mine := List.filter (fun s => bool_decide (shown s = (ct_key r, ct_label r))) period in
     ct_time_ms r = total_time mine /\ ct_visit_count r = Z.of_nat (length mine) /\ mine <> [])
  /\ NoDup ((fun r => (ct_key r, ct_label r)) <$> rows)
  /\ StronglySorted (fun r r' => ct_time_ms r' <= ct_time_ms r) rows
  /\ ((length (group_by shown period) <= limit)%nat -> sumZ (ct_time_ms <$> rows) = total_time period /\ sumZ (ct_visit_count <$> rows) = Z.of_nat (length period)).
Proof.
  intros period shown. unfold query_agent_url_categories_time. cbv zeta. fold period. fold shown. destruct (forallb _ _); [|done]. intros [= <-].
  set (all := category_time_row <$> group_by shown period). pose proof (sort_by_perm (fun r => - ct_time_ms r) all) as Hp. set (sorted := sort_by _ all) in *.
  assert ((fun r => (ct_key r, ct_label r)) <$> all = remove_dups (shown <$> period)) as Ek.
  { unfold all, group_by. rewrite <- !list_fmap_compose. erewrite list_fmap_ext; [apply list_fmap_id|]. intros _ [k lab] _. done. }
  split.
  - intros r Hr. assert (r ∈ all) as Ha by (rewrite <- Hp; eapply elem_of_take in Hr as (i & Hi & _); by eapply list_elem_of_lookup_2).
    apply list_elem_of_fmap in Ha as (g & -> & Hg). apply list_elem_of_fmap in Hg as ([k lab] & -> & Hk). cbn [category_time_row ct_time_ms ct_visit_count ct_key ct_label fst snd].
    split; [done|]. split; [done|]. apply elem_of_remove_dups, list_elem_of_fmap in Hk as (s & Hs & Hin). intros E.
    assert (s ∈ List.filter (fun s => bool_decide (shown s = (k, lab))) period) as Hx; [|rewrite E in Hx; by apply not_elem_of_nil in Hx].
    apply list_elem_of_In, filter_In. split; [by apply list_elem_of_In|by apply bool_decide_eq_true].
  - split; [|split].
    + eapply sublist_NoDup; [|apply fmap_sublist, sublist_take]. rewrite Hp, Ek. apply NoDup_remove_dups.
    + assert (StronglySorted (key_le (fun r => - ct_time_ms r)) (take limit sorted)) as Hs.
      { pose proof (sort_by_sorted (fun r => - ct_time_ms r) all) as Hs. fold sorted in Hs. rewrite <- (take_drop limit sorted) in Hs. by eapply StronglySorted_app_1_l. }
      revert Hs. generalize (take limit sorted). induction 1 as [|x l Hl IH Hf]; constructor; [done|]. eapply Forall_impl; [exact Hf|]. unfold key_le. intros. lia.
    + intros Hlen. rewrite take_ge by (rewrite Hp; unfold all; by rewrite length_fmap). destruct (group_totals shown period) as [T1 T2].
      rewrite (sumZ_perm (ct_time_ms <$> sorted) (ct_time_ms <$> all)), (sumZ_perm (ct_visit_count <$> sorted) (ct_visit_count <$> all))
        by (by rewrite Hp).
      unfold all. rewrite <- !list_fmap_compose. by split.
Qed.

(** ** Examples, and behaviours worth knowing *)

Lemma ex_lists_ok : lists_ok ex_lists.
Proof.
  assert (forall i c, url_categories ex_lists !! i = Some c -> (i = 1 /\ cat_key c = "news"%string) \/ (i = 2 /\ cat_key c = "games"%string)) as N.
  { intros i c Hc. unfold ex_lists in Hc. cbn [url_categories] in Hc. apply lookup_insert_Some in Hc as [[<- <-]|[_ Hc]]; [by left|].
    apply lookup_singleton_Some in Hc as [<- <-]. by right. }
  split.
  - split; [intros i c [[-> _]|[-> _]]%N; by vm_compute|]. intros i j c d [[-> E]|[-> E]]%N [[-> E']|[-> E']]%N Hk; congruence.
  - unfold ex_lists. cbn [url_category_domain_entries url_category_url_entries url_categories]. intros c d [Hd|Hd]; [assert (c = 1 \/ c = 2) as [->| ->] by set_solver|assert (c = 2) as -> by set_solver]; by eexists.
  - unfold ex_lists. cbn [url_category_overrides_domain url_category_overrides_url url_categories].
    intros o [->%list_elem_of_singleton|Ho%not_elem_of_nil]; [by eexists|done].
  - split; [apply NoDup_singleton|apply NoDup_nil_2].
  - split; [apply NoDup_nil_2|]. intros r Hr. by apply not_elem_of_nil in Hr.
  - intros r s Hr. by apply not_elem_of_nil in Hr.
  - intros i c Hc. by destruct (lookup_empty_Some (M := gmap Z) _ _ Hc).
  - intros i j c d Hc. by destruct (lookup_empty_Some (M := gmap Z) _ _ Hc).
  - intros k i Hc. by destruct (lookup_empty_Some (M := gmap string) _ _ Hc).
  - split; [by left|done].
  - done.
Qed.
Definition NLs : string := String LF EmptyString.
Definition ex_archive : list (string * option string) :=
  [("m/blacklists/sports/domains", Some ("goal.example" ++ NLs ++ "# comment" ++ NLs ++ " score.example " ++ NLs)); ("m/blacklists/news/urls", Some "a.org/news"); ("m/README", Some "hello")]%string.
Definition ex_download : Download := {|
  dl_response := Ok (Some 10); dl_chunks := [(4, true); (6, false)]; dl_stream_error := None; dl_sha256 := "abc"; dl_archive := Ok ex_archive; dl_keys := fun ks => ks |}.
Definition ex_db : JobDb := {| jd_read := true; jd_reset := true; jd_start := true; jd_importing := true; jd_release := true; jd_commit := true; jd_ok := true; jd_ready := true;
                               jd_err := true; jd_error := true |}.
Definition ex_update (stop : JobStop) (after : nat) : Lists := update_job ex_url_parse Some to_ascii_lowercase ex_lists ex_download 50 ex_db stop after.
Lemma update_replaces_or_keeps_witness :
  jb_state (url_categorization_job (ex_update RunsOut 0)) = "ready"%string
  /\ elements (url_category_domain_entries (ex_update RunsOut 0)) = [(3, "goal.example"); (3, "score.example")]%string
  /\ lists_ok (ex_update TimedOut 2)
  /\ exists dom urls id, replaced_by dom urls id ex_lists (ex_update RunsOut 0).
Proof.
  split; [by vm_compute|]. split; [by vm_compute|]. split.
  - exact (proj1 (@update_replaces_or_keeps first_rows ex_url_parse Some to_ascii_lowercase ex_lists ex_download 50 ex_db TimedOut 2 ex_lists_ok (fun ks => reflexivity ks))).
  - destruct (@update_replaces_or_keeps first_rows ex_url_parse Some to_ascii_lowercase ex_lists ex_download 50 ex_db RunsOut 0 ex_lists_ok) as (_ & _ & Hr); [done|].
    destruct Hr as (es & id & _ & Hp & _); [done|by repeat split|by repeat split|done|]. do 2 eexists. exists id. exact Hp.
Defined.
Lemma stored_rules_stay_consistent_witness :
  lists_ok (foldl (lists_step ex_url_parse Some to_ascii_lowercase id) ex_lists
              [AddOverride "url" "a.org" "games" "" 5 true Committed; CreateCustom {| cc_key := "Fun"; cc_label_en := " Fun "; cc_description_en := ""; cc_display_order := 0; cc_hidden := false |} true;
               PutMembers 1 ["games"; "games"]%string true true true; UpdateJob ex_download 60 ex_db Killed 3; DeleteCustom 1 true]).
Proof.
  apply (stored_rules_stay_consistent ex_url_parse Some to_ascii_lowercase id); [exact ex_lists_ok|]. repeat (apply Forall_cons; split); try exact I; [intros ks; reflexivity|apply Forall_nil; exact I].
Defined.

(** A job that ended with its process leaves the state that keeps every later one from starting. *)
Lemma interrupted_update_blocks_updates :
  (forall d now db stop n, jd_read db = true ->
     update_job ex_url_parse Some to_ascii_lowercase (ex_update Killed 1) d now db stop n = ex_update Killed 1)
  /\ jb_state (url_categorization_job (ex_update Killed 1)) = "downloading"%string.
Proof. split; [|by vm_compute]. intros d now db stop n Hr. unfold update_job. rewrite Hr. by vm_compute. Qed.
(** Two groups: [put] sets the members of one. *)
Definition ex_groups : Lists :=
  with_members (with_customs ex_lists {[ 1 := {| cu_key := "a"; cu_label_en := "A"; cu_description_en := ""; cu_display_order := 0; cu_hidden := false |};
                                         2 := {| cu_key := "b"; cu_label_en := "B"; cu_description_en := ""; cu_display_order := 0; cu_hidden := false |} ]} 3) {[ "news"%string := 2 ]}.
Definition put (l : Lists) (id : Z) (keys : list string) : Lists * result nat AdminError := put_custom_category_members (fun ks => ks) l id keys true true true.
(** A key moved from group 2 to group 1, with group 1 saved first: the key is answered as stored, and ends in neither. *)
Lemma moved_key_is_lost :
  (put ex_groups 1 ["news"%string]).2 = Ok 1%nat
  /\ url_custom_category_members (put ex_groups 1 ["news"%string]).1 !! "news"%string = Some 2
  /\ url_custom_category_members (put (put ex_groups 1 ["news"%string]).1 2 []).1 !! "news"%string = None.
Proof. by vm_compute. Qed.
(** An override is stored as typed, and compared with the parsed URL, whose host is in lower case. *)
Definition ex_lower_parse (s : string) : option ParsedUrl :=
  if String.prefix "https://" (to_ascii_lowercase s) then Some {| pu_host := Some (before_slash (String.substring 8 (String.length s) (to_ascii_lowercase s))); pu_text := to_ascii_lowercase s |}
  else None.
Lemma url_override_is_not_normalized :
  let '(l, r) := add_override Some to_ascii_lowercase ex_lists "url" "https://News.example.net/" "games" "" 5 true Committed in
  r = Ok (UrlPrefix "https://News.example.net/")
  /\ @categorize_url_now first_rows ex_lower_parse Some to_ascii_lowercase l "news.example.net" "https://News.example.net/a" (fun _ => true) = Some None.
Proof. by vm_compute. Qed.
(** The label's limit counts bytes. *)
Lemma label_limit_counts_bytes :
  let label := String.concat "" (replicate 65 "é")%string in chars_count label = 65%nat /\ label_ok label = false.
Proof. by vm_compute. Qed.
