(* ===== verification/RecallBrowse.v ===== *)
(** Browsing and searching Recall on the server: the filters of [server/src/recall/context.rs], the
    cursors of [recall/api/cursor.rs] and [api/mod.rs], the pages of [recall/db/timeline.rs] and
    [db/search.rs], and the endpoints of [api/handlers/]. Rows are [HistoryIngest]'s with their index id.
    A rank is a [float4] in multiples of its smallest positive value; full-text matching, ranking and
    headlines are PostgreSQL's, RFC 3339 is [chrono]'s, and a cursor's text is [serde_json]'s in base64. *)
From stdpp Require Import sorting.
From S2P Require Import Registry Accounts Throttle Permissions RecallContext Fence Keyframes HistoryIngest.
From S2P Require Import Prelude Text Json Protocol Sql.

(** ** Filters *)

Record Filters := { fl_app : option string; fl_app_mode : string; fl_title : option string; fl_url_host : option string; fl_context : string }.
#[export] Instance Filters_eq_dec : EqDecision Filters.
Proof. solve_decision. Defined.
Definition Filters_default : Filters := {| fl_app := None; fl_app_mode := "exact"; fl_title := None; fl_url_host := None; fl_context := "all" |}.
Definition active (f : Filters) : bool :=
  isSome (fl_app f) || isSome (fl_title f) || isSome (fl_url_host f) || negb (String.eqb (fl_context f) "all").
Definition one_of (names : list string) (s : string) : bool := existsb (String.eqb s) names.
Definition bad_value (max : nat) (s : string) : bool := String.eqb s "" || (max <? String.length s)%nat || is_control s.

Section filters.
Context `{HostText}.
Definition validate (f : Filters) : result unit string :=
  if negb (one_of ["exact"; "prefix"] (fl_app_mode f)) || negb (one_of ["all"; "known"; "unknown"] (fl_context f))
     || negb (isSome (fl_app f)) && negb (String.eqb (fl_app_mode f) "exact")
  then Err "invalid context filters"%string
  else if is_some_and (fl_app f) (bad_value 256) || is_some_and (fl_title f) (bad_value 1024) then Err "invalid context filter value"%string
  else if is_some_and (fl_app f) (fun s => negb (String.eqb s (to_ascii_lowercase s))) then Err "invalid app filter"%string
  else
    let* _ := match fl_url_host f with
              | Some host => let* h := normalize_host host in ensure String.eqb h host else "invalid host filter"%string in Ok tt
              | None => Ok tt
              end in
    if String.eqb (fl_context f) "unknown" && (isSome (fl_app f) || isSome (fl_title f) || isSome (fl_url_host f))
    then Err "context=unknown cannot combine with value filters"%string else Ok tt.

(** The filters of a request; omitted ones are [None]. *)
Record ContextFilterQuery := {
  cf_app : option string; cf_app_mode : option string; cf_title : option string; cf_url_host : option string; cf_context : option string
}.
Definition ContextFilterQuery_default : ContextFilterQuery :=
  {| cf_app := None; cf_app_mode := None; cf_title := None; cf_url_host := None; cf_context := None |}.
Definition unless_blank (s v : string) : option string := if String.eqb (trim s) "" then None else Some v.
Definition resolve (q : ContextFilterQuery) (previous : option Filters) : result Filters string :=
  let old := default Filters_default previous in
  let* host := match cf_url_host q with
               | None => Ok (fl_url_host old)
               | Some host => if String.eqb (trim host) "" then Ok None else let* h := normalize_host (trim host) in Ok (Some h)
               end in
  let f := {| fl_app := match cf_app q with Some app => unless_blank app (to_ascii_lowercase (trim app)) | None => fl_app old end;
              fl_app_mode := default (fl_app_mode old) (cf_app_mode q);
              fl_title := match cf_title q with Some title => unless_blank title (trim title) | None => fl_title old end;
              fl_url_host := host; fl_context := default (fl_context old) (cf_context q) |} in
  ensure negb (isSome (cf_app_mode q) && negb (isSome (fl_app f))) else "app_mode requires app"%string in
  let* _ := validate f in
  ensure is_none_or previous (fun old => bool_decide (old = f)) else "cursor does not match context filters"%string in
  Ok f.
End filters.

Fixpoint literal_like (s : string) : string :=
  match s with
  | EmptyString => EmptyString
  | String c s => if plain_char c then String c (literal_like s) else String "\" (String c (literal_like s))
  end.

(** ** Cursors *)

(** An [f32]: its value in multiples of [2 ^ -149], an infinity by its sign, or NaN. *)
Inductive Rank : Type := Finite (z : Z) | Infinite (positive : bool) | NaN.
#[export] Instance Rank_eq_dec : EqDecision Rank.
Proof. solve_decision. Defined.
Record ScreenFramePosition := { po_captured_at : Z; po_id : Z; po_rank : option Rank }.
Record HistoryCursor := {
  hc_version : Z; hc_agent : Uuid; hc_query : option string; hc_from : option Z; hc_to : Z; hc_monitor : option Z;
  hc_scope : string; hc_sort : string; hc_position : ScreenFramePosition; hc_filters : Filters
}.
#[export] Instance ScreenFramePosition_eq_dec : EqDecision ScreenFramePosition.
Proof. solve_decision. Defined.
#[export] Instance HistoryCursor_eq_dec : EqDecision HistoryCursor.
Proof. solve_decision. Defined.
Definition with_position (c : HistoryCursor) (p : ScreenFramePosition) : HistoryCursor :=
  {| hc_version := hc_version c; hc_agent := hc_agent c; hc_query := hc_query c; hc_from := hc_from c; hc_to := hc_to c;
     hc_monitor := hc_monitor c; hc_scope := hc_scope c; hc_sort := hc_sort c; hc_position := p; hc_filters := hc_filters c |}.

(** The derived JSON of a cursor in URL-safe base64, and back: a finite rank is read back exactly. *)
Definition finite_position (p : ScreenFramePosition) : bool := is_none_or (po_rank p) (fun r => match r with Finite _ => true | _ => false end).
Class CursorText := {
  cursor_text : HistoryCursor -> string;
  cursor_read : string -> option HistoryCursor;
  cursor_read_text : forall c, finite_position (hc_position c) = true -> cursor_read (cursor_text c) = Some c
}.
(** [to_rfc3339], read back by [parse_from_rfc3339] for the years of four digits. *)
Definition rfc3339_min : Z := - 62167219200 * 1000000000.
Definition rfc3339_max : Z := 253402300800 * 1000000000 - 1.
Class Rfc3339Text `{ChronoText} := {
  to_rfc3339 : Z -> string;
  rfc3339_read : forall t, rfc3339_min <= t <= rfc3339_max -> parse_rfc3339 (trim (to_rfc3339 t)) = Some t
}.

Section cursors.
Context `{HostText, CursorText, Rfc3339Text}.

Definition MAX_CURSOR_BYTES : Z := 65536.
Definition nonneg_rank (r : option Rank) : bool := is_some_and r (fun r => match r with Finite z => 0 <=? z | _ => false end).
Definition cursor_ok (c : HistoryCursor) : bool :=
  let p := hc_position c in
  ((hc_version c =? 1) || (hc_version c =? 2)) && is_ok (validate (hc_filters c))
  && negb ((hc_version c =? 1) && active (hc_filters c)) && (0 <? po_id p)
  && is_none_or (hc_from c) (fun from => (from <=? hc_to c) && (from <=? po_captured_at p)) && (po_captured_at p <=? hc_to c)
  && is_none_or (hc_monitor c) (fun m => 0 <=? m) && one_of ["range"; "retained"] (hc_scope c)
  && Bool.eqb (String.eqb (hc_scope c) "range") (isSome (hc_from c))
  && match hc_query c with
     | None => String.eqb (hc_sort c) "oldest" && String.eqb (hc_scope c) "range" && negb (isSome (po_rank p)) && negb (active (hc_filters c))
     | Some q =>
         (Z.of_nat (String.length q) <=? 4096)
         && (negb (String.eqb q "")
             || (hc_version c =? 2) && active (hc_filters c) && String.eqb (hc_sort c) "newest" && bool_decide (po_rank p = Some (Finite 0)))
         && String.eqb (trim q) q && one_of ["ranked"; "newest"] (hc_sort c) && nonneg_rank (po_rank p)
     end.
Definition decode_cursor (raw : option string) : result (option HistoryCursor) string :=
  match raw with
  | None => Ok None
  | Some raw =>
      if MAX_CURSOR_BYTES <? Z.of_nat (String.length raw) then Err "invalid cursor"%string
      else let* c := ok_or (cursor_read raw) "invalid cursor"%string in
           ensure cursor_ok c else "invalid cursor"%string in Ok (Some c)
  end.

Definition day_ns : Z := secs 86400.
Definition parse_bound (s : option string) (absent : Z) (msg : string) : result Z string :=
  match s with None => Ok absent | Some s => ok_or (parse_rfc3339 (trim s)) msg end.
Definition parse_range (now : Z) (from to : option string) : result (Z * Z) string :=
  let* end_ := parse_bound to now "invalid 'to' (expected RFC3339)"%string in
  let* start := parse_bound from (end_ - day_ns) "invalid 'from' (expected RFC3339)"%string in
  ensure start <=? end_ else "'from' must be <= 'to'"%string in Ok (start, end_).

Definition or_else {A} (o p : option A) : option A := match o with Some _ => o | None => p end.
Definition default_sort (query : option string) : string :=
  match query with None => "oldest" | Some q => if String.eqb q "" then "newest" else "ranked" end.
Definition sort_ok (query : option string) (sort : string) : bool :=
  match query with
  | None => String.eqb sort "oldest"
  | Some q => (negb (String.eqb q "") || String.eqb sort "newest") && one_of ["ranked"; "newest"] sort
  end.
Definition filtered_page_context (now : Z) (agent : Uuid) (query from to : option string) (monitor : option Z) (scope sort raw_cursor : option string)
    (requested : ContextFilterQuery) : result HistoryCursor string :=
  let* cursor := decode_cursor raw_cursor in
  let* filters := resolve requested (hc_filters <$> cursor) in
  ensure negb (bool_decide (query = Some ""%string) && negb (active filters)) else "missing search query or context filters"%string in
  let scope := default "range"%string (or_else scope (hc_scope <$> cursor)) in
  let sort := default (default_sort query) (or_else sort (hc_sort <$> cursor)) in
  ensure one_of ["range"; "retained"] scope && (isSome query || String.eqb scope "range") else "invalid 'scope' (expected range or retained)"%string in
  ensure sort_ok query sort else "invalid 'sort' (expected ranked or newest)"%string in
  ensure negb (is_some_and monitor (fun m => m <? 0)) else "invalid 'monitor' (must be non-negative)"%string in
  ensure negb (String.eqb scope "retained" && isSome from) else "'from' is incompatible with scope=retained"%string in
  let from := or_else from (c ← cursor; to_rfc3339 <$> hc_from c) in
  let to := or_else to ((fun c => to_rfc3339 (hc_to c)) <$> cursor) in
  let* range := parse_range now from to in
  let from := if String.eqb scope "retained" then None else Some range.1 in
  let monitor := or_else monitor (cursor ≫= hc_monitor) in
  match cursor with
  | Some c =>
      if negb (bool_decide (hc_agent c = agent)) || negb (bool_decide (hc_query c = query)) || negb (bool_decide (hc_from c = from))
         || negb (hc_to c =? range.2) || negb (bool_decide (hc_monitor c = monitor)) || negb (String.eqb (hc_scope c) scope)
         || negb (String.eqb (hc_sort c) sort)
      then Err "cursor does not match request filters"%string else Ok c
  | None =>
      Ok {| hc_version := 2; hc_agent := agent; hc_query := query; hc_from := from; hc_to := range.2; hc_monitor := monitor;
            hc_scope := scope; hc_sort := sort; hc_position := {| po_captured_at := range.1; po_id := 0; po_rank := None |}; hc_filters := filters |}
  end.
Definition page_context (now : Z) (agent : Uuid) (query from to : option string) (monitor : option Z) (scope sort raw_cursor : option string)
    : result HistoryCursor string :=
  filtered_page_context now agent query from to monitor scope sort raw_cursor ContextFilterQuery_default.
Definition next_cursor (context : HistoryCursor) (p : option ScreenFramePosition) : option string :=
  (fun p => cursor_text (with_position context p)) <$> p.
End cursors.

(** ** Rows and pages *)

(** A row of [screen_frames], by its index id. *)
Record IndexRow := { ix_id : Z; ix_frame : ScreenFrame }.
Abbreviation FrameTable := (list IndexRow) (only parsing).
Definition captured_at (r : IndexRow) : Z := sf_captured_at (ix_frame r).
Record FrameMeta := {
  fm_id : Z; fm_captured_at : Z; fm_monitor : Z; fm_w : Z; fm_h : Z; fm_phash : string; fm_has_ocr : bool; fm_context : option json;
  fm_duration_ms : option Z; fm_rank : option Z; fm_snippet : option string
}.
Record ScreenFramePage := { sp_items : list FrameMeta; sp_next : option ScreenFramePosition }.

(** PostgreSQL's [websearch_to_tsquery] against the [to_tsvector] of a text: whether it matches, its
    [ts_rank] and its [ts_headline]. *)
Class FullText := {
  ft_matches : string -> string -> bool;
  ft_rank : string -> string -> Z;
  ft_headline : string -> string -> string;
  ft_rank_nonneg : forall q t, 0 <= ft_rank q t
}.

(** [frame_page], of [limit + 1] rows. *)
Definition frame_page {R} (rows : list R) (limit : Z) (position : R -> ScreenFramePosition) (meta : R -> FrameMeta) : ScreenFramePage :=
  let kept := take (Z.to_nat limit) rows in
  {| sp_items := meta <$> kept; sp_next := if (Z.to_nat limit <? length rows)%nat then position <$> last kept else None |}.

Section pages.
(** [u64::to_string]. *)
Variable decimal : Z -> string.
Context `{HostText, FullText}.

Definition has_text (f : ScreenFrame) : bool := is_some_and (sf_ocr_text f) (fun t => negb (String.eqb t "")).
Definition into_meta (r : IndexRow) : FrameMeta :=
  let f := ix_frame r in
  {| fm_id := ix_id r; fm_captured_at := sf_captured_at f; fm_monitor := sf_monitor f; fm_w := sf_w f; fm_h := sf_h f;
     fm_phash := decimal (sf_phash f mod 2 ^ 64); fm_has_ocr := has_text f; fm_context := m_context (sf_metadata f);
     fm_duration_ms := m_duration_ms (sf_metadata f); fm_rank := None; fm_snippet := None |}.

Definition on_monitor (monitor : option Z) (r : IndexRow) : bool := is_none_or monitor (fun m => sf_monitor (ix_frame r) =? m).
Definition in_listing (agent : Uuid) (from to : Z) (monitor : option Z) (r : IndexRow) : bool :=
  bool_decide (sf_agent (ix_frame r) = agent) && (from <=? captured_at r) && (captured_at r <=? to) && on_monitor monitor r.
Definition frame_key (r : IndexRow) : Z * Z * Z := (0, captured_at r, ix_id r).
Definition frame_position (r : IndexRow) : ScreenFramePosition := {| po_captured_at := captured_at r; po_id := ix_id r; po_rank := None |}.
Definition list_screen_frames_page (t : FrameTable) (agent : Uuid) (from to : Z) (monitor : option Z) (limit : Z)
    (after : option ScreenFramePosition) : ScreenFramePage :=
  let limit := clampZ 1 5000 limit in
  let after := (fun p => (0, po_captured_at p, po_id p)) <$> after in
  frame_page (keyset_rows frame_key after (Z.to_nat (limit + 1)) (List.filter (in_listing agent from to monitor) t)) limit frame_position into_meta.

(** The frame at or before an instant, or else the first after it. *)
Definition newest_first (r : IndexRow) : Z * Z * Z := (0, - captured_at r, - ix_id r).
Definition screen_frame_at (t : FrameTable) (agent : Uuid) (at_ : Z) (monitor : option Z) : option FrameMeta :=
  let of_agent r := bool_decide (sf_agent (ix_frame r) = agent) && on_monitor monitor r in
  match keyset_rows newest_first None 1 (List.filter (fun r => of_agent r && (captured_at r <=? at_)) t) with
  | r :: _ => Some (into_meta r)
  | [] => into_meta <$> head (keyset_rows frame_key None 1 (List.filter (fun r => of_agent r && (at_ <? captured_at r)) t))
  end.

(** [screen_frame_activity]: frames per bucket of so many seconds. *)
Record ActivityPoint := { ap_t : Z; ap_count : Z }.
Definition bucket_of (bucket : Z) (r : IndexRow) : Z := captured_at r / (bucket * 1000000000) * bucket.
Definition group_counts (ks : list Z) : list (Z * Z) :=
  (fun k => (k, Z.of_nat (length (List.filter (Z.eqb k) ks)))) <$> merge_sort Z.le (remove_dups ks).
Definition screen_frame_activity (t : FrameTable) (agent : Uuid) (from to : Z) (monitor : option Z) (bucket_secs : Z) : list ActivityPoint :=
  let bucket := Z.max 1 bucket_secs in
  (fun g => {| ap_t := g.1; ap_count := g.2 |}) <$> group_counts (bucket_of bucket <$> List.filter (in_listing agent from to monitor) t).

Definition max_of (l : list Z) : Z := match l with [] => 0 | x :: l => foldl Z.max x l end.
Record RecordedMonitor := { rm_monitor : Z; rm_frame_count : Z; rm_w : Z; rm_h : Z }.
Definition screen_frame_monitors (t : FrameTable) (agent : Uuid) (from to : Z) : list RecordedMonitor :=
  let rows := List.filter (in_listing agent from to None) t in
  (fun g => let of_monitor := List.filter (fun r => sf_monitor (ix_frame r) =? g.1) rows in
            {| rm_monitor := g.1; rm_frame_count := g.2; rm_w := max_of ((fun r => sf_w (ix_frame r)) <$> of_monitor);
               rm_h := max_of ((fun r => sf_h (ix_frame r)) <$> of_monitor) |})
  <$> group_counts ((fun r => sf_monitor (ix_frame r)) <$> rows).
Definition DEVICE_LIST_LOOKBACK_DAYS : Z := 30.
Definition list_agents_with_screen_history (t : FrameTable) (now : Z) : list Uuid :=
  remove_dups ((fun r => sf_agent (ix_frame r)) <$> List.filter (fun r => now - DEVICE_LIST_LOOKBACK_DAYS * (86400 * 1000000000) <=? captured_at r) t).

(** ** Search *)

(** The pattern bound for the app, and the one for the title. *)
Definition app_pattern (f : Filters) : option string :=
  (fun app => if String.eqb (fl_app_mode f) "prefix" then (literal_like app ++ "%")%string else app) <$> fl_app f.
Definition title_pattern (f : Filters) : option string := (fun s => ("%" ++ literal_like s ++ "%")%string) <$> fl_title f.
(** [ILIKE] under the "C" collation folds ASCII only. *)
Definition ilike (p s : string) : bool := like (to_ascii_lowercase p) (to_ascii_lowercase s).
Definition context_hit (f : Filters) (m : Metadata) : bool :=
  is_none_or (app_pattern f) (fun p =>
    String.eqb (fl_app_mode f) "exact" && bool_decide (m_app m = Some p) || String.eqb (fl_app_mode f) "prefix" && is_some_and (m_app m) (like p))
  && is_none_or (title_pattern f) (fun p => is_some_and (m_title m) (ilike p))
  && is_none_or (fl_url_host f) (fun h => bool_decide (m_host m = Some h))
  && (String.eqb (fl_context f) "all"
      || String.eqb (fl_context f) "known" && (isSome (m_app m) || isSome (m_title m) || isSome (m_host m))
      || String.eqb (fl_context f) "unknown" && negb (isSome (m_app m) || isSome (m_title m) || isSome (m_host m))).
Definition ocr_text (r : IndexRow) : string := default ""%string (sf_ocr_text (ix_frame r)).
Definition is_hit (agent : Uuid) (query : string) (from : option Z) (to : Z) (monitor : option Z) (f : Filters) (r : IndexRow) : bool :=
  bool_decide (sf_agent (ix_frame r) = agent) && is_none_or from (fun from => from <=? captured_at r) && (captured_at r <=? to)
  && on_monitor monitor r && (String.eqb query "" || ft_matches query (ocr_text r)) && context_hit f (sf_metadata (ix_frame r)).
Definition hit_rank (query : string) (r : IndexRow) : Z := if String.eqb query "" then 0 else ft_rank query (ocr_text r).
Definition hit_snippet (query : string) (r : IndexRow) : string := if String.eqb query "" then ""%string else ft_headline query (ocr_text r).
Definition hit_key (newest : bool) (query : string) (r : IndexRow) : Z * Z * Z :=
  if newest then (0, - captured_at r, - ix_id r) else (- hit_rank query r, - captured_at r, - ix_id r).
(** The keyset condition of a position ([Some None] holds of every row, as PostgreSQL sorts infinity and
    NaN last), or [None] when no row meets it: a negative rank, or none where ranks are compared. *)
Definition after_key (newest : bool) (p : ScreenFramePosition) : option (option (Z * Z * Z)) :=
  let at_rank r := Some (Some (r, - po_captured_at p, - po_id p)) in
  match po_rank p with
  | None => if newest then at_rank 0 else None
  | Some (Finite r) => if r <? 0 then None else at_rank (if newest then 0 else - r)
  | Some (Infinite false) => None
  | Some (Infinite true) | Some NaN => if newest then at_rank 0 else Some None
  end.
Definition hit_position (query : string) (r : IndexRow) : ScreenFramePosition :=
  {| po_captured_at := captured_at r; po_id := ix_id r; po_rank := Some (Finite (hit_rank query r)) |}.
Definition hit_meta (query : string) (r : IndexRow) : FrameMeta :=
  let m := into_meta r in
  {| fm_id := fm_id m; fm_captured_at := fm_captured_at m; fm_monitor := fm_monitor m; fm_w := fm_w m; fm_h := fm_h m; fm_phash := fm_phash m;
     fm_has_ocr := fm_has_ocr m; fm_context := fm_context m; fm_duration_ms := fm_duration_ms m;
     fm_rank := Some (hit_rank query r); fm_snippet := Some (hit_snippet query r) |}.
Definition search_screen_frames_filtered_page (t : FrameTable) (agent : Uuid) (query : string) (from : option Z) (to : Z) (monitor : option Z)
    (limit : Z) (newest : bool) (after : option ScreenFramePosition) (f : Filters) : result ScreenFramePage string :=
  let* _ := validate f in
  ensure negb (String.eqb query "") || active f && newest else "invalid context-only search"%string in
  let limit := clampZ 1 500 limit in
  let hits := List.filter (is_hit agent query from to monitor f) t in
  let condition := match after with None => Some None | Some p => after_key newest p end in
  let rows := match condition with Some k => keyset_rows (hit_key newest query) k (Z.to_nat (limit + 1)) hits | None => [] end in
  Ok (frame_page rows limit (hit_position query) (hit_meta query)).
End pages.

(** ** Endpoints *)

Record AuditRow := {
  au_actor : string; au_agent : Uuid; au_action : string; au_role : string; au_search : option (string * Filters * string * string); au_ip : option string
}.
(** The audit throttle and the audit table. *)
Record RecallViews := { rv_seen : gmap RecallAuditKey Instant; rv_audit : list AuditRow }.
(** The clocks, the peer's address, and whether the audit insert and the query succeed. *)
Record ViewEnv := { ve_now : Z; ve_instant : Instant; ve_ip : option string; ve_audited : bool; ve_db : bool }.
Definition AUDIT_REPLAY : string := "recall_replay".
Definition AUDIT_SEARCH : string := "recall_search".
Definition AUDIT_DAY_VIEW : string := "recall_day_view".
Definition MAX_FRAMES : Z := 5000.

(** [insert_audit_log_traced]: a failure is only logged. *)
Definition insert_audit (v : RecallViews) (e : ViewEnv) (row : AuditRow) : RecallViews :=
  {| rv_seen := rv_seen v; rv_audit := if ve_audited e then rv_audit v ++ [row] else rv_audit v |}.
Definition audit_recall (v : RecallViews) (e : ViewEnv) (user : SignedIn) (agent : Uuid) (action : string) : RecallViews :=
  let '(seen, due) := recall_audit_decision (rv_seen v) (si_user user, agent, action) (ve_instant e) in
  let v := {| rv_seen := seen; rv_audit := rv_audit v |} in
  if due then insert_audit v e {| au_actor := si_name user; au_agent := agent; au_action := action; au_role := si_role user; au_search := None; au_ip := ve_ip e |}
  else v.
Definition or_bad_request {T} (r : result T string) : ApiResult T := rmap_err BadRequest r.
Definition queried {T} (e : ViewEnv) (t : T) : ApiResult T := if ve_db e then Ok t else Err Internal.

Record FramesQuery := { fq_cursor : option string; fq_from : option string; fq_to : option string; fq_monitor : option Z; fq_limit : option Z }.
Record FramesPage := {
  fp_from : Z; fp_to : Z; fp_monitor : option Z; fp_count : Z; fp_frames : list FrameMeta; fp_limit : Z; fp_has_more : bool; fp_complete : bool;
  fp_next_cursor : option string
}.
Record SearchQuery := {
  sq_filters : ContextFilterQuery; sq_cursor : option string; sq_scope : option string; sq_sort : option string; sq_q : option string;
  sq_from : option string; sq_to : option string; sq_monitor : option Z; sq_limit : option Z
}.
Record SearchPage := {
  hp_query : string; hp_from : option Z; hp_to : Z; hp_filters : Filters; hp_count : Z; hp_results : list FrameMeta; hp_monitor : option Z;
  hp_scope : string; hp_sort : string; hp_limit : Z; hp_has_more : bool; hp_complete : bool; hp_next_cursor : option string
}.
Record FrameText := { ft_text : option string; ft_words : json }.

Section endpoints.
Variable decimal : Z -> string.
Context `{HostText, FullText, CursorText, Rfc3339Text}.

Definition history_frames (v : RecallViews) (t : FrameTable) (e : ViewEnv) (user : SignedIn) (id : Uuid) (q : FramesQuery) : RecallViews * ApiResult FramesPage :=
  match require_operator user with
  | Err x => (v, Err x)
  | Ok user =>
      match or_bad_request (page_context (ve_now e) id None (fq_from q) (fq_to q) (fq_monitor q) None None (fq_cursor q)) with
      | Err x => (v, Err x)
      | Ok context =>
          let from := default 0 (hc_from context) in
          let limit := clampZ 1 MAX_FRAMES (default 2000 (fq_limit q)) in
          let page := list_screen_frames_page decimal t id from (hc_to context) (hc_monitor context) limit ((fun _ => hc_position context) <$> fq_cursor q) in
          let next := next_cursor context (sp_next page) in
          (audit_recall v e user id AUDIT_REPLAY,
           queried e {| fp_from := from; fp_to := hc_to context; fp_monitor := hc_monitor context; fp_count := Z.of_nat (length (sp_items page));
                        fp_frames := sp_items page; fp_limit := limit; fp_has_more := isSome next; fp_complete := negb (isSome next); fp_next_cursor := next |})
      end
  end.

Definition history_search (v : RecallViews) (t : FrameTable) (e : ViewEnv) (user : SignedIn) (id : Uuid) (q : SearchQuery) : RecallViews * ApiResult SearchPage :=
  match require_operator user with
  | Err x => (v, Err x)
  | Ok user =>
      let query := default ""%string (trim <$> sq_q q) in
      if 4096 <? Z.of_nat (String.length query) then (v, Err (BadRequest "search query 'q' is too long (maximum 4096 bytes)"))
      else
        match or_bad_request (filtered_page_context (ve_now e) id (Some query) (sq_from q) (sq_to q) (sq_monitor q) (sq_scope q) (sq_sort q) (sq_cursor q) (sq_filters q)) with
        | Err x => (v, Err x)
        | Ok context =>
            let v := insert_audit v e {| au_actor := si_name user; au_agent := id; au_action := AUDIT_SEARCH; au_role := si_role user;
                                         au_search := Some (query, hc_filters context, hc_scope context, hc_sort context); au_ip := ve_ip e |} in
            let limit := clampZ 1 500 (default 100 (sq_limit q)) in
            (v, let* _ := queried e tt in
                let* page := rmap_err (fun _ => Internal)
                  (search_screen_frames_filtered_page decimal t id query (hc_from context) (hc_to context) (hc_monitor context) limit
                     (String.eqb (hc_sort context) "newest") ((fun _ => hc_position context) <$> sq_cursor q) (hc_filters context)) in
                let next := next_cursor context (sp_next page) in
                Ok {| hp_query := query; hp_from := hc_from context; hp_to := hc_to context; hp_filters := hc_filters context;
                      hp_count := Z.of_nat (length (sp_items page)); hp_results := sp_items page; hp_monitor := hc_monitor context;
                      hp_scope := hc_scope context; hp_sort := hc_sort context; hp_limit := limit; hp_has_more := isSome next;
                      hp_complete := negb (isSome next); hp_next_cursor := next |})
        end
  end.

(** The other views of a device, each for operators. *)
Definition history_frame_at (v : RecallViews) (t : FrameTable) (e : ViewEnv) (user : SignedIn) (id : Uuid) (at_ : option string) (monitor : option Z)
    : RecallViews * ApiResult (option FrameMeta) :=
  match require_operator user with
  | Err x => (v, Err x)
  | Ok user =>
      (audit_recall v e user id AUDIT_REPLAY,
       let* at_ := match at_ with
                   | None => Ok (ve_now e)
                   | Some s => ok_or (parse_rfc3339 (trim s)) (BadRequest "invalid 'at' (expected RFC3339)")
                   end in
       queried e (screen_frame_at decimal t id at_ monitor))
  end.
Definition screen_frame_text (t : FrameTable) (agent : Uuid) (id : Z) : option FrameText :=
  (fun r => {| ft_text := sf_ocr_text (ix_frame r); ft_words := default (JArr []) (sf_ocr_words (ix_frame r)) |})
  <$> List.find (fun r => (ix_id r =? id) && bool_decide (sf_agent (ix_frame r) = agent)) t.
Definition history_frame_text (v : RecallViews) (t : FrameTable) (e : ViewEnv) (user : SignedIn) (id : Uuid) (frame : Z) : RecallViews * ApiResult FrameText :=
  match require_operator user with
  | Err x => (v, Err x)
  | Ok user => (audit_recall v e user id AUDIT_REPLAY, let* found := queried e (screen_frame_text t id frame) in ok_or found (NotFoundError "No such frame"))
  end.
Definition bucket_secs (from to buckets : Z) : Z :=
  Z.max 1 (Z.quot (Z.max 1 (Z.quot (to - from) 1000000000)) (clampZ 10 500 buckets)).
Definition history_activity (v : RecallViews) (t : FrameTable) (e : ViewEnv) (user : SignedIn) (id : Uuid) (from to : option string) (monitor buckets : option Z)
    : RecallViews * ApiResult (Z * Z * Z * list ActivityPoint) :=
  match require_operator user with
  | Err x => (v, Err x)
  | Ok user =>
      match or_bad_request (parse_range (ve_now e) from to) with
      | Err x => (v, Err x)
      | Ok (from, to) =>
          let secs := bucket_secs from to (default 120 buckets) in
          (audit_recall v e user id AUDIT_REPLAY, queried e (from, to, secs, screen_frame_activity t id from to monitor secs))
      end
  end.
Definition history_monitors (v : RecallViews) (t : FrameTable) (e : ViewEnv) (user : SignedIn) (id : Uuid) (from to : option string)
    : RecallViews * ApiResult (Z * Z * list RecordedMonitor) :=
  (v, let* _ := require_operator user in
      let* range := or_bad_request (parse_range (ve_now e) from to) in
      queried e (range.1, range.2, screen_frame_monitors t id range.1 range.2)).
Definition history_devices (v : RecallViews) (t : FrameTable) (e : ViewEnv) (user : SignedIn) : RecallViews * ApiResult (list Uuid) :=
  (v, let* _ := require_operator user in queried e (list_agents_with_screen_history t (ve_now e))).

(** Following [next_cursor] until it is absent or a request fails; each page reads its own table. *)
Fixpoint follow_frames (v : RecallViews) (reads : list (ViewEnv * FrameTable)) (user : SignedIn) (id : Uuid) (q : FramesQuery)
    : list FrameMeta * option (ApiResult bool) :=
  match reads with
  | [] => ([], None)
  | (e, t) :: reads =>
      match history_frames v t e user id q with
      | (_, Err x) => ([], Some (Err x))
      | (v, Ok p) =>
          match fp_next_cursor p with
          | None => (fp_frames p, Some (Ok (fp_complete p)))
          | Some c =>
              let '(rest, end_) := follow_frames v reads user id {| fq_cursor := Some c; fq_from := None; fq_to := None; fq_monitor := None; fq_limit := fq_limit q |} in
              (fp_frames p ++ rest, end_)
          end
      end
  end.
Fixpoint follow_search (v : RecallViews) (reads : list (ViewEnv * FrameTable)) (user : SignedIn) (id : Uuid) (q : SearchQuery)
    : list FrameMeta * option (ApiResult bool) :=
  match reads with
  | [] => ([], None)
  | (e, t) :: reads =>
      match history_search v t e user id q with
      | (_, Err x) => ([], Some (Err x))
      | (v, Ok p) =>
          match hp_next_cursor p with
          | None => (hp_results p, Some (Ok (hp_complete p)))
          | Some c =>
              let '(rest, end_) := follow_search v reads user id
                {| sq_filters := ContextFilterQuery_default; sq_cursor := Some c; sq_scope := None; sq_sort := None; sq_q := sq_q q;
                   sq_from := None; sq_to := None; sq_monitor := None; sq_limit := sq_limit q |} in
              (hp_results p ++ rest, end_)
          end
      end
  end.
End endpoints.

(** ** Lemmas: filters *)

Lemma like_escaped c p s : like (String "\" (String c p)) s = match s with String e s => Ascii.eqb c e && like p s | EmptyString => false end.
Proof. by destruct s. Qed.
Lemma like_plain c p s : plain_char c = true -> like (String c p) s = match s with String e s => Ascii.eqb c e && like p s | EmptyString => false end.
Proof.
  unfold plain_char. intros Hc%negb_true_iff. apply orb_false_elim in Hc as [Hc H3]. apply orb_false_elim in Hc as [H1 H2].
  cbn [like]. by rewrite H1, H2, H3.
Qed.
Lemma like_literal_any p s : like (literal_like p ++ "%") s = String.prefix p s.
Proof.
  revert s. induction p as [|c p IH]; intros s; cbn [literal_like].
  { rewrite like_any. by destruct s. }
  assert (like ((if plain_char c then String c (literal_like p) else String "\" (String c (literal_like p))) ++ "%") s
          = match s with String e s => Ascii.eqb c e && like (literal_like p ++ "%") s | EmptyString => false end) as ->.
  { destruct (plain_char c) eqn:Hc; [by apply like_plain|apply like_escaped]. }
  destruct s as [|e s]; [done|]. rewrite IH. cbn [String.prefix].
  destruct (ascii_dec c e) as [->|Hne]; [by rewrite Ascii.eqb_refl|by rewrite (proj2 (Ascii.eqb_neq c e) Hne)].
Qed.
Lemma like_literal_contains p s : like ("%" ++ literal_like p ++ "%") s = str_contains s p.
Proof.
  change (like (String "%" (literal_like p ++ "%")) s = str_contains s p).
  induction s as [|e s IH]; [cbn [like str_contains]; by rewrite like_literal_any, orb_false_r|].
  cbn [str_contains]. rewrite <- IH. cbn [like]. by rewrite <- (like_literal_any p (String e s)).
Qed.
Lemma ascii_lower_special c d : d = "%"%char \/ d = "_"%char \/ d = "\"%char -> Ascii.eqb (ascii_lower c) d = Ascii.eqb c d.
Proof. intros Hd. destruct c as [[] [] [] [] [] [] [] []]; destruct Hd as [->|[->| ->]]; reflexivity. Qed.
Lemma lower_literal p : to_ascii_lowercase (literal_like p) = literal_like (to_ascii_lowercase p).
Proof.
  induction p as [|c p IH]; [done|]. cbn [literal_like to_ascii_lowercase].
  assert (plain_char (ascii_lower c) = plain_char c) as Hp by (unfold plain_char; rewrite !ascii_lower_special by auto; reflexivity).
  rewrite Hp. destruct (plain_char c); cbn [to_ascii_lowercase]; by rewrite IH.
Qed.
Lemma lower_app a b : to_ascii_lowercase (a ++ b) = (to_ascii_lowercase a ++ to_ascii_lowercase b)%string.
Proof. induction a as [|c a IH]; [done|]. change (String (ascii_lower c) (to_ascii_lowercase (a ++ b)) = String (ascii_lower c) (to_ascii_lowercase a ++ to_ascii_lowercase b)). by rewrite IH. Qed.
Lemma ilike_literal p s : ilike ("%" ++ literal_like p ++ "%") s = str_contains (to_ascii_lowercase s) (to_ascii_lowercase p).
Proof.
  unfold ilike. rewrite !lower_app, lower_literal. change (to_ascii_lowercase "%") with "%"%string. apply like_literal_contains.
Qed.

(** What the filters ask of a row's context. *)
Definition wanted (f : Filters) (m : Metadata) : Prop :=
  (forall app, fl_app f = Some app -> exists a, m_app m = Some a /\ if String.eqb (fl_app_mode f) "prefix" then String.prefix app a = true else a = app)
  /\ (forall title, fl_title f = Some title ->
        exists t, m_title m = Some t /\ str_contains (to_ascii_lowercase t) (to_ascii_lowercase title) = true)
  /\ (forall host, fl_url_host f = Some host -> m_host m = Some host)
  /\ (fl_context f = "known"%string -> m_app m <> None \/ m_title m <> None \/ m_host m <> None)
  /\ (fl_context f = "unknown"%string -> m_app m = None /\ m_title m = None /\ m_host m = None).

Lemma one_of_2 a b s : one_of [a; b] s = true <-> s = a \/ s = b.
Proof. unfold one_of. cbn [existsb]. rewrite !orb_true_iff, !String.eqb_eq. naive_solver. Qed.
Lemma one_of_3 a b c s : one_of [a; b; c] s = true <-> s = a \/ s = b \/ s = c.
Proof. unfold one_of. cbn [existsb]. rewrite !orb_true_iff, !String.eqb_eq. naive_solver. Qed.
Lemma validate_modes `{HostText} f : validate f = Ok tt ->
  (fl_app_mode f = "exact" \/ fl_app_mode f = "prefix")%string /\ (fl_context f = "all" \/ fl_context f = "known" \/ fl_context f = "unknown")%string.
Proof.
  unfold validate. destruct (_ || _) eqn:E; [done|]. intros _. bool_prop.
  split; [by apply one_of_2|by apply one_of_3].
Qed.
(** The conditions of the statement, patterns and all, are the filters' meaning. *)
Lemma context_hit_wanted `{HostText} f m : validate f = Ok tt -> context_hit f m = true <-> wanted f m.
Proof.
  intros Hv. apply validate_modes in Hv as [Hmode Hctx]. unfold context_hit, wanted. rewrite !andb_true_iff.
  assert (forall b1 b2 b3 b4 (P1 P2 P3 P4 P5 : Prop), (b1 = true <-> P1) -> (b2 = true <-> P2) -> (b3 = true <-> P3) -> (b4 = true <-> P4 /\ P5) ->
    (((b1 = true /\ b2 = true) /\ b3 = true) /\ b4 = true <-> P1 /\ P2 /\ P3 /\ P4 /\ P5)) as Hsplit by tauto.
  apply Hsplit; clear Hsplit.
  - unfold app_pattern. destruct (fl_app f) as [app|]; [|split; [intros _ ? [=]|done]]. cbn [fmap option_fmap option_map is_none_or].
    transitivity (exists a, m_app m = Some a /\ if String.eqb (fl_app_mode f) "prefix" then String.prefix app a = true else a = app).
    + destruct Hmode as [-> | ->]; cbn [String.eqb Ascii.eqb Bool.eqb andb orb]; simpl.
      * rewrite orb_false_r, bool_decide_eq_true. split; [intros ->; eauto|intros (a & -> & ->); done].
      * rewrite is_some_and_true. split; intros (a & ? & Ha); exists a; (split; [done|]); by rewrite like_literal_any in *.
    + split; [by intros ? ? [= <-]|intros Hw; by apply Hw].
  - unfold title_pattern. destruct (fl_title f) as [title|]; [|split; [intros _ ? [=]|done]]. cbn [fmap option_fmap option_map is_none_or].
    rewrite is_some_and_true. split.
    + intros (t & Ht & Hl) ? [= <-]. exists t. by rewrite <- ilike_literal.
    + intros Hw. destruct (Hw _ eq_refl) as (t & Ht & Hl). exists t. by rewrite ilike_literal.
  - destruct (fl_url_host f) as [host|]; [|split; [intros _ ? [=]|done]]. cbn [is_none_or]. rewrite bool_decide_eq_true.
    split; [by intros ? ? [= <-]|intros Hw; by apply Hw].
  - destruct Hctx as [-> | [-> | ->]]; cbn [String.eqb Ascii.eqb Bool.eqb andb orb];
      destruct (m_app m), (m_title m), (m_host m); simpl; (split; [intros ?; split; intros ?|intros [? ?]]);
      try done; repeat (match goal with H : ?a = ?a -> _ |- _ => specialize (H eq_refl) end); naive_solver.
Qed.

(** ** Lemmas: cursors *)

Section cursor_lemmas.
Context `{HostText, CursorText, Rfc3339Text}.

Lemma resolve_valid q previous f : resolve q previous = Ok f -> validate f = Ok tt.
Proof.
  unfold resolve. intros Hr. apply rbind_Ok in Hr as (host & _ & Hr). revert Hr. cbv zeta. ensure_step.
  intros Hr. apply rbind_Ok in Hr as ([] & Hv & Hr). revert Hr. ensure_step. by intros [= <-].
Qed.
Lemma resolve_inherits f : validate f = Ok tt -> resolve ContextFilterQuery_default (Some f) = Ok f.
Proof.
  intros Hv. unfold resolve, ContextFilterQuery_default. cbn [cf_app cf_app_mode cf_title cf_url_host cf_context rbind default from_option isSome andb negb]. unfold id.
  assert ({| fl_app := fl_app f; fl_app_mode := fl_app_mode f; fl_title := fl_title f; fl_url_host := fl_url_host f; fl_context := fl_context f |} = f) as ->
    by (by destruct f).
  rewrite Hv. cbn [rbind is_none_or]. by rewrite bool_decide_eq_true_2.
Qed.
Lemma resolve_none : resolve ContextFilterQuery_default None = Ok Filters_default.
Proof. reflexivity. Qed.

(** A request's context apart from its position, and the positions its pages can end at. *)
Record context_ok (c : HistoryCursor) : Prop := {
  co_version : hc_version c = 1 \/ hc_version c = 2;
  co_filters : validate (hc_filters c) = Ok tt;
  co_version_1 : hc_version c = 1 -> active (hc_filters c) = false;
  co_range : forall from, hc_from c = Some from -> from <= hc_to c;
  co_monitor : is_none_or (hc_monitor c) (fun m => 0 <=? m) = true;
  co_scope : one_of ["range"; "retained"]%string (hc_scope c) = true;
  co_from : Bool.eqb (String.eqb (hc_scope c) "range") (isSome (hc_from c)) = true;
  co_sort : sort_ok (hc_query c) (hc_sort c) = true;
  co_query : match hc_query c with
             | None => hc_scope c = "range"%string /\ active (hc_filters c) = false
             | Some q => Z.of_nat (String.length q) <= 4096 /\ trim q = q /\ (q = ""%string -> hc_version c = 2 /\ active (hc_filters c) = true)
             end
}.
Definition in_years (c : HistoryCursor) : Prop :=
  rfc3339_min <= hc_to c <= rfc3339_max /\ forall from, hc_from c = Some from -> rfc3339_min <= from <= rfc3339_max.
Record position_ok (c : HistoryCursor) (p : ScreenFramePosition) : Prop := {
  pk_id : 0 < po_id p;
  pk_from : forall from, hc_from c = Some from -> from <= po_captured_at p;
  pk_to : po_captured_at p <= hc_to c;
  pk_rank : match hc_query c with
            | None => po_rank p = None
            | Some q => exists z, po_rank p = Some (Finite z) /\ 0 <= z /\ (q = ""%string -> z = 0)
            end
}.
Definition cursor_fits (c : HistoryCursor) : Prop := Z.of_nat (String.length (cursor_text c)) <= MAX_CURSOR_BYTES.

Lemma position_cursor_ok c p : context_ok c -> position_ok c p -> cursor_ok (with_position c p) = true.
Proof.
  intros [Hver Hf Hv1 Hr Hm Hs Hfr Hso Hq] [Hid Hpf Hpt Hrank]. unfold cursor_ok. cbn [with_position hc_version hc_agent hc_query hc_from hc_to hc_monitor hc_scope hc_sort hc_position hc_filters].
  rewrite Hf, Hm, Hs, Hfr. cbn [is_ok]. rewrite !andb_true_iff. split_and!; try done.
  - by destruct Hver as [-> | ->].
  - destruct Hver as [Hv|Hv]; [by rewrite (Hv1 Hv), andb_false_r|by rewrite Hv].
  - by apply Z.ltb_lt.
  - destruct (hc_from c) as [from|]; [|done]. cbn. apply andb_true_intro. split; apply Z.leb_le; auto.
  - by apply Z.leb_le.
  - unfold sort_ok in Hso. destruct (hc_query c) as [q|].
    + destruct Hq as (Hlen & Ht & Hqe). destruct Hrank as (z & -> & Hz & Hz0). apply andb_prop in Hso as [Hn Hso].
      rewrite Hso, Ht, String.eqb_refl. cbn [nonneg_rank is_some_and]. rewrite (proj2 (Z.leb_le _ _) Hlen), (proj2 (Z.leb_le _ _) Hz).
      destruct (String.eqb q "") eqn:E; [|done]. apply String.eqb_eq in E. destruct (Hqe E) as [-> ->]. rewrite (Hz0 E).
      cbn [negb orb] in Hn. rewrite Hn. by rewrite bool_decide_eq_true_2.
    + destruct Hq as [-> ->]. rewrite Hrank, Hso. done.
Qed.
Lemma position_finite c p : position_ok c p -> finite_position p = true.
Proof. intros [_ _ _ Hr]. unfold finite_position. destruct (hc_query c); [by destruct Hr as (z & -> & _)|by rewrite Hr]. Qed.
Lemma decode_position c p : context_ok c -> position_ok c p -> cursor_fits (with_position c p) ->
  decode_cursor (Some (cursor_text (with_position c p))) = Ok (Some (with_position c p)).
Proof.
  intros Hc Hp Hf. unfold decode_cursor. unfold cursor_fits in Hf. rewrite (proj2 (Z.ltb_ge _ _) Hf).
  rewrite cursor_read_text by (by eapply position_finite). cbn [ok_or rbind]. by rewrite position_cursor_ok.
Qed.

Lemma parse_bound_text t absent msg : rfc3339_min <= t <= rfc3339_max -> parse_bound (Some (to_rfc3339 t)) absent msg = Ok t.
Proof. intros Ht. unfold parse_bound. by rewrite rfc3339_read. Qed.

(** Sending a page's cursor back asks for the same rows, from where the page ended. *)
Lemma continue_context now c p : context_ok c -> position_ok c p -> in_years c -> cursor_fits (with_position c p) ->
  filtered_page_context now (hc_agent c) (hc_query c) None None None None None (Some (cursor_text (with_position c p))) ContextFilterQuery_default
  = Ok (with_position c p).
Proof.
  intros Hc Hp [Hto Hfrom] Hfit. unfold filtered_page_context. rewrite decode_position by done. destruct Hc as [Hver Hf Hv1 Hr Hm Hs Hfr Hso Hq].
  cbn [rbind fmap option_fmap option_map hc_filters with_position]. rewrite resolve_inherits by done. cbn [rbind or_else].
  cbn [hc_scope hc_sort hc_from hc_to hc_monitor with_position default from_option mbind option_bind is_some_and isSome andb negb].
  unfold id. rewrite Hs, Hso. cbn [andb negb].
  assert (negb (bool_decide (hc_query c = Some ""%string) && negb (active (hc_filters c))) = true) as ->.
  { destruct (hc_query c) as [q|]; [|done]. destruct Hq as (_ & _ & Hq). destruct (bool_decide_reflect (Some q = Some ""%string)) as [[= ->]|]; [|done].
    by destruct (Hq eq_refl) as [_ ->]. }
  assert (isSome (hc_query c) || String.eqb (hc_scope c) "range" = true) as ->.
  { destruct (hc_query c); [done|]. by destruct Hq as [-> _]. }
  rewrite andb_false_r. cbn [negb]. unfold parse_range. rewrite parse_bound_text by done. cbn [rbind].
  assert (forall start, parse_bound (to_rfc3339 <$> hc_from c) (hc_to c - day_ns) "invalid 'from' (expected RFC3339)" = Ok start ->
    start <= hc_to c /\ (if String.eqb (hc_scope c) "retained" then None else Some start) = hc_from c) as Hst.
  { intros start. destruct (hc_from c) as [from|] eqn:Ef; cbn [fmap option_fmap option_map].
    - rewrite parse_bound_text by auto. intros [= <-]. split; [by apply Hr|]. cbn [isSome] in Hfr. apply Bool.eqb_prop in Hfr.
      apply String.eqb_eq in Hfr as ->. done.
    - intros [= <-]. split; [unfold day_ns, secs; lia|]. cbn [isSome] in Hfr. apply Bool.eqb_prop in Hfr.
      apply one_of_2 in Hs as [Hs|Hs]; rewrite Hs in *; done. }
  assert (exists start, parse_bound (to_rfc3339 <$> hc_from c) (hc_to c - day_ns) "invalid 'from' (expected RFC3339)" = Ok start) as [start Es].
  { destruct (hc_from c) as [from|]; cbn [fmap option_fmap option_map]; [|by eexists]. exists from. apply parse_bound_text. auto. }
  rewrite Es. destruct (Hst _ Es) as [Hle Heq]. cbn [rbind]. rewrite (proj2 (Z.leb_le _ _) Hle). cbn [rbind fst snd].
  cbn [hc_agent hc_query hc_from hc_to hc_monitor hc_scope hc_sort with_position]. rewrite Heq, !bool_decide_eq_true_2 by done.
  by rewrite Z.eqb_refl, !String.eqb_refl.
Qed.

(** The first request of a listing. *)
Lemma first_context now agent query from to monitor scope sort q c :
  filtered_page_context now agent query from to monitor scope sort None q = Ok c ->
  match query with None => q = ContextFilterQuery_default | Some s => Z.of_nat (String.length s) <= 4096 /\ trim s = s end ->
  context_ok c /\ hc_agent c = agent /\ hc_query c = query.
Proof.
  unfold filtered_page_context. cbn [decode_cursor rbind fmap option_fmap option_map mbind option_bind].
  intros Hc Hq. apply rbind_Ok in Hc as (f & Hf & Hc). revert Hc. do 5 ensure_step. intros Hc.
  apply rbind_Ok in Hc as ([start end_] & Hr & Hc). injection Hc as <-. split; [|done].
  assert (start <= end_) as Hle.
  { unfold parse_range in Hr. apply rbind_Ok in Hr as (e & _ & Hr). apply rbind_Ok in Hr as (s & _ & Hr). revert Hr. ensure_step.
    intros [= <- <-]. by bool_prop. }
  bool_prop. split; cbn [hc_version hc_agent hc_query hc_from hc_to hc_monitor hc_scope hc_sort hc_position hc_filters fst snd]; try done.
  - by right.
  - by eapply resolve_valid.
  - intros from' Hfrom. destruct (String.eqb _ "retained"); [done|]. by injection Hfrom as <-.
  - destruct monitor as [m|]; [|done]. cbn [or_else is_none_or is_some_and] in *. bool_prop. by apply Z.leb_le.
  - match goal with H : one_of _ _ = true |- _ => apply one_of_2 in H as [H|H]; rewrite H in * end; done.
  - destruct query as [s|].
    + destruct Hq as [Hl Ht]. split_and!; [done|done|]. intros ->. split; [done|].
      match goal with H : bool_decide _ && _ = false |- _ => rewrite bool_decide_eq_true_2 in H by done; by apply negb_false_iff in H end.
    + subst q. rewrite resolve_none in Hf. injection Hf as <-. split; [|done].
      match goal with H : isSome None || _ = true |- _ => by apply String.eqb_eq in H end.
Qed.
End cursor_lemmas.

(** ** Lemmas: following a listing *)

(** The primary key of [screen_frames], and ids from its sequence. *)
Definition table_ok (t : FrameTable) : Prop := NoDup ((fun r => (captured_at r, ix_id r)) <$> t) /\ Forall (fun r => 0 < ix_id r) t.
Lemma keys_NoDup {K} (f : IndexRow -> K) t : table_ok t -> (forall x y, f x = f y -> (captured_at x, ix_id x) = (captured_at y, ix_id y)) -> NoDup (f <$> t).
Proof.
  intros [Hnd _] Hf. induction t as [|r t IH]; [constructor|]. cbn in *. inversion Hnd as [|? ? Hr Hnd']; subst. constructor; [|by apply IH].
  intros (r' & He & Hin)%list_elem_of_fmap. apply Hr. apply list_elem_of_fmap. exists r'. split; [by apply Hf|done].
Qed.
Lemma frame_keys_NoDup t f : table_ok t -> NoDup (frame_key <$> List.filter f t).
Proof. intros Ht. apply filter_keys_NoDup, keys_NoDup; [done|]. unfold frame_key. intros x y [= -> ->]. done. Qed.
Lemma hit_keys_NoDup `{FullText} newest query t f : table_ok t -> NoDup (hit_key newest query <$> List.filter f t).
Proof.
  intros Ht. apply filter_keys_NoDup, keys_NoDup; [done|]. unfold hit_key. intros x y. destruct newest; intros [= ? ?]; f_equal; lia.
Qed.
Lemma clamp_page lo hi z : lo <= hi -> clampZ lo hi (clampZ lo hi z) = clampZ lo hi z.
Proof. unfold clampZ. lia. Qed.
Lemma clamp_succ lo hi z : 1 <= lo <= hi -> Z.to_nat (clampZ lo hi z + 1) = S (Z.to_nat (clampZ lo hi z)) /\ (0 < Z.to_nat (clampZ lo hi z))%nat.
Proof. unfold clampZ. lia. Qed.
Lemma in_listing_spec agent from to monitor r : in_listing agent from to monitor r = true <->
  sf_agent (ix_frame r) = agent /\ from <= captured_at r <= to /\ (forall m, monitor = Some m -> sf_monitor (ix_frame r) = m).
Proof.
  unfold in_listing, on_monitor. rewrite !andb_true_iff, bool_decide_eq_true, !Z.leb_le.
  destruct monitor as [m|]; cbn; rewrite ?Z.eqb_eq; naive_solver.
Qed.

Section following.
Variable decimal : Z -> string.
Context `{HostText, FullText, CursorText, Rfc3339Text}.
Implicit Types (c : HistoryCursor).

Definition listed (c : HistoryCursor) : IndexRow -> bool := in_listing (hc_agent c) (default 0 (hc_from c)) (hc_to c) (hc_monitor c).
Lemma listed_position c r : context_ok c -> hc_query c = None -> 0 < ix_id r -> listed c r = true -> position_ok c (frame_position r).
Proof.
  intros Hc Hq Hid (Ha & [Hf Ht] & _)%in_listing_spec. split; cbn [frame_position po_id po_captured_at po_rank]; [done| |done|by rewrite Hq].
  intros from Hfrom. by rewrite Hfrom in Hf.
Qed.
Definition answered (done : bool) : option (ApiResult bool) := if done then Some (Ok true) else None.

Lemma follow_frames_pages user id reads : forall v q c,
  is_operator user = true -> Forall (fun et => ve_db et.1 = true /\ table_ok et.2) reads ->
  context_ok c -> hc_query c = None -> hc_agent c = id -> in_years c ->
  (forall e t, head reads = Some (e, t) ->
     page_context (ve_now e) id None (fq_from q) (fq_to q) (fq_monitor q) None None (fq_cursor q) = Ok c) ->
  (forall et r, et ∈ reads -> r ∈ et.2 -> listed c r = true -> cursor_fits (with_position c (frame_position r))) ->
  follow_frames decimal v reads user id q
  = let '(rows, done) := pages frame_key (Z.to_nat (clampZ 1 MAX_FRAMES (default 2000 (fq_limit q)))) ((fun et => List.filter (listed c) et.2) <$> reads)
                           ((fun _ => (0, po_captured_at (hc_position c), po_id (hc_position c))) <$> fq_cursor q) in
    (into_meta decimal <$> rows, answered done).
Proof.
  induction reads as [|[e t] reads IH]; intros v q c Hop Hreads Hc Hq Hid Hy Hctx Hfit; [done|].
  apply Forall_cons in Hreads as [[Hdb Ht] Hreads]. cbn [follow_frames fmap list_fmap pages fst snd] in *.
  unfold history_frames. unfold require_operator. rewrite Hop. rewrite (Hctx e t eq_refl). cbn [or_bad_request rmap_err].
  unfold queried. rewrite Hdb. cbn [fp_next_cursor fp_frames fp_complete].
  set (limit := clampZ 1 MAX_FRAMES (default 2000 (fq_limit q))).
  destruct (clamp_succ 1 MAX_FRAMES (default 2000 (fq_limit q))) as [Hsucc Hpos]; [done|]. fold limit in Hsucc, Hpos.
  unfold list_screen_frames_page. assert (clampZ 1 5000 limit = limit) as -> by (by apply clamp_page). rewrite Hsucc.
  assert ((fun p => (0, po_captured_at p, po_id p)) <$> ((fun _ => hc_position c) <$> fq_cursor q)
          = (fun _ => (0, po_captured_at (hc_position c), po_id (hc_position c))) <$> fq_cursor q) as -> by (by destruct (fq_cursor q)).
  set (after := (fun _ => (0, po_captured_at (hc_position c), po_id (hc_position c))) <$> fq_cursor q).
  subst id. change (in_listing (hc_agent c) (default 0 (hc_from c)) (hc_to c) (hc_monitor c)) with (listed c).
  unfold frame_page. cbn [sp_next sp_items].
  pose proof (page_rows frame_key after (Z.to_nat limit) (List.filter (listed c) t) Hpos (frame_keys_NoDup t _ Ht)) as [_ Hp]. cbv zeta in Hp.
  set (rows := keyset_rows frame_key after (S (Z.to_nat limit)) (List.filter (listed c) t)) in *.
  destruct (Z.to_nat limit <? length rows)%nat; cbn [next_cursor fmap option_fmap option_map isSome negb]; [|done].
  destruct (last (take (Z.to_nat limit) rows)) as [r|] eqn:El; cbn [next_cursor fmap option_fmap option_map isSome negb]; [|done].
  destruct Hp as (_ & Hin & _). apply list_elem_of_In, filter_In in Hin as [Hin%list_elem_of_In Hl].
  assert (0 < ix_id r) as Hrid by (destruct Ht as [_ Ht]; rewrite Forall_forall in Ht; auto).
  set (c' := with_position c (frame_position r)).
  pose proof (listed_position c r Hc Hq Hrid Hl) as Hpok.
  rewrite (IH _ {| fq_cursor := Some (cursor_text c'); fq_from := None; fq_to := None; fq_monitor := None; fq_limit := fq_limit q |} c'); try done.
  - cbn [fq_cursor fq_limit fmap option_fmap option_map]. fold limit.
    change ((fun et => List.filter (listed c') et.2) <$> reads) with ((fun et : ViewEnv * FrameTable => List.filter (listed c) et.2) <$> reads).
    change (0, po_captured_at (hc_position c'), po_id (hc_position c')) with (frame_key r).
    destruct (pages _ _ _ _) as [rest d]. by rewrite fmap_app.
  - destruct Hc. by split.
  - intros e' t' _. cbn [fq_cursor fq_from fq_to fq_monitor]. unfold page_context.
    pose proof (continue_context (ve_now e') c _ Hc Hpok Hy (Hfit (e, t) r (list_elem_of_here _ _) Hin Hl)) as Hcc. by rewrite Hq in Hcc.
  - intros et r' Het Hr' Hl'. apply (Hfit et); [by right|done|done].
Qed.

Definition hit (c : HistoryCursor) (query : string) : IndexRow -> bool :=
  is_hit (hc_agent c) query (hc_from c) (hc_to c) (hc_monitor c) (hc_filters c).
Definition newest_sort (c : HistoryCursor) : bool := String.eqb (hc_sort c) "newest".
Lemma hit_rank_nonneg query r : 0 <= hit_rank query r.
Proof. unfold hit_rank. destruct (String.eqb _ _); [lia|apply ft_rank_nonneg]. Qed.
Lemma after_hit newest query r : after_key newest (hit_position query r) = Some (Some (hit_key newest query r)).
Proof.
  unfold after_key, hit_position, hit_key. cbn [po_rank po_captured_at po_id].
  rewrite (proj2 (Z.ltb_ge _ _) (hit_rank_nonneg query r)). by destruct newest.
Qed.
Lemma hit_position_ok c query r : hc_query c = Some query -> 0 < ix_id r -> hit c query r = true -> position_ok c (hit_position query r).
Proof.
  intros Hq Hid Hh. unfold hit, is_hit in Hh. bool_prop. split; cbn [hit_position po_id po_captured_at po_rank]; [done| |done|].
  - intros from Hfrom. match goal with H : is_none_or (hc_from c) _ = true |- _ => rewrite Hfrom in H; cbn in H end. by apply Z.leb_le.
  - rewrite Hq. exists (hit_rank query r). split_and!; [done|apply hit_rank_nonneg|]. intros ->. done.
Qed.
Lemma search_allowed c query : context_ok c -> hc_query c = Some query ->
  validate (hc_filters c) = Ok tt /\ negb (String.eqb query "") || active (hc_filters c) && newest_sort c = true.
Proof.
  intros [_ Hf _ _ _ _ _ Hso Hq] Eq. split; [done|]. rewrite Eq in Hq, Hso. destruct (String.eqb query "") eqn:E; [|done].
  apply String.eqb_eq in E. destruct Hq as (_ & _ & Hq). destruct (Hq E) as [_ ->]. rewrite E in Hso. unfold sort_ok in Hso. cbn [String.eqb negb orb] in Hso.
  by apply andb_prop in Hso as [Hso _].
Qed.

Definition query_of (q : SearchQuery) : string := default ""%string (trim <$> sq_q q).
Lemma follow_search_pages user id reads : forall v q c k,
  is_operator user = true -> Forall (fun et => ve_db et.1 = true /\ table_ok et.2) reads ->
  context_ok c -> hc_query c = Some (query_of q) -> hc_agent c = id -> in_years c ->
  (forall e t, head reads = Some (e, t) ->
     filtered_page_context (ve_now e) id (Some (query_of q)) (sq_from q) (sq_to q) (sq_monitor q) (sq_scope q) (sq_sort q) (sq_cursor q) (sq_filters q) = Ok c) ->
  match sq_cursor q with None => Some None | Some _ => after_key (newest_sort c) (hc_position c) end = Some k ->
  (forall et r, et ∈ reads -> r ∈ et.2 -> hit c (query_of q) r = true -> cursor_fits (with_position c (hit_position (query_of q) r))) ->
  follow_search decimal v reads user id q
  = let '(rows, done) := pages (hit_key (newest_sort c) (query_of q)) (Z.to_nat (clampZ 1 500 (default 100 (sq_limit q))))
                           ((fun et => List.filter (hit c (query_of q)) et.2) <$> reads) k in
    (hit_meta decimal (query_of q) <$> rows, answered done).
Proof.
  induction reads as [|[e t] reads IH]; intros v q c k Hop Hreads Hc Hq Hid Hy Hctx Hk Hfit; [done|].
  apply Forall_cons in Hreads as [[Hdb Ht] Hreads]. cbn [follow_search fmap list_fmap pages fst snd] in *.
  unfold history_search. unfold require_operator. rewrite Hop. cbv zeta. change (default ""%string (trim <$> sq_q q)) with (query_of q).
  assert (Z.of_nat (String.length (query_of q)) <= 4096) as Hlen by (destruct Hc as [_ _ _ _ _ _ _ _ Hcq]; rewrite Hq in Hcq; tauto).
  rewrite (proj2 (Z.ltb_ge _ _) Hlen), (Hctx e t eq_refl). cbn [or_bad_request rmap_err].
  unfold queried. rewrite Hdb. cbn [rbind]. set (query := query_of q) in *. set (limit := clampZ 1 500 (default 100 (sq_limit q))).
  destruct (clamp_succ 1 500 (default 100 (sq_limit q))) as [Hsucc Hpos]; [done|]. fold limit in Hsucc, Hpos.
  destruct (search_allowed c query Hc Hq) as [Hv Hal]. unfold search_screen_frames_filtered_page. rewrite Hv. cbn [rbind].
  change (String.eqb (hc_sort c) "newest") with (newest_sort c). rewrite Hal.
  assert (clampZ 1 500 limit = limit) as -> by (by apply clamp_page). rewrite Hsucc.
  assert (match (fun _ => hc_position c) <$> sq_cursor q with None => Some None | Some p => after_key (newest_sort c) p end = Some k) as ->
    by (by destruct (sq_cursor q)).
  subst id. change (is_hit (hc_agent c) query (hc_from c) (hc_to c) (hc_monitor c) (hc_filters c)) with (hit c query).
  unfold frame_page. cbn [rmap_err rbind sp_next sp_items hp_next_cursor hp_results hp_complete].
  pose proof (page_rows _ k (Z.to_nat limit) (List.filter (hit c query) t) Hpos (hit_keys_NoDup (newest_sort c) query t _ Ht)) as [_ Hp]. cbv zeta in Hp.
  set (rows := keyset_rows _ k (S (Z.to_nat limit)) (List.filter (hit c query) t)) in *.
  destruct (Z.to_nat limit <? length rows)%nat; cbn [next_cursor fmap option_fmap option_map isSome negb]; [|done].
  destruct (last (take (Z.to_nat limit) rows)) as [r|] eqn:El; cbn [next_cursor fmap option_fmap option_map isSome negb]; [|done].
  destruct Hp as (_ & Hin & _). apply list_elem_of_In, filter_In in Hin as [Hin%list_elem_of_In Hl].
  assert (0 < ix_id r) as Hrid by (destruct Ht as [_ Ht]; rewrite Forall_forall in Ht; auto).
  set (c' := with_position c (hit_position query r)).
  pose proof (hit_position_ok c query r Hq Hrid Hl) as Hpok.
  match goal with |- context [follow_search decimal ?v' reads user (hc_agent c) ?q'] =>
    rewrite (IH v' q' c' (Some (hit_key (newest_sort c) query r))) end; try done.
  - cbn [sq_cursor sq_limit]. fold limit.
    change ((fun et => List.filter (hit c' query) et.2) <$> reads) with ((fun et : ViewEnv * FrameTable => List.filter (hit c query) et.2) <$> reads).
    change (query_of {| sq_q := sq_q q |}) with query. change (newest_sort c') with (newest_sort c). destruct (pages _ _ _ _) as [rest d]. by rewrite fmap_app.
  - destruct Hc. by split.
  - intros e' t' _. cbn [sq_cursor sq_from sq_to sq_monitor sq_scope sq_sort sq_filters].
    pose proof (continue_context (ve_now e') c _ Hc Hpok Hy (Hfit (e, t) r (list_elem_of_here _ _) Hin Hl)) as Hcc. by rewrite Hq in Hcc.
  - apply after_hit.
  - intros et r' Het Hr' Hl'. apply (Hfit et); [by right|done|done].
Qed.
End following.

(** ** Listing and searching *)

Section theorems.
Variable decimal : Z -> string.
Context `{HostText, FullText, CursorText, Rfc3339Text}.
Implicit Types (reads : list (ViewEnv * FrameTable)).

Definition meta_key (m : FrameMeta) : Z * Z * Z := (0, fm_captured_at m, fm_id m).
Definition meta_hit_key (newest : bool) (m : FrameMeta) : Z * Z * Z :=
  (if newest then 0 else - default 0 (fm_rank m), - fm_captured_at m, - fm_id m).
(** What a search is for: the frames of the device in the range, on the monitor, whose text matches the
    query and whose context is the wanted one. *)
Definition sought (c : HistoryCursor) (query : string) (r : IndexRow) : Prop :=
  sf_agent (ix_frame r) = hc_agent c /\ (forall from, hc_from c = Some from -> from <= captured_at r) /\ captured_at r <= hc_to c
  /\ (forall m, hc_monitor c = Some m -> sf_monitor (ix_frame r) = m) /\ (query <> ""%string -> ft_matches query (ocr_text r) = true)
  /\ wanted (hc_filters c) (sf_metadata (ix_frame r)).

Lemma hit_sought c query r : validate (hc_filters c) = Ok tt -> hit c query r = true <-> sought c query r.
Proof.
  intros Hv. unfold hit, is_hit, sought, on_monitor. rewrite !andb_true_iff, bool_decide_eq_true, Z.leb_le, (context_hit_wanted _ _ Hv).
  assert (is_none_or (hc_from c) (fun from => from <=? captured_at r) = true <-> forall from, hc_from c = Some from -> from <= captured_at r) as ->
    by (destruct (hc_from c) as [f|]; cbn; rewrite ?Z.leb_le; naive_solver).
  assert (is_none_or (hc_monitor c) (fun m => sf_monitor (ix_frame r) =? m) = true <-> forall m, hc_monitor c = Some m -> sf_monitor (ix_frame r) = m) as ->
    by (destruct (hc_monitor c) as [m|]; cbn; rewrite ?Z.eqb_eq; naive_solver).
  assert (String.eqb query "" || ft_matches query (ocr_text r) = true <-> (query <> ""%string -> ft_matches query (ocr_text r) = true)) as ->
    by (rewrite orb_true_iff, String.eqb_eq; destruct (decide (query = ""%string)); naive_solver).
  tauto.
Qed.

(** What following the cursors shows of the rows a request asks for, each page from its own read of the
    table: never a refusal; the order, so no row twice; no row that was not asked for or not there; at the
    last page every row that stayed there; and a last page, when the table stands still. *)
Record shows (mkey : FrameMeta -> Z * Z * Z) (meta : IndexRow -> FrameMeta) (asked : IndexRow -> Prop) (reads : list (ViewEnv * FrameTable))
    (items : list FrameMeta) (end_ : option (ApiResult bool)) : Prop := {
  sh_end : end_ = None \/ end_ = Some (Ok true);
  sh_order : StronglySorted (before mkey) items;
  sh_sound : forall m, m ∈ items -> exists et r, et ∈ reads /\ r ∈ et.2 /\ asked r /\ m = meta r;
  sh_complete : end_ = Some (Ok true) -> forall r, (forall et, et ∈ reads -> r ∈ et.2) -> asked r -> meta r ∈ items;
  sh_still : forall t, (forall et, et ∈ reads -> et.2 = t) -> (length t < length reads)%nat -> end_ = Some (Ok true)
}.
Lemma pages_show key mkey meta asked f n reads rows done :
  (forall r, f r = true <-> asked r) -> (forall r, mkey (meta r) = key r) -> (0 < n)%nat ->
  Forall (fun et => NoDup (key <$> List.filter f et.2)) reads ->
  pages key n ((fun et => List.filter f et.2) <$> reads) None = (rows, done) -> shows mkey meta asked reads (meta <$> rows) (answered done).
Proof.
  intros Hf Hk Hn Hnd Hp. assert (Forall (fun t => NoDup (key <$> t)) ((fun et => List.filter f et.2) <$> reads)) as Hnd'.
  { apply Forall_forall. rewrite Forall_forall in Hnd. intros t (et & -> & Het)%list_elem_of_fmap. by apply Hnd. }
  destruct (pages_spec key n _ Hn Hnd' _ _ _ Hp) as (Hs & Hin & Hall). split.
  - destruct done; [by right|by left].
  - eapply StronglySorted_fmap; [|exact Hs]. intros x y. unfold before. by rewrite !Hk.
  - intros m (r & -> & Hr)%list_elem_of_fmap. destruct (Hin r Hr) as [_ (t & (et & -> & Het)%list_elem_of_fmap & Ht)].
    apply list_elem_of_In, filter_In in Ht as [Ht%list_elem_of_In Hfr]. exists et, r. split_and!; [done|done|by apply Hf|done].
  - intros Hd r Hr Ha. assert (done = true) as -> by (by destruct done). apply list_elem_of_fmap_2, Hall; [done| |done].
    intros t (et & -> & Het)%list_elem_of_fmap. apply list_elem_of_In, filter_In. split; [by apply list_elem_of_In, Hr|by apply Hf].
  - intros t Ht Hlen. assert ((fun et : ViewEnv * FrameTable => List.filter f et.2) <$> reads = repeat (List.filter f t) (length reads)) as He.
    { clear -Ht. induction reads as [|et reads IH]; [done|]. cbn. rewrite (Ht et) by (by left). f_equal. apply IH. intros et' Hin. apply Ht. by right. }
    rewrite He in Hp. destruct reads as [|et reads]; [simpl in Hlen; lia|].
    pose proof (pages_done key n (List.filter f t) (length (et :: reads)) None Hn) as Hd. rewrite Hp in Hd. cbn [snd] in Hd.
    rewrite Hd; [done| |].
    + apply Forall_cons in Hnd as [Hnd _]. rewrite (Ht et) in Hnd by (by left). done.
    + eapply Nat.le_lt_trans; [|exact Hlen]. etransitivity; [apply sublist_length, filter_sublist|apply sublist_length, filter_sublist].
Qed.

(** Following a listing's cursors page by page never fails on its own cursors and shows the frames of
    the device in the frozen range in strict order of time and id: none twice and none that was not there,
    however the index changes between requests; at the end every frame that stayed there has been shown,
    and the end comes when the index stands still. *)
Theorem listing_shows_every_frame v user id q e t reads c items end_ :
  is_operator user = true -> Forall (fun et => ve_db et.1 = true /\ table_ok et.2) ((e, t) :: reads) ->
  fq_cursor q = None -> page_context (ve_now e) id None (fq_from q) (fq_to q) (fq_monitor q) None None None = Ok c -> in_years c ->
  (forall et r, et ∈ (e, t) :: reads -> r ∈ et.2 -> cursor_fits (with_position c (frame_position r))) ->
  follow_frames decimal v ((e, t) :: reads) user id q = (items, end_) ->
  shows meta_key (into_meta decimal)
    (fun r => sf_agent (ix_frame r) = id /\ default 0 (hc_from c) <= captured_at r <= hc_to c /\ (forall m, hc_monitor c = Some m -> sf_monitor (ix_frame r) = m))
    ((e, t) :: reads) items end_.
Proof.
  intros Hop Hreads Hq Hctx Hy Hfit Hfollow. pose proof Hctx as Hctx'. unfold page_context in Hctx'.
  destruct (first_context _ _ _ _ _ _ _ _ _ _ Hctx' eq_refl) as (Hc & Hid & Hqn).
  rewrite (follow_frames_pages decimal user id _ v q c) in Hfollow; try done.
  2: { intros e' t' [= <- <-]. by rewrite Hq. }
  2: { intros et r Het Hr _. by apply (Hfit et). }
  rewrite Hq in Hfollow. cbn [fmap option_fmap option_map] in Hfollow. destruct (pages _ _ _ _) as [rows d] eqn:Ep. injection Hfollow as <- <-.
  eapply pages_show; [|done| | |exact Ep].
  - intros r. unfold listed. rewrite in_listing_spec, Hid. tauto.
  - by apply clamp_succ.
  - eapply Forall_impl; [exact Hreads|]. intros et [_ Ht]. by apply frame_keys_NoDup.
Qed.

(** What a request asks for, field by field: the device, the range its bounds and scope say (to now, and from
    a day before its end, where it names none), the monitor, the text, and the filters it sends, where a
    blank one is none. *)
Definition in_range (now : Z) (q : SearchQuery) (at_ : Z) : Prop :=
  exists end_, match sq_to q with None => end_ = now | Some s => parse_rfc3339 (trim s) = Some end_ end
  /\ at_ <= end_
  /\ (sq_scope q <> Some "retained"%string ->
       match sq_from q with None => end_ - 86400 * 1000000000 <= at_ | Some s => exists from, parse_rfc3339 (trim s) = Some from /\ from <= at_ end).
Definition meets_filters (f : ContextFilterQuery) (m : Metadata) : Prop :=
  (forall app, cf_app f = Some app -> trim app <> ""%string ->
     exists a, m_app m = Some a /\ if decide (cf_app_mode f = Some "prefix"%string) then String.prefix (to_ascii_lowercase (trim app)) a = true
                                  else a = to_ascii_lowercase (trim app))
  /\ (forall title, cf_title f = Some title -> trim title <> ""%string ->
        exists x, m_title m = Some x /\ str_contains (to_ascii_lowercase x) (to_ascii_lowercase (trim title)) = true)
  /\ (forall host, cf_url_host f = Some host -> trim host <> ""%string -> exists h, normalize_host (trim host) = Ok h /\ m_host m = Some h)
  /\ (cf_context f = Some "known"%string -> m_app m <> None \/ m_title m <> None \/ m_host m <> None)
  /\ (cf_context f = Some "unknown"%string -> m_app m = None /\ m_title m = None /\ m_host m = None).
Definition asked_for (now : Z) (agent : Uuid) (q : SearchQuery) (r : IndexRow) : Prop :=
  sf_agent (ix_frame r) = agent /\ in_range now q (captured_at r)
  /\ (forall m, sq_monitor q = Some m -> sf_monitor (ix_frame r) = m)
  /\ (forall s, sq_q q = Some s -> trim s <> ""%string -> ft_matches (trim s) (ocr_text r) = true)
  /\ meets_filters (sq_filters q) (sf_metadata (ix_frame r)).
(** Newest first when the request says so, or when it has no text to rank by. *)
Definition newest_asked (q : SearchQuery) : bool :=
  match sq_sort q with Some s => String.eqb s "newest" | None => String.eqb (default ""%string (trim <$> sq_q q)) "" end.

Lemma wanted_meets q f m : resolve q None = Ok f -> wanted f m <-> meets_filters q m.
Proof.
  intros Hr. pose proof (validate_modes _ (resolve_valid _ _ _ Hr)) as [Hmode _]. unfold resolve in Hr. cbn [default from_option] in Hr. unfold id in Hr.
  apply rbind_Ok in Hr as (host & Hh & Hr). revert Hr. cbv zeta. ensure_step. intros Hr. apply rbind_Ok in Hr as ([] & _ & Hr). revert Hr. ensure_step. intros [= <-].
  unfold wanted, meets_filters. cbn [fl_app fl_app_mode fl_title fl_url_host fl_context Filters_default] in *.
  assert (forall (P1 P2 P3 P4 P5 Q1 Q2 Q3 Q4 Q5 : Prop), (P1 <-> Q1) -> (P2 <-> Q2) -> (P3 <-> Q3) -> (P4 <-> Q4) -> (P5 <-> Q5) ->
    (P1 /\ P2 /\ P3 /\ P4 /\ P5 <-> Q1 /\ Q2 /\ Q3 /\ Q4 /\ Q5)) as Hsplit by tauto.
  assert (forall (o : option string) v (g : string -> string) (P : string -> Prop),
    ((forall x, match o with Some s => unless_blank s (g s) | None => v end = Some x -> P x) <-> match o with Some s => trim s <> ""%string -> P (g s) | None => forall x, v = Some x -> P x end)) as Hblank.
  { intros [s|] v g P; [|done]. unfold unless_blank. destruct (String.eqb_spec (trim s) "") as [E|E]; [naive_solver|]. split; [intros Hp _; by apply Hp|intros Hp x [= <-]; by apply Hp]. }
  apply Hsplit; clear Hsplit.
  - rewrite (Hblank _ _ (fun s => to_ascii_lowercase (trim s))). destruct (cf_app q) as [app|]; [|split; [done|intros _ ? [=]]].
    assert (String.eqb (from_option (fun x => x) "exact"%string (cf_app_mode q)) "prefix" = bool_decide (cf_app_mode q = Some "prefix"%string)) as ->.
    { destruct (cf_app_mode q) as [md|]; [|done]. cbn. destruct (String.eqb_spec md "prefix") as [->|]; [by rewrite bool_decide_eq_true_2|rewrite bool_decide_eq_false_2; [done|congruence]]. }
    case_bool_decide; (destruct (decide (cf_app_mode q = _)); try done); (split; [intros Hw ? [= <-]; exact Hw|intros Hw; by apply Hw]).
  - rewrite (Hblank _ _ trim). destruct (cf_title q) as [title|]; [|split; [done|intros _ ? [=]]]. split; [intros Hw ? [= <-]; exact Hw|intros Hw; by apply Hw].
  - destruct (cf_url_host q) as [h|]; [|injection Hh as <-; split; [done|intros _ ? [=]]]. destruct (String.eqb_spec (trim h) "") as [E|E].
    + injection Hh as <-. split; [naive_solver|intros _ ? [=]].
    + apply rbind_Ok in Hh as (n & Hn & [= <-]). split; [intros Hm ? [= <-] _; exists n; by split; [|apply Hm]|].
      intros Hm ? [= <-]. destruct (Hm h eq_refl E) as (n' & Hn' & ?). congruence.
  - destruct (cf_context q) as [x|]; cbn; naive_solver.
  - destruct (cf_context q) as [x|]; cbn; naive_solver.
Qed.
Lemma sought_asked now agent q c r :
  filtered_page_context now agent (Some (query_of q)) (sq_from q) (sq_to q) (sq_monitor q) (sq_scope q) (sq_sort q) None (sq_filters q) = Ok c ->
  (sought c (query_of q) r <-> asked_for now agent q r) /\ newest_sort c = newest_asked q.
Proof.
  unfold filtered_page_context. cbn [decode_cursor rbind fmap option_fmap option_map mbind option_bind].
  intros Hc. apply rbind_Ok in Hc as (f & Hf & Hc). revert Hc. do 5 ensure_step. intros Hc.
  apply rbind_Ok in Hc as ([start end_] & Hr & Hc). injection Hc as <-. unfold newest_sort, newest_asked, sought, asked_for. cbn [hc_agent hc_from hc_to hc_monitor hc_filters hc_sort fst snd].
  split; [|unfold or_else, default_sort; destruct (sq_sort q); [done|]; fold (query_of q); cbn; by destruct (String.eqb (query_of q) "")].
  rewrite (wanted_meets _ _ _ Hf).
  match goal with |- context [if ?b then None else Some start] => set (all := b) end.
  assert (((forall from, (if all then None else Some start) = Some from -> from <= captured_at r) /\ captured_at r <= end_) <-> in_range now q (captured_at r)) as Hrange.
  { assert (all = bool_decide (sq_scope q = Some "retained"%string)) as ->.
    { subst all. destruct (sq_scope q) as [sc|]; [|done]. cbn. destruct (String.eqb_spec sc "retained") as [->|]; [by rewrite bool_decide_eq_true_2|rewrite bool_decide_eq_false_2; [done|congruence]]. }
    unfold in_range, parse_range, parse_bound, or_else in *. apply rbind_Ok in Hr as (hi & Hhi & Hr). apply rbind_Ok in Hr as (lo & Hlo & Hr). revert Hr. ensure_step. intros [= <- <-].
    assert (forall s (x : string), ok_or (parse_rfc3339 (trim s)) x = Ok hi -> parse_rfc3339 (trim s) = Some hi) as Hok by (intros s x; destruct (parse_rfc3339 (trim s)); naive_solver).
    destruct (bool_decide_reflect (sq_scope q = Some "retained"%string)) as [Hs|Hs].
    - split.
      + intros [_ Hle]. exists hi. split; [|split; [exact Hle|intros Hn; by destruct (Hn Hs)]]. destruct (sq_to q) as [s|]; [by eapply Hok|by injection Hhi as <-].
      + intros (hi' & Hhi' & Hle & _). split; [done|]. destruct (sq_to q) as [s|]; [apply Hok in Hhi|injection Hhi as <-]; by simplify_eq.
    - assert (forall e, (e = hi <-> match sq_to q with None => e = now | Some s => parse_rfc3339 (trim s) = Some e end)) as Hend.
      { intros e. destruct (sq_to q) as [s|]; [apply Hok in Hhi; rewrite Hhi; naive_solver|injection Hhi as ->; done]. }
      assert (lo <= captured_at r <-> match sq_from q with None => hi - 86400 * 1000000000 <= captured_at r | Some s => exists from, parse_rfc3339 (trim s) = Some from /\ from <= captured_at r end) as Hst.
      { destruct (sq_from q) as [s|]; [|injection Hlo as <-; done]. destruct (parse_rfc3339 (trim s)) as [x|]; [|done]. injection Hlo as ->. naive_solver. }
      split.
      + intros [Hlo' Hle]. exists hi. split; [by apply Hend|]. split; [done|]. intros _. by apply Hst, Hlo'.
      + intros (e & He%Hend & Hle & Hfr). subst e. split; [|done]. intros from [= <-]. by apply Hst, Hfr. }
  unfold or_else in *. rewrite <- Hrange. assert ((query_of q <> ""%string -> ft_matches (query_of q) (ocr_text r) = true) <->
    forall s, sq_q q = Some s -> trim s <> ""%string -> ft_matches (trim s) (ocr_text r) = true) as ->.
  { unfold query_of. destruct (sq_q q) as [s|]; cbn; split; try done; [intros Hm ? [= <-]; exact Hm|intros Hm; by apply Hm]. }
  destruct (sq_monitor q); tauto.
Qed.

(** C14: The same of a search, by rank or newest first as the request asks: its cursors are accepted, hits
    come in strict order and only for frames of the device that the request's own fields ask for (in the
    range its bounds and scope say, on its monitor, whose text matches the query, whose title holds its
    title filter whatever the case, whose app is its app filter or begins with it, whose host is its
    host filter normalized, with or without context as it says, whatever characters the filters
    hold); at the end every such frame that stayed in the index has been shown. *)
Theorem search_shows_every_hit v user id q e t reads c items end_ :
  is_operator user = true -> Forall (fun et => ve_db et.1 = true /\ table_ok et.2) ((e, t) :: reads) ->
  sq_cursor q = None -> Z.of_nat (String.length (query_of q)) <= 4096 ->
  filtered_page_context (ve_now e) id (Some (query_of q)) (sq_from q) (sq_to q) (sq_monitor q) (sq_scope q) (sq_sort q) None (sq_filters q) = Ok c -> in_years c ->
  (forall et r, et ∈ (e, t) :: reads -> r ∈ et.2 -> cursor_fits (with_position c (hit_position (query_of q) r))) ->
  follow_search decimal v ((e, t) :: reads) user id q = (items, end_) ->
  shows (meta_hit_key (newest_asked q)) (hit_meta decimal (default ""%string (trim <$> sq_q q))) (asked_for (ve_now e) id q) ((e, t) :: reads) items end_.
Proof.
  intros Hop Hreads Hq Hlen Hctx Hy Hfit Hfollow.
  assert (trim (query_of q) = query_of q) as Htrim. { unfold query_of. destruct (sq_q q) as [s|]; [apply trim_idem|done]. }
  destruct (first_context _ _ _ _ _ _ _ _ _ _ Hctx (conj Hlen Htrim)) as (Hc & Hid & Hqn).
  rewrite (follow_search_pages decimal user id _ v q c None) in Hfollow; try done.
  2: { intros e' t' [= <- <-]. by rewrite Hq. }
  2: { by rewrite Hq. }
  2: { intros et r Het Hr _. by apply (Hfit et). }
  destruct (pages _ _ _ _) as [rows d] eqn:Ep. injection Hfollow as <- <-.
  eapply pages_show; [| | | |exact Ep].
  - intros r. rewrite (hit_sought _ _ _ (co_filters _ Hc)). by apply sought_asked.
  - intros r. rewrite <- (proj2 (sought_asked _ _ _ _ r Hctx)). unfold meta_hit_key, hit_key. by destruct (newest_sort c).
  - by apply clamp_succ.
  - eapply Forall_impl; [exact Hreads|]. intros et [_ Ht]. by apply hit_keys_NoDup.
Qed.
End theorems.

(** ** The frame at an instant, and the histogram *)

Section other_views.
Variable decimal : Z -> string.

Lemma keyset_first key (t : FrameTable) (f : IndexRow -> bool) : NoDup (key <$> List.filter f t) ->
  match keyset_rows key None 1 (List.filter f t) with
  | r :: _ => r ∈ t /\ f r = true /\ forall r', r' ∈ t -> f r' = true -> r' = r \/ key_lt (key r) (key r') = true
  | [] => forall r', r' ∈ t -> f r' = false
  end.
Proof.
  intros Hnd. unfold keyset_rows, follows. cbn [is_none_or]. rewrite (filter_every (fun _ => true)) by done.
  pose proof (order_by_sorted key _ Hnd) as Hs. pose proof (order_by_perm key (List.filter f t)) as Hp.
  assert (forall r, r ∈ order_by key (List.filter f t) <-> r ∈ t /\ f r = true) as Hin.
  { intros r. rewrite Hp, list_elem_of_In, filter_In, <- list_elem_of_In. done. }
  destruct (order_by key (List.filter f t)) as [|r l]; cbn [take].
  - intros r' Hr'. apply not_true_iff_false. intros Hf. by destruct (not_elem_of_nil r' (proj2 (Hin r') (conj Hr' Hf))).
  - destruct (proj1 (Hin r) (list_elem_of_here _ _)) as [Hr Hf]. split_and!; [done|done|]. intros r' Hr' Hf'.
    destruct (proj1 (elem_of_cons _ _ _) (proj2 (Hin r') (conj Hr' Hf'))) as [?|Hl]; [by left|right].
    apply StronglySorted_inv in Hs as [_ Hs]. rewrite Forall_forall in Hs. by apply Hs.
Qed.
(** The frame shown for an instant is the last one up to it, or the first after it when there is none;
    nothing is shown only if the device has no frame on that monitor. *)
Theorem frame_at_is_nearest t agent at_ monitor (of_agent := fun r => sf_agent (ix_frame r) = agent /\ on_monitor monitor r = true) :
  table_ok t ->
  match screen_frame_at decimal t agent at_ monitor with
  | Some m => exists r, m = into_meta decimal r /\ r ∈ t /\ of_agent r
      /\ forall r', r' ∈ t -> of_agent r' -> r' = r
         \/ if captured_at r <=? at_ then at_ < captured_at r' \/ key_lt (frame_key r') (frame_key r) = true
            else at_ < captured_at r' /\ key_lt (frame_key r) (frame_key r') = true
  | None => forall r, r ∈ t -> ~ of_agent r
  end.
Proof.
  intros Ht. unfold screen_frame_at.
  assert (forall r, bool_decide (sf_agent (ix_frame r) = agent) && on_monitor monitor r = true <-> of_agent r) as Hof.
  { intros r. unfold of_agent. by rewrite andb_true_iff, bool_decide_eq_true. }
  set (old := fun r => _ && (captured_at r <=? at_)). set (new := fun r => _ && (at_ <? captured_at r)).
  assert (NoDup (newest_first <$> List.filter old t)) as Hnd.
  { apply filter_keys_NoDup, keys_NoDup; [done|]. unfold newest_first. intros x y [= ? ?]. f_equal; lia. }
  pose proof (keyset_first newest_first t old Hnd) as H1. destruct (keyset_rows newest_first None 1 (List.filter old t)) as [|r l].
  - pose proof (keyset_first frame_key t new (frame_keys_NoDup t _ Ht)) as H2. destruct (keyset_rows frame_key None 1 (List.filter new t)) as [|r l]; cbn [head fmap option_fmap option_map].
    + intros r Hr Ha%Hof. specialize (H1 r Hr). specialize (H2 r Hr). unfold old, new in H1, H2. rewrite Ha in H1, H2. cbn [andb] in H1, H2. bool_prop. lia.
    + destruct H2 as (Hr & Hn & Hmin). unfold new in Hn. apply andb_prop in Hn as [Ha Hn]. exists r. split_and!; [done|done|by apply Hof|].
      intros r' Hr' Ha'%Hof. rewrite (proj2 (Z.leb_gt _ _) (proj1 (Z.ltb_lt _ _) Hn)).
      assert (at_ < captured_at r') as Hlt. { specialize (H1 r' Hr'). unfold old in H1. rewrite Ha' in H1. cbn [andb] in H1. by bool_prop. }
      destruct (Hmin r' Hr') as [?|?]; [|by left|by right]. unfold new. rewrite Ha'. by apply Z.ltb_lt.
  - destruct H1 as (Hr & Ho & Hmin). unfold old in Ho. apply andb_prop in Ho as [Ha Ho]. exists r. split_and!; [done|done|by apply Hof|].
    intros r' Hr' Ha'%Hof. rewrite Ho. destruct (Z.leb_spec (captured_at r') at_) as [Hle|Hgt]; [|right; by left].
    destruct (Hmin r' Hr') as [?|Hk]; [|by left|right; right].
    { unfold old. rewrite Ha'. by apply Z.leb_le. }
    unfold newest_first, frame_key in *. rewrite key_lt_spec in *. lia.
Qed.

Lemma count_distinct (ks ds : list Z) : NoDup ds -> (forall k, k ∈ ks -> k ∈ ds) ->
  sum_list_with (fun k => length (List.filter (Z.eqb k) ks)) ds = length ks.
Proof.
  revert ks. induction ds as [|d ds IH]; intros ks Hnd Hin.
  - destruct ks as [|k ks]; [done|]. by destruct (not_elem_of_nil k (Hin k (list_elem_of_here _ _))).
  - inversion Hnd as [|? ? Hd Hnd']; subst. cbn [sum_list_with].
    transitivity (length (List.filter (Z.eqb d) ks) + length (List.filter (fun k => negb (Z.eqb d k)) ks))%nat.
    + f_equal. rewrite <- (IH (List.filter (fun k => negb (Z.eqb d k)) ks) Hnd').
      * assert (forall l, d ∉ l -> sum_list_with (fun k => length (List.filter (Z.eqb k) ks)) l
          = sum_list_with (fun k => length (List.filter (Z.eqb k) (List.filter (fun k => negb (Z.eqb d k)) ks))) l) as He; [|by apply He].
        induction l as [|x l IHl]; [done|]. intros Hl. cbn [sum_list_with]. rewrite IHl by (intros ?; apply Hl; by right). f_equal.
        rewrite filter_twice. f_equal. apply filter_ext. intros k. destruct (Z.eqb_spec x k) as [->|]; [|by rewrite andb_false_r].
        destruct (Z.eqb_spec d k) as [->|]; [|done]. destruct Hl. by left.
      * intros k Hk. apply list_elem_of_In, filter_In in Hk as [Hk%list_elem_of_In Hne]. bool_prop.
        destruct (proj1 (elem_of_cons _ _ _) (Hin k Hk)) as [->|?]; done.
    + clear. induction ks as [|k ks IH]; [done|]. cbn [List.filter]. destruct (d =? k); simpl; lia.
Qed.
Definition total (points : list ActivityPoint) : Z := foldr (fun p n => ap_count p + n) 0 points.
(** Every frame of the range is in one bar of the histogram. *)
Theorem activity_counts_every_frame t agent from to monitor bucket :
  total (screen_frame_activity t agent from to monitor bucket) = Z.of_nat (length (List.filter (in_listing agent from to monitor) t)).
Proof.
  unfold screen_frame_activity, group_counts. set (ks := bucket_of _ <$> _).
  assert (Z.of_nat (length (List.filter (in_listing agent from to monitor) t)) = Z.of_nat (length ks)) as -> by (unfold ks; by rewrite length_fmap).
  rewrite <- (count_distinct ks (merge_sort Z.le (remove_dups ks))).
  - induction (merge_sort Z.le (remove_dups ks)) as [|k ds IH]; [done|]. cbn. unfold total in IH. rewrite IH. lia.
  - rewrite merge_sort_Permutation. apply NoDup_remove_dups.
  - intros k Hk. rewrite merge_sort_Permutation. by apply elem_of_remove_dups.
Qed.
End other_views.

(** An audit row that could not be written still counts as written: the viewer's next requests within
    ten minutes leave no row either. *)
Lemma failed_audit_silences v e user agent action (v1 := audit_recall v e user agent action) e2 :
  recall_audit_decision (rv_seen v) (si_user user, agent, action) (ve_instant e)
    = (<[(si_user user, agent, action) := ve_instant e]> (rv_seen v), true) ->
  map_len (rv_seen v) + 1 < RECALL_AUDIT_MAX_TRACKED -> ve_audited e = false -> covered (ve_instant e2) (ve_instant e) = true ->
  rv_audit (audit_recall v1 e2 user agent action) = rv_audit v.
Proof.
  intros Hd Hlen Ha Hcov. unfold v1, audit_recall. rewrite Hd. unfold insert_audit. rewrite Ha. cbn [rv_seen rv_audit].
  assert (recall_audit_decision (<[(si_user user, agent, action) := ve_instant e]> (rv_seen v)) (si_user user, agent, action) (ve_instant e2)
          = (<[(si_user user, agent, action) := ve_instant e]> (rv_seen v), false)) as ->; [|done].
  unfold recall_audit_decision, map_len in *. rewrite (proj2 (Z.leb_gt _ _)).
  - rewrite lookup_insert_eq. cbn [is_some_and]. by rewrite Hcov.
  - rewrite map_size_insert. destruct (rv_seen v !! _); simpl; lia.
Qed.

(** ** Examples *)

#[export] Instance Rank_countable : Countable Rank.
Proof.
  refine (inj_countable' (fun r => match r with Finite z => inl z | Infinite b => inr (Some b) | NaN => inr None end)
            (fun x => match x with inl z => Finite z | inr (Some b) => Infinite b | inr None => NaN end) _). by intros [].
Defined.
#[export] Instance HistoryCursor_countable : Countable HistoryCursor.
Proof.
  refine (inj_countable'
    (fun c => ((hc_version c, hc_agent c, hc_query c, hc_from c, hc_to c), (hc_monitor c, hc_scope c, hc_sort c),
               (po_captured_at (hc_position c), po_id (hc_position c), po_rank (hc_position c)),
               (fl_app (hc_filters c), fl_app_mode (hc_filters c), fl_title (hc_filters c), fl_url_host (hc_filters c), fl_context (hc_filters c))))
    (fun x => let '((v, a, q, f, t), (m, sc, so), (at_, i, r), (ap, mo, ti, ho, co)) := x in
       {| hc_version := v; hc_agent := a; hc_query := q; hc_from := f; hc_to := t; hc_monitor := m; hc_scope := sc; hc_sort := so;
          hc_position := {| po_captured_at := at_; po_id := i; po_rank := r |};
          hc_filters := {| fl_app := ap; fl_app_mode := mo; fl_title := ti; fl_url_host := ho; fl_context := co |} |}) _).
  by intros [? ? ? ? ? ? ? ? [] []].
Defined.
(** Any encoding will do: the binary digits of the code of a cursor, and of a time. *)
Definition bin_cursors : CursorText.
Proof.
  refine {| cursor_text c := pos_bin (encode c); cursor_read s := bin_pos s ≫= decode |}.
  intros c _. rewrite bin_pos_bin. apply decode_encode.
Defined.
Definition bin_times : ChronoText := {| parse_rfc3339 s := bin_pos s ≫= decode; day_text _ := "day" |}.
Definition bin_rfc3339 : @Rfc3339Text bin_times.
Proof.
  refine (@Build_Rfc3339Text bin_times (fun t => pos_bin (encode t)) _).
  intros t _. cbn [parse_rfc3339 bin_times]. rewrite trim_pos_bin, bin_pos_bin. apply decode_encode.
Defined.
Definition ex_hosts : HostText := {| domain_to_ascii := Some; https_host := Some |}.
Definition ex_text : FullText.
Proof.
  refine {| ft_matches q t := str_contains t q; ft_rank q t := Z.of_nat (String.length t); ft_headline q t := q |}. intros. lia.
Defined.
#[local] Existing Instances bin_cursors bin_times bin_rfc3339 ex_hosts ex_text.
Definition ex_row (id at_ : Z) (title text : string) : IndexRow :=
  {| ix_id := id;
     ix_frame := {| sf_agent := 7%N; sf_captured_at := at_; sf_monitor := 0; sf_w := 1; sf_h := 1; sf_phash := -1; sf_blob_ref := "b"; sf_ocr_text := Some text;
                    sf_ocr_words := None; sf_client_uid := None;
                    sf_metadata := {| m_context := None; m_duration_ms := None; m_app := None; m_title := Some title; m_host := None |} |} |}.
Definition ex_table : FrameTable := [ex_row 2 50 "100% done" "needle"; ex_row 1 50 "Inbox" "hay"; ex_row 3 40 "100 DONE" "a needle here"].
(** Between the pages a frame came and one went. *)
Definition ex_later : FrameTable := [ex_row 2 50 "100% done" "needle"; ex_row 3 40 "100 DONE" "a needle here"; ex_row 4 45 "New" "needle needle"].
Definition ex_viewer : SignedIn := {| si_user := 1%N; si_name := "op"; si_role := "operator"; si_display := "op"; si_icon := None; si_csrf := "" |}.
Definition ex_view_env : ViewEnv := {| ve_now := 100; ve_instant := 0; ve_ip := None; ve_audited := true; ve_db := true |}.
Definition ex_views : RecallViews := {| rv_seen := ∅; rv_audit := [] |}.
Definition ex_frames_query : FramesQuery := {| fq_cursor := None; fq_from := None; fq_to := None; fq_monitor := None; fq_limit := Some 1 |}.
Definition ex_reads : list (ViewEnv * FrameTable) := [(ex_view_env, ex_table); (ex_view_env, ex_later); (ex_view_env, ex_later); (ex_view_env, ex_later)].
Definition ex_frames_context : HistoryCursor :=
  {| hc_version := 2; hc_agent := 7%N; hc_query := None; hc_from := Some (100 - day_ns); hc_to := 100; hc_monitor := None; hc_scope := "range"; hc_sort := "oldest";
     hc_position := {| po_captured_at := 100 - day_ns; po_id := 0; po_rank := None |}; hc_filters := Filters_default |}.
Definition no_digits (z : Z) : string := "".

Lemma fits_all c (f : IndexRow -> ScreenFramePosition) (reads : list (ViewEnv * FrameTable)) :
  Forall (fun et => Forall (fun r => cursor_fits (with_position c (f r))) et.2) reads ->
  forall et r, et ∈ reads -> r ∈ et.2 -> cursor_fits (with_position c (f r)).
Proof. intros Hf et r Het Hr. rewrite Forall_forall in Hf. specialize (Hf _ Het). rewrite Forall_forall in Hf. by apply Hf. Qed.
#[local] Instance table_ok_dec t : Decision (table_ok t).
Proof. unfold table_ok. apply _. Defined.
#[local] Instance cursor_fits_dec c : Decision (cursor_fits c).
Proof. unfold cursor_fits. apply _. Defined.

Lemma listing_shows_every_frame_witness :
  let '(items, end_) := follow_frames no_digits ex_views ex_reads ex_viewer 7%N ex_frames_query in
  (fm_id <$> items) = [3; 4; 2] /\ end_ = Some (Ok true)
  /\ shows meta_key (into_meta no_digits)
       (fun r => sf_agent (ix_frame r) = 7%N /\ default 0 (hc_from ex_frames_context) <= captured_at r <= hc_to ex_frames_context
                 /\ (forall m, hc_monitor ex_frames_context = Some m -> sf_monitor (ix_frame r) = m)) ex_reads items end_.
Proof.
  destruct (follow_frames no_digits ex_views ex_reads ex_viewer 7%N ex_frames_query) as [items end_] eqn:E. split_and!.
  - transitivity (fm_id <$> (follow_frames no_digits ex_views ex_reads ex_viewer 7%N ex_frames_query).1); [by rewrite E|vm_compute; reflexivity].
  - transitivity (follow_frames no_digits ex_views ex_reads ex_viewer 7%N ex_frames_query).2; [by rewrite E|vm_compute; reflexivity].
  - apply (listing_shows_every_frame no_digits ex_views ex_viewer 7%N ex_frames_query ex_view_env ex_table
             [(ex_view_env, ex_later); (ex_view_env, ex_later); (ex_view_env, ex_later)] ex_frames_context).
    + reflexivity.
    + apply (bool_decide_unpack _). vm_compute. exact I.
    + reflexivity.
    + vm_compute. reflexivity.
    + split; [split; vm_compute; discriminate|]. intros from [= <-]. split; vm_compute; discriminate.
    + apply fits_all, (bool_decide_unpack _). vm_compute. exact I.
    + exact E.
Defined.

Definition ex_filter_query (title : string) : ContextFilterQuery :=
  {| cf_app := None; cf_app_mode := None; cf_title := Some title; cf_url_host := None; cf_context := None |}.
Definition ex_search_query (title : string) : SearchQuery :=
  {| sq_filters := ex_filter_query title; sq_cursor := None; sq_scope := Some "retained"%string; sq_sort := None; sq_q := Some " needle "%string;
     sq_from := None; sq_to := None; sq_monitor := None; sq_limit := Some 1 |}.
Definition ex_search_context : HistoryCursor :=
  {| hc_version := 2; hc_agent := 7%N; hc_query := Some "needle"%string; hc_from := None; hc_to := 100; hc_monitor := None; hc_scope := "retained"; hc_sort := "ranked";
     hc_position := {| po_captured_at := 100 - day_ns; po_id := 0; po_rank := None |};
     hc_filters := {| fl_app := None; fl_app_mode := "exact"; fl_title := Some "100"%string; fl_url_host := None; fl_context := "all" |} |}.
(** A percent sign in a filter is a percent sign. *)
Example search_percent :
  fm_id <$> (follow_search no_digits ex_views ex_reads ex_viewer 7%N (ex_search_query "100%")).1 = [2].
Proof. vm_compute. reflexivity. Qed.
Lemma search_shows_every_hit_witness :
  let '(items, end_) := follow_search no_digits ex_views ex_reads ex_viewer 7%N (ex_search_query "100") in
  (fm_id <$> items) = [3; 2] /\ end_ = Some (Ok true)
  /\ shows (meta_hit_key false) (hit_meta no_digits "needle") (asked_for 100 7%N (ex_search_query "100")) ex_reads items end_.
Proof.
  destruct (follow_search no_digits ex_views ex_reads ex_viewer 7%N (ex_search_query "100")) as [items end_] eqn:E. split_and!.
  - transitivity (fm_id <$> (follow_search no_digits ex_views ex_reads ex_viewer 7%N (ex_search_query "100")).1); [by rewrite E|vm_compute; reflexivity].
  - transitivity (follow_search no_digits ex_views ex_reads ex_viewer 7%N (ex_search_query "100")).2; [by rewrite E|vm_compute; reflexivity].
  - apply (search_shows_every_hit no_digits ex_views ex_viewer 7%N (ex_search_query "100") ex_view_env ex_table
             [(ex_view_env, ex_later); (ex_view_env, ex_later); (ex_view_env, ex_later)] ex_search_context).
    + reflexivity.
    + apply (bool_decide_unpack _). vm_compute. exact I.
    + reflexivity.
    + vm_compute. discriminate.
    + vm_compute. reflexivity.
    + split; [split; vm_compute; discriminate|]. intros from [=].
    + apply fits_all, (bool_decide_unpack _). vm_compute. exact I.
    + exact E.
Defined.
(** A cursor sent with other filters, or for another device, is refused. *)
Example cursor_is_bound :
  let c := with_position ex_search_context (hit_position "needle" (ex_row 3 40 "100 DONE" "a needle here")) in
  let again agent q filters := filtered_page_context 200 agent (Some q) None None None None None (Some (cursor_text c)) filters in
  again 7%N "needle"%string ContextFilterQuery_default = Ok c
  /\ again 7%N "needle"%string (ex_filter_query "100") = Ok c
  /\ again 7%N "needle"%string (ex_filter_query "200") = Err "cursor does not match context filters"%string
  /\ again 7%N "hay"%string ContextFilterQuery_default = Err "cursor does not match request filters"%string
  /\ again 8%N "needle"%string ContextFilterQuery_default = Err "cursor does not match request filters"%string.
Proof. vm_compute. split_and!; reflexivity. Qed.
(** A failed audit insert, and the request after it. *)
Example failed_audit_example :
  let e := {| ve_now := 100; ve_instant := 0; ve_ip := None; ve_audited := false; ve_db := true |} in
  let e2 := {| ve_now := 200; ve_instant := secs 599; ve_ip := None; ve_audited := true; ve_db := true |} in
  let '(v, _) := history_frame_text ex_views ex_table e ex_viewer 7%N 2 in
  let '(v, r) := history_frame_text v ex_table e2 ex_viewer 7%N 2 in
  rv_audit v = [] /\ r = Ok {| ft_text := Some "needle"%string; ft_words := JArr [] |}.
Proof. vm_compute. split; reflexivity. Qed.
