(* ===== verification/RecallBlobs.v ===== *)
(** The pictures and settings of Recall on the server: reading a frame's JPEG and its thumbnails
    ([server/src/recall/blob_store.rs], [recall/api/blob.rs]), the capture settings devices are told
    ([recall/api/settings.rs], [recall/db/settings.rs]) and the bounds of a local day
    ([recall/api/handlers/day.rs], [recall/local_day.rs]). The file system is a finite map; decoding and
    scaling a JPEG, dates and time zones are parameters. *)
From S2P Require Import Registry Accounts Throttle Policies Permissions RecallContext Fence Keyframes HistoryIngest Retention RecallBrowse.
From S2P Require Import Prelude Text Json Protocol.

(** ** Files *)

Inductive Entry : Type := EFile (bytes : list Z) | EDir | ESymlink | EUnreadable.
#[export] Instance Entry_eq_dec : EqDecision Entry.
Proof. solve_decision. Defined.
Abbreviation Tree := (gmap (list string) Entry) (only parsing).
Inductive IoKind : Type := IoNotFound | IoInvalidInput | IoOther.
#[export] Instance IoKind_eq_dec : EqDecision IoKind.
Proof. solve_decision. Defined.

(** [symlink_metadata]. *)
Definition metadata (fs : Tree) (path : list string) : result Entry IoKind :=
  match fs !! path with Some EUnreadable => Err IoOther | Some e => Ok e | None => Err IoNotFound end.
Definition read_file (fs : Tree) (path : list string) : result (list Z) IoKind :=
  let* e := metadata fs path in match e with EFile bytes => Ok bytes | _ => Err IoOther end.
(** The loop of [check_path]: [rest] are the components still to come after [current]. *)
Fixpoint check_below (fs : Tree) (current rest : list string) (allow_missing : bool) : result unit IoKind :=
  match rest with
  | [] => Ok tt
  | part :: rest =>
      let current := current ++ [part] in
      match metadata fs current with
      | Err IoNotFound => if allow_missing then Ok tt else Err IoNotFound
      | Err e => Err e
      | Ok ESymlink => Err IoOther
      | Ok (EFile _) => match rest with [] => Ok tt | _ => Err IoOther end
      | Ok _ => match rest with [] => Err IoOther | _ => check_below fs current rest allow_missing end
      end
  end.
(** [check_path] of a path under [root]; a missing root is an error of its own. *)
Definition check_path (fs : Tree) (root relative : list string) (allow_missing : bool) : result unit IoKind :=
  match metadata fs root with Ok EDir => check_below fs root relative allow_missing | _ => Err IoOther end.

Section blobs.
Context `{UuidText}.
Variable parse_date : string -> option Z.
Variable format_date : Z -> string.

Definition jpg (name : string) : string := (name ++ ".jpg")%string.
(** [strip_suffix(".jpg")], on the reversed text. *)
Definition strip_jpg (s : string) : option string := String.rev <$> Accounts.strip_prefix "gpj." (String.rev s).
(** The path of a reference below the root. *)
Definition blob_path (agent : Uuid) (reference : string) : option (list string) :=
  match split_on "/" reference with
  | [owner; day; file] =>
      if negb (String.eqb owner (uuid_text agent)) || negb (isSome (day_name parse_date format_date day)) then None
      else
        uid ← strip_jpg file ≫= parse_uuid;
        if String.eqb file (jpg (uuid_text uid)) then Some [owner; day; file] else None
  | _ => None
  end.
Definition read_blob (fs : Tree) (root : list string) (agent : Uuid) (reference : string) : result (list Z) IoKind :=
  let* path := ok_or (blob_path agent reference) IoInvalidInput in
  let* _ := check_path fs root path false in
  read_file fs (root ++ path).

(** ** Thumbnails *)

Definition THUMB_WIDTHS : list Z := [160; 320; 640].
(** [min_by_key]: the first of the nearest. *)
Definition snap_thumb_width (requested : Z) : Z :=
  foldl (fun best w => if Z.abs (w - requested) <? Z.abs (best - requested) then w else best) 160 THUMB_WIDTHS.
Variable decimal : Z -> string.
(** Below the root, for a reference of plain components. *)
Definition thumb_path (reference : string) (width : Z) : option (list string) :=
  match rev (split_on "/" reference) with
  | file :: ((_ :: _) as dir) => Some (rev dir ++ ["thumb-" ++ decimal width; file]%string)
  | _ => None
  end.

(** Width and height of a decoded JPEG, and its scaled and re-encoded picture. *)
Variable decode_jpeg : list Z -> option (Z * Z).
Variable scale_jpeg : list Z -> Z -> Z -> option (list Z).
Definition render_thumb (jpeg : list Z) (width : Z) : option (list Z) :=
  '(w, h) ← decode_jpeg jpeg;
  if w <=? width then Some jpeg else scale_jpeg jpeg width (Z.max 1 (h * width / Z.max 1 w)).

(** How the cache write ends: a failed one can leave a truncated file. *)
Inductive CacheWrite : Type := NoDirectory | Written | Truncated (left_ : list Z).
Record ThumbEnv := { te_task : bool; te_write : CacheWrite }.
(** [create_dir_all] of a path's parents. *)
Definition create_parents (fs : Tree) (path : list string) : Tree :=
  foldl (fun fs n => match fs !! take n path with None => <[take n path := EDir]> fs | Some _ => fs end) fs (seq 1 (length path - 1)).
Definition write_cache (fs : Tree) (path : list string) (bytes : list Z) (w : CacheWrite) : Tree :=
  match w with
  | NoDirectory => fs
  | Written => <[path := EFile bytes]> (create_parents fs path)
  | Truncated left_ => <[path := EFile left_]> (create_parents fs path)
  end.
Definition thumb_response (fs : Tree) (root : list string) (reference : string) (width : Z) (full : list Z) (e : ThumbEnv) : Tree * list Z :=
  match thumb_path reference width with
  | None => (fs, full)
  | Some path =>
      if negb (te_task e) then (fs, full)
      else
        match check_path fs root path true with
        | Err _ => (fs, full)
        | Ok _ =>
            match read_file fs (root ++ path) with
            | Ok cached => (fs, cached)
            | Err _ =>
                match render_thumb full width with
                | None => (fs, full)
                | Some rendered => (write_cache fs (root ++ path) rendered (te_write e), rendered)
                end
            end
        end
  end.

(** ** The endpoint *)

(** The index, the files and the views; the lookup and the deletion can fail, the task too. *)
Record BlobEnv := { be_view : ViewEnv; be_task : bool; be_delete : bool; be_thumb : ThumbEnv }.
Record BlobState := { bs_table : list IndexRow; bs_files : Tree; bs_views : RecallViews }.
Definition of_frame (agent : Uuid) (id : Z) (r : IndexRow) : bool := (ix_id r =? id) && bool_decide (sf_agent (ix_frame r) = agent).
Definition screen_frame_blob_ref (t : list IndexRow) (agent : Uuid) (id : Z) : option string :=
  (fun r => sf_blob_ref (ix_frame r)) <$> List.find (of_frame agent id) t.
Definition delete_orphaned_screen_frame (t : list IndexRow) (agent : Uuid) (id : Z) : list IndexRow := List.filter (fun r => negb (of_frame agent id r)) t.
Definition history_blob (s : BlobState) (e : BlobEnv) (root : list string) (user : SignedIn) (id : Uuid) (frame : Z) (w : option Z) : BlobState * ApiResult (list Z) :=
  match require_operator user with
  | Err x => (s, Err x)
  | Ok user =>
      let s := {| bs_table := bs_table s; bs_files := bs_files s; bs_views := audit_recall (bs_views s) (be_view e) user id AUDIT_REPLAY |} in
      match queried (be_view e) (screen_frame_blob_ref (bs_table s) id frame) with
      | Err x => (s, Err x)
      | Ok None => (s, Err (NotFoundError "No such frame"))
      | Ok (Some reference) =>
          if negb (isSome (blob_path id reference)) then (s, Err (BadRequest "Bad blob reference"))
          else if negb (be_task e) then (s, Err Internal)
          else
            match read_blob (bs_files s) root id reference with
            | Ok bytes =>
                match w with
                | None => (s, Ok bytes)
                | Some w =>
                    let '(fs, out) := thumb_response (bs_files s) root reference (snap_thumb_width w) bytes (be_thumb e) in
                    ({| bs_table := bs_table s; bs_files := fs; bs_views := bs_views s |}, Ok out)
                end
            | Err IoNotFound =>
                ({| bs_table := if be_delete e then delete_orphaned_screen_frame (bs_table s) id frame else bs_table s; bs_files := bs_files s; bs_views := bs_views s |},
                 Err (NotFoundError "Frame blob missing"))
            | Err _ => (s, Err Internal)
            end
      end
  end.
End blobs.

(** ** Capture settings *)

Record RecallSettings := {
  rs_enabled : bool; rs_interval_ms : Z; rs_hot_interval_ms : Z; rs_jpeg_quality : Z; rs_max_dim : Z; rs_dedup_hamming : Z; rs_keyframe_max_gap_ms : Z;
  rs_ocr : bool
}.
(** A request body, a patch and an override row: what is omitted is [None]. *)
Record RecallSettingsBody := {
  rb_enabled : option bool; rb_interval_ms : option Z; rb_hot_interval_ms : option Z; rb_jpeg_quality : option Z; rb_max_dim : option Z;
  rb_dedup_hamming : option Z; rb_keyframe_max_gap_ms : option Z; rb_ocr : option bool
}.
Definition optional_in (v : option Z) (lo hi : Z) (msg : string) : result (option Z) string :=
  match v with Some x => if (x <? lo) || (hi <? x) then Err msg else Ok v | None => Ok v end.
Definition validate_settings (b : RecallSettingsBody) : result RecallSettingsBody string :=
  let* interval := optional_in (rb_interval_ms b) 1000 3600000 "interval_ms must be 1000–3600000" in
  let* hot := optional_in (rb_hot_interval_ms b) 1000 3600000 "hot_interval_ms must be 1000–3600000" in
  let* quality := optional_in (rb_jpeg_quality b) 1 100 "jpeg_quality must be 1–100" in
  let* dim := match rb_max_dim b with
              | None => Ok None
              | Some x => if (x =? 0) || in_range 320 7680 x then Ok (Some x) else Err "max_dim must be 0 (no downscale) or 320–7680"%string
              end in
  let* hamming := optional_in (rb_dedup_hamming b) 0 64 "dedup_hamming must be 0–64" in
  let* gap := optional_in (rb_keyframe_max_gap_ms b) 10000 86400000 "keyframe_max_gap_ms must be 10000–86400000" in
  Ok {| rb_enabled := rb_enabled b; rb_interval_ms := interval; rb_hot_interval_ms := hot; rb_jpeg_quality := quality; rb_max_dim := dim;
        rb_dedup_hamming := hamming; rb_keyframe_max_gap_ms := gap; rb_ocr := rb_ocr b |}.

(** The row of the fleet and the rows of devices. *)
Record RecallSettingsRows := { rr_global : option RecallSettings; rr_agent : gmap Uuid RecallSettingsBody }.
(** The migration's row. *)
Definition RecallSettings_default : RecallSettings :=
  {| rs_enabled := true; rs_interval_ms := 20000; rs_hot_interval_ms := 6000; rs_jpeg_quality := 45; rs_max_dim := 1600; rs_dedup_hamming := 4;
     rs_keyframe_max_gap_ms := 300000; rs_ocr := true |}.
Definition over (p : RecallSettingsBody) (g : RecallSettings) : RecallSettings :=
  {| rs_enabled := default (rs_enabled g) (rb_enabled p); rs_interval_ms := default (rs_interval_ms g) (rb_interval_ms p);
     rs_hot_interval_ms := default (rs_hot_interval_ms g) (rb_hot_interval_ms p); rs_jpeg_quality := default (rs_jpeg_quality g) (rb_jpeg_quality p);
     rs_max_dim := default (rs_max_dim g) (rb_max_dim p); rs_dedup_hamming := default (rs_dedup_hamming g) (rb_dedup_hamming p);
     rs_keyframe_max_gap_ms := default (rs_keyframe_max_gap_ms g) (rb_keyframe_max_gap_ms p); rs_ocr := default (rs_ocr g) (rb_ocr p) |}.
Definition set_recall_settings_global (s : RecallSettingsRows) (p : RecallSettingsBody) : RecallSettingsRows :=
  {| rr_global := over p <$> rr_global s; rr_agent := rr_agent s |}.
Definition set_recall_settings_agent (s : RecallSettingsRows) (agent : Uuid) (p : RecallSettingsBody) : RecallSettingsRows :=
  {| rr_global := rr_global s; rr_agent := <[agent := p]> (rr_agent s) |}.
Definition clear_recall_settings_agent (s : RecallSettingsRows) (agent : Uuid) : RecallSettingsRows :=
  {| rr_global := rr_global s; rr_agent := delete agent (rr_agent s) |}.
Definition effective_recall_settings (s : RecallSettingsRows) (agent : Uuid) : option RecallSettings :=
  g ← rr_global s; Some (match rr_agent s !! agent with Some p => over p g | None => g end).
Definition settings_json (s : RecallSettings) : json :=
  mk_obj [("enabled", JBool (rs_enabled s)); ("interval_ms", JInt (rs_interval_ms s)); ("hot_interval_ms", JInt (rs_hot_interval_ms s));
          ("jpeg_quality", JInt (rs_jpeg_quality s)); ("max_dim", JInt (rs_max_dim s)); ("dedup_hamming", JInt (rs_dedup_hamming s));
          ("keyframe_max_gap_ms", JInt (rs_keyframe_max_gap_ms s)); ("ocr", JBool (rs_ocr s))]%string.

(** The endpoints: the write, then the push to the devices that are connected. *)
Record SettingsAudit := { sa_actor : string; sa_agent : option Uuid; sa_action : string; sa_detail : option RecallSettingsBody; sa_ip : option string }.
Record SettingsState := { ps_rows : RecallSettingsRows; ps_registry : AgentRegistry; ps_audit : list SettingsAudit }.
(** The peer's address, and whether the write and the audit insert succeed. *)
Record SettingsEnv := { sv_ip : option string; sv_written : bool; sv_audited : bool }.
Definition audited (s : SettingsState) (e : SettingsEnv) (user : SignedIn) (agent : option Uuid) (action : string) (detail : option RecallSettingsBody) : list SettingsAudit :=
  if sv_audited e then ps_audit s ++ [{| sa_actor := si_name user; sa_agent := agent; sa_action := action; sa_detail := detail; sa_ip := sv_ip e |}] else ps_audit s.
Definition pushed (rows : RecallSettingsRows) (agent : Uuid) : option json := settings_json <$> effective_recall_settings rows agent.
Definition recall_settings_get (rows : RecallSettingsRows) (user : SignedIn) : ApiResult RecallSettings :=
  let* _ := require_operator user in ok_or (rr_global rows) Internal.
(** The effective settings, the override and the fleet's. *)
Definition agent_recall_settings_get (rows : RecallSettingsRows) (user : SignedIn) (id : Uuid)
    : ApiResult (option RecallSettings * option RecallSettingsBody * RecallSettings) :=
  let* _ := require_operator user in
  let* global := ok_or (rr_global rows) Internal in Ok (effective_recall_settings rows id, rr_agent rows !! id, global).
Section settings_endpoints.
Context `{UuidText}.
Variable hash_order : gset Uuid -> list Uuid.
Definition recall_settings_put (s : SettingsState) (user : SignedIn) (body : RecallSettingsBody) (e : SettingsEnv) : SettingsState * ApiResult RecallSettings :=
  match (let* _ := require_admin user in or_bad_request (validate_settings body)) with
  | Err x => (s, Err x)
  | Ok patch =>
      if negb (sv_written e) then (s, Err Internal)
      else
        let rows := set_recall_settings_global (ps_rows s) patch in
        ({| ps_rows := rows; ps_registry := push_recall_settings_to_all_connected hash_order (ps_registry s) (pushed rows);
           ps_audit := audited s e user None "recall_settings_global" (Some body) |}, recall_settings_get rows user)
  end.
Definition agent_recall_settings_put (s : SettingsState) (user : SignedIn) (id : Uuid) (body : RecallSettingsBody) (e : SettingsEnv)
    : SettingsState * ApiResult (option RecallSettings * option RecallSettingsBody * RecallSettings) :=
  match (let* _ := require_admin user in or_bad_request (validate_settings body)) with
  | Err x => (s, Err x)
  | Ok patch =>
      if negb (sv_written e) then (s, Err Internal)
      else
        let rows := set_recall_settings_agent (ps_rows s) id patch in
        ({| ps_rows := rows; ps_registry := push_recall_settings_to_agent (ps_registry s) id (pushed rows id);
           ps_audit := audited s e user (Some id) "recall_settings_agent" (Some body) |}, agent_recall_settings_get rows user id)
  end.
Definition agent_recall_settings_delete (s : SettingsState) (user : SignedIn) (id : Uuid) (e : SettingsEnv) : SettingsState * ApiResult unit :=
  match require_admin user with
  | Err x => (s, Err x)
  | Ok _ =>
      if negb (sv_written e) then (s, Err Internal)
      else
        let rows := clear_recall_settings_agent (ps_rows s) id in
        ({| ps_rows := rows; ps_registry := push_recall_settings_to_agent (ps_registry s) id (pushed rows id);
           ps_audit := audited s e user (Some id) "recall_settings_agent_clear" None |}, Ok tt)
  end.
End settings_endpoints.

(** ** Local days *)

Inductive LocalResult : Type := LocalSingle (t : Z) | LocalAmbiguous (earlier later : Z) | LocalNone.
Definition earliest (r : LocalResult) : option Z := match r with LocalSingle t | LocalAmbiguous t _ => Some t | LocalNone => None end.

Section days.
(** A day is its number; local times are nanoseconds since the local epoch. The zone's
    [from_local_datetime], today there, and the days there are. *)
Variable from_local : Z -> LocalResult.
Variable today : Z.
Variable parse_day : string -> option Z.
Variable max_day : Z.

Definition quarter : Z := secs 900.
Definition local_midnight (day : Z) : option Z :=
  let naive := day * secs 86400 in
  match from_local naive with
  | LocalSingle t | LocalAmbiguous t _ => Some t
  | LocalNone => head (omap (fun i => earliest (from_local (naive + quarter * Z.of_nat i))) (seq 1 8))
  end.
Definition parse_day_in_tz (day : option string) : result (Z * Z * Z) string :=
  let* d := match day with
            | None => Ok today
            | Some s => ok_or (parse_day (trim s)) "invalid 'day' (expected YYYY-MM-DD)"%string
            end in
  let* start := ok_or (local_midnight d) "invalid day"%string in
  let* end_ := ok_or (if d <? max_day then local_midnight (d + 1) else None) "invalid day"%string in
  Ok (d, start, end_).
End days.

(** ** Lemmas: blobs *)

Section blob_lemmas.
Context `{UuidText}.
Variable parse_date : string -> option Z.
Variable format_date : Z -> string.
Variable decimal : Z -> string.
Variable decode_jpeg : list Z -> option (Z * Z).
Variable scale_jpeg : list Z -> Z -> Z -> option (list Z).
Implicit Types (fs : Tree) (path root : list string).

Lemma blob_path_spec agent reference path : blob_path parse_date format_date agent reference = Some path ->
  exists day uid, is_Some (day_name parse_date format_date day) /\ path = [uuid_text agent; day; jpg (uuid_text uid)]
    /\ split_on "/" reference = path.
Proof.
  unfold blob_path. destruct (split_on "/" reference) as [|owner [|day [|file [|]]]] eqn:E; try done. destruct (_ || _) eqn:Ho; [done|]. bool_prop.
  intros Hp. apply bind_Some in Hp as (uid & Hu & Hp). destruct (String.eqb_spec file (jpg (uuid_text uid))) as [->|]; [|done]. injection Hp as <-.
  match goal with H : String.eqb owner _ = true |- _ => apply String.eqb_eq in H as -> end. exists day, uid. split_and!; [|done|done].
  by destruct (day_name parse_date format_date day).
Qed.
(** What a check that demands the file establishes: directories all the way, then a regular file. *)
Lemma check_below_file fs current rest : rest <> [] -> check_below fs current rest false = Ok tt ->
  (exists bytes, fs !! (current ++ rest) = Some (EFile bytes))
  /\ forall k, (0 < k < length rest)%nat -> fs !! (current ++ take k rest) = Some EDir.
Proof.
  revert current. induction rest as [|part rest IH]; intros current Hne Hc; [done|]. cbn [check_below] in Hc. unfold metadata in Hc.
  destruct (fs !! (current ++ [part])) as [[bytes| | |]|] eqn:E; try done.
  - destruct rest as [|]; [|done]. split; [by eexists|]. simpl. lia.
  - destruct rest as [|part' rest']; [done|]. destruct (IH (current ++ [part])) as [[bytes Hf] Hd]; [done|done|].
    rewrite <- app_assoc in Hf. split; [by eexists|]. intros k Hk. destruct k as [|[|k]]; [lia|done|].
    specialize (Hd (S k)). cbn [take] in *. rewrite <- app_assoc in Hd. apply Hd. simpl in *. lia.
Qed.
Lemma read_blob_spec fs root agent reference bytes : read_blob parse_date format_date fs root agent reference = Ok bytes ->
  exists day uid, is_Some (day_name parse_date format_date day) /\ split_on "/" reference = [uuid_text agent; day; jpg (uuid_text uid)]
    /\ fs !! root = Some EDir /\ fs !! (root ++ [uuid_text agent]) = Some EDir /\ fs !! (root ++ [uuid_text agent; day]) = Some EDir
    /\ fs !! (root ++ [uuid_text agent; day; jpg (uuid_text uid)]) = Some (EFile bytes).
Proof.
  unfold read_blob. intros Hr. apply rbind_Ok in Hr as (path & Hp & Hr). apply ok_or_Ok in Hp. apply rbind_Ok in Hr as ([] & Hc & Hr).
  destruct (blob_path_spec _ _ _ Hp) as (day & uid & Hday & -> & Hs). exists day, uid. unfold check_path in Hc.
  destruct (metadata fs root) as [[]|] eqn:Em; try done. unfold metadata in Em. destruct (fs !! root) as [[]|] eqn:Er; try done.
  apply check_below_file in Hc as [[b Hf] Hd]; [|done]. unfold read_file, metadata in Hr. rewrite Hf in Hr. injection Hr as ->.
  split_and!; [done|done|done|exact (Hd 1%nat ltac:(simpl; lia))|exact (Hd 2%nat ltac:(simpl; lia))|done].
Qed.

Lemma check_below_missing fs rest : forall current, check_below fs current rest false = Err IoNotFound ->
  exists k, (0 < k <= length rest)%nat /\ fs !! (current ++ take k rest) = None.
Proof.
  induction rest as [|part rest IH]; intros current Hc; [done|]. cbn [check_below] in Hc. unfold metadata in Hc.
  destruct (fs !! (current ++ [part])) as [e|] eqn:E; [|exists 1%nat; cbn [length take]; split; [lia|exact E]].
  assert (check_below fs (current ++ [part]) rest false = Err IoNotFound) as Hr by (by destruct e, rest).
  destruct (IH _ Hr) as (k & Hk & Hn). exists (S k). cbn [length take]. split; [lia|]. by rewrite <- app_assoc in Hn.
Qed.
(** What a missing file is: the root is a directory, and something on the way down is not there. *)
Lemma read_blob_missing fs root agent reference : read_blob parse_date format_date fs root agent reference = Err IoNotFound ->
  exists day uid k, split_on "/" reference = [uuid_text agent; day; jpg (uuid_text uid)] /\ fs !! root = Some EDir
    /\ (0 < k <= 3)%nat /\ fs !! (root ++ take k [uuid_text agent; day; jpg (uuid_text uid)]) = None.
Proof.
  unfold read_blob. destruct (blob_path parse_date format_date agent reference) as [path|] eqn:Ep; [|done]. cbn [ok_or rbind].
  destruct (blob_path_spec _ _ _ Ep) as (day & uid & _ & -> & Hs). unfold check_path. destruct (metadata fs root) as [[]|] eqn:Em; try done.
  assert (fs !! root = Some EDir) as Hroot by (unfold metadata in Em; by destruct (fs !! root) as [[]|]).
  destruct (check_below _ _ _ _) as [[]|x] eqn:Ec; cbn [rbind].
  - apply check_below_file in Ec as [[b Hf] _]; [|done]. unfold read_file, metadata. by rewrite Hf.
  - intros [= ->]. apply check_below_missing in Ec as (k & Hk & Hn). by exists day, uid, k.
Qed.
Lemma snap_is_bucket w : snap_thumb_width w ∈ THUMB_WIDTHS.
Proof.
  unfold snap_thumb_width. assert (forall l b, b ∈ THUMB_WIDTHS -> (forall x, x ∈ l -> x ∈ THUMB_WIDTHS) ->
    foldl (fun best w' => if Z.abs (w' - w) <? Z.abs (best - w) then w' else best) b l ∈ THUMB_WIDTHS) as Hl; [|by apply Hl; [left|]].
  induction l as [|x l IH]; intros b Hb Hx; [done|]. cbn. apply IH; [|intros ? ?; apply Hx; by right]. case_match; [apply Hx; by left|done].
Qed.
(** It is the nearest. *)
Lemma snap_is_nearest w b : b ∈ THUMB_WIDTHS -> Z.abs (snap_thumb_width w - w) <= Z.abs (b - w).
Proof.
  intros Hb. unfold THUMB_WIDTHS in Hb. rewrite !elem_of_cons in Hb. unfold snap_thumb_width, THUMB_WIDTHS. cbn [foldl].
  repeat match goal with |- context [if ?a <? ?b then _ else _] =>
    lazymatch b with context [if _ then _ else _] => fail | _ => destruct (Z.ltb_spec a b) end end;
    destruct Hb as [->|[->|[->|Hb]]]; try lia; by apply not_elem_of_nil in Hb.
Qed.
Lemma thumb_path_inside reference owner day file width : split_on "/" reference = [owner; day; file] ->
  thumb_path decimal reference width = Some [owner; day; "thumb-" ++ decimal width; file]%string.
Proof. unfold thumb_path. by intros ->. Qed.

Lemma create_parents_lookup fs path p e : fs !! p = Some e -> create_parents fs path !! p = Some e.
Proof.
  unfold create_parents. generalize (seq 1 (length path - 1)). intros l. revert fs. induction l as [|n l IH]; intros fs Hp; [done|]. cbn.
  apply IH. destruct (fs !! take n path) eqn:E; [done|]. rewrite lookup_insert_ne; [done|]. intros He. rewrite He in E. congruence.
Qed.
Lemma create_parents_new fs path p e : create_parents fs path !! p = Some e -> fs !! p = Some e \/ e = EDir /\ exists n, (0 < n < length path)%nat /\ p = take n path.
Proof.
  unfold create_parents. assert (forall n, n ∈ seq 1 (length path - 1) -> (0 < n < length path)%nat) as Hn by (intros n ?%elem_of_seq; lia).
  revert Hn. generalize (seq 1 (length path - 1)). intros l. revert fs. induction l as [|n l IH]; intros fs Hn; [by left|]. cbn. intros Hp.
  destruct (IH _ (fun m Hm => Hn m (list_elem_of_further _ _ _ Hm)) Hp) as [Hl|[-> ?]]; [|by right].
  destruct (fs !! take n path) eqn:E; [by left|]. apply lookup_insert_Some in Hl as [[<- <-]|[_ Hl]]; [right|by left].
  split; [done|]. exists n. split; [apply Hn; by left|done].
Qed.
End blob_lemmas.

(** ** Frames are read where they belong *)

Section blob_theorems.
Context `{UuidText}.
Variable parse_date : string -> option Z.
Variable format_date : Z -> string.
Variable decimal : Z -> string.
Variable decode_jpeg : list Z -> option (Z * Z).
Variable scale_jpeg : list Z -> Z -> Z -> option (list Z).
Implicit Types (fs : Tree) (path root : list string).

Definition thumb_at root (agent day file : string) (b : Z) : list string := root ++ [agent; day; "thumb-" ++ decimal b; file]%string.
Lemma thumb_response_spec fs root reference agent day file width full e fs' out :
  split_on "/" reference = [agent; day; file] ->
  fs !! (root ++ [agent]) = Some EDir -> fs !! (root ++ [agent; day]) = Some EDir -> (forall k, (0 < k <= length root)%nat -> is_Some (fs !! take k root)) ->
  thumb_response decimal decode_jpeg scale_jpeg fs root reference width full e = (fs', out) ->
  (out = full \/ render_thumb decode_jpeg scale_jpeg full width = Some out \/ fs !! thumb_at root agent day file width = Some (EFile out))
  /\ (forall p, fs' !! p <> fs !! p ->
        p = root ++ [agent; day; "thumb-" ++ decimal width]%string /\ fs !! p = None /\ fs' !! p = Some EDir
        \/ p = thumb_at root agent day file width /\ (forall bytes, fs !! p <> Some (EFile bytes))
           /\ exists rendered, render_thumb decode_jpeg scale_jpeg full width = Some rendered
              /\ match te_write e with NoDirectory => False | Written => fs' !! p = Some (EFile rendered) | Truncated l => fs' !! p = Some (EFile l) end).
Proof.
  intros Hs Ha Hd Hroot. unfold thumb_response. rewrite (thumb_path_inside decimal reference agent day file width Hs).
  destruct (te_task e); [|intros [= <- <-]; split; [by left|done]]. cbn [negb]. destruct (check_path _ _ _ _) as [[]|]; [|intros [= <- <-]; split; [by left|done]].
  change (root ++ [agent; day; "thumb-" ++ decimal width; file]%string) with (thumb_at root agent day file width). set (tp := thumb_at root agent day file width).
  destruct (read_file fs tp) as [cached|] eqn:Er.
  { intros [= <- <-]. split; [|done]. right; right. unfold read_file, metadata in Er. destruct (fs !! tp) as [[]|]; try done. by injection Er as ->. }
  destruct (render_thumb _ _ full width) as [rendered|] eqn:Erend; [|intros [= <- <-]; split; [by left|done]].
  intros [= <- <-]. split; [by right; left|].
  assert (forall bytes p, <[tp := EFile bytes]> (create_parents fs tp) !! p <> fs !! p -> p = tp
          \/ p = root ++ [agent; day; "thumb-" ++ decimal width]%string /\ fs !! p = None /\ <[tp := EFile bytes]> (create_parents fs tp) !! p = Some EDir) as Hnew.
  { intros bytes p Hp. destruct (decide (p = tp)) as [?|Hne]; [by left|right]. rewrite lookup_insert_ne in Hp |- * by done.
    destruct (fs !! p) as [x|] eqn:Ep; [by rewrite (create_parents_lookup _ _ _ _ Ep) in Hp|].
    destruct (create_parents fs tp !! p) as [y|] eqn:Ey; [|done]. destruct (create_parents_new _ _ _ _ Ey) as [?|[-> (n & Hn & ->)]]; [congruence|].
    split_and!; [|done|done]. unfold tp, thumb_at in Hn, Ep |- *. rewrite length_app in Hn. cbn in Hn.
    destruct (decide (n <= length root)%nat) as [Hle|Hgt].
    - rewrite take_app_le in Ep by done. destruct (Hroot n ltac:(lia)) as [? Hx]. congruence.
    - rewrite take_app_ge in Ep |- * by lia. destruct (n - length root)%nat as [|[|[|[|k]]]] eqn:Ek; [lia|cbn in Ep; congruence|cbn in Ep; congruence|done|lia]. }
  assert (forall bytes, fs !! tp <> Some (EFile bytes)) as Hno. { intros bytes E. unfold read_file, metadata in Er. by rewrite E in Er. }
  intros p Hp. unfold write_cache in *. destruct (te_write e) as [| |l]; [done| |];
    (destruct (Hnew _ _ Hp) as [-> |?]; [right; split_and!; [done|done|]; exists rendered; split; [done|by rewrite lookup_insert_eq]|by left]).
Qed.

Lemma render_thumb_spec full b out : render_thumb decode_jpeg scale_jpeg full b = Some out ->
  exists w h, decode_jpeg full = Some (w, h) /\ if w <=? b then out = full else scale_jpeg full b (Z.max 1 (h * b / Z.max 1 w)) = Some out.
Proof.
  unfold render_thumb. destruct (decode_jpeg full) as [[w h]|]; [|done]. cbn. intros Hr. exists w, h. split; [done|]. destruct (w <=? b); [by injection Hr|done].
Qed.
Lemma orphan_deleted (t : list IndexRow) id frame r :
  r ∈ delete_orphaned_screen_frame t id frame <-> r ∈ t /\ ~ (ix_id r = frame /\ sf_agent (ix_frame r) = id).
Proof.
  unfold delete_orphaned_screen_frame. rewrite list_elem_of_In, filter_In, <- list_elem_of_In. unfold of_frame.
  rewrite negb_true_iff, andb_false_iff, Z.eqb_neq, bool_decide_eq_false. destruct (decide (ix_id r = frame)); tauto.
Qed.

(** C15: A request for a frame's picture answers with that frame's own file, or a thumbnail of it at the
    nearest of three widths: the row has the frame's id and is the device's, the file is a regular one
    reached through plain directories under the root, and a thumbnail is the picture itself where it is
    no wider, the picture scaled to that width with its proportions, or what the cache holds beside it.
    Nothing is written but that thumbnail in the frame's own day directory, and the only row ever
    deleted is the one of this frame of this device, when its file or a directory on the way to it is
    missing under a root that is there. *)
Theorem pictures_stay_in_their_day s e root user id frame w s' res :
  (forall k, (0 < k <= length root)%nat -> is_Some (bs_files s !! take k root)) ->
  history_blob parse_date format_date decimal decode_jpeg scale_jpeg s e root user id frame w = (s', res) ->
  (forall out, res = Ok out -> exists r day uid full, r ∈ bs_table s /\ ix_id r = frame /\ sf_agent (ix_frame r) = id
     /\ split_on "/" (sf_blob_ref (ix_frame r)) = [uuid_text id; day; jpg (uuid_text uid)] /\ is_Some (day_name parse_date format_date day)
     /\ (forall k, (k <= 2)%nat -> bs_files s !! (root ++ take k [uuid_text id; day]) = Some EDir)
     /\ bs_files s !! (root ++ [uuid_text id; day; jpg (uuid_text uid)]) = Some (EFile full)
     /\ match w with
        | None => out = full /\ bs_files s' = bs_files s
        | Some w =>
            exists b, b ∈ [160; 320; 640] /\ (forall b', b' ∈ [160; 320; 640] -> Z.abs (b - w) <= Z.abs (b' - w))
            /\ (out = full \/ (exists wd ht, decode_jpeg full = Some (wd, ht) /\ b < wd /\ scale_jpeg full b (Z.max 1 (ht * b / Z.max 1 wd)) = Some out)
                \/ bs_files s !! (root ++ [uuid_text id; day; "thumb-" ++ decimal b; jpg (uuid_text uid)]%string) = Some (EFile out))
            /\ forall p, bs_files s' !! p <> bs_files s !! p ->
                 p = root ++ [uuid_text id; day; "thumb-" ++ decimal b]%string
                 \/ p = root ++ [uuid_text id; day; "thumb-" ++ decimal b; jpg (uuid_text uid)]%string
        end)
  /\ (is_ok res = false -> bs_files s' = bs_files s)
  /\ (bs_table s' = bs_table s
      \/ (forall x, x ∈ bs_table s' <-> x ∈ bs_table s /\ ~ (ix_id x = frame /\ sf_agent (ix_frame x) = id))
         /\ res = Err (NotFoundError "Frame blob missing") /\ bs_files s !! root = Some EDir
         /\ exists r day uid k, r ∈ bs_table s /\ ix_id r = frame /\ sf_agent (ix_frame r) = id
            /\ split_on "/" (sf_blob_ref (ix_frame r)) = [uuid_text id; day; jpg (uuid_text uid)]
            /\ (0 < k <= 3)%nat /\ bs_files s !! (root ++ take k [uuid_text id; day; jpg (uuid_text uid)]) = None).
Proof.
  intros Hroot. unfold history_blob. destruct (require_operator user) as [u|]; [|intros [= <- <-]; split_and!; [done|done|by left]].
  unfold queried. destruct (ve_db (be_view e)); [|intros [= <- <-]; split_and!; [done|done|by left]]. cbn [bs_table bs_files bs_views].
  unfold screen_frame_blob_ref. destruct (List.find (of_frame id frame) (bs_table s)) as [r|] eqn:Ef; cbn [fmap option_fmap option_map].
  2: { intros [= <- <-]. split_and!; [done|done|by left]. }
  apply find_some in Ef as [Hin%list_elem_of_In Hof]. unfold of_frame in Hof. apply andb_true_iff in Hof as [Hid%Z.eqb_eq Hag%bool_decide_eq_true].
  set (reference := sf_blob_ref (ix_frame r)).
  destruct (blob_path parse_date format_date id reference) as [path|] eqn:Ep; cbn [isSome negb]; [|intros [= <- <-]; split_and!; [done|done|by left]].
  destruct (be_task e); cbn [negb]; [|intros [= <- <-]; split_and!; [done|done|by left]].
  destruct (read_blob _ _ (bs_files s) root id reference) as [full|k] eqn:Er.
  - destruct (read_blob_spec _ _ _ _ _ _ _ Er) as (day & uid & Hday & Hs & H0 & H1 & H2 & H3).
    assert (forall k, (k <= 2)%nat -> bs_files s !! (root ++ take k [uuid_text id; day]) = Some EDir) as Hdirs.
    { intros [|[|[|k]]] Hk; cbn; [by rewrite app_nil_r|done|done|lia]. }
    destruct w as [w|].
    + destruct (thumb_response _ _ _ _ _ _ _ _ _) as [fs out] eqn:Et. intros [= <- <-]. cbn [bs_files bs_table].
      destruct (thumb_response_spec _ _ _ _ _ _ _ _ _ _ _ Hs H1 H2 Hroot Et) as [Hout Hfs]. split_and!; [|done|by left].
      intros out' [= <-]. exists r, day, uid, full. split_and!; try done. exists (snap_thumb_width w). split_and!; [apply snap_is_bucket|apply snap_is_nearest| |].
      * destruct Hout as [?|[Hr|?]]; [by left| |by right; right]. apply render_thumb_spec in Hr as (wd & ht & Hd & Hr).
        destruct (Z.leb_spec wd (snap_thumb_width w)); [by left|]. right. left. by exists wd, ht.
      * intros p Hp. destruct (Hfs p Hp) as [[-> _]|[-> _]]; [by left|by right].
    + intros [= <- <-]. split_and!; [|done|by left]. intros out [= <-]. by exists r, day, uid, full.
  - destruct k; intros [= <- <-]; cbn [bs_files bs_table]; (split_and!; [done|done|]); [|by left|by left].
    destruct (be_delete e); [right|by left]. destruct (read_blob_missing _ _ _ _ _ _ Er) as (day & uid & k & Hs & H0 & Hk & Hn).
    split_and!; [intros x; apply orphan_deleted|done|done|]. by exists r, day, uid, k.
Qed.
End blob_theorems.

(** ** Capture settings *)

Definition optionally (P : Z -> Prop) (o : option Z) : Prop := forall z, o = Some z -> P z.
Definition dim_ok (z : Z) : Prop := z = 0 \/ 320 <= z <= 7680.
Record settings_ok (s : RecallSettings) : Prop := {
  so_interval : 1000 <= rs_interval_ms s <= 3600000; so_hot : 1000 <= rs_hot_interval_ms s <= 3600000; so_quality : 1 <= rs_jpeg_quality s <= 100;
  so_dim : dim_ok (rs_max_dim s); so_hamming : 0 <= rs_dedup_hamming s <= 64; so_gap : 10000 <= rs_keyframe_max_gap_ms s <= 86400000
}.
Record patch_ok (p : RecallSettingsBody) : Prop := {
  pt_interval : optionally (fun z => 1000 <= z <= 3600000) (rb_interval_ms p); pt_hot : optionally (fun z => 1000 <= z <= 3600000) (rb_hot_interval_ms p);
  pt_quality : optionally (fun z => 1 <= z <= 100) (rb_jpeg_quality p); pt_dim : optionally dim_ok (rb_max_dim p);
  pt_hamming : optionally (fun z => 0 <= z <= 64) (rb_dedup_hamming p); pt_gap : optionally (fun z => 10000 <= z <= 86400000) (rb_keyframe_max_gap_ms p)
}.
Definition rows_ok (s : RecallSettingsRows) : Prop :=
  (forall g, rr_global s = Some g -> settings_ok g) /\ forall a p, rr_agent s !! a = Some p -> patch_ok p.

Lemma optional_in_Ok v lo hi msg o : optional_in v lo hi msg = Ok o -> o = v /\ optionally (fun z => lo <= z <= hi) v.
Proof.
  unfold optional_in. destruct v as [x|]; [|intros [= <-]; split; [done|by intros ?]]. destruct (_ || _) eqn:E; [done|]. intros [= <-]. bool_prop.
  split; [done|]. intros z [= <-]. lia.
Qed.
(** An accepted body is stored as it is, and all it sets is in range. *)
Lemma validate_settings_Ok b p : validate_settings b = Ok p -> p = b /\ patch_ok b.
Proof.
  unfold validate_settings. intros Hv. apply rbind_Ok in Hv as (i & [-> Hi]%optional_in_Ok & Hv). apply rbind_Ok in Hv as (h & [-> Hh]%optional_in_Ok & Hv).
  apply rbind_Ok in Hv as (q & [-> Hq]%optional_in_Ok & Hv). apply rbind_Ok in Hv as (d & Hd & Hv). apply rbind_Ok in Hv as (m & [-> Hm]%optional_in_Ok & Hv).
  apply rbind_Ok in Hv as (g & [-> Hg]%optional_in_Ok & Hv). injection Hv as <-.
  assert (d = rb_max_dim b /\ optionally dim_ok (rb_max_dim b)) as [-> Hdim].
  { destruct (rb_max_dim b) as [x|]; [|injection Hd as <-; split; [done|by intros ?]]. destruct (_ || _) eqn:E; [|done]. injection Hd as <-. split; [done|].
    intros z [= <-]. apply orb_prop in E as [E|E]; [left; by apply Z.eqb_eq|right; by apply in_range_spec]. }
  split; [by destruct b|by split].
Qed.
Lemma optionally_default (P : Z -> Prop) o z : optionally P o -> P z -> P (default z o).
Proof. intros Ho Hz. destruct o as [x|]; [by apply Ho|done]. Qed.
Lemma over_ok p g : patch_ok p -> settings_ok g -> settings_ok (over p g).
Proof.
  intros Hp Hg. split; cbn [over rs_interval_ms rs_hot_interval_ms rs_jpeg_quality rs_max_dim rs_dedup_hamming rs_keyframe_max_gap_ms].
  - exact (optionally_default _ _ _ (pt_interval _ Hp) (so_interval _ Hg)).
  - exact (optionally_default _ _ _ (pt_hot _ Hp) (so_hot _ Hg)).
  - exact (optionally_default _ _ _ (pt_quality _ Hp) (so_quality _ Hg)).
  - exact (optionally_default _ _ _ (pt_dim _ Hp) (so_dim _ Hg)).
  - exact (optionally_default _ _ _ (pt_hamming _ Hp) (so_hamming _ Hg)).
  - exact (optionally_default _ _ _ (pt_gap _ Hp) (so_gap _ Hg)).
Qed.
Lemma effective_ok s a e : rows_ok s -> effective_recall_settings s a = Some e -> settings_ok e.
Proof.
  intros [Hg Ha] He. unfold effective_recall_settings in He. destruct (rr_global s) as [g|] eqn:Eg; [|done]. injection He as <-.
  destruct (rr_agent s !! a) as [p|] eqn:Ep; [|by apply Hg]. apply over_ok; [by eapply Ha|by apply Hg].
Qed.

Section settings_theorems.
Context `{UuidText}.
Variable hash_order : gset Uuid -> list Uuid.
Hypothesis hash_order_lists : forall s a, a ∈ s -> a ∈ hash_order s.

Inductive settings_op : Type := SetFleet (b : RecallSettingsBody) | SetDevice (id : Uuid) (b : RecallSettingsBody) | ClearDevice (id : Uuid).
(** One request, with its user and how its writes go; [true] when it answered. *)
Definition settings_run (s : SettingsState) (user : SignedIn) (op : settings_op) (e : SettingsEnv) : SettingsState * bool :=
  match op with
  | SetFleet b => let '(s, res) := recall_settings_put hash_order s user b e in (s, is_ok res)
  | SetDevice id b => let '(s, res) := agent_recall_settings_put s user id b e in (s, is_ok res)
  | ClearDevice id => let '(s, res) := agent_recall_settings_delete s user id e in (s, is_ok res)
  end.
Definition concerns (op : settings_op) (r : AgentRegistry) (agent : Uuid) : Prop :=
  match op with SetFleet _ => agent ∈ dom (connections r) | SetDevice id _ | ClearDevice id => agent = id end.
Definition set_as_asked (op : settings_op) (old : RecallSettingsRows) (agent : Uuid) (e : RecallSettings) : Prop :=
  exists g, rr_global old = Some g /\
  match op with
  | SetFleet b => e = match rr_agent old !! agent with Some p => over p (over b g) | None => over b g end
  | SetDevice _ b => e = over b g
  | ClearDevice _ => e = g
  end.

Lemma push_recall_grows r id v : grows r (push_recall_settings_to_agent r id v).
Proof. unfold push_recall_settings_to_agent. destruct v; [apply send_grows|reflexivity]. Qed.
Lemma push_recall_told r r1 id v : grows r r1 -> told r (push_recall_settings_to_agent r1 id (Some v)) id (SetRecallSettings_ {| srs_settings := v |}).
Proof. intros Hg. apply send_told; [done|done]. Qed.
Lemma fold_recall_told l f r r1 id v : id ∈ l -> f id = Some v -> grows r r1 ->
  told r (foldl (fun r id => push_recall_settings_to_agent r id (f id)) r1 l) id (SetRecallSettings_ {| srs_settings := v |}).
Proof.
  intros Hin Hv Hg. apply (fold_told (fun r id => push_recall_settings_to_agent r id (f id)) l id); [intros; apply push_recall_grows| |done|done].
  intros r2 Hg2. rewrite Hv. by apply push_recall_told.
Qed.

(** A written change: the rows stay in range, and what the request asked is what is in force. *)
Definition op_rows (op : settings_op) (rows : RecallSettingsRows) : RecallSettingsRows :=
  match op with
  | SetFleet b => set_recall_settings_global rows b
  | SetDevice id b => set_recall_settings_agent rows id b
  | ClearDevice id => clear_recall_settings_agent rows id
  end.
Definition op_ok (op : settings_op) : Prop := match op with SetFleet b | SetDevice _ b => patch_ok b | ClearDevice _ => True end.
Lemma op_rows_ok op rows : op_ok op -> rows_ok rows -> rows_ok (op_rows op rows).
Proof.
  intros Hb [Hg Ha]. destruct op as [b|id b|id]; split; cbn [op_rows rr_global rr_agent set_recall_settings_global set_recall_settings_agent clear_recall_settings_agent]; try done.
  - intros g Hgl. destruct (rr_global rows) as [g0|]; [|done]. injection Hgl as <-. apply over_ok; [done|by apply Hg].
  - intros a p [[<- <-]|[_ Hp]]%lookup_insert_Some; [done|by eapply Ha].
  - intros a p [_ Hp]%lookup_delete_Some. by eapply Ha.
Qed.
Lemma op_rows_asked op rows r agent e : concerns op r agent -> effective_recall_settings (op_rows op rows) agent = Some e -> set_as_asked op rows agent e.
Proof.
  unfold effective_recall_settings, set_as_asked. destruct op as [b|id b|id];
    cbn [concerns op_rows rr_global rr_agent set_recall_settings_global set_recall_settings_agent clear_recall_settings_agent]; intros Hc He.
  - destruct (rr_global rows) as [g|]; [|done]. injection He as <-. exists g. split; [done|]. by destruct (rr_agent rows !! agent).
  - subst. destruct (rr_global rows) as [g|]; [|done]. rewrite lookup_insert_eq in He. injection He as <-. by exists g.
  - subst. destruct (rr_global rows) as [g|]; [|done]. rewrite lookup_delete_eq in He. injection He as <-. by exists g.
Qed.
(** What a request does: nothing, or the write of an accepted change and its pushes. *)
Lemma settings_run_spec s user op e s' ok : settings_run s user op e = (s', ok) ->
  s' = s /\ ok = false
  \/ is_admin user = true /\ op_ok op /\ ps_rows s' = op_rows op (ps_rows s)
     /\ ps_registry s' = (match op with
                          | SetFleet _ => push_recall_settings_to_all_connected hash_order (ps_registry s) (pushed (ps_rows s'))
                          | SetDevice id _ | ClearDevice id => push_recall_settings_to_agent (ps_registry s) id (pushed (ps_rows s') id)
                          end)
     /\ ps_audit s' = (match op with
                       | SetFleet b => audited s e user None "recall_settings_global" (Some b)
                       | SetDevice id b => audited s e user (Some id) "recall_settings_agent" (Some b)
                       | ClearDevice id => audited s e user (Some id) "recall_settings_agent_clear" None
                       end)
     /\ (ok = false -> rr_global (ps_rows s') = None).
Proof.
  assert (forall rows a, is_admin user = true -> is_ok (agent_recall_settings_get rows user a) = false -> rr_global rows = None) as Hget.
  { intros rows a Ha. unfold is_admin in Ha. unfold agent_recall_settings_get, require_operator, is_operator. rewrite Ha, orb_true_r. cbn. by destruct (rr_global rows). }
  assert (forall rows, is_admin user = true -> is_ok (recall_settings_get rows user) = false -> rr_global rows = None) as Hgetg.
  { intros rows Ha. unfold is_admin in Ha. unfold recall_settings_get, require_operator, is_operator. rewrite Ha, orb_true_r. cbn. by destruct (rr_global rows). }
  destruct op as [b|id b|id]; cbn [settings_run]; unfold recall_settings_put, agent_recall_settings_put, agent_recall_settings_delete;
    unfold require_admin; (destruct (is_admin user) eqn:Ha; cbn [rbind]; [|intros [= <- <-]; by left]).
  1, 2: destruct (validate_settings b) as [p|] eqn:Ev; cbn [or_bad_request rmap_err]; [|intros [= <- <-]; by left];
    apply validate_settings_Ok in Ev as [-> Hb].
  all: destruct (sv_written e); cbn [negb]; [|intros [= <- <-]; by left]; intros [= <- <-]; right; cbn [ps_rows ps_registry ps_audit]; split_and!; try done.
  - by apply Hgetg.
  - by eapply Hget.
Qed.

(** A request to change capture settings is an administrator's, writes only values in range (so all a
    device can be told stays in range), and tells the devices it concerns, those connected for the fleet's
    settings and the one device for its own: each finds in its queue, unless that is full, a command with
    its settings as they now are, its override over the fleet's. *)
Theorem settings_change_is_in_force s user op env s' ok :
  rows_ok (ps_rows s) -> settings_run s user op env = (s', ok) ->
  rows_ok (ps_rows s')
  /\ (ok = false -> s' = s \/ rr_global (ps_rows s') = None)
  /\ (ok = true -> is_admin user = true /\ forall agent e, concerns op (ps_registry s) agent -> effective_recall_settings (ps_rows s') agent = Some e ->
        settings_ok e /\ set_as_asked op (ps_rows s) agent e
        /\ told (ps_registry s) (ps_registry s') agent (SetRecallSettings_ {| srs_settings := settings_json e |})).
Proof.
  intros Hok [[-> ->]|(Ha & Hop & Hr & Hreg & _ & Hf)]%settings_run_spec; [split_and!; [done|by left|done]|].
  assert (rows_ok (ps_rows s')) as Hok' by (rewrite Hr; by apply op_rows_ok). split_and!; [done|intros Hfalse; right; by apply Hf|].
  intros _. split; [done|]. intros agent e Hc He. split_and!; [by eapply effective_ok|rewrite Hr in He; by eapply op_rows_asked|].
  assert (pushed (ps_rows s') agent = Some (settings_json e)) as Hp by (unfold pushed; by rewrite He).
  rewrite Hreg. destruct op as [b|id b|id]; cbn [concerns] in Hc.
  - apply fold_recall_told; [|done|reflexivity]. by apply hash_order_lists.
  - subst. rewrite Hp. by apply push_recall_told.
  - subst. rewrite Hp. by apply push_recall_told.
Qed.
End settings_theorems.

(** ** Local days *)

Section day_theorems.
Variable from_local : Z -> LocalResult.
Variable today : Z.
Variable parse_day : string -> option Z.
Variable max_day : Z.
Abbreviation day_of := (parse_day_in_tz from_local today parse_day max_day) (only parsing).

(** Days abut: one ends where the next begins. *)
Lemma days_abut a b d sa ea sb eb : day_of a = Ok (d, sa, ea) -> day_of b = Ok (d + 1, sb, eb) -> ea = sb.
Proof.
  unfold parse_day_in_tz. intros Ha Hb. apply rbind_Ok in Ha as (d1 & _ & Ha). apply rbind_Ok in Ha as (s1 & _ & Ha). apply rbind_Ok in Ha as (e1 & He & [= -> -> ->]).
  apply rbind_Ok in Hb as (d2 & _ & Hb). apply rbind_Ok in Hb as (s2 & Hs & Hb). apply rbind_Ok in Hb as (e2 & _ & [= -> -> ->]).
  apply ok_or_Ok in He, Hs. destruct (d <? max_day); congruence.
Qed.
(** A day a zone skipped whole has no range, and neither has the day before it. *)
Lemma skipped_day_refused d day : parse_day (trim day) = Some d ->
  (forall i, (i <= 8)%nat -> from_local (d * secs 86400 + quarter * Z.of_nat i) = LocalNone) ->
  day_of (Some day) = Err "invalid day"%string
  /\ forall before, parse_day (trim before) = Some (d - 1) -> day_of (Some before) = Err "invalid day"%string.
Proof.
  intros Hd Hgap. assert (local_midnight from_local d = None) as Hnone.
  { unfold local_midnight. pose proof (Hgap 0%nat ltac:(lia)) as H0. rewrite Z.mul_0_r, Z.add_0_r in H0. rewrite H0.
    assert (omap (fun i => earliest (from_local (d * secs 86400 + quarter * Z.of_nat i))) (seq 1 8) = []) as ->; [|done].
    apply elem_of_nil_inv. intros x (i & Hi%elem_of_seq & He)%list_elem_of_omap. rewrite Hgap in He by lia. discriminate He. }
  unfold parse_day_in_tz. split.
  - rewrite Hd. cbn [ok_or rbind]. by rewrite Hnone.
  - intros before Hb. rewrite Hb. cbn [ok_or rbind]. replace (d - 1 + 1) with d by lia. rewrite Hnone.
    destruct (local_midnight from_local (d - 1)) as [z|]; cbn [ok_or rbind]; [|done]. destruct (d - 1 <? max_day); reflexivity.
Qed.
End day_theorems.

(** ** Examples *)

Definition ex_parse_date (s : string) : option Z := if String.eqb s "20260708" then Some 20642 else None.
Definition ex_format_date (z : Z) : string := if z =? 20642 then "20260708" else "".
Definition ex_decimal (z : Z) : string := if z =? 160 then "160" else if z =? 320 then "320" else "640".
(** A picture's first two bytes are its size; scaling keeps them. *)
Definition ex_decode (b : list Z) : option (Z * Z) := match b with w :: h :: _ => Some (w, h) | _ => None end.
Definition ex_scale (b : list Z) (w h : Z) : option (list Z) := Some [w; h].
Definition ex_reference : string := "111/20260708/11.jpg".
Definition ex_index : list IndexRow :=
  [{| ix_id := 5; ix_frame := {| sf_agent := 7%N; sf_captured_at := 0; sf_monitor := 0; sf_w := 1; sf_h := 1; sf_phash := 0; sf_blob_ref := ex_reference;
       sf_ocr_text := None; sf_ocr_words := None; sf_client_uid := None;
       sf_metadata := {| m_context := None; m_duration_ms := None; m_app := None; m_title := None; m_host := None |} |} |}].
Definition ex_root : list string := ["data"]%string.
Definition ex_full : list Z := [1920; 1080; 7].
Definition ex_tree : gmap (list string) Entry :=
  {[ ["data"]%string := EDir; ["data"; "111"]%string := EDir; ["data"; "111"; "20260708"]%string := EDir; ["data"; "111"; "20260708"; "11.jpg"]%string := EFile ex_full ]}.
Definition ex_blob_state : BlobState := {| bs_table := ex_index; bs_files := ex_tree; bs_views := ex_views |}.
Definition ex_blob_env (w : CacheWrite) : BlobEnv :=
  {| be_view := ex_view_env; be_task := true; be_delete := true; be_thumb := {| te_task := true; te_write := w |} |}.
Definition ex_blob (s : BlobState) (w : CacheWrite) (width : option Z) : BlobState * ApiResult (list Z) :=
  @history_blob bin_uuid ex_parse_date ex_format_date ex_decimal ex_decode ex_scale s (ex_blob_env w) ex_root ex_viewer 7%N 5 width.

Example thumb_lives_in_day_dir :
  thumb_path ex_decimal "agent-a/20260907/frame.jpg" 320 = Some ["agent-a"; "20260907"; "thumb-320"; "frame.jpg"]%string
  /\ thumb_path ex_decimal "frame.jpg" 160 = None.
Proof. split; reflexivity. Qed.
Example widths_snap : map snap_thumb_width [1; 173; 300; 10000; 240] = [160; 160; 320; 640; 160].
Proof. reflexivity. Qed.
(** The full picture, a thumbnail, the thumbnail again from the cache; and a file that is gone. *)
Example pictures_example :
  let '(s1, r1) := ex_blob ex_blob_state Written None in
  let '(s2, r2) := ex_blob ex_blob_state Written (Some 173) in
  let '(s3, r3) := ex_blob s2 NoDirectory (Some 100) in
  let '(s4, r4) := ex_blob {| bs_table := ex_index; bs_files := delete ["data"; "111"; "20260708"; "11.jpg"]%string ex_tree; bs_views := ex_views |} Written None in
  let '(s5, r5) := ex_blob {| bs_table := ex_index; bs_files := ∅; bs_views := ex_views |} Written None in
  r1 = Ok ex_full /\ r2 = Ok [160; 90] /\ r3 = Ok [160; 90] /\ bool_decide (bs_files s3 = bs_files s2) = true
  /\ r4 = Err (NotFoundError "Frame blob missing") /\ bs_table s4 = [] /\ r5 = Err Internal /\ bs_table s5 = ex_index.
Proof. vm_compute. split_and!; reflexivity. Qed.
(** A cache write cut short stays: every later request gets the truncated file as the thumbnail. *)
Example truncated_thumbnail_sticks :
  let '(s1, r1) := ex_blob ex_blob_state (Truncated [160]) (Some 160) in
  let '(s2, r2) := ex_blob s1 Written (Some 160) in
  r1 = Ok [160; 90] /\ r2 = Ok [160] /\ bool_decide (bs_files s2 = bs_files s1) = true.
Proof. vm_compute. split_and!; reflexivity. Qed.

Lemma pictures_stay_in_their_day_witness :
  let '(s', res) := ex_blob ex_blob_state Written (Some 173) in
  res = Ok [160; 90]
  /\ forall p, bs_files s' !! p <> bs_files ex_blob_state !! p ->
       p = ["data"; "111"; "20260708"; "thumb-160"]%string \/ p = ["data"; "111"; "20260708"; "thumb-160"; "11.jpg"]%string.
Proof.
  destruct (ex_blob ex_blob_state Written (Some 173)) as [s' res] eqn:E.
  assert (res = Ok [160; 90]) as -> by (change res with (s', res).2; rewrite <- E; vm_compute; reflexivity). split; [reflexivity|].
  assert (forall k, (0 < k <= length ex_root)%nat -> is_Some (bs_files ex_blob_state !! take k ex_root)) as Hroot.
  { intros [|[|k]] Hk; [simpl in Hk; lia| |simpl in Hk; lia]. exists EDir. vm_compute. reflexivity. }
  destruct (proj1 (@pictures_stay_in_their_day bin_uuid ex_parse_date ex_format_date ex_decimal ex_decode ex_scale ex_blob_state (ex_blob_env Written) ex_root
              ex_viewer 7%N 5 (Some 173) s' (Ok [160; 90]) Hroot E) _ eq_refl) as (r & day & uid & full & Hr & _ & _ & Hs & _ & _ & _ & b & Hb & Hnear & _ & Hp).
  apply list_elem_of_singleton in Hr as ->. change (sf_blob_ref _) with ex_reference in Hs.
  assert (split_on "/" ex_reference = ["111"; "20260708"; "11.jpg"]%string) as Hs' by (vm_compute; reflexivity). rewrite Hs' in Hs.
  assert ("20260708"%string = day) as Hd by congruence. assert ("11.jpg"%string = jpg (@uuid_text bin_uuid uid)) as Hj by congruence.
  assert (b = 160) as Hb160.
  { pose proof (Hnear 160 ltac:(left)) as Hn. rewrite !elem_of_cons in Hb. destruct Hb as [->|[->|[->|Hb]]]; [reflexivity|lia|lia|by apply not_elem_of_nil in Hb]. }
  intros p Hpp. specialize (Hp p Hpp). rewrite <- Hd, <- Hj, Hb160 in Hp. exact Hp.
Defined.

Definition ex_settings_state : SettingsState :=
  {| ps_rows := {| rr_global := Some RecallSettings_default; rr_agent := ∅ |}; ps_registry := Registry.ex_registry [(Recall, 2)]; ps_audit := [] |}.
Definition ex_settings_env : SettingsEnv := {| sv_ip := None; sv_written := true; sv_audited := true |}.
Definition ex_admin : SignedIn := {| si_user := 1%N; si_name := "ad"; si_role := "admin"; si_display := "ad"; si_icon := None; si_csrf := "" |}.
Definition ex_settings_body (quality : Z) : RecallSettingsBody :=
  {| rb_enabled := Some false; rb_interval_ms := None; rb_hot_interval_ms := None; rb_jpeg_quality := Some quality; rb_max_dim := Some 0;
     rb_dedup_hamming := None; rb_keyframe_max_gap_ms := None; rb_ocr := None |}.
Definition ex_effective : RecallSettings :=
  {| rs_enabled := false; rs_interval_ms := 20000; rs_hot_interval_ms := 6000; rs_jpeg_quality := 80; rs_max_dim := 0; rs_dedup_hamming := 4;
     rs_keyframe_max_gap_ms := 300000; rs_ocr := true |}.
Example settings_out_of_range :
  (@settings_run bin_uuid elements ex_settings_state ex_admin (SetDevice 7%N (ex_settings_body 101)) ex_settings_env) = (ex_settings_state, false)
  /\ (@settings_run bin_uuid elements ex_settings_state ex_viewer (SetDevice 7%N (ex_settings_body 80)) ex_settings_env) = (ex_settings_state, false).
Proof. split; reflexivity. Qed.
Lemma ex_rows_ok : rows_ok (ps_rows ex_settings_state).
Proof. split; [|intros a p Hp; cbn in Hp; by rewrite lookup_empty in Hp]. intros g [= <-]. split; unfold dim_ok; cbn; lia. Qed.
Lemma settings_change_is_in_force_witness :
  let '(s', ok) := @settings_run bin_uuid elements ex_settings_state ex_admin (SetDevice 7%N (ex_settings_body 80)) ex_settings_env in
  ok = true /\ effective_recall_settings (ps_rows s') 7%N = Some ex_effective
  /\ @told bin_uuid (ps_registry ex_settings_state) (ps_registry s') 7%N (SetRecallSettings_ {| srs_settings := settings_json ex_effective |})
  /\ existsb (fun m => match m with CText _ => true | _ => false end) (default [] (queue <$> sockets (ps_registry s') !! 70%N)) = true.
Proof.
  destruct (@settings_run bin_uuid elements ex_settings_state ex_admin (SetDevice 7%N (ex_settings_body 80)) ex_settings_env) as [s' ok] eqn:E.
  assert (ok = true) as -> by (change ok with (s', ok).2; rewrite <- E; vm_compute; reflexivity).
  assert (s' = (@settings_run bin_uuid elements ex_settings_state ex_admin (SetDevice 7%N (ex_settings_body 80)) ex_settings_env).1) as Es by (by rewrite E).
  assert (effective_recall_settings (ps_rows s') 7%N = Some ex_effective) as He by (rewrite Es; vm_compute; reflexivity).
  split; [reflexivity|]. split; [exact He|]. split; [|rewrite Es; vm_compute; reflexivity].
  assert (forall s a, a ∈ s -> a ∈ elements (C := gset Uuid) s) as Hl by (intros; by apply elem_of_elements).
  destruct (@settings_change_is_in_force bin_uuid elements Hl ex_settings_state ex_admin (SetDevice 7%N (ex_settings_body 80)) ex_settings_env s' true ex_rows_ok E)
    as (_ & _ & Hin). exact (proj2 (proj2 (proj2 (Hin eq_refl) 7%N ex_effective eq_refl He))).
Defined.
(** The zone of Samoa, which had no 30 December 2011 (day 15338): no range for it, nor for the 29th. *)
Example skipped_day_example :
  let zone naive := if (15338 * secs 86400 <=? naive) && (naive <? 15339 * secs 86400) then LocalNone else LocalSingle naive in
  let day s := parse_day_in_tz zone 20000 (fun s => if String.eqb s "2011-12-30" then Some 15338 else if String.eqb s "2011-12-29" then Some 15337 else Some 15336) 100000 (Some s) in
  day "2011-12-30"%string = Err "invalid day"%string /\ day "2011-12-29"%string = Err "invalid day"%string
  /\ day "2011-12-28"%string = Ok (15336, 15336 * secs 86400, 15337 * secs 86400).
Proof. vm_compute. split_and!; reflexivity. Qed.
