(* ===== verification/Keyboard.v ===== *)
(** What the input monitors of both platforms promise the agent's session ([agent/src/platform/types.rs],
    [InputEvent]) about the order of their idle events: an [Active] answers an [Afk], which comes after a minute
    of silence. And what both capture: a generation of the module they ask for. *)
From S2P Require Import Prelude Json Protocol Permissions Fence AgentSession.

Definition AFK_THRESHOLD_SECS : Z := 60.

(** Whether an [Active] may come: the last idle event was an [Afk]. *)
Fixpoint standing (afk : bool) (l : list InputEvent) : bool :=
  match l with
  | [] => afk
  | WentAfk _ _ :: l => standing true l
  | BecameActive _ :: l => standing false l
  | _ :: l => standing afk l
  end.
Fixpoint paired (afk : bool) (l : list InputEvent) : bool :=
  match l with
  | [] => true
  | WentAfk idle_secs _ :: l => (AFK_THRESHOLD_SECS <=? idle_secs) && paired true l
  | BecameActive _ :: l => afk && paired false l
  | _ :: l => paired afk l
  end.

Lemma standing_app afk l k : standing afk (l ++ k) = standing (standing afk l) k.
Proof. revert afk. induction l as [|[] l IH]; intros afk; cbn; by rewrite ?IH. Qed.
Lemma paired_app afk l k : paired afk (l ++ k) = paired afk l && paired (standing afk l) k.
Proof. revert afk. induction l as [|[] l IH]; intros afk; cbn; rewrite ?IH, ?andb_assoc; done. Qed.

(** [Generation::capture]: from the grant file. *)
Definition capture (file : StoreFile) (m : Module_) : option Generation := rok (load file) ≫= fun s => generation_from_state s m.
Definition for_module (m : Module_) (g : option Generation) : Prop := forall x, g = Some x -> gen_module x = m.
Lemma capture_module file m : for_module m (capture file m).
Proof. intros g E. unfold capture in E. apply bind_Some in E as (s & _ & E). by apply generation_from_state_Some in E as [E _]. Qed.
