(* ===== verification/KeyboardLinux.v ===== *)
(** The Linux keyboard and idle monitor ([agent/src/platform/linux/keyboard_monitor.rs]): the evdev
    readers, the flusher, the idle watcher and the supervisor that restarts them under each grant. All of
    them are threads over one [Shared]; every step below is one atomic access of it, of the grants or of
    the event queue, so that a run is any interleaving of the threads. What a step reads of the world (the
    cached grants, the grant file, the clock, the device, the queue's room) is in its [World].

    Three fields are not the program's but the statements': the keystrokes behind the buffer
    ([k_seen]: the grants their check saw), cut into chunks where the buffer is taken or cleared, and
    the attempts to queue an event. *)
From S2P Require Import Prelude Text Json Protocol Permissions Fence RecallContext AgentSession Keyboard.

Definition EV_KEY : Z := 1.
Definition EVENT_SIZE : nat := 24.
Definition FLUSH_CHARS : Z := 200.
Definition FLUSH_SILENCE_MS : Z := 3000.
Definition KEY_BACKSPACE : Z := 14.
Definition KEY_TAB : Z := 15.
Definition KEY_ENTER : Z := 28.
Definition KEY_LEFTSHIFT : Z := 42.
Definition KEY_RIGHTSHIFT : Z := 54.
Definition KEY_CAPSLOCK : Z := 58.
Definition KEY_SPACE : Z := 57.

(** ** Keys *)

Inductive KeyAction : Type := TextKey (c : ascii) | BackspaceKey | NewlineKey | IgnoredKey.
#[export] Instance KeyAction_eq_dec : EqDecision KeyAction.
Proof. solve_decision. Defined.

(** The US layout, row by row: the first code of a run of keys, and their characters plain and shifted. *)
Definition tab : ascii := "009"%char.
Definition newline : ascii := "010"%char.
Definition double_quote : ascii := "034"%char.
Definition letter (shift caps : bool) (lo up : ascii) : KeyAction := TextKey (if xorb shift caps then up else lo).
Definition sym (shift : bool) (lo hi : ascii) : KeyAction := TextKey (if shift then hi else lo).
Definition decode (code : Z) (shift caps : bool) : KeyAction :=
  let letter := letter shift caps in
  let sym := sym shift in
  match code with
  | 2 => sym "1" "!" | 3 => sym "2" "@" | 4 => sym "3" "#" | 5 => sym "4" "$" | 6 => sym "5" "%"
  | 7 => sym "6" "^" | 8 => sym "7" "&" | 9 => sym "8" "*" | 10 => sym "9" "(" | 11 => sym "0" ")"
  | 12 => sym "-" "_" | 13 => sym "=" "+"
  | 14 => BackspaceKey
  | 15 => TextKey tab
  | 16 => letter "q" "Q" | 17 => letter "w" "W" | 18 => letter "e" "E" | 19 => letter "r" "R" | 20 => letter "t" "T"
  | 21 => letter "y" "Y" | 22 => letter "u" "U" | 23 => letter "i" "I" | 24 => letter "o" "O" | 25 => letter "p" "P"
  | 26 => sym "[" "{" | 27 => sym "]" "}"
  | 28 => NewlineKey
  | 30 => letter "a" "A" | 31 => letter "s" "S" | 32 => letter "d" "D" | 33 => letter "f" "F" | 34 => letter "g" "G"
  | 35 => letter "h" "H" | 36 => letter "j" "J" | 37 => letter "k" "K" | 38 => letter "l" "L"
  | 39 => sym ";" ":" | 40 => sym "'" double_quote | 41 => sym "`" "~"
  | 43 => sym "\" "|"
  | 44 => letter "z" "Z" | 45 => letter "x" "X" | 46 => letter "c" "C" | 47 => letter "v" "V" | 48 => letter "b" "B"
  | 49 => letter "n" "N" | 50 => letter "m" "M"
  | 51 => sym "," "<" | 52 => sym "." ">" | 53 => sym "/" "?"
  | 57 => TextKey " "
  | _ => IgnoredKey
  end%char.

(** [String::pop]: every character [decode] gives is one byte. *)
Fixpoint pop (b : string) : string :=
  match b with
  | EmptyString => EmptyString
  | String _ EmptyString => EmptyString
  | String c r => String c (pop r)
  end.
Definition push (b : string) (c : ascii) : string := (b ++ String c "")%string.
Definition apply_action (b : string) (a : KeyAction) : string :=
  match a with
  | TextKey c => push b c
  | NewlineKey => push b newline
  | BackspaceKey => pop b
  | IgnoredKey => b
  end.

(** One [struct input_event] of 24 bytes, on a little-endian machine. *)
Definition byte_at (buf : list Z) (i : nat) : Z := nth i buf 0.
Definition u16_at (buf : list Z) (i : nat) : Z := byte_at buf i + 256 * byte_at buf (S i).
Definition i32_at (buf : list Z) (i : nat) : Z :=
  let v := u16_at buf i + 65536 * u16_at buf (S (S i)) in if v <? 2 ^ 31 then v else v - 2 ^ 32.
Definition etype (buf : list Z) : Z := u16_at buf 16.
Definition code (buf : list Z) : Z := u16_at buf 18.
Definition value (buf : list Z) : Z := i32_at buf 20.

(** ** What one grant's threads share *)

Record Shared := {
  buffer : string; shift : bool; caps : bool; last_activity_ms : Z; stop : bool;
  keyboard_generation : option Generation; idle_generation : option Generation
}.
Definition Shared_of (kb idle : option Generation) : Shared :=
  {| buffer := ""; shift := false; caps := false; last_activity_ms := 0; stop := false; keyboard_generation := kb; idle_generation := idle |}.
Definition set_buffer (s : Shared) (b : string) : Shared :=
  {| buffer := b; shift := shift s; caps := caps s; last_activity_ms := last_activity_ms s; stop := stop s;
     keyboard_generation := keyboard_generation s; idle_generation := idle_generation s |}.
Definition set_shift (s : Shared) (b : bool) : Shared :=
  {| buffer := buffer s; shift := b; caps := caps s; last_activity_ms := last_activity_ms s; stop := stop s;
     keyboard_generation := keyboard_generation s; idle_generation := idle_generation s |}.
Definition toggle_caps (s : Shared) : Shared :=
  {| buffer := buffer s; shift := shift s; caps := negb (caps s); last_activity_ms := last_activity_ms s; stop := stop s;
     keyboard_generation := keyboard_generation s; idle_generation := idle_generation s |}.
Definition touch (s : Shared) (now : Z) : Shared :=
  {| buffer := buffer s; shift := shift s; caps := caps s; last_activity_ms := now; stop := stop s;
     keyboard_generation := keyboard_generation s; idle_generation := idle_generation s |}.
Definition set_stop (s : Shared) : Shared :=
  {| buffer := buffer s; shift := shift s; caps := caps s; last_activity_ms := last_activity_ms s; stop := true;
     keyboard_generation := keyboard_generation s; idle_generation := idle_generation s |}.

(** [Generation::valid]: against the cached grants. *)
Definition valid (cached : Store) (g : option Generation) : bool := is_some_and g (fun g => matches g cached).
(** Milliseconds of a [u64] clock. *)
Definition since (now last : Z) : Z := Z.max 0 (now - last).

Inductive ReadOutcome : Type := ReadEvent (buf : list Z) | WouldBlock | ReadFails.
Record World := {
  cached : Store; file : StoreFile; now_ms : Z; device : ReadOutcome;
  current_window : option WindowEvent; has_room : bool; unix_timestamp_secs : Z
}.

Record Key := { k_action : KeyAction; k_seen : Store }.
Definition replay (ks : list Key) : string := foldl (fun b k => apply_action b (k_action k)) ""%string ks.

(** Where each thread stands between two of its accesses. *)
Inductive Reader : Type :=
| RdHead | RdRead | RdGate (buf : list Z) | RdEvent (buf : list Z)
| RdPress (code : Z) | RdAllowed (code : Z) | RdShift (code : Z) (seen : Store) | RdCaps (code : Z) (shifted : bool) (seen : Store)
| RdPush (k : Key) | RdGone.
(** A text taken from the buffer, and the chunk of keystrokes that made it. *)
Record Taken := { tk_text : string; tk_chunk : nat }.
Inductive Flush : Type :=
| FsCheck | FsClear | FsTake | FsContext (t : Taken) | FsWindow (t : Taken) (ctx : option Generation)
| FsValid (t : Taken) (ctx : option Generation) (win : option WindowEvent)
| FsSend (t : Taken) (ctx : option Generation) (win : option WindowEvent) (g : Generation) (seen : Store)
| FsDone.
Inductive Flusher : Type := FlAsleep | FlAllowed | FlClear | FlNow | FlLast (now : Z) | FlLen (now last : Z) | FlFlush (f : Flush) | FlGone.
Inductive Watcher : Type :=
| AwAsleep | AwGeneration | AwValid (g : Generation) | AwNow (g : Generation) | AwIdle (g : Generation) (now : Z)
| AwFlush (g : Generation) (idle_secs : Z) (f : Flush) | AwAfk (g : Generation) (idle_secs : Z) | AwActive (g : Generation) | AwGone.
Record Attempt := { at_event : InputEvent; at_taken : option Taken; at_seen : option Store; at_room : bool }.

(** One run of [start_generation]: its shared state, its threads, and what the statements follow. *)
Record Run := {
  shared : Shared; readers : list Reader; flusher : Flusher; watcher : Watcher; is_afk : bool;
  chunks : list (list Key); typed : list Key; attempts : list Attempt
}.
Definition set_shared (r : Run) (s : Shared) : Run :=
  {| shared := s; readers := readers r; flusher := flusher r; watcher := watcher r; is_afk := is_afk r;
     chunks := chunks r; typed := typed r; attempts := attempts r |}.
Definition set_reader (r : Run) (i : nat) (rd : Reader) : Run :=
  {| shared := shared r; readers := <[i := rd]> (readers r); flusher := flusher r; watcher := watcher r; is_afk := is_afk r;
     chunks := chunks r; typed := typed r; attempts := attempts r |}.
Definition set_flusher (r : Run) (f : Flusher) : Run :=
  {| shared := shared r; readers := readers r; flusher := f; watcher := watcher r; is_afk := is_afk r;
     chunks := chunks r; typed := typed r; attempts := attempts r |}.
Definition set_watcher (r : Run) (w : Watcher) (afk : bool) : Run :=
  {| shared := shared r; readers := readers r; flusher := flusher r; watcher := w; is_afk := afk;
     chunks := chunks r; typed := typed r; attempts := attempts r |}.

(** The accesses of the buffer and of the queue. *)
Definition push_key (r : Run) (k : Key) : Run :=
  {| shared := set_buffer (shared r) (apply_action (buffer (shared r)) (k_action k)); readers := readers r; flusher := flusher r; watcher := watcher r;
     is_afk := is_afk r; chunks := chunks r; typed := typed r ++ [k]; attempts := attempts r |}.
Definition clear_buffer (r : Run) : Run :=
  {| shared := set_buffer (shared r) ""; readers := readers r; flusher := flusher r; watcher := watcher r; is_afk := is_afk r;
     chunks := chunks r ++ [typed r]; typed := []; attempts := attempts r |}.
Definition take_buffer (r : Run) : Run * Taken :=
  (clear_buffer r, {| tk_text := buffer (shared r); tk_chunk := length (chunks r) |}).
Definition try_send (w : World) (r : Run) (e : InputEvent) (t : option Taken) (seen : option Store) : Run :=
  {| shared := shared r; readers := readers r; flusher := flusher r; watcher := watcher r; is_afk := is_afk r; chunks := chunks r; typed := typed r;
     attempts := attempts r ++ [{| at_event := e; at_taken := t; at_seen := seen; at_room := has_room w |}] |}.

(** ** The threads *)

(** [spawn_reader]'s loop. *)
Definition reader_step (w : World) (r : Run) (rd : Reader) : Run * Reader :=
  let s := shared r in
  match rd with
  | RdHead =>
      if stop s || negb (valid (cached w) (keyboard_generation s)) && negb (valid (cached w) (idle_generation s)) then (r, RdGone) else (r, RdRead)
  | RdRead => match device w with WouldBlock => (r, RdHead) | ReadFails => (r, RdGone) | ReadEvent buf => (r, RdGate buf) end
  | RdGate buf =>
      if negb (valid (cached w) (keyboard_generation s)) && negb (store_enabled (cached w) IdleActivity) then (r, RdHead) else (r, RdEvent buf)
  | RdEvent buf =>
      if negb (etype buf =? EV_KEY) then (r, RdHead)
      else if (code buf =? KEY_LEFTSHIFT) || (code buf =? KEY_RIGHTSHIFT) then (set_shared r (set_shift s (negb (value buf =? 0))), RdHead)
      else if code buf =? KEY_CAPSLOCK then (if value buf =? 1 then set_shared r (toggle_caps s) else r, RdHead)
      else if (value buf =? 1) || (value buf =? 2) then (r, RdPress (code buf))
      else (r, RdHead)
  | RdPress c => (set_shared r (touch s (now_ms w)), RdAllowed c)
  | RdAllowed c => if valid (cached w) (keyboard_generation s) then (r, RdShift c (cached w)) else (r, RdHead)
  | RdShift c seen => (r, RdCaps c (shift s) seen)
  | RdCaps c shifted seen => (r, RdPush {| k_action := decode c shifted (caps s); k_seen := seen |})
  | RdPush k => (push_key r k, RdHead)
  | RdGone => (r, RdGone)
  end.

(** [flush_buffer]. *)
Definition flush_step (w : World) (r : Run) (f : Flush) : Run * Flush :=
  match f with
  | FsCheck => (r, if store_enabled (cached w) KeyboardText then FsTake else FsClear)
  | FsClear => (clear_buffer r, FsDone)
  | FsTake => match buffer (shared r) with EmptyString => (r, FsDone) | _ => let (r, t) := take_buffer r in (r, FsContext t) end
  | FsContext t => (r, FsWindow t (capture (file w) WindowActivity))
  | FsWindow t ctx => (r, FsValid t ctx (if store_enabled (cached w) WindowActivity then current_window w else None))
  | FsValid t ctx win =>
      match ofilter (fun g => matches g (cached w)) (keyboard_generation (shared r)) with
      | None => (r, FsDone)
      | Some g => (r, FsSend t ctx win g (cached w))
      end
  | FsSend t ctx win g seen =>
      let field (f : WindowEvent -> string) := default ""%string (f <$> win) in
      (try_send w r (KeysTyped (tk_text t) (field we_app) (field we_app_display) (field we_title) (unix_timestamp_secs w) g ctx) (Some t) (Some seen), FsDone)
  | FsDone => (r, FsDone)
  end.

(** The flusher's loop: once a second. *)
Definition flusher_step (w : World) (r : Run) : Run :=
  match flusher r with
  | FlAsleep => set_flusher r (if stop (shared r) then FlGone else FlAllowed)
  | FlAllowed => set_flusher r (if store_enabled (cached w) KeyboardText then FlNow else FlClear)
  | FlClear => set_flusher (clear_buffer r) FlAsleep
  | FlNow => set_flusher r (FlLast (now_ms w))
  | FlLast now => set_flusher r (FlLen now (last_activity_ms (shared r)))
  | FlLen now last =>
      let len := Z.of_nat (String.length (buffer (shared r))) in
      set_flusher r (if (0 <? len) && ((FLUSH_CHARS <=? len) || (FLUSH_SILENCE_MS <=? since now last)) then FlFlush FsCheck else FlAsleep)
  | FlFlush FsDone => set_flusher r FlAsleep
  | FlFlush f => let (r, f) := flush_step w r f in set_flusher r (FlFlush f)
  | FlGone => r
  end.

(** The idle watcher's loop: once a second. *)
Definition watcher_step (w : World) (r : Run) : Run :=
  let afk := is_afk r in
  match watcher r with
  | AwAsleep => set_watcher r (if stop (shared r) then AwGone else AwGeneration) afk
  | AwGeneration =>
      match ofilter (fun g => matches g (cached w)) (idle_generation (shared r)) with
      | None => set_watcher r AwAsleep false
      | Some g => set_watcher r (AwValid g) afk
      end
  | AwValid g => if negb (matches g (cached w)) then set_watcher r AwAsleep false else set_watcher r (AwNow g) afk
  | AwNow g => set_watcher r (AwIdle g (now_ms w)) afk
  | AwIdle g now =>
      let idle_secs := since now (last_activity_ms (shared r)) / 1000 in
      if negb afk && (AFK_THRESHOLD_SECS <=? idle_secs) then set_watcher r (AwFlush g idle_secs FsCheck) true
      else if afk && (idle_secs <? AFK_THRESHOLD_SECS) then set_watcher r (AwActive g) false
      else set_watcher r AwAsleep afk
  | AwFlush g idle_secs FsDone => set_watcher r (AwAfk g idle_secs) afk
  | AwFlush g idle_secs f => let (r, f) := flush_step w r f in set_watcher r (AwFlush g idle_secs f) afk
  | AwAfk g idle_secs => set_watcher (try_send w r (WentAfk idle_secs g) None None) AwAsleep afk
  | AwActive g => set_watcher (try_send w r (BecameActive g) None None) AwAsleep afk
  | AwGone => r
  end.

Inductive Thread : Type := TReader (i : nat) | TFlusher | TWatcher.
Definition run_step (w : World) (t : Thread) (r : Run) : Run :=
  match t with
  | TReader i =>
      match readers r !! i with
      | Some rd => let (r, rd) := reader_step w r rd in set_reader r i rd
      | None => r
      end
  | TFlusher => flusher_step w r
  | TWatcher => watcher_step w r
  end.

(** ** Devices and the supervisor *)

(** [/dev/input]: what [read_dir] lists, each entry with its name and whether it opens. *)
Record DirEntry := { de_name : string; de_opens : bool }.
Definition is_event (e : DirEntry) : bool := String.prefix "event" (de_name e).
Definition can_read_input_devices (entries : option (list DirEntry)) : bool :=
  is_some_and entries (existsb (fun e => is_event e && de_opens e)).
Definition opened (entries : option (list DirEntry)) : nat :=
  length (List.filter (fun e => is_event e && de_opens e) (default [] entries)).
(** [start_generation]: without a device no thread is started. *)
Definition start_generation (entries : option (list DirEntry)) (now : Z) (s : Shared) : Run :=
  let s := touch s now in
  let running := negb (Nat.eqb (opened entries) 0) in
  {| shared := s; readers := replicate (opened entries) RdHead; flusher := if running then FlAsleep else FlGone;
     watcher := if running then AwAsleep else AwGone; is_afk := false; chunks := []; typed := []; attempts := [] |}.

(** The supervisor: between two of its accesses, and the runs it started (the last one is the live one). *)
Inductive Supervisor : Type :=
| SvWaitText | SvWaitIdle | SvCapture | SvCaptureIdle (kb : option Generation) | SvStart (s : Shared)
| SvSameText | SvSameIdle | SvStop | SvClear.
Record System := { runs : list Run; supervisor : Supervisor }.
Definition System_start : System := {| runs := []; supervisor := SvWaitText |}.
Definition live (y : System) : option Run := last (runs y).
Definition on_live (f : Run -> Run) (l : list Run) : list Run := alter f (length l - 1)%nat l.
Definition supervisor_step (w : World) (entries : option (list DirEntry)) (y : System) : System :=
  let goto s := {| runs := runs y; supervisor := s |} in
  match supervisor y with
  | SvWaitText => goto (if store_enabled (cached w) KeyboardText then SvCapture else SvWaitIdle)
  | SvWaitIdle => goto (if store_enabled (cached w) IdleActivity then SvCapture else SvWaitText)
  | SvCapture => goto (SvCaptureIdle (capture (file w) KeyboardText))
  | SvCaptureIdle kb => goto (SvStart (Shared_of kb (capture (file w) IdleActivity)))
  | SvStart s => {| runs := runs y ++ [start_generation entries (now_ms w) s]; supervisor := SvSameText |}
  | SvSameText => goto (if bool_decide (capture (file w) KeyboardText = (live y ≫= fun r => keyboard_generation (shared r))) then SvSameIdle else SvStop)
  | SvSameIdle => goto (if bool_decide (capture (file w) IdleActivity = (live y ≫= fun r => idle_generation (shared r))) then SvSameText else SvStop)
  | SvStop => {| runs := on_live (fun r => set_shared r (set_stop (shared r))) (runs y); supervisor := SvClear |}
  | SvClear => {| runs := on_live clear_buffer (runs y); supervisor := SvWaitText |}
  end.

Inductive Move : Type := MSupervisor (entries : option (list DirEntry)) | MThread (j : nat) (t : Thread).
Definition move (y : System) (wm : World * Move) : System :=
  match wm.2 with
  | MSupervisor entries => supervisor_step wm.1 entries y
  | MThread j t => {| runs := alter (run_step wm.1 t) j (runs y); supervisor := supervisor y |}
  end.
Definition moves (l : list (World * Move)) (y : System) : System := foldl move y l.

(** ** What every run keeps *)

Lemma pop_push b c : pop (push b c) = b.
Proof.
  unfold push. induction b as [|d b IH]; simpl; [done|]. rewrite IH. by destruct b.
Qed.
Lemma replay_snoc ks k : replay (ks ++ [k]) = apply_action (replay ks) (k_action k).
Proof. unfold replay. by rewrite foldl_app. Qed.

Definition flush_hand (f : Flush) : list Taken :=
  match f with FsContext t | FsWindow t _ | FsValid t _ _ | FsSend t _ _ _ _ => [t] | _ => [] end.
Definition flusher_hand (f : Flusher) : list Taken := match f with FlFlush f => flush_hand f | _ => [] end.
Definition watcher_hand (a : Watcher) : list Taken := match a with AwFlush _ _ f => flush_hand f | _ => [] end.

Definition key_ok (kb : option Generation) (k : Key) : Prop := valid (k_seen k) kb = true.
Definition taken_ok (cs : list (list Key)) (t : Taken) : Prop :=
  tk_text t <> ""%string /\ exists keys, cs !! tk_chunk t = Some keys /\ tk_text t = replay keys.
Definition attempt_ok (kb : option Generation) (a : Attempt) : Prop :=
  match at_event a with
  | KeysTyped text _ _ _ _ g _ => kb = Some g /\ exists t seen, at_taken a = Some t /\ tk_text t = text /\ at_seen a = Some seen /\ matches g seen = true
  | _ => at_taken a = None
  end.
Definition flush_ok (kb : option Generation) (f : Flush) : Prop :=
  match f with FsSend _ _ _ g seen => kb = Some g /\ matches g seen = true | _ => True end.
Definition flusher_ok (kb : option Generation) (f : Flusher) : Prop := match f with FlFlush f => flush_ok kb f | _ => True end.
Definition watcher_ok (kb : option Generation) (a : Watcher) : Prop := match a with AwFlush _ _ f => flush_ok kb f | _ => True end.
Definition reader_ok (kb : option Generation) (rd : Reader) : Prop :=
  match rd with
  | RdShift _ seen | RdCaps _ _ seen => valid seen kb = true
  | RdPush k => key_ok kb k
  | _ => True
  end.
Definition sent_chunks (r : Run) : list Taken := omap at_taken (attempts r).

(** [hs]: the texts threads hold. None of it depends on where the threads stand. *)
Record core (kb : option Generation) (r : Run) (hs : list Taken) : Prop := {
  co_kb : keyboard_generation (shared r) = kb;
  co_buffer : buffer (shared r) = replay (typed r);
  co_typed : Forall (key_ok kb) (typed r);
  co_chunks : Forall (Forall (key_ok kb)) (chunks r);
  co_taken : Forall (taken_ok (chunks r)) (hs ++ sent_chunks r);
  co_once : NoDup (tk_chunk <$> hs ++ sent_chunks r);
  co_attempts : Forall (attempt_ok kb) (attempts r)
}.
Record run_ok (kb : option Generation) (r : Run) : Prop := {
  ro_core : core kb r (flusher_hand (flusher r) ++ watcher_hand (watcher r));
  ro_readers : Forall (reader_ok kb) (readers r);
  ro_flusher : flusher_ok kb (flusher r);
  ro_watcher : watcher_ok kb (watcher r)
}.

(** A step that leaves the buffer, the keystrokes and the attempts alone. *)
Lemma core_same kb r r' hs :
  core kb r hs -> keyboard_generation (shared r') = keyboard_generation (shared r) -> buffer (shared r') = buffer (shared r) ->
  typed r' = typed r -> chunks r' = chunks r -> attempts r' = attempts r -> core kb r' hs.
Proof.
  intros [A B C D F G H] Ek Eb Et Ec Ea. split; unfold sent_chunks; rewrite ?Ek, ?Eb, ?Et, ?Ec, ?Ea; done.
Qed.
Lemma core_perm kb r hs hs' : hs ≡ₚ hs' -> core kb r hs -> core kb r hs'.
Proof. intros P [A B C D F G H]. split; [done..| | |done]; by rewrite <- P. Qed.
Lemma core_drop kb r t hs : core kb r (t :: hs) -> core kb r hs.
Proof.
  intros [A B C D F G H]. cbn [app] in F, G. rewrite fmap_cons in G. split; [done..| | |done].
  - by inversion F.
  - by inversion G.
Qed.
Lemma core_push kb r hs k : key_ok kb k -> core kb r hs -> core kb (push_key r k) hs.
Proof.
  intros K [A B C D F G H]. split; [done| |by apply Forall_app; split; [|constructor]|done..].
  cbn. by rewrite replay_snoc, B.
Qed.
Lemma taken_ok_app cs cs' t : taken_ok cs t -> taken_ok (cs ++ cs') t.
Proof. intros (N & keys & L & E). split; [done|]. exists keys. split; [by apply lookup_app_l_Some|done]. Qed.
Lemma core_clear kb r hs : core kb r hs -> core kb (clear_buffer r) hs.
Proof.
  intros [A B C D F G H]. split; [done|done|constructor| | |done|done].
  - apply Forall_app. by split; [|constructor].
  - apply (Forall_impl _ _ _ F). intros t. apply taken_ok_app.
Qed.
Lemma taken_below cs ts : Forall (taken_ok cs) ts -> length cs ∉ tk_chunk <$> ts.
Proof.
  intros F I. apply list_elem_of_fmap in I as (t & E & I). rewrite Forall_forall in F. destruct (F t I) as (_ & keys & L & _).
  apply lookup_lt_Some in L. lia.
Qed.
Lemma core_take kb r hs : buffer (shared r) <> ""%string -> core kb r hs -> core kb (take_buffer r).1 ((take_buffer r).2 :: hs).
Proof.
  intros N C. pose proof (core_clear _ _ _ C) as [A' B' C' D' F' G' H']. destruct C as [A B C D F G H].
  split; [done..| | |done]; cbn [app].
  - constructor; [|exact F']. split; [done|]. exists (typed r). cbn. split; [|done].
    by rewrite lookup_app_r, Nat.sub_diag.
  - rewrite fmap_cons. constructor; [by apply taken_below|done].
Qed.
Lemma core_send kb r hs w e t seen :
  attempt_ok kb {| at_event := e; at_taken := t; at_seen := seen; at_room := has_room w |} ->
  core kb r (option_list t ++ hs) -> core kb (try_send w r e t seen) hs.
Proof.
  intros K [A B C D F G H].
  assert (P : option_list t ++ hs ++ sent_chunks r ≡ₚ hs ++ sent_chunks (try_send w r e t seen)).
  { unfold sent_chunks. cbn. rewrite omap_app. destruct t as [t|]; cbn; [|by rewrite app_nil_r].
    rewrite (app_assoc hs). apply Permutation_cons_append. }
  rewrite <- app_assoc in F, G.
  split; [done..| | |by apply Forall_app; split; [|constructor]]; by rewrite <- P.
Qed.

(** The threads but the one that steps hold [hs]; a flush leaves them where they stand. *)
Lemma flush_step_core w r f hs kb :
  core kb r (flush_hand f ++ hs) -> flush_ok kb f ->
  core kb (flush_step w r f).1 (flush_hand (flush_step w r f).2 ++ hs) /\ flush_ok kb (flush_step w r f).2
  /\ readers (flush_step w r f).1 = readers r /\ flusher (flush_step w r f).1 = flusher r /\ watcher (flush_step w r f).1 = watcher r.
Proof.
  intros C K. destruct f as [| | |t|t ctx|t ctx win|t ctx win g seen|]; cbn in C |- *.
  - by destruct (store_enabled _ _).
  - split; [by apply core_clear|done].
  - destruct (buffer (shared r)) as [|c b] eqn:Eb; [done|]. split; [|done]. rewrite <- Eb. apply (core_take kb r hs); [by rewrite Eb|done].
  - done.
  - done.
  - destruct (ofilter _ _) as [g|] eqn:Eg; cbn.
    + apply ofilter_Some in Eg as [Eg M]. rewrite (co_kb _ _ _ C) in Eg. done.
    + split; [by apply core_drop in C|done].
  - destruct K as [K M]. split; [|done]. apply core_send; [|exact C]. split; [done|]. by exists t, seen.
  - done.
Qed.

Lemma reader_step_core w r rd kb hs :
  core kb r hs -> reader_ok kb rd ->
  core kb (reader_step w r rd).1 hs /\ reader_ok kb (reader_step w r rd).2
  /\ readers (reader_step w r rd).1 = readers r /\ flusher (reader_step w r rd).1 = flusher r /\ watcher (reader_step w r rd).1 = watcher r.
Proof.
  intros C K. destruct rd as [| |buf|buf|c|c|c seen|c b seen|k|]; cbn in K |- *.
  - by destruct (_ || _).
  - by destruct (device w).
  - by destruct (_ && _).
  - destruct (negb (etype buf =? EV_KEY)); [done|]. destruct (_ || _); [split; [by eapply core_same|done]|].
    destruct (code buf =? KEY_CAPSLOCK); [|by destruct (_ || _)].
    destruct (value buf =? 1); [|done]. split; [by eapply core_same|done].
  - split; [by eapply core_same|done].
  - rewrite (co_kb _ _ _ C). by destruct (valid (cached w) kb) eqn:V.
  - done.
  - done.
  - split; [by apply core_push|done].
  - done.
Qed.

Lemma set_flusher_ok kb r f : run_ok kb r -> flusher_hand f = flusher_hand (flusher r) -> flusher_ok kb f -> run_ok kb (set_flusher r f).
Proof. intros [C R F W] E K. split; cbn; [rewrite E; by apply (core_same kb r)|done..]. Qed.
Lemma set_watcher_ok kb r a afk : run_ok kb r -> watcher_hand a = watcher_hand (watcher r) -> watcher_ok kb a -> run_ok kb (set_watcher r a afk).
Proof. intros [C R F W] E K. split; cbn; [rewrite E; by apply (core_same kb r)|done..]. Qed.

Lemma flusher_step_ok w r kb : run_ok kb r -> run_ok kb (flusher_step w r).
Proof.
  intros O. pose proof O as [C R F W]. unfold flusher_step. destruct (flusher r) as [| | | |now|now last|f|] eqn:E; try done.
  - apply set_flusher_ok; [done|..]; by destruct (stop _); rewrite ?E.
  - apply set_flusher_ok; [done|..]; by destruct (store_enabled _ _); rewrite ?E.
  - split; cbn; [|done..]. apply (core_same kb (clear_buffer r)); [by apply core_clear|done..].
  - apply set_flusher_ok; by rewrite ?E.
  - apply set_flusher_ok; by rewrite ?E.
  - apply set_flusher_ok; [done|..]; by destruct (_ && _); rewrite ?E.
  - assert (G : forall f', f = f' -> run_ok kb (let (r, f) := flush_step w r f' in set_flusher r (FlFlush f))).
    { intros f' <-. destruct (flush_step_core w r f (watcher_hand (watcher r)) kb C F) as (C' & F' & Er & _ & Ew).
      destruct (flush_step w r f) as [r' f']. cbn in *. split; cbn; [rewrite Ew; by apply (core_same kb r')|by rewrite Er|done|by rewrite Ew]. }
    destruct f; try (by apply (G _ eq_refl)). apply set_flusher_ok; by rewrite ?E.
Qed.
Lemma watcher_step_ok w r kb : run_ok kb r -> run_ok kb (watcher_step w r).
Proof.
  intros O. pose proof O as [C R F W]. unfold watcher_step. destruct (watcher r) as [| |g|g|g now|g idle f|g idle|g|] eqn:E; try done.
  - apply set_watcher_ok; [done|..]; by destruct (stop _); rewrite ?E.
  - destruct (ofilter _ _); apply set_watcher_ok; by rewrite ?E.
  - destruct (negb _); apply set_watcher_ok; by rewrite ?E.
  - apply set_watcher_ok; by rewrite ?E.
  - destruct (negb _ && _); [apply set_watcher_ok; by rewrite ?E|]. destruct (_ && _); apply set_watcher_ok; by rewrite ?E.
  - assert (G : forall f', f = f' -> run_ok kb (let (r', f) := flush_step w r f' in set_watcher r' (AwFlush g idle f) (is_afk r))).
    { intros f' <-. destruct (flush_step_core w r f (flusher_hand (flusher r)) kb) as (C' & W' & Er & Ef & _).
      { eapply core_perm; [|exact C]. apply Permutation_app_comm. }
      { exact W. }
      destruct (flush_step w r f) as [r' f']. cbn in *. split; cbn; [|by rewrite Er|by rewrite Ef|done].
      rewrite Ef. apply (core_same kb r'); [|done..]. eapply core_perm; [|exact C']. apply Permutation_app_comm. }
    destruct f; try (by apply (G _ eq_refl)). apply set_watcher_ok; by rewrite ?E.
  - split; cbn; [|done..]. apply (core_same kb (try_send w r (WentAfk idle g) None None)); [|done..]. by apply core_send.
  - split; cbn; [|done..]. apply (core_same kb (try_send w r (BecameActive g) None None)); [|done..]. by apply core_send.
Qed.
Lemma run_step_ok w t r kb : run_ok kb r -> run_ok kb (run_step w t r).
Proof.
  intros K. destruct t as [i| |]; cbn; [|by apply flusher_step_ok|by apply watcher_step_ok].
  destruct (readers r !! i) as [rd|] eqn:E; [|done]. destruct K as [C R F W].
  destruct (reader_step_core w r rd kb _ C) as (C' & R' & Er & Ef & Ew).
  { exact (Forall_lookup_1 _ _ _ _ R E). }
  destruct (reader_step w r rd) as [r' rd']. cbn in *. split; cbn; rewrite ?Er, ?Ef, ?Ew; [by apply (core_same kb r')| |done..].
  by apply Forall_insert.
Qed.

(** ** The system *)

Definition shared_fresh (s : Shared) : Prop := buffer s = ""%string /\ for_module KeyboardText (keyboard_generation s).
Definition supervisor_ok (v : Supervisor) : Prop :=
  match v with SvCaptureIdle kb => for_module KeyboardText kb | SvStart s => shared_fresh s | _ => True end.
Definition a_run_ok (r : Run) : Prop := exists kb, for_module KeyboardText kb /\ run_ok kb r.
Definition system_ok (y : System) : Prop := Forall a_run_ok (runs y) /\ supervisor_ok (supervisor y).

Lemma Forall_alter_ok (P : Run -> Prop) f j l : Forall P l -> (forall r, P r -> P (f r)) -> Forall P (alter f j l).
Proof. intros F K. apply Forall_alter; [done|]. intros r L _. apply K. exact (Forall_lookup_1 _ _ _ _ F L). Qed.
Lemma start_generation_ok entries now s : shared_fresh s -> a_run_ok (start_generation entries now s).
Proof.
  intros [B M]. exists (keyboard_generation s). split; [done|]. unfold start_generation.
  destruct (negb _); (split; cbn; [split; cbn; [done|by rewrite B|constructor..]| |done..]).
  all: apply Forall_replicate; done.
Qed.
Lemma supervisor_step_ok w entries y : system_ok y -> system_ok (supervisor_step w entries y).
Proof.
  intros [R V]. unfold supervisor_step. destruct (supervisor y) as [| | |kb|s| | | |]; cbn in V.
  - by destruct (store_enabled _ _).
  - by destruct (store_enabled _ _).
  - split; [done|]. apply capture_module.
  - by split.
  - split; [|done]. apply Forall_app. split; [done|]. apply Forall_singleton. by apply start_generation_ok.
  - by destruct (bool_decide _).
  - by destruct (bool_decide _).
  - split; [|done]. apply Forall_alter_ok; [done|]. intros r (kb & M & [C D F W]). exists kb. split; [done|].
    split; [by apply (core_same kb r)|done..].
  - split; [|done]. apply Forall_alter_ok; [done|]. intros r (kb & M & [C D F W]). exists kb. split; [done|].
    split; [by apply core_clear|done..].
Qed.
Lemma moves_ok l y : system_ok y -> system_ok (moves l y).
Proof.
  revert y. induction l as [|[w m] l IH]; intros y K; [done|]. apply IH. unfold move; cbn. destruct m as [entries|j t].
  - by apply supervisor_step_ok.
  - destruct K as [R V]. split; [|done]. apply Forall_alter_ok; [done|]. intros r (kb & M & K). exists kb. split; [done|]. by apply run_step_ok.
Qed.

(** *** The idle watcher *)

Definition tried (r : Run) : list InputEvent := at_event <$> attempts r.
Definition awaits (a : Watcher) : bool := match a with AwFlush _ _ _ | AwAfk _ _ => true | _ => false end.
Definition watcher_due (r : Run) : Prop :=
  match watcher r with
  | AwFlush _ idle_secs _ | AwAfk _ idle_secs => AFK_THRESHOLD_SECS <= idle_secs
  | AwActive _ => standing false (tried r) = true
  | _ => True
  end.
Record idle_ok (r : Run) : Prop := {
  id_paired : paired false (tried r) = true;
  id_due : watcher_due r;
  id_afk : is_afk r = true -> awaits (watcher r) = false -> standing false (tried r) = true;
  id_active : forall g, watcher r = AwActive g -> is_afk r = false
}.

Lemma flush_step_idle w r f :
  watcher (flush_step w r f).1 = watcher r /\ is_afk (flush_step w r f).1 = is_afk r
  /\ paired false (tried (flush_step w r f).1) = paired false (tried r) /\ standing false (tried (flush_step w r f).1) = standing false (tried r).
Proof.
  destruct f; cbn; try done.
  - by destruct (buffer _).
  - by destruct (ofilter _ _).
  - unfold tried; cbn. rewrite fmap_app, paired_app, standing_app. cbn. by rewrite andb_true_r.
Qed.
(** A step of another thread. *)
Lemma idle_ok_same r r' :
  idle_ok r -> watcher r' = watcher r -> is_afk r' = is_afk r -> paired false (tried r') = paired false (tried r) ->
  standing false (tried r') = standing false (tried r) -> idle_ok r'.
Proof.
  intros [A B C D] Ew Ea Ep Es. split; rewrite ?Ep, ?Ew, ?Ea, ?Es; [done| |done..]. unfold watcher_due in *. by rewrite Ew, Es.
Qed.
Lemma set_watcher_idle r a afk :
  idle_ok r -> match a with AwFlush _ i _ | AwAfk _ i => AFK_THRESHOLD_SECS <= i | AwActive _ => standing false (tried r) = true /\ afk = false | _ => True end ->
  (afk = true -> awaits a = false -> standing false (tried r) = true) -> idle_ok (set_watcher r a afk).
Proof. intros [A B C D] K S. split; [done| |done|]; cbn; unfold watcher_due; cbn. - destruct a; try done. by destruct K. - intros g ->. by destruct K. Qed.
Lemma try_send_idle w r e :
  paired (standing false (tried r)) [e] = true -> paired false (tried r) = true -> paired false (tried (try_send w r e None None)) = true.
Proof. intros E P. unfold tried in *; cbn. by rewrite fmap_app, paired_app, P. Qed.
Lemma watcher_step_idle w r : idle_ok r -> idle_ok (watcher_step w r).
Proof.
  intros O. pose proof O as [A B C D]. unfold watcher_step. cbv zeta. unfold watcher_due in B.
  destruct (watcher r) as [| |g|g|g now|g idle f|g idle|g|] eqn:E; try done.
  - apply set_watcher_idle; [done|by destruct (stop _)|]. intros Ha _. by apply C.
  - by destruct (ofilter _ _); apply set_watcher_idle.
  - by destruct (negb _); apply set_watcher_idle.
  - destruct (is_afk r) eqn:Ea; cbn [negb andb].
    + destruct (_ <? _); apply set_watcher_idle; try done. by split; [apply C|].
    + destruct (AFK_THRESHOLD_SECS <=? _) eqn:L; [|by apply set_watcher_idle]. apply set_watcher_idle; [done|by apply Z.leb_le|done].
  - assert (G : forall f', f = f' -> idle_ok (let (r', f) := flush_step w r f' in set_watcher r' (AwFlush g idle f) (is_afk r))).
    { intros f' <-. destruct (flush_step_idle w r f) as (Ew & Ea & Ep & Es). destruct (flush_step w r f) as [r' f']. cbn in *.
      apply set_watcher_idle; [by apply (idle_ok_same r)|done..]. }
    destruct f; try (by apply (G _ eq_refl)). by apply set_watcher_idle.
  - split; cbn; [|done| |done].
    + apply (try_send_idle w r (WentAfk idle g)); [|done]. cbn. by rewrite andb_true_r; apply Z.leb_le.
    + intros _ _. unfold tried; cbn. by rewrite fmap_app, standing_app.
  - split; cbn; [|done| |done].
    + apply (try_send_idle w r (BecameActive g)); [|done]. cbn. by rewrite B.
    + intros Ha _. rewrite (D g) in Ha; done.
Qed.
Lemma run_step_idle w t r : idle_ok r -> idle_ok (run_step w t r).
Proof.
  intros K. destruct t as [i| |]; cbn; [| |by apply watcher_step_idle].
  - destruct (readers r !! i) as [rd|]; [|done].
    assert (E : watcher (reader_step w r rd).1 = watcher r /\ is_afk (reader_step w r rd).1 = is_afk r /\ attempts (reader_step w r rd).1 = attempts r).
    { destruct rd; cbn; repeat case_match; done. }
    destruct (reader_step w r rd) as [r' rd']. cbn in E. destruct E as (E1 & E2 & E3).
    apply (idle_ok_same r); unfold tried; cbn; rewrite ?E3; done.
  - unfold flusher_step. destruct (flusher r) as [| | | |now|now last|f|]; try (by apply (idle_ok_same r)).
    assert (G : idle_ok (let (r, f) := flush_step w r f in set_flusher r (FlFlush f))).
    { destruct (flush_step_idle w r f) as (Ew & Ea & Ep & Es). destruct (flush_step w r f) as [r' f']. by apply (idle_ok_same r). }
    destruct f; try exact G. by apply (idle_ok_same r).
Qed.
Lemma moves_idle l y : Forall idle_ok (runs y) -> Forall idle_ok (runs (moves l y)).
Proof.
  revert y. induction l as [|[w m] l IH]; intros y K; [done|]. apply IH. unfold move; cbn. destruct m as [entries|j t]; cbn.
  - unfold supervisor_step. destruct (supervisor y); cbn; try done.
    + apply Forall_app. split; [done|]. apply Forall_singleton. unfold start_generation. split; by destruct (negb _).
    + apply Forall_alter_ok; [done|]. intros r O. by apply (idle_ok_same r).
    + apply Forall_alter_ok; [done|]. intros r O. by apply (idle_ok_same r).
  - apply Forall_alter_ok; [done|]. intros r O. by apply run_step_idle.
Qed.

(** C21: every text the monitor ever tries to queue, under any interleaving of its threads, device events and
    grant changes, is the replay of one chunk of keystrokes, each of which passed the reader's check while the
    grants were at the very generation the event names, a generation of the keyboard module, and the last check
    before the event was queued found that generation in force; and no two texts of a run share a keystroke. *)
Theorem text_was_typed_under_its_grant l j r :
  runs (moves l System_start) !! j = Some r ->
  NoDup (tk_chunk <$> sent_chunks r)
  /\ forall a text app app_display window ts g ctx, a ∈ attempts r -> at_event a = KeysTyped text app app_display window ts g ctx ->
     gen_module g = KeyboardText /\ text <> ""%string
     /\ (exists seen, at_seen a = Some seen /\ matches g seen = true)
     /\ exists t keys, at_taken a = Some t /\ chunks r !! tk_chunk t = Some keys /\ text = replay keys
        /\ Forall (fun k => matches g (k_seen k) = true) keys.
Proof.
  intros L. destruct (moves_ok l System_start) as [R _]; [by split; [constructor|]|].
  destruct (Forall_lookup_1 _ _ _ _ R L) as (kb & M & [[A B C D F G H] _ _ _]). split.
  { rewrite fmap_app in G. by apply NoDup_app in G as (_ & _ & G). }
  intros a text app disp win ts g ctx I E. rewrite Forall_forall in H. pose proof (H a I) as K. unfold attempt_ok in K. rewrite E in K.
  destruct K as (-> & t & seen & Et & <- & Es & Ms). apply Forall_app in F as [_ F]. rewrite Forall_forall in F.
  destruct (F t) as (N & keys & Lk & Er). { apply list_elem_of_omap. by exists a. }
  split; [by apply M|]. split; [done|]. split; [by exists seen|]. exists t, keys. split; [done|]. split; [done|]. split; [done|].
  exact (Forall_lookup_1 _ _ _ _ D Lk).
Qed.

(** Every [Active] the watcher tries to queue answers an [Afk] it tried to queue before, with no [Active] in
    between, and every [Afk] comes after a minute without a key. *)
Theorem activity_answers_idleness l j r : runs (moves l System_start) !! j = Some r -> paired false (tried r) = true.
Proof. intros L. apply (id_paired r). exact (Forall_lookup_1 _ _ _ _ (moves_idle l System_start (Forall_nil_2 _)) L). Qed.

(** ** The flusher sends what was typed *)

(** A turn of the flusher undisturbed: one step per world. *)
Definition flusher_turn (ws : list World) (r : Run) : Run := foldl (fun r w => flusher_step w r) r ws.

Lemma flusher_turn_cons w ws r : flusher_turn (w :: ws) r = flusher_turn ws (flusher_step w r).
Proof. done. Qed.
Ltac flusher_next := rewrite flusher_turn_cons; unfold flusher_step, set_flusher; cbn -[flusher_turn FLUSH_SILENCE_MS FLUSH_CHARS String.length Z.of_nat].

(** Text left in the buffer for three seconds is offered to the queue by the flusher's next turn, whole and
    under the run's generation, as long as that generation stays in force; the buffer is then empty. *)
Theorem silence_flushes_the_text ws r g :
  flusher r = FlAsleep -> stop (shared r) = false -> buffer (shared r) <> ""%string ->
  keyboard_generation (shared r) = Some g -> gen_module g = KeyboardText ->
  length ws = 12%nat -> Forall (fun w => matches g (cached w) = true /\ last_activity_ms (shared r) + FLUSH_SILENCE_MS <= now_ms w) ws ->
  flusher (flusher_turn ws r) = FlAsleep /\ buffer (shared (flusher_turn ws r)) = ""%string
  /\ exists a app app_display window ts ctx, attempts (flusher_turn ws r) = attempts r ++ [a]
     /\ at_event a = KeysTyped (buffer (shared r)) app app_display window ts g ctx.
Proof.
  intros Ef Es Nb Eg Em L F.
  assert (K : Forall (fun w => matches g (cached w) = true /\ store_enabled (cached w) KeyboardText = true /\ (FLUSH_SILENCE_MS <=? since (now_ms w) (last_activity_ms (shared r))) = true) ws).
  { apply (Forall_impl _ _ _ F). intros w [M T]. split; [done|]. split.
    - rewrite store_enabled_generation. by rewrite (proj2 (generation_from_state_Some (cached w) KeyboardText g) (conj Em M)).
    - apply Z.leb_le. unfold since. lia. }
  clear F. destruct r as [sh rds fl wa afk cs ty ats]. cbn in Ef, Es, Nb, Eg, K |- *. subst fl.
  destruct ws as [|w1 [|w2 [|w3 [|w4 [|w5 [|w6 [|w7 [|w8 [|w9 [|w10 [|w11 [|w12 [|w13 ws]]]]]]]]]]]]]; try done. clear L.
  rewrite !Forall_cons in K. destruct K as ((_&_&_)&(_&S2&_)&(_&_&T3)&(_&_&_)&(_&_&_)&(_&S6&_)&(_&_&_)&(_&_&_)&(_&_&_)&(M10&_&_)&_).
  flusher_next. rewrite Es.
  flusher_next. rewrite S2.
  do 3 flusher_next. rewrite T3, orb_true_r.
  assert ((0 <? Z.of_nat (String.length (buffer sh))) = true) as -> by (destruct (buffer sh); [done|by apply Z.ltb_lt]).
  flusher_next. rewrite S6.
  flusher_next. destruct (buffer sh) as [|c b] eqn:Eb; [done|].
  do 3 flusher_next. rewrite Eg. cbn -[flusher_turn]. rewrite M10.
  do 2 flusher_next.
  split; [done|]. split; [done|]. by do 6 eexists.
Qed.

(** ** Examples *)

Definition ex_typing : Store :=
  {| st_revision := 3; receipts := ∅;
     grants := <[KeyboardText := {| g_enabled := true; g_revision := 1 |}]> (<[IdleActivity := {| g_enabled := true; g_revision := 2 |}]>
                 {[WindowActivity := {| g_enabled := true; g_revision := 3 |}]}) |}.
Definition ex_keyboard : Generation := {| gen_module := KeyboardText; gen_revision := 1 |}.
Definition ex_idle : Generation := {| gen_module := IdleActivity; gen_revision := 2 |}.
Definition ex_event (code value : Z) : ReadOutcome := ReadEvent (replicate 16 0 ++ [1; 0; code; 0; value; 0; 0; 0]).
Definition ex_world (now : Z) (d : ReadOutcome) : World :=
  {| cached := ex_typing; file := FileHolds ex_typing; now_ms := now; device := d; has_room := true; unix_timestamp_secs := now / 1000;
     current_window := Some {| we_title := "Notes"; we_app := "editor"; we_app_display := "Editor"; we_app_path := ""; we_hwnd := 1 |} |}.
Definition ex_quiet (now : Z) : World := ex_world now WouldBlock.
Definition ex_supervise (n : nat) : list (World * Move) := replicate n (ex_quiet 0, MSupervisor (Some [{| de_name := "event3"; de_opens := true |}])).
(** One event read and handled by the reader, from its loop's head back to it. *)
Definition ex_key (now code value : Z) : list (World * Move) :=
  replicate (if (code =? KEY_LEFTSHIFT) || (code =? KEY_CAPSLOCK) || (value =? 0) then 4 else 9) (ex_world now (ex_event code value), MThread 0 (TReader 0)).
(** Shift and [h], then [i], [j], and a backspace; the flusher's turn comes four seconds later. *)
Definition ex_moves : list (World * Move) :=
  ex_supervise 5 ++ ex_key 1000 42 1 ++ ex_key 1001 35 1 ++ ex_key 1002 35 0 ++ ex_key 1003 42 0 ++ ex_key 1004 23 1 ++ ex_key 1005 36 1 ++ ex_key 1006 14 1
  ++ replicate 12 (ex_quiet 5006, MThread 0 TFlusher).
Definition ex_text : InputEvent := KeysTyped "Hi" "editor" "Editor" "Notes" 5 ex_keyboard (Some {| gen_module := WindowActivity; gen_revision := 3 |}).

Lemma ex_tried : tried <$> runs (moves ex_moves System_start) !! 0%nat = Some [ex_text].
Proof. vm_compute. reflexivity. Qed.

Lemma text_was_typed_under_its_grant_witness :
  exists r, runs (moves ex_moves System_start) !! 0%nat = Some r /\ tried r = [ex_text] /\ NoDup (tk_chunk <$> sent_chunks r).
Proof.
  pose proof ex_tried as T. destruct (runs (moves ex_moves System_start) !! 0%nat) as [r|] eqn:E; [|done].
  exists r. split; [done|]. split; [by injection T|]. apply (text_was_typed_under_its_grant ex_moves 0 r E).
Defined.
Lemma activity_answers_idleness_witness :
  exists r, runs (moves ex_moves System_start) !! 0%nat = Some r /\ tried r = [ex_text] /\ paired false (tried r) = true.
Proof.
  pose proof ex_tried as T. destruct (runs (moves ex_moves System_start) !! 0%nat) as [r|] eqn:E; [|done].
  exists r. split; [done|]. split; [by injection T|]. apply (activity_answers_idleness ex_moves 0 r E).
Defined.

Definition ex_run : Run :=
  {| shared := {| buffer := "Hi"; shift := false; caps := false; last_activity_ms := 1006; stop := false;
                  keyboard_generation := Some ex_keyboard; idle_generation := Some ex_idle |};
     readers := [RdHead]; flusher := FlAsleep; watcher := AwAsleep; is_afk := false; chunks := []; typed := []; attempts := [] |}.
Lemma silence_flushes_the_text_witness :
  exists a app app_display window ts ctx, attempts (flusher_turn (replicate 12 (ex_quiet 5006)) ex_run) = [a]
    /\ at_event a = KeysTyped "Hi" app app_display window ts ex_keyboard ctx.
Proof.
  apply (silence_flushes_the_text (replicate 12 (ex_quiet 5006)) ex_run ex_keyboard); try done.
  apply Forall_replicate. by vm_compute.
Defined.

(** The queue was full when the user came back: the [Active] is lost, the watcher's state has moved on, and
    its later turns try nothing more. *)
Example lost_active_is_not_retried :
  let r := set_watcher ex_run (AwActive ex_idle) false in
  let full := {| cached := ex_typing; file := FileHolds ex_typing; now_ms := 2000; device := WouldBlock; has_room := false; unix_timestamp_secs := 2; current_window := None |} in
  let r' := foldl (fun r w => watcher_step w r) r (full :: replicate 50 (ex_quiet 3000)) in
  tried r' = [BecameActive ex_idle] /\ (at_room <$> attempts r') = [false] /\ is_afk r' = false.
Proof. vm_compute. done. Qed.
(** The owner renews the keyboard grant while caps lock is on: the next run starts with the lock off, and the
    keys pressed under it are recorded in lower case. *)
Definition ex_renewed : Store :=
  {| st_revision := 5; receipts := ∅; grants := <[KeyboardText := {| g_enabled := true; g_revision := 5 |}]> (grants ex_typing) |}.
Definition ex_renewed_world (d : ReadOutcome) : World :=
  {| cached := ex_renewed; file := FileHolds ex_renewed; now_ms := 9000; device := d; has_room := true; unix_timestamp_secs := 9; current_window := None |}.
Example renewal_forgets_caps_lock :
  let y := moves (ex_supervise 5 ++ ex_key 1000 58 1 ++ ex_key 1001 30 1) System_start in
  let y' := moves (replicate 8 (ex_renewed_world WouldBlock, MSupervisor (Some [{| de_name := "event3"; de_opens := true |}]))
                   ++ replicate 9 (ex_renewed_world (ex_event 30 1), MThread 1 (TReader 0))) y in
  (runs y !! 0%nat ≫= fun r => Some (buffer (shared r))) = Some "A"%string /\ (runs y' !! 1%nat ≫= fun r => Some (buffer (shared r))) = Some "a"%string.
Proof. vm_compute. done. Qed.
