(* ===== verification/KeyboardWindows.v ===== *)
(** The Windows keyboard and idle monitor ([agent/src/platform/windows/keyboard_monitor.rs]): the low-level
    hook and its decoding of keys, the bounded channel to the decoder thread, the decoder that groups text by
    window, the supervisor that restarts both under each grant, and the idle watcher. The Windows calls are
    arguments: the key states, the layout's translation, the foreground window, the tick of the last input.

    [typed] and the keystrokes of a queued text are the statements': the keystrokes behind it, each with the
    window it was typed in ([ty_seen]: the grants the decoder's check saw). *)
From S2P Require Import Prelude Text Json Protocol Permissions Fence AgentSession Keyboard.

Definition FLUSH_CHARS : nat := 200.
Definition FLUSH_TIMEOUT : Duration := secs 5.
Definition CHANNEL : nat := 512.

(** ** Text from UTF-16 *)

Definition is_high (u : Z) : bool := in_range 55296 56319 u.
Definition is_low (u : Z) : bool := in_range 56320 57343 u.
(** [String::from_utf16_lossy]: a surrogate without its pair is U+FFFD. *)
Fixpoint from_utf16_lossy (us : list Z) : list Z :=
  match us with
  | [] => []
  | u :: us' =>
      if is_high u then
        match us' with
        | v :: us'' => if is_low v then (65536 + 1024 * (u - 55296) + (v - 56320)) :: from_utf16_lossy us'' else 65533 :: from_utf16_lossy us'
        | [] => [65533]
        end
      else (if is_low u then 65533 else u) :: from_utf16_lossy us'
  end.
Definition byte_char (n : Z) : ascii := ascii_of_N (Z.to_N n).
Definition utf8 (c : Z) : string :=
  let cont i := byte_char (128 + Z.shiftr c (6 * i) mod 64) in
  if c <? 128 then String (byte_char c) ""
  else if c <? 2048 then String (byte_char (192 + Z.shiftr c 6)) (String (cont 0) "")
  else if c <? 65536 then String (byte_char (224 + Z.shiftr c 12)) (String (cont 1) (String (cont 0) ""))
  else String (byte_char (240 + Z.shiftr c 18)) (String (cont 2) (String (cont 1) (String (cont 0) ""))).
Definition text_of_chars (cs : list Z) : string := String.concat "" (utf8 <$> cs).
Definition is_control (c : Z) : bool := (c <? 32) || in_range 127 159 c.

(** ** The hook *)

Definition VK_SHIFT : Z := 16.
Definition VK_CONTROL : Z := 17.
Definition VK_MENU : Z := 18.
Definition VK_CAPITAL : Z := 20.
Definition VK_RMENU : Z := 165.
Definition WM_KEYDOWN : Z := 256.
Definition WM_SYSKEYDOWN : Z := 260.

(** The key labels the decoder writes, in UTF-8. *)
Definition special_key (vk : Z) : option string :=
  if vk =? 13 then Some (String "010" "")
  else if vk =? 8 then Some "[⌫]"%string
  else if vk =? 9 then Some "[⇥]"%string
  else if vk =? 27 then Some "[Esc]"%string
  else if vk =? 46 then Some "[Del]"%string
  else if vk =? 32 then Some " "%string
  else if (vk =? 91) || (vk =? 92) then Some "[⊞]"%string
  else if in_range 37 40 vk || in_range 112 135 vk || (vk =? 44) || (vk =? 145) || (vk =? 19) then Some ""%string
  else None.
Section Hook.
(** [GetAsyncKeyState] as a [u16], and [ToUnicodeEx]: what it returns and the four units it may write. *)
Context (async_key_state : Z -> Z) (to_unicode : Z -> Z -> list Z -> Z * list Z).

Definition is_down (vk : Z) : bool := negb (Z.shiftr (async_key_state vk) 15 =? 0).
Definition keyboard_state (altgr : bool) : list Z :=
  let ks := replicate 256 0 in
  let ks := if is_down VK_SHIFT then <[Z.to_nat VK_SHIFT := 128]> ks else ks in
  let ks := if negb (Z.land (async_key_state VK_CAPITAL) 1 =? 0) then <[Z.to_nat VK_CAPITAL := 1]> ks else ks in
  if altgr then <[Z.to_nat VK_RMENU := 128]> (<[Z.to_nat VK_MENU := 128]> (<[Z.to_nat VK_CONTROL := 128]> ks)) else ks.
Definition decode_key (vk scan : Z) : string :=
  match special_key vk with
  | Some s => s
  | None =>
      let ctrl := is_down VK_CONTROL in
      let altgr := is_down VK_RMENU in
      if ctrl && negb altgr then ""%string
      else
        let (n, buf) := to_unicode vk scan (keyboard_state altgr) in
        if 0 <? n then text_of_chars (List.filter (fun c => negb (is_control c)) (from_utf16_lossy (take (Z.to_nat n) buf))) else ""%string
  end.

(** The channel of a hook generation: what waits, and whether the hook's end is still held. *)
Record Channel := { waiting : list string; sender : bool }.
Definition hook_proc (cached : Store) (code msg vk scan : Z) (ch : Channel) : Channel :=
  if (0 <=? code) && store_enabled cached KeyboardText && ((msg =? WM_KEYDOWN) || (msg =? WM_SYSKEYDOWN)) then
    let decoded := decode_key vk scan in
    if negb (String.eqb decoded "") && sender ch && Nat.ltb (length (waiting ch)) CHANNEL
    then {| waiting := waiting ch ++ [decoded]; sender := sender ch |} else ch
  else ch.
End Hook.

(** ** The foreground window *)

Record Foreground := { fg_null : bool; fg_title : list Z; fg_pid : Z; fg_path : option (list Z) }.
Definition is_separator (c : ascii) : bool := Ascii.eqb c "\" || Ascii.eqb c "/".
Definition exe_basename (full_path : string) : string := default ""%string (last (split_by is_separator full_path)).
Record Context_ := { cx_app : string; cx_app_display : string; cx_win : string }.
Definition no_context : Context_ := {| cx_app := ""; cx_app_display := ""; cx_win := "" |}.
(** [app_display]: the friendly name read from the file's version resource. *)
Definition foreground_window_info (app_display : string -> string) (cached : Store) (f : Foreground) : Context_ :=
  if negb (store_enabled cached WindowActivity) then no_context
  else if fg_null f then no_context
  else
    let title := text_of_chars (from_utf16_lossy (fg_title f)) in
    match (if fg_pid f =? 0 then None else fg_path f) with
    | Some path =>
        let full_path := text_of_chars (from_utf16_lossy path) in
        {| cx_app := exe_basename full_path; cx_app_display := app_display full_path; cx_win := title |}
    | None => {| cx_app := ""; cx_app_display := ""; cx_win := title |}
    end.

(** ** The decoder thread *)

Record Typed := { ty_text : string; ty_app : string; ty_win : string; ty_context : option Generation; ty_seen : Store }.
Definition texts (ts : list Typed) : string := String.concat "" (ty_text <$> ts).
Record Decoder := { buf : string; cur : Context_; cur_context : option Generation; last_key : Instant; typed : list Typed }.
Definition Decoder_start (now : Instant) : Decoder := {| buf := ""; cur := no_context; cur_context := None; last_key := now; typed := [] |}.
Definition clear (d : Decoder) : Decoder := {| buf := ""; cur := cur d; cur_context := cur_context d; last_key := last_key d; typed := [] |}.
(** What one [emit] reads: the cached grants at its three checks, whether the event queue takes one more
    and the clock. A [QueuedText] found room there; a burst that finds none is dropped. *)
Record EmitEnv := { em_allowed : Store; em_valid : Store; em_context : Store; em_room : bool; em_ts : Z }.
Record QueuedText := { at_event : InputEvent; at_typed : list Typed; at_env : EmitEnv }.
Definition emit (e : EmitEnv) (g : Generation) (d : Decoder) : list QueuedText :=
  if negb (store_enabled (em_allowed e) KeyboardText) then []
  else if negb (matches g (em_valid e)) then []
  else
    let context_ok := is_some_and (cur_context d) (fun c => matches c (em_context e)) in
    let field (f : Context_ -> string) := if context_ok then f (cur d) else ""%string in
    let event := KeysTyped (buf d) (field cx_app) (field cx_app_display) (field cx_win) (em_ts e) g (cur_context d) in
    if em_room e then [{| at_event := event; at_typed := typed d; at_env := e |}] else [].

Inductive Received : Type := RecvText (ch : string) | RecvTimeout | RecvDisconnected.
(** What a turn of [run_decoder]'s loop reads. *)
Record TurnEnv := {
  tn_head : Store; tn_allowed : Store; tn_now : Instant; tn_file : StoreFile; tn_context : Store; tn_foreground : Foreground;
  tn_switch : EmitEnv; tn_full : EmitEnv
}.
Definition take_text (app_display : string -> string) (g : Generation) (e : TurnEnv) (d : Decoder) (ch : string) : Decoder * list QueuedText :=
  let ctx := capture (tn_file e) WindowActivity in
  let w := foreground_window_info app_display (tn_context e) (tn_foreground e) in
  let switched := negb (String.eqb (buf d) "")
                  && (negb (String.eqb (cx_app w) (cx_app (cur d))) || negb (String.eqb (cx_win w) (cx_win (cur d))) || negb (bool_decide (ctx = cur_context d))) in
  let out1 := if switched then emit (tn_switch e) g d else [] in
  let d := if switched then clear d else d in
  let d := {| buf := (buf d ++ ch)%string; cur := w; cur_context := ctx; last_key := tn_now e;
              typed := typed d ++ [{| ty_text := ch; ty_app := cx_app w; ty_win := cx_win w; ty_context := ctx; ty_seen := tn_allowed e |}] |} in
  if Nat.leb FLUSH_CHARS (String.length (buf d)) then (clear d, out1 ++ emit (tn_full e) g d) else (d, out1).
Definition decoder_turn (app_display : string -> string) (g : Generation) (e : TurnEnv) (r : Received) (d : Decoder) : option (Decoder * list QueuedText) :=
  if negb (matches g (tn_head e)) then None
  else
    match r with
    | RecvText ch => if negb (store_enabled (tn_allowed e) KeyboardText) then Some (clear d, []) else Some (take_text app_display g e d ch)
    | RecvTimeout =>
        if negb (String.eqb (buf d) "") && (FLUSH_TIMEOUT <=? saturating_since (tn_now e) (last_key d)) then Some (clear d, emit (tn_full e) g d) else Some (d, [])
    | RecvDisconnected => None
    end.

(** ** The supervisor, and the three threads together *)

Inductive Supervisor : Type := WvWait | WvCapture | WvInstall (g : Generation) | WvPump (g : Generation) | WvDrop | WvJoin | WvPause.
Record System := { supervisor : Supervisor; channel : Channel; decoder : option (Generation * Decoder); in_queue : list QueuedText }.
Definition System_start : System := {| supervisor := WvWait; channel := {| waiting := []; sender := false |}; decoder := None; in_queue := [] |}.
Record SupEnv := { su_cached : Store; su_file : StoreFile; su_now : Instant; su_installs : bool }.
Definition supervisor_step (e : SupEnv) (y : System) : System :=
  let goto v := {| supervisor := v; channel := channel y; decoder := decoder y; in_queue := in_queue y |} in
  match supervisor y with
  | WvWait => goto (if store_enabled (su_cached e) KeyboardText then WvCapture else WvWait)
  | WvCapture =>
      match capture (su_file e) KeyboardText with
      | None => goto WvWait
      | Some g => {| supervisor := WvInstall g; channel := {| waiting := []; sender := true |}; decoder := Some (g, Decoder_start (su_now e)); in_queue := in_queue y |}
      end
  | WvInstall g => goto (if su_installs e then WvPump g else WvDrop)
  | WvPump g => goto (if matches g (su_cached e) then WvPump g else WvDrop)
  | WvDrop => {| supervisor := WvJoin; channel := {| waiting := waiting (channel y); sender := false |}; decoder := decoder y; in_queue := in_queue y |}
  | WvJoin => goto (match decoder y with None => WvPause | Some _ => WvJoin end)
  | WvPause => goto WvWait
  end.
(** A key that arrives while the supervisor pumps messages under an installed hook; a send to a decoder that
    has ended fails. *)
Record HookEnv := { hk_cached : Store; hk_code : Z; hk_msg : Z; hk_vk : Z; hk_scan : Z; hk_async : Z -> Z; hk_unicode : Z -> Z -> list Z -> Z * list Z }.
Definition hook_step (e : HookEnv) (y : System) : System :=
  match supervisor y, decoder y with
  | WvPump _, Some _ => {| supervisor := supervisor y; channel := hook_proc (hk_async e) (hk_unicode e) (hk_cached e) (hk_code e) (hk_msg e) (hk_vk e) (hk_scan e) (channel y);
                           decoder := decoder y; in_queue := in_queue y |}
  | _, _ => y
  end.
(** [recv_timeout]: what waits comes first, in order; a closed channel disconnects once it is empty. *)
Definition recv (c : Channel) : Received * Channel :=
  match waiting c with
  | ch :: rest => (RecvText ch, {| waiting := rest; sender := sender c |})
  | [] => (if sender c then RecvTimeout else RecvDisconnected, c)
  end.
Definition decoder_step (app_display : string -> string) (e : TurnEnv) (y : System) : System :=
  match decoder y with
  | None => y
  | Some (g, d) =>
      let (r, c) := recv (channel y) in
      match decoder_turn app_display g e r d with
      | None => {| supervisor := supervisor y; channel := channel y; decoder := None; in_queue := in_queue y |}
      | Some (d, out) => {| supervisor := supervisor y; channel := c; decoder := Some (g, d); in_queue := in_queue y ++ out |}
      end
  end.
Inductive Move : Type := MSupervisor (e : SupEnv) | MHook (e : HookEnv) | MDecoder (e : TurnEnv).
Definition move (app_display : string -> string) (y : System) (m : Move) : System :=
  match m with MSupervisor e => supervisor_step e y | MHook e => hook_step e y | MDecoder e => decoder_step app_display e y end.
Definition moves (app_display : string -> string) : list Move -> System -> System := fun l y => foldl (move app_display) y l.

(** ** The idle watcher *)

Record Afk := { was_afk : bool; previous_generation : option Generation; last_input_tick : Z; last_input_mono : Instant }.
Definition Afk_start (now : Instant) : Afk := {| was_afk := false; previous_generation := None; last_input_tick := 0; last_input_mono := now |}.
Record TickEnv := { tk_allowed : Store; tk_file : StoreFile; tk_now : Instant; tk_dw_time : Z }.
Definition run_afk_watcher (e : TickEnv) (a : Afk) : Afk * list InputEvent :=
  if negb (store_enabled (tk_allowed e) IdleActivity)
  then ({| was_afk := false; previous_generation := previous_generation a; last_input_tick := last_input_tick a; last_input_mono := tk_now e |}, [])
  else
    match capture (tk_file e) IdleActivity with
    | None => (a, [])
    | Some g =>
        let a := if bool_decide (previous_generation a = Some g) then a
                 else {| was_afk := false; previous_generation := Some g; last_input_tick := 0; last_input_mono := tk_now e |} in
        if tk_dw_time e =? last_input_tick a then
          let idle_secs := as_secs (saturating_since (tk_now e) (last_input_mono a)) in
          if (AFK_THRESHOLD_SECS <=? idle_secs) && negb (was_afk a)
          then ({| was_afk := true; previous_generation := previous_generation a; last_input_tick := last_input_tick a; last_input_mono := last_input_mono a |}, [WentAfk idle_secs g])
          else (a, [])
        else ({| was_afk := false; previous_generation := previous_generation a; last_input_tick := tk_dw_time e; last_input_mono := tk_now e |},
              if was_afk a then [BecameActive g] else [])
    end.
Fixpoint afk_ticks (es : list TickEnv) (a : Afk) : Afk * list InputEvent :=
  match es with
  | [] => (a, [])
  | e :: es => let (a, out) := run_afk_watcher e a in let (a, rest) := afk_ticks es a in (a, out ++ rest)
  end.

(** ** What a text is made of *)

Lemma concat_cons x xs : String.concat "" (x :: xs) = (x ++ String.concat "" xs)%string.
Proof.
  destruct xs as [|y xs]; [|done]. symmetry. apply append_empty.
Qed.
Lemma concat_app xs ys : String.concat "" (xs ++ ys) = (String.concat "" xs ++ String.concat "" ys)%string.
Proof. induction xs as [|x xs IH]; [done|]. cbn [app]. by rewrite !concat_cons, IH, append_assoc. Qed.
Lemma texts_snoc ts t : texts (ts ++ [t]) = (texts ts ++ ty_text t)%string.
Proof. unfold texts. by rewrite fmap_app, concat_app. Qed.
Lemma texts_nil ts : Forall (fun t => ty_text t <> ""%string) ts -> texts ts = ""%string -> ts = [].
Proof.
  intros F. destruct ts as [|t ts]; [done|]. apply Forall_cons in F as [N _]. unfold texts. cbn. intros E. exfalso. apply N.
  destruct (ty_text t); [done|]. by destruct (ty_text <$> ts).
Qed.

(** [t] was typed in the window the decoder stands in, under the module's grant. *)
Record typed_here (app win : string) (ctx : option Generation) (t : Typed) : Prop := {
  th_app : ty_app t = app; th_win : ty_win t = win; th_context : ty_context t = ctx;
  th_seen : store_enabled (ty_seen t) KeyboardText = true; th_text : ty_text t <> ""%string
}.
Record decoder_ok (d : Decoder) : Prop := {
  do_buf : buf d = texts (typed d);
  do_typed : Forall (typed_here (cx_app (cur d)) (cx_win (cur d)) (cur_context d)) (typed d)
}.
Definition queued_ok (a : QueuedText) : Prop :=
  match at_event a with
  | KeysTyped text app app_display win _ g ctx =>
      gen_module g = KeyboardText /\ store_enabled (em_allowed (at_env a)) KeyboardText = true /\ matches g (em_valid (at_env a)) = true
      /\ text = texts (at_typed a)
      /\ exists app' win', Forall (typed_here app' win' ctx) (at_typed a)
         /\ (is_some_and ctx (fun c => matches c (em_context (at_env a))) = true -> app = app' /\ win = win')
         /\ (is_some_and ctx (fun c => matches c (em_context (at_env a))) = false -> app = ""%string /\ app_display = ""%string /\ win = ""%string)
  | _ => False
  end.
Lemma cleared_decoder_ok d : decoder_ok (clear d).
Proof. by split; cbn. Qed.
Lemma emit_ok e g d : gen_module g = KeyboardText -> decoder_ok d -> Forall queued_ok (emit e g d).
Proof.
  intros M [B T]. unfold emit. destruct (store_enabled _ _) eqn:Sa; [|constructor]. destruct (matches g (em_valid e)) eqn:Mv; [|constructor].
  cbn [negb]. destruct (em_room e); [|constructor]. constructor; [|constructor]. unfold queued_ok; cbn. repeat (split; [done|]).
  exists (cx_app (cur d)), (cx_win (cur d)). by destruct (is_some_and _ _).
Qed.
Lemma decoder_ok_empty d : decoder_ok d -> String.eqb (buf d) "" = true -> typed d = [].
Proof.
  intros [B T] E. apply String.eqb_eq in E. rewrite B in E. apply texts_nil; [|done]. apply (Forall_impl _ _ _ T). by intros t [].
Qed.
Lemma take_text_ok disp g e d ch :
  gen_module g = KeyboardText -> ch <> ""%string -> store_enabled (tn_allowed e) KeyboardText = true -> decoder_ok d ->
  decoder_ok (take_text disp g e d ch).1 /\ Forall queued_ok (take_text disp g e d ch).2.
Proof.
  intros M N S O. unfold take_text. cbv zeta.
  set (ctx := capture _ _). set (w := foreground_window_info _ _ _). set (sw := _ && _).
  assert (O1 : decoder_ok {| buf := (buf (if sw then clear d else d) ++ ch)%string; cur := w; cur_context := ctx; last_key := tn_now e;
      typed := typed (if sw then clear d else d) ++ [{| ty_text := ch; ty_app := cx_app w; ty_win := cx_win w; ty_context := ctx; ty_seen := tn_allowed e |}] |}).
  { split; cbn [buf typed cur cur_context].
    - rewrite texts_snoc. destruct sw; [done|]. by rewrite (do_buf _ O).
    - apply Forall_app. split; [|by constructor]. destruct sw eqn:E; [constructor|]. subst sw. apply andb_false_iff in E as [E|E].
      + rewrite decoder_ok_empty; [constructor|done|]. by apply negb_false_iff.
      + apply orb_false_iff in E as [E E3]. apply orb_false_iff in E as [E1 E2]. apply negb_false_iff in E1, E2, E3.
        apply String.eqb_eq in E1, E2. apply bool_decide_eq_true in E3. rewrite E1, E2, E3. apply O. }
  assert (A1 : Forall queued_ok (if sw then emit (tn_switch e) g d else [])) by (destruct sw; [by apply emit_ok|constructor]).
  destruct (Nat.leb FLUSH_CHARS _); cbn [fst snd]; [|done]. split; [apply cleared_decoder_ok|]. apply Forall_app. split; [done|]. by apply emit_ok.
Qed.
Definition received_ok (r : Received) : Prop := match r with RecvText ch => ch <> ""%string | _ => True end.
Lemma decoder_turn_ok disp g e r d d' out :
  gen_module g = KeyboardText -> received_ok r -> decoder_ok d -> decoder_turn disp g e r d = Some (d', out) -> decoder_ok d' /\ Forall queued_ok out.
Proof.
  intros M R O. unfold decoder_turn. destruct (negb (matches _ _)); [done|]. destruct r as [ch| |]; [| |done].
  - destruct (store_enabled _ _) eqn:S; cbn [negb].
    + intros [= E]. pose proof (take_text_ok disp g e d ch M R S O) as K. by rewrite E in K.
    + intros [= <- <-]. split; [apply cleared_decoder_ok|constructor].
  - destruct (_ && _).
    + intros [= <- <-]. split; [apply cleared_decoder_ok|by apply emit_ok].
    + intros [= <- <-]. done.
Qed.

(** ** The system *)

Record system_ok (y : System) : Prop := {
  so_waiting : Forall (fun ch => ch <> ""%string) (waiting (channel y));
  so_decoder : forall g d, decoder y = Some (g, d) -> gen_module g = KeyboardText /\ decoder_ok d;
  so_in_queue : Forall queued_ok (in_queue y)
}.
Lemma hook_proc_waiting async uni cached code msg vk scan ch :
  Forall (fun t => t <> ""%string) (waiting ch) -> Forall (fun t => t <> ""%string) (waiting (hook_proc async uni cached code msg vk scan ch)).
Proof.
  intros F. unfold hook_proc. cbv zeta. destruct (_ && _ && _); [|done]. destruct (String.eqb (decode_key _ _ _ _) "") eqn:E; [done|].
  cbn [negb andb]. destruct (_ && _); [|done]. apply Forall_app. split; [done|]. constructor; [|constructor]. by apply String.eqb_neq.
Qed.
Lemma move_ok disp y m : system_ok y -> system_ok (move disp y m).
Proof.
  intros [W D A]. destruct m as [e|e|e]; cbn [move].
  - unfold supervisor_step. destruct (supervisor y); try (by split).
    destruct (capture (su_file e) KeyboardText) as [g|] eqn:C; [|by split]. split; cbn; [constructor| |done].
    intros g' d [= <- <-]. split; [by apply capture_module in C|by split].
  - unfold hook_step. destruct (supervisor y); destruct (decoder y) as [[h d]|] eqn:E; try (by split; rewrite ?E).
    split; cbn; [by apply hook_proc_waiting|done..].
  - unfold decoder_step. destruct (decoder y) as [[g d]|] eqn:E; [|by split; rewrite ?E]. destruct (D g d eq_refl) as [M O].
    destruct (recv (channel y)) as [r c] eqn:R.
    assert (K : received_ok r /\ Forall (fun t => t <> ""%string) (waiting c)).
    { unfold recv in R. destruct (waiting (channel y)) as [|ch rest] eqn:Ew; injection R as <- <-.
      - rewrite Ew. by destruct (sender _).
      - by apply Forall_cons in W. }
    destruct K as [K1 K2]. destruct (decoder_turn disp g e r d) as [[d' out]|] eqn:T.
    + destruct (decoder_turn_ok disp g e r d d' out M K1 O T) as [O' A']. split; cbn; [done| |by apply Forall_app].
      by intros ? ? [= <- <-].
    + by split.
Qed.

(** Whatever the order in which the hook, the decoder and the supervisor run and the grants change, a text the
    decoder queues is the concatenation of keys that were all received while the keyboard module was granted, all
    in one window and under one window grant; the event names a generation of the keyboard module found in force
    at the last check, carries that very window when the window grant is still in force, and no window otherwise. *)
Theorem text_belongs_to_its_window disp l a text app app_display win ts g ctx :
  a ∈ in_queue (moves disp l System_start) -> at_event a = KeysTyped text app app_display win ts g ctx ->
  gen_module g = KeyboardText /\ store_enabled (em_allowed (at_env a)) KeyboardText = true /\ matches g (em_valid (at_env a)) = true
  /\ text = texts (at_typed a)
  /\ exists app' win', Forall (typed_here app' win' ctx) (at_typed a)
     /\ (is_some_and ctx (fun c => matches c (em_context (at_env a))) = true -> app = app' /\ win = win')
     /\ (is_some_and ctx (fun c => matches c (em_context (at_env a))) = false -> app = ""%string /\ app_display = ""%string /\ win = ""%string).
Proof.
  intros I E.
  assert (K : forall y, system_ok y -> system_ok (moves disp l y)).
  { clear I. induction l as [|m l IH]; intros y K; [done|]. by apply IH, move_ok. }
  destruct (K System_start) as [_ _ A]; [by split; try constructor|]. rewrite Forall_forall in A. specialize (A a I). unfold queued_ok in A. by rewrite E in A.
Qed.

(** ** Nothing typed is lost *)

(** A turn during which the grants stay where the generation needs them. *)
Definition granted (g : Generation) (e : TurnEnv) : Prop :=
  matches g (tn_head e) = true /\ store_enabled (tn_allowed e) KeyboardText = true
  /\ Forall (fun m => store_enabled (em_allowed m) KeyboardText = true /\ matches g (em_valid m) = true) [tn_switch e; tn_full e].
Fixpoint decoder_turns (app_display : string -> string) (g : Generation) (ts : list (TurnEnv * Received)) (d : Decoder) : option (Decoder * list QueuedText) :=
  match ts with
  | [] => Some (d, [])
  | (e, r) :: ts =>
      '(d, out) ← decoder_turn app_display g e r d; '(d, rest) ← decoder_turns app_display g ts d; Some (d, out ++ rest)
  end.
Definition keys_text (e : InputEvent) : string := match e with KeysTyped text _ _ _ _ _ _ => text | _ => ""%string end.
Definition queued (out : list QueuedText) : string := String.concat "" ((fun a => keys_text (at_event a)) <$> out).
Definition received (rs : list Received) : string := String.concat "" ((fun r => match r with RecvText ch => ch | _ => ""%string end) <$> rs).

Lemma received_cons r rs : received (r :: rs) = (match r with RecvText ch => ch | _ => "" end ++ received rs)%string.
Proof. exact (concat_cons _ _). Qed.
Lemma queued_app a b : queued (a ++ b) = (queued a ++ queued b)%string.
Proof. unfold queued. by rewrite fmap_app, concat_app. Qed.
(** A burst is a text cut from the stream and what its [emit] read; the queue takes those it has room for. *)
Abbreviation Burst := (string * EmitEnv)%type (only parsing).
Definition kept (bs : list Burst) : list string := fst <$> List.filter (fun b => em_room b.2) bs.
Definition cut (bs : list Burst) : string := String.concat "" bs.*1.
Definition out_texts (out : list QueuedText) : list string := (fun a => keys_text (at_event a)) <$> out.
Lemma cut_app a b : cut (a ++ b) = (cut a ++ cut b)%string.
Proof. unfold cut. by rewrite fmap_app, concat_app. Qed.
Lemma kept_app a b : kept (a ++ b) = kept a ++ kept b.
Proof. unfold kept. by rewrite List.filter_app, fmap_app. Qed.
Lemma emit_granted e g d : store_enabled (em_allowed e) KeyboardText = true -> matches g (em_valid e) = true -> out_texts (emit e g d) = kept [(buf d, e)].
Proof. intros S M. unfold emit, kept. rewrite S, M. cbn [negb List.filter snd]. by destruct (em_room e). Qed.
(** What one turn cuts: the bursts it offered, and the text it leaves. *)
Definition turn_cuts (e : TurnEnv) (d d' : Decoder) (ch : string) (out : list QueuedText) : Prop :=
  exists bs, out_texts out = kept bs /\ (cut bs ++ buf d' = buf d ++ ch)%string /\ bs.*2 `sublist_of` [tn_switch e; tn_full e].
Lemma take_text_cuts disp g e d ch : granted g e -> turn_cuts e d (take_text disp g e d ch).1 ch (take_text disp g e d ch).2.
Proof.
  intros (_ & _ & F). apply Forall_cons in F as [[S1 M1] F]. apply Forall_cons in F as [[S2 M2] _]. unfold take_text. cbv zeta. set (sw := _ && _).
  assert (Q : exists bs, out_texts (if sw then emit (tn_switch e) g d else []) = kept bs /\ (cut bs ++ buf (if sw then clear d else d) = buf d)%string
            /\ bs.*2 `sublist_of` [tn_switch e]).
  { destruct sw; [|exists []; split_and!; [done..|apply sublist_nil_l]]. exists [(buf d, tn_switch e)]. rewrite emit_granted by done.
    split_and!; [done|apply append_empty|reflexivity]. }
  destruct Q as (bs & Q1 & Q2 & Q3). destruct (Nat.leb FLUSH_CHARS _); cbn [fst snd].
  - match goal with |- turn_cuts _ _ (clear ?x) _ _ => set (d1 := x) end. exists (bs ++ [(buf d1, tn_full e)]). split_and!.
    + unfold out_texts in *. rewrite fmap_app, Q1, kept_app. f_equal. by apply emit_granted.
    + rewrite cut_app. cbn [buf clear]. rewrite append_empty. change (cut [(buf d1, tn_full e)]) with (buf (if sw then clear d else d) ++ ch)%string.
      by rewrite <- append_assoc, Q2.
    + rewrite fmap_app. exact (sublist_app _ _ _ _ Q3 (reflexivity _)).
  - exists bs. split_and!; [done| |exact (sublist_inserts_r [tn_full e] _ _ Q3)]. cbn [buf]. by rewrite <- append_assoc, Q2.
Qed.

Lemma turn_cuts_text disp g e r d :
  granted g e -> r <> RecvDisconnected ->
  exists d1 out1, decoder_turn disp g e r d = Some (d1, out1) /\ turn_cuts e d d1 (match r with RecvText ch => ch | _ => "" end) out1.
Proof.
  intros G N. pose proof G as (H & A & E). apply Forall_cons in E as [_ E]. apply Forall_cons in E as [[S2 M2] _].
  unfold decoder_turn. rewrite H. cbn [negb]. destruct r as [ch| |]; [| |done].
  - rewrite A. cbn [negb]. eexists _, _. split; [apply f_equal, surjective_pairing|]. by apply take_text_cuts.
  - destruct (_ && _); eexists _, _; (split; [done|]).
    + exists [(buf d, tn_full e)]. rewrite emit_granted by done. split_and!; [done|done|]. apply sublist_cons. reflexivity.
    + exists []. split_and!; [done|symmetry; apply append_empty|apply sublist_nil_l].
Qed.

(** C22: While its generation stays granted and its channel open, the decoder goes on, and every key it receives
    is in one of the bursts it cuts the stream into or still in its buffer: in order, none lost, none twice,
    wherever it cuts (a window switch, 200 bytes, five seconds of silence). Each turn cuts at most two, the
    text of the window left behind and the text so far, each offered to the event queue once. The events queued
    are exactly the bursts that found room there, in order, each with its whole text; so what is lost is
    exactly the bursts offered to a full queue, and nothing is while the queue takes every burst. *)
Theorem decoder_keeps_every_key disp g ts d :
  Forall (fun t => granted g t.1 /\ t.2 <> RecvDisconnected) ts ->
  exists d' out turns, decoder_turns disp g ts d = Some (d', out)
    /\ Forall2 (fun t bursts => bursts.*2 `sublist_of` [tn_switch t.1; tn_full t.1]) ts turns
    /\ (String.concat "" (concat turns).*1 ++ buf d' = buf d ++ received ts.*2)%string
    /\ (fun a => keys_text (at_event a)) <$> out = fst <$> List.filter (fun b => em_room b.2) (concat turns)
    /\ ((forall t, t ∈ ts -> em_room (tn_switch t.1) = true /\ em_room (tn_full t.1) = true) -> (queued out ++ buf d' = buf d ++ received ts.*2)%string).
Proof.
  intros F.
  assert (K : exists d' out turns, decoder_turns disp g ts d = Some (d', out)
    /\ Forall2 (fun t bursts => bursts.*2 `sublist_of` [tn_switch t.1; tn_full t.1]) ts turns
    /\ (cut (concat turns) ++ buf d' = buf d ++ received ts.*2)%string /\ out_texts out = kept (concat turns)).
  { revert d. induction ts as [|[e r] ts IH]; intros d.
    { exists d, [], []. split_and!; [done|constructor|symmetry; apply append_empty|done]. }
    apply Forall_cons in F as [[G N] F]. cbn [fst snd] in G, N. destruct (turn_cuts_text disp g e r d G N) as (d1 & out1 & E1 & bs1 & O1 & Q1 & B1).
    destruct (IH F d1) as (d2 & out2 & turns & E2 & B2 & Q2 & O2).
    exists d2, (out1 ++ out2), (bs1 :: turns). cbn [decoder_turns concat]. rewrite E1. cbn [mbind option_bind]. rewrite E2. split_and!; [done|by constructor| |].
    - rewrite cut_app, append_assoc, Q2, <- append_assoc, Q1, append_assoc. by rewrite <- received_cons.
    - unfold out_texts in *. by rewrite fmap_app, kept_app, O1, O2. }
  destruct K as (d' & out & turns & E & B & Q & O). exists d', out, turns. split_and!; [done|exact B|exact Q|exact O|].
  intros R. rewrite <- Q. f_equal. unfold queued, cut. change (String.concat "" (out_texts out) = String.concat "" (concat turns).*1). rewrite O. unfold kept.
  rewrite filter_every; [done|]. intros b (bs & Ib & I)%elem_of_concat.
  apply list_elem_of_lookup in Ib as [i Hi]. destruct (Forall2_lookup_r _ _ _ _ _ B Hi) as (t & It & Et). apply list_elem_of_lookup_2 in It.
  pose proof (elem_of_sublist _ _ _ (list_elem_of_fmap_2 snd bs b I) Et) as M. destruct (R t It) as [R1 R2].
  by apply elem_of_cons in M as [-> | ->%list_elem_of_singleton].
Qed.

(** ** The idle watcher *)

Lemma run_afk_watcher_paired e a b :
  (was_afk a = true -> b = true) ->
  paired b (run_afk_watcher e a).2 = true /\ (was_afk (run_afk_watcher e a).1 = true -> standing b (run_afk_watcher e a).2 = true).
Proof.
  intros B. unfold run_afk_watcher. destruct (store_enabled _ _); [|by split]. cbn [negb]. destruct (capture _ _) as [g|]; [|by split].
  cbv zeta. set (a' := if bool_decide _ then a else _).
  assert (B' : was_afk a' = true -> b = true) by (subst a'; by destruct (bool_decide _)). clearbody a'. clear B a.
  destruct (tk_dw_time e =? last_input_tick a').
  - destruct (AFK_THRESHOLD_SECS <=? _) eqn:L; cbn [andb]; [|by split]. destruct (was_afk a') eqn:W; cbn [negb]; [by split; [|intros _; apply B']|].
    split; [|done]. cbn [snd paired]. by rewrite L.
  - split; [|done]. cbn [snd]. destruct (was_afk a'); [|done]. cbn. by rewrite B'.
Qed.

(** Every [Active] the watcher tries to queue answers an [Afk], which comes after a minute without input. *)
Theorem ticks_pair_idle_events es now : paired false (afk_ticks es (Afk_start now)).2 = true.
Proof.
  assert (K : forall es a b, (was_afk a = true -> b = true) -> paired b (afk_ticks es a).2 = true).
  { clear. induction es as [|e es IH]; intros a b B; [done|]. cbn [afk_ticks]. destruct (run_afk_watcher_paired e a b B) as [P S].
    destruct (run_afk_watcher e a) as [a1 out]. cbn in P, S. specialize (IH a1 (standing b out) S). destruct (afk_ticks es a1) as [a2 rest]. cbn in *.
    by rewrite paired_app, P, IH. }
  by apply K.
Qed.

(** ** Examples *)

Definition ex_typing : Store :=
  {| st_revision := 3; receipts := ∅;
     grants := <[KeyboardText := {| g_enabled := true; g_revision := 1 |}]> {[WindowActivity := {| g_enabled := true; g_revision := 3 |}]} |}.
Definition ex_keyboard : Generation := {| gen_module := KeyboardText; gen_revision := 1 |}.
Definition ex_window : Generation := {| gen_module := WindowActivity; gen_revision := 3 |}.
(** A layout whose letters are their virtual keys; no modifier held. *)
Definition ex_hook (vk : Z) : Move :=
  MHook {| hk_cached := ex_typing; hk_code := 0; hk_msg := WM_KEYDOWN; hk_vk := vk; hk_scan := 0; hk_async _ := 0; hk_unicode v _ _ := (1, [v; 0; 0; 0]) |}.
Definition ex_supervisor : Move := MSupervisor {| su_cached := ex_typing; su_file := FileHolds ex_typing; su_now := 0; su_installs := true |}.
Definition ex_emit : EmitEnv := {| em_allowed := ex_typing; em_valid := ex_typing; em_context := ex_typing; em_room := true; em_ts := 7 |}.
Definition ex_units (s : string) : list Z := Z.of_N ∘ N_of_ascii <$> String.list_ascii_of_string s.
Definition ex_turn (now : Instant) (title : string) : TurnEnv :=
  {| tn_head := ex_typing; tn_allowed := ex_typing; tn_now := now; tn_file := FileHolds ex_typing; tn_context := ex_typing;
     tn_foreground := {| fg_null := false; fg_title := ex_units title; fg_pid := 4; fg_path := Some (ex_units "C:\apps\edit.exe") |};
     tn_switch := ex_emit; tn_full := ex_emit |}.
Definition ex_moves : list Move :=
  replicate 3 ex_supervisor ++ [ex_hook 72; ex_hook 8; ex_hook 73] ++ (MDecoder <$> [ex_turn 1 "Notes"; ex_turn 2 "Notes"; ex_turn 3 "Mail"; ex_turn (secs 9) "Mail"]).
Definition ex_first : InputEvent := KeysTyped "H[⌫]" "edit.exe" "Editor" "Notes" 7 ex_keyboard (Some ex_window).
Definition ex_second : InputEvent := KeysTyped "I" "edit.exe" "Editor" "Mail" 7 ex_keyboard (Some ex_window).
Lemma ex_in_queue : at_event <$> in_queue (moves (fun _ => "Editor"%string) ex_moves System_start) = [ex_first; ex_second].
Proof. vm_compute. reflexivity. Qed.

Lemma text_belongs_to_its_window_witness :
  exists a, a ∈ in_queue (moves (fun _ => "Editor"%string) ex_moves System_start) /\ at_event a = ex_first /\ keys_text ex_first = texts (at_typed a).
Proof.
  pose proof ex_in_queue as E. destruct (in_queue (moves (fun _ => "Editor"%string) ex_moves System_start)) as [|a l] eqn:L; [done|].
  injection E as Ea _. exists a. assert (I : a ∈ in_queue (moves (fun _ => "Editor"%string) ex_moves System_start)) by (rewrite L; apply list_elem_of_here).
  split; [by rewrite <- L|]. split; [done|].
  by destruct (text_belongs_to_its_window (fun _ => "Editor"%string) ex_moves a _ _ _ _ _ _ _ I Ea) as (_ & _ & _ & T & _).
Defined.
Definition ex_turns : list (TurnEnv * Received) :=
  [(ex_turn 1 "Notes", RecvText "ab"); (ex_turn 2 "Mail", RecvText "c"); (ex_turn 3 "Mail", RecvTimeout)].
Lemma decoder_keeps_every_key_witness :
  exists d out, decoder_turns (fun _ => "Editor"%string) ex_keyboard ex_turns (Decoder_start 0) = Some (d, out) /\ (queued out ++ buf d = "abc")%string.
Proof.
  destruct (decoder_keeps_every_key (fun _ => "Editor"%string) ex_keyboard ex_turns (Decoder_start 0)) as (d & out & turns & E & _ & _ & _ & Q).
  - repeat (constructor; [split; [|done]; split; [by vm_compute|]; split; [by vm_compute|]; repeat (constructor; [by vm_compute|]); constructor|]). constructor.
  - exists d, out. split; [exact E|]. apply Q. intros t I. unfold ex_turns in I. rewrite !elem_of_cons in I.
    destruct I as [-> | [-> | [-> | I]]]; [by split..|by apply not_elem_of_nil in I].
Defined.

(** The limit is in bytes of UTF-8: 40 backspaces, each one key and three characters, already fill a text. *)
Example limit_counts_bytes :
  (fun '(d, out) => (buf d, List.length out)) <$>
    decoder_turns (fun _ => ""%string) ex_keyboard (replicate 40 (ex_turn 1 "Notes", RecvText "[⌫]")) (Decoder_start 0) = Some (""%string, 1%nat).
Proof. vm_compute. reflexivity. Qed.
(** A pair of surrogates decodes to one character, a lone one to U+FFFD. *)
Example utf16_pairs : text_of_chars (from_utf16_lossy [55357; 56832]) = "😀"%string /\ from_utf16_lossy [55357; 65] = [65533; 65].
Proof. by vm_compute. Qed.
(** Ctrl and a letter is no text; AltGr (Ctrl and the right Alt) and a letter is. *)
Example shortcuts_are_not_text :
  let keys down vk := if existsb (Z.eqb vk) down then 32768 else 0 in
  let layout (vk _ : Z) (_ : list Z) := (1, [vk; 0; 0; 0]) in
  decode_key (keys [VK_CONTROL]) layout 67 0 = ""%string /\ decode_key (keys [VK_CONTROL; VK_RMENU]) layout 67 0 = "C"%string
  /\ decode_key (keys []) layout 8 0 = "[⌫]"%string.
Proof. by vm_compute. Qed.
