(* ===== verification/HistoryCapture.v ===== *)
(** The keyframe capture loop of Recall ([agent/src/capture/history/mod.rs] and [image_ops.rs]): the settings,
    the monitors captured, the adaptive cadence, the change detection by average hash, the two checks of the
    grant around every screenshot, and the hand-over to the spool writer. The screen, the image library's
    resizing and encoding and the text recognition are the operations of [Images]. *)
From Stdlib Require Import SpecFloat.
From S2P Require Import Prelude Text Json Protocol Permissions Fence RecallContext Spool.

(** ** Settings *)

Record HistorySettings := {
  enabled : bool; interval_ms : Z; hot_interval_ms : Z; hot_idle_ms : Z; jpeg_quality : Z; max_dim : Z;
  dedup_hamming : Z; keyframe_max_gap_ms : Z; monitor : option Z; ocr : bool
}.
Definition HistorySettings_default : HistorySettings :=
  {| enabled := true; interval_ms := 20000; hot_interval_ms := 6000; hot_idle_ms := 20000; jpeg_quality := 45; max_dim := 1600;
     dedup_hamming := 4; keyframe_max_gap_ms := 5 * 60000; monitor := None; ocr := true |}.
(** [serde(default)] on the struct: an absent field keeps the default's value, a malformed one refuses the push. *)
Definition field_or {A} (rd : json -> option A) (d : A) (field : option json) : option A := match field with None => Some d | Some v => rd v end.
Definition opt_index (v : json) : option (option Z) := match v with JNull => Some None | _ => Some <$> bounded_int u64_max v end.
Definition as_bool (v : json) : option bool := match v with JBool b => Some b | _ => None end.
Definition decode_settings (v : json) : option HistorySettings :=
  let d := HistorySettings_default in
  fs ← struct_fields false ["enabled"; "interval_ms"; "hot_interval_ms"; "hot_idle_ms"; "jpeg_quality"; "max_dim"; "dedup_hamming";
                            "keyframe_max_gap_ms"; "monitor"; "ocr"]%string v;
  match fs with
  | [en; i; h; hi; q; m; dd; gap; mon; oc] =>
      en ← field_or as_bool (enabled d) en; i ← field_or (bounded_int u64_max) (interval_ms d) i;
      h ← field_or (bounded_int u64_max) (hot_interval_ms d) h; hi ← field_or (bounded_int u64_max) (hot_idle_ms d) hi;
      q ← field_or (bounded_int 255) (jpeg_quality d) q; m ← field_or (bounded_int u32_max) (max_dim d) m;
      dd ← field_or (bounded_int u32_max) (dedup_hamming d) dd; gap ← field_or (bounded_int u64_max) (keyframe_max_gap_ms d) gap;
      mon ← field_or opt_index (monitor d) mon; oc ← field_or as_bool (ocr d) oc;
      Some {| enabled := en; interval_ms := i; hot_interval_ms := h; hot_idle_ms := hi; jpeg_quality := q; max_dim := m;
              dedup_hamming := dd; keyframe_max_gap_ms := gap; monitor := mon; ocr := oc |}
  | _ => None
  end.
(** [set_recall_settings]: the live settings and the cached copy. *)
Definition set_recall_settings (settings : json) (live : HistorySettings) (saved : option HistorySettings) : HistorySettings * option HistorySettings :=
  match decode_settings settings with Some next => (next, Some next) | None => (live, saved) end.
(** What [start_recall_capture] seeds the loop with: the cached settings, and now as the last input. *)
Definition seed_settings (saved : option HistorySettings) : HistorySettings := default HistorySettings_default saved.
Definition seed_last_input (now : Z) : Z := now.

(** ** Pixels: [image_ops.rs] *)

Class Images (I : Type) := {
  width : I -> Z; height : I -> Z;
  resize : I -> Z -> Z -> I;
  pixels : I -> list (Z * Z * Z);
  write_jpeg : I -> Z -> option (list Z);
  ocr_rgba : I -> option (string * list OcrWord)
}.

Definition luma (px : Z * Z * Z) : Z := let '(r, g, b) := px in (r * 299 + g * 587 + b * 114) / 1000.
Fixpoint hash_bits (i mean : Z) (lumas : list Z) : Z :=
  match lumas with
  | [] => 0
  | l :: ls => Z.lor (if mean <=? l then Z.shiftl 1 i else 0) (hash_bits (i + 1) mean ls)
  end.
Definition hash_of (lumas : list Z) : Z := hash_bits 0 (foldr Z.add 0 lumas / 64) lumas.
Definition count_ones (n : Z) : Z := Z.of_nat (length (List.filter (fun i => Z.testbit n (Z.of_nat i)) (seq 0 64))).
Definition hamming (a b : Z) : Z := count_ones (Z.lxor a b).

(** [f32] arithmetic: binary floats of 24 bits. [round] is to the nearest whole number, halves away from zero;
    the cast to [u32] saturates and sends NaN to 0. *)
Definition f32_of (n : Z) : spec_float := binary_normalize 24 128 n 0 false.
Definition round_u32 (f : spec_float) : Z :=
  match f with
  | S754_finite false m e => clampZ 0 u32_max (if 0 <=? e then Z.pos m * 2 ^ e else (2 * Z.pos m + 2 ^ (- e)) / 2 ^ (1 - e))
  | S754_infinity false => u32_max
  | _ => 0
  end.
Definition scaled (n longest max_dim : Z) : Z := Z.max 1 (round_u32 (SFmul 24 128 (f32_of n) (SFdiv 24 128 (f32_of max_dim) (f32_of longest)))).

Section Capture.
Context {I : Type} `{Images I}.

Definition average_hash (img : I) : Z := hash_of (luma <$> pixels (resize img 8 8)).
Definition downscale (img : I) (max_dim : Z) : I :=
  if max_dim =? 0 then img
  else
    let longest := Z.max (width img) (height img) in
    if longest <=? max_dim then img
    else resize img (scaled (width img) longest max_dim) (scaled (height img) longest max_dim).

(** ** One monitor's capture *)

(** What a monitor's slot remembers of the last frame stored: [last_hash], [last_context], [last_context_generation]. *)
Record Slot := { last_hash : option Z; last_context : option (option string * option string); last_context_generation : option Generation }.
Definition Slot_new : Slot := {| last_hash := None; last_context := None; last_context_generation := None |}.
Inductive SendOutcome : Type := Accepted | ChannelFull | ChannelClosed.
(** The world of one capture: the grant file at each of its six reads, the foreground samples around the
    screenshot with the time they bracket, the screenshot with its time and duration, and the writer's channel. *)
Record Shot := {
  sh_generations : StoreFile; sh_before_file : StoreFile; sh_before : result Snapshot Reason; sh_first_check : StoreFile;
  sh_image : option I; sh_captured_at : Z; sh_duration_ms : Z;
  sh_after_file : StoreFile; sh_after : result Snapshot Reason; sh_elapsed : Duration;
  sh_sanitize : StoreFile; sh_second_check : StoreFile; sh_resanitize : StoreFile; sh_send : SendOutcome
}.
Inductive ShotResult : Type := Skipped | Unchanged | Offered (f : HistoryFrame) (o : SendOutcome).

Definition capture_duration_ms (ms : Z) : option Z := if ms <=? 1000 then Some ms else None.
Definition fresh (g : option Generation) (file : StoreFile) : bool := is_some_and g (fun g => valid_fresh g file).
Definition recognise (cfg : HistorySettings) (small : I) : option string * list OcrWord :=
  if ocr cfg then
    match ocr_rgba small with
    | Some (text, words) => if String.eqb (trim text) "" then (None, []) else (Some text, words)
    | None => (None, [])
    end
  else (None, []).
Definition shoot (cfg : HistorySettings) (generation : option Generation) (force : bool) (idx : nat) (e : Shot) (s : Slot) : Slot * ShotResult :=
  let gs := generations_from_state (load_or_default (sh_generations e)) in
  let s := if bool_decide (last_context_generation s = window_generation gs) then s
           else {| last_hash := last_hash s; last_context := None; last_context_generation := window_generation gs |} in
  let before := snapshot (sh_before_file e) (window_generation gs) (sh_before e) in
  if negb (fresh generation (sh_first_check e)) then (s, Skipped)
  else
    match sh_image e with
    | None => (s, Skipped)
    | Some rgba =>
        let after := snapshot (sh_after_file e) (window_generation gs) (sh_after e) in
        let context := sanitize_in (around before after (sh_elapsed e) gs) (load_or_default (sh_sanitize e)) gs in
        let sig := signature context in
        let context_changed := is_some_and sig (fun x => negb (bool_decide (last_context s = Some x))) in
        let small := downscale rgba (max_dim cfg) in
        let hash := average_hash small in
        let unchanged := negb force && is_some_and (last_hash s) (fun prev => (hamming prev hash <=? dedup_hamming cfg) && negb context_changed) in
        if unchanged then (s, Unchanged)
        else
          let (text, words) := recognise cfg small in
          match write_jpeg small (clampZ 1 100 (jpeg_quality cfg)) with
          | None => (s, Skipped)
          | Some jpeg =>
              if negb (fresh generation (sh_second_check e)) then (s, Skipped)
              else
                let f := {| hf_generation := generation; hf_captured_at := sh_captured_at e; hf_capture_duration_ms := capture_duration_ms (sh_duration_ms e);
                            hf_context := Some (sanitize_in context (load_or_default (sh_resanitize e)) gs); hf_context_generations := gs;
                            hf_monitor := Z.of_nat idx; hf_width := width small; hf_height := height small; hf_jpeg := jpeg; hf_phash := hash;
                            hf_ocr_text := text; hf_ocr_words := words |} in
                match sh_send e with
                | Accepted =>
                    ({| last_hash := Some hash; last_context := match sig with Some _ => sig | None => last_context s end;
                        last_context_generation := last_context_generation s |}, Offered f Accepted)
                | o => (s, Offered f o)
                end
          end
    end.

(** ** The loop *)

(** [targets]: the configured monitor when it exists, else every monitor. *)
Definition targets (configured : option Z) (monitors : nat) : list nat :=
  match configured with
  | Some i => if i <? Z.of_nat monitors then [Z.to_nat i] else seq 0 monitors
  | None => seq 0 monitors
  end.
Record Loop := { generation : option Generation; slots : list (nat * Slot); since_stored_ms : Z; waited_ms : Z }.
Definition QUANTUM_MS : Z := 1000.
(** The loop's start: without a monitor there is no loop. *)
Definition start_history_capture (initial : HistorySettings) (monitors : nat) (file : StoreFile) : option Loop :=
  match targets (monitor initial) monitors with
  | [] => None
  | ts => Some {| generation := rok (load file) ≫= fun s => generation_from_state s Recall; slots := (fun i => (i, Slot_new)) <$> ts;
                  since_stored_ms := keyframe_max_gap_ms initial; waited_ms := 0 |}
  end.
(** What one turn reads: the cached grants and the grant file at its head, the flags, the settings, the clock,
    the last input and one [Shot] per monitor. *)
Record Tick := {
  tk_cached : Store; tk_file : StoreFile; tk_stop : bool; tk_cfg : HistorySettings; tk_active : bool; tk_now_ms : Z; tk_last_input_ms : Z;
  tk_shots : list Shot
}.
Definition forget (s : Slot) : Slot := {| last_hash := None; last_context := None; last_context_generation := last_context_generation s |}.
(** The head of the loop: a generation that fell is dropped with what was remembered under it, and renewed. *)
Definition renew (t : Tick) (l : Loop) : Loop :=
  let l := if is_some_and (generation l) (fun g => negb (matches g (tk_cached t)))
           then {| generation := None; slots := (fun '(i, s) => (i, forget s)) <$> slots l; since_stored_ms := since_stored_ms l; waited_ms := 0 |} else l in
  match generation l with
  | Some _ => l
  | None => {| generation := rok (load (tk_file t)) ≫= fun s => generation_from_state s Recall; slots := slots l;
               since_stored_ms := since_stored_ms l; waited_ms := waited_ms l |}
  end.
Definition with_waited (l : Loop) (w : Z) : Loop := {| generation := generation l; slots := slots l; since_stored_ms := since_stored_ms l; waited_ms := w |}.
(** The monitors in order, until the channel is found closed. *)
Fixpoint shoot_all (cfg : HistorySettings) (g : option Generation) (force : bool) (ss : list (nat * Slot)) (es : list Shot)
    : list (nat * Slot) * list ShotResult * bool :=
  match ss, es with
  | (i, s) :: ss, e :: es =>
      let (s, r) := shoot cfg g force i e s in
      match r with
      | Offered _ ChannelClosed => ((i, s) :: ss, [r], true)
      | _ => let '(ss, rs, closed) := shoot_all cfg g force ss es in ((i, s) :: ss, r :: rs, closed)
      end
  | ss, _ => (ss, [], false)
  end.
Definition stored (r : ShotResult) : bool := match r with Offered _ Accepted => true | _ => false end.
Definition desired_ms (cfg : HistorySettings) (now last_input : Z) : Z :=
  if Z.max 0 (now - last_input) <=? hot_idle_ms cfg then hot_interval_ms cfg else interval_ms cfg.
(** One turn, and whether the loop goes on. *)
Definition turn (t : Tick) (l : Loop) : Loop * list ShotResult * bool :=
  let l := renew t l in
  if tk_stop t then (l, [], false)
  else
    let l := {| generation := generation l; slots := slots l; since_stored_ms := u64_saturating_add (since_stored_ms l) QUANTUM_MS;
                waited_ms := u64_saturating_add (waited_ms l) QUANTUM_MS |} in
    let cfg := tk_cfg t in
    if negb (enabled cfg) || negb (isSome (generation l)) then (with_waited l 0, [], true)
    else if negb (tk_active t) then (with_waited l 0, [], true)
    else
      let force := keyframe_max_gap_ms cfg <=? since_stored_ms l in
      if (waited_ms l <? Z.max (desired_ms cfg (tk_now_ms t) (tk_last_input_ms t)) QUANTUM_MS) && negb force then (l, [], true)
      else
        let '(ss, rs, closed) := shoot_all cfg (generation l) force (slots l) (tk_shots t) in
        if closed then ({| generation := generation l; slots := ss; since_stored_ms := since_stored_ms l; waited_ms := 0 |}, rs, false)
        else ({| generation := generation l; slots := ss; since_stored_ms := if existsb stored rs then 0 else since_stored_ms l; waited_ms := 0 |}, rs, true).
Fixpoint turns (ts : list Tick) (l : Loop) : Loop * list (list ShotResult) :=
  match ts with
  | [] => (l, [])
  | t :: ts => let '(l, rs, on) := turn t l in if on then let (l, rest) := turns ts l in (l, rs :: rest) else (l, [rs])
  end.
End Capture.
Arguments Shot _ : clear implicits.
Arguments Tick _ : clear implicits.

(** ** Change detection *)

Definition bright (mean : Z) (lumas : list Z) (i : nat) : bool := match lumas !! i with Some l => mean <=? l | None => false end.
Lemma one_bit k i : 0 <= k -> 0 <= i -> Z.testbit (Z.shiftl 1 k) i = bool_decide (i = k).
Proof.
  intros Hk Hi. rewrite Z.shiftl_spec by done. case_bool_decide as E.
  - subst. by rewrite Z.sub_diag.
  - destruct (Z.lt_ge_cases i k); [by rewrite Z.testbit_neg_r by lia|]. by rewrite Z.bits_above_log2 by (cbn; lia).
Qed.
Lemma hash_bits_spec mean lumas k i : 0 <= k -> 0 <= i ->
  Z.testbit (hash_bits k mean lumas) i = (k <=? i) && bright mean lumas (Z.to_nat (i - k)).
Proof.
  revert k. induction lumas as [|l ls IH]; intros k Hk Hi; cbn [hash_bits].
  { rewrite Z.testbit_0_l. unfold bright. by rewrite lookup_nil, andb_false_r. }
  rewrite Z.lor_spec, IH by lia.
  assert (B : Z.testbit (if mean <=? l then Z.shiftl 1 k else 0) i = bool_decide (i = k) && (mean <=? l)).
  { destruct (mean <=? l); [by rewrite one_bit, andb_true_r|by rewrite Z.testbit_0_l, andb_false_r]. }
  rewrite B. destruct (Z.lt_trichotomy i k) as [L|[->|L]].
  - rewrite bool_decide_eq_false_2 by lia. assert ((k <=? i) = false) as -> by lia. by assert ((k + 1 <=? i) = false) as -> by lia.
  - rewrite bool_decide_eq_true_2, Z.sub_diag, Z.leb_refl by done. assert ((k + 1 <=? k) = false) as -> by lia. cbn. by rewrite orb_false_r.
  - rewrite bool_decide_eq_false_2 by lia. assert ((k <=? i) = true) as -> by lia. assert ((k + 1 <=? i) = true) as -> by lia. cbn [andb orb].
    replace (Z.to_nat (i - k)) with (S (Z.to_nat (i - (k + 1)))) by lia. done.
Qed.
Definition mean (lumas : list Z) : Z := foldr Z.add 0 lumas / 64.
(** The 64 pixels, or positions, at which two thumbnails fall on different sides of their own means. *)
Definition flips (a b : list Z) : nat := length (List.filter (fun i => xorb (bright (mean a) a i) (bright (mean b) b i)) (seq 0 64)).

(** The distance by which the loop decides whether the screen changed is exactly the number of the 64 thumbnail
    pixels that moved across the mean brightness of their picture: the hash loses no pixel and counts none twice. *)
Theorem distance_counts_flipped_pixels a b : hamming (hash_of a) (hash_of b) = Z.of_nat (flips a b).
Proof.
  unfold hamming, count_ones, flips. f_equal. f_equal. apply List.filter_ext. intros i.
  rewrite Z.lxor_spec. unfold hash_of. rewrite !hash_bits_spec by lia. rewrite Z.sub_0_r, Nat2Z.id. assert ((0 <=? Z.of_nat i) = true) as -> by (apply Z.leb_le; lia). done.
Qed.

(** ** One capture *)

Section Facts.
Context {I : Type} `{Images I}.
Implicit Types (e : Shot I) (t : Tick I).

(** What an offered frame went through. *)
Record cleared (cfg : HistorySettings) (g : option Generation) (e : Shot I) (f : HistoryFrame) : Prop := {
  cl_generation : hf_generation f = g;
  cl_first : fresh g (sh_first_check e) = true;
  cl_second : fresh g (sh_second_check e) = true;
  cl_generations : hf_context_generations f = generations_from_state (load_or_default (sh_generations e));
  cl_context : exists c, hf_context f = Some (sanitize_in c (load_or_default (sh_resanitize e)) (hf_context_generations f))
}.
Lemma shoot_offered cfg g force i e s f o : (shoot cfg g force i e s).2 = Offered f o -> cleared cfg g e f.
Proof.
  unfold shoot. cbv zeta. set (s' := if bool_decide _ then s else _). clearbody s'.
  destruct (fresh g (sh_first_check e)) eqn:F1; [|done]. cbn [negb]. destruct (sh_image e) as [rgba|]; [|done].
  destruct (negb force && _); [done|]. destruct (recognise _ _) as [text words]. destruct (write_jpeg _ _) as [jpeg|]; [|done].
  destruct (fresh g (sh_second_check e)) eqn:F2; [|done]. cbn [negb].
  destruct (sh_send e); cbn; intros [= <- _]; (split; [done..|]; eexists; reflexivity).
Qed.
Lemma shoot_all_offered cfg g force ss es f o :
  Offered f o ∈ (shoot_all cfg g force ss es).1.2 -> exists e, e ∈ es /\ cleared cfg g e f.
Proof.
  revert es. induction ss as [|[i s] ss IH]; intros es; [cbn; intros K; by apply not_elem_of_nil in K|].
  destruct es as [|e es]; [intros K; by apply not_elem_of_nil in K|]. cbn [shoot_all].
  pose proof (shoot_offered cfg g force i e s) as O. destruct (shoot cfg g force i e s) as [s' r]. cbn [snd] in O.
  specialize (IH es). destruct (shoot_all cfg g force ss es) as [[ss' rs] closed]. cbn [fst snd] in IH.
  intros K. assert (r = Offered f o \/ Offered f o ∈ rs) as [->|K'].
  { assert (K0 : Offered f o ∈ r :: rs \/ Offered f o ∈ [r]) by (destruct r as [| |f' [| |]]; cbn [fst snd] in K; auto).
    destruct K0 as [K0|K0]; apply elem_of_cons in K0 as [->|K0]; [by left|by right|by left|]. by apply not_elem_of_nil in K0. }
  - exists e. split; [by apply list_elem_of_here|]. by apply (O f o).
  - destruct (IH K') as (e' & I' & C). exists e'. split; [by apply elem_of_cons; right|done].
Qed.

(** ** The loop *)

Definition for_recall (l : @Loop) : Prop := forall g, generation l = Some g -> gen_module g = Recall.
Lemma renew_for_recall t l : for_recall l -> for_recall (renew t l).
Proof.
  intros F. unfold renew. cbv zeta. set (l' := if is_some_and _ _ then _ else l).
  assert (F' : for_recall l') by (subst l'; by destruct (is_some_and _ _)). clearbody l'.
  destruct (generation l') as [g|] eqn:E; [intros g'; rewrite E; by intros [= <-]; apply F'|].
  intros g' K. cbn in K. apply bind_Some in K as (st & _ & K). by apply generation_from_state_Some in K as [K _].
Qed.
Lemma turn_offered t l f o :
  for_recall l -> Offered f o ∈ (turn t l).1.2 ->
  enabled (tk_cfg t) = true /\ tk_active t = true /\ tk_stop t = false
  /\ exists e g, e ∈ tk_shots t /\ gen_module g = Recall /\ cleared (tk_cfg t) (Some g) e f.
Proof.
  intros F. apply (renew_for_recall t) in F. unfold turn. cbv zeta. destruct (tk_stop t); [intros K; by apply not_elem_of_nil in K|].
  destruct (enabled (tk_cfg t)); cbn [negb orb]; [|intros K; by apply not_elem_of_nil in K]. cbn [generation].
  destruct (generation (renew t l)) as [g|] eqn:E; cbn [isSome negb]; [|intros K; by apply not_elem_of_nil in K].
  destruct (tk_active t); cbn [negb]; [|intros K; by apply not_elem_of_nil in K].
  destruct (_ && _); [intros K; by apply not_elem_of_nil in K|]. cbn [generation slots since_stored_ms].
  set (force := _ <=? _). pose proof (shoot_all_offered (tk_cfg t) (Some g) force (slots (renew t l)) (tk_shots t) f o) as O.
  destruct (shoot_all _ _ _ _ _) as [[ss rs] closed]. cbn [fst snd] in O. intros K.
  assert (K' : Offered f o ∈ rs) by (by destruct closed). destruct (O K') as (e & Ie & C).
  repeat (split; [done|]). exists e, g. split; [done|]. split; [by apply F|done].
Qed.
Lemma turn_for_recall t l : for_recall l -> for_recall (turn t l).1.1.
Proof.
  intros F. apply (renew_for_recall t) in F. unfold turn. cbv zeta. destruct (tk_stop t); [done|].
  destruct (negb (enabled _) || _); [done|]. destruct (negb (tk_active t)); [done|]. destruct (_ && _); [done|].
  destruct (shoot_all _ _ _ _ _) as [[ss rs] closed]. by destruct closed.
Qed.

(** C23: Whatever happens on the device, every keyframe the loop hands over was taken while Recall was switched on,
    the user was active and the loop was not stopped, under a generation of the Recall module that the grant file
    still held both right before the screenshot and right before the hand-over; and its context was re-checked,
    under the window grant the frame claims, against the grants of that moment. *)
Theorem frames_need_a_live_grant initial monitors file l ts rs f o :
  start_history_capture initial monitors file = Some l -> rs ∈ (turns ts l).2 -> Offered f o ∈ rs ->
  exists t e g, t ∈ ts /\ e ∈ tk_shots t /\ enabled (tk_cfg t) = true /\ tk_active t = true /\ tk_stop t = false
    /\ gen_module g = Recall /\ hf_generation f = Some g
    /\ valid_fresh g (sh_first_check e) = true /\ valid_fresh g (sh_second_check e) = true
    /\ exists c, hf_context f = Some (sanitize_in c (load_or_default (sh_resanitize e)) (hf_context_generations f)).
Proof.
  intros S. assert (F : for_recall l).
  { unfold start_history_capture in S. destruct (targets _ _); [done|]. injection S as <-. intros g K. cbn in K.
    apply bind_Some in K as (st & _ & K). by apply generation_from_state_Some in K as [K _]. }
  clear S. revert l F. induction ts as [|t ts IH]; intros l F K Kf; [by apply not_elem_of_nil in K|].
  cbn [turns] in K. pose proof (turn_offered t l f o F) as O. pose proof (turn_for_recall t l F) as F'.
  destruct (turn t l) as [[l' rs'] on]. cbn [fst snd] in O, F'. specialize (IH l' F').
  assert (rs = rs' \/ rs ∈ (turns ts l').2) as [->|K'].
  { destruct on; [|cbn in K; apply list_elem_of_singleton in K; by left]. destruct (turns ts l') as [l2 rest]. cbn [snd] in K |- *. by apply elem_of_cons in K. }
  - destruct (O Kf) as (En & Ac & St & e & g & Ie & M & [C1 C2 C3 C4 C5]).
    exists t, e, g. split; [by apply list_elem_of_here|]. by repeat (split; [done|]).
  - destruct (IH K' Kf) as (t' & e & g & It & R). exists t', e, g. split; [by apply elem_of_cons; right|done].
Qed.

(** ** The heartbeat *)

(** A capture that succeeds, and a turn that may capture. *)
Record works (cfg : HistorySettings) (g : Generation) (e : Shot I) : Prop := {
  wk_first : valid_fresh g (sh_first_check e) = true;
  wk_second : valid_fresh g (sh_second_check e) = true;
  wk_image : exists img jpeg, sh_image e = Some img /\ write_jpeg (downscale img (max_dim cfg)) (clampZ 1 100 (jpeg_quality cfg)) = Some jpeg;
  wk_send : sh_send e = Accepted
}.
Record healthy (g : Generation) (t : Tick I) : Prop := {
  hy_grant : matches g (tk_cached t) = true;
  hy_stop : tk_stop t = false;
  hy_enabled : enabled (tk_cfg t) = true;
  hy_active : tk_active t = true;
  hy_shots : exists e es, tk_shots t = e :: es /\ works (tk_cfg t) g e;
  hy_open : Forall (fun e => sh_send e <> ChannelClosed) (tk_shots t)
}.
Lemma shoot_forced cfg g i e s : works cfg g e -> stored (shoot cfg (Some g) true i e s).2 = true.
Proof.
  intros [F1 F2 (img & jpeg & Ei & Ej) Es]. unfold shoot. cbv zeta. set (s' := if bool_decide _ then s else _). clearbody s'.
  cbn [fresh is_some_and]. rewrite F1, Ei. cbn [negb andb]. destruct (recognise _ _). by rewrite Ej, F2, Es.
Qed.
Lemma shoot_open cfg g force i e s : sh_send e <> ChannelClosed -> forall f, (shoot cfg g force i e s).2 <> Offered f ChannelClosed.
Proof.
  intros N f. unfold shoot. cbv zeta. set (s' := if bool_decide _ then s else _). clearbody s'.
  destruct (negb (fresh _ _)); [done|]. destruct (sh_image e); [|done]. destruct (_ && _); [done|].
  destruct (recognise _ _). destruct (write_jpeg _ _); [|done]. destruct (negb (fresh _ _)); [done|]. by destruct (sh_send e).
Qed.
Lemma shoot_all_open cfg g force ss es :
  Forall (fun e => sh_send e <> ChannelClosed) es ->
  (shoot_all cfg g force ss es).2 = false /\ length (shoot_all cfg g force ss es).1.1 = length ss.
Proof.
  revert es. induction ss as [|[i s] ss IH]; intros es F; [done|]. destruct es as [|e es]; [done|].
  apply Forall_cons in F as [N F]. cbn [shoot_all]. pose proof (shoot_open cfg g force i e s N) as O. destruct (shoot cfg g force i e s) as [s' r].
  cbn [snd] in O. specialize (IH es F). destruct (shoot_all cfg g force ss es) as [[ss' rs] closed]. cbn [fst snd] in IH. destruct IH as [IH1 IH2].
  destruct r as [| |f o]; [by split; [|cbn; rewrite IH2]..|].
  destruct o; [by split; [|cbn; rewrite IH2]..|]. by destruct (O f).
Qed.
Lemma shoot_all_forced cfg g i s ss e es : works cfg g e -> existsb stored (shoot_all cfg (Some g) true ((i, s) :: ss) (e :: es)).1.2 = true.
Proof.
  intros W. cbn [shoot_all]. pose proof (shoot_forced cfg g i e s W) as K. destruct (shoot cfg (Some g) true i e s) as [s' r]. cbn [snd] in K.
  destruct r as [| |f o]; [done..|]. destruct o; [|done..]. by destruct (shoot_all cfg (Some g) true ss es) as [[ss' rs] closed].
Qed.
Lemma renew_healthy g t l : generation l = Some g -> matches g (tk_cached t) = true -> renew t l = l.
Proof. intros E M. unfold renew. rewrite E. cbn [is_some_and]. rewrite M. cbn [negb]. by rewrite E. Qed.
(** A healthy turn stores a frame, or the gap since the last one is still short of the limit. *)
Lemma turn_healthy g t l :
  generation l = Some g -> slots l <> [] -> healthy g t ->
  exists l' rs, turn t l = (l', rs, true) /\ generation l' = Some g /\ slots l' <> []
    /\ (existsb stored rs = true
        \/ since_stored_ms l' = u64_saturating_add (since_stored_ms l) QUANTUM_MS /\ since_stored_ms l' < keyframe_max_gap_ms (tk_cfg t)).
Proof.
  intros E N [M St En Ac (e & es & Ee & W) Op]. unfold turn. rewrite (renew_healthy g) by done. rewrite St, En, E, Ac. cbv zeta.
  cbn [negb orb isSome generation slots since_stored_ms waited_ms].
  set (since := u64_saturating_add (since_stored_ms l) QUANTUM_MS).
  destruct (keyframe_max_gap_ms (tk_cfg t) <=? since) eqn:Force.
  - rewrite andb_false_r. destruct (slots l) as [|[i s] ss] eqn:Es; [done|].
    pose proof (shoot_all_forced (tk_cfg t) g i s ss e es W) as K. destruct (shoot_all_open (tk_cfg t) (Some g) true ((i, s) :: ss) (tk_shots t) Op) as [C L].
    rewrite Ee in C, L |- *. destruct (shoot_all _ _ _ _ _) as [[ss' rs] closed]. cbn [fst snd] in *. subst closed.
    eexists _, _. split; [done|]. split; [done|]. cbn [slots]. split; [by destruct ss'|]. by left.
  - apply Z.leb_gt in Force. destruct (_ && _); [eexists _, _; split; [done|]; split; [done|]; split; [done|]; by right|].
    destruct (shoot_all_open (tk_cfg t) (Some g) false (slots l) (tk_shots t) Op) as [C L].
    destruct (shoot_all _ _ _ _ _) as [[ss' rs] closed]. cbn [fst snd] in *. subst closed.
    eexists _, _. split; [done|]. split; [done|]. cbn [slots since_stored_ms].
    split; [by destruct ss', (slots l)|]. destruct (existsb stored rs); [by left|by right].
Qed.

(** C24: While the machine is in use, Recall granted and captures succeed, no stretch of turns as long as the keyframe
    gap passes without a keyframe stored: whatever the screen shows, a frame is forced at the latest when the gap is over. *)
Theorem machine_on_is_provable ts l g gap :
  generation l = Some g -> slots l <> [] -> 0 <= since_stored_ms l ->
  Forall (fun t => healthy g t /\ keyframe_max_gap_ms (tk_cfg t) <= gap) ts ->
  gap <= u64_max -> ts <> [] -> gap <= QUANTUM_MS * Z.of_nat (length ts) ->
  exists rs, rs ∈ (turns ts l).2 /\ existsb stored rs = true.
Proof.
  intros E N S F U Nt G.
  assert (K : gap <= since_stored_ms l + QUANTUM_MS * Z.of_nat (length ts)) by lia. clear G.
  revert l E N S K. induction F as [|t ts [Hh Hg] F IH]; intros l E N S K; [done|].
  destruct (turn_healthy g t l E N Hh) as (l' & rs & Et & E' & N' & D). cbn [turns]. rewrite Et.
  destruct (turns ts l') as [l2 rest] eqn:Er. destruct D as [D|[D1 D2]]; [exists rs; split; [by apply list_elem_of_here|done]|].
  cbn [length] in K. unfold u64_saturating_add, QUANTUM_MS in *.
  destruct ts as [|t2 ts]; [cbn in K; lia|].
  destruct (IH ltac:(done) l' E' N' ltac:(lia) ltac:(lia)) as (rs' & I' & D'). rewrite Er in I'.
  exists rs'. split; [by apply elem_of_cons; right|done].
Qed.
End Facts.

(** ** Examples *)

(** A screen as its 64 grey levels, in the image library's place. *)
#[local] Instance ex_images : Images (list Z) := {|
  width _ := 8; height _ := 8; resize img _ _ := img; pixels img := (fun l => (l, l, l)) <$> img;
  write_jpeg img _ := Some img; ocr_rgba _ := None
|}.
Definition ex_black : list Z := replicate 64 0.
Definition ex_white : list Z := replicate 64 255.
Definition ex_half : list Z := replicate 32 0 ++ replicate 32 255.
Definition ex_store : Store := {| st_revision := 1; receipts := ∅; grants := {[Recall := {| g_enabled := true; g_revision := 1 |}]} |}.
Definition ex_recall : Generation := {| gen_module := Recall; gen_revision := 1 |}.
Definition ex_shot (img : list Z) : Shot (list Z) :=
  let holds := FileHolds ex_store in
  {| sh_generations := holds; sh_before_file := holds; sh_before := Err Unsupported; sh_first_check := holds; sh_image := Some img; sh_captured_at := 0;
     sh_duration_ms := 20; sh_after_file := holds; sh_after := Err Unsupported; sh_elapsed := 0; sh_sanitize := holds; sh_second_check := holds;
     sh_resanitize := holds; sh_send := Accepted |}.
Definition ex_tick (active : bool) (img : list Z) : Tick (list Z) :=
  {| tk_cached := ex_store; tk_file := FileHolds ex_store; tk_stop := false; tk_cfg := HistorySettings_default; tk_active := active; tk_now_ms := 10 ^ 9;
     tk_last_input_ms := 0; tk_shots := [ex_shot img] |}.
Definition ex_stored (ts : list (Tick (list Z))) : option (list bool) :=
  (fun l => existsb stored <$> (turns ts l).2) <$> start_history_capture HistorySettings_default 1 (FileHolds ex_store).

Lemma stored_offered rs : existsb stored rs = true -> exists f, Offered f Accepted ∈ rs.
Proof.
  intros E. apply existsb_exists in E as (r & I & S). apply list_elem_of_In in I. destruct r as [| |f o]; try done. destruct o; try done. by exists f.
Qed.
Lemma frames_need_a_live_grant_witness :
  exists l rs f, start_history_capture HistorySettings_default 1 (FileHolds ex_store) = Some l /\ rs ∈ (turns [ex_tick true ex_half] l).2
    /\ Offered f Accepted ∈ rs /\ exists g, gen_module g = Recall /\ hf_generation f = Some g.
Proof.
  assert (E : ex_stored [ex_tick true ex_half] = Some [true]) by (vm_compute; reflexivity). unfold ex_stored in E.
  destruct (start_history_capture HistorySettings_default 1 (FileHolds ex_store)) as [l|] eqn:S; [|done].
  change (Some (existsb stored <$> (turns [ex_tick true ex_half] l).2) = Some [true]) in E. apply Some_inj in E.
  destruct ((turns [ex_tick true ex_half] l).2) as [|rs [|]] eqn:T; try done. injection E as E. destruct (stored_offered rs E) as (f & If).
  assert (Ir : rs ∈ (turns [ex_tick true ex_half] l).2) by (rewrite T; apply list_elem_of_here).
  exists l, rs, f. split; [done|]. split; [exact Ir|]. split; [exact If|].
  destruct (frames_need_a_live_grant HistorySettings_default 1 (FileHolds ex_store) l [ex_tick true ex_half] rs f Accepted S Ir If)
    as (t & e & g & _ & _ & _ & _ & _ & M & G & _). by exists g.
Defined.

Definition ex_loop : Loop := {| generation := Some ex_recall; slots := [(0%nat, Slot_new)]; since_stored_ms := 0; waited_ms := 0 |}.
Lemma machine_on_is_provable_witness :
  exists rs, rs ∈ (turns (replicate 300 (ex_tick true ex_half)) ex_loop).2 /\ existsb stored rs = true.
Proof.
  apply (machine_on_is_provable (replicate 300 (ex_tick true ex_half)) ex_loop ex_recall 300000); try done.
  apply Forall_replicate. split; [|done]. split; [by vm_compute|done|done|done| |].
  - exists (ex_shot ex_half), []. split; [done|]. split; [by vm_compute|by vm_compute| |done]. by exists ex_half, ex_half.
  - by apply Forall_singleton.
Defined.

(** A still screen is stored once and then dropped until the gap is over; a change is stored at the next interval. *)
Example still_screen_is_dropped :
  ex_stored (replicate 61 (ex_tick true ex_half)) = Some (true :: replicate 60 false)
  /\ ex_stored (ex_tick true ex_half :: replicate 20 (ex_tick true ex_black)) = Some (true :: replicate 19 false ++ [true]).
Proof. by vm_compute. Qed.
(** A black screen and a white one have the same hash: every pixel is at the mean of both. *)
Example black_and_white_look_alike :
  hamming (average_hash ex_black) (average_hash ex_white) = 0
  /\ ex_stored (ex_tick true ex_black :: replicate 100 (ex_tick true ex_white)) = Some (true :: replicate 100 false).
Proof. by vm_compute. Qed.
(** Five minutes away from the machine: the accumulator is reset at every turn, but the gap goes on growing, so the
    first turn after the return stores a frame, without any interaction. *)
Example return_from_idle_fires_a_frame :
  ex_stored (ex_tick true ex_half :: replicate 300 (ex_tick false ex_half) ++ [ex_tick true ex_half]) = Some (true :: replicate 300 false ++ [true]).
Proof. by vm_compute. Qed.
(** The last input is seeded with now, which is what makes the loop start at the hot cadence. *)
Example seeded_loop_starts_hot now : 0 <= now -> desired_ms (seed_settings None) now (seed_last_input now) = hot_interval_ms HistorySettings_default.
Proof. intros _. unfold desired_ms, seed_last_input. by rewrite Z.sub_diag. Qed.

(** The pictures of the source's own tests: the ratio is kept, nothing is enlarged, an edge keeps a pixel. *)
Example downscale_sizes :
  (scaled 400 400 100, scaled 200 400 100) = (100, 50) /\ (scaled 1000 1000 10, scaled 2 1000 10) = (10, 1)
  /\ (scaled 2560 2560 1600, scaled 1440 2560 1600) = (1600, 900) /\ (scaled 3840 3840 1600, scaled 2160 3840 1600) = (1600, 900).
Proof. by vm_compute. Qed.
Example partial_settings_keep_defaults :
  decode_settings (JObj [("interval_ms", JInt 5000); ("monitor", JNull)])%string
    = Some {| enabled := true; interval_ms := 5000; hot_interval_ms := 6000; hot_idle_ms := 20000; jpeg_quality := 45; max_dim := 1600; dedup_hamming := 4;
              keyframe_max_gap_ms := 300000; monitor := None; ocr := true |}
  /\ decode_settings (JObj [("jpeg_quality", JInt 256)])%string = None.
Proof. by vm_compute. Qed.
